(* ===== verification/_CoqProject ===== *)
-Q . S2P
Prelude.v
Fsm.v
EventLoop.v
LoopTasks.v
Utils.v
VpnTypes.v
VpnFsm.v
VpnManager.v
VpnProps.v
VpnSystem.v
Pbuf.v
PbufProps.v
InetChksum.v
WireUtils.v
UdpMux.v
UdpMuxProps.v
IcmpMux.v
Ip4Addr.v
DomainFilter.v
DomainFilterProps.v
IcmpManager.v
UpstreamMux.v
UpstreamMuxProps.v
Connectors.v
ConnectorsProps.v
VpnClient.v
VpnClientProps.v
DataBuffers.v
DataBuffersProps.v
Http2.v
Http2Props.v
Http2Runs.v
ConnStats.v
Tunnel.v
TunnelInv.v
TunnelSafe.v
TunnelRuns.v
TunnelDemo.v
Effects.v
TcpSocket.v
Socks5Wire.v
Socks5.v
Socks5Inv.v
Socks5Safe.v
Socks5Read.v
Socks5Runs.v
Socks5Demo.v
