(* ===== verification/Prelude.v ===== *)
(** * Verification of the TrustTunnel client

    The program is the TrustTunnel VPN client (C++, with the lwIP network stack
    in C): applications' connections enter through a TUN device or a SOCKS
    listener, a routing policy decides which of them go through the tunnel, and
    those are multiplexed over HTTP sessions with the selected endpoint.  This
    library models the parts that carry its own logic, as functions on explicit
    states, and proves what makes them correct.

    ** The parts, and the files that model them

    - _Engine._  [Fsm.v] is the state machine engine ([common/src/fsm.cpp],
      [fsm_validation.cpp]) for any owner with a [HasFsm] instance.
      [EventLoop.v] is the event loop ([common/src/event_loop.cpp]) for any
      owner with a [HasLoop] instance: submitted and deferred tasks, their ids,
      cancellation, the exit protocol, the owning task ids ([AutoTaskId]).
      [LoopTasks.v] says which tasks a loop holds and how each operation changes
      that, for the objects that reason about their own tasks.  [Utils.v] holds
      the shared algorithms of [common/include/vpn/utils.h].
    - _Session._  [VpnTypes.v] has the data of [core/src/vpn_manager.h] and
      [vpn_fsm.h], [VpnFsm.v] the transition table of [core/src/vpn_fsm.cpp]
      row by row with its conditions and actions, [VpnManager.v] the public
      calls and the tasks of [core/src/vpn_manager.cpp].  [VpnProps.v] relates
      one dispatch to an abstract session; [VpnSystem.v] composes manager, event
      loop, pinger, client and timers into one step relation and proves the
      properties of all runs.
    - _Connection._  [Connectors.v] has the connectors that open the session
      with an endpoint, one upstream ([core/src/single_upstream_connector.cpp])
      or a main one and a fallback ([fallbackable_upstream_connector.cpp]);
      [ConnectorsProps.v] follows a connection attempt over any interleaving of
      upstream events and tasks.  [VpnClient.v] is the client the manager drives
      ([core/src/vpn_client.cpp]), [VpnClientProps.v] its invariant on every
      run.
    - _Routing._  [DomainFilter.v] is [core/src/domain_filter.cpp]: the
      exclusion list, its nested filters and caches.  [DomainFilterProps.v]
      proves it against the documented policy.  [Tunnel.v] is
      [core/src/tunnel.cpp], which joins each connection of a listener to one of
      an upstream: the heap of [VpnConnection]s and its two tables, every event
      of the upstreams and the listeners, routing, the look-up of the domain in
      the first packets, migration to another upstream, resolving.  It is a
      state monad; [TunnelEnv] answers for the objects around the tunnel and may
      raise events inside any call.  [TunnelInv.v] has the invariant and what an
      operation may change of it, [TunnelSafe.v] the handlers one by one against
      it, [TunnelRuns.v] all runs, [TunnelDemo.v] a concrete environment with
      the witnesses and the runs of two defects.  [ConnStats.v] is the monitor of traffic
      ([core/src/connection_statistics.cpp]) the tunnel feeds.
    - _Multiplexing._  [UpstreamMux.v] is [core/src/upstream_multiplexer.cpp],
      the pool of sessions; [UpstreamMuxProps.v] its invariant and what becomes
      of each connection.  [UdpMux.v] and [UdpMuxProps.v] are
      [core/src/http_udp_multiplexer.cpp] (datagrams over one stream),
      [IcmpMux.v] is [core/src/http_icmp_multiplexer.cpp] (echo requests),
      [IcmpManager.v] is [core/src/icmp_manager.cpp] (pending echo requests and
      their time-outs), [WireUtils.v] the writer and the reader of
      [core/include/vpn/internal/wire_utils.h] they share.
    - _Transport._  [DataBuffers.v] has the buffers that keep what the reader of
      a connection has not taken ([core/src/memory_buffer.cpp],
      [memfile_buffer.cpp]) behind the interface [DataBuffer];
      [DataBuffersProps.v] states the interface's laws ([DataBufferLaws]) and
      proves them of both, of the second where files work ([FilesWork]).  [Http2.v] is [core/src/http2_upstream.cpp], the
      connections as streams of one HTTP/2 session, written against that
      interface; [Http2Props.v] follows one connection through each operation,
      [Http2Runs.v] all of them through every run.
    - _SOCKS._  [Socks5Wire.v] has the messages of the SOCKS5 protocol and
      [Socks5.v] the listener of [net/src/socks5_listener.cpp] with the deferred
      tasks of [core/src/socks_listener.cpp]; its connections read from the
      sockets of [TcpSocket.v] (the reading side of [net/src/tcp_socket.cpp]).
      They are written in the monad of [Effects.v]; [S5Env] answers for the
      owner, libevent and the system, and the owner may call back from inside an
      event.  [Socks5Inv.v] has the invariant and what nested calls may change
      of it, [Socks5Safe.v] the owner's calls, [Socks5Read.v] reading from
      sockets, [Socks5Runs.v] the other handlers and all runs, [Socks5Demo.v] a
      concrete environment with the witnesses and runs into the faults that are
      left.
    - _lwIP._  [Pbuf.v] and [PbufProps.v] are the packet buffers
      ([third-party/lwip/lwip/src/core/pbuf.c]), [InetChksum.v] the checksums
      ([inet_chksum.c]), [Ip4Addr.v] addresses in text ([ipv4/ip4_addr.c]).

    This file holds what all of them share: machine integers, the result type
    of code that can go wrong, list and map lemmas, the hint databases.

    ** How code is modelled

    A method is a function from the object's state to its state and result.
    [res] tells the ways to end apart: [Ok], [Abort] (a failed [assert], kept
    as a parameter [ndebug] where release builds compile it out, or an uncaught
    exception) and [UB] (a dangling iterator, a null dereference, an access out
    of bounds).  Integers are [Z] with the wrap of their width written out.
    Calls on other objects (client, pinger, child upstreams, the handler of
    events) are appended to an output trace, and what those objects answer is
    an argument; where a handler may call back it is a parameter of the model.
    [unordered_map] traversal order is either proved irrelevant or left as a
    parameter.

    Libraries outside the repository are interfaces: socket addresses
    ([SocketAddressOps] with [SocketAddressLaws]), parsing of addresses in
    text, CIDR range sets and caches with time-outs in [DomainFilter.v],
    [malloc] in [Pbuf.v], files in [DataBuffers.v] ([FileOps] with the documented
    [FileLaws], by which every call may fail and a write may be short), the clock
    everywhere.  Each has a concrete instance
    that satisfies the laws, used by the witnesses.

    Loops the code runs until a condition holds have fuel, chosen from a
    measure the loop decreases (the characters of a text, the sessions in the
    pool, the bytes of a buffer, the pbufs of a heap); running out of it is an
    error value, and the theorems state that the code returns, so that enough
    fuel is part of what is proved.  The fuel of [Tunnel.tun_event] is the depth
    to which events nest: the handlers have no fuel of their own, the depth
    belongs to the environment, and a run that exceeds it, or raises an event
    that [Tunnel.allowed] excludes, ends in [EnvFault], apart from the [Fault] of
    the tunnel itself.  [Socks5.nested_call] has its fuel in the same way, and
    [Http2.raise_in] the depth the stack has room for ([h2_nesting]), whose end is
    [UB]: the theorems show that it is not reached.

    A contract of the surrounding code is a predicate with a name
    ([Tunnel.allowed], [Socks5.call_allowed] and [answer_allowed],
    [VpnClientProps.client_allowed], [UpstreamMuxProps.um_allowed],
    [Http2Props.react_ok], [Http2Runs.allowed], [UdpMuxProps.op_allowed] and
    [handler_ok]), and the doc comment of a theorem that rests on it says what it
    asks for.  It does not include what the code asserts: a theorem about a debug
    build has a failed assertion as an outcome and says when it occurs
    ([asserted], [um_expected], [expected], [op_expected]).

    ** What the theorems show

    - On every run the kill switch never lets a connection around the tunnel,
      and every postponed connection request is answered ([VpnSystem.v]); one
      dispatch implements the abstract session, and its failures are exactly
      the listed ones ([VpnProps.v]); the engine dispatches the first matching
      row ([Fsm.v]).
    - A connection attempt with a fallback reports at most one result, leaves no
      task behind once it has, and always has something under way until then
      ([ConnectorsProps.v]); the client never uses a null pointer, fails no
      assertion but on an upstream event that comes too early, and is never stuck
      between two states ([VpnClientProps.v]).
    - The event loop runs tasks in order, and finalizes each exactly once.
    - The filter answers what the rules of its text say, for names and for
      addresses, and never excludes what the user wants in the tunnel.
    - Whatever its environment does within [Tunnel.allowed] and
      [Tunnel.op_allowed], the tunnel never touches a freed connection; its
      tables stay consistent; it opens a connection past the VPN only for a
      reason; and it passes the bytes of a connection on in order
      ([TunnelRuns.v]).  The monitor reports every byte once, at its pace
      ([ConnStats.v]).
    - Whatever clients send and in whatever order it comes, the SOCKS5 listener
      uses no freed connection and fails no assertion but by five known faults
      ([Socks5.S5Fault]); the owner hears of no client before its credentials, and
      of no connection after its end; no byte of a client is lost; and stopping
      leaves nothing behind ([Socks5Runs.v]).
    - The multiplexers touch no closed connection in any reachable state and fail
      no assertion but on what others do to them, deliver every datagram to its
      connection however the stream is cut and whatever the tunnel does in the
      events, and bound their tables.
    - A connection's buffer is a bounded queue of bytes, in memory or in a file on
      a disk that works; a short write loses data.  On every run of the HTTP/2
      upstream operations return, but for an assertion on what the endpoint sends;
      each connection ends with exactly one event as long as the tunnel closes only
      what it has open; its reader gets the bytes that arrived, in order; kept data
      has a task that delivers it; and closing the session ends all connections
      ([Http2Runs.v]).
    - Pbuf operations keep chains well formed and act on the content as their
      documentation says; checksums agree with each other and verify what they
      fill in.
    - Reading gives back what was written: addresses, packets, dotted
      notation.

    Some theorems record what the code does where it departs from its
    comments: an oversized datagram, a session that fails before it is opened,
    a refusal remembered for too long, an error that outlives its session, an
    authorization error lost at the end of a socket, a connection ended twice, data
    lost by a short write, a vector erased past its end, a client left behind by a
    migration that failed, the beginning of a stream lost by one that succeeded, a
    malformed SOCKS request that makes the listener copy past its end, bytes
    drained twice from a TLS socket.

    ** Not modelled

    TLS, writing to sockets, the HTTP/2 and HTTP/3 protocols (libevent, OpenSSL,
    nghttp2, quiche), the operating system layers and the desktop application:
    calls of code that is not in the repository, with little logic of their own.
    The TCP state machine of lwIP, the listener of the TUN device, the resolver
    of names and the DNS handler are not modelled either; the tunnel sees them
    through the interfaces of [Tunnel.v] only.  The tunnel and the SOCKS5
    listener are verified each against an interface that stands for the other,
    and not composed. *)
From stdpp Require Export base tactics list list_numbers option numbers sets gmap strings sorting.
From Stdlib Require Export Lia ZArith.

Open Scope Z_scope.

(** ** Machine integers

    A w-bit unsigned C integer is a [Z] kept in range by an explicit wrap. *)

Definition u8 (x : Z) : Z := x `mod` 2 ^ 8.
Definition u16 (x : Z) : Z := x `mod` 2 ^ 16.
Definition u32 (x : Z) : Z := x `mod` 2 ^ 32.
Definition u64 (x : Z) : Z := x `mod` 2 ^ 64.

Lemma u8_id x : 0 ≤ x < 2 ^ 8 → u8 x = x.
Proof. intros. by apply Z.mod_small. Qed.

Lemma u16_id x : 0 ≤ x < 2 ^ 16 → u16 x = x.
Proof. intros. by apply Z.mod_small. Qed.

Lemma u8_range x : 0 ≤ u8 x < 2 ^ 8.
Proof. by apply Z.mod_pos_bound. Qed.

Lemma u16_range x : 0 ≤ u16 x < 2 ^ 16.
Proof. by apply Z.mod_pos_bound. Qed.

Lemma u32_id x : 0 ≤ x < 2 ^ 32 → u32 x = x.
Proof. intros. by apply Z.mod_small. Qed.

(** ** Bit operations as arithmetic *)

Lemma lor_shift a b n : 0 ≤ n → 0 ≤ b < 2 ^ n → Z.lor (Z.shiftl a n) b = a * 2 ^ n + b.
Proof.
  intros Hn Hb. rewrite <- Z.shiftl_mul_pow2 by done.
  assert (Z.land (Z.shiftl a n) b = 0) as H0.
  { apply Z.bits_inj'. intros i Hi. rewrite Z.land_spec, Z.bits_0.
    destruct (Z.lt_ge_cases i n); [by rewrite Z.shiftl_spec_low|].
    destruct (Z.eq_dec b 0) as [->|Hb0]; [by rewrite Z.bits_0, andb_false_r|].
    rewrite (Z.bits_above_log2 b i), andb_false_r; [done|lia|].
    apply Z.log2_lt_pow2; [lia|]. apply Z.lt_le_trans with (2 ^ n); [lia|]. apply Z.pow_le_mono_r; lia. }
  by rewrite <- Z.lxor_lor, <- Z.add_nocarry_lxor.
Qed.

Lemma land_shift x m k : 0 ≤ k → Z.land x (Z.shiftl m k) = Z.shiftl (Z.land (Z.shiftr x k) m) k.
Proof.
  intros Hk. apply Z.bits_inj'. intros n Hn. rewrite Z.land_spec.
  destruct (Z.lt_ge_cases n k) as [Hlt|Hge].
  - by rewrite !Z.shiftl_spec_low, andb_false_r.
  - rewrite !Z.shiftl_spec, Z.land_spec, Z.shiftr_spec by lia. do 2 f_equal. lia.
Qed.

Lemma land_byte x : Z.land x 0xff = x `mod` 256.
Proof. change 0xff with (Z.ones 8). by rewrite Z.land_ones. Qed.

(** ** Outcomes of C++ code

    [Ok] is a normal return; [Abort] ends the process ([abort()], a failed
    [assert], an uncaught exception); [UB] is an operation the language gives
    no meaning to. *)

Inductive res (A : Type) : Type :=
| Ok (a : A)
| Abort
| UB.
Arguments Ok {A} a.
Arguments Abort {A}.
Arguments UB {A}.

#[export] Instance res_ret : MRet res := @Ok.
#[export] Instance res_bind : MBind res := fun A B f m =>
  match m with
  | Ok a => f a
  | Abort => Abort
  | UB => UB
  end.

Definition is_ok {A} (m : res A) : bool :=
  match m with Ok _ => true | _ => false end.

(** Total correctness of a computation: it returns, and the result satisfies
    [Q].  [safe] is the partial version: if it returns, the result does. *)
Definition okP {A} (m : res A) (Q : A → Prop) : Prop := ∃ a, m = Ok a ∧ Q a.

Definition safe {A} (m : res A) (Q : A → Prop) : Prop := ∀ a, m = Ok a → Q a.

Lemma okP_ret {A} (a : A) (Q : A → Prop) : Q a → okP (Ok a) Q.
Proof. intros. by exists a. Qed.

Lemma okP_bind {A B} (m : res A) (f : A → res B) (P : A → Prop) (Q : B → Prop) :
  okP m P → (∀ a, P a → okP (f a) Q) → okP (m ≫= f) Q.
Proof. intros (a & -> & Ha) Hf. simpl. by apply Hf. Qed.

Lemma okP_mono {A} (m : res A) (P Q : A → Prop) :
  okP m P → (∀ a, P a → Q a) → okP m Q.
Proof. intros (a & -> & Ha) H. exists a. auto. Qed.

Lemma safe_ret {A} (a : A) (Q : A → Prop) : Q a → safe (Ok a) Q.
Proof. by intros ? ? [= <-]. Qed.

Lemma safe_bind {A B} (m : res A) (f : A → res B) (P : A → Prop) (Q : B → Prop) :
  safe m P → (∀ a, P a → safe (f a) Q) → safe (m ≫= f) Q.
Proof. intros Hm Hf b. destruct m as [a| |]; simpl; try done. apply Hf, Hm. done. Qed.

Lemma safe_mono {A} (m : res A) (P Q : A → Prop) :
  safe m P → (∀ a, P a → Q a) → safe m Q.
Proof. intros Hm H a Ha. apply H, Hm, Ha. Qed.

Lemma okP_safe {A} (m : res A) (Q : A → Prop) : okP m Q → safe m Q.
Proof. by intros (a & -> & Ha) b [= <-]. Qed.

(** Reduces the monadic plumbing at the head of a computation. *)
Ltac mstep := cbn [mbind res_bind andb orb negb].

Create HintDb machine.

#[export] Hint Resolve u8_range u16_range okP_ret safe_ret : machine.

(** ** Sorted lists *)

Lemma StronglySorted_snoc {A} (R : relation A) l x :
  StronglySorted R l → Forall (λ y, R y x) l → StronglySorted R (l ++ [x]).
Proof.
  induction 1 as [|y l Hl IH Hy]; simpl; intros Hx; [by repeat constructor|].
  apply Forall_cons in Hx as [Hyx Hx]. constructor; [auto|].
  apply Forall_app. auto.
Qed.

Lemma sublist_Forall {A} (P : A → Prop) l k : sublist l k → Forall P k → Forall P l.
Proof. induction 1; rewrite ?Forall_cons; naive_solver. Qed.

Lemma StronglySorted_sublist {A} (R : relation A) l k :
  sublist l k → StronglySorted R k → StronglySorted R l.
Proof.
  induction 1 as [|x l k Hs IH|x l k Hs IH]; intros Hk; auto.
  - apply StronglySorted_inv in Hk as [Hk Hx]. constructor; [auto|].
    by eapply sublist_Forall.
  - apply StronglySorted_inv in Hk as [Hk _]. auto.
Qed.
