(* ===== verification/Fsm.v ===== *)
(** * The finite state machine engine

    [common/include/vpn/fsm.h], [common/src/fsm.cpp] and
    [common/src/fsm_validation.cpp]: a transition table, its debug-build
    validation and the dispatch of an event.  The engine is generic in the
    owner of the machine (the [void *ctx] of the table's callbacks): an owner
    is a type with a [HasFsm] instance, which says where [m_current_state] and
    [m_recursive] live inside it. *)
From S2P Require Import Prelude.

(** The two sentinels of [fsm.h]: [UINT32_MAX] and [UINT32_MAX - 1]. *)
Definition ANY_SOURCE_STATE : Z := 2 ^ 32 - 1.
Definition SAME_TARGET_STATE : Z := 2 ^ 32 - 2.

(** What an object that owns an [Fsm] gives access to. *)
Class HasFsm (C : Type) := {
  m_current_state : C → Z;
  m_recursive : C → bool;
  set_current_state : Z → C → C;
  set_recursive : bool → C → C;
  current_set_current s c : m_current_state (set_current_state s c) = s;
  current_set_recursive b c : m_current_state (set_recursive b c) = m_current_state c;
  recursive_set_recursive b c : m_recursive (set_recursive b c) = b;
  recursive_set_current s c : m_recursive (set_current_state s c) = m_recursive c;
  set_recursive_twice a b c : set_recursive a (set_recursive b c) = set_recursive a c;
  set_recursive_same c : set_recursive (m_recursive c) c = c;
}.

Create Rewrite HintDb fsm.

#[export] Hint Rewrite @current_set_current @current_set_recursive
  @recursive_set_recursive @recursive_set_current @set_recursive_twice
  @set_recursive_same : fsm.

Section Engine.
Context {C D : Type} `{!HasFsm C}.

(** [FsmCondition] and [FsmAction]: [None] is the null pointer
    ([OTHERWISE]/[ANYWAY], [DO_NOTHING]). *)
Definition FsmCondition : Type := option (C → D → res bool).
Definition FsmAction : Type := option (C → D → res C).

Record FsmTransitionEntry := mkEntry {
  src_state : Z;
  event : Z;
  condition : FsmCondition;
  before_transition : FsmAction;
  target_state : Z;
  after_transition : FsmAction;
}.

Definition FsmTransitionTable := list FsmTransitionEntry.

(** [entry.action(m_params.ctx, data)] guarded by the null test. *)
Definition run_action (a : FsmAction) (data : D) (ctx : C) : res C :=
  match a with
  | None => Ok ctx
  | Some f => f ctx data
  end.

Definition run_condition (c : FsmCondition) (data : D) (ctx : C) : res bool :=
  match c with
  | None => Ok true
  | Some f => f ctx data
  end.

(** The body of the [for] loop past its [continue]s. *)
Definition take_entry (entry : FsmTransitionEntry) (data : D) (ctx : C) : res C :=
  ctx ← run_action (before_transition entry) data ctx;
  let ctx := if target_state entry =? SAME_TARGET_STATE then ctx
             else set_current_state (target_state entry) ctx in
  let ctx := set_recursive false ctx in
  run_action (after_transition entry) data ctx.

(** The [for] loop of [Fsm::perform_transition]. *)
Fixpoint scan_table (table : FsmTransitionTable) (ev : Z) (data : D) (ctx : C) : res C :=
  match table with
  | [] => Ok ctx
  | entry :: table =>
      if negb (m_current_state ctx =? src_state entry)
         && negb (src_state entry =? ANY_SOURCE_STATE)
      then scan_table table ev data ctx
      else if negb (ev =? event entry) then scan_table table ev data ctx
      else
        matched ← run_condition (condition entry) data ctx;
        if negb matched then scan_table table ev data ctx
        else take_entry entry data ctx
  end.

(** [Fsm::perform_transition]; [ndebug] says whether [assert] is compiled
    out, in which case a recursive run only returns. *)
Definition perform_transition (ndebug : bool) (table : FsmTransitionTable)
    (ev : Z) (data : D) (ctx : C) : res C :=
  if m_recursive ctx then (if ndebug then Ok ctx else Abort)
  else
    let ctx := set_recursive true ctx in
    ctx ← scan_table table ev data ctx;
    Ok (set_recursive false ctx).

(** [Fsm::reset]. *)
Definition fsm_reset (initial_state : Z) (ctx : C) : C :=
  set_recursive false (set_current_state initial_state ctx).

(** [validation_table], keyed by the [(src_state, event)] pair that
    [operator==] and the hash look at. *)
Definition closed_by (entry : FsmTransitionEntry) : bool :=
  match condition entry with None => true | Some _ => false end.

Fixpoint validate_loop (vt : gmap (Z * Z) bool) (table : FsmTransitionTable) : bool :=
  match table with
  | [] => true
  | entry :: table =>
      if src_state entry =? SAME_TARGET_STATE then false
      else if target_state entry =? ANY_SOURCE_STATE then false
      else
        let key := (src_state entry, event entry) in
        if default false (vt !! key) then false
        else validate_loop (<[key := closed_by entry]> vt) table
  end.

(** [Fsm::validate_transition_table] of a debug build. *)
Definition validate_transition_table (table : FsmTransitionTable) : bool :=
  validate_loop ∅ table.

(** ** What the engine promises

    [matches] is the declarative reading of the loop's three [continue]s. *)
Definition matches (e : FsmTransitionEntry) (ev : Z) (data : D) (ctx : C) : res bool :=
  if ((m_current_state ctx =? src_state e) || (src_state e =? ANY_SOURCE_STATE))
     && (ev =? event e)
  then run_condition (condition e) data ctx
  else Ok false.

(** [first_match table ev data ctx e]: [e] is the first entry whose match
    test succeeds, all earlier ones having answered "no". *)
Inductive first_match (ev : Z) (data : D) (ctx : C) :
    FsmTransitionTable → FsmTransitionEntry → Prop :=
| first_here e table :
    matches e ev data ctx = Ok true → first_match ev data ctx (e :: table) e
| first_later e e' table :
    matches e ev data ctx = Ok false →
    first_match ev data ctx table e' → first_match ev data ctx (e :: table) e'.

Definition no_match (ev : Z) (data : D) (ctx : C) (table : FsmTransitionTable) : Prop :=
  Forall (λ e, matches e ev data ctx = Ok false) table.

Lemma scan_table_cons e table ev data ctx :
  scan_table (e :: table) ev data ctx =
  (m ← matches e ev data ctx;
   if (m : bool) then take_entry e data ctx else scan_table table ev data ctx).
Proof.
  unfold matches; cbn [scan_table].
  destruct (m_current_state ctx =? src_state e), (src_state e =? ANY_SOURCE_STATE),
    (ev =? event e); simpl; try reflexivity;
    destruct (run_condition _ _ _) as [[]| |]; reflexivity.
Qed.

Lemma scan_first_match table ev data ctx e :
  first_match ev data ctx table e →
  scan_table table ev data ctx = take_entry e data ctx.
Proof.
  induction 1 as [e table Hm | e e' table Hm _ IH];
    rewrite scan_table_cons, Hm; simpl; auto.
Qed.

Lemma scan_no_match table ev data ctx :
  no_match ev data ctx table → scan_table table ev data ctx = Ok ctx.
Proof.
  induction 1 as [|e table Hm _ IH]; [done|].
  rewrite scan_table_cons, Hm; simpl; auto.
Qed.

(** *** The rows of one state and event

    Rows for another state or event are skipped without evaluating their
    condition, so a dispatch only depends on the rows of the current state. *)
Definition row_for (s ev : Z) (e : FsmTransitionEntry) : bool :=
  ((s =? src_state e) || (src_state e =? ANY_SOURCE_STATE)) && (ev =? event e).

Fixpoint scan_rows (rows : FsmTransitionTable) (data : D) (ctx : C) : res C :=
  match rows with
  | [] => Ok ctx
  | e :: rows =>
      m ← run_condition (condition e) data ctx;
      if (m : bool) then take_entry e data ctx else scan_rows rows data ctx
  end.

Lemma scan_table_rows table ev data ctx :
  scan_table table ev data ctx =
  scan_rows (List.filter (row_for (m_current_state ctx) ev) table) data ctx.
Proof.
  induction table as [|e table IH]; [done|].
  rewrite scan_table_cons, IH. unfold matches.
  change (((m_current_state ctx =? src_state e) || (src_state e =? ANY_SOURCE_STATE))
          && (ev =? event e)) with (row_for (m_current_state ctx) ev e).
  cbn [List.filter]. by destruct (row_for (m_current_state ctx) ev e).
Qed.

Lemma perform_transition_rows ndebug table ev data ctx :
  m_recursive ctx = false →
  perform_transition ndebug table ev data ctx =
  (c ← scan_rows (List.filter (row_for (m_current_state ctx) ev) table) data
         (set_recursive true ctx);
   Ok (set_recursive false c)).
Proof.
  intros Hq. unfold perform_transition. rewrite Hq, scan_table_rows.
  by rewrite current_set_recursive.
Qed.

(** The declarative meaning of one dispatch on a quiescent machine. *)
Inductive dispatch (table : FsmTransitionTable) (ev : Z) (data : D) (c : C) : C → Prop :=
| dispatch_taken e c' :
    first_match ev data (set_recursive true c) table e →
    take_entry e data (set_recursive true c) = Ok c' →
    dispatch table ev data c (set_recursive false c')
| dispatch_ignored :
    no_match ev data (set_recursive true c) table →
    dispatch table ev data c c.

Lemma scan_table_inv table ev data ctx c' :
  scan_table table ev data ctx = Ok c' →
  (∃ e, first_match ev data ctx table e ∧ take_entry e data ctx = Ok c')
  ∨ (no_match ev data ctx table ∧ c' = ctx).
Proof.
  induction table as [|e table IH]; intros H.
  - right; split; [constructor | simpl in H; congruence].
  - rewrite scan_table_cons in H.
    destruct (matches e ev data ctx) as [[]| |] eqn:Hm; simpl in H; try discriminate.
    + left; exists e; split; [by constructor | done].
    + destruct (IH H) as [(e' & ? & ?) | [? ?]].
      * left; exists e'; split; [by constructor | done].
      * right; split; [by constructor | done].
Qed.


(** ** Validation *)

(** The property validation stands for: no entry uses a sentinel on the wrong
    side, and no entry follows an unconditional one with the same key. *)
Definition table_ok (table : FsmTransitionTable) : Prop :=
  Forall (λ e, src_state e ≠ SAME_TARGET_STATE ∧ target_state e ≠ ANY_SOURCE_STATE) table ∧
  ∀ i j ei ej, (i < j)%nat → table !! i = Some ei → table !! j = Some ej →
    closed_by ei = true → src_state ei = src_state ej → event ei = event ej → False.

Definition entry_key (e : FsmTransitionEntry) : Z * Z := (src_state e, event e).

Lemma table_ok_cons e table :
  table_ok (e :: table) ↔
  (src_state e ≠ SAME_TARGET_STATE ∧ target_state e ≠ ANY_SOURCE_STATE) ∧
  (closed_by e = true → Forall (λ e', entry_key e' ≠ entry_key e) table) ∧
  table_ok table.
Proof.
  unfold table_ok, entry_key. rewrite Forall_cons. split.
  - intros [[He Ht] Hp]. split; [done|split; [|split; [done|]]].
    + intros Hc. apply Forall_lookup. intros j ej Hj [= Hs Hev].
      exact (Hp 0%nat (S j) e ej ltac:(lia) eq_refl Hj Hc (eq_sym Hs) (eq_sym Hev)).
    + intros i j ei ej Hij Hi Hj. exact (Hp (S i) (S j) ei ej ltac:(lia) Hi Hj).
  - intros (He & Hc & Ht & Hp). split; [done|].
    intros [|i] [|j] ei ej Hij Hi Hj Hcl Hs Hev; try lia; simpl in *.
    + injection Hi as <-. specialize (Hc Hcl). rewrite Forall_lookup in Hc.
      apply (Hc j ej Hj). congruence.
    + exact (Hp i j ei ej ltac:(lia) Hi Hj Hcl Hs Hev).
Qed.

Lemma validate_insert (vt : gmap (Z * Z) bool) e table :
  vt !! entry_key e ≠ Some true →
  Forall (λ e', <[entry_key e := closed_by e]> vt !! entry_key e' ≠ Some true) table ↔
  (closed_by e = true → Forall (λ e', entry_key e' ≠ entry_key e) table) ∧
  Forall (λ e', vt !! entry_key e' ≠ Some true) table.
Proof.
  intros Hvt. rewrite !Forall_lookup. split.
  - intros H. split.
    + intros Hc k e' Hk Heq. apply (H k e' Hk).
      by rewrite Heq, lookup_insert_eq, Hc.
    + intros k e' Hk. destruct (decide (entry_key e' = entry_key e)) as [->|Hne]; [done|].
      rewrite <- (lookup_insert_ne vt (entry_key e) _ (closed_by e)) by done.
      by apply (H k).
  - intros [H1 H2] k e' Hk. destruct (decide (entry_key e' = entry_key e)) as [Heq|Hne].
    + rewrite Heq, lookup_insert_eq. intros [= Hc]. by apply (H1 Hc k e').
    + rewrite lookup_insert_ne by done. by apply (H2 k).
Qed.

(** The loop's map answers [true] for a key once an unconditional entry with
    that key has been seen. *)
Lemma validate_loop_spec table vt :
  validate_loop vt table = true ↔
  table_ok table ∧ Forall (λ e, vt !! entry_key e ≠ Some true) table.
Proof.
  revert vt. induction table as [|e table IH]; intros vt.
  - simpl. split; [|done]. intros _. repeat split; try constructor.
    intros i j ei ej _ Hi. by destruct i.
  - rewrite table_ok_cons, Forall_cons. cbn [validate_loop].
    destruct (Z.eqb_spec (src_state e) SAME_TARGET_STATE); [naive_solver|].
    destruct (Z.eqb_spec (target_state e) ANY_SOURCE_STATE); [naive_solver|].
    change (src_state e, event e) with (entry_key e).
    destruct (vt !! entry_key e) as [[]|] eqn:Hvt; simpl; [naive_solver|..];
      rewrite IH, validate_insert by (rewrite Hvt; done); naive_solver.
Qed.

(** The debug-build validator accepts a table exactly when no entry uses a
    sentinel on the wrong side and no entry is shadowed by an earlier
    unconditional entry for the same source state and event. *)
Theorem validate_transition_table_iff table :
  validate_transition_table table = true ↔ table_ok table.
Proof.
  unfold validate_transition_table. rewrite validate_loop_spec.
  split; [by intros [? _] | intros H; split; [done|]].
  apply Forall_lookup. intros. by rewrite lookup_empty.
Qed.

End Engine.

Arguments FsmTransitionEntry : clear implicits.
Arguments FsmTransitionTable : clear implicits.
