(* ===== verification/EventLoop.v ===== *)
(** * The event loop

    [common/src/event_loop.cpp]: the queue of submitted tasks, the queue of
    deferred (timer) tasks, the callback that drains the first one and the
    stop protocol.  The operations run under [loop->guard], so each of them is
    one step of the model; task actions run without the lock and may call back
    into the loop.  libevent itself is outside the sources: what the loop uses
    of it is the number of pending [run_task_queue] one-shot callbacks
    ([once_pending]) and the exit request flag ([got_exit]). *)
From S2P Require Import Prelude.

(** [TASK_QUEUE_BUDGET]. *)
Definition TASK_QUEUE_BUDGET : nat := 64.

Inductive EventLoopState := ELS_STOPPED | ELS_RUNNING | ELS_BASE_EXITED.

#[export] Instance EventLoopState_eq_dec : EqDecision EventLoopState.
Proof. solve_decision. Defined.

(** What the loop reports of a task: the [Running] and [Finalizing] trace
    messages.  The boolean of [Finalized] says whether the task had a
    finalizer to call. *)
Inductive LoopEvent :=
| Running (id : Z)
| Finalized (id : Z) (called : bool).

Section Loop.
Context {T : Type}.

(** [VpnEventLoopTask]: the captured action and whether [finalize] is set. *)
Record VpnEventLoopTask := mkTask { task_action : T; task_finalize : bool }.

Record TaskInfo := mkTaskInfo { ti_id : Z; ti_task : VpnEventLoopTask }.

(** [DeferredTaskInfo]; the timer event is its delay in milliseconds. *)
Record DeferredTaskInfo := mkDeferred { dt_basic : TaskInfo; dt_defer : Z }.

(** [VpnEventLoop] and the global [g_next_task_id]. *)
Record VpnEventLoop := mkLoop {
  next_task_id : Z;
  task_queue_scheduled : bool;
  task_queue : list TaskInfo;
  deferred_task_queue : list DeferredTaskInfo;
  loop_state : EventLoopState;
  stopping_externally : bool;
  got_exit : bool;
  once_pending : nat;
  loop_log : list LoopEvent;
}.

Definition vpn_event_loop_create : VpnEventLoop :=
  mkLoop 0 false [] [] ELS_STOPPED false false 0 [].

(** Field updates. *)
Definition with_queue (s : bool) (q : list TaskInfo) (n : nat) (l : VpnEventLoop) : VpnEventLoop :=
  mkLoop (next_task_id l) s q (deferred_task_queue l) (loop_state l)
    (stopping_externally l) (got_exit l) n (loop_log l).
Definition with_deferred (d : list DeferredTaskInfo) (l : VpnEventLoop) : VpnEventLoop :=
  mkLoop (next_task_id l) (task_queue_scheduled l) (task_queue l) d (loop_state l)
    (stopping_externally l) (got_exit l) (once_pending l) (loop_log l).
Definition with_next_id (n : Z) (l : VpnEventLoop) : VpnEventLoop :=
  mkLoop n (task_queue_scheduled l) (task_queue l) (deferred_task_queue l) (loop_state l)
    (stopping_externally l) (got_exit l) (once_pending l) (loop_log l).
Definition with_state (s : EventLoopState) (ext : bool) (e : bool) (l : VpnEventLoop) : VpnEventLoop :=
  mkLoop (next_task_id l) (task_queue_scheduled l) (task_queue l) (deferred_task_queue l) s
    ext e (once_pending l) (loop_log l).
Definition emit (e : LoopEvent) (l : VpnEventLoop) : VpnEventLoop :=
  mkLoop (next_task_id l) (task_queue_scheduled l) (task_queue l) (deferred_task_queue l)
    (loop_state l) (stopping_externally l) (got_exit l) (once_pending l) (loop_log l ++ [e]).

(** [if (task.finalize != nullptr) task.finalize(task.arg)]. *)
Definition finalize_task (i : TaskInfo) (l : VpnEventLoop) : VpnEventLoop :=
  emit (Finalized (ti_id i) (task_finalize (ti_task i))) l.

(** [vpn_event_loop_submit]: the returned id, [-1] once the base has exited. *)
Definition vpn_event_loop_submit (task : VpnEventLoopTask) (l : VpnEventLoop) : Z * VpnEventLoop :=
  let task_id := next_task_id l in
  let l := with_next_id (task_id + 1) l in
  match loop_state l with
  | ELS_BASE_EXITED => (-1, finalize_task (mkTaskInfo task_id task) l)
  | ELS_STOPPED | ELS_RUNNING =>
      let q := task_queue l ++ [mkTaskInfo task_id task] in
      if task_queue_scheduled l
      then (task_id, with_queue true q (once_pending l) l)
      else (task_id, with_queue true q (S (once_pending l)) l)
  end.

(** [vpn_event_loop_schedule]; unlike [submit] it calls the finalizer without
    the null test when the base has exited. *)
Definition vpn_event_loop_schedule (task : VpnEventLoopTask) (defer : Z) (l : VpnEventLoop)
    : res (Z * VpnEventLoop) :=
  let task_id := next_task_id l in
  let l := with_next_id (task_id + 1) l in
  match loop_state l with
  | ELS_BASE_EXITED =>
      if task_finalize task then Ok (-1, finalize_task (mkTaskInfo task_id task) l) else UB
  | ELS_STOPPED | ELS_RUNNING =>
      Ok (task_id, with_deferred
                     (deferred_task_queue l ++ [mkDeferred (mkTaskInfo task_id task) defer]) l)
  end.

(** [erase] of the first element satisfying a test, with that element. *)
Fixpoint extract_first {A} (p : A → bool) (xs : list A) : option (A * list A) :=
  match xs with
  | [] => None
  | x :: xs =>
      if p x then Some (x, xs)
      else match extract_first p xs with
           | Some (y, ys) => Some (y, x :: ys)
           | None => None
           end
  end.

(** [vpn_event_loop_cancel]. *)
Definition vpn_event_loop_cancel (task_id : Z) (l : VpnEventLoop) : VpnEventLoop :=
  match extract_first (λ i, ti_id i =? task_id) (task_queue l) with
  | Some (i, q) => finalize_task i (with_queue (task_queue_scheduled l) q (once_pending l) l)
  | None =>
      match extract_first (λ d, ti_id (dt_basic d) =? task_id) (deferred_task_queue l) with
      | Some (d, ds) => finalize_task (dt_basic d) (with_deferred ds l)
      | None => l
      end
  end.

(** [vpn_event_loop_run], up to the entry into the event base and after it. *)
Definition vpn_event_loop_run_enter (ndebug : bool) (l : VpnEventLoop) : res VpnEventLoop :=
  if bool_decide (loop_state l = ELS_STOPPED) || ndebug
  then Ok (with_state ELS_RUNNING (stopping_externally l) (got_exit l) l)
  else Abort.

Definition vpn_event_loop_run_leave (l : VpnEventLoop) : VpnEventLoop :=
  with_state (if stopping_externally l then ELS_BASE_EXITED else ELS_STOPPED)
    (stopping_externally l) (got_exit l) l.

(** [vpn_event_loop_exit]. *)
Definition vpn_event_loop_exit (l : VpnEventLoop) : VpnEventLoop :=
  with_state (loop_state l) (stopping_externally l) true l.

(** [vpn_event_loop_finalize_exit]: before and after the wait on
    [stop_barrier], which holds until the state is not [ELS_RUNNING]. *)
Definition finalize_exit_begin (l : VpnEventLoop) : VpnEventLoop :=
  with_state (loop_state l) true (got_exit l) l.

Definition finalize_exit_end (l : VpnEventLoop) : VpnEventLoop :=
  let l := foldl (λ l i, finalize_task i l) l (task_queue l) in
  let l := with_queue (task_queue_scheduled l) [] (once_pending l) l in
  let l := foldl (λ l d, finalize_task (dt_basic d) l) l (deferred_task_queue l) in
  let l := with_deferred [] l in
  with_state ELS_STOPPED false (got_exit l) l.

(** [vpn_event_loop_is_active]; no code path of the sources breaks the base,
    so [event_base_got_break] is false. *)
Definition vpn_event_loop_is_active (l : option VpnEventLoop) : bool :=
  match l with
  | None => false
  | Some l => bool_decide (loop_state l = ELS_RUNNING) && negb (got_exit l)
  end.

End Loop.

Arguments VpnEventLoopTask : clear implicits.
Arguments TaskInfo : clear implicits.
Arguments DeferredTaskInfo : clear implicits.
Arguments VpnEventLoop : clear implicits.

(** ** Draining the queue

    The callback runs task actions, which belong to the owner of the loop: an
    owner is a type that carries a loop. *)
Class HasLoop (W T : Type) := {
  get_loop : W → VpnEventLoop T;
  set_loop : VpnEventLoop T → W → W;
  get_set_loop l w : get_loop (set_loop l w) = l;
}.

(** [AutoTaskId]: the owner of a task id; dropping or resetting it cancels the
    task, assigning another one drops the old one afterwards (the move
    assignment swaps). *)
Section AutoTaskId.
Context {W T : Type} `{!HasLoop W T}.

Definition auto_task (id : Z) : option Z := if id <? 0 then None else Some id.

Definition auto_reset (id : option Z) (w : W) : W :=
  match id with
  | Some id => set_loop (vpn_event_loop_cancel id (get_loop w)) w
  | None => w
  end.

(** [event_loop::submit] and [event_loop::schedule]. *)
Definition auto_submit (task : VpnEventLoopTask T) (w : W) : option Z * W :=
  let '(id, l) := vpn_event_loop_submit task (get_loop w) in (auto_task id, set_loop l w).

Definition auto_schedule (task : VpnEventLoopTask T) (defer : Z) (w : W) : res (option Z * W) :=
  '(id, l) ← vpn_event_loop_schedule task defer (get_loop w);
  Ok (auto_task id, set_loop l w).

End AutoTaskId.

(** What code outside this file may do to a loop. *)
Inductive loop_op {T} : VpnEventLoop T → VpnEventLoop T → Prop :=
| op_submit task l : loop_op l (vpn_event_loop_submit task l).2
| op_schedule task defer l id l' :
    vpn_event_loop_schedule task defer l = Ok (id, l') → loop_op l l'
| op_cancel id l : loop_op l (vpn_event_loop_cancel id l)
| op_exit l : loop_op l (vpn_event_loop_exit l).

Section Drain.
Context {W T : Type} `{!HasLoop W T}.
Variable action : Z → T → W → res W.

(** [info.task.action(info.task.arg, info.id)] and the finalizer. *)
Definition run_info (info : TaskInfo T) (w : W) : res W :=
  let w := set_loop (emit (Running (ti_id info)) (get_loop w)) w in
  w ← action (ti_id info) (task_action (ti_task info)) w;
  Ok (set_loop (finalize_task info (get_loop w)) w).

(** [event_base_once(..., &run_task_queue, ...)]. *)
Definition rearm (l : VpnEventLoop T) : VpnEventLoop T :=
  with_queue (task_queue_scheduled l) (task_queue l) (S (once_pending l)) l.

(** The [for] loop of [run_task_queue]; [fuel] is [TASK_QUEUE_BUDGET - i]. *)
Fixpoint drain (fuel : nat) (task_queue_last_id : Z) (w : W) : res W :=
  let l := get_loop w in
  match task_queue l with
  | [] => Ok (set_loop (with_queue false [] (once_pending l) l) w)
  | info :: q =>
      match fuel with
      | O => Ok (set_loop (rearm l) w)
      | S fuel =>
          if task_queue_last_id <? ti_id info then Ok (set_loop (rearm l) w)
          else
            let w := set_loop (with_queue (task_queue_scheduled l) q (once_pending l) l) w in
            w ← run_info info w;
            drain fuel task_queue_last_id w
      end
  end.

(** [run_task_queue]. *)
Definition run_task_queue (ndebug : bool) (w : W) : res W :=
  match task_queue (get_loop w) with
  | [] => drain TASK_QUEUE_BUDGET (-1) w
  | front :: q =>
      let back := default front (last q) in
      if ti_id front <=? ti_id back then drain TASK_QUEUE_BUDGET (ti_id back) w
      else if ndebug then drain TASK_QUEUE_BUDGET (2 ^ 63 - 1) w
      else Abort
  end.

(** libevent delivers a pending one-shot callback. *)
Definition fire_once (ndebug : bool) (w : W) : res W :=
  let l := get_loop w in
  match once_pending l with
  | O => Ok w
  | S n => run_task_queue ndebug
             (set_loop (with_queue (task_queue_scheduled l) (task_queue l) n l) w)
  end.

(** [run_deferred_task], for the timer of task [task_id]. *)
Definition run_deferred_task (task_id : Z) (w : W) : res W :=
  let l := get_loop w in
  match extract_first (λ d, ti_id (dt_basic d) =? task_id) (deferred_task_queue l) with
  | Some (d, ds) => run_info (dt_basic d) (set_loop (with_deferred ds l) w)
  | None => Ok w
  end.

End Drain.

(** ** Invariants of the loop *)
Section Invariants.
Context {T : Type}.
Implicit Types l : VpnEventLoop T.

Definition queued_ids l : list Z := ti_id <$> task_queue l.
Definition deferred_ids l : list Z := (λ d, ti_id (dt_basic d)) <$> deferred_task_queue l.
Definition finalized_ids l : list Z :=
  omap (λ e, match e with Finalized i _ => Some i | Running _ => None end) (loop_log l).

(** Every task id ever handed out is in exactly one place: waiting in the
    queue, waiting for its timer, finalized, or (in [running]) being run. *)
Definition conserved (running : list Z) l : Prop :=
  0 ≤ next_task_id l ∧
  seqZ 0 (next_task_id l) ≡ₚ queued_ids l ++ deferred_ids l ++ finalized_ids l ++ running.

(** The queue is ordered by id. *)
Definition queue_sorted l : Prop := StronglySorted Z.lt (queued_ids l).

(** A non-empty queue has its callback armed; [busy] is the number of callbacks
    that are being run right now. *)
Definition armed (busy : nat) l : Prop :=
  (task_queue l ≠ [] → task_queue_scheduled l = true) ∧
  (once_pending l + busy)%nat = (if task_queue_scheduled l then 1 else 0)%nat.

Record loop_inv (running : list Z) (busy : nat) l : Prop := {
  inv_conserved : conserved running l;
  inv_sorted : queue_sorted l;
  inv_armed : armed busy l;
}.

Lemma seqZ_snoc n : 0 ≤ n → seqZ 0 (n + 1) = seqZ 0 n ++ [n].
Proof. intros. rewrite seqZ_app by lia. done. Qed.

Lemma conserved_lt running l i :
  conserved running l → i ∈ queued_ids l → 0 ≤ i < next_task_id l.
Proof.
  intros [_ Hp] Hi.
  assert (i ∈ seqZ 0 (next_task_id l)) as H by (rewrite Hp; set_solver).
  apply elem_of_seqZ in H. lia.
Qed.

Lemma finalized_ids_emit l i b :
  finalized_ids (emit (Finalized i b) l) = finalized_ids l ++ [i].
Proof. unfold finalized_ids. simpl. by rewrite omap_app. Qed.

Lemma finalized_ids_running l i : finalized_ids (emit (Running i) l) = finalized_ids l.
Proof. unfold finalized_ids. simpl. by rewrite omap_app, app_nil_r. Qed.

Lemma extract_first_Some {A} (p : A → bool) xs y ys :
  extract_first p xs = Some (y, ys) →
  p y = true ∧ ∃ pre post, xs = pre ++ y :: post ∧ ys = pre ++ post.
Proof.
  revert y ys. induction xs as [|x xs IH]; simpl; intros y ys H; [done|].
  destruct (p x) eqn:Hp.
  - injection H as <- <-. split; [done|]. by exists [], xs.
  - destruct (extract_first p xs) as [[z zs]|]; [|done]. injection H as <- <-.
    destruct (IH _ _ eq_refl) as (Hz & pre & post & -> & ->).
    split; [done|]. by exists (x :: pre), post.
Qed.

Lemma submit_inv running busy task l :
  loop_inv running busy l → loop_inv running busy (vpn_event_loop_submit task l).2.
Proof.
  intros [[Hn Hc] Hs Ha].
  assert (Hlt : Forall (λ i, i < next_task_id l) (queued_ids l)).
  { apply Forall_forall. intros i Hi. by apply (conserved_lt running l i); [split|]. }
  unfold vpn_event_loop_submit. simpl.
  destruct (loop_state l); [| |].
  3: { split; simpl; [split| |]; simpl; [lia| |done|done].
    unfold finalize_task. rewrite finalized_ids_emit, seqZ_snoc, Hc by done.
    unfold queued_ids, deferred_ids, finalized_ids; simpl. solve_Permutation. }
  all: assert (Hperm : seqZ 0 (next_task_id l + 1) ≡ₚ
      ((ti_id <$> (task_queue l ++ [mkTaskInfo (next_task_id l) task]))
        ++ deferred_ids l ++ finalized_ids l ++ running))
      by (rewrite seqZ_snoc, Hc, fmap_app by done; unfold queued_ids; simpl; solve_Permutation).
  all: assert (Hsort : StronglySorted Z.lt
      (ti_id <$> (task_queue l ++ [mkTaskInfo (next_task_id l) task])))
      by (rewrite fmap_app; by apply StronglySorted_snoc).
  all: destruct Ha as [Ha1 Ha2]; destruct (task_queue_scheduled l) eqn:Hsch; simpl.
  all: split; [split; simpl; [lia | exact Hperm] | exact Hsort | split; simpl; [done | lia]].
Qed.

Lemma schedule_inv running busy task defer l id l' :
  vpn_event_loop_schedule task defer l = Ok (id, l') →
  loop_inv running busy l → loop_inv running busy l'.
Proof.
  intros H [[Hn Hc] Hs Ha]. unfold vpn_event_loop_schedule in H. simpl in H.
  destruct (loop_state l); simplify_eq/=; [| |destruct (task_finalize task); simplify_eq/=].
  all: split; [split; simpl; [lia|] | exact Hs | exact Ha].
  all: rewrite seqZ_snoc, Hc by done; unfold finalize_task; rewrite ?finalized_ids_emit;
    unfold queued_ids, deferred_ids, finalized_ids; simpl; rewrite ?fmap_app;
    simpl; solve_Permutation.
Qed.

Lemma cancel_inv running busy id l :
  loop_inv running busy l → loop_inv running busy (vpn_event_loop_cancel id l).
Proof.
  intros [[Hn Hc] Hs Ha]. unfold vpn_event_loop_cancel.
  destruct (extract_first _ (task_queue l)) as [[i q]|] eqn:Hq.
  - apply extract_first_Some in Hq as (_ & pre & post & Hl & ->).
    unfold conserved, queue_sorted, armed, queued_ids in *. rewrite Hl in Hc, Hs, Ha.
    rewrite fmap_app in Hc, Hs. split; simpl.
    + split; simpl; [lia|]. rewrite Hc. unfold finalize_task.
      rewrite finalized_ids_emit; unfold queued_ids, deferred_ids, finalized_ids; simpl.
      rewrite fmap_app. simpl. solve_Permutation.
    + unfold queue_sorted, queued_ids. simpl. rewrite fmap_app.
      eapply StronglySorted_sublist, Hs. apply sublist_app; [done|]. simpl. by constructor.
    + destruct Ha as [Ha1 Ha2]. split; simpl; [|done]. intros _. apply Ha1. by destruct pre.
  - destruct (extract_first _ (deferred_task_queue l)) as [[d ds]|] eqn:Hd; [|done].
    apply extract_first_Some in Hd as (_ & pre & post & Hl & ->).
    split; [|exact Hs|exact Ha].
    split; simpl; [lia|]. rewrite Hc. unfold finalize_task.
    rewrite finalized_ids_emit; unfold queued_ids, deferred_ids, finalized_ids; simpl.
    rewrite Hl, !fmap_app. simpl. solve_Permutation.
Qed.

Lemma loop_op_inv running busy l l' :
  loop_op l l' → loop_inv running busy l → loop_inv running busy l'.
Proof.
  destruct 1 as [| | |l]; eauto using submit_inv, schedule_inv, cancel_inv.
  intros [? ? ?]. by split.
Qed.

Lemma loop_ops_inv running busy l l' :
  rtc loop_op l l' → loop_inv running busy l → loop_inv running busy l'.
Proof. induction 1; eauto using loop_op_inv. Qed.

Lemma foldl_finalize_log {A} (f : A → TaskInfo T) (xs : list A) l :
  finalized_ids (foldl (λ l x, finalize_task (f x) l) l xs) =
    finalized_ids l ++ ((λ x, ti_id (f x)) <$> xs).
Proof.
  revert l. induction xs as [|x xs IH]; intros l; simpl; [by rewrite app_nil_r|].
  rewrite IH. unfold finalize_task at 1. rewrite finalized_ids_emit, <- app_assoc. done.
Qed.

Lemma foldl_finalize_fields {A} (f : A → TaskInfo T) (xs : list A) l :
  let l' := foldl (λ l x, finalize_task (f x) l) l xs in
  task_queue l' = task_queue l ∧ deferred_task_queue l' = deferred_task_queue l ∧
  next_task_id l' = next_task_id l ∧ task_queue_scheduled l' = task_queue_scheduled l ∧
  once_pending l' = once_pending l.
Proof.
  revert l. induction xs as [|x xs IH]; intros l; simpl; [done|].
  destruct (IH (finalize_task (f x) l)) as (-> & -> & -> & -> & ->). done.
Qed.

Lemma finalize_exit_inv running busy l :
  loop_inv running busy l → loop_inv running busy (finalize_exit_end l).
Proof.
  intros [[Hn Hc] Hs [Ha1 Ha2]]. unfold finalize_exit_end.
  pose proof (foldl_finalize_fields id (task_queue l) l) as (Hq & Hd & Hnx & Hsch & Hp).
  pose proof (foldl_finalize_log id (task_queue l) l) as Hlog.
  simpl in *. set (l1 := foldl _ l (task_queue l)) in *.
  set (l1' := with_queue _ _ _ l1).
  pose proof (foldl_finalize_fields dt_basic (deferred_task_queue l1') l1')
    as (Hq2 & Hd2 & Hnx2 & Hsch2 & Hp2).
  pose proof (foldl_finalize_log dt_basic (deferred_task_queue l1') l1') as Hlog2.
  simpl in *. set (l2 := foldl _ l1' _) in *.
  split.
  - split; simpl; [lia|]. rewrite Hnx2, Hnx, Hc.
    unfold queued_ids, deferred_ids, finalized_ids in *. simpl in *.
    rewrite Hq2, Hlog2, Hlog, Hd. simpl. unfold id. solve_Permutation.
  - unfold queue_sorted, queued_ids. simpl. rewrite Hq2. simpl. constructor.
  - split; simpl; [by rewrite Hq2 | by rewrite Hp2, Hsch2, Hp, Hsch].
Qed.
End Invariants.

(** ** The callback preserves the invariants

    The actions are only known to use the loop through [loop_op]. *)
Section DrainInv.
Context {W T : Type} `{!HasLoop W T}.
Variable action : Z → T → W → res W.

Definition action_uses_loop : Prop :=
  ∀ id t w w', action id t w = Ok w' → rtc loop_op (get_loop w) (get_loop w').

Hypothesis action_ok : action_uses_loop.

Lemma running_inv (r : list Z) busy id (l : VpnEventLoop T) :
  loop_inv r busy l → loop_inv r busy (emit (Running id) l).
Proof.
  intros [[Hn Hc] Hs Ha]. split; [|done|done].
  split; [done|]. by rewrite finalized_ids_running.
Qed.

Lemma finalize_inv (r : list Z) busy i (l : VpnEventLoop T) :
  loop_inv (ti_id i :: r) busy l → loop_inv r busy (finalize_task i l).
Proof.
  intros [[Hn Hc] Hs Ha]. split; [|done|done]. split; [done|]. simpl.
  rewrite Hc. unfold finalize_task. rewrite finalized_ids_emit.
  unfold queued_ids, deferred_ids; simpl. solve_Permutation.
Qed.

Lemma run_info_inv r busy info w w' :
  run_info action info w = Ok w' →
  loop_inv (ti_id info :: r) busy (get_loop w) → loop_inv r busy (get_loop w').
Proof.
  unfold run_info. intros H Hi.
  destruct (action _ _ _) as [w1| |] eqn:Hact; simplify_eq/=.
  rewrite get_set_loop. apply finalize_inv. apply action_ok in Hact.
  eapply loop_ops_inv; [exact Hact|]. rewrite get_set_loop. by apply running_inv.
Qed.

Lemma pop_inv r busy info q (l : VpnEventLoop T) :
  task_queue l = info :: q → loop_inv r busy l →
  loop_inv (ti_id info :: r) busy (with_queue (task_queue_scheduled l) q (once_pending l) l).
Proof.
  intros Hq [[Hn Hc] Hs [Ha1 Ha2]].
  unfold conserved, queue_sorted, queued_ids in *. rewrite Hq in Hc, Hs.
  split; simpl.
  - split; simpl; [done|]. rewrite Hc. unfold queued_ids, deferred_ids, finalized_ids; simpl.
    solve_Permutation.
  - by apply StronglySorted_inv in Hs as [? _].
  - split; simpl; [|done]. intros _. apply Ha1. by rewrite Hq.
Qed.

Lemma disarm_inv r (l : VpnEventLoop T) :
  task_queue l = [] → loop_inv r 1 l → loop_inv r 0 (with_queue false [] (once_pending l) l).
Proof.
  intros Hq [[Hn Hc] Hs [Ha1 Ha2]].
  unfold conserved, queued_ids in Hc. rewrite Hq in Hc.
  split; [by split | constructor | split; simpl; [done|]].
  destruct (task_queue_scheduled l); lia.
Qed.

Lemma rearm_inv r (l : VpnEventLoop T) : loop_inv r 1 l → loop_inv r 0 (rearm l).
Proof.
  intros [Hc Hs [Ha1 Ha2]]. split; [done | done | split; simpl; [done|]].
  destruct (task_queue_scheduled l); lia.
Qed.

Lemma drain_inv r fuel last_id w w' :
  drain action fuel last_id w = Ok w' →
  loop_inv r 1 (get_loop w) → loop_inv r 0 (get_loop w').
Proof.
  revert w. induction fuel as [|fuel IH]; intros w H Hi; cbn [drain] in H;
    destruct (task_queue (get_loop w)) as [|info q] eqn:Hq; cbv zeta in H.
  1-3: injection H as <-; rewrite get_set_loop; auto using disarm_inv, rearm_inv.
  destruct (last_id <? ti_id info).
  { injection H as <-. rewrite get_set_loop. auto using rearm_inv. }
  destruct (run_info action info _) as [w1| |] eqn:Hr; try done.
  apply (IH _ H). eapply run_info_inv; [exact Hr|]. rewrite get_set_loop.
  by apply pop_inv.
Qed.

Lemma run_task_queue_drain ndebug w w' :
  run_task_queue action ndebug w = Ok w' →
  ∃ last_id, drain action TASK_QUEUE_BUDGET last_id w = Ok w'.
Proof.
  unfold run_task_queue. destruct (task_queue _); [eauto|].
  destruct (_ <=? _); [eauto|]. destruct ndebug; [eauto|done].
Qed.

Lemma fire_once_inv r ndebug w w' :
  fire_once action ndebug w = Ok w' →
  loop_inv r 0 (get_loop w) → loop_inv r 0 (get_loop w').
Proof.
  unfold fire_once. intros H [Hc Hs [Ha1 Ha2]].
  destruct (once_pending (get_loop w)) as [|n] eqn:Hp.
  { injection H as <-. split; [done|done|]. split; [done|]. by rewrite Hp. }
  apply run_task_queue_drain in H as [last_id H].
  eapply drain_inv; [exact H|]. rewrite get_set_loop.
  split; [exact Hc | exact Hs | split; simpl; [exact Ha1|]].
  destruct (task_queue_scheduled _); lia.
Qed.

Lemma run_deferred_inv r id w w' :
  run_deferred_task action id w = Ok w' →
  loop_inv r 0 (get_loop w) → loop_inv r 0 (get_loop w').
Proof.
  unfold run_deferred_task. intros H Hi.
  destruct (extract_first _ _) as [[d ds]|] eqn:Hd; simplify_eq/=; [|done].
  apply extract_first_Some in Hd as (_ & pre & post & Hl & ->).
  eapply run_info_inv; [exact H|]. rewrite get_set_loop.
  destruct Hi as [[Hn Hc] Hs Ha]. split; [|exact Hs|exact Ha].
  split; [done|]. simpl. rewrite Hc.
  unfold queued_ids, deferred_ids, finalized_ids; simpl. rewrite Hl, !fmap_app. simpl.
  solve_Permutation.
Qed.

(** One step of the thread that owns the loop or of a client thread. *)
Inductive loop_step : W → W → Prop :=
| step_op w w' : loop_op (get_loop w) (get_loop w') → loop_step w w'
| step_fire ndebug w w' : fire_once action ndebug w = Ok w' → loop_step w w'
| step_timer id w w' : run_deferred_task action id w = Ok w' → loop_step w w'
| step_run_enter ndebug w l' :
    vpn_event_loop_run_enter ndebug (get_loop w) = Ok l' → loop_step w (set_loop l' w)
| step_run_leave w : loop_step w (set_loop (vpn_event_loop_run_leave (get_loop w)) w)
| step_finalize_begin w : loop_step w (set_loop (finalize_exit_begin (get_loop w)) w)
| step_finalize_end w :
    loop_state (get_loop w) ≠ ELS_RUNNING →
    loop_step w (set_loop (finalize_exit_end (get_loop w)) w).

Lemma loop_step_inv w w' :
  loop_step w w' → loop_inv [] 0 (get_loop w) → loop_inv [] 0 (get_loop w').
Proof.
  destruct 1 as [w w' Ho|? w w' Hf|? w w' Ht|? w l' He|w|w|w]; rewrite ?get_set_loop;
    eauto using loop_op_inv, fire_once_inv, run_deferred_inv, finalize_exit_inv.
  all: intros [? ? ?].
  - unfold vpn_event_loop_run_enter in He. destruct (_ || _); simplify_eq. by split.
  - by split.
  - by split.
Qed.

Lemma loop_inv_create : loop_inv [] 0 (@vpn_event_loop_create T).
Proof. split; [by split | constructor | by split]. Qed.

Lemma loop_reachable_inv w w' :
  get_loop w = vpn_event_loop_create → rtc loop_step w w' → loop_inv [] 0 (get_loop w').
Proof.
  intros H0. assert (loop_inv [] 0 (get_loop w)) as Hi
    by (rewrite H0; apply loop_inv_create).
  clear H0. induction 1; eauto using loop_step_inv.
Qed.

(** *** Order of execution *)

Definition running_ids (l : VpnEventLoop T) : list Z :=
  omap (λ e, match e with Running i => Some i | Finalized _ _ => None end) (loop_log l).

(** How the queue may change while an action runs: entries can be cancelled,
    and what is added has a fresh id. *)
Record queue_grows (l l' : VpnEventLoop T) : Prop := {
  grows_next : next_task_id l ≤ next_task_id l';
  grows_running : running_ids l' = running_ids l;
  grows_queue : ∃ keep new, queued_ids l' = keep ++ new ∧
    sublist keep (queued_ids l) ∧ Forall (λ i, next_task_id l ≤ i) new;
}.

Lemma queue_grows_same l l' :
  next_task_id l ≤ next_task_id l' → running_ids l' = running_ids l →
  sublist (queued_ids l') (queued_ids l) → queue_grows l l'.
Proof. intros. split; [done|done|]. exists (queued_ids l'), []. by rewrite app_nil_r. Qed.

Lemma running_ids_finalize i (l : VpnEventLoop T) :
  running_ids (finalize_task i l) = running_ids l.
Proof. unfold running_ids. simpl. by rewrite omap_app, app_nil_r. Qed.

Lemma queue_grows_op l l' : loop_op l l' → queue_grows l l'.
Proof.
  destruct 1 as [task l|task defer l id l' H|id l|l].
  - unfold vpn_event_loop_submit. simpl.
    destruct (loop_state l); [destruct (task_queue_scheduled l).. |].
    5: { apply queue_grows_same; simpl; [lia|by rewrite running_ids_finalize|done]. }
    all: split; simpl; [lia|done|]; exists (queued_ids l), [next_task_id l];
      unfold queued_ids; simpl; rewrite fmap_app; split; [done|split; [done|]];
      repeat constructor; lia.
  - unfold vpn_event_loop_schedule in H. simpl in H.
    destruct (loop_state l); [..|destruct (task_finalize task)]; simplify_eq/=;
      apply queue_grows_same; simpl; rewrite ?running_ids_finalize; done || lia.
  - unfold vpn_event_loop_cancel.
    destruct (extract_first _ (task_queue l)) as [[i q]|] eqn:Hq.
    + apply extract_first_Some in Hq as (_ & pre & post & Hl & ->).
      apply queue_grows_same; simpl; rewrite ?running_ids_finalize; [lia|done|].
      unfold queued_ids. simpl. rewrite Hl, !fmap_app.
      apply sublist_app; [done|]. simpl. by constructor.
    + destruct (extract_first _ (deferred_task_queue l)) as [[d ds]|];
        apply queue_grows_same; simpl; rewrite ?running_ids_finalize; done || lia.
  - by apply queue_grows_same.
Qed.

Lemma queue_grows_trans l1 l2 l3 :
  queue_grows l1 l2 → queue_grows l2 l3 → queue_grows l1 l3.
Proof.
  intros [N1 R1 (k1 & n1 & E1 & S1 & F1)] [N2 R2 (k2 & n2 & E2 & S2 & F2)].
  split; [lia|congruence|]. rewrite E1 in S2.
  apply sublist_app_r in S2 as (a & b & -> & Sa & Sb).
  exists a, (b ++ n2). split; [by rewrite E2, <- app_assoc|]. split; [by transitivity k1|].
  apply Forall_app. split; [by eapply sublist_Forall|].
  eapply Forall_impl; [exact F2|]. simpl. lia.
Qed.

Lemma queue_grows_ops l l' : rtc loop_op l l' → queue_grows l l'.
Proof.
  induction 1; [by apply queue_grows_same | eauto using queue_grows_trans, queue_grows_op].
Qed.

Lemma running_ids_emit i (l : VpnEventLoop T) :
  running_ids (emit (Running i) l) = running_ids l ++ [i].
Proof. unfold running_ids. simpl. by rewrite omap_app. Qed.

Lemma run_info_grows info w w' :
  run_info action info w = Ok w' →
  running_ids (get_loop w') = running_ids (get_loop w) ++ [ti_id info] ∧
  queue_grows (emit (Running (ti_id info)) (get_loop w)) (get_loop w').
Proof.
  unfold run_info. intros H.
  destruct (action _ _ _) as [w1| |] eqn:Hact; simplify_eq/=.
  apply action_ok, queue_grows_ops in Hact. rewrite !get_set_loop in *.
  pose proof (grows_running _ _ Hact) as Hr.
  rewrite running_ids_finalize, Hr, running_ids_emit. split; [done|].
  destruct Hact as [? _ ?]. split; [done| |done].
  by rewrite running_ids_finalize.
Qed.

Lemma drain_order fuel last_id w w' :
  drain action fuel last_id w = Ok w' → last_id < next_task_id (get_loop w) →
  ∃ ids, running_ids (get_loop w') = running_ids (get_loop w) ++ ids ∧
    sublist ids (queued_ids (get_loop w)) ∧ Forall (λ i, i ≤ last_id) ids ∧
    (length ids ≤ fuel)%nat.
Proof.
  revert w. induction fuel as [|fuel IH]; intros w H Hlast; cbn [drain] in H;
    destruct (task_queue (get_loop w)) as [|info q] eqn:Hq; cbv zeta in H.
  all: try destruct (last_id <? ti_id info) eqn:Hlt.
  all: try (injection H as <-; rewrite get_set_loop; exists []; rewrite app_nil_r;
    repeat split; auto using sublist_nil_l; simpl; lia).
  destruct (run_info action info _) as [w1| |] eqn:Hr; try done.
  apply run_info_grows in Hr as [Hrun Hg]. rewrite !get_set_loop in *.
  destruct Hg as [Hn _ (keep & new & Eq & Hkeep & Hnew)]. simpl in Hn.
  destruct (IH _ H) as (ids & E & Hs & Hle & Hlen); [lia|].
  exists (ti_id info :: ids). rewrite E, Hrun, <- app_assoc. split; [done|].
  unfold queued_ids in Hkeep |- *. simpl in Hkeep. rewrite Hq. cbn [fmap list_fmap].
  repeat split; simpl; [|constructor; [lia|done]|lia].
  apply sublist_skip. rewrite Eq in Hs. apply sublist_app_r in Hs as (a & b & -> & Ha & Hb).
  assert (b = []) as ->.
  { destruct b as [|x b]; [done|]. exfalso.
    apply Forall_app in Hle as [_ Hle]. apply Forall_cons in Hle as [Hx _].
    apply (sublist_Forall _ _ _ Hb), Forall_cons in Hnew as [Hnx _]. simpl in Hnx. lia. }
  rewrite app_nil_r. by transitivity keep.
Qed.

Lemma drain_assert fuel last_id w :
  drain action fuel last_id w = Abort → ∃ id t w1, action id t w1 = Abort.
Proof.
  revert w. induction fuel as [|fuel IH]; intros w H; cbn [drain] in H;
    destruct (task_queue (get_loop w)) as [|info q]; try done.
  cbv zeta in H. destruct (last_id <? ti_id info); [done|].
  destruct (run_info action info _) as [w1| |] eqn:Hr; [by eapply IH| |done].
  unfold run_info in Hr. destruct (action _ _ _) as [w1| |] eqn:Ha; try done. eauto.
Qed.

Lemma sorted_front_back (l : VpnEventLoop T) front q :
  task_queue l = front :: q → queue_sorted l →
  ti_id front ≤ ti_id (default front (last q)) ∧
  ti_id (default front (last q)) ∈ queued_ids l.
Proof.
  intros Hq Hs. unfold queue_sorted, queued_ids in *. rewrite Hq in *. simpl in *.
  apply StronglySorted_inv in Hs as [_ Hf].
  destruct (last q) as [b|] eqn:Hb; simpl; [|split; [lia|left]].
  assert (Hin : ti_id b ∈ ti_id <$> q).
  { apply list_elem_of_fmap_2. apply last_Some in Hb as [q' ->]. set_solver. }
  split; [|by right]. rewrite Forall_forall in Hf. apply Hf in Hin. lia.
Qed.

Lemma run_task_queue_drains ndebug w :
  loop_inv [] 1 (get_loop w) →
  ∃ last_id, last_id < next_task_id (get_loop w) ∧
    run_task_queue action ndebug w = drain action TASK_QUEUE_BUDGET last_id w.
Proof.
  intros [Hc Hs _]. unfold run_task_queue.
  destruct (task_queue (get_loop w)) as [|front q] eqn:Hq.
  - exists (-1). destruct Hc as [? _]. split; [lia|done].
  - destruct (sorted_front_back _ _ _ Hq Hs) as [Hle Hin].
    rewrite (proj2 (Z.leb_le _ _) Hle). eexists; split; [|done].
    by apply (conserved_lt [] _ _ Hc).
Qed.

End DrainInv.

(** ** Properties *)

(** Claim C31. No task is ever lost or finalized twice.  From a fresh loop, whatever
    the owner and other threads submit, schedule, cancel, run or stop, every
    task id handed out so far occurs exactly once among the queued tasks, the
    deferred tasks and the finalized tasks. *)
Theorem tasks_conserved {W T} `{!HasLoop W T} (action : Z → T → W → res W) (w w' : W) :
  action_uses_loop action →
  get_loop w = vpn_event_loop_create →
  rtc (loop_step action) w w' →
  seqZ 0 (next_task_id (get_loop w')) ≡ₚ
    queued_ids (get_loop w') ++ deferred_ids (get_loop w') ++ finalized_ids (get_loop w').
Proof.
  intros Ha H0 Hr. destruct (loop_reachable_inv action Ha w w' H0 Hr) as [[_ Hc] _ _].
  by rewrite app_nil_r in Hc.
Qed.

(** No lost wake-up.  In every reachable loop, a non-empty queue has exactly
    one [run_task_queue] callback pending in the event base, and none is pending
    when nothing was scheduled. *)
Theorem queue_has_callback {W T} `{!HasLoop W T} (action : Z → T → W → res W) (w w' : W) :
  action_uses_loop action →
  get_loop w = vpn_event_loop_create →
  rtc (loop_step action) w w' →
  (task_queue (get_loop w') ≠ [] → once_pending (get_loop w') = 1%nat) ∧
  (task_queue_scheduled (get_loop w') = false → once_pending (get_loop w') = 0%nat).
Proof.
  intros Ha H0 Hr. destruct (loop_reachable_inv action Ha w w' H0 Hr) as [_ _ [H1 H2]].
  rewrite Nat.add_0_r in H2. split; intros H.
  - by rewrite H2, (H1 H).
  - by rewrite H2, H.
Qed.

(** One run of the callback executes tasks in submission order, only tasks
    that were queued when it started (what the tasks submit themselves waits for
    the next run), and at most [TASK_QUEUE_BUDGET] of them; a debug build never
    trips over its id-order assertion. *)
Theorem run_task_queue_order {W T} `{!HasLoop W T} (action : Z → T → W → res W)
    ndebug (w : W) :
  action_uses_loop action →
  loop_inv [] 1 (get_loop w) →
  (run_task_queue action ndebug w = Abort → ∃ id t w1, action id t w1 = Abort) ∧
  ∀ w', run_task_queue action ndebug w = Ok w' →
    ∃ ids, running_ids (get_loop w') = running_ids (get_loop w) ++ ids ∧
      sublist ids (queued_ids (get_loop w)) ∧ (length ids ≤ TASK_QUEUE_BUDGET)%nat.
Proof.
  intros Ha Hi. destruct (run_task_queue_drains action Ha ndebug w Hi) as (last_id & Hl & ->).
  split; [by apply drain_assert|]. intros w' H.
  destruct (drain_order action Ha _ _ _ _ H Hl) as (ids & ? & ? & _ & ?). eauto.
Qed.

(** A loop owned by nobody else, whose tasks are numbers; task [0] submits a
    task [1] to the same loop. *)
#[local] Instance self_loop {T} : HasLoop (VpnEventLoop T) T :=
  {| get_loop l := l; set_loop l _ := l; get_set_loop _ _ := eq_refl |}.

Definition demo_action (id : Z) (t : nat) (l : VpnEventLoop nat) : res (VpnEventLoop nat) :=
  match t with
  | O => Ok (vpn_event_loop_submit (mkTask 1%nat true) l).2
  | S _ => Ok l
  end.

Lemma demo_action_uses_loop : action_uses_loop demo_action.
Proof.
  intros id [|t] w w' [= <-]; [|done]. apply rtc_once, op_submit.
Qed.

Definition demo_loop : VpnEventLoop nat := Eval vm_compute in
  (vpn_event_loop_submit (mkTask 2%nat true)
    (vpn_event_loop_submit (mkTask 0%nat true) vpn_event_loop_create).2).2.

Definition demo_run : VpnEventLoop nat := Eval vm_compute in
  match fire_once demo_action false demo_loop with Ok l => l | _ => demo_loop end.

Lemma demo_steps : rtc (loop_step demo_action) vpn_event_loop_create demo_run.
Proof.
  eapply rtc_l; [apply step_op, (op_submit (mkTask 0%nat true))|].
  eapply rtc_l; [apply step_op, (op_submit (mkTask 2%nat true))|].
  apply rtc_once. apply (step_fire _ false). vm_compute. reflexivity.
Qed.

Lemma tasks_conserved_witness :
  seqZ 0 3 ≡ₚ [2] ++ [] ++ [0; 1].
Proof.
  exact (tasks_conserved demo_action vpn_event_loop_create demo_run
           demo_action_uses_loop eq_refl demo_steps).
Defined.

Lemma queue_has_callback_witness :
  task_queue demo_run ≠ [] ∧ once_pending demo_run = 1%nat.
Proof.
  split; [done|].
  apply (proj1 (queue_has_callback demo_action vpn_event_loop_create demo_run
           demo_action_uses_loop eq_refl demo_steps)). done.
Defined.

Lemma run_task_queue_order_witness :
  ∃ ids, running_ids demo_run = [] ++ ids ∧ sublist ids [0; 1] ∧ (length ids ≤ 64)%nat.
Proof.
  refine (proj2 (run_task_queue_order demo_action false
    (with_queue true (task_queue demo_loop) 0 demo_loop) demo_action_uses_loop _) demo_run _).
  - split; [by split | repeat constructor | by split].
  - vm_compute. reflexivity.
Defined.
