(* ===== verification/LoopTasks.v ===== *)
(** * What an event loop holds

    The tasks waiting in a loop as one list of ids and actions, and how
    submitting, scheduling, cancelling and running change it.  The owners of
    tasks ([AutoTaskId] members of the connectors and of the client) are proved
    against this view of the loop. *)
From S2P Require Import Prelude EventLoop.

Section Tasks.
Context {T : Type}.
Implicit Types l : VpnEventLoop T.

Definition entry_of (i : TaskInfo T) : Z * T := (ti_id i, task_action (ti_task i)).

Definition pending l : list (Z * T) :=
  (entry_of <$> task_queue l) ++ ((λ d, entry_of (dt_basic d)) <$> deferred_task_queue l).

(** The loop is alive, its ids are unique, and it holds exactly the tasks [xs]. *)
Record holds l (xs : list (Z * T)) : Prop := {
  holds_perm : pending l ≡ₚ xs;
  holds_nodup : NoDup (pending l).*1;
  holds_range : Forall (λ x, 0 ≤ x.1 < next_task_id l) (pending l);
  holds_next : 0 ≤ next_task_id l;
  holds_alive : loop_state l ≠ ELS_BASE_EXITED;
}.

#[export] Instance holds_proper l : Proper (Permutation ==> iff) (holds l).
Proof. intros xs ys Hp. split; intros [H1 H2 H3 H4 H5]; split; try done; by rewrite H1. Qed.

Lemma holds_fresh l xs t : holds l xs → NoDup ((next_task_id l, t) :: pending l).*1.
Proof.
  intros [_ Hn Hr _ _]. simpl. constructor; [|done].
  intros ((i & t') & Hi & Hin)%list_elem_of_fmap. simpl in Hi.
  rewrite Forall_forall in Hr. specialize (Hr _ Hin). simpl in Hr. lia.
Qed.

Lemma holds_more l xs t l' :
  holds l xs → pending l' ≡ₚ (next_task_id l, t) :: pending l →
  next_task_id l' = next_task_id l + 1 → loop_state l' = loop_state l →
  holds l' ((next_task_id l, t) :: xs).
Proof.
  intros H Hp Hn Hs. pose proof (holds_fresh l xs t H) as Hf. destruct H as [H1 H2 H3 H4 H5].
  split; [by rewrite Hp, H1|by rewrite Hp| | lia | by rewrite Hs].
  rewrite Hp. constructor; simpl; [lia|]. eapply Forall_impl; [done|]. intros x Hx. simpl in Hx. lia.
Qed.

Lemma holds_submit l xs t b :
  holds l xs →
  ∃ l', vpn_event_loop_submit (mkTask t b) l = (next_task_id l, l') ∧
        holds l' ((next_task_id l, t) :: xs).
Proof.
  intros H. pose proof (holds_alive _ _ H). unfold vpn_event_loop_submit. simpl.
  destruct (loop_state l) eqn:Hs; [..|done];
    destruct (task_queue_scheduled l); eexists; (split; [reflexivity|]);
    (eapply holds_more; [done| |done|done]); unfold pending; simpl; rewrite fmap_app; simpl;
    solve_Permutation.
Qed.

Lemma holds_schedule l xs t b defer :
  holds l xs →
  ∃ l', vpn_event_loop_schedule (mkTask t b) defer l = Ok (next_task_id l, l') ∧
        holds l' ((next_task_id l, t) :: xs).
Proof.
  intros H. pose proof (holds_alive _ _ H). unfold vpn_event_loop_schedule. simpl.
  destruct (loop_state l) eqn:Hs; [..|done];
    eexists; (split; [reflexivity|]);
    (eapply holds_more; [done| |done|done]); unfold pending; simpl; rewrite fmap_app; simpl;
    solve_Permutation.
Qed.

Lemma holds_less l x ys l' :
  (∃ xs, holds l xs ∧ xs ≡ₚ x :: ys) → pending l ≡ₚ x :: pending l' →
  next_task_id l' = next_task_id l → loop_state l' = loop_state l → holds l' ys.
Proof.
  intros (xs & [H1 H2 H3 H4 H5] & Hx) Hp Hn Hs. rewrite Hp in H2, H3. simpl in H2, H3.
  apply NoDup_cons in H2 as [_ H2]. apply Forall_cons in H3 as [_ H3].
  split; [| done | by rewrite Hn | lia | by rewrite Hs].
  apply (Permutation.Permutation_cons_inv (a := x)). by rewrite <- Hp, <- Hx.
Qed.

Lemma extract_first_None {A} (p : A → bool) xs :
  extract_first p xs = None → Forall (λ x, p x = false) xs.
Proof.
  induction xs as [|x xs IH]; simpl; [by constructor|].
  destruct (p x) eqn:Hx; [done|]. destruct (extract_first p xs) as [[]|]; [done|]. constructor; auto.
Qed.

Lemma same_entry l i t t' : NoDup (pending l).*1 → (i, t) ∈ pending l → (i, t') ∈ pending l → t = t'.
Proof.
  intros Hn [a Ha]%list_elem_of_lookup [b Hb]%list_elem_of_lookup.
  assert (a = b) as ->.
  { eapply NoDup_lookup; [exact Hn| |]; rewrite list_lookup_fmap; [rewrite Ha|rewrite Hb]; done. }
  congruence.
Qed.

(** Cancelling a task the loop holds takes exactly that task out. *)
Lemma holds_cancel l pre i t post :
  holds l (pre ++ (i, t) :: post) → holds (vpn_event_loop_cancel i l) (pre ++ post).
Proof.
  intros H.
  assert (Hin : (i, t) ∈ pending l) by (rewrite (holds_perm _ _ H); set_solver).
  assert (∃ xs, holds l xs ∧ xs ≡ₚ (i, t) :: pre ++ post) as Hex
    by (eexists; split; [exact H|]; solve_Permutation).
  assert (Hsame : ∀ t', (i, t') ∈ pending l → t' = t)
    by (intros t' Ht; eapply same_entry; [apply H|done|done]).
  unfold vpn_event_loop_cancel.
  destruct (extract_first _ (task_queue l)) as [[j q]|] eqn:Hq.
  { apply extract_first_Some in Hq as (Hj & p1 & p2 & Heq & ->). apply Z.eqb_eq in Hj.
    eapply holds_less; [exact Hex| |done|done]. unfold pending. simpl.
    rewrite Heq, !fmap_app. simpl.
    replace (entry_of j) with (i, t); [solve_Permutation|].
    unfold entry_of. rewrite Hj. f_equal. symmetry. apply Hsame. rewrite <- Hj.
    unfold pending. rewrite Heq, fmap_app. simpl. set_solver. }
  destruct (extract_first _ (deferred_task_queue l)) as [[j q]|] eqn:Hd.
  { apply extract_first_Some in Hd as (Hj & p1 & p2 & Heq & ->). apply Z.eqb_eq in Hj.
    eapply holds_less; [exact Hex| |done|done]. unfold pending. simpl.
    rewrite Heq, !fmap_app. simpl.
    replace (entry_of (dt_basic j)) with (i, t); [solve_Permutation|].
    unfold entry_of. rewrite Hj. f_equal. symmetry. apply Hsame. rewrite <- Hj.
    unfold pending. rewrite Heq, fmap_app. simpl. set_solver. }
  exfalso. apply extract_first_None in Hq, Hd. rewrite Forall_forall in Hq. rewrite Forall_forall in Hd.
  apply elem_of_app in Hin as [(x & Hx & Hin)%list_elem_of_fmap|(x & Hx & Hin)%list_elem_of_fmap];
    [specialize (Hq _ Hin)|specialize (Hd _ Hin)]; unfold entry_of in Hx; simplify_eq/=;
    rewrite Z.eqb_refl in *; done.
Qed.

Lemma holds_pop l xs info q :
  task_queue l = info :: q → holds l xs →
  ∃ ys, xs ≡ₚ entry_of info :: ys ∧ holds (with_queue (task_queue_scheduled l) q (once_pending l) l) ys.
Proof.
  intros Hq H. assert (entry_of info ∈ xs) as (ys & Hys)%elem_of_Permutation.
  { rewrite <- (holds_perm _ _ H). unfold pending. rewrite Hq. simpl. set_solver. }
  exists ys. split; [done|]. eapply holds_less; [by exists xs| |done|done].
  unfold pending. simpl. by rewrite Hq.
Qed.

Lemma holds_timer l xs d ds id :
  extract_first (λ d, ti_id (dt_basic d) =? id) (deferred_task_queue l) = Some (d, ds) →
  holds l xs →
  ∃ ys, xs ≡ₚ entry_of (dt_basic d) :: ys ∧ holds (with_deferred ds l) ys.
Proof.
  intros (_ & p1 & p2 & Heq & ->)%extract_first_Some H.
  assert (entry_of (dt_basic d) ∈ xs) as (ys & Hys)%elem_of_Permutation.
  { rewrite <- (holds_perm _ _ H). unfold pending. rewrite Heq, !fmap_app. simpl. set_solver. }
  exists ys. split; [done|]. eapply holds_less; [by exists xs| |done|done].
  unfold pending. simpl. rewrite Heq, !fmap_app. simpl. solve_Permutation.
Qed.

Lemma holds_emit l xs e : holds (emit e l) xs ↔ holds l xs.
Proof. split; intros []; by split. Qed.

(** [l'] is the loop [l] without the task [x], which is about to run. *)
Definition taken (x : Z * T) l l' : Prop :=
  ∀ xs, holds l xs → ∃ ys, xs ≡ₚ x :: ys ∧ holds l' ys.

Lemma taken_front l info q :
  task_queue l = info :: q →
  taken (entry_of info) l (with_queue (task_queue_scheduled l) q (once_pending l) l).
Proof. intros Hq xs Hh. by apply holds_pop. Qed.

Lemma taken_timer l d ds id :
  extract_first (λ d, ti_id (dt_basic d) =? id) (deferred_task_queue l) = Some (d, ds) →
  taken (entry_of (dt_basic d)) l (with_deferred ds l).
Proof. intros Hx xs Hh. by eapply holds_timer. Qed.

Lemma taken_emit x l l' e : taken x l l' → taken x l (emit e l').
Proof.
  intros H xs Hh. destruct (H xs Hh) as (ys & Hp & Hl). exists ys. split; [done|]. by apply holds_emit.
Qed.

End Tasks.

(** ** Running one task

    The loop runs its first queued task; the drain callback repeats this. *)
Section RunFront.
Context {W T : Type} `{!HasLoop W T}.
Variable action : Z → T → W → res W.

Definition run_front (w : W) : res W :=
  let l := get_loop w in
  match task_queue l with
  | [] => Ok w
  | info :: q => run_info action info (set_loop (with_queue (task_queue_scheduled l) q (once_pending l) l) w)
  end.

End RunFront.

(** ** The tasks of a loop as a map *)

Section TaskMap.
Context {T : Type}.
Implicit Types l : VpnEventLoop T.

Definition loop_ok l : Prop := holds l (pending l).

Definition tasks l : gmap Z T := list_to_map (pending l).

Lemma holds_loop_ok l xs : holds l xs → loop_ok l.
Proof. intros []. by split. Qed.

Lemma holds_tasks l xs : holds l xs → tasks l = list_to_map xs.
Proof. intros [Hp Hn _ _ _]. by apply list_to_map_proper. Qed.

Lemma tasks_range l i t : loop_ok l → tasks l !! i = Some t → 0 ≤ i < next_task_id l.
Proof.
  intros [_ Hn Hr _ _] Hi. apply elem_of_list_to_map in Hi; [|done].
  rewrite Forall_forall in Hr. by apply (Hr (i, t)).
Qed.

Lemma tasks_next l : loop_ok l → tasks l !! next_task_id l = None.
Proof.
  intros Hl. destruct (tasks l !! next_task_id l) eqn:E; [|done]. apply tasks_range in E; [lia|done].
Qed.

Lemma tasks_submit l t b :
  loop_ok l →
  ∃ l', vpn_event_loop_submit (mkTask t b) l = (next_task_id l, l') ∧ loop_ok l' ∧
        tasks l' = <[next_task_id l := t]> (tasks l) ∧ next_task_id l' = next_task_id l + 1.
Proof.
  intros Hl. destruct (holds_submit l _ t b Hl) as (l' & Hs & Hh). exists l'. split_and!; [done|by eapply holds_loop_ok|..].
  - by rewrite (holds_tasks _ _ Hh).
  - pose proof (holds_alive _ _ Hl). revert Hs. unfold vpn_event_loop_submit. simpl.
    destruct (loop_state l); [..|done]; destruct (task_queue_scheduled l); by intros [= <-].
Qed.

Lemma tasks_schedule l t b defer :
  loop_ok l →
  ∃ l', vpn_event_loop_schedule (mkTask t b) defer l = Ok (next_task_id l, l') ∧ loop_ok l' ∧
        tasks l' = <[next_task_id l := t]> (tasks l) ∧ next_task_id l' = next_task_id l + 1.
Proof.
  intros Hl. destruct (holds_schedule l _ t b defer Hl) as (l' & Hs & Hh). exists l'.
  split_and!; [done|by eapply holds_loop_ok|by rewrite (holds_tasks _ _ Hh)|].
  pose proof (holds_alive _ _ Hl). revert Hs. unfold vpn_event_loop_schedule. simpl.
  destruct (loop_state l); [..|done]; by intros [= <-].
Qed.

Lemma cancel_next i l : next_task_id (vpn_event_loop_cancel i l) = next_task_id l.
Proof.
  unfold vpn_event_loop_cancel. destruct (extract_first _ (task_queue l)) as [[]|]; [done|].
  by destruct (extract_first _ (deferred_task_queue l)) as [[]|].
Qed.

Lemma tasks_cancel i l :
  loop_ok l → loop_ok (vpn_event_loop_cancel i l) ∧ tasks (vpn_event_loop_cancel i l) = delete i (tasks l).
Proof.
  intros Hl. destruct (tasks l !! i) as [t|] eqn:Hi.
  - apply elem_of_list_to_map in Hi; [|apply Hl]. apply list_elem_of_split in Hi as (pre & post & Hp).
    assert (holds l (pre ++ (i, t) :: post)) as Hh by (by rewrite <- Hp).
    pose proof (holds_cancel _ _ _ _ _ Hh) as Hc. split; [by eapply holds_loop_ok|].
    rewrite (holds_tasks _ _ Hc), (holds_tasks _ _ Hh).
    assert (NoDup ((i, t) :: pre ++ post).*1) as Hn.
    { assert (((i, t) :: pre ++ post) ≡ₚ pending l) as -> by (rewrite Hp; solve_Permutation). apply Hl. }
    rewrite (list_to_map_proper (pre ++ (i, t) :: post) ((i, t) :: pre ++ post));
      [|by rewrite <- Hp; apply Hl|solve_Permutation].
    cbn. rewrite delete_insert_id; [done|]. apply not_elem_of_list_to_map. by apply NoDup_cons in Hn as [? _].
  - rewrite delete_id by done. unfold vpn_event_loop_cancel.
    destruct (extract_first _ (task_queue l)) as [[j q]|] eqn:Hq.
    { exfalso. apply extract_first_Some in Hq as (Hj & p1 & p2 & Heq & _). apply Z.eqb_eq in Hj.
      apply not_elem_of_list_to_map in Hi. apply Hi. unfold pending. rewrite Heq, !fmap_app. cbn. rewrite Hj. set_solver. }
    destruct (extract_first _ (deferred_task_queue l)) as [[j q]|] eqn:Hd; [|done].
    exfalso. apply extract_first_Some in Hd as (Hj & p1 & p2 & Heq & _). apply Z.eqb_eq in Hj.
    apply not_elem_of_list_to_map in Hi. apply Hi. unfold pending. rewrite Heq, !fmap_app. cbn. rewrite Hj. set_solver.
Qed.

Lemma tasks_taken l l' i t :
  loop_ok l → taken (i, t) l l' → tasks l !! i = Some t ∧ loop_ok l' ∧ tasks l' = delete i (tasks l).
Proof.
  intros Hl Ht. destruct (Ht _ Hl) as (ys & Hp & Hh).
  assert (tasks l = <[i := t]> (list_to_map ys)) as Heq.
  { unfold tasks. rewrite (list_to_map_proper _ ((i, t) :: ys)); [done|apply Hl|done]. }
  assert ((list_to_map ys : gmap Z T) !! i = None) as Hn.
  { apply not_elem_of_list_to_map. pose proof (holds_nodup _ _ Hl) as Hnd. rewrite Hp in Hnd. cbn in Hnd.
    by apply NoDup_cons in Hnd as [? _]. }
  split_and!.
  - by rewrite Heq, lookup_insert_eq.
  - by eapply holds_loop_ok.
  - by rewrite (holds_tasks _ _ Hh), Heq, delete_insert_id.
Qed.

Lemma tasks_emit e l : tasks (emit e l) = tasks l.
Proof. done. Qed.

Lemma loop_ok_emit e l : loop_ok l → loop_ok (emit e l).
Proof. intros []. by split. Qed.

End TaskMap.
