(* ===== verification/Utils.v ===== *)
(** * Generic helpers of the C++ sources

    [swap_remove_if] of [common/include/vpn/utils.h] and the standard
    algorithms the manager uses, over predicates that may themselves go
    wrong. *)
From S2P Require Import Prelude.

Section Algorithms.
Context {A : Type}.
Implicit Types (p : A → res bool) (xs : list A).

(** [std::find_if], as the index found or the length. *)
Fixpoint find_if p xs : res nat :=
  match xs with
  | [] => Ok 0%nat
  | x :: xs =>
      b ← p x;
      if (b : bool) then Ok 0%nat else n ← find_if p xs; Ok (S n)
  end.

(** [std::none_of]. *)
Fixpoint none_of p xs : res bool :=
  match xs with
  | [] => Ok true
  | x :: xs => b ← p x; if (b : bool) then Ok false else none_of p xs
  end.

(** [for (Iterator i = begin; ++i != end;) if (!p( *i)) std::swap( *begin++, *i)],
    with [n] iterations left, [i] the position of the iterator and [b] that of
    [begin]. *)
Fixpoint swap_loop p (n i b : nat) xs : res (list A * nat) :=
  match n with
  | O => Ok (xs, b)
  | S n =>
      match xs !! i, xs !! b with
      | Some x, Some y =>
          r ← p x;
          if (r : bool) then swap_loop p n (S i) b xs
          else swap_loop p n (S i) (S b) (<[b := x]> (<[i := y]> xs))
      | _, _ => UB
      end
  end.

(** [swap_remove_if]: the array and the returned iterator, as an index. *)
Definition swap_remove_if p xs : res (list A * nat) :=
  b ← find_if p xs;
  if bool_decide (b = length xs) then Ok (xs, b)
  else swap_loop p (length xs - S b) (S b) b xs.

(** ** Correctness *)

Definition keep (q : A → bool) xs : list A := filter (λ x, q x = false) xs.

Lemma find_if_spec p q xs :
  (∀ x, p x = Ok (q x)) →
  ∃ b, find_if p xs = Ok b ∧ (b ≤ length xs)%nat ∧
    Forall (λ x, q x = false) (take b xs) ∧
    ∀ x, xs !! b = Some x → q x = true.
Proof.
  intros Hp. induction xs as [|x xs (b & E & Hle & Hf & Hb)]; simpl.
  - exists 0%nat. repeat split; [lia|constructor|done].
  - rewrite Hp. simpl. destruct (q x) eqn:Hq.
    + exists 0%nat. repeat split; [lia|constructor|]. by intros y [= <-].
    + rewrite E. simpl. exists (S b). repeat split; [lia| |done].
      simpl. by constructor.
Qed.

Lemma none_of_spec p q xs :
  (∀ x, p x = Ok (q x)) → none_of p xs = Ok (forallb (λ x, negb (q x)) xs).
Proof.
  intros Hp. induction xs as [|x xs IH]; simpl; [done|].
  rewrite Hp. simpl. destruct (q x); simpl; [done|apply IH].
Qed.

(** The array in the middle of the loop: the kept elements, then the removed
    ones seen so far (at least one), then what is left to look at. *)
Lemma swap_step (kept removed rest : list A) x y :
  let xs := kept ++ (y :: removed) ++ x :: rest in
  let i := (length kept + S (length removed))%nat in
  xs !! i = Some x ∧ xs !! length kept = Some y ∧
  <[length kept := x]> (<[i := y]> xs) = (kept ++ [x]) ++ (removed ++ [y]) ++ rest.
Proof.
  intros xs i. subst xs i. split_and!.
  - rewrite lookup_app_r by lia. rewrite lookup_app_r by (simpl; lia).
    replace (_ - _ - _)%nat with 0%nat by (simpl; lia). done.
  - rewrite lookup_app_r by lia. by rewrite Nat.sub_diag.
  - rewrite insert_app_r. rewrite insert_app_r_alt by (simpl; lia).
    replace (_ - _)%nat with 0%nat by (simpl; lia). simpl.
    rewrite insert_app_r_alt by lia. rewrite Nat.sub_diag. simpl.
    by rewrite <- !app_assoc.
Qed.

Lemma swap_loop_spec p q rest : (∀ x, p x = Ok (q x)) →
  ∀ kept y removed,
  Forall (λ x, q x = true) (y :: removed) →
  ∃ tail, swap_loop p (length rest) (length kept + S (length removed)) (length kept)
            (kept ++ (y :: removed) ++ rest)
          = Ok ((kept ++ keep q rest) ++ tail, length (kept ++ keep q rest)) ∧
    tail ≡ₚ (y :: removed) ++ filter (λ x, q x = true) rest.
Proof.
  intros Hp. induction rest as [|x rest IH]; intros kept y removed Hr; cbn [swap_loop length].
  - exists (y :: removed). simpl. by rewrite !app_nil_r.
  - destruct (swap_step kept removed rest x y) as (-> & -> & ->).
    rewrite Hp. simpl. unfold keep. rewrite !filter_cons. destruct (q x) eqn:Hq.
    + destruct (IH kept y (removed ++ [x])) as (tail & E & Ht).
      { apply Forall_cons in Hr as [? ?]. constructor; [done|]. apply Forall_app. auto. }
      rewrite length_app in E. simpl in E. simpl.
      replace (S (length kept + S (length removed)))%nat
        with (length kept + S (length removed + 1))%nat by lia.
      rewrite <- app_assoc in E. simpl in E.
      exists tail. split; [exact E|]. rewrite Ht. simpl. by rewrite <- app_assoc.
    + assert (∃ y' removed', removed ++ [y] = y' :: removed' ∧
        length removed' = length removed) as (y' & r' & Er & Hlen).
      { destruct removed as [|z r]; simpl; [by exists y, []|].
        exists z, (r ++ [y]). rewrite length_app. simpl. split; [done|lia]. }
      destruct (IH (kept ++ [x]) y' r') as (tail & E & Ht).
      { rewrite <- Er. apply Forall_cons in Hr as [? ?]. apply Forall_app. auto. }
      rewrite length_app in E. simpl in E.
      replace (S (length kept + S (length removed)))%nat
        with (length kept + 1 + S (length r'))%nat by lia.
      replace (S (length kept)) with (length kept + 1)%nat by lia.
      simpl. rewrite Er. change (filter (λ x0, q x0 = false) rest) with (keep q rest).
      replace (kept ++ x :: keep q rest) with ((kept ++ [x]) ++ keep q rest)
        by (by rewrite <- app_assoc).
      exists tail. split; [exact E|]. rewrite Ht, app_comm_cons, <- Er. solve_Permutation.
Qed.
End Algorithms.

(** [swap_remove_if] partitions the array in place: the part before the
    returned position is the elements that do not satisfy the predicate, in
    their original order; the rest is a permutation of the removed ones. *)
Theorem swap_remove_if_spec {A} (p : A → res bool) (q : A → bool) xs :
  (∀ x, p x = Ok (q x)) →
  ∃ tail, swap_remove_if p xs = Ok (keep q xs ++ tail, length (keep q xs)) ∧
    tail ≡ₚ filter (λ x, q x = true) xs.
Proof.
  intros Hp. destruct (find_if_spec p q xs Hp) as (b & E & Hle & Hf & Hb).
  unfold swap_remove_if. rewrite E. simpl.
  assert (Hk : keep q (take b xs) = take b xs).
  { unfold keep. clear -Hf. induction Hf as [|x l Hx Hl IH]; [done|].
    rewrite filter_cons, decide_True by done. by f_equal. }
  assert (Hn : filter (λ x, q x = true) (take b xs) = []).
  { clear -Hf. induction Hf as [|x l Hx Hl IH]; [done|].
    rewrite filter_cons, decide_False by congruence. done. }
  case_bool_decide as Hlen.
  - subst b. rewrite firstn_all in Hk, Hn. exists []. rewrite Hk, app_nil_r, Hn. done.
  - destruct (lookup_lt_is_Some_2 xs b) as [y Hy]; [lia|].
    pose proof (take_drop_middle xs b y Hy) as Hxs.
    assert (Hlt : length (take b xs) = b) by (rewrite length_take; lia).
    destruct (swap_loop_spec p q (drop (S b) xs) Hp (take b xs) y []) as (tail & E2 & Ht).
    { constructor; [by apply Hb|constructor]. }
    rewrite Hlt in E2. simpl in E2. rewrite Hxs in E2.
    replace (b + 1)%nat with (S b) in E2 by lia. rewrite length_drop in E2.
    assert (Hkeep : keep q xs = take b xs ++ keep q (drop (S b) xs)).
    { rewrite <- Hxs at 1. unfold keep in *. rewrite filter_app, Hk, filter_cons.
      rewrite decide_False; [done|]. rewrite (Hb y Hy). done. }
    exists tail. rewrite Hkeep. split; [exact E2|]. rewrite Ht. simpl.
    rewrite <- Hxs at 2. rewrite filter_app, Hn, filter_cons, decide_True by auto. done.
Qed.

Lemma swap_remove_if_spec_witness :
  ∃ tail, swap_remove_if (λ x : Z, Ok (Z.even x)) [1; 2; 3; 4; 5] = Ok ([1; 3; 5] ++ tail, 3%nat) ∧
    tail ≡ₚ [2; 4].
Proof.
  exact (swap_remove_if_spec (λ x : Z, Ok (Z.even x)) Z.even [1; 2; 3; 4; 5] (λ _, eq_refl)).
Defined.
