(* ===== verification/VpnTypes.v ===== *)
(** * Data of the VPN manager

    The types of [common/include/vpn/utils.h], [net/include/net/utils.h],
    [core/include/vpn/vpn.h], [core/src/vpn_fsm.h] and
    [core/src/vpn_manager.h] that the session state machine works on, the
    calls it makes on its collaborators (as a trace of effects) and the tasks
    it leaves in the event loop (its lambdas, one constructor per lambda). *)
From S2P Require Import Prelude Fsm EventLoop.
From Stdlib Require Import Floats.SpecFloat.

(** ** Errors *)

(** [VpnErrorCode], in declaration order. *)
Definition VPN_EC_NOERROR : Z := 0.
Definition VPN_EC_ERROR : Z := 1.
Definition VPN_EC_INVALID_SETTINGS : Z := 2.
Definition VPN_EC_ADDR_IN_USE : Z := 3.
Definition VPN_EC_INVALID_STATE : Z := 4.
Definition VPN_EC_AUTH_REQUIRED : Z := 5.
Definition VPN_EC_LOCATION_UNAVAILABLE : Z := 6.
Definition VPN_EC_CERTIFICATE_VERIFICATION_FAILED : Z := 7.
Definition VPN_EC_CERTIFICATE_NOT_YET_VALID : Z := 8.
Definition VPN_EC_EVENT_LOOP_FAILURE : Z := 9.
Definition VPN_EC_INITIAL_CONNECT_FAILED : Z := 10.
Definition VPN_EC_FATAL_CONNECTIVITY_ERROR : Z := 11.

(** [VpnError]; a null [text] is [None]. *)
Record VpnError := mkError { code : Z; text : option string }.

(** [VpnError{}]. *)
Definition no_error : VpnError := mkError VPN_EC_NOERROR None.

(** ** Session states and events *)

(** [VpnSessionState]. *)
Definition VPN_SS_DISCONNECTED : Z := 0.
Definition VPN_SS_CONNECTING : Z := 1.
Definition VPN_SS_CONNECTED : Z := 2.
Definition VPN_SS_WAITING_RECOVERY : Z := 3.
Definition VPN_SS_RECOVERING : Z := 4.
Definition VPN_SS_WAITING_FOR_NETWORK : Z := 5.

(** [vpn_fsm::ConnectEvent]. *)
Definition CE_DO_CONNECT : Z := 0.
Definition CE_RETRY_CONNECT : Z := 1.
Definition CE_PING_READY : Z := 2.
Definition CE_PING_FAIL : Z := 3.
Definition CE_CLIENT_READY : Z := 4.
Definition CE_CLIENT_DISCONNECTED : Z := 5.
Definition CE_DO_RECOVERY : Z := 6.
Definition CE_SHUTDOWN : Z := 7.
Definition CE_NETWORK_CHANGE : Z := 8.
Definition CE_START_LISTENING : Z := 9.
Definition CE_ABANDON_ENDPOINT : Z := 10.
Definition CE_COMPLETE_REQUEST : Z := 11.

(** [VpnNetworkState] and the integer values of its enumerators. *)
Inductive VpnNetworkState := VPN_NS_CONNECTED | VPN_NS_NOT_CONNECTED.

Definition network_state_value (s : VpnNetworkState) : Z :=
  match s with VPN_NS_CONNECTED => 0 | VPN_NS_NOT_CONNECTED => 1 end.

(** [VpnConnectAction]. *)
Inductive VpnConnectAction :=
| VPN_CA_DEFAULT | VPN_CA_FORCE_BYPASS | VPN_CA_FORCE_REDIRECT | VPN_CA_REJECT.

#[export] Instance VpnConnectAction_eq_dec : EqDecision VpnConnectAction.
Proof. solve_decision. Defined.

(** [vpn_manager::ClientConnectionState]. *)
Inductive ClientConnectionState := CLIS_DISCONNECTED | CLIS_CONNECTING | CLIS_CONNECTED.

#[export] Instance ClientConnectionState_eq_dec : EqDecision ClientConnectionState.
Proof. solve_decision. Defined.

(** [ConnectRequestResult]. *)
Record ConnectRequestResult := mkRequest {
  req_id : Z;
  req_action : option VpnConnectAction;
  req_appname : string;
  req_uid : Z;
}.

(** ** Endpoints and configuration *)

(** [VpnUpstreamProtocol]. *)
Inductive VpnUpstreamProtocol := VPN_UP_HTTP2 | VPN_UP_HTTP3 | VPN_UP_AUTO.

(** A socket address: its family and its printed form.  [AF_UNSPEC] addresses
    are the ones without a family. *)
Inductive AddressFamily := AF_UNSPEC | AF_INET | AF_INET6 | AF_OTHER (n : Z).

#[export] Instance AddressFamily_eq_dec : EqDecision AddressFamily.
Proof. solve_decision. Defined.

Record SocketAddress := mkAddress {
  sa_family : AddressFamily;
  sa_host : string;
  sa_port : Z;
}.

#[export] Instance SocketAddress_eq_dec : EqDecision SocketAddress.
Proof. solve_decision. Defined.

(** [VpnEndpoint]; null names are [None].  The TLS client-random bytes are not
    read by the manager. *)
Record VpnEndpoint := mkEndpoint {
  ep_address : SocketAddress;
  ep_name : option string;
  ep_remote_id : option string;
  ep_additional_data : string;
  ep_has_ipv6 : bool;
}.

(** [VpnRelay]. *)
Record VpnRelay := mkRelay { relay_address : SocketAddress; relay_additional_data : string }.

(** [VpnUpstreamSessionRecoverySettings]; [float] is an IEEE single. *)
Record VpnUpstreamSessionRecoverySettings := mkRecoverySettings {
  backoff_rate : spec_float;
  location_update_period_ms : Z;
  rs_attempts : Z;
}.

(** [VpnUpstreamConfig], the fields the manager reads or normalizes. *)
Record VpnUpstreamConfig := mkConfig {
  main_protocol : VpnUpstreamProtocol;
  location_id : string;
  location_endpoints : list VpnEndpoint;
  location_ping_timeout_ms : Z;
  timeout_ms : Z;
  health_check_timeout_ms : Z;
  cfg_username : option string;
  cfg_password : option string;
  cfg_recovery : VpnUpstreamSessionRecoverySettings;
  anti_dpi : bool;
}.

(** [SelectedEndpoint]. *)
Record SelectedEndpoint := mkSelected { se_endpoint : VpnEndpoint; se_relay : option VpnRelay }.

(** [vpn_manager::ConnectRetryInfo]; [attempts_left] is a [size_t]. *)
Inductive ConnectRetryInfo :=
| ConnectSeveralAttempts (attempts_left : Z)
| ConnectFallIntoRecovery.

(** [VPN_DEFAULT_*] of [vpn.h] and [DEFAULT_LOCATION_PING_TIMEOUT_MS]. *)
Definition VPN_DEFAULT_ENDPOINT_UPSTREAM_TIMEOUT_MS : Z := 30 * 1000.
Definition VPN_DEFAULT_HEALTH_CHECK_TIMEOUT_MS : Z := 7000.
Definition VPN_DEFAULT_RECOVERY_LOCATION_UPDATE_PERIOD_MS : Z := 10 * 1000.
Definition VPN_DEFAULT_INITIAL_RECOVERY_INTERVAL_MS : Z := 1 * 1000.
Definition VPN_DEFAULT_CONNECT_ATTEMPTS_NUM : Z := 5.
Definition VPN_DEFAULT_POSTPONEMENT_WINDOW_MS : Z := 3 * 1000.
Definition VPN_DEFAULT_RECOVERY_ATTEMPTS : Z := 30.
Definition DEFAULT_LOCATION_PING_TIMEOUT_MS : Z := 5000.

(** ** Single-precision arithmetic

    [float] operations are the binary32 instances of the standard library's
    specification of floating point (24 bits of precision, [emax] 128). *)
Definition float_prec : Z := 24.
Definition float_emax : Z := 128.

Definition float_mul (x y : spec_float) : spec_float := SFmul float_prec float_emax x y.
Definition float_of_Z (x : Z) : spec_float := binary_normalize float_prec float_emax x 0 false.
Definition float_ltb (x y : spec_float) : bool := SFltb x y.

(** [1.3f], the single closest to 1.3. *)
Definition VPN_DEFAULT_RECOVERY_BACKOFF_RATE : spec_float :=
  S754_finite false 10905190 (-23).

(** [x / 2 ^ k] rounded to the nearest integer, ties to even. *)
Definition div_pow2_even (x k : Z) : Z :=
  let q := x / 2 ^ k in
  let r := x `mod` 2 ^ k in
  if 2 * r <? 2 ^ k then q
  else if 2 ^ k <? 2 * r then q + 1
  else if Z.even q then q else q + 1.

(** [std::chrono::round<Millis>] of a [float] number of milliseconds. *)
Definition chrono_round (x : spec_float) : Z :=
  match x with
  | S754_finite s m e =>
      let m := if s then Z.neg m else Z.pos m in
      if 0 <=? e then m * 2 ^ e else div_pow2_even m (- e)
  | _ => 0
  end.

(** ** Recovery bookkeeping *)

(** [RecoveryInfo::time]: time points in nanoseconds of the steady clock (0 is
    [time_point{}]), durations in milliseconds. *)
Record RecoveryTime := mkRecoveryTime {
  start_ts : Z;
  attempt_start_ts : Z;
  between_attempts : Z;
  to_next : Z;
}.

Record RecoveryInfo := mkRecovery {
  time : RecoveryTime;
  attempts : Z;
  task : option Z;
}.

Definition recovery_time_default : RecoveryTime :=
  mkRecoveryTime 0 0 VPN_DEFAULT_INITIAL_RECOVERY_INTERVAL_MS 0.

Definition recovery_default : RecoveryInfo := mkRecovery recovery_time_default 0 None.

(** ** Event data

    The [void *data] of an event, as the object it points to. *)
Inductive EventData :=
| NoData
| ErrorData (e : VpnError)
| NetworkData (s : VpnNetworkState)
| ListenData
| RequestData (r : ConnectRequestResult).

(** ** Tasks left in the event loop, one per lambda *)
Inductive VpnTask :=
| TFailedRecovery                                   (* initiate_recovery, attempts exhausted *)
| TDoRecovery                                       (* initiate_recovery, scheduled *)
| TClientDisconnected                               (* run_client_connect *)
| TRetryConnect                                     (* retry_connect *)
| TListenFailed (e : VpnError)                      (* start_listening *)
| TConnect (cfg : VpnUpstreamConfig) (r : ConnectRetryInfo) (* vpn_connect *)
| TForceReconnect                                   (* vpn_force_reconnect *)
| TForceDisconnect (fatal : bool)                   (* vpn_force_disconnect *)
| TListen                                           (* vpn_listen *)
| TShutdown                                         (* vpn_stop *)
| TCompleteRequest (r : ConnectRequestResult)       (* vpn_complete_connect_request *)
| TUpdateExclusions (mode : Z) (exclusions : string) (* vpn_update_exclusions *)
| TResetConnections (uid : Z)                       (* vpn_reset_connections *)
| TNetworkChange (s : VpnNetworkState)              (* vpn_notify_network_change *)
| TRequestStats                                     (* vpn_request_endpoint_connection_stats *)
| TSleep                                            (* vpn_notify_sleep *)
| TSleepDone                                        (* vpn_notify_sleep, the inner task *)
| TWake                                             (* vpn_notify_wake *)
| TAbandonEndpoint (e : VpnEndpoint).               (* vpn_abandon_endpoint *)

(** ** Calls on the collaborators

    What the manager asks of the client, the pinger and the application, in
    the order it asks. *)
Inductive StateInfo :=
| WaitingRecoveryInfo (e : VpnError) (time_to_next_ms : Z)
| ConnectedInfo (e : VpnEndpoint) (r : option VpnRelay)
| ErrorInfo (e : VpnError).

(** [vpn_client::EndpointConnectionConfig] as [make_client_upstream_config]
    fills it. *)
Record EndpointConnectionConfig := mkEndpointConfig {
  ecc_protocol : VpnUpstreamProtocol;
  ecc_endpoint : VpnEndpoint;
  ecc_timeout : Z;
  ecc_health_check_timeout : Z;
  ecc_username : option string;
  ecc_password : option string;
  ecc_ipv6 : bool;
  ecc_anti_dpi : bool;
}.

(** [LocationsPingerInfo] as [run_ping] fills it. *)
Record LocationsPingerInfo := mkPingerInfo {
  pi_timeout_ms : Z;
  pi_endpoints : list VpnEndpoint;
  pi_rounds : Z;
  pi_main_protocol : VpnUpstreamProtocol;
  pi_anti_dpi : bool;
  pi_handoff : bool;
  pi_quic_max_idle_timeout_ms : Z;
  pi_relay_parallel : option VpnRelay;
}.

Inductive Effect :=
| PingerStart (info : LocationsPingerInfo)
| PingerStop
| ClientConnect (cfg : EndpointConnectionConfig) (timeout : option Z)
| ClientDisconnect
| ClientHealthCheck
| ClientListen
| ClientUpdateParameters
| ClientUpdateBypassIpAvailability
| ClientCompleteRequest (id : Z) (action : option VpnConnectAction)
| ClientRejectRequest (id : Z)
| ClientResetConnection (id : Z)
| ClientResetConnections (uid : Z)
| ClientUpdateExclusions (mode : Z) (exclusions : string)
| ClientNetworkChange
| ClientFinalizeDisconnect
| SocketsCompleteAll
| ClientSleep
| ClientWake
| SleepCompleted
| StatsRaised (e : VpnError)
| StateChanged (location : string) (state : Z) (info : StateInfo).

(** ** The manager object

    [Vpn]; the pinger, the handed-over connection objects and the
    postponement timer are modelled by whether the owning pointer is set. *)
Record Vpn := mkVpn {
  fsm_state : Z;
  fsm_recursive : bool;
  pending_error : option VpnError;
  ev_loop : option (VpnEventLoop VpnTask);
  executor_running : bool;
  recovery : RecoveryInfo;
  upstream_config : VpnUpstreamConfig;
  selected_endpoint : option SelectedEndpoint;
  network_changed_before_recovery : bool;
  connected_once : bool;
  pinger : bool;
  ping_failure_induces_location_unavailable : bool;
  client_state : ClientConnectionState;
  client_quic_connector : bool;
  client_tcp_socket : bool;
  kill_switch_on : bool;
  connect_retry_info : ConnectRetryInfo;
  bypassed_connection_ids : list Z;
  postponed_requests : list ConnectRequestResult;
  postponement_window_timer : bool;
  update_exclusions_task : option Z;
  out : list Effect;
}.

(** Field updates. *)
Definition set_fsm_state (x : Z) (v : Vpn) : Vpn :=
  mkVpn x (fsm_recursive v) (pending_error v) (ev_loop v) (executor_running v) (recovery
    v) (upstream_config v) (selected_endpoint v) (network_changed_before_recovery v)
    (connected_once v) (pinger v) (ping_failure_induces_location_unavailable v)
    (client_state v) (client_quic_connector v) (client_tcp_socket v) (kill_switch_on v)
    (connect_retry_info v) (bypassed_connection_ids v) (postponed_requests v)
    (postponement_window_timer v) (update_exclusions_task v) (out v).
Definition set_fsm_recursive (x : bool) (v : Vpn) : Vpn :=
  mkVpn (fsm_state v) x (pending_error v) (ev_loop v) (executor_running v) (recovery v)
    (upstream_config v) (selected_endpoint v) (network_changed_before_recovery v)
    (connected_once v) (pinger v) (ping_failure_induces_location_unavailable v)
    (client_state v) (client_quic_connector v) (client_tcp_socket v) (kill_switch_on v)
    (connect_retry_info v) (bypassed_connection_ids v) (postponed_requests v)
    (postponement_window_timer v) (update_exclusions_task v) (out v).
Definition set_pending_error (x : option VpnError) (v : Vpn) : Vpn :=
  mkVpn (fsm_state v) (fsm_recursive v) x (ev_loop v) (executor_running v) (recovery v)
    (upstream_config v) (selected_endpoint v) (network_changed_before_recovery v)
    (connected_once v) (pinger v) (ping_failure_induces_location_unavailable v)
    (client_state v) (client_quic_connector v) (client_tcp_socket v) (kill_switch_on v)
    (connect_retry_info v) (bypassed_connection_ids v) (postponed_requests v)
    (postponement_window_timer v) (update_exclusions_task v) (out v).
Definition set_ev_loop (x : option (VpnEventLoop VpnTask)) (v : Vpn) : Vpn :=
  mkVpn (fsm_state v) (fsm_recursive v) (pending_error v) x (executor_running v) (recovery
    v) (upstream_config v) (selected_endpoint v) (network_changed_before_recovery v)
    (connected_once v) (pinger v) (ping_failure_induces_location_unavailable v)
    (client_state v) (client_quic_connector v) (client_tcp_socket v) (kill_switch_on v)
    (connect_retry_info v) (bypassed_connection_ids v) (postponed_requests v)
    (postponement_window_timer v) (update_exclusions_task v) (out v).
Definition set_executor_running (x : bool) (v : Vpn) : Vpn :=
  mkVpn (fsm_state v) (fsm_recursive v) (pending_error v) (ev_loop v) x (recovery v)
    (upstream_config v) (selected_endpoint v) (network_changed_before_recovery v)
    (connected_once v) (pinger v) (ping_failure_induces_location_unavailable v)
    (client_state v) (client_quic_connector v) (client_tcp_socket v) (kill_switch_on v)
    (connect_retry_info v) (bypassed_connection_ids v) (postponed_requests v)
    (postponement_window_timer v) (update_exclusions_task v) (out v).
Definition set_recovery (x : RecoveryInfo) (v : Vpn) : Vpn :=
  mkVpn (fsm_state v) (fsm_recursive v) (pending_error v) (ev_loop v) (executor_running v)
    x (upstream_config v) (selected_endpoint v) (network_changed_before_recovery v)
    (connected_once v) (pinger v) (ping_failure_induces_location_unavailable v)
    (client_state v) (client_quic_connector v) (client_tcp_socket v) (kill_switch_on v)
    (connect_retry_info v) (bypassed_connection_ids v) (postponed_requests v)
    (postponement_window_timer v) (update_exclusions_task v) (out v).
Definition set_upstream_config (x : VpnUpstreamConfig) (v : Vpn) : Vpn :=
  mkVpn (fsm_state v) (fsm_recursive v) (pending_error v) (ev_loop v) (executor_running v)
    (recovery v) x (selected_endpoint v) (network_changed_before_recovery v)
    (connected_once v) (pinger v) (ping_failure_induces_location_unavailable v)
    (client_state v) (client_quic_connector v) (client_tcp_socket v) (kill_switch_on v)
    (connect_retry_info v) (bypassed_connection_ids v) (postponed_requests v)
    (postponement_window_timer v) (update_exclusions_task v) (out v).
Definition set_selected_endpoint (x : option SelectedEndpoint) (v : Vpn) : Vpn :=
  mkVpn (fsm_state v) (fsm_recursive v) (pending_error v) (ev_loop v) (executor_running v)
    (recovery v) (upstream_config v) x (network_changed_before_recovery v) (connected_once
    v) (pinger v) (ping_failure_induces_location_unavailable v) (client_state v)
    (client_quic_connector v) (client_tcp_socket v) (kill_switch_on v) (connect_retry_info
    v) (bypassed_connection_ids v) (postponed_requests v) (postponement_window_timer v)
    (update_exclusions_task v) (out v).
Definition set_network_changed_before_recovery (x : bool) (v : Vpn) : Vpn :=
  mkVpn (fsm_state v) (fsm_recursive v) (pending_error v) (ev_loop v) (executor_running v)
    (recovery v) (upstream_config v) (selected_endpoint v) x (connected_once v) (pinger v)
    (ping_failure_induces_location_unavailable v) (client_state v) (client_quic_connector
    v) (client_tcp_socket v) (kill_switch_on v) (connect_retry_info v)
    (bypassed_connection_ids v) (postponed_requests v) (postponement_window_timer v)
    (update_exclusions_task v) (out v).
Definition set_connected_once (x : bool) (v : Vpn) : Vpn :=
  mkVpn (fsm_state v) (fsm_recursive v) (pending_error v) (ev_loop v) (executor_running v)
    (recovery v) (upstream_config v) (selected_endpoint v)
    (network_changed_before_recovery v) x (pinger v)
    (ping_failure_induces_location_unavailable v) (client_state v) (client_quic_connector
    v) (client_tcp_socket v) (kill_switch_on v) (connect_retry_info v)
    (bypassed_connection_ids v) (postponed_requests v) (postponement_window_timer v)
    (update_exclusions_task v) (out v).
Definition set_pinger (x : bool) (v : Vpn) : Vpn :=
  mkVpn (fsm_state v) (fsm_recursive v) (pending_error v) (ev_loop v) (executor_running v)
    (recovery v) (upstream_config v) (selected_endpoint v)
    (network_changed_before_recovery v) (connected_once v) x
    (ping_failure_induces_location_unavailable v) (client_state v) (client_quic_connector
    v) (client_tcp_socket v) (kill_switch_on v) (connect_retry_info v)
    (bypassed_connection_ids v) (postponed_requests v) (postponement_window_timer v)
    (update_exclusions_task v) (out v).
Definition set_ping_failure_induces_location_unavailable (x : bool) (v : Vpn) : Vpn :=
  mkVpn (fsm_state v) (fsm_recursive v) (pending_error v) (ev_loop v) (executor_running v)
    (recovery v) (upstream_config v) (selected_endpoint v)
    (network_changed_before_recovery v) (connected_once v) (pinger v) x (client_state v)
    (client_quic_connector v) (client_tcp_socket v) (kill_switch_on v) (connect_retry_info
    v) (bypassed_connection_ids v) (postponed_requests v) (postponement_window_timer v)
    (update_exclusions_task v) (out v).
Definition set_client_state (x : ClientConnectionState) (v : Vpn) : Vpn :=
  mkVpn (fsm_state v) (fsm_recursive v) (pending_error v) (ev_loop v) (executor_running v)
    (recovery v) (upstream_config v) (selected_endpoint v)
    (network_changed_before_recovery v) (connected_once v) (pinger v)
    (ping_failure_induces_location_unavailable v) x (client_quic_connector v)
    (client_tcp_socket v) (kill_switch_on v) (connect_retry_info v)
    (bypassed_connection_ids v) (postponed_requests v) (postponement_window_timer v)
    (update_exclusions_task v) (out v).
Definition set_client_quic_connector (x : bool) (v : Vpn) : Vpn :=
  mkVpn (fsm_state v) (fsm_recursive v) (pending_error v) (ev_loop v) (executor_running v)
    (recovery v) (upstream_config v) (selected_endpoint v)
    (network_changed_before_recovery v) (connected_once v) (pinger v)
    (ping_failure_induces_location_unavailable v) (client_state v) x (client_tcp_socket v)
    (kill_switch_on v) (connect_retry_info v) (bypassed_connection_ids v)
    (postponed_requests v) (postponement_window_timer v) (update_exclusions_task v) (out
    v).
Definition set_client_tcp_socket (x : bool) (v : Vpn) : Vpn :=
  mkVpn (fsm_state v) (fsm_recursive v) (pending_error v) (ev_loop v) (executor_running v)
    (recovery v) (upstream_config v) (selected_endpoint v)
    (network_changed_before_recovery v) (connected_once v) (pinger v)
    (ping_failure_induces_location_unavailable v) (client_state v) (client_quic_connector
    v) x (kill_switch_on v) (connect_retry_info v) (bypassed_connection_ids v)
    (postponed_requests v) (postponement_window_timer v) (update_exclusions_task v) (out
    v).
Definition set_kill_switch_on (x : bool) (v : Vpn) : Vpn :=
  mkVpn (fsm_state v) (fsm_recursive v) (pending_error v) (ev_loop v) (executor_running v)
    (recovery v) (upstream_config v) (selected_endpoint v)
    (network_changed_before_recovery v) (connected_once v) (pinger v)
    (ping_failure_induces_location_unavailable v) (client_state v) (client_quic_connector
    v) (client_tcp_socket v) x (connect_retry_info v) (bypassed_connection_ids v)
    (postponed_requests v) (postponement_window_timer v) (update_exclusions_task v) (out
    v).
Definition set_connect_retry_info (x : ConnectRetryInfo) (v : Vpn) : Vpn :=
  mkVpn (fsm_state v) (fsm_recursive v) (pending_error v) (ev_loop v) (executor_running v)
    (recovery v) (upstream_config v) (selected_endpoint v)
    (network_changed_before_recovery v) (connected_once v) (pinger v)
    (ping_failure_induces_location_unavailable v) (client_state v) (client_quic_connector
    v) (client_tcp_socket v) (kill_switch_on v) x (bypassed_connection_ids v)
    (postponed_requests v) (postponement_window_timer v) (update_exclusions_task v) (out
    v).
Definition set_bypassed_connection_ids (x : list Z) (v : Vpn) : Vpn :=
  mkVpn (fsm_state v) (fsm_recursive v) (pending_error v) (ev_loop v) (executor_running v)
    (recovery v) (upstream_config v) (selected_endpoint v)
    (network_changed_before_recovery v) (connected_once v) (pinger v)
    (ping_failure_induces_location_unavailable v) (client_state v) (client_quic_connector
    v) (client_tcp_socket v) (kill_switch_on v) (connect_retry_info v) x
    (postponed_requests v) (postponement_window_timer v) (update_exclusions_task v) (out
    v).
Definition set_postponed_requests (x : list ConnectRequestResult) (v : Vpn) : Vpn :=
  mkVpn (fsm_state v) (fsm_recursive v) (pending_error v) (ev_loop v) (executor_running v)
    (recovery v) (upstream_config v) (selected_endpoint v)
    (network_changed_before_recovery v) (connected_once v) (pinger v)
    (ping_failure_induces_location_unavailable v) (client_state v) (client_quic_connector
    v) (client_tcp_socket v) (kill_switch_on v) (connect_retry_info v)
    (bypassed_connection_ids v) x (postponement_window_timer v) (update_exclusions_task v)
    (out v).
Definition set_postponement_window_timer (x : bool) (v : Vpn) : Vpn :=
  mkVpn (fsm_state v) (fsm_recursive v) (pending_error v) (ev_loop v) (executor_running v)
    (recovery v) (upstream_config v) (selected_endpoint v)
    (network_changed_before_recovery v) (connected_once v) (pinger v)
    (ping_failure_induces_location_unavailable v) (client_state v) (client_quic_connector
    v) (client_tcp_socket v) (kill_switch_on v) (connect_retry_info v)
    (bypassed_connection_ids v) (postponed_requests v) x (update_exclusions_task v) (out
    v).
Definition set_update_exclusions_task (x : option Z) (v : Vpn) : Vpn :=
  mkVpn (fsm_state v) (fsm_recursive v) (pending_error v) (ev_loop v) (executor_running v)
    (recovery v) (upstream_config v) (selected_endpoint v)
    (network_changed_before_recovery v) (connected_once v) (pinger v)
    (ping_failure_induces_location_unavailable v) (client_state v) (client_quic_connector
    v) (client_tcp_socket v) (kill_switch_on v) (connect_retry_info v)
    (bypassed_connection_ids v) (postponed_requests v) (postponement_window_timer v) x
    (out v).
Definition set_out (x : list Effect) (v : Vpn) : Vpn :=
  mkVpn (fsm_state v) (fsm_recursive v) (pending_error v) (ev_loop v) (executor_running v)
    (recovery v) (upstream_config v) (selected_endpoint v)
    (network_changed_before_recovery v) (connected_once v) (pinger v)
    (ping_failure_induces_location_unavailable v) (client_state v) (client_quic_connector
    v) (client_tcp_socket v) (kill_switch_on v) (connect_retry_info v)
    (bypassed_connection_ids v) (postponed_requests v) (postponement_window_timer v)
    (update_exclusions_task v) x.

Definition emit_effect (e : Effect) (v : Vpn) : Vpn := set_out (out v ++ [e]) v.

#[export] Instance Vpn_fsm : HasFsm Vpn.
Proof.
  refine {| m_current_state := fsm_state; m_recursive := fsm_recursive;
            set_current_state := set_fsm_state; set_recursive := set_fsm_recursive |};
    try (intros; reflexivity).
  intros []; reflexivity.
Defined.

#[export] Instance Vpn_loop : HasLoop Vpn VpnTask.
Proof.
  refine {| get_loop v := default vpn_event_loop_create (ev_loop v);
            set_loop l v := set_ev_loop (Some l) v |}.
  reflexivity.
Defined.

(** ** Events of the VPN client

    The ones that drive the session; the others are forwarded to the
    application unchanged. *)
Inductive ClientEvent :=
| EVENT_CONNECTED
| EVENT_DISCONNECTED
| EVENT_ERROR (e : VpnError).
