(* ===== verification/VpnFsm.v ===== *)
(** * The session state machine

    [core/src/vpn_fsm.cpp]: the conditions, the actions and the transition
    table of the VPN session, with the methods of [Vpn]
    ([core/src/vpn_manager.cpp]) that the actions call.  Calls on the client
    and the pinger go to the effect trace; what they return, and the clock, is
    the [Env] of the call. *)
From S2P Require Import Prelude Fsm EventLoop VpnTypes.

(** Answers of the collaborators during one call: the steady clock, the
    results of [VpnClient::connect] and [VpnClient::listen], and the tunnel's
    view of a connection request. *)
Record Env := mkEnv {
  env_now : Z;
  env_connect : VpnError;
  env_listen : VpnError;
  env_should_complete_immediately : Z → bool;
  env_finalize_connect_action : ConnectRequestResult → option VpnConnectAction;
}.

(** ** Methods of [Vpn] *)

Definition NS_PER_MS : Z := 1000000.

(** [Vpn::submit] without a delay. *)
Definition submit (t : VpnTask) (v : Vpn) : Vpn :=
  set_loop (vpn_event_loop_submit (mkTask t true) (get_loop v)).2 v.

(** [AutoTaskId::reset] on a task of this loop. *)
Definition auto_task_reset (id : option Z) (v : Vpn) : Vpn :=
  match id with
  | Some id => set_loop (vpn_event_loop_cancel id (get_loop v)) v
  | None => v
  end.

(** [vpn->recovery = {}]: the old task is cancelled by the destructor of the
    swapped-out [AutoTaskId]. *)
Definition reset_recovery (v : Vpn) : Vpn :=
  set_recovery recovery_default (auto_task_reset (task (recovery v)) v).

(** [Vpn::disconnect_client]. *)
Definition disconnect_client (v : Vpn) : Vpn :=
  match client_state v with
  | CLIS_DISCONNECTED => v
  | CLIS_CONNECTED | CLIS_CONNECTING =>
      set_client_state CLIS_DISCONNECTED (emit_effect ClientDisconnect v)
  end.

(** [Vpn::stop_pinging]. *)
Definition stop_pinging (v : Vpn) : Vpn :=
  let v := if pinger v then set_pinger false (emit_effect PingerStop v) else v in
  set_ping_failure_induces_location_unavailable false v.

(** [Vpn::disconnect]. *)
Definition disconnect (v : Vpn) : Vpn := disconnect_client (stop_pinging v).

(** [Vpn::complete_postponed_requests]. *)
Definition complete_postponed_requests (v : Vpn) : Vpn :=
  let v := foldl (λ v r, emit_effect (ClientCompleteRequest (req_id r) (req_action r)) v)
             v (postponed_requests v) in
  set_postponed_requests [] v.

(** [Vpn::reset_bypassed_connections]. *)
Definition reset_bypassed_connections (v : Vpn) : Vpn :=
  let v := foldl (λ v id, emit_effect (ClientResetConnection id) v)
             v (bypassed_connection_ids v) in
  set_bypassed_connection_ids [] v.

(** [Vpn::make_client_upstream_config]; [value()] of an empty
    [selected_endpoint] throws. *)
Definition make_client_upstream_config (v : Vpn) : res EndpointConnectionConfig :=
  match selected_endpoint v with
  | None => Abort
  | Some se =>
      let endpoint := se_endpoint se in
      let endpoint :=
        match se_relay se with
        | Some relay =>
            mkEndpoint (relay_address relay) (ep_name endpoint) (ep_remote_id endpoint)
              (relay_additional_data relay) (ep_has_ipv6 endpoint)
        | None => endpoint
        end in
      Ok (mkEndpointConfig
            (if client_quic_connector v then VPN_UP_HTTP3 else VPN_UP_HTTP2)
            endpoint
            (timeout_ms (upstream_config v))
            (health_check_timeout_ms (upstream_config v))
            (cfg_username (upstream_config v))
            (cfg_password (upstream_config v))
            (ep_has_ipv6 endpoint)
            (anti_dpi (upstream_config v)))
  end.

(** ** Reading the event data

    [(VpnError * ) data]: [error->code] is the leading [int] of whatever object
    [data] points to; the whole object may only be read at its own type. *)
Definition data_error_code (d : EventData) : res (option Z) :=
  match d with
  | NoData => Ok None
  | ErrorData e => Ok (Some (code e))
  | NetworkData s => Ok (Some (network_state_value s))
  | ListenData | RequestData _ => UB
  end.

Definition data_error (d : EventData) : res VpnError :=
  match d with
  | ErrorData e => Ok e
  | _ => UB
  end.

Definition data_network_state (d : EventData) : res VpnNetworkState :=
  match d with
  | NetworkData s => Ok s
  | _ => UB
  end.

Definition data_request (d : EventData) : res ConnectRequestResult :=
  match d with
  | RequestData r => Ok r
  | _ => UB
  end.

(** [!pending_error.has_value() && error != nullptr && error->code != VPN_EC_NOERROR]. *)
Definition has_new_error (v : Vpn) (d : EventData) : res bool :=
  match pending_error v with
  | Some _ => Ok false
  | None =>
      c ← data_error_code d;
      Ok (match c with Some c => negb (c =? VPN_EC_NOERROR) | None => false end)
  end.

(** ** Conditions *)

Definition is_fatal_error_code (c : Z) : bool :=
  (c =? VPN_EC_AUTH_REQUIRED) || (c =? VPN_EC_LOCATION_UNAVAILABLE)
  || (c =? VPN_EC_CERTIFICATE_VERIFICATION_FAILED)
  || (c =? VPN_EC_CERTIFICATE_NOT_YET_VALID).

Definition is_fatal_error (v : Vpn) (d : EventData) : res bool :=
  c ← data_error_code d;
  Ok ((match c with Some c => is_fatal_error_code c | None => false end)
      || is_fatal_error_code (code (default no_error (pending_error v)))).

Definition need_to_ping_on_recovery (env : Env) (v : Vpn) (_ : EventData) : res bool :=
  match selected_endpoint v with
  | None => Ok true
  | Some _ =>
      if network_changed_before_recovery v then Ok true
      else Ok (location_update_period_ms (cfg_recovery (upstream_config v)) * NS_PER_MS
                 <=? env_now env - start_ts (time (recovery v)))
  end.

Definition fall_into_recovery (v : Vpn) (_ : EventData) : res bool :=
  Ok (match connect_retry_info v with ConnectFallIntoRecovery => true | _ => false end).

Definition no_connect_attempts (v : Vpn) (_ : EventData) : res bool :=
  Ok (match connect_retry_info v with
      | ConnectSeveralAttempts attempts_left => attempts_left =? 0
      | ConnectFallIntoRecovery => false
      end).

Definition network_lost (_ : Vpn) (d : EventData) : res bool :=
  s ← data_network_state d;
  Ok (match s with VPN_NS_NOT_CONNECTED => true | VPN_NS_CONNECTED => false end).

Definition is_connected_once (v : Vpn) (_ : EventData) : res bool := Ok (connected_once v).

Definition can_complete (env : Env) (v : Vpn) (d : EventData) : res bool :=
  r ← data_request d;
  if bool_decide (req_action r = Some VPN_CA_FORCE_BYPASS) then Ok true
  else
    let state := fsm_state v in
    Ok ((state =? VPN_SS_CONNECTED) || (state =? VPN_SS_CONNECTING)
        || (state =? VPN_SS_DISCONNECTED) || (state =? VPN_SS_WAITING_FOR_NETWORK)
        || env_should_complete_immediately env (req_id r)).

Definition is_kill_switch_on (v : Vpn) (_ : EventData) : res bool := Ok (kill_switch_on v).

Definition should_postpone (v : Vpn) (_ : EventData) : res bool :=
  Ok (postponement_window_timer v).

(** ** Actions *)

(** [initiate_recovery]. *)
Definition initiate_recovery (env : Env) (v : Vpn) : res Vpn :=
  let cfg := cfg_recovery (upstream_config v) in
  if rs_attempts cfg <=? attempts (recovery v) then Ok (submit TFailedRecovery v)
  else
    let now := env_now env in
    let t := time (recovery v) in
    let '(elapsed, t, v) :=
      if negb (start_ts t =? 0)
      then (Z.max (Z.quot (now - attempt_start_ts t) NS_PER_MS) 0, t, v)
      else (0, mkRecoveryTime now (attempt_start_ts t) (between_attempts t) (to_next t),
            set_postponement_window_timer true v) in
    let time_to_next :=
      if elapsed <=? between_attempts t then between_attempts t - elapsed else 0 in
    let old_task := task (recovery v) in
    let attempts := u32 (attempts (recovery v) + 1) in
    '(id, l) ← vpn_event_loop_schedule (mkTask TDoRecovery true) (u32 time_to_next) (get_loop v);
    let v := auto_task_reset old_task (set_loop l v) in
    let new_task := if id <? 0 then None else Some id in
    let t := mkRecoveryTime (start_ts t) (attempt_start_ts t)
               (chrono_round (float_mul (float_of_Z (between_attempts t)) (backoff_rate cfg)))
               (to_next t) in
    let next_attempt_ts := now + time_to_next * NS_PER_MS in
    let t := if location_update_period_ms cfg * NS_PER_MS <=? next_attempt_ts - start_ts t
             then recovery_time_default else t in
    let t := mkRecoveryTime (start_ts t) (attempt_start_ts t) (between_attempts t) time_to_next in
    Ok (set_recovery (mkRecovery t attempts new_task) v).

(** [run_client_connect]. *)
Definition run_client_connect (env : Env) (timeout : option Z) (v : Vpn) : res Vpn :=
  cfg ← make_client_upstream_config v;
  let v := emit_effect (ClientConnect cfg timeout) v in
  let error := env_connect env in
  if code error =? VPN_EC_NOERROR
  then Ok (set_pending_error None (set_client_state CLIS_CONNECTING v))
  else Ok (submit TClientDisconnected (set_pending_error (Some error) v)).

Definition run_ping (env : Env) (v : Vpn) (_ : EventData) : res Vpn :=
  let v := stop_pinging v in
  let cfg := upstream_config v in
  let quic_max_idle_timeout := u32 (2 * (timeout_ms cfg + health_check_timeout_ms cfg)) in
  let relay_parallel :=
    match selected_endpoint v with
    | Some se => if negb (start_ts (time (recovery v)) =? 0) then se_relay se else None
    | None => None
    end in
  let info := mkPingerInfo (location_ping_timeout_ms cfg) (location_endpoints cfg) 1
                (main_protocol cfg) (anti_dpi cfg) true quic_max_idle_timeout relay_parallel in
  let v := set_pinger true (emit_effect (PingerStart info) v) in
  let v := set_pending_error None v in
  let v := set_selected_endpoint None v in
  match task (recovery v) with
  | Some _ =>
      let v := auto_task_reset (task (recovery v)) v in
      let t := time (recovery v) in
      Ok (set_recovery
            (mkRecovery (mkRecoveryTime (start_ts t) (env_now env) (between_attempts t) (to_next t))
               (attempts (recovery v)) None) v)
  | None => Ok v
  end.

Definition connect_client (env : Env) (v : Vpn) (_ : EventData) : res Vpn :=
  run_client_connect env None v.

Definition attempts_exceeded : VpnError :=
  mkError VPN_EC_INITIAL_CONNECT_FAILED (Some "Number of connection attempts exceeded"%string).

Definition complete_connect (v : Vpn) (d : EventData) : res Vpn :=
  new ← has_new_error v d;
  v ← (if (new : bool)
       then e ← data_error d; Ok (set_pending_error (Some e) (disconnect v))
       else Ok v);
  v ← (match pending_error v with
       | None => Ok v
       | Some _ =>
           fatal ← is_fatal_error v d;
           none_left ← no_connect_attempts v NoData;
           Ok (if negb fatal && none_left then set_pending_error (Some attempts_exceeded) v else v)
       end);
  let v := reset_recovery v in
  Ok (match pending_error v with
      | None => emit_effect ClientHealthCheck v
      | Some _ => v
      end).

Definition fail_connect_with_no_attempts (v : Vpn) (_ : EventData) : res Vpn :=
  complete_connect v (ErrorData attempts_exceeded).

(** [attempts_left] is unsigned: decrementing zero wraps. *)
Definition retry_connect (ndebug : bool) (v : Vpn) (_ : EventData) : res Vpn :=
  v ← (match connect_retry_info v with
       | ConnectSeveralAttempts attempts_left =>
           Ok (set_connect_retry_info (ConnectSeveralAttempts (u64 (attempts_left - 1))) v)
       | ConnectFallIntoRecovery => if ndebug then Ok v else Abort
       end);
  Ok (submit TRetryConnect (disconnect v)).

Definition prepare_for_recovery (env : Env) (v : Vpn) (d : EventData) : res Vpn :=
  v ← initiate_recovery env (disconnect v);
  new ← has_new_error v d;
  if (new : bool) then e ← data_error d; Ok (set_pending_error (Some e) v) else Ok v.

Definition prepare_for_recovery_nc (env : Env) (v : Vpn) (_ : EventData) : res Vpn :=
  prepare_for_recovery env v NoData.

Definition reconnect_client (env : Env) (v : Vpn) (_ : EventData) : res Vpn :=
  let v := disconnect_client v in
  run_client_connect env
    (Some (Z.min (between_attempts (time (recovery v))) (timeout_ms (upstream_config v)))) v.

Definition finalize_recovery (v : Vpn) (_ : EventData) : res Vpn :=
  let v := emit_effect ClientUpdateBypassIpAvailability v in
  let v := reset_recovery v in
  let v := stop_pinging v in
  let v := set_postponement_window_timer false v in
  let v := complete_postponed_requests v in
  Ok (reset_bypassed_connections v).

Definition do_disconnect (v : Vpn) (_ : EventData) : res Vpn :=
  Ok (disconnect (reset_recovery v)).

Definition start_listening (env : Env) (v : Vpn) (d : EventData) : res Vpn :=
  match d with
  | ListenData =>
      let v := emit_effect ClientListen v in
      if code (env_listen env) =? VPN_EC_NOERROR then Ok v
      else Ok (submit (TListenFailed (env_listen env)) v)
  | _ => UB
  end.

Definition on_wrong_connect_state (v : Vpn) (_ : EventData) : res Vpn :=
  Ok (set_pending_error
        (Some (mkError VPN_EC_INVALID_STATE (Some "Invalid state for connecting"%string)))
        (disconnect v)).

Definition on_wrong_listen_state (v : Vpn) (_ : EventData) : res Vpn := Ok v.

(** [raise_state]; [std::exchange(pending_error, nullopt).value_or(VpnError{})]
    is the error of the event.  The key-exchange group name and the protocol of
    [connected_info] come from the upstream and are not modelled. *)
Definition raise_state (v : Vpn) (_ : EventData) : res Vpn :=
  let state := fsm_state v in
  let loc := location_id (upstream_config v) in
  let error := default no_error (pending_error v) in
  if state =? VPN_SS_WAITING_RECOVERY then
    Ok (emit_effect
          (StateChanged loc state
             (WaitingRecoveryInfo error (u32 (to_next (time (recovery v))))))
          (set_pending_error None v))
  else if state =? VPN_SS_CONNECTED then
    match selected_endpoint v with
    | None => UB
    | Some se =>
        Ok (emit_effect (StateChanged loc state (ConnectedInfo (se_endpoint se) (se_relay se)))
              (set_connected_once true v))
    end
  else if (state =? VPN_SS_DISCONNECTED) || (state =? VPN_SS_CONNECTING)
          || (state =? VPN_SS_RECOVERING) then
    Ok (emit_effect (StateChanged loc state (ErrorInfo error))
          (set_pending_error None (set_network_changed_before_recovery false v)))
  else if state =? VPN_SS_WAITING_FOR_NETWORK then
    Ok (emit_effect (StateChanged loc state (ErrorInfo error)) (set_pending_error None v))
  else Ok (emit_effect (StateChanged loc state (ErrorInfo no_error)) v).

Definition complete_request (v : Vpn) (d : EventData) : res Vpn :=
  r ← data_request d;
  Ok (emit_effect (ClientCompleteRequest (req_id r) (req_action r)) v).

Definition reject_request (v : Vpn) (d : EventData) : res Vpn :=
  r ← data_request d;
  Ok (emit_effect (ClientRejectRequest (req_id r)) v).

Definition bypass_until_connected (v : Vpn) (d : EventData) : res Vpn :=
  r ← data_request d;
  let v := set_bypassed_connection_ids (bypassed_connection_ids v ++ [req_id r]) v in
  Ok (emit_effect (ClientCompleteRequest (req_id r) (Some VPN_CA_FORCE_BYPASS)) v).

Definition postpone_request (v : Vpn) (d : EventData) : res Vpn :=
  r ← data_request d;
  Ok (set_postponed_requests (postponed_requests v ++ [r]) v).

(** [postponement_window_timer_cb]. *)
Definition postponement_window_timer_cb (v : Vpn) : Vpn :=
  let v := set_postponement_window_timer false v in
  let v :=
    foldl (λ v r,
      if kill_switch_on v then emit_effect (ClientRejectRequest (req_id r)) v
      else
        let v := emit_effect (ClientCompleteRequest (req_id r) (Some VPN_CA_FORCE_BYPASS)) v in
        set_bypassed_connection_ids (bypassed_connection_ids v ++ [req_id r]) v)
      v (postponed_requests v) in
  set_postponed_requests [] v.

(** ** The table, row by row *)
Definition TRANSITION_TABLE (ndebug : bool) (env : Env) : FsmTransitionTable Vpn EventData :=
  [ mkEntry VPN_SS_DISCONNECTED CE_DO_CONNECT None (Some (run_ping env)) VPN_SS_CONNECTING (Some
      raise_state);
    mkEntry VPN_SS_DISCONNECTED CE_CLIENT_DISCONNECTED None None SAME_TARGET_STATE None;
    mkEntry VPN_SS_DISCONNECTED CE_SHUTDOWN None (Some do_disconnect) SAME_TARGET_STATE None;
    mkEntry VPN_SS_DISCONNECTED CE_START_LISTENING None (Some on_wrong_listen_state)
      SAME_TARGET_STATE None;
    mkEntry VPN_SS_DISCONNECTED CE_NETWORK_CHANGE None None SAME_TARGET_STATE None;
    mkEntry VPN_SS_CONNECTING CE_RETRY_CONNECT None (Some (run_ping env)) SAME_TARGET_STATE None;
    mkEntry VPN_SS_CONNECTING CE_PING_READY None (Some (connect_client env)) SAME_TARGET_STATE
      None;
    mkEntry VPN_SS_CONNECTING CE_PING_FAIL (Some is_fatal_error) (Some complete_connect)
      VPN_SS_DISCONNECTED (Some raise_state);
    mkEntry VPN_SS_CONNECTING CE_PING_FAIL (Some fall_into_recovery) (Some (prepare_for_recovery
      env)) VPN_SS_WAITING_RECOVERY (Some raise_state);
    mkEntry VPN_SS_CONNECTING CE_PING_FAIL (Some no_connect_attempts) (Some complete_connect)
      VPN_SS_DISCONNECTED (Some raise_state);
    mkEntry VPN_SS_CONNECTING CE_PING_FAIL None (Some (retry_connect ndebug)) SAME_TARGET_STATE
      None;
    mkEntry VPN_SS_CONNECTING CE_CLIENT_READY None (Some complete_connect) VPN_SS_CONNECTED (Some
      raise_state);
    mkEntry VPN_SS_CONNECTING CE_CLIENT_DISCONNECTED (Some is_fatal_error) (Some complete_connect)
      VPN_SS_DISCONNECTED (Some raise_state);
    mkEntry VPN_SS_CONNECTING CE_CLIENT_DISCONNECTED (Some fall_into_recovery) (Some
      (prepare_for_recovery env)) VPN_SS_WAITING_RECOVERY (Some raise_state);
    mkEntry VPN_SS_CONNECTING CE_CLIENT_DISCONNECTED (Some no_connect_attempts) (Some
      complete_connect) VPN_SS_DISCONNECTED (Some raise_state);
    mkEntry VPN_SS_CONNECTING CE_CLIENT_DISCONNECTED None (Some (retry_connect ndebug))
      SAME_TARGET_STATE None;
    mkEntry VPN_SS_CONNECTING CE_ABANDON_ENDPOINT (Some is_fatal_error) (Some complete_connect)
      VPN_SS_DISCONNECTED (Some raise_state);
    mkEntry VPN_SS_CONNECTING CE_ABANDON_ENDPOINT None (Some (retry_connect ndebug))
      SAME_TARGET_STATE None;
    mkEntry VPN_SS_CONNECTING CE_NETWORK_CHANGE (Some no_connect_attempts) (Some
      fail_connect_with_no_attempts) VPN_SS_DISCONNECTED (Some raise_state);
    mkEntry VPN_SS_CONNECTING CE_NETWORK_CHANGE (Some network_lost) (Some do_disconnect)
      VPN_SS_WAITING_FOR_NETWORK (Some raise_state);
    mkEntry VPN_SS_CONNECTING CE_NETWORK_CHANGE (Some fall_into_recovery) (Some
      (prepare_for_recovery env)) VPN_SS_WAITING_RECOVERY (Some raise_state);
    mkEntry VPN_SS_CONNECTING CE_NETWORK_CHANGE None (Some (retry_connect ndebug))
      SAME_TARGET_STATE None;
    mkEntry VPN_SS_CONNECTED CE_NETWORK_CHANGE (Some network_lost) (Some do_disconnect)
      VPN_SS_WAITING_FOR_NETWORK (Some raise_state);
    mkEntry VPN_SS_CONNECTED CE_NETWORK_CHANGE None (Some (prepare_for_recovery_nc env))
      VPN_SS_WAITING_RECOVERY (Some raise_state);
    mkEntry VPN_SS_CONNECTED CE_ABANDON_ENDPOINT (Some is_fatal_error) (Some do_disconnect)
      VPN_SS_DISCONNECTED (Some raise_state);
    mkEntry VPN_SS_CONNECTED CE_ABANDON_ENDPOINT None (Some (prepare_for_recovery env))
      VPN_SS_WAITING_RECOVERY (Some raise_state);
    mkEntry VPN_SS_WAITING_RECOVERY CE_NETWORK_CHANGE (Some network_lost) (Some do_disconnect)
      VPN_SS_WAITING_FOR_NETWORK (Some raise_state);
    mkEntry VPN_SS_WAITING_RECOVERY CE_NETWORK_CHANGE None (Some (run_ping env)) VPN_SS_RECOVERING
      (Some raise_state);
    mkEntry VPN_SS_WAITING_RECOVERY CE_DO_RECOVERY (Some (need_to_ping_on_recovery env)) (Some
      (run_ping env)) VPN_SS_RECOVERING (Some raise_state);
    mkEntry VPN_SS_WAITING_RECOVERY CE_DO_RECOVERY None (Some (connect_client env))
      VPN_SS_RECOVERING (Some raise_state);
    mkEntry VPN_SS_WAITING_RECOVERY CE_CLIENT_DISCONNECTED (Some is_fatal_error) (Some
      do_disconnect) VPN_SS_DISCONNECTED (Some raise_state);
    mkEntry VPN_SS_WAITING_RECOVERY CE_CLIENT_DISCONNECTED None None SAME_TARGET_STATE None;
    mkEntry VPN_SS_WAITING_RECOVERY CE_ABANDON_ENDPOINT (Some is_fatal_error) (Some do_disconnect)
      VPN_SS_DISCONNECTED (Some raise_state);
    mkEntry VPN_SS_RECOVERING CE_NETWORK_CHANGE (Some network_lost) (Some do_disconnect)
      VPN_SS_WAITING_FOR_NETWORK (Some raise_state);
    mkEntry VPN_SS_RECOVERING CE_NETWORK_CHANGE None (Some (prepare_for_recovery_nc env))
      VPN_SS_WAITING_RECOVERY (Some raise_state);
    mkEntry VPN_SS_RECOVERING CE_PING_READY None (Some (reconnect_client env)) SAME_TARGET_STATE
      None;
    mkEntry VPN_SS_RECOVERING CE_PING_FAIL (Some is_fatal_error) (Some do_disconnect)
      VPN_SS_DISCONNECTED (Some raise_state);
    mkEntry VPN_SS_RECOVERING CE_PING_FAIL None (Some (prepare_for_recovery env))
      VPN_SS_WAITING_RECOVERY (Some raise_state);
    mkEntry VPN_SS_RECOVERING CE_CLIENT_READY None (Some finalize_recovery) VPN_SS_CONNECTED (Some
      raise_state);
    mkEntry VPN_SS_RECOVERING CE_ABANDON_ENDPOINT (Some is_fatal_error) (Some do_disconnect)
      VPN_SS_DISCONNECTED (Some raise_state);
    mkEntry VPN_SS_RECOVERING CE_ABANDON_ENDPOINT None (Some (prepare_for_recovery env))
      VPN_SS_WAITING_RECOVERY (Some raise_state);
    mkEntry VPN_SS_WAITING_FOR_NETWORK CE_NETWORK_CHANGE (Some network_lost) None
      SAME_TARGET_STATE None;
    mkEntry VPN_SS_WAITING_FOR_NETWORK CE_NETWORK_CHANGE (Some is_connected_once) (Some
      (prepare_for_recovery_nc env)) VPN_SS_WAITING_RECOVERY (Some raise_state);
    mkEntry VPN_SS_WAITING_FOR_NETWORK CE_NETWORK_CHANGE (Some no_connect_attempts) (Some
      fail_connect_with_no_attempts) VPN_SS_DISCONNECTED (Some raise_state);
    mkEntry VPN_SS_WAITING_FOR_NETWORK CE_NETWORK_CHANGE None (Some (retry_connect ndebug))
      VPN_SS_CONNECTING (Some raise_state);
    mkEntry ANY_SOURCE_STATE CE_CLIENT_DISCONNECTED (Some is_fatal_error) (Some do_disconnect)
      VPN_SS_DISCONNECTED (Some raise_state);
    mkEntry ANY_SOURCE_STATE CE_CLIENT_DISCONNECTED None (Some (prepare_for_recovery env))
      VPN_SS_WAITING_RECOVERY (Some raise_state);
    mkEntry ANY_SOURCE_STATE CE_SHUTDOWN None (Some do_disconnect) VPN_SS_DISCONNECTED (Some
      raise_state);
    mkEntry ANY_SOURCE_STATE CE_DO_CONNECT None (Some on_wrong_connect_state) VPN_SS_DISCONNECTED
      (Some raise_state);
    mkEntry ANY_SOURCE_STATE CE_START_LISTENING None (Some (start_listening env))
      SAME_TARGET_STATE None;
    mkEntry ANY_SOURCE_STATE CE_COMPLETE_REQUEST (Some (can_complete env)) (Some complete_request)
      SAME_TARGET_STATE None;
    mkEntry ANY_SOURCE_STATE CE_COMPLETE_REQUEST (Some should_postpone) (Some postpone_request)
      SAME_TARGET_STATE None;
    mkEntry ANY_SOURCE_STATE CE_COMPLETE_REQUEST (Some is_kill_switch_on) (Some reject_request)
      SAME_TARGET_STATE None;
    mkEntry ANY_SOURCE_STATE CE_COMPLETE_REQUEST None (Some bypass_until_connected)
      SAME_TARGET_STATE None ].

(** [vpn->fsm.perform_transition(event, data)]. *)
Definition perform (ndebug : bool) (env : Env) (ev : Z) (d : EventData) (v : Vpn) : res Vpn :=
  perform_transition ndebug (TRANSITION_TABLE ndebug env) ev d v.
