(* ===== verification/VpnManager.v ===== *)
(** * The VPN manager

    [core/src/vpn_manager.cpp]: the public operations ([vpn_connect],
    [vpn_stop], ...), which validate their arguments and leave a task in the
    event loop, the tasks themselves, the callbacks of the pinger and of the
    client, and the system they make up with the event loop. *)
From S2P Require Import Prelude Fsm EventLoop Utils VpnTypes VpnFsm.
From Stdlib Require Import Floats.SpecFloat.

(** [vpn_endpoint_equals] ([net/src/utils.cpp]); [strcmp] of a null pointer is
    undefined. *)
Definition c_strcmp_eq (a b : option string) : res bool :=
  match a, b with
  | Some a, Some b => Ok (bool_decide (a = b))
  | _, _ => UB
  end.

Definition c_str_equals (a b : option string) : res bool :=
  match a, b with
  | None, None => Ok true
  | _, _ => c_strcmp_eq a b
  end.

Definition vpn_endpoint_equals (lh rh : VpnEndpoint) : res bool :=
  if bool_decide (ep_address lh = ep_address rh) then
    n ← c_str_equals (ep_name lh) (ep_name rh);
    if (n : bool) then c_str_equals (ep_remote_id lh) (ep_remote_id rh) else Ok false
  else Ok false.

(** [Vpn::update_upstream_config]. *)
Definition normalize_config (c : VpnUpstreamConfig) : VpnUpstreamConfig :=
  let ping_timeout := if location_ping_timeout_ms c =? 0
                      then DEFAULT_LOCATION_PING_TIMEOUT_MS else location_ping_timeout_ms c in
  let timeout := if timeout_ms c =? 0
                 then VPN_DEFAULT_ENDPOINT_UPSTREAM_TIMEOUT_MS else timeout_ms c in
  let health := if health_check_timeout_ms c =? 0
                then VPN_DEFAULT_HEALTH_CHECK_TIMEOUT_MS else health_check_timeout_ms c in
  let health := Z.min health timeout in
  let r := cfg_recovery c in
  let rate := if float_ltb (backoff_rate r) (float_of_Z 1)
              then VPN_DEFAULT_RECOVERY_BACKOFF_RATE else backoff_rate r in
  let period := if location_update_period_ms r =? 0
                then VPN_DEFAULT_RECOVERY_LOCATION_UPDATE_PERIOD_MS
                else location_update_period_ms r in
  let att := if rs_attempts r =? 0 then VPN_DEFAULT_RECOVERY_ATTEMPTS else rs_attempts r in
  mkConfig (main_protocol c) (location_id c) (location_endpoints c) ping_timeout timeout health
    (cfg_username c) (cfg_password c) (mkRecoverySettings rate period att) (anti_dpi c).

Definition update_upstream_config (c : VpnUpstreamConfig) (v : Vpn) : Vpn :=
  set_upstream_config (normalize_config c) v.

(** [check_address]: whether an error message is returned.  A [SocketAddress]
    is valid when it has a family. *)
Definition check_address (a : SocketAddress) : option string :=
  match sa_family a with
  | AF_UNSPEC => None
  | AF_INET | AF_INET6 =>
      if 0 <? sa_port a then None else Some "Port must be specified"%string
  | AF_OTHER _ => Some "Unknown family"%string
  end.

(** [validate_upstream_config]. *)
Definition invalid_settings (msg : string) : VpnError :=
  mkError VPN_EC_INVALID_SETTINGS (Some msg).

Fixpoint validate_endpoints (n : nat) (eps : list VpnEndpoint) : VpnError :=
  match eps with
  | [] => no_error
  | e :: eps =>
      match ep_name e with
      | None => invalid_settings "Names must be specified for each endpoint"
      | Some _ =>
          if (1 <? n)%nat && bool_decide (sa_family (ep_address e) = AF_UNSPEC)
          then invalid_settings
                 "In case of multiple endpoints addresses must be specified for each one"
          else match check_address (ep_address e) with
               | Some _ => invalid_settings "Invalid endpoint address"
               | None => validate_endpoints n eps
               end
      end
  end.

Definition validate_upstream_config (c : VpnUpstreamConfig) : VpnError :=
  match location_endpoints c with
  | [] => invalid_settings "At least one endpoint must be specified"
  | eps =>
      match cfg_username c, cfg_password c with
      | Some _, Some _ => validate_endpoints (length eps) eps
      | _, _ => invalid_settings "Both username and password must be specified"
      end
  end.

(** ** Public operations

    [VpnConnectRetryInfo]: the policy, with the number of attempts of
    [VPN_CRP_SEVERAL_ATTEMPTS]. *)
Inductive VpnConnectRetryPolicy :=
| VPN_CRP_SEVERAL_ATTEMPTS (attempts_num : Z)
| VPN_CRP_FALL_INTO_RECOVERY.

Definition make_retry_info (p : VpnConnectRetryPolicy) : ConnectRetryInfo :=
  match p with
  | VPN_CRP_SEVERAL_ATTEMPTS n =>
      ConnectSeveralAttempts (if n <=? 0 then VPN_DEFAULT_CONNECT_ATTEMPTS_NUM else n)
  | VPN_CRP_FALL_INTO_RECOVERY => ConnectFallIntoRecovery
  end.

(** [Vpn::run_event_loop]; [started] says whether the loop thread came up. *)
Definition run_event_loop (ndebug started : bool) (v : Vpn) : res (bool * Vpn) :=
  let v := match ev_loop v with Some _ => v | None => set_loop vpn_event_loop_create v end in
  if started then
    l ← vpn_event_loop_run_enter ndebug (get_loop v);
    Ok (true, set_executor_running true (set_loop l v))
  else if ndebug then Ok (false, v) else Abort.

(** [vpn_connect]. *)
Definition vpn_connect (ndebug started : bool) (c : VpnUpstreamConfig)
    (p : VpnConnectRetryPolicy) (v : Vpn) : res (VpnError * Vpn) :=
  let error := validate_upstream_config c in
  if negb (code error =? VPN_EC_NOERROR) then Ok (error, v)
  else if executor_running v
  then Ok (mkError VPN_EC_ERROR (Some "VPN client worker is already running"%string), v)
  else
    '(ok, v) ← run_event_loop ndebug started v;
    if negb ok
    then Ok (mkError VPN_EC_EVENT_LOOP_FAILURE
               (Some "Failed to start event loop for operation"%string), v)
    else Ok (error, submit (TConnect c (make_retry_info p)) v).

(** [vpn_force_reconnect], [vpn_force_disconnect]; they dereference
    [ev_loop] without looking at it. *)
Definition submit_checked (t : VpnTask) (v : Vpn) : res Vpn :=
  match ev_loop v with Some _ => Ok (submit t v) | None => UB end.

Definition vpn_force_reconnect (v : Vpn) : res Vpn := submit_checked TForceReconnect v.

Definition vpn_force_disconnect (fatal : bool) (v : Vpn) : res Vpn :=
  submit_checked (TForceDisconnect fatal) v.

(** [vpn_listen], up to the dispatch of its task; the call then waits. *)
Definition vpn_listen (listener_null config_null : bool) (v : Vpn) : VpnError * Vpn :=
  if listener_null then (invalid_settings "Listener is null", v)
  else if config_null then (invalid_settings "Listener config is null", v)
  else if negb (executor_running v)
  then (mkError VPN_EC_ERROR (Some "VPN client worker is not running"%string), v)
  else (no_error, submit TListen v).

(** [vpn_stop], before the loop exits... *)
Definition vpn_stop_begin (v : Vpn) : Vpn :=
  match ev_loop v with
  | None => v
  | Some _ =>
      let v := submit TShutdown v in
      set_loop (finalize_exit_begin (vpn_event_loop_exit (get_loop v))) v
  end.

(** ... and after the loop thread has left [event_base_loop]. *)
Definition vpn_stop_end (v : Vpn) : Vpn :=
  let v := match ev_loop v with
           | None => v
           | Some l => set_loop (finalize_exit_end l) v
           end in
  let v := set_executor_running false v in
  let v := fsm_reset VPN_SS_DISCONNECTED v in
  let v := set_pending_error None v in
  let v := set_client_state CLIS_DISCONNECTED v in
  let v := emit_effect ClientFinalizeDisconnect v in
  let v := emit_effect SocketsCompleteAll v in
  let v := stop_pinging v in
  let v := set_postponement_window_timer false v in
  let v := set_ev_loop None v in
  let v := set_recovery recovery_default v in
  let v := set_selected_endpoint None v in
  let v := set_update_exclusions_task None v in
  let v := set_postponed_requests [] v in
  set_bypassed_connection_ids [] v.

(** [vpn_complete_connect_request]. *)
Definition vpn_complete_connect_request (id : Z) (a : VpnConnectAction)
    (appname : option string) (uid : Z) (v : Vpn) : Vpn :=
  match ev_loop v with
  | None => v
  | Some _ => submit (TCompleteRequest (mkRequest id (Some a) (default ""%string appname) uid)) v
  end.

(** [vpn_update_exclusions]: the previous, not yet run, update is cancelled by
    the move assignment of its [AutoTaskId]. *)
Definition vpn_update_exclusions (mode : Z) (exclusions : string) (v : Vpn) : Vpn :=
  if negb (vpn_event_loop_is_active (ev_loop v)) then v
  else
    let old := update_exclusions_task v in
    let '(id, l) := vpn_event_loop_submit (mkTask (TUpdateExclusions mode exclusions) true)
                      (get_loop v) in
    let v := auto_task_reset old (set_loop l v) in
    set_update_exclusions_task (if id <? 0 then None else Some id) v.

(** Operations guarded by [vpn_event_loop_is_active]. *)
Definition submit_if_active (t : VpnTask) (v : Vpn) : Vpn :=
  if vpn_event_loop_is_active (ev_loop v) then submit t v else v.

Definition vpn_reset_connections (uid : Z) (v : Vpn) : Vpn :=
  submit_if_active (TResetConnections uid) v.

Definition vpn_notify_network_change (s : VpnNetworkState) (v : Vpn) : Vpn :=
  submit_if_active (TNetworkChange s) v.

Definition vpn_request_endpoint_connection_stats (v : Vpn) : Vpn :=
  if vpn_event_loop_is_active (ev_loop v) then submit TRequestStats v
  else emit_effect
         (StatsRaised (mkError VPN_EC_ERROR (Some "Event loop is stopped"%string))) v.

Definition vpn_notify_sleep (v : Vpn) : Vpn := submit_if_active TSleep v.

Definition vpn_notify_wake (v : Vpn) : Vpn := submit_if_active TWake v.

Definition vpn_abandon_endpoint (e : VpnEndpoint) (v : Vpn) : res Vpn :=
  submit_checked (TAbandonEndpoint e) v.

(** ** Callbacks *)

(** [LocationsPingerResult]. *)
Record LocationsPingerResult := mkPingResult {
  ping_ms : Z;
  ping_endpoint : VpnEndpoint;
  ping_relay : option VpnRelay;
  is_quic : bool;
}.

Section Callbacks.
Variables (ndebug : bool) (env : Env).

Notation perform := (perform ndebug env).

(** [pinger_handler]. *)
Definition pinger_handler (result : option LocationsPingerResult) (v : Vpn) : res Vpn :=
  match result with
  | None => Ok v
  | Some result =>
      if negb ndebug && bool_decide (is_Some (selected_endpoint v)) then Abort
      else
        let v := set_selected_endpoint None v in
        let v := set_client_tcp_socket false v in
        let v := set_client_quic_connector false v in
        let induces := ping_failure_induces_location_unavailable v in
        let v := set_ping_failure_induces_location_unavailable false v in
        if ping_ms result <? 0 then
          let error := if induces
            then mkError VPN_EC_LOCATION_UNAVAILABLE
                   (Some "None of the endpoints were pinged successfully"%string)
            else mkError VPN_EC_ERROR (Some "Failed to ping location"%string) in
          perform CE_PING_FAIL (ErrorData error) v
        else
          absent ← none_of (vpn_endpoint_equals (ping_endpoint result))
                     (location_endpoints (upstream_config v));
          if (absent : bool) then
            let v := set_ping_failure_induces_location_unavailable induces v in
            perform CE_PING_FAIL
              (ErrorData (mkError VPN_EC_ERROR
                 (Some "Best available endpoint wasn't found in location"%string))) v
          else
            let v := set_selected_endpoint
                       (Some (mkSelected (ping_endpoint result) (ping_relay result))) v in
            let v := if is_quic result then set_client_quic_connector true v
                     else set_client_tcp_socket true v in
            let v := emit_effect ClientUpdateBypassIpAvailability v in
            perform CE_PING_READY NoData v
  end.

Definition client_handler (what : ClientEvent) (v : Vpn) : res Vpn :=
  match what with
  | EVENT_CONNECTED => perform CE_CLIENT_READY NoData (set_client_state CLIS_CONNECTED v)
  | EVENT_DISCONNECTED =>
      perform CE_CLIENT_DISCONNECTED NoData (set_client_state CLIS_DISCONNECTED v)
  | EVENT_ERROR e =>
      perform CE_CLIENT_DISCONNECTED (ErrorData e) (set_client_state CLIS_DISCONNECTED v)
  end.

(** ** Tasks *)

Definition shutdown_cb (v : Vpn) : res Vpn := perform CE_SHUTDOWN NoData v.

(** The lambda of [vpn_connect]. *)
Definition connect_task (c : VpnUpstreamConfig) (r : ConnectRetryInfo) (v : Vpn) : res Vpn :=
  let v := emit_effect ClientUpdateParameters v in
  let v := update_upstream_config c v in
  let v := set_connect_retry_info
             (match r with
              | ConnectSeveralAttempts n => ConnectSeveralAttempts (u64 (n - 1))
              | ConnectFallIntoRecovery => ConnectFallIntoRecovery
              end) v in
  perform CE_DO_CONNECT NoData v.

(** [vpn_complete_connect_request_task]. *)
Definition complete_request_task (r : ConnectRequestResult) (v : Vpn) : res Vpn :=
  let r := mkRequest (req_id r) (env_finalize_connect_action env r) (req_appname r) (req_uid r) in
  perform CE_COMPLETE_REQUEST (RequestData r) v.

Definition network_change_task (s : VpnNetworkState) (v : Vpn) : res Vpn :=
  let v := emit_effect ClientNetworkChange v in
  let v := set_network_changed_before_recovery true v in
  perform CE_NETWORK_CHANGE (NetworkData s) v.

Definition stats_task (v : Vpn) : Vpn :=
  if fsm_state v =? VPN_SS_CONNECTED then emit_effect (StatsRaised no_error) v
  else emit_effect (StatsRaised (mkError VPN_EC_INVALID_STATE (Some "Invalid state"%string))) v.

(** The lambda of [vpn_abandon_endpoint]. *)
Definition with_endpoints (eps : list VpnEndpoint) (c : VpnUpstreamConfig) : VpnUpstreamConfig :=
  mkConfig (main_protocol c) (location_id c) eps (location_ping_timeout_ms c) (timeout_ms c)
    (health_check_timeout_ms c) (cfg_username c) (cfg_password c) (cfg_recovery c) (anti_dpi c).

Definition exhausted_error (left : nat) (f : AddressFamily) : VpnError :=
  mkError VPN_EC_LOCATION_UNAVAILABLE
    (Some (if (left =? 0)%nat then "Exhausted all endpoints in location"
           else if bool_decide (f = AF_INET) then "Exhausted all IPv4 endpoints in location"
           else "Exhausted all IPv6 endpoints in location")%string).

Definition abandon_task (e : VpnEndpoint) (v : Vpn) : res Vpn :=
  is_selected ← (match selected_endpoint v with
                 | None => Ok false
                 | Some se => vpn_endpoint_equals (se_endpoint se) e
                 end);
  let v := if (is_selected : bool) then set_selected_endpoint None v else v in
  '(eps, n) ← swap_remove_if (vpn_endpoint_equals e) (location_endpoints (upstream_config v));
  let left := take n eps in
  let v := set_upstream_config (with_endpoints left (upstream_config v)) v in
  let family := sa_family (ep_address e) in
  if forallb (λ x, negb (bool_decide (family = sa_family (ep_address x)))) left then
    let v := set_pending_error (Some (exhausted_error (length left) family)) v in
    let v := set_upstream_config (with_endpoints [] (upstream_config v)) v in
    perform CE_ABANDON_ENDPOINT NoData v
  else if negb is_selected then Ok v
  else
    let v := set_pending_error
               (Some (mkError VPN_EC_ERROR (Some "Current endpoint is abandoned"%string))) v in
    let v := set_ping_failure_induces_location_unavailable true v in
    perform CE_ABANDON_ENDPOINT NoData v.

(** What each lambda does when the loop runs it. *)
Definition run_task (t : VpnTask) (v : Vpn) : res Vpn :=
  match t with
  | TFailedRecovery =>
      let v := reset_recovery v in
      let v := set_pending_error
                 (Some (mkError VPN_EC_LOCATION_UNAVAILABLE
                          (Some "Maximum number of recovery attempts has been made"%string))) v in
      perform CE_SHUTDOWN NoData v
  | TDoRecovery =>
      let r := recovery v in
      let t := time r in
      let v := set_recovery
                 (mkRecovery (mkRecoveryTime (start_ts t) (env_now env) (between_attempts t)
                                (to_next t)) (attempts r) None) v in
      perform CE_DO_RECOVERY NoData v
  | TClientDisconnected => perform CE_CLIENT_DISCONNECTED NoData v
  | TRetryConnect => perform CE_RETRY_CONNECT NoData v
  | TListenFailed e => perform CE_SHUTDOWN NoData (set_pending_error (Some e) v)
  | TConnect c r => connect_task c r v
  | TForceReconnect => perform CE_DO_RECOVERY NoData v
  | TForceDisconnect fatal =>
      let v := if (fatal : bool)
        then set_pending_error
               (Some (mkError VPN_EC_FATAL_CONNECTIVITY_ERROR
                        (Some "Fatal connectivity error occurred"%string))) v
        else v in
      shutdown_cb v
  | TListen => perform CE_START_LISTENING ListenData v
  | TShutdown => shutdown_cb v
  | TCompleteRequest r => complete_request_task r v
  | TUpdateExclusions mode exclusions =>
      let v := set_update_exclusions_task None v in
      let v := emit_effect (ClientResetConnections (-1)) v in
      Ok (emit_effect (ClientUpdateExclusions mode exclusions) v)
  | TResetConnections uid => Ok (emit_effect (ClientResetConnections uid) v)
  | TNetworkChange s => network_change_task s v
  | TRequestStats => Ok (stats_task v)
  | TSleep => Ok (submit TSleepDone (emit_effect ClientSleep v))
  | TSleepDone => Ok (emit_effect SleepCompleted v)
  | TWake => Ok (emit_effect ClientWake v)
  | TAbandonEndpoint e => abandon_task e v
  end.

End Callbacks.
