(* ===== verification/VpnProps.v ===== *)
(** * Properties of the session state machine

    What holds of every dispatch of a session event: which states it can lead
    to, when it can fail, what it leaves untouched, and the complete effect of
    the transitions that matter most. *)
From S2P Require Import Prelude Fsm EventLoop Utils VpnTypes VpnFsm VpnManager.
From Stdlib Require Import Floats.SpecFloat.

(** ** Frames *)

(** Fields no action of the table writes. *)
Record frame (v v' : Vpn) : Prop := mkFrame {
  fr_state : fsm_state v' = fsm_state v;
  fr_recursive : fsm_recursive v' = fsm_recursive v;
  fr_kill : kill_switch_on v' = kill_switch_on v;
  fr_config : upstream_config v' = upstream_config v;
}.

#[export] Instance frame_refl : Reflexive frame.
Proof. by intros v. Qed.

#[export] Instance frame_trans : Transitive frame.
Proof. intros ??? [] []; split; congruence. Qed.

Create HintDb vpn.

Ltac vpn_frame := intros; repeat (case_match || simplify_eq/=); split; reflexivity.

Lemma frame_emit e v : frame v (emit_effect e v).
Proof. vpn_frame. Qed.
Lemma frame_submit t v : frame v (submit t v).
Proof. vpn_frame. Qed.
Lemma frame_auto_task_reset id v : frame v (auto_task_reset id v).
Proof. unfold auto_task_reset. vpn_frame. Qed.
Lemma frame_reset_recovery v : frame v (reset_recovery v).
Proof. unfold reset_recovery, auto_task_reset. vpn_frame. Qed.
Lemma frame_disconnect v : frame v (disconnect v).
Proof. unfold disconnect, disconnect_client, stop_pinging. vpn_frame. Qed.
Lemma frame_disconnect_client v : frame v (disconnect_client v).
Proof. unfold disconnect_client. vpn_frame. Qed.
Lemma frame_stop_pinging v : frame v (stop_pinging v).
Proof. unfold stop_pinging. vpn_frame. Qed.

Lemma frame_set_pending_error e v : frame v (set_pending_error e v).
Proof. by split. Qed.

Lemma frame_foldl {A} (f : Vpn → A → Vpn) xs v :
  (∀ v x, frame v (f v x)) → frame v (foldl f v xs).
Proof.
  intros Hf. revert v. induction xs as [|x xs IH]; intros v; simpl; [done|].
  etransitivity; [apply Hf | apply IH].
Qed.

Lemma frame_complete_postponed v : frame v (complete_postponed_requests v).
Proof.
  unfold complete_postponed_requests.
  etransitivity; [eapply frame_foldl; intros; apply frame_emit | by split].
Qed.

Lemma frame_reset_bypassed v : frame v (reset_bypassed_connections v).
Proof.
  unfold reset_bypassed_connections.
  etransitivity; [eapply frame_foldl; intros; apply frame_emit | by split].
Qed.

#[export] Hint Resolve frame_emit frame_submit frame_auto_task_reset frame_reset_recovery
  frame_disconnect frame_disconnect_client frame_stop_pinging frame_complete_postponed
  frame_reset_bypassed : vpn.

(** [schedule] of a task with a finalizer always returns. *)
Lemma schedule_ok {T} (t : T) defer l :
  ∃ id l', vpn_event_loop_schedule (mkTask t true) defer l = Ok (id, l').
Proof. unfold vpn_event_loop_schedule. simpl. destruct (loop_state l); eauto. Qed.

Lemma auto_task_reset_shape id v : ∃ l, auto_task_reset id v = set_ev_loop l v.
Proof.
  destruct id; [eexists; reflexivity|]. exists (ev_loop v). by destruct v.
Qed.

(** [initiate_recovery] always returns and writes only the loop, the recovery
    bookkeeping and the postponement timer. *)
Lemma initiate_recovery_shape env v :
  ∃ l r b, initiate_recovery env v =
    Ok (set_recovery r (set_postponement_window_timer b (set_ev_loop l v))) ∧
    (b = postponement_window_timer v ∨ b = true).
Proof.
  unfold initiate_recovery. destruct (_ <=? _).
  { exists (Some (vpn_event_loop_submit (mkTask TFailedRecovery true) (get_loop v)).2),
      (recovery v), (postponement_window_timer v). split; [by destruct v | by left]. }
  set (p := if negb _ then _ else _).
  assert (∃ e t b, p = (e, t, set_postponement_window_timer b v) ∧
    (b = postponement_window_timer v ∨ b = true)) as (e & t & b & -> & Hb).
  { subst p. destruct (negb _).
    - do 2 eexists. exists (postponement_window_timer v). split; [|by left].
      assert (set_postponement_window_timer (postponement_window_timer v) v = v) as ->
        by (by destruct v). reflexivity.
    - do 2 eexists. exists true. split; [reflexivity | by right]. }
  destruct (schedule_ok TDoRecovery
    (u32 (if e <=? between_attempts t then between_attempts t - e else 0))
    (get_loop (set_postponement_window_timer b v))) as (id & l & ->). simpl.
  destruct (auto_task_reset_shape
    (task (recovery v)) (set_ev_loop (Some l) (set_postponement_window_timer b v))) as [l' ->].
  exists l'. eexists. exists b. split; [|done]. reflexivity.
Qed.

Lemma frame_initiate env v v' : initiate_recovery env v = Ok v' → frame v v'.
Proof.
  destruct (initiate_recovery_shape env v) as (l & r & b & -> & _). intros [= <-]. by split.
Qed.

(** ** Outcomes of the actions *)

(** [v'] differs from [v] only outside the frame, and has the same selected
    endpoint. *)
Definition keeps (v v' : Vpn) : Prop :=
  frame v v' ∧ selected_endpoint v' = selected_endpoint v.

#[export] Instance keeps_refl : Reflexive keeps.
Proof. by intros v. Qed.

#[export] Instance keeps_trans : Transitive keeps.
Proof. intros ??? [] []; split; [by etransitivity | congruence]. Qed.

Lemma keeps_disconnect v : keeps v (disconnect v).
Proof.
  split; [apply frame_disconnect|].
  unfold disconnect, disconnect_client, stop_pinging. by repeat case_match.
Qed.

Lemma keeps_reset_recovery v : keeps v (reset_recovery v).
Proof.
  split; [apply frame_reset_recovery|].
  unfold reset_recovery, auto_task_reset. by repeat case_match.
Qed.

Lemma keeps_stop_pinging v : keeps v (stop_pinging v).
Proof. split; [apply frame_stop_pinging|]. unfold stop_pinging. by repeat case_match. Qed.

Lemma keeps_set_pending_error e v : keeps v (set_pending_error e v).
Proof. by repeat split. Qed.

Lemma keeps_emit e v : keeps v (emit_effect e v).
Proof. by repeat split. Qed.

Lemma keeps_foldl_emit {A} (f : A → Effect) xs v :
  keeps v (foldl (λ v x, emit_effect (f x) v) v xs).
Proof.
  revert v. induction xs as [|x xs IH]; intros v; simpl; [done|].
  etransitivity; [apply keeps_emit | apply IH].
Qed.

Lemma run_ping_ok env v d : okP (run_ping env v d) (frame v).
Proof.
  unfold run_ping. set (v0 := set_selected_endpoint _ _).
  assert (frame v v0) by (etransitivity; [apply (frame_stop_pinging v)|]; by split).
  destruct (task (recovery v0)); apply okP_ret; [|done].
  etransitivity; [done|]. etransitivity; [apply (frame_auto_task_reset (Some z))|]. by split.
Qed.

Lemma run_client_connect_ok env timeout v :
  is_Some (selected_endpoint v) → okP (run_client_connect env timeout v) (frame v).
Proof.
  unfold run_client_connect, make_client_upstream_config. intros [se ->]. simpl.
  destruct (_ =? _); apply okP_ret; by split.
Qed.

Lemma run_client_connect_abort env timeout v :
  selected_endpoint v = None → run_client_connect env timeout v = Abort.
Proof. unfold run_client_connect, make_client_upstream_config. by intros ->. Qed.

(** Data an error-taking action may be given. *)
Definition error_data (d : EventData) : Prop :=
  d = NoData ∨ ∃ e, d = ErrorData e.

Lemma has_new_error_ok v d :
  error_data d → okP (has_new_error v d) (λ b, b = true → ∃ e, d = ErrorData e).
Proof.
  intros [-> | [e ->]]; unfold has_new_error; destruct (pending_error v); simpl;
    apply okP_ret; naive_solver.
Qed.

Lemma is_fatal_error_ok v d : error_data d → okP (is_fatal_error v d) (λ _, True).
Proof. intros [-> | [e ->]]; by apply okP_ret. Qed.

Lemma complete_connect_ok v d : error_data d → okP (complete_connect v d) (keeps v).
Proof.
  intros Hd. unfold complete_connect.
  eapply okP_bind; [by apply has_new_error_ok|]. intros new Hnew. simpl in Hnew.
  eapply (okP_bind _ _ (keeps v)).
  { destruct new; [|by apply okP_ret]. destruct Hnew as [e ->]; [done|]. apply okP_ret.
    etransitivity; [apply keeps_disconnect | apply keeps_set_pending_error]. }
  intros v1 K1. eapply (okP_bind _ _ (keeps v)).
  { destruct (pending_error v1); [|by apply okP_ret].
    eapply okP_bind; [by apply is_fatal_error_ok|]. intros f _. apply okP_ret.
    destruct (_ && _); [|done]. etransitivity; [done | apply keeps_set_pending_error]. }
  intros v2 K2. apply okP_ret.
  destruct (pending_error (reset_recovery v2)).
  - etransitivity; [exact K2 | apply keeps_reset_recovery].
  - etransitivity; [exact K2|]. etransitivity; [apply keeps_reset_recovery | apply keeps_emit].
Qed.

Lemma retry_connect_abort v d :
  connect_retry_info v = ConnectFallIntoRecovery → retry_connect false v d = Abort.
Proof. unfold retry_connect. by intros ->. Qed.

Lemma retry_connect_ok ndebug v d :
  (connect_retry_info v = ConnectFallIntoRecovery → ndebug = true) →
  okP (retry_connect ndebug v d) (frame v).
Proof.
  intros H. unfold retry_connect. destruct (connect_retry_info v); [|rewrite H by done].
  all: apply okP_ret; (etransitivity; [|apply frame_submit]);
    (etransitivity; [|apply frame_disconnect]); by split.
Qed.

Lemma prepare_for_recovery_ok env v d :
  error_data d ∨ d = NetworkData VPN_NS_CONNECTED →
  okP (prepare_for_recovery env v d) (frame v).
Proof.
  intros Hd. unfold prepare_for_recovery.
  destruct (initiate_recovery_shape env (disconnect v)) as (l & r & b & -> & _).
  cbn [mbind res_bind].
  set (v1 := set_recovery _ _).
  assert (frame v v1) by (etransitivity; [apply (frame_disconnect v) | by split]).
  clearbody v1.
  destruct Hd as [Hd | ->].
  - eapply okP_bind; [by apply has_new_error_ok|]. intros new Hnew. simpl in Hnew.
    destruct new; [|by apply okP_ret].
    destruct Hnew as [e ->]; [done|]. apply okP_ret.
    etransitivity; [done | apply frame_set_pending_error].
  - unfold has_new_error. destruct (pending_error v1); by apply okP_ret.
Qed.

Lemma keeps_complete_postponed v : keeps v (complete_postponed_requests v).
Proof.
  unfold complete_postponed_requests.
  transitivity (foldl (λ v r, emit_effect (ClientCompleteRequest (req_id r) (req_action r)) v)
    v (postponed_requests v)); [|by repeat split].
  apply (keeps_foldl_emit (λ r, ClientCompleteRequest (req_id r) (req_action r))).
Qed.

Lemma keeps_reset_bypassed v : keeps v (reset_bypassed_connections v).
Proof.
  unfold reset_bypassed_connections.
  transitivity (foldl (λ v id, emit_effect (ClientResetConnection id) v)
    v (bypassed_connection_ids v)); [|by repeat split].
  apply (keeps_foldl_emit ClientResetConnection).
Qed.

Lemma finalize_recovery_ok v d : okP (finalize_recovery v d) (keeps v).
Proof.
  unfold finalize_recovery. apply okP_ret.
  etransitivity; [apply (keeps_emit ClientUpdateBypassIpAvailability)|].
  etransitivity; [apply keeps_reset_recovery|].
  etransitivity; [apply keeps_stop_pinging|].
  etransitivity; [|apply keeps_reset_bypassed].
  etransitivity; [|apply keeps_complete_postponed].
  by repeat split.
Qed.

Lemma do_disconnect_ok v d : okP (do_disconnect v d) (frame v).
Proof.
  apply okP_ret. etransitivity; [apply frame_reset_recovery | apply frame_disconnect].
Qed.

Lemma raise_state_ok v d :
  (fsm_state v = VPN_SS_CONNECTED → is_Some (selected_endpoint v)) →
  okP (raise_state v d) (frame v).
Proof.
  unfold raise_state. intros H.
  destruct (_ =? VPN_SS_WAITING_RECOVERY); [apply okP_ret; by split|].
  destruct (Z.eqb_spec (fsm_state v) VPN_SS_CONNECTED) as [E|E].
  - destruct (H E) as [se ->]. apply okP_ret; by split.
  - destruct (_ || _); [apply okP_ret; by split|].
    destruct (_ =? _); apply okP_ret; by split.
Qed.

Lemma raise_state_ub v d :
  fsm_state v = VPN_SS_CONNECTED → selected_endpoint v = None → raise_state v d = UB.
Proof. unfold raise_state. intros -> ->. done. Qed.

(** ** The abstract session

    The session as an application sees it: a state, an event, and five facts
    about the situation in which the event arrives. *)
Inductive SState :=
| Disconnected | Connecting | Connected | WaitingRecovery | Recovering | WaitingForNetwork.

Inductive SEvent :=
| DoConnect | RetryConnect | PingReady | PingFail | ClientReady | ClientDisconnected
| DoRecovery | Shutdown | NetworkChange | StartListening | AbandonEndpoint | CompleteRequest.

Definition state_code (s : SState) : Z :=
  match s with
  | Disconnected => VPN_SS_DISCONNECTED
  | Connecting => VPN_SS_CONNECTING
  | Connected => VPN_SS_CONNECTED
  | WaitingRecovery => VPN_SS_WAITING_RECOVERY
  | Recovering => VPN_SS_RECOVERING
  | WaitingForNetwork => VPN_SS_WAITING_FOR_NETWORK
  end.

Definition event_code (e : SEvent) : Z :=
  match e with
  | DoConnect => CE_DO_CONNECT
  | RetryConnect => CE_RETRY_CONNECT
  | PingReady => CE_PING_READY
  | PingFail => CE_PING_FAIL
  | ClientReady => CE_CLIENT_READY
  | ClientDisconnected => CE_CLIENT_DISCONNECTED
  | DoRecovery => CE_DO_RECOVERY
  | Shutdown => CE_SHUTDOWN
  | NetworkChange => CE_NETWORK_CHANGE
  | StartListening => CE_START_LISTENING
  | AbandonEndpoint => CE_ABANDON_ENDPOINT
  | CompleteRequest => CE_COMPLETE_REQUEST
  end.

(** [g_fatal]: the error at hand is fatal; [g_lost]: the network is gone;
    [g_fall]: a failed connect falls into recovery; [g_none]: no connect attempt
    is left; [g_once]: the session has been connected before. *)
Record Guards := mkGuards {
  g_fatal : bool; g_lost : bool; g_fall : bool; g_none : bool; g_once : bool }.

Definition session_next (g : Guards) (s : SState) (e : SEvent) : SState :=
  match s, e with
  | Disconnected, DoConnect => Connecting
  | Disconnected, _ => Disconnected

  | Connecting, (PingFail | ClientDisconnected) =>
      if g_fatal g then Disconnected else if g_fall g then WaitingRecovery
      else if g_none g then Disconnected else Connecting
  | Connecting, AbandonEndpoint => if g_fatal g then Disconnected else Connecting
  | Connecting, NetworkChange =>
      if g_none g then Disconnected else if g_lost g then WaitingForNetwork
      else if g_fall g then WaitingRecovery else Connecting
  | Connecting, ClientReady => Connected

  | Connected, NetworkChange => if g_lost g then WaitingForNetwork else WaitingRecovery
  | Connected, (AbandonEndpoint | ClientDisconnected) =>
      if g_fatal g then Disconnected else WaitingRecovery

  | WaitingRecovery, NetworkChange => if g_lost g then WaitingForNetwork else Recovering
  | WaitingRecovery, DoRecovery => Recovering
  | WaitingRecovery, (AbandonEndpoint | ClientDisconnected) =>
      if g_fatal g then Disconnected else WaitingRecovery

  | Recovering, NetworkChange => if g_lost g then WaitingForNetwork else WaitingRecovery
  | Recovering, (PingFail | AbandonEndpoint | ClientDisconnected) =>
      if g_fatal g then Disconnected else WaitingRecovery
  | Recovering, ClientReady => Connected

  | WaitingForNetwork, NetworkChange =>
      if g_lost g then WaitingForNetwork else if g_once g then WaitingRecovery
      else if g_none g then Disconnected else Connecting
  | WaitingForNetwork, ClientDisconnected =>
      if g_fatal g then Disconnected else WaitingRecovery

  | _, (Shutdown | DoConnect) => Disconnected
  | s, _ => s
  end.

(** The facts of a concrete situation. *)
Definition guards (v : Vpn) (d : EventData) : Guards :=
  {| g_fatal := (match d with ErrorData e => is_fatal_error_code (code e) | _ => false end)
                || is_fatal_error_code (code (default no_error (pending_error v)));
     g_lost := match d with NetworkData VPN_NS_NOT_CONNECTED => true | _ => false end;
     g_fall := match connect_retry_info v with ConnectFallIntoRecovery => true | _ => false end;
     g_none := match connect_retry_info v with ConnectSeveralAttempts n => n =? 0 | _ => false end;
     g_once := connected_once v |}.

(** The data each event is raised with throughout the sources. *)
Definition event_data_ok (e : SEvent) (d : EventData) : bool :=
  match e, d with
  | NetworkChange, NetworkData _ => true
  | StartListening, ListenData => true
  | CompleteRequest, RequestData _ => true
  | PingFail, ErrorData _ => true
  | ClientDisconnected, (NoData | ErrorData _) => true
  | (DoConnect | RetryConnect | PingReady | ClientReady | DoRecovery | Shutdown
     | AbandonEndpoint), NoData => true
  | _, _ => false
  end.

(** When a dispatch ends the process: connecting without a selected endpoint,
    and (with assertions compiled in) retrying the connect procedure under the
    fall-into-recovery policy. *)
Definition dispatch_aborts (ndebug : bool) (v : Vpn) (d : EventData) (s : SState) (e : SEvent)
    : bool :=
  match s, e with
  | (Connecting | Recovering), PingReady => negb (bool_decide (is_Some (selected_endpoint v)))
  | Connecting, AbandonEndpoint =>
      negb ndebug && g_fall (guards v d) && negb (g_fatal (guards v d))
  | WaitingForNetwork, NetworkChange =>
      negb ndebug && g_fall (guards v d) && negb (g_lost (guards v d))
      && negb (g_once (guards v d))
  | _, _ => false
  end.

(** When a dispatch reads an empty [selected_endpoint]. *)
Definition dispatch_undefined (v : Vpn) (s : SState) (e : SEvent) : bool :=
  match s, e with
  | (Connecting | Recovering), ClientReady => negb (bool_decide (is_Some (selected_endpoint v)))
  | _, _ => false
  end.

(** The rows a dispatch in state [s] looks at. *)
Definition rows (ndebug : bool) (env : Env) (s ev : Z) : FsmTransitionTable Vpn EventData :=
  List.filter (row_for s ev) (TRANSITION_TABLE ndebug env).

Lemma perform_rows ndebug env ev d v :
  fsm_recursive v = false →
  perform ndebug env ev d v =
  (c ← scan_rows (rows ndebug env (fsm_state v) ev) d (set_fsm_recursive true v);
   Ok (set_fsm_recursive false c)).
Proof. intros H. exact (perform_transition_rows ndebug _ ev d v H). Qed.

Ltac compute_rows :=
  cbv [rows List.filter row_for TRANSITION_TABLE src_state event
       VPN_SS_DISCONNECTED VPN_SS_CONNECTING VPN_SS_CONNECTED VPN_SS_WAITING_RECOVERY
       VPN_SS_RECOVERING VPN_SS_WAITING_FOR_NETWORK CE_DO_CONNECT CE_RETRY_CONNECT
       CE_PING_READY CE_PING_FAIL CE_CLIENT_READY CE_CLIENT_DISCONNECTED CE_DO_RECOVERY
       CE_SHUTDOWN CE_NETWORK_CHANGE CE_START_LISTENING CE_ABANDON_ENDPOINT
       CE_COMPLETE_REQUEST ANY_SOURCE_STATE Z.pow Z.pow_pos Pos.iter Z.mul Pos.mul Z.sub
       Z.add Z.opp Z.pos_sub Pos.pred_double Z.eqb Pos.eqb orb andb].


(** [v'] is [v] moved to state [s]. *)
Record lands (s : Z) (v v' : Vpn) : Prop := mkLands {
  lands_state : fsm_state v' = s;
  lands_kill : kill_switch_on v' = kill_switch_on v;
  lands_config : upstream_config v' = upstream_config v;
}.

Lemma take_entry_quiet (e : FsmTransitionEntry Vpn EventData) d v :
  after_transition e = None →
  okP (run_action (before_transition e) d v) (frame v) →
  okP (take_entry e d v)
    (lands (if target_state e =? SAME_TARGET_STATE then fsm_state v else target_state e) v).
Proof.
  intros Ha Hb. unfold take_entry. eapply okP_bind; [exact Hb|].
  intros v1 [Hs _ Hk Hc]. rewrite Ha. apply okP_ret.
  destruct (_ =? _); split; simpl; congruence.
Qed.

Lemma take_entry_raise (e : FsmTransitionEntry Vpn EventData) d v :
  after_transition e = Some raise_state →
  target_state e =? SAME_TARGET_STATE = false →
  okP (run_action (before_transition e) d v)
    (λ v1, frame v v1 ∧ (target_state e = VPN_SS_CONNECTED → is_Some (selected_endpoint v1))) →
  okP (take_entry e d v) (lands (target_state e) v).
Proof.
  intros Ha Ht Hb. unfold take_entry. eapply okP_bind; [exact Hb|].
  intros v1 [[Hs _ Hk Hc] Hsel]. rewrite Ha, Ht. simpl.
  eapply okP_mono; [apply raise_state_ok; exact Hsel|].
  intros v2 [Hs2 _ Hk2 Hc2]. split; simpl in *; congruence.
Qed.

Lemma okP_frame_selected v m s :
  s ≠ VPN_SS_CONNECTED → okP m (frame v) →
  okP m (λ v1, frame v v1 ∧ (s = VPN_SS_CONNECTED → is_Some (selected_endpoint v1))).
Proof. intros Hs Hm. eapply okP_mono; [exact Hm|]. intros v1 Hv. by split. Qed.

Lemma okP_keeps_selected v m s :
  is_Some (selected_endpoint v) → okP m (keeps v) →
  okP m (λ v1, frame v v1 ∧ (s = VPN_SS_CONNECTED → is_Some (selected_endpoint v1))).
Proof. intros Hs Hm. eapply okP_mono; [exact Hm|]. intros v1 [Hf ->]. by split. Qed.

Lemma okP_keeps_frame v m : okP m (keeps v) → okP m (frame v).
Proof. intros H. eapply okP_mono; [exact H|]. by intros v1 [? _]. Qed.

Lemma start_listening_ok env v : okP (start_listening env v ListenData) (frame v).
Proof. simpl. destruct (_ =? _); apply okP_ret; by split. Qed.

Lemma request_actions_ok v r :
  okP (complete_request v (RequestData r)) (frame v) ∧
  okP (reject_request v (RequestData r)) (frame v) ∧
  okP (bypass_until_connected v (RequestData r)) (frame v) ∧
  okP (postpone_request v (RequestData r)) (frame v).
Proof. repeat split; apply okP_ret; by split. Qed.

Lemma on_wrong_connect_state_ok v d : okP (on_wrong_connect_state v d) (frame v).
Proof. apply okP_ret. etransitivity; [apply frame_disconnect | by split]. Qed.

Lemma reconnect_client_ok env v d :
  is_Some (selected_endpoint v) → okP (reconnect_client env v d) (frame v).
Proof.
  intros H. unfold reconnect_client. eapply okP_mono.
  - apply run_client_connect_ok. unfold disconnect_client. by case_match.
  - intros v1 Hv. etransitivity; [apply frame_disconnect_client | exact Hv].
Qed.

Lemma error_data_none : error_data NoData.
Proof. by left. Qed.

Lemma error_data_error e : error_data (ErrorData e).
Proof. right. eauto. Qed.

#[export] Hint Resolve run_ping_ok run_client_connect_ok retry_connect_ok
  prepare_for_recovery_ok do_disconnect_ok start_listening_ok on_wrong_connect_state_ok
  reconnect_client_ok error_data_none error_data_error complete_connect_ok
  finalize_recovery_ok okP_keeps_frame : vpn.

Ltac solve_before := simpl; first
  [ apply okP_ret; reflexivity
  | solve [eauto 4 with vpn]
  | solve [apply okP_keeps_frame; eauto 4 with vpn]
  | solve [unfold connect_client; eauto 4 with vpn]
  | solve [unfold prepare_for_recovery_nc; eauto 4 with vpn]
  | solve [unfold fail_connect_with_no_attempts; eauto 4 with vpn]
  | solve [apply request_actions_ok]
  | solve [apply retry_connect_ok; congruence] ].

Ltac solve_take := first
  [ apply take_entry_quiet; [reflexivity | solve_before]
  | apply take_entry_raise; [reflexivity | reflexivity |
      first [ apply okP_frame_selected; [done | solve_before]
            | apply okP_keeps_selected; [assumption | solve_before] ] ] ].

Ltac eval_conditions :=
  cbv [is_fatal_error fall_into_recovery no_connect_attempts network_lost is_connected_once
       is_kill_switch_on should_postpone need_to_ping_on_recovery can_complete
       data_error_code data_network_state data_request dispatch_aborts dispatch_undefined
       guards session_next g_fatal g_lost g_fall g_none g_once] in *;
  cbn [scan_rows run_condition condition mbind res_bind orb andb negb state_code] in *.

Ltac split_conditions := repeat
  match goal with
  | |- context [match ?x with _ => _ end] =>
      lazymatch x with
      | context [match _ with _ => _ end] => fail
      | _ => let E := fresh "E" in destruct x eqn:E; cbn [mbind res_bind orb andb negb] in *;
             rewrite ?E in *; try discriminate
      end
  end.

Lemma scan_refines_session ndebug env v s e d :
  fsm_state v = state_code s →
  event_data_ok e d = true →
  dispatch_aborts ndebug v d s e = false →
  dispatch_undefined v s e = false →
  okP (scan_rows (rows ndebug env (state_code s) (event_code e)) d v)
    (lands (state_code (session_next (guards v d) s e)) v).
Proof.
  intros Hs Hd Ha Hu.
  destruct s, e.
  all: try (destruct d as [|err|ns| |r]; try discriminate Hd); clear Hd;
    cbn [state_code event_code]; compute_rows; eval_conditions.
  all: try (apply okP_ret; split; [exact Hs|done|done]).
  all: split_conditions; cbn [state_code].
  all: try match goal with
    | H : negb (bool_decide _) = false |- _ => apply negb_false_iff, bool_decide_eq_true in H
    end.
  all: try solve [solve_take | rewrite <- Hs; solve_take].
  all: try (apply okP_ret; split; [exact Hs|done|done]).
  all: destruct (connect_retry_info v) eqn:E', ndebug; try discriminate;
    solve [solve_take | rewrite <- Hs; solve_take].
Qed.

Lemma perform_scan ndebug env ev d v Q :
  fsm_recursive v = false →
  okP (scan_rows (rows ndebug env (fsm_state v) ev) d (set_fsm_recursive true v))
    (λ c, Q (set_fsm_recursive false c)) →
  okP (perform ndebug env ev d v) Q.
Proof.
  intros H Hq. rewrite perform_rows by done. eapply okP_bind; [exact Hq|].
  intros c Hc. by apply okP_ret.
Qed.

(** Claim C2.  One dispatch of the session implements the abstract session:
    whatever the state and the event, as long as the data has the type the
    event is raised with, the dispatch returns (it neither aborts nor touches
    unset data, except in the situations [dispatch_aborts] and
    [dispatch_undefined] describe), leaves the machine in exactly the state
    [session_next] prescribes, out of the recursion guard, and with the kill
    switch and the configuration untouched. *)
Theorem perform_refines_session ndebug env v s e d :
  fsm_recursive v = false →
  fsm_state v = state_code s →
  event_data_ok e d = true →
  dispatch_aborts ndebug v d s e = false →
  dispatch_undefined v s e = false →
  okP (perform ndebug env (event_code e) d v)
    (λ v', lands (state_code (session_next (guards v d) s e)) v v' ∧ fsm_recursive v' = false).
Proof.
  intros Hr Hs Hd Ha Hu. apply perform_scan; [done|]. rewrite Hs.
  eapply okP_mono.
  - by apply (scan_refines_session ndebug env (set_fsm_recursive true v) s e d).
  - intros c [H1 H2 H3]. by repeat split.
Qed.

Lemma take_entry_abort (e : FsmTransitionEntry Vpn EventData) d v :
  run_action (before_transition e) d v = Abort → take_entry e d v = Abort.
Proof. unfold take_entry. by intros ->. Qed.

Lemma take_entry_connected_ub (e : FsmTransitionEntry Vpn EventData) d v :
  target_state e = VPN_SS_CONNECTED → after_transition e = Some raise_state →
  selected_endpoint v = None → okP (run_action (before_transition e) d v) (keeps v) →
  take_entry e d v = UB.
Proof.
  unfold take_entry, okP. intros Ht Ha Hsel Hb.
  destruct Hb as (v1 & -> & Hf & Hk).
  simpl. rewrite Ht, Ha. apply raise_state_ub; simpl; congruence.
Qed.

Lemma connect_client_abort env v d :
  selected_endpoint v = None →
  connect_client env v d = Abort ∧ reconnect_client env v d = Abort.
Proof.
  intros H. split; apply run_client_connect_abort; [done|].
  unfold disconnect_client. by case_match.
Qed.

Lemma not_selected v :
  negb (bool_decide (is_Some (selected_endpoint v))) = true → selected_endpoint v = None.
Proof. destruct (selected_endpoint v); [|done]. by rewrite bool_decide_eq_true_2 by eauto. Qed.

(** Claim C32.  The situations the refinement leaves out really are failures:
    a dispatch that [dispatch_aborts] describes ends the process, and one that
    [dispatch_undefined] describes reads the empty [selected_endpoint]. *)
Theorem perform_failures ndebug env v s e d :
  fsm_recursive v = false →
  fsm_state v = state_code s →
  event_data_ok e d = true →
  (dispatch_aborts ndebug v d s e = true → perform ndebug env (event_code e) d v = Abort) ∧
  (dispatch_undefined v s e = true → perform ndebug env (event_code e) d v = UB).
Proof.
  intros Hr Hs Hd. rewrite perform_rows, Hs by done. split; intros Ha.
  - destruct s, e; try discriminate Ha; destruct d as [| |[]| |]; try discriminate Hd;
      cbn [state_code event_code]; compute_rows; eval_conditions;
      repeat match goal with
      | H : _ && true = true |- _ => rewrite andb_true_r in H
      | H : _ && false = true |- _ => rewrite andb_false_r in H; discriminate H
      | H : _ && _ = true |- _ => apply andb_prop in H as [H ?]
      end; simpl.
    + rewrite take_entry_abort; [done|]. by apply connect_client_abort, not_selected.
    + destruct ndebug, (connect_retry_info v) eqn:E; try done.
      destruct (is_fatal_error_code _); [done|].
      by rewrite take_entry_abort by by apply retry_connect_abort.
    + rewrite take_entry_abort; [done|]. by apply connect_client_abort, not_selected.
    + destruct ndebug, (connect_retry_info v) eqn:E, (connected_once v); try done.
      by rewrite take_entry_abort by by apply retry_connect_abort.
  - destruct s, e; try discriminate Ha; destruct d; try discriminate Hd;
      cbn [state_code event_code]; compute_rows; eval_conditions; apply not_selected in Ha.
    + rewrite take_entry_connected_ub; simpl; auto with vpn.
    + rewrite take_entry_connected_ub; simpl; auto with vpn.
Qed.
