(* ===== verification/VpnSystem.v ===== *)
(** * The manager as a running system

    The operations of [core/src/vpn_manager.cpp], the event loop and the
    callbacks of the pinger, the client and the postponement timer as one step
    relation, with the safety properties of every reachable state: the kill
    switch never lets a connection out around the tunnel, and no postponed
    connection request is ever forgotten. *)
From S2P Require Import Prelude Fsm EventLoop Utils VpnTypes VpnFsm VpnManager VpnProps.

(** A loop of calls on the client leaves its effects in order. *)
Lemma foldl_emit {A} (f : A → Effect) xs v :
  foldl (λ v x, emit_effect (f x) v) v xs = set_out (out v ++ (f <$> xs)) v.
Proof.
  revert v. induction xs as [|x xs IH]; intros v; simpl.
  - rewrite app_nil_r. by destruct v.
  - rewrite IH. simpl. by rewrite <- app_assoc.
Qed.

(** ** Runs of the loop

    An invariant that does not read the loop and that the actions preserve is
    preserved by the loop's callbacks. *)
Section LoopPreserves.
Context {W T : Type} `{!HasLoop W T}.
Variables (action : Z → T → W → res W) (I : W → Prop).
Hypothesis I_loop : ∀ l w, I w → I (set_loop l w).
Hypothesis I_action : ∀ id t w, I w → safe (action id t w) I.

Lemma run_info_pres info w : I w → safe (run_info action info w) I.
Proof.
  intros Hw. unfold run_info. eapply safe_bind; [by apply I_action, I_loop|].
  intros w1 H1. by apply safe_ret, I_loop.
Qed.

Lemma drain_pres fuel last_id w : I w → safe (drain action fuel last_id w) I.
Proof.
  revert w. induction fuel as [|fuel IH]; intros w Hw; simpl;
    destruct (task_queue (get_loop w)); try (by apply safe_ret, I_loop).
  destruct (_ <? _); [by apply safe_ret, I_loop|].
  eapply safe_bind; [by apply run_info_pres, I_loop | exact IH].
Qed.

Lemma fire_once_pres ndebug w : I w → safe (fire_once action ndebug w) I.
Proof.
  intros Hw. unfold fire_once. destruct (once_pending _); [by apply safe_ret|].
  unfold run_task_queue. repeat case_match; try (by apply drain_pres, I_loop). by intros ?.
Qed.

Lemma run_deferred_pres id w : I w → safe (run_deferred_task action id w) I.
Proof.
  intros Hw. unfold run_deferred_task. repeat case_match; [|by apply safe_ret].
  by apply run_info_pres, I_loop.
Qed.
End LoopPreserves.

(** ** Steps of the system *)
Section System.
(** [P] says which connections the tunnel itself decides to bypass (its
    [finalize_connect_action]); the tunnel is [tunnel/tunnel.cpp]'s business. *)
Variables (ndebug : bool) (P : Z → Prop).

Definition env_ok (env : Env) : Prop :=
  ∀ r, env_finalize_connect_action env r = Some VPN_CA_FORCE_BYPASS → P (req_id r).

Inductive sys_step : Vpn → Vpn → Prop :=
| sys_connect started c p v e v' :
    vpn_connect ndebug started c p v = Ok (e, v') → sys_step v v'
| sys_force_reconnect v v' : vpn_force_reconnect v = Ok v' → sys_step v v'
| sys_force_disconnect fatal v v' : vpn_force_disconnect fatal v = Ok v' → sys_step v v'
| sys_listen a b v : sys_step v (vpn_listen a b v).2
| sys_stop_begin v : sys_step v (vpn_stop_begin v)
| sys_stop_end v : sys_step v (vpn_stop_end v)
| sys_complete_request id a app uid v :
    sys_step v (vpn_complete_connect_request id a app uid v)
| sys_update_exclusions mode ex v : sys_step v (vpn_update_exclusions mode ex v)
| sys_reset_connections uid v : sys_step v (vpn_reset_connections uid v)
| sys_network_change s v : sys_step v (vpn_notify_network_change s v)
| sys_request_stats v : sys_step v (vpn_request_endpoint_connection_stats v)
| sys_sleep v : sys_step v (vpn_notify_sleep v)
| sys_wake v : sys_step v (vpn_notify_wake v)
| sys_abandon e v v' : vpn_abandon_endpoint e v = Ok v' → sys_step v v'
| sys_fire envs v v' :
    (∀ id, env_ok (envs id)) →
    fire_once (λ id t w, run_task ndebug (envs id) t w) ndebug v = Ok v' → sys_step v v'
| sys_deferred envs id v v' :
    (∀ id, env_ok (envs id)) →
    run_deferred_task (λ id t w, run_task ndebug (envs id) t w) id v = Ok v' → sys_step v v'
| sys_timer v :
    postponement_window_timer v = true → sys_step v (postponement_window_timer_cb v)
| sys_pinger env r v v' : env_ok env → pinger_handler ndebug env r v = Ok v' → sys_step v v'
| sys_client env e v v' : env_ok env → client_handler ndebug env e v = Ok v' → sys_step v v'.

(** ** The invariant *)

(** Effects that let traffic out around the tunnel. *)
Definition effect_ok (e : Effect) : Prop :=
  match e with
  | ClientCompleteRequest id (Some VPN_CA_FORCE_BYPASS) => P id
  | _ => True
  end.

Record sys_inv (v : Vpn) : Prop := mkSysInv {
  inv_no_leak : kill_switch_on v = true → Forall effect_ok (out v);
  inv_postponed : Forall (λ r, req_action r ≠ Some VPN_CA_FORCE_BYPASS) (postponed_requests v);
  inv_timer : postponed_requests v ≠ [] → postponement_window_timer v = true;
}.

(** Most of the code neither completes connection requests nor touches the
    postponed ones; it may arm the window's timer. *)
Record tame (v v' : Vpn) : Prop := mkTame {
  tm_kill : kill_switch_on v' = kill_switch_on v;
  tm_out : ∃ l, out v' = out v ++ l ∧
    Forall (λ e, match e with ClientCompleteRequest _ _ => False | _ => True end) l;
  tm_postponed : postponed_requests v' = postponed_requests v;
  tm_timer : postponement_window_timer v = true → postponement_window_timer v' = true;
}.

#[local] Instance tame_refl : Reflexive tame.
Proof. intros v. split; [done| |done|done]. exists []. by rewrite app_nil_r. Qed.

#[local] Instance tame_trans : Transitive tame.
Proof.
  intros v1 v2 v3 [K1 (l1 & O1 & F1) Q1 T1] [K2 (l2 & O2 & F2) Q2 T2].
  split; [congruence| |congruence|auto].
  exists (l1 ++ l2). rewrite O2, O1, <- app_assoc. split; [done|]. by apply Forall_app.
Qed.

Lemma tame_inv v v' : sys_inv v → tame v v' → sys_inv v'.
Proof.
  intros [L Q T] [HK (l & HO & HF) HQ HT]. split; rewrite ?HQ, ?HK; auto.
  rewrite HO. intros K. apply Forall_app. split; [auto|].
  eapply Forall_impl; [exact HF|]. by intros [].
Qed.


(** ** What is tame *)

Lemma tame_fields v v' :
  kill_switch_on v' = kill_switch_on v → out v' = out v →
  postponed_requests v' = postponed_requests v →
  (postponement_window_timer v = true → postponement_window_timer v' = true) → tame v v'.
Proof. intros K O Q T. split; [done| |done|done]. exists []. by rewrite app_nil_r. Qed.

Lemma tame_emit e v :
  (match e with ClientCompleteRequest _ _ => False | _ => True end) → tame v (emit_effect e v).
Proof. intros He. split; [done| |done|done]. exists [e]. by repeat constructor. Qed.

Ltac tame_set := apply tame_fields; [reflexivity | reflexivity | reflexivity | done].
Ltac tame_step := first
  [ reflexivity | tame_set | apply tame_emit; exact I
  | etransitivity; [|apply tame_emit; exact I] ].

Ltac tame_emit_set :=
  match goal with
  | |- tame ?v ?w =>
      match w with
      | context [emit_effect ?e v] => transitivity (emit_effect e v); [by apply tame_emit | tame_set]
      end
  end.

Lemma tame_submit t v : tame v (submit t v).
Proof. tame_set. Qed.

Lemma tame_auto_task_reset id v : tame v (auto_task_reset id v).
Proof. destruct id; tame_step. Qed.

Lemma tame_reset_recovery v : tame v (reset_recovery v).
Proof. etransitivity; [apply tame_auto_task_reset | tame_set]. Qed.

Lemma tame_disconnect_client v : tame v (disconnect_client v).
Proof.
  unfold disconnect_client. destruct (client_state v); try reflexivity;
    tame_emit_set.
Qed.

Lemma tame_stop_pinging v : tame v (stop_pinging v).
Proof.
  unfold stop_pinging. destruct (pinger v); [|tame_set].
  tame_emit_set.
Qed.

Lemma tame_disconnect v : tame v (disconnect v).
Proof. etransitivity; [apply tame_stop_pinging | apply tame_disconnect_client]. Qed.

Lemma tame_initiate env v : safe (initiate_recovery env v) (tame v).
Proof.
  destruct (initiate_recovery_shape env v) as (l & r & b & -> & Hb). apply safe_ret.
  apply tame_fields; try done. simpl. destruct Hb as [-> | ->]; auto.
Qed.

Lemma tame_run_client_connect env timeout v :
  safe (run_client_connect env timeout v) (tame v).
Proof.
  unfold run_client_connect, make_client_upstream_config.
  destruct (selected_endpoint v); [|by intros ?]. simpl.
  destruct (_ =? _); apply safe_ret;
    tame_emit_set.
Qed.

Lemma tame_run_ping env v d : safe (run_ping env v d) (tame v).
Proof.
  unfold run_ping. set (v0 := set_selected_endpoint _ _).
  assert (tame v v0).
  { etransitivity; [apply tame_stop_pinging|]. unfold v0.
    tame_emit_set. }
  destruct (task (recovery v0)) eqn:E; apply safe_ret; [|done].
  etransitivity; [done|]. etransitivity; [apply (tame_auto_task_reset (Some z)) | tame_set].
Qed.

Lemma tame_complete_connect v d : safe (complete_connect v d) (tame v).
Proof.
  unfold complete_connect. eapply (safe_bind _ _ (λ _, True)); [done|]. intros new _.
  eapply (safe_bind _ _ (tame v)).
  { destruct new; [|by apply safe_ret].
    eapply (safe_bind _ _ (λ _, True)); [done|]. intros e _. apply safe_ret.
    etransitivity; [apply tame_disconnect | tame_set]. }
  intros v1 T1. eapply (safe_bind _ _ (tame v)).
  { destruct (pending_error v1); [|by apply safe_ret].
    eapply (safe_bind _ _ (λ _, True)); [done|]. intros f _. apply safe_ret.
    destruct (_ && _); [|done]. etransitivity; [done | tame_set]. }
  intros v2 T2. apply safe_ret.
  assert (tame v (reset_recovery v2)) by (etransitivity; [done | apply tame_reset_recovery]).
  destruct (pending_error (reset_recovery v2)); [done|].
  etransitivity; [done | by apply tame_emit].
Qed.

Lemma tame_retry_connect v d : safe (retry_connect ndebug v d) (tame v).
Proof.
  unfold retry_connect. eapply (safe_bind _ _ (tame v)).
  - destruct (connect_retry_info v); [|destruct ndebug; [|by intros ?]]; apply safe_ret; tame_step.
  - intros v1 T1. apply safe_ret. etransitivity; [exact T1|].
    etransitivity; [apply tame_disconnect | apply tame_submit].
Qed.

Lemma tame_prepare_for_recovery env v d : safe (prepare_for_recovery env v d) (tame v).
Proof.
  unfold prepare_for_recovery. eapply safe_bind; [apply tame_initiate|]. intros v1 T1.
  assert (tame v v1) by (etransitivity; [apply tame_disconnect | done]).
  eapply (safe_bind _ _ (λ _, True)); [done|]. intros [] _; [|by apply safe_ret].
  eapply (safe_bind _ _ (λ _, True)); [done|]. intros e _. apply safe_ret.
  etransitivity; [done | tame_set].
Qed.

Lemma tame_reconnect_client env v d : safe (reconnect_client env v d) (tame v).
Proof.
  unfold reconnect_client. eapply safe_mono; [apply tame_run_client_connect|].
  intros v1 T1. etransitivity; [apply tame_disconnect_client | exact T1].
Qed.

Lemma tame_do_disconnect v d : safe (do_disconnect v d) (tame v).
Proof.
  apply safe_ret. etransitivity; [apply tame_reset_recovery | apply tame_disconnect].
Qed.

Lemma tame_start_listening env v d : safe (start_listening env v d) (tame v).
Proof.
  destruct d; try by intros ?. simpl. destruct (_ =? _); apply safe_ret; [by apply tame_emit|].
  tame_emit_set.
Qed.

Lemma tame_on_wrong_connect_state v d : safe (on_wrong_connect_state v d) (tame v).
Proof. apply safe_ret. etransitivity; [apply tame_disconnect | tame_set]. Qed.

Lemma tame_raise_state v d : safe (raise_state v d) (tame v).
Proof.
  unfold raise_state. repeat case_match; try (by intros ?); apply safe_ret;
    (etransitivity; [|by apply tame_emit]); tame_step.
Qed.

Lemma tame_none (v : Vpn) (d : EventData) : safe (run_action None d v) (tame v).
Proof. by apply safe_ret. Qed.

#[local] Hint Resolve tame_run_ping tame_complete_connect tame_retry_connect
  tame_prepare_for_recovery tame_reconnect_client tame_do_disconnect tame_start_listening
  tame_on_wrong_connect_state tame_raise_state tame_none tame_run_client_connect : tame.

(** ** Dispatches keep the invariant *)

Lemma finalize_recovery_inv v d : sys_inv v → safe (finalize_recovery v d) sys_inv.
Proof.
  intros Hv. unfold finalize_recovery. apply safe_ret.
  set (v1 := stop_pinging _).
  assert (sys_inv v1) as [L Q T].
  { eapply tame_inv; [exact Hv|].
    etransitivity; [by apply (tame_emit ClientUpdateBypassIpAvailability)|].
    etransitivity; [apply tame_reset_recovery | apply tame_stop_pinging]. }
  clearbody v1. unfold reset_bypassed_connections, complete_postponed_requests.
  rewrite (foldl_emit (λ r, ClientCompleteRequest (req_id r) (req_action r))).
  rewrite (foldl_emit ClientResetConnection). split; simpl; [|done|done].
  intros K. rewrite !Forall_app, !Forall_fmap. split_and!; [auto| |].
  - eapply Forall_impl; [exact Q|]. intros r Hr. simpl in *. by destruct (req_action r) as [[]|].
  - by apply Forall_true.
Qed.

(** What a row of the table must do. *)
Definition row_inv (d : EventData) (e : FsmTransitionEntry Vpn EventData) : Prop :=
  ∀ v, sys_inv v → safe (take_entry e d v) sys_inv.

Lemma take_entry_inv (e : FsmTransitionEntry Vpn EventData) d :
  (∀ v, sys_inv v → safe (run_action (before_transition e) d v) sys_inv) →
  after_transition e = None ∨ after_transition e = Some raise_state → row_inv d e.
Proof.
  intros Hb Ha v Hv. unfold take_entry. eapply safe_bind; [by apply Hb|].
  intros v1 Hv1. set (v2 := set_recursive _ _).
  assert (sys_inv v2).
  { eapply tame_inv; [exact Hv1|]. unfold v2. destruct (_ =? _); tame_set. }
  destruct Ha as [-> | ->]; [by apply safe_ret|]. simpl.
  eapply safe_mono; [apply tame_raise_state|]. intros. by eapply tame_inv.
Qed.

Lemma take_entry_tame (e : FsmTransitionEntry Vpn EventData) d :
  (∀ v, safe (run_action (before_transition e) d v) (tame v)) →
  after_transition e = None ∨ after_transition e = Some raise_state → row_inv d e.
Proof.
  intros Hb. apply take_entry_inv. intros v Hv. eapply safe_mono; [apply Hb|].
  intros. by eapply tame_inv.
Qed.

Ltac row_tame := apply take_entry_tame;
  [intros; simpl; first
     [ solve [auto with tame]
     | apply safe_ret; reflexivity | apply tame_complete_connect | apply tame_prepare_for_recovery | apply tame_run_client_connect ]
  | auto].

Lemma table_inv env d :
  Forall (λ e, event e ≠ CE_COMPLETE_REQUEST → row_inv d e) (TRANSITION_TABLE ndebug env).
Proof.
  unfold TRANSITION_TABLE.
  repeat first [apply Forall_nil_2 | apply Forall_cons_2]; intros Hne;
    try (exfalso; apply Hne; reflexivity).
  all: try solve [row_tame].
  apply take_entry_inv; [intros; by apply finalize_recovery_inv | auto].
Qed.

Lemma scan_rows_inv rs d v :
  Forall (row_inv d) rs → sys_inv v → safe (scan_rows rs d v) sys_inv.
Proof.
  intros Hr Hv. induction Hr as [|e rs He Hr IH]; simpl; [by apply safe_ret|].
  eapply (safe_bind _ _ (λ _, True)); [done|]. intros [] _; auto.
Qed.

Lemma filter_none (s ev : Z) (t : FsmTransitionTable Vpn EventData) :
  forallb (λ e, negb (ev =? event e)) t = true → List.filter (row_for s ev) t = [].
Proof.
  induction t as [|e t IH]; simpl; [done|]. intros [He Ht]%andb_prop.
  unfold row_for. apply negb_true_iff in He. rewrite He, andb_false_r. by apply IH.
Qed.

Lemma filter_all (s ev : Z) (t : FsmTransitionTable Vpn EventData) :
  forallb (λ e, (src_state e =? ANY_SOURCE_STATE) && (ev =? event e)) t = true →
  List.filter (row_for s ev) t = t.
Proof.
  induction t as [|e t IH]; simpl; [done|]. intros [[He1 He2]%andb_prop Ht]%andb_prop.
  unfold row_for at 1. rewrite He1, He2, orb_true_r. simpl. by rewrite IH.
Qed.

Lemma complete_request_inv r v :
  sys_inv v → (req_action r = Some VPN_CA_FORCE_BYPASS → P (req_id r)) →
  safe (complete_request v (RequestData r)) sys_inv.
Proof.
  intros [L Q T] Hr. apply safe_ret. split; [|exact Q|exact T].
  intros K. apply Forall_app. split; [by apply L|]. apply Forall_singleton. simpl.
  destruct (req_action r) as [[]|]; auto.
Qed.

Lemma postpone_request_inv r v :
  sys_inv v → req_action r ≠ Some VPN_CA_FORCE_BYPASS → postponement_window_timer v = true →
  safe (postpone_request v (RequestData r)) sys_inv.
Proof.
  intros [L Q T] Hr Ht. apply safe_ret. split; [exact L| |done].
  apply Forall_app. split; [exact Q | by apply Forall_singleton].
Qed.

Lemma reject_request_inv r v :
  sys_inv v → safe (reject_request v (RequestData r)) sys_inv.
Proof. intros Hv. apply safe_ret. eapply tame_inv; [exact Hv | by apply tame_emit]. Qed.

Lemma bypass_until_connected_inv r v :
  sys_inv v → kill_switch_on v = false →
  safe (bypass_until_connected v (RequestData r)) sys_inv.
Proof.
  intros [L Q T] Hk. apply safe_ret. split; [|exact Q|exact T]. simpl. congruence.
Qed.

(** The rows of a connection request, in any state. *)
Lemma complete_request_rows env d v :
  sys_inv v →
  (∀ r, d = RequestData r → req_action r = Some VPN_CA_FORCE_BYPASS → P (req_id r)) →
  safe (scan_rows (rows ndebug env (fsm_state v) CE_COMPLETE_REQUEST) d v) sys_inv.
Proof.
  intros Hv Hd.
  assert (rows ndebug env (fsm_state v) CE_COMPLETE_REQUEST =
    drop 50 (TRANSITION_TABLE ndebug env)) as ->.
  { unfold rows. rewrite <- (take_drop 50 (TRANSITION_TABLE ndebug env)) at 1.
    by rewrite List.filter_app, filter_none, filter_all. }
  destruct d; try by intros ?. unfold TRANSITION_TABLE. cbn [drop scan_rows].
  unfold run_condition, can_complete. cbn [condition data_request mbind res_bind].
  assert (Htake : ∀ e : FsmTransitionEntry Vpn EventData, target_state e = SAME_TARGET_STATE →
    after_transition e = None →
    safe (run_action (before_transition e) (RequestData r) v) sys_inv →
    safe (take_entry e (RequestData r) v) sys_inv).
  { intros e Ht Ha Hb. unfold take_entry. eapply safe_bind; [exact Hb|]. intros v1 H1.
    rewrite Ht, Ha. apply safe_ret. eapply tame_inv; [exact H1|]. tame_set. }
  destruct (bool_decide_reflect (req_action r = Some VPN_CA_FORCE_BYPASS)) as [Ef|Ef].
  { apply Htake; [done..|]. apply complete_request_inv; auto. }
  cbn [mbind res_bind]. destruct (_ || _) eqn:Ec.
  { apply Htake; [done..|]. apply complete_request_inv; auto. }
  unfold should_postpone, is_kill_switch_on. cbn [mbind res_bind].
  destruct (postponement_window_timer v) eqn:Et.
  { apply Htake; [done..|]. by apply postpone_request_inv. }
  cbn [mbind res_bind]. destruct (kill_switch_on v) eqn:Ek.
  { apply Htake; [done..|]. by apply reject_request_inv. }
  apply Htake; [done..|]. by apply bypass_until_connected_inv.
Qed.

Lemma Forall_row_for (Q : FsmTransitionEntry Vpn EventData → Prop) s ev t :
  Forall (λ e, event e = ev → Q e) t → Forall Q (List.filter (row_for s ev) t).
Proof.
  induction 1 as [|e t He Ht IH]; simpl; [done|].
  destruct (row_for s ev e) eqn:Hf; [|done]. constructor; [|done].
  apply He. apply andb_prop in Hf as [_ Hf]. by apply Z.eqb_eq in Hf.
Qed.

Lemma rows_inv env d s ev :
  ev ≠ CE_COMPLETE_REQUEST → Forall (row_inv d) (rows ndebug env s ev).
Proof.
  intros Hne. apply Forall_row_for. eapply Forall_impl; [apply (table_inv env d)|].
  cbv beta. intros e He Hev. apply He. by rewrite Hev.
Qed.

Lemma perform_recursive env ev d v :
  fsm_recursive v = true → perform ndebug env ev d v = if ndebug then Ok v else Abort.
Proof.
  unfold perform. generalize (TRANSITION_TABLE ndebug env). intros t H.
  unfold perform_transition. simpl. by rewrite H.
Qed.

Lemma perform_inv env ev d v :
  sys_inv v →
  (ev = CE_COMPLETE_REQUEST → ∀ r, d = RequestData r →
     req_action r = Some VPN_CA_FORCE_BYPASS → P (req_id r)) →
  safe (perform ndebug env ev d v) sys_inv.
Proof.
  intros Hv Hd. destruct (fsm_recursive v) eqn:Hr.
  { rewrite perform_recursive by exact Hr. destruct ndebug; [by apply safe_ret | by intros ?]. }
  rewrite perform_rows by done.
  assert (sys_inv (set_fsm_recursive true v)) by (eapply tame_inv; [exact Hv | tame_set]).
  eapply (safe_bind _ _ sys_inv).
  - destruct (Z.eq_dec ev CE_COMPLETE_REQUEST) as [->|Hne].
    + apply (complete_request_rows env d (set_fsm_recursive true v)); auto.
    + apply scan_rows_inv; [|done]. by apply rows_inv.
  - intros v1 H1. apply safe_ret. eapply tame_inv; [exact H1 | tame_set].
Qed.

(** ** Steps keep the invariant *)

(** A dispatch of any event but a connection request. *)
Lemma perform_tame_inv env ev d v v' :
  ev ≠ CE_COMPLETE_REQUEST → sys_inv v → tame v v' →
  safe (perform ndebug env ev d v') sys_inv.
Proof. intros Hne Hv Ht. apply perform_inv; [by eapply tame_inv | done]. Qed.

Lemma abandon_task_inv env e v : sys_inv v → safe (abandon_task ndebug env e v) sys_inv.
Proof.
  intros Hv. unfold abandon_task.
  eapply (safe_bind _ _ (λ _, True)); [done|]. intros sel _.
  eapply (safe_bind _ _ (λ _, True)); [done|]. intros [eps n] _.
  destruct (forallb _ _);
    [eapply perform_tame_inv; [done | exact Hv | destruct sel; tame_set] |].
  destruct sel; simpl.
  - eapply perform_tame_inv; [done | exact Hv | tame_set].
  - apply safe_ret. eapply tame_inv; [exact Hv | tame_set].
Qed.

Lemma run_task_inv env t v :
  env_ok env → sys_inv v → safe (run_task ndebug env t v) sys_inv.
Proof.
  intros He Hv. destruct t; simpl.
  all: try solve [eapply perform_tame_inv; [done | exact Hv | tame_step]].
  all: try solve [apply safe_ret; eapply tame_inv; [exact Hv | tame_step]].
  - eapply perform_tame_inv; [done | exact Hv |].
    etransitivity; [apply tame_reset_recovery | tame_set].
  - eapply perform_tame_inv; [done | exact Hv |]. tame_emit_set.
  - eapply perform_tame_inv; [done | exact Hv |]. destruct fatal; tame_step.
  - apply perform_inv; [done|]. intros _ r' [= <-] Hr. by apply He in Hr.
  - apply safe_ret. eapply tame_inv; [exact Hv|].
    etransitivity; [|by apply tame_emit]. etransitivity; [|by apply tame_emit]. tame_set.
  - unfold network_change_task. eapply perform_tame_inv; [done | exact Hv | tame_emit_set].
  - apply safe_ret. eapply tame_inv; [exact Hv|]. unfold stats_task.
    destruct (_ =? _); by apply tame_emit.
  - apply safe_ret. eapply tame_inv; [exact Hv | tame_emit_set].
  - by apply abandon_task_inv.
Qed.

Lemma pinger_handler_inv env r v :
  sys_inv v → safe (pinger_handler ndebug env r v) sys_inv.
Proof.
  intros Hv. unfold pinger_handler. destruct r as [r|]; [|by apply safe_ret].
  destruct (negb ndebug && _); [by intros ?|].
  destruct (_ <? _); [eapply perform_tame_inv; [done | exact Hv | tame_set]|].
  eapply (safe_bind _ _ (λ _, True)); [done|]. intros absent _.
  destruct absent; [eapply perform_tame_inv; [done | exact Hv | tame_set]|].
  eapply perform_tame_inv; [done | exact Hv |].
  destruct (is_quic r); (etransitivity; [|by apply tame_emit]); tame_set.
Qed.

Lemma client_handler_inv env e v :
  sys_inv v → safe (client_handler ndebug env e v) sys_inv.
Proof.
  intros Hv. destruct e; (eapply perform_tame_inv; [done | exact Hv | tame_set]).
Qed.

Lemma timer_cb_shape v :
  postponement_window_timer_cb v =
    let ids := req_id <$> postponed_requests v in
    set_postponed_requests [] (set_postponement_window_timer false
      (if kill_switch_on v
       then set_out (out v ++ (ClientRejectRequest <$> ids)) v
       else set_bypassed_connection_ids (bypassed_connection_ids v ++ ids)
              (set_out (out v ++ ((λ id, ClientCompleteRequest id (Some VPN_CA_FORCE_BYPASS)) <$> ids))
                 v))).
Proof.
  unfold postponement_window_timer_cb. cbv zeta.
  set (w := set_postponement_window_timer false v).
  change (postponed_requests v) with (postponed_requests w) at 1.
  assert (H : ∀ rs w,
    foldl (λ v r, if kill_switch_on v then emit_effect (ClientRejectRequest (req_id r)) v
      else set_bypassed_connection_ids (bypassed_connection_ids
             (emit_effect (ClientCompleteRequest (req_id r) (Some VPN_CA_FORCE_BYPASS)) v) ++ [req_id r])
             (emit_effect (ClientCompleteRequest (req_id r) (Some VPN_CA_FORCE_BYPASS)) v)) w rs =
    if kill_switch_on w then set_out (out w ++ (ClientRejectRequest <$> (req_id <$> rs))) w
    else set_bypassed_connection_ids (bypassed_connection_ids w ++ (req_id <$> rs))
           (set_out (out w ++ ((λ id, ClientCompleteRequest id (Some VPN_CA_FORCE_BYPASS))
                                <$> (req_id <$> rs))) w)).
  { intros rs. induction rs as [|r rs IH]; intros u; simpl.
    - destruct u as [???????????????[]??????]; simpl; by rewrite ?app_nil_r.
    - rewrite IH. destruct u as [???????????????[]??????]; simpl; by rewrite <- !app_assoc. }
  rewrite H. unfold w. by destruct v as [???????????????[]??????].
Qed.

Lemma timer_cb_inv v : sys_inv v → sys_inv (postponement_window_timer_cb v).
Proof.
  intros [L Q T]. rewrite timer_cb_shape. cbv zeta.
  split; [|done|done]. destruct (kill_switch_on v) eqn:K; simpl; [|congruence].
  intros _. apply Forall_app. split; [by apply L|]. apply Forall_fmap. by apply Forall_true.
Qed.

Lemma stop_end_inv v : sys_inv v → sys_inv (vpn_stop_end v).
Proof.
  intros Hv. unfold vpn_stop_end.
  set (v1 := emit_effect SocketsCompleteAll _).
  assert (tame v v1) as T1.
  { unfold v1. etransitivity; [|by apply tame_emit]. etransitivity; [|by apply tame_emit].
    destruct (ev_loop v); tame_set. }
  clearbody v1.
  assert (sys_inv (stop_pinging v1)) as [L Q T]
    by (eapply tame_inv; [exact Hv|]; etransitivity; [exact T1 | apply tame_stop_pinging]).
  by split.
Qed.

Lemma tame_submit_checked t v v' : submit_checked t v = Ok v' → tame v v'.
Proof. unfold submit_checked. destruct (ev_loop v); intros [= <-]. tame_set. Qed.

Lemma tame_submit_if_active t v : tame v (submit_if_active t v).
Proof. unfold submit_if_active. case_match; tame_step. Qed.

Lemma tame_connect started c p v e v' :
  vpn_connect ndebug started c p v = Ok (e, v') → tame v v'.
Proof.
  unfold vpn_connect, run_event_loop, vpn_event_loop_run_enter. intros H.
  repeat (case_match; simplify_eq/=; try (tame_set || done)).
Qed.

Lemma sys_inv_set_loop l v : sys_inv v → sys_inv (set_loop l v).
Proof. intros Hv. eapply tame_inv; [exact Hv | tame_set]. Qed.

Lemma sys_step_inv v v' : sys_step v v' → sys_inv v → sys_inv v'.
Proof.
  intros Hs Hv. destruct Hs.
  all: try solve [eapply tame_inv; [exact Hv|];
    first [ by eapply tame_connect | by eapply tame_submit_checked
          | apply tame_submit_if_active ]].
  - eapply tame_inv; [exact Hv|]. unfold vpn_listen. repeat case_match; simpl; tame_step.
  - eapply tame_inv; [exact Hv|]. unfold vpn_stop_begin. case_match; tame_step.
  - by apply stop_end_inv.
  - eapply tame_inv; [exact Hv|]. unfold vpn_complete_connect_request. case_match; tame_step.
  - eapply tame_inv; [exact Hv|]. unfold vpn_update_exclusions, vpn_event_loop_submit, auto_task_reset.
    repeat case_match; simplify_eq/=; tame_step.
  - eapply tame_inv; [exact Hv|]. unfold vpn_request_endpoint_connection_stats.
    case_match; [tame_set | by apply tame_emit].
  - match goal with
    | He : ∀ id, env_ok (?envs id), Hf : fire_once _ _ ?v = Ok ?v' |- _ =>
        exact (fire_once_pres _ sys_inv sys_inv_set_loop
                 (λ id t w, run_task_inv (envs id) t w (He id)) ndebug v Hv v' Hf)
    end.
  - match goal with
    | He : ∀ id, env_ok (?envs id), Hf : run_deferred_task _ ?id ?v = Ok ?v' |- _ =>
        exact (run_deferred_pres _ sys_inv sys_inv_set_loop
                 (λ id t w, run_task_inv (envs id) t w (He id)) id v Hv v' Hf)
    end.
  - by apply timer_cb_inv.
  - by eapply pinger_handler_inv.
  - by eapply client_handler_inv.
Qed.

Lemma sys_reachable_inv v v' : rtc sys_step v v' → sys_inv v → sys_inv v'.
Proof. induction 1; eauto using sys_step_inv. Qed.

End System.

(** [Vpn{}], with a kill-switch setting: the event loop is made with it, if it can
    be ([created]). *)
Definition vpn_new (created kill : bool) (c : VpnUpstreamConfig) : Vpn :=
  mkVpn VPN_SS_DISCONNECTED false None (if created then Some vpn_event_loop_create else None) false
    recovery_default c None false false false false
    CLIS_DISCONNECTED false false kill (ConnectSeveralAttempts 0) [] [] false None [].

(** [vpn_open], with what [VpnClient::init] returns; [None] is a null pointer. *)
Definition vpn_open (created : bool) (init : VpnError) (kill : bool) (c : VpnUpstreamConfig) : option Vpn :=
  let vpn := vpn_new created kill c in
  match ev_loop vpn with
  | None => None
  | Some _ => if code init =? VPN_EC_NOERROR then Some vpn else None
  end.

Lemma vpn_open_inv P created init kill c v : vpn_open created init kill c = Some v → sys_inv P v.
Proof. unfold vpn_open. destruct created; [|done]. simpl. destruct (_ =? _); [|done]. intros [= <-]. by split. Qed.

(** The complete effect of a finished recovery. *)
Lemma finalize_recovery_effect v d :
  okP (finalize_recovery v d) (λ v', postponed_requests v' = [] ∧ bypassed_connection_ids v' = [] ∧
    postponement_window_timer v' = false ∧ out v' = out v ++
      [ClientUpdateBypassIpAvailability] ++ (if pinger v then [PingerStop] else []) ++
      ((λ r, ClientCompleteRequest (req_id r) (req_action r)) <$> postponed_requests v) ++
      (ClientResetConnection <$> bypassed_connection_ids v)).
Proof.
  unfold finalize_recovery, reset_bypassed_connections, complete_postponed_requests. cbv zeta.
  rewrite (foldl_emit (λ r, ClientCompleteRequest (req_id r) (req_action r))).
  rewrite (foldl_emit ClientResetConnection). apply okP_ret. split_and!; [done..|].
  unfold reset_recovery, auto_task_reset, stop_pinging.
  destruct (task (recovery _)); simpl; destruct (pinger v); simpl; by rewrite <- !app_assoc.
Qed.

(** Claim C1.  The kill switch: on every run of the manager (any sequence of
    API calls, loop callbacks, timers, pinger and client events, with any
    answers of the collaborators), while the kill switch is on the client is
    never told to bypass the tunnel for a connection, except for those the
    tunnel's own [finalize_connect_action] decided to bypass. *)
Theorem kill_switch_no_leak ndebug P created init kill c v0 v id :
  vpn_open created init kill c = Some v0 → rtc (sys_step ndebug P) v0 v →
  kill_switch_on v = true →
  ClientCompleteRequest id (Some VPN_CA_FORCE_BYPASS) ∈ out v → P id.
Proof.
  intros Ho Hr K Hin.
  pose proof (inv_no_leak _ _ (sys_reachable_inv _ _ _ _ Hr (vpn_open_inv P _ _ _ _ _ Ho)) K) as H.
  by rewrite Forall_forall in H; apply H in Hin.
Qed.

(** Claim C3.  No connection request is forgotten: on every run, as long as a
    request waits in [postponed_requests] the timer that will answer it is
    armed; and when the timer fires or the session recovers, every waiting
    request gets its answer, in the order they came in, and none is left. *)
Theorem postponed_requests_answered ndebug P created init kill c v0 v d :
  vpn_open created init kill c = Some v0 → rtc (sys_step ndebug P) v0 v →
  postponed_requests v ≠ [] →
  postponement_window_timer v = true ∧
  postponed_requests (postponement_window_timer_cb v) = [] ∧
  out (postponement_window_timer_cb v) = out v ++
    ((λ r, if kill_switch_on v then ClientRejectRequest (req_id r)
           else ClientCompleteRequest (req_id r) (Some VPN_CA_FORCE_BYPASS))
       <$> postponed_requests v) ∧
  okP (finalize_recovery v d) (λ v', postponed_requests v' = [] ∧ bypassed_connection_ids v' = [] ∧
    postponement_window_timer v' = false ∧ out v' = out v ++
      [ClientUpdateBypassIpAvailability] ++ (if pinger v then [PingerStop] else []) ++
      ((λ r, ClientCompleteRequest (req_id r) (req_action r)) <$> postponed_requests v) ++
      (ClientResetConnection <$> bypassed_connection_ids v)).
Proof.
  intros Ho Hr Hne. split_and!.
  - by apply (sys_reachable_inv _ _ _ _ Hr (vpn_open_inv P _ _ _ _ _ Ho)).
  - by rewrite timer_cb_shape.
  - rewrite timer_cb_shape. simpl. destruct (kill_switch_on v); simpl; by rewrite <- list_fmap_compose.
  - apply finalize_recovery_effect.
Qed.

(** ** A run

    One endpoint, the kill switch on: the session connects, loses its client,
    and a connection request arrives while it recovers. *)
Definition demo_endpoint : VpnEndpoint :=
  mkEndpoint (mkAddress AF_INET "192.0.2.1" 443) (Some "vpn.example.org"%string) None "" false.

Definition demo_config : VpnUpstreamConfig :=
  mkConfig VPN_UP_HTTP2 "loc" [demo_endpoint] 0 0 0 (Some "user"%string) (Some "pass"%string)
    (mkRecoverySettings VPN_DEFAULT_RECOVERY_BACKOFF_RATE 0 0) false.

Definition demo_env : Env := mkEnv 1000 no_error no_error (λ _, false) req_action.

Definition ok_or {A} (d : A) (m : res A) : A := match m with Ok a => a | _ => d end.

Definition demo_fire (v : Vpn) : Vpn :=
  ok_or v (fire_once (λ _ t w, run_task false demo_env t w) false v).

Definition demo_0 : Vpn := Eval vm_compute in vpn_new true true demo_config.
Definition demo_1 : Vpn := Eval vm_compute in
  (ok_or (no_error, demo_0)
     (vpn_connect false true demo_config (VPN_CRP_SEVERAL_ATTEMPTS 2) demo_0)).2.
Definition demo_2 : Vpn := Eval vm_compute in demo_fire demo_1.
Definition demo_ping : option LocationsPingerResult :=
  Some (mkPingResult 10 demo_endpoint None false).
Definition demo_3 : Vpn := Eval vm_compute in
  ok_or demo_2 (pinger_handler false demo_env demo_ping demo_2).
Definition demo_4 : Vpn := Eval vm_compute in
  ok_or demo_3 (client_handler false demo_env EVENT_CONNECTED demo_3).
Definition demo_5 : Vpn := Eval vm_compute in
  ok_or demo_4 (client_handler false demo_env EVENT_DISCONNECTED demo_4).
Definition demo_6 : Vpn := Eval vm_compute in
  vpn_complete_connect_request 7 VPN_CA_DEFAULT None 0 demo_5.
Definition demo_7 : Vpn := Eval vm_compute in demo_fire demo_6.

Definition never (_ : Z) : Prop := False.

(** The tunnel of the run: it never asks for a bypass. *)
Definition tame_env : Env := mkEnv 1000 no_error no_error (λ _, false) (λ _, Some VPN_CA_DEFAULT).

Lemma tame_env_ok : env_ok never tame_env.
Proof. by intros r. Qed.

Lemma demo_run : rtc (sys_step false never) demo_0 demo_7.
Proof.
  eapply rtc_l; [apply (sys_connect _ _ true demo_config (VPN_CRP_SEVERAL_ATTEMPTS 2) _ no_error demo_1);
    vm_compute; reflexivity|].
  eapply rtc_l; [apply (sys_fire _ _ (λ _, tame_env) demo_1 demo_2 (λ _, tame_env_ok));
    vm_compute; reflexivity|].
  eapply rtc_l; [apply (sys_pinger _ _ tame_env demo_ping demo_2 demo_3 tame_env_ok);
    vm_compute; reflexivity|].
  eapply rtc_l; [apply (sys_client _ _ tame_env EVENT_CONNECTED demo_3 demo_4 tame_env_ok);
    vm_compute; reflexivity|].
  eapply rtc_l; [apply (sys_client _ _ tame_env EVENT_DISCONNECTED demo_4 demo_5 tame_env_ok);
    vm_compute; reflexivity|].
  eapply rtc_l; [exact (sys_complete_request _ _ 7 VPN_CA_DEFAULT None 0 demo_5)|].
  eapply rtc_l; [apply (sys_fire _ _ (λ _, tame_env) demo_6 demo_7 (λ _, tame_env_ok));
    vm_compute; reflexivity|].
  apply rtc_refl.
Qed.

(** In the run the request waits, and no bypass has been ordered. *)
Lemma kill_switch_no_leak_witness :
  kill_switch_on demo_7 = true ∧
  ClientCompleteRequest 7 (Some VPN_CA_FORCE_BYPASS) ∉ out demo_7.
Proof.
  split; [reflexivity|]. intros Hin.
  exact (kill_switch_no_leak false never true no_error true demo_config demo_0 demo_7 7 eq_refl demo_run eq_refl Hin).
Defined.

Lemma postponed_requests_answered_witness :
  postponed_requests demo_7 ≠ [] ∧ postponement_window_timer demo_7 = true.
Proof.
  assert (H : postponed_requests demo_7 ≠ []) by discriminate.
  split; [exact H|].
  exact (proj1 (postponed_requests_answered false never true no_error true demo_config demo_0 demo_7 NoData
    eq_refl demo_run H)).
Defined.

Lemma perform_refines_session_witness :
  fsm_state demo_4 = VPN_SS_CONNECTED ∧
  okP (perform false demo_env CE_CLIENT_DISCONNECTED NoData demo_4)
    (λ v', fsm_state v' = VPN_SS_WAITING_RECOVERY).
Proof.
  split; [reflexivity|]. eapply okP_mono.
  - apply (perform_refines_session false demo_env demo_4 Connected ClientDisconnected NoData);
      vm_compute; reflexivity.
  - intros v' [[H _ _] _]. exact H.
Defined.

Lemma perform_failures_witness :
  dispatch_aborts false demo_2 NoData Connecting PingReady = true ∧
  perform false demo_env CE_PING_READY NoData demo_2 = Abort.
Proof.
  split; [reflexivity|].
  apply (perform_failures false demo_env demo_2 Connecting PingReady NoData);
    vm_compute; reflexivity.
Defined.

