(* ===== verification/Pbuf.v ===== *)
(** * Packet buffers

    [third-party/lwip/lwip/src/core/pbuf.c] as the client configures it
    ([tcpip/src/lwipopts.h], [arch/cc.h]: libc [malloc], alignment 1, assertions
    compiled in): reference-counted buffers linked into chains.

    The heap maps addresses to [struct pbuf] cells and to byte buffers.  The
    data that directly follows a pbuf of type RAM or POOL is the buffer at the
    pbuf's own address, offset 0 being [(u8_t * )p + SIZEOF_STRUCT_PBUF].  An
    access to a cell or a byte that is not there is [UB], a failed
    [LWIP_ASSERT] or [LWIP_ERROR] is [Abort]; a loop that would follow a cycle of
    [next] pointers for ever is [UB] as well. *)
From S2P Require Import Prelude.

Definition loc : Type := nat.
Definition ptr : Type := loc * Z.

(** [struct pbuf]. *)
Record pbuf := mkPbuf {
  next : option loc;
  payload : option ptr;
  tot_len : Z;
  len : Z;
  type_internal : Z;
  flags : Z;
  ref : Z;
  if_idx : Z;
}.

Definition set_next (x : option loc) (p : pbuf) : pbuf :=
  mkPbuf x (payload p) (tot_len p) (len p) (type_internal p) (flags p) (ref p) (if_idx p).
Definition set_payload (x : option ptr) (p : pbuf) : pbuf :=
  mkPbuf (next p) x (tot_len p) (len p) (type_internal p) (flags p) (ref p) (if_idx p).
Definition set_tot_len (x : Z) (p : pbuf) : pbuf :=
  mkPbuf (next p) (payload p) x (len p) (type_internal p) (flags p) (ref p) (if_idx p).
Definition set_len (x : Z) (p : pbuf) : pbuf :=
  mkPbuf (next p) (payload p) (tot_len p) x (type_internal p) (flags p) (ref p) (if_idx p).
Definition set_flags (x : Z) (p : pbuf) : pbuf :=
  mkPbuf (next p) (payload p) (tot_len p) (len p) (type_internal p) x (ref p) (if_idx p).
Definition set_ref (x : Z) (p : pbuf) : pbuf :=
  mkPbuf (next p) (payload p) (tot_len p) (len p) (type_internal p) (flags p) x (if_idx p).

(** [pbuf_layer]: the room for headers, with [PBUF_LINK_HLEN] 14 and
    [PBUF_IP_HLEN] 40. *)
Inductive pbuf_layer := PBUF_TRANSPORT | PBUF_IP | PBUF_LINK | PBUF_RAW_TX | PBUF_RAW.

Definition layer_offset (l : pbuf_layer) : Z :=
  match l with
  | PBUF_TRANSPORT => 0 + 14 + 40 + 20
  | PBUF_IP => 0 + 14 + 40
  | PBUF_LINK => 0 + 14
  | PBUF_RAW_TX => 0
  | PBUF_RAW => 0
  end.

Definition PBUF_TYPE_FLAG_STRUCT_DATA_CONTIGUOUS : Z := 0x80.
Definition PBUF_TYPE_FLAG_DATA_VOLATILE : Z := 0x40.
Definition PBUF_TYPE_ALLOC_SRC_MASK : Z := 0x0F.
Definition PBUF_TYPE_ALLOC_SRC_MASK_STD_HEAP : Z := 0x00.
Definition PBUF_TYPE_ALLOC_SRC_MASK_STD_MEMP_PBUF : Z := 0x01.
Definition PBUF_TYPE_ALLOC_SRC_MASK_STD_MEMP_PBUF_POOL : Z := 0x02.
Definition PBUF_FLAG_IS_CUSTOM : Z := 0x02.
Definition PBUF_FLAG_TCP_FIN : Z := 0x20.

Inductive pbuf_type := PBUF_RAM | PBUF_ROM | PBUF_REF | PBUF_POOL.

Definition type_code (t : pbuf_type) : Z :=
  match t with
  | PBUF_RAM => 0x280
  | PBUF_ROM => 0x01
  | PBUF_REF => 0x41
  | PBUF_POOL => 0x182
  end.

Definition pbuf_get_allocsrc (p : pbuf) : Z := Z.land (type_internal p) PBUF_TYPE_ALLOC_SRC_MASK.

(** [TCP_MSS + 40 + PBUF_LINK_ENCAPSULATION_HLEN + PBUF_LINK_HLEN], with
    [TCP_MSS] the 9000 of [MAX_SUPPORTED_MTU] less two headers. *)
Definition PBUF_POOL_BUFSIZE : Z := (9000 - 20 - 20) + 40 + 0 + 14.

Inductive err_t := ERR_OK | ERR_MEM | ERR_VAL | ERR_ARG.

(** ** The heap *)
Record heap := mkHeap {
  pbufs : gmap loc pbuf;
  bufs : gmap loc (list Z);
  next_loc : loc;
  mallocs : nat;
  pbuf_free_ooseq_pending : bool;
}.

Definition set_pbufs (m : gmap loc pbuf) (h : heap) : heap :=
  mkHeap m (bufs h) (next_loc h) (mallocs h) (pbuf_free_ooseq_pending h).
Definition set_bufs (m : gmap loc (list Z)) (h : heap) : heap :=
  mkHeap (pbufs h) m (next_loc h) (mallocs h) (pbuf_free_ooseq_pending h).

Definition get (p : option loc) (h : heap) : res pbuf :=
  match p with
  | None => UB
  | Some p => match pbufs h !! p with Some b => Ok b | None => UB end
  end.

(** [p->field = ...]. *)
Definition upd (p : option loc) (f : pbuf → pbuf) (h : heap) : res heap :=
  match p with
  | None => UB
  | Some p => match pbufs h !! p with
              | Some b => Ok (set_pbufs (<[p := f b]> (pbufs h)) h)
              | None => UB
              end
  end.

(** Bytes [off .. off + n) of a buffer. *)
Definition slice (off n : Z) (buf : list Z) : list Z :=
  take (Z.to_nat n) (drop (Z.to_nat off) buf).

Definition splice (off : Z) (bs buf : list Z) : list Z :=
  take (Z.to_nat off) buf ++ bs ++ drop (Z.to_nat off + length bs) buf.

Definition in_range (off n : Z) (buf : list Z) : bool :=
  (0 <=? off) && (0 <=? n) && (off + n <=? Z.of_nat (length buf)).

(** Reading and writing [n] bytes at [q + off] ([memcpy] of nothing touches
    nothing). *)
Definition mem_read (q : option ptr) (off n : Z) (h : heap) : res (list Z) :=
  if n =? 0 then Ok []
  else match q with
       | None => UB
       | Some (b, o) =>
           match bufs h !! b with
           | None => UB
           | Some buf => if in_range (o + off) n buf then Ok (slice (o + off) n buf) else UB
           end
       end.

Definition mem_write (q : option ptr) (off : Z) (bs : list Z) (h : heap) : res heap :=
  match bs with
  | [] => Ok h
  | _ =>
      match q with
      | None => UB
      | Some (b, o) =>
          match bufs h !! b with
          | None => UB
          | Some buf =>
              if in_range (o + off) (Z.of_nat (length bs)) buf
              then Ok (set_bufs (<[b := splice (o + off) bs buf]> (bufs h)) h) else UB
          end
      end
  end.

Definition lwip_assert (b : bool) : res unit := if b then Ok tt else Abort.

(** Enough iterations to walk any chain of the heap. *)
Definition fuel_of (h : heap) : nat := S (size (pbufs h)).
Arguments fuel_of : simpl never.

Section Pbuf.
(** What the environment decides: whether the n-th [malloc] fails, what a
    fresh buffer holds, and what the [custom_free_function] of a custom pbuf
    does. *)
Variables (malloc_fails : nat → bool) (junk : nat → Z).
Variable custom_free_function : loc → heap → res heap.

(** [memp_malloc(MEMP_PBUF)] ([data] 0), [memp_malloc(MEMP_PBUF_POOL)] and
    [mem_malloc] of a pbuf with [data] bytes behind it; the cell comes
    initialised by [pbuf_init_alloced_pbuf], which every caller runs next. *)
Definition pbuf_init_alloced_pbuf (payload : option ptr) (tot_len len : Z) (type : pbuf_type)
    (flags : Z) : pbuf :=
  mkPbuf None payload tot_len len (u8 (type_code type)) flags 1 0.

Definition malloc (h : heap) : option (loc * heap) :=
  if malloc_fails (mallocs h) then None
  else Some (next_loc h, mkHeap (pbufs h) (bufs h) (S (next_loc h)) (S (mallocs h))
                           (pbuf_free_ooseq_pending h)).

(** The heap after a failed [malloc]. *)
Definition malloc_failed (h : heap) : heap :=
  mkHeap (pbufs h) (bufs h) (next_loc h) (S (mallocs h)) (pbuf_free_ooseq_pending h).

Definition add_pbuf (p : loc) (b : pbuf) (h : heap) : heap :=
  set_pbufs (<[p := b]> (pbufs h)) h.

Definition add_data (p : loc) (n : Z) (h : heap) : heap :=
  set_bufs (<[p := junk <$> seq 0 (Z.to_nat n)]> (bufs h)) h.

(** [PBUF_POOL_IS_EMPTY()]. *)
Definition pbuf_pool_is_empty (h : heap) : heap :=
  mkHeap (pbufs h) (bufs h) (next_loc h) (mallocs h) true.

(** Releasing the memory of a cell. *)
Definition mem_free (p : loc) (h : heap) : heap :=
  set_bufs (delete p (bufs h)) (set_pbufs (delete p (pbufs h)) h).

(** ** Reference counts *)

(** The [while] loop of [pbuf_free]; [count] is a [u8_t]. *)
Fixpoint free_loop (fuel : nat) (p : option loc) (count : Z) (h : heap) : res (Z * heap) :=
  match p with
  | None => Ok (count, h)
  | Some l =>
      match fuel with
      | O => UB
      | S fuel =>
          b ← get p h;
          _ ← lwip_assert (0 <? ref b);
          let r := u8 (ref b - 1) in
          h ← upd p (set_ref r) h;
          if r =? 0 then
            let q := next b in
            let alloc_src := pbuf_get_allocsrc b in
            h ← (if negb (Z.land (flags b) PBUF_FLAG_IS_CUSTOM =? 0)
                 then custom_free_function l h
                 else if (alloc_src =? PBUF_TYPE_ALLOC_SRC_MASK_STD_MEMP_PBUF_POOL)
                         || (alloc_src =? PBUF_TYPE_ALLOC_SRC_MASK_STD_MEMP_PBUF)
                         || (alloc_src =? PBUF_TYPE_ALLOC_SRC_MASK_STD_HEAP)
                      then Ok (mem_free l h) else Abort);
            free_loop fuel q (u8 (count + 1)) h
          else Ok (count, h)
      end
  end.

Definition pbuf_free (p : option loc) (h : heap) : res (Z * heap) :=
  match p with
  | None => Abort
  | Some _ => free_loop (fuel_of h) p 0 h
  end.

Definition pbuf_ref (p : option loc) (h : heap) : res heap :=
  match p with
  | None => Ok h
  | Some _ =>
      b ← get p h;
      let r := u8 (ref b + 1) in
      h ← upd p (set_ref r) h;
      _ ← lwip_assert (0 <? r);
      Ok h
  end.

(** ** Allocation *)

Definition pbuf_alloc_reference (pl : option ptr) (length : Z) (type : pbuf_type) (h : heap)
    : res (option loc * heap) :=
  _ ← lwip_assert (match type with PBUF_REF | PBUF_ROM => true | _ => false end);
  match malloc h with
  | None => Ok (None, malloc_failed h)
  | Some (p, h) => Ok (Some p, add_pbuf p (pbuf_init_alloced_pbuf pl length length type 0) h)
  end.

(** The [do ... while] loop of the POOL case: [p] and [last] are the head and
    the tail of the chain so far. *)
Fixpoint pool_loop (fuel : nat) (p last : option loc) (rem_len offset : Z) (h : heap)
    : res (option loc * heap) :=
  match fuel with
  | O => UB
  | S fuel =>
      match malloc h with
      | None =>
          let h := pbuf_pool_is_empty (malloc_failed h) in
          match p with
          | None => Ok (None, h)
          | Some _ => '(_, h) ← pbuf_free p h; Ok (None, h)
          end
      | Some (q, h) =>
          let qlen := Z.min rem_len (u16 (PBUF_POOL_BUFSIZE - offset)) in
          let h := add_pbuf q (pbuf_init_alloced_pbuf (Some (q, offset)) rem_len qlen PBUF_POOL 0)
                     (add_data q PBUF_POOL_BUFSIZE h) in
          _ ← lwip_assert (0 <? PBUF_POOL_BUFSIZE - offset);
          h ← (match p with None => Ok h | Some _ => upd last (set_next (Some q)) h end);
          let p := match p with None => Some q | Some _ => p end in
          let rem_len := u16 (rem_len - qlen) in
          if 0 <? rem_len then pool_loop fuel p (Some q) rem_len 0 h else Ok (p, h)
      end
  end.

Definition pbuf_alloc (layer : pbuf_layer) (length : Z) (type : pbuf_type) (h : heap)
    : res (option loc * heap) :=
  let offset := layer_offset layer in
  match type with
  | PBUF_REF | PBUF_ROM => pbuf_alloc_reference None length type h
  | PBUF_POOL => pool_loop (S (Z.to_nat length)) None None length offset h
  | PBUF_RAM =>
      let payload_len := u16 (offset + length) in
      if payload_len <? length then Ok (None, h)
      else match malloc h with
           | None => Ok (None, malloc_failed h)
           | Some (p, h) =>
               Ok (Some p, add_pbuf p (pbuf_init_alloced_pbuf (Some (p, offset)) length length
                                         PBUF_RAM 0) (add_data p payload_len h))
           end
  end.

(** [pbuf_alloced_custom] on the cell [p] of a [struct pbuf_custom]. *)
Definition pbuf_alloced_custom (l : pbuf_layer) (length : Z) (type : pbuf_type) (p : loc)
    (payload_mem : option ptr) (payload_mem_len : Z) (h : heap) : option loc * heap :=
  let offset := layer_offset l in
  if payload_mem_len <? offset + length then (None, h)
  else
    let pl := match payload_mem with Some (b, o) => Some (b, o + offset) | None => None end in
    (Some p, add_pbuf p (pbuf_init_alloced_pbuf pl length length type PBUF_FLAG_IS_CUSTOM) h).

(** ** Length and headers *)

(** The [while] loop of [pbuf_realloc]: the new last pbuf and what is left of
    [new_len] for it. *)
Fixpoint realloc_loop (fuel : nat) (q : option loc) (rem_len shrink : Z) (h : heap)
    : res (option loc * Z * heap) :=
  b ← get q h;
  if len b <? rem_len then
    match fuel with
    | O => UB
    | S fuel =>
        h ← upd q (set_tot_len (u16 (tot_len b - shrink))) h;
        _ ← lwip_assert (bool_decide (is_Some (next b)));
        realloc_loop fuel (next b) (u16 (rem_len - len b)) shrink h
    end
  else Ok (q, rem_len, h).

(** [pbuf_realloc]; [mem_trim] returns its argument ([mem.c], line 169). *)
Definition pbuf_realloc (p : option loc) (new_len : Z) (h : heap) : res heap :=
  _ ← lwip_assert (bool_decide (is_Some p));
  b ← get p h;
  if tot_len b <=? new_len then Ok h
  else
    let shrink := u16 (tot_len b - new_len) in
    '(q, rem_len, h) ← realloc_loop (fuel_of h) p new_len shrink h;
    h ← upd q (λ b, set_tot_len rem_len (set_len rem_len b)) h;
    b ← get q h;
    h ← (match next b with
         | Some _ => '(_, h) ← pbuf_free (next b) h; Ok h
         | None => Ok h
         end);
    upd q (set_next None) h.

(** [pbuf_add_header_impl]: whether it succeeded.  The boundary check compares
    addresses inside the pbuf's own memory. *)
Definition pbuf_add_header_impl (p : option loc) (incr : Z) (force : bool) (h : heap)
    : res (bool * heap) :=
  _ ← lwip_assert (bool_decide (is_Some p));
  if 0xFFFF <? incr then Ok (false, h)
  else if incr =? 0 then Ok (true, h)
  else
    b ← get p h;
    if u16 (incr + tot_len b) <? incr then Ok (false, h)
    else
      let move (pl : option ptr) :=
        h ← upd p (λ b, set_tot_len (u16 (tot_len b + incr))
                          (set_len (u16 (len b + incr)) (set_payload pl b))) h;
        Ok (true, h) in
      if negb (Z.land (type_internal b) PBUF_TYPE_FLAG_STRUCT_DATA_CONTIGUOUS =? 0) then
        match payload b with
        | None => UB
        | Some (blk, o) =>
            if bool_decide (p = Some blk)
            then if o - incr <? 0 then Ok (false, h) else move (Some (blk, o - incr))
            else UB
        end
      else if (force : bool) then
        match payload b with
        | None => UB
        | Some (blk, o) => move (Some (blk, o - incr))
        end
      else Ok (false, h).

Definition pbuf_add_header (p : option loc) (incr : Z) (h : heap) : res (bool * heap) :=
  pbuf_add_header_impl p incr false h.

Definition pbuf_add_header_force (p : option loc) (incr : Z) (h : heap) : res (bool * heap) :=
  pbuf_add_header_impl p incr true h.

(** [pbuf_remove_header]. *)
Definition pbuf_remove_header (p : option loc) (decr : Z) (h : heap) : res (bool * heap) :=
  _ ← lwip_assert (bool_decide (is_Some p));
  if 0xFFFF <? decr then Ok (false, h)
  else if decr =? 0 then Ok (true, h)
  else
    b ← get p h;
    _ ← lwip_assert (decr <=? len b);
    h ← upd p (λ b, set_tot_len (u16 (tot_len b - decr)) (set_len (u16 (len b - decr))
                (set_payload ((λ q, (q.1, q.2 + decr)) <$> payload b) b))) h;
    Ok (true, h).

(** [pbuf_header_impl] with an [s16_t] increment. *)
Definition pbuf_header_impl (p : option loc) (incr : Z) (force : bool) (h : heap)
    : res (bool * heap) :=
  if incr <? 0 then pbuf_remove_header p (- incr) h else pbuf_add_header_impl p incr force h.

Definition pbuf_header (p : option loc) (incr : Z) (h : heap) : res (bool * heap) :=
  pbuf_header_impl p incr false h.

Definition pbuf_header_force (p : option loc) (incr : Z) (h : heap) : res (bool * heap) :=
  pbuf_header_impl p incr true h.

(** [pbuf_free_header]. *)
Fixpoint free_header_loop (fuel : nat) (p : option loc) (free_left : Z) (h : heap)
    : res (option loc * heap) :=
  if free_left =? 0 then Ok (p, h)
  else match p with
       | None => Ok (None, h)
       | Some _ =>
           match fuel with
           | O => UB
           | S fuel =>
               b ← get p h;
               if len b <=? free_left then
                 h ← upd p (set_next None) h;
                 '(_, h) ← pbuf_free p h;
                 free_header_loop fuel (next b) (u16 (free_left - len b)) h
               else
                 '(_, h) ← pbuf_remove_header p free_left h;
                 Ok (p, h)
           end
       end.

Definition pbuf_free_header (q : option loc) (size : Z) (h : heap) : res (option loc * heap) :=
  free_header_loop (fuel_of h) q size h.

(** ** Chains *)

Fixpoint clen_loop (fuel : nat) (p : option loc) (n : Z) (h : heap) : res Z :=
  match p with
  | None => Ok n
  | Some _ =>
      match fuel with
      | O => UB
      | S fuel => b ← get p h; clen_loop fuel (next b) (u16 (n + 1)) h
      end
  end.

Definition pbuf_clen (p : option loc) (h : heap) : res Z := clen_loop (fuel_of h) p 0 h.

(** The [for] loop of [pbuf_cat]: the last pbuf of the head chain. *)
Fixpoint cat_loop (fuel : nat) (p t : option loc) (h : heap) : res (option loc * heap) :=
  b ← get p h;
  match next b with
  | None => Ok (p, h)
  | Some _ =>
      match fuel with
      | O => UB
      | S fuel =>
          tb ← get t h;
          h ← upd p (set_tot_len (u16 (tot_len b + tot_len tb))) h;
          cat_loop fuel (next b) t h
      end
  end.

Definition pbuf_cat (h_ t : option loc) (h : heap) : res heap :=
  _ ← lwip_assert (bool_decide (is_Some h_) && bool_decide (is_Some t));
  '(p, h) ← cat_loop (fuel_of h) h_ t h;
  b ← get p h;
  _ ← lwip_assert (tot_len b =? len b);
  tb ← get t h;
  upd p (λ b, set_next t (set_tot_len (u16 (tot_len b + tot_len tb)) b)) h.

Definition pbuf_chain (h_ t : option loc) (h : heap) : res heap :=
  h ← pbuf_cat h_ t h;
  pbuf_ref t h.

Definition pbuf_dechain (p : option loc) (h : heap) : res (option loc * heap) :=
  b ← get p h;
  let q := next b in
  '(tail_gone, h) ← (match q with
    | Some _ =>
        qb ← get q h;
        _ ← lwip_assert (tot_len qb =? tot_len b - len b);
        h ← upd q (set_tot_len (u16 (tot_len b - len b))) h;
        h ← upd p (λ b, set_tot_len (len b) (set_next None b)) h;
        pbuf_free q h
    | None => Ok (1, h)
    end);
  b ← get p h;
  _ ← lwip_assert (tot_len b =? len b);
  Ok (if 0 <? tail_gone then None else q, h).

(** ** Copying *)

(** [pbuf_copy]: the [do ... while] loop; its two ends and their offsets. *)
Fixpoint copy_loop (fuel : nat) (p_to p_from : option loc) (offset_to offset_from : Z) (h : heap)
    : res (err_t * heap) :=
  match fuel with
  | O => UB
  | S fuel =>
      tb ← get p_to h;
      fb ← get p_from h;
      let n := if len fb - offset_from <=? len tb - offset_to then len fb - offset_from
               else len tb - offset_to in
      bs ← mem_read (payload fb) offset_from n h;
      h ← mem_write (payload tb) offset_to bs h;
      let offset_to := offset_to + n in
      let offset_from := offset_from + n in
      _ ← lwip_assert (offset_to <=? len tb);
      _ ← lwip_assert (offset_from <=? len fb);
      let '(p_from, offset_from) :=
        if len fb <=? offset_from then (next fb, 0) else (p_from, offset_from) in
      let '(p_to, offset_to) :=
        if offset_to =? len tb then (next tb, 0) else (p_to, offset_to) in
      _ ← lwip_assert (bool_decide (is_Some p_to) || bool_decide (p_from = None));
      _ ← (match p_from with
           | Some _ => fb ← get p_from h;
                       lwip_assert (negb (len fb =? tot_len fb) || bool_decide (next fb = None))
           | None => Ok tt
           end);
      _ ← (match p_to with
           | Some _ => tb ← get p_to h;
                       lwip_assert (negb (len tb =? tot_len tb) || bool_decide (next tb = None))
           | None => Ok tt
           end);
      match p_from with
      | Some _ => copy_loop fuel p_to p_from offset_to offset_from h
      | None => Ok (ERR_OK, h)
      end
  end.

(** Every iteration finishes a pbuf of one of the chains. *)
Definition pbuf_copy (p_to p_from : option loc) (h : heap) : res (err_t * heap) :=
  _ ← lwip_assert (bool_decide (is_Some p_to) && bool_decide (is_Some p_from));
  tb ← get p_to h;
  fb ← get p_from h;
  _ ← lwip_assert (tot_len fb <=? tot_len tb);
  copy_loop (2 * fuel_of h) p_to p_from 0 0 h.

(** [pbuf_copy_partial]: the bytes written at [dataptr], whose number is the
    return value. *)
Fixpoint copy_partial_loop (fuel : nat) (p : option loc) (n offset : Z) (h : heap) : res (list Z) :=
  if n =? 0 then Ok []
  else match p with
       | None => Ok []
       | Some _ =>
           match fuel with
           | O => UB
           | S fuel =>
               b ← get p h;
               if negb (offset =? 0) && (len b <=? offset)
               then copy_partial_loop fuel (next b) n (u16 (offset - len b)) h
               else
                 let buf_copy_len := u16 (len b - offset) in
                 let buf_copy_len := if n <? buf_copy_len then n else buf_copy_len in
                 bs ← mem_read (payload b) offset buf_copy_len h;
                 rest ← copy_partial_loop fuel (next b) (u16 (n - buf_copy_len)) 0 h;
                 Ok (bs ++ rest)
           end
       end.

Definition pbuf_copy_partial (buf : option loc) (n offset : Z) (h : heap) : res (list Z) :=
  _ ← lwip_assert (bool_decide (is_Some buf));
  copy_partial_loop (fuel_of h) buf n offset h.

(** [pbuf_skip_const]: the pbuf that holds byte [in_offset], and the offset in
    it. *)
Fixpoint skip_loop (fuel : nat) (q : option loc) (offset_left : Z) (h : heap)
    : res (option loc * Z) :=
  match q with
  | None => Ok (None, offset_left)
  | Some _ =>
      match fuel with
      | O => UB
      | S fuel =>
          b ← get q h;
          if len b <=? offset_left then skip_loop fuel (next b) (u16 (offset_left - len b)) h
          else Ok (q, offset_left)
      end
  end.

Definition pbuf_skip (p : option loc) (in_offset : Z) (h : heap) : res (option loc * Z) :=
  skip_loop (fuel_of h) p in_offset h.

(** [pbuf_get_contiguous]: a pointer into the chain, a copy in the caller's
    buffer, or nothing. *)
Inductive contiguous := InPlace (q : option ptr) (off : Z) | Copied (bs : list Z) | TooShort.

Definition pbuf_get_contiguous (p : option loc) (bufsize n offset : Z) (h : heap)
    : res contiguous :=
  _ ← lwip_assert (bool_decide (is_Some p));
  _ ← lwip_assert (n <=? bufsize);
  '(q, out_offset) ← pbuf_skip p offset h;
  match q with
  | Some _ =>
      b ← get q h;
      if out_offset + n <=? len b then Ok (InPlace (payload b) out_offset)
      else
        bs ← pbuf_copy_partial q n out_offset h;
        Ok (if u16 (Z.of_nat (length bs)) =? n then Copied bs else TooShort)
  | None => Ok TooShort
  end.

(** [pbuf_take]: the [for] loop, on what is left of the data. *)
Fixpoint take_loop (fuel : nat) (p : option loc) (data : list Z) (h : heap) : res heap :=
  match data with
  | [] => Ok h
  | _ =>
      match fuel with
      | O => UB
      | S fuel =>
          _ ← lwip_assert (bool_decide (is_Some p));
          b ← get p h;
          let n := Z.min (Z.of_nat (length data)) (len b) in
          h ← mem_write (payload b) 0 (take (Z.to_nat n) data) h;
          take_loop fuel (next b) (drop (Z.to_nat n) data) h
      end
  end.

Definition pbuf_take (buf : option loc) (data : list Z) (h : heap) : res (err_t * heap) :=
  _ ← lwip_assert (bool_decide (is_Some buf));
  b ← get buf h;
  _ ← lwip_assert (Z.of_nat (length data) <=? tot_len b);
  h ← take_loop (fuel_of h) buf data h;
  Ok (ERR_OK, h).

Definition pbuf_take_at (buf : option loc) (data : list Z) (offset : Z) (h : heap)
    : res (err_t * heap) :=
  '(q, target_offset) ← pbuf_skip buf offset h;
  match q with
  | None => Ok (ERR_MEM, h)
  | Some _ =>
      b ← get q h;
      if target_offset + Z.of_nat (length data) <=? tot_len b then
        _ ← lwip_assert (target_offset <? len b);
        let first_copy_len := u16 (Z.min (len b - target_offset) (Z.of_nat (length data))) in
        h ← mem_write (payload b) target_offset (take (Z.to_nat first_copy_len) data) h;
        let remaining := drop (Z.to_nat first_copy_len) data in
        match remaining with
        | [] => Ok (ERR_OK, h)
        | _ => pbuf_take (next b) remaining h
        end
      else Ok (ERR_MEM, h)
  end.

(** ** Whole-packet copies *)

Definition pbuf_clone (layer : pbuf_layer) (type : pbuf_type) (p : option loc) (h : heap)
    : res (option loc * heap) :=
  b ← get p h;
  '(q, h) ← pbuf_alloc layer (tot_len b) type h;
  match q with
  | None => Ok (None, h)
  | Some _ =>
      '(err, h) ← pbuf_copy q p h;
      _ ← lwip_assert (match err with ERR_OK => true | _ => false end);
      Ok (q, h)
  end.

Definition pbuf_coalesce (p : option loc) (layer : pbuf_layer) (h : heap) : res (option loc * heap) :=
  b ← get p h;
  match next b with
  | None => Ok (p, h)
  | Some _ =>
      '(q, h) ← pbuf_clone layer PBUF_RAM p h;
      match q with
      | None => Ok (p, h)
      | Some _ => '(_, h) ← pbuf_free p h; Ok (q, h)
      end
  end.

(** [pbuf_split_64k]: the walk over the first part, its last pbuf and the rest. *)
Fixpoint split_loop (fuel : nat) (i r : option loc) (front : Z) (h : heap)
    : res (option loc * option loc) :=
  match r with
  | None => Ok (i, None)
  | Some _ =>
      match fuel with
      | O => UB
      | S fuel =>
          b ← get r h;
          let front' := u16 (front + len b) in
          if front <=? front' then split_loop fuel r (next b) front' h else Ok (i, r)
      end
  end.

Fixpoint split_tot_loop (fuel : nat) (i r : option loc) (h : heap) : res heap :=
  match i with
  | None => Ok h
  | Some _ =>
      match fuel with
      | O => UB
      | S fuel =>
          b ← get i h;
          rb ← get r h;
          let t := u16 (tot_len b - tot_len rb) in
          h ← upd i (set_tot_len t) h;
          _ ← lwip_assert (bool_decide (is_Some (next b)) || (t =? len b));
          split_tot_loop fuel (next b) r h
      end
  end.

Definition pbuf_split_64k (p : option loc) (h : heap) : res (option loc * heap) :=
  match p with
  | None => Ok (None, h)
  | Some _ =>
      b ← get p h;
      match next b with
      | None => Ok (None, h)
      | Some _ =>
          '(i, r) ← split_loop (fuel_of h) p (next b) (len b) h;
          h ← upd i (set_next None) h;
          match r with
          | None => Ok (None, h)
          | Some _ =>
              h ← split_tot_loop (fuel_of h) p r h;
              b ← get p h;
              h ← (if negb (Z.land (flags b) PBUF_FLAG_TCP_FIN =? 0)
                   then upd r (λ b, set_flags (Z.lor (flags b) PBUF_FLAG_TCP_FIN) b) h else Ok h);
              Ok (r, h)
          end
      end
  end.

(** ** Bytes *)

Definition pbuf_try_get_at (p : option loc) (offset : Z) (h : heap) : res Z :=
  '(q, q_idx) ← pbuf_skip p offset h;
  match q with
  | None => Ok (-1)
  | Some _ =>
      b ← get q h;
      if q_idx <? len b then
        bs ← mem_read (payload b) q_idx 1 h;
        match bs with [x] => Ok x | _ => UB end
      else Ok (-1)
  end.

Definition pbuf_get_at (p : option loc) (offset : Z) (h : heap) : res Z :=
  r ← pbuf_try_get_at p offset h;
  Ok (if 0 <=? r then u8 r else 0).

Definition pbuf_put_at (p : option loc) (offset data : Z) (h : heap) : res heap :=
  '(q, q_idx) ← pbuf_skip p offset h;
  match q with
  | None => Ok h
  | Some _ =>
      b ← get q h;
      if q_idx <? len b then mem_write (payload b) q_idx [data] h else Ok h
  end.

(** [pbuf_memcmp]: the loop from index [i] on, over the rest of [s2]. *)
Fixpoint memcmp_loop (q : option loc) (start i : Z) (s2 : list Z) (h : heap) : res Z :=
  match s2 with
  | [] => Ok 0
  | b :: s2 =>
      a ← pbuf_get_at q (u16 (start + i)) h;
      if a =? b then memcmp_loop q start (i + 1) s2 h
      else Ok (u16 (Z.min (i + 1) 0xFFFF))
  end.

Definition pbuf_memcmp (p : option loc) (offset : Z) (s2 : list Z) (h : heap) : res Z :=
  b ← get p h;
  if tot_len b <? offset + Z.of_nat (length s2) then Ok 0xFFFF
  else
    '(q, start) ← skip_loop (fuel_of h) p offset h;
    memcmp_loop q start 0 s2 h.

(** [pbuf_memfind]: the positions left to try. *)
Fixpoint memfind_loop (n : nat) (p : option loc) (i max_cmp_start : Z) (mem : list Z) (h : heap)
    : res Z :=
  match n with
  | O => UB
  | S n =>
      if i <=? max_cmp_start then
        plus ← pbuf_memcmp p i mem h;
        if plus =? 0 then Ok i else memfind_loop n p (u16 (i + 1)) max_cmp_start mem h
      else Ok 0xFFFF
  end.

Definition pbuf_memfind (p : option loc) (mem : list Z) (start_offset : Z) (h : heap) : res Z :=
  b ← get p h;
  let max_cmp_start := u16 (tot_len b - Z.of_nat (length mem)) in
  if Z.of_nat (length mem) + start_offset <=? tot_len b
  then memfind_loop (S (Z.to_nat (max_cmp_start - start_offset + 1))) p start_offset
         max_cmp_start mem h
  else Ok 0xFFFF.

(** [pbuf_strstr]; [substr] is the string up to its terminator. *)
Definition pbuf_strstr (p : option loc) (substr : option (list Z)) (h : heap) : res Z :=
  match substr with
  | None | Some [] => Ok 0xFFFF
  | Some s =>
      b ← get p h;
      if (tot_len b =? 0xFFFF) || (0xFFFF <=? Z.of_nat (length s)) then Ok 0xFFFF
      else pbuf_memfind p s 0 h
  end.

End Pbuf.
