(* ===== verification/PbufProps.v ===== *)
(** * Properties of packet buffers

    A packet is a chain of live pbufs whose payloads lie inside their buffers
    and whose [tot_len] fields add up; its content is the concatenation of the
    payloads.  Each operation of [pbuf.c] is specified by what it does to the
    packet and to its content. *)
From S2P Require Import Prelude Pbuf.

Ltac mstep := cbn [lwip_assert mbind res_bind andb orb negb].

(** ** Packets *)

(** The pbufs met from [p] on. *)
Inductive chain (h : heap) : option loc → list (loc * pbuf) → Prop :=
| chain_nil : chain h None []
| chain_cons p b xs :
    pbufs h !! p = Some b → chain h (next b) xs → chain h (Some p) ((p, b) :: xs).

Definition locs (xs : list (loc * pbuf)) : list loc := xs.*1.

Definition sum_len (xs : list (loc * pbuf)) : Z := foldr (λ x a, len x.2 + a) 0 xs.

(** "For non-queue packet chains this is the invariant: [p->tot_len == p->len +
    (p->next ? p->next->tot_len : 0)]" ([pbuf.h]). *)
Fixpoint tots (xs : list (loc * pbuf)) : Prop :=
  match xs with
  | [] => True
  | x :: xs => tot_len x.2 = len x.2 + sum_len xs ∧ tots xs
  end.

(** The payload lies inside its buffer. *)
Definition wf_pbuf (h : heap) (b : pbuf) : Prop :=
  0 ≤ len b ∧
  ∃ blk o buf, payload b = Some (blk, o) ∧ bufs h !! blk = Some buf ∧
    0 ≤ o ∧ o + len b ≤ Z.of_nat (length buf).

Record packet (h : heap) (p : option loc) (xs : list (loc * pbuf)) : Prop := mkPacket {
  pk_chain : chain h p xs;
  pk_nodup : NoDup (locs xs);
  pk_wf : Forall (λ x, wf_pbuf h x.2) xs;
  pk_tots : tots xs;
  pk_len : sum_len xs < 2 ^ 16;
}.

(** ** Content *)
Definition pbuf_bytes (h : heap) (b : pbuf) : list Z :=
  match payload b with
  | Some (blk, o) => slice o (len b) (default [] (bufs h !! blk))
  | None => []
  end.

Definition content (h : heap) (xs : list (loc * pbuf)) : list Z :=
  concat ((λ x, pbuf_bytes h x.2) <$> xs).

Lemma content_cons h x xs : content h (x :: xs) = pbuf_bytes h x.2 ++ content h xs.
Proof. done. Qed.

Lemma content_app h xs ys : content h (xs ++ ys) = content h xs ++ content h ys.
Proof. unfold content. by rewrite fmap_app, concat_app. Qed.

Lemma sum_len_app xs ys : sum_len (xs ++ ys) = sum_len xs + sum_len ys.
Proof. unfold sum_len. induction xs; simpl in *; lia. Qed.

Lemma slice_length o n buf :
  0 ≤ o → 0 ≤ n → o + n ≤ Z.of_nat (length buf) → Z.of_nat (length (slice o n buf)) = n.
Proof. intros. unfold slice. rewrite length_take, length_drop. lia. Qed.

Lemma pbuf_bytes_length h b : wf_pbuf h b → Z.of_nat (length (pbuf_bytes h b)) = len b.
Proof.
  intros (Hl & blk & o & buf & Hp & Hb & Ho & Hr). unfold pbuf_bytes. rewrite Hp, Hb.
  by apply slice_length.
Qed.

Lemma sum_len_nonneg h xs : Forall (λ x, wf_pbuf h x.2) xs → 0 ≤ sum_len xs.
Proof. induction 1 as [|x xs [Hx _] Hxs IH]; simpl; lia. Qed.

Lemma content_length h xs :
  Forall (λ x, wf_pbuf h x.2) xs → Z.of_nat (length (content h xs)) = sum_len xs.
Proof.
  induction 1 as [|x xs Hx Hxs IH]; simpl; [done|].
  rewrite content_cons, length_app, Nat2Z.inj_add, IH, pbuf_bytes_length by done. done.
Qed.

Lemma slice_slice o n o' n' buf :
  0 ≤ o → 0 ≤ o' → 0 ≤ n' → o' + n' ≤ n → slice o' n' (slice o n buf) = slice (o + o') n' buf.
Proof.
  intros. unfold slice. rewrite skipn_firstn_comm, take_take, drop_drop.
  f_equal; [lia|]. f_equal. lia.
Qed.

(** Reading the payload. *)
Lemma mem_read_bytes h b off n :
  wf_pbuf h b → 0 ≤ off → 0 ≤ n → off + n ≤ len b →
  mem_read (payload b) off n h = Ok (slice off n (pbuf_bytes h b)).
Proof.
  intros (Hl & blk & o & buf & Hp & Hb & Ho & Hr) H1 H2 H3.
  unfold mem_read, pbuf_bytes. rewrite Hp, Hb. simpl.
  destruct (Z.eqb_spec n 0) as [->|Hn].
  { done. }
  unfold in_range. rewrite (proj2 (Z.leb_le 0 (o + off))), (proj2 (Z.leb_le 0 n)),
    (proj2 (Z.leb_le (o + off + n) _)) by lia. simpl.
  by rewrite slice_slice by lia.
Qed.

Lemma chain_app_inv h p xs ys :
  chain h p (xs ++ ys) → ∃ q, chain h q ys.
Proof.
  revert p. induction xs as [|x xs IH]; simpl; intros p H; [eauto|].
  inversion H; subst. eauto.
Qed.

Lemma chain_lookup h p xs x : chain h p xs → x ∈ xs → pbufs h !! x.1 = Some x.2.
Proof.
  induction 1 as [|p b xs Hp Hc IH]; intros Hx; [by apply elem_of_nil in Hx|].
  apply elem_of_cons in Hx as [->|Hx]; auto.
Qed.

(** A chain is no longer than the heap. *)
Lemma chain_size h p xs : chain h p xs → NoDup (locs xs) → (length xs ≤ size (pbufs h))%nat.
Proof.
  intros Hc Hn. rewrite <- (length_fmap fst xs), <- size_dom.
  rewrite <- (size_list_to_set (C := gset loc)) by done.
  apply subseteq_size. intros l Hl. apply elem_of_list_to_set in Hl.
  apply list_elem_of_fmap in Hl as ([l' b] & -> & Hx).
  apply elem_of_dom. exists b. by eapply (chain_lookup h p xs (l', b)).
Qed.

Lemma packet_fuel h p xs : packet h p xs → (length xs ≤ fuel_of h)%nat.
Proof. intros [Hc Hn _ _ _]. unfold fuel_of. pose proof (chain_size h p xs Hc Hn). lia. Qed.

Lemma get_some p b h : pbufs h !! p = Some b → get (Some p) h = Ok b.
Proof. unfold get. by intros ->. Qed.


(** The facts every walk over a packet needs, at its first pbuf. *)
Lemma packet_cons_inv h p x xs :
  packet h p (x :: xs) →
  p = Some x.1 ∧ get p h = Ok x.2 ∧ wf_pbuf h x.2 ∧ 0 ≤ len x.2 ∧ 0 ≤ sum_len xs ∧
  len x.2 + sum_len xs < 2 ^ 16 ∧ tot_len x.2 = len x.2 + sum_len xs ∧
  packet h (next x.2) xs.
Proof.
  intros [Hc Hn Hw Ht Hl]. inversion Hc as [|p' b xs' Hp Hc']; subst; simpl in *.
  apply NoDup_cons in Hn as [Hx Hn]. apply Forall_cons in Hw as [Hw1 Hw].
  pose proof (sum_len_nonneg h xs Hw). destruct Hw1 as [Hl0 Hw1]. destruct Ht as [Ht1 Ht].
  split_and!; try done; [by apply get_some|]. split; auto. simpl in Hl0. lia.
Qed.

Ltac at_head H :=
  let E := fresh "Ep" in
  apply packet_cons_inv in H as (E & Hget & Hwf & Hlen & Hsum & Hmax & Htot & H);
  try rewrite E in *; clear E.

(** ** Reading *)

Lemma drop_past {A} (n : nat) (l k : list A) :
  (length l ≤ n)%nat → drop n (l ++ k) = drop (n - length l) k.
Proof. intros. by rewrite drop_app_ge by done. Qed.

Lemma copy_partial_loop_spec h xs fuel p n off :
  packet h p xs → (length xs ≤ fuel)%nat → 0 ≤ n < 2 ^ 16 → 0 ≤ off < 2 ^ 16 →
  copy_partial_loop fuel p n off h = Ok (slice off n (content h xs)).
Proof.
  revert fuel p n off. induction xs as [|x xs IH]; intros fuel p n off Hp Hf Hn Ho.
  { destruct Hp as [Hc _ _ _ _]. inversion Hc; subst. unfold slice, content. simpl.
    rewrite drop_nil, take_nil. destruct fuel; simpl; by destruct (n =? 0). }
  at_head Hp. simpl in Hf. destruct fuel as [|fuel]; [lia|]. cbn [copy_partial_loop].
  destruct (Z.eqb_spec n 0) as [->|Hn0]; [done|]. rewrite Hget. mstep.
  rewrite content_cons. pose proof (pbuf_bytes_length h x.2 Hwf) as HB.
  set (B := pbuf_bytes h x.2) in *. set (R := content h xs) in *.
  destruct (negb (off =? 0) && (len x.2 <=? off)) eqn:E.
  - apply andb_prop in E as [_ E%Z.leb_le]. rewrite u16_id by lia.
    rewrite IH by (done || lia). f_equal. unfold slice.
    rewrite drop_past by lia. f_equal. f_equal. lia.
  - assert (off ≤ len x.2) as Hol.
    { apply andb_false_iff in E as [E|E]; [apply negb_false_iff, Z.eqb_eq in E; lia|].
      apply Z.leb_gt in E. lia. }
    rewrite (u16_id (len x.2 - off)) by lia.
    set (k := if n <? len x.2 - off then n else len x.2 - off).
    assert (k = Z.min n (len x.2 - off)) as Hk.
    { unfold k. destruct (Z.ltb_spec n (len x.2 - off)); lia. }
    rewrite mem_read_bytes by (done || lia). mstep.
    rewrite (u16_id (n - k)) by lia. rewrite IH by (done || lia). mstep.
    f_equal. fold B. unfold slice. rewrite drop_app_le by lia. rewrite take_app, length_drop.
    f_equal; [|f_equal; lia].
    destruct (Z.min_spec n (len x.2 - off)) as [[? Hm]|[? Hm]]; rewrite Hm in Hk; [by rewrite Hk|].
    rewrite !take_ge; [done| |]; rewrite ?length_drop; lia.
Qed.

(** [pbuf_copy_partial] copies exactly the bytes [offset .. offset +
    len) of the packet's content (what is there of them), wherever the pbuf
    boundaries fall. *)
Theorem pbuf_copy_partial_spec h p xs n off :
  packet h p xs → p ≠ None → 0 ≤ n < 2 ^ 16 → 0 ≤ off < 2 ^ 16 →
  pbuf_copy_partial p n off h = Ok (slice off n (content h xs)).
Proof.
  intros Hp Hne Hn Ho. unfold pbuf_copy_partial.
  rewrite bool_decide_eq_true_2 by (by destruct p; eauto). mstep.
  apply copy_partial_loop_spec; auto. by eapply packet_fuel.
Qed.

Lemma skip_loop_spec h xs fuel p off :
  packet h p xs → (length xs ≤ fuel)%nat → 0 ≤ off < 2 ^ 16 →
  ∃ ys zs q off', skip_loop fuel p off h = Ok (q, off') ∧ xs = ys ++ zs ∧
    packet h q zs ∧ off = sum_len ys + off' ∧ 0 ≤ off' ∧
    match zs with [] => q = None | z :: _ => off' < len z.2 end.
Proof.
  revert fuel p off. induction xs as [|x xs IH]; intros fuel p off Hp Hf Ho.
  { pose proof Hp as [Hc _ _ _ _]. inversion Hc; subst.
    exists [], [], None, off. destruct fuel; simpl; split_and!; done || lia. }
  pose proof Hp as Hp0. at_head Hp. simpl in Hf. destruct fuel as [|fuel]; [lia|].
  cbn [skip_loop]. rewrite Hget. mstep.
  destruct (Z.leb_spec (len x.2) off) as [Hle|Hlt].
  - rewrite u16_id by lia.
    destruct (IH fuel (next x.2) (off - len x.2)) as (ys & zs & q & off' & -> & -> & ? & ? & ? & ?);
      [done | lia | lia|].
    exists (x :: ys), zs, q, off'. split_and!; try done. simpl. lia.
  - exists [], (x :: xs), (Some x.1), off. split_and!; try done; simpl; lia.
Qed.

Lemma pbuf_skip_spec h xs p off :
  packet h p xs → 0 ≤ off < 2 ^ 16 →
  ∃ ys zs q off', pbuf_skip p off h = Ok (q, off') ∧ xs = ys ++ zs ∧
    packet h q zs ∧ off = sum_len ys + off' ∧ 0 ≤ off' ∧
    match zs with [] => q = None | z :: _ => off' < len z.2 end.
Proof. intros Hp Ho. apply skip_loop_spec; auto. by eapply packet_fuel. Qed.

Lemma slice_one off (l : list Z) x :
  0 ≤ off → l !! Z.to_nat off = Some x → slice off 1 l = [x].
Proof.
  intros Ho Hx. unfold slice. apply (drop_S l x) in Hx. by rewrite Hx.
Qed.

Lemma wf_app_l h xs ys :
  Forall (λ x : loc * pbuf, wf_pbuf h x.2) (xs ++ ys) → Forall (λ x, wf_pbuf h x.2) xs.
Proof. intros H. by apply Forall_app in H as [? _]. Qed.

Lemma pbuf_try_get_at_spec h p xs off :
  packet h p xs → 0 ≤ off < 2 ^ 16 →
  pbuf_try_get_at p off h = Ok (default (-1) (content h xs !! Z.to_nat off)).
Proof.
  intros Hp Ho. unfold pbuf_try_get_at.
  destruct (pbuf_skip_spec h xs p off Hp Ho) as (ys & zs & q & off' & -> & -> & Hq & Hoff & Ho' & Hz).
  mstep. pose proof (wf_app_l _ _ _ (pk_wf _ _ _ Hp)) as Hys.
  pose proof (content_length h ys Hys) as Hly.
  rewrite content_app. destruct zs as [|z zs].
  - subst q. rewrite app_nil_r, lookup_ge_None_2 by lia. done.
  - at_head Hq. rewrite Hget. mstep.
    rewrite (proj2 (Z.ltb_lt off' (len z.2)) Hz), mem_read_bytes by (done || lia).
    mstep. pose proof (pbuf_bytes_length h z.2 Hwf) as HB.
    rewrite lookup_app_r by lia. rewrite content_cons, lookup_app_l by lia.
    replace (Z.to_nat off - length (content h ys))%nat with (Z.to_nat off') by lia.
    destruct (lookup_lt_is_Some_2 (pbuf_bytes h z.2) (Z.to_nat off')) as [v Hv]; [lia|].
    by rewrite (slice_one off' _ v) by done; rewrite Hv.
Qed.

Definition is_byte (x : Z) : Prop := 0 ≤ x < 2 ^ 8.

Lemma pbuf_get_at_spec h p xs off :
  packet h p xs → Forall is_byte (content h xs) → 0 ≤ off < 2 ^ 16 →
  pbuf_get_at p off h = Ok (default 0 (content h xs !! Z.to_nat off)).
Proof.
  intros Hp Hb Ho. unfold pbuf_get_at. rewrite (pbuf_try_get_at_spec h p xs) by done. mstep.
  destruct (content h xs !! Z.to_nat off) as [v|] eqn:Hv; [|done]. simpl.
  rewrite Forall_lookup in Hb. apply Hb in Hv as Hr. unfold is_byte in Hr.
  rewrite (proj2 (Z.leb_le 0 v)), u8_id by lia. done.
Qed.

(** The first position at which [ys] disagrees with [xs]. *)
Fixpoint first_diff (xs ys : list Z) {struct ys} : option Z :=
  match ys with
  | [] => None
  | y :: ys =>
      match xs with
      | [] => Some 0
      | x :: xs => if x =? y then Z.succ <$> first_diff xs ys else Some 0
      end
  end.

Lemma first_diff_None xs ys : first_diff xs ys = None ↔ take (length ys) xs = ys.
Proof.
  revert xs. induction ys as [|y ys IH]; intros xs; [by destruct xs|].
  destruct xs as [|x xs]; [done|]. simpl.
  destruct (Z.eqb_spec x y) as [->|Hne]; [|naive_solver].
  rewrite fmap_None, IH. split; [intros ->; done | intros Heq; by injection Heq].
Qed.

Lemma first_diff_Some xs ys k :
  first_diff xs ys = Some k →
  0 ≤ k < Z.of_nat (length ys) ∧ take (Z.to_nat k) xs = take (Z.to_nat k) ys ∧
  xs !! Z.to_nat k ≠ ys !! Z.to_nat k.
Proof.
  revert xs k. induction ys as [|y ys IH]; intros xs k; [done|].
  destruct xs as [|x xs]; simpl; [intros [= <-]; simpl; split_and!; done || lia|].
  destruct (Z.eqb_spec x y) as [->|Hne].
  - destruct (first_diff xs ys) as [k'|] eqn:E; [|done]. intros [= <-].
    destruct (IH xs k' E) as (? & Ht & Hd).
    replace (Z.to_nat (Z.succ k')) with (S (Z.to_nat k')) by lia. simpl.
    split_and!; [lia|lia| by f_equal | done].
  - intros [= <-]. simpl. split_and!; try done; try lia. congruence.
Qed.

Lemma memcmp_loop_spec h q zs start s2 i :
  packet h q zs → Forall is_byte (content h zs) → 0 ≤ start → 0 ≤ i →
  start + i + Z.of_nat (length s2) ≤ sum_len zs →
  memcmp_loop q start i s2 h =
    Ok (match first_diff (drop (Z.to_nat (start + i)) (content h zs)) s2 with
        | None => 0 | Some k => i + k + 1 end).
Proof.
  intros Hq Hb Hs. pose proof (pk_len _ _ _ Hq) as Hmax.
  pose proof (content_length h zs (pk_wf _ _ _ Hq)) as Hcl.
  revert i. induction s2 as [|b s2 IH]; intros i Hi Hle; [done|].
  cbn [memcmp_loop]. simpl length in Hle. rewrite (u16_id (start + i)) by lia.
  rewrite (pbuf_get_at_spec h q zs); [mstep|exact Hq|exact Hb|lia].
  destruct (lookup_lt_is_Some_2 (content h zs) (Z.to_nat (start + i))) as [v Hv]; [lia|].
  rewrite Hv, (drop_S _ v) by done. cbn [default first_diff].
  destruct (Z.eqb_spec v b) as [->|Hne].
  - rewrite IH by lia. replace (S (Z.to_nat (start + i))) with (Z.to_nat (start + (i + 1))) by lia.
    unfold id. rewrite Z.eqb_refl.
    destruct (first_diff _ s2); simpl; f_equal; lia.
  - unfold id. rewrite (proj2 (Z.eqb_neq v b)) by done. rewrite u16_id by lia. f_equal. lia.
Qed.

Lemma pbuf_memcmp_value h p xs off s2 :
  packet h p xs → p ≠ None → Forall is_byte (content h xs) → 0 ≤ off < 2 ^ 16 →
  pbuf_memcmp p off s2 h =
    Ok (if off + Z.of_nat (length s2) <=? sum_len xs then
          match first_diff (drop (Z.to_nat off) (content h xs)) s2 with
          | None => 0 | Some k => k + 1 end
        else 0xFFFF).
Proof.
  intros Hp Hne Hb Ho. unfold pbuf_memcmp.
  destruct xs as [|x xs]; [destruct Hp as [Hc _ _ _ _]; by inversion Hc; subst|].
  pose proof Hp as Hp0. at_head Hp. rewrite Hget. mstep. rewrite Htot. cbn [sum_len foldr].
  change (foldr (λ x a, len x.2 + a) 0 xs) with (sum_len xs).
  rewrite Z.leb_antisym. destruct (Z.ltb_spec (len x.2 + sum_len xs) (off + Z.of_nat (length s2)));
    [done|]. cbn [negb].
  destruct (skip_loop_spec h (x :: xs) (fuel_of h) (Some x.1) off)
    as (ys & zs & q & off' & -> & Heq & Hq & Hoff & Ho' & Hz); [done|by eapply packet_fuel|done|].
  mstep. rewrite Heq in *.
  pose proof (content_length h ys (wf_app_l _ _ _ (pk_wf _ _ _ Hp0))) as Hly.
  assert (Hsum' : sum_len (ys ++ zs) = len x.2 + sum_len xs) by (by rewrite <- Heq).
  rewrite sum_len_app in Hsum'. rewrite content_app in *. apply Forall_app in Hb as [_ Hb].
  rewrite (memcmp_loop_spec h q zs) by (done || lia).
  rewrite drop_app_ge by lia. rewrite Z.add_0_r.
  replace (Z.to_nat off - length (content h ys))%nat with (Z.to_nat off') by lia.
  destruct (first_diff _ _); f_equal; lia.
Qed.

(** [mem] occurs at position [i] of [c]. *)
Definition occurs_at (c mem : list Z) (i : Z) : Prop := slice i (Z.of_nat (length mem)) c = mem.

Lemma pbuf_memcmp_zero h p xs off s2 :
  packet h p xs → p ≠ None → Forall is_byte (content h xs) → 0 ≤ off < 2 ^ 16 →
  off + Z.of_nat (length s2) ≤ sum_len xs →
  ∃ r, pbuf_memcmp p off s2 h = Ok r ∧ (r = 0 ↔ occurs_at (content h xs) s2 off).
Proof.
  intros Hp Hne Hb Ho Hle. rewrite (pbuf_memcmp_value h p xs) by done.
  rewrite (proj2 (Z.leb_le _ _) Hle). eexists. split; [reflexivity|].
  unfold occurs_at, slice. rewrite Nat2Z.id, <- first_diff_None.
  destruct (first_diff _ _) as [k|] eqn:E; [|done].
  apply first_diff_Some in E as (? & _). split; [lia | done].
Qed.

Lemma memfind_loop_spec h p xs mem max n i :
  packet h p xs → p ≠ None → Forall is_byte (content h xs) →
  max + Z.of_nat (length mem) ≤ sum_len xs → max < 0xFFFF →
  0 ≤ i ≤ max + 1 → max - i + 1 < Z.of_nat n →
  okP (memfind_loop n p i max mem h) (λ r,
    (r = 0xFFFF ∧ ∀ j, i ≤ j ≤ max → ¬ occurs_at (content h xs) mem j) ∨
    (i ≤ r ≤ max ∧ occurs_at (content h xs) mem r ∧
     ∀ j, i ≤ j < r → ¬ occurs_at (content h xs) mem j)).
Proof.
  intros Hp Hne Hb Hm Hmax. revert i. induction n as [|n IH]; intros i Hi Hn.
  - lia.
  - cbn [memfind_loop]. destruct (Z.leb_spec i max) as [Hle|Hgt].
    + destruct (pbuf_memcmp_zero h p xs i mem) as (r & -> & Hr); [done..|lia|lia|]. mstep.
      destruct (Z.eqb_spec r 0) as [H0|H0].
      * apply okP_ret. right. split_and!; [lia|lia|by apply Hr|lia].
      * rewrite u16_id by lia. eapply okP_mono; [apply IH; lia|].
        assert (Hnot : ¬ occurs_at (content h xs) mem i) by (rewrite <- Hr; done).
        intros r' [[-> Hall]|(Hr' & Hocc & Hall)]; [left|right]; split_and!; try done; try lia.
        all: intros j Hj; destruct (Z.eq_dec j i) as [->|]; [done | apply Hall; lia].
    + apply okP_ret. left. split; [done|]. lia.
Qed.

(**  [pbuf_memfind] finds the first occurrence: it returns the
    smallest position from [start_offset] on at which the whole of [mem] stands
    in the packet's content, or 0xFFFF if there is none. *)
Theorem pbuf_memfind_spec h p xs mem start :
  packet h p xs → p ≠ None → Forall is_byte (content h xs) → sum_len xs < 0xFFFF →
  0 ≤ start →
  okP (pbuf_memfind p mem start h) (λ r,
    (r = 0xFFFF ∧ ∀ j, start ≤ j → j + Z.of_nat (length mem) ≤ sum_len xs →
       ¬ occurs_at (content h xs) mem j) ∨
    (start ≤ r ∧ r + Z.of_nat (length mem) ≤ sum_len xs ∧ occurs_at (content h xs) mem r ∧
     ∀ j, start ≤ j < r → ¬ occurs_at (content h xs) mem j)).
Proof.
  intros Hp Hne Hb Hm Hs. unfold pbuf_memfind.
  destruct xs as [|x xs]; [destruct Hp as [Hc _ _ _ _]; by inversion Hc; subst|].
  pose proof Hp as Hp0. at_head Hp. rewrite Hget. mstep. rewrite Htot.
  change (len x.2 + sum_len xs) with (sum_len (x :: xs)) in *.
  set (n := Z.of_nat (length mem)) in *.
  destruct (Z.leb_spec (n + start) (sum_len (x :: xs))) as [Hle|Hgt].
  - rewrite u16_id by lia. eapply okP_mono; [apply (memfind_loop_spec h _ (x :: xs)); try done; lia|].
    intros r [[-> Hall]|(Hr & Hocc & Hall)]; [left|right]; split_and!; try done; try lia.
    intros j ??. apply Hall. lia.
  - apply okP_ret. left. split; [done|]. lia.
Qed.

(** ** Writing *)

(** The buffer a pbuf's payload lies in. *)
Definition block (b : pbuf) : option loc := fst <$> payload b.

Definition blocks (xs : list (loc * pbuf)) : list (option loc) := (λ x, block x.2) <$> xs.

(** Same pbufs, buffers of the same sizes, changed at most in [bs]. *)
Record writes (bs : list (option loc)) (h h' : heap) : Prop := mkWrites {
  wr_pbufs : pbufs h' = pbufs h;
  wr_sizes c : length <$> bufs h' !! c = length <$> bufs h !! c;
  wr_frame c : Some c ∉ bs → bufs h' !! c = bufs h !! c;
}.

Lemma writes_refl bs h : writes bs h h.
Proof. by split. Qed.

Lemma writes_trans bs h1 h2 h3 : writes bs h1 h2 → writes bs h2 h3 → writes bs h1 h3.
Proof.
  intros [P1 S1 F1] [P2 S2 F2]. split; [congruence| |].
  - intros c. by rewrite S2, S1.
  - intros c Hc. by rewrite F2, F1.
Qed.

Lemma writes_mono bs bs' h h' : bs ⊆ bs' → writes bs h h' → writes bs' h h'.
Proof. intros Hs [P S F]. split; [done|done|]. intros c Hc. apply F. set_solver. Qed.

Lemma writes_wf bs h h' b : writes bs h h' → wf_pbuf h b → wf_pbuf h' b.
Proof.
  intros [_ S _] (Hl & blk & o & buf & Hp & Hb & Ho & Hr). split; [done|].
  specialize (S blk). rewrite Hb in S. simpl in S.
  destruct (bufs h' !! blk) as [buf'|] eqn:Hb'; [|done]. injection S as S.
  exists blk, o, buf'. split_and!; try done. lia.
Qed.

Lemma chain_pbufs h h' p xs : pbufs h' = pbufs h → chain h p xs → chain h' p xs.
Proof. intros Heq. induction 1; constructor; auto. by rewrite Heq. Qed.

Lemma writes_packet bs h h' p xs : writes bs h h' → packet h p xs → packet h' p xs.
Proof.
  intros Hw [Hc Hn Hf Ht Hl]. split; try done.
  - eapply chain_pbufs; [by apply Hw | done].
  - eapply Forall_impl; [exact Hf|]. intros x Hx. by eapply writes_wf.
Qed.

Lemma writes_bytes bs h h' b : writes bs h h' → block b ∉ bs → pbuf_bytes h' b = pbuf_bytes h b.
Proof.
  intros [_ _ F] Hb. unfold pbuf_bytes, block in *. destruct (payload b) as [[blk o]|]; [|done].
  simpl in Hb. by rewrite F.
Qed.

Lemma writes_content bs h h' xs :
  writes bs h h' → (∀ b, b ∈ blocks xs → b ∉ bs) → content h' xs = content h xs.
Proof.
  intros Hw. induction xs as [|x xs IH]; intros Hd; [done|].
  rewrite !content_cons, (writes_bytes bs h h'); [|done|by apply Hd; left].
  rewrite IH; [done|]. intros b Hb. apply Hd. by right.
Qed.

Lemma splice_length off bs buf :
  0 ≤ off → off + Z.of_nat (length bs) ≤ Z.of_nat (length buf) →
  length (splice off bs buf) = length buf.
Proof. intros. unfold splice. rewrite !length_app, length_take, length_drop. lia. Qed.

Lemma slice_splice o n off bs buf :
  0 ≤ o → 0 ≤ off → off + Z.of_nat (length bs) ≤ n → o + n ≤ Z.of_nat (length buf) →
  slice o n (splice (o + off) bs buf) = splice off bs (slice o n buf).
Proof.
  intros. unfold slice, splice.
  rewrite drop_app_le by (rewrite length_take; lia).
  rewrite skipn_firstn_comm.
  rewrite take_app, length_take, length_drop.
  rewrite !take_take. f_equal; [f_equal; lia|].
  rewrite take_app. f_equal; [apply take_ge; lia|].
  rewrite skipn_firstn_comm, drop_drop. f_equal; [lia|]. f_equal. lia.
Qed.

Lemma mem_write_bytes h b off bs :
  wf_pbuf h b → 0 ≤ off → off + Z.of_nat (length bs) ≤ len b →
  okP (mem_write (payload b) off bs h) (λ h', writes [block b] h h' ∧
    pbuf_bytes h' b = splice off bs (pbuf_bytes h b)).
Proof.
  intros (Hl & blk & o & buf & Hp & Hb & Ho & Hr) H1 H2. unfold mem_write, block, pbuf_bytes.
  rewrite Hp. simpl. rewrite Hb.
  destruct bs as [|x bs'] eqn:E.
  { apply okP_ret. split; [apply writes_refl|]. rewrite Hb. unfold splice. simpl.
    rewrite Nat.add_0_r. symmetry. apply take_drop. }
  rewrite <- E in *. clear E x bs'. unfold in_range.
  rewrite (proj2 (Z.leb_le 0 (o + off))), (proj2 (Z.leb_le 0 (Z.of_nat (length bs)))),
    (proj2 (Z.leb_le (o + off + Z.of_nat (length bs)) _)) by lia. simpl.
  apply okP_ret. simpl. split; [split|].
  - done.
  - intros c. simpl. destruct (decide (c = blk)) as [->|Hne].
    + rewrite lookup_insert_eq, Hb. simpl. by rewrite splice_length by lia.
    + by rewrite lookup_insert_ne by done.
  - intros c Hc. simpl. rewrite lookup_insert_ne; [done|]. set_solver.
  - rewrite lookup_insert_eq. simpl. by rewrite slice_splice by lia.
Qed.

Lemma take_loop_spec xs fuel p data h :
  packet h p xs → NoDup (blocks xs) → (length xs ≤ fuel)%nat →
  Z.of_nat (length data) ≤ sum_len xs →
  okP (take_loop fuel p data h) (λ h', writes (blocks xs) h h' ∧
    content h' xs = data ++ drop (length data) (content h xs)).
Proof.
  revert fuel p data h. induction xs as [|x xs IH]; intros fuel p data h Hp Hn Hf Hd.
  { simpl in Hd. destruct data; simpl in Hd; [|lia]. destruct fuel; apply okP_ret;
      (split; [apply writes_refl | done]). }
  destruct data as [|d0 data'] eqn:Ed; [destruct fuel; apply okP_ret;
      (split; [apply writes_refl | done])|].
  rewrite <- Ed in *. assert (data ≠ []) as Hne by (by rewrite Ed). clear Ed d0 data'.
  pose proof Hp as Hp0. at_head Hp. simpl in Hf, Hd. destruct fuel as [|fuel]; [lia|].
  cbn [take_loop]. destruct data as [|d0 data'] eqn:Ed; [done|]. rewrite <- Ed in *. clear Hne.
  rewrite bool_decide_eq_true_2 by eauto. mstep. rewrite Hget. mstep.
  set (n := Z.min (Z.of_nat (length data)) (len x.2)).
  apply NoDup_cons in Hn as [Hx Hn].
  eapply okP_bind.
  { apply (mem_write_bytes h x.2 0 (take (Z.to_nat n) data)); [done|lia|].
    rewrite length_take. lia. }
  intros h1 [Hw1 Hb1]. eapply okP_mono.
  { apply IH; [by eapply writes_packet | done | lia | rewrite length_drop; lia]. }
  intros h2 [Hw2 Hc2].
  assert (Hdis : content h1 xs = content h xs).
  { eapply writes_content; [exact Hw1|]. set_solver. }
  split.
  - eapply writes_trans; (eapply writes_mono; [|done]); set_solver.
  - rewrite !content_cons, Hc2, Hdis. rewrite (writes_bytes (blocks xs) h1 h2) by done.
    rewrite Hb1. unfold splice. simpl.
    pose proof (pbuf_bytes_length h x.2 Hwf) as HB. rewrite !length_take, length_drop.
    rewrite drop_app. 
    destruct (Z.le_ge_cases (Z.of_nat (length data)) (len x.2)) as [Hc|Hc].
    + rewrite (take_ge data) by lia. rewrite (drop_ge data) by lia. simpl.
      rewrite <- app_assoc. f_equal. f_equal; f_equal; lia.
    + rewrite (drop_ge (pbuf_bytes h x.2)) by lia. rewrite app_nil_r.
      rewrite (drop_ge (pbuf_bytes h x.2)) by lia. simpl.
      rewrite app_assoc, take_drop. f_equal. f_equal. lia.
Qed.

(** [pbuf_take] fills the packet from its front. *)
Lemma pbuf_take_spec h p xs data :
  packet h p xs → p ≠ None → NoDup (blocks xs) → Z.of_nat (length data) ≤ sum_len xs →
  okP (pbuf_take p data h) (λ r, r.1 = ERR_OK ∧ writes (blocks xs) h r.2 ∧ packet r.2 p xs ∧
    content r.2 xs = data ++ drop (length data) (content h xs)).
Proof.
  intros Hp Hne Hn Hd. unfold pbuf_take.
  rewrite bool_decide_eq_true_2 by (by destruct p; eauto). mstep.
  destruct xs as [|x xs]; [destruct Hp as [Hc _ _ _ _]; by inversion Hc; subst|].
  pose proof Hp as Hp0. at_head Hp. rewrite Hget. mstep.
  change (len x.2 + sum_len xs) with (sum_len (x :: xs)) in Htot. rewrite Htot.
  rewrite (proj2 (Z.leb_le _ _) Hd). mstep.
  eapply okP_bind; [by apply (take_loop_spec (x :: xs)); auto; eapply packet_fuel|].
  intros h' [Hw Hc]. apply okP_ret. split_and!; try done. by eapply writes_packet.
Qed.

Lemma splice_app_r off bs (l k : list Z) :
  Z.of_nat (length l) ≤ off →
  splice off bs (l ++ k) = l ++ splice (off - Z.of_nat (length l)) bs k.
Proof.
  intros. unfold splice. rewrite take_app_ge, drop_app_ge by lia. rewrite <- app_assoc.
  f_equal. f_equal; [f_equal; lia|]. f_equal. f_equal. lia.
Qed.

Lemma splice_app_l off bs (l k : list Z) :
  0 ≤ off → off + Z.of_nat (length bs) ≤ Z.of_nat (length l) →
  splice off bs (l ++ k) = splice off bs l ++ k.
Proof.
  intros. unfold splice. rewrite take_app_le, drop_app_le by lia. by rewrite <- !app_assoc.
Qed.

Lemma slice_splice_same off bs (l : list Z) :
  0 ≤ off → off + Z.of_nat (length bs) ≤ Z.of_nat (length l) →
  slice off (Z.of_nat (length bs)) (splice off bs l) = bs.
Proof.
  intros. unfold slice, splice. rewrite drop_app_length' by (rewrite length_take; lia).
  by rewrite take_app_length' by lia.
Qed.

Lemma NoDup_blocks_app_r xs ys : NoDup (blocks (xs ++ ys)) → NoDup (blocks ys).
Proof. unfold blocks. rewrite fmap_app. by intros (_ & _ & ?)%NoDup_app. Qed.

Lemma blocks_app_disj xs ys b : NoDup (blocks (xs ++ ys)) → b ∈ blocks ys → b ∉ blocks xs.
Proof. unfold blocks. rewrite fmap_app. intros (_ & Hd & _)%NoDup_app Hy Hx. by apply (Hd b). Qed.

(** A write inside the tail of a packet is a write in the packet. *)
Lemma tail_write h h' ys zs off bs :
  NoDup (blocks (ys ++ zs)) → Forall (λ x, wf_pbuf h x.2) ys → writes (blocks zs) h h' →
  content h' zs = splice off bs (content h zs) → 0 ≤ off →
  content h' (ys ++ zs) = splice (sum_len ys + off) bs (content h (ys ++ zs)).
Proof.
  intros Hn Hw Hwr Hc Ho. rewrite !content_app, Hc.
  rewrite (writes_content (blocks zs) h h' ys); [|done|].
  - rewrite splice_app_r by (rewrite content_length by done; lia).
    rewrite content_length by done. do 2 f_equal. lia.
  - intros b Hb Hz. by apply (blocks_app_disj ys zs b Hn).
Qed.

Lemma put_head h x xs off bs :
  packet h (Some x.1) (x :: xs) → NoDup (blocks (x :: xs)) → 0 ≤ off →
  off + Z.of_nat (length bs) ≤ len x.2 →
  okP (mem_write (payload x.2) off bs h) (λ h', writes (blocks (x :: xs)) h h' ∧
    content h' (x :: xs) = splice off bs (content h (x :: xs)) ∧
    pbuf_bytes h' x.2 = splice off bs (pbuf_bytes h x.2) ∧ content h' xs = content h xs).
Proof.
  intros Hp Hn Ho Hb. at_head Hp. apply NoDup_cons in Hn as [Hx Hn].
  eapply okP_mono; [by apply mem_write_bytes|]. intros h' [Hw Hby].
  assert (content h' xs = content h xs) as Hr.
  { eapply writes_content; [done|]. intros b Hb'. set_solver. }
  split_and!; [|rewrite !content_cons, Hby|done|done].
  - eapply writes_mono; [|done]. set_solver.
  - rewrite splice_app_l; [|done|by rewrite pbuf_bytes_length]. by rewrite Hr.
Qed.

Lemma pbuf_put_at_spec h p xs off v :
  packet h p xs → NoDup (blocks xs) → 0 ≤ off < 2 ^ 16 →
  okP (pbuf_put_at p off v h) (λ h', writes (blocks xs) h h' ∧ packet h' p xs ∧
    content h' xs = if off <? sum_len xs then splice off [v] (content h xs) else content h xs).
Proof.
  intros Hp Hn Ho. unfold pbuf_put_at.
  destruct (pbuf_skip_spec h xs p off Hp Ho) as (ys & zs & q & off' & -> & -> & Hq & Hoff & Ho' & Hz).
  mstep. rewrite sum_len_app. destruct zs as [|z zs].
  - subst q. apply okP_ret. split_and!; [apply writes_refl|done|].
    rewrite (proj2 (Z.ltb_ge _ _)); [done | simpl; lia].
  - pose proof Hq as Hq0. at_head Hq. rewrite Hget. mstep.
    rewrite (proj2 (Z.ltb_lt off' (len z.2)) Hz).
    rewrite (proj2 (Z.ltb_lt off _)) by (simpl; lia).
    eapply okP_mono; [apply (put_head h z zs off' [v]); [done|by eapply NoDup_blocks_app_r|done|]|].
    { simpl. lia. }
    intros h' (Hw & Hc & _). assert (writes (blocks (ys ++ z :: zs)) h h') as Hw'.
    { eapply writes_mono; [|exact Hw]. unfold blocks. rewrite fmap_app. set_solver. }
    split_and!; [done | by eapply writes_packet|]. rewrite Hoff.
    apply tail_write; auto. by eapply wf_app_l, pk_wf.
Qed.

Lemma pbuf_take_at_spec h p xs data off :
  packet h p xs → NoDup (blocks xs) → 0 ≤ off < 2 ^ 16 → Z.of_nat (length data) < 2 ^ 16 →
  okP (pbuf_take_at p data off h) (λ r,
    if (off <? sum_len xs) && (off + Z.of_nat (length data) <=? sum_len xs)
    then r.1 = ERR_OK ∧ writes (blocks xs) h r.2 ∧ packet r.2 p xs ∧
         content r.2 xs = splice off data (content h xs)
    else r = (ERR_MEM, h)).
Proof.
  intros Hp Hn Ho Hd. unfold pbuf_take_at.
  destruct (pbuf_skip_spec h xs p off Hp Ho) as (ys & zs & q & off' & -> & -> & Hq & Hoff & Ho' & Hz).
  mstep. rewrite sum_len_app. destruct zs as [|z zs].
  { subst q. apply okP_ret. rewrite (proj2 (Z.ltb_ge _ _)); [done | simpl; lia]. }
  pose proof Hq as Hq0. at_head Hq. rewrite Hget. mstep.
  change (sum_len (z :: zs)) with (len z.2 + sum_len zs).
  rewrite (proj2 (Z.ltb_lt off _)) by lia. cbn [andb]. rewrite Htot.
  destruct (Z.leb_spec (off' + Z.of_nat (length data)) (len z.2 + sum_len zs)) as [Hfit|Hno].
  2: { rewrite (proj2 (Z.leb_gt _ _)) by lia. by apply okP_ret. }
  rewrite (proj2 (Z.leb_le _ _)) by lia. rewrite (proj2 (Z.ltb_lt off' (len z.2)) Hz). mstep.
  set (n := Z.min (len z.2 - off') (Z.of_nat (length data))). rewrite (u16_id n) by lia.
  pose proof (NoDup_blocks_app_r _ _ Hn) as Hnz.
  eapply okP_bind.
  { apply (put_head h z zs off' (take (Z.to_nat n) data)); [done|done|done|]. rewrite length_take. lia. }
  intros h1 (Hw1 & Hc1 & Hb1 & Hr1).
  assert (Hys : Forall (λ x, wf_pbuf h x.2) ys) by (by eapply wf_app_l, pk_wf).
  assert (Hsub : ∀ h', writes (blocks (z :: zs)) h h' → writes (blocks (ys ++ z :: zs)) h h').
  { intros h' Hw'. eapply writes_mono; [|exact Hw']. unfold blocks. rewrite fmap_app. set_solver. }
  destruct (drop (Z.to_nat n) data) as [|d rest] eqn:Er.
  - apply okP_ret. simpl. split_and!; [done|by apply Hsub|eapply writes_packet; [by apply Hsub|done]|].
    rewrite Hoff. apply tail_write; auto. rewrite Hc1. f_equal.
    apply (f_equal length) in Er. rewrite length_drop in Er. simpl in Er. apply take_ge. lia.
  - assert (n = len z.2 - off') as Hn1.
    { apply (f_equal length) in Er. rewrite length_drop in Er. simpl in Er. lia. }
    assert (Hlr : length (d :: rest) = (length data - Z.to_nat n)%nat)
      by (by rewrite <- Er, length_drop).
    destruct zs as [|y zs']; [simpl in *; lia|].
    set (zs := y :: zs') in *.
    eapply okP_mono.
    { apply (pbuf_take_spec h1 (next z.2) zs (d :: rest)); [by eapply writes_packet| | |].
      - destruct Hq as [Hc _ _ _ _]. by inversion Hc.
      - by apply NoDup_cons in Hnz as [_ ?].
      - rewrite Hlr. lia. }
    intros [e h2] (He & Hw2 & _ & Hc2). cbn [fst snd] in *. rewrite Hr1 in Hc2.
    assert (writes (blocks (z :: zs)) h h2) as Hw.
    { eapply writes_trans; [exact Hw1|]. eapply writes_mono; [|exact Hw2]. set_solver. }
    split_and!; [done|by apply Hsub|eapply writes_packet; [by apply Hsub|done]|].
    rewrite Hoff. apply tail_write; auto. rewrite content_cons, Hc2.
    rewrite (writes_bytes (blocks zs) h1 h2); [|done|by apply NoDup_cons in Hnz as [? _]].
    rewrite Hb1, content_cons. pose proof (pbuf_bytes_length h z.2 Hwf) as HB.
    rewrite <- Er. unfold splice.
    rewrite length_drop, (take_app_le (pbuf_bytes h z.2)) by lia.
    rewrite (drop_ge (pbuf_bytes h z.2)) by (rewrite length_take; lia).
    rewrite app_nil_r, <- app_assoc, (app_assoc (take (Z.to_nat n) data)), take_drop.
    rewrite (drop_app_ge (pbuf_bytes h z.2)) by lia. do 3 f_equal. lia.
Qed.

(**  Writing and reading back: [pbuf_take_at] succeeds exactly when
    the data fits at its offset ([ERR_MEM] and no change otherwise); it then
    replaces just those bytes of the content, leaves every pbuf field and every
    other buffer alone, and [pbuf_copy_partial] reads the data back. *)
Theorem pbuf_take_at_roundtrip h p xs data off :
  packet h p xs → NoDup (blocks xs) → 0 ≤ off < 2 ^ 16 → Z.of_nat (length data) < 2 ^ 16 →
  okP (pbuf_take_at p data off h) (λ r,
    if (off <? sum_len xs) && (off + Z.of_nat (length data) <=? sum_len xs)
    then r.1 = ERR_OK ∧ writes (blocks xs) h r.2 ∧
         content r.2 xs = splice off data (content h xs) ∧
         pbuf_copy_partial p (Z.of_nat (length data)) off r.2 = Ok data
    else r = (ERR_MEM, h)).
Proof.
  intros Hp Hn Ho Hd. eapply okP_mono; [by apply pbuf_take_at_spec|].
  intros [e h'] Hr. simpl in *. destruct (_ && _) eqn:E; [|done].
  destruct Hr as (He & Hw & Hp' & Hc). split_and!; try done.
  apply andb_prop in E as [E1%Z.ltb_lt E2%Z.leb_le].
  assert (p ≠ None) as Hne.
  { intros ->. destruct Hp as [Hch _ _ _ _]. inversion Hch; subst. simpl in *. lia. }
  unfold pbuf_copy_partial. rewrite bool_decide_eq_true_2 by (by destruct p; eauto). mstep.
  rewrite (copy_partial_loop_spec h' xs) by (done || lia || by eapply packet_fuel).
  rewrite Hc. f_equal. pose proof (content_length h xs (pk_wf _ _ _ Hp)) as Hl.
  apply slice_splice_same; lia.
Qed.

(** ** Reference counts *)

(** A pbuf of one of the standard types, referenced at least once. *)
Definition counted (b : pbuf) : Prop :=
  1 ≤ ref b < 2 ^ 8 ∧ Z.land (flags b) PBUF_FLAG_IS_CUSTOM = 0 ∧ 0 ≤ pbuf_get_allocsrc b ≤ 2.

(** The head of the chain that only the chain itself refers to. *)
Fixpoint unshared (xs : list (loc * pbuf)) : list (loc * pbuf) :=
  match xs with
  | [] => []
  | x :: xs => if ref x.2 =? 1 then x :: unshared xs else []
  end.

(** The pbuf, if any, at which freeing stops. *)
Fixpoint first_shared (xs : list (loc * pbuf)) : option (loc * pbuf) :=
  match xs with
  | [] => None
  | x :: xs => if ref x.2 =? 1 then first_shared xs else Some x
  end.

(** What a heap looks like after the caller's reference to [xs] is gone. *)
Record released (xs : list (loc * pbuf)) (h h' : heap) : Prop := mkReleased {
  rl_pbufs l : pbufs h' !! l =
    if decide (l ∈ locs (unshared xs)) then None
    else match first_shared xs with
         | Some x => if decide (l = x.1) then Some (set_ref (ref x.2 - 1) x.2) else pbufs h !! l
         | None => pbufs h !! l
         end;
  rl_bufs l : bufs h' !! l = if decide (l ∈ locs (unshared xs)) then None else bufs h !! l;
  rl_next : next_loc h' = next_loc h;
}.

Lemma chain_frame h h' p xs :
  (∀ l, l ∈ locs xs → pbufs h' !! l = pbufs h !! l) → chain h p xs → chain h' p xs.
Proof.
  intros Hf Hc. induction Hc as [|p b xs Hp Hc IH]; constructor.
  - rewrite Hf; [done|]. by left.
  - apply IH. intros l Hl. apply Hf. by right.
Qed.

Lemma first_shared_in xs x : first_shared xs = Some x → x ∈ xs.
Proof.
  induction xs as [|y xs IH]; simpl; [done|]. destruct (_ =? _); [|intros [= ->]; by left].
  intros Hx. right. auto.
Qed.

Lemma unshared_in xs l : l ∈ locs (unshared xs) → l ∈ locs xs.
Proof.
  induction xs as [|y xs IH]; simpl; [done|]. destruct (_ =? _); [|by intros ?%elem_of_nil].
  simpl. rewrite !elem_of_cons. naive_solver.
Qed.

Section Release.
Variable custom_free_function : loc → heap → res heap.
Notation free_loop := (free_loop custom_free_function).

Lemma free_loop_spec xs fuel p count h :
  chain h p xs → NoDup (locs xs) → Forall (λ x, counted x.2) xs → (length xs ≤ fuel)%nat →
  okP (free_loop fuel p count h) (λ r,
    (0 ≤ count < 2 ^ 8 → r.1 = u8 (count + Z.of_nat (length (unshared xs)))) ∧ released xs h r.2).
Proof.
  revert fuel p count h. induction xs as [|[l b] xs IH]; intros fuel p count h Hc Hn Hf Hfu.
  { inversion Hc; subst. destruct fuel; apply okP_ret; (split; [|by split; intros; simpl]);
      intros; simpl; by rewrite Z.add_0_r, u8_id. }
  inversion Hc as [|? ? ? Hl Hc' E1 E2]; subst. apply NoDup_cons in Hn as [Hx Hn].
  apply Forall_cons in Hf as [(Hr & Hfl & Ha) Hf]. simpl in Hfu, Hr, Hfl, Ha, Hx.
  destruct fuel as [|fuel]; [lia|]. cbn [Pbuf.free_loop]. unfold get, upd. rewrite Hl. mstep.
  rewrite (proj2 (Z.ltb_lt 0 (ref b))) by lia. mstep. rewrite u8_id by lia.
  destruct (Z.eqb_spec (ref b - 1) 0) as [E|E].
  - assert (Hu : unshared ((l, b) :: xs) = (l, b) :: unshared xs)
      by (simpl; by rewrite (proj2 (Z.eqb_eq (ref b) 1)) by lia).
    assert (Hs : first_shared ((l, b) :: xs) = first_shared xs)
      by (simpl; by rewrite (proj2 (Z.eqb_eq (ref b) 1)) by lia).
    rewrite Hfl. cbn [Z.eqb negb].
    assert ((pbuf_get_allocsrc b =? 2) || (pbuf_get_allocsrc b =? 1) || (pbuf_get_allocsrc b =? 0)
            = true) as Hor.
    { rewrite !orb_true_iff, !Z.eqb_eq. lia. }
    unfold PBUF_TYPE_ALLOC_SRC_MASK_STD_MEMP_PBUF_POOL, PBUF_TYPE_ALLOC_SRC_MASK_STD_MEMP_PBUF,
      PBUF_TYPE_ALLOC_SRC_MASK_STD_HEAP. rewrite Hor. mstep.
    set (h1 := mem_free l _).
    assert (Hh1 : ∀ k, pbufs h1 !! k = if decide (k = l) then None else pbufs h !! k).
    { intros k. unfold h1. simpl. destruct (decide (k = l)) as [->|Hk].
      - by rewrite lookup_delete_eq.
      - by rewrite lookup_delete_ne, lookup_insert_ne. }
    eapply okP_mono.
    { apply (IH fuel (next b) (u8 (count + 1)) h1); [|done|done|lia].
      eapply chain_frame; [|exact Hc']. intros k Hk. rewrite Hh1.
      destruct (decide (k = l)) as [->|]; [done|done]. }
    intros [c h2] [Hcount [Rp Rb Rn]]. cbn [fst snd] in *. split.
    + intros Hcnt. rewrite Hcount by apply u8_range. unfold u8.
      rewrite Zplus_mod_idemp_l, Hu. f_equal. simpl. lia.
    + split; [intros k|intros k|].
      * rewrite Rp, Hu, Hs. cbn [locs fmap list_fmap fst].
        destruct (decide (k ∈ locs (unshared xs))) as [Hin|Hin].
        { rewrite decide_True by (by right). done. }
        destruct (decide (k = l)) as [->|Hk].
        { rewrite decide_True by (by left).
          destruct (first_shared xs) as [x|] eqn:Es; [|by rewrite Hh1, decide_True].
          rewrite decide_False; [by rewrite Hh1, decide_True|]. intros ->. apply Hx, list_elem_of_fmap.
          exists x. auto using first_shared_in. }
        rewrite decide_False by (rewrite elem_of_cons; naive_solver).
        destruct (first_shared xs) as [x|]; [|by rewrite Hh1, decide_False].
        destruct (decide (k = x.1)); [done|]. by rewrite Hh1, decide_False.
      * rewrite Rb, Hu. cbn [locs fmap list_fmap fst]. unfold h1. simpl.
        destruct (decide (k ∈ locs (unshared xs))) as [Hin|Hin];
          [by rewrite decide_True by (by right)|].
        destruct (decide (k = l)) as [->|Hk].
        { rewrite decide_True by (by left). by rewrite lookup_delete_eq. }
        rewrite decide_False by (rewrite elem_of_cons; naive_solver).
        by rewrite lookup_delete_ne.
      * by rewrite Rn.
  - assert (Hu : unshared ((l, b) :: xs) = [])
      by (simpl; by rewrite (proj2 (Z.eqb_neq (ref b) 1)) by lia).
    assert (Hs : first_shared ((l, b) :: xs) = Some (l, b))
      by (simpl; by rewrite (proj2 (Z.eqb_neq (ref b) 1)) by lia).
    apply okP_ret. cbn [fst snd]. split.
    + intros Hcnt. rewrite Hu. simpl. by rewrite Z.add_0_r, u8_id.
    + split; [intros k|intros k|done]; rewrite Hu, ?Hs; cbn [locs fmap list_fmap fst snd];
        (destruct (decide (k ∈ [])) as [Hk0|_]; [by apply elem_of_nil in Hk0|]); [|done].
      simpl. destruct (decide (k = l)) as [->|Hk];
        [by rewrite lookup_insert_eq|by rewrite lookup_insert_ne].
Qed.

Lemma pbuf_free_ok p xs h :
  chain h p xs → p ≠ None → NoDup (locs xs) → Forall (λ x, counted x.2) xs →
  okP (pbuf_free custom_free_function p h) (λ r,
    r.1 = u8 (Z.of_nat (length (unshared xs))) ∧ released xs h r.2).
Proof.
  intros Hc Hne Hn Hf. unfold pbuf_free. destruct p as [l|]; [|done].
  eapply okP_mono.
  - apply (free_loop_spec xs (fuel_of h)); [done|done|done|].
    unfold fuel_of. pose proof (chain_size h _ xs Hc Hn). lia.
  - intros r [Hcnt Hr]. split; [|done]. rewrite Hcnt by lia. done.
Qed.
End Release.

(**  [pbuf_free] gives up one reference to a chain: the pbufs at
    its head that nothing else refers to are deallocated with their buffers,
    the first shared one (if any) loses one reference, everything behind it and
    everything else in the heap stays, and the number of deallocated pbufs is
    returned. *)
Theorem pbuf_free_spec custom_free_function p xs h :
  chain h p xs → p ≠ None → NoDup (locs xs) → Forall (λ x, counted x.2) xs →
  okP (pbuf_free custom_free_function p h) (λ r,
    r.1 = u8 (Z.of_nat (length (unshared xs))) ∧ released xs h r.2).
Proof. apply pbuf_free_ok. Qed.

(** ** Allocation *)

(** Addresses from [next_loc] on are free. *)
Definition heap_ok (h : heap) : Prop :=
  ∀ l : loc, (next_loc h ≤ l)%nat → pbufs h !! l = None ∧ bufs h !! l = None.

(** [h'] is [h] plus cells and buffers at the addresses [ls], all new. *)
Record extends (ls : list loc) (h h' : heap) : Prop := mkExtends {
  ex_pbufs l : l ∉ ls → pbufs h' !! l = pbufs h !! l;
  ex_bufs l : l ∉ ls → bufs h' !! l = bufs h !! l;
  ex_fresh l : l ∈ ls → (next_loc h ≤ l < next_loc h')%nat;
  ex_next : (next_loc h ≤ next_loc h')%nat;
  ex_ok : heap_ok h';
}.

(** [tots], with [r] bytes still to come. *)
Fixpoint tots_rem (xs : list (loc * pbuf)) (r : Z) : Prop :=
  match xs with
  | [] => True
  | x :: xs => tot_len x.2 = len x.2 + sum_len xs + r ∧ tots_rem xs r
  end.

Lemma tots_rem_0 xs : tots_rem xs 0 → tots xs.
Proof. induction xs as [|x xs IH]; simpl; [done|]. intros [-> H]. split; [lia | auto]. Qed.

Lemma tots_rem_snoc xs x r :
  tots_rem xs (len x.2 + r) → tot_len x.2 = len x.2 + r → tots_rem (xs ++ [x]) r.
Proof.
  induction xs as [|y xs IH]; simpl; [intros _ ->; split; [lia|done]|].
  intros [-> H] Hx. rewrite sum_len_app. simpl. split; [lia|auto].
Qed.

Lemma tots_rem_relink ys l b q r :
  tots_rem (ys ++ [(l, b)]) r → tots_rem (ys ++ [(l, set_next q b)]) r.
Proof.
  induction ys as [|y ys IH]; simpl; [done|]. intros [-> H]. split; [|auto].
  rewrite !sum_len_app. simpl. lia.
Qed.

(** Linking a new cell behind the last one. *)
Lemma chain_snoc h h' p ys l b q qb :
  chain h p (ys ++ [(l, b)]) → NoDup (locs (ys ++ [(l, b)])) →
  pbufs h' !! l = Some (set_next (Some q) b) → pbufs h' !! q = Some qb → next qb = None →
  (∀ k, k ∈ locs ys → pbufs h' !! k = pbufs h !! k) →
  chain h' p (ys ++ [(l, set_next (Some q) b); (q, qb)]).
Proof.
  intros Hc Hn Hl Hq Hqn Hf. revert p Hc. induction ys as [|[k y] ys IH]; simpl; intros p Hc.
  - inversion Hc as [|? ? ? ? _]; subst. repeat (constructor; [done|]). simpl. rewrite Hqn. constructor.
  - inversion Hc as [|? ? ? Hk Hc']; subst. apply NoDup_cons in Hn as [? Hn].
    constructor; [rewrite Hf; [done|by left]|]. apply IH; [done| |done].
    intros k' Hk'. apply Hf. by right.
Qed.

(** A chain fresh from [pbuf_alloc]. *)
Definition new_pbuf (b : pbuf) : Prop := ref b = 1 ∧ flags b = 0 ∧ 0 ≤ pbuf_get_allocsrc b ≤ 2.

Lemma new_counted xs : Forall (λ x, new_pbuf x.2) xs → Forall (λ x : loc * pbuf, counted x.2) xs.
Proof.
  intros H. eapply Forall_impl; [exact H|]. intros x (Hr & Hf & Ha). unfold counted.
  rewrite Hr, Hf. split_and!; done || lia.
Qed.

Lemma new_unshared xs : Forall (λ x, new_pbuf x.2) xs → unshared xs = xs ∧ first_shared xs = None.
Proof.
  induction 1 as [|x xs (Hr & _) Hx [IH1 IH2]]; [done|]. simpl. rewrite Hr. simpl. by rewrite IH1.
Qed.

(** Freeing a chain that was just built gives the heap back. *)
Lemma released_extends xs h h1 h2 :
  Forall (λ x, new_pbuf x.2) xs → extends (locs xs) h h1 → heap_ok h → released xs h1 h2 →
  pbufs h2 = pbufs h ∧ bufs h2 = bufs h.
Proof.
  intros Hnew [Ep Eb Ef En Eo] Hok [Rp Rb Rn].
  destruct (new_unshared xs Hnew) as [Hu Hs]. rewrite Hu, ?Hs in *.
  split; apply map_eq; intros l; rewrite ?Rp, ?Rb;
    (destruct (decide (l ∈ locs xs)) as [Hl|Hl]; [|by rewrite ?Ep, ?Eb]);
    symmetry; apply Hok; by apply Ef.
Qed.

Lemma pool_bufsize : PBUF_POOL_BUFSIZE = 9014.
Proof. done. Qed.

#[local] Opaque PBUF_POOL_BUFSIZE.

Section Alloc.
Variables (malloc_fails : nat → bool) (junk : nat → Z).
Variable custom_free_function : loc → heap → res heap.

(** What [pool_loop] knows when it is about to allocate the next pbuf. *)
Record pool_inv (h0 h : heap) (p lst : option loc) (xs : list (loc * pbuf)) (r : Z) : Prop :=
  mkPoolInv {
  pi_chain : chain h p xs;
  pi_last : (p = None ∧ xs = []) ∨
            (p ≠ None ∧ ∃ ys l b, xs = ys ++ [(l, b)] ∧ lst = Some l);
  pi_nodup : NoDup (locs xs);
  pi_new : Forall (λ x, new_pbuf x.2) xs;
  pi_wf : Forall (λ x, wf_pbuf h x.2) xs;
  pi_tots : tots_rem xs r;
  pi_ext : extends (locs xs) h0 h;
}.

(** The heap with one more pool pbuf, not yet linked. *)
Definition with_pool_pbuf (q : loc) (offset rem_len qlen : Z) (h1 : heap) : heap :=
  add_pbuf q (pbuf_init_alloced_pbuf (Some (q, offset)) rem_len qlen PBUF_POOL 0)
    (add_data junk q PBUF_POOL_BUFSIZE h1).

Lemma malloc_inv h q h1 :
  malloc malloc_fails h = Some (q, h1) →
  q = next_loc h ∧ next_loc h1 = S (next_loc h) ∧ pbufs h1 = pbufs h ∧ bufs h1 = bufs h.
Proof. unfold malloc. destruct (malloc_fails _); by intros [= <- <-]. Qed.

Lemma wf_pbuf_bufs h h' b :
  (∀ l, bufs h !! l ≠ None → bufs h' !! l = bufs h !! l) → wf_pbuf h b → wf_pbuf h' b.
Proof.
  intros Hf (Hl & blk & o & buf & Hp & Hb & Ho & Hr). split; [done|].
  exists blk, o, buf. rewrite Hf by (by rewrite Hb). done.
Qed.

Lemma pool_pbuf_wf q offset rem_len qlen h1 :
  0 ≤ offset → 0 ≤ qlen → offset + qlen ≤ PBUF_POOL_BUFSIZE →
  wf_pbuf (with_pool_pbuf q offset rem_len qlen h1)
    (pbuf_init_alloced_pbuf (Some (q, offset)) rem_len qlen PBUF_POOL 0).
Proof.
  intros Ho Hq Hb. split; [done|]. exists q, offset, (junk <$> seq 0 (Z.to_nat PBUF_POOL_BUFSIZE)).
  split_and!; [done|apply lookup_insert_eq|done|].
  rewrite length_fmap, length_seq. cbn [pbuf_init_alloced_pbuf len]. lia.
Qed.

(** Adding the cell and the buffer at [next_loc], changing only new cells. *)
Lemma extends_grow ls ls' h0 h h3 :
  extends ls h0 h → ls' ≡ₚ next_loc h :: ls → next_loc h3 = S (next_loc h) →
  (∀ k, k ≠ next_loc h → bufs h3 !! k = bufs h !! k) →
  (∀ k, k ≠ next_loc h → k ∉ ls → pbufs h3 !! k = pbufs h !! k) →
  extends ls' h0 h3.
Proof.
  intros [Ep Eb Ef En Eo] Hls Hn3 Hb3 Hp3. split.
  - intros l Hl. rewrite Hls, not_elem_of_cons in Hl. destruct Hl. by rewrite Hp3, Ep.
  - intros l Hl. rewrite Hls, not_elem_of_cons in Hl. destruct Hl. by rewrite Hb3, Eb.
  - intros l Hl. rewrite Hls, elem_of_cons in Hl. destruct Hl as [->|Hl]; [lia|].
    apply Ef in Hl. lia.
  - lia.
  - intros l Hl. assert (l ∉ ls) by (intros H; apply Ef in H; lia).
    rewrite Hp3, Hb3 by (done || lia). apply Eo. lia.
Qed.

Lemma with_pool_pbuf_lookup q offset rem_len qlen h1 :
  let h2 := with_pool_pbuf q offset rem_len qlen h1 in
  pbufs h2 !! q = Some (pbuf_init_alloced_pbuf (Some (q, offset)) rem_len qlen PBUF_POOL 0) ∧
  (∀ k, k ≠ q → pbufs h2 !! k = pbufs h1 !! k) ∧ (∀ k, k ≠ q → bufs h2 !! k = bufs h1 !! k) ∧
  next_loc h2 = next_loc h1.
Proof.
  split_and!; [apply lookup_insert_eq|intros k Hk..|done];
    unfold with_pool_pbuf; cbn [pbufs bufs add_pbuf set_pbufs add_data set_bufs];
    by rewrite lookup_insert_ne.
Qed.

Lemma pool_new_pbuf q offset rem_len qlen :
  new_pbuf (pbuf_init_alloced_pbuf (Some (q, offset)) rem_len qlen PBUF_POOL 0).
Proof. by split_and!. Qed.

Section PoolStep.
Variables (h0 h h1 : heap) (q : loc) (rem_len offset qlen : Z).
Hypothesis Hmalloc : malloc malloc_fails h = Some (q, h1).
Hypotheses (Hoff : 0 ≤ offset) (Hqlen : 0 ≤ qlen) (Hfit : offset + qlen ≤ PBUF_POOL_BUFSIZE).

Let qb := pbuf_init_alloced_pbuf (Some (q, offset)) rem_len qlen PBUF_POOL 0.
Let h2 := with_pool_pbuf q offset rem_len qlen h1.

Lemma pool_h2 :
  q = next_loc h ∧ next_loc h2 = S q ∧ pbufs h2 !! q = Some qb ∧
  (∀ k, k ≠ q → pbufs h2 !! k = pbufs h !! k) ∧ (∀ k, k ≠ q → bufs h2 !! k = bufs h !! k).
Proof.
  apply malloc_inv in Hmalloc as (-> & Hnl & Hmp & Hmb).
  destruct (with_pool_pbuf_lookup (next_loc h) offset rem_len qlen h1) as (Hq & Hp & Hb & Hn).
  split_and!; [done|by rewrite <- Hnl|done| |].
  - intros k Hk. unfold h2. by rewrite Hp, Hmp.
  - intros k Hk. unfold h2. by rewrite Hb, Hmb.
Qed.

Lemma pool_first :
  extends [] h0 h → pool_inv h0 h2 (Some q) (Some q) [(q, qb)] (rem_len - qlen).
Proof.
  intros He. destruct pool_h2 as (Hq & Hn2 & Hq2 & Hp2 & Hb2). split.
  - constructor; [done | constructor].
  - right. split; [done|]. by exists [], q, qb.
  - apply NoDup_singleton.
  - apply Forall_singleton. apply pool_new_pbuf.
  - apply Forall_singleton. by apply pool_pbuf_wf.
  - simpl. split; [lia|done].
  - eapply (extends_grow []); [done|by rewrite <- Hq|congruence| |]; intros; [apply Hb2|apply Hp2];
      congruence.
Qed.

Lemma pool_next p ys l b :
  pool_inv h0 h (Some p) (Some l) (ys ++ [(l, b)]) rem_len →
  okP (upd (Some l) (set_next (Some q)) h2) (λ h3,
    pool_inv h0 h3 (Some p) (Some q) (ys ++ [(l, set_next (Some q) b); (q, qb)]) (rem_len - qlen)).
Proof.
  intros [Hc _ Hn Hnew Hwf Ht He]. destruct pool_h2 as (Hq & Hn2 & Hq2 & Hp2 & Hb2).
  pose proof (chain_lookup h _ _ (l, b) Hc ltac:(set_solver)) as Hl. simpl in Hl.
  assert (Hqx : q ∉ locs (ys ++ [(l, b)])) by (intros Hin; apply (ex_fresh _ _ _ He) in Hin; lia).
  assert (l ≠ q) as Hlq by (intros ->; apply Hqx; unfold locs; rewrite fmap_app; set_solver).
  unfold upd. rewrite Hp2, Hl by done. apply okP_ret. set (h3 := set_pbufs _ _).
  assert (Hl3 : pbufs h3 !! l = Some (set_next (Some q) b)) by apply lookup_insert_eq.
  assert (Hp3 : ∀ k, k ≠ l → pbufs h3 !! k = pbufs h2 !! k)
    by (intros k Hk; unfold h3; simpl; by rewrite lookup_insert_ne).
  assert (Hlocs : locs (ys ++ [(l, set_next (Some q) b); (q, qb)]) = locs (ys ++ [(l, b)]) ++ [q])
    by (unfold locs; rewrite !fmap_app; simpl; by rewrite <- app_assoc).
  assert (Hys : ∀ k, k ∈ locs ys → k ≠ l ∧ k ≠ q).
  { unfold locs in Hn, Hqx. rewrite fmap_app in Hn, Hqx. apply NoDup_app in Hn as (_ & Hd & _).
    intros k Hk. split; intros ->; [apply (Hd l Hk) | apply Hqx]; set_solver. }
  split.
  - eapply chain_snoc; [exact Hc|exact Hn|exact Hl3|by rewrite Hp3|done|].
    intros k Hk. destruct (Hys k Hk). by rewrite Hp3, Hp2.
  - right. split; [done|]. exists (ys ++ [(l, set_next (Some q) b)]), q, qb.
    by rewrite <- app_assoc.
  - rewrite Hlocs. apply NoDup_app. split_and!; [done|set_solver|apply NoDup_singleton].
  - apply Forall_app in Hnew as [? Hb]. apply Forall_app. split; [done|].
    rewrite Forall_singleton in Hb. constructor; [exact Hb|]. apply Forall_singleton, pool_new_pbuf.
  - assert (∀ x, wf_pbuf h x → wf_pbuf h3 x) as Hmono.
    { intros x. apply wf_pbuf_bufs. intros k Hk. unfold h3. simpl. apply Hb2. intros ->.
      apply Hk. rewrite Hq. apply (ex_ok _ _ _ He). lia. }
    apply Forall_app in Hwf as [Hw1 Hw2]. rewrite Forall_singleton in Hw2. apply Forall_app. split.
    + eapply Forall_impl; [exact Hw1|]. auto.
    + constructor; [by apply (Hmono b) | apply Forall_singleton; by apply pool_pbuf_wf].
  - replace (ys ++ [(l, set_next (Some q) b); (q, qb)])
      with ((ys ++ [(l, set_next (Some q) b)]) ++ [(q, qb)]) by (by rewrite <- app_assoc).
    apply tots_rem_snoc; simpl; [|lia]. apply tots_rem_relink.
    by replace (qlen + (rem_len - qlen)) with rem_len by lia.
  - eapply (extends_grow (locs (ys ++ [(l, b)]))); [exact He| |rewrite <- Hq; exact Hn2| |].
    + rewrite Hlocs, <- Hq. by rewrite Permutation_app_comm.
    + intros k Hk. unfold h3. simpl. apply Hb2. congruence.
    + intros k Hk Hkx. rewrite Hp3, Hp2; [done|congruence|]. intros ->. apply Hkx.
      unfold locs. rewrite fmap_app. set_solver.
Qed.
End PoolStep.

Lemma extends_refl h : heap_ok h → extends [] h h.
Proof. intros Hok. split; try done. intros l Hl. by apply elem_of_nil in Hl. Qed.

Lemma pool_loop_spec fuel h0 h p lst xs rem_len offset :
  heap_ok h0 → pool_inv h0 h p lst xs rem_len → 0 ≤ rem_len < 2 ^ 16 → 0 ≤ offset ≤ 100 →
  (Z.to_nat rem_len < fuel)%nat → (rem_len = 0 → p = None) →
  okP (pool_loop malloc_fails junk custom_free_function fuel p lst rem_len offset h) (λ r,
    match r.1 with
    | None => pbufs r.2 = pbufs h0 ∧ bufs r.2 = bufs h0
    | Some _ => ∃ lst' xs', pool_inv h0 r.2 r.1 lst' xs' 0 ∧ sum_len xs' = sum_len xs + rem_len
    end).
Proof.
  intros Hok. pose proof pool_bufsize as HB. revert h p lst xs rem_len offset.
  induction fuel as [|fuel IH]; intros h p lst xs rem_len offset Hi Hr Ho Hf Hz; [lia|].
  cbn [pool_loop]. destruct (malloc malloc_fails h) as [[q h1]|] eqn:Hm.
  - set (qlen := Z.min rem_len (u16 (PBUF_POOL_BUFSIZE - offset))).
    assert (Hql : qlen = Z.min rem_len (PBUF_POOL_BUFSIZE - offset))
      by (unfold qlen; by rewrite u16_id by lia).
    rewrite (proj2 (Z.ltb_lt 0 (PBUF_POOL_BUFSIZE - offset))) by lia. mstep.
    fold (with_pool_pbuf q offset rem_len qlen h1).
    eapply (okP_bind _ _ (λ h2, ∃ xs', pool_inv h0 h2 (match p with None => Some q | _ => p end)
      (Some q) xs' (rem_len - qlen) ∧ sum_len xs' = sum_len xs + qlen)).
    { destruct (pi_last _ _ _ _ _ _ Hi) as [[-> ->]|[Hne (ys & l & b & -> & ->)]].
      - apply okP_ret. eexists. split; [|shelve].
        apply (pool_first h0 h h1 q rem_len offset qlen Hm); [lia|lia|lia|]. apply Hi.
      - destruct p as [p|]; [|done]. eapply okP_mono.
        { apply (pool_next h0 h h1 q rem_len offset qlen Hm ltac:(lia) ltac:(lia) ltac:(lia) p ys l b Hi). }
        intros h3 H3. eexists. split; [exact H3|]. rewrite !sum_len_app. simpl. lia.
      Unshelve. simpl. lia. }
    intros h2 (xs' & Hi' & Hs). rewrite u16_id by lia.
    destruct (Z.ltb_spec 0 (rem_len - qlen)) as [Hpos|Hnpos].
    + eapply okP_mono; [apply (IH h2 _ _ xs'); [exact Hi'|lia|lia|lia|lia]|].
      intros [[r|] h'] Hres; simpl in *; [|done].
      destruct Hres as (lst' & xs'' & ? & ?). exists lst', xs''. split; [done|lia].
    + apply okP_ret. cbn [fst snd]. assert (rem_len - qlen = 0) as E by lia. rewrite E in Hi'.
      destruct p; (exists (Some q), xs'; split; [exact Hi'|lia]).
  - destruct p as [p|].
    + destruct Hi as [Hc _ Hn Hnew Hwf Ht He].
      set (h1 := pbuf_pool_is_empty (malloc_failed h)).
      eapply okP_bind.
      { apply (pbuf_free_ok custom_free_function (Some p) xs h1); [|done|done|by apply new_counted].
        by apply (chain_pbufs h h1). }
      intros [c h2] [_ Hrel]. apply okP_ret. cbn [fst snd] in *.
      eapply (released_extends xs h0 h1); try done. by destruct He.
    + destruct Hi as [Hc [[_ ->]|[? _]] _ _ _ _ He]; [|done].
      apply okP_ret. simpl. destruct He as [Ep Eb _ _ _].
      split; apply map_eq; intros l; [apply Ep | apply Eb]; by intros ?%elem_of_nil.
Qed.
End Alloc.

(** What [pbuf_alloc] hands out: a chain of new, unshared pbufs of the requested
    total length; for the types that own their data, the payload lies in memory
    of its own with room for the headers in front. *)
Record allocated (layer : pbuf_layer) (type : pbuf_type) (length : Z) (h h' : heap)
    (p : option loc) (xs : list (loc * pbuf)) : Prop := mkAllocated {
  al_chain : chain h' p xs;
  al_nodup : NoDup (locs xs);
  al_new : Forall (λ x, new_pbuf x.2) xs;
  al_tots : tots xs;
  al_len : sum_len xs = length;
  al_ext : extends (locs xs) h h';
  al_wf : type = PBUF_RAM ∨ type = PBUF_POOL → Forall (λ x, wf_pbuf h' x.2) xs;
}.

Lemma extends_one h h' :
  heap_ok h → next_loc h' = S (next_loc h) →
  (∀ k, k ≠ next_loc h → pbufs h' !! k = pbufs h !! k) →
  (∀ k, k ≠ next_loc h → bufs h' !! k = bufs h !! k) → extends [next_loc h] h h'.
Proof.
  intros Hok Hn Hp Hb. eapply (extends_grow []); [by apply extends_refl|done|done|done|]. auto.
Qed.

(** The pbuf of a RAM allocation. *)
Definition ram_pbuf (layer : pbuf_layer) (length : Z) (q : loc) : pbuf :=
  pbuf_init_alloced_pbuf (Some (q, layer_offset layer)) length length PBUF_RAM 0.

Lemma layer_offset_range layer : 0 ≤ layer_offset layer ≤ 100.
Proof. by destruct layer. Qed.

Lemma pbuf_alloc_ram malloc_fails junk custom_free_function layer length h :
  heap_ok h → 0 ≤ length < 2 ^ 16 →
  okP (pbuf_alloc malloc_fails junk custom_free_function layer length PBUF_RAM h) (λ r,
    match r.1 with
    | None => pbufs r.2 = pbufs h ∧ bufs r.2 = bufs h
    | Some q => packet r.2 (Some q) [(q, ram_pbuf layer length q)] ∧ extends [q] h r.2
    end).
Proof.
  intros Hok Hl. pose proof (layer_offset_range layer) as Ho. unfold pbuf_alloc.
  set (pl := u16 _). destruct (Z.ltb_spec pl length) as [Hov|Hov]; [by apply okP_ret|].
  destruct (malloc malloc_fails h) as [[q h1]|] eqn:Hm; [|by apply okP_ret].
  apply malloc_inv in Hm as (-> & Hn & Hp & Hb). apply okP_ret. cbn [fst snd].
  assert (pl = layer_offset layer + length) as Hpl.
  { destruct (Z.lt_ge_cases (layer_offset layer + length) (2 ^ 16)) as [Hc|Hc].
    - unfold pl. by apply u16_id; lia.
    - exfalso. revert Hov. unfold pl, u16.
      rewrite <- (Z_mod_plus_full _ (-1)), Z.mod_small by lia. lia. }
  split; [split|].
  - constructor; [apply lookup_insert_eq | constructor].
  - apply NoDup_singleton.
  - apply Forall_singleton. split; [simpl; lia|].
    eexists _, _, _. split_and!; [reflexivity|apply lookup_insert_eq|lia|].
    rewrite length_fmap, length_seq. cbn [ram_pbuf pbuf_init_alloced_pbuf len snd]. lia.
  - simpl. split; [lia|done].
  - simpl. lia.
  - apply extends_one; auto; intros k Hk; cbn [pbufs bufs add_pbuf set_pbufs add_data set_bufs];
      rewrite lookup_insert_ne by done; congruence.
Qed.

Lemma pbuf_alloc_ok malloc_fails junk custom_free_function layer length type h :
  heap_ok h → 0 ≤ length < 2 ^ 16 →
  okP (pbuf_alloc malloc_fails junk custom_free_function layer length type h) (λ r,
    match r.1 with
    | None => pbufs r.2 = pbufs h ∧ bufs r.2 = bufs h
    | Some _ => ∃ xs, allocated layer type length h r.2 r.1 xs
    end).
Proof.
  intros Hok Hl.
  assert (0 ≤ layer_offset layer ≤ 100) as Ho by (by destruct layer).
  assert (Href : ∀ t, t = PBUF_REF ∨ t = PBUF_ROM →
    okP (pbuf_alloc_reference malloc_fails None length t h) (λ r,
      match r.1 with
      | None => pbufs r.2 = pbufs h ∧ bufs r.2 = bufs h
      | Some _ => ∃ xs, allocated layer t length h r.2 r.1 xs
      end)).
  { intros t Ht. unfold pbuf_alloc_reference. destruct (malloc malloc_fails h) as [[q h1]|] eqn:Hm.
    2: { destruct Ht as [-> | ->]; by apply okP_ret. }
    apply malloc_inv in Hm as (-> & Hn & Hp & Hb).
    exists (Some (next_loc h), add_pbuf (next_loc h) (pbuf_init_alloced_pbuf None length length t 0) h1).
    split; [by destruct Ht as [-> | ->]|].
    exists [(next_loc h, pbuf_init_alloced_pbuf None length length t 0)]. split; simpl.
    - constructor; [apply lookup_insert_eq | constructor].
    - apply NoDup_singleton.
    - apply Forall_singleton. by destruct Ht as [-> | ->].
    - split; [lia|done].
    - lia.
    - apply extends_one; auto; simpl; intros k Hk; [|by rewrite Hb].
      by rewrite lookup_insert_ne, Hp.
    - destruct Ht as [-> | ->]; intros [?|?]; done. }
  destruct type; [|by apply Href; auto..|].
  - eapply okP_mono; [by apply pbuf_alloc_ram|]. intros [[q|] h'] Hr; cbn [fst snd] in *; [|done].
    destruct Hr as [[Hc Hn Hw Ht Hlt] He]. eexists. split; [exact Hc|exact Hn| |exact Ht| |exact He|done].
    + by apply Forall_singleton.
    + simpl. lia.
  - unfold pbuf_alloc. eapply okP_mono.
    + apply (pool_loop_spec _ _ _ _ h h None None [] length); [done| |lia|done|lia|done].
      split; try done; [constructor|by left|by apply NoDup_nil|by apply extends_refl].
    + intros [[r|] h'] Hres; cbn [fst snd] in *; [|done].
      destruct Hres as (lst & xs & [Hc _ Hn Hnew Hwf Ht He] & Hs). exists xs.
      split; try done; [by apply tots_rem_0].
Qed.

(**  [pbuf_alloc] either fails and leaves every pbuf and buffer of
    the heap as it was (also when the pool runs dry in the middle of a chain:
    what was already allocated is given back), or returns a chain of new
    pbufs, each referenced once, whose lengths add up to the requested length
    and whose payloads lie inside freshly allocated memory; nothing that
    existed before is touched.  No request makes it overflow or loop. *)
Theorem pbuf_alloc_spec malloc_fails junk custom_free_function layer length type h :
  heap_ok h → 0 ≤ length < 2 ^ 16 →
  okP (pbuf_alloc malloc_fails junk custom_free_function layer length type h) (λ r,
    match r.1 with
    | None => pbufs r.2 = pbufs h ∧ bufs r.2 = bufs h
    | Some _ => ∃ xs, allocated layer type length h r.2 r.1 xs
    end).
Proof. apply pbuf_alloc_ok. Qed.

(** ** Concatenation *)

Definition add_tot (t : Z) (b : pbuf) : pbuf := set_tot_len (u16 (tot_len b + t)) b.

Definition on_pbuf (f : pbuf → pbuf) (x : loc * pbuf) : loc * pbuf := (x.1, f x.2).

Lemma tots_rem_app xs zs : tots_rem xs (sum_len zs) → tots zs → tots (xs ++ zs).
Proof.
  induction xs as [|x xs IH]; simpl; [done|]. intros [-> H] Hz. rewrite sum_len_app.
  split; [lia|auto].
Qed.

Lemma sum_len_cons x xs : sum_len (x :: xs) = len x.2 + sum_len xs.
Proof. done. Qed.

Lemma tots_rem_cons x xs r :
  tots_rem (x :: xs) r ↔ tot_len x.2 = len x.2 + sum_len xs + r ∧ tots_rem xs r.
Proof. done. Qed.

Lemma sum_len_map f xs : (∀ b, len (f b) = len b) → sum_len (on_pbuf f <$> xs) = sum_len xs.
Proof.
  intros Hf. induction xs as [|x xs IH]; [done|].
  rewrite fmap_cons, !sum_len_cons, IH. cbn [on_pbuf snd]. by rewrite Hf.
Qed.

Lemma locs_map f xs : locs (on_pbuf f <$> xs) = locs xs.
Proof. unfold locs. rewrite <- list_fmap_compose. by apply list_fmap_ext. Qed.

Lemma content_map h f xs :
  (∀ b, len (f b) = len b ∧ payload (f b) = payload b) →
  content h (on_pbuf f <$> xs) = content h xs.
Proof.
  intros Hf. induction xs as [|x xs IH]; [done|]. rewrite fmap_cons, !content_cons, IH. f_equal.
  unfold pbuf_bytes. cbn [on_pbuf snd]. destruct (Hf x.2) as [-> ->]. done.
Qed.

Lemma wf_map h f xs :
  (∀ b, len (f b) = len b ∧ payload (f b) = payload b) →
  Forall (λ x, wf_pbuf h x.2) xs → Forall (λ x, wf_pbuf h x.2) (on_pbuf f <$> xs).
Proof.
  intros Hf H. apply Forall_fmap. eapply Forall_impl; [exact H|].
  intros x. unfold wf_pbuf. simpl. destruct (Hf x.2) as [-> ->]. done.
Qed.

Lemma tots_add xs t :
  Forall (λ x : loc * pbuf, 0 ≤ len x.2) xs → tots xs → 0 ≤ t → sum_len xs + t < 2 ^ 16 →
  tots_rem (on_pbuf (add_tot t) <$> xs) t.
Proof.
  induction 1 as [|x xs Hx Hxs IH]; [done|]. intros [Ht H] Ht0 Hlt. rewrite sum_len_cons in Hlt.
  assert (0 ≤ sum_len xs) by (clear -Hxs; induction Hxs; simpl; lia).
  rewrite fmap_cons, tots_rem_cons, sum_len_map by done. cbn [on_pbuf snd].
  split; [simpl; rewrite u16_id; lia | apply IH; auto; lia].
Qed.

Lemma upd_lookup p b f h :
  pbufs h !! p = Some b →
  okP (upd (Some p) f h) (λ h', h' = set_pbufs (<[p := f b]> (pbufs h)) h).
Proof. intros H. unfold upd. rewrite H. by apply okP_ret. Qed.

(** [cat_loop] adds the tail's length to every pbuf but the last. *)
Lemma cat_loop_spec ys l b fuel p t tb h :
  chain h p (ys ++ [(l, b)]) → NoDup (locs (ys ++ [(l, b)])) → (length ys < fuel)%nat →
  pbufs h !! t = Some tb → t ∉ locs ys →
  okP (cat_loop fuel p (Some t) h) (λ r, r.1 = Some l ∧ bufs r.2 = bufs h ∧
    next_loc r.2 = next_loc h ∧
    (∀ x, x ∈ ys → pbufs r.2 !! x.1 = Some (add_tot (tot_len tb) x.2)) ∧
    (∀ k, k ∉ locs ys → pbufs r.2 !! k = pbufs h !! k)).
Proof.
  revert fuel p h. induction ys as [|[k y] ys IH]; intros fuel p h Hc Hn Hf Ht Htx; simpl in *.
  - inversion Hc as [|? ? ? Hl Hc']; subst. destruct fuel as [|fuel]; [lia|]. cbn [cat_loop].
    unfold get. rewrite Hl. mstep. assert (next b = None) as -> by (by inversion Hc').
    apply okP_ret. split_and!; try done. by intros x Hx%elem_of_nil.
  - inversion Hc as [|? ? ? Hk Hc']; subst. destruct fuel as [|fuel]; [lia|]. cbn [cat_loop].
    unfold get. rewrite Hk. mstep. apply NoDup_cons in Hn as [Hkn Hn].
    destruct (next y) as [k'|] eqn:Hny; [|inversion Hc'; by destruct ys].
    rewrite Ht. mstep. eapply okP_bind; [by apply upd_lookup|]. intros h1 ->.
    assert (Hf1 : ∀ j, j ≠ k → pbufs (set_pbufs (<[k:=set_tot_len (u16 (tot_len y + tot_len tb)) y]>
      (pbufs h)) h) !! j = pbufs h !! j) by (intros j Hj; simpl; by rewrite lookup_insert_ne).
    apply not_elem_of_cons in Htx as [Htk Htx].
    eapply okP_mono.
    + apply (IH fuel (Some k')); [|done|lia|by rewrite Hf1|done].
      eapply chain_frame; [|exact Hc']. intros j Hj. apply Hf1. intros ->. by apply Hkn.
    + intros [q h'] (Hq & Hb & Hnl & Hin & Hout). simpl in *. split_and!; try done.
      * intros x [->|Hx]%elem_of_cons; [|by apply Hin]. simpl.
        rewrite Hout, lookup_insert_eq; [done|]. intros H. apply Hkn.
        unfold locs. rewrite fmap_app. set_solver.
      * intros j [Hjk Hj]%not_elem_of_cons. rewrite Hout by done. by apply Hf1.
Qed.

Lemma chain_cat h h' p t ys l b zs :
  chain h p (ys ++ [(l, b)]) → chain h t zs →
  (∀ k, k ∈ locs zs → pbufs h' !! k = pbufs h !! k) →
  ∀ (f : pbuf → pbuf) b', (∀ x, x ∈ ys → pbufs h' !! x.1 = Some (f x.2)) →
  (∀ b, next (f b) = next b) → pbufs h' !! l = Some b' → next b' = t →
  chain h' p ((on_pbuf f <$> ys) ++ (l, b') :: zs).
Proof.
  intros Hc Hz Hfz f b' Hf Hfn Hl Hb'. revert p Hc.
  induction ys as [|[k y] ys IH]; intros p Hc.
  - inversion Hc; subst. constructor; [done|]. by eapply chain_frame.
  - rewrite fmap_cons. inversion Hc as [|? ? ? Hk Hc']; subst.
    constructor; [by apply (Hf (k, y)); left|]. rewrite Hfn. apply IH; [|done].
    intros x Hx. apply Hf. by right.
Qed.

Lemma tots_last xs l b : tots (xs ++ [(l, b)]) → tot_len b = len b.
Proof. induction xs as [|x xs IH]; simpl; [intros [-> _]; lia|]. intros [_ H]. auto. Qed.

Lemma packet_len_nonneg h p xs : packet h p xs → Forall (λ x : loc * pbuf, 0 ≤ len x.2) xs.
Proof. intros [_ _ Hw _ _]. eapply Forall_impl; [exact Hw|]. by intros x [? _]. Qed.

(** The head chain after the tail [t], of length [T], is linked behind it. *)
Definition cat_head (t : loc) (T : Z) (ys : list (loc * pbuf)) (l : loc) (b : pbuf)
    : list (loc * pbuf) :=
  (on_pbuf (add_tot T) <$> ys) ++ [(l, set_next (Some t) (add_tot T b))].

Lemma cat_head_locs t T ys l b : locs (cat_head t T ys l b) = locs (ys ++ [(l, b)]).
Proof. unfold cat_head, locs. rewrite !fmap_app. f_equal. apply locs_map. Qed.

Lemma cat_head_content h t T ys l b :
  content h (cat_head t T ys l b) = content h (ys ++ [(l, b)]).
Proof. unfold cat_head. rewrite !content_app, content_map by done. done. Qed.

Lemma cat_head_len t T ys l b : sum_len (cat_head t T ys l b) = sum_len (ys ++ [(l, b)]).
Proof. unfold cat_head. rewrite !sum_len_app, sum_len_map by done. done. Qed.

Lemma cat_head_tots t T ys l b :
  Forall (λ x : loc * pbuf, 0 ≤ len x.2) (ys ++ [(l, b)]) → tots (ys ++ [(l, b)]) → 0 ≤ T →
  sum_len (ys ++ [(l, b)]) + T < 2 ^ 16 → tots_rem (cat_head t T ys l b) T.
Proof.
  intros Hl Ht HT Hlt. unfold cat_head. apply (tots_rem_relink _ l (add_tot T b)).
  pose proof (tots_add _ T Hl Ht HT Hlt) as H. by rewrite fmap_app in H.
Qed.

Lemma wf_bufs h h' (xs : list (loc * pbuf)) :
  bufs h' = bufs h → Forall (λ x, wf_pbuf h x.2) xs → Forall (λ x, wf_pbuf h' x.2) xs.
Proof.
  intros Hb Hw. eapply Forall_impl; [exact Hw|]. intros x. apply wf_pbuf_bufs.
  intros l _. by rewrite Hb.
Qed.

Lemma pbuf_cat_ok h hd t xs zs :
  packet h (Some hd) xs → packet h (Some t) zs → NoDup (locs (xs ++ zs)) →
  sum_len xs + sum_len zs < 2 ^ 16 →
  okP (pbuf_cat (Some hd) (Some t) h) (λ h', ∃ xs', bufs h' = bufs h ∧
    packet h' (Some hd) (xs' ++ zs) ∧ locs xs' = locs xs ∧
    content h' (xs' ++ zs) = content h xs ++ content h zs ∧
    (∀ k, k ∉ locs xs → pbufs h' !! k = pbufs h !! k)).
Proof.
  intros Hx Hz Hn Hlt. pose proof Hx as [Hc _ Hw Ht _]. pose proof Hz as [Hcz _ Hwz Htz _].
  destruct (exists_last (l := xs)) as (ys & [l b] & ->); [by intros ->; inversion Hc|].
  unfold pbuf_cat. rewrite !bool_decide_eq_true_2 by eauto. mstep.
  destruct zs as [|[t' tb] zs]; [inversion Hcz|]. assert (t' = t ∧ pbufs h !! t = Some tb) as [-> Htb] by (by inversion Hcz; subst).
  assert (Hdis : ∀ k, k ∈ locs (ys ++ [(l, b)]) → k ∉ locs ((t, tb) :: zs)).
  { unfold locs in *. rewrite fmap_app in Hn. by apply NoDup_app in Hn as (_ & ? & _). }
  assert (Hly : ∀ k, k ∈ locs ys → k ∈ locs (ys ++ [(l, b)]))
    by (intros k; unfold locs; rewrite fmap_app; set_solver).
  assert (l ∈ locs (ys ++ [(l, b)])) as Hll by (unfold locs; rewrite fmap_app; set_solver).
  assert (t ∈ locs ((t, tb) :: zs)) as Htt by (by left).
  pose proof (packet_fuel _ _ _ Hx) as Hfu. rewrite length_app in Hfu. simpl in Hfu.
  eapply okP_bind.
  { apply (cat_loop_spec ys l b _ _ t tb); [done|apply Hx|lia|done|]. intros Hk; by apply (Hdis t); auto. }
  intros [q h1] (Hq & Hb1 & _ & Hin & Hout). cbn [fst snd] in *. subst q.
  assert (Hl1 : pbufs h1 !! l = Some b).
  { rewrite Hout; [by apply (chain_lookup h _ _ (l, b) Hc); set_solver|]. pose proof (pk_nodup _ _ _ Hx) as H.
    unfold locs in *. rewrite fmap_app in H. apply NoDup_app in H as (_ & H & _). set_solver. }
  mstep. rewrite (get_some l b h1 Hl1). mstep. rewrite (tots_last _ _ _ Ht), Z.eqb_refl. mstep.
  rewrite (get_some t tb h1) by (rewrite Hout; [done|]; intros Hk; by apply (Hdis t); auto). mstep.
  eapply okP_mono; [by apply upd_lookup|]. intros h2 ->.
  set (h2 := set_pbufs _ h1). set (T := tot_len tb).
  assert (HT : T = sum_len ((t, tb) :: zs)) by (by destruct Htz).
  assert (Hp2 : ∀ k, k ≠ l → pbufs h2 !! k = pbufs h1 !! k)
    by (intros k Hk; unfold h2; simpl; by rewrite lookup_insert_ne).
  assert (Hyl : ∀ x, x ∈ ys → x.1 ≠ l).
  { intros x Hx' Heq. pose proof (pk_nodup _ _ _ Hx) as H. unfold locs in H.
    rewrite fmap_app in H. apply NoDup_app in H as (_ & H & _).
    apply (H x.1); [by apply list_elem_of_fmap_2 | rewrite Heq; by left]. }
  exists (cat_head t T ys l b). split_and!.
  - exact Hb1.
  - split.
    + unfold cat_head. rewrite <- app_assoc. eapply (chain_cat h h2); [exact Hc|exact Hcz| | |done| |done].
      * intros k Hk. rewrite Hp2 by (intros ->; by apply (Hdis l)).
        apply Hout. intros H. by apply (Hdis k); auto.
      * intros x Hx'. rewrite Hp2 by auto. by apply Hin.
      * apply lookup_insert_eq.
    + unfold locs in *. rewrite fmap_app in *. fold (locs (cat_head t T ys l b)).
      by rewrite cat_head_locs.
    + apply (wf_bufs h h2) in Hwz, Hw; [|exact Hb1..]. apply Forall_app. split; [|exact Hwz].
      apply Forall_app in Hw as [Hw1 Hw2]. apply Forall_app. split; [by apply wf_map | by rewrite Forall_singleton in *].
    + apply tots_rem_app; [|done]. rewrite <- HT. apply cat_head_tots; auto.
      * by eapply packet_len_nonneg.
      * rewrite HT. by eapply sum_len_nonneg.
      * by rewrite HT.
    + by rewrite sum_len_app, cat_head_len.
  - apply cat_head_locs.
  - rewrite content_app, cat_head_content.
    assert (Hcb : ∀ zs', content h2 zs' = content h zs').
    { intros zs'. unfold content, pbuf_bytes. simpl. by rewrite Hb1. }
    by rewrite !Hcb.
  - intros k Hk. rewrite Hp2 by (intros ->; done). apply Hout. auto.
Qed.

(**  [pbuf_cat] concatenates: linking two separate packets whose
    lengths fit in a [tot_len] together gives a well-formed packet (every
    [tot_len] of the head is adjusted) whose content is the content of the
    head followed by that of the tail; the tail's pbufs and everything outside
    the head are untouched.  [pbuf_chain] does the same and takes one more
    reference on the tail. *)
Theorem pbuf_cat_spec h hd t xs zs :
  packet h (Some hd) xs → packet h (Some t) zs → NoDup (locs (xs ++ zs)) →
  sum_len xs + sum_len zs < 2 ^ 16 →
  okP (pbuf_cat (Some hd) (Some t) h) (λ h', ∃ xs', bufs h' = bufs h ∧
    packet h' (Some hd) (xs' ++ zs) ∧ locs xs' = locs xs ∧
    content h' (xs' ++ zs) = content h xs ++ content h zs ∧
    (∀ k, k ∉ locs xs → pbufs h' !! k = pbufs h !! k) ∧
    ((∀ b, pbufs h !! t = Some b → 0 ≤ ref b < 255) →
     okP (pbuf_chain (Some hd) (Some t) h) (λ h'', bufs h'' = bufs h ∧ ∀ k,
       pbufs h'' !! k = if decide (k = t) then (λ b, set_ref (ref b + 1) b) <$> pbufs h' !! k
                        else pbufs h' !! k))).
Proof.
  intros Hx Hz Hn Hlt. destruct (pbuf_cat_ok h hd t xs zs Hx Hz Hn Hlt)
    as (h' & Heq & xs' & Hb & Hp & Hl & Hc & Hf).
  exists h'. split; [done|]. exists xs'. split_and!; try done. intros Hr.
  unfold pbuf_chain. rewrite Heq. mstep. unfold pbuf_ref.
  pose proof (pk_chain _ _ _ Hz) as Hcz. inversion Hcz as [|? tb ? Htb ?]; subst.
  assert (Ht' : pbufs h' !! t = Some tb).
  { rewrite Hf; [done|]. unfold locs in *. rewrite fmap_app in Hn.
    apply NoDup_app in Hn as (_ & Hd & _). intros H'. apply (Hd t H'). by left. }
  unfold get. rewrite Ht'. mstep. specialize (Hr tb Htb). rewrite u8_id by lia.
  eapply okP_bind; [by apply upd_lookup|]. intros h'' ->.
  rewrite (proj2 (Z.ltb_lt 0 (ref tb + 1))) by lia. apply okP_ret. split; [done|]. intros k. simpl.
  destruct (decide (k = t)) as [->|Hk]; [by rewrite lookup_insert_eq, Ht'|by rewrite lookup_insert_ne].
Qed.

(** ** Headers *)

(** The pbuf owns the memory its payload lies in, [o] bytes from its start. *)
Definition owns (p : loc) (b : pbuf) (o : Z) : Prop :=
  payload b = Some (p, o) ∧
  Z.land (type_internal b) PBUF_TYPE_FLAG_STRUCT_DATA_CONTIGUOUS ≠ 0.

(** The pbuf with its payload moved [n] bytes up (down, for a negative [n]). *)
Definition shift_header (n : Z) (b : pbuf) : pbuf :=
  set_tot_len (tot_len b - n) (set_len (len b - n)
    (set_payload ((λ q, (q.1, q.2 + n)) <$> payload b) b)).

Lemma shift_header_wf h n b :
  wf_pbuf h b → 0 ≤ n ≤ len b → wf_pbuf h (shift_header n b) ∧
  pbuf_bytes h (shift_header n b) = drop (Z.to_nat n) (pbuf_bytes h b).
Proof.
  intros (Hl & blk & o & buf & Hp & Hb & Ho & Hr) Hn. split.
  - split; [simpl; lia|]. exists blk, (o + n), buf. simpl. rewrite Hp. simpl.
    split_and!; try done; lia.
  - unfold pbuf_bytes, shift_header. simpl. rewrite Hp. simpl. rewrite Hb. simpl. unfold slice.
    rewrite skipn_firstn_comm, drop_drop. f_equal; [lia|]. f_equal. lia.
Qed.

Lemma packet_head_update h p b b' xs :
  packet h (Some p) ((p, b) :: xs) → next b' = next b → wf_pbuf h b' →
  tot_len b' = len b' + sum_len xs → len b' + sum_len xs < 2 ^ 16 →
  packet (set_pbufs (<[p := b']> (pbufs h)) h) (Some p) ((p, b') :: xs).
Proof.
  intros [Hc Hn Hw [_ Ht] Hl] Hnx Hw' Ht' Hl'. inversion Hc as [|? ? ? Hp Hc']; subst.
  split; try done.
  - constructor; [apply lookup_insert_eq|]. rewrite Hnx. eapply chain_frame; [|exact Hc'].
    intros k Hk. simpl. rewrite lookup_insert_ne; [done|]. intros ->.
    by apply NoDup_cons in Hn as [? _].
  - apply (wf_bufs h); [done|]. apply Forall_cons in Hw as [_ Hw]. by constructor.
Qed.

Lemma pbuf_remove_header_ok h p b xs n :
  packet h (Some p) ((p, b) :: xs) → 0 ≤ n ≤ len b →
  pbuf_remove_header (Some p) n h =
    Ok (true, if n =? 0 then h else set_pbufs (<[p := shift_header n b]> (pbufs h)) h).
Proof.
  intros Hp Hn. pose proof Hp as Hp0. at_head Hp. cbn [snd fst] in *. unfold pbuf_remove_header.
  rewrite bool_decide_eq_true_2 by eauto. mstep. rewrite (proj2 (Z.ltb_ge _ n)) by lia.
  destruct (Z.eqb_spec n 0) as [->|Hn0]; [done|]. rewrite Hget. mstep.
  rewrite (proj2 (Z.leb_le _ _)) by lia. mstep. unfold upd.
  assert (pbufs h !! p = Some b) as -> by (pose proof (pk_chain _ _ _ Hp0) as Hc; by inversion Hc).
  mstep. rewrite !u16_id by lia. done.
Qed.

(** When [pbuf_add_header] moves the payload of a pbuf that owns its memory. *)
Lemma pbuf_add_header_ok h p b o n force :
  pbufs h !! p = Some b → owns p b o → 0 ≤ n → 0 ≤ len b ≤ tot_len b → tot_len b < 2 ^ 16 →
  pbuf_add_header_impl (Some p) n force h =
    Ok (if n =? 0 then (true, h)
        else if (n <=? o) && (tot_len b + n <? 2 ^ 16)
             then (true, set_pbufs (<[p := shift_header (- n) b]> (pbufs h)) h)
             else (false, h)).
Proof.
  intros Hp [Hpl Hty] Hn Hlt Ht. unfold pbuf_add_header_impl.
  rewrite bool_decide_eq_true_2 by eauto. mstep.
  destruct (Z.ltb_spec 0xFFFF n) as [Hbig|Hsm].
  { rewrite (proj2 (Z.eqb_neq n 0)), (proj2 (Z.ltb_ge (tot_len b + n) _)), andb_false_r by lia. done. }
  destruct (Z.eqb_spec n 0) as [->|Hn0]; [done|]. rewrite (get_some p b h Hp). mstep.
  destruct (Z.ltb_spec (tot_len b + n) (2 ^ 16)) as [Hfit|Hov].
  - rewrite (u16_id (n + tot_len b)), (proj2 (Z.ltb_ge _ _)) by lia.
    rewrite (proj2 (Z.eqb_neq _ _) Hty). mstep. rewrite Hpl, bool_decide_eq_true_2 by done.
    rewrite andb_true_r. destruct (Z.leb_spec n o).
    + rewrite (proj2 (Z.ltb_ge _ _)) by lia. unfold upd. rewrite Hp. mstep.
      rewrite !u16_id by lia. unfold shift_header. rewrite Hpl. simpl.
      repeat f_equal; destruct b; simpl; f_equal; lia.
    + rewrite (proj2 (Z.ltb_lt _ _)) by lia. done.
  - rewrite andb_false_r. rewrite (proj2 (Z.ltb_lt _ _)); [done|].
    unfold u16. rewrite <- (Z_mod_plus_full _ (-1)), Z.mod_small by lia. lia.
Qed.

Lemma shift_header_back n b : shift_header (- n) (shift_header n b) = b.
Proof.
  unfold shift_header. destruct b as [nx pl t l ty fl r i]. simpl.
  replace (t - n - - n) with t by lia. replace (l - n - - n) with l by lia.
  destruct pl as [[q o]|]; simpl; [|done]. by replace (o + n + - n) with o by lia.
Qed.

(**  Hiding and revealing a header: [pbuf_remove_header] of up to
    [len] bytes succeeds and takes them off the front of the content, leaving a
    well-formed packet; [pbuf_add_header] of the same size then puts the pbuf
    and the heap back exactly as they were.  In general [pbuf_add_header]
    succeeds exactly when the pbuf's own memory has that much room in front of
    the payload and [tot_len] does not overflow, and otherwise changes
    nothing. *)
Theorem pbuf_header_roundtrip h p b xs o n :
  packet h (Some p) ((p, b) :: xs) → owns p b o → 0 ≤ n ≤ len b →
  okP (pbuf_remove_header (Some p) n h) (λ r, r.1 = true ∧ ∃ b',
    packet r.2 (Some p) ((p, b') :: xs) ∧
    content r.2 ((p, b') :: xs) = drop (Z.to_nat n) (content h ((p, b) :: xs)) ∧
    okP (pbuf_add_header (Some p) n r.2) (λ r', r'.1 = true ∧
      pbufs r'.2 = pbufs h ∧ bufs r'.2 = bufs h)) ∧
  ∀ m, 0 ≤ m → okP (pbuf_add_header (Some p) m h) (λ r,
    (r.1 = true ↔ m = 0 ∨ (m ≤ o ∧ tot_len b + m < 2 ^ 16)) ∧ (r.1 = false → r.2 = h)).
Proof.
  intros Hp Ho Hn. pose proof Hp as Hp0. at_head Hp. cbn [fst snd] in *.
  assert (Hpb : pbufs h !! p = Some b) by (pose proof (pk_chain _ _ _ Hp0) as Hc; by inversion Hc).
  destruct Ho as [Hpl Hty]. split.
  - rewrite (pbuf_remove_header_ok h p b xs n) by done. apply okP_ret. cbn [fst snd]. split; [done|].
    destruct (shift_header_wf h n b Hwf Hn) as [Hw Hby].
    destruct (Z.eqb_spec n 0) as [->|Hn0].
    { exists b. split_and!; [done|by rewrite drop_0|].
      unfold pbuf_add_header. rewrite (pbuf_add_header_ok h p b o) by (done || lia).
      by apply okP_ret. }
    exists (shift_header n b). split_and!.
    + apply (packet_head_update h p b); simpl; try done; lia.
    + rewrite !content_cons. cbn [snd].
      assert (∀ zs, content (set_pbufs (<[p:=shift_header n b]> (pbufs h)) h) zs = content h zs) as Hcb
        by done. rewrite Hcb. change (pbuf_bytes (set_pbufs _ h) ?b') with (pbuf_bytes h b').
      rewrite Hby, drop_app_le; [done|]. pose proof (pbuf_bytes_length h b Hwf). lia.
    + unfold pbuf_add_header.
      rewrite (pbuf_add_header_ok _ p (shift_header n b) (o + n)).
      * rewrite (proj2 (Z.eqb_neq n 0)) by done. simpl.
        rewrite (proj2 (Z.leb_le n (o + n))), (proj2 (Z.ltb_lt _ _)) by
          (pose proof Hwf as (_ & ? & ? & ? & Hpl' & _ & ? & _); rewrite Hpl in Hpl'; simplify_eq; lia).
        apply okP_ret. simpl. split_and!; [done| |done].
        rewrite insert_insert_eq, shift_header_back. by apply insert_id.
      * simpl. apply lookup_insert_eq.
      * split; [simpl; by rewrite Hpl|done].
      * lia.
      * simpl. lia.
      * simpl. lia.
  - intros m Hm. unfold pbuf_add_header. rewrite (pbuf_add_header_ok h p b o) by (done || lia).
    apply okP_ret. destruct (Z.eqb_spec m 0) as [->|Hm0]; [split; [naive_solver|done]|].
    destruct (Z.leb_spec m o), (Z.ltb_spec (tot_len b + m) (2 ^ 16)); simpl; (split; [|by intros]);
      (split; [try (intros; discriminate); intros _; right; lia | intros [?|[? ?]]; done || lia]).
Qed.

(** ** Shrinking *)

Definition sub_tot (s : Z) (b : pbuf) : pbuf := set_tot_len (u16 (tot_len b - s)) b.

Lemma tots_split ys zs : tots (ys ++ zs) → tots_rem ys (sum_len zs) ∧ tots zs.
Proof.
  induction ys as [|y ys IH]; simpl; [done|]. intros [Ht H]. rewrite sum_len_app in Ht.
  destruct (IH H). split_and!; try done. lia.
Qed.

Lemma tots_rem_sub ys T s :
  Forall (λ x : loc * pbuf, 0 ≤ len x.2) ys → tots_rem ys T → s ≤ T → 0 ≤ s →
  sum_len ys + T < 2 ^ 16 → tots_rem (on_pbuf (sub_tot s) <$> ys) (T - s).
Proof.
  induction 1 as [|x xs Hx Hxs IH]; [done|]. intros [Ht H] Hs Hs0 Hlt. rewrite sum_len_cons in Hlt.
  assert (0 ≤ sum_len xs) by (clear -Hxs; induction Hxs; simpl; lia).
  rewrite fmap_cons, tots_rem_cons, sum_len_map by done. cbn [on_pbuf snd].
  split; [simpl; rewrite u16_id; lia | apply IH; auto; lia].
Qed.

Lemma realloc_loop_spec xs fuel p rem_len shrink h :
  packet h p xs → (length xs ≤ fuel)%nat → xs ≠ [] → 0 ≤ rem_len ≤ sum_len xs →
  okP (realloc_loop fuel p rem_len shrink h) (λ r, ∃ ys l b zs, xs = ys ++ (l, b) :: zs ∧
    r.1.1 = Some l ∧ r.1.2 = rem_len - sum_len ys ∧ 0 ≤ r.1.2 ≤ len b ∧ bufs r.2 = bufs h ∧
    (∀ x, x ∈ ys → pbufs r.2 !! x.1 = Some (sub_tot shrink x.2)) ∧
    (∀ k, k ∉ locs ys → pbufs r.2 !! k = pbufs h !! k)).
Proof.
  revert fuel p rem_len h. induction xs as [|[l b] xs IH]; intros fuel p rem_len h Hp Hf Hne Hr;
    [done|].
  pose proof Hp as Hp0. at_head Hp. cbn [fst snd] in *. rewrite sum_len_cons in Hr. cbn [snd] in Hr. simpl in Hf.
  destruct fuel as [|fuel]; [lia|]. cbn [realloc_loop]. rewrite Hget. mstep.
  destruct (Z.ltb_spec (len b) rem_len) as [Hlt|Hge].
  - assert (Hlb : pbufs h !! l = Some b) by (pose proof (pk_chain _ _ _ Hp0) as Hc; by inversion Hc).
    eapply okP_bind; [by apply upd_lookup|]. intros h1 ->.
    destruct xs as [|[l' b'] xs]; [simpl in *; lia|].
    assert (is_Some (next b)) as Hnx.
    { pose proof (pk_chain _ _ _ Hp) as Hc. inversion Hc; subst; eauto. }
    rewrite bool_decide_eq_true_2 by done. mstep. rewrite u16_id by lia.
    set (h1 := set_pbufs _ h).
    assert (Hln : l ∉ locs ((l', b') :: xs)) by (by apply pk_nodup, NoDup_cons in Hp0 as [? _]).
    assert (Hf1 : ∀ k, k ≠ l → pbufs h1 !! k = pbufs h !! k)
      by (intros k Hk; unfold h1; simpl; by rewrite lookup_insert_ne).
    eapply okP_mono.
    + apply (IH fuel (next b) (rem_len - len b) h1); [|lia|done|lia].
      destruct Hp as [Hc ? Hw ? ?]. split; try done.
      eapply chain_frame; [|exact Hc]. intros k Hk. apply Hf1. by intros ->.
    + intros [[q r'] h'] (ys & l2 & b2 & zs & Heq & Hq & Hrr & Hrange & Hb & Hin & Hout).
      cbn [fst snd] in *. rewrite Heq in *. exists ((l, b) :: ys), l2, b2, zs.
      rewrite sum_len_cons. cbn [snd]. split_and!; try done; try lia.
      * intros x [->|Hx]%elem_of_cons; [|by apply Hin]. simpl.
        rewrite Hout; [apply lookup_insert_eq|]. intros H. apply Hln.
        unfold locs. rewrite fmap_app. set_solver.
      * intros k [Hkl Hk]%not_elem_of_cons. rewrite Hout by done. by apply Hf1.
  - apply okP_ret. exists [], l, b, xs. simpl. split_and!; try done; try lia.
    by intros x Hx%elem_of_nil.
Qed.

(** Every pbuf of the chain holds its own data. *)
Definition self_owned (xs : list (loc * pbuf)) : Prop := Forall (λ x, block x.2 = Some x.1) xs.

(** The last pbuf of a shrunk packet. *)
Definition cut (n : Z) (b : pbuf) : pbuf := set_next None (set_tot_len n (set_len n b)).

Lemma cut_wf h n b : wf_pbuf h b → 0 ≤ n ≤ len b →
  wf_pbuf h (cut n b) ∧ pbuf_bytes h (cut n b) = take (Z.to_nat n) (pbuf_bytes h b).
Proof.
  intros (Hl & blk & o & buf & Hp & Hb & Ho & Hr) Hn. split.
  - split; [simpl; lia|]. exists blk, o, buf. simpl. split_and!; try done. lia.
  - unfold pbuf_bytes. simpl. rewrite Hp, Hb. simpl. unfold slice. rewrite take_take. f_equal. lia.
Qed.

(** The shrunk packet: the pbufs in front of the cut, and the cut one. *)
Definition shrunk (s n : Z) (ys : list (loc * pbuf)) (l : loc) (b : pbuf) : list (loc * pbuf) :=
  (on_pbuf (sub_tot s) <$> ys) ++ [(l, cut n b)].

Lemma shrunk_chain h h' p ys l b zs s n :
  chain h p (ys ++ (l, b) :: zs) → (∀ x, x ∈ ys → pbufs h' !! x.1 = Some (sub_tot s x.2)) →
  pbufs h' !! l = Some (cut n b) → chain h' p (shrunk s n ys l b).
Proof.
  intros Hc Hy Hl. unfold shrunk. revert p Hc.
  induction ys as [|[k y] ys IH]; intros p Hc.
  - inversion Hc; subst. constructor; [done|]. constructor.
  - rewrite fmap_cons. inversion Hc as [|? ? ? Hk Hc']; subst.
    constructor; [by apply (Hy (k, y)); left|]. apply IH; [|done]. intros x Hx. apply Hy. by right.
Qed.

Lemma shrunk_packet h h' p ys l b zs n :
  packet h p (ys ++ (l, b) :: zs) → 0 ≤ n ≤ len b →
  let s := sum_len (ys ++ (l, b) :: zs) - (sum_len ys + n) in
  (∀ x, x ∈ ys → pbufs h' !! x.1 = Some (sub_tot s x.2)) → pbufs h' !! l = Some (cut n b) →
  (∀ x, x ∈ ys ++ [(l, b)] → wf_pbuf h' x.2 ∧ pbuf_bytes h' x.2 = pbuf_bytes h x.2) →
  packet h' p (shrunk s n ys l b) ∧
  content h' (shrunk s n ys l b) =
    take (Z.to_nat (sum_len ys + n)) (content h (ys ++ (l, b) :: zs)).
Proof.
  intros Hp Hn s Hy Hl Hw'. pose proof Hp as [Hc Hnd Hw Ht Hlen].
  assert (Hs : s = len b + sum_len zs - n)
    by (unfold s; rewrite sum_len_app, sum_len_cons; cbn [snd]; lia). clearbody s.
  pose proof (packet_len_nonneg _ _ _ Hp) as Hnn. apply Forall_app in Hnn as [Hny Hnz].
  apply Forall_app in Hw as [Hwy Hwz]. pose proof (sum_len_nonneg _ _ Hwy).
  pose proof (sum_len_nonneg _ _ Hwz) as Hz0. destruct (tots_split _ _ Ht) as [Hty Htz].
  rewrite sum_len_app, sum_len_cons in *. cbn [snd] in *.
  assert (0 ≤ sum_len zs) by (apply Forall_cons in Hwz as [_ ?]; by eapply sum_len_nonneg).
  destruct (Hw' (l, b)) as [Hwl Hbl]; [set_solver|]. cbn [snd] in *.
  destruct (cut_wf h' n b Hwl Hn) as [Hwc Hbc].
  assert (Hwy' : Forall (λ x, wf_pbuf h' x.2) ys).
  { apply Forall_forall. intros x Hx. apply Hw'. set_solver. }
  split; [split|].
  - by eapply shrunk_chain.
  - unfold shrunk, locs in *. rewrite fmap_app in *. fold (locs (on_pbuf (sub_tot s) <$> ys)).
    rewrite locs_map. apply NoDup_app in Hnd as (? & Hd & Hnd). apply NoDup_app. split_and!; [done| |].
    + intros k Hk Hin. apply (Hd k Hk). apply list_elem_of_singleton in Hin as ->. by left.
    + apply NoDup_singleton.
  - apply Forall_app. split; [by apply wf_map | by apply Forall_singleton].
  - unfold shrunk. apply tots_rem_app; [|simpl; split; [lia|done]].
    rewrite sum_len_cons. cbn [snd cut len set_next set_tot_len set_len sum_len foldr].
    replace (n + 0) with (len b + sum_len zs - s) by lia.
    apply tots_rem_sub; try done; lia.
  - unfold shrunk. rewrite sum_len_app, sum_len_map by done. simpl. lia.
  - unfold shrunk. rewrite !content_app, content_cons, content_map by done. cbn [snd].
    rewrite Hbc, Hbl. rewrite (content_cons h). cbn [snd]. pose proof (content_length h ys Hwy) as Hly.
    assert (content h' ys = content h ys) as ->.
    { unfold content. f_equal. apply list_fmap_ext. intros i x Hx. apply Hw'.
      apply list_elem_of_lookup_2 in Hx. set_solver. }
    rewrite take_app_ge by lia. f_equal. rewrite app_nil_r.
    pose proof (pbuf_bytes_length h b) as Hbb. rewrite take_app_le.
    + f_equal. lia.
    + apply Forall_cons in Hwz as [Hwb _]. specialize (Hbb Hwb). lia.
Qed.

Lemma released_frame zs h h' k :
  released zs h h' → k ∉ locs zs → pbufs h' !! k = pbufs h !! k ∧ bufs h' !! k = bufs h !! k.
Proof.
  intros [Rp Rb _] Hk. rewrite Rp, Rb.
  rewrite !decide_False by (intros H; apply Hk; by apply unshared_in).
  destruct (first_shared zs) as [x|] eqn:E; [|done]. rewrite decide_False; [done|].
  intros ->. apply Hk. apply list_elem_of_fmap. exists x. auto using first_shared_in.
Qed.

Lemma released_nil h : released [] h h.
Proof. by split. Qed.

Lemma wf_frame h h' b :
  (∀ k, block b = Some k → bufs h' !! k = bufs h !! k) → wf_pbuf h b →
  wf_pbuf h' b ∧ pbuf_bytes h' b = pbuf_bytes h b.
Proof.
  intros Hf (Hl & blk & o & buf & Hp & Hb & Ho & Hr). unfold block, pbuf_bytes in *. rewrite Hp in *.
  rewrite Hf by done. split; [|done]. split; [done|]. exists blk, o, buf. by rewrite Hf.
Qed.

(** Dropping what follows the cut. *)
Lemma realloc_tail custom_free_function h l b zs :
  chain h (next b) zs → NoDup (locs zs) → l ∉ locs zs → Forall (λ x, counted x.2) zs →
  pbufs h !! l = Some b →
  okP (h ← (match next b with
            | Some _ => '(_, h) ← pbuf_free custom_free_function (next b) h; Ok h
            | None => Ok h
            end);
       upd (Some l) (set_next None) h)
    (λ h', ∃ h1, released zs h h1 ∧ bufs h' = bufs h1 ∧
      pbufs h' = <[l := set_next None b]> (pbufs h1)).
Proof.
  intros Hc Hn Hl Hcnt Hb.
  eapply (okP_bind _ _ (released zs h)).
  - destruct (next b) as [q|] eqn:Hq; [|inversion Hc; subst; apply okP_ret, released_nil].
    eapply okP_bind; [by apply (pbuf_free_ok custom_free_function (Some q) zs)|].
    intros [c h1] [_ Hrel]. by apply okP_ret.
  - intros h1 Hrel. destruct (released_frame zs h h1 l Hrel Hl) as [Hpl _]. rewrite Hb in Hpl.
    eapply okP_mono; [by apply upd_lookup|]. intros h' ->. by exists h1.
Qed.

Lemma NoDup_mid ys l (b : pbuf) zs :
  NoDup (locs (ys ++ (l, b) :: zs)) →
  NoDup (locs zs) ∧ l ∉ locs zs ∧ (∀ x, x ∈ ys → x.1 ∉ locs zs ∧ x.1 ≠ l) ∧ l ∉ locs ys ∧
  (∀ k, k ∈ locs zs → k ∉ locs ys).
Proof.
  unfold locs. rewrite fmap_app, fmap_cons. intros (H1 & Hd & [H2 H3]%NoDup_cons)%NoDup_app.
  split_and!; try done.
  - intros x Hx. apply (list_elem_of_fmap_2 fst) in Hx. specialize (Hd _ Hx).
    apply not_elem_of_cons in Hd. naive_solver.
  - intros H. apply (Hd l H). by left.
  - intros k Hk H. apply (Hd k H). by right.
Qed.

(** What [pbuf_realloc] leaves of a packet. *)
Definition truncated (n : Z) (p : option loc) (xs : list (loc * pbuf)) (h h' : heap) : Prop :=
  ∃ xs', packet h' p xs' ∧ content h' xs' = take (Z.to_nat n) (content h xs) ∧
    locs xs' `prefix_of` locs xs ∧
    (∀ x, x ∈ unshared (drop (length xs') xs) → pbufs h' !! x.1 = None) ∧
    (∀ k, k ∉ locs xs → pbufs h' !! k = pbufs h !! k ∧ bufs h' !! k = bufs h !! k).

Lemma shrunk_locs s n ys l b zs : locs (shrunk s n ys l b) `prefix_of` locs (ys ++ (l, b) :: zs).
Proof.
  exists (locs zs). unfold shrunk, locs. rewrite !fmap_app, fmap_cons.
  fold (locs (on_pbuf (sub_tot s) <$> ys)). rewrite locs_map. by rewrite <- app_assoc.
Qed.

Lemma drop_shrunk s n ys l b zs : drop (length (shrunk s n ys l b)) (ys ++ (l, b) :: zs) = zs.
Proof.
  unfold shrunk. rewrite length_app, length_fmap. simpl.
  rewrite (cons_middle (l, b)), app_assoc, drop_app_length'; [done|]. by rewrite length_app.
Qed.

Lemma realloc_cut custom_free_function h h1 p ys l b zs n :
  packet h p (ys ++ (l, b) :: zs) → self_owned (ys ++ (l, b) :: zs) →
  Forall (λ x, counted x.2) (ys ++ (l, b) :: zs) →
  let s := sum_len (ys ++ (l, b) :: zs) - n in let rem := n - sum_len ys in
  0 ≤ rem ≤ len b → bufs h1 = bufs h →
  (∀ x, x ∈ ys → pbufs h1 !! x.1 = Some (sub_tot s x.2)) →
  (∀ k, k ∉ locs ys → pbufs h1 !! k = pbufs h !! k) →
  okP (h ← upd (Some l) (λ b, set_tot_len rem (set_len rem b)) h1;
       b ← get (Some l) h;
       h ← (match next b with
            | Some _ => '(_, h) ← pbuf_free custom_free_function (next b) h; Ok h
            | None => Ok h
            end);
       upd (Some l) (set_next None) h) (truncated n p (ys ++ (l, b) :: zs) h).
Proof.
  intros Hp Hso Hcnt s rem Hrange Hb1 Hin Hout. pose proof Hp as [Hc Hnd Hw _ _].
  destruct (NoDup_mid ys l b zs Hnd) as (Hnz & Hlz & Hyz & Hly & Hzy).
  assert (Hlb : pbufs h !! l = Some b) by (apply (chain_lookup h _ _ (l, b) Hc); set_solver).
  eapply okP_bind; [by apply upd_lookup; rewrite Hout|]. intros h2 ->. set (h2 := set_pbufs _ h1).
  assert (Hl2 : pbufs h2 !! l = Some (set_tot_len rem (set_len rem b))) by apply lookup_insert_eq.
  assert (Hp2 : ∀ k, k ≠ l → pbufs h2 !! k = pbufs h1 !! k)
    by (intros k Hk; unfold h2; simpl; by rewrite lookup_insert_ne).
  rewrite (get_some _ _ _ Hl2). mstep. apply chain_app_inv in Hc as Hcz. destruct Hcz as [q Hcz].
  eapply okP_mono.
  { apply (realloc_tail custom_free_function h2 l (set_tot_len rem (set_len rem b)) zs);
      [|done|done| |done].
    - inversion Hcz; subst. simpl. eapply chain_frame; [|done]. intros k Hk.
      rewrite Hp2 by (by intros ->). auto.
    - apply Forall_app in Hcnt as [_ Hcnt]. by apply Forall_cons in Hcnt as [_ ?]. }
  intros h' (h3 & Hrel & Hb' & Hp').
  assert (Hk' : ∀ k, k ∉ locs zs → k ≠ l → pbufs h' !! k = pbufs h1 !! k ∧ bufs h' !! k = bufs h !! k).
  { intros k Hkz Hkl. destruct (released_frame zs h2 h3 k Hrel Hkz) as [H1 H2].
    rewrite Hp', lookup_insert_ne, H1, Hp2 by done. rewrite Hb', H2. simpl. by rewrite Hb1. }
  destruct (shrunk_packet h h' p ys l b zs rem) as [Hpk Hct]; [done|lia| | | |].
  - intros x Hx. destruct (Hyz x Hx). rewrite (proj1 (Hk' x.1 ltac:(done) ltac:(done))), Hin by done.
    unfold s, rem. do 3 f_equal. lia.
  - rewrite Hp'. apply lookup_insert_eq.
  - intros x Hx. apply wf_frame.
    + intros k Hk. assert (x ∈ ys ++ (l, b) :: zs) as Hx' by set_solver.
      unfold self_owned in Hso. rewrite Forall_forall in Hso. rewrite (Hso x Hx') in Hk. injection Hk as <-.
      apply elem_of_app in Hx as [Hx|Hx]; [destruct (Hyz x Hx); by apply Hk'|].
      apply list_elem_of_singleton in Hx as ->. simpl. rewrite Hb'.
      rewrite (proj2 (released_frame zs h2 h3 l Hrel Hlz)). simpl. by rewrite Hb1.
    + rewrite Forall_forall in Hw. apply Hw. set_solver.
  - eexists. split; [exact Hpk|]. split_and!.
    + rewrite Hct. f_equal. unfold rem. lia.
    + apply shrunk_locs.
    + rewrite drop_shrunk. intros x Hx. apply (list_elem_of_fmap_2 fst) in Hx.
      rewrite Hp', lookup_insert_ne by (intros ->; apply Hlz; by apply unshared_in).
      rewrite (rl_pbufs _ _ _ Hrel). by rewrite decide_True.
    + intros k Hk. unfold locs in Hk. rewrite fmap_app, fmap_cons in Hk.
      apply not_elem_of_app in Hk as [Hk1 Hk2]. apply not_elem_of_cons in Hk2 as [Hkl Hkz].
      destruct (Hk' k Hkz Hkl) as [-> ->]. auto.
Qed.

(**  [pbuf_realloc] truncates: for [new_len] below the packet's
    length, the packet that remains is well formed and its content is the first
    [new_len] bytes of the old content; the pbufs behind the cut lose the
    chain's reference (and are deallocated when it was the last) and nothing
    outside the packet changes.  A longer [new_len] changes nothing. *)
Theorem pbuf_realloc_spec custom_free_function h p xs n :
  packet h (Some p) xs → self_owned xs → Forall (λ x, counted x.2) xs → 0 ≤ n →
  if n <? sum_len xs
  then okP (pbuf_realloc custom_free_function (Some p) n h) (truncated n (Some p) xs h)
  else pbuf_realloc custom_free_function (Some p) n h = Ok h.
Proof.
  intros Hp Hso Hcnt Hn. unfold pbuf_realloc. rewrite bool_decide_eq_true_2 by eauto. mstep.
  assert (∃ b0, get (Some p) h = Ok b0 ∧ tot_len b0 = sum_len xs) as (b0 & -> & Ht0).
  { destruct xs as [|[l b] xs]; [destruct Hp as [Hc _ _ _ _]; inversion Hc|].
    at_head Hp. exists b. split; [exact Hget | exact Htot]. }
  mstep. rewrite Ht0, Z.leb_antisym. destruct (Z.ltb_spec n (sum_len xs)) as [Hcase|Hcase]; [|done].
  mstep. pose proof (pk_len _ _ _ Hp) as Hmax. rewrite u16_id by lia.
  eapply okP_bind.
  { apply (realloc_loop_spec xs); [done|by eapply packet_fuel| |lia].
    intros ->. simpl in Hcase. lia. }
  intros [[q rem] h1] (ys & l & b & zs & -> & Hq & Hrem & Hrange & Hb1 & Hin & Hout).
  cbn [fst snd] in *. subst q rem. mstep. by apply realloc_cut.
Qed.

(** ** Copying one packet into another *)

Lemma splice_splice off (a c l : list Z) :
  0 ≤ off → off + Z.of_nat (length a) + Z.of_nat (length c) ≤ Z.of_nat (length l) →
  splice (off + Z.of_nat (length a)) c (splice off a l) = splice off (a ++ c) l.
Proof.
  intros Ho Hl. unfold splice at 2. assert (length (take (Z.to_nat off) l) = Z.to_nat off) as Ht
    by (rewrite length_take; lia).
  rewrite splice_app_r by lia. unfold splice at 2. f_equal. rewrite <- app_assoc.
  rewrite splice_app_r by lia. f_equal. unfold splice.
  replace (Z.to_nat _) with 0%nat by lia. simpl. f_equal. rewrite drop_drop, length_app. f_equal. lia.
Qed.

Lemma splice_nil off (l : list Z) : splice off [] l = l.
Proof. unfold splice. simpl. rewrite Nat.add_0_r. apply take_drop. Qed.

Definition positive_lens (xs : list (loc * pbuf)) : Prop := Forall (λ x, 0 < len x.2) xs.

(** A pbuf that is not the last of its packet has [len < tot_len]: the "no
    packet queues" checks pass. *)
Lemma no_queue h p xs :
  packet h p xs → positive_lens xs →
  (match p with
   | Some _ => b ← get p h; lwip_assert (negb (len b =? tot_len b) || bool_decide (next b = None))
   | None => Ok tt
   end) = Ok tt.
Proof.
  intros Hp Hpos. destruct xs as [|x xs]; [destruct Hp as [Hc _ _ _ _]; by inversion Hc; subst|].
  at_head Hp. rewrite Hget. mstep. rewrite Htot. apply Forall_cons in Hpos as [_ Hpos].
  destruct xs as [|y xs].
  - assert (next x.2 = None) as -> by (destruct Hp as [Hc _ _ _ _]; by inversion Hc).
    rewrite bool_decide_eq_true_2, orb_true_r by done. done.
  - apply Forall_cons in Hpos as [Hy _]. rewrite sum_len_cons.
    pose proof (packet_cons_inv _ _ _ _ Hp) as (_ & _ & _ & _ & Hs0 & _).
    rewrite (proj2 (Z.eqb_neq _ _)) by lia. done.
Qed.

Lemma packet_some h p x xs : packet h p (x :: xs) → bool_decide (is_Some p) = true.
Proof. intros Hp. at_head Hp. by rewrite bool_decide_eq_true_2 by eauto. Qed.

Lemma packet_none h p : packet h p [] → p = None.
Proof. intros [Hc _ _ _ _]. by inversion Hc. Qed.

Lemma drop_bytes_content h f fs off n :
  wf_pbuf h f.2 → 0 ≤ off → 0 ≤ n → off + n ≤ len f.2 →
  drop (Z.to_nat off) (content h (f :: fs)) =
    slice off n (pbuf_bytes h f.2) ++ drop (Z.to_nat (off + n)) (content h (f :: fs)).
Proof.
  intros Hw H1 H2 H3. pose proof (pbuf_bytes_length h f.2 Hw) as HB.
  rewrite content_cons, !drop_app_le by lia. rewrite app_assoc. f_equal. unfold slice.
  rewrite <- (take_drop (Z.to_nat n) (drop (Z.to_nat off) _)) at 1. f_equal.
  rewrite drop_drop. f_equal. lia.
Qed.

(** The two ends of the copy: [xs] from offset [off] on. *)
Record at_offset (h : heap) (p : option loc) (xs : list (loc * pbuf)) (off : Z) : Prop := mkAt {
  ao_packet : packet h p xs;
  ao_pos : positive_lens xs;
  ao_off : match xs with [] => off = 0 | x :: _ => 0 ≤ off < len x.2 end;
}.

(** Moving past [n] bytes of the first pbuf. *)
Lemma at_offset_advance h p x xs off n :
  at_offset h p (x :: xs) off → 0 ≤ n → off + n ≤ len x.2 →
  ∃ ys, at_offset h (if len x.2 <=? off + n then next x.2 else p) ys
          (if len x.2 <=? off + n then 0 else off + n) ∧
    ((ys = xs ∧ off + n = len x.2) ∨ (ys = x :: xs ∧ off + n < len x.2)).
Proof.
  intros [Hp Hpos Hoff] Hn Hle. destruct (Z.leb_spec (len x.2) (off + n)) as [H|H].
  - exists xs. split; [|left; split; [done|lia]]. apply Forall_cons in Hpos as [_ Hpos].
    at_head Hp. split; [done|done|]. destruct xs as [|y xs]; [done|].
    apply Forall_cons in Hpos as [? _]. lia.
  - exists (x :: xs). split; [|right; done]. split; [done|done|]. lia.
Qed.

Lemma at_offset_writes bs h h' p xs off :
  writes bs h h' → at_offset h p xs off → at_offset h' p xs off.
Proof. intros Hw [Hp Hpos Ho]. split; [by eapply writes_packet|done|done]. Qed.

Lemma pair_if {A B} (c : bool) (a a' : A) (b b' : B) :
  (if c then (a, b) else (a', b')) = (if c then a else a', if c then b else b').
Proof. by destruct c. Qed.

(** What is left to read or write stays the same when a pbuf is finished. *)
Lemma advance_rest h x xs ys off n :
  wf_pbuf h x.2 → 0 ≤ off → 0 ≤ n →
  ((ys = xs ∧ off + n = len x.2) ∨ (ys = x :: xs ∧ off + n < len x.2)) →
  let off' := if len x.2 <=? off + n then 0 else off + n in
  sum_len ys - off' = sum_len (x :: xs) - off - n ∧
  drop (Z.to_nat off') (content h ys) = drop (Z.to_nat (off + n)) (content h (x :: xs)).
Proof.
  intros Hw Ho Hn Hcase off'. unfold off'. rewrite sum_len_cons.
  destruct Hcase as [[-> He]|[-> Hlt]].
  - rewrite (proj2 (Z.leb_le _ _)) by lia. split_and!; [lia|].
    rewrite content_cons. pose proof (pbuf_bytes_length h x.2 Hw).
    rewrite drop_app_length' by lia. done.
  - rewrite (proj2 (Z.leb_gt _ _)) by lia. split_and!; [rewrite sum_len_cons; lia|done].
Qed.

Lemma advance_write h h' t ts ts' to n src :
  wf_pbuf h t.2 → NoDup (blocks (t :: ts)) →
  ((ts' = ts ∧ to + n = len t.2) ∨ (ts' = t :: ts ∧ to + n < len t.2)) →
  writes (blocks ts') h h' →
  content h' ts' = splice (if len t.2 <=? to + n then 0 else to + n) src (content h ts') →
  writes (blocks (t :: ts)) h h' ∧
  content h' (t :: ts) = splice (to + n) src (content h (t :: ts)).
Proof.
  intros Hwf Hnd Hcase Hw Hc. destruct Hcase as [[-> He]|[-> Hlt]].
  - rewrite (proj2 (Z.leb_le _ _)) in Hc by lia. split.
    + eapply writes_mono; [|exact Hw]. set_solver.
    + rewrite He. change (t :: ts) with ([t] ++ ts).
      replace (len t.2) with (sum_len [t] + 0) by (simpl; lia).
      apply tail_write; [done|by apply Forall_singleton|done|done|lia].
  - rewrite (proj2 (Z.leb_gt _ _)) in Hc by lia. done.
Qed.

Lemma copy_loop_spec fuel h p_to t ts to p_from f fs fo :
  at_offset h p_to (t :: ts) to → at_offset h p_from (f :: fs) fo →
  NoDup (blocks (t :: ts)) → (∀ b, b ∈ blocks (f :: fs) → b ∉ blocks (t :: ts)) →
  sum_len (f :: fs) - fo ≤ sum_len (t :: ts) - to → (length ts + length fs + 1 < fuel)%nat →
  okP (copy_loop fuel p_to p_from to fo h) (λ r, r.1 = ERR_OK ∧ writes (blocks (t :: ts)) h r.2 ∧
    content r.2 (t :: ts) = splice to (drop (Z.to_nat fo) (content h (f :: fs))) (content h (t :: ts))).
Proof.
  revert h p_to t ts to p_from f fs fo.
  induction fuel as [|fuel IH]; intros h p_to t ts to p_from f fs fo Ht Hf Hnd Hdis Hle Hfu; [lia|].
  pose proof Ht as [Hpt Hpost Hot]. pose proof Hf as [Hpf Hposf Hof].
  pose proof (packet_cons_inv _ _ _ _ Hpt) as (Ept & Hgt & Hwt & _ & Hst & Hmt & _ & _).
  pose proof (packet_cons_inv _ _ _ _ Hpf) as (_ & Hgf & Hwf & _ & Hsf & Hmf & _ & _).
  cbn [copy_loop]. rewrite Hgt, Hgf. mstep. rewrite !sum_len_cons in Hle.
  set (n := if len f.2 - fo <=? len t.2 - to then _ else _).
  assert (n = Z.min (len f.2 - fo) (len t.2 - to)) as Hn
    by (unfold n; destruct (Z.leb_spec (len f.2 - fo) (len t.2 - to)); lia). clearbody n.
  rewrite mem_read_bytes by (done || lia). mstep.
  set (bs := slice fo n (pbuf_bytes h f.2)).
  assert (Z.of_nat (length bs) = n) as Hbs
    by (apply slice_length; [lia|lia|rewrite pbuf_bytes_length by done; lia]).
  rewrite Ept in Hpt. eapply okP_bind; [apply (put_head h t ts to bs); [done|done|lia|lia]|].
  intros h1 (Hw1 & Hc1 & _ & _).
  rewrite (proj2 (Z.leb_le (to + n) (len t.2))), (proj2 (Z.leb_le (fo + n) (len f.2))) by lia. mstep.
  assert (Hcf : content h1 (f :: fs) = content h (f :: fs)) by (by eapply writes_content).
  pose proof (at_offset_writes _ _ _ _ _ _ Hw1 Ht) as Ht1.
  pose proof (at_offset_writes _ _ _ _ _ _ Hw1 Hf) as Hf1.
  destruct (at_offset_advance h1 p_from f fs fo n Hf1 ltac:(lia) ltac:(lia)) as (fs' & Haf & Hcasef).
  destruct (at_offset_advance h1 p_to t ts to n Ht1 ltac:(lia) ltac:(lia)) as (ts' & Hat & Hcaset).
  assert ((to + n =? len t.2) = (len t.2 <=? to + n)) as ->
    by (destruct (Z.eqb_spec (to + n) (len t.2)), (Z.leb_spec (len t.2) (to + n)); lia || done).
  rewrite (drop_bytes_content h f fs fo n) by (done || lia). fold bs. rewrite <- Hcf, !pair_if.
  pose proof (writes_wf _ _ _ _ Hw1 Hwf) as Hwf1. pose proof (writes_wf _ _ _ _ Hw1 Hwt) as Hwt1.
  destruct (advance_rest h1 f fs fs' fo n Hwf1 ltac:(lia) ltac:(lia) Hcasef) as (Hrf & <-).
  destruct (advance_rest h1 t ts ts' to n Hwt1 ltac:(lia) ltac:(lia) Hcaset) as (Hrt & _).
  pose proof (advance_write h1) as Hlift. specialize (λ h2 src, Hlift h2 t ts ts' to n src Hwt1 Hnd Hcaset).
  assert (Hprog : (length ts' + length fs' < length ts + length fs + 2)%nat).
  { destruct Hcasef as [[-> ?]|[-> ?]], Hcaset as [[-> ?]|[-> ?]]; simpl; lia. }
  rewrite !sum_len_cons in Hrf, Hrt.
  set (to' := if len t.2 <=? to + n then 0 else to + n) in *.
  set (fo' := if len f.2 <=? fo + n then 0 else fo + n) in *.
  set (pt := if len t.2 <=? to + n then next t.2 else p_to) in *.
  set (pf := if len f.2 <=? fo + n then next f.2 else p_from) in *.
  assert (Hsubt : blocks ts' ⊆ blocks (t :: ts) ∧ NoDup (blocks ts')).
  { apply NoDup_cons in Hnd as Hnd'. destruct Hcaset as [[-> _]|[-> _]]; [|done].
    split; [set_solver | apply Hnd']. }
  assert (Hsubf : blocks fs' ⊆ blocks (f :: fs)) by (destruct Hcasef as [[-> _]|[-> _]]; set_solver).
  clearbody pt pf to' fo'. clear Hcasef Hcaset.
  destruct Haf as [Hpf' Hposf' Hof']. destruct Hat as [Hpt' Hpost' Hot'].
  rewrite (no_queue h1 pf fs'), (no_queue h1 pt ts') by done.
  pose proof (content_length h _ (pk_wf _ _ _ Hpt)) as Hcl. rewrite sum_len_cons in Hcl.
  destruct fs' as [|f' fs'].
  - rewrite (packet_none _ _ Hpf'). rewrite orb_true_r. mstep. apply okP_ret. cbn [fst snd].
    split_and!; [done|done|]. rewrite Hc1. unfold content at 2. simpl. by rewrite drop_nil, app_nil_r.
  - destruct ts' as [|t' ts'].
    { exfalso. simpl in Hot'. pose proof (packet_cons_inv _ _ _ _ Hpf') as (_ & _ & _ & _ & ? & _).
      rewrite sum_len_cons in Hrf. simpl in Hrt. lia. }
    rewrite (packet_some _ _ _ _ Hpt'). mstep.
    pose proof (packet_cons_inv _ _ _ _ Hpf') as (Epf & _). destruct pf as [lf|]; [|done].
    simpl in Hprog. eapply okP_mono.
    { apply (IH h1 pt t' ts' to' (Some lf) f' fs' fo'); [by split|by split|apply Hsubt| |lia|lia].
      intros b Hb Hb'. by apply (Hdis b); [apply Hsubf|apply Hsubt]. }
    intros [e h2] (He & Hw2 & Hc2). cbn [fst snd] in *.
    destruct (Hlift h2 _ Hw2 Hc2) as [Hw Hc]. split_and!; [done|by eapply writes_trans|].
    rewrite Hc, Hc1. rewrite <- Hbs. apply splice_splice; [lia|].
    rewrite Hcl, length_drop. pose proof (content_length h1 _ (pk_wf _ _ _ Hpf')) as Hclf.
    simpl in Hof'. lia.
Qed.

Lemma pbuf_copy_ok h p_to ts p_from fs :
  packet h (Some p_to) ts → packet h (Some p_from) fs → positive_lens ts → positive_lens fs →
  NoDup (blocks ts) → (∀ b, b ∈ blocks fs → b ∉ blocks ts) → sum_len fs ≤ sum_len ts →
  okP (pbuf_copy (Some p_to) (Some p_from) h) (λ r, r.1 = ERR_OK ∧ writes (blocks ts) h r.2 ∧
    packet r.2 (Some p_to) ts ∧
    content r.2 ts = content h fs ++ drop (length (content h fs)) (content h ts)).
Proof.
  intros Ht Hf Hpt Hpf Hn Hd Hle. unfold pbuf_copy. rewrite !bool_decide_eq_true_2 by eauto. mstep.
  destruct ts as [|t ts]; [by apply packet_none in Ht|].
  destruct fs as [|f fs]; [by apply packet_none in Hf|].
  pose proof (packet_cons_inv _ _ _ _ Ht) as (_ & -> & _ & _ & _ & _ & Htt & _). mstep.
  pose proof (packet_cons_inv _ _ _ _ Hf) as (_ & -> & _ & _ & _ & _ & Htf & _). mstep.
  rewrite !sum_len_cons in Hle. rewrite Htt, Htf, (proj2 (Z.leb_le _ _) Hle). mstep.
  pose proof (packet_fuel _ _ _ Ht) as Hf1. pose proof (packet_fuel _ _ _ Hf) as Hf2. simpl in Hf1, Hf2.
  eapply okP_mono.
  { apply (copy_loop_spec (2 * fuel_of h) h (Some p_to) t ts 0 (Some p_from) f fs 0); try done; [..|lia].
    - split; [done|done|]. by apply Forall_cons in Hpt as [? _].
    - split; [done|done|]. by apply Forall_cons in Hpf as [? _].
    - rewrite !sum_len_cons. lia. }
  intros [e h'] (He & Hw & Hc). cbn [fst snd] in *.
  split_and!; [done|done|by eapply writes_packet|exact Hc].
Qed.

(** A packet survives allocations, and lies apart from them. *)
Lemma packet_extends ls h h' p xs :
  heap_ok h → extends ls h h' → packet h p xs →
  packet h' p xs ∧ content h' xs = content h xs ∧ ∀ q, q ∈ ls → Some q ∉ blocks xs.
Proof.
  intros Hok He Hp. pose proof Hp as [Hc Hn Hw Ht Hl].
  assert (Hold : ∀ k b, pbufs h !! k = Some b → k ∉ ls).
  { intros k b Hk Hin. apply (ex_fresh _ _ _ He) in Hin as [Hin _].
    destruct (Hok k Hin) as [H1 _]. by rewrite H1 in Hk. }
  assert (Holdb : ∀ k, bufs h !! k ≠ None → bufs h' !! k = bufs h !! k).
  { intros k Hk. apply (ex_bufs _ _ _ He). intros Hin. apply (ex_fresh _ _ _ He) in Hin as [Hin _].
    destruct (Hok k Hin) as [_ H1]. by rewrite H1 in Hk. }
  assert (Hwb : ∀ x, x ∈ xs → ∃ blk o buf, payload x.2 = Some (blk, o) ∧ bufs h !! blk = Some buf).
  { intros x Hx. rewrite Forall_forall in Hw. destruct (Hw x Hx) as (_ & blk & o & buf & ? & ? & _). eauto. }
  split_and!.
  - split; try done.
    + eapply chain_frame; [|exact Hc]. intros k Hk. apply list_elem_of_fmap in Hk as (x & -> & Hx).
      apply (ex_pbufs _ _ _ He). eapply Hold. by eapply chain_lookup.
    + eapply Forall_impl; [exact Hw|]. intros x. by apply wf_pbuf_bufs.
  - unfold content. f_equal. apply list_fmap_ext. intros i x Hx. apply list_elem_of_lookup_2 in Hx.
    destruct (Hwb x Hx) as (blk & o & buf & Hpl & Hb). unfold pbuf_bytes. rewrite Hpl.
    by rewrite Holdb by (by rewrite Hb).
  - intros q Hq Hin. apply list_elem_of_fmap in Hin as (x & Hbx & Hx).
    destruct (Hwb x Hx) as (blk & o & buf & Hpl & Hb). unfold block in Hbx. rewrite Hpl in Hbx.
    injection Hbx as ->. apply (ex_fresh _ _ _ He) in Hq as [Hq _].
    destruct (Hok blk Hq) as [_ H1]. by rewrite H1 in Hb.
Qed.

(**  [pbuf_clone] into a [PBUF_RAM] buffer: when the allocation
    succeeds, the clone is one new well-formed pbuf whose content is exactly the
    content of the source packet; the source packet, its content and every
    other pbuf and buffer of the heap are unchanged.  When it fails nothing is
    leaked. *)
Theorem pbuf_clone_spec malloc_fails junk custom_free_function layer h p xs :
  heap_ok h → packet h (Some p) xs → positive_lens xs → 
  okP (pbuf_clone malloc_fails junk custom_free_function layer PBUF_RAM (Some p) h) (λ r,
    match r.1 with
    | None => pbufs r.2 = pbufs h ∧ bufs r.2 = bufs h
    | Some q => ∃ b, packet r.2 (Some q) [(q, b)] ∧ content r.2 [(q, b)] = content h xs ∧
        packet r.2 (Some p) xs ∧ content r.2 xs = content h xs ∧
        (∀ k, k ≠ q → pbufs r.2 !! k = pbufs h !! k ∧ bufs r.2 !! k = bufs h !! k)
    end).
Proof.
  intros Hok Hp Hpos. unfold pbuf_clone.
  destruct xs as [|x xs]; [by apply packet_none in Hp|].
  pose proof (packet_cons_inv _ _ _ _ Hp) as (_ & -> & Hwx & Hlx & Hs & Hmax & Ht & _). mstep. rewrite Ht.
  eapply okP_bind; [by apply pbuf_alloc_ram; [|lia]|].
  intros [[q|] h1] Hr; cbn [fst snd] in *; [|by apply okP_ret].
  destruct Hr as [Hq He]. destruct (packet_extends [q] h h1 (Some p) (x :: xs) Hok He Hp) as (Hp1 & Hc1 & Hq1).
  assert (Hlen1 : 0 < len x.2) by (by apply Forall_cons in Hpos as [? _]).
  eapply okP_bind.
  { apply (pbuf_copy_ok h1 q [(q, ram_pbuf layer (len x.2 + sum_len xs) q)] p (x :: xs)); try done.
    - apply Forall_singleton. simpl. lia.
    - apply NoDup_singleton.
    - intros b Hb Hin. apply list_elem_of_singleton in Hin as ->. apply (Hq1 q); [by left|done].
    - rewrite !sum_len_cons. simpl. lia. }
  intros [e h2] (He2 & Hw & Hq2 & Hc2). cbn [fst snd] in *. subst e. mstep. apply okP_ret. cbn [fst snd].
  assert (Hdis : ∀ b, b ∈ blocks (x :: xs) → b ∉ blocks [(q, ram_pbuf layer (len x.2 + sum_len xs) q)]).
  { intros b Hb Hin. apply list_elem_of_singleton in Hin as ->. apply (Hq1 q); [by left|done]. }
  exists (ram_pbuf layer (len x.2 + sum_len xs) q). split_and!.
  - done.
  - rewrite Hc2, Hc1. pose proof (content_length h1 _ (pk_wf _ _ _ Hq)) as Hl1.
    pose proof (content_length h _ (pk_wf _ _ _ Hp)) as Hl2. rewrite !sum_len_cons in *. simpl in Hl1.
    rewrite drop_ge by lia. apply app_nil_r.
  - by eapply writes_packet.
  - by rewrite (writes_content _ h1 h2) by done.
  - intros k Hk. rewrite (wr_pbufs _ _ _ Hw), (wr_frame _ _ _ Hw).
    + by rewrite (ex_pbufs _ _ _ He), (ex_bufs _ _ _ He) by set_solver.
    + intros Hin. apply list_elem_of_singleton in Hin. by injection Hin.
Qed.

(** ** Two small packets *)

Definition no_fail (_ : nat) : bool := false.
Definition zero_junk (_ : nat) : Z := 0.
Definition no_custom (_ : loc) (_ : heap) : res heap := UB.

Definition empty_heap : heap := mkHeap ∅ ∅ 0%nat 0%nat false.

(** Two RAM pbufs with the bytes 1, 2, 3 and 4, 5. *)
Definition demo_build : res heap :=
  '(p, h) ← pbuf_alloc no_fail zero_junk no_custom PBUF_LINK 3 PBUF_RAM empty_heap;
  '(q, h) ← pbuf_alloc no_fail zero_junk no_custom PBUF_LINK 2 PBUF_RAM h;
  '(_, h) ← pbuf_take p [1; 2; 3] h;
  '(_, h) ← pbuf_take q [4; 5] h;
  Ok h.

Definition ok_heap (m : res heap) : heap := match m with Ok h => h | _ => empty_heap end.

(** Separate... *)
Definition demo_sep : heap := Eval vm_compute in ok_heap demo_build.

(** ... and linked. *)
Definition demo_heap : heap := Eval vm_compute in
  ok_heap (pbuf_cat (Some 0%nat) (Some 1%nat) demo_sep).

Definition chain_of (h : heap) (ls : list loc) : list (loc * pbuf) :=
  omap (λ l, (λ b, (l, b)) <$> pbufs h !! l) ls.

Definition demo_xs : list (loc * pbuf) := Eval vm_compute in chain_of demo_heap [0%nat; 1%nat].
Definition demo_x0 : list (loc * pbuf) := Eval vm_compute in chain_of demo_sep [0%nat].
Definition demo_x1 : list (loc * pbuf) := Eval vm_compute in chain_of demo_sep [1%nat].

Ltac packet_by_computation := split;
  [ repeat (apply chain_cons; [vm_compute; reflexivity|]); apply chain_nil
  | apply (bool_decide_unpack _); vm_compute; exact I
  | repeat (apply Forall_cons_2; [split; [vm_compute; discriminate | eexists _, _, _; split_and!;
      [reflexivity | vm_compute; reflexivity | vm_compute; discriminate | vm_compute; discriminate]]|]);
    apply Forall_nil_2
  | repeat split; vm_compute; reflexivity
  | vm_compute; reflexivity ].

Lemma demo_packet : packet demo_heap (Some 0%nat) demo_xs.
Proof. packet_by_computation. Qed.

Lemma demo_packet0 : packet demo_sep (Some 0%nat) demo_x0.
Proof. packet_by_computation. Qed.

Lemma demo_packet1 : packet demo_sep (Some 1%nat) demo_x1.
Proof. packet_by_computation. Qed.

Lemma demo_blocks : NoDup (blocks demo_xs).
Proof. apply (bool_decide_unpack _). vm_compute. exact I. Qed.

Lemma demo_counted : Forall (λ x, counted x.2) demo_xs.
Proof.
  repeat (apply Forall_cons_2; [vm_compute; split_and!; done|]). apply Forall_nil_2.
Qed.

Lemma empty_heap_ok : heap_ok empty_heap.
Proof. done. Qed.

Lemma pbuf_copy_partial_spec_witness :
  pbuf_copy_partial (Some 0%nat) 3 1 demo_heap = Ok [2; 3; 4].
Proof.
  rewrite (pbuf_copy_partial_spec demo_heap (Some 0%nat) demo_xs 3 1);
    [vm_compute; reflexivity | exact demo_packet | done | lia | lia].
Defined.

Lemma pbuf_memfind_spec_witness :
  okP (pbuf_memfind (Some 0%nat) [3; 4] 0 demo_heap) (λ r,
    r = 0xFFFF ∨ occurs_at (content demo_heap demo_xs) [3; 4] r).
Proof.
  eapply okP_mono.
  - apply (pbuf_memfind_spec demo_heap (Some 0%nat) demo_xs [3; 4] 0);
      [exact demo_packet | done | apply (bool_decide_unpack _); vm_compute; exact I
      | vm_compute; reflexivity | lia].
  - intros r [[-> _]|(_ & _ & H & _)]; auto.
Defined.

Lemma pbuf_take_at_roundtrip_witness :
  okP (pbuf_take_at (Some 0%nat) [8; 9] 2 demo_heap) (λ r, r.1 = ERR_OK ∧
    content r.2 demo_xs = [1; 2; 8; 9; 5]).
Proof.
  eapply okP_mono.
  - apply (pbuf_take_at_roundtrip demo_heap (Some 0%nat) demo_xs [8; 9] 2);
      [exact demo_packet | exact demo_blocks | lia | simpl; lia].
  - intros [e h'] (He & _ & Hc & _). split; [exact He|]. rewrite Hc. vm_compute. reflexivity.
Defined.

Lemma pbuf_free_spec_witness :
  okP (pbuf_free no_custom (Some 0%nat) demo_heap) (λ r, r.1 = 2).
Proof.
  eapply okP_mono.
  - apply (pbuf_free_spec no_custom (Some 0%nat) demo_xs demo_heap);
      [apply demo_packet | done | apply demo_packet | exact demo_counted].
  - intros r [Hr _]. rewrite Hr. vm_compute. reflexivity.
Defined.

Lemma pbuf_alloc_spec_witness :
  okP (pbuf_alloc no_fail zero_junk no_custom PBUF_IP 10 PBUF_RAM empty_heap) (λ r, True).
Proof.
  eapply okP_mono.
  - apply (pbuf_alloc_spec no_fail zero_junk no_custom PBUF_IP 10 PBUF_RAM empty_heap);
      [exact empty_heap_ok | lia].
  - done.
Defined.

Lemma pbuf_cat_spec_witness :
  okP (pbuf_cat (Some 0%nat) (Some 1%nat) demo_sep) (λ h', ∃ xs',
    content h' (xs' ++ demo_x1) = [1; 2; 3; 4; 5]).
Proof.
  eapply okP_mono.
  - apply (pbuf_cat_spec demo_sep 0%nat 1%nat demo_x0 demo_x1);
      [exact demo_packet0 | exact demo_packet1 | apply (bool_decide_unpack _); vm_compute; exact I
      | vm_compute; reflexivity].
  - intros h' (xs' & _ & _ & _ & Hc & _). exists xs'. rewrite Hc. vm_compute. reflexivity.
Defined.

Definition demo_b0 : pbuf := Eval vm_compute in default (ram_pbuf PBUF_RAW 0 0%nat) (pbufs demo_heap !! 0%nat).

Lemma pbuf_header_roundtrip_witness :
  okP (pbuf_remove_header (Some 0%nat) 2 demo_heap) (λ r, r.1 = true).
Proof.
  eapply okP_mono.
  - apply (pbuf_header_roundtrip demo_heap 0%nat demo_b0 (drop 1 demo_xs) 14 2);
      [exact demo_packet | split; vm_compute; done | vm_compute; split; discriminate].
  - intros r [Hr _]. exact Hr.
Defined.

Lemma pbuf_realloc_spec_witness :
  okP (pbuf_realloc no_custom (Some 0%nat) 2 demo_heap) (λ h', ∃ xs', content h' xs' = [1; 2]).
Proof.
  eapply okP_mono.
  - apply (pbuf_realloc_spec no_custom demo_heap 0%nat demo_xs 2);
      [exact demo_packet | repeat (apply Forall_cons_2; [reflexivity|]); apply Forall_nil_2
      | exact demo_counted | lia].
  - intros h' (xs' & _ & Hc & _). exists xs'. rewrite Hc. vm_compute. reflexivity.
Defined.

(** [heap_ok], decided. *)
Lemma heap_ok_check h :
  forallb (λ l, (l <? next_loc h)%nat) (elements (dom (pbufs h)) ++ elements (dom (bufs h))) = true →
  heap_ok h.
Proof.
  intros H l Hl. rewrite forallb_app in H. apply andb_prop in H as [Hp Hb].
  rewrite forallb_forall in Hp, Hb.
  split; apply not_elem_of_dom; intros Hin; apply elem_of_elements, list_elem_of_In in Hin;
    [apply Hp in Hin | apply Hb in Hin]; apply Nat.ltb_lt in Hin; lia.
Qed.

Lemma pbuf_clone_spec_witness :
  okP (pbuf_clone no_fail zero_junk no_custom PBUF_RAW PBUF_RAM (Some 0%nat) demo_heap) (λ r,
    match r.1 with
    | Some q => ∃ b, content r.2 [(q, b)] = [1; 2; 3; 4; 5]
    | None => True
    end).
Proof.
  eapply okP_mono.
  - apply (pbuf_clone_spec no_fail zero_junk no_custom PBUF_RAW demo_heap 0%nat demo_xs);
      [apply heap_ok_check; vm_compute; reflexivity | exact demo_packet
      | repeat (apply Forall_cons_2; [vm_compute; reflexivity|]); apply Forall_nil_2].
  - intros [[q|] h'] Hr; simpl in *; [|exact I]. destruct Hr as (b & _ & Hc & _). exists b.
    rewrite Hc. vm_compute. reflexivity.
Defined.
