(* ===== verification/InetChksum.v ===== *)
(** * The Internet checksum

    [third-party/lwip/lwip/src/core/inet_chksum.c] on a little-endian host: the
    three summing algorithms, and the checksums over buffers and pbuf chains
    with and without a pseudo header.  The address a buffer happens to have
    only matters through its alignment, which is a parameter. *)
From S2P Require Import Prelude Pbuf PbufProps.

(** ** Macros *)

Definition FOLD_U32T (u : Z) : Z := u32 (Z.shiftr u 16 + Z.land u 0xffff).

(** [__builtin_bswap16], whose argument is cut to 16 bits. *)
Definition SWAP_BYTES_IN_WORD (w : Z) : Z :=
  let w := u16 w in Z.lor (Z.shiftl (Z.land w 0xff) 8) (Z.shiftr w 8).

Definition lwip_htons (w : Z) : Z := SWAP_BYTES_IN_WORD w.

(** A 16-bit load. *)
Definition load16 (a b : Z) : Z := a + 256 * b.

(** A 32-bit load. *)
Definition load32 (a b c d : Z) : Z := load16 a b + 65536 * load16 c d.

(** ** The summing algorithms *)

(** Version 1: bytes in network order; [acc] is a [u32_t]. *)
Fixpoint chksum1_loop (acc : Z) (data : list Z) : Z :=
  match data with
  | a :: b :: data => chksum1_loop (u32 (acc + Z.lor (u16 (Z.shiftl a 8)) b)) data
  | [a] => u32 (acc + u16 (Z.shiftl a 8))
  | [] => acc
  end.

Definition lwip_standard_chksum1 (data : list Z) : Z :=
  let acc := chksum1_loop 0 data in
  let acc := u32 (Z.shiftr acc 16 + Z.land acc 0xffff) in
  let acc := if negb (Z.land acc 0xffff0000 =? 0)
             then u32 (Z.shiftr acc 16 + Z.land acc 0xffff) else acc in
  lwip_htons (u16 acc).

(** Version 2, the one in use: 16-bit loads from an aligned address.  The loop
    returns the sum and the left-over byte, if any. *)
Fixpoint chksum2_loop (sum : Z) (data : list Z) : Z * Z :=
  match data with
  | a :: b :: data => chksum2_loop (u32 (sum + load16 a b)) data
  | [a] => (sum, a)
  | [] => (sum, 0)
  end.

Definition lwip_standard_chksum (odd : bool) (data : list Z) : Z :=
  let '(t1, data) :=
    match odd, data with
    | true, a :: data => (a, data)
    | _, _ => (0, data)
    end in
  let '(sum, t0) := chksum2_loop 0 data in
  let sum := u32 (sum + load16 t0 t1) in
  let sum := FOLD_U32T sum in
  let sum := FOLD_U32T sum in
  let sum := if odd then SWAP_BYTES_IN_WORD sum else sum in
  u16 sum.

(** Version 3: 32-bit loads, adding the carry back. *)
Definition add_carry (sum x : Z) : Z :=
  let tmp := u32 (sum + x) in if tmp <? sum then u32 (tmp + 1) else tmp.

Fixpoint chksum3_loop (sum : Z) (data : list Z) : Z * list Z :=
  match data with
  | a :: b :: c :: d :: e :: f :: g :: h :: data =>
      chksum3_loop (add_carry (add_carry sum (load32 a b c d)) (load32 e f g h)) data
  | data => (sum, data)
  end.

Definition lwip_standard_chksum3 (odd : bool) (word_aligned : bool) (data : list Z) : Z :=
  let '(t1, data) :=
    match odd, data with
    | true, a :: data => (a, data)
    | _, _ => (0, data)
    end in
  let '(sum, data) :=
    match word_aligned, data with
    | false, a :: b :: data => (u32 (0 + load16 a b), data)
    | _, _ => (0, data)
    end in
  let '(sum, data) := chksum3_loop sum data in
  let sum := FOLD_U32T sum in
  let '(sum, t0) := chksum2_loop sum data in
  let sum := u32 (sum + load16 t0 t1) in
  let sum := FOLD_U32T sum in
  let sum := FOLD_U32T sum in
  let sum := if odd then SWAP_BYTES_IN_WORD sum else sum in
  u16 sum.

(** ** Checksums *)

Section Checksums.
(** Whether a buffer's address is odd. *)
Variable addr_odd : option ptr → bool.

(** [LWIP_CHKSUM(q->payload, n)]. *)
Definition LWIP_CHKSUM (q : option ptr) (n : Z) (h : heap) : res Z :=
  bs ← mem_read q 0 n h;
  Ok (lwip_standard_chksum (addr_odd q) bs).

Definition inet_chksum (dataptr : option ptr) (n : Z) (h : heap) : res Z :=
  c ← LWIP_CHKSUM dataptr n h;
  Ok (u16 (Z.lnot c)).

(** The loop over a chain that [inet_chksum_pbuf] and [inet_cksum_pseudo_base]
    share: the accumulator and [swapped]. *)
Fixpoint chain_loop (fuel : nat) (q : option loc) (acc : Z) (swapped : bool) (h : heap)
    : res (Z * bool) :=
  match q with
  | None => Ok (acc, swapped)
  | Some _ =>
      match fuel with
      | O => UB
      | S fuel =>
          b ← get q h;
          c ← LWIP_CHKSUM (payload b) (len b) h;
          let acc := FOLD_U32T (u32 (acc + c)) in
          let '(acc, swapped) :=
            if negb (Z.rem (len b) 2 =? 0) then (SWAP_BYTES_IN_WORD acc, negb swapped)
            else (acc, swapped) in
          chain_loop fuel (next b) acc swapped h
      end
  end.

Definition inet_chksum_pbuf (p : option loc) (h : heap) : res Z :=
  '(acc, swapped) ← chain_loop (fuel_of h) p 0 false h;
  let acc := if (swapped : bool) then SWAP_BYTES_IN_WORD acc else acc in
  Ok (u16 (Z.lnot (Z.land acc 0xffff))).

Definition finish_pseudo (proto proto_len acc : Z) (swapped : bool) : Z :=
  let acc := if swapped then SWAP_BYTES_IN_WORD acc else acc in
  let acc := u32 (acc + lwip_htons (u16 proto)) in
  let acc := u32 (acc + lwip_htons proto_len) in
  let acc := FOLD_U32T acc in
  let acc := FOLD_U32T acc in
  u16 (Z.lnot (Z.land acc 0xffff)).

Definition inet_cksum_pseudo_base (p : option loc) (proto proto_len acc : Z) (h : heap) : res Z :=
  '(acc, swapped) ← chain_loop (fuel_of h) p acc false h;
  Ok (finish_pseudo proto proto_len acc swapped).

(** The two halves of an address word. *)
Definition add_word (acc addr : Z) : Z :=
  let acc := u32 (acc + Z.land addr 0xffff) in
  u32 (acc + Z.land (Z.shiftr addr 16) 0xffff).

Definition inet_chksum_pseudo (p : option loc) (proto proto_len src dest : Z) (h : heap) : res Z :=
  let acc := Z.land src 0xffff in
  let acc := u32 (acc + Z.land (Z.shiftr src 16) 0xffff) in
  let acc := add_word acc dest in
  let acc := FOLD_U32T acc in
  let acc := FOLD_U32T acc in
  inet_cksum_pseudo_base p proto proto_len acc h.

(** [ip6_chksum_pseudo]: the four words of both addresses, interleaved. *)
Fixpoint add_words (acc : Z) (src dest : list Z) : Z :=
  match src, dest with
  | s :: src, d :: dest => add_words (add_word (add_word acc s) d) src dest
  | _, _ => acc
  end.

Definition ip6_chksum_pseudo (p : option loc) (proto proto_len : Z) (src dest : list Z) (h : heap)
    : res Z :=
  let acc := add_words 0 src dest in
  let acc := FOLD_U32T acc in
  let acc := FOLD_U32T acc in
  inet_cksum_pseudo_base p proto proto_len acc h.

(** [ip_chksum_pseudo]: by the family of the destination. *)
Record ip_addr_t := mkIpAddr { u_addr : Z * Z * Z * Z; ip_is_v6 : bool }.

Definition ip_2_ip4 (a : ip_addr_t) : Z := let '(w, _, _, _) := u_addr a in w.
Definition ip_2_ip6 (a : ip_addr_t) : list Z := let '(w0, w1, w2, w3) := u_addr a in [w0; w1; w2; w3].

Definition ip_chksum_pseudo (p : option loc) (proto proto_len : Z) (src dest : ip_addr_t) (h : heap)
    : res Z :=
  if ip_is_v6 dest
  then ip6_chksum_pseudo p proto proto_len (ip_2_ip6 src) (ip_2_ip6 dest) h
  else inet_chksum_pseudo p proto proto_len (ip_2_ip4 src) (ip_2_ip4 dest) h.

(** [inet_cksum_pseudo_partial_base]: only the first [chksum_len] bytes. *)
Fixpoint partial_loop (fuel : nat) (q : option loc) (chksum_len acc : Z) (swapped : bool) (h : heap)
    : res (Z * bool) :=
  match q with
  | None => Ok (acc, swapped)
  | Some _ =>
      if chksum_len <=? 0 then Ok (acc, swapped)
      else match fuel with
      | O => UB
      | S fuel =>
          b ← get q h;
          let chklen := if chksum_len <? len b then chksum_len else len b in
          c ← LWIP_CHKSUM (payload b) chklen h;
          let acc := u32 (acc + c) in
          let chksum_len := u16 (chksum_len - chklen) in
          _ ← lwip_assert (chksum_len <? 0x7fff);
          let acc := FOLD_U32T acc in
          let '(acc, swapped) :=
            if negb (Z.rem (len b) 2 =? 0) then (SWAP_BYTES_IN_WORD acc, negb swapped)
            else (acc, swapped) in
          partial_loop fuel (next b) chksum_len acc swapped h
      end
  end.

Definition inet_cksum_pseudo_partial_base (p : option loc) (proto proto_len chksum_len acc : Z)
    (h : heap) : res Z :=
  '(acc, swapped) ← partial_loop (fuel_of h) p chksum_len acc false h;
  Ok (finish_pseudo proto proto_len acc swapped).

End Checksums.

(** ** Arithmetic modulo 65535 *)

Definition cong (a b : Z) : Prop := a mod 65535 = b mod 65535.

Infix "≡₁" := cong (at level 70).

#[export] Instance cong_equiv : Equivalence cong.
Proof. split; unfold cong; [done | by intros ?? -> | by intros ??? -> ->]. Qed.

#[export] Instance cong_add : Proper (cong ==> cong ==> cong) Z.add.
Proof.
  unfold cong. intros a a' Ha b b' Hb. by rewrite Zplus_mod, Ha, Hb, <- Zplus_mod.
Qed.

#[export] Instance cong_mul : Proper (cong ==> cong ==> cong) Z.mul.
Proof.
  unfold cong. intros a a' Ha b b' Hb. by rewrite Zmult_mod, Ha, Hb, <- Zmult_mod.
Qed.

Lemma cong_shift a b k : a = b + k * 65535 → a ≡₁ b.
Proof. intros ->. unfold cong. apply Z_mod_plus_full. Qed.

Lemma cong_square a : 256 * (256 * a) ≡₁ a.
Proof. apply (cong_shift _ _ a). lia. Qed.

(** [r] is the 16-bit ones' complement form of [s]: congruent to it, and zero
    only if it is. *)
Record ones16 (r s : Z) : Prop := mkOnes {
  o_range : 0 ≤ r ≤ 65535;
  o_cong : r ≡₁ s;
  o_zero : r = 0 ↔ s = 0;
}.

(** The representative itself. *)
Definition fold16 (s : Z) : Z := if s =? 0 then 0 else (s - 1) mod 65535 + 1.

Lemma fold16_ones s : 0 ≤ s → ones16 (fold16 s) s.
Proof.
  intros Hs. unfold fold16. destruct (Z.eqb_spec s 0) as [->|Hn]; [by split|].
  pose proof (Z.mod_pos_bound (s - 1) 65535). split; [lia| |lia].
  unfold cong. rewrite Zplus_mod_idemp_l. f_equal. lia.
Qed.

Lemma ones16_unique r r' s : ones16 r s → ones16 r' s → r = r'.
Proof.
  intros [Hr Hc Hz] [Hr' Hc' Hz']. rewrite <- Hc' in Hc. unfold cong in Hc.
  destruct (Z.eq_dec s 0) as [H0|H0]; [naive_solver|].
  assert (0 < r) by (destruct (Z.eq_dec r 0); [naive_solver|lia]).
  assert (0 < r') by (destruct (Z.eq_dec r' 0); [naive_solver|lia]).
  destruct (Z.eq_dec r 65535) as [->|]; destruct (Z.eq_dec r' 65535) as [->|]; try done.
  - rewrite Z.mod_same, (Z.mod_small r') in Hc by lia. lia.
  - rewrite Z.mod_same, (Z.mod_small r) in Hc by lia. lia.
  - rewrite !Z.mod_small in Hc by lia. lia.
Qed.

Lemma ones16_fold r s : 0 ≤ s → ones16 r s → r = fold16 s.
Proof. intros Hs Hr. eapply ones16_unique; [exact Hr | by apply fold16_ones]. Qed.

(** ** The sum of the 16-bit words *)
Fixpoint word_sum (data : list Z) : Z :=
  match data with
  | a :: b :: data => load16 a b + word_sum data
  | [a] => a
  | [] => 0
  end.

(** Lists two elements at a time. *)
Lemma pairs_ind (P : list Z → Prop) :
  P [] → (∀ a, P [a]) → (∀ a b l, P l → P (a :: b :: l)) → ∀ l, P l.
Proof.
  intros H0 H1 H2. assert (∀ l, P l ∧ ∀ a, P (a :: l)) as H; [|by apply H].
  induction l as [|x l [IH1 IH2]]; [by split|]. split; [apply IH2|]. intros a. by apply H2.
Qed.

Lemma word_sum_cons x xs : word_sum (x :: xs) ≡₁ x + 256 * word_sum xs.
Proof.
  revert x. induction xs as [|y xs IH]; intros x.
  { simpl. by rewrite Z.add_0_r. }
  transitivity (x + 256 * (y + 256 * word_sum xs)).
  - simpl. unfold load16. rewrite Z.mul_add_distr_l, cong_square. by rewrite Z.add_assoc.
  - by rewrite <- IH.
Qed.

(** What a shift by [n] bytes multiplies a word sum with. *)
Fixpoint shift_factor (n : nat) : Z :=
  match n with O => 1 | S n => 256 * shift_factor n end.

Lemma word_sum_app xs ys :
  word_sum (xs ++ ys) ≡₁ word_sum xs + shift_factor (length xs) * word_sum ys.
Proof.
  induction xs as [|x xs IH]; [simpl app; by rewrite Z.mul_1_l|].
  simpl app. rewrite word_sum_cons, IH, word_sum_cons. simpl length. simpl shift_factor.
  rewrite Z.mul_add_distr_l, <- Z.mul_assoc. by rewrite Z.add_assoc.
Qed.

Lemma word_sum_nonneg xs : Forall is_byte xs → 0 ≤ word_sum xs.
Proof.
  induction xs as [|a|a b l IH] using pairs_ind; [done| |];
    rewrite ?Forall_cons; unfold is_byte, load16; simpl; intros H; [lia|].
  destruct H as (? & ? & ?). unfold load16. specialize (IH H1). lia.
Qed.

Lemma word_sum_bound xs :
  Forall is_byte xs → word_sum xs ≤ 65535 * ((Z.of_nat (length xs) + 1) / 2).
Proof.
  induction xs as [|a|a b l IH] using pairs_ind; [done| |]; rewrite ?Forall_cons; unfold is_byte.
  - intros [Ha _]. change ((Z.of_nat (length [a]) + 1) / 2) with 1. simpl. lia.
  - intros (? & ? & Hl). specialize (IH Hl). cbn [word_sum length]. unfold load16.
    replace (Z.of_nat (S (S (length l))) + 1) with (Z.of_nat (length l) + 1 + 1 * 2) by lia.
    rewrite Z.div_add by lia. lia.
Qed.

(** ** The macros *)

Lemma land_ffff x : 0 ≤ x → Z.land x 0xffff = x mod 65536.
Proof. intros. change 0xffff with (Z.ones 16). by rewrite Z.land_ones by lia. Qed.

Lemma fold_value u : 0 ≤ u < 2 ^ 32 → FOLD_U32T u = u / 65536 + u mod 65536.
Proof.
  intros Hu. unfold FOLD_U32T. rewrite land_ffff, Z.shiftr_div_pow2 by lia.
  change (2 ^ 16) with 65536. apply u32_id.
  pose proof (Z.mod_pos_bound u 65536). pose proof (Z.div_pos u 65536).
  assert (u / 65536 < 65536) by (apply Z.div_lt_upper_bound; lia). lia.
Qed.

Lemma fold_once u :
  0 ≤ u < 2 ^ 32 →
  0 ≤ FOLD_U32T u ≤ 131070 ∧ FOLD_U32T u ≡₁ u ∧ (FOLD_U32T u = 0 ↔ u = 0) ∧
  (u ≤ 131070 → FOLD_U32T u ≤ 65535).
Proof.
  intros Hu. rewrite fold_value by done.
  pose proof (Z.div_mod u 65536 ltac:(lia)) as Hd. pose proof (Z.mod_pos_bound u 65536 ltac:(lia)).
  assert (0 ≤ u / 65536 < 65536) by (split; [apply Z.div_pos; lia | apply Z.div_lt_upper_bound; lia]).
  split_and!; [lia|lia| |lia|].
  - apply (cong_shift _ _ (- (u / 65536))). lia.
  - intros Hle. assert (u / 65536 < 2) by (apply Z.div_lt_upper_bound; lia). lia.
Qed.

Lemma ones16_fold_twice u s :
  0 ≤ u < 2 ^ 32 → u ≡₁ s → (u = 0 ↔ s = 0) → ones16 (FOLD_U32T (FOLD_U32T u)) s.
Proof.
  intros Hu Hc Hz. destruct (fold_once u Hu) as (Hr & Hc1 & Hz1 & _).
  destruct (fold_once (FOLD_U32T u)) as (Hr2 & Hc2 & Hz2 & Hs); [lia|].
  split; [lia| |].
  - by rewrite Hc2, Hc1.
  - by rewrite Hz2, Hz1.
Qed.

Lemma swap_value w : 0 ≤ w ≤ 65535 → SWAP_BYTES_IN_WORD w = 256 * (w mod 256) + w / 256.
Proof.
  intros Hw. unfold SWAP_BYTES_IN_WORD. rewrite u16_id by lia.
  change 0xff with (Z.ones 8). rewrite Z.land_ones, Z.shiftr_div_pow2 by lia.
  change (2 ^ 8) with 256. rewrite lor_shift; [change (2 ^ 8) with 256; lia|lia|].
  change (2 ^ 8) with 256. split; [apply Z.div_pos; lia | apply Z.div_lt_upper_bound; lia].
Qed.

Lemma ones16_swap r s : ones16 r s → ones16 (SWAP_BYTES_IN_WORD r) (256 * s).
Proof.
  intros [Hr Hc Hz]. rewrite swap_value by lia.
  pose proof (Z.div_mod r 256 ltac:(lia)) as Hd. pose proof (Z.mod_pos_bound r 256 ltac:(lia)).
  assert (0 ≤ r / 256 < 256) by (split; [apply Z.div_pos; lia | apply Z.div_lt_upper_bound; lia]).
  split; [lia| |lia].
  rewrite <- Hc. apply (cong_shift _ _ (- (r / 256))). lia.
Qed.

Lemma ones16_cong r s s' : ones16 r s → s ≡₁ s' → (s = 0 ↔ s' = 0) → ones16 r s'.
Proof. intros [Hr Hc Hz] Hs Hs0. split; [done|by rewrite Hc|by rewrite Hz]. Qed.

Lemma ones16_u16 r s : ones16 r s → u16 r = r.
Proof. intros [Hr _ _]. apply u16_id. lia. Qed.

(** ** The algorithms compute the sum *)

Lemma chksum2_loop_spec data sum :
  Forall is_byte data → 0 ≤ sum → sum + word_sum data < 2 ^ 32 →
  ∃ s t, chksum2_loop sum data = (s, t) ∧ s + t = sum + word_sum data ∧ is_byte t ∧ 0 ≤ s.
Proof.
  revert sum. induction data as [|a|a b l IH] using pairs_ind; intros sum Hb Hs Hlt.
  - exists sum, 0. by split_and!; simpl; unfold is_byte; try lia.
  - exists sum, a. apply Forall_cons in Hb as [Ha _]. by split_and!.
  - rewrite !Forall_cons in Hb. destruct Hb as (Ha & Hb & Hl). cbn [chksum2_loop word_sum] in *.
    pose proof (word_sum_nonneg l Hl). unfold is_byte in *. unfold load16 in *.
    rewrite u32_id by lia. destruct (IH (sum + (a + 256 * b))) as (s & t & He & ? & ? & ?); [done|lia|lia|].
    exists s, t. split_and!; try done; lia.
Qed.

Lemma word_sum_zero xs : Forall is_byte xs → word_sum xs = 0 ↔ Forall (λ x, x = 0) xs.
Proof.
  induction xs as [|a|a b l IH] using pairs_ind; rewrite ?Forall_cons, ?Forall_nil; unfold is_byte.
  - done.
  - simpl. naive_solver.
  - intros (Ha & Hb & Hl). cbn [word_sum]. rewrite <- (IH Hl).
    pose proof (word_sum_nonneg l Hl). unfold load16. lia.
Qed.

Lemma word_sum_zero_cons x xs :
  is_byte x → Forall is_byte xs → (word_sum xs + 256 * x = 0 ↔ word_sum (x :: xs) = 0).
Proof.
  intros Hx Hxs. rewrite (word_sum_zero (x :: xs)) by by constructor.
  rewrite Forall_cons, <- word_sum_zero by done. pose proof (word_sum_nonneg xs Hxs).
  unfold is_byte in Hx. lia.
Qed.

(** The number of bytes a 32-bit sum of 16-bit words can take in. *)
Definition max_len : Z := 0x20000 - 4.

Lemma word_sum_room data k :
  Forall is_byte data → Z.of_nat (length data) ≤ max_len → 0 ≤ k ≤ 65535 →
  0 ≤ k + word_sum data < 2 ^ 32.
Proof.
  intros Hb Hl Hk. pose proof (word_sum_nonneg data Hb). pose proof (word_sum_bound data Hb).
  assert ((Z.of_nat (length data) + 1) / 2 ≤ 65535) by (unfold max_len in Hl; apply Z.div_le_upper_bound; lia).
  split; [lia|]. nia.
Qed.

(** Version 2 at an even address. *)
Lemma chksum2_even data :
  Forall is_byte data → Z.of_nat (length data) ≤ max_len →
  lwip_standard_chksum false data = fold16 (word_sum data).
Proof.
  intros Hb Hl. pose proof (word_sum_room data 0 Hb Hl ltac:(lia)).
  destruct (chksum2_loop_spec data 0) as (s & t & He & Hs & Ht & Hs0); [done|lia|lia|].
  unfold lwip_standard_chksum. rewrite He. unfold load16. rewrite (u32_id (s + _)) by lia.
  assert (ones16 (FOLD_U32T (FOLD_U32T (s + (t + 256 * 0)))) (word_sum data)) as Ho.
  { apply ones16_fold_twice; [lia| |lia]. by replace (s + (t + 256 * 0)) with (word_sum data) by lia. }
  rewrite (ones16_u16 _ _ Ho). apply ones16_fold; [lia|done].
Qed.

(** What is left to do at an odd address after summing the even part. *)
Lemma odd_finish a l u :
  is_byte a → Forall is_byte l → u = word_sum l + 256 * a → 0 ≤ u < 2 ^ 32 →
  u16 (SWAP_BYTES_IN_WORD (FOLD_U32T (FOLD_U32T u))) = fold16 (word_sum (a :: l)).
Proof.
  intros Ha Hl Hu Hr.
  assert (ones16 (SWAP_BYTES_IN_WORD (FOLD_U32T (FOLD_U32T u))) (word_sum (a :: l))) as Ho.
  { eapply ones16_cong; [by apply ones16_swap, ones16_fold_twice| |].
    - rewrite word_sum_cons, Hu, Z.mul_add_distr_l, cong_square. by rewrite Z.add_comm.
    - rewrite <- word_sum_zero_cons by done. lia. }
  rewrite (ones16_u16 _ _ Ho). apply ones16_fold; [|done].
  apply word_sum_nonneg. by constructor.
Qed.

(** The routine the stack uses, at an even or an odd address. *)
Lemma chksum2_spec odd data :
  Forall is_byte data → Z.of_nat (length data) ≤ max_len →
  lwip_standard_chksum odd data = fold16 (word_sum data).
Proof.
  intros Hb Hl. destruct odd; [|by apply chksum2_even].
  destruct data as [|a l]; [done|]. apply Forall_cons in Hb as [Ha Hb].
  pose proof (word_sum_room l (256 * a)) as Hroom. unfold is_byte in Ha.
  cbn [length] in Hl. specialize (Hroom Hb ltac:(lia) ltac:(lia)).
  destruct (chksum2_loop_spec l 0) as (s & t & He & Hs & Ht & Hs0); [done|lia|lia|].
  unfold lwip_standard_chksum. rewrite He. unfold load16. unfold is_byte in Ht.
  rewrite (u32_id (s + _)) by lia. apply odd_finish; [unfold is_byte; lia|done|lia|lia].
Qed.

(** Version 1 sums the words in network order. *)
Lemma chksum1_loop_spec data acc :
  Forall is_byte data → 0 ≤ acc →
  acc + 65535 * ((Z.of_nat (length data) + 1) / 2) < 2 ^ 32 →
  256 * chksum1_loop acc data ≡₁ 256 * acc + word_sum data ∧
  (chksum1_loop acc data = 0 ↔ acc + word_sum data = 0) ∧ 0 ≤ chksum1_loop acc data < 2 ^ 32.
Proof.
  revert acc. induction data as [|a|a b l IH] using pairs_ind; intros acc Hb Hs Hlt.
  - cbn [chksum1_loop word_sum]. rewrite !Z.add_0_r.
    assert (acc < 2 ^ 32) by (change ((Z.of_nat (length (@nil Z)) + 1) / 2) with 0 in Hlt; lia).
    split_and!; try done; lia.
  - apply Forall_cons in Hb as [Ha _]. unfold is_byte in Ha. cbn [chksum1_loop word_sum].
    change ((Z.of_nat (length [a]) + 1) / 2) with 1 in Hlt.
    rewrite Z.shiftl_mul_pow2, (u16_id (a * _)), u32_id by lia. change (2 ^ 8) with 256.
    split_and!; try lia. apply (cong_shift _ _ a). lia.
  - rewrite !Forall_cons in Hb. destruct Hb as (Ha & Hb & Hl). unfold is_byte in *.
    cbn [chksum1_loop word_sum length] in *.
    replace (Z.of_nat (S (S (length l))) + 1) with (Z.of_nat (length l) + 1 + 1 * 2) in Hlt by lia.
    rewrite Z.div_add in Hlt by lia.
    assert (0 ≤ (Z.of_nat (length l) + 1) / 2) by (apply Z.div_pos; lia).
    rewrite (u16_id (Z.shiftl a 8)) by (rewrite Z.shiftl_mul_pow2; lia).
    rewrite lor_shift, u32_id by lia. change (2 ^ 8) with 256.
    destruct (IH (acc + (a * 256 + b))) as (Hc & Hz & Hr); [done|lia|lia|].
    pose proof (word_sum_nonneg l Hl). unfold load16. split_and!; try lia.
    rewrite Hc. apply (cong_shift _ _ a). lia.
Qed.

(** Skipping the second fold when the first left 16 bits makes no difference. *)
Lemma fold_guarded u :
  0 ≤ u < 2 ^ 32 →
  (if negb (Z.land u 0xffff0000 =? 0) then u32 (Z.shiftr u 16 + Z.land u 0xffff) else u) = FOLD_U32T u.
Proof.
  intros Hu. destruct (Z.eqb_spec (Z.land u 0xffff0000) 0) as [H0|]; [|done]. simpl.
  assert (Z.shiftr u 16 = 0) as Hs.
  { apply Z.bits_inj'. intros i Hi. rewrite Z.shiftr_spec, Z.bits_0 by done.
    destruct (Z.lt_ge_cases (i + 16) 32) as [Hlt|Hge].
    - apply (f_equal (λ z, Z.testbit z (i + 16))) in H0. rewrite Z.land_spec, Z.bits_0 in H0.
      change 0xffff0000 with (Z.shiftl (Z.ones 16) 16) in H0.
      rewrite Z.shiftl_spec, Z.ones_spec_low, andb_true_r in H0; [done|lia|lia].
    - rewrite <- (Z.mod_small u (2 ^ 32)) by lia. apply Z.mod_pow2_bits_high. lia. }
  rewrite fold_value by done. rewrite Z.shiftr_div_pow2 in Hs by lia. change (2 ^ 16) with 65536 in Hs.
  pose proof (Z.div_mod u 65536). lia.
Qed.

Lemma chksum1_spec data :
  Forall is_byte data → Z.of_nat (length data) ≤ max_len →
  lwip_standard_chksum1 data = fold16 (word_sum data).
Proof.
  intros Hb Hl. unfold max_len in Hl.
  assert ((Z.of_nat (length data) + 1) / 2 ≤ 65535) by (apply Z.div_le_upper_bound; lia).
  destruct (chksum1_loop_spec data 0) as (Hc & Hz & Hr); [done|lia|lia|].
  unfold lwip_standard_chksum1. fold (FOLD_U32T (chksum1_loop 0 data)).
  destruct (fold_once _ Hr) as (Hf & _). rewrite fold_guarded by lia.
  set (u := chksum1_loop 0 data) in *.
  assert (ones16 (FOLD_U32T (FOLD_U32T u)) u) as Ho by by apply ones16_fold_twice.
  rewrite (ones16_u16 _ _ Ho). apply ones16_fold; [by apply word_sum_nonneg|].
  eapply ones16_cong; [by apply ones16_swap|by rewrite Hc|lia].
Qed.

(** Version 3: end-around carry. *)
Lemma add_carry_ones s x S :
  0 ≤ s < 2 ^ 32 → 0 ≤ x < 2 ^ 32 → 0 ≤ S → s ≡₁ S → (s = 0 ↔ S = 0) →
  0 ≤ add_carry s x < 2 ^ 32 ∧ add_carry s x ≡₁ S + x ∧ (add_carry s x = 0 ↔ S + x = 0).
Proof.
  intros Hs Hx HS Hc Hz. unfold add_carry.
  destruct (Z.lt_ge_cases (s + x) (2 ^ 32)) as [Hlt|Hge].
  - rewrite (u32_id (s + x)) by lia. destruct (Z.ltb_spec (s + x) s); [lia|].
    split_and!; try lia. by rewrite Hc.
  - assert (u32 (s + x) = s + x - 2 ^ 32) as ->.
    { unfold u32. symmetry. apply (Z.mod_unique _ _ 1); lia. }
    destruct (Z.ltb_spec (s + x - 2 ^ 32) s); [|lia]. rewrite u32_id by lia.
    split_and!; try lia. rewrite <- Hc. apply (cong_shift _ _ (-65537)). lia.
Qed.

(** Lists eight elements at a time, the way [chksum3_loop] goes. *)
Lemma chksum3_loop_spec data :
  ∀ S, ∀ s, Forall is_byte data → 0 ≤ s < 2 ^ 32 → 0 ≤ S → s ≡₁ S → (s = 0 ↔ S = 0) →
  ∃ s' rest, chksum3_loop s data = (s', rest) ∧ 0 ≤ s' < 2 ^ 32 ∧ Forall is_byte rest ∧
    (length rest < 8)%nat ∧ s' + word_sum rest ≡₁ S + word_sum data ∧
    (s' = 0 ∧ word_sum rest = 0 ↔ S + word_sum data = 0) ∧ (length rest ≤ length data)%nat.
Proof.
  induction data as [data IH] using (induction_ltof1 _ length). unfold ltof in IH.
  intros S s Hb Hs HS Hc Hz.
  pose proof (word_sum_nonneg data Hb).
  assert ((length data < 8)%nat → chksum3_loop s data = (s, data)) as Hshort
    by (intros; do 8 (destruct data as [|? data]; [done|]); simpl in *; lia).
  destruct (decide (length data < 8)%nat) as [Hlt|Hge].
  { exists s, data. split_and!; try done; [by apply Hshort|lia|lia|by rewrite Hc|lia]. }
  do 8 (destruct data as [|? data]; [simpl in *; lia|]).
  rewrite !Forall_cons in Hb. destruct Hb as (?&?&?&?&?&?&?&?&Hb). cbn [chksum3_loop].
  unfold is_byte in *.
  match goal with |- context [add_carry (add_carry s ?x) ?y] =>
    destruct (add_carry_ones s x S) as (Hs1 & Hc1 & Hz1);
      [lia|unfold load32, load16; lia|lia|done|done|];
    destruct (add_carry_ones (add_carry s x) y (S + x)) as (Hs2 & Hc2 & Hz2);
      [lia|unfold load32, load16; lia|unfold load32, load16; lia|done|done|];
    destruct (IH data ltac:(simpl; lia) (S + x + y) (add_carry (add_carry s x) y))
      as (s' & rest & He & ? & ? & ? & Hc' & Hz' & ?);
      [done|lia|unfold load32, load16; lia|done|done|]
  end.
  exists s', rest. cbn [word_sum length]. split_and!; try done; try lia.
  - rewrite Hc'. unfold load32, load16. match goal with |- S + (?a + 65536 * ?b) + (?c + 65536 * ?d) + ?w ≡₁ _ =>
      apply (cong_shift _ _ (b + d)); lia end.
  - rewrite Hz'. pose proof (word_sum_nonneg data Hb). unfold load32, load16. lia.
Qed.

(** The last steps of version 3: a sum folded once, the rest of the words. *)
Lemma chksum3_tail s rest S t1 :
  0 ≤ s < 2 ^ 32 → Forall is_byte rest → (length rest < 8)%nat → is_byte t1 → 0 ≤ S →
  s + word_sum rest ≡₁ S → (s = 0 ∧ word_sum rest = 0 ↔ S = 0) →
  ∃ u t0, chksum2_loop (FOLD_U32T s) rest = (u, t0) ∧
    ones16 (FOLD_U32T (FOLD_U32T (u32 (u + load16 t0 t1)))) (S + 256 * t1).
Proof.
  intros Hs Hb Hl Ht HS Hc Hz. destruct (fold_once s Hs) as (Hf & Hfc & Hfz & _).
  pose proof (word_sum_bound rest Hb) as Hw. pose proof (word_sum_nonneg rest Hb).
  assert ((Z.of_nat (length rest) + 1) / 2 ≤ 4) by (apply Z.div_le_upper_bound; lia).
  destruct (chksum2_loop_spec rest (FOLD_U32T s)) as (u & t0 & He & Hu & Ht0 & Hu0); [done|lia|lia|].
  exists u, t0. split; [done|]. unfold is_byte in *. unfold load16. rewrite u32_id by lia.
  apply ones16_fold_twice; [lia| |lia].
  replace (u + (t0 + 256 * t1)) with (FOLD_U32T s + word_sum rest + 256 * t1) by lia.
  by rewrite Hfc, Hc.
Qed.

Lemma chksum3_even_part aligned data t1 :
  Forall is_byte data → is_byte t1 →
  ∃ s0 d0 s rest u t0,
    (match aligned, data with
     | false, a :: b :: data => (u32 (0 + load16 a b), data) | _, _ => (0, data) end) = (s0, d0) ∧
    chksum3_loop s0 d0 = (s, rest) ∧
    chksum2_loop (FOLD_U32T s) rest = (u, t0) ∧
    ones16 (FOLD_U32T (FOLD_U32T (u32 (u + load16 t0 t1)))) (word_sum data + 256 * t1).
Proof.
  intros Hb Ht.
  assert (∃ s0 d0, (match aligned, data with
       | false, a :: b :: data => (u32 (0 + load16 a b), data) | _, _ => (0, data) end) = (s0, d0) ∧
     Forall is_byte d0 ∧ 0 ≤ s0 < 2 ^ 32 ∧ s0 + word_sum d0 = word_sum data) as (s0 & d0 & He & Hd & Hs & Hw).
  { destruct aligned; [by exists 0, data|]. destruct data as [|a [|b l]]; [by exists 0, []|by exists 0, [a]|].
    rewrite !Forall_cons in Hb. destruct Hb as (Ha & Hb & Hl). unfold is_byte in *.
    exists (load16 a b), l. unfold load16. rewrite u32_id by lia. cbn [word_sum]. split_and!; try done; lia. }
  destruct (chksum3_loop_spec d0 s0 s0) as (s & rest & He3 & Hs3 & Hb3 & Hl3 & Hc3 & Hz3 & _);
    [done|done|lia|done|done|].
  destruct (chksum3_tail s rest (word_sum data) t1) as (u & t0 & He2 & Ho);
    [done|done|done|done|by apply word_sum_nonneg|by rewrite Hc3, Hw|by rewrite Hz3, Hw|].
  by exists s0, d0, s, rest, u, t0.
Qed.

Lemma chksum3_spec odd aligned data :
  Forall is_byte data → lwip_standard_chksum3 odd aligned data = fold16 (word_sum data).
Proof.
  intros Hb. unfold lwip_standard_chksum3.
  destruct odd; [destruct data as [|a l]|].
  - by destruct aligned.
  - apply Forall_cons in Hb as [Ha Hb].
    destruct (chksum3_even_part aligned l a Hb Ha) as (s0 & d0 & s & rest & u & t0 & He0 & He1 & He2 & Ho).
    rewrite He0, He1, He2.
    apply ones16_swap in Ho. rewrite (ones16_u16 _ _ Ho).
    apply ones16_fold; [apply word_sum_nonneg; by constructor|].
    eapply ones16_cong; [exact Ho| |].
    + rewrite word_sum_cons, Z.mul_add_distr_l, cong_square. by rewrite Z.add_comm.
    + rewrite <- word_sum_zero_cons by done. lia.
  - destruct (chksum3_even_part aligned data 0 Hb) as (s0 & d0 & s & rest & u & t0 & He0 & He1 & He2 & Ho);
      [unfold is_byte; lia|].
    rewrite He0, He1, He2.
    rewrite Z.mul_0_r, Z.add_0_r in Ho. rewrite (ones16_u16 _ _ Ho).
    apply ones16_fold; [by apply word_sum_nonneg|done].
Qed.

(** The three summing routines agree: for every buffer of at most
    0x1fffc bytes, at an even or an odd address, word aligned or not, each
    computes the ones' complement sum of the buffer's little-endian 16-bit
    words padded with a zero byte, whatever order it takes the bytes in. *)
Theorem chksum_algorithms_agree odd aligned data :
  Forall is_byte data → Z.of_nat (length data) ≤ max_len →
  lwip_standard_chksum odd data = fold16 (word_sum data) ∧
  lwip_standard_chksum1 data = lwip_standard_chksum odd data ∧
  lwip_standard_chksum3 odd aligned data = lwip_standard_chksum odd data.
Proof.
  intros Hb Hl. rewrite (chksum2_spec odd data Hb Hl). split_and!; [done| |].
  - by apply chksum1_spec.
  - by apply chksum3_spec.
Qed.

(** The three routines on the words of an IPv4 header, at an odd address. *)
Lemma chksum_algorithms_agree_witness :
  lwip_standard_chksum1 [0x45; 0; 0; 0x54; 0xff; 0xff; 0x40; 0; 0x40; 1; 0xe2] =
  lwip_standard_chksum true [0x45; 0; 0; 0x54; 0xff; 0xff; 0x40; 0; 0x40; 1; 0xe2].
Proof.
  apply (chksum_algorithms_agree true false [0x45; 0; 0; 0x54; 0xff; 0xff; 0x40; 0; 0x40; 1; 0xe2]).
  - repeat (constructor; [by vm_compute; split|]). constructor.
  - by vm_compute.
Defined.

(** ** Checksums over a chain *)

Lemma shift_factor_app n m : shift_factor (n + m) = shift_factor n * shift_factor m.
Proof. induction n as [|n IH]; simpl; [by rewrite Z.mul_1_l|]. by rewrite IH, Z.mul_assoc. Qed.

Lemma shift_factor_parity n : shift_factor n ≡₁ if Z.rem (Z.of_nat n) 2 =? 0 then 1 else 256.
Proof.
  rewrite Z.rem_mod_nonneg by lia.
  induction n as [|n IH]; [done|]. cbn [shift_factor]. rewrite IH.
  replace (Z.of_nat (S n)) with (Z.of_nat n + 1) by lia.
  pose proof (Z.mod_pos_bound (Z.of_nat n) 2 ltac:(lia)).
  rewrite Z.add_mod by lia. change (1 mod 2) with 1.
  destruct (Z.eqb_spec (Z.of_nat n mod 2) 0) as [H0|H0].
  - by rewrite H0.
  - replace (Z.of_nat n mod 2) with 1 by lia. by apply (cong_shift _ _ 1).
Qed.

Lemma shift_factor_square n : shift_factor n * shift_factor n ≡₁ 1.
Proof. rewrite shift_factor_parity. destruct (_ =? 0); [done|]. by apply (cong_shift _ _ 1). Qed.

Lemma word_sum_app_zero A xs ys :
  0 ≤ A → Forall is_byte xs → Forall is_byte ys →
  A + word_sum (xs ++ ys) = 0 ↔ A + word_sum xs = 0 ∧ word_sum ys = 0.
Proof.
  intros HA Hx Hy. assert (Forall is_byte (xs ++ ys)) as Hxy by by apply Forall_app.
  pose proof (word_sum_nonneg _ Hx). pose proof (word_sum_nonneg _ Hy).
  pose proof (word_sum_nonneg _ Hxy).
  pose proof (word_sum_zero (xs ++ ys) Hxy) as Hz. rewrite Forall_app in Hz.
  rewrite <- !word_sum_zero in Hz by done. lia.
Qed.

(** What the accumulator stands for after the bytes [ys], having started at a
    form of [A]: the sum, swapped when an odd number of bytes has been seen. *)
Record acc_ok (A : Z) (ys : list Z) (acc : Z) (swapped : bool) : Prop := mkAcc {
  ac_range : 0 ≤ acc ≤ 65535;
  ac_cong : acc ≡₁ shift_factor (length ys) * (A + word_sum ys);
  ac_zero : acc = 0 ↔ A + word_sum ys = 0;
  ac_swapped : swapped = negb (Z.rem (Z.of_nat (length ys)) 2 =? 0);
}.

Lemma ones16_range s : 0 ≤ s → 0 ≤ fold16 s ≤ 65535.
Proof. intros. by apply (o_range _ _ (fold16_ones s H)). Qed.

Lemma rem_parity n m :
  negb (Z.rem (Z.of_nat (n + m)) 2 =? 0) =
  (if negb (Z.rem (Z.of_nat m) 2 =? 0) then negb (negb (Z.rem (Z.of_nat n) 2 =? 0))
   else negb (Z.rem (Z.of_nat n) 2 =? 0)).
Proof.
  rewrite !Z.rem_mod_nonneg by lia. rewrite Nat2Z.inj_add, Z.add_mod by lia.
  pose proof (Z.mod_pos_bound (Z.of_nat n) 2 ltac:(lia)).
  pose proof (Z.mod_pos_bound (Z.of_nat m) 2 ltac:(lia)).
  assert (Z.of_nat n mod 2 = 0 ∨ Z.of_nat n mod 2 = 1) as [-> | ->] by lia;
    assert (Z.of_nat m mod 2 = 0 ∨ Z.of_nat m mod 2 = 1) as [-> | ->] by lia; done.
Qed.

Lemma acc_step A ys q acc swapped :
  0 ≤ A → Forall is_byte ys → Forall is_byte q → acc_ok A ys acc swapped →
  let acc1 := FOLD_U32T (u32 (acc + fold16 (word_sum q))) in
  let '(acc2, swapped2) :=
    if negb (Z.rem (Z.of_nat (length q)) 2 =? 0) then (SWAP_BYTES_IN_WORD acc1, negb swapped)
    else (acc1, swapped) in
  acc_ok A (ys ++ q) acc2 swapped2.
Proof.
  intros HA Hys Hq [Hr Hc Hz Hs]. cbv zeta.
  pose proof (word_sum_nonneg q Hq) as Hq0. pose proof (ones16_range _ Hq0) as Hqr.
  destruct (fold16_ones _ Hq0) as [_ Hqc Hqz]. rewrite u32_id by lia.
  destruct (fold_once (acc + fold16 (word_sum q))) as (Hf & Hfc & Hfz & Hfs); [lia|].
  specialize (Hfs ltac:(lia)). set (acc1 := FOLD_U32T _) in *.
  assert (acc1 ≡₁ shift_factor (length ys) * (A + word_sum (ys ++ q))) as H1.
  { rewrite Hfc, Hc, Hqc, word_sum_app, Z.add_assoc, (Z.mul_add_distr_l (shift_factor (length ys)) (A + _)).
    rewrite Z.mul_assoc, shift_factor_square, Z.mul_1_l. done. }
  assert (acc1 = 0 ↔ A + word_sum (ys ++ q) = 0) as H0.
  { rewrite word_sum_app_zero by done. rewrite <- Hz, <- Hqz. lia. }
  pose proof (rem_parity (length ys) (length q)) as Hp. rewrite <- length_app, <- Hs in Hp.
  pose proof (shift_factor_parity (length q)) as Hsf.
  destruct (Z.rem (Z.of_nat (length q)) 2 =? 0); simpl in *.
  - split; [lia| |done|done]. rewrite length_app, shift_factor_app, Hsf, Z.mul_1_r. done.
  - assert (ones16 (SWAP_BYTES_IN_WORD acc1) (256 * acc1)) as [Hr2 Hc2 Hz2]
      by (apply ones16_swap; by split; [lia| |]).
    split; [done| |lia|done].
    rewrite Hc2, H1, length_app, shift_factor_app, Hsf. by rewrite Z.mul_assoc, (Z.mul_comm 256).
Qed.

Section Chain.
Variable addr_odd : option ptr → bool.

Lemma LWIP_CHKSUM_spec h b :
  wf_pbuf h b → Forall is_byte (pbuf_bytes h b) → len b < 2 ^ 16 →
  LWIP_CHKSUM addr_odd (payload b) (len b) h = Ok (fold16 (word_sum (pbuf_bytes h b))).
Proof.
  intros Hw Hb Hl. unfold LWIP_CHKSUM. pose proof (pbuf_bytes_length h b Hw) as HB.
  rewrite mem_read_bytes by (done || lia). mstep. unfold slice. rewrite drop_0, take_ge by lia.
  rewrite chksum2_spec; [done|done|]. unfold max_len. lia.
Qed.

Lemma chain_loop_spec h xs fuel p A ys acc swapped :
  packet h p xs → (length xs ≤ fuel)%nat → 0 ≤ A → Forall is_byte ys → Forall is_byte (content h xs) →
  acc_ok A ys acc swapped →
  okP (chain_loop addr_odd fuel p acc swapped h) (λ r, acc_ok A (ys ++ content h xs) r.1 r.2).
Proof.
  revert fuel p ys acc swapped.
  induction xs as [|x xs IH]; intros fuel p ys acc swapped Hp Hf HA Hys Hb Hacc.
  { apply packet_none in Hp as ->. destruct fuel; apply okP_ret; by rewrite app_nil_r. }
  at_head Hp. simpl in Hf. destruct fuel as [|fuel]; [lia|]. cbn [chain_loop]. rewrite Hget. mstep.
  rewrite content_cons, Forall_app in Hb. destruct Hb as [Hb1 Hb2].
  rewrite LWIP_CHKSUM_spec by (done || lia). mstep.
  pose proof (acc_step A ys _ acc swapped HA Hys Hb1 Hacc) as Hstep. cbv zeta in Hstep.
  rewrite (pbuf_bytes_length h x.2 Hwf) in Hstep. rewrite content_cons, app_assoc.
  destruct (if negb _ then _ else _) as [acc2 swapped2].
  apply IH; try done; [lia|]. by apply Forall_app.
Qed.

(** After the loop: swap back. *)
Lemma acc_final A ys acc swapped :
  0 ≤ A → Forall is_byte ys → acc_ok A ys acc swapped →
  ones16 (if swapped then SWAP_BYTES_IN_WORD acc else acc) (A + word_sum ys).
Proof.
  intros HA Hys [Hr Hc Hz ->]. pose proof (shift_factor_parity (length ys)) as Hsf.
  destruct (Z.rem (Z.of_nat (length ys)) 2 =? 0); simpl; rewrite Hsf in Hc.
  - split; [done| |done]. by rewrite Hc, Z.mul_1_l.
  - assert (ones16 acc acc) as Ho by done. apply ones16_swap in Ho.
    eapply ones16_cong; [exact Ho| |lia]. by rewrite Hc, cong_square.
Qed.

Lemma complement r : 0 ≤ r ≤ 65535 → u16 (Z.lnot (Z.land r 0xffff)) = 65535 - r.
Proof.
  intros Hr. rewrite land_ffff, Z.mod_small by lia.
  replace (Z.lnot r) with (- r - 1) by (pose proof (Z.add_lnot_diag r); lia).
  unfold u16. symmetry. apply (Z.mod_unique _ _ (-1)); lia.
Qed.

Lemma inet_chksum_pbuf_value h p xs :
  packet h p xs → Forall is_byte (content h xs) →
  inet_chksum_pbuf addr_odd p h = Ok (0xffff - fold16 (word_sum (content h xs))).
Proof.
  intros Hp Hb. unfold inet_chksum_pbuf.
  destruct (chain_loop_spec h xs (fuel_of h) p 0 [] 0 false) as ([acc swapped] & He & Ha);
    [done|by eapply packet_fuel|done|done|done|done|].
  rewrite He. mstep. simpl in Ha. apply acc_final in Ha; [|done|done].
  rewrite complement by apply Ha. by rewrite (ones16_fold _ _ (word_sum_nonneg _ Hb) Ha).
Qed.

(** *** Pseudo headers *)

(** The bytes of a word as they lie in memory, and a 16-bit number in network
    order. *)
Definition le32 (w : Z) : list Z :=
  [w mod 256; w / 256 mod 256; w / 65536 mod 256; w / 16777216].
Definition be16 (n : Z) : list Z := [n / 256; n mod 256].

(** The pseudo headers of RFC 793 and RFC 8200. *)
Definition pseudo4 (proto proto_len src dest : Z) : list Z :=
  le32 src ++ le32 dest ++ [0; proto] ++ be16 proto_len.
Definition pseudo6 (proto proto_len : Z) (src dest : list Z) : list Z :=
  concat (le32 <$> src) ++ concat (le32 <$> dest) ++ [0; 0] ++ be16 proto_len ++ [0; 0; 0; proto].

Definition is_u32 (w : Z) : Prop := 0 ≤ w < 2 ^ 32.

Lemma word_sum_even xs ys :
  Z.rem (Z.of_nat (length xs)) 2 = 0 → word_sum (xs ++ ys) = word_sum xs + word_sum ys.
Proof.
  induction xs as [|a|a b l IH] using pairs_ind; [done|done|].
  intros H. cbn [app word_sum]. rewrite IH; [lia|]. cbn [length] in H.
  rewrite Z.rem_mod_nonneg in * by lia.
  replace (Z.of_nat (S (S (length l)))) with (Z.of_nat (length l) + 1 * 2) in H by lia.
  by rewrite Z.mod_add in H by lia.
Qed.

Lemma le32_bytes w : is_u32 w → Forall is_byte (le32 w).
Proof.
  intros Hw. unfold is_u32 in Hw.
  pose proof (Z.mod_pos_bound w 256). pose proof (Z.mod_pos_bound (w / 256) 256).
  pose proof (Z.mod_pos_bound (w / 65536) 256).
  assert (0 ≤ w / 16777216 < 256) by (split; [apply Z.div_pos; lia|apply Z.div_lt_upper_bound; lia]).
  repeat constructor; unfold is_byte; lia.
Qed.

Lemma be16_bytes n : 0 ≤ n < 2 ^ 16 → Forall is_byte (be16 n).
Proof.
  intros Hn. pose proof (Z.mod_pos_bound n 256).
  assert (0 ≤ n / 256 < 256) by (split; [apply Z.div_pos; lia|apply Z.div_lt_upper_bound; lia]).
  repeat constructor; unfold is_byte; lia.
Qed.

Lemma word_sum_le32 w : is_u32 w → word_sum (le32 w) = w mod 65536 + w / 65536.
Proof.
  intros Hw. unfold is_u32 in Hw. cbn [le32 word_sum]. unfold load16.
  assert (w / 65536 = w / 65536 mod 256 + 256 * (w / 16777216)) as H1.
  { replace 16777216 with (65536 * 256) by lia. rewrite <- Z.div_div by lia.
    pose proof (Z.div_mod (w / 65536) 256). lia. }
  assert (w mod 65536 = w mod 256 + 256 * (w / 256 mod 256)) as H2
    by (replace 65536 with (256 * 256) by lia; apply Z.rem_mul_r; lia).
  lia.
Qed.

Lemma add_word_value acc w :
  is_u32 w → 0 ≤ acc < 2 ^ 31 → add_word acc w = acc + word_sum (le32 w).
Proof.
  intros Hw Ha. rewrite word_sum_le32 by done. unfold is_u32 in Hw. unfold add_word.
  rewrite Z.shiftr_div_pow2 by lia. change (2 ^ 16) with 65536.
  assert (0 ≤ w / 65536 < 65536) by (split; [apply Z.div_pos; lia|apply Z.div_lt_upper_bound; lia]).
  pose proof (Z.mod_pos_bound w 65536). rewrite !land_ffff, (Z.mod_small (w / 65536)) by lia.
  rewrite (u32_id (acc + _)) by lia. rewrite u32_id by lia. lia.
Qed.

Lemma le32_sum_bound w : is_u32 w → 0 ≤ word_sum (le32 w) ≤ 131070.
Proof.
  intros Hw. pose proof (word_sum_nonneg _ (le32_bytes w Hw)).
  pose proof (word_sum_bound _ (le32_bytes w Hw)) as H1.
  change ((Z.of_nat (length (le32 w)) + 1) / 2) with 2 in H1. lia.
Qed.

Lemma htons_value n : 0 ≤ n < 2 ^ 16 → lwip_htons n = word_sum (be16 n).
Proof. intros. unfold lwip_htons. rewrite swap_value by lia. simpl. unfold load16. lia. Qed.

(** The common part: [A] is what the addresses contribute. *)
Lemma inet_cksum_pseudo_base_value h p xs proto proto_len A acc :
  packet h p xs → Forall is_byte (content h xs) → is_byte proto → 0 ≤ proto_len < 2 ^ 16 →
  0 ≤ A → ones16 acc A →
  inet_cksum_pseudo_base addr_odd p proto proto_len acc h =
    Ok (0xffff - fold16 (A + word_sum ([0; proto] ++ be16 proto_len) + word_sum (content h xs))).
Proof.
  intros Hp Hb Hpr Hpl HA [Hr Hc Hz]. unfold inet_cksum_pseudo_base.
  destruct (chain_loop_spec h xs (fuel_of h) p A [] acc false) as ([acc' swapped] & He & Ha);
    [done|by eapply packet_fuel|done|done|done| |].
  { split; [done| |by rewrite Hz, Z.add_0_r|done]. by rewrite Hc, Z.mul_1_l, Z.add_0_r. }
  rewrite He. mstep. simpl in Ha. apply acc_final in Ha; [|done|done]. unfold finish_pseudo.
  unfold is_byte in Hpr. rewrite (u16_id proto) by lia. rewrite (htons_value proto), (htons_value proto_len) by lia.
  set (r := if swapped then _ else _) in *. destruct Ha as [Hr' Hc' Hz'].
  pose proof (word_sum_nonneg _ (be16_bytes proto ltac:(lia))).
  pose proof (word_sum_nonneg _ (be16_bytes proto_len ltac:(lia))).
  assert (word_sum (be16 proto) = load16 0 proto) as Hbp.
  { simpl. unfold load16. rewrite Z.div_small, Z.mod_small by lia. lia. }
  pose proof (word_sum_bound _ (be16_bytes proto_len ltac:(lia))) as Hbl.
  change ((Z.of_nat (length (be16 proto_len)) + 1) / 2) with 1 in Hbl.
  rewrite (u32_id (r + _)) by (unfold load16 in Hbp; lia).
  rewrite u32_id by (unfold load16 in Hbp; lia).
  change ([0; proto] ++ be16 proto_len) with (0 :: proto :: be16 proto_len).
  assert (Hn : 0 ≤ word_sum (content h xs)) by by apply word_sum_nonneg.
  assert (ones16 (FOLD_U32T (FOLD_U32T (r + word_sum (be16 proto) + word_sum (be16 proto_len))))
    (A + word_sum (0 :: proto :: be16 proto_len) + word_sum (content h xs))) as Ho.
  { change (word_sum (0 :: proto :: be16 proto_len)) with (load16 0 proto + word_sum (be16 proto_len)).
    apply ones16_fold_twice; [unfold load16 in Hbp; lia| |lia].
    rewrite Hc', Hbp. match goal with |- ?a ≡₁ ?b => replace a with b by lia end. done. }
  rewrite complement by apply Ho.
  eapply ones16_fold in Ho; [by rewrite Ho|].
  change (word_sum (0 :: proto :: be16 proto_len)) with (load16 0 proto + word_sum (be16 proto_len)). lia.
Qed.

Lemma inet_chksum_pseudo_value h p xs proto proto_len src dest :
  packet h p xs → Forall is_byte (content h xs) → is_byte proto → 0 ≤ proto_len < 2 ^ 16 →
  is_u32 src → is_u32 dest →
  inet_chksum_pseudo addr_odd p proto proto_len src dest h =
    Ok (0xffff - fold16 (word_sum (pseudo4 proto proto_len src dest ++ content h xs))).
Proof.
  intros Hp Hb Hpr Hpl Hs Hd. unfold inet_chksum_pseudo.
  pose proof (le32_sum_bound src Hs). pose proof (le32_sum_bound dest Hd).
  assert (u32 (Z.land src 0xffff + Z.land (Z.shiftr src 16) 0xffff) = word_sum (le32 src)) as ->.
  { rewrite <- (Z.add_0_l (word_sum _)), <- (add_word_value 0 src) by (done || lia).
    unfold add_word. rewrite (u32_id (0 + _)); [done|]. unfold is_u32 in Hs.
    rewrite land_ffff by lia. pose proof (Z.mod_pos_bound src 65536). lia. }
  rewrite add_word_value by (done || lia).
  rewrite (inet_cksum_pseudo_base_value h p xs proto proto_len (word_sum (le32 src) + word_sum (le32 dest)));
    try done; [|lia|by apply ones16_fold_twice; [lia| |]].
  unfold pseudo4. rewrite <- !app_assoc, (app_assoc [0; proto]).
  rewrite (word_sum_even (le32 src)), (word_sum_even (le32 dest)), (word_sum_even (_ ++ _)) by done.
  do 3 f_equal. lia.
Qed.

Lemma add_words_value src dest acc :
  Forall is_u32 src → Forall is_u32 dest → length src = length dest → (length src ≤ 4)%nat →
  0 ≤ acc ≤ 262140 * (4 - Z.of_nat (length src)) →
  add_words acc src dest = acc + word_sum (concat (le32 <$> src)) + word_sum (concat (le32 <$> dest)).
Proof.
  revert dest acc. induction src as [|s src IH]; intros [|d dest] acc Hs Hd Hl H4 Ha; try done.
  { simpl. lia. }
  apply Forall_cons in Hs as [Hs Hsr]. apply Forall_cons in Hd as [Hd Hdr].
  cbn [length] in *. cbn [add_words].
  change (concat (le32 <$> s :: src)) with (le32 s ++ concat (le32 <$> src)).
  change (concat (le32 <$> d :: dest)) with (le32 d ++ concat (le32 <$> dest)).
  pose proof (le32_sum_bound s Hs). pose proof (le32_sum_bound d Hd).
  rewrite (add_word_value acc), add_word_value by (done || lia).
  rewrite IH by (done || lia). rewrite !(word_sum_even (le32 _)) by done. lia.
Qed.

Lemma ip6_chksum_pseudo_value h p xs proto proto_len src dest :
  packet h p xs → Forall is_byte (content h xs) → is_byte proto → 0 ≤ proto_len < 2 ^ 16 →
  Forall is_u32 src → Forall is_u32 dest → length src = 4%nat → length dest = 4%nat →
  ip6_chksum_pseudo addr_odd p proto proto_len src dest h =
    Ok (0xffff - fold16 (word_sum (pseudo6 proto proto_len src dest ++ content h xs))).
Proof.
  intros Hp Hb Hpr Hpl Hs Hd Hls Hld. unfold ip6_chksum_pseudo.
  assert (∀ ws : list Z, Forall is_u32 ws → length ws = 4%nat →
    Z.of_nat (length (concat (le32 <$> ws))) = 16 ∧ 0 ≤ word_sum (concat (le32 <$> ws)) < 2 ^ 31) as Hw.
  { intros ws Hws Hl. do 5 (destruct ws as [|? ws]; try done). split; [done|].
    assert (Forall is_byte (concat (le32 <$> [z; z0; z1; z2]))) as Hbs.
    { apply Forall_concat, Forall_fmap. eapply Forall_impl; [exact Hws|]. apply le32_bytes. }
    pose proof (word_sum_nonneg _ Hbs). pose proof (word_sum_bound _ Hbs) as Hbd.
    change ((Z.of_nat _ + 1) / 2) with 8 in Hbd. lia. }
  destruct (Hw src Hs Hls) as [Hs1 Hs2]. destruct (Hw dest Hd Hld) as [Hd1 Hd2].
  rewrite add_words_value by (done || lia). rewrite Z.add_0_l.
  set (S := concat (le32 <$> src)) in *. set (D := concat (le32 <$> dest)) in *.
  rewrite (inet_cksum_pseudo_base_value h p xs proto proto_len (word_sum S + word_sum D));
    try done; [|lia|by apply ones16_fold_twice; [lia| |]].
  unfold pseudo6. fold S D. rewrite <- !app_assoc, (word_sum_even S), (word_sum_even D);
    [|by rewrite Hd1|by rewrite Hs1].
  rewrite (word_sum_even [0; 0]), (word_sum_even (be16 _)), (word_sum_even [0; 0; 0; proto]) by done.
  rewrite (word_sum_even [0; proto]) by done. simpl. unfold load16. do 3 f_equal. lia.
Qed.

End Chain.

(** The checksum of a packet is the complement of the ones'
    complement sum of its content: how the bytes are split into pbufs (odd
    lengths included) and where each of them lies in memory do not matter. *)
Theorem inet_chksum_pbuf_spec addr_odd h p xs :
  packet h p xs → Forall is_byte (content h xs) →
  inet_chksum_pbuf addr_odd p h = Ok (0xffff - fold16 (word_sum (content h xs))).
Proof. apply inet_chksum_pbuf_value. Qed.

Definition addr_ok (a : ip_addr_t) : Prop := Forall is_u32 (ip_2_ip6 a).

(** The pseudo header of the destination's family. *)
Definition pseudo (proto proto_len : Z) (src dest : ip_addr_t) : list Z :=
  if ip_is_v6 dest then pseudo6 proto proto_len (ip_2_ip6 src) (ip_2_ip6 dest)
  else pseudo4 proto proto_len (ip_2_ip4 src) (ip_2_ip4 dest).

Lemma ip_2_ip4_ok a : addr_ok a → is_u32 (ip_2_ip4 a).
Proof.
  destruct a as [[[[w0 w1] w2] w3] v]. unfold addr_ok, ip_2_ip4. simpl.
  by intros [? _]%Forall_cons.
Qed.

Lemma ip_2_ip6_length a : length (ip_2_ip6 a) = 4%nat.
Proof. by destruct a as [[[[w0 w1] w2] w3] v]. Qed.

Lemma ip_chksum_pseudo_value addr_odd h p xs proto proto_len src dest :
  packet h p xs → Forall is_byte (content h xs) → is_byte proto → 0 ≤ proto_len < 2 ^ 16 →
  addr_ok src → addr_ok dest →
  ip_chksum_pseudo addr_odd p proto proto_len src dest h =
    Ok (0xffff - fold16 (word_sum (pseudo proto proto_len src dest ++ content h xs))).
Proof.
  intros Hp Hb Hpr Hpl Hs Hd. unfold ip_chksum_pseudo, pseudo. destruct (ip_is_v6 dest).
  - apply ip6_chksum_pseudo_value; try done; apply ip_2_ip6_length.
  - apply inet_chksum_pseudo_value; try done; by apply ip_2_ip4_ok.
Qed.

(** The transport checksum is the complement of the ones'
    complement sum of the pseudo header of RFC 793 (IPv4) or RFC 8200 (IPv6)
    followed by the packet's content. *)
Theorem ip_chksum_pseudo_spec addr_odd h p xs proto proto_len src dest :
  packet h p xs → Forall is_byte (content h xs) → is_byte proto → 0 ≤ proto_len < 2 ^ 16 →
  addr_ok src → addr_ok dest →
  ip_chksum_pseudo addr_odd p proto proto_len src dest h =
    Ok (0xffff - fold16 (word_sum (pseudo proto proto_len src dest ++ content h xs))).
Proof. apply ip_chksum_pseudo_value. Qed.

(** *** Filling in and verifying *)

(** A 16-bit value as the sender stores it in a header. *)
Definition le16 (c : Z) : list Z := [c mod 256; c / 256].

Lemma le16_bytes c : 0 ≤ c ≤ 65535 → Forall is_byte (le16 c).
Proof.
  intros Hn. pose proof (Z.mod_pos_bound c 256).
  assert (0 ≤ c / 256 < 256) by (split; [apply Z.div_pos; lia|apply Z.div_lt_upper_bound; lia]).
  repeat constructor; unfold is_byte; lia.
Qed.

Lemma split_two (l : list Z) n :
  (2 ≤ length l - n)%nat → (2 ≤ length l)%nat →
  ∃ a b, slice (Z.of_nat n) 2 l = [a; b] ∧ l = take n l ++ [a; b] ++ drop (n + 2) l.
Proof.
  intros Hn Hl. unfold slice. rewrite Nat2Z.id. pose proof (take_drop n l) as Hs.
  destruct (drop n l) as [|a [|b r]] eqn:E;
    try (apply (f_equal length) in E; rewrite length_drop in E; simpl in E; lia).
  exists a, b. split; [done|]. rewrite <- drop_drop, E. simpl. by rewrite drop_0, <- Hs at 1.
Qed.

Lemma word_sum_fill l off c :
  0 ≤ off → Z.rem off 2 = 0 → off + 2 ≤ Z.of_nat (length l) → slice off 2 l = [0; 0] →
  0 ≤ c ≤ 65535 → word_sum (splice off (le16 c) l) = word_sum l + c.
Proof.
  intros Ho He Hl Hs Hc.
  destruct (split_two l (Z.to_nat off)) as (a & b & Hab & Hsp); [lia|lia|].
  rewrite Z2Nat.id, Hs in Hab by done. injection Hab as <- <-.
  assert (Z.rem (Z.of_nat (length (take (Z.to_nat off) l))) 2 = 0) as Hev.
  { rewrite length_take. replace (Z.of_nat _) with off by lia. done. }
  unfold splice. rewrite Hsp at 3. change (length (le16 c)) with 2%nat.
  rewrite (word_sum_even (take _ _)), (word_sum_even (take _ _)), (word_sum_even (le16 c)),
    (word_sum_even [0; 0]) by done.
  simpl. unfold load16. pose proof (Z.div_mod c 256). lia.
Qed.

Lemma fold16_complement S : 0 ≤ S → fold16 (S + (65535 - fold16 S)) = 65535.
Proof.
  intros HS. pose proof (ones16_range S HS) as Hr. destruct (fold16_ones S HS) as [_ Hc Hz].
  symmetry. apply ones16_fold; [lia|]. split; [lia| |].
  - transitivity (fold16 S + (65535 - fold16 S)); [apply (cong_shift _ _ 0); lia|by apply cong_add].
  - lia.
Qed.

Lemma is_byte_splice off bs l : Forall is_byte bs → Forall is_byte l → Forall is_byte (splice off bs l).
Proof.
  intros Hb Hl. unfold splice. rewrite !Forall_app. split_and!; [by apply Forall_take|done|by apply Forall_drop].
Qed.

Lemma pseudo_bytes proto proto_len src dest :
  is_byte proto → 0 ≤ proto_len < 2 ^ 16 → addr_ok src → addr_ok dest →
  Forall is_byte (pseudo proto proto_len src dest) ∧
  Z.rem (Z.of_nat (length (pseudo proto proto_len src dest))) 2 = 0.
Proof.
  intros Hp Hl Hs Hd. assert (∀ ws, Forall is_u32 ws → Forall is_byte (concat (le32 <$> ws))) as Hw.
  { intros ws Hws. apply Forall_concat, Forall_fmap. eapply Forall_impl; [exact Hws|]. apply le32_bytes. }
  assert (is_byte 0) by by unfold is_byte.
  unfold pseudo, pseudo6, pseudo4. destruct (ip_is_v6 dest).
  - split; [rewrite !Forall_app; split_and!; auto using be16_bytes|].
    by destruct src as [[[[s0 s1] s2] s3] ?], dest as [[[[d0 d1] d2] d3] ?].
  - split; [rewrite !Forall_app; split_and!; auto using be16_bytes, le32_bytes, ip_2_ip4_ok|done].
Qed.

(** Claim C26. A checksum the sender fills in is one the receiver accepts:
    with the checksum field zeroed, computing the transport checksum and
    storing it in the header gives a packet whose recomputed checksum is 0. *)
Theorem ip_chksum_fill_verify addr_odd h p xs proto proto_len src dest off :
  packet h p xs → NoDup (blocks xs) → Forall is_byte (content h xs) →
  is_byte proto → 0 ≤ proto_len < 2 ^ 16 → addr_ok src → addr_ok dest →
  0 ≤ off → Z.rem off 2 = 0 → off + 2 ≤ sum_len xs → slice off 2 (content h xs) = [0; 0] →
  okP (c ← ip_chksum_pseudo addr_odd p proto proto_len src dest h;
       '(e, h') ← pbuf_take_at p (le16 c) off h;
       c' ← ip_chksum_pseudo addr_odd p proto proto_len src dest h';
       Ok (e, c')) (λ r, r = (ERR_OK, 0)).
Proof.
  intros Hp Hn Hb Hpr Hpl Hs Hd Ho He Hf Hz.
  pose proof (pk_len _ _ _ Hp) as Hlen. pose proof (content_length h xs (pk_wf _ _ _ Hp)) as HL.
  destruct (pseudo_bytes proto proto_len src dest) as [Hpb Hpe]; try done.
  rewrite (ip_chksum_pseudo_value addr_odd h p xs) by done. mstep.
  set (H := pseudo proto proto_len src dest) in *.
  assert (0 ≤ word_sum (H ++ content h xs)) as HS0 by (apply word_sum_nonneg; by apply Forall_app).
  set (c := 0xffff - fold16 (word_sum (H ++ content h xs))).
  assert (0 ≤ c ≤ 65535) as Hc by (pose proof (ones16_range _ HS0); unfold c; lia).
  eapply okP_bind; [apply (pbuf_take_at_spec h p xs (le16 c) off); (done || simpl; lia)|].
  intros [e h'] Hr. change (Z.of_nat (length (le16 c))) with 2 in Hr.
  rewrite (proj2 (Z.ltb_lt off _)), (proj2 (Z.leb_le (off + 2) _)) in Hr by lia. simpl in Hr.
  destruct Hr as (-> & _ & Hp' & Hcon).
  assert (Forall is_byte (content h' xs)) as Hb'
    by (rewrite Hcon; apply is_byte_splice; [by apply le16_bytes|done]).
  rewrite (ip_chksum_pseudo_value addr_odd h' p xs) by done. mstep. apply okP_ret. f_equal. fold H.
  rewrite word_sum_even, Hcon, word_sum_fill, Z.add_assoc, <- word_sum_even by (done || lia).
  unfold c. rewrite fold16_complement by done. done.
Qed.

(** *** Runs on concrete packets *)

(** Even and odd addresses by the parity of the offset. *)
Definition odd_offset (q : option ptr) : bool :=
  match q with Some (_, o) => Z.odd o | None => false end.

Definition demo_src : ip_addr_t := mkIpAddr (0x0100007f, 0, 0, 0) false.
Definition demo_dest6 : ip_addr_t := mkIpAddr (0x80fe, 0, 0, 0x01000000) true.

(** A UDP datagram "12 34 00 35 00 09 00 00 61" in pbufs of 3 and 6 bytes, the
    checksum field still 0. *)
Definition demo_udp : heap := Eval vm_compute in ok_heap (
  '(p, h) ← pbuf_alloc no_fail zero_junk no_custom PBUF_LINK 3 PBUF_RAM empty_heap;
  '(q, h) ← pbuf_alloc no_fail zero_junk no_custom PBUF_LINK 6 PBUF_RAM h;
  h ← pbuf_cat p q h;
  '(_, h) ← pbuf_take p [0x12; 0x34; 0; 0x35; 0; 9; 0; 0; 0x61] h;
  Ok h).

Definition demo_udp_xs : list (loc * pbuf) := Eval vm_compute in chain_of demo_udp [0%nat; 1%nat].

Lemma demo_udp_packet : packet demo_udp (Some 0%nat) demo_udp_xs.
Proof. packet_by_computation. Qed.

Ltac all_bytes := repeat (apply Forall_cons_2; [split; vm_compute; congruence|]); apply Forall_nil_2.

Lemma demo_udp_bytes : Forall is_byte (content demo_udp demo_udp_xs).
Proof. apply (Forall_impl (λ x, 0 ≤ x < 2 ^ 8)); [|done]. vm_compute content. all_bytes. Qed.

Lemma inet_chksum_pbuf_spec_witness :
  inet_chksum_pbuf odd_offset (Some 0%nat) demo_udp = Ok 0x8d8c.
Proof.
  rewrite (inet_chksum_pbuf_spec odd_offset demo_udp (Some 0%nat) demo_udp_xs);
    [vm_compute; reflexivity | exact demo_udp_packet | exact demo_udp_bytes].
Defined.

Lemma ip_chksum_pseudo_spec_witness :
  ip_chksum_pseudo odd_offset (Some 0%nat) 17 9 demo_dest6 demo_dest6 demo_udp = Ok 0x6f8f.
Proof.
  rewrite (ip_chksum_pseudo_spec odd_offset demo_udp (Some 0%nat) demo_udp_xs 17 9 demo_dest6 demo_dest6);
    [vm_compute; reflexivity | exact demo_udp_packet | exact demo_udp_bytes
    | split; vm_compute; congruence | lia | all_bytes | all_bytes].
Defined.

Lemma ip_chksum_fill_verify_witness :
  okP (c ← ip_chksum_pseudo odd_offset (Some 0%nat) 17 9 demo_src demo_src demo_udp;
       '(e, h') ← pbuf_take_at (Some 0%nat) (le16 c) 6 demo_udp;
       c' ← ip_chksum_pseudo odd_offset (Some 0%nat) 17 9 demo_src demo_src h';
       Ok (e, c')) (λ r, r = (ERR_OK, 0)).
Proof.
  apply (ip_chksum_fill_verify odd_offset demo_udp (Some 0%nat) demo_udp_xs 17 9 demo_src demo_src 6);
    [ exact demo_udp_packet | apply (bool_decide_unpack _); vm_compute; exact I | exact demo_udp_bytes
    | split; vm_compute; congruence | lia | all_bytes | all_bytes | lia | reflexivity
    | vm_compute; congruence | vm_compute; reflexivity ].
Defined.
