(* ===== verification/WireUtils.v ===== *)
(** * Wire format primitives

    [core/include/vpn/internal/wire_utils.h]: writing integers and addresses in
    network order into a buffer of fixed size, and reading them back.

    Socket addresses come from a library outside the repository: they are a
    class of operations with the laws the code relies on. *)
From S2P Require Import Prelude.

Definition IPV4_ADDR_SIZE : nat := 4.
Definition IPV6_ADDR_SIZE : nat := 16.
Definition PADDED_IP_SIZE : nat := IPV6_ADDR_SIZE.
Definition IPV4_6_SIZE_DIFF : nat := IPV6_ADDR_SIZE - IPV4_ADDR_SIZE.

(** ** Socket addresses *)

(** What the code uses of [ag::SocketAddress]: [addr()], the bytes of the IP
    address; [port()] and [set_port()]; [is_ipv4()]; the constructor from the
    bytes of an address and a port; comparison and hashing. *)
Class SocketAddressOps (A : Type) := {
  sa_eq_dec :: EqDecision A;
  sa_countable :: Countable A;
  addr : A → list Z;
  port : A → Z;
  is_ipv4 : A → bool;
  of_bytes : list Z → Z → A;
  set_port : Z → A → A;
}.

Class SocketAddressLaws (A : Type) `{!SocketAddressOps A} := {
  addr_of_bytes bs p : length bs = IPV4_ADDR_SIZE ∨ length bs = IPV6_ADDR_SIZE →
    addr (of_bytes bs p) = bs;
  port_of_bytes bs p : length bs = IPV4_ADDR_SIZE ∨ length bs = IPV6_ADDR_SIZE →
    port (of_bytes bs p) = p;
  set_port_of_bytes bs p q : length bs = IPV4_ADDR_SIZE ∨ length bs = IPV6_ADDR_SIZE →
    set_port q (of_bytes bs p) = of_bytes bs q;
  is_ipv4_size a : is_ipv4 a = bool_decide (length (addr a) = IPV4_ADDR_SIZE);
}.

(** ** Writer

    The buffer and the number of bytes already written.  Running out of room
    fails the assertion or, where assertions are compiled out, is undefined. *)
Definition writer : Type := list Z * nat.

Definition new_writer (size : nat) : writer := (replicate size 0, 0%nat).

Section Writer.
Context {A : Type} `{!SocketAddressOps A}.
Variable ndebug : bool.

Definition put_data (d : list Z) (w : writer) : res writer :=
  let '(buf, pos) := w in
  if (length d <=? length buf - pos)%nat
  then Ok (take pos buf ++ d ++ drop (pos + length d) buf, pos + length d)%nat
  else if ndebug then UB else Abort.

(** The bytes of an integer in network order. *)
Definition htons_bytes (v : Z) : list Z := let v := u16 v in [v / 256; v `mod` 256].
Definition htonl_bytes (v : Z) : list Z :=
  let v := u32 v in
  [v / 16777216; (v / 65536) `mod` 256; (v / 256) `mod` 256; v `mod` 256].

Definition put_u8 (v : Z) (w : writer) : res writer := put_data [u8 v] w.
Definition put_u16 (v : Z) (w : writer) : res writer := put_data (htons_bytes v) w.
Definition put_u32 (v : Z) (w : writer) : res writer := put_data (htonl_bytes v) w.

Definition put_ip (a : A) (w : writer) : res writer := put_data (addr a) w.

Definition put_ip_padded (a : A) (w : writer) : res writer :=
  w ← (if is_ipv4 a then put_data (replicate IPV4_6_SIZE_DIFF 0) w else Ok w);
  put_ip a w.

End Writer.

(** ** Reader *)
Section Reader.
Context {A : Type} `{!SocketAddressOps A}.

Definition get_bytes (size : nat) (b : list Z) : option (list Z * list Z) :=
  if (length b <? size)%nat then None else Some (take size b, drop size b).

Definition reader_drain (n : nat) (b : list Z) : list Z := drop (n `min` length b) b.

Definition get_u8 (b : list Z) : option (Z * list Z) :=
  match b with v :: b => Some (v, b) | [] => None end.

Definition get_u16 (b : list Z) : option (Z * list Z) :=
  match b with v1 :: v0 :: b => Some (256 * v1 + v0, b) | _ => None end.

Definition get_u32 (b : list Z) : option (Z * list Z) :=
  match b with
  | v3 :: v2 :: v1 :: v0 :: b => Some (16777216 * v3 + 65536 * v2 + 256 * v1 + v0, b)
  | _ => None
  end.

Definition in6addr_loopback : list Z := replicate 15 0 ++ [1].

Definition get_ip (v4 : bool) (b : list Z) : option (A * list Z) :=
  let ip_size := if v4 then IPV4_ADDR_SIZE else IPV6_ADDR_SIZE in
  if (length b <? ip_size)%nat then None
  else Some (of_bytes (take ip_size b) 0, drop ip_size b).

Definition get_ip_padded (b : list Z) : option (A * list Z) :=
  if (length b <? PADDED_IP_SIZE)%nat then None
  else
    let v4 := forallb (Z.eqb 0) (take IPV4_6_SIZE_DIFF b)
              && negb (bool_decide (take IPV6_ADDR_SIZE b = in6addr_loopback)) in
    if v4 then get_ip true (drop IPV4_6_SIZE_DIFF b) else get_ip false b.

End Reader.

(** ** What a writer has produced *)

(** [w] holds [bs], with [n] bytes of room left, still zero. *)
Definition wrote (bs : list Z) (n : nat) (w : writer) : Prop :=
  w = (bs ++ replicate n 0, length bs).

Lemma new_writer_wrote n : wrote [] n (new_writer n).
Proof. done. Qed.

Section Facts.
Context {A : Type} `{!SocketAddressOps A, !SocketAddressLaws A}.
Implicit Types (a : A) (bs d : list Z).

Lemma put_data_wrote ndebug bs n d w :
  wrote bs n w → (length d ≤ n)%nat →
  okP (put_data ndebug d w) (wrote (bs ++ d) (n - length d)).
Proof.
  intros -> Hd. unfold put_data. rewrite length_app, length_replicate.
  rewrite (proj2 (Nat.leb_le _ _)) by lia. apply okP_ret. unfold wrote.
  rewrite take_app_length, (drop_app_ge bs) by lia.
  replace (length bs + length d - length bs)%nat with (length d) by lia.
  rewrite drop_replicate, length_app. by rewrite <- app_assoc.
Qed.

(** Sixteen bytes: an address as it is sent. *)
Definition padded a : list Z :=
  (if is_ipv4 a then replicate IPV4_6_SIZE_DIFF 0 else []) ++ addr a.

Definition is_ip a : Prop := length (addr a) = IPV4_ADDR_SIZE ∨ length (addr a) = IPV6_ADDR_SIZE.

Lemma padded_length a : is_ip a → length (padded a) = PADDED_IP_SIZE.
Proof.
  unfold padded. rewrite is_ipv4_size. intros [H|H]; rewrite length_app, H.
  - by rewrite bool_decide_eq_true_2.
  - by rewrite bool_decide_eq_false_2.
Qed.

Lemma put_ip_padded_wrote ndebug bs n a w :
  is_ip a → wrote bs n w → (PADDED_IP_SIZE ≤ n)%nat →
  okP (put_ip_padded ndebug a w) (wrote (bs ++ padded a) (n - PADDED_IP_SIZE)).
Proof.
  intros Ha Hw Hn. pose proof (padded_length a Ha) as Hl. unfold padded in *. unfold put_ip_padded, put_ip.
  rewrite length_app in Hl. destruct (is_ipv4 a).
  - rewrite length_replicate in Hl.
    eapply okP_bind; [apply put_data_wrote; [done|rewrite length_replicate; lia]|].
    intros w' Hw'. rewrite length_replicate in Hw'.
    eapply okP_mono; [apply put_data_wrote; [exact Hw'|lia]|]. intros w'' Hw''.
    rewrite <- app_assoc in Hw''. by replace (n - PADDED_IP_SIZE)%nat
      with (n - IPV4_6_SIZE_DIFF - length (addr a))%nat by lia.
  - eapply okP_mono; [apply put_data_wrote; [exact Hw|simpl in Hl; lia]|]. intros w'' Hw''.
    by rewrite <- Hl.
Qed.

(** ** Reading back *)

Lemma get_u8_back v rest : 0 ≤ v < 2 ^ 8 → get_u8 ([u8 v] ++ rest) = Some (v, rest).
Proof. intros. by rewrite u8_id. Qed.

Lemma get_u16_back v rest : 0 ≤ v < 2 ^ 16 → get_u16 (htons_bytes v ++ rest) = Some (v, rest).
Proof.
  intros. unfold htons_bytes. rewrite u16_id by done. simpl.
  by rewrite <- Z.div_mod by done.
Qed.

Lemma get_u32_back v rest : 0 ≤ v < 2 ^ 32 → get_u32 (htonl_bytes v ++ rest) = Some (v, rest).
Proof.
  intros. unfold htonl_bytes. rewrite u32_id by done. cbn [app get_u32]. do 2 f_equal.
  pose proof (Z.div_mod v 256 ltac:(lia)). pose proof (Z.div_mod (v / 256) 256 ltac:(lia)).
  pose proof (Z.div_mod (v / 65536) 256 ltac:(lia)).
  assert (v / 256 / 256 = v / 65536) by (by rewrite Z.div_div by lia).
  assert (v / 65536 / 256 = v / 16777216) by (by rewrite Z.div_div by lia). lia.
Qed.

(** An address the padded form does not confuse with one of the other
    family: not an IPv6 address that starts with twelve zero bytes, [::1]
    apart, and not the IPv4 address [0.0.0.1], which reads as [::1]. *)
Definition unambiguous a : Prop :=
  if is_ipv4 a then addr a ≠ [0; 0; 0; 1]
  else take IPV4_6_SIZE_DIFF (addr a) ≠ replicate IPV4_6_SIZE_DIFF 0 ∨ addr a = in6addr_loopback.

#[export] Instance unambiguous_dec a : Decision (unambiguous a).
Proof. unfold unambiguous. destruct (is_ipv4 a); apply _. Defined.

Lemma forallb_zero l : forallb (Z.eqb 0) l = true ↔ l = replicate (length l) 0.
Proof.
  induction l as [|x l IH]; [done|]. cbn [forallb length replicate].
  rewrite andb_true_iff, Z.eqb_eq, IH.
  split; [intros [<- H]; by f_equal | intros H; injection H as H1 H2; by subst x].
Qed.

Lemma get_ip_padded_v4 a rest :
  is_ipv4 a = true → length (addr a) = IPV4_ADDR_SIZE → addr a ≠ [0; 0; 0; 1] →
  get_ip_padded (padded a ++ rest) = Some (of_bytes (addr a) 0 : A, rest).
Proof.
  intros Hv Hl Hne. unfold get_ip_padded, padded. rewrite Hv.
  set (z := replicate IPV4_6_SIZE_DIFF 0). assert (length z = IPV4_6_SIZE_DIFF) as Hz by done.
  assert (length (z ++ addr a) = PADDED_IP_SIZE) as Hp by (by rewrite length_app, Hz, Hl).
  rewrite length_app, Hp, (proj2 (Nat.ltb_ge _ _)) by lia.
  rewrite (take_app_length' _ rest IPV6_ADDR_SIZE) by done.
  rewrite <- app_assoc, (take_app_length' z), (drop_app_length' z) by done.
  rewrite bool_decide_eq_false_2.
  2: { change in6addr_loopback with (z ++ [0; 0; 0; 1]). by intros ?%app_inv_head. }
  change (forallb (Z.eqb 0) z) with true. unfold get_ip. cbn [andb negb].
  rewrite length_app, Hl, (proj2 (Nat.ltb_ge _ _)) by lia.
  by rewrite take_app_length', drop_app_length' by done.
Qed.

Lemma get_ip_padded_v6 a rest :
  is_ipv4 a = false → length (addr a) = IPV6_ADDR_SIZE → unambiguous a →
  get_ip_padded (padded a ++ rest) = Some (of_bytes (addr a) 0 : A, rest).
Proof.
  intros Hv Hl Hu. unfold get_ip_padded, padded. unfold unambiguous in Hu. rewrite Hv in *.
  cbn [app]. rewrite length_app, Hl. rewrite (proj2 (Nat.ltb_ge _ _)) by (unfold PADDED_IP_SIZE; lia).
  rewrite (take_app_le _ _ IPV4_6_SIZE_DIFF), (take_app_length' _ _ IPV6_ADDR_SIZE)
    by (rewrite ?Hl; unfold IPV4_6_SIZE_DIFF, IPV6_ADDR_SIZE; lia).
  assert (forallb (Z.eqb 0) (take IPV4_6_SIZE_DIFF (addr a))
          && negb (bool_decide (addr a = in6addr_loopback)) = false) as ->.
  { apply andb_false_iff. destruct Hu as [Hu|Hu]; [left|right; by rewrite bool_decide_eq_true_2].
    apply not_true_iff_false. rewrite forallb_zero, length_take, Hl. done. }
  unfold get_ip. rewrite length_app, Hl, (proj2 (Nat.ltb_ge _ _)) by lia.
  by rewrite take_app_length', drop_app_length' by done.
Qed.

Lemma get_ip_padded_back a rest :
  is_ip a → unambiguous a → get_ip_padded (padded a ++ rest) = Some (of_bytes (addr a) 0 : A, rest).
Proof.
  intros Hip Hu. destruct (is_ipv4 a) eqn:Hv.
  - rewrite is_ipv4_size in Hv. apply bool_decide_eq_true in Hv.
    apply get_ip_padded_v4; [by rewrite is_ipv4_size, bool_decide_eq_true_2|done|].
    unfold unambiguous in Hu. by rewrite is_ipv4_size, bool_decide_eq_true_2 in Hu.
  - destruct Hip as [Hl|Hl]; [by rewrite is_ipv4_size, bool_decide_eq_true_2 in Hv|].
    by apply get_ip_padded_v6.
Qed.

(** Reads succeed where there are bytes enough. *)
Lemma get_ip_padded_some (b : list Z) :
  (16 ≤ length b)%nat → ∃ a : A, get_ip_padded b = Some (a, drop 16 b).
Proof.
  intros Hl. unfold get_ip_padded. rewrite (proj2 (Nat.ltb_ge _ _)) by done.
  destruct (_ && _); unfold get_ip.
  - rewrite length_drop, (proj2 (Nat.ltb_ge _ _)) by (unfold IPV4_6_SIZE_DIFF, IPV6_ADDR_SIZE, IPV4_ADDR_SIZE; lia).
    rewrite drop_drop. by eexists.
  - rewrite (proj2 (Nat.ltb_ge _ _)) by done. by eexists.
Qed.

Lemma get_u16_some (b : list Z) : (2 ≤ length b)%nat → ∃ v, get_u16 b = Some (v, drop 2 b).
Proof. intros Hl. destruct b as [|x [|y b]]; simpl in Hl; try lia. by eexists. Qed.

Lemma get_u32_some (b : list Z) : (4 ≤ length b)%nat → ∃ v, get_u32 b = Some (v, drop 4 b).
Proof. intros Hl. destruct b as [|x [|y [|z [|t b]]]]; simpl in Hl; try lia. by eexists. Qed.

(** An ambiguous one reads back as an address of the other family. *)
Lemma get_ip_padded_confused a rest b :
  is_ip a → ¬ unambiguous a → get_ip_padded (padded a ++ rest) = Some (b : A, rest) →
  length (addr b) ≠ length (addr a).
Proof.
  intros Hip Hn. pose proof (padded_length a Hip) as Hl. unfold get_ip_padded.
  rewrite length_app, Hl, (proj2 (Nat.ltb_ge _ _)) by lia.
  rewrite (take_app_length' _ rest IPV6_ADDR_SIZE) by done.
  rewrite (take_app_le _ _ IPV4_6_SIZE_DIFF), (drop_app_le _ _ IPV4_6_SIZE_DIFF)
    by (rewrite Hl; unfold PADDED_IP_SIZE, IPV4_6_SIZE_DIFF, IPV6_ADDR_SIZE; lia).
  unfold unambiguous, padded in *. destruct (is_ipv4 a) eqn:Hv.
  - apply dec_stable in Hn. rewrite Hn. cbn -[of_bytes]. intros [= <-].
    by rewrite addr_of_bytes by (by right).
  - destruct (decide (addr a = in6addr_loopback)) as [|Hne]; [exfalso; apply Hn; by right|].
    assert (take IPV4_6_SIZE_DIFF (addr a) = replicate IPV4_6_SIZE_DIFF 0) as H0.
    { apply dec_stable. intros ?. apply Hn. by left. }
    cbn [app] in *. rewrite H0, bool_decide_eq_false_2 by done.
    change (forallb _ _) with true. unfold get_ip. cbn [andb negb].
    rewrite length_app, length_drop, Hl. change (PADDED_IP_SIZE - IPV4_6_SIZE_DIFF)%nat with IPV4_ADDR_SIZE.
    rewrite (proj2 (Nat.ltb_ge _ _)) by lia. intros [= <- _].
    rewrite take_app_length' by (by rewrite length_drop, Hl).
    rewrite addr_of_bytes by (left; by rewrite length_drop, Hl). by rewrite length_drop, Hl.
Qed.

(** An address written with [put_ip_padded] reads back with
    [get_ip_padded] as itself exactly when it is unambiguous: an IPv6 address
    starting with twelve zero bytes ([::1] apart) reads back as an IPv4 one,
    and 0.0.0.1 as [::1]. *)
Theorem ip_padded_roundtrip ndebug a rest :
  is_ip a →
  okP (put_ip_padded ndebug a (new_writer PADDED_IP_SIZE)) (λ w,
    get_ip_padded (w.1 ++ rest) = Some (of_bytes (addr a) 0 : A, rest) ↔ unambiguous a).
Proof.
  intros Hip. eapply okP_mono; [apply put_ip_padded_wrote; [done|apply new_writer_wrote|lia]|].
  intros w ->. rewrite Nat.sub_diag. cbn [app replicate fst]. rewrite app_nil_r. split.
  - intros H. destruct (decide (unambiguous a)) as [|Hn]; [done|exfalso].
    apply (get_ip_padded_confused _ _ _ Hip Hn) in H. by rewrite addr_of_bytes in H.
  - by apply get_ip_padded_back.
Qed.

End Facts.

(** One call on the writer, with a tactic for the room it needs. *)
Ltac written_with room := eapply okP_bind; [
  first [ apply put_ip_padded_wrote; [done|eassumption|]
        | apply put_data_wrote; [eassumption|] ]; room
  | match goal with H : wrote _ _ _ |- _ => clear H end;
    let w := fresh "w" in let Hw := fresh "Hw" in intros w Hw ].

(** ** An instance

    Addresses as bytes and a port, the representation concrete runs use. *)
Record plain_addr := mkPlain { pa_bytes : list Z; pa_port : Z }.

#[local] Instance plain_addr_eq_dec : EqDecision plain_addr.
Proof. solve_decision. Defined.

#[local] Instance plain_addr_countable : Countable plain_addr.
Proof.
  apply (inj_countable' (λ a, (pa_bytes a, pa_port a)) (λ p, mkPlain p.1 p.2)). by intros [].
Defined.

#[export] Instance plain_ops : SocketAddressOps plain_addr := {
  addr := pa_bytes;
  port := pa_port;
  is_ipv4 a := bool_decide (length (pa_bytes a) = IPV4_ADDR_SIZE);
  of_bytes := mkPlain;
  set_port p a := mkPlain (pa_bytes a) p;
}.

#[export] Instance plain_laws : SocketAddressLaws plain_addr.
Proof. by split. Qed.

Lemma ip_padded_roundtrip_witness :
  okP (put_ip_padded false (mkPlain [0; 0; 0; 1] 0) (new_writer PADDED_IP_SIZE)) (λ w,
    get_ip_padded (w.1 ++ [7]) ≠ Some (mkPlain [0; 0; 0; 1] 0, [7])).
Proof.
  eapply okP_mono; [apply (ip_padded_roundtrip false (mkPlain [0; 0; 0; 1] 0) [7]); by left|].
  intros w [H _] Hw. by destruct (H Hw).
Defined.
