(* ===== verification/UdpMux.v ===== *)
(** * The UDP multiplexer

    [core/src/http_udp_multiplexer.{h,cpp}]: all UDP "connections" of the client
    share one HTTP stream to the endpoint.  Outgoing datagrams are framed by
    [compose_udp_packet]; the incoming byte stream is cut into datagrams by
    [process_read_event], whatever pieces it arrives in.

    The events raised for the tunnel are recorded in [mux_out] and passed to
    [handler], which may call back into the multiplexer.  What the upstream
    answers (the stream id of the connect request, the status of a send) and
    the clock are arguments. *)
From S2P Require Import Prelude EventLoop VpnTypes WireUtils.

Definition UDPPKT_LENGTH_SIZE : Z := 4.
Definition UDPPKT_ADDR_SIZE : Z := 16.
Definition UDPPKT_PORT_SIZE : Z := 2.
Definition UDPPKT_IN_PREFIX_SIZE : Z :=
  UDPPKT_LENGTH_SIZE + 2 * (UDPPKT_ADDR_SIZE + UDPPKT_PORT_SIZE).
Definition UDPPKT_APPLEN_SIZE : Z := 1.
Definition MAX_UDP_PAYLOAD_SIZE : Z := 65535 - 8.
Definition MAX_UDP_IN_PACKET_LENGTH : Z :=
  MAX_UDP_PAYLOAD_SIZE + UDPPKT_IN_PREFIX_SIZE - UDPPKT_LENGTH_SIZE.
Definition VPN_DEFAULT_UDP_TIMEOUT_MS : Z := 5 * 60 * 1000.
Definition NON_ID : Z := 2 ^ 64 - 1.
Definition HTTP_OK_STATUS : Z := 200.

Definition sizeZ {B} (l : list B) : Z := Z.of_nat (length l).

(** ** Data *)

Inductive MultiplexerState := MS_IDLE | MS_ESTABLISHED.

Inductive RecvConnectionState := RCS_IDLE | RCS_PAYLOAD | RCS_DROPPING.

#[export] Instance MultiplexerState_eq_dec : EqDecision MultiplexerState.
Proof. solve_decision. Defined.

#[export] Instance RecvConnectionState_eq_dec : EqDecision RecvConnectionState.
Proof. solve_decision. Defined.

Record RecvConnection := mkRecv {
  rc_state : RecvConnectionState;
  rc_id : Z;
  bytes_left : Z;
  rc_buffer : list Z;
}.

(** [RecvConnection{}]. *)
Definition recv_default : RecvConnection := mkRecv RCS_IDLE NON_ID 0 [].

Record PacketInfo := mkPacketInfo { pi_id : Z; payload_length : Z }.

Record ServerError := mkServerError { se_id : Z; se_error : VpnError }.

Inductive ServerEvent :=
| SERVER_EVENT_CONNECTION_OPENED (id : Z)
| SERVER_EVENT_CONNECTION_CLOSED (id : Z)
| SERVER_EVENT_READ (id : Z) (data : list Z)
| SERVER_EVENT_DATA_SENT (id : Z) (n : Z)
| SERVER_EVENT_ERROR (e : ServerError).

(** Everything the multiplexer does to the outside, in order. *)
Inductive MuxOut :=
| Raised (e : ServerEvent)
| ConnectRequest (host : string)
| StreamData (stream : Z) (data : list Z)
| Consumed (stream size : Z).

(** The lambdas submitted to the event loop. *)
Inductive MuxTask :=
| TCompleteUdpConnection (id : Z)
| TCloseConnection (id : Z).

Section Types.
Context (A : Type).

Inductive TunnelAddress :=
| SockAddr (a : A)
| NamePort (name : string) (p : Z).

Record TunnelAddressPair := mkPair { pair_src : A; pair_dst : TunnelAddress }.

Record Connection := mkConn {
  read_enabled : bool;
  conn_addr : TunnelAddressPair;
  conn_app_name : list Z;
  sent_bytes_since_flush : Z;
  conn_timeout : Z;
  open_task_id : option Z;
  close_task_id : option Z;
}.

End Types.
Arguments SockAddr {A}.
Arguments NamePort {A}.
Arguments mkPair {A}.
Arguments pair_src {A}.
Arguments pair_dst {A}.
Arguments mkConn {A}.
Arguments read_enabled {A}.
Arguments conn_addr {A}.
Arguments conn_app_name {A}.
Arguments sent_bytes_since_flush {A}.
Arguments conn_timeout {A}.
Arguments open_task_id {A}.
Arguments close_task_id {A}.

#[export] Instance TunnelAddress_eq_dec {A} `{EqDecision A} : EqDecision (TunnelAddress A).
Proof. solve_decision. Defined.

#[export] Instance TunnelAddress_countable {A} `{Countable A} : Countable (TunnelAddress A).
Proof.
  apply (inj_countable'
    (λ t, match t with SockAddr a => inl a | NamePort n p => inr (n, p) end)
    (λ s, match s with inl a => SockAddr a | inr (n, p) => NamePort n p end)).
  by intros [].
Defined.

#[export] Instance TunnelAddressPair_eq_dec {A} `{EqDecision A} : EqDecision (TunnelAddressPair A).
Proof. solve_decision. Defined.

#[export] Instance TunnelAddressPair_countable {A} `{Countable A} : Countable (TunnelAddressPair A).
Proof. apply (inj_countable' (λ p, (pair_src p, pair_dst p)) (λ p, mkPair p.1 p.2)). by intros []. Defined.

Record Mux (A : Type) `{Countable A} := mkMux {
  m_state : MultiplexerState;
  m_stream_id : Z;
  m_recv_connection : RecvConnection;
  m_addr_to_id : gmap (TunnelAddressPair A) Z;
  m_connections : gmap Z (Connection A);
  m_timer_event : bool;
  m_pending_error : option ServerError;
  mux_loop : VpnEventLoop MuxTask;
  mux_out : list MuxOut;
}.
Arguments mkMux {A _ _}.
Arguments m_state {A _ _}.
Arguments m_stream_id {A _ _}.
Arguments m_recv_connection {A _ _}.
Arguments m_addr_to_id {A _ _}.
Arguments m_connections {A _ _}.
Arguments m_timer_event {A _ _}.
Arguments m_pending_error {A _ _}.
Arguments mux_loop {A _ _}.
Arguments mux_out {A _ _}.

Section Fields.
Context {A : Type} `{Countable A}.
Implicit Types m : Mux A.

Definition set_established (s : Z) m : Mux A :=
  mkMux MS_ESTABLISHED s (m_recv_connection m) (m_addr_to_id m) (m_connections m)
    (m_timer_event m) (m_pending_error m) (mux_loop m) (mux_out m).
Definition set_recv r m : Mux A :=
  mkMux (m_state m) (m_stream_id m) r (m_addr_to_id m) (m_connections m)
    (m_timer_event m) (m_pending_error m) (mux_loop m) (mux_out m).
Definition set_addr_to_id x m : Mux A :=
  mkMux (m_state m) (m_stream_id m) (m_recv_connection m) x (m_connections m)
    (m_timer_event m) (m_pending_error m) (mux_loop m) (mux_out m).
Definition set_connections x m : Mux A :=
  mkMux (m_state m) (m_stream_id m) (m_recv_connection m) (m_addr_to_id m) x
    (m_timer_event m) (m_pending_error m) (mux_loop m) (mux_out m).
Definition set_timer_event x m : Mux A :=
  mkMux (m_state m) (m_stream_id m) (m_recv_connection m) (m_addr_to_id m) (m_connections m)
    x (m_pending_error m) (mux_loop m) (mux_out m).
Definition set_pending x m : Mux A :=
  mkMux (m_state m) (m_stream_id m) (m_recv_connection m) (m_addr_to_id m) (m_connections m)
    (m_timer_event m) x (mux_loop m) (mux_out m).
Definition set_mux_loop x m : Mux A :=
  mkMux (m_state m) (m_stream_id m) (m_recv_connection m) (m_addr_to_id m) (m_connections m)
    (m_timer_event m) (m_pending_error m) x (mux_out m).
Definition record_out o m : Mux A :=
  mkMux (m_state m) (m_stream_id m) (m_recv_connection m) (m_addr_to_id m) (m_connections m)
    (m_timer_event m) (m_pending_error m) (mux_loop m) (mux_out m ++ [o]).

Definition set_read (v : bool) (c : Connection A) : Connection A :=
  mkConn v (conn_addr c) (conn_app_name c) (sent_bytes_since_flush c) (conn_timeout c)
    (open_task_id c) (close_task_id c).
Definition set_sent (n : Z) (c : Connection A) : Connection A :=
  mkConn (read_enabled c) (conn_addr c) (conn_app_name c) n (conn_timeout c)
    (open_task_id c) (close_task_id c).
Definition set_timeout (t : Z) (c : Connection A) : Connection A :=
  mkConn (read_enabled c) (conn_addr c) (conn_app_name c) (sent_bytes_since_flush c) t
    (open_task_id c) (close_task_id c).
Definition set_open_task (t : option Z) (c : Connection A) : Connection A :=
  mkConn (read_enabled c) (conn_addr c) (conn_app_name c) (sent_bytes_since_flush c)
    (conn_timeout c) t (close_task_id c).
Definition set_close_task (t : option Z) (c : Connection A) : Connection A :=
  mkConn (read_enabled c) (conn_addr c) (conn_app_name c) (sent_bytes_since_flush c)
    (conn_timeout c) (open_task_id c) t.

(** [AutoTaskId]: ids are not negative; dropping one cancels its task. *)
Definition auto_id (id : Z) : option Z := if id <? 0 then None else Some id.

Definition drop_task (id : option Z) m : Mux A :=
  match id with
  | Some id => set_mux_loop (vpn_event_loop_cancel id (mux_loop m)) m
  | None => m
  end.

Definition submit_task (t : MuxTask) m : option Z * Mux A :=
  let '(id, l) := vpn_event_loop_submit (mkTask t true) (mux_loop m) in
  (auto_id id, set_mux_loop l m).

End Fields.

(** ** Operations *)
Section Ops.
Context {A : Type} `{!SocketAddressOps A}.
Variable ndebug : bool.
(** What the tunnel does when an event is raised. *)
Variable handler : ServerEvent → Mux A → res (Mux A).
(** The error code of a refused connection. *)
Variable AG_ECONNREFUSED : Z.
Implicit Types m : Mux A.

Definition assert (b : bool) : res unit := if b || ndebug then Ok tt else Abort.

Definition raise (e : ServerEvent) m : res (Mux A) := handler e (record_out (Raised e) m).

(** [compose_udp_packet]. *)
Definition compose_udp_packet (src dst : A) (app_name data : list Z) : res (list Z) :=
  let full_length := UDPPKT_IN_PREFIX_SIZE + UDPPKT_APPLEN_SIZE + sizeZ app_name + sizeZ data in
  let writer := new_writer (Z.to_nat full_length) in
  writer ← put_u32 ndebug (full_length - UDPPKT_LENGTH_SIZE) writer;
  writer ← put_ip_padded ndebug src writer;
  writer ← put_u16 ndebug (port src) writer;
  writer ← put_ip_padded ndebug dst writer;
  writer ← put_u16 ndebug (port dst) writer;
  let app_name := take 255 app_name in
  writer ← put_u8 ndebug (sizeZ app_name) writer;
  writer ← put_data ndebug app_name writer;
  writer ← put_data ndebug data writer;
  Ok writer.1.

(** [clean_connection_data]: erasing a connection drops its two tasks. *)
Definition clean_connection_data (id : Z) m : bool * Mux A :=
  match m_connections m !! id with
  | None => (false, m)
  | Some conn =>
      let r := m_recv_connection m in
      let m := if rc_id r =? id
               then set_recv (mkRecv RCS_DROPPING (rc_id r) (bytes_left r) (rc_buffer r)) m else m in
      let m := set_addr_to_id (delete (conn_addr conn) (m_addr_to_id m)) m in
      let m := set_connections (delete id (m_connections m)) m in
      (true, drop_task (open_task_id conn) (drop_task (close_task_id conn) m))
  end.

(** [reset]. *)
Definition mux_reset m : Mux A :=
  mkMux MS_IDLE 0 recv_default ∅ (m_connections m) false (m_pending_error m) (mux_loop m) (mux_out m).

(** [close]; a connection the handler erased while it was still to be visited
    leaves a dangling iterator. *)
Fixpoint close_loop (error : option ServerError) (ids : list Z) m : res (Mux A) :=
  match ids with
  | [] => Ok m
  | id :: ids =>
      match m_connections m !! id with
      | None => UB
      | Some _ =>
          m ← raise (match error with
                     | Some e => SERVER_EVENT_ERROR (mkServerError id (se_error e))
                     | None => SERVER_EVENT_CONNECTION_CLOSED id
                     end) m;
          close_loop error ids (clean_connection_data id m).2
      end
  end.

Definition mux_close (serv_err : ServerError) m : res (Mux A) :=
  let error := match m_pending_error m with
               | Some e => Some e
               | None => if negb (code (se_error serv_err) =? 0) then Some serv_err else None
               end in
  m ← close_loop error (map_to_list (m_connections m)).*1 m;
  Ok (mux_reset m).

(** [complete_udp_connection]. *)
Definition complete_udp_connection (id : Z) m : res (Mux A) :=
  match m_state m with
  | MS_IDLE => Ok m
  | MS_ESTABLISHED =>
      match m_connections m !! id with
      | None => Ok m
      | Some conn =>
          let m := set_connections (<[id := set_open_task None conn]> (m_connections m)) m in
          let m := set_addr_to_id (<[conn_addr conn := id]> (m_addr_to_id m)) m in
          raise (SERVER_EVENT_CONNECTION_OPENED id) m
      end
  end.

(** [open_connection]; [answer] is what [send_connect_request_callback]
    returns, should it be called. *)
Definition open_connection (answer : option Z) (now : Z) (conn_id : Z) (addr : TunnelAddressPair A)
    (app_name : list Z) m : res (bool * Mux A) :=
  match pair_dst addr with
  | NamePort _ _ => _ ← assert false; Ok (false, m)
  | SockAddr _ =>
      match m_connections m !! conn_id with
      | Some _ => _ ← assert false; Ok (false, m)
      | None =>
          '(established, m) ←
            match m_state m with
            | MS_IDLE =>
                _ ← assert (m_stream_id m =? 0);
                let m := record_out (ConnectRequest "_udp2") m in
                match answer with
                | None => Ok (false, m)
                | Some stream_id => Ok (true, set_established stream_id m)
                end
            | MS_ESTABLISHED => Ok (true, m)
            end;
          if negb established then Ok (false, m)
          else
            let '(task, m) := submit_task (TCompleteUdpConnection conn_id) m in
            let conn := mkConn false addr app_name 0 (now + VPN_DEFAULT_UDP_TIMEOUT_MS) task None in
            let m := set_connections (<[conn_id := conn]> (m_connections m)) m in
            let m := if m_timer_event m then m else set_timer_event true m in
            Ok (true, m)
      end
  end.

(** [close_connection(id)]. *)
Definition close_connection_now (id : Z) m : res (Mux A) :=
  let '(existed, m) := clean_connection_data id m in
  if existed : bool then raise (SERVER_EVENT_CONNECTION_CLOSED id) m else Ok m.

(** [close_connection(id, async)]. *)
Definition close_connection (id : Z) (async : bool) m : res (Mux A) :=
  if negb async then close_connection_now id m
  else
    match m_connections m !! id with
    | None => raise (SERVER_EVENT_CONNECTION_CLOSED id) m
    | Some conn =>
        let '(task, m) := submit_task (TCloseConnection id) m in
        let m := set_connections (<[id := set_close_task task conn]> (m_connections m)) m in
        Ok (drop_task (close_task_id conn) m)
    end.

Definition check_connection (id : Z) m : bool := bool_decide (is_Some (m_connections m !! id)).

(** [send]; [answer] is the status [send_data_callback] returns. *)
Definition send (answer : Z) (now : Z) (id : Z) (data : list Z) m : res (Z * Mux A) :=
  _ ← assert (bool_decide (m_state m = MS_ESTABLISHED));
  match m_connections m !! id with
  | None => Ok (-1, m)
  | Some conn =>
      match pair_dst (conn_addr conn) with
      | NamePort _ _ => UB
      | SockAddr dst =>
          packet ← compose_udp_packet (pair_src (conn_addr conn)) dst (conn_app_name conn) data;
          let m := record_out (StreamData (m_stream_id m) packet) m in
          if answer =? 0 then
            let conn := set_sent (u64 (sent_bytes_since_flush conn + sizeZ data))
                          (set_timeout (now + VPN_DEFAULT_UDP_TIMEOUT_MS) conn) in
            Ok (sizeZ data, set_connections (<[id := conn]> (m_connections m)) m)
          else Ok (-1, m)
      end
  end.

(** [std::optional::value] of something a [Reader] got. *)
Definition got {B} (x : option B) : res B := match x with Some x => Ok x | None => Abort end.

(** [read_prefix]. *)
Definition read_prefix (data : list Z) m : res PacketInfo :=
  _ ← assert (sizeZ data =? UDPPKT_IN_PREFIX_SIZE);
  let reader := take (Z.to_nat UDPPKT_IN_PREFIX_SIZE) data in
  '(length, reader) ← got (get_u32 reader);
  if length <? UDPPKT_IN_PREFIX_SIZE - UDPPKT_LENGTH_SIZE then Ok (mkPacketInfo NON_ID 0)
  else
    '(src_addr, reader) ← got (get_ip_padded reader);
    '(p, reader) ← got (get_u16 reader);
    let src_addr := set_port p src_addr in
    '(dst_addr, reader) ← got (get_ip_padded reader);
    '(p, reader) ← got (get_u16 reader);
    let dst_addr := set_port p dst_addr in
    if MAX_UDP_IN_PACKET_LENGTH <? length then Ok (mkPacketInfo NON_ID 0)
    else
      let n := length - (UDPPKT_IN_PREFIX_SIZE - UDPPKT_LENGTH_SIZE) in
      Ok (mkPacketInfo (default NON_ID (m_addr_to_id m !! mkPair dst_addr (SockAddr src_addr))) n).

(** One round of the loop of [process_read_event]: the rest of the data. *)
Definition read_idle (data : list Z) m : res (list Z * Mux A) :=
  let r := m_recv_connection m in
  _ ← assert (sizeZ (rc_buffer r) <? UDPPKT_IN_PREFIX_SIZE);
  let to_read := Z.min (u64 (UDPPKT_IN_PREFIX_SIZE - sizeZ (rc_buffer r))) (sizeZ data) in
  let buffer := rc_buffer r ++ take (Z.to_nat to_read) data in
  let rest := drop (Z.to_nat to_read) data in
  if sizeZ buffer <? UDPPKT_IN_PREFIX_SIZE
  then Ok (rest, set_recv (mkRecv RCS_IDLE (rc_id r) (bytes_left r) buffer) m)
  else
    _ ← assert (sizeZ buffer =? UDPPKT_IN_PREFIX_SIZE);
    info ← read_prefix buffer m;
    let drop_packet :=
      if pi_id info =? NON_ID then true
      else match m_connections m !! pi_id info with
           | None => true
           | Some conn => negb (read_enabled conn)
           end in
    let r := if negb drop_packet
             then mkRecv RCS_PAYLOAD (pi_id info) (payload_length info) []
             else mkRecv RCS_DROPPING (rc_id r) (payload_length info) [] in
    Ok (rest, set_recv r m).

Definition read_payload (now : Z) (data : list Z) m : res (list Z * Mux A) :=
  let r := m_recv_connection m in
  match m_connections m !! rc_id r with
  | None => Abort
  | Some conn =>
      let m := set_connections
                 (<[rc_id r := set_timeout (now + VPN_DEFAULT_UDP_TIMEOUT_MS) conn]> (m_connections m)) m in
      let to_read := Z.min (bytes_left r) (sizeZ data) in
      let buffer := rc_buffer r ++ take (Z.to_nat to_read) data in
      let rest := drop (Z.to_nat to_read) data in
      let left := bytes_left r - to_read in
      let m := set_recv (mkRecv RCS_PAYLOAD (rc_id r) left buffer) m in
      if left =? 0 then
        m ← raise (SERVER_EVENT_READ (rc_id r) buffer) m;
        Ok (rest, set_recv recv_default m)
      else Ok (rest, m)
  end.

Definition read_dropping (data : list Z) m : res (list Z * Mux A) :=
  let r := m_recv_connection m in
  let to_drop := Z.min (bytes_left r) (sizeZ data) in
  let rest := drop (Z.to_nat to_drop) data in
  let left := bytes_left r - to_drop in
  let r := mkRecv RCS_DROPPING (rc_id r) left (rc_buffer r) in
  Ok (rest, set_recv (if left =? 0 then recv_default else r) m).

Definition read_round (now : Z) (data : list Z) m : res (list Z * Mux A) :=
  match rc_state (m_recv_connection m) with
  | RCS_IDLE => read_idle data m
  | RCS_PAYLOAD => read_payload now data m
  | RCS_DROPPING => read_dropping data m
  end.

Fixpoint read_loop (fuel : nat) (now : Z) (data : list Z) m : res (Mux A) :=
  match data with
  | [] => Ok m
  | _ =>
      match fuel with
      | O => UB
      | S fuel => '(data, m) ← read_round now data m; read_loop fuel now data m
      end
  end.

(** The loop to its end; a round that takes no byte is followed by one that
    does. *)
Definition read_all (now : Z) (data : list Z) m : res (Mux A) :=
  read_loop (2 * length data) now data m.

(** [process_read_event]. *)
Definition process_read_event (now : Z) (data : list Z) m : res (Mux A) :=
  _ ← assert (bool_decide (m_state m = MS_ESTABLISHED));
  m ← read_all now data m;
  Ok (record_out (Consumed (m_stream_id m) (sizeZ data)) m).

(** [timer_callback]. *)
Fixpoint timer_loop (now : Z) (ids : list Z) m : res (Mux A) :=
  match ids with
  | [] => Ok m
  | id :: ids =>
      match m_connections m !! id with
      | None => UB
      | Some conn =>
          if conn_timeout conn <=? now then
            m ← raise (SERVER_EVENT_CONNECTION_CLOSED id) (clean_connection_data id m).2;
            timer_loop now ids m
          else timer_loop now ids m
      end
  end.

Definition timer_callback (now : Z) m : res (Mux A) :=
  timer_loop now (map_to_list (m_connections m)).*1 m.

(** [handle_response]. *)
Definition handle_response (status_code : Z) m : res (Mux A) :=
  _ ← assert (bool_decide (m_state m = MS_ESTABLISHED));
  if status_code =? HTTP_OK_STATUS then Ok m
  else Ok (set_pending (Some (mkServerError 0
             (mkError AG_ECONNREFUSED (Some "HTTP stream creation failed"%string)))) m).

Definition get_stream_id m : option Z :=
  match m_state m with MS_IDLE => None | MS_ESTABLISHED => Some (m_stream_id m) end.

(** [report_sent_bytes]. *)
Fixpoint report_loop (ids : list Z) m : res (Mux A) :=
  match ids with
  | [] => Ok m
  | id :: ids =>
      match m_connections m !! id with
      | None => UB
      | Some conn =>
          if 0 <? sent_bytes_since_flush conn then
            m ← raise (SERVER_EVENT_DATA_SENT id (sent_bytes_since_flush conn)) m;
            match m_connections m !! id with
            | None => UB
            | Some conn => report_loop ids (set_connections (<[id := set_sent 0 conn]> (m_connections m)) m)
            end
          else report_loop ids m
      end
  end.

Definition report_sent_bytes m : res (Mux A) := report_loop (map_to_list (m_connections m)).*1 m.

Definition set_read_enabled (id : Z) (v : bool) m : Mux A :=
  match m_connections m !! id with
  | Some conn => set_connections (<[id := set_read v conn]> (m_connections m)) m
  | None => m
  end.

Definition connections_num m : Z := Z.of_nat (size (m_connections m)).

(** The lambdas of the submitted tasks. *)
Definition run_mux_task (t : MuxTask) m : res (Mux A) :=
  match t with
  | TCompleteUdpConnection id => complete_udp_connection id m
  | TCloseConnection id => close_connection_now id m
  end.

End Ops.
