(* ===== verification/UdpMuxProps.v ===== *)
(** * Properties of the UDP multiplexer

    Framing in both directions, independence of the segmentation of the
    incoming stream, and the invariant of the connection tables. *)
From S2P Require Import Prelude EventLoop VpnTypes WireUtils UdpMux.

Lemma assert_inv {B} ndebug b (f : unit → res B) x :
  assert ndebug b ≫= f = Ok x → f tt = Ok x.
Proof. unfold assert. by destruct (b || ndebug). Qed.

Lemma assert_ok ndebug b : b = true → assert ndebug b = Ok tt.
Proof. by intros ->. Qed.

Section Compose.
Context {A : Type} `{!SocketAddressOps A, !SocketAddressLaws A}.
Implicit Types (a src dst : A).

(** The bytes of an outgoing packet. *)
Definition outgoing src dst (app_name data : list Z) : list Z :=
  htonl_bytes (UDPPKT_IN_PREFIX_SIZE + UDPPKT_APPLEN_SIZE + sizeZ app_name + sizeZ data - UDPPKT_LENGTH_SIZE)
  ++ padded src ++ htons_bytes (port src) ++ padded dst ++ htons_bytes (port dst)
  ++ [u8 (sizeZ (take 255 app_name))] ++ take 255 app_name ++ data
  ++ replicate (length app_name - 255) 0.

(** One call on the writer. *)
Ltac written := written_with ltac:(
  unfold PADDED_IP_SIZE, IPV6_ADDR_SIZE; cbn [length htonl_bytes htons_bytes];
  rewrite ?length_take; lia).

Lemma compose_udp_packet_layout ndebug src dst app_name data :
  is_ip src → is_ip dst →
  compose_udp_packet ndebug src dst app_name data = Ok (outgoing src dst app_name data).
Proof.
  intros Hs Hd. enough (okP (compose_udp_packet ndebug src dst app_name data)
    (λ r, r = outgoing src dst app_name data)) as (r & -> & ->) by done.
  unfold compose_udp_packet, put_u8, put_u16, put_u32.
  set (full := UDPPKT_IN_PREFIX_SIZE + _ + _ + _).
  assert (Z.to_nat full = 41 + length app_name + length data)%nat as Hf
    by (unfold full, sizeZ, UDPPKT_IN_PREFIX_SIZE, UDPPKT_APPLEN_SIZE, UDPPKT_LENGTH_SIZE,
          UDPPKT_ADDR_SIZE, UDPPKT_PORT_SIZE; lia).
  rewrite Hf. set (w0 := new_writer _).
  assert (wrote [] (41 + length app_name + length data) w0) as Hw by apply new_writer_wrote.
  clearbody w0.
  do 8 written. match goal with H : wrote _ _ _ |- _ => rewrite H end. apply okP_ret. cbn [fst]. unfold outgoing.
  fold full. rewrite <- !app_assoc. cbn [app]. do 7 f_equal.
  f_equal. f_equal. unfold PADDED_IP_SIZE, IPV6_ADDR_SIZE. cbn [length htonl_bytes htons_bytes].
  rewrite length_take. lia.
Qed.

(** ** The documented format of outgoing packets

    Length, source, destination, application name with its length, payload. *)
Definition parse_outgoing (b : list Z) : option (A * A * list Z * list Z) :=
  '(n, b) ← get_u32 b;
  if negb (n =? sizeZ b) then None
  else
    '(src, b) ← get_ip_padded b;
    '(p, b) ← get_u16 b;
    let src : A := set_port p src in
    '(dst, b) ← get_ip_padded b;
    '(p, b) ← get_u16 b;
    let dst : A := set_port p dst in
    '(l, b) ← get_u8 b;
    '(app, b) ← get_bytes (Z.to_nat l) b;
    Some (src, dst, app, b).

(** An address that consists of its bytes and its port. *)
Record wire_addr (a : A) : Prop := mkWireAddr {
  wa_ip : is_ip a;
  wa_unambiguous : unambiguous a;
  wa_port : 0 ≤ port a < 2 ^ 16;
  wa_plain : of_bytes (addr a) (port a) = a;
}.

Lemma read_addr a rest :
  wire_addr a →
  get_ip_padded (padded a ++ rest) = Some (of_bytes (addr a) 0 : A, rest) ∧
  set_port (port a) (of_bytes (addr a) 0) = a.
Proof.
  intros [Hip Hu Hp Hpl]. split; [by apply get_ip_padded_back|]. by rewrite set_port_of_bytes.
Qed.

(** An outgoing datagram is framed as documented: parsing the
    packet gives back both addresses, the application name and the payload.
    A name of more than 255 bytes is cut, but the packet is as long as if it
    were not: the payload then ends in one zero byte per byte cut. *)
Theorem compose_udp_packet_parses ndebug src dst app_name data :
  wire_addr src → wire_addr dst → 37 + sizeZ app_name + sizeZ data < 2 ^ 32 →
  okP (compose_udp_packet ndebug src dst app_name data) (λ packet,
    parse_outgoing packet =
      Some (src, dst, take 255 app_name, data ++ replicate (length app_name - 255) 0)).
Proof.
  intros Hs Hd Hl. rewrite compose_udp_packet_layout by (apply Hs || apply Hd). apply okP_ret.
  pose proof (padded_length src (wa_ip _ Hs)) as Hls. pose proof (padded_length dst (wa_ip _ Hd)) as Hld.
  unfold outgoing, parse_outgoing. set (n := _ - UDPPKT_LENGTH_SIZE).
  assert (n = 37 + sizeZ app_name + sizeZ data) as Hn
    by (unfold n, UDPPKT_IN_PREFIX_SIZE, UDPPKT_APPLEN_SIZE, UDPPKT_LENGTH_SIZE, UDPPKT_ADDR_SIZE,
          UDPPKT_PORT_SIZE; lia).
  assert (0 ≤ sizeZ (take 255 app_name) ≤ 255) as Ha by (unfold sizeZ; rewrite length_take; lia).
  rewrite get_u32_back by (unfold sizeZ in *; lia). mstep. cbn [mbind option_bind].
  rewrite (proj2 (Z.eqb_eq n _)).
  2: { unfold sizeZ in *. rewrite !length_app, Hls, Hld, length_replicate, length_take. unfold PADDED_IP_SIZE, IPV6_ADDR_SIZE. cbn [length htons_bytes]. lia. }
  cbn [negb]. destruct (read_addr src (htons_bytes (port src) ++ padded dst ++ htons_bytes (port dst)
    ++ [u8 (sizeZ (take 255 app_name))] ++ take 255 app_name ++ data
    ++ replicate (length app_name - 255) 0) Hs) as [-> Hset].
  cbn [mbind option_bind]. rewrite get_u16_back by apply Hs. cbn [mbind option_bind]. rewrite Hset. clear Hset.
  destruct (read_addr dst (htons_bytes (port dst) ++ [u8 (sizeZ (take 255 app_name))]
    ++ take 255 app_name ++ data ++ replicate (length app_name - 255) 0) Hd) as [-> Hset].
  cbn [mbind option_bind]. rewrite get_u16_back by apply Hd. cbn [mbind option_bind]. rewrite Hset. clear Hset.
  rewrite get_u8_back by lia. cbn [mbind option_bind]. unfold get_bytes, sizeZ. rewrite Nat2Z.id.
  rewrite (proj2 (Nat.ltb_ge _ _)) by (rewrite length_app; lia). cbn [mbind option_bind].
  by rewrite take_app_length, drop_app_length.
Qed.

End Compose.

(** ** Cutting the incoming stream *)
Section Segmentation.
Context {A : Type} `{!SocketAddressOps A}.
Variable ndebug : bool.
Variable handler : ServerEvent → Mux A → res (Mux A).
Implicit Types m : Mux A.

Notation read_round := (read_round ndebug handler).
Notation read_loop := (read_loop ndebug handler).
Notation read_all := (read_all ndebug handler).

(** What the rounds need of the receiving side. *)
Record recv_wf (r : RecvConnection) : Prop := mkRecvWf {
  ro_buffer : rc_state r = RCS_IDLE → sizeZ (rc_buffer r) < UDPPKT_IN_PREFIX_SIZE;
  ro_left : 0 ≤ bytes_left r;
}.

Definition recv_ok m : Prop := recv_wf (m_recv_connection m).

(** A round that will take no byte. *)
Definition stalled m : bool :=
  negb (bool_decide (rc_state (m_recv_connection m) = RCS_IDLE)) && (bytes_left (m_recv_connection m) =? 0).

(** How many bytes the current phase still wants. *)
Definition wanted m : Z :=
  match rc_state (m_recv_connection m) with
  | RCS_IDLE => UDPPKT_IN_PREFIX_SIZE - sizeZ (rc_buffer (m_recv_connection m))
  | RCS_PAYLOAD | RCS_DROPPING => bytes_left (m_recv_connection m)
  end.

Lemma wanted_range m :
  recv_ok m → 0 ≤ wanted m ∧
  (wanted m = 0 ↔ stalled m = true) ∧
  (rc_state (m_recv_connection m) = RCS_IDLE → u64 (wanted m) = wanted m).
Proof.
  intros [Hb Hl]. unfold wanted, stalled. destruct (rc_state _) eqn:E.
  - rewrite bool_decide_eq_true_2 by done. cbn [negb andb]. specialize (Hb eq_refl). unfold sizeZ, UDPPKT_IN_PREFIX_SIZE, UDPPKT_LENGTH_SIZE,
      UDPPKT_ADDR_SIZE, UDPPKT_PORT_SIZE in *.
    split_and!; [lia|split; [lia|done]|]. intros _. apply Z.mod_small. lia.
  - rewrite bool_decide_eq_false_2 by done. cbn [negb andb]. by rewrite Z.eqb_eq.
  - rewrite bool_decide_eq_false_2 by done. cbn [negb andb]. by rewrite Z.eqb_eq.
Qed.

Lemma read_prefix_length data m info :
  read_prefix ndebug data m = Ok info → 0 ≤ payload_length info.
Proof.
  unfold read_prefix, assert, got.
  destruct (_ || _); [|done]. mstep. destruct (get_u32 _) as [[n r]|]; [|done]. mstep.
  destruct (Z.ltb_spec n (UDPPKT_IN_PREFIX_SIZE - UDPPKT_LENGTH_SIZE)); [by intros [= <-]|].
  destruct (get_ip_padded r) as [[a r1]|]; [|done]. mstep.
  destruct (get_u16 r1) as [[p r2]|]; [|done]. mstep.
  destruct (get_ip_padded r2) as [[a' r3]|]; [|done]. mstep.
  destruct (get_u16 r3) as [[p' r4]|]; [|done]. mstep.
  destruct (_ <? n); intros [= <-]; simpl; lia.
Qed.

(** A round leaves the receiving side in order; it takes what the phase wants,
    as far as it is there. *)
Lemma read_round_inv now data m rest m' :
  recv_ok m → read_round now data m = Ok (rest, m') →
  recv_ok m' ∧ rest = drop (Z.to_nat (Z.min (wanted m) (sizeZ data))) data ∧
  (stalled m = true → stalled m' = false).
Proof.
  intros Hm. pose proof Hm as [Hb Hl]. destruct (wanted_range m Hm) as (Hw & Hz & Hu).
  unfold UdpMux.read_round. unfold wanted, stalled in *.
  destruct (rc_state (m_recv_connection m)) eqn:E.
  - unfold read_idle. cbv zeta. intros H%assert_inv. revert H. rewrite Hu by done.
    set (k := Z.min _ _). set (buffer := _ ++ take _ data).
    destruct (Z.ltb_spec (sizeZ buffer) UDPPKT_IN_PREFIX_SIZE).
    + intros [= <- <-]. split_and!; [by split|done|by intros _].
    + intros Hr%assert_inv. revert Hr.
      destruct (read_prefix ndebug buffer m) as [info| |] eqn:Ei; [|done|done]. mstep.
      intros [= <- <-]. apply read_prefix_length in Ei.
      split_and!; [|done|by rewrite bool_decide_eq_true_2].
      match goal with |- context [if negb ?c then _ else _] => generalize c end.
      intros []; split; simpl; (done || lia).
  - unfold read_payload. cbv zeta. destruct (m_connections m !! _) as [conn|]; [|done].
    destruct (Z.eqb_spec (bytes_left (m_recv_connection m)
      - Z.min (bytes_left (m_recv_connection m)) (sizeZ data)) 0) as [H0|H0].
    + unfold raise. destruct (handler _ _) as [m1| |]; [|done|done]. mstep.
      intros [= <- <-]. split_and!; [by split|done|done].
    + intros [= <- <-]. split_and!; [split; simpl; [done|lia]|done|].
      intros _. simpl. apply Z.eqb_neq. done.
  - unfold read_dropping. cbv zeta. intros [= <- <-].
    destruct (Z.eqb_spec (bytes_left (m_recv_connection m)
      - Z.min (bytes_left (m_recv_connection m)) (sizeZ data)) 0) as [H0|H0].
    + split_and!; [by split|done|done].
    + split_and!; [split; simpl; [done|lia]|done|].
      intros _. simpl. apply Z.eqb_neq. done.
Qed.

(** Enough fuel for every run. *)
Definition need (data : list Z) m : nat :=
  2 * length data - (if stalled m then 0 else 1).

Lemma need_round now x data m rest m' :
  recv_ok m → read_round now (x :: data) m = Ok (rest, m') →
  rest = [] ∨ (S (need rest m') ≤ need (x :: data) m)%nat.
Proof.
  intros Hm Hr. destruct (read_round_inv _ _ _ _ _ Hm Hr) as (Hm' & Hrest & Hst).
  destruct (wanted_range m Hm) as (Hw & Hz & _).
  destruct rest as [|y rest]; [by left|right]. unfold need.
  assert (length (y :: rest) = length (x :: data) - Z.to_nat (Z.min (wanted m) (sizeZ (x :: data))))%nat as Hl
    by (by rewrite Hrest, length_drop).
  destruct (stalled m) eqn:Es.
  - rewrite (Hst eq_refl). cbn [length] in *. lia.
  - assert (wanted m ≠ 0) by (rewrite Hz; done). unfold sizeZ in Hl. cbn [length] in *.
    destruct (stalled m'); lia.
Qed.

Lemma need_le data m : (need data m ≤ 2 * length data)%nat.
Proof. unfold need. destruct (stalled m); lia. Qed.

Lemma read_loop_fuel n k now data m :
  recv_ok m → (need data m ≤ n)%nat → (need data m ≤ k)%nat →
  read_loop n now data m = read_loop k now data m.
Proof.
  revert k data m. induction n as [|n IH]; intros k data m Hm Hn Hk.
  - destruct data as [|x data]; [by destruct k|]. unfold need in *. cbn [length] in *.
    destruct (stalled m); lia.
  - destruct data as [|x data]; [by destruct k|].
    destruct k as [|k]; [unfold need in *; cbn [length] in *; destruct (stalled m); lia|].
    cbn [UdpMux.read_loop]. destruct (read_round now (x :: data) m) as [[rest m']| |] eqn:Er; [|done|done].
    mstep. destruct (read_round_inv _ _ _ _ _ Hm Er) as (Hm' & _).
    destruct (need_round _ _ _ _ _ _ Hm Er) as [->|Hlt]; [by destruct n, k|].
    apply IH; [done|lia|lia].
Qed.

(** The loop, one round at a time. *)
Lemma read_all_cons now x data m :
  recv_ok m →
  read_all now (x :: data) m = ('(rest, m) ← read_round now (x :: data) m; read_all now rest m).
Proof.
  intros Hm. unfold UdpMux.read_all at 1. change (2 * length (x :: data))%nat with (S (length data + S (length data + 0))).
  cbn [UdpMux.read_loop]. destruct (read_round now (x :: data) m) as [[rest m']| |] eqn:Er; [|done|done].
  mstep. destruct (read_round_inv _ _ _ _ _ Hm Er) as (Hm' & _). unfold UdpMux.read_all.
  destruct (need_round _ _ _ _ _ _ Hm Er) as [->|Hlt]; [by destruct (length data + _)%nat|].
  pose proof (need_le (x :: data) m) as Hle. cbn [length] in Hle.
  apply read_loop_fuel; [done|lia|apply need_le].
Qed.

Lemma take_drop_app (d1 d2 : list Z) w :
  sizeZ d1 ≤ w →
  take (Z.to_nat (Z.min w (sizeZ (d1 ++ d2)))) (d1 ++ d2)
    = d1 ++ take (Z.to_nat (Z.min (w - sizeZ d1) (sizeZ d2))) d2 ∧
  drop (Z.to_nat (Z.min w (sizeZ (d1 ++ d2)))) (d1 ++ d2)
    = drop (Z.to_nat (Z.min (w - sizeZ d1) (sizeZ d2))) d2.
Proof.
  unfold sizeZ. intros Hw. rewrite length_app.
  rewrite take_app_ge, drop_app_ge by lia. split; [f_equal; f_equal; lia|f_equal; lia].
Qed.

Lemma take_drop_full (d1 d2 : list Z) w :
  0 ≤ w ≤ sizeZ d1 →
  take (Z.to_nat (Z.min w (sizeZ (d1 ++ d2)))) (d1 ++ d2) = take (Z.to_nat (Z.min w (sizeZ d1))) d1 ∧
  drop (Z.to_nat (Z.min w (sizeZ (d1 ++ d2)))) (d1 ++ d2)
    = drop (Z.to_nat (Z.min w (sizeZ d1))) d1 ++ d2 ∧
  Z.min w (sizeZ (d1 ++ d2)) = Z.min w (sizeZ d1).
Proof.
  unfold sizeZ. intros Hw. rewrite length_app.
  replace (Z.min w (Z.of_nat (length d1 + length d2))) with w by lia.
  replace (Z.min w (Z.of_nat (length d1))) with w by lia.
  rewrite take_app_le, drop_app_le by lia. done.
Qed.

Lemma take_whole (d : list Z) w :
  sizeZ d ≤ w → Z.min w (sizeZ d) = sizeZ d ∧
  take (Z.to_nat (sizeZ d)) d = d ∧ drop (Z.to_nat (sizeZ d)) d = [].
Proof. unfold sizeZ. intros. rewrite Nat2Z.id, firstn_all, drop_all. split_and!; [lia|done|done]. Qed.

(** The data the current phase wants is all in the first piece. *)
Lemma read_round_full now d1 d2 m :
  recv_ok m → wanted m ≤ sizeZ d1 →
  read_round now (d1 ++ d2) m = ('(rest, m) ← read_round now d1 m; Ok (rest ++ d2, m)).
Proof.
  intros Hm Hd. pose proof Hm as [Hb Hl]. destruct (wanted_range m Hm) as (Hw & _ & Hu).
  unfold UdpMux.read_round. unfold wanted in *. destruct (rc_state (m_recv_connection m)) eqn:E.
  - unfold read_idle. cbv zeta. rewrite Hu by done.
    destruct (take_drop_full d1 d2 _ (conj Hw Hd)) as (-> & -> & _).
    rewrite (assert_ok _ _ (proj2 (Z.ltb_lt _ _) (Hb eq_refl))). mstep.
    destruct (sizeZ _ <? _); [done|]. unfold assert. destruct (_ =? UDPPKT_IN_PREFIX_SIZE); destruct ndebug;
      mstep; try done; by destruct (read_prefix _ _ _).
  - unfold read_payload. cbv zeta. destruct (m_connections m !! _) as [conn|]; [|done].
    destruct (take_drop_full d1 d2 _ (conj Hw Hd)) as (-> & -> & ->).
    destruct (_ =? 0); [|done]. unfold raise. by destruct (handler _ _).
  - unfold read_dropping. cbv zeta.
    by destruct (take_drop_full d1 d2 _ (conj Hw Hd)) as (_ & -> & ->).
Qed.

Lemma set_timeout_twice t (c : Connection A) : set_timeout t (set_timeout t c) = set_timeout t c.
Proof. done. Qed.

Lemma read_prefix_recv data r m : read_prefix ndebug data (set_recv r m) = read_prefix ndebug data m.
Proof. done. Qed.

(** The first piece ends inside the current phase. *)
Lemma read_idle_short now d1 d2 m :
  recv_ok m → rc_state (m_recv_connection m) = RCS_IDLE → sizeZ d1 < wanted m →
  read_idle ndebug (d1 ++ d2) m = ('(_, m) ← read_idle ndebug d1 m; read_round now d2 m).
Proof.
  intros Hm E Hd. pose proof (ro_buffer _ Hm) as Hb. destruct (wanted_range m Hm) as (_ & _ & Hu).
  unfold UdpMux.read_round, wanted in *. rewrite E in *.
  specialize (Hb eq_refl). specialize (Hu eq_refl).
  set (r := m_recv_connection m) in *.
  assert (sizeZ (rc_buffer r ++ d1) < UDPPKT_IN_PREFIX_SIZE) as Hlt
    by (unfold sizeZ in *; rewrite length_app; lia).
  assert (read_idle ndebug d1 m
    = Ok ([], set_recv (mkRecv RCS_IDLE (rc_id r) (bytes_left r) (rc_buffer r ++ d1)) m)) as ->.
  { unfold read_idle. fold r. cbv zeta. rewrite Hu.
    destruct (take_whole d1 (UDPPKT_IN_PREFIX_SIZE - sizeZ (rc_buffer r))) as (-> & -> & ->); [lia|].
    rewrite (assert_ok _ _ (proj2 (Z.ltb_lt _ _) Hb)). mstep. by rewrite (proj2 (Z.ltb_lt _ _) Hlt). }
  mstep. cbn [rc_state m_recv_connection set_recv]. unfold read_idle. fold r. cbv zeta.
  cbn [rc_state rc_buffer m_recv_connection set_recv rc_id bytes_left]. rewrite Hu.
  destruct (take_drop_app d1 d2 (UDPPKT_IN_PREFIX_SIZE - sizeZ (rc_buffer r))) as [-> ->]; [lia|].
  rewrite (assert_ok _ _ (proj2 (Z.ltb_lt _ _) Hlt)), (assert_ok _ _ (proj2 (Z.ltb_lt _ _) Hb)). mstep.
  assert (UDPPKT_IN_PREFIX_SIZE - sizeZ (rc_buffer r) - sizeZ d1
    = UDPPKT_IN_PREFIX_SIZE - sizeZ (rc_buffer r ++ d1)) as ->
    by (unfold sizeZ; rewrite length_app; lia).
  assert (u64 (UDPPKT_IN_PREFIX_SIZE - sizeZ (rc_buffer r ++ d1))
    = UDPPKT_IN_PREFIX_SIZE - sizeZ (rc_buffer r ++ d1)) as ->.
  { apply Z.mod_small. unfold sizeZ, UDPPKT_IN_PREFIX_SIZE, UDPPKT_LENGTH_SIZE, UDPPKT_ADDR_SIZE,
      UDPPKT_PORT_SIZE in *. lia. }
  by rewrite app_assoc.
Qed.

Lemma read_payload_short now d1 d2 m :
  rc_state (m_recv_connection m) = RCS_PAYLOAD → sizeZ d1 < wanted m →
  read_payload handler now (d1 ++ d2) m
    = ('(_, m) ← read_payload handler now d1 m; read_round now d2 m).
Proof.
  intros E Hd. unfold UdpMux.read_round, wanted in *. rewrite E in *.
  set (r := m_recv_connection m) in *.
  assert (read_payload handler now d1 m = match m_connections m !! rc_id r with
    | None => Abort
    | Some conn => Ok ([], set_recv (mkRecv RCS_PAYLOAD (rc_id r) (bytes_left r - sizeZ d1) (rc_buffer r ++ d1))
        (set_connections (<[rc_id r := set_timeout (now + VPN_DEFAULT_UDP_TIMEOUT_MS) conn]>
           (m_connections m)) m)) end) as ->.
  { unfold read_payload. fold r. cbv zeta. destruct (m_connections m !! _) as [conn|]; [|done].
    destruct (take_whole d1 (bytes_left r)) as (-> & -> & ->); [lia|].
    by rewrite (proj2 (Z.eqb_neq (_ - sizeZ d1) 0)) by lia. }
  destruct (m_connections m !! rc_id r) as [conn|] eqn:Ec;
    [|unfold read_payload; fold r; by rewrite Ec].
  mstep. cbn [rc_state m_recv_connection set_recv]. unfold read_payload. fold r. cbv zeta.
  cbn [rc_state rc_buffer m_recv_connection set_recv rc_id bytes_left m_connections set_connections].
  rewrite Ec, lookup_insert_eq, insert_insert_eq, set_timeout_twice.
  destruct (take_drop_app d1 d2 (bytes_left r)) as [-> ->]; [lia|].
  replace (bytes_left r - Z.min (bytes_left r) (sizeZ (d1 ++ d2)))
    with (bytes_left r - sizeZ d1 - Z.min (bytes_left r - sizeZ d1) (sizeZ d2))
    by (unfold sizeZ; rewrite length_app; lia).
  by rewrite app_assoc.
Qed.

Lemma read_dropping_short now d1 d2 m :
  rc_state (m_recv_connection m) = RCS_DROPPING → sizeZ d1 < wanted m →
  read_dropping (d1 ++ d2) m = ('(_, m) ← read_dropping d1 m; read_round now d2 m).
Proof.
  intros E Hd. unfold UdpMux.read_round, wanted in *. rewrite E in *.
  set (r := m_recv_connection m) in *.
  assert (read_dropping d1 m
    = Ok ([], set_recv (mkRecv RCS_DROPPING (rc_id r) (bytes_left r - sizeZ d1) (rc_buffer r)) m)) as ->.
  { unfold read_dropping. fold r. cbv zeta.
    destruct (take_whole d1 (bytes_left r)) as (-> & _ & ->); [lia|].
    by rewrite (proj2 (Z.eqb_neq (_ - sizeZ d1) 0)) by lia. }
  mstep. cbn [rc_state m_recv_connection set_recv]. unfold read_dropping. fold r. cbv zeta.
  cbn [rc_state rc_buffer m_recv_connection set_recv rc_id bytes_left].
  destruct (take_drop_app d1 d2 (bytes_left r)) as [_ ->]; [lia|].
  by replace (bytes_left r - Z.min (bytes_left r) (sizeZ (d1 ++ d2)))
    with (bytes_left r - sizeZ d1 - Z.min (bytes_left r - sizeZ d1) (sizeZ d2))
    by (unfold sizeZ; rewrite length_app; lia).
Qed.

Lemma read_round_short now d1 d2 m :
  recv_ok m → sizeZ d1 < wanted m →
  read_round now (d1 ++ d2) m = ('(_, m) ← read_round now d1 m; read_round now d2 m).
Proof.
  intros Hm Hd. unfold UdpMux.read_round at 1 3. destruct (rc_state (m_recv_connection m)) eqn:E.
  - by apply read_idle_short.
  - by apply read_payload_short.
  - by apply read_dropping_short.
Qed.

Lemma read_all_nil now m : read_all now [] m = Ok m.
Proof. done. Qed.

(** Reading two pieces is reading their concatenation. *)
Lemma read_all_app now d1 d2 m :
  recv_ok m →
  read_all now (d1 ++ d2) m = (m ← read_all now d1 m; read_all now d2 m).
Proof.
  destruct (decide (d2 = [])) as [->|Hne].
  { rewrite app_nil_r. by destruct (read_all now d1 m). }
  remember (need d1 m) as n eqn:En. revert d1 m En.
  induction n as [n IH] using lt_wf_ind. intros d1 m En Hm.
  destruct d1 as [|x d1]; [by rewrite read_all_nil|].
  rewrite (read_all_cons _ x d1) by done. cbn [app]. rewrite read_all_cons by done.
  change (x :: d1 ++ d2) with ((x :: d1) ++ d2).
  destruct (Z.lt_ge_cases (sizeZ (x :: d1)) (wanted m)) as [Hs|Hf].
  - rewrite read_round_short by done.
    destruct (read_round now (x :: d1) m) as [[rest m1]| |] eqn:Er; [|done|done]. mstep.
    destruct (read_round_inv _ _ _ _ _ Hm Er) as (Hm1 & Hrest & _).
    destruct (take_whole (x :: d1) (wanted m)) as (Hmin & _ & Hdrop); [lia|].
    rewrite Hmin, Hdrop in Hrest. subst rest. rewrite read_all_nil. mstep.
    destruct d2 as [|y d2]; [done|by rewrite read_all_cons].
  - rewrite read_round_full by done.
    destruct (read_round now (x :: d1) m) as [[rest m1]| |] eqn:Er; [|done|done]. mstep.
    destruct (read_round_inv _ _ _ _ _ Hm Er) as (Hm1 & _).
    destruct (need_round _ _ _ _ _ _ Hm Er) as [->|Hlt]; [by rewrite read_all_nil|].
    apply (IH (need rest m1)); [lia|done|done].
Qed.

Lemma read_all_recv_ok now data m m' :
  recv_ok m → read_all now data m = Ok m' → recv_ok m'.
Proof.
  remember (need data m) as n eqn:En. revert data m En.
  induction n as [n IH] using lt_wf_ind. intros data m En Hm.
  destruct data as [|x data]; [by rewrite read_all_nil; intros [= <-]|].
  rewrite read_all_cons by done.
  destruct (read_round now (x :: data) m) as [[rest m1]| |] eqn:Er; [|done|done]. mstep.
  destruct (read_round_inv _ _ _ _ _ Hm Er) as (Hm1 & _).
  destruct (need_round _ _ _ _ _ _ Hm Er) as [->|Hlt]; [by rewrite read_all_nil; intros [= <-]|].
  apply (IH (need rest m1)); [lia|done|done].
Qed.

Lemma read_all_concat now chunks m :
  recv_ok m →
  foldl (λ r d, r ≫= read_all now d) (Ok m) chunks = read_all now (concat chunks) m.
Proof.
  assert (∀ r, (∀ m, r ≠ Ok m) → foldl (λ r d, r ≫= read_all now d) r chunks = r) as Hstop.
  { intros r Hr. induction chunks as [|d chunks IH]; [done|]. simpl.
    replace (r ≫= read_all now d) with r; [done|]. destruct r as [m0| |]; [by destruct (Hr m0)|done|done]. }
  revert m Hstop. induction chunks as [|d chunks IH]; intros m Hstop Hm; [done|].
  cbn [foldl concat]. rewrite read_all_app by done.
  assert (∀ r, (∀ m, r ≠ Ok m) → foldl (λ r d, r ≫= read_all now d) r chunks = r) as Hstop'.
  { intros r Hr. specialize (Hstop r Hr). simpl in Hstop.
    replace (r ≫= read_all now d) with r in Hstop; [done|].
    destruct r as [m0| |]; [by destruct (Hr m0)|done|done]. }
  change (Ok m ≫= read_all now d) with (read_all now d m).
  destruct (read_all now d m) as [m1| |] eqn:Ed; cbn [mbind res_bind];
    [|by apply Hstop'|by apply Hstop'].
  apply IH; [done|]. by eapply read_all_recv_ok.
Qed.

(** Claim C27. The incoming stream may arrive in any pieces: processing them
    one after the other leaves the multiplexer in the same state, with the same
    events raised, as processing all the bytes at once, whatever the handler
    of the events does. *)
Theorem read_segmentation now chunks chunks' m :
  recv_ok m → concat chunks = concat chunks' →
  foldl (λ r d, r ≫= read_all now d) (Ok m) chunks
    = foldl (λ r d, r ≫= read_all now d) (Ok m) chunks'.
Proof. intros Hm Hc. by rewrite !read_all_concat, Hc. Qed.

End Segmentation.

(** ** Incoming datagrams *)
Section Frames.
Context {A : Type} `{!SocketAddressOps A, !SocketAddressLaws A}.
Variable ndebug : bool.
Variable handler : ServerEvent → Mux A → res (Mux A).
Implicit Types m : Mux A.

Notation read_all := (read_all ndebug handler).

Record datagram := mkDatagram { dg_src : A; dg_dst : A; dg_payload : list Z }.

(** The documented format of incoming packets: length, source, destination,
    payload. *)
Definition prefix_bytes (n : Z) (src dst : A) : list Z :=
  htonl_bytes n ++ padded src ++ htons_bytes (port src) ++ padded dst ++ htons_bytes (port dst).

Definition in_prefix (d : datagram) : list Z :=
  prefix_bytes (36 + sizeZ (dg_payload d)) (dg_src d) (dg_dst d).

Definition incoming (d : datagram) : list Z := in_prefix d ++ dg_payload d.

Record wf_datagram (d : datagram) : Prop := mkWfDatagram {
  wd_src : wire_addr (dg_src d);
  wd_dst : wire_addr (dg_dst d);
  wd_payload : sizeZ (dg_payload d) ≤ MAX_UDP_PAYLOAD_SIZE;
}.

(** The connection a datagram is for, when it takes data. *)
Definition receiver m (d : datagram) : option Z :=
  id ← m_addr_to_id m !! mkPair (dg_dst d) (SockAddr (dg_src d));
  conn ← m_connections m !! id;
  if read_enabled conn && negb (id =? NON_ID) then Some id else None.

Lemma prefix_bytes_size n src dst :
  is_ip src → is_ip dst → sizeZ (prefix_bytes n src dst) = UDPPKT_IN_PREFIX_SIZE.
Proof. intros Hs Hd. unfold prefix_bytes, sizeZ. by rewrite !length_app, !padded_length. Qed.

Lemma read_prefix_value n src dst m :
  wire_addr src → wire_addr dst → 0 ≤ n < 2 ^ 32 →
  read_prefix ndebug (prefix_bytes n src dst) m = Ok (
    if (n <? 36) || (MAX_UDP_IN_PACKET_LENGTH <? n) then mkPacketInfo NON_ID 0
    else mkPacketInfo (default NON_ID (m_addr_to_id m !! mkPair dst (SockAddr src))) (n - 36)).
Proof.
  intros Hs Hd Hn. pose proof (prefix_bytes_size n src dst (wa_ip _ Hs) (wa_ip _ Hd)) as Hsz.
  unfold read_prefix. rewrite (assert_ok _ _ (proj2 (Z.eqb_eq _ _) Hsz)). mstep. cbv zeta.
  rewrite take_ge by (unfold sizeZ in Hsz; lia). unfold prefix_bytes. rewrite get_u32_back by done.
  cbn [got mbind res_bind]. change (UDPPKT_IN_PREFIX_SIZE - UDPPKT_LENGTH_SIZE) with 36.
  destruct (n <? 36); [done|].
  destruct (read_addr src (htons_bytes (port src) ++ padded dst ++ htons_bytes (port dst)) Hs) as [-> Hset].
  cbn [got mbind res_bind]. rewrite get_u16_back by apply Hs. cbn [got mbind res_bind].
  rewrite Hset. clear Hset.
  destruct (read_addr dst (htons_bytes (port dst)) Hd) as [-> Hset].
  cbn [got mbind res_bind]. rewrite <- (app_nil_r (htons_bytes _)), get_u16_back by apply Hd.
  cbn [got mbind res_bind orb]. rewrite Hset. by destruct (_ <? n).
Qed.

Lemma in_prefix_size d : wf_datagram d → sizeZ (in_prefix d) = UDPPKT_IN_PREFIX_SIZE.
Proof. intros [Hs Hd _]. by apply prefix_bytes_size; [apply Hs|apply Hd]. Qed.

Lemma read_prefix_incoming d m :
  wf_datagram d →
  read_prefix ndebug (in_prefix d) m = Ok (mkPacketInfo
    (default NON_ID (m_addr_to_id m !! mkPair (dg_dst d) (SockAddr (dg_src d)))) (sizeZ (dg_payload d))).
Proof.
  intros [Hs Hd Hp]. unfold in_prefix. unfold MAX_UDP_PAYLOAD_SIZE in Hp.
  assert (0 ≤ sizeZ (dg_payload d)) by (unfold sizeZ; lia).
  rewrite read_prefix_value by (done || lia).
  rewrite (proj2 (Z.ltb_ge _ 36)), (proj2 (Z.ltb_ge _ (36 + _))).
  - do 2 f_equal. lia.
  - change MAX_UDP_IN_PACKET_LENGTH with (65535 - 8 + 36). lia.
  - lia.
Qed.

Lemma read_all_one now data m m' :
  recv_ok m → data ≠ [] → read_round ndebug handler now data m = Ok ([], m') → read_all now data m = Ok m'.
Proof. intros Hm Hd Hr. destruct data as [|x data]; [done|]. rewrite read_all_cons, Hr by done. done. Qed.

Lemma recv_default_ok m : m_recv_connection m = recv_default → recv_ok m.
Proof. intros H. split; rewrite H; done. Qed.

(** What the prefix leads to. *)
Definition after_prefix m (d : datagram) : RecvConnection :=
  match receiver m d with
  | Some id => mkRecv RCS_PAYLOAD id (sizeZ (dg_payload d)) []
  | None => mkRecv RCS_DROPPING NON_ID (sizeZ (dg_payload d)) []
  end.

Lemma read_all_prefix_bytes now n src dst m info :
  is_ip src → is_ip dst → m_recv_connection m = recv_default →
  read_prefix ndebug (prefix_bytes n src dst) m = Ok info →
  read_all now (prefix_bytes n src dst) m = Ok (set_recv (
    if negb (if pi_id info =? NON_ID then true
             else match m_connections m !! pi_id info with
                  | None => true
                  | Some conn => negb (read_enabled conn)
                  end)
    then mkRecv RCS_PAYLOAD (pi_id info) (payload_length info) []
    else mkRecv RCS_DROPPING NON_ID (payload_length info) []) m).
Proof.
  intros Hs Hd Hr Hi. pose proof (prefix_bytes_size n src dst Hs Hd) as Hsz.
  set (P := prefix_bytes n src dst) in *.
  apply read_all_one; [by apply recv_default_ok|by intros H; rewrite H in Hsz|].
  unfold UdpMux.read_round. rewrite Hr. cbn [rc_state recv_default]. unfold read_idle. rewrite Hr. cbv zeta.
  cbn [rc_buffer rc_id bytes_left recv_default app]. mstep.
  change (u64 _) with UDPPKT_IN_PREFIX_SIZE. rewrite Hsz, Z.min_id, <- Hsz.
  destruct (take_whole P (sizeZ P)) as (_ & -> & ->); [lia|].
  rewrite Hsz. change (sizeZ [] <? UDPPKT_IN_PREFIX_SIZE) with true.
  rewrite Z.ltb_irrefl, Z.eqb_refl. cbn [assert orb mbind res_bind]. by rewrite Hi.
Qed.

Lemma read_all_prefix now d m :
  wf_datagram d → m_recv_connection m = recv_default →
  read_all now (in_prefix d) m = Ok (set_recv (after_prefix m d) m).
Proof.
  intros Hd Hr. unfold in_prefix.
  rewrite (read_all_prefix_bytes now _ _ _ m _ (wa_ip _ (wd_src d Hd)) (wa_ip _ (wd_dst d Hd)) Hr
    (read_prefix_incoming d m Hd)).
  cbn [pi_id payload_length]. do 2 f_equal. unfold after_prefix, receiver.
  destruct (m_addr_to_id m !! _) as [id|]; [|done].
  change (default NON_ID (Some id)) with id. cbn [mbind option_bind].
  destruct (Z.eqb_spec id NON_ID) as [->|Hn].
  { destruct (m_connections m !! NON_ID) as [conn|]; [|done]. cbn [mbind option_bind].
    by rewrite andb_false_r. }
  destruct (m_connections m !! id) as [conn|]; [|done]. cbn [mbind option_bind].
  by destruct (read_enabled conn).
Qed.

(** A datagram reaches its receiver: the connection lives on, the tunnel gets the
    payload, and the next prefix is awaited. *)
Definition deliver now m (d : datagram) : res (Mux A) :=
  match receiver m d with
  | Some id =>
      match m_connections m !! id with
      | Some conn =>
          m ← raise handler (SERVER_EVENT_READ id (dg_payload d))
                (set_recv (mkRecv RCS_PAYLOAD id 0 (dg_payload d))
                   (set_connections (<[id := set_timeout (now + VPN_DEFAULT_UDP_TIMEOUT_MS) conn]>
                      (m_connections m)) m));
          Ok (set_recv recv_default m)
      | None => Ok m
      end
  | None => Ok m
  end.

(** Datagrams one after the other, each as the tables are when its turn comes.  A
    datagram without payload that is the last of the stream so far waits for what
    follows it. *)
Fixpoint receive now (ds : list datagram) m : res (Mux A) :=
  match ds with
  | [] => Ok m
  | d :: ds =>
      if bool_decide (ds = [] ∧ dg_payload d = []) then Ok (set_recv (after_prefix m d) m)
      else m ← deliver now m d; receive now ds m
  end.

Lemma set_recv_same m r : m_recv_connection m = r → set_recv r m = m.
Proof. by destruct m; intros <-. Qed.

Lemma receiver_conn m d id : receiver m d = Some id → is_Some (m_connections m !! id).
Proof.
  unfold receiver. destruct (m_addr_to_id m !! _) as [i|]; [|done]. cbn [mbind option_bind].
  destruct (m_connections m !! i) as [conn|] eqn:Ec; [|done]. cbn [mbind option_bind].
  destruct (_ && _); [|done]. intros [= <-]. by eexists.
Qed.

(** The round that ends a datagram. *)
Lemma read_round_ends now d rest m :
  m_recv_connection m = recv_default →
  read_round ndebug handler now (dg_payload d ++ rest) (set_recv (after_prefix m d) m) =
    (m ← deliver now m d; Ok (rest, m)).
Proof.
  intros Hr. unfold read_round, deliver, after_prefix. cbn [m_recv_connection set_recv].
  assert (Z.min (sizeZ (dg_payload d)) (sizeZ (dg_payload d ++ rest)) = sizeZ (dg_payload d)) as Hmin
    by (unfold sizeZ; rewrite length_app; lia).
  assert (take (Z.to_nat (sizeZ (dg_payload d))) (dg_payload d ++ rest) = dg_payload d) as Ht
    by (unfold sizeZ; rewrite Nat2Z.id; by rewrite take_app_length).
  assert (drop (Z.to_nat (sizeZ (dg_payload d))) (dg_payload d ++ rest) = rest) as Hd
    by (unfold sizeZ; rewrite Nat2Z.id; by rewrite drop_app_length).
  destruct (receiver m d) as [id|] eqn:Ei; cbn [rc_state].
  - destruct (receiver_conn _ _ _ Ei) as [conn Ec]. unfold read_payload. cbv zeta.
    cbn [m_recv_connection set_recv rc_id bytes_left rc_buffer m_connections].
    rewrite Ec, Hmin, Ht, Hd, Z.sub_diag. cbn [Z.eqb app].
    change (set_recv (mkRecv RCS_PAYLOAD id 0 (dg_payload d)) (set_connections ?c (set_recv ?r m)))
      with (set_recv (mkRecv RCS_PAYLOAD id 0 (dg_payload d)) (set_connections c m)).
    by destruct (raise handler _ _).
  - unfold read_dropping. cbv zeta. cbn [m_recv_connection set_recv rc_id bytes_left rc_buffer].
    rewrite Hmin, Hd, Z.sub_diag. cbn [Z.eqb mbind res_bind]. do 2 f_equal. rewrite <- Hr. by destruct m.
Qed.

Lemma read_all_datagram now d rest m :
  wf_datagram d → m_recv_connection m = recv_default → dg_payload d ++ rest ≠ [] →
  read_all now (incoming d ++ rest) m = (m ← deliver now m d; read_all now rest m).
Proof.
  intros Hd Hr Hne. unfold incoming. rewrite <- app_assoc, read_all_app by by apply recv_default_ok.
  rewrite read_all_prefix by done. mstep. pose proof (read_round_ends now d rest m Hr) as He.
  destruct (dg_payload d ++ rest) as [|x l]; [done|]. rewrite read_all_cons.
  - rewrite He. by destruct (deliver now m d).
  - split; simpl; unfold after_prefix; destruct (receiver m d); simpl; (done || unfold sizeZ; lia).
Qed.

Lemma deliver_recv now m d m' : m_recv_connection m = recv_default → deliver now m d = Ok m' → m_recv_connection m' = recv_default.
Proof.
  intros Hr. unfold deliver. destruct (receiver m d) as [id|]; [|by intros [= <-]].
  destruct (m_connections m !! id) as [conn|]; [|by intros [= <-]].
  destruct (raise handler _ _) as [m1| |]; [|done|done]. mstep. by intros [= <-].
Qed.

Lemma incoming_nonempty d : wf_datagram d → incoming d ≠ [].
Proof.
  intros Hd E. pose proof (in_prefix_size d Hd) as Hs. unfold incoming in E. apply app_nil in E as [E _].
  by rewrite E in Hs.
Qed.

Lemma read_all_datagrams now ds m :
  Forall wf_datagram ds → m_recv_connection m = recv_default →
  read_all now (concat (incoming <$> ds)) m = receive now ds m.
Proof.
  intros Hds. revert m. induction Hds as [|d ds Hd Hds IH]; intros m Hr; [done|].
  cbn [fmap list_fmap concat receive]. case_bool_decide as Hl.
  - destruct Hl as [-> Hp]. cbn [fmap list_fmap concat]. unfold incoming at 1. rewrite Hp, !app_nil_r. by apply read_all_prefix.
  - rewrite read_all_datagram; [|done|done|].
    + destruct (deliver now m d) as [m1| |] eqn:E1; [|done|done]. mstep. apply IH. by eapply deliver_recv.
    + intros [Hp Hc]%app_nil. destruct Hl. split; [|done]. destruct Hds as [|d' ds Hd' Hds]; [done|].
      cbn [fmap list_fmap concat] in Hc. apply app_nil in Hc as [Hc _]. by destruct (incoming_nonempty d').
Qed.

(** Claim C24. The bytes of a sequence of datagrams, however the stream is cut into
    pieces, have the effect of the datagrams themselves, whatever the tunnel does in the
    events (it may change what a connection reads, close it or open others): when its turn
    comes, each datagram is given to the connection registered for its address pair, if that
    takes data then, with exactly its payload, and to nobody otherwise; an event that fails
    stops the rest.  A datagram without payload is among them, but the last one of the stream
    so far, when it has no payload, is not given to anyone before more bytes come. *)
Theorem datagrams_delivered now ds chunks m :
  Forall wf_datagram ds → m_recv_connection m = recv_default →
  concat chunks = concat (incoming <$> ds) →
  foldl (λ r d, r ≫= read_all now d) (Ok m) chunks = receive now ds m.
Proof.
  intros Hds Hr Hc. rewrite read_all_concat by by apply recv_default_ok. rewrite Hc.
  by apply read_all_datagrams.
Qed.

(** Claim C34. A packet longer than the maximum is not dropped as a whole:
    only its 40-byte prefix is.  Whatever follows, the payload of that packet
    first, is read as the next prefix. *)
Theorem oversized_packet_desynchronises now (src dst : A) n rest m :
  wire_addr src → wire_addr dst → m_recv_connection m = recv_default →
  MAX_UDP_IN_PACKET_LENGTH < n < 2 ^ 32 → rest ≠ [] →
  read_all now (prefix_bytes n src dst ++ rest) m = read_all now rest m.
Proof.
  intros Hs Hd Hr Hn Hne. change MAX_UDP_IN_PACKET_LENGTH with (65535 - 8 + 36) in Hn.
  rewrite read_all_app by by apply recv_default_ok.
  assert (read_prefix ndebug (prefix_bytes n src dst) m = Ok (mkPacketInfo NON_ID 0)) as Hi.
  { rewrite read_prefix_value by (done || lia).
    rewrite (proj2 (Z.ltb_lt _ n)), orb_true_r; [done|].
    change MAX_UDP_IN_PACKET_LENGTH with (65535 - 8 + 36). lia. }
  rewrite (read_all_prefix_bytes now n src dst m _ (wa_ip _ Hs) (wa_ip _ Hd) Hr Hi). mstep.
  cbn [pi_id payload_length Z.eqb]. rewrite Z.eqb_refl. cbn [negb].
  destruct rest as [|x rest]; [done|]. rewrite read_all_cons by (split; simpl; done).
  unfold UdpMux.read_round, read_dropping. cbv zeta. cbn [rc_state m_recv_connection set_recv bytes_left].
  rewrite Z.min_l by (unfold sizeZ; lia). cbn [Z.to_nat drop mbind res_bind Z.sub Z.opp Z.add Z.eqb].
  do 2 f_equal. rewrite <- Hr. by destruct m.
Qed.

End Frames.

(** ** The invariant of the tables *)
Section Invariant.
Context {A : Type} `{!SocketAddressOps A, !SocketAddressLaws A}.
Variable ndebug : bool.
Variable handler : ServerEvent → Mux A → res (Mux A).
Variable AG_ECONNREFUSED : Z.
Implicit Types m : Mux A.

(** A connection that datagrams can be composed for. *)
Definition conn_ok (c : Connection A) : Prop :=
  is_ip (pair_src (conn_addr c)) ∧ ∃ dst, pair_dst (conn_addr c) = SockAddr dst ∧ is_ip dst.

Record mux_inv m : Prop := mkMuxInv {
  mi_addr a id : m_addr_to_id m !! a = Some id →
    ∃ c, m_connections m !! id = Some c ∧ conn_addr c = a;
  mi_conn id c : m_connections m !! id = Some c → conn_ok c;
  mi_key : m_connections m !! NON_ID = None;
  mi_recv : recv_ok m;
  mi_payload : rc_state (m_recv_connection m) = RCS_PAYLOAD →
    is_Some (m_connections m !! rc_id (m_recv_connection m));
  mi_idle_id : rc_state (m_recv_connection m) = RCS_IDLE → rc_id (m_recv_connection m) = NON_ID;
  mi_idle : m_state m = MS_IDLE →
    m_stream_id m = 0 ∧ m_connections m = ∅ ∧ m_recv_connection m = recv_default;
  mi_timer id : is_Some (m_connections m !! id) → m_timer_event m = true;
}.

(** What an event leaves: it may change the tables where nobody goes through
    them, but data is received until the stream ends, and while the connections are
    gone through none is added or removed. *)
Definition leaves (e : ServerEvent) m m' : Prop :=
  match e with
  | SERVER_EVENT_CONNECTION_OPENED _ => True
  | SERVER_EVENT_READ _ _ => m_state m' = m_state m
  | _ => dom (m_connections m') = dom (m_connections m)
  end.

(** What the tunnel does in an event. *)
Hypothesis handler_ok : ∀ e m, mux_inv m → okP (handler e m) (λ m', mux_inv m' ∧ leaves e m m').

(** Changes that leave the tables alone. *)
Record same_core m m' : Prop := mkSameCore {
  sc_state : m_state m' = m_state m;
  sc_stream : m_stream_id m' = m_stream_id m;
  sc_recv : m_recv_connection m' = m_recv_connection m;
  sc_addr : m_addr_to_id m' = m_addr_to_id m;
  sc_conn : m_connections m' = m_connections m;
  sc_timer : m_timer_event m' = m_timer_event m;
}.

Lemma same_core_inv m m' : same_core m m' → mux_inv m → mux_inv m'.
Proof.
  intros [H1 H2 H3 H4 H5 H6] [A1 A2 A3 [A4 A4'] A5 A6 A7 A8].
  split; rewrite ?H1, ?H2, ?H3, ?H4, ?H5, ?H6; try done. by split; rewrite H3.
Qed.

Lemma same_core_trans m1 m2 m3 : same_core m1 m2 → same_core m2 m3 → same_core m1 m3.
Proof. intros [H1 H2 H3 H4 H5 H6] [K1 K2 K3 K4 K5 K6]. split; congruence. Qed.

Lemma record_core o m : same_core m (record_out o m).
Proof. done. Qed.

Lemma loop_core l m : same_core m (set_mux_loop l m).
Proof. done. Qed.

Lemma drop_task_core t m : same_core m (drop_task t m).
Proof. by destruct t. Qed.

Lemma submit_task_core t m : same_core m (submit_task t m).2.
Proof. unfold submit_task. by destruct (vpn_event_loop_submit _ _). Qed.

Lemma pending_core e m : same_core m (set_pending e m).
Proof. done. Qed.

Lemma raise_ok e m :
  mux_inv m → okP (raise handler e m) (λ m', mux_inv m' ∧ leaves e m m').
Proof.
  intros Hm. unfold raise. eapply okP_mono; [apply (handler_ok e (record_out (Raised e) m))|by destruct e].
  eapply same_core_inv; [apply record_core|done].
Qed.

(** Updating a connection without changing its addresses. *)
Lemma update_conn_inv id c c' m :
  mux_inv m → m_connections m !! id = Some c → conn_addr c' = conn_addr c →
  mux_inv (set_connections (<[id := c']> (m_connections m)) m).
Proof.
  intros [A1 A2 A3 [A4 A4'] A5 A6 A7 A8] Hc Ha.
  assert (∀ i, is_Some (<[id := c']> (m_connections m) !! i) → is_Some (m_connections m !! i)) as Hsome.
  { intros i [x Hx]. destruct (decide (i = id)) as [->|]; [by eexists|].
    rewrite lookup_insert_ne in Hx by done. by eexists. }
  split; simpl.
  - intros a i (x & Hx & <-)%A1. destruct (decide (i = id)) as [->|].
    + simplify_eq. exists c'. by rewrite lookup_insert_eq.
    + exists x. by rewrite lookup_insert_ne.
  - intros i x Hx. destruct (decide (i = id)) as [->|].
    + rewrite lookup_insert_eq in Hx. injection Hx as <-. unfold conn_ok. rewrite Ha. by apply (A2 id).
    + rewrite lookup_insert_ne in Hx by done. by apply (A2 i).
  - destruct (decide (NON_ID = id)) as [<-|]; [by rewrite A3 in Hc|]. by rewrite lookup_insert_ne.
  - by split.
  - intros [x Hx]%A5. destruct (decide (rc_id (m_recv_connection m) = id)) as [->|].
    + by rewrite lookup_insert_eq.
    + by rewrite lookup_insert_ne.
  - done.
  - intros Hi. destruct (A7 Hi) as (_ & He & _). by rewrite He in Hc.
  - intros i Hi. by apply (A8 i), Hsome.
Qed.

Lemma clean_inv id m :
  mux_inv m →
  mux_inv (clean_connection_data id m).2 ∧
  dom (m_connections (clean_connection_data id m).2) = dom (m_connections m) ∖ {[id]}.
Proof.
  intros Hm. unfold clean_connection_data.
  destruct (m_connections m !! id) as [c|] eqn:Hc.
  2: { simpl. split; [done|]. apply not_elem_of_dom in Hc. set_solver. }
  cbn [snd]. set (m1 := set_connections _ _).
  assert (m_connections m1 = delete id (m_connections m)) as Hd by (unfold m1; by destruct (_ =? id)).
  assert (same_core m1 (drop_task (open_task_id c) (drop_task (close_task_id c) m1))) as Hcore
    by (eapply same_core_trans; apply drop_task_core).
  split; [|by rewrite (sc_conn _ _ Hcore), Hd, dom_delete_L].
  eapply same_core_inv; [exact Hcore|]. clear Hcore.
  destruct Hm as [A1 A2 A3 [A4 A4'] A5 A6 A7 A8].
  assert (m_connections m ≠ ∅) as Hne by (intros H; by rewrite H in Hc).
  assert (m_state m1 = m_state m ∧ m_addr_to_id m1 = delete (conn_addr c) (m_addr_to_id m) ∧
    m_timer_event m1 = m_timer_event m ∧ m_stream_id m1 = m_stream_id m ∧
    m_recv_connection m1 = (if rc_id (m_recv_connection m) =? id
      then mkRecv RCS_DROPPING (rc_id (m_recv_connection m)) (bytes_left (m_recv_connection m))
             (rc_buffer (m_recv_connection m)) else m_recv_connection m)) as (E1 & E2 & E3 & E4 & E5)
    by (unfold m1; by destruct (_ =? id)).
  split.
  - intros a i. rewrite E2, Hd. intros [Hna (x & Hx & <-)%A1]%lookup_delete_Some.
    exists x. split; [|done]. apply lookup_delete_Some. split; [|done]. intros ->. by simplify_eq.
  - intros i x. rewrite Hd. intros [_ Hx]%lookup_delete_Some. by apply (A2 i).
  - rewrite Hd. apply lookup_delete_None. by right.
  - split; rewrite E5; destruct (_ =? id); done.
  - rewrite E5, Hd. destruct (Z.eqb_spec (rc_id (m_recv_connection m)) id) as [|Hn]; [done|].
    intros [x Hx]%A5. exists x. apply lookup_delete_Some. done.
  - rewrite E5. by destruct (_ =? id).
  - rewrite E1. intros (_ & He & _)%A7. done.
  - intros i. rewrite Hd, E3. intros [x [_ Hx]%lookup_delete_Some]. apply (A8 i). by eexists.
Qed.

Lemma close_connection_now_inv id m :
  mux_inv m → okP (close_connection_now handler id m) mux_inv.
Proof.
  intros Hm. unfold close_connection_now. destruct (clean_inv id m Hm) as [Hc _].
  destruct (clean_connection_data id m) as [existed m1]. simpl in Hc.
  destruct existed; [|by apply okP_ret].
  eapply okP_mono; [by apply raise_ok|]. by intros m' [? _].
Qed.

Lemma close_connection_inv id async m :
  mux_inv m → okP (close_connection handler id async m) mux_inv.
Proof.
  intros Hm. unfold close_connection. destruct async; simpl; [|by apply close_connection_now_inv].
  destruct (m_connections m !! id) as [c|] eqn:Hc.
  2: { eapply okP_mono; [by apply raise_ok|]. by intros m' [? _]. }
  pose proof (submit_task_core (TCloseConnection id) m) as Hcore.
  destruct (submit_task _ m) as [t m1]. simpl in Hcore. apply okP_ret.
  eapply same_core_inv; [apply drop_task_core|]. rewrite <- (sc_conn _ _ Hcore) in Hc.
  eapply update_conn_inv; [by eapply same_core_inv|exact Hc|done].
Qed.

Lemma complete_inv id m : mux_inv m → okP (complete_udp_connection handler id m) mux_inv.
Proof.
  intros Hm. unfold complete_udp_connection. destruct (m_state m) eqn:Es; [by apply okP_ret|].
  destruct (m_connections m !! id) as [c|] eqn:Hc; [|by apply okP_ret].
  eapply okP_mono; [apply raise_ok|by intros m' [? _]].
  pose proof (update_conn_inv id c (set_open_task None c) m Hm Hc eq_refl) as Hu.
  destruct Hu as [A1 A2 A3 A4 A5 A6 A7 A8]. split; try done.
  intros a i. simpl. destruct (decide (conn_addr c = a)) as [<-|Hne].
  - rewrite lookup_insert_eq. intros [= <-]. eexists. by rewrite lookup_insert_eq.
  - rewrite lookup_insert_ne by done. apply A1.
Qed.

Lemma insert_conn_inv id c m :
  mux_inv m → m_connections m !! id = None → id ≠ NON_ID → conn_ok c → m_state m = MS_ESTABLISHED →
  mux_inv (set_timer_event true (set_connections (<[id := c]> (m_connections m)) m)).
Proof.
  intros [A1 A2 A3 A4 A5 A6 A7 A8] Hid Hne Hc Hst. split; simpl; try done.
  - intros a i (x & Hx & <-)%A1. exists x. rewrite lookup_insert_ne; [done|]. intros ->. by simplify_eq.
  - intros i x. rewrite lookup_insert_Some. intros [[_ <-]|[_ Hx]]; [done|by apply (A2 i)].
  - by rewrite lookup_insert_ne.
  - intros [x Hx]%A5. exists x. rewrite lookup_insert_ne; [done|]. intros ->. by simplify_eq.
  - by rewrite Hst.
Qed.

Lemma open_connection_inv answer now id addr app_name m :
  mux_inv m → m_connections m !! id = None → id ≠ NON_ID →
  is_ip (pair_src addr) → (∃ dst, pair_dst addr = SockAddr dst ∧ is_ip dst) →
  okP (open_connection ndebug answer now id addr app_name m) (λ r,
    mux_inv r.2 ∧ r.1 = check_connection id r.2).
Proof.
  intros Hm Hid Hne Hsrc (dst & Hdst & Hip). unfold open_connection. rewrite Hdst, Hid.
  assert (okP (match m_state m with
    | MS_IDLE => _ ← assert ndebug (m_stream_id m =? 0);
        match answer with
        | None => Ok (false, record_out (ConnectRequest "_udp2") m)
        | Some s => Ok (true, set_established s (record_out (ConnectRequest "_udp2") m)) end
    | MS_ESTABLISHED => Ok (true, m) end)
    (λ r, mux_inv r.2 ∧ m_connections r.2 = m_connections m ∧ (r.1 = true → m_state r.2 = MS_ESTABLISHED)))
    as ([est m1] & -> & Hm1 & Hc1 & He1).
  { destruct (m_state m) eqn:Es; [|by apply okP_ret].
    destruct (mi_idle m Hm Es) as (H0 & _ & _). rewrite H0. cbn [assert Z.eqb orb mbind res_bind].
    destruct answer as [s|]; apply okP_ret; (split_and!; [|done|done]);
      destruct Hm as [A1 A2 A3 A4 A5 A6 A7 A8]; by split. }
  mstep. simpl in Hc1. destruct est; cbn [negb].
  2: { apply okP_ret. split; [done|]. simpl. unfold check_connection. rewrite Hc1, Hid. done. }
  pose proof (submit_task_core (TCompleteUdpConnection id) m1) as Hcore.
  destruct (submit_task _ m1) as [t m2]. simpl in Hcore. apply okP_ret.
  apply (same_core_inv _ _ Hcore) in Hm1. rewrite <- (sc_conn _ _ Hcore) in Hc1.
  pose proof (sc_state _ _ Hcore) as Hst. cbn [snd] in He1. rewrite He1 in Hst by done. clear Hcore.
  set (c := mkConn _ _ _ _ _ _ _). set (m3 := set_connections _ m2).
  assert ((if m_timer_event m3 then m3 else set_timer_event true m3) = set_timer_event true m3) as ->
    by (destruct (m_timer_event m3) eqn:Et; [|done]; destruct m3; simpl in *; by rewrite Et).
  split; cbn [fst snd].
  - apply insert_conn_inv; try done; [by rewrite Hc1|]. split; [done|]. by exists dst.
  - unfold check_connection. cbn. rewrite lookup_insert_eq. by rewrite bool_decide_eq_true_2.
Qed.

Lemma read_prefix_total data m :
  sizeZ data = UDPPKT_IN_PREFIX_SIZE → okP (read_prefix ndebug data m) (λ i, 0 ≤ payload_length i).
Proof.
  intros Hs. enough (∃ i, read_prefix ndebug data m = Ok i) as [i Hi]
    by (exists i; split; [done|by eapply read_prefix_length]).
  assert (length data = 40%nat) as Hl
    by (unfold sizeZ in Hs; change UDPPKT_IN_PREFIX_SIZE with 40 in Hs; lia).
  unfold read_prefix. rewrite (assert_ok _ _ (proj2 (Z.eqb_eq _ _) Hs)). mstep. cbv zeta.
  rewrite take_ge by (rewrite Hl; done).
  destruct (get_u32_some data) as [n ->]; [lia|]. cbn [got mbind res_bind].
  destruct (_ <? _); [by eexists|].
  destruct (get_ip_padded_some (drop 4 data)) as [a ->]; [rewrite length_drop; lia|].
  cbn [got mbind res_bind].
  destruct (get_u16_some (drop 16 (drop 4 data))) as [p ->]; [rewrite !length_drop; lia|].
  cbn [got mbind res_bind].
  destruct (get_ip_padded_some (drop 2 (drop 16 (drop 4 data)))) as [a' ->]; [rewrite !length_drop; lia|].
  cbn [got mbind res_bind].
  destruct (get_u16_some (drop 16 (drop 2 (drop 16 (drop 4 data))))) as [p' ->]; [rewrite !length_drop; lia|].
  cbn [got mbind res_bind]. destruct (_ <? n); by eexists.
Qed.

Lemma set_recv_inv r m :
  mux_inv m → recv_wf r →
  (rc_state r = RCS_PAYLOAD → is_Some (m_connections m !! rc_id r)) →
  (rc_state r = RCS_IDLE → rc_id r = NON_ID) →
  (m_state m = MS_IDLE → r = recv_default) →
  mux_inv (set_recv r m).
Proof.
  intros [A1 A2 A3 A4 A5 A6 A7 A8] H1 H2 H3 H4. split; try done.
  intros Hi. destruct (A7 Hi) as (? & ? & _). split_and!; auto.
Qed.

Lemma read_idle_inv data m :
  mux_inv m → m_state m = MS_ESTABLISHED → rc_state (m_recv_connection m) = RCS_IDLE →
  okP (read_idle ndebug data m) (λ r, mux_inv r.2 ∧ m_state r.2 = MS_ESTABLISHED).
Proof.
  intros Hm Hst E. pose proof (ro_buffer _ (mi_recv m Hm) E) as Hb.
  destruct (wanted_range m (mi_recv m Hm)) as (_ & _ & Hu). specialize (Hu E). unfold wanted in Hu. rewrite E in Hu.
  unfold read_idle. cbv zeta. rewrite Hu, (assert_ok _ _ (proj2 (Z.ltb_lt _ _) Hb)). mstep.
  set (k := Z.min _ _). set (buffer := _ ++ take _ data).
  assert (sizeZ buffer ≤ UDPPKT_IN_PREFIX_SIZE) as Hle
    by (unfold buffer, k, sizeZ in *; rewrite length_app, length_take; lia).
  destruct (Z.ltb_spec (sizeZ buffer) UDPPKT_IN_PREFIX_SIZE) as [Hlt|Hge].
  { apply okP_ret. split; [|exact Hst]. apply set_recv_inv; [done|split; [done|apply (mi_recv m Hm)]|done| |by rewrite Hst].
    intros _. by apply mi_idle_id. }
  assert (sizeZ buffer = UDPPKT_IN_PREFIX_SIZE) as Heq by lia.
  rewrite (assert_ok _ _ (proj2 (Z.eqb_eq _ _) Heq)). mstep.
  eapply okP_bind; [by apply read_prefix_total|]. intros info Hi. apply okP_ret. split; [|exact Hst]. cbn [snd].
  destruct (Z.eqb_spec (pi_id info) NON_ID); cbn [negb];
    [apply set_recv_inv; try done; by rewrite Hst|].
  destruct (m_connections m !! pi_id info) as [c|] eqn:Hc; cbn [negb];
    [|apply set_recv_inv; try done; by rewrite Hst].
  destruct (read_enabled c); cbn [negb]; apply set_recv_inv; try done; try by rewrite Hst.
Qed.

Lemma read_payload_inv now data m :
  mux_inv m → rc_state (m_recv_connection m) = RCS_PAYLOAD →
  okP (read_payload handler now data m) (λ r, mux_inv r.2 ∧ m_state r.2 = MS_ESTABLISHED).
Proof.
  intros Hm E. destruct (mi_payload m Hm E) as [c Hc]. pose proof (ro_left _ (mi_recv m Hm)) as Hl.
  assert (m_state m = MS_ESTABLISHED) as Hst.
  { destruct (m_state m) eqn:Es; [|done]. destruct (mi_idle m Hm Es) as (_ & _ & Hr). by rewrite Hr in E. }
  unfold read_payload. cbv zeta. rewrite Hc.
  set (r := m_recv_connection m) in *. set (left := bytes_left r - _). set (buffer := _ ++ take _ data).
  assert (mux_inv (set_recv (mkRecv RCS_PAYLOAD (rc_id r) left buffer) (set_connections
    (<[rc_id r := set_timeout (now + VPN_DEFAULT_UDP_TIMEOUT_MS) c]> (m_connections m)) m))) as Hm1.
  { apply set_recv_inv; [by eapply update_conn_inv| | |done|by simpl; rewrite Hst].
    - split; [done|]. simpl. unfold left. lia.
    - intros _. simpl. by rewrite lookup_insert_eq. }
  destruct (left =? 0); [|by apply okP_ret].
  eapply okP_bind; [by apply raise_ok|]. intros m2 [Hm2 Hs2]. apply okP_ret. split; [by apply set_recv_inv|].
  simpl in *. congruence.
Qed.

Lemma read_dropping_inv data m :
  mux_inv m → m_state m = MS_ESTABLISHED → rc_state (m_recv_connection m) = RCS_DROPPING →
  okP (read_dropping data m) (λ r, mux_inv r.2 ∧ m_state r.2 = MS_ESTABLISHED).
Proof.
  intros Hm Hst E. pose proof (ro_left _ (mi_recv m Hm)) as Hl. apply okP_ret. split; [|exact Hst]. cbn [snd].
  destruct (_ =? 0); apply set_recv_inv; try done.
  - split; [done|]. simpl. lia.
  - intros Hi. destruct (mi_idle m Hm Hi) as (_ & _ & Hr). by rewrite Hr in E.
Qed.

Lemma read_all_inv now data m :
  mux_inv m → m_state m = MS_ESTABLISHED →
  okP (read_all ndebug handler now data m) (λ m', mux_inv m' ∧ m_state m' = MS_ESTABLISHED).
Proof.
  remember (need data m) as n eqn:En. revert data m En.
  induction n as [n IH] using lt_wf_ind. intros data m En Hm Hst.
  destruct data as [|x data]; [by apply okP_ret|].
  rewrite read_all_cons by apply Hm.
  assert (okP (read_round ndebug handler now (x :: data) m)
    (λ r, mux_inv r.2 ∧ m_state r.2 = MS_ESTABLISHED)) as ([rest m1] & Er & Hm1 & Hst1).
  { unfold read_round. destruct (rc_state (m_recv_connection m)) eqn:E.
    - by apply read_idle_inv.
    - by apply read_payload_inv.
    - by apply read_dropping_inv. }
  rewrite Er. mstep.
  destruct (need_round ndebug handler _ _ _ _ _ _ (mi_recv m Hm) Er) as [->|Hlt]; [by apply okP_ret|].
  apply (IH (need rest m1)); [lia|done|done|done].
Qed.

Lemma keys_all (c : gmap Z (Connection A)) :
  NoDup (map_to_list c).*1 ∧ dom c = list_to_set (map_to_list c).*1.
Proof.
  split; [apply NoDup_fst_map_to_list|]. apply set_eq. intros i.
  rewrite elem_of_dom, elem_of_list_to_set, list_elem_of_fmap. split.
  - intros [x Hx]. exists (i, x). by rewrite elem_of_map_to_list.
  - intros ([j x] & -> & Hx). rewrite elem_of_map_to_list in Hx. by eexists.
Qed.

Lemma close_loop_inv error ids m :
  mux_inv m → NoDup ids → dom (m_connections m) = list_to_set ids →
  okP (close_loop handler error ids m) (λ m', mux_inv m' ∧ m_connections m' = ∅).
Proof.
  intros Hm Hn. revert m Hm. induction Hn as [|id ids Hid Hn IH]; intros m Hm Hd.
  { apply okP_ret. split; [done|]. by apply dom_empty_inv_L. }
  cbn [close_loop]. destruct (m_connections m !! id) as [c|] eqn:Hc.
  2: { apply not_elem_of_dom in Hc. set_solver. }
  eapply okP_bind; [by apply raise_ok|]. intros m1 [Hm1 Hd1].
  assert (dom (m_connections m1) = dom (m_connections m)) as Hd1' by (by destruct error). clear Hd1.
  destruct (clean_inv id m1 Hm1) as [Hm2 Hd2]. apply IH; [done|].
  rewrite Hd2, Hd1', Hd. simpl. assert (id ∉ (list_to_set ids : gset Z)) by (by rewrite elem_of_list_to_set). set_solver.
Qed.

Lemma mux_close_inv e m :
  mux_inv m → okP (mux_close handler e m) (λ m', mux_inv m' ∧ m_connections m' = ∅ ∧ m_state m' = MS_IDLE).
Proof.
  intros Hm. unfold mux_close. destruct (keys_all (m_connections m)) as [Hn Hd].
  eapply okP_bind; [by apply close_loop_inv|]. intros m1 [[A1 A2 A3 A4 A5 A6 A7 A8] He].
  apply okP_ret. split; [|done]. split; simpl; try done; rewrite ?He; try done.
  intros id [x Hx]. done.
Qed.

Lemma timer_loop_inv now ids m :
  mux_inv m → NoDup ids → list_to_set ids ⊆ dom (m_connections m) →
  okP (timer_loop handler now ids m) mux_inv.
Proof.
  intros Hm Hn. revert m Hm. induction Hn as [|id ids Hid Hn IH]; intros m Hm Hd; [by apply okP_ret|].
  assert (id ∉ (list_to_set ids : gset Z)) by (by rewrite elem_of_list_to_set).
  cbn [timer_loop]. destruct (m_connections m !! id) as [c|] eqn:Hc.
  2: { apply not_elem_of_dom in Hc. set_solver. }
  destruct (_ <=? now); [|apply IH; [done|set_solver]].
  destruct (clean_inv id m Hm) as [Hm2 Hd2].
  eapply okP_bind; [by apply raise_ok|]. intros m1 [Hm1 Hd1]. cbn [leaves] in Hd1. apply IH; [done|]. set_solver.
Qed.

Lemma report_loop_inv ids m :
  mux_inv m → list_to_set ids ⊆ dom (m_connections m) → okP (report_loop handler ids m) mux_inv.
Proof.
  revert m. induction ids as [|id ids IH]; intros m Hm Hd; [by apply okP_ret|].
  cbn [report_loop]. destruct (m_connections m !! id) as [c|] eqn:Hc.
  2: { apply not_elem_of_dom in Hc. set_solver. }
  destruct (0 <? _); [|apply IH; [done|set_solver]].
  eapply okP_bind; [by apply raise_ok|]. intros m1 [Hm1 Hd1]. cbn [leaves] in Hd1.
  destruct (m_connections m1 !! id) as [c1|] eqn:Hc1.
  2: { apply not_elem_of_dom in Hc1. set_solver. }
  apply IH; [by eapply update_conn_inv|]. simpl. rewrite dom_insert_L. set_solver.
Qed.

Lemma send_inv answer now id data m :
  mux_inv m → is_Some (m_connections m !! id) →
  okP (send ndebug answer now id data m) (λ r, mux_inv r.2).
Proof.
  intros Hm [c Hc]. assert (m_state m = MS_ESTABLISHED) as Hst.
  { destruct (m_state m) eqn:Es; [|done]. destruct (mi_idle m Hm Es) as (_ & He & _). by rewrite He in Hc. }
  unfold send. rewrite Hst, Hc. cbn [assert bool_decide orb]. destruct (mi_conn m Hm id c Hc) as (Hs & dst & -> & Hip).
  rewrite bool_decide_eq_true_2 by done. cbn [orb mbind res_bind].
  rewrite compose_udp_packet_layout by done. mstep.
  destruct (answer =? 0); apply okP_ret.
  - apply (same_core_inv _ _ (record_core (StreamData (m_stream_id m)
      (outgoing (pair_src (conn_addr c)) dst (conn_app_name c) data)) m)) in Hm.
    by eapply (update_conn_inv id c).
  - by eapply same_core_inv; [apply record_core|].
Qed.

(** *** Operations and runs *)
Inductive MuxOp :=
| OpOpen (answer : option Z) (now id : Z) (addr : TunnelAddressPair A) (app_name : list Z)
| OpClose (id : Z) (async : bool)
| OpSend (answer now id : Z) (data : list Z)
| OpRead (now : Z) (data : list Z)
| OpTimer (now : Z)
| OpReport
| OpSetRead (id : Z) (v : bool)
| OpResponse (status_code : Z)
| OpCloseAll (e : ServerError)
| OpTask (t : MuxTask).

Definition run_op (op : MuxOp) m : res (Mux A) :=
  match op with
  | OpOpen answer now id addr app_name =>
      '(_, m) ← open_connection ndebug answer now id addr app_name m; Ok m
  | OpClose id async => close_connection handler id async m
  | OpSend answer now id data => '(_, m) ← send ndebug answer now id data m; Ok m
  | OpRead now data => process_read_event ndebug handler now data m
  | OpTimer now => timer_callback handler now m
  | OpReport => report_sent_bytes handler m
  | OpSetRead id v => Ok (set_read_enabled id v m)
  | OpResponse status_code => handle_response ndebug AG_ECONNREFUSED status_code m
  | OpCloseAll e => mux_close handler e m
  | OpTask t => run_mux_task handler t m
  end.

(** What the upstreams ensure before a call, by looking ([check_connection],
    [get_stream_id]): an open connection to send, the multiplexer's own stream for
    what comes from it; and that a connection has an id, and its addresses are IP
    addresses. *)
Definition op_allowed (op : MuxOp) m : Prop :=
  match op with
  | OpOpen _ _ id addr _ =>
      id ≠ NON_ID ∧ is_ip (pair_src addr) ∧ ∀ dst, pair_dst addr = SockAddr dst → is_ip dst
  | OpSend _ _ id _ => check_connection id m = true
  | OpRead _ _ | OpResponse _ => is_Some (get_stream_id m)
  | _ => True
  end.

(** What is asserted: a connection is opened under an id that is not in use, and
    to an address. *)
Definition op_expected (op : MuxOp) m : Prop :=
  match op with
  | OpOpen _ _ id addr _ => m_connections m !! id = None ∧ ∃ dst, pair_dst addr = SockAddr dst
  | _ => True
  end.

Definition mux_new (l : VpnEventLoop MuxTask) : Mux A :=
  mkMux MS_IDLE 0 recv_default ∅ ∅ false None l [].

(** The multiplexer's life; the event loop is shared with other components. *)
Inductive mux_reach : Mux A → Prop :=
| reach_new l : mux_reach (mux_new l)
| reach_loop m l : mux_reach m → mux_reach (set_mux_loop l m)
| reach_op m op m' : mux_reach m → op_allowed op m → run_op op m = Ok m' → mux_reach m'.

Lemma mux_new_inv l : mux_inv (mux_new l).
Proof. split; simpl; try done. intros id [c Hc]. done. Qed.

Lemma set_read_enabled_inv id v m : mux_inv m → mux_inv (set_read_enabled id v m).
Proof.
  intros Hm. unfold set_read_enabled. destruct (m_connections m !! id) as [c|] eqn:Hc; [|done].
  by eapply update_conn_inv.
Qed.

Lemma stream_established m : is_Some (get_stream_id m) → m_state m = MS_ESTABLISHED.
Proof. unfold get_stream_id. destruct (m_state m); [by intros [??]|done]. Qed.

Lemma run_op_inv op m : mux_inv m → op_allowed op m → op_expected op m → okP (run_op op m) mux_inv.
Proof.
  intros Hm Hop Hex. destruct op as [answer now id addr app|id async|answer now id data|now data|now| |id v|status|e|t];
    simpl in *.
  - destruct Hop as (H1 & H2 & H3), Hex as (H4 & dst & H5).
    eapply okP_bind; [apply open_connection_inv; eauto|]. intros [b m'] [Hm' _]. by apply okP_ret.
  - by apply close_connection_inv.
  - apply bool_decide_eq_true in Hop.
    eapply okP_bind; [by apply send_inv|]. intros [n m'] Hm'. by apply okP_ret.
  - apply stream_established in Hop. unfold process_read_event.
    rewrite assert_ok by by rewrite Hop. mstep.
    eapply okP_bind; [by apply read_all_inv|]. intros m' [Hm' _]. apply okP_ret.
    by eapply same_core_inv; [apply record_core|].
  - destruct (keys_all (m_connections m)) as [Hn Hd]. apply timer_loop_inv; [done|done|by rewrite Hd].
  - destruct (keys_all (m_connections m)) as [Hn Hd]. apply report_loop_inv; [done|by rewrite Hd].
  - apply okP_ret. by apply set_read_enabled_inv.
  - apply stream_established in Hop. unfold handle_response. rewrite assert_ok by by rewrite Hop. mstep.
    destruct (status =? HTTP_OK_STATUS); apply okP_ret; [done|]. by eapply same_core_inv; [apply pending_core|].
  - eapply okP_mono; [by apply mux_close_inv|]. by intros m' [? _].
  - destruct t; [by apply complete_inv|by apply close_connection_now_inv].
Qed.

(** The same without what is asserted. *)
Lemma run_op_any op m :
  mux_inv m → op_allowed op m →
  match run_op op m with
  | Ok m' => mux_inv m'
  | Abort => ndebug = false ∧ ¬ op_expected op m
  | UB => False
  end.
Proof.
  intros Hm Hop. assert (op_expected op m → match run_op op m with Ok m' => mux_inv m' | _ => False end) as Hok.
  { intros Hex. by destruct (run_op_inv op m Hm Hop Hex) as (m' & -> & ?). }
  destruct op as [answer now id addr app| | | | | | | | |]; try (specialize (Hok I); by destruct (run_op _ m)).
  cbn [run_op op_expected] in *. unfold open_connection in *. unfold assert in *.
  destruct (pair_dst addr) as [dst|name p] eqn:Hd.
  - destruct (m_connections m !! id) as [c|] eqn:Hc.
    + destruct ndebug; cbn; [done|]. split; [done|]. by intros [? _].
    + specialize (Hok (conj eq_refl (ex_intro _ dst eq_refl))). by destruct (_ ≫= _).
  - destruct ndebug; cbn; [done|]. split; [done|]. by intros (_ & ? & ?).
Qed.

(** Claim C25. In every state the multiplexer can reach, every operation its
    upstream may call returns: no map access throws, no iterator dangles, and no
    assertion fails but, in a debug build, those on a connection opened under an id in
    use or to a name.  And the tables agree: an address pair leads to an open
    connection with those addresses, a payload being received belongs to an
    open connection, an idle multiplexer has none.  What is relied on: the tunnel's
    handler of an event returns and keeps the tables in agreement ([handler_ok]); inside
    an event of received data it does not close the multiplexer, and inside an event that
    tells that a connection is closed, has failed or has sent data it neither adds nor
    removes connections at once (the loops of [close], [timer_callback] and
    [report_sent_bytes] would go on with an iterator that is gone), though inside one that
    tells that a connection is open it may do either.  The upstream gives connections IP
    addresses and an id other than [NON_ID], sends on open ones, and passes on data and
    responses of the multiplexer's stream only ([op_allowed]). *)
Theorem mux_runs_safely m :
  mux_reach m → mux_inv m ∧
  ∀ op, op_allowed op m →
    match run_op op m with
    | Ok m' => mux_reach m'
    | Abort => ndebug = false ∧ ¬ op_expected op m
    | UB => False
    end.
Proof.
  intros Hr. assert (mux_inv m) as Hm.
  { induction Hr as [l|m l Hr IH|m op m' Hr IH Hop Hrun].
    - apply mux_new_inv.
    - by eapply same_core_inv; [apply loop_core|].
    - pose proof (run_op_any op m IH Hop) as H. by rewrite Hrun in H. }
  split; [done|]. intros op Hop. pose proof (run_op_any op m Hm Hop) as H.
  destruct (run_op op m) as [m'| |] eqn:E; [|done..]. by eapply reach_op.
Qed.

End Invariant.

(** ** Expiry and closing *)
Section Closing.
Context {A : Type} `{!SocketAddressOps A, !SocketAddressLaws A}.

(** A handler that does not call back. *)
Definition quiet (_ : ServerEvent) (m : Mux A) : res (Mux A) := Ok m.

Implicit Types m : Mux A.

Lemma clean_some id c m :
  m_connections m !! id = Some c →
  m_connections (clean_connection_data id m).2 = delete id (m_connections m) ∧
  mux_out (clean_connection_data id m).2 = mux_out m ∧
  m_pending_error (clean_connection_data id m).2 = m_pending_error m.
Proof.
  intros Hc. unfold clean_connection_data. rewrite Hc. cbn [snd].
  destruct (open_task_id c), (close_task_id c); simpl; by destruct (_ =? id).
Qed.

(** The keys of expired connections, in the order of the visit. *)
Definition expired (now : Z) (cs : list (Z * Connection A)) : list Z :=
  (filter (λ x, conn_timeout x.2 ≤ now) cs).*1.

Lemma timer_loop_spec now cs m :
  NoDup cs.*1 → (∀ x, x ∈ cs → m_connections m !! x.1 = Some x.2) →
  okP (timer_loop quiet now cs.*1 m) (λ m',
    m_connections m' = foldl (λ c id, delete id c) (m_connections m) (expired now cs) ∧
    mux_out m' = mux_out m ++ ((λ id, Raised (SERVER_EVENT_CONNECTION_CLOSED id)) <$> expired now cs)).
Proof.
  revert m. induction cs as [|[id c] cs IH]; intros m Hn Hcs.
  { apply okP_ret. by rewrite app_nil_r. }
  cbn [fmap list_fmap fst] in *. apply NoDup_cons in Hn as [Hid Hn]. cbn [timer_loop].
  pose proof (Hcs (id, c) ltac:(by left)) as Hc. simpl in Hc. rewrite Hc.
  unfold expired. rewrite filter_cons. cbn [snd].
  destruct (Z.leb_spec (conn_timeout c) now) as [Hle|Hgt].
  - rewrite decide_True by done. destruct (clean_some id c m Hc) as (H1 & H2 & _).
    cbn [raise quiet mbind res_bind]. eapply okP_mono.
    { apply IH; [done|]. intros [i x] Hx. simpl. rewrite H1. apply lookup_delete_Some. split.
      - intros <-. apply Hid. apply list_elem_of_fmap. by exists (id, x).
      - by apply (Hcs (i, x)); right. }
    intros m' [Hm' Ho]. simpl in Hm', Ho. rewrite Hm', Ho, H1, H2. cbn [fmap list_fmap fst foldl].
    split; [done|]. by rewrite <- app_assoc.
  - rewrite decide_False by lia. eapply okP_mono; [apply IH; [done|]|done].
    intros x Hx. apply Hcs. by right.
Qed.

Lemma foldl_delete (ids : list Z) (c : gmap Z (Connection A)) i :
  foldl (λ c id, delete id c) c ids !! i = if decide (i ∈ ids) then None else c !! i.
Proof.
  revert c. induction ids as [|id ids IH]; intros c; [done|]. simpl. rewrite IH.
  destruct (decide (i ∈ ids)) as [Hi|Hi].
  - rewrite decide_True by by right. done.
  - destruct (decide (i = id)) as [->|Hne].
    + rewrite decide_True by left. by rewrite lookup_delete_eq.
    + rewrite lookup_delete_ne, decide_False by (done || by rewrite elem_of_cons; intros [?|?]). done.
Qed.

(** The timer removes exactly the connections whose time is up and
    reports each of them closed, once. *)
Theorem timer_expires now m :
  okP (timer_callback quiet now m) (λ m',
    m_connections m' = filter (λ x, now < conn_timeout x.2) (m_connections m) ∧
    ∃ ids, NoDup ids ∧
      (∀ id, id ∈ ids ↔ ∃ c, m_connections m !! id = Some c ∧ conn_timeout c ≤ now) ∧
      mux_out m' = mux_out m ++ ((λ id, Raised (SERVER_EVENT_CONNECTION_CLOSED id)) <$> ids)).
Proof.
  unfold timer_callback. set (cs := map_to_list (m_connections m)).
  assert (∀ id, id ∈ expired now cs ↔ ∃ c, m_connections m !! id = Some c ∧ conn_timeout c ≤ now) as Hexp.
  { intros id. unfold expired. rewrite list_elem_of_fmap. split.
    - intros ([i c] & -> & [Hle Hin]%list_elem_of_filter). exists c. simpl in *.
      by rewrite <- elem_of_map_to_list.
    - intros (c & Hc & Hle). exists (id, c). split; [done|]. apply list_elem_of_filter.
      split; [done|]. by apply elem_of_map_to_list. }
  eapply okP_mono.
  { apply timer_loop_spec; [apply NoDup_fst_map_to_list|]. intros [i c] Hic. by apply elem_of_map_to_list in Hic. }
  intros m' [Hm' Ho]. split.
  - apply map_eq. intros i. rewrite Hm', foldl_delete, map_lookup_filter.
    destruct (m_connections m !! i) as [c|] eqn:Hc; cbn [mbind option_bind].
    + destruct (decide (i ∈ expired now cs)) as [Hi|Hi].
      * apply Hexp in Hi as (c' & Hc' & Hle). simplify_eq. by rewrite option_guard_False by (simpl; lia).
      * rewrite option_guard_True; [done|]. simpl. destruct (Z.lt_ge_cases now (conn_timeout c)) as [|Hle]; [done|].
        destruct Hi. apply Hexp. by exists c.
    + by destruct (decide (i ∈ expired now cs)).
  - exists (expired now cs). split_and!; [|done|done].
    apply (sublist_NoDup _ cs.*1); [apply NoDup_fst_map_to_list|]. unfold expired.
    apply fmap_sublist. apply sublist_filter.
Qed.

(** The event each connection gets when the multiplexer closes. *)
Definition close_event (error : option ServerError) (id : Z) : ServerEvent :=
  match error with
  | Some e => SERVER_EVENT_ERROR (mkServerError id (se_error e))
  | None => SERVER_EVENT_CONNECTION_CLOSED id
  end.

Lemma close_loop_spec error cs m :
  NoDup cs.*1 → (∀ x, x ∈ cs → m_connections m !! x.1 = Some x.2) →
  okP (close_loop quiet error cs.*1 m) (λ m',
    m_pending_error m' = m_pending_error m ∧
    mux_out m' = mux_out m ++ ((λ id, Raised (close_event error id)) <$> cs.*1)).
Proof.
  revert m. induction cs as [|[id c] cs IH]; intros m Hn Hcs.
  { apply okP_ret. by rewrite app_nil_r. }
  cbn [fmap list_fmap fst] in *. apply NoDup_cons in Hn as [Hid Hn]. cbn [close_loop].
  pose proof (Hcs (id, c) ltac:(by left)) as Hc. simpl in Hc. rewrite Hc.
  fold (close_event error id). cbn [raise quiet mbind res_bind].
  set (m1 := record_out (Raised (close_event error id)) m).
  destruct (clean_some id c m1 Hc) as (H1 & H2 & H3). eapply okP_mono.
  { apply IH; [done|]. intros [i x] Hx. simpl. rewrite H1. apply lookup_delete_Some. split.
    - intros <-. apply Hid. apply list_elem_of_fmap. by exists (id, x).
    - by apply (Hcs (i, x)); right. }
  intros m' [Hp Ho]. rewrite Hp, Ho, H2, H3. split; [done|]. simpl. by rewrite <- app_assoc.
Qed.

(** Closing raises one event per open connection, an error if the
    stream was refused or the close has one.  The refusal outlives the
    stream it was about: it is still there after the close, and every later
    close, orderly or not, reports it to the connections of its stream. *)
Theorem mux_close_spec serv_err m :
  okP (mux_close quiet serv_err m) (λ m',
    m_state m' = MS_IDLE ∧ m_pending_error m' = m_pending_error m ∧
    mux_out m' = mux_out m ++ ((λ id, Raised (close_event
      (match m_pending_error m with
       | Some e => Some e
       | None => if code (se_error serv_err) =? 0 then None else Some serv_err
       end) id)) <$> (map_to_list (m_connections m)).*1)).
Proof.
  unfold mux_close. eapply okP_bind.
  { apply close_loop_spec; [apply NoDup_fst_map_to_list|].
    intros [i c] Hic. by apply elem_of_map_to_list in Hic. }
  intros m' [Hp Ho]. apply okP_ret. split_and!; [done|done|]. simpl. rewrite Ho. f_equal.
  destruct (m_pending_error m); [done|]. by destruct (code (se_error serv_err) =? 0).
Qed.

End Closing.

(** ** Runs *)

Definition demo_src : plain_addr := mkPlain [10; 0; 0; 2] 5353.
Definition demo_dst : plain_addr := mkPlain [8; 8; 8; 8] 53.

Ltac wire_addr_by_computation :=
  split; [by left | by vm_compute | by vm_compute; split | done].

Lemma demo_src_wire : wire_addr demo_src.
Proof. wire_addr_by_computation. Qed.

Lemma demo_dst_wire : wire_addr demo_dst.
Proof. wire_addr_by_computation. Qed.

Lemma compose_udp_packet_parses_witness :
  okP (compose_udp_packet false demo_src demo_dst [100; 105; 103] [1; 2; 3]) (λ packet,
    parse_outgoing packet = Some (demo_src, demo_dst, [100; 105; 103], [1; 2; 3])).
Proof.
  eapply okP_mono;
    [apply (compose_udp_packet_parses false demo_src demo_dst [100; 105; 103] [1; 2; 3]);
       [exact demo_src_wire | exact demo_dst_wire | by vm_compute]|].
  intros packet H. exact H.
Defined.

(** A connection opened, completed and reading. *)
Definition ok_mux (r : res (Mux plain_addr)) : Mux plain_addr :=
  match r with Ok m => m | _ => mux_new vpn_event_loop_create end.

Definition demo_new : Mux plain_addr := mux_new vpn_event_loop_create.
Definition demo_open : MuxOp (A := plain_addr) :=
  OpOpen (Some 1) 0 7 (mkPair demo_src (SockAddr demo_dst)) [].
Definition demo_opened : Mux plain_addr := ok_mux (run_op false quiet 111 demo_open demo_new).
Definition demo_completed : Mux plain_addr :=
  ok_mux (run_op false quiet 111 (OpTask (TCompleteUdpConnection 7)) demo_opened).
Definition demo_mux : Mux plain_addr := set_read_enabled 7 true demo_completed.

Definition demo_datagram : datagram := mkDatagram demo_dst demo_src [1; 2; 3].

Lemma demo_datagram_wf : wf_datagram demo_datagram.
Proof. split; [exact demo_dst_wire | exact demo_src_wire | by vm_compute]. Qed.

Lemma read_segmentation_witness :
  foldl (λ r d, r ≫= read_all false quiet 5 d) (Ok demo_mux) [incoming demo_datagram] =
  foldl (λ r d, r ≫= read_all false quiet 5 d) (Ok demo_mux)
    [take 17 (incoming demo_datagram); drop 17 (incoming demo_datagram)].
Proof. apply (read_segmentation false quiet 5); [by split|by vm_compute]. Defined.

(** A tunnel that stops reading at each datagram; the second of two is dropped. *)
Definition one_at_a_time (e : ServerEvent) (m : Mux plain_addr) : res (Mux plain_addr) :=
  match e with SERVER_EVENT_READ id _ => Ok (set_read_enabled id false m) | _ => Ok m end.

Lemma datagrams_delivered_witness :
  okP (foldl (λ r d, r ≫= read_all false one_at_a_time 5 d) (Ok demo_mux)
         [take 41 (incoming demo_datagram); drop 41 (incoming demo_datagram) ++ incoming demo_datagram]) (λ m',
    mux_out m' = mux_out demo_mux ++ [Raised (SERVER_EVENT_READ 7 [1; 2; 3])]).
Proof.
  rewrite (datagrams_delivered false one_at_a_time 5 [demo_datagram; demo_datagram]
    [take 41 (incoming demo_datagram); drop 41 (incoming demo_datagram) ++ incoming demo_datagram] demo_mux);
    [|constructor; [|constructor; [|constructor]]; exact demo_datagram_wf | reflexivity | vm_compute; reflexivity].
  eexists. split; [vm_compute; reflexivity|vm_compute; reflexivity].
Defined.

Lemma oversized_packet_desynchronises_witness :
  read_all false quiet 5 (prefix_bytes 70000 demo_dst demo_src ++ incoming demo_datagram) demo_mux =
  read_all false quiet 5 (incoming demo_datagram) demo_mux.
Proof.
  apply (oversized_packet_desynchronises false quiet 5 demo_dst demo_src 70000);
    [exact demo_dst_wire | exact demo_src_wire | reflexivity | by split | done].
Defined.

Lemma demo_mux_reach : mux_reach false quiet 111 demo_mux.
Proof.
  apply (reach_op _ _ _ demo_completed (OpSetRead 7 true)); [|exact I|reflexivity].
  apply (reach_op _ _ _ demo_opened (OpTask (TCompleteUdpConnection 7))); [|exact I|vm_compute; reflexivity].
  apply (reach_op _ _ _ demo_new demo_open); [apply reach_new| |vm_compute; reflexivity].
  split; [discriminate|]. split; [left; reflexivity|]. intros dst [= <-]. left. reflexivity.
Qed.

Lemma mux_runs_safely_witness :
  match run_op false quiet 111 (OpRead 5 [1; 2; 3]) demo_mux with Ok m' => mux_reach false quiet 111 m' | _ => False end.
Proof.
  assert (∀ e m, mux_inv (A := plain_addr) m → okP (quiet e m) (λ m', mux_inv m' ∧ leaves e m m')) as Hq.
  { intros e m Hm. apply okP_ret. split; [exact Hm|by destruct e]. }
  assert (op_allowed (OpRead 5 [1; 2; 3]) demo_mux) as Ha by (exists 1; vm_compute; reflexivity).
  pose proof (proj2 (mux_runs_safely false quiet 111 Hq demo_mux demo_mux_reach) (OpRead 5 [1; 2; 3]) Ha) as H.
  destruct (run_op false quiet 111 (OpRead 5 [1; 2; 3]) demo_mux) as [m'| |]; [exact H| |exact H].
  destruct H as [_ H]. exact (H I).
Defined.
