(* ===== verification/IcmpMux.v ===== *)
(** * The ICMP multiplexer

    [core/src/http_icmp_multiplexer.cpp]: echo requests of all clients share one
    HTTP stream; the replies come back as a sequence of records of fixed size
    that may be cut anywhere.  Callbacks are modelled as in the UDP multiplexer. *)
From S2P Require Import Prelude WireUtils.

Definition ICMPPKT_ID_SIZE : nat := 2.
Definition ICMPPKT_ADDR_SIZE : nat := 16.
Definition ICMPPKT_SEQNO_SIZE : nat := 2.
Definition ICMPPKT_TTL_SIZE : nat := 1.
Definition ICMPPKT_DATA_SIZE : nat := 2.
Definition ICMPPKT_TYPE_SIZE : nat := 1.
Definition ICMPPKT_CODE_SIZE : nat := 1.
Definition ICMPPKT_REQ_SIZE : nat :=
  ICMPPKT_ID_SIZE + ICMPPKT_ADDR_SIZE + ICMPPKT_SEQNO_SIZE + ICMPPKT_TTL_SIZE + ICMPPKT_DATA_SIZE.
Definition ICMPPKT_REPLY_SIZE : nat :=
  ICMPPKT_ID_SIZE + ICMPPKT_ADDR_SIZE + ICMPPKT_TYPE_SIZE + ICMPPKT_CODE_SIZE + ICMPPKT_SEQNO_SIZE.

Inductive IcmpState := ICMP_MS_IDLE | ICMP_MS_ESTABLISHED.

#[export] Instance IcmpState_eq_dec : EqDecision IcmpState.
Proof. solve_decision. Defined.

Section Types.
Context (A : Type).

Record IcmpEchoRequest := mkEchoRequest {
  rq_peer : A; rq_id : Z; rq_seqno : Z; rq_ttl : Z; rq_data_size : Z;
}.

Record IcmpEchoReply := mkEchoReply {
  rp_peer : A; rp_id : Z; rp_seqno : Z; rp_type : Z; rp_code : Z;
}.

Inductive IcmpOut :=
| EchoReplyRaised (r : IcmpEchoReply)
| IcmpConnectRequest (host : string)
| IcmpStreamData (stream : Z) (data : list Z)
| IcmpConsumed (stream size : Z).

Record IcmpMux := mkIcmpMux {
  im_state : IcmpState;
  im_stream_id : option Z;
  im_reply_buffer : list Z;
  im_out : list IcmpOut;
}.

End Types.
Arguments mkEchoRequest {A}.
Arguments rq_peer {A}.
Arguments rq_id {A}.
Arguments rq_seqno {A}.
Arguments rq_ttl {A}.
Arguments rq_data_size {A}.
Arguments mkEchoReply {A}.
Arguments EchoReplyRaised {A}.
Arguments IcmpConnectRequest {A}.
Arguments IcmpStreamData {A}.
Arguments IcmpConsumed {A}.
Arguments mkIcmpMux {A}.
Arguments im_state {A}.
Arguments im_stream_id {A}.
Arguments im_reply_buffer {A}.
Arguments im_out {A}.

Section Ops.
Context {A : Type} `{!SocketAddressOps A}.
Variable ndebug : bool.
Variable handler : IcmpEchoReply A → IcmpMux A → res (IcmpMux A).
Implicit Types m : IcmpMux A.

Definition icmp_assert (b : bool) : res unit := if b || ndebug then Ok tt else Abort.

(** [std::optional::value]. *)
Definition value {B} (x : option B) : res B := match x with Some x => Ok x | None => Abort end.

Definition set_reply_buffer (b : list Z) m : IcmpMux A :=
  mkIcmpMux (im_state m) (im_stream_id m) b (im_out m).
Definition icmp_record (o : IcmpOut A) m : IcmpMux A :=
  mkIcmpMux (im_state m) (im_stream_id m) (im_reply_buffer m) (im_out m ++ [o]).

(** [close]. *)
Definition icmp_close m : IcmpMux A := mkIcmpMux ICMP_MS_IDLE None [] (im_out m).

(** [send_request_established]; [answer] is the status of
    [send_data_callback]. *)
Definition send_request_established (answer : Z) (request : IcmpEchoRequest A) m
    : res (bool * IcmpMux A) :=
  let w := new_writer ICMPPKT_REQ_SIZE in
  w ← put_u16 ndebug (rq_id request) w;
  w ← put_ip_padded ndebug (rq_peer request) w;
  w ← put_u16 ndebug (rq_seqno request) w;
  w ← put_u8 ndebug (rq_ttl request) w;
  w ← put_u16 ndebug (rq_data_size request) w;
  stream ← value (im_stream_id m);
  Ok (answer =? 0, icmp_record (IcmpStreamData stream w.1) m).

(** [send_request]; [stream] is the answer of [send_connect_request_callback]. *)
Definition send_request (stream : option Z) (answer : Z) (request : IcmpEchoRequest A) m
    : res (bool * IcmpMux A) :=
  match im_state m with
  | ICMP_MS_IDLE =>
      _ ← icmp_assert (bool_decide (im_stream_id m = None));
      let m := icmp_record (IcmpConnectRequest "_icmp") m in
      let m := mkIcmpMux (im_state m) stream (im_reply_buffer m) (im_out m) in
      match stream with
      | None => Ok (false, m)
      | Some _ =>
          send_request_established answer request
            (mkIcmpMux ICMP_MS_ESTABLISHED (im_stream_id m) (im_reply_buffer m) (im_out m))
      end
  | ICMP_MS_ESTABLISHED => send_request_established answer request m
  end.

(** [handle_response]. *)
Definition icmp_handle_response m : res (IcmpMux A) :=
  _ ← icmp_assert (bool_decide (im_state m = ICMP_MS_ESTABLISHED)); Ok m.

(** The reply in a record. *)
Definition parse_reply (raw_reply : list Z) : res (IcmpEchoReply A) :=
  '(id, reader) ← value (get_u16 raw_reply);
  '(peer, reader) ← value (get_ip_padded reader);
  '(type, reader) ← value (get_u8 reader);
  '(code, reader) ← value (get_u8 reader);
  '(seqno, _) ← value (get_u16 reader);
  Ok (mkEchoReply peer id seqno type code).

(** [process_reply_chunk]: what is left of the data. *)
Definition process_reply_chunk (data : list Z) m : res (list Z * IcmpMux A) :=
  let direct := bool_decide (im_reply_buffer m = []) && (ICMPPKT_REPLY_SIZE <=? length data)%nat in
  let to_read := if direct then ICMPPKT_REPLY_SIZE
                 else (length data `min` (ICMPPKT_REPLY_SIZE - length (im_reply_buffer m)))%nat in
  let m := if direct then m else set_reply_buffer (im_reply_buffer m ++ take to_read data) m in
  let rest := drop to_read data in
  if negb direct && (length (im_reply_buffer m) <? ICMPPKT_REPLY_SIZE)%nat then Ok (rest, m)
  else
    _ ← (if direct then Ok tt
         else icmp_assert (length (im_reply_buffer m) =? ICMPPKT_REPLY_SIZE)%nat);
    let raw_reply := if direct then take to_read data else im_reply_buffer m in
    reply ← parse_reply raw_reply;
    m ← handler reply (icmp_record (EchoReplyRaised reply) m);
    Ok (rest, set_reply_buffer [] m).

(** [process_read_event]; every chunk takes at least one byte. *)
Fixpoint icmp_read_loop (fuel : nat) (data : list Z) m : res (IcmpMux A) :=
  match data with
  | [] => Ok m
  | _ =>
      match fuel with
      | O => UB
      | S fuel => '(data, m) ← process_reply_chunk data m; icmp_read_loop fuel data m
      end
  end.

Definition icmp_process_read_event (data : list Z) m : res (IcmpMux A) :=
  _ ← icmp_assert (bool_decide (im_state m = ICMP_MS_ESTABLISHED));
  m ← icmp_read_loop (length data) data m;
  stream ← value (im_stream_id m);
  Ok (icmp_record (IcmpConsumed stream (Z.of_nat (length data))) m).

End Ops.

(** ** Requests *)
Section Requests.
Context {A : Type} `{!SocketAddressOps A, !SocketAddressLaws A}.

Definition request_bytes (r : IcmpEchoRequest A) : list Z :=
  htons_bytes (rq_id r) ++ padded (rq_peer r) ++ htons_bytes (rq_seqno r) ++ [u8 (rq_ttl r)]
  ++ htons_bytes (rq_data_size r).

(** The documented format: id, destination, sequence number, TTL, data size. *)
Definition parse_request (b : list Z) : option (IcmpEchoRequest A) :=
  '(id, b) ← get_u16 b;
  '(peer, b) ← get_ip_padded b;
  '(seqno, b) ← get_u16 b;
  '(ttl, b) ← get_u8 b;
  '(size, b) ← get_u16 b;
  match b with [] => Some (mkEchoRequest peer id seqno ttl size) | _ => None end.

Record wf_request (r : IcmpEchoRequest A) : Prop := mkWfRequest {
  wr_ip : is_ip (rq_peer r);
  wr_unambiguous : unambiguous (rq_peer r);
  wr_plain : of_bytes (addr (rq_peer r)) 0 = rq_peer r;
  wr_id : 0 ≤ rq_id r < 2 ^ 16;
  wr_seqno : 0 ≤ rq_seqno r < 2 ^ 16;
  wr_ttl : 0 ≤ rq_ttl r < 2 ^ 8;
  wr_size : 0 ≤ rq_data_size r < 2 ^ 16;
}.

Ltac written := written_with ltac:(
  unfold ICMPPKT_REQ_SIZE, PADDED_IP_SIZE, IPV6_ADDR_SIZE; cbn; lia).

Lemma send_established_bytes ndebug answer (r : IcmpEchoRequest A) m stream :
  is_ip (rq_peer r) → im_stream_id m = Some stream →
  send_request_established ndebug answer r m
    = Ok (answer =? 0, icmp_record (IcmpStreamData stream (request_bytes r)) m).
Proof.
  intros Hip Hs. enough (okP (send_request_established ndebug answer r m) (λ x,
    x = (answer =? 0, icmp_record (IcmpStreamData stream (request_bytes r)) m))) as (x & -> & ->) by done.
  unfold send_request_established, put_u8, put_u16. cbv zeta. set (w0 := new_writer _).
  assert (wrote [] ICMPPKT_REQ_SIZE w0) as Hw by apply new_writer_wrote. clearbody w0.
  do 5 written. match goal with H : wrote _ _ _ |- _ => rewrite H end. rewrite Hs. apply okP_ret.
  cbn [value fst]. do 3 f_equal. unfold request_bytes. cbn [app]. rewrite <- !app_assoc.
  match goal with |- context [replicate ?n 0] => replace n with 0%nat by done end. done.
Qed.

Lemma request_parses r : wf_request r → parse_request (request_bytes r) = Some r.
Proof.
  intros [Hip Hu Hpl Hid Hsq Ht Hsz]. unfold parse_request, request_bytes.
  rewrite get_u16_back by done. cbn [mbind option_bind].
  rewrite get_ip_padded_back by done. cbn [mbind option_bind].
  rewrite get_u16_back by done. cbn [mbind option_bind].
  rewrite get_u8_back by done. cbn [mbind option_bind].
  rewrite <- (app_nil_r (htons_bytes _)), get_u16_back by done. cbn [mbind option_bind].
  rewrite Hpl. by destruct r.
Qed.

(** An echo request sent over the stream, opened first if need be,
    is one packet that the documented format reads back as the request. *)
Theorem send_request_spec ndebug stream answer (r : IcmpEchoRequest A) m s :
  wf_request r → im_stream_id m = (match im_state m with ICMP_MS_IDLE => None | _ => Some s end) →
  stream = Some s →
  okP (send_request ndebug stream answer r m) (λ x,
    x.1 = (answer =? 0) ∧ im_state x.2 = ICMP_MS_ESTABLISHED ∧ im_stream_id x.2 = Some s ∧
    ∃ packet, im_out x.2 = im_out m
      ++ (match im_state m with ICMP_MS_IDLE => [IcmpConnectRequest "_icmp"] | _ => [] end)
      ++ [IcmpStreamData s packet] ∧ parse_request packet = Some r).
Proof.
  intros Hr Hs ->. pose proof (request_parses r Hr) as Hp. destruct Hr as [Hip _ _ _ _ _ _].
  unfold send_request. destruct (im_state m) eqn:Es; rewrite ?Hs.
  - cbn [icmp_assert]. rewrite bool_decide_eq_true_2 by done. cbn [icmp_assert orb mbind res_bind].
    rewrite (send_established_bytes _ _ _ _ s) by done. apply okP_ret. split_and!; try done.
    exists (request_bytes r). split; [|done]. simpl. by rewrite <- app_assoc.
  - rewrite (send_established_bytes _ _ _ _ s) by done. apply okP_ret. split_and!; try done.
    by exists (request_bytes r).
Qed.

End Requests.

(** ** Replies *)
Section Replies.
Context {A : Type} `{!SocketAddressOps A, !SocketAddressLaws A}.
Variable ndebug : bool.
Implicit Types m : IcmpMux A.

(** A handler that does not call back. *)
Definition icmp_quiet (_ : IcmpEchoReply A) (m : IcmpMux A) : res (IcmpMux A) := Ok m.

Lemma parse_reply_total (raw : list Z) :
  length raw = ICMPPKT_REPLY_SIZE → ∃ r : IcmpEchoReply A, parse_reply raw = Ok r.
Proof.
  intros Hl. change ICMPPKT_REPLY_SIZE with 22%nat in Hl. unfold parse_reply.
  destruct (get_u16_some raw) as [id ->]; [lia|]. cbn [value mbind res_bind].
  destruct (get_ip_padded_some (drop 2 raw)) as [a ->]; [rewrite length_drop; lia|]. cbn [value mbind res_bind].
  assert (length (drop 16 (drop 2 raw)) = 4%nat) as H4 by (rewrite !length_drop; lia).
  destruct (drop 16 (drop 2 raw)) as [|t [|c [|s1 [|s0 [|]]]]]; try done. by eexists.
Qed.

(** One round, by what the buffered bytes and the data start with. *)
Lemma reply_chunk_whole data m raw after :
  length raw = ICMPPKT_REPLY_SIZE → (length (im_reply_buffer m) < ICMPPKT_REPLY_SIZE)%nat →
  im_reply_buffer m ++ data = raw ++ after →
  ∃ r, parse_reply raw = Ok r ∧
    process_reply_chunk ndebug icmp_quiet data m
      = Ok (after, set_reply_buffer [] (icmp_record (EchoReplyRaised r) m)).
Proof.
  intros Hr Hb Hd. destruct (parse_reply_total raw Hr) as [r Hp]. exists r. split; [done|].
  pose proof (f_equal length Hd) as Hlen. rewrite !length_app in Hlen.
  unfold process_reply_chunk. cbv zeta.
  destruct (bool_decide (im_reply_buffer m = []) && (ICMPPKT_REPLY_SIZE <=? length data)%nat) eqn:E.
  - apply andb_prop in E as [E _]. apply bool_decide_eq_true in E. rewrite E in Hd. simpl in Hd. subst data.
    cbn [negb andb mbind res_bind]. rewrite take_app_length', drop_app_length', Hp by done. done.
  - set (k := (length data `min` (ICMPPKT_REPLY_SIZE - length (im_reply_buffer m)))%nat).
    assert (k = ICMPPKT_REPLY_SIZE - length (im_reply_buffer m))%nat as Hk by lia.
    assert (im_reply_buffer m ++ take k data = raw ∧ drop k data = after) as [Ht Hdr].
    { assert (length (im_reply_buffer m ++ take k data) = length raw) as Hl2
        by (rewrite length_app, length_take; lia).
      apply app_inj_1; [done|]. by rewrite <- app_assoc, take_drop. }
    cbn [negb andb im_reply_buffer set_reply_buffer]. rewrite Ht, Hdr, Hr, Nat.ltb_irrefl, Nat.eqb_refl.
    cbn [icmp_assert orb mbind res_bind]. rewrite Hp. done.
Qed.

Lemma reply_chunk_part data m :
  (length (im_reply_buffer m ++ data) < ICMPPKT_REPLY_SIZE)%nat →
  process_reply_chunk ndebug icmp_quiet data m
    = Ok ([], set_reply_buffer (im_reply_buffer m ++ data) m).
Proof.
  intros Hl. rewrite length_app in Hl. unfold process_reply_chunk. cbv zeta.
  rewrite (proj2 (Nat.leb_gt _ _)) by lia. rewrite andb_false_r. cbn [negb andb].
  rewrite Nat.min_l, firstn_all, drop_all by lia. cbn [im_reply_buffer set_reply_buffer].
  by rewrite (proj2 (Nat.ltb_lt _ _)) by (rewrite length_app; lia).
Qed.

Lemma no_records (raws : list (list Z)) rest :
  Forall (λ raw, length raw = ICMPPKT_REPLY_SIZE) raws →
  (length (concat raws ++ rest) < ICMPPKT_REPLY_SIZE)%nat → raws = [].
Proof.
  intros Hr Hl. destruct Hr as [|raw raws Hraw _]; [done|]. simpl in Hl. rewrite !length_app in Hl. lia.
Qed.

(** The outcome of reading records. *)
Definition replies_read m (raws : list (list Z)) (rest : list Z) m' : Prop :=
  im_state m' = im_state m ∧ im_stream_id m' = im_stream_id m ∧ im_reply_buffer m' = rest ∧
  ∃ rs, Forall2 (λ raw r, parse_reply raw = Ok r) raws rs ∧
    im_out m' = im_out m ++ (EchoReplyRaised <$> rs).

Lemma icmp_read_loop_spec fuel data raws rest m :
  (length data ≤ fuel)%nat → (length (im_reply_buffer m) < ICMPPKT_REPLY_SIZE)%nat →
  Forall (λ raw, length raw = ICMPPKT_REPLY_SIZE) raws → (length rest < ICMPPKT_REPLY_SIZE)%nat →
  im_reply_buffer m ++ data = concat raws ++ rest →
  okP (icmp_read_loop ndebug icmp_quiet fuel data m) (replies_read m raws rest).
Proof.
  revert data raws m. induction fuel as [|fuel IH]; intros data raws m Hf Hb Hraws Hrest Hd;
    (destruct data as [|x data];
      [rewrite app_nil_r in Hd; pose proof Hb as Hb'; rewrite Hd in Hb'; apply no_records in Hb'; [|done];
       subst raws; simpl in Hd; apply okP_ret; split_and!; try done; exists []; by rewrite app_nil_r|]);
    [simpl in Hf; lia|].
  cbn [icmp_read_loop]. destruct (decide (length (im_reply_buffer m ++ x :: data) < ICMPPKT_REPLY_SIZE)%nat) as [Hlt|Hge].
  - rewrite reply_chunk_part by done. cbn [mbind res_bind]. rewrite Hd in Hlt.
    apply no_records in Hlt; [|done]. subst raws. simpl in Hd. destruct fuel; apply okP_ret;
      (split_and!; [done|done|done|]; exists []; by rewrite app_nil_r).
  - destruct Hraws as [|raw raws Hraw Hraws]; [rewrite Hd in Hge; simpl in Hge; lia|].
    cbn [concat] in Hd. rewrite <- app_assoc in Hd.
    destruct (reply_chunk_whole (x :: data) m raw (concat raws ++ rest)) as (r & Hp & ->); [done|done|done|].
    cbn [mbind res_bind]. pose proof (f_equal length Hd) as Hlen. rewrite !length_app in Hlen. simpl in *.
    eapply okP_mono; [apply (IH (concat raws ++ rest) raws); [|vm_compute; lia|done|done|done]|].
    + rewrite length_app. unfold ICMPPKT_REPLY_SIZE in *. lia.
    + intros m' (H1 & H2 & H3 & rs & Hrs & Ho). split_and!; try done.
      exists (r :: rs). split; [by constructor|]. rewrite Ho. simpl. by rewrite <- app_assoc.
Qed.

(** Echo replies come out as they were sent, however the stream is
    cut: with the bytes left from earlier calls, the data read as whole
    records followed by an incomplete one raises one event per record, in
    order, with the fields of that record, and keeps the rest. *)
Theorem icmp_replies_delivered data raws rest m s :
  im_state m = ICMP_MS_ESTABLISHED → im_stream_id m = Some s →
  (length (im_reply_buffer m) < ICMPPKT_REPLY_SIZE)%nat →
  Forall (λ raw, length raw = ICMPPKT_REPLY_SIZE) raws → (length rest < ICMPPKT_REPLY_SIZE)%nat →
  im_reply_buffer m ++ data = concat raws ++ rest →
  okP (icmp_process_read_event ndebug icmp_quiet data m) (λ m',
    im_reply_buffer m' = rest ∧
    ∃ rs, Forall2 (λ raw r, parse_reply raw = Ok r) raws rs ∧
      im_out m' = im_out m ++ (EchoReplyRaised <$> rs)
                  ++ [IcmpConsumed s (Z.of_nat (length data))]).
Proof.
  intros Hst Hs Hb Hraws Hrest Hd. unfold icmp_process_read_event.
  rewrite Hst. cbn [icmp_assert]. rewrite bool_decide_eq_true_2 by done. cbn [icmp_assert orb mbind res_bind].
  eapply okP_bind; [by apply icmp_read_loop_spec|]. intros m' (_ & H2 & H3 & rs & Hrs & Ho).
  rewrite H2, Hs. apply okP_ret. split; [done|]. exists rs. split; [done|]. simpl.
  by rewrite Ho, <- app_assoc.
Qed.

End Replies.

(** ** Runs *)
Definition demo_request : IcmpEchoRequest plain_addr := mkEchoRequest (mkPlain [1; 1; 1; 1] 0) 7 1 64 56.
Definition demo_icmp : IcmpMux plain_addr := mkIcmpMux ICMP_MS_ESTABLISHED (Some 3) [0; 7; 0; 0] [].

Lemma send_request_spec_witness :
  okP (send_request false (Some 3) 0 demo_request (mkIcmpMux ICMP_MS_IDLE None [] [])) (λ x, x.1 = true).
Proof.
  eapply okP_mono.
  - apply (send_request_spec false (Some 3) 0 demo_request (mkIcmpMux ICMP_MS_IDLE None [] []) 3);
      [split; [by left | by vm_compute | reflexivity | by split | by split | by split | by split]
      | reflexivity | reflexivity].
  - intros x [Hx _]. exact Hx.
Defined.

(** The second half of a reply, and the start of the next. *)
Definition demo_raw : list Z := [0; 7; 0; 0; 0; 0; 0; 0; 0; 0; 0; 0; 0; 0; 1; 1; 1; 1; 0; 0; 0; 1].

Lemma icmp_replies_delivered_witness :
  okP (icmp_process_read_event false icmp_quiet (drop 4 demo_raw ++ [0; 8]) demo_icmp) (λ m',
    im_reply_buffer m' = [0; 8]).
Proof.
  eapply okP_mono.
  - apply (icmp_replies_delivered false (drop 4 demo_raw ++ [0; 8]) [demo_raw] [0; 8] demo_icmp 3);
      [reflexivity | reflexivity | vm_compute; lia | apply Forall_singleton; reflexivity
      | vm_compute; lia | reflexivity].
  - intros m' [Hm' _]. exact Hm'.
Defined.
