(* ===== verification/Ip4Addr.v ===== *)
(** * IPv4 addresses

    [third-party/lwip/lwip/src/core/ipv4/ip4_addr.c] on a little-endian host:
    reading and printing dotted addresses, netmasks, broadcast addresses.  A C
    string is the list of its characters before the terminating zero; a
    character past the end of the list reads as that zero.  Addresses are
    [u32_t] in network order. *)
From S2P Require Import Prelude.

Definition IPADDR_ANY : Z := 0.
Definition IPADDR_BROADCAST : Z := 0xffffffff.
Definition IPADDR_NONE : Z := 0xffffffff.
Definition IP4ADDR_STRLEN_MAX : Z := 16.
Definition NETIF_FLAG_BROADCAST : Z := 2.

(** [lwip_htonl]. *)
Definition lwip_htonl (x : Z) : Z :=
  Z.lor (Z.lor (Z.shiftl (Z.land x 0xff) 24) (Z.shiftl (Z.land x 0xff00) 8))
    (Z.lor (Z.shiftr (Z.land x 0xff0000) 8) (Z.shiftr (Z.land x 0xff000000) 24)).

(** ** Character classes (the "C" locale) *)
Definition in_range (c lo up : Z) : bool := (lo <=? c) && (c <=? up).
Definition lwip_isdigit (c : Z) : bool := in_range c 48 57.
Definition lwip_isxdigit (c : Z) : bool := lwip_isdigit c || in_range c 97 102 || in_range c 65 70.
Definition lwip_islower (c : Z) : bool := in_range c 97 122.
Definition lwip_isspace (c : Z) : bool := (c =? 32) || in_range c 9 13.

(** ** Broadcast *)
Record netif4 := mkNetif4 { nif_flags : Z; nif_ip : Z; nif_netmask : Z }.

Definition not32 (x : Z) : Z := u32 (Z.lnot x).

Definition ip4_addr_netcmp (a b mask : Z) : bool := Z.land a mask =? Z.land b mask.

Definition ip4_addr_isbroadcast_u32 (addr : Z) (netif : netif4) : bool :=
  if (not32 addr =? IPADDR_ANY) || (addr =? IPADDR_ANY) then true
  else if Z.land (nif_flags netif) NETIF_FLAG_BROADCAST =? 0 then false
  else if addr =? nif_ip netif then false
  else if ip4_addr_netcmp addr (nif_ip netif) (nif_netmask netif)
          && (Z.land addr (not32 (nif_netmask netif))
              =? Z.land IPADDR_BROADCAST (not32 (nif_netmask netif))) then true
  else false.

(** ** Netmasks *)

(** [mask] runs through the powers of two from [2 ^ 31] down; [n] bits are
    left to look at. *)
Fixpoint first_zero (n : nat) (x : Z) : nat :=
  match n with
  | O => O
  | S n' => if Z.land x (Z.shiftl 1 (Z.of_nat n')) =? 0 then n else first_zero n' x
  end.

Fixpoint no_one (n : nat) (x : Z) : bool :=
  match n with
  | O => true
  | S n' => if negb (Z.land x (Z.shiftl 1 (Z.of_nat n')) =? 0) then false else no_one n' x
  end.

Definition ip4_addr_netmask_valid (netmask : Z) : bool :=
  let nm_hostorder := lwip_htonl netmask in
  no_one (first_zero 32 nm_hostorder) nm_hostorder.

(** ** Reading *)

(** Collecting the digits of a number; the rest starts at the first other
    character. *)
Fixpoint collect (base val : Z) (cp : list Z) : Z * list Z :=
  match cp with
  | [] => (val, [])
  | c :: cp' =>
      if lwip_isdigit c then collect base (u32 (u32 (val * base) + u32 (c - 48))) cp'
      else if (base =? 16) && lwip_isxdigit c
      then collect base (Z.lor (u32 (Z.shiftl val 4))
                           (u32 (c + 10 - (if lwip_islower c then 97 else 65)))) cp'
      else (val, cp)
  end.

Definition number (cp : list Z) : option (Z * list Z) :=
  match cp with
  | [] => None
  | c :: cp' =>
      if negb (lwip_isdigit c) then None
      else if c =? 48 then
        match cp' with
        | c' :: cp'' => if (c' =? 120) || (c' =? 88) then Some (collect 16 0 cp'')
                        else Some (collect 8 0 cp')
        | [] => Some (collect 8 0 cp')
        end
      else Some (collect 10 0 cp)
  end.

(** The loop over the parts; [slots] places of [parts] before the fourth. *)
Fixpoint aton_loop (slots : nat) (parts : list Z) (cp : list Z) : option (list Z * Z * list Z) :=
  '(val, rest) ← number cp;
  match rest with
  | c :: rest' =>
      if c =? 46 then
        match slots with
        | O => None
        | S slots => aton_loop slots (parts ++ [val]) rest'
        end
      else Some (parts, val, rest)
  | [] => Some (parts, val, rest)
  end.

Definition concoct (parts : list Z) (val : Z) : option Z :=
  match parts with
  | [] => Some val
  | [p0] =>
      if 0xffffff <? val then None
      else if 0xff <? p0 then None
      else Some (Z.lor val (u32 (Z.shiftl p0 24)))
  | [p0; p1] =>
      if 0xffff <? val then None
      else if (0xff <? p0) || (0xff <? p1) then None
      else Some (Z.lor val (Z.lor (u32 (Z.shiftl p0 24)) (u32 (Z.shiftl p1 16))))
  | [p0; p1; p2] =>
      if 0xff <? val then None
      else if (0xff <? p0) || (0xff <? p1) || (0xff <? p2) then None
      else Some (Z.lor val (Z.lor (Z.lor (u32 (Z.shiftl p0 24)) (u32 (Z.shiftl p1 16)))
                              (u32 (Z.shiftl p2 8))))
  | _ => None
  end.

Definition ip4addr_aton (cp : list Z) : option Z :=
  '(parts, val, rest) ← aton_loop 3 [] cp;
  let c := default 0 (head rest) in
  if negb (c =? 0) && negb (lwip_isspace c) then None
  else
    val ← concoct parts val;
    Some (lwip_htonl val).

Definition ipaddr_addr (cp : list Z) : Z := default IPADDR_NONE (ip4addr_aton cp).

(** ** Printing *)

(** The digits of a byte, least significant first: [inv]. *)
Fixpoint inv_digits (fuel : nat) (ap : Z) : list Z :=
  match fuel with
  | O => []
  | S fuel =>
      let rem := ap `mod` 10 in
      let ap := ap / 10 in
      (48 + rem) :: (if ap =? 0 then [] else inv_digits fuel ap)
  end.

(** The buffer, [rp] and [len]; a failed length check returns [NULL], writing
    outside of the buffer is undefined. *)
Record printer := mkPrinter { pr_buf : list Z; pr_rp : Z; pr_len : Z }.

Definition put_char (buflen : Z) (c : Z) (p : printer) : res (option printer) :=
  if buflen <=? pr_len p then Ok None
  else if (0 <=? pr_rp p) && (pr_rp p <? Z.of_nat (length (pr_buf p)))
  then Ok (Some (mkPrinter (<[Z.to_nat (pr_rp p) := c]> (pr_buf p)) (pr_rp p + 1) (pr_len p + 1)))
  else UB.

Fixpoint put_chars (buflen : Z) (cs : list Z) (p : printer) : res (option printer) :=
  match cs with
  | [] => Ok (Some p)
  | c :: cs =>
      p ← put_char buflen c p;
      match p with Some p => put_chars buflen cs p | None => Ok None end
  end.

Definition put_part (buflen : Z) (b : Z) (p : printer) : res (option printer) :=
  p ← put_chars buflen (rev (inv_digits 3 b)) p;
  match p with Some p => put_char buflen 46 p | None => Ok None end.

Fixpoint put_parts (buflen : Z) (bs : list Z) (p : printer) : res (option printer) :=
  match bs with
  | [] => Ok (Some p)
  | b :: bs =>
      p ← put_part buflen b p;
      match p with Some p => put_parts buflen bs p | None => Ok None end
  end.

(** The bytes of a word in memory. *)
Definition word_bytes (w : Z) : list Z :=
  [w `mod` 256; (w / 256) `mod` 256; (w / 65536) `mod` 256; w / 16777216].

(** [ip4addr_ntoa_r]: [None] is [NULL], otherwise what the buffer holds. *)
Definition ip4addr_ntoa_r (addr : Z) (buf : list Z) (buflen : Z) : res (option (list Z)) :=
  p ← put_parts buflen (word_bytes addr) (mkPrinter buf 0 0);
  match p with
  | None => Ok None
  | Some p =>
      if (0 <=? pr_rp p - 1) && (pr_rp p - 1 <? Z.of_nat (length (pr_buf p)))
      then Ok (Some (<[Z.to_nat (pr_rp p - 1) := 0]> (pr_buf p)))
      else UB
  end.

(** [ip4addr_ntoa]: the same with a static buffer. *)
Definition ip4addr_ntoa (addr : Z) (str : list Z) : res (option (list Z)) :=
  ip4addr_ntoa_r addr str IP4ADDR_STRLEN_MAX.

(** The string a buffer holds. *)
Fixpoint c_string (buf : list Z) : list Z :=
  match buf with
  | [] => []
  | c :: buf => if c =? 0 then [] else c :: c_string buf
  end.

(** ** Byte order *)

Definition is_byte4 (x : Z) : Prop := 0 ≤ x < 256.

(** Four bytes, most significant first. *)
Definition word4 (a b c d : Z) : Z := a * 16777216 + b * 65536 + c * 256 + d.

Lemma lor_bytes a b c d :
  is_byte4 a → is_byte4 b → is_byte4 c → is_byte4 d →
  Z.lor (Z.lor (Z.shiftl a 24) (Z.shiftl b 16)) (Z.lor (Z.shiftl c 8) d) = word4 a b c d.
Proof.
  unfold is_byte4, word4. intros Ha Hb Hc Hd.
  rewrite (lor_shift c d 8) by lia.
  replace (Z.shiftl a 24) with (Z.shiftl (Z.shiftl a 8) 16) by (by rewrite Z.shiftl_shiftl).
  rewrite <- Z.shiftl_lor, (lor_shift a b 8), lor_shift by lia. lia.
Qed.

Lemma word4_bytes x :
  0 ≤ x < 2 ^ 32 →
  x = word4 (x / 16777216) ((x / 65536) `mod` 256) ((x / 256) `mod` 256) (x `mod` 256) ∧
  is_byte4 (x / 16777216) ∧ is_byte4 ((x / 65536) `mod` 256) ∧ is_byte4 ((x / 256) `mod` 256) ∧
  is_byte4 (x `mod` 256).
Proof.
  intros Hx. unfold word4, is_byte4.
  pose proof (Z.div_mod x 256 ltac:(lia)). pose proof (Z.div_mod (x / 256) 256 ltac:(lia)).
  pose proof (Z.div_mod (x / 65536) 256 ltac:(lia)).
  assert (x / 256 / 256 = x / 65536) by (by rewrite Z.div_div by lia).
  assert (x / 65536 / 256 = x / 16777216) by (by rewrite Z.div_div by lia).
  pose proof (Z.mod_pos_bound x 256 ltac:(lia)). pose proof (Z.mod_pos_bound (x / 256) 256 ltac:(lia)).
  pose proof (Z.mod_pos_bound (x / 65536) 256 ltac:(lia)).
  assert (0 ≤ x / 16777216 < 256) by (split; [apply Z.div_pos; lia|apply Z.div_lt_upper_bound; lia]).
  lia.
Qed.

Lemma word4_div a b c d :
  is_byte4 a → is_byte4 b → is_byte4 c → is_byte4 d →
  word4 a b c d `mod` 256 = d ∧ (word4 a b c d / 256) `mod` 256 = c ∧
  (word4 a b c d / 65536) `mod` 256 = b ∧ word4 a b c d / 16777216 = a ∧
  0 ≤ word4 a b c d < 2 ^ 32.
Proof.
  unfold is_byte4, word4. intros Ha Hb Hc Hd. split_and!; [| | | |lia|lia].
  - symmetry. apply (Z.mod_unique _ _ (a * 65536 + b * 256 + c)); lia.
  - replace (_ / 256) with (a * 65536 + b * 256 + c) by (apply (Z.div_unique _ _ _ d); lia).
    symmetry. apply (Z.mod_unique _ _ (a * 256 + b)); lia.
  - replace (_ / 65536) with (a * 256 + b) by (apply (Z.div_unique _ _ _ (c * 256 + d)); lia).
    symmetry. apply (Z.mod_unique _ _ a); lia.
  - symmetry. apply (Z.div_unique _ _ _ (b * 65536 + c * 256 + d)); lia.
Qed.

Lemma htonl_word4 a b c d :
  is_byte4 a → is_byte4 b → is_byte4 c → is_byte4 d →
  lwip_htonl (word4 a b c d) = word4 d c b a.
Proof.
  intros Ha Hb Hc Hd. destruct (word4_div a b c d Ha Hb Hc Hd) as (E0 & E1 & E2 & E3 & Hr).
  set (x := word4 a b c d) in *.
  assert (∀ k, 0 ≤ k → Z.land x (Z.shiftl 0xff k) = Z.shiftl ((x / 2 ^ k) `mod` 256) k) as Hland.
  { intros k Hk. by rewrite land_shift, land_byte, Z.shiftr_div_pow2. }
  unfold lwip_htonl. change 0xff00 with (Z.shiftl 0xff 8). change 0xff0000 with (Z.shiftl 0xff 16).
  change 0xff000000 with (Z.shiftl 0xff 24). rewrite !Hland, land_byte by lia.
  change (2 ^ 8) with 256. change (2 ^ 16) with 65536. change (2 ^ 24) with 16777216.
  rewrite E0, E1, E2, E3, (Z.mod_small a) by done.
  rewrite !Z.shiftr_shiftl_l, !Z.shiftl_shiftl by lia. change (24 - 24) with 0. rewrite Z.shiftl_0_r.
  change (16 - 8) with 8. change (8 + 8) with 16. by apply lor_bytes.
Qed.

(** ** Netmasks *)

Lemma bit_test x n : (Z.land x (Z.shiftl 1 (Z.of_nat n)) =? 0) = negb (Z.testbit x (Z.of_nat n)).
Proof.
  destruct (Z.testbit x (Z.of_nat n)) eqn:E; simpl.
  - apply Z.eqb_neq. intros H. apply (f_equal (λ z, Z.testbit z (Z.of_nat n))) in H.
    rewrite Z.land_spec, E, Z.bits_0, Z.shiftl_spec, Z.sub_diag in H by lia. done.
  - apply Z.eqb_eq. apply Z.bits_inj'. intros i Hi. rewrite Z.land_spec, Z.bits_0.
    destruct (decide (i = Z.of_nat n)) as [->|Hne]; [by rewrite E|].
    rewrite Z.shiftl_1_l, Z.pow2_bits_false by lia. by rewrite andb_false_r.
Qed.

Lemma first_zero_spec n x :
  (first_zero n x ≤ n)%nat ∧
  (∀ i, (first_zero n x ≤ i < n)%nat → Z.testbit x (Z.of_nat i) = true) ∧
  (first_zero n x ≠ 0%nat → Z.testbit x (Z.of_nat (first_zero n x - 1)) = false).
Proof.
  induction n as [|n (IH1 & IH2 & IH3)]; cbn [first_zero]; [split_and!; [lia|intros; lia|done]|].
  rewrite bit_test. destruct (Z.testbit x (Z.of_nat n)) eqn:E; cbn [negb].
  - split_and!; [lia| |done]. intros i Hi. destruct (decide (i = n)) as [->|]; [done|]. apply IH2. lia.
  - split_and!; [lia|intros; lia|]. intros _. by replace (S n - 1)%nat with n by lia.
Qed.

Lemma no_one_spec n x : no_one n x = true ↔ ∀ i, (i < n)%nat → Z.testbit x (Z.of_nat i) = false.
Proof.
  induction n as [|n IH]; cbn [no_one]; [split; [intros; lia|done]|]. rewrite bit_test, negb_involutive.
  destruct (Z.testbit x (Z.of_nat n)) eqn:E.
  - split; [done|]. intros H. specialize (H n ltac:(lia)). congruence.
  - rewrite IH. split; intros H i Hi; [|apply H; lia].
    destruct (decide (i = n)) as [->|]; [done|]. apply H. lia.
Qed.

(** A word whose bits from [k] on are ones and the others zeros. *)
Definition mask_word (k : nat) : Z := 2 ^ 32 - 2 ^ Z.of_nat k.

Lemma mask_word_bits k i :
  (k ≤ 32)%nat → (i < 32)%nat → Z.testbit (mask_word k) (Z.of_nat i) = bool_decide (k ≤ i)%nat.
Proof.
  intros Hk Hi. unfold mask_word.
  replace (2 ^ 32 - 2 ^ Z.of_nat k) with (Z.shiftl (Z.ones (32 - Z.of_nat k)) (Z.of_nat k)).
  2: { rewrite Z.shiftl_mul_pow2, Z.ones_equiv by lia.
       replace (2 ^ 32) with (2 ^ (32 - Z.of_nat k) * 2 ^ Z.of_nat k) by (rewrite <- Z.pow_add_r by lia; f_equal; lia).
       lia. }
  destruct (decide (k ≤ i)%nat).
  - rewrite bool_decide_eq_true_2 by done. rewrite Z.shiftl_spec, Z.ones_spec_low by lia. done.
  - rewrite bool_decide_eq_false_2 by done. by rewrite Z.shiftl_spec_low by lia.
Qed.

Lemma bits_32 x y :
  0 ≤ x < 2 ^ 32 → 0 ≤ y < 2 ^ 32 →
  (∀ i, (i < 32)%nat → Z.testbit x (Z.of_nat i) = Z.testbit y (Z.of_nat i)) → x = y.
Proof.
  intros Hx Hy H. rewrite <- (Z.mod_small x (2 ^ 32)), <- (Z.mod_small y (2 ^ 32)) by done.
  apply Z.bits_inj'. intros i Hi. destruct (Z.lt_ge_cases i 32).
  - rewrite !Z.mod_pow2_bits_low by done. specialize (H (Z.to_nat i) ltac:(lia)).
    by rewrite Z2Nat.id in H.
  - by rewrite !Z.mod_pow2_bits_high by lia.
Qed.

Lemma htonl_range x : 0 ≤ x < 2 ^ 32 → 0 ≤ lwip_htonl x < 2 ^ 32.
Proof.
  intros Hx. destruct (word4_bytes x Hx) as (E & Ha & Hb & Hc & Hd). rewrite E.
  rewrite htonl_word4 by done. by apply word4_div.
Qed.

(** A netmask is accepted exactly when, in host order, it consists
    of ones followed by zeros: it is [2 ^ 32 - 2 ^ k] for some [k] of 0 to 32. *)
Theorem ip4_addr_netmask_valid_iff netmask :
  0 ≤ netmask < 2 ^ 32 →
  ip4_addr_netmask_valid netmask = true ↔ ∃ k, (k ≤ 32)%nat ∧ lwip_htonl netmask = mask_word k.
Proof.
  intros Hm. pose proof (htonl_range netmask Hm) as Hr. unfold ip4_addr_netmask_valid.
  set (x := lwip_htonl netmask) in *. rewrite no_one_spec.
  destruct (first_zero_spec 32 x) as (H1 & H2 & H3).
  remember (first_zero 32 x) as f eqn:Ef. clear Ef. split.
  - intros Hz. exists (f). split; [done|]. apply bits_32; [done| |].
    + unfold mask_word. pose proof (Z.pow_pos_nonneg 2 (Z.of_nat (f)) ltac:(lia) ltac:(lia)).
      pose proof (Z.pow_le_mono_r 2 (Z.of_nat (f)) 32 ltac:(lia) ltac:(lia)). lia.
    + intros i Hi. rewrite mask_word_bits by lia. destruct (decide (f ≤ i)%nat).
      * rewrite bool_decide_eq_true_2 by done. apply H2. lia.
      * rewrite bool_decide_eq_false_2 by done. apply Hz. lia.
  - intros (k & Hk & Hx) i Hi. destruct (decide (f = 0%nat)) as [H0|H0]; [lia|].
    specialize (H3 H0). rewrite Hx, mask_word_bits in H3 by lia. apply bool_decide_eq_false in H3.
    rewrite Hx, mask_word_bits by lia. apply bool_decide_eq_false. lia.
Qed.

(** ** Printing *)

(** Facts about every byte, by trying them all. *)
Lemma byte_cases (P : Z → bool) :
  forallb P (seqZ 0 256) = true → ∀ b, is_byte4 b → P b = true.
Proof.
  intros H b Hb. rewrite forallb_forall in H. apply H. apply list_elem_of_In, elem_of_seqZ.
  unfold is_byte4 in Hb. lia.
Qed.

(** A byte in decimal. *)
Definition dec (b : Z) : list Z := rev (inv_digits 3 b).

Definition plain_digits (b : Z) : bool :=
  forallb lwip_isdigit (dec b) && bool_decide (collect 10 0 (dec b) = (b, []))
  && (1 <=? length (dec b))%nat && (length (dec b) <=? 3)%nat
  && (if b =? 0 then bool_decide (dec b = [48]) else negb (default 48 (head (dec b)) =? 48)).

Lemma dec_plain b : is_byte4 b → plain_digits b = true.
Proof. apply byte_cases. vm_compute. reflexivity. Qed.

Lemma dec_facts b :
  is_byte4 b →
  Forall (λ c, lwip_isdigit c = true) (dec b) ∧ collect 10 0 (dec b) = (b, []) ∧
  (1 ≤ length (dec b) ≤ 3)%nat ∧ (b = 0 → dec b = [48]) ∧
  (b ≠ 0 → default 48 (head (dec b)) ≠ 48).
Proof.
  intros Hb. pose proof (dec_plain b Hb) as H. unfold plain_digits in H.
  rewrite !andb_true_iff, !Nat.leb_le in H. destruct H as ((((H1 & H2) & H3) & H4) & H5).
  apply bool_decide_eq_true in H2.
  split_and!; [|done|done|done| |].
  - apply Forall_forall. intros c Hc. rewrite forallb_forall in H1. by apply H1, list_elem_of_In.
  - intros ->. by apply bool_decide_eq_true in H5.
  - intros Hn. destruct (Z.eqb_spec b 0); [done|]. apply negb_true_iff, Z.eqb_neq in H5. done.
Qed.

(** What [put_chars] does to a buffer with [w] written. *)
Lemma put_chars_spec buflen cs w t :
  buflen ≤ Z.of_nat (length w + length t) →
  put_chars buflen cs (mkPrinter (w ++ t) (Z.of_nat (length w)) (Z.of_nat (length w))) =
    Ok (if Z.of_nat (length w + length cs) <=? Z.max buflen (Z.of_nat (length w))
        then Some (mkPrinter (w ++ cs ++ drop (length cs) t)
                     (Z.of_nat (length w + length cs)) (Z.of_nat (length w + length cs)))
        else None).
Proof.
  revert w t. induction cs as [|c cs IH]; intros w t Hb.
  { cbn [put_chars length drop app]. rewrite Nat.add_0_r, drop_0.
    by rewrite (proj2 (Z.leb_le _ _)) by lia. }
  cbn [put_chars]. unfold put_char. cbn [pr_len pr_rp pr_buf].
  destruct (Z.leb_spec buflen (Z.of_nat (length w))) as [Hle|Hlt].
  { cbn [mbind res_bind]. rewrite (proj2 (Z.leb_gt _ _)); [done|]. cbn [length]. lia. }
  destruct t as [|x t]; [simpl in Hb; lia|].
  rewrite (proj2 (Z.leb_le 0 _)), (proj2 (Z.ltb_lt _ _)) by (rewrite ?length_app; simpl; lia).
  cbn [andb mbind res_bind]. rewrite Nat2Z.id.
  assert (<[length w := c]> (w ++ x :: t) = (w ++ [c]) ++ t) as ->.
  { rewrite insert_app_r_alt, Nat.sub_diag by lia. by rewrite <- app_assoc. }
  replace (Z.of_nat (length w) + 1) with (Z.of_nat (length (w ++ [c]))) by (rewrite length_app; simpl; lia).
  rewrite IH by (rewrite length_app; simpl in *; lia).
  rewrite length_app. cbn [length drop].
  replace (length w + 1 + length cs)%nat with (length w + S (length cs))%nat by lia.
  rewrite <- !app_assoc. cbn [app].
  replace (Z.max buflen (Z.of_nat (length w + 1))) with (Z.max buflen (Z.of_nat (length w))) by lia. done.
Qed.

Lemma put_char_chars buflen c p : put_char buflen c p = put_chars buflen [c] p.
Proof. cbn [put_chars]. destruct (put_char buflen c p) as [[p'|]| |]; done. Qed.

Lemma put_chars_app buflen cs ds p :
  put_chars buflen (cs ++ ds) p =
    (p ← put_chars buflen cs p; match p with Some p => put_chars buflen ds p | None => Ok None end).
Proof.
  revert p. induction cs as [|c cs IH]; intros p; [done|]. cbn [app put_chars].
  destruct (put_char buflen c p) as [[p'|]| |]; cbn [mbind res_bind]; done.
Qed.

Lemma put_parts_chars buflen bs p :
  put_parts buflen bs p = put_chars buflen (concat ((λ b, dec b ++ [46]) <$> bs)) p.
Proof.
  revert p. induction bs as [|b bs IH]; intros p; [done|].
  cbn [put_parts fmap list_fmap concat]. rewrite !put_chars_app. unfold put_part. fold (dec b).
  destruct (put_chars buflen (dec b) p) as [[p1|]| |]; cbn [mbind res_bind]; [|done..].
  rewrite put_char_chars. destruct (put_chars buflen [46] p1) as [[p2|]| |]; cbn [mbind res_bind]; done.
Qed.

(** An address in dotted notation. *)
Definition dotted (bs : list Z) : list Z :=
  match bs with
  | [a; b; c; d] => dec a ++ [46] ++ dec b ++ [46] ++ dec c ++ [46] ++ dec d
  | _ => []
  end.

Lemma ip4addr_ntoa_r_value addr buf buflen :
  buflen ≤ Z.of_nat (length buf) →
  ip4addr_ntoa_r addr buf buflen =
    Ok (if Z.of_nat (length (dotted (word_bytes addr)) + 1) <=? buflen
        then Some (dotted (word_bytes addr) ++ [0] ++ drop (length (dotted (word_bytes addr)) + 1) buf)
        else None).
Proof.
  intros Hb. unfold ip4addr_ntoa_r. rewrite put_parts_chars.
  set (T := dotted (word_bytes addr)).
  assert (concat ((λ b, dec b ++ [46]) <$> word_bytes addr) = T ++ [46]) as ->
    by (unfold T, word_bytes; cbn [fmap list_fmap concat dotted]; by rewrite <- !app_assoc, app_nil_r).
  change (mkPrinter buf 0 0) with (mkPrinter ([] ++ buf) (Z.of_nat (length (@nil Z))) (Z.of_nat (length (@nil Z)))).
  rewrite put_chars_spec by exact Hb.
  cbn [mbind res_bind app length Nat.add]. rewrite length_app. cbn [length].
  replace (Z.max buflen (Z.of_nat 0)) with (Z.max buflen 0) by lia.
  destruct (Z.leb_spec (Z.of_nat (length T + 1)) (Z.max buflen 0)) as [H1|H1];
    destruct (Z.leb_spec (Z.of_nat (length T + 1)) buflen) as [H2|H2]; try lia; [|done].
  cbn [pr_rp pr_buf]. rewrite (proj2 (Z.leb_le 0 _)), (proj2 (Z.ltb_lt _ _))
    by (rewrite ?length_app, ?length_drop; simpl; lia).
  cbn [andb]. do 2 f_equal. replace (Z.to_nat (Z.of_nat (length T + 1) - 1)) with (length T) by lia.
  rewrite <- app_assoc, insert_app_r_alt, Nat.sub_diag by lia. done.
Qed.

(** ** Reading what was printed *)

Lemma collect_digits base v ds rest :
  Forall (λ c, lwip_isdigit c = true) ds →
  collect base v (ds ++ rest) = collect base (collect base v ds).1 rest.
Proof.
  intros Hd. revert v. induction Hd as [|c ds Hc Hd IH]; intros v; [done|].
  cbn [app collect]. rewrite Hc. apply IH.
Qed.

Lemma number_dec b rest :
  is_byte4 b → head rest = None ∨ head rest = Some 46 → number (dec b ++ rest) = Some (b, rest).
Proof.
  intros Hb Hr. destruct (dec_facts b Hb) as (Hd & Hc & Hl & H0 & Hn).
  assert (∀ base v, base ≠ 16 → collect base v rest = (v, rest)) as Hstop.
  { intros base v Hbase. destruct rest as [|c rest]; [done|]. destruct Hr as [Hr|Hr]; [done|].
    injection Hr as ->. cbn [collect]. change (lwip_isdigit 46) with false.
    by rewrite (proj2 (Z.eqb_neq base 16) Hbase). }
  destruct (Z.eq_dec b 0) as [->|Hbn].
  - rewrite H0 by done. cbn [app number]. change (lwip_isdigit 48) with true. cbn [negb Z.eqb Pos.eqb].
    destruct rest as [|c rest]; [done|]. destruct Hr as [Hr|Hr]; [done|]. injection Hr as ->.
    cbn [Z.eqb Pos.eqb orb]. by rewrite Hstop.
  - specialize (Hn Hbn). destruct (dec b) as [|c ds] eqn:E; [simpl in Hl; lia|]. simpl in Hn.
    cbn [app number]. pose proof Hd as Hd'. apply Forall_cons in Hd' as [-> _]. cbn [negb].
    rewrite (proj2 (Z.eqb_neq c 48) Hn).
    change (c :: ds ++ rest) with ((c :: ds) ++ rest). rewrite collect_digits, Hc by done.
    by rewrite Hstop.
Qed.

Lemma aton_dotted a b c d :
  is_byte4 a → is_byte4 b → is_byte4 c → is_byte4 d →
  ip4addr_aton (dotted [a; b; c; d]) = Some (word4 d c b a).
Proof.
  intros Ha Hb Hc Hd. unfold ip4addr_aton, dotted. cbn [aton_loop].
  rewrite (number_dec a) by (done || by right). cbn [mbind option_bind app Z.eqb Pos.eqb].
  rewrite (number_dec b) by (done || by right). cbn [mbind option_bind app Z.eqb Pos.eqb].
  rewrite (number_dec c) by (done || by right). cbn [mbind option_bind app Z.eqb Pos.eqb].
  rewrite <- (app_nil_r (dec d)), (number_dec d) by (done || by left).
  cbn [mbind option_bind app default head Z.eqb negb andb concoct].
  unfold is_byte4 in *.
  rewrite !(proj2 (Z.ltb_ge 0xff _)) by lia. cbn [orb mbind option_bind]. f_equal.
  rewrite !u32_id by (rewrite Z.shiftl_mul_pow2; lia).
  rewrite <- htonl_word4 by done. f_equal. rewrite <- lor_bytes by done.
  rewrite Z.lor_comm, <- Z.lor_assoc. done.
Qed.

Lemma c_string_app (s rest : list Z) :
  Forall (λ c, c ≠ 0) s → c_string (s ++ [0] ++ rest) = s.
Proof.
  induction 1 as [|c s Hc Hs IH]; [done|]. cbn [app c_string]. rewrite (proj2 (Z.eqb_neq c 0) Hc).
  f_equal. exact IH.
Qed.

Lemma dec_nonzero b : is_byte4 b → Forall (λ c, c ≠ 0) (dec b).
Proof.
  intros Hb. destruct (dec_facts b Hb) as (Hd & _). eapply Forall_impl; [exact Hd|].
  intros c Hc. unfold lwip_isdigit, in_range in Hc. intros ->. done.
Qed.

Lemma word_bytes_ok addr :
  0 ≤ addr < 2 ^ 32 →
  ∃ a b c d, word_bytes addr = [a; b; c; d] ∧ addr = word4 d c b a ∧
    is_byte4 a ∧ is_byte4 b ∧ is_byte4 c ∧ is_byte4 d.
Proof.
  intros Ha. destruct (word4_bytes addr Ha) as (E & H1 & H2 & H3 & H4).
  by eexists _, _, _, _.
Qed.

Lemma dotted_facts a b c d :
  is_byte4 a → is_byte4 b → is_byte4 c → is_byte4 d →
  Forall (λ c, c ≠ 0) (dotted [a; b; c; d]) ∧ (7 ≤ length (dotted [a; b; c; d]) ≤ 15)%nat.
Proof.
  intros Ha Hb Hc Hd. unfold dotted. split.
  - rewrite !Forall_app, !Forall_singleton. split_and!; by (apply dec_nonzero || done).
  - destruct (dec_facts a Ha) as (_ & _ & ? & _), (dec_facts b Hb) as (_ & _ & ? & _),
      (dec_facts c Hc) as (_ & _ & ? & _), (dec_facts d Hd) as (_ & _ & ? & _).
    rewrite !length_app. cbn [length]. lia.
Qed.

(** Claim C40. Printing an address and reading it back gives the address, for
    every address and every buffer of at least 16 bytes. *)
Theorem ip4addr_roundtrip addr buf buflen :
  0 ≤ addr < 2 ^ 32 → IP4ADDR_STRLEN_MAX ≤ buflen ≤ Z.of_nat (length buf) →
  okP (ip4addr_ntoa_r addr buf buflen) (λ r,
    ∃ buf', r = Some buf' ∧ ip4addr_aton (c_string buf') = Some addr).
Proof.
  intros Ha Hb. unfold IP4ADDR_STRLEN_MAX in Hb. rewrite ip4addr_ntoa_r_value by lia. apply okP_ret.
  destruct (word_bytes_ok addr Ha) as (a & b & c & d & Hw & -> & H1 & H2 & H3 & H4). rewrite Hw.
  destruct (dotted_facts a b c d H1 H2 H3 H4) as [Hnz Hl].
  rewrite (proj2 (Z.leb_le _ _)) by lia. eexists. split; [done|].
  by rewrite c_string_app, aton_dotted.
Qed.

(** Claim C33. [ip4addr_ntoa_r] never writes outside of the [buflen] bytes it
    is given; it returns [NULL] exactly when the text and its terminator do
    not fit, and otherwise changes nothing after the terminator. *)
Theorem ip4addr_ntoa_r_bounds addr buf buflen :
  0 ≤ addr < 2 ^ 32 → buflen ≤ Z.of_nat (length buf) →
  okP (ip4addr_ntoa_r addr buf buflen) (λ r,
    match r with
    | None => buflen ≤ Z.of_nat (length (dotted (word_bytes addr)))
    | Some buf' =>
        c_string buf' = dotted (word_bytes addr) ∧
        Z.of_nat (length (c_string buf')) < buflen ∧ length buf' = length buf ∧
        drop (S (length (c_string buf'))) buf' = drop (S (length (c_string buf'))) buf
    end).
Proof.
  intros Ha Hb. rewrite ip4addr_ntoa_r_value by done. apply okP_ret.
  destruct (word_bytes_ok addr Ha) as (a & b & c & d & Hw & _ & H1 & H2 & H3 & H4). rewrite Hw.
  destruct (dotted_facts a b c d H1 H2 H3 H4) as [Hnz Hl]. set (T := dotted [a; b; c; d]) in *.
  destruct (Z.leb_spec (Z.of_nat (length T + 1)) buflen) as [Hle|Hgt]; [|lia].
  rewrite c_string_app by done. split_and!; [done|lia| |].
  - rewrite !length_app, length_drop. cbn [length]. lia.
  - rewrite (app_assoc T [0]), drop_app_length' by (rewrite length_app; simpl; lia).
    f_equal. lia.
Qed.

Lemma ip4_addr_netmask_valid_iff_witness : ip4_addr_netmask_valid 0x00ffffff = true.
Proof.
  apply (ip4_addr_netmask_valid_iff 0x00ffffff); [lia|]. exists 8%nat. split; [lia|reflexivity].
Defined.

Lemma ip4addr_roundtrip_witness :
  okP (ip4addr_ntoa_r 0x0100007f (replicate 20 7) 16) (λ r,
    ∃ buf', r = Some buf' ∧ ip4addr_aton (c_string buf') = Some 0x0100007f).
Proof. apply (ip4addr_roundtrip 0x0100007f (replicate 20 7) 16); [lia|vm_compute; split; discriminate]. Defined.

Lemma ip4addr_ntoa_r_bounds_witness :
  okP (ip4addr_ntoa_r 0x0100007f (replicate 9 7) 9) (λ r, r = None).
Proof.
  eapply okP_mono; [apply (ip4addr_ntoa_r_bounds 0x0100007f (replicate 9 7) 9); [lia|vm_compute; discriminate]|].
  intros [buf'|] H; [|reflexivity]. destruct H as (Hs & Hl & _). rewrite Hs in Hl. vm_compute in Hl. discriminate.
Defined.
