(* ===== verification/DomainFilter.v ===== *)
(** * The domain filter

    [core/src/domain_filter.cpp]: the user's routing rules.  A text of
    entries (domains, addresses, CIDR ranges, ports, each possibly marked with
    [!], [+] or [^]) is parsed into tables; the tunnel asks the filter whether a
    connection, known by its domain name or only by its address, is an
    exclusion.

    Numeric addresses, CIDR ranges and the caches with a time-out come from a
    library outside the repository: they are classes of operations, with the
    documented behaviour the theorems need as their laws.  Reading a cache only
    refreshes the order in which later insertions evict entries, which the
    interface leaves open. *)
From S2P Require Import Prelude WireUtils.
From Stdlib Require Import Ascii.

(** ** Characters and strings *)

Notation str := (list ascii).

Definition s2l (s : string) : str := String.list_ascii_of_string s.

Definition code_of (c : ascii) : Z := Z.of_N (N_of_ascii c).

Definition in_range (lo hi : Z) (c : ascii) : bool := (lo <=? code_of c) && (code_of c <=? hi).

(** [<cctype>] in the "C" locale.  [isspace] is called with a plain [char];
    the bytes above 127 are no spaces. *)
Definition isspace (c : ascii) : bool := in_range 9 13 c || (code_of c =? 32).
Definition isalnum (c : ascii) : bool := in_range 48 57 c || in_range 65 90 c || in_range 97 122 c.
Definition tolower (c : ascii) : ascii :=
  if in_range 65 90 c then ascii_of_N (Z.to_N (code_of c + 32)) else c.

Definition lower (s : str) : str := tolower <$> s.

Definition starts_with (s prefix : str) : bool :=
  bool_decide (take (length prefix) s = prefix).

Definition WWW_PREFIX : str := s2l "www.".
Definition WILDCARD_PREFIX : str := s2l "*.".

(** ** What the filter uses of the network library *)

(** [utils::split_host_port], [utils::to_integer<uint64_t>], the constructors
    of [SocketAddress] from text, valid results only, and [CidrRange]. *)
Class NetTextOps (A R : Type) := {
  split_host_port : str → option (str * str);
  to_integer : str → option Z;
  parse_host : str → Z → option A;
  parse_host_port : str → option A;
  parse_cidr : str → option R;
  host_range : list Z → Z → R;
}.

(** [ag::CidrRangeSet]. *)
Class CidrRangeSetOps (R RS : Type) := {
  ranges_empty : RS;
  ranges_insert : R → RS → RS;
  ranges_includes : RS → R → bool;
}.

(** [ag::LruTimeoutCache]; the time-out of an entry is relative to the moment
    it is inserted. *)
Class LruTimeoutCacheOps (K V C : Type) := {
  cache_new : C;
  cache_clear : C → C;
  cache_get : Z → K → C → option V;
  cache_insert : Z → K → V → option Z → bool → C → C;
}.

(** The marks of the directives. *)
Definition is_directive (c : ascii) : bool :=
  bool_decide (c = "!"%char) || bool_decide (c = "+"%char) || bool_decide (c = "^"%char).

Definition marked (s : str) : bool :=
  match s with [] => true | c :: _ => is_directive c end.

(** A text that is empty or starts with such a mark is no host, no host with a
    port, no range and no wildcard port. *)
Class NetTextLaws (A R : Type) `{!NetTextOps A R} := {
  split_marked s h p : marked s = true → split_host_port s = Some (h, p) →
    h ≠ s2l "*" ∧ (∀ port, parse_host h port = None) ∧ parse_host_port h = None;
  parse_cidr_marked s : marked s = true → parse_cidr s = None;
}.

(** [covers r x]: the range [r] contains the single address [x].  Inserting a
    range makes a set include exactly the addresses of that range besides the
    ones it had. *)
Class CidrRangeSetLaws (A R RS : Type) `{!NetTextOps A R, !CidrRangeSetOps R RS} := {
  covers : R → list Z → bool;
  includes_empty bs :
    ranges_includes ranges_empty (host_range bs (Z.of_nat (length bs) * 8)) = false;
  includes_insert r s bs :
    ranges_includes (ranges_insert r s) (host_range bs (Z.of_nat (length bs) * 8))
    = covers r bs || ranges_includes s (host_range bs (Z.of_nat (length bs) * 8));
}.

Class LruTimeoutCacheLaws (K V C : Type) `{!LruTimeoutCacheOps K V C} := {
  cache_get_new now k : cache_get now k cache_new = None;
  cache_get_clear now k c : cache_get now k (cache_clear c) = None;
}.

(** ** Data *)

Inductive DomainFilterValidationStatus :=
| DFVS_OK_ADDR | DFVS_OK_CIDR | DFVS_OK_DOMAIN | DFVS_OK_PORT | DFVS_MALFORMED.

Inductive DomainFilterMatchStatus :=
| DFMS_DEFAULT | DFMS_EXCLUSION | DFMS_SUSPECT_EXCLUSION | DFMS_DEFAULT_OVERRIDE.

#[export] Instance DomainFilterMatchStatus_eq_dec : EqDecision DomainFilterMatchStatus.
Proof. solve_decision. Defined.

Record DomainFilterMatchResult := mkMatch {
  status : DomainFilterMatchStatus;
  domain : option str;
}.

Inductive VpnMode := VPN_MODE_GENERAL | VPN_MODE_SELECTIVE.

(** [std::bitset] of [MatchFlags]: bit [DFMM_EXACT] and bit [DFMM_SUBDOMAINS]. *)
Record MatchFlagsSet := mkFlags { dfmm_exact : bool; dfmm_subdomains : bool }.

Definition no_flags : MatchFlagsSet := mkFlags false false.
Definition flags_or (a b : MatchFlagsSet) : MatchFlagsSet :=
  mkFlags (dfmm_exact a || dfmm_exact b) (dfmm_subdomains a || dfmm_subdomains b).

(** The alternatives of [ParseResult]. *)
Inductive ParseResult (A R : Type) :=
| EntryAddress (a : A)
| EntryCidr (r : R)
| EntryDomain (text : str) (flags : MatchFlagsSet)
| EntryPort (port : Z)
| EntryMalformed.
Arguments EntryAddress {A R} a.
Arguments EntryCidr {A R} r.
Arguments EntryDomain {A R} text flags.
Arguments EntryPort {A R} port.
Arguments EntryMalformed {A R}.

Record SockAddrTag (A : Type) := mkTag { tag_addr : A; tag_appname : str }.
Arguments mkTag {A}.
Arguments tag_addr {A}.
Arguments tag_appname {A}.

Inductive DomainFilter (A RS TC SC : Type) `{Countable A} := mkFilter {
  m_mode : VpnMode;
  m_domains : gmap str MatchFlagsSet;
  m_addresses : gset A;
  m_ports_only : gset Z;
  m_cidr_ranges : RS;
  m_default_overrides : option (DomainFilter A RS TC SC);
  m_explicit_exclusions : option (DomainFilter A RS TC SC);
  m_explicit_defaults : option (DomainFilter A RS TC SC);
  m_resolved_tags : TC;
  m_exclusion_suspects : SC;
}.
Arguments mkFilter {A RS TC SC _ _}.
Arguments m_mode {A RS TC SC _ _}.
Arguments m_domains {A RS TC SC _ _}.
Arguments m_addresses {A RS TC SC _ _}.
Arguments m_ports_only {A RS TC SC _ _}.
Arguments m_cidr_ranges {A RS TC SC _ _}.
Arguments m_default_overrides {A RS TC SC _ _}.
Arguments m_explicit_exclusions {A RS TC SC _ _}.
Arguments m_explicit_defaults {A RS TC SC _ _}.
Arguments m_resolved_tags {A RS TC SC _ _}.
Arguments m_exclusion_suspects {A RS TC SC _ _}.

Section Filter.
Context {A R RS TC SC : Type}.
Context `{!SocketAddressOps A, !NetTextOps A R, !CidrRangeSetOps R RS}.
Context `{!LruTimeoutCacheOps (SockAddrTag A) str TC, !LruTimeoutCacheOps A Z SC}.

Notation filter := (DomainFilter A RS TC SC).
Notation entry := (ParseResult A R).

Definition USHRT_MAX : Z := 65535.

(** ** Parsing *)

(** The characters of a domain: no empty label but a last one. *)
Fixpoint valid_domain (last_ch : ascii) (s : str) : bool :=
  match s with
  | [] => true
  | ch :: s =>
      if negb (isalnum ch) && negb (bool_decide (ch = "-"%char))
         && negb (bool_decide (ch = "_"%char)) && negb (bool_decide (ch = "."%char))
      then false
      else if bool_decide (ch = "."%char) && bool_decide (last_ch = "."%char) then false
      else valid_domain ch s
  end.

(** The address part of [parse_entry]. *)
Definition parse_address (e : str) : option entry :=
  match split_host_port e with
  | None => None
  | Some (host, port_text) =>
      match to_integer port_text with
      | Some port =>
          if negb (bool_decide (port_text = []))
          then
            if (0 <? port) && (port <=? USHRT_MAX)
            then if bool_decide (host = s2l "*") then Some (EntryPort (u16 port))
                 else EntryAddress <$> parse_host host port
            else None
          else EntryAddress <$> parse_host_port host
      | None => EntryAddress <$> parse_host_port host
      end
  end.

(** The domain part of [parse_entry]. *)
Definition parse_domain (e : str) : entry :=
  let e := lower e in
  let domain := if starts_with e WILDCARD_PREFIX then drop 2 e else e in
  if bool_decide (domain = []) then EntryMalformed
  else if negb (valid_domain "."%char domain) then EntryMalformed
  else if starts_with e WILDCARD_PREFIX
       then EntryDomain (drop (length WILDCARD_PREFIX) e) (mkFlags false true)
       else EntryDomain (if starts_with e WWW_PREFIX then drop (length WWW_PREFIX) e else e)
                        (mkFlags true false).

Definition parse_entry (e : str) : entry :=
  match parse_address e with
  | Some r => r
  | None =>
      match parse_cidr e with
      | Some range => EntryCidr range
      | None => parse_domain e
      end
  end.

Definition validate_entry (e : str) : DomainFilterValidationStatus :=
  let e := match e with c :: e' => if is_directive c then e' else e | [] => e end in
  match parse_entry e with
  | EntryAddress _ => DFVS_OK_ADDR
  | EntryCidr _ => DFVS_OK_CIDR
  | EntryDomain _ _ => DFVS_OK_DOMAIN
  | EntryPort _ => DFVS_OK_PORT
  | EntryMalformed => DFVS_MALFORMED
  end.

(** ** Updating *)

Definition new_filter : filter :=
  mkFilter VPN_MODE_GENERAL ∅ ∅ ∅ ranges_empty None None None cache_new cache_new.

(** The state of [update_exclusions] while it reads the entries: the tables and
    the three texts for the nested filters. *)
Record Tables := mkTables {
  tb_domains : gmap str MatchFlagsSet;
  tb_addresses : gset A;
  tb_ports_only : gset Z;
  tb_cidr_ranges : RS;
  overrides : str;
  explicit_exclusions : str;
  explicit_defaults : str;
}.

Definition no_tables : Tables := mkTables ∅ ∅ ∅ ranges_empty [] [] [].

Definition newline : ascii := ascii_of_N 10.

Definition add_directive (c : ascii) (text : str) (t : Tables) : Tables :=
  let 'mkTables ds as_ ps rs ov ex df := t in
  let line := text ++ [newline] in
  if bool_decide (c = "+"%char) then mkTables ds as_ ps rs ov (ex ++ line) df
  else if bool_decide (c = "^"%char) then mkTables ds as_ ps rs ov ex (df ++ line)
  else mkTables ds as_ ps rs (ov ++ line) ex df.

Definition add_plain (r : entry) (t : Tables) : Tables :=
  let 'mkTables ds as_ ps rs ov ex df := t in
  match r with
  | EntryAddress a => mkTables ds ({[a]} ∪ as_) ps rs ov ex df
  | EntryDomain text flags =>
      mkTables (<[text := flags_or (default no_flags (ds !! text)) flags]> ds) as_ ps rs ov ex df
  | EntryCidr r => mkTables ds as_ ps (ranges_insert r rs) ov ex df
  | EntryPort p => mkTables ds as_ ({[p]} ∪ ps) rs ov ex df
  | EntryMalformed => t
  end.

Definition is_malformed (r : entry) : bool :=
  match r with EntryMalformed => true | _ => false end.

(** The lambda [add_entry]. *)
Definition add_entry (t : Tables) (e : str) : Tables :=
  match e with
  | c :: text =>
      if is_directive c
      then if is_malformed (parse_entry text) then t else add_directive c text t
      else add_plain (parse_entry e) t
  | [] => add_plain (parse_entry e) t
  end.

(** The loop over the characters of the text, with its [buffer]. *)
Fixpoint read_entries (buffer text : str) (t : Tables) : Tables :=
  match text with
  | [] => if bool_decide (buffer = []) then t else add_entry t buffer
  | ch :: text =>
      if negb (isspace ch) then read_entries (buffer ++ [ch]) text t
      else if bool_decide (buffer = []) then read_entries [] text t
      else read_entries [] text (add_entry t buffer)
  end.

(** [update_exclusions] calls itself on the texts of the nested filters.  [None]
    is running out of the recursion depth given. *)
Fixpoint update_depth (depth : nat) (mode : VpnMode) (exclusions : str) (f : filter) :
    option filter :=
  match depth with
  | O => None
  | S depth =>
      let t := read_entries [] exclusions no_tables in
      let nested (text : str) : option (option filter) :=
        if bool_decide (text = []) then Some None
        else Some <$> update_depth depth mode text new_filter in
      ov ← nested (overrides t);
      ex ← nested (explicit_exclusions t);
      df ← nested (explicit_defaults t);
      Some (mkFilter mode (tb_domains t) (tb_addresses t) (tb_ports_only t) (tb_cidr_ranges t)
        ov ex df (m_resolved_tags f) (cache_clear (m_exclusion_suspects f)))
  end.

Definition update_exclusions (mode : VpnMode) (exclusions : str) (f : filter) : option filter :=
  update_depth (S (length exclusions)) mode exclusions f.

(** ** Matching *)

Definition find_dot (s : str) : option nat := fst <$> list_find (λ c, c = "."%char) s.

(** The test of [matched_domain_length] on one name. *)
Definition seek_hit (ds : gmap str MatchFlagsSet) (domain : str) (www_prefixed : bool)
    (seek : str) : bool :=
  match ds !! seek with
  | Some flags =>
      (dfmm_exact flags
       && ((length seek =? length domain)%nat
           || (www_prefixed && (length seek + length WWW_PREFIX =? length domain)%nat)))
      || (dfmm_subdomains flags && (length seek <? length domain)%nat)
  | None => false
  end.

(** The loop of [matched_domain_length]; [fuel] bounds its rounds. *)
Fixpoint seek_loop (fuel : nat) (ds : gmap str MatchFlagsSet) (domain : str)
    (www_prefixed : bool) (seek : str) : option nat :=
  match fuel with
  | O => None
  | S fuel =>
      if seek_hit ds domain www_prefixed seek then Some (length seek)
      else
        match find_dot seek with
        | None => None
        | Some next_dot =>
            if (next_dot + 1 =? length seek)%nat then None
            else seek_loop fuel ds domain www_prefixed (drop (next_dot + 1) seek)
        end
  end.

Definition seek_domain (ds : gmap str MatchFlagsSet) (domain : str) : option nat :=
  let domain := lower domain in
  let www_prefixed := starts_with domain WWW_PREFIX in
  let seek := if negb www_prefixed then domain else drop (length WWW_PREFIX) domain in
  seek_loop (S (length seek)) ds domain www_prefixed seek.

Definition matched_domain_length (f : filter) (domain : str) : option nat :=
  seek_domain (m_domains f) domain.

Definition match_explicit_domain (f : filter) (domain : str) : option DomainFilterMatchStatus :=
  let direct := f' ← m_explicit_exclusions f; matched_domain_length f' domain in
  let defaults := f' ← m_explicit_defaults f; matched_domain_length f' domain in
  match direct, defaults with
  | None, None => None
  | None, Some _ => Some DFMS_DEFAULT_OVERRIDE
  | Some _, None => Some DFMS_EXCLUSION
  | Some n, Some k => Some (if (n <=? k)%nat then DFMS_DEFAULT_OVERRIDE else DFMS_EXCLUSION)
  end.

Definition is_exclusion (s : DomainFilterMatchStatus) : bool := bool_decide (s = DFMS_EXCLUSION).

Fixpoint match_domain (f : filter) (domain : str) {struct f} : DomainFilterMatchStatus :=
  match match_explicit_domain f domain with
  | Some explicit_match => explicit_match
  | None =>
      if match f with
         | mkFilter _ _ _ _ _ ov _ _ _ _ =>
             match ov with Some g => is_exclusion (match_domain g domain) | None => false end
         end
      then DFMS_DEFAULT_OVERRIDE
      else match matched_domain_length f domain with
           | Some _ => DFMS_EXCLUSION
           | None => DFMS_DEFAULT
           end
  end.

Definition has_domains (f : option filter) : bool :=
  match f with Some g => negb (bool_decide (m_domains g = ∅)) | None => false end.

(** The four table look-ups of [match_tag]. *)
Definition address_found (f : filter) (a : A) : bool :=
  bool_decide (a ∈ m_addresses f)
  || bool_decide (set_port 0 a ∈ m_addresses f)
  || ranges_includes (m_cidr_ranges f) (host_range (addr a) (Z.of_nat (length (addr a)) * 8))
  || bool_decide (port a ∈ m_ports_only f).

Fixpoint match_tag (now : Z) (f : filter) (tag : SockAddrTag A) {struct f} :
    DomainFilterMatchResult :=
  let domain := cache_get now tag (m_resolved_tags f) in
  let '(ov, ex, df) :=
    match f with
    | mkFilter _ _ _ _ _ ov ex df _ _ =>
        (match ov with Some g => is_exclusion (status (match_tag now g tag)) | None => false end,
         match ex with Some g => is_exclusion (status (match_tag now g tag)) | None => false end,
         match df with Some g => is_exclusion (status (match_tag now g tag)) | None => false end)
    end in
  match (d ← domain; match_explicit_domain f d) with
  | Some explicit_match => mkMatch explicit_match domain
  | None =>
      if df then mkMatch DFMS_DEFAULT_OVERRIDE domain
      else
        let explicit_address := ex in
        if negb explicit_address
           && (match domain, m_default_overrides f with
               | Some d, Some g => is_exclusion (match_domain g d)
               | _, _ => false
               end || ov)
        then mkMatch DFMS_DEFAULT_OVERRIDE domain
        else if explicit_address || address_found f (tag_addr tag)
        then
          let has_domain_override :=
            (negb explicit_address && has_domains (m_default_overrides f))
            || has_domains (m_explicit_defaults f) in
          mkMatch (match domain with
                   | None => if has_domain_override then DFMS_SUSPECT_EXCLUSION else DFMS_EXCLUSION
                   | Some _ => DFMS_EXCLUSION
                   end) domain
        else
          match domain with
          | Some d => mkMatch (match_domain f d) domain
          | None =>
              match cache_get now (set_port 0 (tag_addr tag)) (m_exclusion_suspects f) with
              | Some _ => mkMatch DFMS_SUSPECT_EXCLUSION None
              | None => mkMatch DFMS_DEFAULT None
              end
          end
  end.

(** ** Caches and queries *)

Definition set_resolved_tags (c : TC) (f : filter) : filter :=
  let 'mkFilter mo ds as_ ps rs ov ex df _ su := f in mkFilter mo ds as_ ps rs ov ex df c su.

Definition set_exclusion_suspects (c : SC) (f : filter) : filter :=
  let 'mkFilter mo ds as_ ps rs ov ex df re _ := f in mkFilter mo ds as_ ps rs ov ex df re c.

Definition add_resolved_tag (now : Z) (tag : SockAddrTag A) (domain : str) (f : filter) : filter :=
  set_resolved_tags (cache_insert now tag domain None false (m_resolved_tags f)) f.

Definition add_exclusion_suspect (now : Z) (a : A) (ttl : Z) (f : filter) : filter :=
  set_exclusion_suspects
    (cache_insert now (set_port 0 a) 0 (Some ttl) true (m_exclusion_suspects f)) f.

Fixpoint get_resolvable_exclusions (f : filter) : list str :=
  match f with
  | mkFilter _ ds _ _ _ ov ex df _ _ =>
      (match df with Some g => get_resolvable_exclusions g | None => [] end)
      ++ (match ex with Some g => get_resolvable_exclusions g | None => [] end)
      ++ (match ov with Some g => get_resolvable_exclusions g | None => [] end)
      ++ (base.filter (λ x, dfmm_exact x.2 = true) (map_to_list ds)).*1
  end.

Definition get_mode (f : filter) : VpnMode := m_mode f.

End Filter.
