(* ===== verification/DomainFilterProps.v ===== *)
(** * Properties of the domain filter

    The tables, nested filters and loops of [domain_filter.cpp] implement the
    policy the settings document: which rules of the text apply to a name or an
    address, and which of them wins. *)
From S2P Require Import Prelude WireUtils DomainFilter.
From Stdlib Require Import Ascii.

(** ** Which domains a rule is about *)

Lemma tolower_idem c : tolower (tolower c) = tolower c.
Proof. destruct c as [[] [] [] [] [] [] [] []]; by vm_compute. Qed.

Lemma lower_lower s : lower (lower s) = lower s.
Proof. unfold lower. rewrite <- list_fmap_compose. apply list_fmap_ext. intros. apply tolower_idem. Qed.

(** The domain without its [www.] prefix. *)
Definition strip_www (d : str) : str :=
  if starts_with d WWW_PREFIX then drop (length WWW_PREFIX) d else d.

(** [s] is [d] or a parent domain of it. *)
Definition label_suffix (s d : str) : Prop :=
  s = d ∨ (s ≠ [] ∧ ("."%char :: s) `suffix_of` d).

#[export] Instance label_suffix_dec s d : Decision (label_suffix s d).
Proof. unfold label_suffix. apply _. Defined.

(** A rule for [key] is about the (lower-case) domain [d]: an exact rule about
    the domain itself and its [www.] subdomain, a wildcard rule about all
    subdomains. *)
Definition domain_rule (key : str) (flags : MatchFlagsSet) (d : str) : Prop :=
  label_suffix key (strip_www d) ∧
  (dfmm_exact flags = true ∧ key = strip_www d ∨ dfmm_subdomains flags = true ∧ key ≠ d).

#[export] Instance bool_eq_true_dec (b : bool) : Decision (b = true).
Proof. apply _. Defined.

#[export] Instance domain_rule_dec key flags d : Decision (domain_rule key flags d).
Proof. unfold domain_rule. apply _. Defined.

Lemma find_dot_Some s k :
  find_dot s = Some k ↔ ∃ p q, s = p ++ "."%char :: q ∧ length p = k ∧ "."%char ∉ p.
Proof.
  unfold find_dot. split.
  - intros ([i c] & Hf & ->)%fmap_Some. apply list_find_Some in Hf as (Hi & -> & Hlt).
    exists (take i s), (drop (S i) s). split; [by rewrite take_drop_middle|].
    split; [rewrite length_take; apply lookup_lt_Some in Hi; simpl; lia|].
    intros (j & Hj)%list_elem_of_lookup. apply lookup_take_Some in Hj as [Hj ?].
    by eapply Hlt.
  - intros (p & q & -> & <- & Hp).
    rewrite (proj2 (list_find_Some _ _ (length p) "."%char)); [done|].
    split; [by apply list_lookup_middle|split; [done|]].
    intros j y Hj Hlt ->. rewrite lookup_app_l in Hj by done.
    apply Hp. by eapply list_elem_of_lookup_2.
Qed.

Lemma find_dot_None s : find_dot s = None ↔ "."%char ∉ s.
Proof.
  unfold find_dot. rewrite fmap_None, list_find_None, Forall_forall. split.
  - intros H Hin. by eapply H.
  - intros H x Hx ->. done.
Qed.

(** One round of the loop moves on to the next parent domain. *)
Lemma label_suffix_step s seek :
  label_suffix s seek ↔ s = seek ∨
    ∃ k, find_dot seek = Some k ∧ (k + 1)%nat ≠ length seek ∧ label_suffix s (drop (k + 1) seek).
Proof.
  split.
  - intros [->|[Hne [p Hp]]]; [by left|right].
    destruct (find_dot seek) as [k|] eqn:Hk.
    + exists k. split; [done|]. apply find_dot_Some in Hk as (p' & q & -> & <- & Hp').
      rewrite length_app, drop_app_ge, Nat.add_sub_swap, Nat.sub_diag by lia. simpl.
      enough (label_suffix s q) as Hq.
      { split; [|done]. destruct q; [|simpl; lia].
        destruct Hq as [->|[_ [z Hz]]]; [done|]. by destruct z. }
      symmetry in Hp. apply app_eq_inv in Hp as [(z & -> & Hz)|(z & -> & Hz)].
      * destruct z as [|c z]; simplify_eq/=; [by left|].
        right. split; [done|]. by exists z.
      * destruct z as [|c z]; simplify_eq/=; [by left|].
        exfalso. apply Hp'. rewrite elem_of_app, elem_of_cons. auto.
    + apply find_dot_None in Hk. exfalso. apply Hk. rewrite Hp, elem_of_app, elem_of_cons. auto.
  - intros [->|(k & Hk & Hne & Hs)]; [by left|right].
    apply find_dot_Some in Hk as (p & q & -> & <- & _). rewrite length_app in Hne.
    rewrite drop_app_ge, Nat.add_sub_swap, Nat.sub_diag in Hs by lia. simpl in Hs, Hne.
    rewrite drop_0 in Hs.
    destruct Hs as [->|[Hn [z ->]]].
    + split; [by destruct q; simpl in Hne; [lia|]|]. by exists p.
    + split; [done|]. exists (p ++ "."%char :: z). by rewrite <- app_assoc.
Qed.

(** ** The look-up loop *)

(** The key of [ds] that decides: the longest one that is about the domain. *)
Definition decides (about : str → MatchFlagsSet → Prop) (ds : gmap str MatchFlagsSet)
    (r : option nat) : Prop :=
  match r with
  | None => ∀ s fl, ds !! s = Some fl → ¬ about s fl
  | Some n => (∃ s fl, ds !! s = Some fl ∧ about s fl ∧ length s = n) ∧
      ∀ s fl, ds !! s = Some fl → about s fl → (length s ≤ n)%nat
  end.

Lemma label_suffix_length s d : label_suffix s d → (length s ≤ length d)%nat.
Proof. intros [->|[_ [p ->]]]; [done|]. rewrite length_app. simpl. lia. Qed.

Lemma label_suffix_length_eq s d : label_suffix s d → length s = length d → s = d.
Proof. intros [->|[_ [p ->]]]; [done|]. rewrite length_app. simpl. lia. Qed.

Lemma strip_www_cases d :
  (starts_with d WWW_PREFIX = true ∧ d = WWW_PREFIX ++ strip_www d) ∨
  (starts_with d WWW_PREFIX = false ∧ strip_www d = d).
Proof.
  unfold strip_www. destruct (starts_with d WWW_PREFIX) eqn:E; [left|by right]. split; [done|].
  apply bool_decide_eq_true in E. by rewrite <- E at 1; rewrite take_drop.
Qed.

(** The comparisons of lengths in the loop are comparisons of the names. *)
Lemma hit_domain_rule (s d : str) flags :
  label_suffix s (strip_www d) →
  (dfmm_exact flags
   && ((length s =? length d)%nat
       || (starts_with d WWW_PREFIX && (length s + length WWW_PREFIX =? length d)%nat)))
  || (dfmm_subdomains flags && (length s <? length d)%nat)
  = bool_decide (domain_rule s flags d).
Proof.
  intros Hs. apply eq_true_iff_eq. unfold domain_rule.
  rewrite bool_decide_eq_true, orb_true_iff, !andb_true_iff, orb_true_iff, andb_true_iff,
    !Nat.eqb_eq, Nat.ltb_lt.
  pose proof (label_suffix_length _ _ Hs) as Hle.
  pose proof (label_suffix_length_eq _ _ Hs) as Heq.
  destruct (strip_www_cases d) as [[Hw Hd]|[Hw Hd]]; rewrite Hw;
    revert Hd Hs Hle Heq; generalize (strip_www d); intros t Hd Ht Hle Heq; subst t || rewrite Hd.
  - assert (length WWW_PREFIX = 4%nat) as HW by done. rewrite length_app. split.
    + intros [[He [?|[_ Hl]]]|[Hsub Hlt]]; [lia| |].
      * split; [done|left; split; [done|]]. apply Heq. lia.
      * split; [done|right; split; [done|]]. intros Hsd. apply (f_equal length) in Hsd.
        rewrite length_app in Hsd. lia.
    + intros [_ [[He ->]|[Hsub Hne]]]; [left|right].
      * split; [done|right; split; [done|lia]].
      * split; [done|lia].
  - split.
    + intros [[He [Hl|[? _]]]|[Hsub Hlt]]; [|done|].
      * split; [done|left; split; [done|auto]].
      * split; [done|right; split; [done|]]. intros ->. lia.
    + intros [_ [[He ->]|[Hsub Hne]]]; [by left; auto|right].
      split; [done|]. assert (length s ≠ length d) by auto. lia.
Qed.

Lemma seek_loop_decides ds (d seek : str) fuel :
  (length seek < fuel)%nat → label_suffix seek (strip_www d) →
  decides (λ s fl, label_suffix s seek ∧ domain_rule s fl d) ds
    (seek_loop fuel ds d (starts_with d WWW_PREFIX) seek).
Proof.
  revert seek. induction fuel as [|fuel IH]; intros seek Hf Hs; [lia|]. cbn [seek_loop].
  assert (∀ k, find_dot seek = Some k → (k + 1)%nat ≠ length seek →
    label_suffix (drop (k + 1) seek) (strip_www d)) as Hnext.
  { intros k Hk Hne. assert (label_suffix (drop (k + 1) seek) seek) as Hd.
    { apply label_suffix_step. right. exists k. split; [done|split; [done|by left]]. }
    destruct Hd as [Hd|[Hn [p Hp]]].
    - apply find_dot_Some in Hk as (p & q & -> & <- & _).
      apply (f_equal length) in Hd. rewrite length_drop, length_app in Hd. simpl in Hd. lia.
    - right. split; [done|]. destruct Hs as [<-|[_ [z Hz]]]; [by exists p|].
      exists (z ++ "."%char :: p). rewrite Hz, Hp at 1. by rewrite <- app_assoc. }
  destruct (seek_hit ds d _ seek) eqn:Hhit; unfold seek_hit in Hhit.
  - destruct (ds !! seek) as [fl|] eqn:Hl; [|done].
    rewrite hit_domain_rule in Hhit by done. apply bool_decide_eq_true in Hhit. split.
    + exists seek, fl. split; [done|split; [|done]]. split; [by left|done].
    + intros s fl' _ [Hsuf _]. by apply label_suffix_length.
  - assert (∀ fl, ds !! seek = Some fl → ¬ domain_rule seek fl d) as Hno.
    { intros fl Hl. rewrite Hl, hit_domain_rule in Hhit by done. by apply bool_decide_eq_false in Hhit. }
    destruct (find_dot seek) as [k|] eqn:Hk.
    + destruct (Nat.eqb_spec (k + 1) (length seek)) as [He|He].
      * intros s fl Hl [[->|(k' & Hk' & Hne & _)]%label_suffix_step Hr]; [by eapply Hno|].
        by simplify_eq.
      * assert (k + 1 < length seek)%nat.
        { apply find_dot_Some in Hk as (p & q & -> & <- & _). rewrite length_app in *. simpl in *. lia. }
        specialize (IH (drop (k + 1) seek)). rewrite length_drop in IH.
        specialize (IH ltac:(lia) (Hnext _ eq_refl He)).
        destruct (seek_loop fuel ds d _ (drop (k + 1) seek)) as [n|].
        -- destruct IH as [(s & fl & Hl & [Hsuf Hr] & Hn) Hmax]. split.
           ++ exists s, fl. split; [done|split; [|done]]. split; [|done].
              apply label_suffix_step. right. by exists k.
           ++ intros s' fl' Hl' [[->|(k' & Hk' & Hne & Hs')]%label_suffix_step Hr'];
                [by exfalso; eapply Hno|]. simplify_eq. eauto.
        -- intros s fl Hl [[->|(k' & Hk' & Hne & Hs')]%label_suffix_step Hr]; [by eapply Hno|].
           simplify_eq. by eapply IH.
    + intros s fl Hl [[->|(k' & Hk' & _)]%label_suffix_step Hr]; [by eapply Hno|congruence].
Qed.

Lemma seek_domain_decides ds d :
  decides (λ s fl, domain_rule s fl (lower d)) ds (seek_domain ds d).
Proof.
  unfold seek_domain. cbv zeta.
  replace (if negb (starts_with (lower d) WWW_PREFIX) then _ else _) with (strip_www (lower d))
    by (unfold strip_www; by destruct (starts_with (lower d) WWW_PREFIX)).
  pose proof (seek_loop_decides ds (lower d) (strip_www (lower d))
    (S (length (strip_www (lower d)))) ltac:(lia) ltac:(by left)) as H.
  destruct (seek_loop _ _ _ _ _) as [n|].
  - destruct H as [(s & fl & Hl & [_ Hr] & Hn) Hmax]. split; [by exists s, fl|].
    intros s' fl' Hl' Hr'. eapply Hmax; [done|]. by split; [apply Hr'|].
  - intros s fl Hl Hr. eapply H; [done|]. by split; [apply Hr|].
Qed.

(** ** Entries of a text *)

(** The words of a text: what [buffer] holds, and the rest. *)
Fixpoint words_from (buffer text : str) : list str :=
  match text with
  | [] => if bool_decide (buffer = []) then [] else [buffer]
  | ch :: text =>
      if isspace ch
      then (if bool_decide (buffer = []) then [] else [buffer]) ++ words_from [] text
      else words_from (buffer ++ [ch]) text
  end.

Definition words (text : str) : list str := words_from [] text.

(** A word has no spaces in it. *)
Definition word (s : str) : Prop := Forall (λ c, isspace c = false) s.

Lemma words_from_word buffer text : word buffer → Forall word (words_from buffer text).
Proof.
  revert buffer. induction text as [|c text IH]; intros buffer Hb; simpl.
  - case_bool_decide; [constructor|by apply Forall_singleton].
  - destruct (isspace c) eqn:Hc.
    + apply Forall_app. split; [case_bool_decide; [constructor|by apply Forall_singleton]|].
      apply IH. constructor.
    + apply IH. apply Forall_app. split; [done|by apply Forall_singleton].
Qed.

Lemma words_from_app buffer s text :
  word s → words_from buffer (s ++ text) = words_from (buffer ++ s) text.
Proof.
  revert buffer. induction s as [|c s IH]; intros buffer Hs; simpl; [by rewrite app_nil_r|].
  apply Forall_cons in Hs as [-> Hs]. rewrite IH by done. by rewrite <- app_assoc.
Qed.

(** One text per line. *)
Definition lines (ts : list str) : str := concat ((λ s, s ++ [newline]) <$> ts).

Lemma lines_snoc ts s : lines (ts ++ [s]) = lines ts ++ s ++ [newline].
Proof. unfold lines. rewrite fmap_app, concat_app. simpl. by rewrite app_nil_r. Qed.

Lemma words_lines ts :
  Forall word ts → Forall (λ s, s ≠ []) ts → words (lines ts) = ts.
Proof.
  unfold words. induction ts as [|s ts IH]; [done|]. intros Hw Hn.
  apply Forall_cons in Hw as [Hs Hw]. apply Forall_cons in Hn as [Hsn Hn].
  unfold lines. simpl. rewrite <- app_assoc, words_from_app by done. cbn [app words_from].
  change (isspace newline) with true. cbv iota. rewrite bool_decide_eq_false_2 by done.
  cbn [app]. f_equal. by apply IH.
Qed.

(** The characters an entry is made of. *)
Definition weight (text : str) : nat := length (filter (λ c, isspace c = false) text).

Lemma weight_app s t : weight (s ++ t) = (weight s + weight t)%nat.
Proof. unfold weight. by rewrite filter_app, length_app. Qed.

Lemma weight_word s : word s → weight s = length s.
Proof.
  intros Hs. unfold weight. f_equal. induction s as [|c s IH]; [done|].
  apply Forall_cons in Hs as [Hc Hs]. rewrite filter_cons_True by done. by f_equal; apply IH.
Qed.

Lemma weight_words buffer text :
  word buffer →
  sum_list (length <$> words_from buffer text) = (length buffer + weight text)%nat.
Proof.
  revert buffer. induction text as [|c text IH]; intros buffer Hb; simpl.
  - unfold weight. simpl. case_bool_decide; subst; simpl; lia.
  - change (c :: text) with ([c] ++ text). rewrite weight_app. unfold weight at 1.
    destruct (isspace c) eqn:Hc.
    + rewrite filter_cons_False by congruence. rewrite fmap_app.
      assert (∀ l k, sum_list (l ++ k) = sum_list l + sum_list k)%nat as Happ.
      { intros l k. induction l; simpl; lia. }
      rewrite Happ, IH by constructor. simpl. case_bool_decide; subst; simpl; lia.
    + rewrite filter_cons_True by done. rewrite IH by (apply Forall_app; split; [done|by apply Forall_singleton]).
      rewrite length_app. simpl. lia.
Qed.

(** ** The policy *)

Section Policy.
Context {A R RS TC SC : Type}.
Context `{!SocketAddressOps A, !NetTextOps A R, !CidrRangeSetOps R RS}.
Context `{!LruTimeoutCacheOps (SockAddrTag A) str TC, !LruTimeoutCacheOps A Z SC}.
Context `{!NetTextLaws A R, !CidrRangeSetLaws A R RS}.
Context `{!LruTimeoutCacheLaws (SockAddrTag A) str TC, !LruTimeoutCacheLaws A Z SC}.

Notation filter := (DomainFilter A RS TC SC).
Notation entry := (ParseResult A R).
Notation new_filter := (new_filter (A := A) (R := R) (RS := RS) (TC := TC) (SC := SC)).
Notation Tables := (Tables (A := A) (RS := RS)).
Notation no_tables := (no_tables (A := A) (R := R) (RS := RS)).
Notation parse_entry := (parse_entry (A := A) (R := R)).
Notation add_entry := (add_entry (A := A) (R := R) (RS := RS)).
Notation read_entries := (read_entries (A := A) (R := R) (RS := RS)).

(** The rules of a text: the ordinary ones, and those marked with [c]. *)
Definition plain_texts (es : list str) : list str :=
  base.filter (λ e, marked e = false) es.

Definition marked_texts (c : ascii) (es : list str) : list str :=
  omap (λ e, match e with
             | c' :: text => if bool_decide (c' = c) then
                 if is_malformed (parse_entry text) then None else Some text
               else None
             | [] => None
             end) es.

Definition plain_rules (text : str) : list entry := parse_entry <$> plain_texts (words text).
Definition marked_rules (c : ascii) (text : str) : list entry :=
  parse_entry <$> marked_texts c (words text).

(** The lengths of the domain rules that are about [d]. *)
Definition domain_lengths (rs : list entry) (d : str) : list nat :=
  omap (λ r, match r with
             | EntryDomain key fl =>
                 if bool_decide (domain_rule key fl (lower d)) then Some (length key) else None
             | _ => None
             end) rs.

Definition longest (l : list nat) : option nat :=
  match l with [] => None | _ => Some (max_list l) end.

Definition address_rule (a : A) (r : entry) : bool :=
  match r with
  | EntryAddress b => bool_decide (b = a) || bool_decide (b = set_port 0 a)
  | EntryCidr r => covers r (addr a)
  | EntryPort p => bool_decide (p = port a)
  | _ => false
  end.

Definition is_domain (r : entry) : bool := match r with EntryDomain _ _ => true | _ => false end.

Definition address_match (rs : list entry) (a : A) : bool := existsb (address_rule a) rs.
Definition domain_match (rs : list entry) (d : str) : bool :=
  match longest (domain_lengths rs d) with Some _ => true | None => false end.

(** The user's own entries: the more specific one wins, a default-route entry
    in case of a tie. *)
Definition policy_explicit (text d : str) : option DomainFilterMatchStatus :=
  match longest (domain_lengths (marked_rules "+" text) d),
        longest (domain_lengths (marked_rules "^" text) d) with
  | None, None => None
  | None, Some _ => Some DFMS_DEFAULT_OVERRIDE
  | Some _, None => Some DFMS_EXCLUSION
  | Some n, Some k => Some (if (n <=? k)%nat then DFMS_DEFAULT_OVERRIDE else DFMS_EXCLUSION)
  end.

(** A connection whose domain is known: the user's entries, then the
    default-route entries of groups, then the ordinary ones. *)
Definition policy_domain (text d : str) : DomainFilterMatchStatus :=
  match policy_explicit text d with
  | Some s => s
  | None =>
      if domain_match (marked_rules "!" text) d then DFMS_DEFAULT_OVERRIDE
      else if domain_match (plain_rules text) d then DFMS_EXCLUSION
      else DFMS_DEFAULT
  end.

(** A connection known by its address, with the domain the address was last
    resolved for, if any. *)
Definition policy_address (text : str) (known : option str) (suspected : bool) (a : A) :
    DomainFilterMatchStatus :=
  match d ← known; policy_explicit text d with
  | Some s => s
  | None =>
      if address_match (marked_rules "^" text) a then DFMS_DEFAULT_OVERRIDE
      else if address_match (marked_rules "+" text) a then
        if bool_decide (known = None) && existsb is_domain (marked_rules "^" text)
        then DFMS_SUSPECT_EXCLUSION else DFMS_EXCLUSION
      else if match known with Some d => domain_match (marked_rules "!" text) d | None => false end
              || address_match (marked_rules "!" text) a
      then DFMS_DEFAULT_OVERRIDE
      else if address_match (plain_rules text) a then
        if bool_decide (known = None)
           && (existsb is_domain (marked_rules "!" text) || existsb is_domain (marked_rules "^" text))
        then DFMS_SUSPECT_EXCLUSION else DFMS_EXCLUSION
      else match known with
           | Some d => policy_domain text d
           | None => if suspected then DFMS_SUSPECT_EXCLUSION else DFMS_DEFAULT
           end
  end.

(** ** Reading the text *)

Lemma read_entries_words buffer text t :
  read_entries buffer text t = foldl add_entry t (words_from buffer text).
Proof.
  revert buffer t. induction text as [|c text IH]; intros buffer t; simpl.
  - by case_bool_decide.
  - destruct (isspace c); simpl; [|done]. rewrite foldl_app. case_bool_decide; simpl; by rewrite IH.
Qed.

(** Without the laws of the library: the texts of the nested filters are made
    of fewer characters than the text they come from. *)
Lemma add_entry_weight e t :
  word e →
  (weight (overrides (add_entry t e)) + weight (explicit_exclusions (add_entry t e))
   + weight (explicit_defaults (add_entry t e)) + (if marked e then 1 else 0)
   ≤ weight (overrides t) + weight (explicit_exclusions t) + weight (explicit_defaults t)
     + length e + (if bool_decide (e = []) then 1 else 0))%nat.
Proof.
  intros He. destruct e as [|c text]; destruct t as [ds as_ ps rs ov ex df]; unfold DomainFilter.add_entry.
  - simpl. destruct (DomainFilter.parse_entry []); simpl; lia.
  - rewrite bool_decide_eq_false_2 by done. cbn [marked]. destruct (is_directive c).
    + destruct (is_malformed _); [simpl; lia|]. apply Forall_cons in He as [_ He].
      assert (∀ s, weight (s ++ text ++ [newline]) = weight s + length text)%nat as Hl.
      { intros s. rewrite !weight_app, (weight_word text) by done. change (weight [newline]) with 0%nat. lia. }
      unfold add_directive. repeat case_bool_decide; cbn [overrides explicit_exclusions explicit_defaults];
        rewrite Hl; simpl; lia.
    + destruct (DomainFilter.parse_entry (c :: text)); simpl; lia.
Qed.

Lemma foldl_add_entry_weight es t :
  Forall word es → Forall (λ e, e ≠ []) es →
  let t' := foldl add_entry t es in
  (weight (overrides t') + weight (explicit_exclusions t') + weight (explicit_defaults t')
   + length (base.filter (λ e, marked e = true) es)
   ≤ weight (overrides t) + weight (explicit_exclusions t) + weight (explicit_defaults t)
     + sum_list (length <$> es))%nat.
Proof.
  cbv zeta. revert t. induction es as [|e es IH]; intros t Hw Hn; [simpl; lia|].
  apply Forall_cons in Hw as [He Hw]. apply Forall_cons in Hn as [Hen Hn].
  specialize (IH (add_entry t e) Hw Hn). pose proof (add_entry_weight e t He) as H.
  rewrite bool_decide_eq_false_2 in H by done. rewrite fmap_cons, filter_cons.
  cbn [foldl].
  change (sum_list (length e :: (length <$> es))) with (length e + sum_list (length <$> es))%nat.
  destruct (marked e) eqn:Hm;
    rewrite ?decide_True, ?decide_False by done; cbn [length]; lia.
Qed.

Lemma words_from_nonempty buffer text : Forall (λ e, e ≠ []) (words_from buffer text).
Proof.
  revert buffer. induction text as [|c text IH]; intros buffer; simpl.
  - case_bool_decide; [constructor|by apply Forall_singleton].
  - destruct (isspace c); [|done]. apply Forall_app. split; [|done].
    case_bool_decide; [constructor|by apply Forall_singleton].
Qed.

Notation update_depth := (update_depth (A := A) (R := R) (RS := RS) (TC := TC) (SC := SC)).
Notation update_exclusions := (update_exclusions (A := A) (R := R) (RS := RS) (TC := TC) (SC := SC)).

(** The nested texts of [text]. *)
Lemma nested_weight text :
  let t := read_entries [] text no_tables in
  overrides t ≠ [] ∨ explicit_exclusions t ≠ [] ∨ explicit_defaults t ≠ [] →
  (weight (overrides t) + weight (explicit_exclusions t) + weight (explicit_defaults t)
   < weight text)%nat.
Proof.
  cbv zeta. rewrite read_entries_words. intros Hne.
  pose proof (foldl_add_entry_weight (words_from [] text) no_tables
    (words_from_word [] text ltac:(constructor)) (words_from_nonempty [] text)) as H.
  cbv zeta in H. rewrite weight_words in H by constructor. cbn [length Nat.add] in H.
  enough (0 < length (base.filter (λ e, marked e = true) (words_from [] text)))%nat
    by (change (weight (overrides no_tables)) with 0%nat in H;
        change (weight (explicit_exclusions no_tables)) with 0%nat in H;
        change (weight (explicit_defaults no_tables)) with 0%nat in H; lia).
  clear H. revert Hne. generalize (words_from_nonempty [] text). generalize (words_from [] text).
  intros es Hes Hne. apply Nat.neq_0_lt_0. intros H0%length_zero_iff_nil.
  assert (∀ t, overrides t = [] → explicit_exclusions t = [] → explicit_defaults t = [] →
    let t' := foldl add_entry t es in
    overrides t' = [] ∧ explicit_exclusions t' = [] ∧ explicit_defaults t' = []) as Hall.
  { clear Hne. induction es as [|e es IH]; [done|]. intros t H1 H2 H3. cbv zeta. cbn [foldl].
    rewrite filter_cons in H0. destruct (decide (marked e = true)) as [|Hm]; [done|].
    apply Forall_cons in Hes as [He Hes]. destruct e as [|c s]; [done|].
    unfold DomainFilter.add_entry at 2 4 6. cbn [marked] in Hm. destruct (is_directive c); [done|].
    apply IH; [done|done|..]; destruct t, (DomainFilter.parse_entry (c :: s)); done. }
  destruct (Hall no_tables) as (? & ? & ?); [done..|]. naive_solver.
Qed.

Lemma update_depth_total depth mode text f :
  (weight text < depth)%nat → ∃ f', update_depth depth mode text f = Some f'.
Proof.
  revert text f. induction depth as [|depth IH]; intros text f Hd; [lia|]. cbn [DomainFilter.update_depth].
  pose proof (nested_weight text) as Hw. cbv zeta in Hw.
  set (t := DomainFilter.read_entries [] text _) in *.
  assert (∀ s, s = overrides t ∨ s = explicit_exclusions t ∨ s = explicit_defaults t →
    ∃ o, (if bool_decide (s = []) then Some None
          else Some <$> update_depth depth mode s new_filter) = Some o) as Hn.
  { intros s Hs. case_bool_decide as Hse; [by eexists|].
    destruct (IH s new_filter) as [g ->]; [|by eexists].
    assert (weight (overrides t) + weight (explicit_exclusions t) + weight (explicit_defaults t)
      < weight text)%nat by (apply Hw; naive_solver).
    destruct Hs as [->|[->| ->]]; lia. }
  destruct (Hn (overrides t)) as [ov ->]; [by auto|].
  destruct (Hn (explicit_exclusions t)) as [ex ->]; [by auto|].
  destruct (Hn (explicit_defaults t)) as [df ->]; [by auto|]. by eexists.
Qed.

(** Claim C29. [update_exclusions] terminates on every text, whatever the
    library takes for an address: the nested filters it builds come from texts
    with fewer characters, so its recursion is at most as deep as the text is
    long. *)
Theorem update_exclusions_total mode text (f : filter) :
  ∃ f', update_exclusions mode text f = Some f'.
Proof.
  apply update_depth_total. unfold weight.
  pose proof (length_filter (λ c, isspace c = false) text). lia.
Qed.

(** ** What the tables hold *)

Lemma parse_domain_marked s : marked s = true → parse_domain (A := A) (R := R) s = EntryMalformed.
Proof.
  destruct s as [|c s]; [done|]. intros Hc. unfold parse_domain.
  assert (∃ c', tolower c = c' ∧ isalnum c' = false ∧ c' ≠ "-"%char ∧ c' ≠ "_"%char ∧
    c' ≠ "."%char ∧ c' ≠ "*"%char) as (c' & Hc' & Ha & H1 & H2 & H3 & H4).
  { exists (tolower c). split; [done|]. unfold marked, is_directive in Hc.
    apply orb_true_iff in Hc as [[Hc|Hc]%orb_true_iff|Hc]; apply bool_decide_eq_true in Hc as ->;
      repeat split; by vm_compute. }
  unfold lower. rewrite fmap_cons, Hc'.
  assert (starts_with (c' :: (tolower <$> s)) WILDCARD_PREFIX = false) as ->.
  { apply bool_decide_eq_false. change WILDCARD_PREFIX with ["*"%char; "."%char].
    simpl. intros Heq. by simplify_eq. }
  cbv zeta. rewrite bool_decide_eq_false_2 by done. cbn [valid_domain].
  by rewrite Ha, (bool_decide_eq_false_2 _ H1), (bool_decide_eq_false_2 _ H2),
    (bool_decide_eq_false_2 _ H3).
Qed.

Lemma parse_entry_marked s : marked s = true → parse_entry s = EntryMalformed.
Proof.
  intros Hm. unfold DomainFilter.parse_entry.
  assert (parse_address (A := A) (R := R) s = None) as ->.
  { unfold parse_address. destruct (split_host_port s) as [[h p]|] eqn:Hs; [|done].
    destruct (split_marked s h p Hm Hs) as (Hstar & Hh & Hhp).
    rewrite Hhp. destruct (to_integer p); [|done]. repeat case_match; try done.
    - by apply bool_decide_eq_true in H1.
    - by rewrite Hh. }
  rewrite parse_cidr_marked by done. by apply parse_domain_marked.
Qed.

(** The rules of each kind. *)
Definition domains_of (rs : list entry) : list (str * MatchFlagsSet) :=
  omap (λ r, match r with EntryDomain key fl => Some (key, fl) | _ => None end) rs.
Definition addresses_of (rs : list entry) : list A :=
  omap (λ r, match r with EntryAddress a => Some a | _ => None end) rs.
Definition ports_of (rs : list entry) : list Z :=
  omap (λ r, match r with EntryPort p => Some p | _ => None end) rs.
Definition ranges_of (rs : list entry) : list R :=
  omap (λ r, match r with EntryCidr r => Some r | _ => None end) rs.

(** The table of domains has one entry per name, with the flags of all rules
    for it. *)
Record holds_domains (l : list (str * MatchFlagsSet)) (ds : gmap str MatchFlagsSet) : Prop := {
  holds_key key : is_Some (ds !! key) ↔ ∃ fl, (key, fl) ∈ l;
  holds_exact key fl : ds !! key = Some fl →
    (dfmm_exact fl = true ↔ ∃ fl', (key, fl') ∈ l ∧ dfmm_exact fl' = true);
  holds_subdomains key fl : ds !! key = Some fl →
    (dfmm_subdomains fl = true ↔ ∃ fl', (key, fl') ∈ l ∧ dfmm_subdomains fl' = true);
}.

(** The tables hold exactly the rules [rs]. *)
Record holds (rs : list entry) (ds : gmap str MatchFlagsSet) (as_ : gset A) (ps : gset Z) (rg : RS) :
    Prop := mkHolds {
  hold_domains : holds_domains (domains_of rs) ds;
  hold_addresses a : a ∈ as_ ↔ a ∈ addresses_of rs;
  hold_ports p : p ∈ ps ↔ p ∈ ports_of rs;
  hold_ranges bs : ranges_includes rg (host_range bs (Z.of_nat (length bs) * 8))
    = existsb (λ r, covers r bs) (ranges_of rs);
}.

Lemma holds_nil : holds [] ∅ ∅ ∅ ranges_empty.
Proof.
  split; [split|..]; simpl; intros; rewrite ?lookup_empty, ?includes_empty in *; try done.
  - split; [done|intros [fl Hfl]; by apply not_elem_of_nil in Hfl].
  - set_solver.
  - set_solver.
Qed.

Lemma flag_insert (flag : MatchFlagsSet → bool) (l : list (str * MatchFlagsSet))
    (ds : gmap str MatchFlagsSet) key key' flags fl :
  (∀ a b, flag (flags_or a b) = flag a || flag b) → flag no_flags = false →
  (∀ key fl, ds !! key = Some fl →
    (flag fl = true ↔ ∃ fl', (key, fl') ∈ l ∧ flag fl' = true)) →
  (∀ key, is_Some (ds !! key) ↔ ∃ fl, (key, fl) ∈ l) →
  <[key := flags_or (default no_flags (ds !! key)) flags]> ds !! key' = Some fl →
  (flag fl = true ↔ ∃ fl', (key', fl') ∈ l ++ [(key, flags)] ∧ flag fl' = true).
Proof.
  intros Hor Hno Hfl Hkey Hl. setoid_rewrite elem_of_app. setoid_rewrite list_elem_of_singleton.
  apply lookup_insert_Some in Hl as [[<- <-]|[Hne Hl]].
  - rewrite Hor, orb_true_iff. destruct (ds !! key) as [fl|] eqn:Hk; cbn [default].
    + rewrite (Hfl _ _ Hk). split; [|naive_solver].
      intros [(fl' & ? & ?)|?]; [exists fl'; auto|exists flags; auto].
    + assert (∀ fl, (key, fl) ∉ l) as Hn.
      { intros fl Hin. destruct (proj2 (Hkey key)) as [? ?]; [by exists fl|congruence]. }
      rewrite Hno. split; [intros [?|?]; [done|exists flags; auto]|].
      intros (fl' & [?|?] & ?); [by edestruct Hn|naive_solver].
  - rewrite (Hfl _ _ Hl). split; [|naive_solver]. intros (fl' & ? & ?). exists fl'. auto.
Qed.

Lemma holds_domains_insert l ds key flags :
  holds_domains l ds →
  holds_domains (l ++ [(key, flags)]) (<[key := flags_or (default no_flags (ds !! key)) flags]> ds).
Proof.
  intros [Hk He Hs]. split.
  - intros key'. rewrite lookup_insert_is_Some, Hk. setoid_rewrite elem_of_app.
    setoid_rewrite list_elem_of_singleton. split.
    + intros [->|[_ [fl ?]]]; [by exists flags; auto|by exists fl; auto].
    + intros [fl [?|?]]; [|left; by simplify_eq].
      destruct (decide (key = key')); [by left|right; eauto].
  - intros key' fl. by apply flag_insert.
  - intros key' fl. by apply flag_insert.
Qed.

(** Adding one entry. *)
Lemma holds_add rs r (t : Tables) :
  holds rs (tb_domains t) (tb_addresses t) (tb_ports_only t) (tb_cidr_ranges t) →
  let t' := add_plain r t in
  holds (rs ++ [r]) (tb_domains t') (tb_addresses t') (tb_ports_only t') (tb_cidr_ranges t') ∧
  overrides t' = overrides t ∧ explicit_exclusions t' = explicit_exclusions t ∧
  explicit_defaults t' = explicit_defaults t.
Proof.
  destruct t as [ds as_ ps rg ov ex df]. cbn [tb_domains tb_addresses tb_ports_only tb_cidr_ranges].
  intros [Hd Ha Hp Hr]. cbv zeta.
  destruct r as [a|r|key flags|p|]; cbn [add_plain tb_domains tb_addresses tb_ports_only tb_cidr_ranges
    overrides explicit_exclusions explicit_defaults]; (split; [|done]); split;
    unfold domains_of, addresses_of, ports_of, ranges_of in *;
    rewrite omap_app; cbn [omap list_omap]; rewrite ?app_nil_r; try done.
  - intros b. rewrite elem_of_union, elem_of_app, elem_of_singleton, list_elem_of_singleton, Ha. tauto.
  - intros bs. rewrite includes_insert, Hr, existsb_app. simpl. rewrite orb_false_r. apply orb_comm.
  - by apply holds_domains_insert.
  - intros q. rewrite elem_of_union, elem_of_app, elem_of_singleton, list_elem_of_singleton, Hp. tauto.
Qed.

(** All entries. *)
Record reads (es : list str) (t : Tables) : Prop := mkReads {
  reads_tables : holds (parse_entry <$> plain_texts es)
    (tb_domains t) (tb_addresses t) (tb_ports_only t) (tb_cidr_ranges t);
  reads_overrides : overrides t = lines (marked_texts "!" es);
  reads_exclusions : explicit_exclusions t = lines (marked_texts "+" es);
  reads_defaults : explicit_defaults t = lines (marked_texts "^" es);
}.

Lemma marked_texts_snoc c es e :
  marked_texts c (es ++ [e]) = marked_texts c es ++ marked_texts c [e].
Proof. unfold marked_texts. by rewrite omap_app. Qed.

Lemma reads_add es e t : reads es t → reads (es ++ [e]) (add_entry t e).
Proof.
  intros [Ht Ho He Hd].
  assert (∀ r, marked e = false → r = parse_entry e →
    reads (es ++ [e]) (add_plain r t)) as Hplain.
  { intros r Hm ->. destruct (holds_add _ (parse_entry e) t Ht) as (Ht' & Ho' & He' & Hd').
    assert (∀ c, is_directive c = true → marked_texts c [e] = []) as Hnil.
    { intros c Hc. destruct e as [|c' s]; [done|]. unfold marked_texts. simpl. simpl in Hm.
      rewrite bool_decide_eq_false_2 by congruence. done. }
    split; rewrite ?marked_texts_snoc, ?Hnil, ?app_nil_r by done; try congruence.
    unfold plain_texts. rewrite filter_app, filter_cons_True by done.
    by rewrite filter_nil, fmap_app. }
  destruct e as [|c text]; unfold DomainFilter.add_entry.
  - rewrite parse_entry_marked by done. destruct t. split; simpl in *;
      rewrite ?marked_texts_snoc; unfold plain_texts in *; rewrite ?filter_app, ?app_nil_r; try done.
  - destruct (is_directive c) eqn:Hc; [|by apply Hplain].
    assert (plain_texts (es ++ [c :: text]) = plain_texts es) as Hpl.
    { unfold plain_texts. rewrite filter_app, filter_cons_False, filter_nil, app_nil_r; [done|].
      simpl. by rewrite Hc. }
    assert (∀ c', marked_texts c' [c :: text] = if bool_decide (c = c') then
      if is_malformed (parse_entry text) then [] else [text] else []) as Hm.
    { intros c'. unfold marked_texts. cbn [omap list_omap]. case_bool_decide; [|done].
      by destruct (is_malformed _). }
    destruct (is_malformed (parse_entry text)) eqn:Hmal.
    + split; rewrite ?Hpl, ?marked_texts_snoc, ?Hm, ?Hmal; [done|..];
        case_bool_decide; rewrite app_nil_r; done.
    + unfold is_directive in Hc. destruct t as [ds as_ ps rg ov ex df]. unfold add_directive.
      split; rewrite ?Hpl, ?marked_texts_snoc, ?Hm, ?Hmal;
        repeat case_bool_decide; subst; rewrite ?lines_snoc, ?app_nil_r; simpl in *; by subst || done.
Qed.

Lemma reads_words text : reads (words text) (read_entries [] text no_tables).
Proof.
  rewrite read_entries_words. fold (words text). induction (words text) as [|e es IH] using rev_ind.
  - split; [apply holds_nil|done..].
  - rewrite foldl_snoc. by apply reads_add.
Qed.

(** ** The filter of a text *)

Definition filter_holds (rs : list entry) (f : filter) : Prop :=
  holds rs (m_domains f) (m_addresses f) (m_ports_only f) (m_cidr_ranges f).

(** A nested filter holds the rules of its kind, has no filters of its own and
    nothing in its caches. *)
Definition nested_holds (rs : list entry) (o : option filter) : Prop :=
  match o with
  | None => rs = []
  | Some g => filter_holds rs g ∧ m_default_overrides g = None ∧ m_explicit_exclusions g = None ∧
      m_explicit_defaults g = None ∧ m_resolved_tags g = cache_new ∧
      m_exclusion_suspects g = cache_clear cache_new
  end.

Lemma marked_texts_plain c es :
  is_directive c = true → Forall word es →
  let ts := marked_texts c es in
  words (lines ts) = ts ∧ plain_texts ts = ts ∧ ∀ c', is_directive c' = true → marked_texts c' ts = [].
Proof.
  intros Hc Hes. cbv zeta.
  assert (Forall (λ s, word s ∧ marked s = false) (marked_texts c es)) as Hall.
  { apply Forall_forall. intros s (e & He & Hs)%list_elem_of_omap. destruct e as [|c' e]; [done|].
    case_bool_decide; [|done]. destruct (is_malformed (parse_entry e)) eqn:Hm; [done|].
    injection Hs as <-. split.
    - rewrite Forall_forall in Hes. apply Hes in He. by apply Forall_cons in He as [_ He].
    - destruct (marked e) eqn:Hme; [|done]. by rewrite parse_entry_marked in Hm. }
  revert Hall. generalize (marked_texts c es). clear. intros ts Hall. split_and!.
  - apply words_lines; (eapply Forall_impl; [exact Hall|]); simpl; [tauto|].
    by intros s [_ Hm] ->.
  - unfold plain_texts. induction Hall as [|s ts [_ Hs] _ IH]; [done|].
    rewrite filter_cons_True by done. by f_equal.
  - intros c' Hc'. unfold marked_texts. induction Hall as [|s ts [_ Hs] _ IH]; [done|].
    cbn [omap list_omap]. destruct s as [|c s]; [done|]. rewrite bool_decide_eq_false_2; [done|].
    intros ->. simpl in Hs. congruence.
Qed.

Lemma update_nested depth mode c es :
  is_directive c = true → Forall word es → (0 < depth)%nat →
  ∃ o, (if bool_decide (lines (marked_texts c es) = []) then Some None
        else Some <$> update_depth depth mode (lines (marked_texts c es)) new_filter) = Some o ∧
    nested_holds (parse_entry <$> marked_texts c es) o.
Proof.
  intros Hc Hes Hd. destruct (marked_texts_plain c es Hc Hes) as (Hw & Hp & Hm).
  case_bool_decide as He.
  - exists None. split; [done|]. rewrite He in Hw. simpl. by rewrite <- Hw.
  - destruct depth as [|depth]; [lia|]. cbn [DomainFilter.update_depth].
    destruct (reads_words (lines (marked_texts c es))) as [Ht Ho Hx Hf].
    rewrite Hw, Hp in Ht. rewrite Hw, Hm in Ho, Hx, Hf by done. rewrite Ho, Hx, Hf.
    eexists. split; [done|]. by split.
Qed.

(** The filter was set up from [text]. *)
Record configured (mode : VpnMode) (text : str) (f : filter) : Prop := mkConfigured {
  conf_mode : get_mode f = mode;
  conf_plain : filter_holds (plain_rules text) f;
  conf_overrides : nested_holds (marked_rules "!" text) (m_default_overrides f);
  conf_exclusions : nested_holds (marked_rules "+" text) (m_explicit_exclusions f);
  conf_defaults : nested_holds (marked_rules "^" text) (m_explicit_defaults f);
}.

Lemma update_exclusions_configured mode text f f' :
  update_exclusions mode text f = Some f' → configured mode text f'.
Proof.
  unfold DomainFilter.update_exclusions. cbn [DomainFilter.update_depth].
  destruct (reads_words text) as [Ht Ho Hx Hf].
  assert (Forall word (words text)) as Hw by (apply words_from_word; constructor).
  assert (∀ c o, is_directive c = true →
    (if bool_decide (lines (marked_texts c (words text)) = []) then Some None
     else Some <$> update_depth (length text) mode (lines (marked_texts c (words text))) new_filter)
    = Some o → nested_holds (marked_rules c text) o) as Hn.
  { intros c o Hc Ho'. destruct (decide (length text = 0%nat)) as [H0|H0].
    - apply length_zero_iff_nil in H0 as ->. simpl in Ho'. by simplify_eq.
    - destruct (update_nested (length text) mode c (words text) Hc Hw ltac:(lia)) as (o' & Ho'' & ?).
      assert (o = o') as -> by congruence. done. }
  rewrite Ho, Hx, Hf. intros H.
  apply bind_Some in H as (ov & Hov & H). apply bind_Some in H as (ex & Hex & H).
  apply bind_Some in H as (df & Hdf & [= <-]). split; [done|done|by apply Hn..].
Qed.

(** What can happen to a filter from one update to the next. *)
Inductive filter_run (mode : VpnMode) (text : str) : filter → Prop :=
| run_update f f' : update_exclusions mode text f = Some f' → filter_run mode text f'
| run_resolved now tag d f :
    filter_run mode text f → filter_run mode text (add_resolved_tag now tag d f)
| run_suspect now a ttl f :
    filter_run mode text f → filter_run mode text (add_exclusion_suspect now a ttl f).

Lemma filter_run_configured mode text f : filter_run mode text f → configured mode text f.
Proof.
  induction 1 as [f f' H|now tag d f _ IH|now a ttl f _ IH];
    [by eapply update_exclusions_configured|..]; destruct f; destruct IH; by split.
Qed.

(** ** Matching *)

Notation matched_domain_length := (matched_domain_length (A := A) (RS := RS) (TC := TC) (SC := SC)).
Notation match_explicit_domain := (match_explicit_domain (A := A) (RS := RS) (TC := TC) (SC := SC)).
Notation match_domain := (match_domain (A := A) (RS := RS) (TC := TC) (SC := SC)).
Notation match_tag := (match_tag (A := A) (R := R) (RS := RS) (TC := TC) (SC := SC)).

Lemma longest_spec l n : longest l = Some n ↔ n ∈ l ∧ ∀ m, m ∈ l → (m ≤ n)%nat.
Proof.
  assert (∀ m, m ∈ l → (m ≤ max_list l)%nat) as Hle.
  { intros m. induction l as [|x l IH]; [by intros ?%not_elem_of_nil|].
    rewrite elem_of_cons. intros [->|Hm]; simpl; [lia|]. specialize (IH Hm). lia. }
  assert (l ≠ [] → max_list l ∈ l) as Hin.
  { clear. induction l as [|x l IH]; [done|]. intros _. simpl. destruct l as [|y l].
    - simpl. rewrite Nat.max_0_r. by apply list_elem_of_singleton.
    - specialize (IH ltac:(done)). destruct (Nat.max_dec x (max_list (y :: l))) as [-> | ->];
        rewrite elem_of_cons; auto. }
  unfold longest. destruct l as [|x l].
  - split; [done|intros [Hn _]; by apply not_elem_of_nil in Hn].
  - split; [intros [= <-]; auto|]. intros [Hn Hm]. f_equal. apply Nat.le_antisymm; auto.
Qed.

Lemma elem_of_domain_lengths rs d n :
  n ∈ domain_lengths rs d ↔
  ∃ key fl, (key, fl) ∈ domains_of rs ∧ domain_rule key fl (lower d) ∧ length key = n.
Proof.
  unfold domain_lengths, domains_of. rewrite list_elem_of_omap. split.
  - intros (r & Hr & Hn). destruct r; try done. case_bool_decide; [|done]. injection Hn as <-.
    exists text, flags. split; [|done]. apply list_elem_of_omap. eauto.
  - intros (key & fl & (r & Hr & Hk)%list_elem_of_omap & Hrule & <-). destruct r; simplify_eq.
    eexists. split; [done|]. simpl. by rewrite bool_decide_eq_true_2.
Qed.

(** A name of the table is about a domain exactly when one of its rules is. *)
Lemma holds_domain_rule l ds key d :
  holds_domains l ds →
  (∃ fl, ds !! key = Some fl ∧ domain_rule key fl d) ↔ ∃ fl, (key, fl) ∈ l ∧ domain_rule key fl d.
Proof.
  intros [Hk He Hs]. unfold domain_rule. split.
  - intros (fl & Hl & Hsuf & [[Hx ->]|[Hx Hne]]).
    + apply (He _ _ Hl) in Hx as (fl' & ? & ?). exists fl'. auto.
    + apply (Hs _ _ Hl) in Hx as (fl' & ? & ?). exists fl'. auto.
  - intros (fl & Hin & Hsuf & Hx). destruct (proj2 (Hk key)) as [fl' Hl]; [by exists fl|].
    exists fl'. split; [done|split; [done|]]. rewrite (He _ _ Hl), (Hs _ _ Hl). naive_solver.
Qed.

Lemma matched_domain_length_longest rs f d :
  filter_holds rs f → matched_domain_length f d = longest (domain_lengths rs d).
Proof.
  intros [Hd _ _ _]. unfold DomainFilter.matched_domain_length.
  pose proof (seek_domain_decides (m_domains f) d) as Hs.
  assert (∀ n, n ∈ domain_lengths rs d ↔
    ∃ key fl, m_domains f !! key = Some fl ∧ domain_rule key fl (lower d) ∧ length key = n) as Hn.
  { intros n. rewrite elem_of_domain_lengths. split.
    - intros (key & fl & Hin & Hr & Hl). exists key.
      destruct (proj2 (holds_domain_rule _ _ key (lower d) Hd)) as (fl' & ? & ?); eauto.
    - intros (key & fl & Hin & Hr & Hl). exists key.
      destruct (proj1 (holds_domain_rule _ _ key (lower d) Hd)) as (fl' & ? & ?); eauto. }
  destruct (seek_domain (m_domains f) d) as [n|].
  - symmetry. apply longest_spec. destruct Hs as [(s & fl & ? & ? & ?) Hmax]. split.
    + apply Hn. by exists s, fl.
    + intros m (key & fl' & ? & ? & <-)%Hn. eauto.
  - destruct (domain_lengths rs d) as [|n l]; [done|]. exfalso.
    destruct (proj1 (Hn n)) as (key & fl & ? & ? & _); [left|]. by eapply Hs.
Qed.

Lemma nested_matched rs o d :
  nested_holds rs o → (g ← o; matched_domain_length g d) = longest (domain_lengths rs d).
Proof.
  destruct o as [g|]; simpl; [|by intros ->]. intros [Hg _]. by apply matched_domain_length_longest.
Qed.

Lemma match_explicit_policy mode text f d :
  configured mode text f → match_explicit_domain f d = policy_explicit text d.
Proof.
  intros [_ _ _ Hx Hf].
  unfold DomainFilter.match_explicit_domain, policy_explicit.
  by rewrite (nested_matched _ _ _ Hx), (nested_matched _ _ _ Hf).
Qed.

Lemma match_domain_nested rs g d :
  nested_holds rs (Some g) → is_exclusion (match_domain g d) = domain_match rs d.
Proof.
  intros (Hg & Ho & Hx & Hf & _).
  destruct g as [mo ds as_ ps rg ov ex df re su]. cbn [m_default_overrides m_explicit_exclusions
    m_explicit_defaults] in *. subst.
  cbn [DomainFilter.match_domain DomainFilter.match_explicit_domain m_explicit_exclusions
    m_explicit_defaults mbind option_bind].
  rewrite (matched_domain_length_longest _ _ _ Hg). unfold domain_match.
  by destruct (longest _).
Qed.

Lemma match_domain_unfold f d :
  match_domain f d =
    match match_explicit_domain f d with
    | Some s => s
    | None =>
        if match m_default_overrides f with
           | Some g => is_exclusion (match_domain g d)
           | None => false
           end
        then DFMS_DEFAULT_OVERRIDE
        else match matched_domain_length f d with Some _ => DFMS_EXCLUSION | None => DFMS_DEFAULT end
    end.
Proof. by destruct f. Qed.

Lemma nested_domain_match rs o d :
  nested_holds rs o →
  match o with Some g => is_exclusion (match_domain g d) | None => false end = domain_match rs d.
Proof. destruct o as [g|]; [by apply match_domain_nested|by intros ->]. Qed.

Lemma match_domain_policy_eq mode text f d :
  configured mode text f → match_domain f d = policy_domain text d.
Proof.
  intros Hu. pose proof Hu as [_ Hp Ho _ _].
  rewrite match_domain_unfold, (match_explicit_policy _ _ _ _ Hu).
  rewrite (nested_domain_match _ _ _ Ho), (matched_domain_length_longest _ _ _ Hp).
  unfold policy_domain, domain_match. by repeat case_match.
Qed.

Lemma address_found_match rs f a :
  filter_holds rs f → address_found (R := R) f a = address_match rs a.
Proof.
  intros [_ Ha Hp Hr]. apply eq_true_iff_eq. unfold address_found, address_match.
  rewrite !orb_true_iff, !bool_decide_eq_true, Hr, !existsb_exists, !Ha, Hp.
  setoid_rewrite <- list_elem_of_In. unfold addresses_of, ports_of, ranges_of.
  rewrite !list_elem_of_omap. setoid_rewrite list_elem_of_omap. split.
  - intros [[[(r & Hin & Hx)|(r & Hin & Hx)]|(x & (r & Hin & Hx) & Hc)]|(r & Hin & Hx)];
      exists r; (split; [done|]); destruct r; simplify_eq/=; try done.
    + by rewrite bool_decide_eq_true_2.
    + rewrite orb_true_iff. right. by rewrite bool_decide_eq_true_2.
    + by rewrite bool_decide_eq_true_2.
  - intros (r & Hin & Hx). destruct r as [b|r|key fl|p|]; simpl in Hx; try done.
    + apply orb_true_iff in Hx as [Hx|Hx]; apply bool_decide_eq_true in Hx as ->;
        left; left; [left|right]; eauto.
    + left. right. exists r. split; [|done]. eauto.
    + apply bool_decide_eq_true in Hx as ->. right. eauto.
Qed.

Lemma nested_has_domains rs o : nested_holds rs o → has_domains o = existsb is_domain rs.
Proof.
  destruct o as [g|]; simpl; [|by intros ->]. intros ([[Hk _ _] _ _ _] & _).
  apply eq_true_iff_eq. rewrite negb_true_iff, bool_decide_eq_false, existsb_exists.
  setoid_rewrite <- list_elem_of_In. unfold domains_of in Hk. split.
  - intros Hne. apply map_choose in Hne as (key & fl & Hl).
    destruct (proj1 (Hk key)) as (fl' & (r & Hin & Hr)%list_elem_of_omap); [by exists fl|].
    exists r. split; [done|]. by destruct r.
  - intros (r & Hin & Hr) He. destruct r as [| |key fl| |]; try done.
    destruct (proj2 (Hk key)) as [fl' Hl]; [|by rewrite He, lookup_empty in Hl].
    exists fl. apply list_elem_of_omap. eauto.
Qed.

Lemma match_tag_nested rs o now tag :
  nested_holds rs o →
  match o with Some g => is_exclusion (status (match_tag now g tag)) | None => false end
  = address_match rs (tag_addr tag).
Proof.
  destruct o as [g|]; [|by intros ->]. intros (Hg & Ho & Hx & Hf & Hr & Hs).
  rewrite <- (address_found_match _ _ (tag_addr tag) Hg).
  destruct g as [mo ds as_ ps rg ov ex df re su]. cbn [m_default_overrides m_explicit_exclusions
    m_explicit_defaults m_resolved_tags m_exclusion_suspects] in *. subst.
  cbn [DomainFilter.match_tag m_resolved_tags m_default_overrides m_explicit_defaults
    m_exclusion_suspects]. rewrite cache_get_new, cache_get_clear.
  cbn [mbind option_bind negb andb orb has_domains]. by destruct (address_found _ _).
Qed.

Definition suspected (now : Z) (a : A) (f : filter) : bool :=
  match cache_get now (set_port 0 a) (m_exclusion_suspects f) with Some _ => true | None => false end.

Lemma match_tag_policy_eq mode text f now tag :
  configured mode text f →
  match_tag now f tag =
    mkMatch (policy_address text (cache_get now tag (m_resolved_tags f))
               (suspected now (tag_addr tag) f) (tag_addr tag))
      (cache_get now tag (m_resolved_tags f)).
Proof.
  intros Hu. pose proof Hu as [_ Hp Ho Hx Hf].
  pose proof (λ d, match_explicit_policy _ _ _ d Hu) as He.
  pose proof (λ d, match_domain_policy_eq _ _ _ d Hu) as Hd.
  pose proof (λ d, nested_domain_match _ _ d Ho) as Hdo.
  pose proof (match_tag_nested _ _ now tag Ho) as Hto.
  pose proof (match_tag_nested _ _ now tag Hx) as Htx.
  pose proof (match_tag_nested _ _ now tag Hf) as Htf.
  pose proof (nested_has_domains _ _ Ho) as Hho. pose proof (nested_has_domains _ _ Hf) as Hhf.
  pose proof (address_found_match _ _ (tag_addr tag) Hp) as Ha.
  destruct f as [mo ds as_ ps rg ov ex df re su].
  cbn [m_default_overrides m_explicit_exclusions m_explicit_defaults m_resolved_tags] in *.
  unfold suspected. cbn [DomainFilter.match_tag m_resolved_tags m_default_overrides
    m_explicit_defaults m_exclusion_suspects]. rewrite Hto, Htx, Htf, Hho, Hhf, Ha.
  unfold policy_address. destruct (cache_get now tag re) as [d|]; cbn [mbind option_bind].
  - rewrite He, Hd, Hdo. destruct (policy_explicit text d) as [s|]; [done|].
    rewrite bool_decide_eq_false_2 by done. cbn [andb].
    destruct (address_match (marked_rules "^" text) _); [done|].
    destruct (address_match (marked_rules "+" text) _); [done|]. cbn [negb andb orb].
    destruct (domain_match _ _ || _); [done|]. by destruct (address_match (plain_rules text) _).
  - rewrite bool_decide_eq_true_2 by done. cbn [andb].
    destruct (address_match (marked_rules "^" text) _); [done|].
    destruct (address_match (marked_rules "+" text) _); [done|]. cbn [negb andb orb].
    destruct (address_match (marked_rules "!" text) _); [done|].
    destruct (address_match (plain_rules text) _); [done|]. by destruct (cache_get _ _ su).
Qed.

(** Claim C4. The filter implements the documented policy for names: after an
    update from a text, and whatever is cached since, the answer for a domain
    is the one the rules of the text give.  The user's own entries outrank those
    of groups, the most specific one first and a default-route entry in case of
    a tie; then come the default-route entries of groups, then the ordinary
    ones; letter case never matters. *)
Theorem match_domain_policy mode text (f : filter) d :
  filter_run mode text f →
  match_domain f d = policy_domain text d ∧ match_domain f (lower d) = match_domain f d.
Proof.
  intros Hf%filter_run_configured.
  rewrite !(match_domain_policy_eq _ _ _ _ Hf). split; [done|].
  unfold policy_domain, policy_explicit, domain_match, domain_lengths. by rewrite lower_lower.
Qed.

(** Claim C5. The same for connections known by their address: the answer is
    the one the rules of the text give for the address and for the name it was
    last resolved for, and that name comes with the answer. *)
Theorem match_tag_policy mode text (f : filter) now tag :
  filter_run mode text f →
  match_tag now f tag =
    mkMatch (policy_address text (cache_get now tag (m_resolved_tags f))
               (suspected now (tag_addr tag) f) (tag_addr tag))
      (cache_get now tag (m_resolved_tags f)).
Proof. intros Hf%filter_run_configured. by eapply match_tag_policy_eq. Qed.

(** What the user wants in the tunnel is not let out around it: a
    connection is never an exclusion when its name is known and no exclusion of
    the user is more specific than the user's default-route entry for it, nor
    when its address has a default-route entry of the user and the user has no
    exclusion for its name, nor when its name is unknown while the user has
    default-route entries for names. *)
Theorem explicit_defaults_respected mode text (f : filter) now tag :
  filter_run mode text f →
  match cache_get now tag (m_resolved_tags f) with
  | Some d =>
      match longest (domain_lengths (marked_rules "^" text) d),
            longest (domain_lengths (marked_rules "+" text) d) with
      | Some k, Some n => (n ≤ k)%nat
      | Some _, None => True
      | None, Some _ => False
      | None, None => address_match (marked_rules "^" text) (tag_addr tag) = true
      end
  | None => existsb is_domain (marked_rules "^" text) = true
  end →
  status (match_tag now f tag) ≠ DFMS_EXCLUSION.
Proof.
  intros Hf%filter_run_configured. rewrite (match_tag_policy_eq _ _ _ _ _ Hf). cbn [status].
  unfold policy_address. destruct (cache_get now tag _) as [d|]; cbn [mbind option_bind].
  - unfold policy_explicit. destruct (longest _) as [n|], (longest _) as [k|]; try done.
    + intros Hnk. by rewrite (proj2 (Nat.leb_le k n)).
    + intros ->. done.
  - intros ->. rewrite orb_true_r. by repeat case_match.
Qed.

End Policy.

(** ** A concrete library

    Dotted IPv4 addresses, ranges on byte boundaries and caches without a
    limit, to run the filter. *)

Fixpoint split_on (c : ascii) (s : str) : list str :=
  match s with
  | [] => [[]]
  | x :: s =>
      if bool_decide (x = c) then [] :: split_on c s
      else match split_on c s with w :: ws => (x :: w) :: ws | [] => [[x]] end
  end.

Fixpoint digits_from (acc : Z) (s : str) : option Z :=
  match s with
  | [] => Some acc
  | c :: s => if in_range 48 57 c then digits_from (acc * 10 + (code_of c - 48)) s else None
  end.

Definition digits (s : str) : option Z :=
  match s with [] => None | _ => digits_from 0 s end.

Definition dotted_quad (s : str) : option (list Z) :=
  ns ← mapM digits (split_on "."%char s);
  if (length ns =? 4)%nat && forallb (λ n, n <=? 255) ns then Some ns else None.

Definition quad_range (s : str) : option (list Z * Z) :=
  match split_on "/"%char s with
  | [h; n] => bs ← dotted_quad h; k ← digits n; if k <=? 32 then Some (bs, k) else None
  | _ => None
  end.

#[local] Instance plain_text : NetTextOps plain_addr (list Z * Z) := {
  split_host_port s :=
    match split_on ":"%char s with [h] => Some (h, []) | [h; p] => Some (h, p) | _ => None end;
  to_integer := digits;
  parse_host h p := (λ bs, mkPlain bs p) <$> dotted_quad h;
  parse_host_port h := (λ bs, mkPlain bs 0) <$> dotted_quad h;
  parse_cidr := quad_range;
  host_range bs n := (bs, n);
}.

Definition range_covers (r : list Z * Z) (bs : list Z) : bool :=
  let k := Z.to_nat (r.2 / 8) in
  (length bs =? length r.1)%nat && bool_decide (take k bs = take k r.1).

#[local] Instance plain_ranges : CidrRangeSetOps (list Z * Z) (list (list Z * Z)) := {
  ranges_empty := [];
  ranges_insert := cons;
  ranges_includes rs x := existsb (λ r, range_covers r x.1) rs;
}.

#[local] Instance plain_cache {K V} `{EqDecision K} : LruTimeoutCacheOps K V (list (K * V)) := {
  cache_new := [];
  cache_clear _ := [];
  cache_get _ k c := snd <$> (snd <$> list_find (λ x, x.1 = k) c);
  cache_insert _ k v _ _ c := (k, v) :: c;
}.

Lemma split_on_head c c' s : c' ≠ c → ∃ w ws, split_on c (c' :: s) = (c' :: w) :: ws.
Proof. intros Hc. simpl. rewrite bool_decide_eq_false_2 by done. case_match; eauto. Qed.

Lemma dotted_quad_marked s : marked s = true → dotted_quad s = None.
Proof.
  destruct s as [|c s]; [done|]. intros Hc. unfold dotted_quad.
  assert (c ≠ "."%char ∧ in_range 48 57 c = false) as [Hd Hr].
  { unfold marked, is_directive in Hc. apply orb_true_iff in Hc as [[Hc|Hc]%orb_true_iff|Hc];
      apply bool_decide_eq_true in Hc as ->; by vm_compute. }
  destruct (split_on_head "."%char c s Hd) as (w & ws & ->). simpl. by rewrite Hr.
Qed.

Lemma marked_split c s : c ∈ [":"%char; "/"%char] → marked s = true →
  match split_on c s with w :: _ => marked w = true | [] => False end.
Proof.
  intros Hc. destruct s as [|c' s]; [done|]. intros Hm.
  destruct (split_on_head c c' s) as (w & ws & ->); [|done].
  intros ->. by repeat (apply elem_of_cons in Hc as [->|Hc]; [done|]); apply not_elem_of_nil in Hc.
Qed.

#[local] Instance plain_text_laws : NetTextLaws plain_addr (list Z * Z).
Proof.
  split.
  - intros s h p Hm Hs. pose proof (marked_split ":"%char s ltac:(set_solver) Hm) as Hw.
    assert (marked h = true) as Hh.
    { simpl in Hs. by destruct (split_on ":"%char s) as [|w [|w' [|]]]; simplify_eq. }
    split_and!; [by intros ->|intros p'|]; simpl; by rewrite dotted_quad_marked.
  - intros s Hm. pose proof (marked_split "/"%char s ltac:(set_solver) Hm) as Hw. simpl. unfold quad_range.
    destruct (split_on "/"%char s) as [|w [|w' [|]]]; try done. by rewrite dotted_quad_marked.
Qed.

#[local] Instance plain_ranges_laws : CidrRangeSetLaws plain_addr (list Z * Z) (list (list Z * Z)) := {
  covers := range_covers;
  includes_empty _ := eq_refl;
  includes_insert _ _ _ := eq_refl;
}.

#[local] Instance plain_cache_laws {K V} `{EqDecision K} : LruTimeoutCacheLaws K V (list (K * V)).
Proof. by split. Qed.

#[local] Instance tag_eq_dec {B} `{EqDecision B} : EqDecision (SockAddrTag B).
Proof. solve_decision. Defined.

(** Rules of a group, of the user, and what was learned since. *)
Definition example_text : str :=
  s2l "*.example.com 192.0.2.0/24 !vpn.example.com +direct.example.com ^*.private.example.com".

Definition example_filter : DomainFilter plain_addr (list (list Z * Z))
    (list (SockAddrTag plain_addr * str)) (list (plain_addr * Z)) :=
  default (new_filter (R := list Z * Z))
    (update_exclusions (R := list Z * Z) VPN_MODE_GENERAL example_text
       (new_filter (R := list Z * Z))).

Definition example_tag : SockAddrTag plain_addr := mkTag (mkPlain [192; 0; 2; 53] 443) (s2l "browser").

Lemma example_run : filter_run (R := list Z * Z) VPN_MODE_GENERAL example_text example_filter.
Proof. apply (run_update _ _ (new_filter (R := list Z * Z))). vm_compute. reflexivity. Qed.

Lemma match_domain_policy_witness :
  match_domain example_filter (s2l "Child.PRIVATE.example.com") = DFMS_DEFAULT_OVERRIDE ∧
  match_domain example_filter (s2l "vpn.example.com") = DFMS_DEFAULT_OVERRIDE ∧
  match_domain example_filter (s2l "www.example.com") = DFMS_EXCLUSION ∧
  match_domain example_filter (s2l "example.com") = DFMS_DEFAULT ∧
  match_domain example_filter (lower (s2l "VPN.Example.com"))
    = match_domain example_filter (s2l "VPN.Example.com").
Proof.
  pose proof (λ d, proj1 (match_domain_policy _ _ _ d example_run)) as H.
  split; [rewrite H; vm_compute; reflexivity|]. split; [rewrite H; vm_compute; reflexivity|].
  split; [rewrite H; vm_compute; reflexivity|]. split; [rewrite H; vm_compute; reflexivity|].
  apply (match_domain_policy _ _ _ _ example_run).
Defined.

Lemma match_tag_policy_witness :
  match_tag (R := list Z * Z) 0 example_filter example_tag = mkMatch DFMS_SUSPECT_EXCLUSION None ∧
  match_tag (R := list Z * Z) 1
    (add_resolved_tag 0 example_tag (s2l "any.example.org") example_filter) example_tag
    = mkMatch DFMS_EXCLUSION (Some (s2l "any.example.org")).
Proof.
  split.
  - rewrite (match_tag_policy _ _ _ 0 example_tag example_run). vm_compute. reflexivity.
  - rewrite (match_tag_policy VPN_MODE_GENERAL example_text _ 1 example_tag
      (run_resolved _ _ 0 example_tag (s2l "any.example.org") _ example_run)).
    vm_compute. reflexivity.
Defined.

Lemma explicit_defaults_respected_witness :
  status (match_tag (R := list Z * Z) 1
    (add_resolved_tag 0 example_tag (s2l "x.private.example.com") example_filter) example_tag)
    ≠ DFMS_EXCLUSION.
Proof.
  apply (explicit_defaults_respected VPN_MODE_GENERAL example_text _ 1 example_tag
    (run_resolved _ _ 0 example_tag (s2l "x.private.example.com") _ example_run)).
  vm_compute. exact I.
Defined.
