(* ===== verification/IcmpManager.v ===== *)
(** * The ICMP manager

    [core/src/icmp_manager.cpp]: the table of echo requests on their way.  A
    request is passed on once; its reply is passed to the client once; a request
    nobody answers is reported as dropped when its time is up. *)
From S2P Require Import Prelude WireUtils IcmpMux.

Definition ICMP_MT_ECHO_REPLY : Z := 0.
Definition ICMPV6_MT_ECHO_REPLY : Z := 129.
Definition ICMP_MT_DROP : Z := 84.

(** [DEFAULT_PING_REQUEST_TIMEOUT], in milliseconds. *)
Definition DEFAULT_PING_REQUEST_TIMEOUT : Z := 3000.

Inductive IcmpManagerMessageStatus := IM_MSGS_PASS | IM_MSGS_DROP.

#[export] Instance IcmpManagerMessageStatus_eq_dec : EqDecision IcmpManagerMessageStatus.
Proof. solve_decision. Defined.

Record RequestAttempt := mkAttempt { at_seqno : Z; timeout_ts : Z }.

Arguments rp_peer {A}.
Arguments rp_id {A}.
Arguments rp_seqno {A}.
Arguments rp_type {A}.
Arguments rp_code {A}.

Section Manager.
Context {A : Type} `{!SocketAddressOps A}.

Record RequestInfo := mkRequestInfo { original_peer : A; tries : list RequestAttempt }.

(** [m_requests] is keyed by the identifier of the request ([IcmpRequestKey]);
    its values are pointers.  [raised] are the calls of [on_reply_ready]. *)
Record IcmpManager := mkManager {
  m_requests : gmap Z (option RequestInfo);
  request_timeout : option Z;
  m_timer : option Z;
  raised : list (IcmpEchoReply A);
}.

Implicit Types m : IcmpManager.

Definition set_requests (rs : gmap Z (option RequestInfo)) m : IcmpManager :=
  mkManager rs (request_timeout m) (m_timer m) (raised m).

Definition manager_new : IcmpManager := mkManager ∅ None None [].

Definition manager_init (timeout : option Z) m : IcmpManager :=
  mkManager (m_requests m) (Some (default DEFAULT_PING_REQUEST_TIMEOUT timeout)) (m_timer m) (raised m).

Definition manager_deinit m : IcmpManager :=
  mkManager ∅ (request_timeout m) None (raised m).

Definition is_ipv6 (a : A) : bool := (length (addr a) =? IPV6_ADDR_SIZE)%nat.

(** [register_request] at the time [now]; the optional time-out is set by
    [init], reading it unset throws. *)
Definition register_request (now : Z) (request : IcmpEchoRequest A) m :
    res (IcmpManagerMessageStatus * IcmpManager) :=
  let key := rq_id request in
  let info :=
    match mjoin (m_requests m !! key) with
    | Some info => info
    | None => mkRequestInfo (rq_peer request) []
    end in
  let m := set_requests (<[key := Some info]> (m_requests m)) m in
  if existsb (λ i, at_seqno i =? rq_seqno request) (tries info)
  then Ok (IM_MSGS_DROP, m)
  else
    timeout ← value (request_timeout m);
    let info := mkRequestInfo (original_peer info)
                  (tries info ++ [mkAttempt (rq_seqno request) (now + timeout)]) in
    let m := set_requests (<[key := Some info]> (m_requests m)) m in
    Ok (IM_MSGS_PASS,
        match m_timer m with
        | None => mkManager (m_requests m) (request_timeout m) (Some (timeout / 10)) (raised m)
        | Some _ => m
        end).

Definition set_seqno (n : Z) (r : IcmpEchoReply A) : IcmpEchoReply A :=
  mkEchoReply (rp_peer r) (rp_id r) n (rp_type r) (rp_code r).

(** Which attempt a reply answers, as an index, and the reply with the sequence
    number of that attempt: an error message of the network does not name one,
    and counts for the oldest. *)
Definition find_try (info : RequestInfo) (reply : IcmpEchoReply A) :
    option nat * IcmpEchoReply A :=
  if negb (is_ipv4 (rp_peer reply) && negb (rp_type reply =? ICMP_MT_ECHO_REPLY))
     && negb (is_ipv6 (rp_peer reply) && negb (rp_type reply =? ICMPV6_MT_ECHO_REPLY))
  then (fst <$> list_find (λ i, at_seqno i = rp_seqno reply) (tries info), reply)
  else match tries info with
       | i :: _ => (Some 0%nat, set_seqno (at_seqno i) reply)
       | [] => (None, reply)
       end.

(** [register_reply]; the reply may be modified. *)
Definition register_reply (ndebug : bool) (reply : IcmpEchoReply A) m :
    res (IcmpManagerMessageStatus * IcmpEchoReply A * IcmpManager) :=
  let key := rp_id reply in
  match m_requests m !! key with
  | None => Ok (IM_MSGS_DROP, reply, m)
  | Some None =>
      _ ← icmp_assert ndebug false;
      Ok (IM_MSGS_DROP, reply, set_requests (delete key (m_requests m)) m)
  | Some (Some info) =>
      match find_try info reply with
      | (None, reply) => Ok (IM_MSGS_DROP, reply, m)
      | (Some n, reply) =>
          _ ← icmp_assert ndebug
                (bool_decide (at_seqno <$> tries info !! n = Some (rp_seqno reply)));
          let info := mkRequestInfo (original_peer info) (delete n (tries info)) in
          Ok (IM_MSGS_PASS, reply,
              set_requests
                (if bool_decide (tries info = []) then delete key (m_requests m)
                 else <[key := Some info]> (m_requests m)) m)
      end
  end.

Definition make_reply_on_timeout (key : Z) (peer : A) (seqno : Z) : IcmpEchoReply A :=
  mkEchoReply peer key seqno ICMP_MT_DROP 0.

(** The inner loop of [timer_callback]: the attempts left and the replies
    raised. *)
Fixpoint tries_loop (now key : Z) (peer : A) (ts : list RequestAttempt) :
    list RequestAttempt * list (IcmpEchoReply A) :=
  match ts with
  | [] => ([], [])
  | t :: ts =>
      let '(rest, out) := tries_loop now key peer ts in
      if now <? timeout_ts t then (t :: rest, out)
      else (rest, make_reply_on_timeout key peer (at_seqno t) :: out)
  end.

(** The outer loop, over the keys in the order of [std::map]; a null entry is
    dereferenced. *)
Fixpoint requests_loop (now : Z) (keys : list Z) m : res IcmpManager :=
  match keys with
  | [] => Ok m
  | key :: keys =>
      match m_requests m !! key with
      | Some (Some info) =>
          let '(rest, out) := tries_loop now key (original_peer info) (tries info) in
          let rs :=
            if bool_decide (rest = []) then delete key (m_requests m)
            else <[key := Some (mkRequestInfo (original_peer info) rest)]> (m_requests m) in
          requests_loop now keys
            (mkManager rs (request_timeout m) (m_timer m) (raised m ++ out))
      | Some None => UB
      | None => requests_loop now keys m
      end
  end.

Definition sorted_keys m : list Z := merge_sort Z.le (map_to_list (m_requests m)).*1.

Definition icmp_timer_callback (now : Z) m : res IcmpManager := requests_loop now (sorted_keys m) m.

(** ** Accounting *)

Notation requests := (gmap Z (option RequestInfo)).

(** The attempts on their way. *)
Definition attempts_at (x : Z * option RequestInfo) : list (Z * RequestAttempt) :=
  match x.2 with Some info => (λ t, (x.1, t)) <$> tries info | None => [] end.

Definition attempts (rs : requests) : list (Z * RequestAttempt) :=
  map_to_list rs ≫= attempts_at.

Definition echo_key (x : Z * RequestAttempt) : Z * Z := (x.1, at_seqno x.2).
Definition reply_key (r : IcmpEchoReply A) : Z * Z := (rp_id r, rp_seqno r).

Definition outstanding m : list (Z * Z) := echo_key <$> attempts (m_requests m).

Lemma attempts_delete rs k o :
  rs !! k = Some o → attempts rs ≡ₚ attempts_at (k, o) ++ attempts (delete k rs).
Proof. intros Hk. unfold attempts. by rewrite <- (map_to_list_delete rs k o Hk). Qed.

Lemma attempts_insert rs k o :
  attempts (<[k := o]> rs) ≡ₚ attempts_at (k, o) ++ attempts (delete k rs).
Proof.
  rewrite (attempts_delete _ k o) by apply lookup_insert_eq. by rewrite delete_insert_eq.
Qed.

Lemma attempts_missing rs k : rs !! k = None → attempts (delete k rs) = attempts rs.
Proof. intros Hk. by rewrite delete_id. Qed.

Lemma fmap_bind {B C D} (f : C → D) (g : B → list C) (l : list B) :
  f <$> (l ≫= g) = l ≫= (λ x, f <$> g x).
Proof. induction l as [|x l IH]; [done|]. by rewrite !bind_cons, fmap_app, IH. Qed.

(** Entries are never null, nor empty, and a sequence number is on its way at
    most once. *)
Record manager_ok m : Prop := mkOk {
  ok_entry k o : m_requests m !! k = Some o →
    ∃ info, o = Some info ∧ tries info ≠ [] ∧ NoDup (at_seqno <$> tries info);
  ok_timeout : is_Some (request_timeout m);
  ok_timer : m_requests m ≠ ∅ → is_Some (m_timer m);
}.

Lemma outstanding_NoDup m : manager_ok m → NoDup (outstanding m).
Proof.
  intros [He _ _]. unfold outstanding, attempts. rewrite fmap_bind.
  apply NoDup_bind.
  - intros [k1 o1] [k2 o2] y.
    rewrite !elem_of_map_to_list. intros H1 H2 Hy1 Hy2. simpl in *.
    assert (k1 = k2) as ->; [|congruence].
    destruct (He _ _ H1) as (i1 & -> & _), (He _ _ H2) as (i2 & -> & _).
    apply list_elem_of_fmap in Hy1 as (x1 & -> & Hx1). apply list_elem_of_fmap in Hy2 as (x2 & Heq & Hx2).
    apply list_elem_of_fmap in Hx1 as (t1 & -> & _). apply list_elem_of_fmap in Hx2 as (t2 & -> & _).
    unfold echo_key in Heq. simpl in Heq. congruence.
  - intros [k o] Hk%elem_of_map_to_list. destruct (He _ _ Hk) as (info & -> & _ & Hnd).
    unfold attempts_at. simpl. rewrite <- list_fmap_compose.
    change (NoDup (((λ n, (k, n)) ∘ at_seqno) <$> tries info)). rewrite list_fmap_compose.
    apply NoDup_fmap; [|done]. by intros ? ? [= ->].
  - apply NoDup_map_to_list.
Qed.

(** ** The operations *)

Lemma register_request_spec now r m :
  manager_ok m →
  okP (register_request now r m) (λ x, manager_ok x.2 ∧ raised x.2 = raised m ∧
    if bool_decide ((rq_id r, rq_seqno r) ∈ outstanding m)
    then x.1 = IM_MSGS_DROP ∧ attempts (m_requests x.2) ≡ₚ attempts (m_requests m)
    else x.1 = IM_MSGS_PASS ∧ ∃ ts, attempts (m_requests x.2) ≡ₚ
      (rq_id r, mkAttempt (rq_seqno r) ts) :: attempts (m_requests m)).
Proof.
  intros [He [timeout Ht] Htm]. unfold register_request.
  set (key := rq_id r). set (info := match mjoin _ with Some i => i | None => _ end).
  assert (attempts_at (key, Some info) ++ attempts (delete key (m_requests m))
    ≡ₚ attempts (m_requests m)) as Hat.
  { destruct (m_requests m !! key) as [o|] eqn:Hk.
    - destruct (He _ _ Hk) as (i & -> & _). subst info. rewrite ?Hk. simpl.
      by rewrite <- (attempts_delete _ _ _ Hk).
    - subst info. rewrite ?Hk. simpl. by rewrite attempts_missing. }
  assert (NoDup (at_seqno <$> tries info)) as Hnd.
  { subst info. destruct (m_requests m !! key) as [o|] eqn:Hk; simpl; [|constructor].
    by destruct (He _ _ Hk) as (i & -> & _ & ?). }
  assert ((key, rq_seqno r) ∈ outstanding m ↔ rq_seqno r ∈ (at_seqno <$> tries info)) as Hin.
  { unfold outstanding. rewrite <- Hat, fmap_app, elem_of_app. unfold attempts_at at 1. simpl.
    rewrite <- list_fmap_compose, !list_elem_of_fmap. split.
    - intros [(t & Heq & Hx)|(x & Heq & Hx)]; [exists t; by injection Heq|exfalso].
      apply list_elem_of_bind in Hx as ([k o] & Hx & Hko%elem_of_map_to_list).
      apply lookup_delete_Some in Hko as [Hne Hko]. destruct (He _ _ Hko) as (i & -> & _).
      apply list_elem_of_fmap in Hx as (t & -> & _). by injection Heq.
    - intros (t & Heq & Hx). left. exists t. by rewrite Heq. }
  assert (existsb (λ i, at_seqno i =? rq_seqno r) (tries info)
    = bool_decide ((key, rq_seqno r) ∈ outstanding m)) as Hex.
  { apply eq_true_iff_eq. rewrite bool_decide_eq_true, Hin, existsb_exists, list_elem_of_fmap.
    setoid_rewrite Z.eqb_eq. setoid_rewrite <- list_elem_of_In. naive_solver. }
  cbv zeta. rewrite Hex. case_bool_decide as Hd; cbn [set_requests m_requests request_timeout m_timer].
  - apply okP_ret. cbn [fst snd set_requests m_requests raised].
    assert (tries info ≠ []) as Hne.
    { intros Hn. apply Hin in Hd. rewrite Hn in Hd. by apply not_elem_of_nil in Hd. }
    split; [|split; [done|]]; [|split; [done|by rewrite attempts_insert, Hat]].
    split; cbn [set_requests m_requests request_timeout m_timer]; [|done|].
    + intros k o [[<- <-]|[_ Hk]]%lookup_insert_Some; [by exists info|eauto].
    + intros _. apply Htm. intros H0. apply Hne. subst info. by rewrite H0, lookup_empty.
  - rewrite Ht. cbn [value mbind res_bind]. apply okP_ret. cbn [fst snd].
    rewrite insert_insert_eq.
    set (info' := mkRequestInfo _ _). set (rs := <[key := Some info']> _).
    assert (attempts rs ≡ₚ (key, mkAttempt (rq_seqno r) (now + timeout)) :: attempts (m_requests m)) as Hrs.
    { subst rs. rewrite attempts_insert, <- Hat. unfold attempts_at at 1. simpl.
      rewrite fmap_app. simpl. rewrite <- app_assoc. simpl. by rewrite <- Permutation_middle. }
    assert (∀ k o, rs !! k = Some o → ∃ i, o = Some i ∧ tries i ≠ [] ∧ NoDup (at_seqno <$> tries i)) as Hrs'.
    { intros k o [[<- <-]|[_ Hk]]%lookup_insert_Some; [|eauto]. exists info'. split; [done|]. simpl.
      split; [by destruct (tries info)|]. rewrite fmap_app. apply NoDup_app.
      split; [done|split; [|apply NoDup_singleton]]. intros x Hx ->%list_elem_of_singleton. tauto. }
    destruct (m_timer m) as [tm|] eqn:Htm'; (split; [|split; [done|]]; [split; [exact Hrs'|
      by exists timeout|intros _; cbn [set_requests m_timer]; rewrite ?Htm'; by eexists]|]);
      (split; [done|]); by eexists.
Qed.

Lemma attempts_at_delete k peer ts n t :
  ts !! n = Some t →
  attempts_at (k, Some (mkRequestInfo peer ts))
    ≡ₚ (k, t) :: attempts_at (k, Some (mkRequestInfo peer (delete n ts))).
Proof. intros Hn. unfold attempts_at. simpl. by rewrite (delete_Permutation _ _ _ Hn) at 1. Qed.

(** Replacing the attempts of one request by a part of them, or removing it
    when none is left. *)
Lemma manager_ok_shrink m k info ts rs :
  manager_ok m → m_requests m !! k = Some (Some info) → sublist ts (tries info) →
  rs = (if bool_decide (ts = []) then delete k (m_requests m)
        else <[k := Some (mkRequestInfo (original_peer info) ts)]> (m_requests m)) →
  ∀ out, manager_ok (mkManager rs (request_timeout m) (m_timer m) out) ∧
    attempts rs ≡ₚ ((λ t, (k, t)) <$> ts) ++ attempts (delete k (m_requests m)).
Proof.
  intros [He Ht Htm] Hk Hsub Hrs out. split.
  - split; cbn [m_requests request_timeout m_timer]; [|done|].
    + intros k' o Hk'. case_bool_decide; subst rs.
      * apply lookup_delete_Some in Hk' as [_ Hk']. eauto.
      * apply lookup_insert_Some in Hk' as [[<- <-]|[_ Hk']]; [|eauto].
        eexists. split; [done|split; [done|]]. simpl.
        destruct (He _ _ Hk) as (i & [= <-] & _ & Hnd).
        eapply sublist_NoDup; [exact Hnd|by apply fmap_sublist].
    + intros _. apply Htm. intros H0. by rewrite H0, lookup_empty in Hk.
  - case_bool_decide; subst rs.
    + by subst ts.
    + by rewrite attempts_insert.
Qed.

Lemma find_try_Some info reply n reply' :
  find_try info reply = (Some n, reply') →
  ∃ t, tries info !! n = Some t ∧ at_seqno t = rp_seqno reply' ∧ rp_id reply' = rp_id reply.
Proof.
  unfold find_try. case_match.
  - intros [= Hf <-]. apply fmap_Some in Hf as ([i t] & Hf & ->).
    apply list_find_Some in Hf as (? & ? & _). by exists t.
  - destruct (tries info) as [|t ts]; [done|]. intros [= <- <-]. by exists t.
Qed.

Lemma register_reply_spec ndebug r m :
  manager_ok m →
  okP (register_reply ndebug r m) (λ x,
    match x with
    | (IM_MSGS_PASS, r', m') => manager_ok m' ∧ raised m' = raised m ∧ rp_id r' = rp_id r ∧
        ∃ t, at_seqno t = rp_seqno r' ∧ attempts (m_requests m) ≡ₚ (rp_id r, t) :: attempts (m_requests m')
    | (IM_MSGS_DROP, _, m') => m' = m
    end).
Proof.
  intros Hok. unfold register_reply. destruct (m_requests m !! rp_id r) as [o|] eqn:Hk; [|by apply okP_ret].
  destruct (ok_entry _ Hok _ _ Hk) as (info & -> & Hne & Hnd).
  destruct (find_try info r) as [[n|] r'] eqn:Hf; [|by apply okP_ret].
  apply find_try_Some in Hf as (t & Hn & Hseq & Hid).
  rewrite Hn, (bool_decide_eq_true_2 (at_seqno <$> Some t = _)) by (simpl; congruence).
  cbn [icmp_assert orb mbind res_bind]. apply okP_ret. cbv zeta. cbn [tries original_peer].
  unfold set_requests.
  destruct (manager_ok_shrink m _ info (delete n (tries info)) _ Hok Hk
    ltac:(apply sublist_delete) eq_refl (raised m)) as [Hok' Hat].
  split; [exact Hok'|split; [done|split; [done|]]]. exists t. split; [done|].
  cbn [m_requests]. rewrite Hat, (attempts_delete _ _ _ Hk). unfold attempts_at. simpl.
  by rewrite (delete_Permutation _ _ _ Hn) at 1.
Qed.

Lemma tries_loop_spec now key peer ts rest out :
  tries_loop now key peer ts = (rest, out) →
  sublist rest ts ∧ Forall (λ t, now < timeout_ts t) rest ∧
  Forall (λ r, rp_type r = ICMP_MT_DROP ∧ rp_peer r = peer) out ∧
  ∃ expired, ts ≡ₚ rest ++ expired ∧ Forall (λ t, timeout_ts t ≤ now) expired ∧
    reply_key <$> out = (λ t, (key, at_seqno t)) <$> expired.
Proof.
  revert rest out. induction ts as [|t ts IH]; intros rest out; cbn [tries_loop].
  - intros [= <- <-]. split_and!; [constructor..|]. exists []. split_and!; by constructor.
  - destruct (tries_loop now key peer ts) as [rest' out']. destruct (IH _ _ eq_refl)
      as (Hs & Hr & Ho & ex & Hex & Hexp & Hkeys).
    destruct (Z.ltb_spec now (timeout_ts t)) as [Hlt|Hge]; intros [= <- <-].
    + split_and!; [by constructor|by constructor|done|]. exists ex. split_and!; [|done|done].
      simpl. by constructor.
    + split_and!; [by constructor|done|by constructor|]. exists (t :: ex).
      split_and!; [by rewrite <- Permutation_middle; constructor|by constructor|].
      rewrite !fmap_cons. by f_equal.
Qed.

(** The loop over the requests: what is reported, and what stays. *)
Record expires (now : Z) (keys : list Z) m m' : Prop := mkExpires {
  exp_ok : manager_ok m';
  exp_other k : k ∉ keys → m_requests m' !! k = m_requests m !! k;
  exp_rest k info t : k ∈ keys → m_requests m' !! k = Some (Some info) → t ∈ tries info →
    now < timeout_ts t;
  exp_reports : ∃ out expired, raised m' = raised m ++ out ∧
    Forall (λ r, rp_type r = ICMP_MT_DROP) out ∧ Forall (λ x, timeout_ts x.2 ≤ now) expired ∧
    attempts (m_requests m) ≡ₚ attempts (m_requests m') ++ expired ∧
    reply_key <$> out = echo_key <$> expired;
}.

Lemma expires_nil now m : manager_ok m → expires now [] m m.
Proof.
  intros Hok. split; [done|done|by intros k ? ? ?%not_elem_of_nil|].
  exists [], []. rewrite !app_nil_r. by split_and!.
Qed.

Lemma expires_cons now k keys m m1 m' :
  k ∉ keys → expires now [k] m m1 → expires now keys m1 m' → expires now (k :: keys) m m'.
Proof.
  intros Hk [Hok1 Ho1 Hr1 (out1 & ex1 & Ha1 & Hd1 & He1 & Hp1 & Hk1)]
    [Hok Ho Hr (out & ex & Ha & Hd & He & Hp & Hkk)].
  split; [done|..].
  - intros k' Hk'. rewrite not_elem_of_cons in Hk'. rewrite Ho by tauto. apply Ho1. set_solver.
  - intros k' info t [->|Hk']%elem_of_cons Hl Ht; [|by eapply Hr].
    rewrite Ho in Hl by done. by eapply Hr1; [left|..].
  - exists (out1 ++ out), (ex1 ++ ex). split_and!.
    + by rewrite Ha, Ha1, app_assoc.
    + by apply Forall_app.
    + by apply Forall_app.
    + by rewrite Hp1, Hp, <- app_assoc, (Permutation_app_comm ex).
    + rewrite !fmap_app. by f_equal.
Qed.

Lemma requests_loop_spec now keys m :
  manager_ok m → NoDup keys → okP (requests_loop now keys m) (expires now keys m).
Proof.
  revert m. induction keys as [|k keys IH]; intros m Hok Hnd.
  { apply okP_ret. by apply expires_nil. }
  apply NoDup_cons in Hnd as [Hk Hnd].
  enough (∃ m1, expires now [k] m m1 ∧
    requests_loop now (k :: keys) m = requests_loop now keys m1) as (m1 & Hm1 & ->).
  { eapply okP_mono; [apply IH; [apply Hm1|done]|]. intros m'. by apply expires_cons. }
  cbn [requests_loop]. destruct (m_requests m !! k) as [o|] eqn:Hl.
  - destruct (ok_entry _ Hok _ _ Hl) as (info & -> & _).
    destruct (tries_loop _ _ _ _) as [rest out] eqn:Htl.
    destruct (tries_loop_spec _ _ _ _ _ _ Htl) as (Hs & Hr & Ho & ex & Hex & Hexp & Hkeys).
    cbv zeta. eexists. split; [|done].
    destruct (manager_ok_shrink m k info rest _ Hok Hl Hs eq_refl (raised m ++ out)) as [Hok' Hat].
    split; cbn [m_requests raised]; [exact Hok'|..].
    + intros k' Hk'%not_elem_of_cons. case_bool_decide; [apply lookup_delete_ne|apply lookup_insert_ne];
        naive_solver.
    + intros k' info' t ->%list_elem_of_singleton. case_bool_decide; [by rewrite lookup_delete_eq|].
      rewrite lookup_insert_eq. intros [= <-] Ht. rewrite Forall_forall in Hr. by apply Hr.
    + exists out, ((λ t, (k, t)) <$> ex). split_and!; [done| | | |].
      * eapply Forall_impl; [exact Ho|]. by intros r [? _].
      * apply Forall_fmap. exact Hexp.
      * rewrite Hat, (attempts_delete _ _ _ Hl). unfold attempts_at. cbn [fst snd].
        rewrite Hex, fmap_app, <- !app_assoc. f_equiv. apply Permutation_app_comm.
      * rewrite Hkeys, <- list_fmap_compose. done.
  - exists m. split; [|done]. split; [done|done| |].
    + intros k' info t ->%list_elem_of_singleton. by rewrite Hl.
    + exists [], []. rewrite !app_nil_r. by split_and!.
Qed.

Lemma sorted_keys_spec m : NoDup (sorted_keys m) ∧ ∀ k, k ∈ sorted_keys m ↔ is_Some (m_requests m !! k).
Proof.
  unfold sorted_keys. split.
  - rewrite merge_sort_Permutation. apply NoDup_fst_map_to_list.
  - intros k. rewrite merge_sort_Permutation, list_elem_of_fmap. split.
    + intros ([k' o] & -> & Ho%elem_of_map_to_list). by exists o.
    + intros [o Ho]. exists (k, o). by rewrite elem_of_map_to_list.
Qed.

Lemma icmp_timer_callback_spec now m :
  manager_ok m →
  okP (icmp_timer_callback now m) (λ m', manager_ok m' ∧
    Forall (λ x, now < timeout_ts x.2) (attempts (m_requests m')) ∧
    ∃ out expired, raised m' = raised m ++ out ∧ Forall (λ r, rp_type r = ICMP_MT_DROP) out ∧
      Forall (λ x, timeout_ts x.2 ≤ now) expired ∧
      attempts (m_requests m) ≡ₚ attempts (m_requests m') ++ expired ∧
      reply_key <$> out = echo_key <$> expired).
Proof.
  intros Hok. destruct (sorted_keys_spec m) as [Hnd Hks].
  eapply okP_mono; [by apply requests_loop_spec|]. intros m' [Hok' Ho Hr Hrep].
  split; [done|split; [|done]]. apply Forall_forall.
  intros [k t] ([k' o] & Hx & Hl%elem_of_map_to_list)%list_elem_of_bind.
  destruct (ok_entry _ Hok' _ _ Hl) as (info & -> & _).
  apply list_elem_of_fmap in Hx as (t' & [= -> ->] & Ht').
  destruct (decide (k' ∈ sorted_keys m)) as [Hin|Hin]; [by eapply Hr|].
  rewrite Ho in Hl by done. exfalso. apply Hin, Hks. by eexists.
Qed.

(** ** Runs *)

(** What became of the requests passed on so far. *)
Record History := mkHistory {
  passed : list (Z * Z);
  answered : list (Z * Z);
  expired : list (Z * Z);
  cancelled : list (Z * Z);
}.

Inductive icmp_run (ndebug : bool) : IcmpManager → History → Prop :=
| run_init timeout : icmp_run ndebug (manager_init timeout manager_new) (mkHistory [] [] [] [])
| run_request now r m st m' p a e c :
    icmp_run ndebug m (mkHistory p a e c) → register_request now r m = Ok (st, m') →
    icmp_run ndebug m'
      (mkHistory (p ++ if bool_decide (st = IM_MSGS_PASS) then [(rq_id r, rq_seqno r)] else []) a e c)
| run_reply r m st r' m' p a e c :
    icmp_run ndebug m (mkHistory p a e c) → register_reply ndebug r m = Ok (st, r', m') →
    icmp_run ndebug m'
      (mkHistory p (a ++ if bool_decide (st = IM_MSGS_PASS) then [reply_key r'] else []) e c)
| run_timer now m m' p a e c :
    icmp_run ndebug m (mkHistory p a e c) → icmp_timer_callback now m = Ok m' →
    icmp_run ndebug m'
      (mkHistory p a (e ++ (reply_key <$> drop (length (raised m)) (raised m'))) c)
| run_restart timeout m p a e c :
    icmp_run ndebug m (mkHistory p a e c) →
    icmp_run ndebug (manager_init timeout (manager_deinit m)) (mkHistory p a e (c ++ outstanding m)).

Definition accounted m (h : History) : Prop :=
  passed h ≡ₚ outstanding m ++ answered h ++ expired h ++ cancelled h.

Lemma icmp_run_ok ndebug m h : icmp_run ndebug m h → manager_ok m ∧ accounted m h.
Proof.
  unfold accounted.
  induction 1 as [timeout|now r m st m' p a e c _ [Hok Hacc] Hop|r m st r' m' p a e c _ [Hok Hacc] Hop
    |now m m' p a e c _ [Hok Hacc] Hop|timeout m p a e c _ [Hok Hacc]]; cbn [passed answered expired cancelled] in *.
  - split; [split; [done|by eexists|done]|done].
  - destruct (register_request_spec now r m Hok) as ([? ?] & Heq & Hok' & _ & H).
    rewrite Hop in Heq. injection Heq as <- <-. split; [done|]. unfold outstanding in *.
    cbn [fst snd] in H. case_bool_decide.
    + destruct H as [-> H]. rewrite H. by rewrite app_nil_r.
    + destruct H as [-> (ts & H)]. rewrite H. simpl. rewrite Hacc. by rewrite Permutation_app_comm.
  - destruct (register_reply_spec ndebug r m Hok) as ([[? ?] ?] & Heq & H).
    rewrite Hop in Heq. injection Heq as <- <- <-. destruct st.
    + destruct H as (Hok' & _ & Hid & t & Hseq & H). split; [done|]. unfold outstanding in *.
      rewrite Hacc, H. simpl. unfold reply_key, echo_key at 1. simpl. rewrite Hseq, Hid.
      rewrite <- app_assoc. simpl. by rewrite !Permutation_middle.
    + subst m'. split; [done|]. simpl. by rewrite app_nil_r.
  - destruct (icmp_timer_callback_spec now m Hok) as (? & Heq & Hok' & _ & out & ex & Hr & _ & _ & H & Hk).
    rewrite Hop in Heq. injection Heq as <-. split; [done|]. unfold outstanding in *.
    rewrite Hr, drop_app_length, Hk, Hacc, H, fmap_app. rewrite <- !app_assoc. f_equiv.
    rewrite (Permutation_app_comm (echo_key <$> ex)), <- !app_assoc. do 2 f_equiv. apply Permutation_app_comm.
  - split.
    + split; [done|by eexists|done].
    + rewrite Hacc. unfold outstanding at 2. simpl.
      rewrite (Permutation_app_comm (outstanding m)), <- !app_assoc. done.
Qed.

(** Claim C28. Every echo request passed on is accounted for exactly once: it is
    still on its way, was answered by one reply passed to the client, was
    reported as dropped by the timer, or was cancelled by a shutdown.  No two
    requests on their way have the same identifier and sequence number, the
    timer that will report them is armed, and no operation fails. *)
Theorem icmp_requests_accounted ndebug m h :
  icmp_run ndebug m h →
  passed h ≡ₚ outstanding m ++ answered h ++ expired h ++ cancelled h ∧
  NoDup (outstanding m) ∧ (outstanding m ≠ [] → is_Some (m_timer m)) ∧
  (∀ now r, is_ok (register_request now r m)) ∧ (∀ r, is_ok (register_reply ndebug r m)) ∧
  (∀ now, is_ok (icmp_timer_callback now m)).
Proof.
  intros [Hok Hacc]%icmp_run_ok. split; [done|]. split; [by apply outstanding_NoDup|].
  split; [|split_and!].
  - intros Hne. apply (ok_timer _ Hok). intros H0. apply Hne. unfold outstanding. by rewrite H0.
  - intros now r. by destruct (register_request_spec now r m Hok) as (? & -> & _).
  - intros r. by destruct (register_reply_spec ndebug r m Hok) as (? & -> & _).
  - intros now. by destruct (icmp_timer_callback_spec now m Hok) as (? & -> & _).
Qed.

(** The timer reports exactly the requests whose time is up, each
    with one reply of type [ICMP_MT_DROP] for its identifier and sequence
    number, and what stays on its way has time left. *)
Theorem icmp_timeouts_reported ndebug m h now :
  icmp_run ndebug m h →
  okP (icmp_timer_callback now m) (λ m',
    Forall (λ x, now < timeout_ts x.2) (attempts (m_requests m')) ∧
    ∃ out expired, raised m' = raised m ++ out ∧ Forall (λ r, rp_type r = ICMP_MT_DROP) out ∧
      Forall (λ x, timeout_ts x.2 ≤ now) expired ∧
      attempts (m_requests m) ≡ₚ attempts (m_requests m') ++ expired ∧
      reply_key <$> out = echo_key <$> expired).
Proof.
  intros [Hok _]%icmp_run_ok. eapply okP_mono; [by apply icmp_timer_callback_spec|]. by intros m' [_ ?].
Qed.

End Manager.
Arguments RequestInfo A : clear implicits.
Arguments IcmpManager A : clear implicits.

(** ** A run *)

Definition ping_peer : plain_addr := mkPlain [192; 0; 2; 1] 0.
Definition ping_request (seqno : Z) : IcmpEchoRequest plain_addr := mkEchoRequest ping_peer 7 seqno 64 32.

Definition result {B} (d : B) (x : res B) : B := match x with Ok b => b | _ => d end.

(** Two requests with the default time-out of three seconds. *)
Definition two_pings : IcmpManager plain_addr :=
  let m := manager_init None manager_new in
  let m := (result (IM_MSGS_DROP, m) (register_request 0 (ping_request 1) m)).2 in
  (result (IM_MSGS_DROP, m) (register_request 1000 (ping_request 2) m)).2.

Lemma two_pings_run : icmp_run false two_pings (mkHistory [(7, 1); (7, 2)] [] [] []).
Proof.
  change [(7, 1); (7, 2)] with (([] ++ if bool_decide (IM_MSGS_PASS = IM_MSGS_PASS) then [(7, 1)] else [])
    ++ if bool_decide (IM_MSGS_PASS = IM_MSGS_PASS) then [(7, 2)] else []).
  apply (run_request false 1000 (ping_request 2)
    (result (IM_MSGS_DROP, manager_new) (register_request 0 (ping_request 1)
       (manager_init None manager_new))).2); [|vm_compute; reflexivity].
  apply (run_request false 0 (ping_request 1) (manager_init None manager_new)); [apply run_init|].
  vm_compute. reflexivity.
Qed.

Lemma icmp_requests_accounted_witness :
  outstanding two_pings = [(7, 1); (7, 2)] ∧ NoDup (outstanding two_pings).
Proof.
  split; [vm_compute; reflexivity|].
  exact (proj1 (proj2 (icmp_requests_accounted false two_pings _ two_pings_run))).
Defined.

Lemma icmp_timeouts_reported_witness :
  okP (icmp_timer_callback 3500 two_pings) (λ m', ∃ out, raised m' = raised two_pings ++ out).
Proof.
  destruct (icmp_timeouts_reported false two_pings _ 3500 two_pings_run) as (m' & Hm & _ & out & _ & Ho & _).
  exists m'. split; [exact Hm|]. exists out. exact Ho.
Defined.
