(* ===== verification/UpstreamMux.v ===== *)
(** * The upstream multiplexer

    [core/src/upstream_multiplexer.cpp]: the connections of the tunnel are spread
    over several sessions with the endpoint ("upstreams").  A new session is
    opened when the open ones are loaded; connections that have to wait for it
    are pending.

    The child upstreams are objects of their own: what the multiplexer calls on
    them goes to the trace, and what they answer during one call is an
    [Upstreams] record.  [close_session] of a child reports its connections as
    closed before it returns, as the HTTP upstreams do.  The order in which an
    [unordered_map] is traversed is left open: [iter] may be any. *)
From S2P Require Import Prelude Fsm EventLoop VpnTypes.

(** [upstream_multiplexer.h], [internal/utils.h], and the two socket errors the
    multiplexer reports, whose numbers are the platform's. *)
Definition DEFAULT_UPSTREAMS_NUM : nat := 8.
Definition NEW_UPSTREAM_CONNECTIONS_NUM_THRESHOLD : Z := 5.
Definition UM_NON_ID : Z := 2 ^ 64 - 1.

Inductive UpstreamState := US_OPENING_SESSION | US_SESSION_OPENED.

#[export] Instance UpstreamState_eq_dec : EqDecision UpstreamState.
Proof. solve_decision. Defined.

(** [ServerEvent] with its data; the forwarded ones keep theirs unread. *)
Inductive ChildEvent :=
| CHILD_SESSION_OPENED
| CHILD_SESSION_CLOSED
| CHILD_CONNECTION_CLOSED (id : Z)
| CHILD_FORWARDED (what : Z) (id : Z)
| CHILD_ERROR (id : Z) (e : VpnError).

Section Mux.
Context {P : Type}.
Variables (AG_ECONNRESET AG_ECONNREFUSED : Z).
Variable ndebug : bool.
Variable iter : ∀ {B : Type}, gmap Z B → list (Z * B).
Arguments iter {B}.

(** Calls on a child upstream and events raised for the parent. *)
Inductive UmOut :=
| CallOpenSession (u : Z) (timeout : option Z)
| CallCloseSession (u : Z)
| CallOpenConnection (u id : Z) (request : P)
| CallOnConnection (u : Z) (what : Z) (id : Z)
| CallOnUpstream (u : Z) (what : Z)
| UmRaised (e : ChildEvent).

(** What the child upstreams answer during a call. *)
Record Upstreams := mkUpstreams {
  connections_num : Z → Z;
  accepts_session : Z → bool;
  accepts_connection : Z → Z → bool;
  closes : Z → list Z;
}.

Record PendingConnection := mkPending { pc_upstream : Z; pc_request : P }.

Record UpstreamMux := mkUpstreamMux {
  um_connections : gmap Z Z;
  um_pool : gmap Z UpstreamState;
  um_pending : gmap Z PendingConnection;
  um_pending_error : option VpnError;
  um_session_open : bool;
  next_upstream_id : Z;
  um_out : list UmOut;
}.

Implicit Types m : UpstreamMux.

Definition um_new (next : Z) : UpstreamMux := mkUpstreamMux ∅ ∅ ∅ None false next [].

Definition with_connections (c : gmap Z Z) m : UpstreamMux :=
  mkUpstreamMux c (um_pool m) (um_pending m) (um_pending_error m) (um_session_open m)
    (next_upstream_id m) (um_out m).
Definition with_pool (p : gmap Z UpstreamState) m : UpstreamMux :=
  mkUpstreamMux (um_connections m) p (um_pending m) (um_pending_error m) (um_session_open m)
    (next_upstream_id m) (um_out m).
Definition with_pending (p : gmap Z PendingConnection) m : UpstreamMux :=
  mkUpstreamMux (um_connections m) (um_pool m) p (um_pending_error m) (um_session_open m)
    (next_upstream_id m) (um_out m).
Definition with_error (e : option VpnError) m : UpstreamMux :=
  mkUpstreamMux (um_connections m) (um_pool m) (um_pending m) e (um_session_open m)
    (next_upstream_id m) (um_out m).
Definition with_session_open (b : bool) m : UpstreamMux :=
  mkUpstreamMux (um_connections m) (um_pool m) (um_pending m) (um_pending_error m) b
    (next_upstream_id m) (um_out m).
Definition with_next_upstream (n : Z) m : UpstreamMux :=
  mkUpstreamMux (um_connections m) (um_pool m) (um_pending m) (um_pending_error m)
    (um_session_open m) n (um_out m).
Definition out_um (o : UmOut) m : UpstreamMux :=
  mkUpstreamMux (um_connections m) (um_pool m) (um_pending m) (um_pending_error m)
    (um_session_open m) (next_upstream_id m) (um_out m ++ [o]).

Definition um_assert (b : bool) : res unit := if b || ndebug then Ok tt else Abort.

Definition um_raise (e : ChildEvent) m : UpstreamMux := out_um (UmRaised e) m.

(** [unordered_map::emplace]: nothing happens if the key is there. *)
Definition emplace {B} (k : Z) (v : B) (mp : gmap Z B) : gmap Z B :=
  match mp !! k with Some _ => mp | None => <[k := v]> mp end.

(** ** Choosing an upstream *)

Definition connections_num_by_upstream (ups : Upstreams) (id : Z) m : Z :=
  connections_num ups id
  + Z.of_nat (length (filter (λ x, pc_upstream x.2 = id) (map_to_list (um_pending m)))).

(** The loop that looks for the least loaded upstream. *)
Fixpoint least_loaded (ups : Upstreams) (ignored : option Z) (best : option Z)
    (pool : list (Z * UpstreamState)) : option Z :=
  match pool with
  | [] => best
  | (id, _) :: pool =>
      if bool_decide (ignored = Some id) then least_loaded ups ignored best pool
      else
        match best with
        | None => least_loaded ups ignored (Some id) pool
        | Some b =>
            least_loaded ups ignored
              (if connections_num ups id <? connections_num ups b then Some id else best) pool
        end
  end.

Definition select_existing_upstream (ups : Upstreams) (ignored : option Z) (allow_underflow : bool) m
    : option Z :=
  match list_find (λ x, ignored ≠ Some x.1 ∧
          connections_num_by_upstream ups x.1 m < NEW_UPSTREAM_CONNECTIONS_NUM_THRESHOLD)
          (iter (um_pool m)) with
  | Some (_, (id, _)) => Some id
  | None =>
      if allow_underflow || (size (um_pool m) =? DEFAULT_UPSTREAMS_NUM)%nat
      then least_loaded ups ignored None (iter (um_pool m))
      else None
  end.

Definition select_upstream_for_connection (ups : Upstreams) m : Z * UpstreamMux :=
  match select_existing_upstream ups None false m with
  | Some id => (id, m)
  | None => (next_upstream_id m, with_next_upstream (next_upstream_id m + 1) m)
  end.

(** ** Opening *)

Definition open_new_upstream (ups : Upstreams) (id : Z) (timeout : option Z) m :
    res (bool * UpstreamMux) :=
  _ ← um_assert (bool_decide (um_pool m !! id = None));
  let m := out_um (CallOpenSession id timeout) m in
  if accepts_session ups id
  then Ok (true, with_pool (<[id := US_OPENING_SESSION]> (um_pool m)) m)
  else Ok (false, m).

Definition um_open_session (ups : Upstreams) (timeout : option Z) m : res (bool * UpstreamMux) :=
  if negb (bool_decide (um_pool m = ∅))
  then _ ← um_assert false; Ok (false, m)
  else
    let '(upstream_id, m) := select_upstream_for_connection ups m in
    open_new_upstream ups upstream_id timeout m.

(** [open_connection] on a given upstream. *)
Definition open_on (ups : Upstreams) (upstream_id conn_id : Z) (request : P) m :
    res (bool * UpstreamMux) :=
  match um_pool m !! upstream_id with
  | None => _ ← um_assert false; Ok (false, m)
  | Some US_OPENING_SESSION =>
      Ok (true, with_pending (emplace conn_id (mkPending upstream_id request) (um_pending m)) m)
  | Some US_SESSION_OPENED =>
      let m := out_um (CallOpenConnection upstream_id conn_id request) m in
      if accepts_connection ups upstream_id conn_id
      then Ok (true, with_connections (emplace conn_id upstream_id (um_connections m)) m)
      else Ok (false, m)
  end.

(** [open_connection]; [conn_id] is the next number of the client's generator. *)
Definition um_open_connection (ups : Upstreams) (conn_id : Z) (request : P) m :
    res (Z * UpstreamMux) :=
  if bool_decide (um_pool m = ∅) then Ok (UM_NON_ID, m)
  else
    let '(upstream_id, m) := select_upstream_for_connection ups m in
    match um_pool m !! upstream_id with
    | Some _ =>
        '(ok, m) ← open_on ups upstream_id conn_id request m;
        Ok (if (ok : bool) then conn_id else UM_NON_ID, m)
    | None =>
        '(opened, m) ← open_new_upstream ups upstream_id None m;
        if (opened : bool)
        then Ok (conn_id,
                 with_pending (emplace conn_id (mkPending upstream_id request) (um_pending m)) m)
        else
          match select_existing_upstream ups (Some upstream_id) true m with
          | Some reserve_id =>
              '(ok, m) ← open_on ups reserve_id conn_id request m;
              Ok (if (ok : bool) then conn_id else UM_NON_ID, m)
          | None => Ok (UM_NON_ID, m)
          end
    end.

(** ** Operations on an open connection *)

Definition get_upstream_by_conn (id : Z) m : option Z :=
  upstream_id ← um_connections m !! id;
  _ ← um_pool m !! upstream_id;
  Some upstream_id.

(** [close_connection], [send], [consume], [available_to_send] and
    [update_flow_control] pass the call on to the upstream of the connection;
    [answer] is what it returns and [missing] what an unknown connection gets. *)
Definition um_forward {B} (what : Z) (answer missing : B) (id : Z) m : B * UpstreamMux :=
  match get_upstream_by_conn id m with
  | Some u => (answer, out_um (CallOnConnection u what id) m)
  | None => (missing, m)
  end.

Definition um_close_connection (id : Z) m : UpstreamMux := (um_forward 0 tt tt id m).2.
Definition um_send (answer : Z) (id : Z) m : Z * UpstreamMux := um_forward 1 answer (-1) id m.
Definition um_consume (id : Z) m : UpstreamMux := (um_forward 2 tt tt id m).2.
Definition um_available_to_send (answer : Z) (id : Z) m : Z * UpstreamMux := um_forward 3 answer 0 id m.
Definition um_update_flow_control (id : Z) m : UpstreamMux := (um_forward 4 tt tt id m).2.

(** ** Operations on all upstreams *)

Definition on_all (what : Z) m : UpstreamMux :=
  foldl (λ m x, out_um (CallOnUpstream x.1 what) m) m (iter (um_pool m)).

Definition opened (m : UpstreamMux) : list (Z * UpstreamState) :=
  filter (λ x, x.2 = US_SESSION_OPENED) (iter (um_pool m)).

Definition um_cancel_health_check m : UpstreamMux := on_all 0 m.
Definition um_handle_sleep m : UpstreamMux := on_all 1 m.
Definition um_handle_wake m : UpstreamMux := on_all 2 m.

(** Only the first opened upstream has to report the result (4, the others 3). *)
Definition um_do_health_check m : UpstreamMux :=
  let m := um_cancel_health_check m in
  match opened m with
  | [] => m
  | x :: rest =>
      foldl (λ m x, out_um (CallOnUpstream x.1 3) m) (out_um (CallOnUpstream x.1 4) m) rest
  end.

(** Statistics: the worst round-trip time and the worst loss ratio (in a unit
    fine enough to be an integer) of the opened upstreams. *)
Definition um_get_connection_stats (stats : Z → Z * Z) m : Z * Z :=
  foldl (λ acc x, (acc.1 `max` (stats x.1).1, acc.2 `max` (stats x.1).2)) (0, 0) (opened m).

Definition um_on_icmp_request m : res (bool * UpstreamMux) :=
  match opened m with
  | x :: _ => Ok (true, out_um (CallOnUpstream x.1 5) m)
  | [] => _ ← um_assert false; Ok (false, m)
  end.

Definition um_kex_group_nid (nid : Z → Z) (NID_undef : Z) m : Z :=
  match opened m with x :: _ => nid x.1 | [] => NID_undef end.

(** ** Events of a child *)

Definition close_upstream (upstream_id : Z) m : res UpstreamMux :=
  match um_pool m !! upstream_id with
  | None => _ ← um_assert false; Ok m
  | Some _ =>
      let m := with_pool (delete upstream_id (um_pool m)) m in
      if negb (bool_decide (um_pool m = ∅)) then Ok m
      else
        let m := with_session_open false m in
        match um_pending_error m with
        | Some e => Ok (um_raise (CHILD_ERROR UM_NON_ID e) (with_error None m))
        | None => Ok (um_raise CHILD_SESSION_CLOSED m)
        end
  end.

Definition um_is_fatal_error (e : VpnError) : bool :=
  (code e =? VPN_EC_AUTH_REQUIRED) || (code e =? VPN_EC_CERTIFICATE_VERIFICATION_FAILED)
  || (code e =? VPN_EC_CERTIFICATE_NOT_YET_VALID).

(** The case [SERVER_EVENT_CONNECTION_CLOSED] of [child_upstream_handler]. *)
Definition connection_closed (upstream_id id : Z) m : res UpstreamMux :=
  match um_pool m !! upstream_id with
  | None => _ ← um_assert false; Ok m
  | Some _ =>
      _ ← um_assert (bool_decide (is_Some (um_connections m !! id)));
      Ok (um_raise (CHILD_CONNECTION_CLOSED id)
            (with_connections (delete id (um_connections m)) m))
  end.

Fixpoint connections_closed (upstream_id : Z) (ids : list Z) m : res UpstreamMux :=
  match ids with
  | [] => Ok m
  | id :: ids => m ← connection_closed upstream_id id m; connections_closed upstream_id ids m
  end.

(** [upstream->close_session()]: the child reports its connections. *)
Definition child_close_session (ups : Upstreams) (u : Z) m : res UpstreamMux :=
  connections_closed u (closes ups u) (out_um (CallCloseSession u) m).

Definition proceed_pending_connection (ups : Upstreams) (upstream_id conn_id : Z) (request : P) m :
    res UpstreamMux :=
  '(ok, m) ← open_on ups upstream_id conn_id request m;
  if (ok : bool) then Ok m
  else
    _ ← um_assert (negb (bool_decide (um_pool m = ∅)));
    match iter (um_pool m) with
    | [] => UB
    | (fallback_upstream_id, _) :: _ =>
        '(ok, m) ← open_on ups fallback_upstream_id conn_id request m;
        if (ok : bool) then Ok m
        else Ok (um_raise (CHILD_ERROR conn_id (mkError AG_ECONNREFUSED (Some "Failed to connect"%string))) m)
    end.

(** The loop over the pending connections when a session is opened. *)
Fixpoint proceed_loop (ups : Upstreams) (u : Z) (pending : list (Z * PendingConnection)) m :
    res UpstreamMux :=
  match pending with
  | [] => Ok m
  | (id, conn) :: pending =>
      if bool_decide (pc_upstream conn = u)
      then
        m ← proceed_pending_connection ups (pc_upstream conn) id (pc_request conn) m;
        proceed_loop ups u pending (with_pending (delete id (um_pending m)) m)
      else proceed_loop ups u pending m
  end.

(** The loop over the pending connections when a session is closed. *)
Fixpoint refuse_loop (u : Z) (pending : list (Z * PendingConnection)) m : UpstreamMux :=
  match pending with
  | [] => m
  | (id, conn) :: pending =>
      if bool_decide (pc_upstream conn = u)
      then
        let m := um_raise (CHILD_ERROR id (mkError AG_ECONNREFUSED (Some "Session closed"%string))) m in
        refuse_loop u pending (with_pending (delete id (um_pending m)) m)
      else refuse_loop u pending m
  end.

(** The loop that closes all upstreams after a fatal error; [fuel] bounds its
    rounds. *)
Fixpoint close_all (ups : Upstreams) (fuel : nat) m : res UpstreamMux :=
  match iter (um_pool m) with
  | [] => Ok m
  | (u, _) :: _ =>
      match fuel with
      | O => UB
      | S fuel =>
          m ← child_close_session ups u m;
          m ← close_upstream u m;
          close_all ups fuel m
      end
  end.

Definition child_upstream_handler (ups : Upstreams) (u : Z) (what : ChildEvent) m : res UpstreamMux :=
  match um_pool m !! u with
  | None => _ ← um_assert false; Ok m
  | Some _ =>
      match what with
      | CHILD_SESSION_OPENED =>
          let m := if um_session_open m then m
                   else um_raise CHILD_SESSION_OPENED (with_session_open true m) in
          let m := with_pool (<[u := US_SESSION_OPENED]> (um_pool m)) m in
          proceed_loop ups u (iter (um_pending m)) m
      | CHILD_SESSION_CLOSED =>
          close_upstream u (refuse_loop u (iter (um_pending m)) m)
      | CHILD_CONNECTION_CLOSED id => connection_closed u id m
      | CHILD_FORWARDED _ _ => Ok (um_raise what m)
      | CHILD_ERROR id e =>
          if negb (id =? UM_NON_ID)
          then Ok (um_raise what (with_connections (delete id (um_connections m)) m))
          else if um_is_fatal_error e
          then
            let m := if negb (code e =? 0) then with_error (Some e) m else m in
            close_all ups (size (um_pool m)) m
          else
            m ← child_close_session ups u m;
            close_upstream u m
      end
  end.

(** ** Closing the session *)

Fixpoint close_sessions (ups : Upstreams) (pool : list (Z * UpstreamState)) m : res UpstreamMux :=
  match pool with
  | [] => Ok m
  | (u, _) :: pool => m ← child_close_session ups u m; close_sessions ups pool m
  end.

Definition um_close_session (ups : Upstreams) m : res UpstreamMux :=
  m ← close_sessions ups (iter (um_pool m)) m;
  let m := with_connections ∅ (with_pool ∅ m) in
  let pending := iter (um_pending m) in
  let m := foldl (λ m x, um_raise (CHILD_ERROR x.1
              (mkError AG_ECONNRESET (Some "Session closed"%string))) m) (with_pending ∅ m) pending in
  Ok (with_error None m).

End Mux.
