(* ===== verification/UpstreamMuxProps.v ===== *)
(** * Properties of the upstream multiplexer

    The invariant of its tables under the contract of the child upstreams, the
    choice of an upstream, and what becomes of pending connections. *)
From S2P Require Import Prelude Fsm EventLoop VpnTypes UpstreamMux.

Section Props.
Context {P : Type}.
Variables (AG_ECONNRESET AG_ECONNREFUSED : Z).
Variable ndebug : bool.
Variable iter : ∀ {B : Type}, gmap Z B → list (Z * B).
Arguments iter {B}.

(** [iter] traverses a map in some order. *)
Hypothesis iter_spec : ∀ {B : Type} (mp : gmap Z B), iter mp ≡ₚ map_to_list mp.

Notation UpstreamMux := (UpstreamMux (P := P)).
Notation select_existing_upstream := (select_existing_upstream (@iter)).
Notation open_on := (open_on ndebug).
Notation open_new_upstream := (open_new_upstream ndebug).
Notation um_open_session := (um_open_session ndebug (@iter)).
Notation um_open_connection := (um_open_connection ndebug (@iter)).
Notation close_upstream := (close_upstream ndebug).
Notation connection_closed := (connection_closed ndebug).
Notation connections_closed := (connections_closed ndebug).
Notation child_close_session := (child_close_session ndebug).
Notation child_upstream_handler := (child_upstream_handler AG_ECONNREFUSED ndebug (@iter)).
Notation proceed_loop := (proceed_loop AG_ECONNREFUSED ndebug (@iter)).
Notation proceed_pending_connection := (proceed_pending_connection AG_ECONNREFUSED ndebug (@iter)).
Notation refuse_loop := (refuse_loop AG_ECONNREFUSED).
Notation close_all := (close_all ndebug (@iter)).
Notation um_close_session := (um_close_session AG_ECONNRESET ndebug (@iter)).
Notation close_sessions := (close_sessions ndebug).
Notation opened := (opened (@iter)).
Notation um_on_icmp_request := (um_on_icmp_request ndebug (@iter)).
Implicit Types (m : UpstreamMux) (ups : Upstreams).

Lemma elem_of_iter {B} (mp : gmap Z B) k v : (k, v) ∈ iter mp ↔ mp !! k = Some v.
Proof. by rewrite iter_spec, elem_of_map_to_list. Qed.

Lemma iter_NoDup {B} (mp : gmap Z B) : NoDup (iter mp).*1.
Proof. rewrite iter_spec. apply NoDup_fst_map_to_list. Qed.

(** ** The choice of an upstream *)

Lemma least_loaded_spec ups ignored best pool :
  (∀ b, best = Some b → ignored ≠ Some b) →
  match least_loaded ups ignored best pool with
  | Some id =>
      ignored ≠ Some id ∧ (best = Some id ∨ id ∈ pool.*1) ∧
      (∀ b, best = Some b → connections_num ups id ≤ connections_num ups b) ∧
      (∀ x, x ∈ pool.*1 → ignored ≠ Some x → connections_num ups id ≤ connections_num ups x)
  | None => best = None ∧ ∀ x, x ∈ pool.*1 → ignored = Some x
  end.
Proof.
  revert best. induction pool as [|[id st] pool IH]; intros best Hb; cbn [least_loaded].
  { destruct best as [b|]; [|by split; [|intros x ?%not_elem_of_nil]].
    split_and!; [by apply Hb|by left|by intros ? [= ->]|by intros x ?%not_elem_of_nil]. }
  case_bool_decide as Hi.
  - specialize (IH best Hb). destruct (least_loaded _ _ _ _) as [r|]; simpl.
    + destruct IH as (H1 & H2 & H3 & H4). split_and!; [done|set_solver|done|].
      intros x [->|Hx]%elem_of_cons; [done|auto].
    + destruct IH as [-> H]. split; [done|]. intros x [->|Hx]%elem_of_cons; auto.
  - destruct best as [b|].
    + set (best := if _ <? _ then _ else _).
      assert (∃ c, best = Some c ∧ ignored ≠ Some c ∧ (c = b ∨ c = id) ∧
        connections_num ups c ≤ connections_num ups b ∧ connections_num ups c ≤ connections_num ups id)
        as (c & Hc & Hic & Hcb & Hle1 & Hle2).
      { subst best. destruct (Z.ltb_spec (connections_num ups id) (connections_num ups b));
          eexists; (split; [done|]); split_and!; auto; lia. }
      specialize (IH best). rewrite Hc in IH |- *. specialize (IH ltac:(by intros ? [= <-])).
      destruct (least_loaded _ _ _ _) as [r|]; simpl; [|naive_solver].
      destruct IH as (H1 & H2 & H3 & H4). specialize (H3 _ eq_refl). split_and!; [done|set_solver| |].
      * intros ? [= <-]. lia.
      * intros x [->|Hx]%elem_of_cons Hix; [lia|auto].
    + specialize (IH (Some id) ltac:(by intros ? [= <-])).
      destruct (least_loaded _ _ _ _) as [r|]; simpl; [|naive_solver].
      destruct IH as (H1 & H2 & H3 & H4). split_and!; [done|set_solver|done|].
      intros x [->|Hx]%elem_of_cons Hix; auto.
Qed.

Definition loaded ups m (id : Z) : Prop :=
  NEW_UPSTREAM_CONNECTIONS_NUM_THRESHOLD ≤ connections_num_by_upstream ups id m.

Lemma select_existing_cases ups ignored allow m :
  match select_existing_upstream ups ignored allow m with
  | Some id =>
      is_Some (um_pool m !! id) ∧ ignored ≠ Some id ∧
      (¬ loaded ups m id ∨
       (∀ x, is_Some (um_pool m !! x) → ignored ≠ Some x → loaded ups m x) ∧
       (allow = true ∨ size (um_pool m) = DEFAULT_UPSTREAMS_NUM) ∧
       (∀ x, is_Some (um_pool m !! x) → ignored ≠ Some x →
          connections_num ups id ≤ connections_num ups x))
  | None =>
      (∀ x, is_Some (um_pool m !! x) → ignored ≠ Some x → loaded ups m x) ∧
      (allow = true ∨ size (um_pool m) = DEFAULT_UPSTREAMS_NUM →
       ∀ x, is_Some (um_pool m !! x) → ignored = Some x)
  end.
Proof.
  unfold UpstreamMux.select_existing_upstream, loaded.
  assert (∀ x, is_Some (um_pool m !! x) ↔ x ∈ (iter (um_pool m)).*1) as Hdom.
  { intros x. rewrite list_elem_of_fmap. split.
    - intros [st Hs]. exists (x, st). by rewrite elem_of_iter.
    - intros ([y st] & -> & Hs%elem_of_iter). by exists st. }
  destruct (list_find _ (iter (um_pool m))) as [[i [id st]]|] eqn:Hf.
  - apply list_find_Some in Hf as (Hi & [Hig Hl] & _). apply list_elem_of_lookup_2 in Hi.
    apply elem_of_iter in Hi. split; [by eexists|split; [done|left; simpl in Hl; lia]].
  - assert (∀ x, is_Some (um_pool m !! x) → ignored ≠ Some x →
      NEW_UPSTREAM_CONNECTIONS_NUM_THRESHOLD ≤ connections_num_by_upstream ups x m) as Hall.
    { intros x [st Hs] Hi. apply list_find_None in Hf. rewrite Forall_forall in Hf.
      apply elem_of_iter, Hf in Hs. simpl in Hs.
      destruct (Z.lt_ge_cases (connections_num_by_upstream ups x m)
        NEW_UPSTREAM_CONNECTIONS_NUM_THRESHOLD); [|done]. by destruct Hs. }
    destruct (allow || _) eqn:Ha.
    + pose proof (least_loaded_spec ups ignored None (iter (um_pool m)) ltac:(done)) as Hl.
      destruct (least_loaded _ _ _ _) as [id|].
      * destruct Hl as (H1 & [?|H2] & _ & H4); [done|]. split; [by apply Hdom|split; [done|right]].
        split; [done|split]; [|intros x Hx%Hdom; by apply H4].
        apply orb_true_iff in Ha as [?|Ha]; [by left|right]. by apply Nat.eqb_eq.
      * split; [done|]. intros _ x Hx%Hdom. by apply Hl.
    + apply orb_false_iff in Ha as [-> Ha]. apply Nat.eqb_neq in Ha. split; [done|]. by intros [?|?].
Qed.

(** ** The invariant *)

Record um_inv m : Prop := mkUmInv {
  inv_size : (size (um_pool m) ≤ DEFAULT_UPSTREAMS_NUM)%nat;
  inv_pool u st : um_pool m !! u = Some st → u < next_upstream_id m;
  inv_connections id u : um_connections m !! id = Some u → um_pool m !! u = Some US_SESSION_OPENED;
  inv_pending id pc : um_pending m !! id = Some pc → pc_upstream pc < next_upstream_id m;
  inv_disjoint id : um_connections m !! id = None ∨ um_pending m !! id = None;
  inv_ids id : is_Some (um_connections m !! id) ∨ is_Some (um_pending m !! id) → id ≠ UM_NON_ID;
}.

(** The part of the state that matters to the invariant. *)
Definition same_tables m m' : Prop :=
  um_connections m' = um_connections m ∧ um_pool m' = um_pool m ∧ um_pending m' = um_pending m ∧
  next_upstream_id m' = next_upstream_id m.

Lemma um_inv_same m m' : same_tables m m' → um_inv m → um_inv m'.
Proof.
  intros (Hc & Hp & Hpe & Hn) [H1 H2 H3 H4 H5 H6].
  split; rewrite ?Hc, ?Hp, ?Hpe, ?Hn; done.
Qed.

Lemma um_inv_out o m : um_inv m → um_inv (out_um o m).
Proof. by apply um_inv_same. Qed.

Lemma um_inv_next m n : next_upstream_id m ≤ n → um_inv m → um_inv (with_next_upstream n m).
Proof.
  intros Hn [H1 H2 H3 H4 H5 H6]. split; cbn [with_next_upstream um_connections um_pool um_pending
    next_upstream_id]; try done.
  - intros u st Hu%H2. lia.
  - intros id pc Hpc%H4. lia.
Qed.

Lemma um_inv_drop_connection m id : um_inv m → um_inv (with_connections (delete id (um_connections m)) m).
Proof.
  intros [H1 H2 H3 H4 H5 H6]. split; cbn [with_connections um_connections um_pool um_pending
    next_upstream_id]; try done.
  - intros id' u Hl%lookup_delete_Some. destruct Hl as [_ Hl]. eauto.
  - intros id'. destruct (H5 id') as [H|H]; [left|by right]. by apply lookup_delete_None; right.
  - intros id' [[u Hu%lookup_delete_Some]|H]; apply H6; [left; exists u; tauto|by right].
Qed.

Lemma um_inv_drop_pending m id : um_inv m → um_inv (with_pending (delete id (um_pending m)) m).
Proof.
  intros [H1 H2 H3 H4 H5 H6]. split; cbn [with_pending um_connections um_pool um_pending
    next_upstream_id]; try done.
  - intros id' pc Hl%lookup_delete_Some. destruct Hl as [_ Hl]. eauto.
  - intros id'. destruct (H5 id') as [H|H]; [by left|right]. by apply lookup_delete_None; right.
  - intros id' [H|[pc Hu%lookup_delete_Some]]; apply H6; [by left|right; exists pc; tauto].
Qed.

(** An upstream without connections leaves the pool. *)
Lemma um_inv_drop_upstream m u :
  (∀ id, um_connections m !! id ≠ Some u) → um_inv m → um_inv (with_pool (delete u (um_pool m)) m).
Proof.
  intros Hno [H1 H2 H3 H4 H5 H6]. split; cbn [with_pool um_connections um_pool um_pending
    next_upstream_id]; try done.
  - etrans; [|exact H1]. rewrite <- !size_dom. apply subseteq_size. set_solver.
  - intros u' st [_ Hl]%lookup_delete_Some. eauto.
  - intros id u' Hl. rewrite lookup_delete_ne; [eauto|]. intros ->. by eapply Hno.
Qed.

(** A new upstream joins. *)
Lemma um_inv_new_upstream m u :
  um_pool m !! u = None → u < next_upstream_id m → (size (um_pool m) < DEFAULT_UPSTREAMS_NUM)%nat →
  um_inv m → um_inv (with_pool (<[u := US_OPENING_SESSION]> (um_pool m)) m).
Proof.
  intros Hu Hlt Hs [H1 H2 H3 H4 H5 H6]. split; cbn [with_pool um_connections um_pool um_pending
    next_upstream_id]; try done.
  - rewrite map_size_insert_None by done. lia.
  - intros u' st [[<- <-]|[_ Hl]]%lookup_insert_Some; [done|eauto].
  - intros id u' Hl. rewrite lookup_insert_ne; [eauto|]. intros ->. apply H3 in Hl. congruence.
Qed.

(** The session of an upstream is opened. *)
Lemma um_inv_session_opened m u :
  is_Some (um_pool m !! u) → um_inv m →
  um_inv (with_pool (<[u := US_SESSION_OPENED]> (um_pool m)) m).
Proof.
  intros Hu [H1 H2 H3 H4 H5 H6]. split; cbn [with_pool um_connections um_pool um_pending
    next_upstream_id]; try done.
  - by rewrite map_size_insert_Some.
  - intros u' st [[<- <-]|[_ Hl]]%lookup_insert_Some; [|eauto]. destruct Hu as [st Hu]. eauto.
  - intros id u' Hl. apply H3 in Hl. destruct (decide (u = u')) as [->|]; [by rewrite lookup_insert_eq|].
    by rewrite lookup_insert_ne.
Qed.

Lemma um_inv_add_pending m id u req :
  u < next_upstream_id m → um_connections m !! id = None → id ≠ UM_NON_ID → um_inv m →
  um_inv (with_pending (emplace id (mkPending u req) (um_pending m)) m).
Proof.
  intros Hu Hc Hid [H1 H2 H3 H4 H5 H6]. unfold emplace.
  destruct (um_pending m !! id) as [pc|] eqn:Hp; [by destruct m; split|].
  split; cbn [with_pending um_connections um_pool um_pending next_upstream_id]; try done.
  - intros id' pc [[<- <-]|[_ Hl]]%lookup_insert_Some; [done|eauto].
  - intros id'. destruct (decide (id = id')) as [->|]; [by left|]. rewrite lookup_insert_ne by done. auto.
  - intros id' [H|[pc [[<- _]|[_ Hl]]%lookup_insert_Some]]; [auto|done|]. apply H6. right. by eexists.
Qed.

(** A connection may be registered when it is not pending. *)
Lemma um_inv_add_connection m id u :
  um_pool m !! u = Some US_SESSION_OPENED → um_pending m !! id = None → id ≠ UM_NON_ID → um_inv m →
  um_inv (with_connections (emplace id u (um_connections m)) m).
Proof.
  intros Hu Hp Hid [H1 H2 H3 H4 H5 H6]. unfold emplace.
  destruct (um_connections m !! id) as [v|] eqn:Hc; [by destruct m; split|].
  split; cbn [with_connections um_connections um_pool um_pending next_upstream_id]; try done.
  - intros id' u' [[<- <-]|[_ Hl]]%lookup_insert_Some; [done|eauto].
  - intros id'. destruct (decide (id = id')) as [->|]; [by right|]. rewrite lookup_insert_ne by done. auto.
  - intros id' [[v [[<- _]|[_ Hl]]%lookup_insert_Some]|H]; [done| |auto]. apply H6. left. by eexists.
Qed.

(** ** Opening *)

Lemma um_assert_true b : b = true → um_assert ndebug b = Ok tt.
Proof. by intros ->. Qed.

Lemma select_upstream_spec ups m :
  um_inv m →
  let '(u, m') := select_upstream_for_connection (@iter) ups m in
  (is_Some (um_pool m !! u) ∧ m' = m) ∨
  (um_pool m !! u = None ∧ u = next_upstream_id m ∧ m' = with_next_upstream (u + 1) m ∧
   (size (um_pool m) < DEFAULT_UPSTREAMS_NUM)%nat ∧ ∀ x, is_Some (um_pool m !! x) → loaded ups m x).
Proof.
  intros Hinv. unfold select_upstream_for_connection.
  pose proof (select_existing_cases ups None false m) as Hs.
  destruct (UpstreamMux.select_existing_upstream _ _ _ _ _) as [id|]; [left; tauto|right].
  destruct Hs as [Hl Hf]. split_and!; [|done|done| |by intros x Hx; apply Hl].
  - destruct (um_pool m !! next_upstream_id m) as [st|] eqn:Hu; [|done].
    apply (inv_pool _ Hinv) in Hu. lia.
  - pose proof (inv_size _ Hinv). destruct (decide (size (um_pool m) = DEFAULT_UPSTREAMS_NUM)) as [He|];
      [exfalso|lia].
    destruct (decide (um_pool m = ∅)) as [H0|H0]; [by rewrite H0, map_size_empty in He|].
    apply map_choose in H0 as (x & st & Hx). by specialize (Hf (or_intror He) x (mk_is_Some _ _ Hx)).
Qed.

Lemma open_new_upstream_spec ups u timeout m :
  um_pool m !! u = None → u < next_upstream_id m → (size (um_pool m) < DEFAULT_UPSTREAMS_NUM)%nat →
  um_inv m →
  okP (open_new_upstream ups u timeout m) (λ r, um_inv r.2 ∧
    r.1 = accepts_session ups u ∧
    r.2 = (if accepts_session ups u
           then with_pool (<[u := US_OPENING_SESSION]> (um_pool m)) (out_um (CallOpenSession u timeout) m)
           else out_um (CallOpenSession u timeout) m)).
Proof.
  intros Hu Hlt Hs Hinv. unfold UpstreamMux.open_new_upstream.
  rewrite um_assert_true by by apply bool_decide_eq_true. mstep.
  assert (um_inv (out_um (CallOpenSession u timeout) m)) as Hinv' by by apply um_inv_out.
  destruct (accepts_session ups u); apply okP_ret; (split; [|done]); simpl; [|done].
  by apply (um_inv_new_upstream (out_um (CallOpenSession u timeout) m)).
Qed.

(** Opening a new connection on an upstream of the pool. *)
Lemma open_on_spec ups u id req m :
  is_Some (um_pool m !! u) → um_connections m !! id = None → um_pending m !! id = None →
  id ≠ UM_NON_ID → um_inv m →
  okP (open_on ups u id req m) (λ r, um_inv r.2 ∧ um_pool r.2 = um_pool m ∧
    (if (r.1 : bool)
     then um_connections r.2 !! id = Some u ∨
          um_pending r.2 !! id = Some (mkPending u req) ∧ um_pool m !! u = Some US_OPENING_SESSION
     else um_connections r.2 !! id = None ∧ um_pending r.2 !! id = None)).
Proof.
  intros [st Hu] Hc Hp Hid Hinv. unfold UpstreamMux.open_on. rewrite Hu.
  destruct st.
  - apply okP_ret. cbn [fst snd]. split; [|split; [done|right; split; [|done]]].
    + apply um_inv_add_pending; [by eapply inv_pool|done..].
    + cbn [with_pending um_pending]. unfold emplace. rewrite Hp. apply lookup_insert_eq.
  - cbv zeta. assert (um_inv (out_um (CallOpenConnection u id req) m)) as Hinv' by by apply um_inv_out.
    destruct (accepts_connection ups u id); apply okP_ret; cbn [fst snd]; (split; [|split; [done|]]).
    + by apply um_inv_add_connection.
    + left. cbn. unfold emplace. rewrite Hc. apply lookup_insert_eq.
    + done.
    + done.
Qed.

Lemma um_open_connection_spec ups id req m :
  um_connections m !! id = None → um_pending m !! id = None → id ≠ UM_NON_ID → um_inv m →
  okP (um_open_connection ups id req m) (λ r, um_inv r.2 ∧
    (r.1 = id ∧ (is_Some (um_connections r.2 !! id) ∨ is_Some (um_pending r.2 !! id)) ∨
     r.1 = UM_NON_ID ∧ um_connections r.2 !! id = None ∧ um_pending r.2 !! id = None)).
Proof.
  intros Hc Hp Hid Hinv. unfold UpstreamMux.um_open_connection.
  case_bool_decide as H0; [by apply okP_ret; auto|].
  assert (∀ u m1, is_Some (um_pool m1 !! u) → um_connections m1 !! id = None → um_pending m1 !! id = None →
    um_inv m1 → okP ('(ok, m) ← open_on ups u id req m1; Ok (if (ok : bool) then id else UM_NON_ID, m))
      (λ r, um_inv r.2 ∧
        (r.1 = id ∧ (is_Some (um_connections r.2 !! id) ∨ is_Some (um_pending r.2 !! id)) ∨
         r.1 = UM_NON_ID ∧ um_connections r.2 !! id = None ∧ um_pending r.2 !! id = None))) as Hon.
  { intros u m1 Hu Hc1 Hp1 Hinv1. eapply okP_bind; [by apply open_on_spec|].
    intros [[] m2] (Hinv2 & _ & H); cbn [fst snd] in *; apply okP_ret; (split; [done|]); [left|by right].
    split; [done|]. destruct H as [H|[H _]]; [left|right]; by eexists. }
  pose proof (select_upstream_spec ups m Hinv) as Hsel.
  destruct (select_upstream_for_connection _ ups m) as [u m1].
  destruct Hsel as [[[st Hu] ->]|(Hu & -> & -> & Hs & _)].
  { rewrite Hu. apply Hon; [by eexists|done..]. }
  cbn [with_next_upstream um_pool]. rewrite Hu.
  assert (um_inv (with_next_upstream (next_upstream_id m + 1) m)) as Hinv1 by (apply um_inv_next; [lia|done]).
  eapply okP_bind; [apply open_new_upstream_spec; [done|simpl; lia|done..]|].
  intros [op m2] (Hinv2 & Hop & Hm2). cbn [fst snd] in *. subst op.
  destruct (accepts_session ups _); subst m2.
  - apply okP_ret. split; [|left; split; [done|right]].
    + apply um_inv_add_pending; [simpl; lia|done..].
    + cbn. unfold emplace. rewrite Hp, lookup_insert_eq. by eexists.
  - pose proof (select_existing_cases ups (Some (next_upstream_id m)) true
      (out_um (CallOpenSession (next_upstream_id m) None) (with_next_upstream (next_upstream_id m + 1) m))) as Hs'.
    destruct (UpstreamMux.select_existing_upstream _ _ _ _ _) as [r|].
    + apply Hon; [apply Hs'|done..].
    + apply okP_ret. split; [done|by right].
Qed.

(** ** Pending connections when a session is opened *)

(** What becomes of one pending connection of the opened upstream [u]: the
    upstream it ends up on, and the calls and events. *)
Definition proceed_outcome ups (pool : gmap Z UpstreamState) (u id : Z) (req : P) :
    option Z * list UmOut :=
  if accepts_connection ups u id then (Some u, [CallOpenConnection u id req])
  else
    match iter pool with
    | (f, US_SESSION_OPENED) :: _ =>
        if accepts_connection ups f id
        then (Some f, [CallOpenConnection u id req; CallOpenConnection f id req])
        else (None, [CallOpenConnection u id req; CallOpenConnection f id req;
                     UmRaised (CHILD_ERROR id (mkError AG_ECONNREFUSED (Some "Failed to connect"%string)))])
    | _ => (None, [CallOpenConnection u id req])
    end.

Definition proceeded ups (u id : Z) (req : P) m : UpstreamMux :=
  let o := proceed_outcome ups (um_pool m) u id req in
  mkUpstreamMux (match o.1 with Some v => <[id := v]> (um_connections m) | None => um_connections m end)
    (um_pool m) (delete id (um_pending m)) (um_pending_error m) (um_session_open m)
    (next_upstream_id m) (um_out m ++ o.2).

Lemma proceed_pending_spec ups u id req m :
  um_pool m !! u = Some US_SESSION_OPENED → um_connections m !! id = None →
  is_Some (um_pending m !! id) → id ≠ UM_NON_ID → um_inv m →
  okP (proceed_pending_connection ups u id req m) (λ m1,
    with_pending (delete id (um_pending m1)) m1 = proceeded ups u id req m) ∧
  um_inv (proceeded ups u id req m).
Proof.
  intros Hu Hc [pc Hp] Hid Hinv. split.
  - unfold UpstreamMux.proceed_pending_connection, proceeded, proceed_outcome, UpstreamMux.open_on.
    rewrite Hu. cbv zeta. cbn [out_um um_connections].
    destruct (accepts_connection ups u id) eqn:Ha; cbn [mbind res_bind].
    + apply okP_ret. destruct m. simpl in *. unfold emplace. by rewrite Hc.
    + cbn [out_um um_pool].
      rewrite (um_assert_true (negb (bool_decide (um_pool m = ∅)))); [cbn [mbind res_bind]|].
      2:{ rewrite bool_decide_eq_false_2; [done|]. intros H0. by rewrite H0, lookup_empty in Hu. }
      destruct (iter (um_pool m)) as [|[f st] l] eqn:Hi.
      { exfalso. assert ((u, US_SESSION_OPENED) ∈ iter (um_pool m)) as Hin by by apply elem_of_iter.
        rewrite Hi in Hin. by apply not_elem_of_nil in Hin. }
      assert (um_pool m !! f = Some st) as Hf by (apply elem_of_iter; rewrite Hi; left).
      rewrite Hf. destruct st; mstep.
      * apply okP_ret. destruct m. simpl in *. unfold emplace. by rewrite Hp.
      * cbn [out_um um_connections]. destruct (accepts_connection ups f id) eqn:Hb; mstep; apply okP_ret;
          destruct m; simpl in *; unfold emplace, um_raise, out_um, with_connections, with_pending; simpl;
          rewrite ?Hc, <- ?app_assoc; done.
  - assert (um_inv (with_pending (delete id (um_pending m)) m)) as Hd by by apply um_inv_drop_pending.
    unfold proceeded. cbv zeta.
    destruct (proceed_outcome ups (um_pool m) u id req) as [[v|] o] eqn:Ho; cbn [fst snd].
    + assert (um_pool m !! v = Some US_SESSION_OPENED) as Hv.
      { unfold proceed_outcome in Ho. destruct (accepts_connection ups u id); [by simplify_eq|].
        destruct (iter (um_pool m)) as [|[f []] l] eqn:Hi; [done|done|].
        destruct (accepts_connection ups f id); simplify_eq. apply elem_of_iter. rewrite Hi. left. }
      pose proof (um_inv_add_connection (with_pending (delete id (um_pending m)) m) id v Hv
        (lookup_delete_eq _ _) Hid Hd) as H.
      unfold emplace in H. cbn [with_pending um_connections] in H. rewrite Hc in H.
      by eapply um_inv_same; [|exact H].
    + by eapply um_inv_same; [|exact Hd].
Qed.

#[local] Instance exists_pending_dec u id (l : list (Z * PendingConnection (P := P))) :
  Decision (∃ pc, (id, pc) ∈ l ∧ pc_upstream pc = u).
Proof.
  refine (cast_if (decide (Exists (λ x, x.1 = id ∧ pc_upstream x.2 = u) l)));
    rewrite Exists_exists in *.
  - destruct e as ([i pc] & Hin & <- & <-). by exists pc.
  - intros (pc & Hin & Hu). apply n. by exists (id, pc).
Defined.

(** The whole loop. *)
Record opened_with ups (u : Z) (l : list (Z * PendingConnection)) m m' : Prop := mkOpenedWith {
  ow_inv : um_inv m';
  ow_pool : um_pool m' = um_pool m;
  ow_next : next_upstream_id m' = next_upstream_id m;
  ow_pending id : um_pending m' !! id =
    if bool_decide (∃ pc, (id, pc) ∈ l ∧ pc_upstream pc = u) then None else um_pending m !! id;
  ow_connections id pc : (id, pc) ∈ l → pc_upstream pc = u →
    um_connections m' !! id = (proceed_outcome ups (um_pool m) u id (pc_request pc)).1;
  ow_others id : (∀ pc, (id, pc) ∈ l → pc_upstream pc ≠ u) →
    um_connections m' !! id = um_connections m !! id;
  ow_out : um_out m' = um_out m ++ concat ((λ x, (proceed_outcome ups (um_pool m) u x.1 (pc_request x.2)).2)
    <$> filter (λ x, pc_upstream x.2 = u) l);
}.

Lemma proceed_loop_spec ups u l m :
  um_inv m → um_pool m !! u = Some US_SESSION_OPENED → NoDup l.*1 →
  (∀ id pc, (id, pc) ∈ l → um_pending m !! id = Some pc) →
  okP (proceed_loop ups u l m) (opened_with ups u l m).
Proof.
  revert m. induction l as [|[id pc] l IH]; intros m Hinv Hu Hnd Hl; cbn [UpstreamMux.proceed_loop].
  { apply okP_ret. split; [done..| |done|by rewrite app_nil_r]. by intros id pc ?%not_elem_of_nil. }
  apply NoDup_cons in Hnd as [Hni Hnd]. cbn [fst] in Hni.
  assert (∀ pc', (id, pc') ∉ l) as Hni' by (intros pc' Hin; apply Hni, list_elem_of_fmap; by exists (id, pc')).
  case_bool_decide as Hpu.
  - assert (um_pending m !! id = Some pc) as Hp by (apply Hl; left).
    assert (um_connections m !! id = None) as Hc.
    { destruct (inv_disjoint _ Hinv id) as [?|?]; [done|congruence]. }
    destruct (proceed_pending_spec ups u id (pc_request pc) m) as [(m1 & Hm1 & Hpr) Hinv1];
      [done|done|by eexists|by apply (inv_ids _ Hinv); right; eexists|done|].
    rewrite Hpu, Hm1. cbn [mbind res_bind]. rewrite Hpr.
    eapply okP_mono; [apply IH; [done|done|done|]|].
    { intros id' pc' Hin. cbn [proceeded um_pending]. rewrite lookup_delete_ne; [apply Hl; by right|].
      intros ->. by eapply Hni'. }
    intros m' [H1 H2 H3 H4 H5 H6 H7]. cbn [proceeded um_pool um_pending um_connections next_upstream_id um_out] in *.
    split; [done|done|done|..].
    + intros id'. rewrite H4. destruct (decide (id' = id)) as [->|Hne].
      * rewrite (bool_decide_eq_true_2 (∃ pc', (id, pc') ∈ (id, pc) :: l ∧ _)) by (exists pc; split; [left|done]).
        rewrite lookup_delete_eq. by case_bool_decide.
      * rewrite lookup_delete_ne by done. erewrite bool_decide_ext; [done|].
        split; intros (pc' & Hin & ?); exists pc'; (split; [|done]); [by right|].
        apply elem_of_cons in Hin as [?|?]; [by simplify_eq|done].
    + intros id' pc' [?|Hin]%elem_of_cons Hpu'; [simplify_eq|by apply H5].
      rewrite H6 by (intros pc' Hin; by destruct (Hni' pc')).
      destruct (proceed_outcome _ _ _ _ _).1; [apply lookup_insert_eq|done].
    + intros id' Hno. rewrite H6 by (intros pc' Hin; apply Hno; by right).
      destruct (proceed_outcome _ _ _ _ _).1; [|done]. apply lookup_insert_ne.
      intros ->. by apply (Hno pc); [left|].
    + rewrite H7, filter_cons_True, fmap_cons by done. cbn [concat fst snd]. by rewrite app_assoc.
  - eapply okP_mono; [apply IH; [done|done|done|intros; apply Hl; by right]|].
    intros m' [H1 H2 H3 H4 H5 H6 H7]. split; [done|done|done|..].
    + intros id'. rewrite H4. erewrite bool_decide_ext; [done|].
      split; intros (pc' & Hin & ?); exists pc'; (split; [|done]); [by right|].
      apply elem_of_cons in Hin as [?|?]; [by simplify_eq|done].
    + intros id' pc' [?|Hin]%elem_of_cons Hpu'; [by simplify_eq|by apply H5].
    + intros id' Hno. apply H6. intros pc' Hin. apply Hno. by right.
    + rewrite H7, filter_cons_False by done. done.
Qed.

Lemma refuse_loop_spec u l m :
  um_inv m →
  um_inv (refuse_loop u l m) ∧ um_pool (refuse_loop u l m) = um_pool m ∧
  um_connections (refuse_loop u l m) = um_connections m.
Proof.
  revert m. induction l as [|[id pc] l IH]; intros m Hinv; cbn [UpstreamMux.refuse_loop]; [done|].
  case_bool_decide; [|by apply IH]. cbv zeta. set (m1 := with_pending _ _).
  destruct (IH m1) as (H1 & H2 & H3); [|by rewrite H2, H3].
  subst m1. unfold um_raise. apply (um_inv_drop_pending (out_um _ m)). by apply um_inv_out.
Qed.

(** ** Closing *)

(** [m'] is [m] with the connections of the upstream [u] closed and reported. *)
Record closed_of (u : Z) m m' : Prop := mkClosedOf {
  co_inv : um_inv m';
  co_pool : um_pool m' = um_pool m;
  co_pending : um_pending m' = um_pending m;
  co_next : next_upstream_id m' = next_upstream_id m;
  co_mine id : um_connections m' !! id ≠ Some u;
  co_others id u' : u' ≠ u → um_connections m' !! id = Some u' ↔ um_connections m !! id = Some u';
  co_error : um_pending_error m' = um_pending_error m;
}.

Lemma connections_closed_spec u ids m :
  um_inv m → is_Some (um_pool m !! u) → NoDup ids →
  (∀ id, id ∈ ids ↔ um_connections m !! id = Some u) →
  okP (connections_closed u ids m) (closed_of u m).
Proof.
  revert m. induction ids as [|id ids IH]; intros m Hinv Hu Hnd Hids; cbn [UpstreamMux.connections_closed].
  { apply okP_ret. split; try done. intros id Hid%Hids. by apply not_elem_of_nil in Hid. }
  apply NoDup_cons in Hnd as [Hni Hnd].
  assert (um_connections m !! id = Some u) as Hc by (apply Hids; left).
  unfold UpstreamMux.connection_closed. destruct Hu as [st Hu]. rewrite Hu.
  rewrite (um_assert_true (bool_decide (is_Some (um_connections m !! id))))
    by (apply bool_decide_eq_true; by eexists). cbn [mbind res_bind].
  eapply okP_mono; [apply IH; [|by eexists|done|]|].
  - apply um_inv_out, um_inv_drop_connection, Hinv.
  - intros id'. cbn. rewrite lookup_delete_Some, <- Hids, elem_of_cons. split; [|naive_solver].
    intros Hin. split; [by intros ->|by right].
  - intros m' [H1 H2 H3 H4 H5 H6 H7]. split; try done. intros id' u' Hne. rewrite H6 by done.
    cbn. rewrite lookup_delete_Some. split; [tauto|]. intros Hl. split; [|done]. intros ->. congruence.
Qed.

(** The contract of [close_session]: a child reports exactly its connections. *)
Definition ups_ok ups m : Prop :=
  ∀ u, is_Some (um_pool m !! u) →
    NoDup (closes ups u) ∧ ∀ id, id ∈ closes ups u ↔ um_connections m !! id = Some u.

Lemma child_close_session_spec ups u m :
  um_inv m → is_Some (um_pool m !! u) → ups_ok ups m →
  okP (child_close_session ups u m) (λ m', closed_of u m m' ∧
    ∀ u', u' ≠ u → is_Some (um_pool m !! u') →
      NoDup (closes ups u') ∧ ∀ id, id ∈ closes ups u' ↔ um_connections m' !! id = Some u').
Proof.
  intros Hinv Hu Hok. destruct (Hok u Hu) as [Hnd Hin].
  eapply okP_mono; [apply connections_closed_spec; [by apply um_inv_out|done|done|done]|].
  intros m' [H1 H2 H3 H4 H5 H6 H7]. split; [by split|].
  intros u' Hne Hu'. destruct (Hok u' Hu') as [Hnd' Hin']. split; [done|].
  intros id. rewrite Hin', H6 by done. done.
Qed.

Lemma close_upstream_spec u m :
  um_inv m → is_Some (um_pool m !! u) → (∀ id, um_connections m !! id ≠ Some u) →
  okP (close_upstream u m) (λ m', um_inv m' ∧ um_pool m' = delete u (um_pool m) ∧
    um_connections m' = um_connections m ∧ um_pending m' = um_pending m ∧
    next_upstream_id m' = next_upstream_id m).
Proof.
  intros Hinv [st Hu] Hno. unfold UpstreamMux.close_upstream. rewrite Hu.
  pose proof (um_inv_drop_upstream m u Hno Hinv) as Hinv'. cbv zeta. cbn [with_pool um_pool].
  destruct (negb _); [by apply okP_ret|]. cbn [with_session_open um_pending_error with_pool].
  destruct (um_pending_error m); apply okP_ret; (split; [|done]); unfold um_raise; apply um_inv_out;
    by eapply um_inv_same; [|exact Hinv'].
Qed.

Lemma close_all_spec ups fuel m :
  um_inv m → ups_ok ups m → (size (um_pool m) ≤ fuel)%nat →
  okP (close_all ups fuel m) (λ m', um_inv m' ∧ um_pool m' = ∅ ∧ um_pending m' = um_pending m ∧
    next_upstream_id m' = next_upstream_id m).
Proof.
  revert m. induction fuel as [|fuel IH]; intros m Hinv Hok Hs; cbn [UpstreamMux.close_all];
    (destruct (iter (um_pool m)) as [|[u st] l] eqn:Hi;
     [apply okP_ret; split_and!; [done| |done|done];
      apply map_to_list_empty_iff, Permutation_nil_r; by rewrite <- iter_spec, Hi|]).
  all: assert (um_pool m !! u = Some st) as Hu by (apply elem_of_iter; rewrite Hi; left).
  { apply Nat.le_0_r, map_size_empty_iff in Hs. by rewrite Hs, lookup_empty in Hu. }
  eapply okP_bind; [apply child_close_session_spec; [done|by eexists|done]|].
  intros m1 [[H1 H2 H3 H4 H5 H6 H7] Hok1].
  eapply okP_bind; [apply close_upstream_spec; [done|by rewrite H2; eexists|done]|].
  intros m2 (Hinv2 & Hp2 & Hc2 & Hpe2 & Hn2).
  eapply okP_mono; [apply IH; [done| |]|].
  - intros u' [st' Hu']. rewrite Hp2, H2 in Hu'. apply lookup_delete_Some in Hu' as [Hne Hu'].
    rewrite Hc2. apply Hok1; [done|]. by eexists.
  - rewrite Hp2, H2. rewrite map_size_delete_Some by by eexists. lia.
  - intros m' (? & ? & -> & ->). by rewrite Hpe2, Hn2, H3, H4.
Qed.

Lemma close_sessions_spec ups l m :
  um_inv m → NoDup l.*1 → (∀ u, u ∈ l.*1 → is_Some (um_pool m !! u) ∧
    NoDup (closes ups u) ∧ ∀ id, id ∈ closes ups u ↔ um_connections m !! id = Some u) →
  okP (close_sessions ups l m) (λ m', um_inv m' ∧ um_pool m' = um_pool m ∧
    um_pending m' = um_pending m ∧ next_upstream_id m' = next_upstream_id m).
Proof.
  revert m. induction l as [|[u st] l IH]; intros m Hinv Hnd Hl; cbn [UpstreamMux.close_sessions].
  { by apply okP_ret. }
  apply NoDup_cons in Hnd as [Hni Hnd]. cbn [fst] in Hni.
  destruct (Hl u) as (Hu & Hcn & Hci); [left|].
  eapply okP_bind; [apply connections_closed_spec; [by apply um_inv_out|done|done|done]|].
  intros m1 [H1 H2 H3 H4 H5 H6 H7].
  eapply okP_mono; [apply IH; [done|done|]|].
  - intros u' Hu'. destruct (Hl u') as (Hx & Hy & Hz); [by right|]. rewrite H2.
    split_and!; [done|done|]. intros id. rewrite Hz, H6; [done|]. intros ->. done.
  - intros m' (? & -> & -> & ->). by rewrite H2, H3, H4.
Qed.

(** The end of [close_session], after the children have closed theirs. *)
Lemma um_cleared (l : list (Z * PendingConnection (P := P))) m1 :
  let m' := with_error None (foldl (λ m x, um_raise (CHILD_ERROR x.1
              (mkError AG_ECONNRESET (Some "Session closed"%string))) m)
              (with_pending ∅ (with_connections ∅ (with_pool ∅ m1))) l) in
  um_inv m' ∧ um_pool m' = ∅ ∧ um_connections m' = ∅ ∧ um_pending m' = ∅.
Proof.
  cbv zeta. set (m2 := with_pending ∅ _).
  assert (um_inv m2 ∧ um_pool m2 = ∅ ∧ um_connections m2 = ∅ ∧ um_pending m2 = ∅) as Hm2.
  { split; [|done]. split; cbn; try done; try by intros *.
    - rewrite map_size_empty. lia.
    - intros id. by left.
    - by intros id [[? ?]|[? ?]]. }
  clearbody m2. assert (∀ m, um_inv m ∧ um_pool m = ∅ ∧ um_connections m = ∅ ∧ um_pending m = ∅ →
    um_inv (with_error None m) ∧ um_pool m = ∅ ∧ um_connections m = ∅ ∧ um_pending m = ∅) as He.
  { intros m' (? & ? & ? & ?). split; [|done]. by apply (um_inv_same m'). }
  revert m2 Hm2. induction l as [|x l IH]; intros m2 Hm2; cbn [foldl]; [exact (He m2 Hm2)|].
  apply IH. destruct Hm2 as (? & ? & ? & ?). split; [by apply um_inv_out|done].
Qed.

Lemma um_close_session_spec ups m :
  um_inv m → ups_ok ups m →
  okP (um_close_session ups m) (λ m', um_inv m' ∧ um_pool m' = ∅ ∧ um_connections m' = ∅ ∧
    um_pending m' = ∅).
Proof.
  intros Hinv Hok. unfold UpstreamMux.um_close_session.
  eapply okP_bind; [apply close_sessions_spec; [done|apply iter_NoDup|]|].
  - intros u ([u' st] & -> & Hu%elem_of_iter)%list_elem_of_fmap. split; [by eexists|]. apply Hok. by eexists.
  - intros m1 _. apply okP_ret. apply um_cleared.
Qed.

(** ** Children that report more than their connections

    Nothing but the assertion on a reported id is at stake, and only in a debug
    build. *)
Definition runs {B} (r : res B) (Q : B → Prop) : Prop :=
  match r with Ok x => Q x | Abort => ndebug = false | UB => False end.

Lemma runs_bind {B C} (r : res B) (f : B → res C) (R : B → Prop) (Q : C → Prop) :
  runs r R → (∀ x, R x → runs (f x) Q) → runs (r ≫= f) Q.
Proof. destruct r; cbn; auto. Qed.

Lemma runs_ok {B} (r : res B) (R Q : B → Prop) : okP r R → (∀ x, R x → Q x) → runs r Q.
Proof. intros (x & -> & Hx) H. by apply H. Qed.

Lemma runs_mono {B} (r : res B) (R Q : B → Prop) : runs r R → (∀ x, R x → Q x) → runs r Q.
Proof. destruct r; cbn; auto. Qed.

Lemma runs_assert {B} (b : bool) (m : res B) (Q : B → Prop) : runs m Q → runs (_ ← um_assert ndebug b; m) Q.
Proof. intros H. unfold um_assert. destruct b, ndebug eqn:?; simpl; done. Qed.

Record reported (ids : list Z) m m' : Prop := mkReported {
  re_inv : um_inv m';
  re_pool : um_pool m' = um_pool m;
  re_connections : um_connections m' ⊆ um_connections m;
  re_ids id : id ∈ ids → um_connections m' !! id = None;
}.

Lemma connections_closed_any u ids m :
  um_inv m → is_Some (um_pool m !! u) → runs (connections_closed u ids m) (reported ids m).
Proof.
  revert m. induction ids as [|id ids IH]; intros m Hinv [st Hu]; cbn [UpstreamMux.connections_closed].
  { cbn. split; try done. by intros id ?%elem_of_nil. }
  unfold UpstreamMux.connection_closed. rewrite Hu.
  set (m1 := um_raise (CHILD_CONNECTION_CLOSED id) (with_connections (delete id (um_connections m)) m)).
  eapply (runs_bind _ _ (.= m1)); [by apply runs_assert|]. intros ? ->.
  eapply runs_mono; [apply IH; [by apply um_inv_out, um_inv_drop_connection|by exists st]|].
  intros m' [H1 H2 H3 H4]. assert (um_connections m1 ⊆ um_connections m) as Hsub by apply delete_subseteq.
  split; [done..|by etrans|]. intros i [->|Hi]%elem_of_cons; [|by apply H4].
  destruct (um_connections m' !! id) as [x|] eqn:E; [|done]. apply (lookup_weaken _ (um_connections m1)) in E; [|done].
  cbn in E. by rewrite lookup_delete_eq in E.
Qed.

(** The contract of [close_session]: a child reports all of its connections. *)
Definition reports_all ups m : Prop :=
  ∀ u id, is_Some (um_pool m !! u) → um_connections m !! id = Some u → id ∈ closes ups u.

Lemma child_close_any ups u m :
  um_inv m → is_Some (um_pool m !! u) → reports_all ups m →
  runs (child_close_session ups u m) (λ m', um_inv m' ∧ um_pool m' = um_pool m ∧ reports_all ups m'
    ∧ ∀ id, um_connections m' !! id ≠ Some u).
Proof.
  intros Hinv Hu Hall. eapply runs_mono; [apply connections_closed_any; [by apply um_inv_out|done]|].
  intros m' [H1 H2 H3 H4]. split_and!; [done|done| |].
  - intros u' id Hu' Hid. rewrite H2 in Hu'. apply (Hall u' id Hu'). by eapply lookup_weaken.
  - intros id E. rewrite H4 in E; [done|]. apply (Hall u id Hu). by eapply lookup_weaken.
Qed.

Lemma close_all_any ups fuel m :
  um_inv m → reports_all ups m → (size (um_pool m) ≤ fuel)%nat → runs (close_all ups fuel m) um_inv.
Proof.
  revert m. induction fuel as [|fuel IH]; intros m Hinv Hall Hs; cbn [UpstreamMux.close_all];
    (destruct (iter (um_pool m)) as [|[u st] l] eqn:Hi; [done|]).
  all: assert (um_pool m !! u = Some st) as Hu by (apply elem_of_iter; rewrite Hi; left).
  { apply Nat.le_0_r, map_size_empty_iff in Hs. by rewrite Hs, lookup_empty in Hu. }
  eapply runs_bind; [apply child_close_any; [done|by eexists|done]|]. intros m1 (H1 & H2 & H3 & H4).
  eapply runs_bind; [eapply runs_ok; [apply close_upstream_spec; [done|by rewrite H2; eexists|done]|intros x Hx; exact Hx]|].
  intros m2 (Hinv2 & Hp2 & Hc2 & _). apply IH; [done| |].
  - intros u' id Hu'. rewrite Hc2. rewrite Hp2 in Hu'. apply H3. destruct Hu' as [? [_ ?]%lookup_delete_Some]. by eexists.
  - rewrite Hp2, H2. rewrite map_size_delete_Some by by eexists. lia.
Qed.

Lemma close_sessions_any ups l m :
  um_inv m → reports_all ups m → (∀ u, u ∈ l.*1 → is_Some (um_pool m !! u)) → runs (close_sessions ups l m) (λ _, True).
Proof.
  revert m. induction l as [|[u st] l IH]; intros m Hinv Hall Hl; cbn [UpstreamMux.close_sessions]; [done|].
  eapply runs_bind; [apply child_close_any; [done|apply Hl; left|done]|]. intros m1 (H1 & H2 & H3 & _).
  apply IH; [done..|]. intros u' Hu'. rewrite H2. apply Hl. by right.
Qed.

Lemma um_close_session_any ups m : um_inv m → reports_all ups m → runs (um_close_session ups m) um_inv.
Proof.
  intros Hinv Hall. unfold UpstreamMux.um_close_session. eapply runs_bind; [apply close_sessions_any; try done|].
  - intros u ([u' st] & -> & Hu%elem_of_iter)%list_elem_of_fmap. by eexists.
  - intros m1 _. apply um_cleared.
Qed.

(** ** Runs *)

(** The operations of the multiplexer and the events of its children. *)
Inductive um_op :=
| OpOpenSession (timeout : option Z)
| OpOpenConnection (id : Z) (request : P)
| OpOnConnection (what id : Z)
| OpOnAll (what : Z)
| OpHealthCheck
| OpIcmpRequest
| OpChildEvent (u : Z) (e : ChildEvent)
| OpCloseSession.

Definition um_run ups (op : um_op) m : res UpstreamMux :=
  match op with
  | OpOpenSession timeout => r ← um_open_session ups timeout m; Ok r.2
  | OpOpenConnection id request => r ← um_open_connection ups id request m; Ok r.2
  | OpOnConnection what id => Ok (um_forward what tt tt id m).2
  | OpOnAll what => Ok (on_all (@iter) what m)
  | OpHealthCheck => Ok (um_do_health_check (@iter) m)
  | OpIcmpRequest => r ← um_on_icmp_request m; Ok r.2
  | OpChildEvent u e => child_upstream_handler ups u e m
  | OpCloseSession => um_close_session ups m
  end.

(** What the client and the children keep to: the ids of connections are fresh; a
    child that closes its session, or reports it closed, has reported all of its
    connections. *)
Definition um_allowed ups (op : um_op) m : Prop :=
  match op with
  | OpOpenConnection id _ =>
      um_connections m !! id = None ∧ um_pending m !! id = None ∧ id ≠ UM_NON_ID
  | OpChildEvent u CHILD_SESSION_CLOSED => ∀ id, um_connections m !! id ≠ Some u
  | OpChildEvent _ (CHILD_ERROR id _) => id = UM_NON_ID → reports_all ups m
  | OpCloseSession => reports_all ups m
  | _ => True
  end.

(** The operations no assertion is about: a session is opened when there is none,
    an echo request comes when one is open, a child that raises an event is in the
    pool, and the connections it reports as closed, or closes, are registered with
    it. *)
Definition um_expected ups (op : um_op) m : Prop :=
  match op with
  | OpOpenSession _ => um_pool m = ∅
  | OpIcmpRequest => opened m ≠ []
  | OpChildEvent u e =>
      is_Some (um_pool m !! u) ∧
      match e with
      | CHILD_CONNECTION_CLOSED id => um_connections m !! id = Some u
      | CHILD_ERROR id _ => if id =? UM_NON_ID then ups_ok ups m else um_connections m !! id = Some u
      | _ => True
      end
  | OpCloseSession => ups_ok ups m
  | _ => True
  end.

Inductive um_reach : UpstreamMux → Prop :=
| um_reach_new n : um_reach (um_new n)
| um_reach_step ups op m m' : um_reach m → um_allowed ups op m → um_run ups op m = Ok m' → um_reach m'.

Lemma on_all_same what m : same_tables m (on_all (@iter) what m).
Proof.
  unfold on_all. generalize (iter (um_pool m)). intros l.
  enough (∀ m1, same_tables m m1 → same_tables m (foldl (λ m x, out_um (CallOnUpstream x.1 what) m) m1 l))
    as H by by apply H.
  induction l as [|x l IH]; intros m1 H1; cbn [foldl]; [done|]. apply IH. exact H1.
Qed.

Lemma health_check_same m : same_tables m (um_do_health_check (@iter) m).
Proof.
  pose proof (on_all_same 0 m) as H0. unfold um_do_health_check, um_cancel_health_check.
  destruct (UpstreamMux.opened _ _) as [|x l]; [done|].
  enough (∀ m1, same_tables m m1 → same_tables m (foldl (λ m x, out_um (CallOnUpstream x.1 3) m) m1 l))
    as H by by apply H.
  clear. induction l as [|y l IH]; intros m1 H1; cbn [foldl]; [done|]. apply IH. exact H1.
Qed.

Lemma session_opened_run ups u m :
  um_inv m → is_Some (um_pool m !! u) →
  okP (child_upstream_handler ups u CHILD_SESSION_OPENED m) (λ m', ∃ m1,
    um_connections m1 = um_connections m ∧ um_pending m1 = um_pending m ∧
    next_upstream_id m1 = next_upstream_id m ∧
    um_pool m1 = <[u := US_SESSION_OPENED]> (um_pool m) ∧
    um_out m1 = um_out m ++ (if um_session_open m then [] else [UmRaised CHILD_SESSION_OPENED]) ∧
    opened_with ups u (iter (um_pending m)) m1 m').
Proof.
  intros Hinv [st Hu]. unfold UpstreamMux.child_upstream_handler. rewrite Hu. cbv zeta.
  set (m0 := if um_session_open m then m else _).
  assert (um_connections m0 = um_connections m ∧ um_pending m0 = um_pending m ∧ um_pool m0 = um_pool m ∧
    next_upstream_id m0 = next_upstream_id m ∧
    um_out m0 = um_out m ++ (if um_session_open m then [] else [UmRaised CHILD_SESSION_OPENED]))
    as (Hc & Hpe & Hpo & Hn & Ho).
  { subst m0. destruct (um_session_open m); [by rewrite app_nil_r|done]. }
  set (m1 := with_pool _ m0).
  assert (um_inv m1) as Hinv1.
  { apply um_inv_session_opened; [by rewrite Hpo; eexists|]. by apply (um_inv_same m). }
  eapply okP_mono; [apply proceed_loop_spec; [done|by apply lookup_insert_eq|apply iter_NoDup|]|].
  - intros id pc Hin%elem_of_iter. exact Hin.
  - intros m' Hm'. exists m1.
    split_and!; [exact Hc|exact Hpe|exact Hn|by subst m1; cbn; rewrite Hpo|exact Ho|].
    rewrite <- Hpe. exact Hm'.
Qed.

Lemma um_run_spec ups op m :
  um_inv m → um_allowed ups op m → um_expected ups op m → okP (um_run ups op m) um_inv.
Proof.
  intros Hinv Hall Hal. destruct op as [timeout|id request|what id|what| | |u e|]; cbn [um_run um_allowed um_expected] in *.
  - unfold UpstreamMux.um_open_session. rewrite bool_decide_eq_true_2 by done. cbn [negb].
    pose proof (select_upstream_spec ups m Hinv) as Hsel.
    destruct (select_upstream_for_connection _ ups m) as [u m1].
    destruct Hsel as [[[st Hu] _]|(Hu & -> & -> & Hs & _)]; [by rewrite Hal, lookup_empty in Hu|].
    eapply okP_bind; [apply open_new_upstream_spec; [done|simpl; lia|done|apply um_inv_next; [lia|done]]|].
    intros [b m2] [H2 _]. by apply okP_ret.
  - destruct Hall as (? & ? & ?). eapply okP_bind; [by apply um_open_connection_spec|].
    intros [r m2] [H2 _]. by apply okP_ret.
  - apply okP_ret. unfold um_forward. destruct (get_upstream_by_conn id m); simpl; [by apply um_inv_out|done].
  - apply okP_ret. eapply um_inv_same; [apply on_all_same|done].
  - apply okP_ret. eapply um_inv_same; [apply health_check_same|done].
  - unfold UpstreamMux.um_on_icmp_request. destruct (UpstreamMux.opened _ _); [done|].
    apply okP_ret. by apply um_inv_out.
  - destruct Hal as [Hu Hal]. destruct e as [| |id|what id|id err].
    + eapply okP_mono; [by apply session_opened_run|]. intros m' (m1 & _ & _ & _ & _ & _ & H). apply H.
    + destruct Hu as [st Hu]. unfold UpstreamMux.child_upstream_handler. rewrite Hu.
      destruct (refuse_loop_spec u (iter (um_pending m)) m Hinv) as (H1 & H2 & H3).
      eapply okP_mono; [apply close_upstream_spec; [done|by rewrite H2; eexists|by rewrite H3]|].
      by intros m' [? _].
    + destruct Hu as [st Hu]. unfold UpstreamMux.child_upstream_handler, UpstreamMux.connection_closed.
      rewrite Hu. rewrite (um_assert_true (bool_decide (is_Some _)))
        by (apply bool_decide_eq_true; by eexists). cbn [mbind res_bind].
      apply okP_ret. by apply um_inv_out, um_inv_drop_connection.
    + destruct Hu as [st Hu]. unfold UpstreamMux.child_upstream_handler. rewrite Hu.
      apply okP_ret. by apply um_inv_out.
    + unfold UpstreamMux.child_upstream_handler. destruct Hu as [st Hu]. rewrite Hu.
      destruct (Z.eqb_spec id UM_NON_ID) as [Hid|Hid]; cbn [negb].
      2:{ apply okP_ret. by apply um_inv_out, um_inv_drop_connection. }
      destruct (um_is_fatal_error err).
      * cbv zeta. set (m1 := if negb _ then _ else m).
        assert (same_tables m m1) as Hm1 by (subst m1; by destruct (negb _)).
        pose proof Hm1 as (Hc & Hp & _).
        eapply okP_mono; [apply close_all_spec; [by eapply um_inv_same| |done]|by intros m' [? _]].
        intros u'. rewrite Hp, Hc. apply Hal.
      * eapply okP_bind; [apply child_close_session_spec; [done|by eexists|done]|].
        intros m1 [[H1 H2 H3 H4 H5 H6 H7] _].
        eapply okP_mono; [apply close_upstream_spec; [done|by rewrite H2; eexists|done]|].
        by intros m' [? _].
  - eapply okP_mono; [by apply um_close_session_spec|]. by intros m' [? _].
Qed.

(** What the others do, up to their assertion. *)
Lemma um_run_any ups op m : um_inv m → um_allowed ups op m → runs (um_run ups op m) um_inv.
Proof.
  intros Hinv Hal.
  assert (um_expected ups op m → runs (um_run ups op m) um_inv) as Hexp.
  { intros He. eapply runs_ok; [by apply um_run_spec|done]. }
  destruct op as [timeout|id request|what id|what| | |u e|]; try (by apply Hexp); cbn [um_run um_allowed] in *.
  - destruct (decide (um_pool m = ∅)) as [E|E]; [by apply Hexp|]. unfold UpstreamMux.um_open_session.
    rewrite bool_decide_eq_false_2 by done. cbn [negb]. eapply (runs_bind _ _ (.= (false, m))); [by apply runs_assert|]. by intros ? ->.
  - unfold UpstreamMux.um_on_icmp_request. destruct (UpstreamMux.opened _ _); [|by apply um_inv_out].
    eapply (runs_bind _ _ (.= (false, m))); [by apply runs_assert|]. by intros ? ->.
  - destruct (um_pool m !! u) as [st|] eqn:Hu; [|unfold UpstreamMux.child_upstream_handler; rewrite Hu; by apply runs_assert].
    destruct e as [| |id|what id|id err].
    + apply Hexp. by split; [eexists|].
    + apply Hexp. by split; [eexists|].
    + unfold UpstreamMux.child_upstream_handler, UpstreamMux.connection_closed. rewrite Hu. apply runs_assert.
      by apply um_inv_out, um_inv_drop_connection.
    + apply Hexp. by split; [eexists|].
    + unfold UpstreamMux.child_upstream_handler. rewrite Hu. destruct (Z.eqb_spec id UM_NON_ID) as [->|Hid]; cbn [negb].
      2:{ by apply um_inv_out, um_inv_drop_connection. }
      specialize (Hal eq_refl). destruct (um_is_fatal_error err).
      * cbv zeta. set (m1 := if negb _ then _ else m).
        assert (same_tables m m1) as Hm1 by (subst m1; by destruct (negb _)).
        pose proof Hm1 as (Hc & Hp & _). apply close_all_any; [by eapply um_inv_same| |done].
        intros u' i. rewrite Hp, Hc. apply Hal.
      * eapply runs_bind; [apply child_close_any; [done|by eexists|done]|]. intros m1 (H1 & H2 & _ & H4).
        eapply runs_ok; [apply close_upstream_spec; [done|by rewrite H2; eexists|done]|]. by intros m' [? _].
  - by apply um_close_session_any.
Qed.

Lemma um_reach_inv m : um_reach m → um_inv m.
Proof.
  induction 1 as [n|ups op m m' _ IH Hal Hrun].
  - split; cbn; try done; try by intros *.
    + rewrite map_size_empty. lia.
    + intros id. by left.
    + by intros id [[? ?]|[? ?]].
  - pose proof (um_run_any ups op m IH Hal) as H. by rewrite Hrun in H.
Qed.

(** Claim C19. In every state the multiplexer can reach, every operation and every event
    of a child is handled, and fails no assertion but those on what others do: a
    session opened while there are sessions, an echo request while none is open, an
    event of a child that is not in the pool, a connection reported as closed that is
    not registered with the child; these stop a debug build, and a release build goes
    on in a state where all of this still holds.  At most [DEFAULT_UPSTREAMS_NUM]
    sessions are open; a connection that is registered is so with an opened session
    of the pool, and is not pending as well.  Ids of connections are fresh, and a
    child reports all of its connections before its session is gone. *)
Theorem um_runs_safely m :
  um_reach m →
  (size (um_pool m) ≤ DEFAULT_UPSTREAMS_NUM)%nat ∧
  (∀ id u, um_connections m !! id = Some u → um_pool m !! u = Some US_SESSION_OPENED) ∧
  (∀ id, um_connections m !! id = None ∨ um_pending m !! id = None) ∧
  ∀ ups op, um_allowed ups op m →
    match um_run ups op m with
    | Ok m' => um_reach m'
    | Abort => ndebug = false ∧ ¬ um_expected ups op m
    | UB => False
    end.
Proof.
  intros Hr. pose proof (um_reach_inv m Hr) as Hinv. split_and!; [apply Hinv..|].
  intros ups op Hal. pose proof (um_run_any ups op m Hinv Hal) as Hany.
  destruct (um_run ups op m) as [m'| |] eqn:Hrun; [by eapply um_reach_step| |done].
  split; [done|]. intros He. destruct (um_run_spec ups op m Hinv Hal He) as (? & Heq & _). congruence.
Qed.

(** The choice of a session for a new connection: one below the
    threshold if there is any; otherwise, when a new one may not be opened, the
    one with the fewest connections; none only when all are loaded and another
    may be opened. *)
Theorem select_existing_upstream_spec ups ignored allow m :
  match select_existing_upstream ups ignored allow m with
  | Some id =>
      is_Some (um_pool m !! id) ∧ ignored ≠ Some id ∧
      (¬ loaded ups m id ∨
       (∀ x, is_Some (um_pool m !! x) → ignored ≠ Some x → loaded ups m x) ∧
       (allow = true ∨ size (um_pool m) = DEFAULT_UPSTREAMS_NUM) ∧
       (∀ x, is_Some (um_pool m !! x) → ignored ≠ Some x →
          connections_num ups id ≤ connections_num ups x))
  | None =>
      (∀ x, is_Some (um_pool m !! x) → ignored ≠ Some x → loaded ups m x) ∧
      (allow = true ∨ size (um_pool m) = DEFAULT_UPSTREAMS_NUM →
       ∀ x, is_Some (um_pool m !! x) → ignored = Some x)
  end.
Proof. apply select_existing_cases. Qed.

(** ** Outcomes of pending connections *)

Lemma elem_of_concat {B} (x : B) (l : list (list B)) : x ∈ concat l ↔ ∃ y, x ∈ y ∧ y ∈ l.
Proof. setoid_rewrite list_elem_of_In. rewrite in_concat. naive_solver. Qed.

(** What was sent out between two states. *)
Definition news m m' : list UmOut := drop (length (um_out m)) (um_out m').

Definition errors_about (id : Z) (l : list (UmOut (P := P))) : Prop :=
  ∃ e, UmRaised (CHILD_ERROR id e) ∈ l.

Lemma outcome_errors ups pool u id req :
  (errors_about id (proceed_outcome ups pool u id req).2 ↔
   accepts_connection ups u id = false ∧
   ∃ f l, iter pool = (f, US_SESSION_OPENED) :: l ∧ accepts_connection ups f id = false) ∧
  ∀ id', errors_about id' (proceed_outcome ups pool u id req).2 → id' = id.
Proof.
  unfold errors_about, proceed_outcome. setoid_rewrite list_elem_of_In.
  destruct (accepts_connection ups u id); [|destruct (iter pool) as [|[f []] l];
    [| |destruct (accepts_connection ups f id) eqn:Hf]]; cbn [snd In]; split; try naive_solver.
  split; [naive_solver|]. intros (_ & f0 & l0 & [= <- <-] & ?). congruence.
Qed.

(** When a session is opened, every connection that waited for it
    stops waiting: it is registered with that session, or, refused there, with
    the first session of the pool, or reported as failed.  There is one
    exception: refused by the opened session while the first session of the pool
    is still opening, it is dropped without being registered or reported.
    Connections waiting for other sessions keep waiting. *)
Theorem session_opened_serves_pending ups u m :
  um_reach m → is_Some (um_pool m !! u) →
  okP (child_upstream_handler ups u CHILD_SESSION_OPENED m) (λ m',
    (∀ id pc, um_pending m !! id = Some pc → pc_upstream pc ≠ u → um_pending m' !! id = Some pc) ∧
    ∀ id pc, um_pending m !! id = Some pc → pc_upstream pc = u →
      um_pending m' !! id = None ∧
      (if accepts_connection ups u id then um_connections m' !! id = Some u
       else match iter (<[u := US_SESSION_OPENED]> (um_pool m)) with
            | (f, US_SESSION_OPENED) :: _ =>
                if accepts_connection ups f id then um_connections m' !! id = Some f
                else um_connections m' !! id = None ∧ errors_about id (news m m')
            | _ => um_connections m' !! id = None ∧ ¬ errors_about id (news m m')
            end)).
Proof.
  intros Hr%um_reach_inv Hu. eapply okP_mono; [by apply session_opened_run|].
  intros m' (m1 & Hc & Hpe & Hn & Hpo & Ho & [Hinv' H2 H3 H4 H5 H6 H7]). split.
  - intros id pc Hp Hne. rewrite H4, bool_decide_eq_false_2; [by rewrite Hpe|].
    intros (pc' & Hin%elem_of_iter & Heq). congruence.
  - intros id pc Hp Heq. assert ((id, pc) ∈ iter (um_pending m)) as Hin by by apply elem_of_iter.
    split; [rewrite H4, bool_decide_eq_true_2; [done|]; by exists pc|].
    assert (errors_about id (news m m') ↔
      errors_about id (proceed_outcome ups (um_pool m1) u id (pc_request pc)).2) as Herr.
    { unfold news. rewrite H7, Ho, <- app_assoc, drop_app_length. unfold errors_about.
      setoid_rewrite elem_of_app. split.
      - intros [e [He|He]]; [by destruct (um_session_open m); set_solver|].
        apply elem_of_concat in He as (o & He & Hx). apply list_elem_of_fmap in Hx as ([id' pc'] & -> & Hx).
        apply list_elem_of_filter in Hx as [Hu' Hx]. cbn [fst snd] in *.
        assert (id = id') as <- by (eapply (proj2 (outcome_errors _ _ _ _ _)); by exists e).
        apply elem_of_iter in Hx. assert (pc' = pc) as -> by congruence. by exists e.
      - intros [e He]. exists e. right. apply elem_of_concat. eexists. split; [exact He|].
        apply list_elem_of_fmap. exists (id, pc). split; [done|]. by apply list_elem_of_filter. }
    specialize (H5 id pc Hin Heq). rewrite (proj1 (outcome_errors _ _ _ _ _)), Hpo in Herr.
    rewrite Hpo in H5. unfold proceed_outcome in H5.
    destruct (accepts_connection ups u id); [done|].
    destruct (iter (<[u:=US_SESSION_OPENED]> (um_pool m))) as [|[f []] l];
      [split; [done|]; rewrite Herr; naive_solver..|].
    destruct (accepts_connection ups f id) eqn:Hf; [done|]. split; [done|]. apply Herr.
    split; [done|]. by exists f, l.
Qed.

(** ** Connections left behind *)

(** An event that tells the parent what became of the connection [id]. *)
Definition outcome_of (id : Z) (o : UmOut (P := P)) : Prop :=
  match o with
  | UmRaised (CHILD_CONNECTION_CLOSED i) => i = id
  | UmRaised (CHILD_ERROR i _) => i = id
  | _ => False
  end.

(** From [m] to [m'] the connection [id] stays pending on a session that is not
    in the pool, and nothing is reported about it. *)
Record leaves (id : Z) (pc : PendingConnection) m m' : Prop := mkLeaves {
  lv_id : id ≠ UM_NON_ID;
  lv_pending : um_pending m' !! id = Some pc;
  lv_pool : um_pool m' !! pc_upstream pc = None;
  lv_next : pc_upstream pc < next_upstream_id m';
  lv_connections : um_connections m' !! id = None;
  lv_out : ∃ new, um_out m' = um_out m ++ new ∧ Forall (λ o, ¬ outcome_of id o) new;
}.

Lemma leaves_trans id pc m m1 m2 : leaves id pc m m1 → leaves id pc m1 m2 → leaves id pc m m2.
Proof.
  intros [_ _ _ _ _ (n1 & H1 & Hf1)] [? ? ? ? ? (n2 & H2 & Hf2)]. split; try done.
  exists (n1 ++ n2). rewrite H2, H1, <- app_assoc. split; [done|]. by apply Forall_app.
Qed.

Lemma leaves_refl id pc m m' : leaves id pc m m' → leaves id pc m' m'.
Proof. intros []. split; try done. exists []. by rewrite app_nil_r. Qed.

Section Stranded.
Variables (id : Z) (pc : PendingConnection (P := P)).
Notation leaves := (leaves id pc).
Notation stranded m := (leaves m m).

Lemma leaves_out o m : ¬ outcome_of id o → stranded m → leaves m (out_um o m).
Proof. intros Ho []. split; try done. exists [o]. split; [done|]. by apply Forall_singleton. Qed.

Lemma leaves_open_on ups v id' req m :
  id' ≠ id → is_Some (um_pool m !! v) → stranded m →
  safe (open_on ups v id' req m) (λ r, leaves m r.2).
Proof.
  intros Hne [st Hv] Hs. unfold UpstreamMux.open_on. rewrite Hv. destruct st.
  - apply safe_ret. destruct Hs. split; try done. simpl. unfold emplace.
    destruct (um_pending m !! id'); [done|]. by rewrite lookup_insert_ne.
  - cbv zeta. pose proof (leaves_out (CallOpenConnection v id' req) m ltac:(by intros []) Hs) as Ho.
    destruct (accepts_connection ups v id'); apply safe_ret; [|done].
    destruct Ho as [? ? ? ? Hc ?]. split; try done. simpl in *. unfold emplace.
    destruct (um_connections m !! id'); [done|]. by rewrite lookup_insert_ne.
Qed.

Lemma leaves_select ups m :
  um_inv m → stranded m →
  let '(u, m') := select_upstream_for_connection (@iter) ups m in
  leaves m m' ∧ um_pool m' = um_pool m ∧ (is_Some (um_pool m !! u) ∨ u = next_upstream_id m).
Proof.
  intros Hinv Hs. pose proof (select_upstream_spec ups m Hinv) as Hsel.
  destruct (select_upstream_for_connection _ ups m) as [u m'].
  destruct Hsel as [[Hu ->]|(Hu & -> & -> & _)]; [auto|]. split; [|auto].
  destruct Hs. split; try done. simpl. lia.
Qed.

Lemma leaves_new_upstream ups u timeout m :
  pc_upstream pc ≠ u → stranded m → safe (open_new_upstream ups u timeout m) (λ r, leaves m r.2).
Proof.
  intros Hu Hs. unfold UpstreamMux.open_new_upstream.
  apply (safe_bind _ _ (λ _, True)); [done|]. intros _ _. cbv zeta.
  pose proof (leaves_out (CallOpenSession u timeout) m ltac:(by intros []) Hs) as Ho.
  destruct (accepts_session ups u); apply safe_ret; [|done].
  destruct Ho. split; try done. simpl. by rewrite lookup_insert_ne.
Qed.

Lemma leaves_open_connection ups id' req m :
  um_inv m → um_pending m !! id' = None → stranded m →
  safe (um_open_connection ups id' req m) (λ r, leaves m r.2).
Proof.
  intros Hinv Hid Hs. assert (id' ≠ id) as Hne by (intros ->; by rewrite (lv_pending _ _ _ _ Hs) in Hid).
  unfold UpstreamMux.um_open_connection. case_bool_decide; [by apply safe_ret|].
  pose proof (leaves_select ups m Hinv Hs) as Hsel.
  destruct (select_upstream_for_connection _ ups m) as [u m1]. destruct Hsel as (Hm1 & Hp1 & Hu).
  assert (∀ v m2, leaves m m2 → is_Some (um_pool m2 !! v) →
    safe ('(ok, m) ← open_on ups v id' req m2; Ok (if (ok : bool) then id' else UM_NON_ID, m)) (λ r, leaves m r.2)) as Hon.
  { intros v m2 Hm2 Hv. eapply safe_bind; [apply leaves_open_on; [done|done|by eapply leaves_refl]|].
    intros [ok m3] Hm3. apply safe_ret. by eapply leaves_trans. }
  destruct (um_pool m1 !! u) as [st|] eqn:Hl; [apply Hon; [done|by eexists]|].
  eapply safe_bind; [apply leaves_new_upstream; [|by eapply leaves_refl]|].
  { destruct Hu as [[st Hu]|Hu]; [by rewrite Hp1, Hu in Hl|]. pose proof (lv_next _ _ _ _ Hs). lia. }
  intros [op m2] Hm2. cbn [snd] in Hm2. pose proof (leaves_trans _ _ _ _ _ Hm1 Hm2) as Hm12.
  destruct op.
  - apply safe_ret. destruct Hm12. split; try done. simpl. unfold emplace.
    destruct (um_pending m2 !! id'); [done|]. by rewrite lookup_insert_ne.
  - pose proof (select_existing_cases ups (Some u) true m2) as Hx.
    destruct (UpstreamMux.select_existing_upstream _ _ _ _ _) as [r|]; [|by apply safe_ret].
    apply Hon; [done|apply Hx].
Qed.

Lemma leaves_connections_closed u ids m :
  id ∉ ids → stranded m → safe (connections_closed u ids m) (leaves m).
Proof.
  revert m. induction ids as [|i ids IH]; intros m Hi Hs; cbn [UpstreamMux.connections_closed]; [by apply safe_ret|].
  rewrite not_elem_of_cons in Hi. destruct Hi as [Hne Hi].
  apply (safe_bind _ _ (leaves m)).
  - unfold UpstreamMux.connection_closed. destruct (um_pool m !! u).
    + apply (safe_bind _ _ (λ _, True)); [done|]. intros _ _. apply safe_ret.
      pose proof (leaves_out (UmRaised (CHILD_CONNECTION_CLOSED i)) m ltac:(by intros ->) Hs) as Ho.
      destruct Ho. split; try done. simpl. by rewrite lookup_delete_ne.
    + apply (safe_bind _ _ (λ _, True)); [done|]. intros _ _. by apply safe_ret.
  - intros m1 Hm1. eapply safe_mono; [apply IH; [done|by eapply leaves_refl]|].
    intros m2 Hm2. by eapply leaves_trans.
Qed.

Lemma leaves_close_session ups u m :
  ups_ok ups m → is_Some (um_pool m !! u) → stranded m →
  safe (child_close_session ups u m) (leaves m).
Proof.
  intros Hok Hu Hs. unfold UpstreamMux.child_close_session.
  pose proof (leaves_out (CallCloseSession u) m ltac:(by intros []) Hs) as Ho.
  eapply safe_mono; [apply leaves_connections_closed|].
  - intros Hin%(proj2 (Hok u Hu)). by rewrite (lv_connections _ _ _ _ Hs) in Hin.
  - by eapply leaves_refl.
  - intros m' Hm'. by eapply leaves_trans.
Qed.

Lemma leaves_close_upstream u m : stranded m → safe (close_upstream u m) (leaves m).
Proof.
  intros Hs. unfold UpstreamMux.close_upstream. destruct (um_pool m !! u) as [st|].
  2:{ apply (safe_bind _ _ (λ _, True)); [done|]. intros _ _. by apply safe_ret. }
  cbv zeta. assert (leaves m (with_pool (delete u (um_pool m)) m)) as H1.
  { destruct Hs. split; try done. simpl. apply lookup_delete_None. by right. }
  destruct (negb _); [by apply safe_ret|].
  cbn [with_session_open with_pool um_pending_error].
  destruct (um_pending_error m); apply safe_ret; unfold um_raise; destruct H1; split; try done;
    simpl; eexists; (split; [reflexivity|]); apply Forall_singleton; simpl; [|tauto]. by intros <-.
Qed.

Lemma leaves_close_all ups fuel m :
  um_inv m → ups_ok ups m → stranded m → safe (close_all ups fuel m) (leaves m).
Proof.
  revert m. induction fuel as [|fuel IH]; intros m Hinv Hok Hs; cbn [UpstreamMux.close_all];
    (destruct (iter (um_pool m)) as [|[u st] l] eqn:Hi; [by apply safe_ret|]); [done|].
  assert (is_Some (um_pool m !! u)) as Hu by (exists st; apply elem_of_iter; rewrite Hi; left).
  destruct (child_close_session_spec ups u m Hinv Hu Hok) as (m1 & Hm1 & [H1 H2 H3 H4 H5 H6 H7] & Hok1).
  pose proof (leaves_close_session ups u m Hok Hu Hs m1 Hm1) as Hl1. rewrite Hm1. cbn [mbind res_bind].
  destruct (close_upstream_spec u m1 H1 ltac:(by rewrite H2) H5) as (m2 & Hm2 & Hinv2 & Hp2 & Hc2 & _).
  pose proof (leaves_close_upstream u m1 ltac:(by eapply leaves_refl) m2 Hm2) as Hl2.
  rewrite Hm2. cbn [mbind res_bind].
  eapply safe_mono; [apply IH; [done| |by eapply leaves_refl]|].
  - intros u' [st' Hu']. rewrite Hp2, H2 in Hu'. apply lookup_delete_Some in Hu' as [Hne Hu'].
    rewrite Hc2. apply Hok1; [done|]. by eexists.
  - intros m3 Hm3. eapply leaves_trans; [exact Hl1|]. by eapply leaves_trans.
Qed.

Lemma leaves_refuse_loop u l m :
  pc_upstream pc ≠ u → (∀ pc', (id, pc') ∈ l → pc' = pc) → stranded m → leaves m (refuse_loop u l m).
Proof.
  revert m. induction l as [|[i pc'] l IH]; intros m Hu Hl Hs; cbn [UpstreamMux.refuse_loop]; [done|].
  case_bool_decide as He; [|apply IH; [done|intros; apply Hl; by right|done]]. cbv zeta.
  assert (i ≠ id) as Hne by (intros ->; rewrite (Hl pc' ltac:(left)) in He; done).
  set (m1 := with_pending _ _).
  assert (leaves m m1) as H1.
  { pose proof (leaves_out (UmRaised (CHILD_ERROR i (mkError AG_ECONNREFUSED (Some "Session closed"%string)))) m
      ltac:(by intros ->) Hs) as Ho. destruct Ho. split; try done. simpl. by rewrite lookup_delete_ne. }
  eapply leaves_trans; [exact H1|]. apply IH; [done|intros; apply Hl; by right|by eapply leaves_refl].
Qed.

Lemma leaves_session_opened ups u m :
  um_inv m → is_Some (um_pool m !! u) → stranded m →
  safe (child_upstream_handler ups u CHILD_SESSION_OPENED m) (leaves m).
Proof.
  intros Hinv Hu Hs m' Hm'. pose proof Hs as [Hid Hp Hpo Hn Hc _].
  assert (pc_upstream pc ≠ u) as Hne by (intros <-; rewrite Hpo in Hu; by destruct Hu).
  destruct (session_opened_run ups u m Hinv Hu) as (m2 & Heq & m1 & Hc1 & Hpe1 & Hn1 & Hpo1 & Ho1 & [H1 H2 H3 H4 H5 H6 H7]).
  rewrite Hm' in Heq. injection Heq as <-.
  assert (∀ pc', (id, pc') ∈ iter (um_pending m) → pc' = pc) as Hun.
  { intros pc' Hin%elem_of_iter. congruence. }
  split; [done|..].
  - rewrite H4, Hpe1. rewrite bool_decide_eq_false_2; [done|]. intros (pc' & ->%Hun & ?). done.
  - by rewrite H2, Hpo1, lookup_insert_ne.
  - by rewrite H3, Hn1.
  - rewrite H6, Hc1; [done|]. by intros pc' ->%Hun.
  - rewrite H7, Ho1, <- app_assoc. eexists. split; [done|]. apply Forall_app. split.
    + destruct (um_session_open m); [constructor|]. apply Forall_singleton. by intros [].
    + apply Forall_forall. intros o (y & Hoy & Hy)%elem_of_concat.
      apply list_elem_of_fmap in Hy as ([i pc'] & -> & Hx).
      apply list_elem_of_filter in Hx as [Hu' Hx]. cbn [fst snd] in *.
      intros Hout. assert (i = id) as ->.
      { unfold proceed_outcome in Hoy. rewrite list_elem_of_In in Hoy.
        repeat case_match; simpl in Hoy; naive_solver. }
      apply Hun in Hx. by subst.
Qed.

Lemma leaves_same_out m m' :
  same_tables m m' → (∃ new, um_out m' = um_out m ++ new ∧ Forall (λ o, ¬ outcome_of id o) new) →
  stranded m → leaves m m'.
Proof.
  intros (Hc & Hp & Hpe & Hn) Ho [H1 H2 H3 H4 H5 _]. split; rewrite ?Hc, ?Hp, ?Hpe, ?Hn; done.
Qed.

Lemma leaves_foldl what (l : list (Z * UpstreamState)) m :
  stranded m → leaves m (foldl (λ m x, out_um (CallOnUpstream x.1 what) m) m l).
Proof.
  revert m. induction l as [|x l IH]; intros m Hs; cbn [foldl]; [done|].
  pose proof (leaves_out (CallOnUpstream x.1 what) m ltac:(by intros []) Hs) as Ho.
  eapply leaves_trans; [exact Ho|]. apply IH. by eapply leaves_refl.
Qed.

Lemma leaves_run ups op m :
  um_inv m → um_allowed ups op m → um_expected ups op m → op ≠ OpCloseSession → stranded m → safe (um_run ups op m) (leaves m).
Proof.
  intros Hinv Hall Hal Hop Hs. destruct op as [timeout|id' request|what id'|what| | |u e|];
    cbn [um_run um_allowed um_expected] in *; [..|done].
  - apply (safe_bind _ _ (λ r, leaves m r.2)); [|intros r ?; by apply safe_ret].
    unfold UpstreamMux.um_open_session. rewrite bool_decide_eq_true_2 by done. cbn [negb].
    pose proof (leaves_select ups m Hinv Hs) as Hsel.
    destruct (select_upstream_for_connection _ ups m) as [u m1]. destruct Hsel as (Hm1 & _ & Hu).
    eapply safe_mono; [apply leaves_new_upstream; [|by eapply leaves_refl]|].
    + destruct Hu as [[st Hu]|Hu]; [by rewrite Hal, lookup_empty in Hu|]. pose proof (lv_next _ _ _ _ Hs). lia.
    + intros r Hr. by eapply leaves_trans.
  - destruct Hall as (_ & Hp & _).
    apply (safe_bind _ _ (λ r, leaves m r.2)); [|intros r ?; by apply safe_ret].
    by apply leaves_open_connection.
  - apply safe_ret. unfold um_forward. destruct (get_upstream_by_conn id' m); simpl; [|done].
    by apply leaves_out; [intros []|].
  - apply safe_ret. by apply leaves_foldl.
  - apply safe_ret. unfold um_do_health_check, um_cancel_health_check, on_all.
    pose proof (leaves_foldl 0 (iter (um_pool m)) m Hs) as H0.
    destruct (UpstreamMux.opened _ _) as [|x l]; [done|].
    pose proof (leaves_out (CallOnUpstream x.1 4) _ ltac:(by intros []) (leaves_refl _ _ _ _ H0)) as H1.
    eapply leaves_trans; [exact H0|]. eapply leaves_trans; [exact H1|]. apply leaves_foldl. by eapply leaves_refl.
  - unfold UpstreamMux.um_on_icmp_request. destruct (UpstreamMux.opened _ _); [done|].
    apply safe_ret. by apply leaves_out; [intros []|].
  - destruct Hal as [[st Hu] Hal].
    assert (pc_upstream pc ≠ u) as Hne by (intros <-; by rewrite (lv_pool _ _ _ _ Hs) in Hu).
    destruct e as [| |i|what i|i err].
    + apply leaves_session_opened; [done|by eexists|done].
    + unfold UpstreamMux.child_upstream_handler. rewrite Hu.
      assert (leaves m (refuse_loop u (iter (um_pending m)) m)) as Hr.
      { apply leaves_refuse_loop; [done| |done]. intros pc' Hin%elem_of_iter.
        rewrite (lv_pending _ _ _ _ Hs) in Hin. congruence. }
      eapply safe_mono; [apply leaves_close_upstream; by eapply leaves_refl|].
      intros m' Hm'. by eapply leaves_trans.
    + unfold UpstreamMux.child_upstream_handler. rewrite Hu.
      intros m' Hm'. eapply (leaves_connections_closed u [i]); [|done|].
      * intros ->%list_elem_of_singleton. by rewrite (lv_connections _ _ _ _ Hs) in Hal.
      * cbn [UpstreamMux.connections_closed]. by rewrite Hm'.
    + unfold UpstreamMux.child_upstream_handler. rewrite Hu. apply safe_ret.
      by apply leaves_out; [intros []|].
    + unfold UpstreamMux.child_upstream_handler. rewrite Hu.
      destruct (Z.eqb_spec i UM_NON_ID) as [Hid|Hid]; cbn [negb].
      2:{ apply safe_ret. assert (i ≠ id) by (intros ->; by rewrite (lv_connections _ _ _ _ Hs) in Hal).
          pose proof (leaves_out (UmRaised (CHILD_ERROR i err)) m ltac:(by intros ->) Hs) as Ho.
          destruct Ho. split; try done. simpl. by rewrite lookup_delete_ne. }
      destruct (um_is_fatal_error err).
      * cbv zeta. set (m1 := if negb _ then _ else m).
        assert (same_tables m m1 ∧ um_out m1 = um_out m) as [Hm1 Ho] by (subst m1; by destruct (negb _)).
        assert (leaves m m1) as Hl1.
        { apply leaves_same_out; [done| |done]. exists []. by rewrite app_nil_r. }
        pose proof Hm1 as (Hc & Hp & _).
        eapply safe_mono; [apply leaves_close_all; [by eapply um_inv_same| |by eapply leaves_refl]|].
        -- intros u'. rewrite Hp, Hc. apply Hal.
        -- intros m' Hm'. by eapply leaves_trans.
      * eapply safe_bind; [apply leaves_close_session; [done|by eexists|done]|].
        intros m1 Hm1. eapply safe_mono; [apply leaves_close_upstream; by eapply leaves_refl|].
        intros m' Hm'. by eapply leaves_trans.
Qed.

Lemma connections_closed_out u ids m :
  safe (connections_closed u ids m) (λ m', ∃ new, um_out m' = um_out m ++ new ∧
    Forall (λ o, ∃ i, i ∈ ids ∧ o = UmRaised (CHILD_CONNECTION_CLOSED i)) new).
Proof.
  revert m. induction ids as [|i ids IH]; intros m; cbn [UpstreamMux.connections_closed].
  { apply safe_ret. exists []. by rewrite app_nil_r. }
  apply (safe_bind _ _ (λ m1, um_out m1 = um_out m ∨
    um_out m1 = um_out m ++ [UmRaised (CHILD_CONNECTION_CLOSED i)])).
  - unfold UpstreamMux.connection_closed.
    destruct (um_pool m !! u); apply (safe_bind _ _ (λ _, True)); try done; intros _ _; apply safe_ret;
      [by right|by left].
  - intros m1 Hm1. eapply safe_mono; [apply IH|]. intros m2 (new & Hm2 & Hf).
    assert (Forall (λ o, ∃ i', i' ∈ i :: ids ∧ o = UmRaised (CHILD_CONNECTION_CLOSED i')) new) as Hf'.
    { eapply Forall_impl; [exact Hf|]. intros o (i' & ? & ->). exists i'. split; [by right|done]. }
    destruct Hm1 as [Hm1|Hm1]; rewrite Hm2, Hm1; [by exists new|].
    eexists. rewrite <- app_assoc. split; [done|]. apply Forall_app. split; [|done].
    apply Forall_singleton. exists i. split; [left|done].
Qed.

Lemma nonfatal_leaves ups u e m :
  um_inv m → um_pending m !! id = Some pc → pc_upstream pc = u → is_Some (um_pool m !! u) →
  ups_ok ups m → um_is_fatal_error e = false →
  okP (child_upstream_handler ups u (CHILD_ERROR UM_NON_ID e) m) (leaves m).
Proof.
  intros Hinv Hp Hpu Hu Hok Hf.
  assert (id ≠ UM_NON_ID) as Hid by (apply (inv_ids _ Hinv); right; by eexists).
  assert (um_connections m !! id = None) as Hc by (destruct (inv_disjoint _ Hinv id); congruence).
  unfold UpstreamMux.child_upstream_handler. destruct Hu as [st Hu]. rewrite Hu, Z.eqb_refl, Hf. cbn [negb].
  destruct (child_close_session_spec ups u m Hinv ltac:(by eexists) Hok)
    as (m1 & Hm1 & [H1 H2 H3 H4 H5 H6 H7] & _).
  destruct (connections_closed_out u (closes ups u) _ m1 Hm1) as (new & Ho & Hnew).
  rewrite Hm1. cbn [mbind res_bind].
  destruct (close_upstream_spec u m1 H1 ltac:(rewrite H2; by eexists) H5)
    as (m2 & Hm2 & Hinv2 & Hp2 & Hc2 & Hpe2 & Hn2).
  exists m2. split; [done|].
  assert (um_connections m1 !! id = None) as Hc1.
  { destruct (um_connections m1 !! id) as [v|] eqn:Hv; [|done]. exfalso.
    destruct (decide (v = u)) as [->|Hvu]; [by apply (H5 id)|]. apply H6 in Hv; [congruence|done]. }
  split; [done|by rewrite Hpe2, H3|by rewrite Hp2, H2, Hpu, lookup_delete_eq| |by rewrite Hc2|].
  - rewrite Hn2, H4. eapply inv_pending; [done|exact Hp].
  - assert (∃ l, um_out m2 = um_out m1 ++ l ∧ Forall (λ o, ¬ outcome_of id o) l) as (l & Hl & Hq).
    { unfold UpstreamMux.close_upstream in Hm2. rewrite H2, Hu in Hm2. cbv zeta in Hm2.
      destruct (negb _); [injection Hm2 as <-; exists []; by rewrite app_nil_r|].
      cbn [with_session_open with_pool um_pending_error] in Hm2.
      destruct (um_pending_error m1); injection Hm2 as <-; eexists; (split; [reflexivity|]);
        apply Forall_singleton; simpl; [|tauto]. by intros <-. }
    rewrite Hl, Ho. cbn [out_um um_out]. rewrite <- !app_assoc. eexists. split; [done|].
    apply Forall_app. split; [apply Forall_singleton; by intros []|]. apply Forall_app. split; [|done]. eapply Forall_impl; [exact Hnew|].
    intros o (i & Hi & ->) Hx. simpl in Hx. subst i. apply (Hok u ltac:(by eexists)) in Hi. congruence.
Qed.

End Stranded.

(** A step of the multiplexer other than closing its session, with nothing
    unexpected. *)
Definition um_step_open m m' : Prop :=
  ∃ ups op, um_allowed ups op m ∧ um_expected ups op m ∧ op ≠ OpCloseSession ∧ um_run ups op m = Ok m'.

(** A session that fails with an error that is not fatal takes the
    connections waiting for it along: they are neither moved to another session
    nor reported.  Whatever the multiplexer and its children do from then on,
    short of closing the whole session, such a connection stays pending and the
    tunnel never learns about it. *)
Theorem nonfatal_error_strands_pending ups u e m id pc :
  um_reach m → um_pending m !! id = Some pc → pc_upstream pc = u → is_Some (um_pool m !! u) →
  ups_ok ups m → um_is_fatal_error e = false →
  okP (child_upstream_handler ups u (CHILD_ERROR UM_NON_ID e) m) (λ m', ∀ m'',
    rtc um_step_open m' m'' →
    um_pending m'' !! id = Some pc ∧ Forall (λ o, ¬ outcome_of id o) (news m m'')).
Proof.
  intros Hr%um_reach_inv Hp Hpu Hu Hok Hf.
  destruct (um_run_spec ups (OpChildEvent u (CHILD_ERROR UM_NON_ID e)) m Hr) as (m' & Hm' & Hinv').
  { intros _ u' i Hu' Hi. by apply (Hok u' Hu'). }
  { split; [done|]. by rewrite Z.eqb_refl. }
  destruct (nonfatal_leaves id pc ups u e m Hr Hp Hpu Hu Hok Hf) as (m1 & Hm1 & Hl).
  cbn [um_run] in Hm'. rewrite Hm' in Hm1. injection Hm1 as <-.
  exists m'. split; [done|]. intros m'' Hsteps.
  assert (leaves id pc m m'') as [_ Hp'' _ _ _ (new & Ho & Hq)].
  { clear Hm'. induction Hsteps as [|m1 m2 m3 (ups' & op & Hal & He & Hop & Hrun) _ IH]; [done|].
    destruct (um_run_spec ups' op m1 Hinv' Hal He) as (m2' & Heq & Hinv2). assert (m2' = m2) as -> by congruence.
    apply IH; [done|]. eapply leaves_trans; [exact Hl|].
    eapply leaves_run; [done|done|done|done|by eapply leaves_refl|done]. }
  split; [done|]. unfold news. by rewrite Ho, drop_app_length.
Qed.

End Props.

(** ** A run

    One session is opening and one connection waits for it. *)

Definition in_order (B : Type) (mp : gmap Z B) : list (Z * B) := map_to_list mp.

Lemma in_order_spec B (mp : gmap Z B) : in_order B mp ≡ₚ map_to_list mp.
Proof. done. Qed.

Definition agreeable : Upstreams := mkUpstreams (λ _, 0) (λ _, true) (λ _ _, true) (λ _, []).

Notation ex_run := (um_run (P := unit) 104 111 false in_order agreeable).
Notation ex_reach := (um_reach (P := unit) 104 111 false in_order).

Definition ex_opening : UpstreamMux (P := unit) :=
  mkUpstreamMux ∅ {[0 := US_OPENING_SESSION]} ∅ None false 1 [CallOpenSession 0 None].

Definition ex_waiting : UpstreamMux (P := unit) :=
  mkUpstreamMux ∅ {[0 := US_OPENING_SESSION]} {[1 := mkPending 0 tt]} None false 1 [CallOpenSession 0 None].

Lemma ex_opening_reach : ex_reach ex_opening.
Proof.
  apply (um_reach_step 104 111 false in_order agreeable (OpOpenSession None) (um_new 0)).
  - apply um_reach_new.
  - done.
  - vm_compute. reflexivity.
Qed.

Lemma ex_waiting_reach : ex_reach ex_waiting.
Proof.
  apply (um_reach_step 104 111 false in_order agreeable (OpOpenConnection 1 tt) ex_opening).
  - apply ex_opening_reach.
  - by vm_compute.
  - vm_compute. reflexivity.
Qed.

Lemma ex_ups_ok : ups_ok agreeable ex_waiting.
Proof.
  intros u _. split; [apply NoDup_nil_2|]. intros id. simpl. rewrite lookup_empty.
  split; [by intros ?%not_elem_of_nil|done].
Qed.

Lemma um_runs_safely_witness :
  (size (um_pool ex_waiting) ≤ DEFAULT_UPSTREAMS_NUM)%nat ∧
  okP (ex_run (OpChildEvent 0 CHILD_SESSION_OPENED) ex_waiting) ex_reach.
Proof.
  destruct (um_runs_safely 104 111 false in_order in_order_spec ex_waiting ex_waiting_reach) as (H & _ & _ & Hop).
  split; [exact H|]. specialize (Hop agreeable (OpChildEvent 0 CHILD_SESSION_OPENED) I).
  destruct (ex_run (OpChildEvent 0 CHILD_SESSION_OPENED) ex_waiting) as [m'| |] eqn:E; [exists m'; by split|..];
    exfalso; vm_compute in E; discriminate.
Defined.

Lemma select_existing_upstream_spec_witness :
  select_existing_upstream in_order agreeable None false ex_waiting = Some 0 ∧
  is_Some (um_pool ex_waiting !! 0).
Proof.
  split; [vm_compute; reflexivity|].
  pose proof (select_existing_upstream_spec in_order in_order_spec agreeable None false ex_waiting) as H.
  exact (proj1 H).
Defined.

Lemma session_opened_serves_pending_witness :
  okP (child_upstream_handler 111 false in_order agreeable 0 CHILD_SESSION_OPENED ex_waiting)
    (λ m', um_connections m' !! 1 = Some 0 ∧ um_pending m' !! 1 = None).
Proof.
  destruct (session_opened_serves_pending 104 111 false in_order in_order_spec agreeable 0 ex_waiting
    ex_waiting_reach ltac:(by eexists)) as (m' & Hm & _ & H).
  exists m'. split; [exact Hm|]. destruct (H 1 (mkPending 0 tt) eq_refl eq_refl) as [H1 H2].
  split; [exact H2|exact H1].
Defined.

Lemma nonfatal_error_strands_pending_witness :
  okP (child_upstream_handler 111 false in_order agreeable 0
         (CHILD_ERROR UM_NON_ID (mkError VPN_EC_ERROR None)) ex_waiting)
    (λ m', um_pending m' !! 1 = Some (mkPending 0 tt)).
Proof.
  destruct (nonfatal_error_strands_pending 104 111 false in_order in_order_spec agreeable 0
    (mkError VPN_EC_ERROR None) ex_waiting 1 (mkPending 0 tt) ex_waiting_reach eq_refl eq_refl
    ltac:(by eexists) ex_ups_ok eq_refl) as (m' & Hm & H).
  exists m'. split; [exact Hm|]. apply (H m'). apply rtc_refl.
Defined.
