(* ===== verification/Connectors.v ===== *)
(** * Endpoint connectors

    [core/src/single_upstream_connector.cpp] and
    [core/src/fallbackable_upstream_connector.cpp]: how the client gets a session
    with the endpoint.  A single connector opens a session over one upstream; the
    fallbackable one starts with the main protocol, gives it a head start, tries
    the fallback as well and takes whichever session is there first.

    The upstreams are collaborators: the calls on them go to a trace, what
    [init] and [open_session] return is an [Answers] record, and the events they
    raise are inputs.  Both connectors leave tasks in the client's event loop. *)
From S2P Require Import Prelude Fsm EventLoop VpnTypes.

(** Which of the two upstreams, and the connector that owns it. *)
Inductive Side := SMain | SFallback.

#[export] Instance Side_eq_dec : EqDecision Side.
Proof. solve_decision. Defined.

(** [EndpointConnectorResult]: the connected upstream, or an error. *)
Inductive EndpointConnectorResult :=
| Connected (u : Side)
| Disconnected (e : VpnError).

Definition is_connected (r : EndpointConnectorResult) : bool :=
  match r with Connected _ => true | Disconnected _ => false end.

(** The lambdas left in the event loop. *)
Inductive ConnTask :=
| TDeferredDisconnect (c : Side)
| TStartFallback
| THandleResult (c : Side) (r : EndpointConnectorResult).

(** Calls on the upstreams and results raised for the client. *)
Inductive ConnOut :=
| UpInit (u : Side)
| UpOpenSession (u : Side) (timeout : option Z)
| UpCloseSession (u : Side)
| UpDeinit (u : Side)
| UpSleep (u : Side)
| UpWake (u : Side)
| UpSetHandler (u : Side)
| Result (r : EndpointConnectorResult).

Record Answers := mkAnswers { init_ok : Side → bool; open_ok : Side → bool }.

(** What a connector sees of its client. *)
Record World := mkWorld { cw_loop : VpnEventLoop ConnTask; cw_out : list ConnOut }.

Class ConnectorHost (W : Type) := {
  get_world : W → World;
  set_world : World → W → W;
  get_set_world x w : get_world (set_world x w) = x;
}.

#[export] Instance world_host : ConnectorHost World :=
  { get_world w := w; set_world x _ := x; get_set_world x _ := eq_refl }.

#[export, refine] Instance host_loop {W} `{!ConnectorHost W} : HasLoop W ConnTask :=
  { get_loop w := cw_loop (get_world w);
    set_loop l w := set_world (mkWorld l (cw_out (get_world w))) w }.
Proof. intros. by rewrite get_set_world. Defined.

Definition call {W} `{!ConnectorHost W} (o : ConnOut) (w : W) : W :=
  set_world (mkWorld (cw_loop (get_world w)) (cw_out (get_world w) ++ [o])) w.

(** ** The single connector *)

(** [State] and [Event]. *)
Definition S_DISCONNECTED : Z := 0.
Definition S_CONNECTING : Z := 1.
Definition S_DISCONNECTING : Z := 2.

Definition E_RUN_CONNECT : Z := 0.
Definition E_DISCONNECT : Z := 1.
Definition E_DEFERRED_DISCONNECT : Z := 2.
Definition E_SESSION_OPENED : Z := 3.
Definition E_SESSION_CLOSED : Z := 4.
Definition E_SESSION_ERROR : Z := 5.
Definition E_HEALTH_CHECK_ERROR : Z := 6.

(** The [void *data] of the machine's callbacks. *)
Inductive ConnData := NoData | TimeoutData (t : option Z) | ErrorData (e : VpnError).

(** Session events of an upstream; those about a connection do not occur
    before the session is handed over. *)
Inductive SessionEvent :=
| SESSION_OPENED
| SESSION_CLOSED
| SESSION_HEALTH_CHECK (e : option VpnError)
| SESSION_ERROR (id : Z) (e : VpnError)
| CONNECTION_EVENT.

(** [SingleUpstreamConnector::Impl]; [su_upstream] is false once the upstream
    has been moved out. *)
Record Single := mkSingle {
  su_state : Z;
  su_recursive : bool;
  su_upstream : bool;
  su_pending_error : option VpnError;
  su_deferred_task : option Z;
}.

Definition single_new : Single := mkSingle S_DISCONNECTED false true None None.

Section SingleConnector.
Context {W : Type} `{!ConnectorHost W}.
Variable ndebug : bool.
Variable NON_ID : Z.
Variable ups : Answers.
Variable u : Side.
Variable connector_handler : EndpointConnectorResult → W → res W.

(** The connector together with what it acts on. *)
Definition Impl : Type := Single * W.

#[refine] Instance impl_fsm : HasFsm Impl :=
  { m_current_state c := su_state c.1;
    m_recursive c := su_recursive c.1;
    set_current_state s c :=
      (mkSingle s (su_recursive c.1) (su_upstream c.1) (su_pending_error c.1) (su_deferred_task c.1), c.2);
    set_recursive b c :=
      (mkSingle (su_state c.1) b (su_upstream c.1) (su_pending_error c.1) (su_deferred_task c.1), c.2) }.
Proof. all: try done. by intros [[] ?]. Defined.

Implicit Types c : Impl.

Definition with_host (f : W → W) c : Impl := (c.1, f c.2).
Definition with_pending_error (e : option VpnError) c : Impl :=
  (mkSingle (su_state c.1) (su_recursive c.1) (su_upstream c.1) e (su_deferred_task c.1), c.2).
Definition with_deferred_task (t : option Z) c : Impl :=
  (mkSingle (su_state c.1) (su_recursive c.1) (su_upstream c.1) (su_pending_error c.1) t, c.2).
Definition with_upstream (b : bool) c : Impl :=
  (mkSingle (su_state c.1) (su_recursive c.1) b (su_pending_error c.1) (su_deferred_task c.1), c.2).

Definition conn_assert (b : bool) : res unit := if b || ndebug then Ok tt else Abort.

(** [upstream->...]: undefined once the pointer is null. *)
Definition on_upstream (o : ConnOut) c : res Impl :=
  if su_upstream c.1 then Ok (with_host (call o) c) else UB.

Definition su_do_connect c (data : ConnData) : res Impl :=
  timeout ← match data with NoData => Ok None | TimeoutData t => Ok t | ErrorData _ => UB end;
  c ← on_upstream (UpSetHandler u) c;
  c ← on_upstream (UpOpenSession u timeout) c;
  if open_ok ups u then Ok c
  else Ok (with_pending_error
             (Some (mkError VPN_EC_ERROR (Some "Failed to open session with endpoint"%string))) c).

(** The error of [data], if there is one and none is pending. *)
Definition note_error (data : ConnData) c : res Impl :=
  match data with
  | NoData => Ok c
  | ErrorData e =>
      if bool_decide (su_pending_error c.1 = None) && negb (code e =? VPN_EC_NOERROR)
      then Ok (with_pending_error (Some e) c) else Ok c
  | TimeoutData _ => UB
  end.

Definition su_do_disconnect c (data : ConnData) : res Impl :=
  c ← note_error data c;
  c ← on_upstream (UpCloseSession u) c;
  c ← on_upstream (UpDeinit u) c;
  Ok (with_deferred_task None (with_host (auto_reset (su_deferred_task c.1)) c)).

Definition su_submit_disconnect c (data : ConnData) : res Impl :=
  c ← note_error data c;
  let '(task, w) := auto_submit (mkTask (TDeferredDisconnect u) false) c.2 in
  let old := su_deferred_task c.1 in
  Ok (with_host (auto_reset old) (with_deferred_task task (c.1, w))).

Definition su_raise_connected c (_ : ConnData) : res Impl :=
  c ← on_upstream (UpSetHandler u) c;
  let c := with_upstream false c in
  w ← connector_handler (Connected u) c.2;
  Ok (c.1, w).

Definition su_raise_disconnected c (data : ConnData) : res Impl :=
  e ← match su_pending_error c.1, data with
      | Some e, _ => Ok e
      | None, NoData => Ok no_error
      | None, ErrorData e => Ok e
      | None, TimeoutData _ => UB
      end;
  let c := with_pending_error None c in
  w ← connector_handler (Disconnected e) c.2;
  Ok (c.1, w).

Definition SU_TRANSITION_TABLE : FsmTransitionTable Impl ConnData :=
  [ mkEntry S_DISCONNECTED E_RUN_CONNECT None (Some su_do_connect) S_CONNECTING None;
    mkEntry S_DISCONNECTED E_SESSION_CLOSED None None SAME_TARGET_STATE None;
    mkEntry S_DISCONNECTED E_DISCONNECT None None SAME_TARGET_STATE None;

    mkEntry S_CONNECTING E_SESSION_OPENED None None S_DISCONNECTED (Some su_raise_connected);
    mkEntry S_CONNECTING E_SESSION_CLOSED None None S_DISCONNECTED (Some su_raise_disconnected);
    mkEntry S_CONNECTING E_SESSION_ERROR None (Some su_submit_disconnect) S_DISCONNECTING None;

    mkEntry S_DISCONNECTING E_SESSION_CLOSED None None S_DISCONNECTED (Some su_raise_disconnected);
    mkEntry S_DISCONNECTING E_DEFERRED_DISCONNECT None (Some su_do_disconnect) S_DISCONNECTED
      (Some su_raise_disconnected);

    mkEntry ANY_SOURCE_STATE E_DISCONNECT None (Some su_do_disconnect) S_DISCONNECTED None ].

Definition su_perform (ev : Z) (data : ConnData) c : res Impl :=
  perform_transition ndebug SU_TRANSITION_TABLE ev data c.

(** [upstream_handler]. *)
Definition su_upstream_handler (what : SessionEvent) c : res Impl :=
  match what with
  | SESSION_OPENED => su_perform E_SESSION_OPENED NoData c
  | SESSION_CLOSED => su_perform E_SESSION_CLOSED NoData c
  | SESSION_HEALTH_CHECK e =>
      su_perform E_HEALTH_CHECK_ERROR (match e with Some e => ErrorData e | None => NoData end) c
  | SESSION_ERROR id e =>
      _ ← conn_assert (id =? NON_ID);
      su_perform E_SESSION_ERROR (ErrorData e) c
  | CONNECTION_EVENT => _ ← conn_assert false; Ok c
  end.

(** The task submitted by [submit_disconnect]. *)
Definition su_deferred c : res Impl :=
  su_perform E_DEFERRED_DISCONNECT NoData (with_deferred_task None c).

Definition su_disconnect c : res Impl := su_perform E_DISCONNECT NoData c.

Definition su_connect (timeout : option Z) c : res (VpnError * Impl) :=
  if negb (su_state c.1 =? S_DISCONNECTED)
  then Ok (mkError VPN_EC_ERROR (Some "Invalid state"%string), c)
  else
    c ← on_upstream (UpInit u) c;
    if negb (init_ok ups u)
    then Ok (mkError VPN_EC_ERROR (Some "Failed to initialize upstream"%string), c)
    else
      c ← su_perform E_RUN_CONNECT (TimeoutData timeout) c;
      match su_pending_error c.1 with
      | Some e =>
          c ← su_disconnect (with_pending_error None c);
          Ok (e, c)
      | None => Ok (no_error, c)
      end.

Definition su_handle_sleep c : res Impl :=
  if su_state c.1 =? S_CONNECTING then on_upstream (UpSleep u) c else Ok c.

Definition su_handle_wake c : res Impl :=
  if su_state c.1 =? S_CONNECTING then on_upstream (UpWake u) c else Ok c.

(** Destruction: the destructor of [deferred_task] cancels the task. *)
Definition su_destroy (s : Single) (w : W) : W := auto_reset (su_deferred_task s) w.

End SingleConnector.

(** ** The fallbackable connector *)

Record MainInfo := mkMain {
  mi_connector : option Single;
  mi_has_result : bool;
  mi_start_ts : Z;
  mi_result_task : option Z;
}.

Record FallbackInfo := mkFallback {
  fi_connector : option Single;
  fi_delay : Z;
  fi_tried : bool;
  fi_has_result : bool;
  fi_delay_task : option Z;
  fi_result_task : option Z;
}.

Record Fallbackable := mkFallbackable {
  m_main : MainInfo;
  m_fallback : FallbackInfo;
  m_connect_timeout : option Z;
  fb_world : World;
}.

Implicit Types f : Fallbackable.

#[export] Instance fallbackable_host : ConnectorHost Fallbackable :=
  { get_world := fb_world;
    set_world x f := mkFallbackable (m_main f) (m_fallback f) (m_connect_timeout f) x;
    get_set_world x _ := eq_refl }.

(** [MainInfo{}] and [FallbackInfo{}]. *)
Definition main_default : MainInfo := mkMain None false 0 None.
Definition fallback_default : FallbackInfo := mkFallback None 0 false false None None.

Definition fallbackable_new (fallback_delay : Z) (w : World) : Fallbackable :=
  mkFallbackable (mkMain (Some single_new) false 0 None)
    (mkFallback (Some single_new) fallback_delay false false None None) None w.

Definition set_main (x : MainInfo) f : Fallbackable :=
  mkFallbackable x (m_fallback f) (m_connect_timeout f) (fb_world f).
Definition set_fallback (x : FallbackInfo) f : Fallbackable :=
  mkFallbackable (m_main f) x (m_connect_timeout f) (fb_world f).

(** The slots of the two sides. *)
Definition side_connector (s : Side) f : option Single :=
  match s with SMain => mi_connector (m_main f) | SFallback => fi_connector (m_fallback f) end.
Definition side_has_result (s : Side) f : bool :=
  match s with SMain => mi_has_result (m_main f) | SFallback => fi_has_result (m_fallback f) end.
Definition side_result_task (s : Side) f : option Z :=
  match s with SMain => mi_result_task (m_main f) | SFallback => fi_result_task (m_fallback f) end.

Definition set_connector (s : Side) (x : option Single) f : Fallbackable :=
  match s with
  | SMain => set_main (let i := m_main f in
      mkMain x (mi_has_result i) (mi_start_ts i) (mi_result_task i)) f
  | SFallback => set_fallback (let i := m_fallback f in
      mkFallback x (fi_delay i) (fi_tried i) (fi_has_result i) (fi_delay_task i) (fi_result_task i)) f
  end.
Definition set_has_result (s : Side) (x : bool) f : Fallbackable :=
  match s with
  | SMain => set_main (let i := m_main f in
      mkMain (mi_connector i) x (mi_start_ts i) (mi_result_task i)) f
  | SFallback => set_fallback (let i := m_fallback f in
      mkFallback (fi_connector i) (fi_delay i) (fi_tried i) x (fi_delay_task i) (fi_result_task i)) f
  end.
Definition set_result_task (s : Side) (x : option Z) f : Fallbackable :=
  match s with
  | SMain => set_main (let i := m_main f in
      mkMain (mi_connector i) (mi_has_result i) (mi_start_ts i) x) f
  | SFallback => set_fallback (let i := m_fallback f in
      mkFallback (fi_connector i) (fi_delay i) (fi_tried i) (fi_has_result i) (fi_delay_task i) x) f
  end.
Definition set_delay_task (x : option Z) f : Fallbackable :=
  set_fallback (let i := m_fallback f in
    mkFallback (fi_connector i) (fi_delay i) (fi_tried i) (fi_has_result i) x (fi_result_task i)) f.
Definition set_tried (x : bool) f : Fallbackable :=
  set_fallback (let i := m_fallback f in
    mkFallback (fi_connector i) (fi_delay i) x (fi_has_result i) (fi_delay_task i) (fi_result_task i)) f.
Definition set_started (timeout : option Z) (now : Z) f : Fallbackable :=
  mkFallbackable (mkMain (mi_connector (m_main f)) (mi_has_result (m_main f)) now (mi_result_task (m_main f)))
    (m_fallback f) timeout (fb_world f).

Section FallbackableConnector.
Variable ndebug : bool.
Variable NON_ID : Z.
Variable ups : Answers.

(** [main_connector_handler] and [fallback_connector_handler], with
    [make_deferred_handle_task]. *)
Definition fb_connector_handler (s : Side) (r : EndpointConnectorResult) f : res Fallbackable :=
  _ ← conn_assert ndebug (bool_decide (side_result_task s f = None));
  let '(task, f) := auto_submit (mkTask (THandleResult s r) true) f in
  Ok (auto_reset (side_result_task s f) (set_result_task s task f)).

(** A method of one of the two connectors; a null pointer has none. *)
Definition on_connector (s : Side) (op : Impl (W := Fallbackable) → res (Impl (W := Fallbackable))) f :
    res Fallbackable :=
  match side_connector s f with
  | None => UB
  | Some c =>
      '(c, f) ← op (c, f);
      Ok (set_connector s (Some c) f)
  end.

Definition connector_connect (s : Side) (timeout : option Z) f : res (VpnError * Fallbackable) :=
  match side_connector s f with
  | None => UB
  | Some c =>
      '(e, (c, f)) ← su_connect ndebug ups s (fb_connector_handler s) timeout (c, f);
      Ok (e, set_connector s (Some c) f)
  end.

Definition connector_disconnect (s : Side) : Fallbackable → res Fallbackable :=
  on_connector s (su_disconnect ndebug ups s (fb_connector_handler s)).

(** [connector.reset()]. *)
Definition reset_connector (s : Side) f : Fallbackable :=
  match side_connector s f with
  | None => f
  | Some c => set_connector s None (su_destroy c f)
  end.

(** [m_main = {}] and [m_fallback = {}]: the old members are destroyed. *)
Definition reset_main f : Fallbackable :=
  let f := auto_reset (mi_result_task (m_main f)) (reset_connector SMain f) in
  set_main main_default f.
Definition reset_fallback f : Fallbackable :=
  let f := auto_reset (fi_delay_task (m_fallback f)) (reset_connector SFallback f) in
  let f := auto_reset (fi_result_task (m_fallback f)) f in
  set_fallback fallback_default f.

Definition other (s : Side) : Side := match s with SMain => SFallback | SFallback => SMain end.

(** [handle_connect_result]; [s] is the connector the result is from, if its
    address is still that of the main connector. *)
Definition handle_connect_result (s : Side) (r : EndpointConnectorResult) f : res Fallbackable :=
  let s := if bool_decide (s = SMain) && bool_decide (is_Some (mi_connector (m_main f)))
           then SMain else SFallback in
  f ← (if is_connected r && bool_decide (is_Some (side_connector (other s) f))
       then connector_disconnect (other s) f else Ok f);
  let f := set_result_task s None (set_has_result s true (reset_connector s f)) in
  let need_raise := is_connected r || (mi_has_result (m_main f) && fi_has_result (m_fallback f)) in
  if (need_raise : bool) then Ok (reset_fallback (reset_main (call (Result r) f)))
  else if negb (fi_tried (m_fallback f)) then
    let '(task, f) := auto_submit (mkTask TStartFallback false) f in
    Ok (auto_reset (fi_delay_task (m_fallback f)) (set_delay_task task f))
  else Ok f.

Definition fb_connect (timeout : option Z) (now : Z) f : res Fallbackable :=
  let f := set_started timeout now f in
  '(e, f) ← connector_connect SMain timeout f;
  if negb (code e =? VPN_EC_NOERROR) then handle_connect_result SMain (Disconnected e) f
  else
    '(task, f) ← auto_schedule (mkTask TStartFallback false) (fi_delay (m_fallback f)) f;
    Ok (auto_reset (fi_delay_task (m_fallback f)) (set_delay_task task f)).

Definition start_fallback_connection (now : Z) f : res Fallbackable :=
  _ ← conn_assert ndebug (negb (fi_tried (m_fallback f)));
  _ ← conn_assert ndebug (negb (fi_has_result (m_fallback f)));
  let f := set_tried true f in
  let timeout :=
    match m_connect_timeout f with
    | Some t => Some ((t - (now - mi_start_ts (m_main f))) `max` (t `quot` 10))
    | None => None
    end in
  '(e, f) ← connector_connect SFallback timeout f;
  if negb (code e =? VPN_EC_NOERROR) then handle_connect_result SFallback (Disconnected e) f
  else Ok f.

(** The tests [!has_result && connector != nullptr] of the two sides. *)
Definition main_active f : bool :=
  negb (mi_has_result (m_main f)) && bool_decide (is_Some (mi_connector (m_main f))).
Definition fallback_active f : bool :=
  fi_tried (m_fallback f) && negb (fi_has_result (m_fallback f))
  && bool_decide (is_Some (fi_connector (m_fallback f))).

Definition fb_disconnect f : res Fallbackable :=
  f ← (if main_active f then connector_disconnect SMain f else Ok f);
  let f := set_result_task SMain None (auto_reset (mi_result_task (m_main f)) f) in
  f ← (if fallback_active f then connector_disconnect SFallback f else Ok f);
  let f := set_delay_task None (auto_reset (fi_delay_task (m_fallback f)) f) in
  Ok (set_result_task SFallback None (auto_reset (fi_result_task (m_fallback f)) f)).

Definition fb_handle_sleep f : res Fallbackable :=
  f ← (if main_active f then on_connector SMain (su_handle_sleep SMain) f else Ok f);
  if fallback_active f then on_connector SFallback (su_handle_sleep SFallback) f else Ok f.

Definition fb_handle_wake f : res Fallbackable :=
  f ← (if main_active f then on_connector SMain (su_handle_wake SMain) f else Ok f);
  if fallback_active f then on_connector SFallback (su_handle_wake SFallback) f else Ok f.

(** An event of the upstream of one side. *)
Definition fb_upstream_event (s : Side) (what : SessionEvent) : Fallbackable → res Fallbackable :=
  on_connector s (su_upstream_handler ndebug NON_ID ups s (fb_connector_handler s) what).

(** The tasks: [self->m_fallback.delay_task.release()] comes first in both
    lambdas that start the fallback. *)
Definition fb_run_task (now : Z) (t : ConnTask) f : res Fallbackable :=
  match t with
  | TDeferredDisconnect s => on_connector s (su_deferred ndebug ups s (fb_connector_handler s)) f
  | TStartFallback => start_fallback_connection now (set_delay_task None f)
  | THandleResult s r => handle_connect_result s r f
  end.

End FallbackableConnector.
