(* ===== verification/ConnectorsProps.v ===== *)
(** * Properties of the endpoint connectors

    One connection attempt, seen from the client: it ends in exactly one
    result, it never stops silently, and a failure is reported only when both
    upstreams have been tried. *)
From S2P Require Import Prelude Fsm EventLoop LoopTasks VpnTypes Connectors.

(** ** One side of a connection attempt *)

Inductive Status := Idle | Connecting | Disconnecting | Reported (r : EndpointConnectorResult) | Done
  | Quiet | Gone.

Definition deferred_slot (s : Side) (d : option Z) : list (Z * ConnTask) :=
  match d with Some i => [(i, TDeferredDisconnect s)] | None => [] end.

(** What each status means for the connector, [has_result], [result_task] and
    the tasks in the loop. *)
Inductive side_is (s : Side) :
    Status → option Single → bool → option Z → list (Z * ConnTask) → Prop :=
| is_idle : side_is s Idle (Some single_new) false None []
| is_connecting :
    side_is s Connecting (Some (mkSingle S_CONNECTING false true None None)) false None []
| is_disconnecting e i :
    side_is s Disconnecting (Some (mkSingle S_DISCONNECTING false true e (Some i))) false None
      [(i, TDeferredDisconnect s)]
| is_reported up d i r :
    side_is s (Reported r) (Some (mkSingle S_DISCONNECTED false up None d)) false (Some i)
      ((i, THandleResult s r) :: deferred_slot s d)
| is_done : side_is s Done None true None []
| is_quiet up e d :
    side_is s Quiet (Some (mkSingle S_DISCONNECTED false up e d)) false None (deferred_slot s d)
| is_gone : side_is s Gone None false None [].

Implicit Types f : Fallbackable.

Definition side_at (s : Side) (st : Status) (xs : list (Z * ConnTask)) f : Prop :=
  side_is s st (side_connector s f) (side_has_result s f) (side_result_task s f) xs.

Definition delay_slot f : list (Z * ConnTask) :=
  match fi_delay_task (m_fallback f) with Some i => [(i, TStartFallback)] | None => [] end.

Definition results (out : list ConnOut) : list EndpointConnectorResult :=
  omap (λ o, match o with Result r => Some r | _ => None end) out.

Definition fb_out f : list ConnOut := cw_out (fb_world f).
Definition fb_loop f : VpnEventLoop ConnTask := cw_loop (fb_world f).

(** Nothing but side [s] and the world differs, and the trace has only grown by
    calls on upstreams. *)
Record only_side (s : Side) f f' : Prop := {
  os_connector : side_connector (other s) f' = side_connector (other s) f;
  os_result : side_has_result (other s) f' = side_has_result (other s) f;
  os_task : side_result_task (other s) f' = side_result_task (other s) f;
  os_tried : fi_tried (m_fallback f') = fi_tried (m_fallback f);
  os_delay : fi_delay_task (m_fallback f') = fi_delay_task (m_fallback f);
  os_results : results (fb_out f') = results (fb_out f);
  os_out : fb_out f ⊆ fb_out f';
}.

Lemma only_side_at s f f' st xs : only_side s f f' → side_at (other s) st xs f → side_at (other s) st xs f'.
Proof. intros [H1 H2 H3 _ _ _ _]. unfold side_at. by rewrite H1, H2, H3. Qed.

Lemma only_side_delay s f f' : only_side s f f' → delay_slot f' = delay_slot f.
Proof. intros H. unfold delay_slot. by rewrite (os_delay _ _ _ H). Qed.

Ltac only_side_tac :=
  split; simpl; try done; unfold fb_out, results; simpl; rewrite ?omap_app; simpl;
  rewrite ?app_nil_r; try done; set_solver.

(** An operation of side [s] that leaves it in status [st'], perhaps after
    putting tasks into the loop or taking its own out. *)
Definition side_step (s : Side) (ok : Status → Prop) (ys : list (Z * ConnTask)) f (r : res Fallbackable) : Prop :=
  okP r (λ f', ∃ st' xs', ok st' ∧ side_at s st' xs' f' ∧ holds (fb_loop f') (xs' ++ ys) ∧ only_side s f f').

Section Fallbackable.
Variable ndebug : bool.
Variable NON_ID : Z.
Variable ups : Answers.

Notation handler s := (fb_connector_handler ndebug s).

Lemma handler_spec s r f xs :
  side_result_task s f = None → holds (fb_loop f) xs →
  okP (handler s r f) (λ f', ∃ i, holds (fb_loop f') ((i, THandleResult s r) :: xs) ∧
    side_result_task s f' = Some i ∧ side_connector s f' = side_connector s f ∧
    side_has_result s f' = side_has_result s f ∧ only_side s f f').
Proof.
  intros Ht Hh. unfold fb_connector_handler, conn_assert. rewrite Ht. mstep. simpl.
  destruct (holds_submit _ _ (THandleResult s r) true Hh) as (l' & Hs & Hl).
  unfold auto_submit. simpl. unfold fb_loop in Hs. rewrite Hs.
  unfold auto_task. pose proof (holds_next _ _ Hh) as Hn. unfold fb_loop in Hn.
  destruct (Z.ltb_spec (next_task_id (cw_loop (fb_world f))) 0); [lia|].
  apply okP_ret. exists (next_task_id (fb_loop f)).
  destruct s; simpl in *; rewrite Ht; simpl; (split_and!; [done..|]); only_side_tac.
Qed.

(** What a call on the upstream of side [s] changes. *)
Lemma call_only s c x o f :
  (∀ r, o ≠ Result r) → side_connector s f = Some c →
  only_side s f (set_connector s (Some x) (call o f)).
Proof. intros Ho Hc. destruct s, o; try (by destruct (Ho r)); only_side_tac. Qed.

Definition session_event (what : SessionEvent) : Prop :=
  match what with
  | SESSION_ERROR id _ => id = NON_ID
  | CONNECTION_EVENT => False
  | _ => True
  end.

Ltac side_cases s f Hs :=
  destruct f as [[mc mh ts mr] [fc dl tr fh dt fr] to [l out]]; destruct s;
  unfold side_at in Hs; cbn in Hs; inversion Hs; subst; clear Hs.

(** Closes a step whose final state has been computed. *)
Ltac settle st :=
  apply okP_ret; exists st; eexists;
  split; [solve [eauto]|]; split; [unfold side_at; cbn; first [constructor | unfold single_new; constructor]|];
  split; [|only_side_tac]; try assumption;
  try match goal with H : holds _ _ |- _ => exact (holds_cancel _ [] _ _ _ H) end.

Lemma side_disconnect s st xs ys f :
  side_at s st xs f → holds (fb_loop f) (xs ++ ys) → st ≠ Done → st ≠ Gone →
  side_step s (λ st', st' = Quiet ∨ (∃ r, st = Reported r ∧ st' = st)) ys f
    (connector_disconnect ndebug ups s f).
Proof.
  intros Hs Hh Hd Hg. unfold side_step, connector_disconnect.
  side_cases s f Hs; try done; first [settle Quiet | settle (Reported r)].
Qed.

Lemma side_sleep s st xs ys f op :
  side_at s st xs f → holds (fb_loop f) (xs ++ ys) → st ≠ Done → st ≠ Gone →
  op = su_handle_sleep s ∨ op = su_handle_wake s →
  side_step s (.= st) ys f (on_connector s op f).
Proof.
  intros Hs Hh Hd Hg Hop. unfold side_step.
  side_cases s f Hs; try done; destruct Hop as [-> | ->];
    match goal with |- context [_ = ?st] => settle st end.
Qed.

(** Reports the result [r] from a connector left in state [x]. *)
Lemma side_report s r x xs ys f up d :
  side_result_task s f = None → side_has_result s f = false →
  xs = deferred_slot s d → holds (fb_loop f) (xs ++ ys) →
  x = mkSingle S_DISCONNECTED false up None d →
  side_step s (.= Reported r) ys f
    (f' ← handler s r f; Ok (set_connector s (Some x) f')).
Proof.
  intros Ht Hr -> Hh ->. unfold side_step.
  eapply okP_bind; [by apply handler_spec|]. intros f' (i & Hl & Hi & Hc & Hb & [H1 H2 H3 H4 H5 H6 H7]).
  apply okP_ret. exists (Reported r). eexists. split; [done|].
  destruct s; (split; [unfold side_at; cbn in *; rewrite Hi, Hb, Hr; constructor|]);
    (split; [exact Hl|]); by split.
Qed.

Lemma only_side_trans s f1 f2 f3 : only_side s f1 f2 → only_side s f2 f3 → only_side s f1 f3.
Proof. intros [] []. split; first [congruence | set_solver]. Qed.

Lemma fold_calls os f :
  foldl (λ f o, call o f) f os =
  mkFallbackable (m_main f) (m_fallback f) (m_connect_timeout f) (mkWorld (fb_loop f) (fb_out f ++ os)).
Proof.
  revert f. induction os as [|o os IH]; intros [? ? ? [? ?]]; simpl; [by rewrite app_nil_r|].
  rewrite IH. unfold fb_loop, fb_out. simpl. by rewrite <- app_assoc.
Qed.

(** The upstream calls [os] of side [s] followed by a report. *)
Lemma side_calls_report s op c r x os ys f up d :
  side_connector s f = Some c → side_result_task s f = None → side_has_result s f = false →
  results os = [] →
  op (c, f) = (f' ← handler s r (foldl (λ f o, call o f) f os); Ok (x, f')) →
  x = mkSingle S_DISCONNECTED false up None d →
  holds (fb_loop f) (deferred_slot s d ++ ys) →
  side_step s (.= Reported r) ys f (on_connector s op f).
Proof.
  intros Hc Ht Hr Hos Hop Hx Hh. unfold on_connector. rewrite Hc, Hop.
  set (g := foldl (λ f o, call o f) f os).
  assert (g = _) as Hg by apply fold_calls.
  assert (only_side s f g) as Hfg.
  { rewrite Hg. destruct s; split; try done; unfold fb_out, results in *; simpl;
      rewrite ?omap_app, ?Hos, ?app_nil_r; set_solver. }
  destruct (side_report s r x (deferred_slot s d) ys g up d) as (f' & He & st & xs & -> & Hs & Hl & Ho);
    try done; try (rewrite Hg; by destruct s).
  exists f'. split.
  - revert He. destruct (handler s r g); by intros [= <-].
  - exists (Reported r), xs. split_and!; try done. by eapply only_side_trans.
Qed.

Lemma side_step_mono s (ok ok' : Status → Prop) ys f r :
  side_step s ok ys f r → (∀ st, ok st → ok' st) → side_step s ok' ys f r.
Proof.
  intros H Hok. eapply okP_mono; [exact H|]. intros f' (st & xs & H1 & H2). exists st, xs. auto.
Qed.

Lemma session_error_perform s e :
  su_upstream_handler ndebug NON_ID ups s (handler s) (SESSION_ERROR NON_ID e)
  = su_perform ndebug ups s (handler s) E_SESSION_ERROR (ErrorData e).
Proof. unfold su_upstream_handler, conn_assert. by rewrite Z.eqb_refl. Qed.

(** Runs a concrete dispatch. *)
Ltac run_table :=
  cbn -[auto_submit call ANY_SOURCE_STATE SAME_TARGET_STATE Z.eqb];
  change ANY_SOURCE_STATE with 4294967295; change SAME_TARGET_STATE with 4294967294;
  cbn -[auto_submit call].

Lemma su_error_eq {W} `{!ConnectorHost W} u (h : EndpointConnectorResult → W → res W) e (w : W) :
  su_perform ndebug ups u h E_SESSION_ERROR (ErrorData e) (mkSingle S_CONNECTING false true None None, w)
  = let '(task, w) := auto_submit (mkTask (TDeferredDisconnect u) false) w in
    Ok (mkSingle S_DISCONNECTING false true
          (if negb (code e =? VPN_EC_NOERROR) then Some e else None) task, w).
Proof.
  run_table.
  destruct (code e =? VPN_EC_NOERROR); cbn -[auto_submit]; by destruct (auto_submit _ w).
Qed.

Lemma su_opened_eq {W} `{!ConnectorHost W} u (h : EndpointConnectorResult → W → res W) (w : W) :
  su_upstream_handler ndebug NON_ID ups u h SESSION_OPENED (mkSingle S_CONNECTING false true None None, w)
  = (w ← h (Connected u) (foldl (λ w o, call o w) w [UpSetHandler u]);
     Ok (mkSingle S_DISCONNECTED false false None None, w)).
Proof. run_table. by destruct (h _ _). Qed.

Lemma su_closed_eq {W} `{!ConnectorHost W} u (h : EndpointConnectorResult → W → res W) st e d (w : W) :
  st = S_CONNECTING ∨ st = S_DISCONNECTING →
  su_upstream_handler ndebug NON_ID ups u h SESSION_CLOSED (mkSingle st false true e d, w)
  = (w ← h (Disconnected (default no_error e)) (foldl (λ w o, call o w) w []);
     Ok (mkSingle S_DISCONNECTED false true None d, w)).
Proof. intros [-> | ->]; destruct e; run_table; by destruct (h _ _). Qed.

Lemma su_deferred_eq {W} `{!ConnectorHost W} u (h : EndpointConnectorResult → W → res W) e d (w : W) :
  su_deferred ndebug ups u h (mkSingle S_DISCONNECTING false true e d, w)
  = (w ← h (Disconnected (default no_error e)) (foldl (λ w o, call o w) w [UpCloseSession u; UpDeinit u]);
     Ok (mkSingle S_DISCONNECTED false true None None, w)).
Proof. destruct e; run_table; by destruct (h _ _). Qed.

(** An error while connecting leaves the disconnect to a task. *)
Lemma side_error s xs ys f e :
  side_at s Connecting xs f → holds (fb_loop f) (xs ++ ys) →
  side_step s (.= Disconnecting) ys f
    (on_connector s (su_perform ndebug ups s (handler s) E_SESSION_ERROR (ErrorData e)) f).
Proof.
  intros Hs Hh. unfold side_step.
  destruct (holds_submit _ _ (TDeferredDisconnect s) false Hh) as (l' & Hsub & Hl).
  pose proof (holds_next _ _ Hh) as Hn.
  side_cases s f Hs; cbn in Hsub, Hn;
    unfold on_connector, side_connector; cbn [m_main m_fallback mi_connector fi_connector];
    rewrite su_error_eq; unfold auto_submit; cbn; rewrite Hsub; unfold auto_task;
    (destruct (Z.ltb_spec (next_task_id l) 0); [lia|]);
    settle Disconnecting; exact Hl.
Qed.

Ltac by_report :=
  eapply side_calls_report;
    [reflexivity|reflexivity|reflexivity|
    |lazymatch goal with
     | |- su_upstream_handler _ _ _ _ _ SESSION_OPENED _ = _ => apply su_opened_eq
     | |- su_upstream_handler _ _ _ _ _ SESSION_CLOSED _ = _ => apply su_closed_eq; auto
     | |- su_deferred _ _ _ _ _ = _ => apply su_deferred_eq
     end
    |reflexivity|eassumption]; reflexivity.

Lemma side_event s st xs ys f what :
  session_event what → side_at s st xs f → holds (fb_loop f) (xs ++ ys) → st ≠ Done → st ≠ Gone →
  side_step s (λ st', st' = st ∨ (st = Connecting ∧ st' = Disconnecting) ∨
      ((st = Connecting ∨ st = Disconnecting) ∧ ∃ r, st' = Reported r)) ys f
    (fb_upstream_event ndebug NON_ID ups s what f).
Proof.
  intros Hw Hs Hh Hd Hg. unfold fb_upstream_event.
  destruct what as [| | e0|id e0|]; try done; cbn in Hw; subst; [..|].
  4: { rewrite session_error_perform. assert (st = Connecting ∨ st ≠ Connecting) as [->|Hc] by (destruct st; auto).
    { eapply side_step_mono; [by apply (side_error s xs)|]. naive_solver. }
    unfold side_step. side_cases s f Hs; try done;
      match goal with |- context [_ = ?st ∨ _] => settle st end. }
  all: side_cases s f Hs; try done;
    try (unfold side_step; match goal with |- context [_ = ?st ∨ _] => settle st end; fail);
    (eapply side_step_mono; [by_report|naive_solver]).
Qed.

(** The deferred disconnect, once its task has left the loop. *)
Lemma side_deferred s st i pre post ys f :
  side_at s st (pre ++ (i, TDeferredDisconnect s) :: post) f → holds (fb_loop f) ((pre ++ post) ++ ys) →
  side_step s (λ st', st' = st ∨ (st = Disconnecting ∧ ∃ r, st' = Reported r)) ys f
    (on_connector s (su_deferred ndebug ups s (handler s)) f).
Proof.
  intros Hs Hh. remember (pre ++ (i, TDeferredDisconnect s) :: post) as xs eqn:Hx.
  side_cases s f Hs; try (destruct d as [d|]); destruct pre as [|? [|? [|? pre]]];
    match goal with H : _ = _ ++ _ :: _ |- _ => cbn in H; try discriminate H; injection H as; subst end.
  all: try (unfold side_step; match goal with |- context [_ = ?st ∨ _] => settle st end; fail).
  all: eapply side_step_mono; [by_report|naive_solver].
Qed.

Lemma su_connect_eq {W} `{!ConnectorHost W} u (h : EndpointConnectorResult → W → res W) timeout (w : W) :
  ∃ e c os, su_connect ndebug ups u h timeout (single_new, w) = Ok (e, (c, foldl (λ w o, call o w) w os)) ∧
    UpInit u ∈ os ∧ results os = [] ∧
    c = (if code e =? VPN_EC_NOERROR then mkSingle S_CONNECTING false true None None else single_new).
Proof.
  unfold su_connect. cbn -[su_perform call]. destruct (init_ok ups u); cbn -[su_perform call].
  2: { eexists _, _, [UpInit u]. split_and!; try done. set_solver. }
  unfold su_disconnect. run_table. destruct (open_ok ups u); run_table.
  - eexists _, _, [UpInit u; UpSetHandler u; UpOpenSession u timeout]. split_and!; try done. set_solver.
  - eexists _, _, [UpInit u; UpSetHandler u; UpOpenSession u timeout; UpCloseSession u; UpDeinit u].
    split_and!; try done. set_solver.
Qed.

Lemma conn_connect s xs ys f timeout :
  side_at s Idle xs f → holds (fb_loop f) (xs ++ ys) →
  okP (connector_connect ndebug ups s timeout f) (λ '(e, f'),
    side_at s (if code e =? VPN_EC_NOERROR then Connecting else Idle) [] f' ∧
    holds (fb_loop f') ys ∧ only_side s f f' ∧ UpInit s ∈ fb_out f').
Proof.
  intros Hs Hh. unfold connector_connect.
  destruct (su_connect_eq s (handler s) timeout f) as (e & c & os & He & Hin & Hos & Hc).
  rewrite fold_calls in He.
  side_cases s f Hs; cbn -[su_connect] in He |- *; rewrite He; cbn; apply okP_ret;
    (split; [unfold side_at; cbn; destruct (code e =? _); constructor|]); (split; [done|]); (split; [|set_solver]);
    split; try done; unfold fb_out, results in *; simpl; rewrite ?omap_app, ?Hos, ?app_nil_r; set_solver.
Qed.

(** ** The two sides together *)

Definition upd (s : Side) (st : Status) (σ : Side → Status) : Side → Status :=
  λ s', if bool_decide (s' = s) then st else σ s'.

(** The statuses of the sides; the loop holds their tasks and the one that
    starts the fallback. *)
Definition fb_at (σ : Side → Status) f : Prop :=
  ∃ xm xf, side_at SMain (σ SMain) xm f ∧ side_at SFallback (σ SFallback) xf f ∧
    holds (fb_loop f) (xm ++ xf ++ delay_slot f).

Lemma fb_side s σ f : fb_at σ f →
  ∃ xs xo, side_at s (σ s) xs f ∧ side_at (other s) (σ (other s)) xo f ∧
    holds (fb_loop f) (xs ++ xo ++ delay_slot f).
Proof.
  intros (xm & xf & Hm & Hf & Hh). destruct s; [by exists xm, xf|]. exists xf, xm.
  split_and!; try done. by rewrite (Permutation_app_swap_app xf xm).
Qed.

Lemma fb_side_at s st σ f xs xo :
  side_at s st xs f → side_at (other s) (σ (other s)) xo f →
  holds (fb_loop f) (xs ++ xo ++ delay_slot f) → fb_at (upd s st σ) f.
Proof.
  intros Hs Ho Hh. destruct s; [by exists xs, xo|]. exists xo, xs.
  split_and!; try done. by rewrite (Permutation_app_swap_app xo xs).
Qed.

(** A step of one side is a step of the connector. *)
Lemma fb_lift s σ (ok : Status → Prop) f r :
  fb_at σ f →
  (∀ xs ys, side_at s (σ s) xs f → holds (fb_loop f) (xs ++ ys) → side_step s ok ys f r) →
  okP r (λ f', ∃ st, ok st ∧ fb_at (upd s st σ) f' ∧ only_side s f f').
Proof.
  intros (xs & xo & Hs & Ho & Hh)%(fb_side s) H.
  eapply okP_mono; [by apply (H xs _ Hs Hh)|].
  intros f' (st & xs' & Hok & Hs' & Hh' & Hos). exists st. split; [done|]. split; [|done].
  eapply fb_side_at; [done|by eapply only_side_at|]. by rewrite (only_side_delay _ _ _ Hos).
Qed.

Lemma finish_side s up e d rest f :
  side_connector s f = Some (mkSingle S_DISCONNECTED false up e d) →
  holds (fb_loop f) (deferred_slot s d ++ rest) →
  let f' := set_result_task s None (set_has_result s true (reset_connector s f)) in
  side_at s Done [] f' ∧ holds (fb_loop f') rest ∧ only_side s f f'.
Proof.
  intros Hc Hh. destruct f as [[mc mh ts mr] [fc dl tr fh dt fr] to [l out]].
  destruct s, d as [d|]; cbn in Hc; subst; cbn in *;
    (split; [constructor|]); (split; [|only_side_tac]); try done; exact (holds_cancel _ [] _ _ _ Hh).
Qed.

Definition settled (st : Status) : Prop := st = Quiet ∨ st = Done ∨ st = Idle ∨ ∃ r, st = Reported r.

Ltac cancels H :=
  first [ exact H
        | apply (holds_cancel _ []) in H; cancels H
        | apply (holds_cancel _ [_]) in H; cancels H ].

Lemma reset_main_spec st xs rest f :
  side_at SMain st xs f → settled st → holds (fb_loop f) (xs ++ rest) →
  let f' := reset_main f in
  side_at SMain Gone [] f' ∧ holds (fb_loop f') rest ∧ only_side SMain f f'.
Proof.
  intros Hs Hst Hh. destruct f as [[mc mh ts mr] [fc dl tr fh dt fr] to [l out]].
  unfold side_at in Hs; cbn in Hs; inversion Hs; subst; clear Hs; try (by naive_solver);
    try (destruct d as [d|]); cbn in *; (split; [constructor|]); (split; [|only_side_tac]); try done;
    cancels Hh.
Qed.

Lemma reset_fallback_spec st xs f :
  side_at SFallback st xs f → settled st → holds (fb_loop f) (xs ++ delay_slot f) →
  let f' := reset_fallback f in
  side_at SFallback Gone [] f' ∧ holds (fb_loop f') [] ∧ fi_delay_task (m_fallback f') = None ∧
  m_main f' = m_main f ∧ fb_out f' = fb_out f.
Proof.
  intros Hs Hst Hh. destruct f as [[mc mh ts mr] [fc dl tr fh dt fr] to [l out]].
  unfold side_at in Hs; cbn in Hs; inversion Hs; subst; clear Hs; try (by naive_solver);
    try (destruct d as [d|]); destruct dt as [dt|]; cbn in *; (split; [constructor|]); split; try done;
    cancels Hh.
Qed.

Definition active (st : Status) : Prop :=
  st = Connecting ∨ st = Disconnecting ∨ (∃ r, st = Reported r) ∨ st = Done.

(** The attempt goes on: what is tried is at work or has failed, not both have,
    and as long as the fallback is not tried its start is in the loop. *)
Definition fb_running (σ : Side → Status) f : Prop :=
  fb_at σ f ∧ results (fb_out f) = [] ∧ active (σ SMain) ∧ UpInit SMain ∈ fb_out f ∧
  if fi_tried (m_fallback f)
  then fi_delay_task (m_fallback f) = None ∧ active (σ SFallback) ∧ UpInit SFallback ∈ fb_out f ∧
       (σ SMain ≠ Done ∨ σ SFallback ≠ Done)
  else is_Some (fi_delay_task (m_fallback f)) ∧ σ SFallback = Idle.

(** The attempt is over: there is one result and nothing else is left. *)
Definition fb_finished f : Prop :=
  fb_at (λ _, Gone) f ∧ fi_delay_task (m_fallback f) = None ∧
  ∃ r, results (fb_out f) = [r] ∧
    (is_connected r = false → UpInit SMain ∈ fb_out f ∧ UpInit SFallback ∈ fb_out f).

Lemma raise_finishes σ r f :
  fb_at σ f → settled (σ SMain) → settled (σ SFallback) → results (fb_out f) = [] →
  (is_connected r = false → UpInit SMain ∈ fb_out f ∧ UpInit SFallback ∈ fb_out f) →
  fb_finished (reset_fallback (reset_main (call (Result r) f))).
Proof.
  intros (xm & xf & Hm & Hf & Hh) Hsm Hsf Hr Hi.
  set (g := call (Result r) f).
  assert (results (fb_out g) = [r]) as Hg.
  { unfold fb_out, results in *. simpl. by rewrite omap_app, Hr. }
  destruct (reset_main_spec (σ SMain) xm (xf ++ delay_slot f) g) as (H1 & H2 & H3); [done..|].
  destruct (reset_fallback_spec (σ SFallback) xf (reset_main g)) as (H4 & H5 & H6 & H7 & H8); [|done| |].
  { apply (only_side_at _ _ _ _ _ H3). exact Hf. }
  { by rewrite (only_side_delay _ _ _ H3). }
  split; [|split; [done|]].
  - exists [], []. split; [|split; [done|]].
    + unfold side_at, side_connector, side_has_result, side_result_task in *. by rewrite H7.
    + unfold delay_slot. by rewrite H6.
  - exists r. rewrite H8, (os_results _ _ _ H3). split; [done|]. intros [Hi1 Hi2]%Hi.
    assert (fb_out f ⊆ fb_out (reset_main g)) as Hsub.
    { etrans; [|exact (os_out _ _ _ H3)]. unfold fb_out. simpl. set_solver. }
    auto.
Qed.

Lemma has_result_done s st xs f :
  side_at s st xs f → active st ∨ st = Idle → side_has_result s f = true ↔ st = Done.
Proof.
  intros Hs Hst. unfold side_at in Hs. inversion Hs; subst; split; try done; naive_solver.
Qed.

(** Putting the start of the fallback into the loop, instead of an earlier one. *)
Lemma arm_spec σ i l f :
  fb_at σ f → holds l ((i, TStartFallback) :: pending (fb_loop f)) →
  let f' := auto_reset (fi_delay_task (m_fallback f)) (set_delay_task (Some i) (set_loop l f)) in
  fb_at σ f' ∧ is_Some (fi_delay_task (m_fallback f')) ∧
  fi_tried (m_fallback f') = fi_tried (m_fallback f) ∧ fb_out f' = fb_out f.
Proof.
  intros (xm & xf & Hm & Hf & Hh) Hl. rewrite (holds_perm _ _ Hh) in Hl.
  destruct f as [[mc mh ts mr] [fc dl tr fh dt fr] to [l0 out]].
  destruct dt as [dt|]; unfold delay_slot in *; cbn in *.
  all: split; [|done]; exists xm, xf; split; [done|]; split; [done|]; cbn.
  - rewrite app_assoc in Hl. apply (holds_cancel _ (_ :: xm ++ xf)) in Hl. rewrite app_nil_r in Hl.
    rewrite app_assoc. by rewrite <- Permutation_cons_append.
  - rewrite app_nil_r in Hl. rewrite app_assoc. by rewrite <- Permutation_cons_append.
Qed.

Lemma arm_submit σ f :
  fb_at σ f →
  ∃ f', (let '(task, f) := auto_submit (mkTask TStartFallback false) f in
         Ok (auto_reset (fi_delay_task (m_fallback f)) (set_delay_task task f))) = Ok f' ∧
    fb_at σ f' ∧ is_Some (fi_delay_task (m_fallback f')) ∧
    fi_tried (m_fallback f') = fi_tried (m_fallback f) ∧ fb_out f' = fb_out f.
Proof.
  intros Hf. pose proof Hf as (xm & xf & _ & _ & Hh). pose proof (holds_next _ _ Hh).
  assert (holds (fb_loop f) (pending (fb_loop f))) as Hp by (by rewrite (holds_perm _ _ Hh)).
  destruct (holds_submit _ _ TStartFallback false Hp) as (l' & Hs & Hl).
  unfold auto_submit. change (get_loop f) with (fb_loop f). rewrite Hs.
  unfold auto_task. destruct (Z.ltb_spec (next_task_id (fb_loop f)) 0); [lia|].
  eexists. split; [reflexivity|]. exact (arm_spec σ _ l' f Hf Hl).
Qed.

Lemma arm_schedule σ defer f :
  fb_at σ f →
  okP ('(task, f) ← auto_schedule (mkTask TStartFallback false) defer f;
       Ok (auto_reset (fi_delay_task (m_fallback f)) (set_delay_task task f))) (λ f',
    fb_at σ f' ∧ is_Some (fi_delay_task (m_fallback f')) ∧
    fi_tried (m_fallback f') = fi_tried (m_fallback f) ∧ fb_out f' = fb_out f).
Proof.
  intros Hf. pose proof Hf as (xm & xf & _ & _ & Hh). pose proof (holds_next _ _ Hh).
  assert (holds (fb_loop f) (pending (fb_loop f))) as Hp by (by rewrite (holds_perm _ _ Hh)).
  destruct (holds_schedule _ _ TStartFallback false defer Hp) as (l' & Hs & Hl).
  unfold auto_schedule. change (get_loop f) with (fb_loop f). rewrite Hs. mstep.
  unfold auto_task. destruct (Z.ltb_spec (next_task_id (fb_loop f)) 0); [lia|].
  apply okP_ret. exact (arm_spec σ _ l' f Hf Hl).
Qed.

(** A connector whose result is being handled. *)
Record handling (s : Side) (so : Status) f : Prop := {
  hd_single : ∃ up e d xo,
    side_connector s f = Some (mkSingle S_DISCONNECTED false up e d) ∧
    side_at (other s) so xo f ∧ holds (fb_loop f) (deferred_slot s d ++ xo ++ delay_slot f);
  hd_results : results (fb_out f) = [];
  hd_main : UpInit SMain ∈ fb_out f;
  hd_other : if fi_tried (m_fallback f)
    then fi_delay_task (m_fallback f) = None ∧ active so ∧ UpInit SFallback ∈ fb_out f
    else s = SMain ∧ so = Idle;
}.

Lemma handling_active s so f : handling s so f → active so ∨ so = Idle.
Proof. intros [_ _ _ H]. destruct (fi_tried _); naive_solver. Qed.

Lemma other_other s : other (other s) = s.
Proof. by destruct s. Qed.

Lemma handle_failure s so f e :
  handling s so f →
  okP (handle_connect_result ndebug ups s (Disconnected e) f)
    (λ f', (∃ σ, fb_running σ f') ∨ fb_finished f').
Proof.
  intros H. pose proof (handling_active _ _ _ H) as Hact.
  destruct H as [(up & e0 & d & xo & Hc & Ho & Hh) Hr Hm Hx].
  unfold handle_connect_result.
  assert ((if bool_decide (s = SMain) && bool_decide (is_Some (mi_connector (m_main f)))
           then SMain else SFallback) = s) as -> by (destruct s; cbn in Hc; by rewrite ?Hc).
  cbn [is_connected andb orb]. mstep.
  destruct (finish_side s up e0 d _ f Hc Hh) as (H1 & H2 & H3).
  set (g := set_result_task s None (set_has_result s true (reset_connector s f))) in *.
  pose proof (only_side_at _ _ _ _ _ H3 Ho) as Ho'.
  assert (fb_at (upd s Done (λ _, so)) g) as Hat.
  { eapply fb_side_at; [exact H1|exact Ho'|]. by rewrite (only_side_delay _ _ _ H3). }
  assert (mi_has_result (m_main g) && fi_has_result (m_fallback g)
          = side_has_result (other s) g) as ->.
  { assert (side_has_result s g = true) as Hs by (unfold side_at in H1; by inversion H1).
    unfold side_has_result in *. clearbody g. destruct s; cbn [other] in *; rewrite Hs; by rewrite ?andb_true_r. }
  assert (results (fb_out g) = []) as Hrg by (by rewrite (os_results _ _ _ H3)).
  assert (UpInit SMain ∈ fb_out g) as Hmg by (by apply (os_out _ _ _ H3)).
  rewrite (os_tried _ _ _ H3).
  destruct (side_has_result (other s) g) eqn:Hres.
  - apply (has_result_done _ _ _ _ Ho' Hact) in Hres as ->. apply okP_ret. right.
    destruct (fi_tried (m_fallback f)); [|by destruct Hx].
    destruct Hx as (_ & _ & Hi). apply (os_out _ _ _ H3) in Hi.
    eapply raise_finishes; [exact Hat|..|done|done]; unfold upd; destruct s; cbn; unfold settled; auto.
  - assert (so ≠ Done) as Hso 
      by (intros ->; by rewrite (proj2 (has_result_done _ _ _ _ Ho' Hact) eq_refl) in Hres).
    destruct (fi_tried (m_fallback f)) eqn:Htr; cbn [negb].
    + destruct Hx as (Hd & Ha & Hi). apply okP_ret. left. exists (upd s Done (λ _, so)).
      split_and!; try done.
      * destruct s; unfold active; [by do 3 right|done].
      * rewrite (os_tried _ _ _ H3), (os_delay _ _ _ H3), Htr. split_and!; try done.
        -- destruct s; [done|unfold active; by do 3 right].
        -- by apply (os_out _ _ _ H3).
        -- destruct s; [by right|by left].
    + destruct Hx as [-> ->].
      destruct (arm_submit (upd SMain Done (λ _, Idle)) g Hat) as (g' & He & H4 & H5 & H6 & H7).
      rewrite He. apply okP_ret. left. exists (upd SMain Done (λ _, Idle)).
      split; [done|]. rewrite H6, H7, (os_tried _ _ _ H3), Htr. split_and!; try done.
      unfold active. by do 3 right.
Qed.

Lemma connector_gone s st xs f :
  side_at s st xs f → st ≠ Gone → is_Some (side_connector s f) ↔ st ≠ Done.
Proof.
  intros Hs Hg. unfold side_at in Hs.
  inversion Hs; subst; split; try done; intros; by eexists.
Qed.

Lemma handle_success s so f u :
  handling s so f →
  okP (handle_connect_result ndebug ups s (Connected u) f) fb_finished.
Proof.
  intros H. pose proof (handling_active _ _ _ H) as Hact.
  destruct H as [(up & e0 & d & xo & Hc & Ho & Hh) Hr Hm Hx].
  assert (so ≠ Gone) as Hgone by (unfold active in Hact; naive_solver).
  unfold handle_connect_result.
  assert ((if bool_decide (s = SMain) && bool_decide (is_Some (mi_connector (m_main f)))
           then SMain else SFallback) = s) as -> by (destruct s; cbn in Hc; by rewrite ?Hc).
  cbn [is_connected andb orb].
  eapply (okP_bind _ _ (λ f1, ∃ so' xo', settled so' ∧ side_at (other s) so' xo' f1 ∧
    holds (fb_loop f1) (xo' ++ deferred_slot s d ++ delay_slot f1) ∧ only_side (other s) f f1)).
  { case_bool_decide as Hsome; rewrite (connector_gone _ _ _ _ Ho Hgone) in Hsome.
    - eapply okP_mono; [apply (side_disconnect (other s) so xo (deferred_slot s d ++ delay_slot f)); try done|].
      + by rewrite (Permutation_app_swap_app xo).
      + intros f1 (so' & xo' & Hso & Ha & Hl & Hos). exists so', xo'.
        rewrite (only_side_delay _ _ _ Hos). split_and!; try done. unfold settled. naive_solver.
    - apply okP_ret. exists so, xo.
      assert (so = Done) as -> by (unfold active in Hact; destruct Hact; naive_solver).
      split; [by right; left|]. split; [done|]. split; [by rewrite (Permutation_app_swap_app xo)|].
      by split. }
  intros f1 (so' & xo' & Hset & Ha & Hl & Hos). apply okP_ret.
  assert (side_connector s f1 = Some (mkSingle S_DISCONNECTED false up e0 d)) as Hc1.
  { pose proof (os_connector _ _ _ Hos) as Hq. rewrite other_other in Hq. by rewrite Hq. }
  rewrite (Permutation_app_swap_app xo') in Hl.
  destruct (finish_side s up e0 d _ f1 Hc1 Hl) as (H1 & H2 & H3).
  eapply (raise_finishes (upd s Done (λ _, so'))).
  - eapply fb_side_at; [exact H1|by apply (only_side_at _ _ _ _ _ H3)|]. by rewrite (only_side_delay _ _ _ H3).
  - destruct s; cbn; unfold settled in *; auto.
  - destruct s; cbn; unfold settled in *; auto.
  - by rewrite (os_results _ _ _ H3), (os_results _ _ _ Hos).
  - done.
Qed.

Lemma handle_result s so f r :
  handling s so f →
  okP (handle_connect_result ndebug ups s r f) (λ f', (∃ σ, fb_running σ f') ∨ fb_finished f').
Proof.
  intros H. destruct r as [u|e]; [|by eapply handle_failure].
  eapply okP_mono; [by eapply handle_success|]. by right.
Qed.

(** ** The operations *)

Definition fb_fresh f : Prop :=
  fb_at (λ _, Idle) f ∧ fi_delay_task (m_fallback f) = None ∧ fi_tried (m_fallback f) = false ∧
  results (fb_out f) = [].

(** After [disconnect]: no result will come any more. *)
Definition fb_stopped f : Prop :=
  ∃ σ, fb_at σ f ∧ (∀ s, σ s = Quiet ∨ σ s = Done) ∧ fi_delay_task (m_fallback f) = None ∧
    results (fb_out f) = [].

Lemma idle_handling s σ f :
  fb_at σ f → σ s = Idle →
  ∃ up e d xo, side_connector s f = Some (mkSingle S_DISCONNECTED false up e d) ∧
    side_at (other s) (σ (other s)) xo f ∧ holds (fb_loop f) (deferred_slot s d ++ xo ++ delay_slot f).
Proof.
  intros (xs & xo & Hs & Ho & Hh)%(fb_side s) Hi. rewrite Hi in Hs. unfold side_at in Hs.
  inversion Hs. subst. by exists true, None, None, xo.
Qed.

Lemma connect_spec timeout now f :
  fb_fresh f →
  okP (fb_connect ndebug ups timeout now f) (λ f', (∃ σ, fb_running σ f') ∨ fb_finished f').
Proof.
  intros ((xm & xf & Hm & Hf & Hh) & Hd & Ht & Hr). unfold fb_connect.
  set (g := set_started timeout now f).
  eapply okP_bind; [by apply (conn_connect SMain xm (xf ++ delay_slot f) g)|].
  intros [e f'] (H1 & H2 & H3 & H4).
  assert (fb_at (upd SMain (if code e =? VPN_EC_NOERROR then Connecting else Idle) (λ _, Idle)) f') as Hat.
  { eapply fb_side_at; [exact H1|by apply (only_side_at SMain _ _ _ _ H3)|].
    by rewrite (only_side_delay _ _ _ H3). }
  assert (fi_tried (m_fallback f') = false) as Ht' by (by rewrite (os_tried _ _ _ H3)).
  assert (results (fb_out f') = []) as Hr' by (by rewrite (os_results _ _ _ H3)).
  destruct (code e =? VPN_EC_NOERROR); cbn [negb].
  - eapply okP_mono; [by apply (arm_schedule _ _ _ Hat)|].
    intros f2 (Ha & Hs & Htr & Ho). left. exists (upd SMain Connecting (λ _, Idle)).
    split; [done|]. rewrite Htr, Ho, Ht'. split_and!; try done. by left.
  - apply (handle_result SMain Idle). split; try done; [|by rewrite Ht'].
    exact (idle_handling SMain _ f' Hat eq_refl).
Qed.

Lemma start_fallback_spec now σ f :
  fb_at σ f → fi_delay_task (m_fallback f) = None → fi_tried (m_fallback f) = false →
  results (fb_out f) = [] → active (σ SMain) → UpInit SMain ∈ fb_out f → σ SFallback = Idle →
  okP (start_fallback_connection ndebug ups now f) (λ f', (∃ σ, fb_running σ f') ∨ fb_finished f').
Proof.
  intros Hat Hd Ht Hr Ha Hi Hs. pose proof Hat as (xm & xf & Hm & Hf & Hh). rewrite Hs in Hf.
  unfold start_fallback_connection, conn_assert. rewrite Ht. mstep.
  assert (fi_has_result (m_fallback f) = false) as -> by (unfold side_at in Hf; by inversion Hf). mstep.
  set (g := set_tried true f).
  eapply okP_bind.
  { apply (conn_connect SFallback xf (xm ++ delay_slot f) g); [done|].
    by rewrite (Permutation_app_swap_app xf). }
  intros [e f'] (H1 & H2 & H3 & H4).
  assert (fb_at (upd SFallback (if code e =? VPN_EC_NOERROR then Connecting else Idle) σ) f') as Hat'.
  { eapply fb_side_at; [exact H1|by apply (only_side_at SFallback _ _ _ _ H3)|].
    by rewrite (only_side_delay _ _ _ H3). }
  assert (fi_tried (m_fallback f') = true) as Ht' by (by rewrite (os_tried _ _ _ H3)).
  assert (results (fb_out f') = []) as Hr' by (by rewrite (os_results _ _ _ H3)).
  assert (fi_delay_task (m_fallback f') = None) as Hd' by (by rewrite (os_delay _ _ _ H3)).
  assert (UpInit SMain ∈ fb_out f') as Hi' by (by apply (os_out _ _ _ H3)).
  destruct (code e =? VPN_EC_NOERROR); cbn [negb].
  - apply okP_ret. left. exists (upd SFallback Connecting σ). split; [done|]. rewrite Ht'.
    split_and!; try done; [by left|by right].
  - apply (handle_result SFallback (σ SMain)). split; try done; [|by rewrite Ht'].
    exact (idle_handling SFallback _ f' Hat' eq_refl).
Qed.

(** Steps of one side that do not end the attempt. *)
Lemma running_side s st σ f f' :
  fb_running σ f → fb_at (upd s st σ) f' → only_side s f f' →
  st = σ s ∨ (σ s ≠ Idle ∧ active st ∧ st ≠ Done) → fb_running (upd s st σ) f'.
Proof.
  intros (_ & Hr & Ha & Hi & Hx) Hat Hos Hst. split; [done|].
  split; [by rewrite (os_results _ _ _ Hos)|].
  rewrite (os_tried _ _ _ Hos), (os_delay _ _ _ Hos).
  split; [destruct s; cbn; naive_solver|]. split; [by apply (os_out _ _ _ Hos)|].
  destruct (fi_tried (m_fallback f)).
  - destruct Hx as (H1 & H2 & H3 & H4). split; [done|].
    split; [destruct s; cbn; naive_solver|]. split; [by apply (os_out _ _ _ Hos)|].
    destruct s; cbn; naive_solver.
  - destruct Hx as (H1 & H2). split; [done|]. destruct s; cbn; naive_solver.
Qed.

Lemma stopped_side s st σ f f' :
  (∀ s, σ s = Quiet ∨ σ s = Done) → fi_delay_task (m_fallback f) = None → results (fb_out f) = [] →
  fb_at (upd s st σ) f' → only_side s f f' → st = Quiet ∨ st = Done → fb_stopped f'.
Proof.
  intros Hq Hd Hr Hat Hos Hst. exists (upd s st σ). split; [done|].
  rewrite (os_results _ _ _ Hos), (os_delay _ _ _ Hos). split; [|done].
  intros s'. unfold upd. by case_bool_decide.
Qed.

Lemma drop_result s st xs ys f :
  side_at s st xs f → settled st → holds (fb_loop f) (xs ++ ys) →
  side_step s (λ st', st' = Quiet ∨ st' = Done) ys f
    (Ok (set_result_task s None (auto_reset (side_result_task s f) f))).
Proof.
  intros Hs Hst Hh. unfold side_step.
  unfold settled in Hst. side_cases s f Hs; try (by naive_solver).
  all: first [solve [settle Quiet] | solve [settle Done]].
Qed.

Lemma drop_delay σ f :
  fb_at σ f →
  let f' := set_delay_task None (auto_reset (fi_delay_task (m_fallback f)) f) in
  fb_at σ f' ∧ fi_delay_task (m_fallback f') = None ∧
  fi_tried (m_fallback f') = fi_tried (m_fallback f) ∧ fb_out f' = fb_out f.
Proof.
  intros (xm & xf & Hm & Hf & Hh). split; [|by destruct f as [? [? ? ? ? []] ? []]].
  destruct f as [[mc mh ts mr] [fc dl tr fh dt fr] to [l out]].
  exists xm, xf. destruct dt as [dt|]; cbn in *; (split; [done|]); (split; [done|]); [|done].
  cbn. rewrite app_nil_r. unfold delay_slot in Hh. cbn in Hh. rewrite app_assoc in Hh.
  apply holds_cancel in Hh. by rewrite app_nil_r in Hh.
Qed.

(** ** The life of a connector *)

Inductive FbOp :=
| OpConnect (timeout : option Z) (now : Z)
| OpDisconnect
| OpSleep
| OpWake
| OpEvent (s : Side) (what : SessionEvent)
| OpTask (now : Z)
| OpTimer (now id : Z).

Definition run_conn_task (now : Z) (_ : Z) (t : ConnTask) f : res Fallbackable :=
  fb_run_task ndebug ups now t f.

Definition run_fb_op (op : FbOp) f : res Fallbackable :=
  match op with
  | OpConnect timeout now => fb_connect ndebug ups timeout now f
  | OpDisconnect => fb_disconnect ndebug ups f
  | OpSleep => fb_handle_sleep f
  | OpWake => fb_handle_wake f
  | OpEvent s what => fb_upstream_event ndebug NON_ID ups s what f
  | OpTask now => run_front (run_conn_task now) f
  | OpTimer now id => run_deferred_task (run_conn_task now) id f
  end.

(** The client connects once, before anything else; an upstream raises session
    events as long as its connector is there. *)
Definition fb_allowed (started stopped : bool) (op : FbOp) f : Prop :=
  match op with
  | OpConnect _ _ => started = false ∧ stopped = false
  | OpEvent s what => session_event what ∧ is_Some (side_connector s f)
  | _ => True
  end.

Definition started_after (op : FbOp) (started : bool) : bool :=
  match op with OpConnect _ _ => true | _ => started end.
(** Whether the attempt was interrupted before it had a result. *)
Definition stopped_after (op : FbOp) (stopped : bool) f : bool :=
  match op, results (fb_out f) with OpDisconnect, [] => true | _, _ => stopped end.

Definition fb_inv (started stopped : bool) f : Prop :=
  if stopped then fb_stopped f
  else if started then (∃ σ, fb_running σ f) ∨ fb_finished f
  else fb_fresh f.

Lemma finished_connector s f : fb_finished f → side_connector s f = None.
Proof.
  intros [(xm & xf & Hm & Hf & _) _]. unfold side_at in *. destruct s; [inversion Hm|inversion Hf]; done.
Qed.

Lemma fb_not_gone s st xs f : side_at s st xs f → is_Some (side_connector s f) → st ≠ Done ∧ st ≠ Gone.
Proof. intros Hs [c Hc]. unfold side_at in Hs. rewrite Hc in Hs. inversion Hs; subst; done. Qed.

(** A side goes on, perhaps to disconnecting or to a result. *)
Definition goes_on (st st' : Status) : Prop :=
  st' = st ∨ (st = Connecting ∧ st' = Disconnecting) ∨
  ((st = Connecting ∨ st = Disconnecting) ∧ ∃ r, st' = Reported r).

Lemma goes_on_running (σ : Side → Status) s st :
  goes_on (σ s) st → st = σ s ∨ (σ s ≠ Idle ∧ active st ∧ st ≠ Done).
Proof.
  intros [Hst|[[E ->]|[E [r ->]]]]; [by left|right..];
    (split; [intuition congruence|]); (split; [unfold active; eauto|done]).
Qed.

Lemma side_inv started stopped s f r :
  fb_inv started stopped f → is_Some (side_connector s f) →
  (∀ st xs ys, side_at s st xs f → holds (fb_loop f) (xs ++ ys) → st ≠ Done → st ≠ Gone →
    side_step s (goes_on st) ys f r) →
  okP r (fb_inv started stopped).
Proof.
  intros Hi Hc Hside. unfold fb_inv in *.
  assert (fb_finished f → False) as Hnf.
  { intros Hf%(finished_connector s). destruct Hc. congruence. }
  assert (∀ σ, fb_at σ f → okP r (λ f', ∃ st, goes_on (σ s) st ∧
      fb_at (upd s st σ) f' ∧ only_side s f f')) as Hstep.
  { intros σ Hσ. apply fb_lift; [done|]. intros xs ys Hs Hh.
    destruct (fb_not_gone _ _ _ _ Hs Hc). by eapply Hside. }
  destruct stopped; [|destruct started].
  - destruct Hi as (σ & Hat & Hq & Hd & Hr).
    eapply okP_mono; [by apply Hstep|]. intros f' (st & Hst & Hat' & Hos).
    eapply stopped_side; [done..|]. unfold goes_on in Hst.
    destruct (Hq s) as [E|E]; rewrite E in Hst; clear -Hst; naive_solver.
  - destruct Hi as [[σ Hrun]|Hf]; [|by destruct (Hnf Hf)]. destruct (Hrun) as (Hat & _).
    eapply okP_mono; [by apply Hstep|]. intros f' (st & Hst & Hat' & Hos). left. eexists.
    eapply running_side; [done..|]. by apply goes_on_running.
  - destruct Hi as (Hat & Hd & Ht & Hr). eapply okP_mono; [by apply (Hstep _ Hat)|].
    intros f' (st & Hst & Hat' & Hos). assert (st = Idle) as -> by (clear -Hst; unfold goes_on in Hst; naive_solver).
    split; [|by rewrite (os_delay _ _ _ Hos), (os_tried _ _ _ Hos), (os_results _ _ _ Hos)].
    destruct Hat' as (xm & xf & H1 & H2 & H3). exists xm, xf. by destruct s.
Qed.

Lemma sleep_inv started stopped f (op : ∀ s, Impl → res Impl) :
  op = su_handle_sleep ∨ op = su_handle_wake → fb_inv started stopped f →
  okP (f ← (if main_active f then on_connector SMain (op SMain) f else Ok f);
       if fallback_active f then on_connector SFallback (op SFallback) f else Ok f)
    (fb_inv started stopped).
Proof.
  intros Hop Hi.
  assert (∀ s f, fb_inv started stopped f → is_Some (side_connector s f) →
    okP (on_connector s (op s) f) (fb_inv started stopped)) as Hone.
  { intros s g Hg Hc. eapply side_inv; [done..|]. intros st xs ys Hs Hh Hd Hgo.
    eapply side_step_mono; [by eapply side_sleep; [..|destruct Hop as [-> | ->]; auto]|].
    intros st' ->. by left. }
  eapply okP_bind.
  { destruct (main_active f) eqn:Ha; [|by apply okP_ret].
    apply andb_true_iff in Ha as [_ Hs%bool_decide_eq_true]. by apply Hone. }
  intros f' Hi'. cbn beta. destruct (fallback_active f') eqn:Ha; [|by apply okP_ret].
  apply andb_true_iff in Ha as [_ Hs%bool_decide_eq_true]. by apply Hone.
Qed.

Lemma disconnect_side s σ f (b : bool) :
  fb_at σ f → σ s ≠ Gone → (b = true → is_Some (side_connector s f)) →
  (b = false → settled (σ s)) →
  okP (if b then connector_disconnect ndebug ups s f else Ok f) (λ f',
    ∃ st, settled st ∧ fb_at (upd s st σ) f' ∧ only_side s f f').
Proof.
  intros Hat Hg Hb Hnb. destruct b.
  - apply fb_lift; [done|]. intros xs ys Hs Hh. destruct (fb_not_gone _ _ _ _ Hs); [auto|].
    eapply side_step_mono; [by eapply side_disconnect|].
    unfold settled. intros st [->|(r & E & ->)]; [by left|]. rewrite E. eauto.
  - apply okP_ret. exists (σ s). split; [auto|]. split; [|by split].
    destruct Hat as (xm & xf & H). exists xm, xf. by destruct s.
Qed.

Lemma main_inactive σ f : fb_at σ f → σ SMain ≠ Gone → main_active f = false → σ SMain = Done.
Proof.
  intros (xm & xf & Hm & _) Hg Ha. unfold main_active in Ha. unfold side_at in Hm. cbn in Hm.
  inversion Hm as [Hc Hr Ht|Hc Hr Ht|e i Hc Hr Ht|up d i r Hc Hr Ht|Hc Hr Ht|up e d Hc Hr Ht|];
    try done;
    match goal with H : false = _, K : Some _ = _ |- _ => rewrite <- H, <- K in Ha end;
    by rewrite bool_decide_eq_true_2 in Ha.
Qed.

Lemma fallback_inactive σ f :
  fb_at σ f → σ SFallback ≠ Gone → fallback_active f = false →
  fi_tried (m_fallback f) = false ∨ σ SFallback = Done.
Proof.
  intros (xm & xf & _ & Hf & _) Hg Ha. unfold fallback_active in Ha.
  destruct (fi_tried (m_fallback f)); [right|by left]. unfold side_at in Hf. cbn in Hf, Ha.
  inversion Hf as [Hc Hr Ht|Hc Hr Ht|e i Hc Hr Ht|up d i r Hc Hr Ht|Hc Hr Ht|up e d Hc Hr Ht|];
    try done;
    match goal with H : false = _, K : Some _ = _ |- _ => rewrite <- H, <- K in Ha end;
    by rewrite bool_decide_eq_true_2 in Ha.
Qed.

Lemma finished_disconnect f : fb_finished f → fb_disconnect ndebug ups f = Ok f.
Proof.
  intros ((xm & xf & Hm & Hf & _) & Hd & _).
  destruct f as [[mc mh ts mr] [fc dl tr fh dt fr] to [l out]].
  unfold side_at in Hm, Hf. cbn in Hm, Hf, Hd. inversion Hm; inversion Hf; subst.
  unfold fb_disconnect, main_active, fallback_active. cbn. by rewrite andb_false_r.
Qed.

Lemma drop_result_lift s σ f :
  fb_at σ f → settled (σ s) →
  ∃ st, let f' := set_result_task s None (auto_reset (side_result_task s f) f) in
    (st = Quiet ∨ st = Done) ∧ fb_at (upd s st σ) f' ∧ only_side s f f'.
Proof.
  intros Hat Hs.
  destruct (fb_lift s σ (λ st, st = Quiet ∨ st = Done) f
    (Ok (set_result_task s None (auto_reset (side_result_task s f) f))) Hat) as (f' & [= <-] & st & H);
    [|by exists st].
  intros. by eapply drop_result.
Qed.

Lemma disconnect_live σ f :
  fb_at σ f → σ SMain ≠ Gone → σ SFallback ≠ Gone → results (fb_out f) = [] →
  (fi_tried (m_fallback f) = false → settled (σ SFallback)) →
  okP (fb_disconnect ndebug ups f) fb_stopped.
Proof.
  intros Hat Hgm Hgf Hr Ht. unfold fb_disconnect.
  eapply okP_bind.
  { apply (disconnect_side SMain σ f); [done..| |].
    - intros Ha. apply andb_true_iff in Ha as [_ Hs%bool_decide_eq_true]. done.
    - intros Ha. rewrite (main_inactive σ f) by done. by right; left. }
  intros f1 (s1 & Hs1 & Hat1 & Ho1). cbn beta.
  destruct (drop_result_lift SMain _ _ Hat1 Hs1) as (s2 & Hs2 & Hat2 & Ho2).
  set (f2 := set_result_task SMain None _) in *. cbn in Hat2.
  change (set_result_task SMain None (auto_reset (mi_result_task (m_main f1)) f1)) with f2.
  set (σ2 := upd SMain s2 (upd SMain s1 σ)) in *.
  assert (fi_tried (m_fallback f2) = fi_tried (m_fallback f)) as Ht2
    by (by rewrite (os_tried _ _ _ Ho2), (os_tried _ _ _ Ho1)).
  eapply okP_bind.
  { apply (disconnect_side SFallback σ2 f2); [done..| |].
    - intros Ha. apply andb_true_iff in Ha as [_ Hs%bool_decide_eq_true]. done.
    - intros Ha. destruct (fallback_inactive σ2 f2) as [E|E]; [done..| |].
      + apply Ht. by rewrite <- Ht2.
      + rewrite E. by right; left. }
  intros f3 (s3 & Hs3 & Hat3 & Ho3). cbn beta.
  destruct (drop_delay _ _ Hat3) as (Hat4 & Hd4 & _ & Hout4).
  set (f4 := set_delay_task None _) in *. apply okP_ret.
  destruct (drop_result_lift SFallback _ _ Hat4 Hs3) as (s5 & Hs5 & Hat5 & Ho5).
  exists (upd SFallback s5 (upd SFallback s3 σ2)). split; [exact Hat5|]. split_and!.
  - intros []; [exact Hs2|exact Hs5].
  - exact (eq_trans (os_delay _ _ _ Ho5) Hd4).
  - refine (eq_trans (os_results _ _ _ Ho5) _).
    rewrite Hout4, (os_results _ _ _ Ho3), (os_results _ _ _ Ho2).
    by rewrite (os_results _ _ _ Ho1).
Qed.

Lemma disconnect_inv started stopped f :
  fb_inv started stopped f →
  okP (fb_disconnect ndebug ups f) (fb_inv started (stopped_after OpDisconnect stopped f)).
Proof.
  intros Hi. unfold fb_inv in *.
  assert (∀ σ, fb_at σ f → σ SMain ≠ Gone → σ SFallback ≠ Gone → results (fb_out f) = [] →
    (fi_tried (m_fallback f) = false → settled (σ SFallback)) →
    okP (fb_disconnect ndebug ups f) (fb_inv started (stopped_after OpDisconnect stopped f))) as Hlive.
  { intros σ H1 H2 H3 H4 H5. unfold stopped_after. rewrite H4. by eapply disconnect_live. }
  destruct stopped; [|destruct started].
  - destruct Hi as (σ & Hat & Hq & Hd & Hr).
    apply (Hlive σ); [done| | |done|]; [destruct (Hq SMain) as [-> | ->]; done| |];
      destruct (Hq SFallback) as [E|E]; rewrite E; unfold settled; auto.
  - destruct Hi as [[σ (Hat & Hr & Ha & Hi & Hx)]|Hf].
    2: { rewrite finished_disconnect by done. apply okP_ret. destruct (Hf) as (_ & _ & r & Hr & _).
      unfold stopped_after. rewrite Hr. by right. }
    assert (∀ st, active st → st ≠ Gone) as Hng by (unfold active; naive_solver).
    apply (Hlive σ); [done|auto| |done|];
      destruct (fi_tried (m_fallback f)); destruct Hx as [? Hx]; [by apply Hng, Hx|by rewrite Hx|done|].
    intros _. rewrite Hx. unfold settled. auto.
  - destruct Hi as (Hat & Hd & Ht & Hr). apply (Hlive (λ _, Idle)); try done.
    intros _. unfold settled. auto.
Qed.

Lemma taken_side σ f l' x :
  fb_at σ f → taken x (fb_loop f) l' →
  let g := set_loop l' f in
  (∃ s p1 p2 xo, side_at s (σ s) (p1 ++ x :: p2) g ∧ side_at (other s) (σ (other s)) xo g ∧
     holds (fb_loop g) ((p1 ++ p2) ++ xo ++ delay_slot g)) ∨
  (∃ i xm xf, fi_delay_task (m_fallback g) = Some i ∧ x = (i, TStartFallback) ∧
     side_at SMain (σ SMain) xm g ∧ side_at SFallback (σ SFallback) xf g ∧ holds (fb_loop g) (xm ++ xf)).
Proof.
  intros (xm & xf & Hm & Hf & Hh) Htk. destruct (Htk _ Hh) as (ys & Hp & Hl). cbn zeta.
  assert (x ∈ xm ++ xf ++ delay_slot f) as [Hin|[Hin|Hin]%elem_of_app]%elem_of_app
    by (rewrite Hp; set_solver).
  - left. apply list_elem_of_split in Hin as (p1 & p2 & ->). exists SMain, p1, p2, xf.
    split_and!; try done. change (holds l' ((p1 ++ p2) ++ xf ++ delay_slot f)).
    rewrite (Permutation.Permutation_cons_inv (l := (p1 ++ p2) ++ xf ++ delay_slot f) (l' := ys) (a := x)); [done|].
    rewrite <- Hp. solve_Permutation.
  - left. apply list_elem_of_split in Hin as (p1 & p2 & ->). exists SFallback, p1, p2, xm.
    split_and!; try done. change (holds l' ((p1 ++ p2) ++ xm ++ delay_slot f)).
    rewrite (Permutation.Permutation_cons_inv (l := (p1 ++ p2) ++ xm ++ delay_slot f) (l' := ys) (a := x)); [done|].
    rewrite <- Hp. solve_Permutation.
  - right. unfold delay_slot in *. change (m_fallback (set_loop l' f)) with (m_fallback f).
    destruct (fi_delay_task (m_fallback f)) as [i|]; [|by apply elem_of_nil in Hin].
    apply list_elem_of_singleton in Hin as ->. exists i, xm, xf. split_and!; try done.
    change (holds l' (xm ++ xf)).
    rewrite (Permutation.Permutation_cons_inv (l := xm ++ xf) (l' := ys) (a := (i, TStartFallback))); [done|].
    rewrite <- Hp. solve_Permutation.
Qed.

(** The tasks a side can have in the loop. *)
Lemma side_task s st p1 x p2 f :
  side_at s st (p1 ++ x :: p2) f →
  (∃ i, x = (i, TDeferredDisconnect s)) ∨
  (∃ i r up d, x = (i, THandleResult s r) ∧ st = Reported r ∧
     side_connector s f = Some (mkSingle S_DISCONNECTED false up None d) ∧
     p1 ++ p2 = deferred_slot s d).
Proof.
  intros Hs. unfold side_at in Hs. remember (p1 ++ x :: p2) as xs eqn:Hx. revert Hx.
  inversion Hs; subst; intros Hx; try (by destruct p1);
    try (destruct d as [d|]); destruct p1 as [|? [|? [|? p1]]]; cbn in Hx; try discriminate Hx;
    injection Hx as; subst; first [left; by eexists | right; by do 4 eexists].
Qed.

Lemma only_side_loop s l f f' : only_side s (set_loop l f) f' → only_side s f f'.
Proof. destruct s; intros []; by split. Qed.

Lemma task_running σ now f l' i t :
  fb_running σ f → taken (i, t) (fb_loop f) l' →
  okP (fb_run_task ndebug ups now t (set_loop l' f)) (λ f', (∃ σ, fb_running σ f') ∨ fb_finished f').
Proof.
  intros Hrun Htk. destruct (Hrun) as (Hat & Hr & Ha & Hi & Hx).
  destruct (taken_side _ _ _ _ Hat Htk) as [(s & p1 & p2 & xo & Hs & Ho & Hh)|(j & xm & xf & Hd & Ht & Hm & Hf & Hh)];
    set (g := set_loop l' f) in *.
  - destruct (side_task _ _ _ _ _ _ Hs) as [(j & [= -> ->])|(j & r & up & d & [= -> ->] & Hst & Hc & Hp)].
    + cbn [fb_run_task]. eapply okP_mono; [by apply (side_deferred _ _ _ _ _ _ _ Hs Hh)|].
      intros f' (st & xs & Hst & Hs' & Hh' & Hos). left. exists (upd s st σ).
      eapply (running_side s st σ f); [done|..|by eapply only_side_loop|].
      * eapply fb_side_at; [done|by eapply only_side_at|]. by rewrite (only_side_delay _ _ _ Hos).
      * apply goes_on_running. unfold goes_on. clear -Hst. naive_solver.
    + cbn [fb_run_task]. apply (handle_result s (σ (other s))). rewrite Hp in Hh.
      split; [by exists up, None, d, xo|done|done|].
      change (m_fallback g) with (m_fallback f). change (fb_out g) with (fb_out f).
      destruct (fi_tried (m_fallback f)); destruct Hx as [Hx1 Hx2].
      * destruct Hx2 as (Hx2 & Hx3 & _). destruct s; split_and!; done.
      * destruct s; [done|]. cbn in Hst. congruence.
  - injection Ht as -> ->. cbn [fb_run_task].
    change (m_fallback g) with (m_fallback f) in Hd.
    destruct (fi_tried (m_fallback f)) eqn:Htr; destruct Hx as [Hx1 Hx2]; [congruence|].
    apply (start_fallback_spec now σ); try done.
    exists xm, xf. split_and!; try done. cbn. by rewrite app_nil_r.
Qed.

Lemma task_stopped now f l' i t :
  fb_stopped f → taken (i, t) (fb_loop f) l' →
  okP (fb_run_task ndebug ups now t (set_loop l' f)) fb_stopped.
Proof.
  intros (σ & Hat & Hq & Hd & Hr) Htk.
  destruct (taken_side _ _ _ _ Hat Htk) as [(s & p1 & p2 & xo & Hs & Ho & Hh)|(j & xm & xf & Hd' & _)];
    [|change (fi_delay_task (m_fallback f) = Some j) in Hd'; congruence].
  set (g := set_loop l' f) in *.
  destruct (side_task _ _ _ _ _ _ Hs) as [(j & [= -> ->])|(j & r & up & d & _ & Hst & _)];
    [|by destruct (Hq s); congruence].
  cbn [fb_run_task]. eapply okP_mono; [by apply (side_deferred _ _ _ _ _ _ _ Hs Hh)|].
  intros f' (st & xs & Hst & Hs' & Hh' & Hos).
  eapply (stopped_side s st σ f); [done..| |by eapply only_side_loop|].
  - eapply fb_side_at; [done|by eapply only_side_at|]. by rewrite (only_side_delay _ _ _ Hos).
  - destruct (Hq s) as [E|E]; rewrite E in Hst; clear -Hst; naive_solver.
Qed.

Lemma task_inv started stopped now f l' i t :
  fb_inv started stopped f → taken (i, t) (fb_loop f) l' →
  okP (fb_run_task ndebug ups now t (set_loop l' f)) (fb_inv started stopped).
Proof.
  intros Hi Htk.
  assert (∀ st, fb_at (λ _, st) f → st = Idle ∨ st = Gone → fi_delay_task (m_fallback f) = None → False) as Hno.
  { intros st (xm & xf & Hm & Hf & Hh) Hst Hd. destruct (Htk _ Hh) as (ys & Hp & _).
    unfold delay_slot in Hp. rewrite Hd in Hp. unfold side_at in *.
    destruct Hst as [-> | ->]; inversion Hm; inversion Hf; subst; by apply Permutation_nil_cons in Hp. }
  assert (fb_finished f → False) as Hnf by (intros (Hat & Hd & _); by apply (Hno Gone); auto).
  unfold fb_inv in *. destruct stopped; [|destruct started].
  - by eapply task_stopped.
  - destruct Hi as [[σ Hi]|Hi]; [|by destruct (Hnf Hi)]. by eapply task_running.
  - destruct Hi as (Hat & Hd & _). destruct (Hno Idle); auto.
Qed.

Lemma fb_at_emit σ e f : fb_at σ f → fb_at σ (set_loop (emit e (get_loop f)) f).
Proof.
  intros (xm & xf & Hm & Hf & Hh). exists xm, xf. split_and!; try done.
  change (holds (emit e (fb_loop f)) (xm ++ xf ++ delay_slot f)). by apply holds_emit.
Qed.

Lemma inv_emit started stopped e f :
  fb_inv started stopped f → fb_inv started stopped (set_loop (emit e (get_loop f)) f).
Proof.
  unfold fb_inv, fb_stopped, fb_finished, fb_running, fb_fresh. destruct stopped; [|destruct started].
  - intros (σ & Hat & H). apply (fb_at_emit _ e) in Hat. by exists σ.
  - intros [(σ & Hat & H)|(Hat & H)]; apply (fb_at_emit _ e) in Hat; [left; by exists σ|by right].
  - intros (Hat & H). by apply (fb_at_emit _ e) in Hat.
Qed.

Lemma run_info_conn started stopped now info f l' :
  fb_inv started stopped f → taken (entry_of info) (fb_loop f) l' →
  okP (run_info (run_conn_task now) info (set_loop l' f)) (fb_inv started stopped).
Proof.
  intros Hi Htk. unfold run_info.
  eapply (okP_bind _ _ (fb_inv started stopped)).
  - apply (task_inv started stopped now f (emit (Running (ti_id info)) l') (ti_id info)
             (task_action (ti_task info)) Hi).
    by apply taken_emit.
  - intros f' Hf'. apply okP_ret. by apply inv_emit.
Qed.

Lemma run_fb_op_inv started stopped op f :
  fb_inv started stopped f → fb_allowed started stopped op f →
  okP (run_fb_op op f) (fb_inv (started_after op started) (stopped_after op stopped f)).
Proof.
  intros Hi Ha. destruct op as [timeout now| | | |s what|now|now id]; cbn in *.
  - destruct Ha as [-> ->]. by apply connect_spec.
  - by eapply disconnect_inv.
  - apply sleep_inv; auto.
  - apply sleep_inv; auto.
  - destruct Ha. eapply side_inv; [done..|]. intros. by eapply side_event.
  - unfold run_front. change (get_loop f) with (fb_loop f).
    destruct (task_queue (fb_loop f)) as [|info q] eqn:Hq; [by apply okP_ret|].
    apply run_info_conn; [done|]. by apply taken_front.
  - unfold run_deferred_task. change (get_loop f) with (fb_loop f).
    destruct (extract_first _ (deferred_task_queue (fb_loop f))) as [[d ds]|] eqn:Hx; [|by apply okP_ret].
    apply run_info_conn; [done|]. by eapply taken_timer.
Qed.

End Fallbackable.

Section Attempt.
Variable ndebug : bool.
Variable NON_ID : Z.

(** The states of a connector; the answers of the upstreams may be different
    at every step. *)
Inductive fb_reach : bool → bool → Fallbackable → Prop :=
| fb_reach_new delay l : holds l [] → fb_reach false false (fallbackable_new delay (mkWorld l []))
| fb_reach_op ups started stopped op f f' :
    fb_reach started stopped f → fb_allowed NON_ID started stopped op f →
    run_fb_op ndebug NON_ID ups op f = Ok f' →
    fb_reach (started_after op started) (stopped_after op stopped f) f'.

Lemma fb_reach_inv started stopped f : fb_reach started stopped f → fb_inv started stopped f.
Proof.
  induction 1 as [delay l Hl|ups started stopped op f f' _ IH Ha Hr].
  - split; [|done]. exists [], []. split; [constructor|]. split; [constructor|]. exact Hl.
  - destruct (run_fb_op_inv ndebug NON_ID ups _ _ _ _ IH Ha) as (f1 & Hr1 & Hi). congruence.
Qed.

(** An attempt without result has something under way. *)
Lemma running_progress σ f :
  fb_running σ f →
  pending (fb_loop f) ≠ [] ∨ ∃ s c, side_connector s f = Some c ∧ su_state c = S_CONNECTING.
Proof.
  intros ((xm & xf & Hm & Hf & Hh) & _ & Ha & _ & Hx).
  assert (∀ s xs, side_at s (σ s) xs f → active (σ s) → σ s ≠ Done →
    xs ≠ [] ∨ ∃ s c, side_connector s f = Some c ∧ su_state c = S_CONNECTING) as Hside.
  { intros s xs Hs Hact Hd. unfold side_at in Hs. revert Hs Hact Hd. generalize (σ s) as st.
    unfold active. intros st Hs Hact Hd. inversion Hs as [|E1 E2| | | | |]; subst;
      first [by left | naive_solver]. }
  assert (∀ xs, xs ≠ [] → (∃ ys, xm ++ xf ++ delay_slot f ≡ₚ xs ++ ys) → pending (fb_loop f) ≠ []) as Hne.
  { intros xs Hxs (ys & Hp) Hn. rewrite <- (holds_perm _ _ Hh), Hn in Hp.
    apply Permutation_nil_l in Hp. by destruct xs. }
  destruct (fi_tried (m_fallback f)).
  - destruct Hx as (_ & Haf & _ & [Hd|Hd]).
    + destruct (Hside SMain xm Hm Ha Hd) as [H|H]; [left|by right]. apply (Hne xm H). by eexists.
    + destruct (Hside SFallback xf Hf Haf Hd) as [H|H]; [left|by right]. apply (Hne xf H).
      exists (xm ++ delay_slot f). solve_Permutation.
  - destruct Hx as [[i Hi] _]. left. apply (Hne (delay_slot f)).
    + unfold delay_slot. by rewrite Hi.
    + exists (xm ++ xf). solve_Permutation.
Qed.

(** Claim C18. One attempt to connect, whatever the upstreams answer and raise,
    and whenever the client interrupts it or the machine goes to sleep.  No
    assertion fails and no connector or upstream is used after it is gone.  At
    most one result is raised, and when it is nothing of the attempt is left: no
    connector, no task.  A failure is reported only after both upstreams have
    been tried.  An interrupted attempt has no result.  And an attempt without a
    result is never stuck: a session is being opened, or a task is in the loop. *)
Theorem fallbackable_attempt started stopped f :
  fb_reach started stopped f →
  (∀ ups op, fb_allowed NON_ID started stopped op f →
    okP (run_fb_op ndebug NON_ID ups op f)
      (fb_reach (started_after op started) (stopped_after op stopped f))) ∧
  (length (results (fb_out f)) ≤ 1)%nat ∧
  (results (fb_out f) ≠ [] →
    stopped = false ∧ pending (fb_loop f) = [] ∧ ∀ s, side_connector s f = None) ∧
  (∀ e, Disconnected e ∈ results (fb_out f) → UpInit SMain ∈ fb_out f ∧ UpInit SFallback ∈ fb_out f) ∧
  (started = true → stopped = false → results (fb_out f) = [] →
    pending (fb_loop f) ≠ [] ∨ ∃ s c, side_connector s f = Some c ∧ su_state c = S_CONNECTING).
Proof.
  intros Hreach. pose proof (fb_reach_inv _ _ _ Hreach) as Hi. split.
  { intros ups op Ha. destruct (run_fb_op_inv ndebug NON_ID ups _ _ _ _ Hi Ha) as (f' & He & _).
    exists f'. split; [done|]. by eapply fb_reach_op. }
  assert (results (fb_out f) = [] ∨ (stopped = false ∧ started = true ∧ fb_finished f)) as [Hr|(-> & -> & Hfin)].
  { unfold fb_inv in Hi. destruct stopped; [|destruct started].
    - left. by destruct Hi as (? & _ & _ & _ & ?).
    - destruct Hi as [(? & _ & ? & _)|?]; auto.
    - left. by destruct Hi as (_ & _ & _ & ?). }
  - rewrite Hr. split; [simpl; lia|]. split; [done|]. split; [set_solver|].
    intros -> -> _. destruct Hi as [[σ Hrun]|(_ & _ & r & Hr' & _)]; [|congruence]. by eapply running_progress.
  - pose proof Hfin as ((xm & xf & Hm & Hf & Hh) & Hd & r & Hr & Hb). rewrite Hr.
    split; [done|]. split; [|split; [|done]].
    + intros _. split; [done|]. split; [|intros s; by apply finished_connector].
      unfold side_at in *. unfold delay_slot in Hh. rewrite Hd in Hh. inversion Hm; inversion Hf; subst.
      by apply Permutation_nil_r, (holds_perm _ _ Hh).
    + intros e <-%list_elem_of_singleton. by apply Hb.
Qed.

End Attempt.

(** ** A concrete attempt

    The main upstream fails while it connects, the fallback is started at once
    and its session opens. *)
Definition demo_answers : Answers := mkAnswers (λ _, true) (λ _, true).

Definition demo_ops : list FbOp :=
  [OpConnect (Some 5000) 0; OpEvent SMain (SESSION_ERROR 9 (mkError VPN_EC_ERROR None)); OpTask 10; OpTask 10;
   OpTask 10; OpEvent SFallback SESSION_OPENED; OpTask 20].

Fixpoint run_fb_ops (ops : list FbOp) (f : Fallbackable) : res Fallbackable :=
  match ops with
  | [] => Ok f
  | op :: ops => f ← run_fb_op false 9 demo_answers op f; run_fb_ops ops f
  end.

Definition demo_start : Fallbackable := fallbackable_new 100 (mkWorld vpn_event_loop_create []).

Definition demo_state (n : nat) : Fallbackable :=
  match run_fb_ops (take n demo_ops) demo_start with Ok f => f | _ => demo_start end.

Lemma demo_step n op started stopped :
  fb_reach false 9 started stopped (demo_state n) →
  fb_allowed 9 started stopped op (demo_state n) →
  run_fb_op false 9 demo_answers op (demo_state n) = Ok (demo_state (S n)) →
  fb_reach false 9 (started_after op started) (stopped_after op stopped (demo_state n)) (demo_state (S n)).
Proof. intros. by eapply fb_reach_op. Qed.

Lemma demo_reach : fb_reach false 9 true false (demo_state 7).
Proof.
  assert (fb_reach false 9 false false (demo_state 0)) as H.
  { apply fb_reach_new. split; try done; constructor. }
  apply (demo_step _ (OpConnect (Some 5000) 0)) in H; [|done|vm_compute; reflexivity].
  apply (demo_step _ (OpEvent SMain (SESSION_ERROR 9 (mkError VPN_EC_ERROR None)))) in H;
    [|by vm_compute; eauto|vm_compute; reflexivity].
  do 3 (apply (demo_step _ (OpTask 10)) in H; [|done|vm_compute; reflexivity]).
  apply (demo_step _ (OpEvent SFallback SESSION_OPENED)) in H; [|by vm_compute; eauto|vm_compute; reflexivity].
  by apply (demo_step _ (OpTask 20)) in H; [|done|vm_compute; reflexivity].
Qed.

Lemma fallbackable_attempt_witness :
  results (fb_out (demo_state 7)) = [Connected SFallback] ∧
  pending (fb_loop (demo_state 7)) = [] ∧ (length (results (fb_out (demo_state 7))) ≤ 1)%nat.
Proof.
  destruct (fallbackable_attempt false 9 true false (demo_state 7) demo_reach) as (_ & H1 & H2 & _).
  split; [vm_compute; reflexivity|]. split; [|exact H1].
  apply H2. vm_compute. discriminate.
Defined.
