(* ===== verification/VpnClient.v ===== *)
(** * The VPN client

    [core/src/vpn_client.cpp]: the object between the manager, which connects and
    disconnects it, and the tunnel, the listeners and the upstream of the
    session.  Its state machine, the tasks it leaves in the event loop and the
    handlers of the events it receives.

    The connector, the upstreams, the listeners and the tunnel are collaborators:
    a pointer to one is a boolean (null or not), calls on them go to a trace,
    what they answer is a [ClientAnswers] record, their events are inputs.  Using a
    null pointer is undefined.  The events raised for the manager go to
    [handler], which may call back. *)
From S2P Require Import Prelude Fsm EventLoop VpnTypes.

(** [vpn_client::State] and [vpn_client::SessionEvent]. *)
Definition VC_DISCONNECTED : Z := 0.
Definition VC_CONNECTING : Z := 1.
Definition VC_CONNECTED : Z := 2.
Definition VC_DISCONNECTING : Z := 3.

Definition VE_RUN_CONNECT : Z := 0.
Definition VE_DISCONNECT : Z := 1.
Definition VE_DEFERRED_DISCONNECT : Z := 2.
Definition VE_RUN_PREPARATION_FAIL : Z := 3.
Definition VE_SESSION_OPENED : Z := 4.
Definition VE_SESSION_CLOSED : Z := 5.
Definition VE_SESSION_ERROR : Z := 6.
Definition VE_HEALTH_CHECK_ERROR : Z := 7.

(** [ClientListener::InitResult]. *)
Inductive InitResult := INIT_SUCCESS | INIT_ADDR_IN_USE | INIT_FAILURE.

(** Events of the endpoint's upstream. *)
Inductive UpstreamEvent :=
| UP_SESSION_OPENED
| UP_SESSION_CLOSED
| UP_HEALTH_CHECK_ERROR (e : VpnError)
| UP_ERROR (id : Z) (e : VpnError)
| UP_CONNECTION_EVENT.

(** The lambdas left in the event loop. *)
Inductive ClientTask := TConnectorFinalizer | THealthCheck | TDeferredDisconnect.

(** Calls on the collaborators and events raised for the manager. *)
Inductive ClientOut :=
| ConnectorCreate | ConnectorConnect (timeout : option Z) | ConnectorDisconnect | ConnectorDestroy
| ConnectorSleep | ConnectorWake
| UpstreamClose | UpstreamDeinit | UpstreamHealthCheck | UpstreamSleep | UpstreamWake
| BypassOpen | BypassClose | BypassDeinit
| TunnelUpstreamEvent (what : UpstreamEvent) | TunnelBypassEvent (what : UpstreamEvent)
| TunnelBeforeDisconnect | TunnelAfterDisconnect | TunnelExclusionsUpdated
| TunnelResetConnections (uid : Z) | TunnelResetDnsConnections | TunnelResetConnection (id : Z)
| TunnelUpdateDnsHandler | TunnelCompleteRequest (id : Z) (action : option VpnConnectAction)
| TunnelSleep | TunnelWake | TunnelNetworkChange | TunnelDeinit
| ListenerInit | ListenerDeinit | ListenerReject (id : Z)
| DnsListenerInit | DnsListenerDeinit | DnsResolve
| HandoffReset
| ClientRaised (what : ClientEvent) | DnsUnavailableRaised.

Record ClientAnswers := mkClientAnswers {
  ans_connect : VpnError;
  ans_bypass_open : bool;
  ans_listener : InitResult;
  ans_random : bool;
  ans_dns_listener : InitResult;
  ans_dns_handler : bool;
  ans_resolve : option Z;
}.

Record VpnClient := mkVpnClient {
  vc_state : Z;
  vc_recursive : bool;
  vc_tunnel : bool;
  vc_upstream : bool;
  vc_bypass : bool;
  vc_bypass_opened : bool;
  vc_listener : bool;
  vc_dns_listener : bool;
  vc_dns_upstreams : Z;
  vc_dns_check : option Z;
  vc_connector : bool;
  vc_tasks : list Z;
  vc_pending_error : option VpnError;
  vc_in_disconnect : bool;
  vc_kill_switch : bool;
  vc_loop : VpnEventLoop ClientTask;
  vc_out : list ClientOut;
}.

Implicit Types c : VpnClient.

(** Field updates. *)
Definition set_vc_state (x : Z) c : VpnClient :=
  mkVpnClient x (vc_recursive c) (vc_tunnel c) (vc_upstream c) (vc_bypass c) (vc_bypass_opened c)
    (vc_listener c) (vc_dns_listener c) (vc_dns_upstreams c) (vc_dns_check c) (vc_connector c)
    (vc_tasks c) (vc_pending_error c) (vc_in_disconnect c) (vc_kill_switch c) (vc_loop c) (vc_out c).
Definition set_vc_recursive (x : bool) c : VpnClient :=
  mkVpnClient (vc_state c) x (vc_tunnel c) (vc_upstream c) (vc_bypass c) (vc_bypass_opened c)
    (vc_listener c) (vc_dns_listener c) (vc_dns_upstreams c) (vc_dns_check c) (vc_connector c)
    (vc_tasks c) (vc_pending_error c) (vc_in_disconnect c) (vc_kill_switch c) (vc_loop c) (vc_out c).
Definition set_vc_tunnel (x : bool) c : VpnClient :=
  mkVpnClient (vc_state c) (vc_recursive c) x (vc_upstream c) (vc_bypass c) (vc_bypass_opened c)
    (vc_listener c) (vc_dns_listener c) (vc_dns_upstreams c) (vc_dns_check c) (vc_connector c)
    (vc_tasks c) (vc_pending_error c) (vc_in_disconnect c) (vc_kill_switch c) (vc_loop c) (vc_out c).
Definition set_vc_upstream (x : bool) c : VpnClient :=
  mkVpnClient (vc_state c) (vc_recursive c) (vc_tunnel c) x (vc_bypass c) (vc_bypass_opened c)
    (vc_listener c) (vc_dns_listener c) (vc_dns_upstreams c) (vc_dns_check c) (vc_connector c)
    (vc_tasks c) (vc_pending_error c) (vc_in_disconnect c) (vc_kill_switch c) (vc_loop c) (vc_out c).
Definition set_vc_bypass (x : bool) c : VpnClient :=
  mkVpnClient (vc_state c) (vc_recursive c) (vc_tunnel c) (vc_upstream c) x (vc_bypass_opened c)
    (vc_listener c) (vc_dns_listener c) (vc_dns_upstreams c) (vc_dns_check c) (vc_connector c)
    (vc_tasks c) (vc_pending_error c) (vc_in_disconnect c) (vc_kill_switch c) (vc_loop c) (vc_out c).
Definition set_vc_bypass_opened (x : bool) c : VpnClient :=
  mkVpnClient (vc_state c) (vc_recursive c) (vc_tunnel c) (vc_upstream c) (vc_bypass c)
    x (vc_listener c) (vc_dns_listener c) (vc_dns_upstreams c) (vc_dns_check c) (vc_connector c)
    (vc_tasks c) (vc_pending_error c) (vc_in_disconnect c) (vc_kill_switch c) (vc_loop c) (vc_out c).
Definition set_vc_listener (x : bool) c : VpnClient :=
  mkVpnClient (vc_state c) (vc_recursive c) (vc_tunnel c) (vc_upstream c) (vc_bypass c)
    (vc_bypass_opened c) x (vc_dns_listener c) (vc_dns_upstreams c) (vc_dns_check c)
    (vc_connector c) (vc_tasks c) (vc_pending_error c) (vc_in_disconnect c) (vc_kill_switch c)
    (vc_loop c) (vc_out c).
Definition set_vc_dns_listener (x : bool) c : VpnClient :=
  mkVpnClient (vc_state c) (vc_recursive c) (vc_tunnel c) (vc_upstream c) (vc_bypass c)
    (vc_bypass_opened c) (vc_listener c) x (vc_dns_upstreams c) (vc_dns_check c) (vc_connector c)
    (vc_tasks c) (vc_pending_error c) (vc_in_disconnect c) (vc_kill_switch c) (vc_loop c) (vc_out c).
Definition set_vc_dns_upstreams (x : Z) c : VpnClient :=
  mkVpnClient (vc_state c) (vc_recursive c) (vc_tunnel c) (vc_upstream c) (vc_bypass c)
    (vc_bypass_opened c) (vc_listener c) (vc_dns_listener c) x (vc_dns_check c) (vc_connector c)
    (vc_tasks c) (vc_pending_error c) (vc_in_disconnect c) (vc_kill_switch c) (vc_loop c) (vc_out c).
Definition set_vc_dns_check (x : option Z) c : VpnClient :=
  mkVpnClient (vc_state c) (vc_recursive c) (vc_tunnel c) (vc_upstream c) (vc_bypass c)
    (vc_bypass_opened c) (vc_listener c) (vc_dns_listener c) (vc_dns_upstreams c) x (vc_connector c)
    (vc_tasks c) (vc_pending_error c) (vc_in_disconnect c) (vc_kill_switch c) (vc_loop c) (vc_out c).
Definition set_vc_connector (x : bool) c : VpnClient :=
  mkVpnClient (vc_state c) (vc_recursive c) (vc_tunnel c) (vc_upstream c) (vc_bypass c)
    (vc_bypass_opened c) (vc_listener c) (vc_dns_listener c) (vc_dns_upstreams c) (vc_dns_check c)
    x (vc_tasks c) (vc_pending_error c) (vc_in_disconnect c) (vc_kill_switch c) (vc_loop c)
    (vc_out c).
Definition set_vc_tasks (x : list Z) c : VpnClient :=
  mkVpnClient (vc_state c) (vc_recursive c) (vc_tunnel c) (vc_upstream c) (vc_bypass c)
    (vc_bypass_opened c) (vc_listener c) (vc_dns_listener c) (vc_dns_upstreams c) (vc_dns_check c)
    (vc_connector c) x (vc_pending_error c) (vc_in_disconnect c) (vc_kill_switch c) (vc_loop c)
    (vc_out c).
Definition set_vc_pending_error (x : option VpnError) c : VpnClient :=
  mkVpnClient (vc_state c) (vc_recursive c) (vc_tunnel c) (vc_upstream c) (vc_bypass c)
    (vc_bypass_opened c) (vc_listener c) (vc_dns_listener c) (vc_dns_upstreams c) (vc_dns_check c)
    (vc_connector c) (vc_tasks c) x (vc_in_disconnect c) (vc_kill_switch c) (vc_loop c) (vc_out c).
Definition set_vc_in_disconnect (x : bool) c : VpnClient :=
  mkVpnClient (vc_state c) (vc_recursive c) (vc_tunnel c) (vc_upstream c) (vc_bypass c)
    (vc_bypass_opened c) (vc_listener c) (vc_dns_listener c) (vc_dns_upstreams c) (vc_dns_check c)
    (vc_connector c) (vc_tasks c) (vc_pending_error c) x (vc_kill_switch c) (vc_loop c) (vc_out c).
Definition set_vc_kill_switch (x : bool) c : VpnClient :=
  mkVpnClient (vc_state c) (vc_recursive c) (vc_tunnel c) (vc_upstream c) (vc_bypass c)
    (vc_bypass_opened c) (vc_listener c) (vc_dns_listener c) (vc_dns_upstreams c) (vc_dns_check c)
    (vc_connector c) (vc_tasks c) (vc_pending_error c) (vc_in_disconnect c) x (vc_loop c) (vc_out c).
Definition set_vc_loop (x : VpnEventLoop ClientTask) c : VpnClient :=
  mkVpnClient (vc_state c) (vc_recursive c) (vc_tunnel c) (vc_upstream c) (vc_bypass c)
    (vc_bypass_opened c) (vc_listener c) (vc_dns_listener c) (vc_dns_upstreams c) (vc_dns_check c)
    (vc_connector c) (vc_tasks c) (vc_pending_error c) (vc_in_disconnect c) (vc_kill_switch c)
    x (vc_out c).
Definition set_vc_out (x : list ClientOut) c : VpnClient :=
  mkVpnClient (vc_state c) (vc_recursive c) (vc_tunnel c) (vc_upstream c) (vc_bypass c)
    (vc_bypass_opened c) (vc_listener c) (vc_dns_listener c) (vc_dns_upstreams c) (vc_dns_check c)
    (vc_connector c) (vc_tasks c) (vc_pending_error c) (vc_in_disconnect c) (vc_kill_switch c)
    (vc_loop c) x.

#[export] Instance client_fsm : HasFsm VpnClient.
Proof.
  refine {| m_current_state := vc_state; m_recursive := vc_recursive;
            set_current_state := set_vc_state; set_recursive := set_vc_recursive |};
    try (intros; reflexivity).
  intros []; reflexivity.
Defined.

#[export] Instance client_loop : HasLoop VpnClient ClientTask.
Proof.
  refine {| get_loop := vc_loop; set_loop := set_vc_loop |}. reflexivity.
Defined.

Definition vc_call (o : ClientOut) c : VpnClient := set_vc_out (vc_out c ++ [o]) c.

(** [ptr->...]: undefined when [ptr] is null. *)
Definition deref (ptr : VpnClient → bool) (o : ClientOut) c : res VpnClient :=
  if ptr c then Ok (vc_call o c) else UB.

(** The [void *data] of the machine's callbacks. *)
Inductive ClientData := NoData | TimeoutData (t : option Z) | ErrorData (e : VpnError).

Section Client.
Variable ndebug : bool.
Variable NON_ID : Z.
Variable ans : ClientAnswers.
Variable handler : ClientEvent → VpnClient → res VpnClient.

Definition vc_assert (b : bool) : res unit := if b || ndebug then Ok tt else Abort.

(** ** Deferred tasks: [std::set<AutoTaskId>] *)

Definition emplace_task (id : option Z) c : VpnClient :=
  match id with Some id => set_vc_tasks (vc_tasks c ++ [id]) c | None => c end.

(** [release_deferred_task]. *)
Definition release_deferred_task (id : Z) c : VpnClient :=
  set_vc_tasks (filter (λ i, i ≠ id) (vc_tasks c)) c.

(** [deferred_tasks.clear()]: every task is cancelled. *)
Definition clear_deferred_tasks c : VpnClient :=
  set_vc_tasks [] (foldl (λ c id, auto_reset (Some id) c) c (vc_tasks c)).

Definition submit_client_task (t : ClientTask) c : VpnClient :=
  let '(id, c) := auto_submit (mkTask t false) c in emplace_task id c.

(** ** Actions of the state machine *)

Definition run_connect c (data : ClientData) : res VpnClient :=
  timeout ← match data with NoData => Ok None | TimeoutData t => Ok t | ErrorData _ => UB end;
  c ← deref vc_connector (ConnectorConnect timeout) c;
  if negb (code (ans_connect ans) =? VPN_EC_NOERROR)
  then Ok (set_vc_pending_error (Some (ans_connect ans)) c) else Ok c.

Definition raise_event (e : ClientEvent) c : res VpnClient := handler e (vc_call (ClientRaised e) c).

Definition vc_raise_connected c (_ : ClientData) : res VpnClient := raise_event EVENT_CONNECTED c.

Definition vc_raise_disconnected c (_ : ClientData) : res VpnClient :=
  match vc_pending_error c with
  | None => raise_event EVENT_DISCONNECTED c
  | Some e =>
      c ← raise_event (EVENT_ERROR e) c;
      Ok (set_vc_pending_error None c)
  end.

(** The error of [data], if there is one and none is pending. *)
Definition vc_note_error (data : ClientData) c : res VpnClient :=
  match data with
  | NoData => Ok c
  | ErrorData e =>
      if bool_decide (vc_pending_error c = None) && negb (code e =? VPN_EC_NOERROR)
      then Ok (set_vc_pending_error (Some e) c) else Ok c
  | TimeoutData _ => UB
  end.

Definition run_disconnect c (data : ClientData) : res VpnClient :=
  c ← (if vc_dns_listener c then deref vc_tunnel TunnelResetDnsConnections c else Ok c);
  c ← deref vc_tunnel TunnelBeforeDisconnect c;
  c ← vc_note_error data c;
  let c := clear_deferred_tasks c in
  let c := if vc_connector c
           then set_vc_connector false (vc_call ConnectorDestroy (vc_call ConnectorDisconnect c)) else c in
  let c := if vc_upstream c then vc_call UpstreamClose c else c in
  c ← deref vc_tunnel TunnelAfterDisconnect c;
  let c := if vc_dns_listener c then set_vc_dns_listener false (vc_call DnsListenerDeinit c) else c in
  Ok (vc_call HandoffReset c).

Definition vc_submit_disconnect c (data : ClientData) : res VpnClient :=
  c ← vc_note_error data c;
  Ok (submit_client_task TDeferredDisconnect c).

Definition VC_TRANSITION_TABLE : FsmTransitionTable VpnClient ClientData :=
  [ mkEntry VC_DISCONNECTED VE_RUN_CONNECT None (Some run_connect) VC_CONNECTING None;
    mkEntry VC_DISCONNECTED VE_SESSION_CLOSED None None VC_DISCONNECTED (Some vc_raise_disconnected);
    mkEntry VC_DISCONNECTED VE_DISCONNECT None None VC_DISCONNECTED None;

    mkEntry VC_CONNECTING VE_SESSION_OPENED None None VC_CONNECTED (Some vc_raise_connected);
    mkEntry VC_CONNECTING VE_SESSION_CLOSED None None VC_DISCONNECTED (Some vc_raise_disconnected);

    mkEntry VC_CONNECTED VE_SESSION_CLOSED None None VC_DISCONNECTED (Some vc_raise_disconnected);
    mkEntry VC_CONNECTED VE_SESSION_ERROR None (Some vc_submit_disconnect) VC_DISCONNECTING None;
    mkEntry VC_CONNECTED VE_RUN_PREPARATION_FAIL None (Some vc_submit_disconnect) VC_DISCONNECTING None;
    mkEntry VC_CONNECTED VE_HEALTH_CHECK_ERROR None (Some vc_submit_disconnect) VC_DISCONNECTING None;

    mkEntry VC_DISCONNECTING VE_SESSION_CLOSED None None VC_DISCONNECTED (Some vc_raise_disconnected);
    mkEntry VC_DISCONNECTING VE_DEFERRED_DISCONNECT None (Some run_disconnect) VC_DISCONNECTED
      (Some vc_raise_disconnected);

    mkEntry ANY_SOURCE_STATE VE_DISCONNECT None (Some run_disconnect) VC_DISCONNECTED None ].

Definition vc_perform (ev : Z) (data : ClientData) c : res VpnClient :=
  perform_transition ndebug VC_TRANSITION_TABLE ev data c.

(** ** Connecting *)

Definition vc_disconnect c : res VpnClient :=
  c ← vc_perform VE_DISCONNECT NoData (set_vc_in_disconnect true c);
  Ok (set_vc_in_disconnect false c).

(** [client_connect]: the pending error is the result. *)
Definition client_connect (timeout : option Z) c : res (VpnError * VpnClient) :=
  c ← vc_perform VE_RUN_CONNECT (TimeoutData timeout) c;
  Ok (default no_error (vc_pending_error c), set_vc_pending_error None c).

(** [connect]; [usable] says that [make_upstream] makes upstreams for the
    configured protocols, which it does not for [VPN_UP_AUTO]. *)
Definition vc_connect (usable : bool) (timeout : option Z) c : res (VpnError * VpnClient) :=
  if negb (vc_state c =? VC_DISCONNECTED)
  then Ok (mkError VPN_EC_ERROR (Some "Invalid state"%string), c)
  else if negb usable then UB
  else
    let c := vc_call ConnectorCreate c in
    let c := set_vc_connector true (if vc_connector c then vc_call ConnectorDestroy c else c) in
    '(error, c) ← client_connect timeout c;
    '(failed, (error, c)) ←
      (if negb (code error =? VPN_EC_NOERROR) then Ok (true, (error, c))
       else
         c ← deref vc_bypass BypassOpen c;
         if ans_bypass_open ans then Ok (false, (error, c))
         else Ok (true, (mkError (code error)
                           (Some "Failed to start upstream for direct connections"%string), c)));
    if (failed : bool) then
      c ← vc_disconnect c;
      Ok (mkError (if code error =? 0 then VPN_EC_ERROR else code error)
            (match text error with Some t => Some t | None => Some "Internal error"%string end), c)
    else Ok (error, c).

(** [start_dns_proxy_listener]. *)
Definition start_dns_proxy_listener c : res (VpnError * VpnClient) :=
  if negb (ans_random ans)
  then Ok (mkError VPN_EC_ERROR (Some "Failed to generate DNS proxy listener password"%string), c)
  else
    let c := vc_call DnsListenerInit (set_vc_dns_listener true c) in
    match ans_dns_listener ans with
    | INIT_SUCCESS =>
        c ← deref vc_tunnel TunnelUpdateDnsHandler c;
        if ans_dns_handler ans then Ok (no_error, c)
        else Ok (mkError VPN_EC_ERROR (Some "Failed to initialize the DNS handler"%string), c)
    | _ => Ok (mkError VPN_EC_INVALID_SETTINGS (Some "Failed to initialize DNS proxy listener"%string), c)
    end.

(** [do_dns_upstream_health_check]. *)
Definition do_dns_upstream_health_check c : res (bool * VpnClient) :=
  c ← deref vc_tunnel DnsResolve c;
  Ok (bool_decide (is_Some (ans_resolve ans)), set_vc_dns_check (ans_resolve ans) c).

(** [endpoint_connector_handler]: [None] is the connected upstream. *)
Definition endpoint_connector_handler (result : option VpnError) c : res VpnClient :=
  let c := set_vc_pending_error None c in
  c ← match result with
      | Some e => Ok (set_vc_pending_error (Some e) c)
      | None =>
          let c := set_vc_upstream true c in
          if (0 <? vc_dns_upstreams c) && negb (vc_dns_listener c) then
            '(error, c) ← start_dns_proxy_listener c;
            if negb (code error =? VPN_EC_NOERROR)
            then Ok (set_vc_pending_error (Some error) c) else Ok c
          else Ok c
      end;
  Ok (submit_client_task TConnectorFinalizer c).

(** [endpoint_connector_finalizer]. *)
Definition endpoint_connector_finalizer (id : Z) c : res VpnClient :=
  let c := release_deferred_task id c in
  let c := if vc_connector c then set_vc_connector false (vc_call ConnectorDestroy c) else c in
  match vc_pending_error c with
  | Some _ => vc_perform VE_SESSION_CLOSED NoData c
  | None =>
      c ← deref vc_tunnel (TunnelUpstreamEvent UP_SESSION_OPENED) c;
      c ← vc_perform VE_SESSION_OPENED NoData c;
      if vc_listener c then
        c ← deref vc_tunnel TunnelExclusionsUpdated c;
        if vc_dns_listener c then
          '(started, c) ← do_dns_upstream_health_check c;
          Ok (if (started : bool) then c else vc_call DnsUnavailableRaised c)
        else Ok c
      else Ok c
  end.

(** ** Events of the session *)

Definition vpn_upstream_handler (what : UpstreamEvent) c : res VpnClient :=
  _ ← vc_assert (negb (vc_connector c));
  let is_disconnected :=
    match what with UP_SESSION_CLOSED => true | UP_ERROR id _ => id =? NON_ID | _ => false end in
  c ← (if is_disconnected then deref vc_tunnel TunnelBeforeDisconnect c else Ok c);
  c ← deref vc_tunnel (TunnelUpstreamEvent what) c;
  c ← match what with
      | UP_SESSION_OPENED => _ ← vc_assert false; Ok c
      | UP_SESSION_CLOSED => vc_perform VE_SESSION_CLOSED NoData c
      | UP_HEALTH_CHECK_ERROR e => vc_perform VE_HEALTH_CHECK_ERROR (ErrorData e) c
      | UP_ERROR id e => if negb (id =? NON_ID) then Ok c else vc_perform VE_SESSION_ERROR (ErrorData e) c
      | UP_CONNECTION_EVENT => Ok c
      end;
  if is_disconnected then deref vc_tunnel TunnelAfterDisconnect c else Ok c.

Definition direct_upstream_handler (what : UpstreamEvent) c : res VpnClient :=
  let c := match what with
           | UP_SESSION_OPENED => set_vc_bypass_opened true c
           | UP_SESSION_CLOSED => set_vc_bypass_opened false c
           | _ => c
           end in
  deref vc_tunnel (TunnelBypassEvent what) c.

Definition dns_resolver_handler (success : bool) c : VpnClient :=
  let c := set_vc_dns_check None c in
  if success then c
  else if negb (vc_state c =? VC_CONNECTED) then c
  else if vc_in_disconnect c then c
  else vc_call DnsUnavailableRaised c.

(** ** Tasks *)

(** [submit_health_check] and its task. *)
Definition submit_health_check (postpone : Z) c : res VpnClient :=
  '(id, c) ← auto_schedule (mkTask THealthCheck false) postpone c;
  Ok (emplace_task id c).

Definition health_check_task (id : Z) c : res VpnClient :=
  let c := release_deferred_task id c in
  if negb (vc_state c =? VC_CONNECTED) then Ok c else deref vc_upstream UpstreamHealthCheck c.

Definition vc_do_health_check c : res VpnClient := submit_health_check 0 c.

Definition run_client_task (id : Z) (t : ClientTask) c : res VpnClient :=
  match t with
  | TConnectorFinalizer => endpoint_connector_finalizer id c
  | THealthCheck => health_check_task id c
  | TDeferredDisconnect => vc_perform VE_DEFERRED_DISCONNECT NoData (release_deferred_task id c)
  end.

(** ** Listening *)

(** The path to the label [fail] of [listen]. *)
Definition listen_fail (error : VpnError) c : res (VpnError * VpnClient) :=
  c ← vc_perform VE_RUN_PREPARATION_FAIL NoData c;
  Ok (error, c).

Definition listen_finish (error : VpnError) c : res (VpnError * VpnClient) :=
  c ← deref vc_tunnel TunnelUpdateDnsHandler c;
  if ans_dns_handler ans then Ok (no_error, c)
  else listen_fail (mkError (code error) (Some "Failed to initialize the DNS handler"%string)) c.

Definition vc_listen (dns_upstreams : Z) c : res (VpnError * VpnClient) :=
  let c := vc_call ListenerInit (set_vc_dns_upstreams dns_upstreams (set_vc_listener true c)) in
  let error := mkError VPN_EC_ERROR None in
  match ans_listener ans with
  | INIT_ADDR_IN_USE =>
      listen_fail (mkError VPN_EC_ADDR_IN_USE
        (Some "Failed to initialize client listener: address in use"%string)) c
  | INIT_FAILURE =>
      listen_fail (mkError (code error) (Some "Failed to initialize client listener"%string)) c
  | INIT_SUCCESS =>
      if vc_state c =? VC_CONNECTED then
        c ← deref vc_tunnel TunnelExclusionsUpdated c;
        if (0 <? vc_dns_upstreams c) && negb (vc_dns_listener c) then
          '(error, c) ← start_dns_proxy_listener c;
          if negb (code error =? VPN_EC_NOERROR) then listen_fail error c
          else
            '(started, c) ← do_dns_upstream_health_check c;
            if (started : bool) then Ok (no_error, c)
            else listen_fail (mkError (code error)
                   (Some "Failed to start DNS upstream health check"%string)) c
        else listen_finish error c
      else listen_finish error c
  end.

(** ** The rest of the interface *)

Definition finalize_disconnect c : VpnClient :=
  let c := if vc_dns_listener c then set_vc_dns_listener false (vc_call DnsListenerDeinit c) else c in
  let c := if vc_upstream c then set_vc_upstream false (vc_call UpstreamDeinit c) else c in
  let c := if vc_bypass c then set_vc_bypass_opened false (vc_call BypassClose c) else c in
  let c := if vc_listener c then set_vc_listener false (vc_call ListenerDeinit c) else c in
  let c := if vc_tunnel c then set_vc_tunnel false (vc_call TunnelDeinit c) else c in
  let c := if vc_connector c then set_vc_connector false (vc_call ConnectorDestroy c) else c in
  fsm_reset VC_DISCONNECTED (clear_deferred_tasks c).

Definition vc_deinit c : VpnClient :=
  let c := vc_call HandoffReset c in
  if vc_bypass c then set_vc_bypass false (vc_call BypassDeinit c) else c.

(** [update_exclusions], after the domain filter has been updated. *)
Definition vc_update_exclusions c : res VpnClient :=
  if vc_state c =? VC_CONNECTED then deref vc_tunnel TunnelExclusionsUpdated c else Ok c.

Definition vc_reset_connections (uid : Z) c : res VpnClient :=
  if vc_state c =? VC_CONNECTED then deref vc_tunnel (TunnelResetConnections uid) c else Ok c.

Definition vc_get_connection_stats {A} (stats none : A) c : res A :=
  _ ← vc_assert (vc_state c =? VC_CONNECTED);
  if vc_state c =? VC_CONNECTED then (if vc_upstream c then Ok stats else UB) else Ok none.

Definition drop_non_app_initiated_dns_queries c : bool :=
  vc_kill_switch c && negb (vc_state c =? VC_CONNECTED).

Definition vc_on_network_change c : VpnClient :=
  if vc_tunnel c then vc_call TunnelNetworkChange c else c.

Definition may_send_icmp_request c : bool := vc_state c =? VC_CONNECTED.

(** [handle_sleep] and [handle_wake]. *)
Definition vc_power (conn up tun : ClientOut) c : res VpnClient :=
  if vc_state c =? VC_CONNECTING then
    if negb (vc_upstream c) then Ok (if vc_connector c then vc_call conn c else c)
    else c ← deref vc_upstream up c; deref vc_tunnel tun c
  else if vc_state c =? VC_CONNECTED then c ← deref vc_upstream up c; deref vc_tunnel tun c
  else Ok c.

Definition vc_handle_sleep : VpnClient → res VpnClient := vc_power ConnectorSleep UpstreamSleep TunnelSleep.
Definition vc_handle_wake : VpnClient → res VpnClient := vc_power ConnectorWake UpstreamWake TunnelWake.

Definition vc_complete_connect_request (id : Z) (action : option VpnConnectAction) c : res VpnClient :=
  deref vc_tunnel (TunnelCompleteRequest id action) c.

Definition vc_reject_connect_request (id : Z) c : res VpnClient := deref vc_listener (ListenerReject id) c.

Definition vc_reset_connection (id : Z) c : res VpnClient := deref vc_tunnel (TunnelResetConnection id) c.

End Client.

(** A client after [init]. *)
Definition client_new (kill_switch : bool) (l : VpnEventLoop ClientTask) : VpnClient :=
  mkVpnClient VC_DISCONNECTED false true false true false false false 0 None false [] None false kill_switch l [].
