(* ===== verification/VpnClientProps.v ===== *)
(** * Properties of the VPN client

    The client under any sequence of calls of the manager, events of its
    collaborators and tasks of the loop: what it holds in each state, that it is
    never stuck, and what happens to errors on its edges. *)
From S2P Require Import Prelude Fsm EventLoop LoopTasks VpnTypes VpnClient.

Implicit Types c : VpnClient.

(** The manager's reaction to an event: it may disconnect the client. *)
Definition silent (_ : ClientEvent) c : res VpnClient := Ok c.

Section Reactions.
Variable ndebug : bool.
Variable ans : ClientAnswers.
Variable disconnects : ClientEvent → bool.

Definition react (e : ClientEvent) c : res VpnClient :=
  if disconnects e then vc_disconnect ndebug ans silent c else Ok c.

End Reactions.

(** ** The invariant *)

(** The tasks [xs] in the loop; [owed] says that the connector has not raised
    its result yet. *)
Record tasks_ok (owed : bool) c (xs : list (Z * ClientTask)) : Prop := {
  to_holds : holds (vc_loop c) xs;
  to_ids : xs.*1 ≡ₚ vc_tasks c;
  to_connecting : vc_state c = VC_CONNECTING → owed = true ∨ ∃ i, (i, TConnectorFinalizer) ∈ xs;
  to_finalizer i : (i, TConnectorFinalizer) ∈ xs →
    vc_state c = VC_CONNECTING ∧ owed = false ∧ (vc_pending_error c = None → vc_upstream c = true);
  to_unique i j : (i, TConnectorFinalizer) ∈ xs → (j, TConnectorFinalizer) ∈ xs → i = j;
  to_disconnecting : vc_state c = VC_DISCONNECTING → ∃ i, (i, TDeferredDisconnect) ∈ xs;
  to_owed : owed = true → vc_state c = VC_CONNECTING;
}.

Record client_inv (owed : bool) c : Prop := {
  ci_recursive : vc_recursive c = false;
  ci_state : vc_state c = VC_DISCONNECTED ∨ vc_state c = VC_CONNECTING ∨ vc_state c = VC_CONNECTED ∨
             vc_state c = VC_DISCONNECTING;
  ci_connector : vc_connector c = (vc_state c =? VC_CONNECTING);
  ci_tunnel : vc_tunnel c = false → vc_state c = VC_DISCONNECTED ∧ vc_tasks c = [] ∧ vc_upstream c = false;
  ci_bypass : vc_tunnel c = true → vc_bypass c = true;
  ci_upstream : vc_state c = VC_CONNECTED → vc_upstream c = true;
  ci_tasks : ∃ xs, tasks_ok owed c xs;
}.

(** Fields the invariant does not look at. *)
Record same_client c c' : Prop := {
  sc_recursive : vc_recursive c' = vc_recursive c;
  sc_state : vc_state c' = vc_state c;
  sc_connector : vc_connector c' = vc_connector c;
  sc_tunnel : vc_tunnel c' = vc_tunnel c;
  sc_bypass : vc_bypass c' = vc_bypass c;
  sc_upstream : vc_upstream c' = vc_upstream c;
  sc_tasks : vc_tasks c' = vc_tasks c;
  sc_pending : vc_pending_error c' = vc_pending_error c;
  sc_loop : vc_loop c' = vc_loop c;
}.

Lemma same_client_inv owed c c' : same_client c c' → client_inv owed c → client_inv owed c'.
Proof.
  intros [H1 H2 H3 H4 H5 H6 H7 H8 H9] [G1 G2 G3 G4 G5 G6 (xs & [K1 K2 K3 K4 K5 K6 K7])].
  split; rewrite ?H1, ?H2, ?H3, ?H4, ?H5, ?H6, ?H7; try done.
  exists xs. split; rewrite ?H2, ?H6, ?H7, ?H8, ?H9; done.
Qed.

Lemma same_call o c : same_client c (vc_call o c).
Proof. by split. Qed.

(** ** Clearing the deferred tasks *)

Definition cancel_all (l : VpnEventLoop ClientTask) (ts : list Z) : VpnEventLoop ClientTask :=
  foldl (λ l i, vpn_event_loop_cancel i l) l ts.

Lemma clear_eq c :
  clear_deferred_tasks c = set_vc_tasks [] (set_vc_loop (cancel_all (vc_loop c) (vc_tasks c)) c).
Proof.
  unfold clear_deferred_tasks. f_equal. generalize (vc_tasks c) as ts. intros ts. revert c.
  induction ts as [|i ts IH]; intros c; [by destruct c|]. cbn [foldl]. rewrite IH. by destruct c.
Qed.

Lemma cancel_all_holds ts l xs : xs.*1 ≡ₚ ts → holds l xs → holds (cancel_all l ts) [].
Proof.
  revert l xs. induction ts as [|i ts IH]; intros l xs Hp Hh.
  - by apply Permutation_nil_r, fmap_nil_inv in Hp as ->.
  - assert (i ∈ xs.*1) as ([j t] & Hj & Hin)%list_elem_of_fmap by (rewrite Hp; set_solver).
    simpl in Hj. subst j. apply list_elem_of_split in Hin as (p1 & p2 & ->).
    apply (IH _ (p1 ++ p2)); [|by eapply holds_cancel].
    apply (Permutation.Permutation_cons_inv (a := i)). rewrite <- Hp, !fmap_app. simpl. solve_Permutation.
Qed.

Section Client.
Variable ndebug : bool.
Variable NON_ID : Z.
Variable ans : ClientAnswers.

(** What [run_disconnect] leaves. *)
Record torn_down c c' : Prop := {
  td_state : vc_state c' = vc_state c;
  td_recursive : vc_recursive c' = vc_recursive c;
  td_tunnel : vc_tunnel c' = vc_tunnel c;
  td_bypass : vc_bypass c' = vc_bypass c;
  td_upstream : vc_upstream c' = vc_upstream c;
  td_pending : vc_pending_error c' = vc_pending_error c;
  td_connector : vc_connector c' = false;
  td_tasks : vc_tasks c' = [];
  td_loop : holds (vc_loop c') [];
}.

Lemma torn_down_same c c1 c2 : torn_down c c1 → same_client c1 c2 → torn_down c c2.
Proof. intros [] []. split; congruence. Qed.

Lemma deref_ok (ptr : VpnClient → bool) o c : ptr c = true → deref ptr o c = Ok (vc_call o c).
Proof. intros H. unfold deref. by rewrite H. Qed.

Lemma run_disconnect_spec c xs :
  vc_tunnel c = true → xs.*1 ≡ₚ vc_tasks c → holds (vc_loop c) xs →
  okP (run_disconnect c NoData) (torn_down c).
Proof.
  intros Ht Hp Hh. unfold run_disconnect.
  eapply (okP_bind _ _ (same_client c)).
  { destruct (vc_dns_listener c); [rewrite deref_ok by done|]; apply okP_ret; by split. }
  intros c1 H1. cbn beta. eapply (okP_bind _ _ (same_client c)).
  { rewrite deref_ok by (by rewrite (sc_tunnel _ _ H1)). apply okP_ret. destruct H1. by split. }
  clear c1 H1. intros c1 H1. cbn beta. cbn [vc_note_error]. mstep.
  rewrite clear_eq. set (c2 := set_vc_tasks [] _).
  set (c3 := if vc_connector c2 then _ else c2).
  assert (torn_down c c3) as H3.
  { assert (holds (vc_loop c2) []) as Hl.
    { unfold c2. cbn. rewrite (sc_loop _ _ H1), (sc_tasks _ _ H1). by eapply cancel_all_holds. }
    unfold c3. destruct (vc_connector c2) eqn:Hc2; destruct H1; split; try done. }
  clearbody c3. clear c2 H1 c1.
  set (c4 := if vc_upstream c3 then _ else c3).
  assert (torn_down c c4) as H4.
  { unfold c4. destruct (vc_upstream c3); [|done]. eapply torn_down_same; [done|apply same_call]. }
  clearbody c4. clear c3 H3.
  rewrite deref_ok by (by rewrite (td_tunnel _ _ H4)). mstep. apply okP_ret.
  eapply torn_down_same; [exact H4|]. destruct (vc_dns_listener _); by split.
Qed.

(** ** One dispatch *)

Definition rows (h : ClientEvent → VpnClient → res VpnClient) (s ev : Z) : FsmTransitionTable VpnClient ClientData :=
  List.filter (row_for s ev) (VC_TRANSITION_TABLE ans h).

Lemma perform_row h ev data c e es (P Q : VpnClient → Prop) :
  vc_recursive c = false → rows h (vc_state c) ev = e :: es →
  condition e = None ∧ (target_state e =? SAME_TARGET_STATE) = false →
  okP (run_action (before_transition e) data (set_vc_recursive true c)) P →
  (∀ c1, P c1 → okP (run_action (after_transition e) data
     (set_vc_recursive false (set_vc_state (target_state e) c1)))
     (λ c2, Q (set_vc_recursive false c2))) →
  okP (vc_perform ndebug ans h ev data c) Q.
Proof.
  intros Hr Hrows [Hcond Hsame] Hb Ha. unfold vc_perform. rewrite perform_transition_rows by exact Hr.
  change (m_current_state c) with (vc_state c). unfold rows in Hrows. rewrite Hrows. cbn [scan_rows].
  rewrite Hcond. cbn [run_condition]. mstep. unfold take_entry.
  destruct Hb as (c1 & He & Hc1). change (set_recursive true c) with (set_vc_recursive true c). rewrite He. mstep.
  destruct (Ha c1 Hc1) as (c2 & He2 & Hc2).
  match goal with |- okP ?m _ => assert (m = Ok (set_vc_recursive false c2)) as -> end; [|by apply okP_ret].
  change (@set_recursive VpnClient _) with set_vc_recursive.
  change (@set_current_state VpnClient _) with set_vc_state. rewrite Hsame. by rewrite He2.
Qed.

Lemma perform_none h ev data c :
  vc_recursive c = false → rows h (vc_state c) ev = [] → vc_perform ndebug ans h ev data c = Ok c.
Proof.
  intros Hr Hrows. unfold vc_perform. rewrite perform_transition_rows by exact Hr.
  change (m_current_state c) with (vc_state c). unfold rows in Hrows. rewrite Hrows. simpl.
  f_equal. destruct c. cbn in *. by subst.
Qed.

(** Tasks without a finalizer, and the invariant of the states they allow. *)
Definition no_finalizer c : Prop :=
  ∃ xs, holds (vc_loop c) xs ∧ xs.*1 ≡ₚ vc_tasks c ∧ ∀ i, (i, TConnectorFinalizer) ∉ xs.

Lemma inv_settled c :
  vc_recursive c = false → vc_connector c = false → vc_tunnel c = true → vc_bypass c = true →
  no_finalizer c → vc_state c = VC_DISCONNECTED ∨ (vc_state c = VC_CONNECTED ∧ vc_upstream c = true) →
  client_inv false c.
Proof.
  intros Hr Hc Ht Hb (xs & Hh & Hp & Hn) Hs. split; try done.
  - naive_solver.
  - rewrite Hc. by destruct Hs as [-> | [-> _]].
  - by rewrite Ht.
  - intros E. destruct Hs as [Hs|[_ ?]]; [by rewrite Hs in E|done].
  - exists xs. split; try done.
    + intros E. by destruct Hs as [Hs|[Hs _]]; rewrite Hs in E.
    + intros i Hi. by destruct (Hn i).
    + intros i j Hi. by destruct (Hn i).
    + intros E. by destruct Hs as [Hs|[Hs _]]; rewrite Hs in E.
Qed.

Lemma inv_no_finalizer owed c : client_inv owed c → vc_state c ≠ VC_CONNECTING → no_finalizer c.
Proof.
  intros [_ _ _ _ _ _ (xs & [H1 H2 _ H4 _ _ _])] Hs. exists xs. split; [done|]. split; [done|].
  intros i Hi. by destruct (H4 i Hi).
Qed.

Lemma inv_owed owed c : client_inv owed c → vc_state c ≠ VC_CONNECTING → owed = false.
Proof.
  intros [_ _ _ _ _ _ (xs & [_ _ _ _ _ _ H])] Hs. destruct owed; [|done]. by destruct Hs; apply H.
Qed.

(** ** Disconnecting *)

Lemma client_disconnect_inv h owed c :
  client_inv owed c →
  okP (vc_disconnect ndebug ans h c) (λ c', client_inv false c' ∧ vc_state c' = VC_DISCONNECTED ∧
    vc_tunnel c' = vc_tunnel c ∧ vc_pending_error c' = vc_pending_error c ∧ vc_upstream c' = vc_upstream c).
Proof.
  intros Hi. unfold vc_disconnect. set (c0 := set_vc_in_disconnect true c).
  assert (client_inv owed c0) as Hi0 by (eapply same_client_inv; [|exact Hi]; by split).
  assert (vc_tunnel c0 = vc_tunnel c ∧ vc_pending_error c0 = vc_pending_error c ∧ vc_upstream c0 = vc_upstream c)
    as (<- & <- & <-) by done.
  clearbody c0. clear c Hi.
  eapply (okP_bind _ _ (λ c', client_inv false c' ∧ vc_state c' = VC_DISCONNECTED ∧
    vc_tunnel c' = vc_tunnel c0 ∧ vc_pending_error c' = vc_pending_error c0 ∧ vc_upstream c' = vc_upstream c0)).
  2: { intros c' (H & ?). apply okP_ret. split; [|done]. eapply same_client_inv; [|exact H]. by split. }
  pose proof (ci_recursive _ _ Hi0) as Hr.
  destruct (Z.eq_dec (vc_state c0) VC_DISCONNECTED) as [Hs|Hs].
  - eapply (perform_row h _ _ _ _ _ (.= set_vc_recursive true c0)); [done|by rewrite Hs|done|by apply okP_ret|].
    intros c1 ->. apply okP_ret. split; [|by destruct c0].
    rewrite (inv_owed _ _ Hi0) in Hi0 by (by rewrite Hs).
    eapply same_client_inv; [|exact Hi0]. by split.
  - assert (vc_tunnel c0 = true) as Ht.
    { destruct (vc_tunnel c0) eqn:Ht; [done|]. by destruct (ci_tunnel _ _ Hi0 Ht). }
    destruct (ci_tasks _ _ Hi0) as (xs & Hx).
    assert (rows h (vc_state c0) VE_DISCONNECT =
      [mkEntry ANY_SOURCE_STATE VE_DISCONNECT None (Some run_disconnect) VC_DISCONNECTED None]) as Hrows.
    { destruct (ci_state _ _ Hi0) as [E|[E|[E|E]]]; [done|rewrite E; reflexivity..]. }
    eapply (perform_row h _ _ _ _ _ (torn_down (set_vc_recursive true c0))); [done|exact Hrows|done| |].
    + apply (run_disconnect_spec (set_vc_recursive true c0) xs); try done; apply Hx.
    + intros c1 [H1 H2 H3 H4 H5 H6 H7 H8 H9]. apply okP_ret. split; [|done].
      apply inv_settled; [done|done|exact (eq_trans H3 Ht)|exact (eq_trans H4 (ci_bypass _ _ Hi0 Ht))| |by left].
      exists []. split; [done|]. cbn. rewrite H8. split; [done|]. intros i Hin. by apply elem_of_nil in Hin.
Qed.

Variable disconnects : ClientEvent → bool.
Notation handler := (react ndebug ans disconnects).

(** ** Raising events *)

Lemma raise_inv e c :
  client_inv false c →
  okP (raise_event handler e c) (λ c', client_inv false c' ∧ vc_tunnel c' = vc_tunnel c ∧
    (vc_state c' = vc_state c ∨ vc_state c' = VC_DISCONNECTED)).
Proof.
  intros Hi. unfold raise_event, react.
  assert (client_inv false (vc_call (ClientRaised e) c)) as H by (eapply same_client_inv; [apply same_call|done]).
  destruct (disconnects e); [|apply okP_ret; auto].
  eapply okP_mono; [by eapply client_disconnect_inv|]. intros c' (? & ? & ? & _). auto.
Qed.

Lemma inv_pending owed e c :
  client_inv owed c → vc_state c ≠ VC_CONNECTING → client_inv owed (set_vc_pending_error e c).
Proof.
  intros [G1 G2 G3 G4 G5 G6 (xs & [K1 K2 K3 K4 K5 K6 K7])] Hs. split; try done.
  exists xs. split; try done. intros i Hi. by destruct (K4 i Hi).
Qed.

Lemma raise_disconnected_inv c d :
  client_inv false c → vc_state c = VC_DISCONNECTED →
  okP (vc_raise_disconnected handler c d) (λ c', client_inv false c' ∧ vc_tunnel c' = vc_tunnel c).
Proof.
  intros Hi Hs. unfold vc_raise_disconnected. destruct (vc_pending_error c) as [e|].
  - eapply okP_bind; [by apply raise_inv|]. intros c' (H & Ht & Hst). apply okP_ret. split; [|done].
    apply inv_pending; [done|]. destruct Hst as [-> | ->]; [by rewrite Hs|done].
  - eapply okP_mono; [by apply raise_inv|]. intros c' (? & ? & _). auto.
Qed.

(** ** The other transitions *)

(** What a client without a connector is before an event of its session. *)
Record quiet_client c : Prop := {
  qc_recursive : vc_recursive c = false;
  qc_connector : vc_connector c = false;
  qc_tunnel : vc_tunnel c = true;
  qc_bypass : vc_bypass c = true;
  qc_tasks : no_finalizer c;
}.

Lemma quiet_settled c s :
  quiet_client c → s = VC_DISCONNECTED ∨ (s = VC_CONNECTED ∧ vc_upstream c = true) →
  client_inv false (set_vc_recursive false (set_vc_state s (set_vc_recursive true c))).
Proof. intros [H1 H2 H3 H4 H5] Hs. by apply inv_settled. Qed.

Definition known_state c : Prop :=
  vc_state c = VC_DISCONNECTED ∨ vc_state c = VC_CONNECTING ∨ vc_state c = VC_CONNECTED ∨
  vc_state c = VC_DISCONNECTING.

Lemma set_recursive_inv owed c : client_inv owed c → client_inv owed (set_vc_recursive false c).
Proof. intros H. eapply same_client_inv; [|exact H]. split; try done. cbn. symmetry. apply H. Qed.

Lemma session_closed_inv c :
  quiet_client c → known_state c →
  okP (vc_perform ndebug ans handler VE_SESSION_CLOSED NoData c) (λ c', client_inv false c' ∧ vc_tunnel c' = true).
Proof.
  intros Hq Hs.
  assert (∃ s, rows handler (vc_state c) VE_SESSION_CLOSED =
    [mkEntry s VE_SESSION_CLOSED None None VC_DISCONNECTED (Some (vc_raise_disconnected handler))]) as (s & Hrows).
  { unfold known_state in Hs. destruct Hs as [E|[E|[E|E]]]; rewrite E; eexists; reflexivity. }
  eapply (perform_row handler _ _ _ _ _ (.= set_vc_recursive true c));
    [apply Hq|exact Hrows|done|by apply okP_ret|].
  intros c1 ->. cbn [run_action after_transition target_state].
  eapply okP_mono; [apply raise_disconnected_inv; [|done]; apply quiet_settled; auto|].
  intros c2 [H Ht]. split; [by apply set_recursive_inv|]. exact (eq_trans Ht (qc_tunnel _ Hq)).
Qed.

Lemma session_opened_inv c :
  quiet_client c → vc_state c = VC_CONNECTING → vc_upstream c = true →
  okP (vc_perform ndebug ans handler VE_SESSION_OPENED NoData c) (λ c', client_inv false c' ∧ vc_tunnel c' = true).
Proof.
  intros Hq Hs Hu.
  eapply (perform_row handler _ _ _ _ _ (.= set_vc_recursive true c));
    [apply Hq|by rewrite Hs|done|by apply okP_ret|].
  intros c1 ->. cbn [run_action after_transition target_state]. unfold vc_raise_connected.
  eapply okP_mono; [apply raise_inv; apply quiet_settled; auto|].
  intros c2 (H & Ht & _). split; [by apply set_recursive_inv|]. exact (eq_trans Ht (qc_tunnel _ Hq)).
Qed.

Lemma submit_spec t c xs :
  holds (vc_loop c) xs →
  ∃ l, submit_client_task t c = set_vc_tasks (vc_tasks c ++ [next_task_id (vc_loop c)]) (set_vc_loop l c) ∧
       holds l ((next_task_id (vc_loop c), t) :: xs).
Proof.
  intros Hh. destruct (holds_submit _ _ t false Hh) as (l & Hs & Hl). exists l. split; [|done].
  unfold submit_client_task, auto_submit. change (get_loop c) with (vc_loop c). rewrite Hs.
  unfold auto_task. pose proof (holds_next _ _ Hh). by destruct (Z.ltb_spec (next_task_id (vc_loop c)) 0); [lia|].
Qed.

Lemma session_failed_inv ev data owed c :
  ev = VE_SESSION_ERROR ∨ ev = VE_RUN_PREPARATION_FAIL ∨ ev = VE_HEALTH_CHECK_ERROR →
  (∀ t, data ≠ TimeoutData t) → client_inv owed c →
  okP (vc_perform ndebug ans handler ev data c) (λ c', client_inv owed c' ∧ vc_tunnel c' = vc_tunnel c ∧
    (vc_state c = VC_CONNECTED → vc_state c' = VC_DISCONNECTING)).
Proof.
  intros Hev Hd Hi. pose proof (ci_recursive _ _ Hi) as Hr.
  destruct (Z.eq_dec (vc_state c) VC_CONNECTED) as [Hs|Hs].
  2: { rewrite perform_none; [by apply okP_ret|done|].
    destruct (ci_state _ _ Hi) as [E|[E|[E|E]]]; rewrite E; destruct Hev as [->|[->| ->]]; done. }
  assert (rows handler (vc_state c) ev =
    [mkEntry VC_CONNECTED ev None (Some vc_submit_disconnect) VC_DISCONNECTING None]) as Hrows.
  { rewrite Hs. destruct Hev as [->|[->| ->]]; reflexivity. }
  destruct (ci_tasks _ _ Hi) as (xs & [H1 H2 H3 H4 H5 H6 H7]).
  eapply (perform_row handler _ _ _ _ _ (λ c1, ∃ e l, c1 = set_vc_tasks (vc_tasks c ++ [next_task_id (vc_loop c)])
      (set_vc_loop l (set_vc_pending_error e (set_vc_recursive true c))) ∧
      holds l ((next_task_id (vc_loop c), TDeferredDisconnect) :: xs))); [done|exact Hrows|done| |].
  - cbn [run_action before_transition]. unfold vc_submit_disconnect.
    assert (∃ e, vc_note_error data (set_vc_recursive true c) = Ok (set_vc_pending_error e (set_vc_recursive true c)))
      as (e & He).
    { destruct data as [|t|e]; [|by destruct (Hd t)|]; cbn.
      - eexists. by destruct c.
      - destruct (_ && _); [by eexists|]. eexists. by destruct c. }
    rewrite He. mstep. set (c1 := set_vc_pending_error e (set_vc_recursive true c)).
    destruct (submit_spec TDeferredDisconnect c1 xs) as (l & Hl & Hh); [done|].
    apply okP_ret. exists e, l. split; [exact Hl|exact Hh].
  - intros c1 (e & l & -> & Hh). cbn [run_action after_transition target_state]. apply okP_ret.
    destruct Hi as [G1 G2 G3 G4 G5 G6 _]. split; [|done]. split; cbn; try done.
    + by do 3 right.
    + rewrite G3, Hs. done.
    + intros E. destruct (G4 E) as (E' & _). by rewrite Hs in E'.
    + exists ((next_task_id (vc_loop c), TDeferredDisconnect) :: xs). split; cbn; try done.
      * rewrite H2. by rewrite Permutation_cons_append.
      * intros i [E|Hin]%elem_of_cons; [done|]. destruct (H4 i Hin) as [E _]. by rewrite Hs in E.
      * intros i j [E|Hi]%elem_of_cons; [done|]. destruct (H4 i Hi) as [E _]. by rewrite Hs in E.
      * intros _. eexists. by left.
      * intros E%H7. by rewrite Hs in E.
Qed.

(** ** Connecting *)

Lemma not_down owed c : client_inv owed c → vc_state c ≠ VC_DISCONNECTED → vc_tunnel c = true.
Proof. intros Hi Hs. destruct (vc_tunnel c) eqn:Ht; [done|]. by destruct (ci_tunnel _ _ Hi Ht). Qed.

(** The connector has accepted the request. *)
Lemma connecting_inv c e l out :
  client_inv false c → vc_state c = VC_DISCONNECTED → vc_tunnel c = true → vc_loop c = l →
  client_inv true (set_vc_pending_error e (set_vc_recursive false (set_vc_state VC_CONNECTING
    (set_vc_connector true (set_vc_out out c))))).
Proof.
  intros Hi Hs Ht <-. destruct (inv_no_finalizer _ _ Hi) as (xs & H1 & H2 & H3); [by rewrite Hs|].
  split; cbn; try done.
  - by right; left.
  - by rewrite Ht.
  - apply Hi.
  - exists xs. split; cbn; try done;
      first [by left | intros i Hin; by destruct (H3 i) | intros i j Hin; by destruct (H3 i)].
Qed.

Lemma run_connect_spec timeout c :
  client_inv false c → vc_state c = VC_DISCONNECTED → vc_tunnel c = true →
  okP (client_connect ndebug ans handler timeout (set_vc_connector true c))
    (λ '(e, c'), client_inv true c' ∧ vc_tunnel c' = true).
Proof.
  intros Hi Hs Ht. unfold client_connect.
  eapply (okP_bind _ _ (λ c', ∃ e out, c' = set_vc_pending_error e (set_vc_recursive false
    (set_vc_state VC_CONNECTING (set_vc_connector true (set_vc_out out c)))))).
  { eapply (perform_row handler _ _ _ _ _ (λ c1, ∃ e out, c1 = set_vc_pending_error e (set_vc_recursive true
      (set_vc_connector true (set_vc_out out c))))); [apply Hi|cbn; by rewrite Hs|done| |].
    - cbn [run_action before_transition]. unfold run_connect. mstep. rewrite deref_ok by done. mstep.
      destruct (negb _); apply okP_ret.
      + by exists (Some (ans_connect ans)), (vc_out c ++ [ConnectorConnect timeout]).
      + exists (vc_pending_error c), (vc_out c ++ [ConnectorConnect timeout]). by destruct c.
    - intros c1 (e & out & ->). apply okP_ret. by exists e, out. }
  intros c' (e & out & ->). apply okP_ret. split; [|exact Ht]. by eapply connecting_inv.
Qed.

Lemma connect_inv timeout owed c :
  client_inv owed c → vc_tunnel c = true →
  okP (vc_connect ndebug ans handler true timeout c) (λ '(e, c'),
    client_inv (if vc_state c =? VC_DISCONNECTED then code e =? VPN_EC_NOERROR else owed) c').
Proof.
  intros Hi Ht. unfold vc_connect.
  destruct (Z.eqb_spec (vc_state c) VC_DISCONNECTED) as [Hs|Hs]; cbn [negb]; [|by apply okP_ret].
  rewrite (inv_owed _ _ Hi) in Hi by (by rewrite Hs).
  assert (vc_connector c = false) as Hc by (rewrite (ci_connector _ _ Hi), Hs; done).
  change (vc_connector (vc_call ConnectorCreate c)) with (vc_connector c). rewrite Hc.
  eapply okP_bind.
  { apply run_connect_spec; [|exact Hs|exact Ht]. eapply same_client_inv; [apply same_call|exact Hi]. }
  intros [e c1] [Hi1 Ht1]. cbn beta iota.
  eapply (okP_bind _ _ (λ '(failed, (e', c2)), client_inv true c2 ∧
    (failed = false → code e' = VPN_EC_NOERROR))).
  { destruct (Z.eqb_spec (code e) VPN_EC_NOERROR) as [Hcode|Hcode]; cbn [negb]; [|by apply okP_ret].
    rewrite deref_ok by (by apply (ci_bypass _ _ Hi1)). mstep.
    assert (client_inv true (vc_call BypassOpen c1)) by (eapply same_client_inv; [apply same_call|exact Hi1]).
    destruct (ans_bypass_open ans); by apply okP_ret. }
  intros [failed [e' c2]] [Hi2 Hf]. cbn beta iota. destruct failed.
  - eapply okP_bind; [by eapply client_disconnect_inv|]. intros c3 (Hi3 & _). apply okP_ret. cbn [code].
    destruct (Z.eqb_spec (code e') 0) as [E|E]; [exact Hi3|].
    destruct (Z.eqb_spec (code e') VPN_EC_NOERROR); [by destruct E|done].
  - apply okP_ret. by rewrite (Hf eq_refl).
Qed.

Lemma start_dns_spec c :
  vc_tunnel c = true → okP (start_dns_proxy_listener ans c) (λ '(e, c'), same_client c c').
Proof.
  intros Ht. unfold start_dns_proxy_listener. destruct (negb _); [apply okP_ret; by split|].
  destruct (ans_dns_listener ans); [|apply okP_ret; by split..].
  rewrite deref_ok by done. mstep. destruct (ans_dns_handler ans); apply okP_ret; by split.
Qed.

Lemma same_client_trans c1 c2 c3 : same_client c1 c2 → same_client c2 c3 → same_client c1 c3.
Proof. intros [] []. split; congruence. Qed.

Lemma result_inv r c :
  client_inv true c → okP (endpoint_connector_handler ans r c) (client_inv false).
Proof.
  intros Hi. destruct (ci_tasks _ _ Hi) as (xs & [H1 H2 H3 H4 H5 H6 H7]).
  pose proof (H7 eq_refl) as Hs. pose proof (not_down _ _ Hi) as Ht. rewrite Hs in Ht. specialize (Ht ltac:(done)).
  unfold endpoint_connector_handler.
  eapply (okP_bind _ _ (λ c', ∃ e up c0, c' = set_vc_pending_error e (set_vc_upstream up c0) ∧ same_client c c0 ∧
    (up = true ∨ (up = vc_upstream c ∧ e ≠ None)))).
  { destruct r as [e|].
    - apply okP_ret. exists (Some e), (vc_upstream c), c. split; [by destruct c|]. split; [by split|auto].
    - set (c1 := set_vc_upstream true (set_vc_pending_error None c)).
      destruct ((0 <? vc_dns_upstreams c1) && negb (vc_dns_listener c1)).
      2: { apply okP_ret. exists None, true, c. split; [by destruct c|]. split; [by split|auto]. }
      eapply okP_bind; [by apply start_dns_spec|]. intros [e c2] Hsame. cbn beta iota.
      assert (∀ p, ∃ e up c0, set_vc_pending_error p c2 = set_vc_pending_error e (set_vc_upstream up c0) ∧
        same_client c c0 ∧ (up = true ∨ (up = vc_upstream c ∧ e ≠ None))) as Hall.
      { intros p. exists p, true, (set_vc_upstream (vc_upstream c) (set_vc_pending_error (vc_pending_error c) c2)).
        destruct Hsame as [K1 K2 K3 K4 K5 K6 K7 K8 K9]. cbn in *. split; [destruct c2; cbn in *; by rewrite K6|].
        split; [by split|by left]. }
      destruct (negb _); apply okP_ret; [apply Hall|].
      destruct (Hall (vc_pending_error c2)) as (e' & up & c0 & He & ?). exists e', up, c0. split; [|done].
      rewrite <- He. by destruct c2. }
  intros c' (e & up & c0 & -> & [K1 K2 K3 K4 K5 K6 K7 K8 K9] & Hup). cbn beta.
  destruct (submit_spec TConnectorFinalizer (set_vc_pending_error e (set_vc_upstream up c0)) xs) as (l & -> & Hl);
    [cbn; by rewrite K9|].
  apply okP_ret. destruct Hi as [G1 G2 G3 G4 G5 G6 _].
  split; cbn in *; rewrite ?K1, ?K2, ?K3, ?K4, ?K5; try done.
  - by rewrite Ht.
  - by rewrite Hs.
  - eexists. split; cbn; [exact Hl|..]; rewrite ?K2, ?K6, ?K7; try done.
    + cbn. rewrite H2. by rewrite Permutation_cons_append.
    + intros _. right. eexists. by left.
    + intros i _. split_and!; try done. intros ->. destruct Hup as [->|[_ ?]]; done.
    + intros i j [[= ->]|Hin]%elem_of_cons [[= ->]|Hin']%elem_of_cons;
        first [done | by destruct (H4 _ Hin) as (_ & ? & _) | by destruct (H4 _ Hin') as (_ & ? & _)].
    + by rewrite Hs.
Qed.

(** ** Tasks *)

Lemma filter_out_head (i : Z) zs ts : NoDup (i :: zs) → ts ≡ₚ i :: zs → filter (λ j, j ≠ i) ts ≡ₚ zs.
Proof.
  intros [Hi _]%NoDup_cons ->. rewrite filter_cons_False by auto.
  induction zs as [|j zs IH]; [done|]. apply not_elem_of_cons in Hi as [Hj Hi].
  rewrite filter_cons_True by done. by rewrite IH.
Qed.

(** The tasks once [(i, t)] has been taken out of the loop and released. *)
Lemma released i t c l' xs :
  taken (i, t) (vc_loop c) l' → holds (vc_loop c) xs → xs.*1 ≡ₚ vc_tasks c →
  let c1 := release_deferred_task i (set_vc_loop l' c) in
  ∃ ys, xs ≡ₚ (i, t) :: ys ∧ holds (vc_loop c1) ys ∧ ys.*1 ≡ₚ vc_tasks c1.
Proof.
  intros Htk Hh Hids. destruct (Htk xs Hh) as (ys & Hp & Hl). exists ys. split; [done|]. split; [done|].
  cbn. symmetry. apply filter_out_head.
  - change (NoDup ((i, t) :: ys).*1). rewrite <- Hp, <- (holds_perm _ _ Hh). apply Hh.
  - by rewrite <- Hids, Hp.
Qed.

Lemma released_inv i t owed c l' :
  client_inv owed c → taken (i, t) (vc_loop c) l' → t ≠ TConnectorFinalizer →
  (t = TDeferredDisconnect → vc_state c ≠ VC_DISCONNECTING) →
  client_inv owed (release_deferred_task i (set_vc_loop l' c)).
Proof.
  intros Hi Htk Hf Hd. destruct (ci_tasks _ _ Hi) as (xs & [H1 H2 H3 H4 H5 H6 H7]).
  destruct (released _ _ _ _ _ Htk H1 H2) as (ys & Hp & Hl & Hids).
  destruct Hi as [G1 G2 G3 G4 G5 G6 _]. split; try done.
  { intros E. destruct (G4 E) as (? & Et & ?). cbn. by rewrite Et. }
  exists ys. split; try done.
  - intros Hs. destruct (H3 Hs) as [?|(j & Hj)]; [by left|right]. rewrite Hp in Hj. exists j.
    apply elem_of_cons in Hj as [E|?]; [congruence|done].
  - intros j Hj. apply (H4 j). rewrite Hp. by right.
  - intros j k Hj Hk. apply H5; rewrite Hp; by right.
  - intros Hs. destruct (H6 Hs) as (j & Hj). rewrite Hp in Hj. exists j.
    apply elem_of_cons in Hj as [[= <- <-]|?]; [|done]. by destruct (Hd eq_refl).
Qed.

Lemma dns_check_spec c :
  vc_tunnel c = true → okP (do_dns_upstream_health_check ans c) (λ '(_, c'), same_client c c').
Proof. intros Ht. unfold do_dns_upstream_health_check. rewrite deref_ok by done. apply okP_ret. by split. Qed.

Lemma finalizer_inv i owed c l' :
  client_inv owed c → taken (i, TConnectorFinalizer) (vc_loop c) l' →
  okP (endpoint_connector_finalizer ndebug ans handler i (set_vc_loop l' c)) (client_inv owed).
Proof.
  intros Hi Htk. destruct (ci_tasks _ _ Hi) as (xs & [H1 H2 H3 H4 H5 H6 H7]).
  destruct (released _ _ _ _ _ Htk H1 H2) as (ys & Hp & Hl & Hids).
  destruct (H4 i) as (Hs & -> & Hup); [rewrite Hp; by left|].
  assert (vc_connector c = true) as Hc by (rewrite (ci_connector _ _ Hi), Hs; done).
  pose proof (not_down _ _ Hi) as Ht. rewrite Hs in Ht. specialize (Ht ltac:(done)).
  unfold endpoint_connector_finalizer.
  set (c1 := release_deferred_task i (set_vc_loop l' c)) in *.
  change (vc_connector c1) with (vc_connector c). rewrite Hc.
  set (c2 := set_vc_connector false (vc_call ConnectorDestroy c1)).
  assert (quiet_client c2) as Hq.
  { split; try done; [apply Hi|by apply (ci_bypass _ _ Hi)|].
    exists ys. split; [done|]. split; [done|]. intros j Hj.
    assert (j = i) as -> by (apply H5; rewrite Hp; [by right|by left]).
    pose proof (holds_nodup _ _ H1) as Hn. rewrite (holds_perm _ _ H1), Hp in Hn. simpl in Hn.
    apply NoDup_cons in Hn as [Hn _]. apply Hn, list_elem_of_fmap. by exists (i, TConnectorFinalizer). }
  change (vc_pending_error c2) with (vc_pending_error c).
  destruct (vc_pending_error c) as [e|].
  { eapply okP_mono; [apply (session_closed_inv _ Hq); by right; left|]. by intros c' [? _]. }
  rewrite deref_ok by exact Ht. mstep.
  eapply okP_bind.
  { apply session_opened_inv; [destruct Hq; by split|exact Hs|by apply Hup]. }
  intros c3 [Hi3 Ht3]. cbn beta. destruct (vc_listener c3); [|by apply okP_ret].
  rewrite deref_ok by done. mstep.
  assert (client_inv false (vc_call TunnelExclusionsUpdated c3)) as Hi4
    by (eapply same_client_inv; [apply same_call|done]).
  destruct (vc_dns_listener _); [|by apply okP_ret].
  eapply okP_bind; [by apply dns_check_spec|]. intros [started c5] Hsame. apply okP_ret.
  pose proof (same_client_inv _ _ _ Hsame Hi4) as Hi5.
  destruct started; [done|]. eapply same_client_inv; [apply same_call|done].
Qed.

Lemma deferred_inv i owed c l' :
  client_inv owed c → taken (i, TDeferredDisconnect) (vc_loop c) l' →
  okP (vc_perform ndebug ans handler VE_DEFERRED_DISCONNECT NoData
         (release_deferred_task i (set_vc_loop l' c))) (client_inv owed).
Proof.
  intros Hi Htk. set (c1 := release_deferred_task i (set_vc_loop l' c)).
  destruct (Z.eq_dec (vc_state c) VC_DISCONNECTING) as [Hs|Hs].
  2: { rewrite perform_none; [apply okP_ret; by apply (released_inv i TDeferredDisconnect)|apply Hi|].
    change (vc_state c1) with (vc_state c).
    destruct (ci_state _ _ Hi) as [E|[E|[E|E]]]; rewrite E; done. }
  rewrite (inv_owed _ _ Hi) in Hi |- * by (by rewrite Hs).
  pose proof (not_down _ _ Hi) as Ht. rewrite Hs in Ht. specialize (Ht ltac:(done)).
  destruct (ci_tasks _ _ Hi) as (xs & [H1 H2 H3 H4 H5 H6 H7]).
  destruct (released _ _ _ _ _ Htk H1 H2) as (ys & Hp & Hl & Hids).
  eapply (perform_row handler _ _ _ _ _ (torn_down (set_vc_recursive true c1)));
    [apply Hi|change (vc_state c1) with (vc_state c); rewrite Hs; reflexivity|done| |].
  - by apply (run_disconnect_spec (set_vc_recursive true c1) ys).
  - intros c2 [K1 K2 K3 K4 K5 K6 K7 K8 K9]. cbn [run_action after_transition target_state].
    eapply okP_mono; [apply raise_disconnected_inv; [|done]|].
    + apply inv_settled; [done|done|exact (eq_trans K3 Ht)|exact (eq_trans K4 (ci_bypass _ _ Hi Ht))| |by left].
      exists []. split; [done|]. cbn. rewrite K8. split; [done|]. intros j Hin. by apply elem_of_nil in Hin.
    + intros c3 [H _]. by apply set_recursive_inv.
Qed.

Lemma client_task_inv i t owed c l' :
  client_inv owed c → taken (i, t) (vc_loop c) l' →
  okP (run_client_task ndebug ans handler i t (set_vc_loop l' c)) (client_inv owed).
Proof.
  intros Hi Htk. destruct t; cbn [run_client_task].
  - by apply finalizer_inv.
  - unfold health_check_task.
    assert (client_inv owed (release_deferred_task i (set_vc_loop l' c))) as H1 by (by apply (released_inv i THealthCheck)).
    destruct (Z.eqb_spec (vc_state (release_deferred_task i (set_vc_loop l' c))) VC_CONNECTED) as [E|E];
      cbn [negb]; [|by apply okP_ret].
    rewrite deref_ok by (by apply (ci_upstream _ _ H1)). apply okP_ret.
    eapply same_client_inv; [apply same_call|done].
  - by apply deferred_inv.
Qed.

(** ** The other operations *)

Lemma call_inv owed o c : client_inv owed c → client_inv owed (vc_call o c).
Proof. intros Hi. eapply same_client_inv; [apply same_call|done]. Qed.

(** An event of the endpoint's upstream, unless an assertion stops it or it ends
    the session under the connector. *)
Lemma upstream_inv what owed c :
  client_inv owed c → vc_upstream c = true →
  vc_connector c = false ∨ ndebug = true ∧ what ≠ UP_SESSION_CLOSED → what ≠ UP_SESSION_OPENED ∨ ndebug = true →
  okP (vpn_upstream_handler ndebug NON_ID ans handler what c) (client_inv owed).
Proof.
  intros Hi Hu Hc Hw. unfold vpn_upstream_handler, vc_assert.
  assert (negb (vc_connector c) || ndebug = true) as -> by (destruct Hc as [-> |[-> _]]; [done|apply orb_true_r]). mstep.
  assert (vc_tunnel c = true) as Ht.
  { destruct (vc_tunnel c) eqn:Ht; [done|]. destruct (ci_tunnel _ _ Hi Ht) as (_ & _ & E). congruence. }
  set (gone := match what with UP_SESSION_CLOSED => true | UP_ERROR id _ => id =? NON_ID | _ => false end).
  eapply (okP_bind _ _ (same_client c)).
  { destruct gone; [rewrite deref_ok by done|]; apply okP_ret; by split. }
  intros c1 H1. cbn beta. rewrite deref_ok by (by rewrite (sc_tunnel _ _ H1)). mstep.
  set (c2 := vc_call (TunnelUpstreamEvent what) c1).
  assert (same_client c c2) as H2 by (eapply same_client_trans; [exact H1|apply same_call]).
  assert (client_inv owed c2) as Hi2 by (by eapply same_client_inv).
  eapply (okP_bind _ _ (λ c', client_inv owed c' ∧ vc_tunnel c' = true)).
  2: { intros c3 [Hi3 Ht3]. cbn beta. destruct gone; [|by apply okP_ret].
    rewrite deref_ok by done. apply okP_ret. by apply call_inv. }
  assert (vc_tunnel c2 = true) as Ht2 by (by rewrite (sc_tunnel _ _ H2)).
  assert (∀ ev e, ev = VE_SESSION_ERROR ∨ ev = VE_RUN_PREPARATION_FAIL ∨ ev = VE_HEALTH_CHECK_ERROR →
    okP (vc_perform ndebug ans handler ev (ErrorData e) c2) (λ c', client_inv owed c' ∧ vc_tunnel c' = true)) as Hfail.
  { intros ev e Hev. eapply okP_mono; [by apply (session_failed_inv _ _ owed)|]. intros c' (? & E & _). by rewrite E. }
  destruct what as [| |e|id e|].
  - destruct Hw as [?| ->]; [done|]. mstep. by apply okP_ret.
  - destruct Hc as [Hc|[_ ?]]; [|done].
    assert (vc_state c ≠ VC_CONNECTING) as Hs by (intros E; by rewrite (ci_connector _ _ Hi), E in Hc).
    rewrite (inv_owed _ _ Hi Hs). apply session_closed_inv; [|apply Hi2].
    split; [apply Hi2|by rewrite (sc_connector _ _ H2)|done|by apply (ci_bypass _ _ Hi2)|].
    eapply inv_no_finalizer; [exact Hi2|]. by rewrite (sc_state _ _ H2).
  - apply Hfail. auto.
  - destruct (negb _); [by apply okP_ret|]. apply Hfail. auto.
  - by apply okP_ret.
Qed.

(** An event that ends the session while the connector is still there: in a release
    build the client is disconnected and keeps the connector. *)
Lemma idle_disconnect h c :
  vc_recursive c = false → vc_state c = VC_DISCONNECTED → okP (vc_disconnect ndebug ans h c) (same_client c).
Proof.
  intros Hr Hs. unfold vc_disconnect. eapply (okP_bind _ _ (same_client c)).
  - eapply (perform_row h _ _ _ _ _ (.= set_vc_recursive true (set_vc_in_disconnect true c))); [done|by cbn; rewrite Hs|done|by apply okP_ret|].
    intros c1 ->. apply okP_ret. by split.
  - intros c' []. apply okP_ret. by split.
Qed.

Lemma raise_idle e c :
  vc_recursive c = false → vc_state c = VC_DISCONNECTED → okP (raise_event handler e c) (same_client c).
Proof.
  intros Hr Hs. unfold raise_event, react. destruct (disconnects e); [|apply okP_ret, same_call].
  eapply okP_mono; [by apply idle_disconnect|]. intros c' Hc'. eapply same_client_trans; [apply same_call|done].
Qed.

Lemma early_close_keeps_connector c :
  ndebug = true → vc_recursive c = false → vc_state c = VC_CONNECTING → vc_tunnel c = true → vc_connector c = true →
  okP (vpn_upstream_handler ndebug NON_ID ans handler UP_SESSION_CLOSED c) (λ c',
    vc_state c' = VC_DISCONNECTED ∧ vc_connector c' = true ∧ vc_tasks c' = vc_tasks c ∧ vc_loop c' = vc_loop c).
Proof.
  intros Hn Hr Hs Ht Hc. unfold vpn_upstream_handler, vc_assert. rewrite Hn, orb_true_r. mstep.
  rewrite deref_ok by done. mstep. rewrite deref_ok by done. mstep.
  set (c1 := vc_call _ (vc_call _ c)). assert (same_client c c1) as H1 by (by split). clearbody c1.
  eapply (okP_bind _ _ (λ c', vc_state c' = VC_DISCONNECTED ∧ vc_connector c' = true ∧ vc_tunnel c' = true
            ∧ vc_tasks c' = vc_tasks c ∧ vc_loop c' = vc_loop c)).
  2: { intros c2 (? & ? & Ht2 & ? & ?). rewrite deref_ok by done. by apply okP_ret. }
  rewrite <- Hn. eapply (perform_row handler _ _ _ _ _ (.= set_vc_recursive true c1));
    [by rewrite (sc_recursive _ _ H1)|by rewrite (sc_state _ _ H1), Hs|done|by apply okP_ret|].
  intros c2 ->. cbn [run_action after_transition target_state]. set (c2 := set_vc_recursive false _).
  assert (∀ e, okP (raise_event handler e c2) (same_client c2)) as Hraise by (intros e; by apply raise_idle).
  unfold vc_raise_disconnected. destruct H1, (vc_pending_error c2) as [e|].
  - eapply okP_bind; [apply Hraise|]. intros c3 []. apply okP_ret. unfold c2 in *. cbn in *. split_and!; congruence.
  - eapply okP_mono; [apply Hraise|]. intros c3 []. unfold c2 in *. cbn in *. split_and!; congruence.
Qed.

Lemma health_check_inv owed c :
  client_inv owed c → vc_tunnel c = true → okP (vc_do_health_check c) (client_inv owed).
Proof.
  intros Hi Ht. destruct (ci_tasks _ _ Hi) as (xs & [H1 H2 H3 H4 H5 H6 H7]).
  unfold vc_do_health_check, submit_health_check, auto_schedule. change (get_loop c) with (vc_loop c).
  destruct (holds_schedule _ _ THealthCheck false 0 H1) as (l & -> & Hl). mstep.
  unfold auto_task. pose proof (holds_next _ _ H1).
  destruct (Z.ltb_spec (next_task_id (vc_loop c)) 0); [lia|]. apply okP_ret.
  destruct Hi as [G1 G2 G3 G4 G5 G6 _]. split; try done; cbn; [by rewrite Ht|].
  eexists. split; cbn; [exact Hl|..]; try done.
  - cbn. rewrite H2. by rewrite Permutation_cons_append.
  - intros Hs. destruct (H3 Hs) as [?|(j & ?)]; [by left|right]. exists j. by right.
  - intros i [E|Hin]%elem_of_cons; [done|by apply H4 in Hin].
  - intros i j [E|Hin]%elem_of_cons [E'|Hin']%elem_of_cons; try done. by apply H5.
  - intros Hs. destruct (H6 Hs) as (j & ?). exists j. by right.
Qed.

Lemma listen_fail_spec e owed c :
  client_inv owed c →
  okP (listen_fail ndebug ans handler e c) (λ '(e', c'), client_inv owed c' ∧ e' = e ∧
    (vc_state c = VC_CONNECTED → vc_state c' = VC_DISCONNECTING)).
Proof.
  intros Hi. unfold listen_fail. eapply okP_bind; [by apply (session_failed_inv _ _ owed); auto|].
  intros c' (? & _ & ?). by apply okP_ret.
Qed.

Lemma listen_fail_inv e owed c :
  client_inv owed c → okP (listen_fail ndebug ans handler e c) (λ '(_, c'), client_inv owed c').
Proof. intros Hi. eapply okP_mono; [by eapply listen_fail_spec|]. by intros [] (? & _). Qed.

Lemma listen_finish_inv e owed c :
  client_inv owed c → vc_tunnel c = true →
  okP (listen_finish ndebug ans handler e c) (λ '(_, c'), client_inv owed c').
Proof.
  intros Hi Ht. unfold listen_finish. rewrite deref_ok by done. mstep.
  destruct (ans_dns_handler ans); [apply okP_ret; by apply call_inv|]. by apply listen_fail_inv, call_inv.
Qed.

Lemma listen_inv dns owed c :
  client_inv owed c → vc_tunnel c = true →
  okP (vc_listen ndebug ans handler dns c) (λ '(_, c'), client_inv owed c').
Proof.
  intros Hi Ht. unfold vc_listen. set (c1 := vc_call ListenerInit _).
  assert (client_inv owed c1) as H1 by (eapply same_client_inv; [|exact Hi]; by split).
  assert (vc_tunnel c1 = true) as Ht1 by done. clearbody c1.
  destruct (ans_listener ans); [|by apply listen_fail_inv..].
  destruct (vc_state c1 =? VC_CONNECTED); [|by apply listen_finish_inv].
  rewrite deref_ok by done. mstep. set (c2 := vc_call TunnelExclusionsUpdated c1).
  assert (client_inv owed c2) as H2 by (by apply call_inv).
  destruct (_ && _); [|by apply listen_finish_inv].
  eapply okP_bind; [by apply start_dns_spec|]. intros [e c3] Hs3. cbn beta iota.
  assert (client_inv owed c3) as H3 by (by eapply same_client_inv).
  destruct (negb _); [by apply listen_fail_inv|].
  eapply okP_bind; [apply dns_check_spec; by rewrite (sc_tunnel _ _ Hs3)|]. intros [st c4] Hs4. cbn beta iota.
  assert (client_inv owed c4) as H4 by (by eapply same_client_inv).
  destruct st; [by apply okP_ret|by apply listen_fail_inv].
Qed.

Lemma power_inv conn up tun owed c :
  client_inv owed c → okP (vc_power conn up tun c) (client_inv owed).
Proof.
  intros Hi. unfold vc_power.
  assert (vc_upstream c = true → vc_tunnel c = true) as Ht.
  { intros Hu. destruct (vc_tunnel c) eqn:Ht; [done|]. destruct (ci_tunnel _ _ Hi Ht) as (_ & _ & E). congruence. }
  assert (vc_upstream c = true → okP (c0 ← deref vc_upstream up c; deref vc_tunnel tun c0) (client_inv owed)) as Hd.
  { intros Hu. rewrite deref_ok by done. mstep. rewrite deref_ok by (by apply Ht). apply okP_ret.
    by do 2 apply call_inv. }
  destruct (vc_state c =? VC_CONNECTING).
  - destruct (vc_upstream c); cbn [negb]; [by apply Hd|]. apply okP_ret. destruct (vc_connector c); [|done].
    by apply call_inv.
  - destruct (Z.eqb_spec (vc_state c) VC_CONNECTED) as [E|E]; [|by apply okP_ret].
    by apply Hd, (ci_upstream _ _ Hi).
Qed.

Lemma finalize_disconnect_inv owed c : client_inv owed c → client_inv false (finalize_disconnect c).
Proof.
  intros Hi. destruct (ci_tasks _ _ Hi) as (xs & [H1 H2 _ _ _ _ _]).
  pose proof (cancel_all_holds _ _ _ H2 H1) as Hh. unfold finalize_disconnect.
  set (c1 := if vc_dns_listener c then _ else c).
  assert (vc_tasks c1 = vc_tasks c ∧ vc_loop c1 = vc_loop c) as [E1 E2]
    by (unfold c1; by destruct (vc_dns_listener c)). clearbody c1.
  set (c2 := if vc_upstream c1 then _ else c1).
  assert (vc_tasks c2 = vc_tasks c1 ∧ vc_loop c2 = vc_loop c1 ∧ vc_upstream c2 = false) as (F1 & F2 & F3)
    by (unfold c2; by destruct (vc_upstream c1) eqn:?). clearbody c2.
  set (c3 := if vc_bypass c2 then _ else c2).
  assert (vc_tasks c3 = vc_tasks c2 ∧ vc_loop c3 = vc_loop c2 ∧ vc_upstream c3 = vc_upstream c2) as (G1 & G2 & G3)
    by (unfold c3; by destruct (vc_bypass c2)). clearbody c3.
  set (c4 := if vc_listener c3 then _ else c3).
  assert (vc_tasks c4 = vc_tasks c3 ∧ vc_loop c4 = vc_loop c3 ∧ vc_upstream c4 = vc_upstream c3) as (J1 & J2 & J3)
    by (unfold c4; by destruct (vc_listener c3)). clearbody c4.
  set (c5 := if vc_tunnel c4 then _ else c4).
  assert (vc_tasks c5 = vc_tasks c4 ∧ vc_loop c5 = vc_loop c4 ∧ vc_upstream c5 = vc_upstream c4 ∧ vc_tunnel c5 = false)
    as (K1 & K2 & K3 & K4) by (unfold c5; by destruct (vc_tunnel c4) eqn:?). clearbody c5.
  set (c6 := if vc_connector c5 then _ else c5).
  assert (vc_tasks c6 = vc_tasks c5 ∧ vc_loop c6 = vc_loop c5 ∧ vc_upstream c6 = vc_upstream c5 ∧
    vc_tunnel c6 = vc_tunnel c5 ∧ vc_connector c6 = false)
    as (L1 & L2 & L3 & L4 & L5) by (unfold c6; by destruct (vc_connector c5) eqn:?). clearbody c6.
  rewrite clear_eq. assert (holds (cancel_all (vc_loop c6) (vc_tasks c6)) []) as Hh6 by congruence.
  split; cbn; [done|by left|by rewrite L5|intros _; split_and!; [done|done|congruence]|intros E; congruence|done|].
  exists []. split; cbn; try done; intros i; intros; exfalso; by eapply not_elem_of_nil.
Qed.

(** ** The life of a client *)

Inductive ClientOp :=
| CConnect (timeout : option Z)
| CDisconnect
| CListen (dns_upstreams : Z)
| CResult (r : option VpnError)
| CUpstream (what : UpstreamEvent)
| CBypass (what : UpstreamEvent)
| CDns (success : bool)
| CTask
| CTimer (id : Z)
| CHealthCheck
| CSleep
| CWake
| CExclusions
| CResetConnections (uid : Z)
| CNetworkChange
| CFinalize
| CDeinit.

(** What callers and collaborators ensure: nothing but [deinit] follows
    [finalize_disconnect]; the connector raises one result for a [connect] it
    accepted, unless it is disconnected first; an upstream that raises events is
    there. *)
Definition client_allowed (owed : bool) (op : ClientOp) c : Prop :=
  match op with
  | CConnect _ | CListen _ | CBypass _ | CHealthCheck => vc_tunnel c = true
  | CResult _ => owed = true
  | CUpstream _ => vc_upstream c = true
  | CDeinit => vc_tunnel c = false
  | _ => True
  end.

(** The events that fail the assertions of [vpn_upstream_handler]: one that comes
    while the connector is still there, and [SERVER_EVENT_SESSION_OPENED]. *)
Definition asserted (op : ClientOp) c : bool :=
  match op with
  | CUpstream what => vc_connector c || match what with UP_SESSION_OPENED => true | _ => false end
  | _ => false
  end.

(** The end of the session while the connector is still there. *)
Definition early_close (op : ClientOp) c : bool :=
  match op with CUpstream UP_SESSION_CLOSED => vc_connector c | _ => false end.

(** The operation, and whether the connector owes a result afterwards. *)
Definition run_client_op (owed : bool) (op : ClientOp) c : res (bool * VpnClient) :=
  match op with
  | CConnect timeout =>
      '(e, c') ← vc_connect ndebug ans handler true timeout c;
      Ok (if vc_state c =? VC_DISCONNECTED then code e =? VPN_EC_NOERROR else owed, c')
  | CDisconnect => c ← vc_disconnect ndebug ans handler c; Ok (false, c)
  | CListen dns => '(_, c) ← vc_listen ndebug ans handler dns c; Ok (owed, c)
  | CResult r => c ← endpoint_connector_handler ans r c; Ok (false, c)
  | CUpstream what => c ← vpn_upstream_handler ndebug NON_ID ans handler what c; Ok (owed, c)
  | CBypass what => c ← direct_upstream_handler what c; Ok (owed, c)
  | CDns success => Ok (owed, dns_resolver_handler success c)
  | CTask => c ← run_front (run_client_task ndebug ans handler) c; Ok (owed, c)
  | CTimer id => c ← run_deferred_task (run_client_task ndebug ans handler) id c; Ok (owed, c)
  | CHealthCheck => c ← vc_do_health_check c; Ok (owed, c)
  | CSleep => c ← vc_handle_sleep c; Ok (owed, c)
  | CWake => c ← vc_handle_wake c; Ok (owed, c)
  | CExclusions => c ← vc_update_exclusions c; Ok (owed, c)
  | CResetConnections uid => c ← vc_reset_connections uid c; Ok (owed, c)
  | CNetworkChange => Ok (owed, vc_on_network_change c)
  | CFinalize => Ok (false, finalize_disconnect c)
  | CDeinit => Ok (owed, vc_deinit c)
  end.

Lemma run_info_client info owed c l' :
  client_inv owed c → taken (entry_of info) (vc_loop c) l' →
  okP (run_info (run_client_task ndebug ans handler) info (set_loop l' c)) (client_inv owed).
Proof.
  intros Hi Htk. unfold run_info.
  eapply (okP_bind _ _ (client_inv owed)).
  - apply (client_task_inv (ti_id info) (task_action (ti_task info)) owed c (emit (Running (ti_id info)) l') Hi).
    by apply taken_emit.
  - intros c' Hc'. apply okP_ret. destruct Hc' as [G1 G2 G3 G4 G5 G6 (xs & [K1 K2 K3 K4 K5 K6 K7])].
    split; try done. exists xs. split; try done. cbn. unfold finalize_task. by apply holds_emit.
Qed.

Lemma run_client_op_inv owed op c :
  client_inv owed c → client_allowed owed op c → asserted op c = false ∨ ndebug = true → early_close op c = false →
  okP (run_client_op owed op c) (λ '(owed', c'), client_inv owed' c').
Proof.
  intros Hi Ha Has Hec.
  assert (∀ r, okP r (client_inv owed) → okP (c ← r; Ok (owed, c)) (λ '(owed', c'), client_inv owed' c')) as Hkeep.
  { intros r Hr. eapply okP_bind; [exact Hr|]. intros c' Hc'. by apply okP_ret. }
  destruct op as [timeout| |dns|r|what|what|success| |id| | | | |uid| | |]; cbn [run_client_op client_allowed] in *.
  - eapply okP_bind; [by eapply connect_inv|]. intros [e c'] Hc'. by apply okP_ret.
  - eapply okP_bind; [by eapply client_disconnect_inv|]. intros c' (? & _). by apply okP_ret.
  - eapply okP_bind; [by eapply listen_inv|]. intros [e c'] Hc'. by apply okP_ret.
  - subst owed. eapply okP_bind; [by eapply result_inv|]. intros c' ?. by apply okP_ret.
  - apply Hkeep, upstream_inv; [done..| |].
    + destruct (vc_connector c) eqn:Hc; [|by left]. right. cbn in Has. rewrite Hc in Has. destruct Has as [?|?]; [done|].
      split; [done|]. intros ->. cbn in Hec. congruence.
    + destruct Has as [Has|?]; [|by right]. left. intros ->. cbn in Has. by rewrite orb_true_r in Has.
  - apply Hkeep. unfold direct_upstream_handler. rewrite deref_ok by (by destruct what). apply okP_ret.
    apply call_inv. eapply same_client_inv; [|exact Hi]. by destruct what; split.
  - apply okP_ret. unfold dns_resolver_handler.
    assert (client_inv owed (set_vc_dns_check None c)) by (eapply same_client_inv; [|exact Hi]; by split).
    destruct success; [done|]. destruct (negb _); [done|]. destruct (vc_in_disconnect _); [done|]. by apply call_inv.
  - apply Hkeep. unfold run_front. change (get_loop c) with (vc_loop c).
    destruct (task_queue (vc_loop c)) as [|info q] eqn:Hq; [by apply okP_ret|].
    apply run_info_client; [done|]. by apply taken_front.
  - apply Hkeep. unfold run_deferred_task. change (get_loop c) with (vc_loop c).
    destruct (extract_first _ (deferred_task_queue (vc_loop c))) as [[d ds]|] eqn:Hx; [|by apply okP_ret].
    apply run_info_client; [done|]. by eapply taken_timer.
  - by apply Hkeep, health_check_inv.
  - by apply Hkeep, power_inv.
  - by apply Hkeep, power_inv.
  - apply Hkeep. unfold vc_update_exclusions. destruct (Z.eqb_spec (vc_state c) VC_CONNECTED) as [E|E]; [|by apply okP_ret].
    rewrite deref_ok; [apply okP_ret; by apply call_inv|]. eapply not_down; [exact Hi|]. by rewrite E.
  - apply Hkeep. unfold vc_reset_connections. destruct (Z.eqb_spec (vc_state c) VC_CONNECTED) as [E|E]; [|by apply okP_ret].
    rewrite deref_ok; [apply okP_ret; by apply call_inv|]. eapply not_down; [exact Hi|]. by rewrite E.
  - apply okP_ret. unfold vc_on_network_change. destruct (vc_tunnel c); [by apply call_inv|done].
  - apply okP_ret. by eapply finalize_disconnect_inv.
  - apply okP_ret. unfold vc_deinit. destruct (vc_bypass _); [|by apply call_inv].
    destruct Hi as [G1 G2 G3 G4 G5 G6 (xs & [K1 K2 K3 K4 K5 K6 K7])]. split; cbn; try done; [by rewrite Ha|].
    exists xs. by split.
Qed.

(** An upstream event that an assertion forbids stops a debug build. *)
Lemma asserted_aborts owed op c :
  client_inv owed c → client_allowed owed op c → asserted op c = true → ndebug = false → run_client_op owed op c = Abort.
Proof.
  intros Hi Ha Has Hn. destruct op as [| | | |what| | | | | | | | | | | |]; try done. cbn in Has, Ha. cbn [run_client_op].
  unfold vpn_upstream_handler, vc_assert. rewrite Hn. destruct (vc_connector c); [done|]. destruct what; try done. mstep.
  destruct (vc_tunnel c) eqn:Ht; [by rewrite deref_ok|]. destruct (ci_tunnel _ _ Hi Ht) as (_ & _ & E). congruence.
Qed.

(** Ending the session under the connector leaves it, and its task, to a client that
    is disconnected. *)
Lemma early_close_op owed op c :
  client_inv owed c → client_allowed owed op c → early_close op c = true → ndebug = true →
  okP (run_client_op owed op c) (λ '(_, c'),
    vc_state c' = VC_DISCONNECTED ∧ vc_connector c' = true ∧ pending (vc_loop c') = pending (vc_loop c)).
Proof.
  intros Hi Ha Hec Hn. destruct op as [| | | |[]| | | | | | | | | | | |]; try done. cbn in Hec, Ha. cbn [run_client_op].
  assert (vc_tunnel c = true) as Ht.
  { destruct (vc_tunnel c) eqn:Ht; [done|]. destruct (ci_tunnel _ _ Hi Ht) as (_ & _ & E). congruence. }
  assert (vc_state c = VC_CONNECTING) as Hs by (apply Z.eqb_eq; by rewrite <- (ci_connector _ _ Hi)).
  eapply okP_bind; [apply early_close_keeps_connector; try done; apply Hi|].
  intros c' (? & ? & _ & Hl). apply okP_ret. by rewrite Hl.
Qed.

(** ** Errors on the edges *)

Lemma run_connect_eq h timeout c :
  vc_recursive c = false → vc_state c = VC_DISCONNECTED → vc_connector c = true →
  code (ans_connect ans) = VPN_EC_NOERROR →
  vc_perform ndebug ans h VE_RUN_CONNECT (TimeoutData timeout) c
  = Ok (set_vc_recursive false (set_vc_state VC_CONNECTING (vc_call (ConnectorConnect timeout) c))).
Proof.
  intros Hr Hs Hc Ha.
  destruct (perform_row h VE_RUN_CONNECT (TimeoutData timeout) c
    (mkEntry VC_DISCONNECTED VE_RUN_CONNECT None (Some (run_connect ans)) VC_CONNECTING None) []
    (.= set_vc_recursive true (vc_call (ConnectorConnect timeout) c))
    (.= set_vc_recursive false (set_vc_state VC_CONNECTING (vc_call (ConnectorConnect timeout) c))))
    as (c' & -> & ->); [done|by rewrite Hs|done| | |done].
  - cbn [run_action before_transition]. unfold run_connect. mstep.
    rewrite deref_ok by done. mstep. rewrite Ha. by apply okP_ret.
  - intros c1 ->. by apply okP_ret.
Qed.

Lemma client_connect_stale timeout c e :
  client_inv false c → vc_state c = VC_DISCONNECTED → vc_tunnel c = true → 
  vc_pending_error c = Some e → code (ans_connect ans) = VPN_EC_NOERROR →
  okP (client_connect ndebug ans handler timeout (set_vc_connector true c))
    (λ '(e', c'), e' = e ∧ client_inv true c').
Proof.
  intros Hi Hs Ht Hp Ha. destruct (run_connect_spec timeout c Hi Hs Ht) as ([e' c'] & Heq & Hi' & _).
  rewrite Heq. apply okP_ret. split; [|done]. revert Heq. unfold client_connect.
  rewrite run_connect_eq by (done || apply Hi). mstep.
  change (vc_pending_error _) with (vc_pending_error c). rewrite Hp. by intros [= <- _].
Qed.

Lemma stale_connect timeout c e :
  client_inv false c → vc_state c = VC_DISCONNECTED → vc_tunnel c = true →
  vc_pending_error c = Some e → code e ≠ VPN_EC_NOERROR → code (ans_connect ans) = VPN_EC_NOERROR →
  okP (vc_connect ndebug ans handler true timeout c) (λ '(e', c'),
    code e' = code e ∧ vc_state c' = VC_DISCONNECTED).
Proof.
  intros Hi Hs Ht Hp He Ha. unfold vc_connect.
  destruct (Z.eqb_spec (vc_state c) VC_DISCONNECTED) as [_|?]; [cbn [negb]|done].
  change (vc_connector (vc_call ConnectorCreate c)) with (vc_connector c).
  rewrite (ci_connector _ _ Hi : vc_connector c = _), Hs. cbn [Z.eqb negb].
  eapply okP_bind.
  { apply (client_connect_stale timeout _ e); try done. by apply call_inv. }
  intros [e1 c1] [-> Hi1]. cbn beta iota.
  destruct (Z.eqb_spec (code e) VPN_EC_NOERROR) as [?|_]; [done|]. mstep.
  eapply okP_bind; [by eapply client_disconnect_inv|]. intros c2 (_ & Hs2 & _). apply okP_ret. cbn [code].
  split; [|done]. by destruct (Z.eqb_spec (code e) 0).
Qed.

End Client.

Section Runs.
Variable ndebug : bool.
Variable NON_ID : Z.

(** The states of a client, up to a session that ends under the connector; the
    answers of its collaborators and the manager's reactions may be different at
    every step. *)
Inductive client_reach : bool → VpnClient → Prop :=
| client_reach_new kill l : holds l [] → client_reach false (client_new kill l)
| client_reach_op ans disconnects owed op c owed' c' :
    client_reach owed c → client_allowed owed op c → early_close op c = false →
    run_client_op ndebug NON_ID ans disconnects owed op c = Ok (owed', c') →
    client_reach owed' c'.

Lemma client_reach_inv owed c : client_reach owed c → client_inv owed c.
Proof.
  induction 1 as [kill l Hl|ans disconnects owed op c owed' c' _ IH Ha Hec Hr].
  - apply inv_settled; try done; [|by left]. exists []. split_and!; try done.
    intros i Hin. by apply elem_of_nil in Hin.
  - assert (asserted op c = false ∨ ndebug = true) as Has.
    { destruct (asserted op c) eqn:E; [|by left]. destruct (Bool.bool_dec ndebug true) as [?|En%Bool.not_true_is_false]; [by right|].
      rewrite (asserted_aborts ndebug NON_ID ans disconnects _ _ _ IH Ha E En) in Hr. done. }
    destruct (run_client_op_inv ndebug NON_ID ans disconnects _ _ _ IH Ha Has Hec) as ([o1 c1] & Hr1 & Hi). congruence.
Qed.

(** Claim C17. The client on every run, whatever the collaborators answer and whether
    or not the manager disconnects from inside an event: no operation uses a null
    pointer, and none fails an assertion but an event of the endpoint's upstream that
    comes while the connector is still there or reports an opened session, which
    stops a debug build.  In a release build such an event is handled and the run
    goes on, except that the end of the session leaves the connector and its task to
    a client that is then disconnected; the runs are those up to such an end.  On
    them a connected client has its upstream and its tunnel and no connector any
    more, and it is never stuck: while it connects, the connector has yet to raise
    its result or the task that completes the connection is in the loop; while it
    disconnects, the task that does so is.  Nothing but deinit follows
    finalize_disconnect, and the connector raises one result for a request it
    accepted. *)
Theorem client_runs_safely owed c :
  client_reach owed c →
  (∀ ans disconnects op, client_allowed owed op c →
    match run_client_op ndebug NON_ID ans disconnects owed op c with
    | Ok (owed', c') =>
        if early_close op c
        then vc_state c' = VC_DISCONNECTED ∧ vc_connector c' = true ∧ pending (vc_loop c') = pending (vc_loop c)
        else client_reach owed' c'
    | Abort => ndebug = false ∧ asserted op c = true
    | UB => False
    end) ∧
  (vc_state c = VC_CONNECTED → vc_upstream c = true ∧ vc_tunnel c = true ∧ vc_connector c = false) ∧
  (vc_state c = VC_CONNECTING → vc_connector c = true ∧
    (owed = true ∨ ∃ i, (i, TConnectorFinalizer) ∈ pending (vc_loop c))) ∧
  (vc_state c = VC_DISCONNECTING → ∃ i, (i, TDeferredDisconnect) ∈ pending (vc_loop c)).
Proof.
  intros Hreach. pose proof (client_reach_inv _ _ Hreach) as Hi.
  destruct (ci_tasks _ _ Hi) as (xs & [H1 H2 H3 H4 H5 H6 H7]). split_and!.
  - intros ans disconnects op Ha. destruct (Bool.bool_dec ndebug true) as [En|En%Bool.not_true_is_false]; [|destruct (asserted op c) eqn:Ea].
    + destruct (early_close op c) eqn:Ee.
      * by destruct (early_close_op ndebug NON_ID ans disconnects _ _ _ Hi Ha Ee En) as ([o' c'] & -> & ?).
      * destruct (run_client_op_inv ndebug NON_ID ans disconnects _ _ _ Hi Ha) as ([o' c'] & He & _); [by right|done|].
        rewrite He. by eapply client_reach_op.
    + by rewrite (asserted_aborts ndebug NON_ID ans disconnects _ _ _ Hi Ha Ea En).
    + assert (early_close op c = false) as Ee.
      { destruct op as [| | | |[]| | | | | | | | | | | |]; try done. cbn in Ea |- *. by destruct (vc_connector c). }
      destruct (run_client_op_inv ndebug NON_ID ans disconnects _ _ _ Hi Ha) as ([o' c'] & He & _); [by left|done|].
      rewrite He, Ee. by eapply client_reach_op.
  - intros Hs. split; [by apply Hi|]. split; [eapply not_down; [exact Hi|by rewrite Hs]|].
    by rewrite (ci_connector _ _ Hi), Hs.
  - intros Hs. split; [by rewrite (ci_connector _ _ Hi), Hs|].
    destruct (H3 Hs) as [?|(i & ?)]; [by left|right]. exists i. by rewrite (holds_perm _ _ H1).
  - intros Hs. destruct (H6 Hs) as (i & ?). exists i. by rewrite (holds_perm _ _ H1).
Qed.

(** Claim C30. An error outlives its session: when the client is disconnected
    while the error of a failed session waits to be reported, the error stays
    pending, and the next [connect] fails with it although the connector
    accepts the request. *)
Theorem stale_error_fails_connect ans disconnects owed c e :
  client_reach owed c → vc_state c = VC_DISCONNECTING →
  vc_pending_error c = Some e → code e ≠ VPN_EC_NOERROR →
  okP (vc_disconnect ndebug ans (react ndebug ans disconnects) c) (λ c1,
    vc_state c1 = VC_DISCONNECTED ∧
    ∀ ans' timeout, code (ans_connect ans') = VPN_EC_NOERROR →
      okP (vc_connect ndebug ans' (react ndebug ans' disconnects) true timeout c1) (λ '(e', c2),
        code e' = code e ∧ vc_state c2 = VC_DISCONNECTED)).
Proof.
  intros Hr Hs Hp He. pose proof (client_reach_inv _ _ Hr) as Hi.
  eapply okP_mono; [by eapply client_disconnect_inv|]. intros c1 (Hi1 & Hs1 & Ht1 & Hp1 & _).
  split; [done|]. intros ans' timeout Ha. apply stale_connect; try done; [|by rewrite Hp1].
  rewrite Ht1. eapply not_down; [exact Hi|]. by rewrite Hs.
Qed.

(** A listener whose DNS health check does not start is reported as
    a success, while the client disconnects because of the failure: [listen]
    keeps the code that [start_dns_proxy_listener] has set to "no error". *)
Theorem failed_listen_reports_success ans disconnects owed c dns :
  client_reach owed c → vc_state c = VC_CONNECTED → vc_dns_listener c = false → 0 < dns →
  ans_listener ans = INIT_SUCCESS → ans_random ans = true → ans_dns_listener ans = INIT_SUCCESS →
  ans_dns_handler ans = true → ans_resolve ans = None →
  okP (vc_listen ndebug ans (react ndebug ans disconnects) dns c) (λ '(e, c'),
    code e = VPN_EC_NOERROR ∧ vc_state c' = VC_DISCONNECTING).
Proof.
  intros Hr Hs Hl Hd H1 H2 H3 H4 H5. pose proof (client_reach_inv _ _ Hr) as Hi.
  assert (vc_tunnel c = true) as Ht by (eapply not_down; [exact Hi|by rewrite Hs]).
  unfold vc_listen, start_dns_proxy_listener, do_dns_upstream_health_check. rewrite H1, H2, H3, H4, H5.
  change (vc_state (vc_call _ _)) with (vc_state c). rewrite Hs. cbn [Z.eqb].
  rewrite deref_ok by exact Ht. mstep.
  change (vc_dns_listener (vc_call _ _)) with (vc_dns_listener c). rewrite Hl.
  change (vc_dns_upstreams (vc_call _ _)) with dns. destruct (Z.ltb_spec 0 dns) as [_|?]; [|lia]. mstep.
  rewrite deref_ok by exact Ht. mstep. rewrite deref_ok by exact Ht. mstep.
  eapply okP_mono; [eapply listen_fail_spec; eapply same_client_inv; [|exact Hi]; by split|].
  intros [e c'] (_ & -> & Hc). split; [done|by apply Hc].
Qed.

End Runs.

(** ** A run *)

(** A release build ignores a session error raised between the connector's
    result and the finalizer task: it has no row in [S_CONNECTING], and the
    finalizer takes the client to [S_CONNECTED]. *)
Lemma early_session_error_lost NON_ID ans disconnects e c :
  vc_recursive c = false → vc_state c = VC_CONNECTING → vc_tunnel c = true →
  okP (vpn_upstream_handler true NON_ID ans (react true ans disconnects) (UP_ERROR NON_ID e) c) (λ c',
    vc_state c' = VC_CONNECTING ∧ vc_pending_error c' = vc_pending_error c ∧ vc_loop c' = vc_loop c).
Proof.
  intros Hr Hs Ht. unfold vpn_upstream_handler, vc_assert. rewrite Z.eqb_refl.
  destruct (negb (vc_connector c)); mstep; (rewrite deref_ok by done; mstep; rewrite deref_ok by done; mstep;
    rewrite perform_none; [mstep; rewrite deref_ok by done; by apply okP_ret|done|by cbn; rewrite Hs]).
Qed.

Definition happy : ClientAnswers := mkClientAnswers no_error true INIT_SUCCESS true INIT_SUCCESS true (Some 1).

Definition session_ops : list (bool * ClientOp) :=
  [(false, CConnect (Some 5000)); (true, CResult None); (false, CTask);
   (false, CUpstream (UP_ERROR 9 (mkError VPN_EC_ERROR (Some "closed"%string))))].

Definition session (n : nat) : VpnClient :=
  foldl (λ c '(owed, op), match run_client_op false 9 happy (λ _, false) owed op c with
                          | Ok (_, c') => c' | _ => c end)
    (client_new false vpn_event_loop_create) (take n session_ops).

Lemma session_step n owed op owed' :
  client_reach false 9 owed (session n) → client_allowed owed op (session n) → early_close op (session n) = false →
  run_client_op false 9 happy (λ _, false) owed op (session n) = Ok (owed', session (S n)) →
  client_reach false 9 owed' (session (S n)).
Proof. intros. by eapply client_reach_op. Qed.

Lemma session_connected : client_reach false 9 false (session 3).
Proof.
  assert (client_reach false 9 false (session 0)) as H by (apply client_reach_new; split; try done; constructor).
  apply (session_step _ _ (CConnect (Some 5000)) true) in H; [|done|done|vm_compute; reflexivity].
  apply (session_step _ _ (CResult None) false) in H; [|done|done|vm_compute; reflexivity].
  by apply (session_step _ _ CTask false) in H; [|done|done|vm_compute; reflexivity].
Qed.

Lemma session_failed : client_reach false 9 false (session 4).
Proof.
  pose proof session_connected as H.
  by apply (session_step _ _ (CUpstream (UP_ERROR 9 (mkError VPN_EC_ERROR (Some "closed"%string)))) false) in H;
    [|by vm_compute|done|vm_compute; reflexivity].
Qed.

Lemma client_runs_safely_witness :
  vc_state (session 4) = VC_DISCONNECTING ∧
  ∃ i, (i, TDeferredDisconnect) ∈ pending (vc_loop (session 4)).
Proof.
  destruct (client_runs_safely false 9 false (session 4) session_failed) as (_ & _ & _ & H).
  split; [vm_compute; reflexivity|apply H; vm_compute; reflexivity].
Defined.

Lemma stale_error_fails_connect_witness :
  okP (vc_disconnect false happy (react false happy (λ _, true)) (session 4)) (λ c1,
    vc_state c1 = VC_DISCONNECTED ∧
    ∀ ans' timeout, code (ans_connect ans') = VPN_EC_NOERROR →
      okP (vc_connect false ans' (react false ans' (λ _, true)) true timeout c1) (λ '(e', c2),
        code e' = VPN_EC_ERROR ∧ vc_state c2 = VC_DISCONNECTED)).
Proof.
  apply (stale_error_fails_connect false 9 happy (λ _, true) false (session 4)
    (mkError VPN_EC_ERROR (Some "closed"%string)) session_failed);
    [vm_compute; reflexivity..|vm_compute; discriminate].
Defined.

Lemma failed_listen_reports_success_witness :
  let ans := mkClientAnswers no_error true INIT_SUCCESS true INIT_SUCCESS true None in
  okP (vc_listen false ans (react false ans (λ _, false)) 1 (session 3)) (λ '(e, c'),
    code e = VPN_EC_NOERROR ∧ vc_state c' = VC_DISCONNECTING).
Proof.
  apply (failed_listen_reports_success false 9 _ (λ _, false) false (session 3) 1 session_connected);
    try reflexivity; vm_compute; reflexivity.
Defined.
