(* ===== verification/DataBuffers.v ===== *)
(** * Buffers of unread data

    [core/src/memory_buffer.cpp] and [core/src/memfile_buffer.cpp]: what a
    connection has received and its reader has not taken yet, in memory or, past
    a threshold, in a file; the interface they implement
    ([core/include/vpn/internal/data_buffer.h]); and the choice between them
    ([make_buffer] of [core/src/vpn_client.cpp]).

    Files are an interface ([FileOps]) over a state [W] of the file system. *)
From S2P Require Import Prelude.

(** Lengths are [size_t]. *)
Definition blen (l : list Z) : Z := Z.of_nat (length l).
Definition btake (n : Z) (l : list Z) : list Z := take (Z.to_nat n) l.
Definition bdrop (n : Z) (l : list Z) : list Z := drop (Z.to_nat n) l.

(** The messages of the code, without the text of the system's error. *)
Inductive BufferError :=
| FAILED_GET_SIZE | FAILED_SET_OFFSET | UNEXPECTED_EOF | FAILED_READ | FAILED_RENAME | FAILED_OPEN
| FAILED_OPEN_TEMP | FAILED_TRANSFER (e : BufferError) | FAILED_STRIP (e : BufferError) | FAILED_COPY
| SIZE_LESS_THAN_OFFSET | CAPACITY_REACHED | FAILED_WRITE.

(** [DataBuffer]: the operations of a buffer [B] in a world [W], the file system. *)
Class DataBuffer (B W : Type) := {
  db_size : B → W → res Z;
  db_push : list Z → B → W → res (option BufferError * B * W);
  db_peek : B → W → res (option BufferError * list Z * B * W);
  db_drain : Z → B → W → res (B * W);
  db_destroy : B → W → W;
}.

(** ** In memory *)

Record MemoryBuffer := mkMemoryBuffer {
  m_total_size : Z;
  m_chunks : list (list Z);
}.

Definition memory_new : MemoryBuffer := mkMemoryBuffer 0 [].

Definition mem_push (data : list Z) (b : MemoryBuffer) : option BufferError * MemoryBuffer :=
  (None, if bool_decide (data = []) then b
         else mkMemoryBuffer (u64 (m_total_size b + blen data)) (m_chunks b ++ [data])).

Definition mem_peek (b : MemoryBuffer) : option BufferError * list Z :=
  (None, match m_chunks b with front :: _ => front | [] => [] end).

Section Buffers.
Variable ndebug : bool.

Definition buf_assert (b : bool) : res unit := if b || ndebug then Ok tt else Abort.

(** The loop of [drain]: a chunk of which something remains was the last to lose
    bytes.  Without assertions an empty queue has no front. *)
Fixpoint drain_loop (length : Z) (chunks : list (list Z)) : res (list (list Z)) :=
  if length <=? 0 then Ok chunks
  else match chunks with
       | [] => _ ← buf_assert false; UB
       | front :: chunks' =>
           let to_remove := blen front `min` length in
           let front := bdrop to_remove front in
           if bool_decide (front = []) then drain_loop (length - to_remove) chunks'
           else Ok (front :: chunks')
       end.

Definition mem_drain (length : Z) (b : MemoryBuffer) : res MemoryBuffer :=
  _ ← buf_assert (length <=? m_total_size b);
  chunks ← drain_loop length (m_chunks b);
  Ok (mkMemoryBuffer (u64 (m_total_size b - length)) chunks).

(** ** In a file *)

Inductive FileFlag := CREAT | APPEND | RDWR | RDONLY.

#[global] Instance FileFlag_eq : EqDecision FileFlag.
Proof. solve_decision. Defined.

(** [file] and [std::filesystem].  A handle is [None] when it is
    [INVALID_HANDLE]; a read gives [None] when it fails, a write what it
    returns. *)
Class FileOps (W : Type) := {
  file_open : string → list FileFlag → W → option Z * W;
  file_close : option Z → W → W;
  file_get_size : Z → W → Z;
  file_set_position : Z → Z → W → Z * W;
  file_read : Z → Z → W → option (list Z) * W;
  file_write : Z → list Z → W → Z * W;
  fs_rename : string → string → W → bool * W;
  fs_remove : string → W → W;
}.

Record MemfileBuffer := mkMemfileBuffer {
  m_mem_buffer : MemoryBuffer;
  m_threshold : Z;
  m_max_file_size : Z;
  m_fd : option Z;
  m_read_offset : Z;
  m_path : string;
}.

Definition set_mem x b := mkMemfileBuffer x (m_threshold b) (m_max_file_size b) (m_fd b) (m_read_offset b) (m_path b).
Definition set_fd x b :=
  mkMemfileBuffer (m_mem_buffer b) (m_threshold b) (m_max_file_size b) x (m_read_offset b) (m_path b).
Definition set_offset x b :=
  mkMemfileBuffer (m_mem_buffer b) (m_threshold b) (m_max_file_size b) (m_fd b) x (m_path b).

Definition memfile_new (path : string) (mem_threshold max_file_size : Z) : MemfileBuffer :=
  mkMemfileBuffer memory_new mem_threshold max_file_size None 0 path.

Definition tmp_path (path : string) : string := (path +:+ ".tmp")%string.

Context {W : Type} `{!FileOps W}.

Definition memfile_size (b : MemfileBuffer) (w : W) : res Z :=
  let fsize := match m_fd b with Some h => file_get_size h w | None => 0 end in
  _ ← buf_assert (m_read_offset b <=? fsize);
  Ok (u64 (m_total_size (m_mem_buffer b) + u64 (fsize `max` 0 - m_read_offset b))).

Definition get_free_mem_space (b : MemfileBuffer) : Z :=
  u64 (m_threshold b - m_total_size (m_mem_buffer b)).

(** The loop that reads [n] more bytes, with the read offset. *)
Fixpoint read_file_loop (fuel : nat) (h n offset : Z) (acc : list Z) (w : W)
    : res (option BufferError * Z * list Z * W) :=
  if n =? 0 then Ok (None, offset, acc, w)
  else match fuel with
       | O => UB
       | S fuel =>
           let '(r, w) := file_read h n w in
           match r with
           | Some [] => Ok (Some UNEXPECTED_EOF, offset, acc, w)
           | Some c => read_file_loop fuel h (n - blen c) (u64 (offset + blen c)) (acc ++ c) w
           | None => Ok (Some FAILED_READ, offset, acc, w)
           end
       end.

Definition transfer_file2mem (b : MemfileBuffer) (w : W) : res (option BufferError * MemfileBuffer * W) :=
  match m_fd b with
  | None => Ok (None, b, w)
  | Some h =>
      let free_space := get_free_mem_space b in
      if free_space =? 0 then Ok (None, b, w)
      else
        let fsize := file_get_size h w in
        if fsize =? 0 then Ok (None, b, w)
        else if fsize <? 0 then Ok (Some FAILED_GET_SIZE, b, w)
        else
          _ ← buf_assert (m_read_offset b <=? fsize);
          let to_read := free_space `min` u64 (fsize - m_read_offset b) in
          if fsize =? m_read_offset b then Ok (None, b, w)
          else
            let '(r, w) := file_set_position h (m_read_offset b) w in
            if r <? 0 then Ok (Some FAILED_SET_OFFSET, b, w)
            else
              '(err, offset, buf, w) ← read_file_loop (Z.to_nat to_read) h to_read (m_read_offset b) [] w;
              let b := set_offset offset b in
              match err with
              | Some e => Ok (Some e, b, w)
              | None => let '(err, mem) := mem_push buf (m_mem_buffer b) in Ok (err, set_mem mem b, w)
              end
  end.

(** [transfer_mem2mem] of a view. *)
Definition transfer_mem2mem (data : list Z) (b : MemfileBuffer) : list Z * MemfileBuffer :=
  let free_space := get_free_mem_space b in
  if free_space =? 0 then (data, b)
  else
    let chunk := if blen data <=? free_space then data else btake free_space data in
    let '(err, mem) := mem_push chunk (m_mem_buffer b) in
    (match err with None => bdrop (blen chunk) data | Some _ => data end, set_mem mem b).

(** [transfer_mem2mem] of a vector: one that fits is swapped with the chunk and
    empty afterwards, and erasing past the end of a vector is undefined. *)
Definition transfer_mem2mem_vector (data : list Z) (b : MemfileBuffer) : res (list Z * MemfileBuffer) :=
  let free_space := get_free_mem_space b in
  if free_space =? 0 then Ok (data, b)
  else
    let '(chunk, data) := if blen data <=? free_space then (data, []) else (btake free_space data, data) in
    let '(err, mem) := mem_push chunk (m_mem_buffer b) in
    let b := set_mem mem b in
    match err with
    | None => if blen data <? blen chunk then UB else Ok (bdrop (blen chunk) data, b)
    | Some _ => Ok (data, b)
    end.

(** The loops of [transfer_file2file]: every read goes to the start of the
    buffer, and every write starts there. *)
Fixpoint copy_read_loop (fuel : nat) (src buf_pos : Z) (buf : list Z) (w : W)
    : res (option BufferError * list Z * W) :=
  if blen buf <=? buf_pos then Ok (None, buf, w)
  else match fuel with
       | O => UB
       | S fuel =>
           let '(r, w) := file_read src (blen buf - buf_pos) w in
           match r with
           | Some [] => Ok (Some UNEXPECTED_EOF, buf, w)
           | Some c => copy_read_loop fuel src (buf_pos + blen c) (c ++ bdrop (blen c) buf) w
           | None => Ok (Some FAILED_COPY, buf, w)
           end
       end.

Fixpoint copy_write_loop (fuel : nat) (dst buf_pos : Z) (buf : list Z) (w : W)
    : res (option BufferError * W) :=
  if blen buf <=? buf_pos then Ok (None, w)
  else match fuel with
       | O => UB
       | S fuel =>
           let '(r, w) := file_write dst (btake (blen buf - buf_pos) buf) w in
           if 0 <? r then copy_write_loop fuel dst (buf_pos + r) buf w else Ok (Some FAILED_COPY, w)
       end.

Definition transfer_file2file (dst src size : Z) (w : W) : res (option BufferError * W) :=
  if size =? 0 then Ok (None, w)
  else
    '(err, buf, w) ← copy_read_loop (Z.to_nat size) src 0 (replicate (Z.to_nat size) 0) w;
    match err with
    | Some e => Ok (Some e, w)
    | None => copy_write_loop (Z.to_nat size) dst 0 buf w
    end.

Definition need_to_strip_file (fsize data_size : Z) (b : MemfileBuffer) : bool :=
  (m_max_file_size b <? u64 (fsize + data_size))
  || ((0 <? m_read_offset b)
      && ((u64 (m_max_file_size b * 3) / 10 <? m_read_offset b)
          || (u64 (fsize * 3) / 10 <? m_read_offset b)
          || (u64 (m_max_file_size b * 8) / 10 <? fsize))).

(** From the label [exit] of [strip_file]. *)
Definition strip_exit (err : option BufferError) (tmp_fd : option Z) (b : MemfileBuffer) (w : W)
    : option BufferError * MemfileBuffer * W :=
  let w := file_close tmp_fd w in
  let '(b, w) :=
    match err with
    | None => (b, w)
    | Some _ =>
        let w := file_close (m_fd b) w in
        let b := set_fd None b in
        let w := fs_remove (m_path b) w in
        let '(ok, w) := fs_rename (tmp_path (m_path b)) (m_path b) w in
        if (ok : bool) then let '(fd, w) := file_open (m_path b) [APPEND; RDWR] w in (set_fd fd b, w)
        else (b, w)
    end in
  (err, b, fs_remove (tmp_path (m_path b)) w).

Definition strip_file (b : MemfileBuffer) (w : W) : res (option BufferError * MemfileBuffer * W) :=
  match m_fd b with
  | None => UB
  | Some h =>
      let fsize := file_get_size h w in
      if fsize <? 0 then Ok (Some FAILED_GET_SIZE, b, w)
      else if fsize <? m_read_offset b then Ok (Some SIZE_LESS_THAN_OFFSET, b, w)
      else
        let w := file_close (Some h) w in
        let b := set_fd None b in
        let '(ok, w) := fs_rename (m_path b) (tmp_path (m_path b)) w in
        if negb ok then Ok (Some FAILED_RENAME, b, w)
        else
          let '(fd, w) := file_open (m_path b) [CREAT; APPEND; RDWR] w in
          let b := set_fd fd b in
          match fd with
          | None => Ok (strip_exit (Some FAILED_OPEN) None b w)
          | Some fd =>
              let '(tmp_fd, w) := file_open (tmp_path (m_path b)) [RDONLY] w in
              match tmp_fd with
              | None => Ok (strip_exit (Some FAILED_OPEN_TEMP) None b w)
              | Some t =>
                  let '(r, w) := file_set_position t (m_read_offset b) w in
                  if r <? 0 then Ok (strip_exit (Some FAILED_SET_OFFSET) tmp_fd b w)
                  else
                    '(err, w) ← transfer_file2file fd t (fsize - m_read_offset b) w;
                    match err with
                    | Some e => Ok (strip_exit (Some (FAILED_TRANSFER e)) tmp_fd b w)
                    | None => Ok (strip_exit None tmp_fd (set_offset 0 b) w)
                    end
              end
          end
  end.

(** The end of [write_in_file]. *)
Definition append_to_file (data : list Z) (b : MemfileBuffer) (w : W)
    : res (option BufferError * MemfileBuffer * W) :=
  match m_fd b with
  | None => UB
  | Some h =>
      let fsize := file_get_size h w in
      if fsize <? 0 then Ok (Some FAILED_GET_SIZE, b, w)
      else if m_max_file_size b <=? fsize then Ok (Some CAPACITY_REACHED, b, w)
      else
        let data := btake (blen data `min` (m_max_file_size b - fsize)) data in
        if bool_decide (data = []) then Ok (None, b, w)
        else
          let '(r, w) := file_write h data w in
          Ok (if r <=? 0 then Some FAILED_WRITE else None, b, w)
  end.

Definition write_in_file (data : list Z) (b : MemfileBuffer) (w : W)
    : res (option BufferError * MemfileBuffer * W) :=
  if bool_decide (data = []) then Ok (None, b, w)
  else
    let '(b, w) :=
      match m_fd b with
      | Some _ => (b, w)
      | None => let '(fd, w) := file_open (m_path b) [CREAT; APPEND; RDWR] w in (set_fd fd b, w)
      end in
    match m_fd b with
    | None => Ok (Some FAILED_OPEN, b, w)
    | Some h =>
        let fsize := file_get_size h w in
        if fsize <? 0 then Ok (Some FAILED_GET_SIZE, b, w)
        else if need_to_strip_file fsize (blen data) b then
          '(err, b, w) ← strip_file b w;
          match err with
          | Some e => Ok (Some (FAILED_STRIP e), b, w)
          | None => append_to_file data b w
          end
        else append_to_file data b w
    end.

Definition memfile_push (data : list Z) (b : MemfileBuffer) (w : W)
    : res (option BufferError * MemfileBuffer * W) :=
  let '(data, b) := transfer_mem2mem data b in
  write_in_file data b w.

Definition memfile_push_vector (data : list Z) (b : MemfileBuffer) (w : W)
    : res (option BufferError * MemfileBuffer * W) :=
  '(data, b) ← transfer_mem2mem_vector data b;
  write_in_file data b w.

Definition memfile_peek (b : MemfileBuffer) (w : W)
    : res (option BufferError * list Z * MemfileBuffer * W) :=
  '(err, b, w) ← transfer_file2mem b w;
  match err with
  | Some e => Ok (Some e, [], b, w)
  | None => let '(e, chunk) := mem_peek (m_mem_buffer b) in Ok (e, chunk, b, w)
  end.

Definition memfile_drain (length : Z) (b : MemfileBuffer) (w : W) : res (MemfileBuffer * W) :=
  mem ← mem_drain length (m_mem_buffer b);
  '(_, b, w) ← transfer_file2mem (set_mem mem b) w;
  Ok (b, w).

(** [~MemfileBuffer]. *)
Definition memfile_destroy (b : MemfileBuffer) (w : W) : W :=
  let w := file_close (m_fd b) w in
  if bool_decide (m_path b = ""%string) then w else fs_remove (m_path b) w.

(** ** The buffer of a connection *)

Inductive AnyBuffer := InMemory (b : MemoryBuffer) | InFile (b : MemfileBuffer).

(** [VpnClient::make_buffer]; the path is the one made for the connection, if
    there is a directory for temporary files. *)
Definition make_buffer (path : option string) (conn_memory_buffer_threshold max_conn_buffer_file_size : Z)
    : AnyBuffer :=
  match path with
  | Some path => InFile (memfile_new path conn_memory_buffer_threshold max_conn_buffer_file_size)
  | None => InMemory memory_new
  end.

#[global] Instance any_buffer : DataBuffer AnyBuffer W := {
  db_size b w := match b with InMemory b => Ok (m_total_size b) | InFile b => memfile_size b w end;
  db_push data b w :=
    match b with
    | InMemory b => let '(e, b) := mem_push data b in Ok (e, InMemory b, w)
    | InFile b => '(e, b, w) ← memfile_push data b w; Ok (e, InFile b, w)
    end;
  db_peek b w :=
    match b with
    | InMemory b => let '(e, chunk) := mem_peek b in Ok (e, chunk, InMemory b, w)
    | InFile b => '(e, chunk, b, w) ← memfile_peek b w; Ok (e, chunk, InFile b, w)
    end;
  db_drain length b w :=
    match b with
    | InMemory b => b ← mem_drain length b; Ok (InMemory b, w)
    | InFile b => '(b, w) ← memfile_drain length b w; Ok (InFile b, w)
    end;
  db_destroy b w := match b with InMemory _ => w | InFile b => memfile_destroy b w end;
}.

End Buffers.
