(* ===== verification/DataBuffersProps.v ===== *)
(** * The buffers as bounded queues

    What a file system promises ([FileLaws]) and what it does when nothing is wrong
    with it ([FilesWork]), both with an instance; what a buffer promises
    ([DataBufferLaws]: a queue of bytes with a capacity); that the buffer in memory
    keeps that promise, and the buffer in a file does where files work, also when
    the disk is full and refuses to write; and that a write cut short loses data. *)
From S2P Require Import Prelude DataBuffers.

(** ** Lengths *)

Lemma blen_nonneg l : 0 ≤ blen l.
Proof. unfold blen. lia. Qed.

Lemma blen_app l1 l2 : blen (l1 ++ l2) = blen l1 + blen l2.
Proof. unfold blen. rewrite length_app. lia. Qed.

Lemma blen_nil l : blen l = 0 ↔ l = [].
Proof. unfold blen. rewrite <- length_zero_iff_nil. lia. Qed.

Lemma blen_btake n l : 0 ≤ n → blen (btake n l) = n `min` blen l.
Proof. unfold blen, btake. rewrite length_take. lia. Qed.

Lemma blen_bdrop n l : 0 ≤ n → blen (bdrop n l) = (blen l - n) `max` 0.
Proof. unfold blen, bdrop. rewrite length_drop. lia. Qed.

Lemma btake_bdrop n l : btake n l ++ bdrop n l = l.
Proof. apply take_drop. Qed.

Lemma btake_all n l : blen l ≤ n → btake n l = l.
Proof. unfold blen, btake. intros. apply take_ge. lia. Qed.

Lemma bdrop_all n l : blen l ≤ n → bdrop n l = [].
Proof. unfold blen, bdrop. intros. apply drop_ge. lia. Qed.

Lemma bdrop_bdrop n m l : 0 ≤ n → 0 ≤ m → bdrop m (bdrop n l) = bdrop (n + m) l.
Proof. unfold bdrop. intros. rewrite drop_drop. f_equal. lia. Qed.

Lemma bdrop_0 l : bdrop 0 l = l.
Proof. done. Qed.

Lemma btake_0 l : btake 0 l = [].
Proof. done. Qed.

Lemma bdrop_app_le n l1 l2 : n ≤ blen l1 → bdrop n (l1 ++ l2) = bdrop n l1 ++ l2.
Proof. unfold blen, bdrop. intros. apply drop_app_le. lia. Qed.

Lemma bdrop_app_ge n l1 l2 : blen l1 ≤ n → bdrop n (l1 ++ l2) = bdrop (n - blen l1) l2.
Proof. unfold blen, bdrop. intros. rewrite drop_app_ge by lia. f_equal. lia. Qed.

Lemma btake_app_ge n l1 l2 : blen l1 ≤ n → btake n (l1 ++ l2) = l1 ++ btake (n - blen l1) l2.
Proof. unfold blen, btake. intros. rewrite take_app_ge by lia. do 2 f_equal. lia. Qed.

Lemma u64_id x : 0 ≤ x < 2 ^ 64 → u64 x = x.
Proof. intros. by apply Z.mod_small. Qed.

(** ** What a file system promises *)

Record FileHandle := mkFileHandle { fh_path : string; fh_pos : Z; fh_append : bool }.

(** The documented behaviour of regular files.  Every call may fail, and then it
    changes nothing; a read may give less than it is asked for, but something
    unless the position is at the end; a write may take a part of the data.
    Renaming and removing are described for files that are not open. *)
Class FileLaws (W : Type) `{!FileOps W} := {
  fl_files : W → gmap string (list Z);
  fl_handles : W → gmap Z FileHandle;
  fl_open p flags w :
    CREAT ∈ flags ∨ is_Some (fl_files w !! p) →
    let '(fd, w') := file_open p flags w in
    match fd with
    | Some h => fl_handles w !! h = None ∧
        fl_files w' = <[p := default [] (fl_files w !! p)]> (fl_files w) ∧
        fl_handles w' = <[h := mkFileHandle p 0 (bool_decide (APPEND ∈ flags))]> (fl_handles w)
    | None => fl_files w' = fl_files w ∧ fl_handles w' = fl_handles w
    end;
  fl_close fd w :
    fl_files (file_close fd w) = fl_files w ∧
    fl_handles (file_close fd w) = match fd with Some h => delete h (fl_handles w) | None => fl_handles w end;
  fl_get_size h p pos app c w :
    fl_handles w !! h = Some (mkFileHandle p pos app) → fl_files w !! p = Some c →
    file_get_size h w = blen c ∨ file_get_size h w < 0;
  fl_set_position h p pos app n w :
    fl_handles w !! h = Some (mkFileHandle p pos app) → 0 ≤ n →
    let '(r, w') := file_set_position h n w in
    fl_files w' = fl_files w ∧
    (0 ≤ r ∧ fl_handles w' = <[h := mkFileHandle p n app]> (fl_handles w) ∨ r < 0 ∧ fl_handles w' = fl_handles w);
  fl_read h p pos app c n w :
    fl_handles w !! h = Some (mkFileHandle p pos app) → fl_files w !! p = Some c → 0 < n →
    let '(r, w') := file_read h n w in
    fl_files w' = fl_files w ∧
    match r with
    | Some data => data `prefix_of` btake n (bdrop pos c) ∧ (data = [] → bdrop pos c = []) ∧
        fl_handles w' = <[h := mkFileHandle p (pos + blen data) app]> (fl_handles w)
    | None => fl_handles w' = fl_handles w
    end;
  fl_write h p pos c data w :
    fl_handles w !! h = Some (mkFileHandle p pos true) → fl_files w !! p = Some c → data ≠ [] →
    let '(r, w') := file_write h data w in
    if 0 <? r then r ≤ blen data ∧ fl_files w' = <[p := c ++ btake r data]> (fl_files w) ∧
      fl_handles w' = <[h := mkFileHandle p (blen (c ++ btake r data)) true]> (fl_handles w)
    else fl_files w' = fl_files w ∧ fl_handles w' = fl_handles w;
  fl_rename p q c w :
    fl_files w !! p = Some c →
    (∀ h fh, fl_handles w !! h = Some fh → fh_path fh ≠ p ∧ fh_path fh ≠ q) →
    let '(ok, w') := fs_rename p q w in
    fl_files w' = (if (ok : bool) then <[q := c]> (delete p (fl_files w)) else fl_files w) ∧
    fl_handles w' = fl_handles w;
  fl_remove p w :
    (∀ h fh, fl_handles w !! h = Some fh → fh_path fh ≠ p) →
    (fl_files (fs_remove p w) = delete p (fl_files w) ∨ fl_files (fs_remove p w) = fl_files w) ∧
    fl_handles (fs_remove p w) = fl_handles w;
}.

(** Files on a disk that works but may be full: opening, asking for the size,
    seeking, reading, renaming and removing succeed, a read gives all there is of
    what it is asked for, and a write takes all the data or refuses it. *)
Class FilesWork (W : Type) `{!FileOps W, !FileLaws W} : Prop := {
  fw_open p flags w :
    CREAT ∈ flags ∨ is_Some (fl_files w !! p) → is_Some (file_open p flags w).1;
  fw_get_size h w : is_Some (fl_handles w !! h) → 0 ≤ file_get_size h w;
  fw_set_position h n w : is_Some (fl_handles w !! h) → 0 ≤ n → 0 ≤ (file_set_position h n w).1;
  fw_read h p pos app c n w :
    fl_handles w !! h = Some (mkFileHandle p pos app) → fl_files w !! p = Some c → 0 < n →
    (file_read h n w).1 = Some (btake n (bdrop pos c));
  fw_write h data w : (file_write h data w).1 ≤ 0 ∨ (file_write h data w).1 = blen data;
  fw_rename p q w : is_Some (fl_files w !! p) → (fs_rename p q w).1 = true;
  fw_remove p w :
    (∀ h fh, fl_handles w !! h = Some fh → fh_path fh ≠ p) → fl_files (fs_remove p w) !! p = None;
}.

(** The calls on a disk that works. *)
Section Works.
Context {W : Type} `{!FileOps W, !FileLaws W, !FilesWork W}.
Implicit Types (w : W).

Lemma works_open p flags w :
  CREAT ∈ flags ∨ is_Some (fl_files w !! p) →
  ∃ h w', file_open p flags w = (Some h, w') ∧ fl_handles w !! h = None ∧
    fl_files w' = <[p := default [] (fl_files w !! p)]> (fl_files w) ∧
    fl_handles w' = <[h := mkFileHandle p 0 (bool_decide (APPEND ∈ flags))]> (fl_handles w).
Proof.
  intros Ho. pose proof (fl_open p flags w Ho) as Hl. destruct (fw_open p flags w Ho) as [h Hh].
  destruct (file_open p flags w) as [fd w']. cbn in Hh. subst fd. eauto.
Qed.

Lemma works_get_size h p pos app c w :
  fl_handles w !! h = Some (mkFileHandle p pos app) → fl_files w !! p = Some c → file_get_size h w = blen c.
Proof.
  intros Hh Hf. destruct (fl_get_size _ _ _ _ _ _ Hh Hf); [done|]. pose proof (fw_get_size h w (mk_is_Some _ _ Hh)). lia.
Qed.

Lemma works_set_position h p pos app n w :
  fl_handles w !! h = Some (mkFileHandle p pos app) → 0 ≤ n →
  ∃ r w', file_set_position h n w = (r, w') ∧ 0 ≤ r ∧ fl_files w' = fl_files w ∧
    fl_handles w' = <[h := mkFileHandle p n app]> (fl_handles w).
Proof.
  intros Hh Hn. pose proof (fl_set_position _ _ _ _ n _ Hh Hn) as Hl.
  pose proof (fw_set_position h n w (mk_is_Some _ _ Hh) Hn) as Hr. destruct (file_set_position h n w) as [r w'].
  cbn in Hr. destruct Hl as [? [[? ?]|[? ?]]]; [by exists r, w'|lia].
Qed.

Lemma works_read h p pos app c n w :
  fl_handles w !! h = Some (mkFileHandle p pos app) → fl_files w !! p = Some c → 0 < n →
  ∃ w', file_read h n w = (Some (btake n (bdrop pos c)), w') ∧ fl_files w' = fl_files w ∧
    fl_handles w' = <[h := mkFileHandle p (pos + blen (btake n (bdrop pos c))) app]> (fl_handles w).
Proof.
  intros Hh Hf Hn. pose proof (fl_read _ _ _ _ _ _ _ Hh Hf Hn) as Hl. pose proof (fw_read _ _ _ _ _ _ _ Hh Hf Hn) as Hr.
  destruct (file_read h n w) as [r w']. cbn in Hr. subst r. exists w'. by destruct Hl as (? & _ & _ & ?).
Qed.

Lemma works_write h p pos c data w :
  fl_handles w !! h = Some (mkFileHandle p pos true) → fl_files w !! p = Some c → data ≠ [] →
  ∃ r w', file_write h data w = (r, w') ∧
    ((r = blen data ∧ fl_files w' = <[p := c ++ data]> (fl_files w) ∧
      fl_handles w' = <[h := mkFileHandle p (blen (c ++ data)) true]> (fl_handles w)) ∨
     (r ≤ 0 ∧ fl_files w' = fl_files w ∧ fl_handles w' = fl_handles w)).
Proof.
  intros Hh Hf Hd. pose proof (fl_write _ _ _ _ _ _ Hh Hf Hd) as Hl. pose proof (fw_write h data w) as Hr.
  destruct (file_write h data w) as [r w']. cbn in Hr. exists r, w'. split; [done|].
  destruct (Z.ltb_spec 0 r); [left|by right]. destruct Hr as [?|Hr]; [lia|]. rewrite btake_all in Hl by lia.
  by destruct Hl as (_ & ? & ?).
Qed.

Lemma works_rename p q c w :
  fl_files w !! p = Some c →
  (∀ h fh, fl_handles w !! h = Some fh → fh_path fh ≠ p ∧ fh_path fh ≠ q) →
  ∃ w', fs_rename p q w = (true, w') ∧ fl_files w' = <[q := c]> (delete p (fl_files w)) ∧
    fl_handles w' = fl_handles w.
Proof.
  intros Hp Hu. pose proof (fl_rename p q c w Hp Hu) as Hl. pose proof (fw_rename p q w (mk_is_Some _ _ Hp)) as Hr.
  destruct (fs_rename p q w) as [ok w']. cbn in Hr. subst ok. by exists w'.
Qed.

Lemma works_remove p w :
  (∀ h fh, fl_handles w !! h = Some fh → fh_path fh ≠ p) →
  fl_files (fs_remove p w) = delete p (fl_files w) ∧ fl_handles (fs_remove p w) = fl_handles w.
Proof.
  intros Hu. destruct (fl_remove p w Hu) as [[->|He] ->]; [done|]. split; [|done]. pose proof (fw_remove p w Hu) as Hn.
  rewrite He in *. symmetry. by apply delete_id.
Qed.

End Works.

(** ** What a buffer promises

    A queue of bytes.  [db_capacity] bounds what it keeps; what is pushed past
    it is cut off.  [db_ready] bytes can be drained.  Buffers that are [db_apart]
    do not disturb each other. *)
Class DataBufferLaws (B W : Type) `{!DataBuffer B W} := {
  db_ok : B → W → Prop;
  db_content : B → W → list Z;
  db_capacity : B → Z;
  db_ready : B → Z;
  db_apart : B → B → Prop;
  db_frame : B → W → W → Prop;
  db_size_law b w :
    db_ok b w → okP (db_size b w) (λ n, n = blen (db_content b w));
  db_push_law data b w :
    db_ok b w → blen (db_content b w) + blen data < 2 ^ 63 →
    okP (db_push data b w) (λ '(e, b', w'),
      db_ok b' w' ∧ db_frame b w w' ∧ db_capacity b' = db_capacity b ∧ (∀ b0, db_apart b0 b → db_apart b0 b') ∧
      ∃ k, 0 ≤ k ∧ db_content b' w' = db_content b w ++ btake k data ∧
        (e = None → k = blen data `min` (db_capacity b - blen (db_content b w))));
  db_peek_law b w :
    db_ok b w →
    okP (db_peek b w) (λ '(e, chunk, b', w'),
      e = None ∧ db_ok b' w' ∧ db_frame b w w' ∧ db_capacity b' = db_capacity b ∧
      (∀ b0, db_apart b0 b → db_apart b0 b') ∧ db_content b' w' = db_content b w ∧
      chunk `prefix_of` db_content b w ∧ (chunk = [] → db_content b w = []) ∧ blen chunk ≤ db_ready b');
  db_drain_law n b w :
    db_ok b w → 0 ≤ n ≤ db_ready b →
    okP (db_drain n b w) (λ '(b', w'),
      db_ok b' w' ∧ db_frame b w w' ∧ db_capacity b' = db_capacity b ∧ (∀ b0, db_apart b0 b → db_apart b0 b') ∧
      db_content b' w' = bdrop n (db_content b w));
  db_destroy_law b w : db_ok b w → db_frame b w (db_destroy b w);
  db_apart_sym b b0 : db_apart b0 b → db_apart b b0;
  db_frame_law b b0 w w' :
    db_frame b w w' → db_apart b0 b → db_ok b0 w →
    db_ok b0 w' ∧ db_content b0 w' = db_content b0 w;
}.

(** ** In memory *)

Record mem_ok (b : MemoryBuffer) : Prop := {
  mo_size : m_total_size b = blen (concat (m_chunks b));
  mo_chunks : Forall (λ c, c ≠ []) (m_chunks b);
}.

Lemma mem_push_spec data b :
  mem_ok b → m_total_size b + blen data < 2 ^ 64 →
  let '(e, b') := mem_push data b in
  e = None ∧ mem_ok b' ∧ concat (m_chunks b') = concat (m_chunks b) ++ data ∧
  m_total_size b' = m_total_size b + blen data.
Proof.
  intros [H1 H2] Hlt. unfold mem_push. case_bool_decide as Hd.
  - subst data. rewrite app_nil_r. change (blen []) with 0. split_and!; try done. lia.
  - pose proof (blen_nonneg data). pose proof (blen_nonneg (concat (m_chunks b))).
    assert (concat (m_chunks b ++ [data]) = concat (m_chunks b) ++ data) as Hc
      by (rewrite concat_app; cbn; by rewrite app_nil_r).
    split; [done|]. cbn. rewrite u64_id by lia. split_and!; try done. split; cbn.
    + rewrite Hc, blen_app. lia.
    + apply Forall_app. split; [done|]. by apply Forall_singleton.
Qed.

Lemma drain_loop_spec ndebug chunks n :
  Forall (λ c, c ≠ []) chunks → 0 ≤ n ≤ blen (concat chunks) →
  okP (drain_loop ndebug n chunks) (λ cs, Forall (λ c, c ≠ []) cs ∧ concat cs = bdrop n (concat chunks)).
Proof.
  revert n. induction chunks as [|c cs IH]; intros n Hf Hn; cbn [drain_loop].
  - destruct (Z.leb_spec n 0); [|change (blen (concat [])) with 0 in Hn; lia]. apply okP_ret. split; [done|].
    by rewrite bdrop_all by (change (blen (concat [])) with 0; lia).
  - inversion_clear Hf as [|?? Hc Hcs]. cbn [concat] in *. rewrite blen_app in Hn.
    destruct (Z.leb_spec n 0) as [Hn0|Hn0].
    { apply okP_ret. replace n with 0 by lia. rewrite bdrop_0. split; [by constructor|done]. }
    pose proof (blen_nonneg c). case_bool_decide as Hd.
    + apply blen_nil in Hd. rewrite blen_bdrop in Hd by lia.
      eapply okP_mono; [apply IH; [done|lia]|]. intros cs' [? ->]. split; [done|].
      replace (blen c `min` n) with (blen c) by lia.
      by rewrite bdrop_app_ge by lia.
    + assert (n < blen c) as Hlt.
      { destruct (Z.lt_ge_cases n (blen c)); [done|]. destruct Hd. apply bdrop_all. lia. }
      replace (blen c `min` n) with n in * by lia.
      apply okP_ret. split; [by constructor|]. cbn. by rewrite bdrop_app_le by lia.
Qed.

Lemma mem_drain_spec ndebug n b :
  mem_ok b → 0 ≤ n ≤ m_total_size b → m_total_size b < 2 ^ 64 →
  okP (mem_drain ndebug n b) (λ b', mem_ok b' ∧ concat (m_chunks b') = bdrop n (concat (m_chunks b)) ∧
    m_total_size b' = m_total_size b - n).
Proof.
  intros [H1 H2] Hn Hlt. unfold mem_drain, buf_assert. destruct (Z.leb_spec n (m_total_size b)); [|lia]. mstep.
  eapply okP_bind; [apply drain_loop_spec; [done|lia]|]. intros cs [Hf Hc]. apply okP_ret. cbn.
  rewrite u64_id by lia. split_and!; try done. split; cbn; [|done].
  rewrite Hc, blen_bdrop by lia. lia.
Qed.

Lemma mem_peek_spec b :
  mem_ok b →
  let '(e, chunk) := mem_peek b in
  e = None ∧ chunk `prefix_of` concat (m_chunks b) ∧ (chunk = [] → concat (m_chunks b) = []).
Proof.
  intros [_ H2]. unfold mem_peek. destruct (m_chunks b) as [|c cs]; [done|].
  inversion_clear H2. split; [done|]. split; [by apply prefix_app_r|done].
Qed.

(** ** In a file *)

Section Memfile.
Variable ndebug : bool.
Context {W : Type} `{!FileOps W, !FileLaws W, !FilesWork W}.
Implicit Types (b : MemfileBuffer) (w : W).

(** Nothing but the two files of a buffer, and the handles on them, changed. *)
Definition elsewhere (path : string) w w' : Prop :=
  ∀ p, p ≠ path → p ≠ tmp_path path →
    fl_files w' !! p = fl_files w !! p ∧
    ∀ h fh, fh_path fh = p → (fl_handles w !! h = Some fh ↔ fl_handles w' !! h = Some fh).

Definition unopened (p : string) w : Prop := ∀ h fh, fl_handles w !! h = Some fh → fh_path fh ≠ p.

(** The file of a buffer: not there yet, or open with the handle of the buffer. *)
Definition file_ok b w : Prop :=
  match m_fd b with
  | None => m_read_offset b = 0 ∧ fl_files w !! m_path b = None ∧ unopened (m_path b) w
  | Some h =>
      ∃ pos f, fl_handles w !! h = Some (mkFileHandle (m_path b) pos true) ∧ fl_files w !! m_path b = Some f ∧
        0 ≤ m_read_offset b ≤ blen f ∧ blen f ≤ m_max_file_size b ∧
        ∀ h' fh, fl_handles w !! h' = Some fh → fh_path fh = m_path b → h' = h
  end.

(** What is in the file and has not been read. *)
Definition stored b w : list Z := bdrop (m_read_offset b) (default [] (fl_files w !! m_path b)).

Definition memfile_content b w : list Z := concat (m_chunks (m_mem_buffer b)) ++ stored b w.

Record half_ok b w : Prop := {
  ho_mem : mem_ok (m_mem_buffer b);
  ho_threshold : 0 < m_threshold b;
  ho_max : 0 ≤ m_max_file_size b;
  ho_sizes : m_threshold b + m_max_file_size b < 2 ^ 63;
  ho_room : m_total_size (m_mem_buffer b) ≤ m_threshold b;
  ho_file : file_ok b w;
  ho_tmp : unopened (tmp_path (m_path b)) w;
}.

(** The memory is full, or there is nothing in the file: what is pushed now is
    behind what was pushed before. *)
Definition ordered b w : Prop := m_total_size (m_mem_buffer b) = m_threshold b ∨ stored b w = [].

Definition memfile_ok b w : Prop := half_ok b w ∧ ordered b w.

Definition same_settings b b' : Prop :=
  m_threshold b' = m_threshold b ∧ m_max_file_size b' = m_max_file_size b ∧ m_path b' = m_path b.

Lemma tmp_path_ne p : tmp_path p ≠ p.
Proof. unfold tmp_path. induction p as [|a p IH]; [done|]. cbn. by intros [= ?]. Qed.

(** *** Frames *)

Lemma elsewhere_refl path w : elsewhere path w w.
Proof. done. Qed.

Lemma elsewhere_trans path w1 w2 w3 : elsewhere path w1 w2 → elsewhere path w2 w3 → elsewhere path w1 w3.
Proof.
  intros H1 H2 p Hp Ht. destruct (H1 p Hp Ht) as [E1 F1]. destruct (H2 p Hp Ht) as [E2 F2].
  split; [congruence|]. intros h fh Hf. by rewrite F1, F2.
Qed.

Lemma elsewhere_files path w w' q f :
  q = path ∨ q = tmp_path path → fl_files w' = partial_alter f q (fl_files w) → fl_handles w' = fl_handles w →
  elsewhere path w w'.
Proof.
  intros Hq Hf Hh p Hp Ht. rewrite Hf, Hh. split; [|done]. apply lookup_partial_alter_ne. naive_solver.
Qed.

(** A change of one handle, on one of the two files before and after. *)
Lemma elsewhere_handle path w w' h f :
  fl_files w' = fl_files w → fl_handles w' = partial_alter f h (fl_handles w) →
  (∀ fh, fl_handles w !! h = Some fh ∨ fl_handles w' !! h = Some fh → fh_path fh = path ∨ fh_path fh = tmp_path path) →
  elsewhere path w w'.
Proof.
  intros Hf Hh Hp p Hp1 Hp2. rewrite Hf. split; [done|]. intros h' fh Hfh.
  destruct (decide (h' = h)) as [->|Hne].
  - split; intros H; destruct (Hp fh); auto; naive_solver.
  - rewrite Hh. by rewrite lookup_partial_alter_ne.
Qed.

Lemma elsewhere_unopened path w w' p :
  elsewhere path w w' → p ≠ path → p ≠ tmp_path path → unopened p w → unopened p w'.
Proof. intros H H1 H2 Hu h fh Hh Hp. destruct (H p H1 H2) as [_ F]. eapply Hu; [by apply F|done]. Qed.

(** *** Opening, closing, reading *)

Lemma open_spec path p flags w :
  CREAT ∈ flags ∨ is_Some (fl_files w !! p) → p = path ∨ p = tmp_path path →
  ∃ h w', file_open p flags w = (Some h, w') ∧ elsewhere path w w' ∧ fl_handles w !! h = None ∧
    fl_files w' = <[p := default [] (fl_files w !! p)]> (fl_files w) ∧
    fl_handles w' = <[h := mkFileHandle p 0 (bool_decide (APPEND ∈ flags))]> (fl_handles w).
Proof.
  intros Ho Hp. destruct (works_open p flags w Ho) as (h & w' & H1 & H2 & H3 & H4). exists h, w'.
  split_and!; try done. intros q Hq1 Hq2. rewrite H3, H4. split; [rewrite lookup_insert_ne; naive_solver|].
  intros h' fh Hfh. destruct (decide (h' = h)) as [->|Hne]; [|by rewrite lookup_insert_ne].
  rewrite H2, lookup_insert_eq. split; [done|]. intros [= <-]. cbn in Hfh. naive_solver.
Qed.

Lemma close_spec path h fh w :
  fl_handles w !! h = Some fh → fh_path fh = path ∨ fh_path fh = tmp_path path →
  elsewhere path w (file_close (Some h) w) ∧ fl_files (file_close (Some h) w) = fl_files w ∧
  fl_handles (file_close (Some h) w) = delete h (fl_handles w).
Proof.
  intros Hh Hp. destruct (fl_close (Some h) w) as [H1 H2]. split_and!; try done.
  eapply elsewhere_handle; [done|exact H2|]. rewrite H2. intros fh' [?|Hd]; [naive_solver|].
  by rewrite lookup_delete_eq in Hd.
Qed.

Lemma position_spec path h p pos app n w :
  fl_handles w !! h = Some (mkFileHandle p pos app) → 0 ≤ n → p = path ∨ p = tmp_path path →
  ∃ r w', file_set_position h n w = (r, w') ∧ 0 ≤ r ∧ elsewhere path w w' ∧ fl_files w' = fl_files w ∧
    fl_handles w' = <[h := mkFileHandle p n app]> (fl_handles w).
Proof.
  intros Hh Hn Hp. destruct (works_set_position _ _ _ _ n _ Hh Hn) as (r & w' & H1 & H2 & H3 & H4).
  exists r, w'. split_and!; try done. eapply elsewhere_handle; [done|exact H4|]. rewrite H4.
  intros fh [E|E]; [|rewrite lookup_insert_eq in E]; simplify_eq; done.
Qed.

Lemma read_spec path h p pos app c n w :
  fl_handles w !! h = Some (mkFileHandle p pos app) → fl_files w !! p = Some c → 0 < n →
  p = path ∨ p = tmp_path path →
  ∃ w' pos', file_read h n w = (Some (btake n (bdrop pos c)), w') ∧ elsewhere path w w' ∧ fl_files w' = fl_files w ∧
    fl_handles w' = <[h := mkFileHandle p pos' app]> (fl_handles w).
Proof.
  intros Hh Hf Hn Hp. destruct (works_read _ _ _ _ _ _ _ Hh Hf Hn) as (w' & H1 & H2 & H3).
  eexists w', _. split_and!; try done. eapply elsewhere_handle; [done|exact H3|]. rewrite H3.
  intros fh [E|E]; [|rewrite lookup_insert_eq in E]; simplify_eq; done.
Qed.

Lemma read_file_loop_spec path h p pos app c n w :
  fl_handles w !! h = Some (mkFileHandle p pos app) → fl_files w !! p = Some c →
  0 < n → 0 ≤ pos → pos + n ≤ blen c < 2 ^ 64 → p = path ∨ p = tmp_path path →
  ∃ w' pos', read_file_loop (Z.to_nat n) h n pos [] w = Ok (None, pos + n, btake n (bdrop pos c), w') ∧
    elsewhere path w w' ∧ fl_files w' = fl_files w ∧
    fl_handles w' = <[h := mkFileHandle p pos' app]> (fl_handles w).
Proof.
  intros Hh Hf Hn Hpos Hlen Hp. destruct (read_spec path _ _ _ _ _ n _ Hh Hf Hn Hp) as (w' & pos' & H1 & H2 & H3 & H4).
  exists w', pos'. split; [|done]. destruct (Z.to_nat n) as [|k] eqn:Hk; [lia|]. cbn [read_file_loop].
  destruct (Z.eqb_spec n 0); [lia|]. rewrite H1.
  assert (blen (btake n (bdrop pos c)) = n) as Hlen' by (rewrite blen_btake, blen_bdrop by lia; lia).
  destruct (btake n (bdrop pos c)) as [|x xs] eqn:Hc; [change (blen []) with 0 in Hlen'; lia|].
  rewrite <- Hc in *. clear x xs Hc. rewrite Hlen', u64_id by lia.
  replace (n - n) with 0 by lia. destruct k; done.
Qed.

Lemma free_space b w : half_ok b w → get_free_mem_space b = m_threshold b - m_total_size (m_mem_buffer b).
Proof.
  intros [[H1 _] H2 H3 H4 H5 _ _]. unfold get_free_mem_space. apply u64_id.
  pose proof (blen_nonneg (concat (m_chunks (m_mem_buffer b)))). lia.
Qed.

(** The handle of the buffer has moved; the memory and the offset may be others. *)
Lemma half_ok_moved b w w' h pos mem offset f :
  half_ok b w → m_fd b = Some h → fl_files w !! m_path b = Some f →
  fl_files w' = fl_files w → fl_handles w' = <[h := mkFileHandle (m_path b) pos true]> (fl_handles w) →
  mem_ok mem → m_total_size mem ≤ m_threshold b → 0 ≤ offset ≤ blen f →
  half_ok (set_mem mem (set_offset offset b)) w'.
Proof.
  intros [H1 H2 H3 H4 H5 H6 H7] Hfd Hf Hf' Hh' Hm Ht Ho. split; cbn; try done.
  - unfold file_ok in *. cbn. rewrite Hfd in *. destruct H6 as (pos0 & f0 & G1 & G2 & G3 & G4 & G5).
    exists pos, f. rewrite Hf', Hh', lookup_insert_eq. simplify_eq. split_and!; [done..|lia|lia|lia|].
    intros h' fh Hl Hp. destruct (decide (h' = h)); [done|]. rewrite lookup_insert_ne in Hl by done. by eapply G5.
  - intros h' fh. rewrite Hh'. intros [[_ <-]|[_ Hl]]%lookup_insert_Some; [cbn; by apply not_eq_sym, tmp_path_ne|].
    by eapply H7.
Qed.

Lemma transfer_file2mem_spec b w :
  half_ok b w →
  okP (transfer_file2mem ndebug b w) (λ '(e, b', w'), e = None ∧ memfile_ok b' w' ∧ elsewhere (m_path b) w w' ∧
    same_settings b b' ∧ memfile_content b' w' = memfile_content b w).
Proof.
  intros Hi. assert (ordered b w →
    okP (Ok (@None BufferError, b, w)) (λ '(e, b', w'), e = None ∧ memfile_ok b' w' ∧ elsewhere (m_path b) w w' ∧
      same_settings b b' ∧ memfile_content b' w' = memfile_content b w)) as Hstay by (intros; by apply okP_ret).
  pose proof (free_space _ _ Hi) as Hfree. pose proof Hi as [H1 H2 H3 H4 H5 H6 H7].
  unfold transfer_file2mem, file_ok, ordered, stored in *. destruct (m_fd b) as [h|] eqn:Hfd.
  2: { destruct H6 as (Ho & Hn & _). rewrite Hn, Ho in Hstay. apply Hstay. by right. }
  destruct H6 as (pos & f & G1 & G2 & G3 & G4 & G5). rewrite G2 in Hstay.
  change (default [] (Some f)) with f in Hstay.
  rewrite Hfree. destruct (Z.eqb_spec (m_threshold b - m_total_size (m_mem_buffer b)) 0); [apply Hstay; left; lia|].
  rewrite (works_get_size _ _ _ _ _ _ G1 G2). destruct (Z.eqb_spec (blen f) 0); [apply Hstay; right; apply bdrop_all; lia|].
  destruct (Z.ltb_spec (blen f) 0); [lia|]. unfold buf_assert.
  destruct (Z.leb_spec (m_read_offset b) (blen f)); [|lia]. mstep.
  destruct (Z.eqb_spec (blen f) (m_read_offset b)); [apply Hstay; right; apply bdrop_all; lia|].
  rewrite u64_id by lia.
  remember ((m_threshold b - m_total_size (m_mem_buffer b)) `min` (blen f - m_read_offset b)) as k eqn:Hk.
  destruct (position_spec (m_path b) _ _ _ _ (m_read_offset b) _ G1) as (r & w1 & -> & Hr & E1 & F1 & J1); [lia|by left|].
  destruct (Z.ltb_spec r 0); [lia|].
  destruct (read_file_loop_spec (m_path b) h (m_path b) (m_read_offset b) true f k w1)
    as (w2 & pos' & -> & E2 & F2 & J2); [by rewrite J1, lookup_insert_eq|by rewrite F1|lia..|by left|]. mstep.
  cbn [set_offset m_mem_buffer].
  assert (blen (btake k (bdrop (m_read_offset b) f)) = k) as Hn by (rewrite blen_btake, blen_bdrop by lia; lia).
  pose proof (mem_push_spec (btake k (bdrop (m_read_offset b) f)) (m_mem_buffer b) H1) as Hp.
  destruct (mem_push _ _) as [e mem]. destruct Hp as (-> & Hm & Hc & Ht); [lia|]. apply okP_ret.
  rewrite J1, insert_insert_eq in J2. split_and!; try done.
  - split; [eapply half_ok_moved; [done|done|exact G2|congruence|exact J2|done|lia|lia]|]. unfold ordered, stored. cbn.
    rewrite F2, F1, G2. cbn. destruct (Z.le_gt_cases (m_threshold b - m_total_size (m_mem_buffer b))
      (blen f - m_read_offset b)); [left; lia|right; apply bdrop_all; lia].
  - by eapply elsewhere_trans.
  - unfold memfile_content, stored. cbn. rewrite F2, F1, G2, Hc. cbn.
    rewrite <- app_assoc, <- bdrop_bdrop by lia. by rewrite btake_bdrop.
Qed.

(** *** Stripping the part that was read *)

(** The open files, without the positions in them. *)
Definition file_open_on w : gmap Z (string * bool) := (λ fh, (fh_path fh, fh_append fh)) <$> fl_handles w.

Lemma open_on_handle w h p a :
  file_open_on w !! h = Some (p, a) ↔ ∃ pos, fl_handles w !! h = Some (mkFileHandle p pos a).
Proof.
  unfold file_open_on. rewrite lookup_fmap_Some. split.
  - intros ([p' pos a'] & [= <- <-] & ?). by exists pos.
  - intros (pos & ?). by exists (mkFileHandle p pos a).
Qed.

Lemma unopened_on p w : unopened p w ↔ ∀ h q a, file_open_on w !! h = Some (q, a) → q ≠ p.
Proof.
  split.
  - intros H h q a (pos & Hh)%open_on_handle. by apply H in Hh.
  - intros H h [q pos a] Hh. eapply (H h q a), open_on_handle. by exists pos.
Qed.

Lemma transfer_file2file_spec path dst src a off c w :
  file_open_on w !! dst = Some (path, true) → fl_files w !! path = Some [] →
  fl_handles w !! src = Some (mkFileHandle (tmp_path path) off a) → fl_files w !! tmp_path path = Some c →
  0 ≤ off ≤ blen c →
  ∃ e w', transfer_file2file dst src (blen c - off) w = Ok (e, w') ∧ elsewhere path w w' ∧ file_open_on w' = file_open_on w ∧
    fl_files w' = match e with None => <[path := bdrop off c]> (fl_files w) | Some _ => fl_files w end.
Proof.
  intros Hd Hp Hs Ht Ho. unfold transfer_file2file. destruct (Z.eqb_spec (blen c - off) 0) as [Hz|Hz].
  { exists None, w. split_and!; try done. rewrite bdrop_all by lia. symmetry. by apply insert_id. }
  destruct (read_spec path _ _ _ _ _ (blen c - off) _ Hs Ht) as (w1 & pos1 & R1 & E1 & F1 & J1); [lia|by right|].
  assert (file_open_on w1 = file_open_on w) as O1.
  { unfold file_open_on. rewrite J1, fmap_insert. apply insert_id. by rewrite lookup_fmap, Hs. }
  rewrite btake_all in R1 by (rewrite blen_bdrop; lia).
  assert (blen (bdrop off c) = blen c - off) as Hl by (rewrite blen_bdrop; lia).
  assert (blen (replicate (Z.to_nat (blen c - off)) 0) = blen c - off) as Hr
    by (unfold blen at 1; rewrite length_replicate; lia).
  destruct (Z.to_nat (blen c - off)) as [|k] eqn:Hk; [lia|]. cbn [copy_read_loop].
  rewrite Hr. destruct (Z.leb_spec (blen c - off) 0); [lia|].
  replace (blen c - off - 0) with (blen c - off) by lia. rewrite R1.
  destruct (bdrop off c) as [|x xs] eqn:Hb; [change (blen []) with 0 in Hl; lia|]. rewrite <- Hb in *. clear x xs Hb.
  rewrite Hl, (bdrop_all (blen c - off) (replicate _ _)), app_nil_r by lia.
  assert (∀ k, copy_read_loop k src (0 + (blen c - off)) (bdrop off c) w1 = Ok (None, bdrop off c, w1)) as ->.
  { intros []; cbn [copy_read_loop]; rewrite Hl; destruct (Z.leb_spec (blen c - off) (0 + (blen c - off))); done || lia. }
  mstep. cbn [copy_write_loop]. rewrite Hl. destruct (Z.leb_spec (blen c - off) 0); [lia|].
  rewrite btake_all by lia. rewrite <- O1 in Hd. apply open_on_handle in Hd as (pos & Hd). rewrite <- F1 in Hp.
  destruct (works_write _ _ _ _ (bdrop off c) _ Hd Hp) as (r & w2 & -> & Hw).
  { intros E. rewrite E in Hl. change (blen []) with 0 in Hl. lia. }
  destruct Hw as [(-> & F2 & J2)|(Hle & F2 & J2)].
  - rewrite Hl. destruct (Z.ltb_spec 0 (blen c - off)); [|lia]. exists None, w2. split_and!.
    + destruct k; cbn [copy_write_loop]; rewrite Hl; destruct (Z.leb_spec (blen c - off) (0 + (blen c - off))); done || lia.
    + eapply elsewhere_trans; [exact E1|]. intros q Hq1 Hq2. rewrite F2, J2, lookup_insert_ne by done. split; [done|].
      intros h fh Hf. destruct (decide (h = dst)) as [->|Hne]; [|by rewrite lookup_insert_ne].
      rewrite lookup_insert_eq. split; intros E; naive_solver.
    + rewrite <- O1. unfold file_open_on. rewrite J2, fmap_insert. apply insert_id. by rewrite lookup_fmap, Hd.
    + by rewrite F2, F1.
  - destruct (Z.ltb_spec 0 r); [lia|]. exists (Some FAILED_COPY), w2. split_and!; [done|..|by rewrite F2].
    + eapply elsewhere_trans; [exact E1|]. intros q _ _. by rewrite F2, J2.
    + rewrite <- O1. unfold file_open_on. by rewrite J2.
Qed.

(** The buffer has another handle, the only one on its file. *)
Lemma half_ok_reopened b w w' h x f offset :
  half_ok b w → m_fd b = Some h → file_open_on w' = <[x := (m_path b, true)]> (delete h (file_open_on w)) →
  fl_files w' !! m_path b = Some f → 0 ≤ offset ≤ blen f → blen f ≤ m_max_file_size b →
  half_ok (set_offset offset (set_fd (Some x) b)) w'.
Proof.
  intros [H1 H2 H3 H4 H5 H6 H7] Hfd Ho Hf Hoff Hmax. split; cbn; try done.
  - unfold file_ok in *. cbn. rewrite Hfd in H6. destruct H6 as (pos0 & f0 & _ & _ & _ & _ & G5).
    assert (file_open_on w' !! x = Some (m_path b, true)) as (pos & Hx)%open_on_handle by (by rewrite Ho, lookup_insert_eq).
    exists pos, f. split_and!; try done; try lia. intros h' [q p' a] Hl Hq. cbn in Hq. subst q.
    assert (file_open_on w' !! h' = Some (m_path b, a)) as Hl' by (apply open_on_handle; by exists p').
    rewrite Ho in Hl'. apply lookup_insert_Some in Hl' as [[-> _]|[_ [Hne Hl']%lookup_delete_Some]]; [done|].
    apply open_on_handle in Hl' as (p2 & Hl'). apply G5 in Hl'; [by subst|done].
  - apply unopened_on. intros h' q a. rewrite Ho.
    intros [[_ [= <- _]]|[_ [_ Hl]%lookup_delete_Some]]%lookup_insert_Some; [by apply not_eq_sym, tmp_path_ne|].
    rewrite unopened_on in H7. by eapply H7.
Qed.

Lemma elsewhere_same path w w' : fl_files w' = fl_files w → fl_handles w' = fl_handles w → elsewhere path w w'.
Proof. intros Hf Hh p _ _. by rewrite Hf, Hh. Qed.

Lemma rename_spec path p q c w :
  fl_files w !! p = Some c → unopened p w → unopened q w →
  (p = path ∧ q = tmp_path path) ∨ (p = tmp_path path ∧ q = path) →
  ∃ w', fs_rename p q w = (true, w') ∧ elsewhere path w w' ∧
    fl_files w' = <[q := c]> (delete p (fl_files w)) ∧ file_open_on w' = file_open_on w.
Proof.
  intros Hp Hu1 Hu2 Hpq. destruct (works_rename p q c w Hp) as (w' & H1 & H2 & H3).
  { intros h fh Hh. split; [by eapply Hu1|by eapply Hu2]. }
  exists w'. split_and!; [done| |done|by unfold file_open_on; rewrite H3].
  intros r Hr1 Hr2. rewrite H2, H3. split; [|done].
  rewrite lookup_insert_ne, lookup_delete_ne by naive_solver. done.
Qed.

Lemma remove_spec path p w :
  unopened p w → p = path ∨ p = tmp_path path →
  elsewhere path w (fs_remove p w) ∧ fl_files (fs_remove p w) = delete p (fl_files w) ∧
  file_open_on (fs_remove p w) = file_open_on w.
Proof.
  intros Hu Hp. destruct (works_remove p w Hu) as [H1 H2]. split_and!; [|done|by unfold file_open_on; rewrite H2].
  eapply elsewhere_files; [exact Hp|exact H1|done].
Qed.

Lemma close_on path h p a w :
  file_open_on w !! h = Some (p, a) → p = path ∨ p = tmp_path path →
  elsewhere path w (file_close (Some h) w) ∧ fl_files (file_close (Some h) w) = fl_files w ∧
  file_open_on (file_close (Some h) w) = delete h (file_open_on w).
Proof.
  intros (pos & Hh)%open_on_handle Hp. destruct (close_spec path _ _ _ Hh Hp) as (H1 & H2 & H3).
  split_and!; try done. unfold file_open_on. by rewrite H3, fmap_delete.
Qed.

Lemma open_as path p flags w :
  CREAT ∈ flags ∨ is_Some (fl_files w !! p) → p = path ∨ p = tmp_path path →
  ∃ h w', file_open p flags w = (Some h, w') ∧ elsewhere path w w' ∧ file_open_on w !! h = None ∧
    fl_files w' = <[p := default [] (fl_files w !! p)]> (fl_files w) ∧
    file_open_on w' = <[h := (p, bool_decide (APPEND ∈ flags))]> (file_open_on w) ∧
    fl_handles w' !! h = Some (mkFileHandle p 0 (bool_decide (APPEND ∈ flags))).
Proof.
  intros Ho Hp. destruct (open_spec path p flags w Ho Hp) as (h & w' & H1 & H2 & H3 & H4 & H5). exists h, w'.
  split_and!; try done.
  - unfold file_open_on. by rewrite lookup_fmap, H3.
  - unfold file_open_on. by rewrite H5, fmap_insert.
  - by rewrite H5, lookup_insert_eq.
Qed.

(** No handle on the two files is left when the buffer's own is closed. *)
Lemma own_handle b w h :
  half_ok b w → m_fd b = Some h →
  ∀ h' q a, delete h (file_open_on w) !! h' = Some (q, a) → q ≠ m_path b ∧ q ≠ tmp_path (m_path b).
Proof.
  intros [_ _ _ _ _ H6 H7] Hfd h' q a [Hne Hl]%lookup_delete_Some. unfold file_ok in H6. rewrite Hfd in H6.
  destruct H6 as (pos & f & _ & _ & _ & _ & G5). rewrite unopened_on in H7. split; [|by eapply H7].
  intros ->. apply open_on_handle in Hl as (p' & Hl). apply Hne. symmetry. by eapply G5.
Qed.

(** [strip_file] up to the copying: the new file [dst], the old one [src] at the
    read offset. *)
Lemma strip_exit_ok path f w M dst src :
  file_open_on w = <[src := (tmp_path path, false)]> (<[dst := (path, true)]> M) → M !! src = None → src ≠ dst →
  (∀ h q a, M !! h = Some (q, a) → q ≠ path ∧ q ≠ tmp_path path) →
  fl_files w !! path = Some f →
  ∃ w', (∀ b, m_path b = path → strip_exit None (Some src) b w = (None, b, w')) ∧ elsewhere path w w' ∧
    file_open_on w' = <[dst := (path, true)]> M ∧ fl_files w' !! path = Some f.
Proof.
  intros Ho Hs Hne HM Hf. destruct (close_on path src (tmp_path path) false w) as (E1 & F1 & O1);
    [by rewrite Ho, lookup_insert_eq|by right|].
  assert (file_open_on (file_close (Some src) w) = <[dst := (path, true)]> M) as O1'.
  { rewrite O1, Ho, delete_insert_eq. apply delete_id. by rewrite lookup_insert_ne. }
  destruct (remove_spec path (tmp_path path) (file_close (Some src) w)) as (E2 & F2 & O2); [|by right|].
  { apply unopened_on. intros h q a. rewrite O1'. intros [[_ [= <- _]]|[_ Hl]]%lookup_insert_Some;
      [by apply not_eq_sym, tmp_path_ne|by eapply HM]. }
  exists (fs_remove (tmp_path path) (file_close (Some src) w)). split_and!.
  - by intros b <-.
  - by eapply elsewhere_trans.
  - by rewrite O2.
  - rewrite F2, F1, lookup_delete_ne; [done|apply tmp_path_ne].
Qed.

Lemma strip_exit_failed path e f w M dst src :
  file_open_on w = <[src := (tmp_path path, false)]> (<[dst := (path, true)]> M) → M !! src = None → M !! dst = None →
  src ≠ dst → (∀ h q a, M !! h = Some (q, a) → q ≠ path ∧ q ≠ tmp_path path) →
  fl_files w !! tmp_path path = Some f →
  ∃ x w', (∀ b, m_path b = path → m_fd b = Some dst →
      strip_exit (Some e) (Some src) b w = (Some e, set_fd (Some x) b, w')) ∧
    elsewhere path w w' ∧ file_open_on w' = <[x := (path, true)]> M ∧ fl_files w' !! path = Some f.
Proof.
  intros Ho Hs Hd Hne HM Hf.
  destruct (close_on path src (tmp_path path) false w) as (E1 & F1 & O1); [by rewrite Ho, lookup_insert_eq|by right|].
  set (w1 := file_close (Some src) w) in *.
  rewrite Ho, delete_insert_eq, delete_id in O1 by (by rewrite lookup_insert_ne).
  destruct (close_on path dst path true w1) as (E2 & F2 & O2); [by rewrite O1, lookup_insert_eq|by left|].
  set (w2 := file_close (Some dst) w1) in *. rewrite O1, delete_insert_eq, delete_id in O2 by done.
  assert (∀ w, file_open_on w = M → unopened path w ∧ unopened (tmp_path path) w) as Hun.
  { intros w' Hw'. rewrite !unopened_on, Hw'. split; intros; by eapply HM. }
  destruct (remove_spec path path w2) as (E3 & F3 & O3); [by apply Hun|by left|]. set (w3 := fs_remove path w2) in *.
  rewrite O2 in O3. destruct (Hun _ O3) as [U1 U2].
  destruct (rename_spec path (tmp_path path) path f w3) as (w4 & R4 & E4 & F4 & O4); [|done..|by right|].
  { rewrite F3, F2, F1, lookup_delete_ne; [done|]. apply not_eq_sym, tmp_path_ne. }
  rewrite O3 in O4.
  destruct (open_as path path [APPEND; RDWR] w4) as (x & w5 & R5 & E5 & N5 & F5 & O5 & _);
    [right; rewrite F4, lookup_insert_eq; by eexists|by left|].
  rewrite O4 in O5. destruct (remove_spec path (tmp_path path) w5) as (E6 & F6 & O6); [|by right|].
  { apply unopened_on. intros h q a. rewrite O5. intros [[_ [= <- _]]|[_ Hl]]%lookup_insert_Some;
      [by apply not_eq_sym, tmp_path_ne|by eapply HM]. }
  exists x, (fs_remove (tmp_path path) w5). split_and!.
  - intros b <- Hfd. unfold strip_exit. rewrite Hfd. cbn [m_path set_fd]. fold w1. fold w2. fold w3.
    rewrite R4, R5. done.
  - do 5 (eapply elsewhere_trans; [eassumption|]). done.
  - by rewrite O6, O5.
  - rewrite F6, lookup_delete_ne by apply tmp_path_ne. rewrite F5, F4, !lookup_insert_eq. done.
Qed.

Lemma strip_file_spec b w h f :
  half_ok b w → m_fd b = Some h → fl_files w !! m_path b = Some f →
  ∃ e x w',
    let b' := set_offset (match e with None => 0 | Some _ => m_read_offset b end) (set_fd (Some x) b) in
    strip_file b w = Ok (e, b', w') ∧ elsewhere (m_path b) w w' ∧ half_ok b' w' ∧
    fl_files w' !! m_path b = Some (match e with None => bdrop (m_read_offset b) f | Some _ => f end).
Proof.
  intros Hi Hfd Hf. pose proof (own_handle _ _ _ Hi Hfd) as HM.
  pose proof (ho_file _ _ Hi) as Hfile. unfold file_ok in Hfile. rewrite Hfd in Hfile.
  destruct Hfile as (pos & f' & G1 & G2 & G3 & G4 & G5). replace f with f' in * by congruence. set (p := m_path b) in *. set (t := tmp_path p) in *.
  set (M := delete h (file_open_on w)) in *. unfold strip_file. rewrite Hfd, (works_get_size _ _ _ _ _ _ G1 G2).
  destruct (Z.ltb_spec (blen f') 0); [lia|]. destruct (Z.ltb_spec (blen f') (m_read_offset b)); [lia|].
  destruct (close_on p h p true w) as (E1 & F1 & O1); [apply open_on_handle; by eexists|by left|].
  set (w1 := file_close (Some h) w) in *. fold M in O1. cbn [m_path set_fd m_read_offset]. fold p. fold t.
  destruct (rename_spec p p t f' w1) as (w2 & -> & E2 & F2 & O2);
    [by rewrite F1|apply unopened_on; rewrite O1; intros; by eapply HM..|by left|]. rewrite O1 in O2. cbn [negb].
  destruct (open_as p p [CREAT; APPEND; RDWR] w2) as (dst & w3 & -> & E3 & N3 & F3 & O3 & _);
    [left; set_solver|by left|]. rewrite O2 in N3, O3.
  assert (fl_files w2 !! p = None) as Hp2.
  { rewrite F2, lookup_insert_ne, lookup_delete_eq; [done|apply tmp_path_ne]. }
  assert (fl_files w3 !! t = Some f') as Ht3.
  { rewrite F3, lookup_insert_ne, F2, lookup_insert_eq; [done|]. apply not_eq_sym, tmp_path_ne. }
  destruct (open_as p t [RDONLY] w3) as (src & w4 & -> & E4 & N4 & F4 & O4 & J4); [right; by eexists|by right|].
  cbn in O3, O4. rewrite O3 in N4, O4. rewrite lookup_insert_None in N4. destruct N4 as [Ns Nd].
  destruct (position_spec p src t 0 false (m_read_offset b) w4) as (r & w5 & -> & Hr & E5 & F5 & J5); [done|lia|by right|].
  destruct (Z.ltb_spec r 0); [lia|].
  assert (file_open_on w5 = file_open_on w4) as O5.
  { unfold file_open_on. rewrite J5, fmap_insert. apply insert_id. by rewrite lookup_fmap, J4. }
  destruct (transfer_file2file_spec p dst src false (m_read_offset b) f' w5) as (e & w6 & -> & E6 & O6 & F6); [..|lia|].
  { rewrite O5, O4, lookup_insert_ne, lookup_insert_eq by done. done. }
  { rewrite F5, F4, lookup_insert_ne by apply tmp_path_ne. rewrite F3, lookup_insert_eq, Hp2. done. }
  { by rewrite J5, lookup_insert_eq. }
  { rewrite F5, F4, lookup_insert_eq, Ht3. done. }
  mstep. rewrite O5, O4 in O6. assert (elsewhere p w w6) as E by (repeat (eapply elsewhere_trans; [eassumption|]); done).
  destruct e as [e|].
  - destruct (strip_exit_failed p (FAILED_TRANSFER e) f' w6 M dst src) as (x & w7 & X1 & X2 & X3 & X4); try done.
    { by rewrite F6, F5, F4, lookup_insert_eq, Ht3. }
    exists (Some (FAILED_TRANSFER e)), x, w7. rewrite X1 by done. split_and!; try done; [by eapply elsewhere_trans|].
    eapply half_ok_reopened; [exact Hi|done|exact X3|exact X4|lia|lia].
  - destruct (strip_exit_ok p (bdrop (m_read_offset b) f') w6 M dst src) as (w7 & X1 & X2 & X3 & X4); try done.
    { by rewrite F6, lookup_insert_eq. }
    exists None, dst, w7. rewrite X1 by done. split_and!; try done; [by eapply elsewhere_trans|].
    pose proof (blen_bdrop (m_read_offset b) f' ltac:(lia)).
    eapply half_ok_reopened; [exact Hi|done|exact X3|exact X4|lia|lia].
Qed.

(** *** Writing *)

Lemma append_to_file_spec data b w h f :
  half_ok b w → m_fd b = Some h → fl_files w !! m_path b = Some f →
  ∃ e w', append_to_file data b w = Ok (e, b, w') ∧ elsewhere (m_path b) w w' ∧ half_ok b w' ∧
    ∃ k, 0 ≤ k ∧ fl_files w' !! m_path b = Some (f ++ btake k data) ∧
      (e = None → k = blen data `min` (m_max_file_size b - blen f)).
Proof.
  intros Hi Hfd Hf. pose proof Hi as [H1 H2 H3 H4 H5 H6 H7]. unfold file_ok in H6. rewrite Hfd in H6.
  destruct H6 as (pos & f' & G1 & G2 & G3 & G4 & G5). replace f' with f in * by congruence. clear G2.
  assert (∃ w', (w', f ++ btake 0 data) = (w, f)) as (_ & [= _ Hf0]) by (exists w; by rewrite btake_0, app_nil_r).
  unfold append_to_file. rewrite Hfd, (works_get_size _ _ _ _ _ _ G1 Hf). pose proof (blen_nonneg data).
  destruct (Z.ltb_spec (blen f) 0); [lia|]. destruct (Z.leb_spec (m_max_file_size b) (blen f)).
  { exists (Some CAPACITY_REACHED), w. split_and!; try done. exists 0. by rewrite Hf0. }
  remember (blen data `min` (m_max_file_size b - blen f)) as k eqn:Hkd. case_bool_decide as Hd.
  { exists None, w. split_and!; try done. exists k. split; [lia|]. by rewrite Hd, app_nil_r. }
  destruct (works_write _ _ _ _ _ _ G1 Hf Hd) as (r & w' & -> & [(-> & F & J)|(Hr & F & J)]).
  - exists None, w'. pose proof (blen_btake k data ltac:(lia)) as Hk. pose proof (blen_nonneg (btake k data)).
    split_and!; [|..|exists k; rewrite F, lookup_insert_eq; split_and!; [lia|done..]].
    + destruct (Z.leb_spec (blen (btake k data)) 0) as [Hle|_]; [|done]. destruct Hd. apply blen_nil. lia.
    + intros q Hq1 Hq2. rewrite F, J, lookup_insert_ne by done. split; [done|]. intros h' fh Hp.
      destruct (decide (h' = h)) as [->|Hne]; [|by rewrite lookup_insert_ne].
      rewrite lookup_insert_eq, G1. split; intros [= <-]; done.
    + split; try done.
      * unfold file_ok. rewrite Hfd. exists (blen (f ++ btake k data)), (f ++ btake k data).
        rewrite J, F, !lookup_insert_eq, blen_app.
        split_and!; [done|done|lia|lia|lia|]. intros h' fh Hl Hp. destruct (decide (h' = h)); [done|].
        rewrite lookup_insert_ne in Hl by done. by eapply G5.
      * intros h' fh. rewrite J. intros [[_ <-]|[_ Hl]]%lookup_insert_Some;
          [by apply not_eq_sym, tmp_path_ne|by eapply H7].
  - exists (Some FAILED_WRITE), w'. destruct (Z.leb_spec r 0); [|lia].
    split_and!; [done|by apply elsewhere_same|..|exists 0; rewrite F, Hf0; done].
    split; try done; [|by unfold unopened; rewrite J].
    unfold file_ok. rewrite Hfd, F, J. by exists pos, f.
Qed.

Lemma same_settings_refl b : same_settings b b.
Proof. done. Qed.

(** The first write creates the file. *)
Lemma create_file b w :
  half_ok b w → m_fd b = None →
  ∃ h w', file_open (m_path b) [CREAT; APPEND; RDWR] w = (Some h, w') ∧ elsewhere (m_path b) w w' ∧
    half_ok (set_fd (Some h) b) w' ∧ fl_files w' !! m_path b = Some [].
Proof.
  intros [H1 H2 H3 H4 H5 H6 H7] Hfd. unfold file_ok in H6. rewrite Hfd in H6. destruct H6 as (G1 & G2 & G3).
  destruct (open_spec (m_path b) (m_path b) [CREAT; APPEND; RDWR] w) as (h & w' & R & E & N & F & J);
    [left; set_solver|by left|]. rewrite G2 in F. change (default [] None) with (@nil Z) in F.
  exists h, w'. split_and!; [done|done| |by rewrite F, lookup_insert_eq]. split; try done.
  - unfold file_ok. cbn. exists 0, []. rewrite F, J, !lookup_insert_eq, G1. change (blen []) with 0.
    split_and!; try done; try lia. intros h' fh [[-> _]|[_ Hl]]%lookup_insert_Some Hp; [done|]. by destruct (G3 _ _ Hl).
  - intros h' fh. rewrite J. intros [[_ <-]|[_ Hl]]%lookup_insert_Some; [by apply not_eq_sym, tmp_path_ne|by eapply H7].
Qed.

Lemma stored_bound b w : half_ok b w → blen (stored b w) ≤ m_max_file_size b.
Proof.
  intros [_ _ H3 _ _ H6 _]. unfold stored, file_ok in *. destruct (m_fd b).
  - destruct H6 as (pos & f & _ & -> & ? & ? & _). change (default [] (Some f)) with f. rewrite blen_bdrop by lia. lia.
  - destruct H6 as (-> & -> & _). done.
Qed.

(** Writing to the file the buffer has open. *)
Lemma write_opened_spec data b w h f :
  half_ok b w → m_fd b = Some h → fl_files w !! m_path b = Some f → blen data < 2 ^ 63 →
  okP (if need_to_strip_file (blen f) (blen data) b then
         '(err, b, w) ← strip_file b w;
         match err with Some e => Ok (Some (FAILED_STRIP e), b, w) | None => append_to_file data b w end
       else append_to_file data b w) (λ '(e, b', w'),
    half_ok b' w' ∧ elsewhere (m_path b) w w' ∧ same_settings b b' ∧ m_mem_buffer b' = m_mem_buffer b ∧
    ∃ k, 0 ≤ k ∧ stored b' w' = stored b w ++ btake k data ∧
      (e = None → k = blen data `min` (m_max_file_size b - blen (stored b w)))).
Proof.
  intros Hi Hfd Hf Hlen. pose proof (ho_file _ _ Hi) as Hfile. unfold file_ok in Hfile. rewrite Hfd in Hfile.
  destruct Hfile as (pos & f' & _ & Hf' & G3 & G4 & _). replace f' with f in * by congruence. clear Hf' f'.
  assert (stored b w = bdrop (m_read_offset b) f) as Hst by (unfold stored; by rewrite Hf).
  pose proof (blen_bdrop (m_read_offset b) f ltac:(lia)) as Hbl. pose proof (blen_nonneg data).
  pose proof (ho_sizes _ _ Hi). pose proof (ho_threshold _ _ Hi).
  destruct (need_to_strip_file _ _ _) eqn:Hneed.
  - destruct (strip_file_spec b w h f Hi Hfd Hf) as (e & x & w1 & -> & E1 & Hi1 & F1). mstep. destruct e as [e|].
    { apply okP_ret. split_and!; try done. exists 0. rewrite btake_0, app_nil_r. split_and!; try done.
      unfold stored. cbn. by rewrite F1, Hf. }
    edestruct (append_to_file_spec data _ w1 x _ Hi1 eq_refl F1) as (e & w2 & -> & E2 & Hi2 & k & Hk & F2 & Hek).
    apply okP_ret. split_and!; try done; [by eapply elsewhere_trans|]. exists k. split; [done|].
    unfold stored at 1. cbn in *. rewrite F2, Hst. split; [done|]. intros He. rewrite (Hek He). lia.
  - edestruct (append_to_file_spec data b w h f Hi Hfd Hf) as (e & w2 & -> & E2 & Hi2 & k & Hk & F2 & Hek).
    apply okP_ret. split_and!; try done. exists k. split; [done|]. unfold stored at 1. rewrite F2, Hst.
    change (default [] (Some (f ++ btake k data))) with (f ++ btake k data).
    rewrite bdrop_app_le by lia. split; [done|]. intros He. rewrite (Hek He).
    unfold need_to_strip_file in Hneed. apply orb_false_iff in Hneed as [Hneed _].
    apply Z.ltb_ge in Hneed. rewrite u64_id in Hneed by lia. lia.
Qed.

Lemma write_in_file_spec data b w :
  half_ok b w → blen data < 2 ^ 63 →
  okP (write_in_file data b w) (λ '(e, b', w'),
    half_ok b' w' ∧ elsewhere (m_path b) w w' ∧ same_settings b b' ∧ m_mem_buffer b' = m_mem_buffer b ∧
    ∃ k, 0 ≤ k ∧ stored b' w' = stored b w ++ btake k data ∧
      (e = None → k = blen data `min` (m_max_file_size b - blen (stored b w)))).
Proof.
  intros Hi Hlen. unfold write_in_file. case_bool_decide as Hd.
  { subst data. apply okP_ret. split_and!; try done. exists 0. rewrite app_nil_r. split_and!; try done.
    pose proof (stored_bound _ _ Hi). change (blen []) with 0. lia. }
  destruct (m_fd b) as [h|] eqn:Hfd.
  - rewrite Hfd. pose proof (ho_file _ _ Hi) as Hfile. unfold file_ok in Hfile. rewrite Hfd in Hfile.
    destruct Hfile as (pos & f & G1 & G2 & _). rewrite (works_get_size _ _ _ _ _ _ G1 G2).
    destruct (Z.ltb_spec (blen f) 0); [pose proof (blen_nonneg f); lia|]. by eapply write_opened_spec.
  - destruct (create_file b w Hi Hfd) as (h & w1 & -> & E1 & Hi1 & F1). cbn [m_fd set_fd].
    pose proof (ho_file _ _ Hi1) as (pos & f & G1 & G2 & _).
    rewrite (works_get_size _ _ _ _ _ _ G1 G2). destruct (Z.ltb_spec (blen f) 0); [pose proof (blen_nonneg f); lia|].
    eapply okP_mono; [eapply write_opened_spec; [exact Hi1|done|exact G2|done]|].
    intros [[e b'] w'] (J1 & J2 & J3 & J4 & k & J5 & J6 & J7). split_and!; try done; [by eapply elsewhere_trans|].
    exists k. split; [done|]. rewrite J6. pose proof (ho_file _ _ Hi) as Hfile. unfold file_ok in Hfile.
    rewrite Hfd in Hfile. destruct Hfile as (O1 & O2 & _).
    assert (stored (set_fd (Some h) b) w1 = stored b w) as <- by (unfold stored; cbn; by rewrite F1, O2, O1).
    split; [done|]. intros He. by rewrite (J7 He).
Qed.

(** *** The operations *)

Lemma file_content_length b w :
  half_ok b w → blen (memfile_content b w) = m_total_size (m_mem_buffer b) + blen (stored b w).
Proof. intros Hi. unfold memfile_content. rewrite blen_app. by rewrite (mo_size _ (ho_mem _ _ Hi)). Qed.

Lemma stored_set_mem mem b w : stored (set_mem mem b) w = stored b w.
Proof. done. Qed.

Lemma half_ok_set_mem mem b w :
  half_ok b w → mem_ok mem → m_total_size mem ≤ m_threshold b → half_ok (set_mem mem b) w.
Proof. intros [H1 H2 H3 H4 H5 H6 H7] Hm Ht. by split. Qed.

Lemma transfer_mem2mem_spec data b w :
  half_ok b w → blen data < 2 ^ 63 →
  let free := m_threshold b - m_total_size (m_mem_buffer b) in
  let '(data', b') := transfer_mem2mem data b in
  half_ok b' w ∧ same_settings b b' ∧ data' = bdrop free data ∧
  (∃ mem, b' = set_mem mem b ∧ concat (m_chunks mem) = concat (m_chunks (m_mem_buffer b)) ++ btake free data) ∧
  m_total_size (m_mem_buffer b') = m_total_size (m_mem_buffer b) + free `min` blen data.
Proof.
  intros Hi Hlen free. unfold transfer_mem2mem. rewrite (free_space _ _ Hi). fold free.
  pose proof Hi as [H1 H2 H3 H4 H5 H6 H7]. pose proof (blen_nonneg data).
  destruct (Z.eqb_spec free 0) as [Hz|Hz].
  { rewrite Hz, bdrop_0, btake_0, app_nil_r. split_and!; try done; [|lia]. exists (m_mem_buffer b). by destruct b. }
  assert (∀ c, (if blen data <=? free then data else btake free data) = c → c = btake free data) as Hc.
  { intros c <-. destruct (Z.leb_spec (blen data) free); [by rewrite btake_all|done]. }
  rewrite (Hc _ eq_refl). clear Hc. pose proof (blen_btake free data ltac:(lia)) as Hb.
  pose proof (mem_push_spec (btake free data) _ H1) as Hp. destruct (mem_push _ _) as [e mem].
  destruct Hp as (-> & Hm & Hcc & Ht); [lia|]. split_and!; try done.
  - apply half_ok_set_mem; [done..|]. lia.
  - rewrite Hb. destruct (Z.le_gt_cases free (blen data)); [by rewrite Z.min_l by lia|].
    rewrite Z.min_r by lia. by rewrite !bdrop_all by lia.
  - by exists mem.
  - cbn. lia.
Qed.

Lemma memfile_push_spec data b w :
  memfile_ok b w → blen data < 2 ^ 63 →
  okP (memfile_push data b w) (λ '(e, b', w'),
    memfile_ok b' w' ∧ elsewhere (m_path b) w w' ∧ same_settings b b' ∧
    ∃ k, 0 ≤ k ∧ memfile_content b' w' = memfile_content b w ++ btake k data ∧
      (e = None → k = blen data `min` (m_threshold b + m_max_file_size b - blen (memfile_content b w)))).
Proof.
  intros [Hi Ho] Hlen. unfold memfile_push.
  pose proof (transfer_mem2mem_spec data b w Hi Hlen) as Ht. cbn zeta in Ht.
  rewrite (file_content_length _ _ Hi). pose proof (blen_nonneg data). pose proof (ho_room _ _ Hi).
  set (free := m_threshold b - m_total_size (m_mem_buffer b)) in *.
  destruct (transfer_mem2mem data b) as [data' b1]. destruct Ht as (Hi1 & (S1 & S2 & S3) & -> & (mem & -> & Hc) & Hs).
  pose proof (blen_bdrop free data ltac:(lia)) as Hbd. cbn in Hs.
  eapply okP_mono; [apply write_in_file_spec; [exact Hi1|lia]|].
  intros [[e b2] w2] (Hi2 & E2 & (S4 & S5 & S6) & Hm & k & Hk & Hst & Hek). cbn [set_mem m_path] in *.
  rewrite stored_set_mem in Hst, Hek. cbn [m_max_file_size] in Hek.
  split_and!; [split; [done|]|done|split_and!; congruence|].
  - unfold ordered. rewrite Hm, S4, Hst. cbn [set_mem m_mem_buffer m_threshold]. rewrite Hs.
    destruct (Z.le_gt_cases free (blen data)); [left; lia|]. destruct Ho as [Ho|Ho]; [left; lia|right].
    rewrite Ho, (bdrop_all free data) by lia. unfold btake. by rewrite take_nil.
  - exists (free `min` blen data + k). split; [lia|]. split.
    + unfold memfile_content. rewrite Hm, Hst. cbn [set_mem m_mem_buffer]. rewrite Hc.
      destruct (decide (free = 0)) as [Hz|Hz].
      { rewrite Hz, bdrop_0, btake_0, app_nil_r, <- app_assoc. do 3 f_equal. lia. }
      assert (stored b w = []) as -> by (destruct Ho; [lia|done]). rewrite !app_nil_r, <- app_assoc. cbn. f_equal.
      transitivity (btake (free `min` blen data + k) (btake free data ++ bdrop free data)); [|by rewrite btake_bdrop].
      pose proof (blen_btake free data ltac:(lia)). rewrite btake_app_ge by lia. do 2 f_equal. lia.
    + intros He. rewrite (Hek He), Hbd. destruct Ho as [Ho|Ho]; [lia|]. rewrite Ho in *. change (blen []) with 0 in *.
      pose proof (ho_max _ _ Hi). lia.
Qed.

Lemma memfile_peek_spec b w :
  memfile_ok b w →
  okP (memfile_peek ndebug b w) (λ '(e, chunk, b', w'),
    e = None ∧ memfile_ok b' w' ∧ elsewhere (m_path b) w w' ∧ same_settings b b' ∧
    memfile_content b' w' = memfile_content b w ∧ chunk `prefix_of` memfile_content b w ∧
    (chunk = [] → memfile_content b w = []) ∧ blen chunk ≤ m_total_size (m_mem_buffer b')).
Proof.
  intros [Hi _]. unfold memfile_peek. eapply okP_bind; [by apply transfer_file2mem_spec|].
  intros [[e b1] w1] (-> & [Hi1 Ho1] & E1 & S1 & Hc1). cbn beta iota.
  pose proof (mem_peek_spec _ (ho_mem _ _ Hi1)) as Hp. destruct (mem_peek _) as [e chunk].
  destruct Hp as (-> & Hpre & Hnil). apply okP_ret. rewrite <- Hc1. split_and!; try done.
  - unfold memfile_content. by apply prefix_app_r.
  - intros E. unfold memfile_content. rewrite (Hnil E). destruct Ho1 as [Ho1|Ho1]; [|by rewrite Ho1].
    rewrite (mo_size _ (ho_mem _ _ Hi1)), (Hnil E) in Ho1. pose proof (ho_threshold _ _ Hi1).
    change (blen []) with 0 in Ho1. lia.
  - rewrite (mo_size _ (ho_mem _ _ Hi1)). apply prefix_length in Hpre. unfold blen. lia.
Qed.

Lemma memfile_drain_spec n b w :
  memfile_ok b w → 0 ≤ n ≤ m_total_size (m_mem_buffer b) →
  okP (memfile_drain ndebug n b w) (λ '(b', w'),
    memfile_ok b' w' ∧ elsewhere (m_path b) w w' ∧ same_settings b b' ∧
    memfile_content b' w' = bdrop n (memfile_content b w)).
Proof.
  intros [Hi _] Hn. pose proof Hi as [H1 H2 H3 H4 H5 H6 H7]. unfold memfile_drain.
  eapply okP_bind; [apply mem_drain_spec; [done|lia|lia]|]. intros mem (Hm & Hc & Ht). cbn beta.
  eapply okP_bind; [apply transfer_file2mem_spec; by apply half_ok_set_mem; [..|lia]|].
  intros [[e b1] w1] (-> & Hi1 & E1 & S1 & Hc1). apply okP_ret. split_and!; try done; try apply S1.
  rewrite Hc1. unfold memfile_content at 1. rewrite stored_set_mem. cbn [set_mem m_mem_buffer]. rewrite Hc.
  unfold memfile_content. rewrite bdrop_app_le; [done|]. rewrite <- (mo_size _ H1). lia.
Qed.

Lemma memfile_size_spec b w :
  memfile_ok b w → okP (memfile_size ndebug b w) (λ n, n = blen (memfile_content b w)).
Proof.
  intros [Hi _]. rewrite (file_content_length _ _ Hi). pose proof (stored_bound _ _ Hi) as Hsb.
  pose proof (blen_nonneg (stored b w)). pose proof (blen_nonneg (concat (m_chunks (m_mem_buffer b)))).
  pose proof Hi as [[Hs _] H2 H3 H4 H5 H6 H7]. unfold memfile_size.
  assert (∃ n, match m_fd b with Some h => file_get_size h w | None => 0 end = n ∧ 0 ≤ n ∧ m_read_offset b ≤ n ∧
    n - m_read_offset b = blen (stored b w)) as (n & -> & Hn0 & Hn1 & Hn2).
  { unfold file_ok, stored in *. destruct (m_fd b).
    - destruct H6 as (pos & f & G1 & G2 & ? & _). rewrite (works_get_size _ _ _ _ _ _ G1 G2), G2 in *.
      exists (blen f). change (default [] (Some f)) with f in *. rewrite blen_bdrop by lia. split_and!; lia.
    - destruct H6 as (-> & -> & _). exists 0. split_and!; try done. }
  unfold buf_assert. destruct (Z.leb_spec (m_read_offset b) n); [|lia]. mstep. apply okP_ret.
  rewrite Z.max_l, Hn2 by lia. rewrite (u64_id (blen _)) by lia. rewrite u64_id; lia.
Qed.

(** *** A buffer beside others *)

Lemma memfile_frame b0 b w w' :
  elsewhere (m_path b) w w' → m_path b0 ≠ m_path b → m_path b0 ≠ tmp_path (m_path b) →
  tmp_path (m_path b0) ≠ m_path b → tmp_path (m_path b0) ≠ tmp_path (m_path b) → memfile_ok b0 w →
  memfile_ok b0 w' ∧ memfile_content b0 w' = memfile_content b0 w.
Proof.
  intros He N1 N2 N3 N4 [[H1 H2 H3 H4 H5 H6 H7] Ho]. destruct (He _ N1 N2) as [F J].
  assert (stored b0 w' = stored b0 w) as Hst by (unfold stored; by rewrite F).
  split; [|unfold memfile_content; by rewrite Hst]. split; [|unfold ordered; by rewrite Hst]. split; try done.
  - unfold file_ok in *. rewrite F. destruct (m_fd b0) as [h|].
    + destruct H6 as (pos & f & G1 & G2 & G3 & G4 & G5). exists pos, f. split_and!; try done; try lia; [by apply J|].
      intros h' fh Hl Hp. eapply G5; [|done]. by apply J.
    + destruct H6 as (G1 & G2 & G3). split_and!; try done. intros h fh Hl Hp. eapply G3; [|done]. by apply J.
  - by eapply elsewhere_unopened.
Qed.

Lemma memfile_destroy_spec b w : half_ok b w → elsewhere (m_path b) w (memfile_destroy b w).
Proof.
  intros Hi. unfold memfile_destroy.
  assert (elsewhere (m_path b) w (file_close (m_fd b) w) ∧ unopened (m_path b) (file_close (m_fd b) w)) as [E1 U1].
  { destruct (m_fd b) as [h|] eqn:Hfd.
    - pose proof (own_handle _ _ _ Hi Hfd) as Ho. pose proof (ho_file _ _ Hi) as Hf. unfold file_ok in Hf.
      rewrite Hfd in Hf. destruct Hf as (pos & f & G1 & _).
      destruct (close_on (m_path b) h (m_path b) true w) as (E & _ & O); [apply open_on_handle; by exists pos|by left|].
      split; [done|]. apply unopened_on. rewrite O. intros h' q a Hl. by eapply Ho.
    - destruct (fl_close None w) as [F J]. split; [by apply elsewhere_same|]. intros h fh. rewrite J.
      pose proof (ho_file _ _ Hi) as Hf. unfold file_ok in Hf. rewrite Hfd in Hf. apply Hf. }
  case_bool_decide; [done|]. eapply elsewhere_trans; [exact E1|]. by apply remove_spec; [|left].
Qed.

(** The buffer of a connection keeps the promises of the interface. *)
#[global] Instance any_buffer_laws : @DataBufferLaws AnyBuffer W (any_buffer ndebug).
Proof.
  refine {|
    db_ok a w := match a with InMemory m => mem_ok m ∧ m_total_size m < 2 ^ 63 | InFile b => memfile_ok b w end;
    db_content a w := match a with InMemory m => concat (m_chunks m) | InFile b => memfile_content b w end;
    db_capacity a := match a with InMemory _ => 2 ^ 63 | InFile b => m_threshold b + m_max_file_size b end;
    db_ready a := match a with InMemory m => m_total_size m | InFile b => m_total_size (m_mem_buffer b) end;
    db_apart a0 a :=
      match a0, a with
      | InFile b0, InFile b =>
          m_path b0 ≠ m_path b ∧ m_path b0 ≠ tmp_path (m_path b) ∧
          tmp_path (m_path b0) ≠ m_path b ∧ tmp_path (m_path b0) ≠ tmp_path (m_path b)
      | _, _ => True
      end;
    db_frame a w w' := match a with InMemory _ => w' = w | InFile b => elsewhere (m_path b) w w' end |}.
  - intros [b|b] w; [intros [[Hs _] _]; by apply okP_ret|apply memfile_size_spec].
  - intros data [b|b] w.
    + intros [Hm Hlt] Hlen. pose proof (mo_size _ Hm) as Hs. cbn [db_push any_buffer]. pose proof (mem_push_spec data b Hm) as Hp.
      destruct (mem_push data b) as [e b']. destruct Hp as (-> & Hm' & Hc & Ht); [lia|]. apply okP_ret.
      split_and!; try done; [lia|]. exists (blen data).
      split; [apply blen_nonneg|]. rewrite btake_all by lia. split; [done|]. lia.
    + intros Hi Hlen. cbn [db_push any_buffer]. pose proof (blen_nonneg (memfile_content b w)).
      eapply okP_bind; [apply memfile_push_spec; [done|lia]|].
      intros [[e b'] w'] (Hi' & E & (S1 & S2 & S3) & Hk). apply okP_ret. rewrite S1, S2.
      split_and!; try done. intros [b0|b0]; [done|]. by rewrite S3.
  - intros [b|b] w.
    + intros [Hm Hlt]. cbn [db_peek any_buffer]. pose proof (mem_peek_spec b Hm) as Hp. destruct (mem_peek b) as [e chunk].
      destruct Hp as (-> & Hpre & Hnil). apply okP_ret. split_and!; try done.
      rewrite (mo_size _ Hm). apply prefix_length in Hpre. unfold blen. lia.
    + intros Hi. cbn [db_peek any_buffer]. eapply okP_bind; [by apply memfile_peek_spec|].
      intros [[[e chunk] b'] w'] (-> & Hi' & E & (S1 & S2 & S3) & Hc & Hpre & Hnil & Hlen). apply okP_ret.
      rewrite S1, S2. split_and!; try done. intros [b0|b0]; [done|]. by rewrite S3.
  - intros n [b|b] w.
    + intros [Hm Hlt] Hn. cbn [db_drain any_buffer]. eapply okP_bind; [apply mem_drain_spec; [done|lia|lia]|].
      intros b' (Hm' & Hc & Ht). apply okP_ret. split_and!; try done. lia.
    + intros Hi Hn. cbn [db_drain any_buffer]. eapply okP_bind; [by apply memfile_drain_spec|].
      intros [b' w'] (Hi' & E & (S1 & S2 & S3) & Hc). apply okP_ret. rewrite S1, S2.
      split_and!; try done. intros [b0|b0]; [done|]. by rewrite S3.
  - intros [b|b] w; [done|intros [Hi _]; by apply memfile_destroy_spec].
  - intros [b|b] [b0|b0]; cbn; try done. intros (?&?&?&?). split_and!; congruence.
  - intros [b|b] [b0|b0] w w'; cbn; [by intros ->|by intros ->|by intros|].
    intros He (?&?&?&?) Hi. by apply (memfile_frame b0 b).
Defined.

Lemma memfile_new_ok path thr max w :
  0 < thr → 0 ≤ max → thr + max < 2 ^ 63 →
  fl_files w !! path = None → unopened path w → unopened (tmp_path path) w →
  memfile_ok (memfile_new path thr max) w.
Proof.
  intros. assert (stored (memfile_new path thr max) w = []) as Hst by (unfold stored; cbn; by destruct (fl_files w !! path)).
  split; [|by right]. split; try done; cbn; lia.
Qed.

End Memfile.

(** ** A disk *)

(** Files by path, open files by handle, and how many bytes still fit. *)
Record Disk := mkDisk { d_files : gmap string (list Z); d_handles : gmap Z FileHandle; d_room : Z }.

Definition disk_open (p : string) (flags : list FileFlag) (d : Disk) : option Z * Disk :=
  match d_files d !! p with
  | None => if bool_decide (CREAT ∈ flags)
            then let h := fresh (dom (d_handles d)) in
                 (Some h, mkDisk (<[p := []]> (d_files d))
                            (<[h := mkFileHandle p 0 (bool_decide (APPEND ∈ flags))]> (d_handles d)) (d_room d))
            else (None, d)
  | Some c => let h := fresh (dom (d_handles d)) in
              (Some h, mkDisk (<[p := c]> (d_files d))
                         (<[h := mkFileHandle p 0 (bool_decide (APPEND ∈ flags))]> (d_handles d)) (d_room d))
  end.

Definition disk_read (h n : Z) (d : Disk) : option (list Z) * Disk :=
  match d_handles d !! h with
  | Some (mkFileHandle p pos app) =>
      let c := btake n (bdrop pos (default [] (d_files d !! p))) in
      (Some c, mkDisk (d_files d) (<[h := mkFileHandle p (pos + blen c) app]> (d_handles d)) (d_room d))
  | None => (None, d)
  end.

(** A disk with no room for all the data refuses it, or takes what fits. *)
Definition disk_write (short : bool) (h : Z) (data : list Z) (d : Disk) : Z * Disk :=
  match d_handles d !! h with
  | Some (mkFileHandle p _ true) =>
      let n := if blen data <=? d_room d then blen data else if short then d_room d else 0 in
      if 0 <? n then
        let c := default [] (d_files d !! p) ++ btake n data in
        (n, mkDisk (<[p := c]> (d_files d)) (<[h := mkFileHandle p (blen c) true]> (d_handles d)) (d_room d - n))
      else (-1, d)
  | _ => (-1, d)
  end.

Definition disk_files (short : bool) : FileOps Disk := {|
  file_open := disk_open;
  file_close fd d := match fd with Some h => mkDisk (d_files d) (delete h (d_handles d)) (d_room d) | None => d end;
  file_get_size h d :=
    match d_handles d !! h with Some fh => blen (default [] (d_files d !! fh_path fh)) | None => -1 end;
  file_set_position h n d :=
    match d_handles d !! h with
    | Some (mkFileHandle p _ app) => (n, mkDisk (d_files d) (<[h := mkFileHandle p n app]> (d_handles d)) (d_room d))
    | None => (-1, d)
    end;
  file_read := disk_read;
  file_write := disk_write short;
  fs_rename p q d :=
    match d_files d !! p with
    | Some c => (true, mkDisk (<[q := c]> (delete p (d_files d))) (d_handles d) (d_room d))
    | None => (false, d)
    end;
  fs_remove p d := mkDisk (delete p (d_files d)) (d_handles d) (d_room d + blen (default [] (d_files d !! p)));
|}.

Definition disk_file_laws (short : bool) : @FileLaws Disk (disk_files short).
Proof.
  refine {| fl_files := d_files; fl_handles := d_handles |}.
  - intros p flags d Ho. cbn. unfold disk_open.
    assert (d_handles d !! fresh (dom (d_handles d)) = None) as Hf by (apply not_elem_of_dom, is_fresh).
    destruct (d_files d !! p) as [c|] eqn:Hp; [done|].
    by rewrite bool_decide_eq_true_2 by (destruct Ho as [?|[? ?]]; done).
  - by intros [h|] d.
  - intros h p pos app c d Hh Hf. cbn. left. by rewrite Hh; cbn; rewrite Hf.
  - intros h p pos app n d Hh Hn. cbn. rewrite Hh. split; [done|]. by left.
  - intros h p pos app c n d Hh Hf Hn. cbn. unfold disk_read. rewrite Hh, Hf. split_and!; try done. intros He.
    apply blen_nil. apply (f_equal blen) in He. cbn [default] in He. rewrite blen_btake in He by lia.
    change (blen []) with 0 in He. pose proof (blen_nonneg (bdrop pos c)). unfold id in He. lia.
  - intros h p pos c data d Hh Hf Hd. cbn. unfold disk_write. rewrite Hh, Hf.
    set (n := if _ <=? _ then _ else _). assert (n ≤ blen data) as Hn.
    { unfold n. destruct (Z.leb_spec (blen data) (d_room d)); [done|]. destruct short; [lia|apply blen_nonneg]. }
    destruct (Z.ltb_spec 0 n); cbn; [|done]. by destruct (Z.ltb_spec 0 n); [|lia].
  - intros p q c d Hp Hu. cbn. by rewrite Hp.
  - intros p d Hu. cbn. split; [by left|done].
Defined.

#[export] Instance disk_ops : FileOps Disk := disk_files false.
#[export] Instance disk_laws : FileLaws Disk := disk_file_laws false.

#[export] Instance disk_works : FilesWork Disk.
Proof.
  split.
  - intros p flags d Ho. cbn in *. unfold disk_open. destruct (d_files d !! p); [by eexists|].
    rewrite bool_decide_eq_true_2; [by eexists|]. destruct Ho as [?|[? ?]]; done.
  - intros h d [fh Hh]. cbn in *. rewrite Hh. apply blen_nonneg.
  - intros h n d [[p pos app] Hh] Hn. cbn in *. by rewrite Hh.
  - intros h p pos app c n d Hh Hf Hn. cbn in *. unfold disk_read. by rewrite Hh, Hf.
  - intros h data d. cbn. unfold disk_write. destruct (d_handles d !! h) as [[p pos []]|]; [|by left..].
    destruct (blen data <=? d_room d); [|by left]. destruct (0 <? blen data); [by right|by left].
  - intros p q d [c Hp]. cbn in *. by rewrite Hp.
  - intros p d Hu. cbn. apply lookup_delete_eq.
Qed.

(** ** Buffers as queues *)

(** What the users of a buffer do: put data in, and take some of what [peek]
    shows. *)
Inductive BufferOp := Put (data : list Z) | Take (n : Z).
Inductive BufferOut := Putted (err : option BufferError) | Taken (data : list Z).

Definition run_buffer_op {B W} `{!DataBuffer B W} (op : BufferOp) (b : B) (w : W) : res (BufferOut * B * W) :=
  match op with
  | Put data => '(e, b, w) ← db_push data b w; Ok (Putted e, b, w)
  | Take n =>
      '(e, chunk, b, w) ← db_peek b w;
      match e with
      | Some _ => Ok (Taken [], b, w)
      | None =>
          let n := n `min` blen chunk in
          '(b, w) ← db_drain n b w; Ok (Taken (btake n chunk), b, w)
      end
  end.

Fixpoint run_buffer {B W} `{!DataBuffer B W} (ops : list BufferOp) (b : B) (w : W) : res (list BufferOut * B * W) :=
  match ops with
  | [] => Ok ([], b, w)
  | op :: ops =>
      '(o, b, w) ← run_buffer_op op b w;
      '(os, b, w) ← run_buffer ops b w;
      Ok (o :: os, b, w)
  end.

(** A queue of at most [cap] bytes: what does not fit is cut off; a failure to
    put data keeps a part of it; what is taken is the front, at least one byte
    when there is one. *)
Inductive queue_run (cap : Z) : list Z → list BufferOp → list BufferOut → list Z → Prop :=
| queue_done q : queue_run cap q [] [] q
| queue_put q data ops os q' :
    queue_run cap (q ++ btake (blen data `min` (cap - blen q)) data) ops os q' →
    queue_run cap q (Put data :: ops) (Putted None :: os) q'
| queue_put_failed q data k e ops os q' :
    queue_run cap (q ++ btake k data) ops os q' → queue_run cap q (Put data :: ops) (Putted (Some e) :: os) q'
| queue_take q n front ops os q' :
    blen front ≤ n → (0 < n → front = [] → q = []) → queue_run cap q ops os q' →
    queue_run cap (front ++ q) (Take n :: ops) (Taken front :: os) q'.

Definition put_size (ops : list BufferOp) : Z :=
  foldr (λ op n, match op with Put data => blen data + n | Take _ => n end) 0 ops.

Section Queue.
Context {B W : Type} `{!DataBuffer B W, !DataBufferLaws B W}.

Lemma put_size_nonneg ops : 0 ≤ put_size ops.
Proof.
  induction ops as [|[data|n] ops IH]; cbn [put_size foldr]; [done| |done].
  pose proof (blen_nonneg data). unfold put_size in IH. lia.
Qed.

Lemma take_spec n b w :
  db_ok b w → 0 ≤ n →
  okP (run_buffer_op (Take n) b w) (λ '(o, b', w'), db_ok b' w' ∧ db_capacity b' = db_capacity b ∧
    ∃ front, o = Taken front ∧ db_content b w = front ++ db_content b' w' ∧ blen front ≤ n ∧
      (0 < n → front = [] → db_content b' w' = [])).
Proof.
  intros Hi Hn. cbn [run_buffer_op]. eapply okP_bind; [by apply db_peek_law|].
  intros [[[e chunk] b1] w1] (-> & Hi1 & _ & Hcap & _ & Hc & [rest Hr] & Hnil & Hready). cbn beta iota.
  pose proof (blen_nonneg chunk). eapply okP_bind; [apply db_drain_law; [done|lia]|].
  intros [b2 w2] (Hi2 & _ & Hcap2 & _ & Hc2). apply okP_ret. split_and!; [done|congruence|].
  eexists. split; [done|]. rewrite blen_btake by lia. split_and!; [|lia|].
  - rewrite Hc2, Hc, Hr, bdrop_app_le by lia. by rewrite app_assoc, btake_bdrop.
  - intros Hn0 Hf. apply (f_equal blen) in Hf. rewrite blen_btake in Hf by lia. change (blen []) with 0 in Hf.
    assert (chunk = []) as E by (apply blen_nil; lia). rewrite Hc2, Hc, (Hnil E). apply bdrop_all.
    change (blen []) with 0. lia.
Qed.

Lemma run_buffer_queue ops b w :
  db_ok b w → blen (db_content b w) + put_size ops < 2 ^ 63 → Forall (λ op, ∀ n, op = Take n → 0 ≤ n) ops →
  okP (run_buffer ops b w) (λ '(os, b', w'), db_ok b' w' ∧
    queue_run (db_capacity b) (db_content b w) ops os (db_content b' w')).
Proof.
  revert b w. induction ops as [|op ops IH]; intros b w Hi Hlen Hf; cbn [run_buffer].
  { apply okP_ret. split; [done|constructor]. }
  inversion_clear Hf as [|?? Hop Hops]. pose proof (put_size_nonneg ops). unfold put_size in *. cbn [foldr] in Hlen. destruct op as [data|n].
  - cbn [run_buffer_op]. pose proof (blen_nonneg data).
    destruct (db_push_law data b w Hi) as ([[e b1] w1] & -> & Hi1 & _ & Hcap & _ & k & Hk & Hc & He); [lia|]. mstep.
    eapply okP_bind; [apply IH; [done| |done]|].
    { rewrite Hc, blen_app, blen_btake by done. lia. }
    intros [[os b2] w2] [Hi2 Hq]. apply okP_ret. split; [done|]. rewrite Hcap, Hc in Hq. destruct e as [e|].
    + by eapply queue_put_failed.
    + apply queue_put. by rewrite <- (He eq_refl).
  - eapply okP_bind; [apply (take_spec n b w Hi); by apply Hop|].
    intros [[o b1] w1] (Hi1 & Hcap & front & -> & Hc & Hl & Hnil). cbn beta iota.
    rewrite Hc, blen_app in Hlen. pose proof (blen_nonneg front).
    eapply okP_bind; [apply IH; [done|lia|done]|]. intros [[os b2] w2] [Hi2 Hq]. apply okP_ret. split; [done|].
    rewrite Hc. constructor; [done|done|]. by rewrite <- Hcap.
Qed.

End Queue.


(** Claim C38. A write to the file that is cut short loses data: when the memory of a buffer
    is full and its file is open and need not be stripped, pushing data of which the disk
    takes only the first [r] bytes reports no failure, and of the data only these [r] bytes
    are in the buffer afterwards. *)
Theorem short_write_loses {W} `{!FileOps W, !FileLaws W} data b (w w' : W) h f r :
  memfile_ok b w → m_total_size (m_mem_buffer b) = m_threshold b → m_fd b = Some h →
  fl_files w !! m_path b = Some f → file_get_size h w = blen f →
  need_to_strip_file (blen f) (blen data) b = false → blen data < 2 ^ 63 →
  file_write h data w = (r, w') → 0 < r < blen data →
  memfile_push data b w = Ok (None, b, w') ∧ memfile_content b w' = memfile_content b w ++ btake r data.
Proof.
  intros [Hi _] Hfull Hfd Hf Hsz Hneed Hlen Hw Hr. pose proof (ho_file _ _ Hi) as Hfile. unfold file_ok in Hfile.
  rewrite Hfd in Hfile. destruct Hfile as (pos & f' & Hh & Hf' & Hoff & Hmax & _). rewrite Hf in Hf'. injection Hf' as <-.
  assert (data ≠ []) as Hd by (intros ->; change (blen []) with 0 in Hr; lia).
  pose proof (fl_write _ _ _ _ _ _ Hh Hf Hd) as Hl. rewrite Hw in Hl. destruct (Z.ltb_spec 0 r); [|lia].
  destruct Hl as (_ & F & _). pose proof (ho_sizes _ _ Hi). pose proof (ho_threshold _ _ Hi). pose proof (blen_nonneg f).
  assert (blen f + blen data ≤ m_max_file_size b) as Hfit.
  { unfold need_to_strip_file in Hneed. apply orb_false_iff in Hneed as [Hn _]. apply Z.ltb_ge in Hn.
    by rewrite u64_id in Hn by lia. }
  split.
  - unfold memfile_push, transfer_mem2mem. rewrite (free_space _ _ Hi), Hfull, Z.sub_diag. cbn [Z.eqb].
    unfold write_in_file. rewrite bool_decide_false by done. rewrite Hfd. cbn beta iota. rewrite Hfd, Hsz, Hneed.
    destruct (Z.ltb_spec (blen f) 0); [lia|]. unfold append_to_file. rewrite Hfd, Hsz.
    destruct (Z.ltb_spec (blen f) 0); [lia|]. destruct (Z.leb_spec (m_max_file_size b) (blen f)); [lia|].
    rewrite btake_all by lia. rewrite bool_decide_false by done. rewrite Hw. by destruct (Z.leb_spec r 0); [lia|].
  - unfold memfile_content, stored. rewrite F, lookup_insert_eq, Hf. cbn [default]. unfold id.
    by rewrite bdrop_app_le, app_assoc by lia.
Qed.

(** Pushing a vector that fits into the memory of a file buffer
    erases past the end of an empty vector. *)
Theorem push_vector_overruns {W} `{!FileOps W, !FileLaws W, !FilesWork W} b (w : W) data :
  memfile_ok b w → data ≠ [] → blen data ≤ m_threshold b - m_total_size (m_mem_buffer b) → blen data < 2 ^ 63 →
  memfile_push_vector data b w = UB.
Proof.
  intros [Hi _] Hd Hfit Hlen. unfold memfile_push_vector, transfer_mem2mem_vector. rewrite (free_space _ _ Hi).
  assert (0 < blen data) as Hpos.
  { pose proof (blen_nonneg data). destruct (Z.eq_dec (blen data) 0) as [E%blen_nil|]; [done|lia]. }
  destruct (Z.eqb_spec (m_threshold b - m_total_size (m_mem_buffer b)) 0); [lia|].
  destruct (Z.leb_spec (blen data) (m_threshold b - m_total_size (m_mem_buffer b))); [|lia].
  unfold mem_push. change (blen []) with 0. by destruct (Z.ltb_spec 0 (blen data)); [|lia].
Qed.

(** ** Examples *)

Definition empty_disk (room : Z) : Disk := mkDisk ∅ ∅ room.

(** Six bytes in memory, the rest in a file of at most nine. *)
Definition spill_ops : list BufferOp :=
  [Put [1; 2; 3; 4; 5; 6]; Put [7; 8; 9; 10]; Take 4; Put [11; 12; 13]; Take 6; Put [14; 15]; Take 100].


Lemma push_vector_overruns_witness :
  memfile_push_vector [1; 2] (memfile_new "conn"%string 6 9) (empty_disk 12) = UB.
Proof.
  apply push_vector_overruns; try done.
  by apply memfile_new_ok.
Defined.

Definition full_buffer : MemfileBuffer :=
  mkMemfileBuffer (mkMemoryBuffer 2 [[1; 2]]) 2 9 (Some 0) 0 "conn"%string.
Definition nearly_full : Disk :=
  mkDisk {["conn"%string := []]} {[0 := mkFileHandle "conn"%string 0 true]} 3.

Lemma full_buffer_ok : memfile_ok (FileLaws0 := disk_file_laws true) full_buffer nearly_full.
Proof.
  split; [|by right]. split; try done; cbn.
  - by split; [|repeat constructor].
  - exists 0, []. split_and!; try done. by intros h' fh [<- _]%lookup_singleton_Some.
  - intros h fh H. cbn in H. by apply lookup_singleton_Some in H as [_ <-].
Qed.

(** Three bytes of four fit. *)
Lemma short_write_loses_witness :
  ∃ d', memfile_push (FileOps0 := disk_files true) [3; 4; 5; 6] full_buffer nearly_full = Ok (None, full_buffer, d') ∧
    memfile_content (FileLaws0 := disk_file_laws true) full_buffer d' =
    memfile_content (FileLaws0 := disk_file_laws true) full_buffer nearly_full ++ [3; 4; 5].
Proof.
  eexists. apply (short_write_loses (FileLaws0 := disk_file_laws true) [3; 4; 5; 6] full_buffer nearly_full _ 0 [] 3);
    [apply full_buffer_ok|done..].
Defined.
