(* ===== verification/Http2.v ===== *)
(** * The HTTP/2 upstream

    [core/src/http2_upstream.cpp]: the connections of the tunnel as streams of one
    HTTP/2 session with the endpoint.  Each connection has a stream, a flag that
    says whether its reader takes data, and a buffer of what it has not taken.

    The HTTP session ([net/src/http2.cpp] over nghttp2), the socket and the two
    multiplexers are collaborators: calls on them go to the trace, what they
    answer is an [H2Answers] record, their events are inputs.  Of the session the
    model has the streams it knows; resetting one may close it at once, and
    closing the session closes all that are left, with an event for each.  The
    tunnel receives the upstream's events; [react] is what it does with one, given
    the trace so far: the calls it makes on the upstream and, for received data, how
    much it takes.  A call may raise an event in turn (closing a connection that is
    not there does), and the tunnel may call again from inside that one.

    The trace also has the input that the properties are about. *)
From S2P Require Import Prelude Fsm EventLoop VpnTypes DataBuffers.

(** Error codes of nghttp2 and [net/http_session.h], statuses, socket errors. *)
Definition NGHTTP2_NO_ERROR : Z := 0.
Definition NGHTTP2_CANCEL : Z := 8.
Definition NGHTTP2_ERR_BUFFER_ERROR : Z := -502.
Definition HTTP_ERROR_AUTH_REQUIRED : Z := 100.
Definition HTTP_SESSION_INVALID_STATE_ERROR : Z := -5.
Definition H2_OK_STATUS : Z := 200.
Definition HTTP_AUTH_REQUIRED_STATUS : Z := 407.
Definition HTTP_STATUS_502_BAD_GATEWAY : Z := 502.
Definition H2_NON_ID : Z := 2 ^ 64 - 1.

(** Values of the field [X-Warning] of a refused request. *)
Definition HOST_UNREACHABLE : Z := 301.
Definition CONNECTION_TIMEDOUT : Z := 302.

(** Events for the tunnel. *)
Inductive H2Event :=
| EvSessionOpened
| EvSessionClosed
| EvConnectionOpened (id : Z)
| EvConnectionClosed (id : Z)
| EvRead (id : Z) (data : list Z)
| EvDataSent (id : Z) (length : Z)
| EvHealthCheckError (e : VpnError)
| EvError (id : Z) (e : VpnError)
| EvProtectSocket.

(** What the tunnel calls while it handles an event. *)
Inductive H2Call :=
| CallFlowControl (id send_buffer_size send_window_size : Z)
| CallCloseAsync (id : Z) (graceful : bool).

Inductive H2Task :=
| TCompleteRead (id : Z)
| TCloseConnection (id : Z) (graceful : bool)
| THealthCheckFailed
| THealthCheckTimeout.

Inductive H2Out :=
| H2Raised (e : H2Event) (result : Z)
| H2Opened (id stream : Z)
| H2Got (id : Z) (data : list Z)
| H2Result (id : Z) (result : Z)
| H2Close (id : Z) (graceful : bool)
| SendHeaders (stream : Z)
| SendData (stream : Z) (data : list Z)
| SendEof (stream : Z)
| ResetStream (stream error : Z)
| SetRecvWindow (stream size : Z)
| ConsumeData (stream length : Z)
| CloseHttpSession
| OnUdpMux (what : string)
| OnIcmpMux (what : string)
| OnSocket (what : string).

Record H2Answers := mkH2Answers {
  udp_stream : option Z;
  icmp_stream : option Z;
  udp_has : Z → bool;
  udp_opens : bool;
  headers_sent : bool;
  closes_at_once : Z → bool;
  writes : bool;
}.

Record TcpConnection (B : Type) := mkTcpConnection {
  tc_stream : Z;
  tc_read_enabled : bool;
  tc_stream_closed : bool;
  tc_client_closed : bool;
  tc_unread : option B;
  tc_complete_read_task : option Z;
  tc_pending_error : option VpnError;
  tc_close_task : option Z;
}.
Arguments mkTcpConnection {B}.
Arguments tc_stream {B}.
Arguments tc_read_enabled {B}.
Arguments tc_stream_closed {B}.
Arguments tc_client_closed {B}.
Arguments tc_unread {B}.
Arguments tc_complete_read_task {B}.
Arguments tc_pending_error {B}.
Arguments tc_close_task {B}.

Record HealthCheckInfo := mkHealthCheckInfo {
  hc_stream : Z;
  hc_timeout_task : option Z;
  hc_error : VpnError;
  hc_need_result : bool;
}.

(** What the upstream is given: the build, the text of an HTTP/2 error code,
    socket errors, [vpn->make_buffer], the order of an [unordered_map] and of the
    session's table of streams, the tunnel, and how many of its events, one inside
    another, the stack has room for. *)
Class H2Env (B : Type) := {
  h2_ndebug : bool;
  strerror : Z → string;
  AG_ECONNREFUSED : Z;
  AG_ENETUNREACH : Z;
  AG_ETIMEDOUT : Z;
  new_buffer : Z → B;
  conns_order : gmap Z (TcpConnection B) → list Z;
  streams_order : list Z → list Z;
  react : list H2Out → H2Event → list H2Call * Z;
  h2_nesting : nat;
}.

Section Http2.
Context {B W : Type} `{!DataBuffer B W, !H2Env B}.

Record Http2Upstream := mkHttp2 {
  h2_session : bool;
  h2_streams : list Z;
  h2_in_handler : Z;
  h2_closed : bool;
  h2_closing : bool;
  h2_cert_error : option bool;
  h2_pending_error : option VpnError;
  h2_conns : gmap Z (TcpConnection B);
  h2_ids : gmap Z Z;
  h2_next_stream : Z;
  h2_health : option HealthCheckInfo;
  h2_to_reset : list Z;
  h2_loop : VpnEventLoop H2Task;
  h2_disk : W;
  h2_out : list H2Out;
}.

Implicit Types u : Http2Upstream.

Definition set_h2_session (x : bool) u : Http2Upstream :=
  mkHttp2 x (h2_streams u) (h2_in_handler u) (h2_closed u) (h2_closing u) (h2_cert_error u)
    (h2_pending_error u) (h2_conns u) (h2_ids u) (h2_next_stream u) (h2_health u) (h2_to_reset u)
    (h2_loop u) (h2_disk u) (h2_out u).
Definition set_h2_streams (x : list Z) u : Http2Upstream :=
  mkHttp2 (h2_session u) x (h2_in_handler u) (h2_closed u) (h2_closing u) (h2_cert_error u)
    (h2_pending_error u) (h2_conns u) (h2_ids u) (h2_next_stream u) (h2_health u) (h2_to_reset u)
    (h2_loop u) (h2_disk u) (h2_out u).
Definition set_h2_in_handler (x : Z) u : Http2Upstream :=
  mkHttp2 (h2_session u) (h2_streams u) x (h2_closed u) (h2_closing u) (h2_cert_error u)
    (h2_pending_error u) (h2_conns u) (h2_ids u) (h2_next_stream u) (h2_health u) (h2_to_reset u)
    (h2_loop u) (h2_disk u) (h2_out u).
Definition set_h2_closed (x : bool) u : Http2Upstream :=
  mkHttp2 (h2_session u) (h2_streams u) (h2_in_handler u) x (h2_closing u) (h2_cert_error u)
    (h2_pending_error u) (h2_conns u) (h2_ids u) (h2_next_stream u) (h2_health u) (h2_to_reset u)
    (h2_loop u) (h2_disk u) (h2_out u).
Definition set_h2_closing (x : bool) u : Http2Upstream :=
  mkHttp2 (h2_session u) (h2_streams u) (h2_in_handler u) (h2_closed u) x (h2_cert_error u)
    (h2_pending_error u) (h2_conns u) (h2_ids u) (h2_next_stream u) (h2_health u) (h2_to_reset u)
    (h2_loop u) (h2_disk u) (h2_out u).
Definition set_h2_cert_error (x : option bool) u : Http2Upstream :=
  mkHttp2 (h2_session u) (h2_streams u) (h2_in_handler u) (h2_closed u) (h2_closing u) x
    (h2_pending_error u) (h2_conns u) (h2_ids u) (h2_next_stream u) (h2_health u) (h2_to_reset u)
    (h2_loop u) (h2_disk u) (h2_out u).
Definition set_h2_pending_error (x : option VpnError) u : Http2Upstream :=
  mkHttp2 (h2_session u) (h2_streams u) (h2_in_handler u) (h2_closed u) (h2_closing u)
    (h2_cert_error u) x (h2_conns u) (h2_ids u) (h2_next_stream u) (h2_health u) (h2_to_reset u)
    (h2_loop u) (h2_disk u) (h2_out u).
Definition set_h2_conns (x : gmap Z (TcpConnection B)) u : Http2Upstream :=
  mkHttp2 (h2_session u) (h2_streams u) (h2_in_handler u) (h2_closed u) (h2_closing u)
    (h2_cert_error u) (h2_pending_error u) x (h2_ids u) (h2_next_stream u) (h2_health u)
    (h2_to_reset u) (h2_loop u) (h2_disk u) (h2_out u).
Definition set_h2_ids (x : gmap Z Z) u : Http2Upstream :=
  mkHttp2 (h2_session u) (h2_streams u) (h2_in_handler u) (h2_closed u) (h2_closing u)
    (h2_cert_error u) (h2_pending_error u) (h2_conns u) x (h2_next_stream u) (h2_health u)
    (h2_to_reset u) (h2_loop u) (h2_disk u) (h2_out u).
Definition set_h2_next_stream (x : Z) u : Http2Upstream :=
  mkHttp2 (h2_session u) (h2_streams u) (h2_in_handler u) (h2_closed u) (h2_closing u)
    (h2_cert_error u) (h2_pending_error u) (h2_conns u) (h2_ids u) x (h2_health u) (h2_to_reset u)
    (h2_loop u) (h2_disk u) (h2_out u).
Definition set_h2_health (x : option HealthCheckInfo) u : Http2Upstream :=
  mkHttp2 (h2_session u) (h2_streams u) (h2_in_handler u) (h2_closed u) (h2_closing u)
    (h2_cert_error u) (h2_pending_error u) (h2_conns u) (h2_ids u) (h2_next_stream u) x (h2_to_reset
    u) (h2_loop u) (h2_disk u) (h2_out u).
Definition set_h2_to_reset (x : list Z) u : Http2Upstream :=
  mkHttp2 (h2_session u) (h2_streams u) (h2_in_handler u) (h2_closed u) (h2_closing u)
    (h2_cert_error u) (h2_pending_error u) (h2_conns u) (h2_ids u) (h2_next_stream u) (h2_health u)
    x (h2_loop u) (h2_disk u) (h2_out u).
Definition set_h2_loop (x : VpnEventLoop H2Task) u : Http2Upstream :=
  mkHttp2 (h2_session u) (h2_streams u) (h2_in_handler u) (h2_closed u) (h2_closing u)
    (h2_cert_error u) (h2_pending_error u) (h2_conns u) (h2_ids u) (h2_next_stream u) (h2_health u)
    (h2_to_reset u) x (h2_disk u) (h2_out u).
Definition set_h2_disk (x : W) u : Http2Upstream :=
  mkHttp2 (h2_session u) (h2_streams u) (h2_in_handler u) (h2_closed u) (h2_closing u)
    (h2_cert_error u) (h2_pending_error u) (h2_conns u) (h2_ids u) (h2_next_stream u) (h2_health u)
    (h2_to_reset u) (h2_loop u) x (h2_out u).
Definition set_h2_out (x : list H2Out) u : Http2Upstream :=
  mkHttp2 (h2_session u) (h2_streams u) (h2_in_handler u) (h2_closed u) (h2_closing u)
    (h2_cert_error u) (h2_pending_error u) (h2_conns u) (h2_ids u) (h2_next_stream u) (h2_health u)
    (h2_to_reset u) (h2_loop u) (h2_disk u) x.

#[global] Instance h2_has_loop : HasLoop Http2Upstream H2Task.
Proof. refine {| get_loop := h2_loop; set_loop := set_h2_loop |}. reflexivity. Defined.

Implicit Types (conn : TcpConnection B).

Definition h2_assert (b : bool) : res unit := if b || h2_ndebug then Ok tt else Abort.

Definition h2_call (o : H2Out) u : Http2Upstream := set_h2_out (h2_out u ++ [o]) u.

(** [m_session.get()] used as a session. *)
Definition on_session (o : H2Out) u : res Http2Upstream := if h2_session u then Ok (h2_call o u) else UB.

Definition put_conn (id : Z) conn u : Http2Upstream := set_h2_conns (<[id := conn]> (h2_conns u)) u.

Definition set_read_enabled_flag (x : bool) conn : TcpConnection B :=
  mkTcpConnection (tc_stream conn) x (tc_stream_closed conn) (tc_client_closed conn) (tc_unread conn)
    (tc_complete_read_task conn) (tc_pending_error conn) (tc_close_task conn).
Definition set_stream_closed_flag conn : TcpConnection B :=
  mkTcpConnection (tc_stream conn) (tc_read_enabled conn) true (tc_client_closed conn) (tc_unread conn)
    (tc_complete_read_task conn) (tc_pending_error conn) (tc_close_task conn).
Definition set_client_closed_flag conn : TcpConnection B :=
  mkTcpConnection (tc_stream conn) (tc_read_enabled conn) (tc_stream_closed conn) true (tc_unread conn)
    (tc_complete_read_task conn) (tc_pending_error conn) (tc_close_task conn).
Definition set_unread (x : option B) conn : TcpConnection B :=
  mkTcpConnection (tc_stream conn) (tc_read_enabled conn) (tc_stream_closed conn) (tc_client_closed conn) x
    (tc_complete_read_task conn) (tc_pending_error conn) (tc_close_task conn).
Definition set_complete_read_task (x : option Z) conn : TcpConnection B :=
  mkTcpConnection (tc_stream conn) (tc_read_enabled conn) (tc_stream_closed conn) (tc_client_closed conn)
    (tc_unread conn) x (tc_pending_error conn) (tc_close_task conn).
Definition set_conn_error (x : option VpnError) conn : TcpConnection B :=
  mkTcpConnection (tc_stream conn) (tc_read_enabled conn) (tc_stream_closed conn) (tc_client_closed conn)
    (tc_unread conn) (tc_complete_read_task conn) x (tc_close_task conn).
Definition set_close_task (x : option Z) conn : TcpConnection B :=
  mkTcpConnection (tc_stream conn) (tc_read_enabled conn) (tc_stream_closed conn) (tc_client_closed conn)
    (tc_unread conn) (tc_complete_read_task conn) (tc_pending_error conn) x.

(** A connection that has a buffer with something in it. *)
Definition has_unread conn u : res bool :=
  match tc_unread conn with Some b => n ← db_size b (h2_disk u); Ok (0 <? n) | None => Ok false end.

Section Answers.
Variable ans : H2Answers.

(** ** Calls of the tunnel *)

Definition update_flow_control (id send_buffer_size send_window_size : Z) u : res Http2Upstream :=
  match h2_conns u !! id with
  | Some conn =>
      let conn := set_read_enabled_flag (0 <? send_buffer_size) conn in
      let u := put_conn id conn u in
      u ← (if tc_stream_closed conn then Ok u
           else on_session (SetRecvWindow (tc_stream conn) send_window_size) u);
      unread ← (if tc_read_enabled conn && bool_decide (tc_complete_read_task conn = None)
                then has_unread conn u else Ok false);
      if (unread : bool) then
        let '(task, u) := auto_submit (mkTask (TCompleteRead id) true) u in
        Ok (put_conn id (set_complete_read_task task conn) u)
      else Ok u
  | None =>
      if udp_has ans id then Ok (h2_call (OnUdpMux "set_read_enabled") u) else Ok u
  end.

(** [close_connection] of a known connection with [async]. *)
Definition close_async (id : Z) (graceful : bool) conn u : Http2Upstream :=
  let '(task, u) := auto_submit (mkTask (TCloseConnection id graceful) true) u in
  auto_reset (tc_close_task conn) (put_conn id (set_close_task task conn) u).

(** What the tunnel calls inside an event; [raise] is how the upstream raises one
    from there.  Closing a connection that is not known raises an event at once. *)
Definition run_call (raise : H2Event → Http2Upstream → res (Z * Http2Upstream)) (c : H2Call) u :
    res Http2Upstream :=
  match c with
  | CallFlowControl id size window => update_flow_control id size window u
  | CallCloseAsync id graceful =>
      if udp_has ans id then Ok (h2_call (OnUdpMux "close_connection") u)
      else match h2_conns u !! id with
           | Some conn => Ok (close_async id graceful conn u)
           | None => '(_, u) ← raise (EvConnectionClosed id) u; Ok u
           end
  end.

Fixpoint run_calls (raise : H2Event → Http2Upstream → res (Z * Http2Upstream)) (cs : list H2Call) u :
    res Http2Upstream :=
  match cs with
  | [] => Ok u
  | c :: cs => u ← run_call raise c u; run_calls raise cs u
  end.

(** [handler.func]: the result of [SERVER_EVENT_READ] is the tunnel's.  With no
    room left the stack overflows. *)
Fixpoint raise_in (room : nat) (e : H2Event) u : res (Z * Http2Upstream) :=
  match room with
  | O => UB
  | S room =>
      let '(calls, r) := react (h2_out u) e in
      u ← run_calls (raise_in room) calls (h2_call (H2Raised e r) u);
      Ok (r, u)
  end.

Definition h2_raise (e : H2Event) u : res (Z * Http2Upstream) := raise_in (S h2_nesting) e u.

Definition h2_notify (e : H2Event) u : res Http2Upstream := '(_, u) ← h2_raise e u; Ok u.

(** ** Connections and streams *)

Definition get_conn_by_stream_id (stream : Z) u : option (Z * TcpConnection B) :=
  id ← h2_ids u !! stream; conn ← h2_conns u !! id; Some (id, conn).

(** [~TcpConnection]: its buffer and its tasks go with it. *)
Definition destroy_connection conn u : Http2Upstream :=
  let u := auto_reset (tc_close_task conn) u in
  let u := auto_reset (tc_complete_read_task conn) u in
  match tc_unread conn with Some b => set_h2_disk (db_destroy b (h2_disk u)) u | None => u end.

Definition clean_tcp_connection_data (id : Z) u : Http2Upstream :=
  match h2_conns u !! id with
  | None => u
  | Some conn =>
      let u := set_h2_ids (delete (tc_stream conn) (h2_ids u)) u in
      destroy_connection conn (set_h2_conns (delete id (h2_conns u)) u)
  end.

Definition report_health_check_error (need_result : bool) (e : VpnError) u : res Http2Upstream :=
  h2_notify (if need_result then EvHealthCheckError e else EvError H2_NON_ID e) u.

(** [m_health_check_info.reset()]. *)
Definition reset_health_check u : Http2Upstream :=
  match h2_health u with
  | Some info => auto_reset (hc_timeout_task info) (set_h2_health None u)
  | None => u
  end.

(** [HTTP_EVENT_STREAM_PROCESSED] for the stream of a connection. *)
Definition conn_stream_processed (stream error_code : Z) u : res Http2Upstream :=
  match get_conn_by_stream_id stream u with
  | None => Ok u
  | Some (id, conn) =>
      let conn := set_stream_closed_flag conn in
      let u := put_conn id conn u in
      let err_event :=
        match tc_pending_error conn with
        | Some e => Some e
        | None => if negb (error_code =? NGHTTP2_NO_ERROR)
                  then Some (mkError AG_ECONNREFUSED (Some (strerror error_code))) else None
        end in
      match err_event with
      | Some e => u ← h2_notify (EvError id e) u; Ok (clean_tcp_connection_data id u)
      | None =>
          unread ← (if tc_client_closed conn then Ok false else has_unread conn u);
          if (unread : bool) then Ok u
          else u ← h2_notify (EvConnectionClosed id) u; Ok (clean_tcp_connection_data id u)
      end
  end.

(** [HTTP_EVENT_STREAM_PROCESSED]. *)
Definition stream_processed (stream error_code : Z) u : res Http2Upstream :=
  if bool_decide (udp_stream ans = Some stream) then Ok (h2_call (OnUdpMux "close") u)
  else if bool_decide (icmp_stream ans = Some stream) then Ok (h2_call (OnIcmpMux "close") u)
  else
    match h2_health u with
    | Some info =>
        if hc_stream info =? stream then
          if h2_closing u then Ok (reset_health_check u)
          else
            let u := reset_health_check u in
            let e := if (code (hc_error info) =? 0) && negb (error_code =? NGHTTP2_NO_ERROR)
                     then mkError VPN_EC_ERROR (Some (strerror error_code)) else hc_error info in
            if negb (code e =? 0) then report_health_check_error (hc_need_result info) e u else Ok u
        else conn_stream_processed stream error_code u
    | None => conn_stream_processed stream error_code u
    end.

(** [close_stream] of the session. *)
Definition close_stream (stream error_code : Z) u : res Http2Upstream :=
  u ← stream_processed stream error_code u;
  Ok (set_h2_streams (filter (λ s, s ≠ stream) (h2_streams u)) u).

(** [http_session_reset_stream]: the session may close the stream before it
    returns. *)
Definition reset_stream (stream error_code : Z) u : res Http2Upstream :=
  u ← on_session (ResetStream stream error_code) u;
  if bool_decide (stream ∈ h2_streams u) && closes_at_once ans stream
  then close_stream stream error_code u else Ok u.

Definition close_tcp_connection (id : Z) (graceful : bool) u : res Http2Upstream :=
  let u := h2_call (H2Close id graceful) u in
  match h2_conns u !! id with
  | Some conn =>
      if h2_session u then
        if negb (tc_stream_closed conn) then
          let u := put_conn id (set_client_closed_flag conn) u in
          reset_stream (tc_stream conn) (if graceful then NGHTTP2_NO_ERROR else NGHTTP2_CANCEL) u
        else
          u ← h2_notify (EvConnectionClosed id) u;
          Ok (clean_tcp_connection_data id u)
      else Ok (clean_tcp_connection_data id u)
  | None => Ok (clean_tcp_connection_data id u)
  end.

Definition h2_close_connection (id : Z) (graceful async : bool) u : res Http2Upstream :=
  if udp_has ans id then Ok (h2_call (OnUdpMux "close_connection") u)
  else match h2_conns u !! id with
       | None => h2_notify (EvConnectionClosed id) u
       | Some conn => if negb async then close_tcp_connection id graceful u else Ok (close_async id graceful conn u)
       end.

(** ** Received data *)

Definition handle_read (id : Z) (data : list Z) u : res (Z * Http2Upstream) :=
  '(r, u) ← h2_raise (EvRead id data) u;
  if r <? 0 then u ← close_tcp_connection id false u; Ok (r, u) else Ok (r, u).

(** [read_out_pending_data]; the connection is a reference into the table, whose
    entry the calls of the tunnel leave in place. *)
Fixpoint read_out_pending_data (fuel : nat) (id : Z) u : res (Z * Http2Upstream) :=
  match h2_conns u !! id with
  | None => UB
  | Some conn =>
      match tc_unread conn with
      | None => if tc_read_enabled conn then UB else Ok (0, u)
      | Some pending =>
          size ← (if tc_read_enabled conn then db_size pending (h2_disk u) else Ok 0);
          if size <=? 0 then Ok (0, u)
          else match fuel with
               | O => UB
               | S fuel =>
                   '(err, chunk, pending, w) ← db_peek pending (h2_disk u);
                   let u := set_h2_disk w (put_conn id (set_unread (Some pending) conn) u) in
                   match err with
                   | Some _ => Ok (-1, u)
                   | None =>
                       '(r, u) ← handle_read id chunk u;
                       if r <? 0 then Ok (r, u)
                       else
                         u ← (if 0 <? r then
                                match h2_conns u !! id with
                                | Some conn =>
                                    match tc_unread conn with
                                    | Some pending =>
                                        '(pending, w) ← db_drain r pending (h2_disk u);
                                        Ok (set_h2_disk w (put_conn id (set_unread (Some pending) conn) u))
                                    | None => UB
                                    end
                                | None => UB
                                end
                              else Ok u);
                         read_out_pending_data fuel id u
                   end
               end
      end
  end.

(** Enough for a reader that takes a byte or stops at each round. *)
Definition read_fuel (id : Z) u : res nat :=
  match h2_conns u !! id with
  | Some conn => match tc_unread conn with
                 | Some b => n ← db_size b (h2_disk u); Ok (S (Z.to_nat n))
                 | None => Ok O
                 end
  | None => Ok O
  end.

Definition read_out (id : Z) u : res (Z * Http2Upstream) :=
  fuel ← read_fuel id u; read_out_pending_data fuel id u.

(** What the reader has not taken goes to the buffer, made when it is needed. *)
Definition push_unread (id : Z) (unread : list Z) u : res (Z * Http2Upstream) :=
  match h2_conns u !! id with
  | None => UB
  | Some conn =>
      let pending := match tc_unread conn with Some b => b | None => new_buffer id end in
      '(err, pending, w) ← db_push unread pending (h2_disk u);
      let u := set_h2_disk w (put_conn id (set_unread (Some pending) conn) u) in
      Ok (match err with Some _ => -1 | None => 0 end, u)
  end.

(** [HTTP_EVENT_DATA] on a stream of a connection. *)
Definition conn_data (id : Z) (data : list Z) u : res (Z * Http2Upstream) :=
  let u := h2_call (H2Got id data) u in
  match h2_conns u !! id with
  | None => UB
  | Some conn =>
      '(r, u) ← (if bool_decide (is_Some (tc_unread conn)) then read_out id u else Ok (0, u));
      if r <? 0 then Ok (r, u)
      else
        match h2_conns u !! id with
        | None => UB
        | Some conn =>
            '(r, u) ←
              (if tc_read_enabled conn then
                 unread ← has_unread conn u;
                 _ ← h2_assert (negb unread);
                 handle_read id data u
               else Ok (0, u));
            if 0 <=? r then
              if r <? blen data then push_unread id (bdrop r data) u else Ok (0, u)
            else Ok (r, u)
        end
  end.

Definition data_event (stream : Z) (data : list Z) u : res Http2Upstream :=
  if bool_decide (udp_stream ans = Some stream) then Ok (h2_call (OnUdpMux "process_read_event") u)
  else if bool_decide (icmp_stream ans = Some stream) then Ok (h2_call (OnIcmpMux "process_read_event") u)
  else match get_conn_by_stream_id stream u with
       | None => _ ← h2_assert false; Ok u
       | Some (id, _) => '(r, u) ← conn_data id data u; Ok (h2_call (H2Result id r) u)
       end.

(** ** The session *)

Fixpoint close_connections (ids : list Z) u : res Http2Upstream :=
  match ids with
  | [] => Ok u
  | id :: ids => u ← h2_close_connection id false false u; close_connections ids u
  end.

Fixpoint close_streams (streams : list Z) u : res Http2Upstream :=
  match streams with
  | [] => Ok u
  | s :: streams => u ← close_stream s HTTP_SESSION_INVALID_STATE_ERROR u; close_streams streams u
  end.

(** [m_session.reset()]: the pointer is null before the session goes. *)
Definition reset_session u : res Http2Upstream :=
  if h2_session u then
    let u := h2_call CloseHttpSession (set_h2_session false u) in
    close_streams (streams_order (h2_streams u)) u
  else Ok u.

(** [m_tcp_connections.clear()]. *)
Definition clear_connections u : Http2Upstream :=
  let conns := h2_conns u in
  foldl (λ u id, match conns !! id with
                 | Some conn => destroy_connection conn u
                 | None => u
                 end) (set_h2_conns ∅ u) (conns_order conns).

Definition close_session u : res Http2Upstream :=
  let u := set_h2_closing true u in
  u ← close_connections (conns_order (h2_conns u)) u;
  u ← match udp_stream ans with Some s => reset_stream s NGHTTP2_CANCEL u | None => Ok u end;
  u ← match icmp_stream ans with Some s => reset_stream s NGHTTP2_CANCEL u | None => Ok u end;
  u ← reset_session u;
  let u := h2_call (OnSocket "reset") u in
  let u := set_h2_ids ∅ (clear_connections u) in
  let u := h2_call (OnIcmpMux "close") (h2_call (OnUdpMux "close") u) in
  let u := reset_health_check (set_h2_next_stream 1 u) in
  Ok (set_h2_closing false u).

Definition close_session_inner (error : option VpnError) u : res Http2Upstream :=
  if 0 <? h2_in_handler u then Ok (set_h2_pending_error error (set_h2_closed true u))
  else
    u ← close_session u;
    h2_notify (match error with Some e => EvError H2_NON_ID e | None => EvSessionClosed end) u.

Definition send_connect_request u : option Z * Http2Upstream :=
  if negb (h2_session u) then (None, u)
  else
    let stream := u32 (h2_next_stream u) in
    let u := h2_call (SendHeaders stream) (set_h2_next_stream (u64 (h2_next_stream u + 2)) u) in
    let u := set_h2_streams (h2_streams u ++ [stream]) u in
    (if headers_sent ans then Some stream else None, u).

Definition new_connection (stream : Z) : TcpConnection B :=
  mkTcpConnection stream false false false None None None None.

Definition h2_open_connection (id : Z) (udp : bool) u : bool * Http2Upstream :=
  if udp then (udp_opens ans, h2_call (OnUdpMux "open_connection") u)
  else
    let '(stream_id, u) := send_connect_request u in
    match stream_id with
    | Some stream =>
        let conn := match h2_conns u !! id with
                    | Some c => mkTcpConnection stream (tc_read_enabled c) (tc_stream_closed c) (tc_client_closed c)
                                  (tc_unread c) (tc_complete_read_task c) (tc_pending_error c) (tc_close_task c)
                    | None => new_connection stream
                    end in
        (true, h2_call (H2Opened id stream) (set_h2_ids (<[stream := id]> (h2_ids u)) (put_conn id conn u)))
    | None => (false, u)
    end.

Definition h2_send (id : Z) (data : list Z) (r : Z) u : res (Z * Http2Upstream) :=
  match h2_conns u !! id with
  | Some conn =>
      if negb (tc_stream_closed conn) then
        u ← on_session (SendData (tc_stream conn) data) u;
        Ok (if r =? 0 then blen data else if r =? NGHTTP2_ERR_BUFFER_ERROR then 0 else r, u)
      else Ok (-1, u)
  | None => if udp_has ans id then Ok (r, h2_call (OnUdpMux "send") u) else Ok (-1, u)
  end.

Definition h2_consume (id length : Z) u : res Http2Upstream :=
  if udp_has ans id then Ok u
  else match h2_conns u !! id with
       | None => Ok u
       | Some conn => if tc_stream conn =? 0 then Ok u else on_session (ConsumeData (tc_stream conn) length) u
       end.

Definition complete_read (id : Z) u : res Http2Upstream :=
  match h2_conns u !! id with
  | None => Ok u
  | Some conn =>
      let u := put_conn id (set_complete_read_task None conn) u in
      '(r, u) ← read_out id u;
      if r <? 0 then close_tcp_connection id false u
      else match h2_conns u !! id with
           | None => UB
           | Some conn =>
               match tc_unread conn with
               | None => UB
               | Some b =>
                   n ← db_size b (h2_disk u);
                   if (n =? 0) && tc_stream_closed conn then
                     u ← h2_notify (EvConnectionClosed id) u; Ok (clean_tcp_connection_data id u)
                   else Ok u
               end
           end
  end.

(** ** Health checks *)

Definition h2_do_health_check (need_result : bool) (health_check_timeout : Z) u : res Http2Upstream :=
  let u := reset_health_check u in
  let '(stream_id, u) := send_connect_request u in
  match stream_id with
  | None =>
      '(task, u) ← auto_schedule (mkTask THealthCheckFailed false) 0 u;
      Ok (set_h2_health (Some (mkHealthCheckInfo (2 ^ 32 - 1) task no_error need_result)) u)
  | Some stream =>
      '(task, u) ← auto_schedule (mkTask THealthCheckTimeout false) health_check_timeout u;
      Ok (set_h2_health (Some (mkHealthCheckInfo stream task no_error true)) u)
  end.

Definition health_check_failed (text : string) u : res Http2Upstream :=
  let need_result := match h2_health u with Some info => hc_need_result info | None => true end in
  report_health_check_error need_result (mkError VPN_EC_ERROR (Some text)) (reset_health_check u).

Definition run_h2_task (id : Z) (t : H2Task) u : res Http2Upstream :=
  match t with
  | TCompleteRead id => complete_read id u
  | TCloseConnection id graceful =>
      match h2_conns u !! id with
      | None => Ok u
      | Some conn => close_tcp_connection id graceful (put_conn id (set_close_task None conn) u)
      end
  | THealthCheckFailed => health_check_failed "Failed to send health check request" u
  | THealthCheckTimeout => health_check_failed "Health check has timed out" u
  end.

(** ** Events of the session and of the socket *)

(** [bad_http_response_to_connect_error], with the two header fields it reads. *)
Definition bad_http_response_to_connect_error (status : Z) (vpn_error : bool) (warning : option Z) : VpnError :=
  let err := mkError AG_ECONNREFUSED (Some "Bad response status"%string) in
  if negb (status =? HTTP_STATUS_502_BAD_GATEWAY) then err
  else if vpn_error then err
  else match warning with
       | Some w => if w =? HOST_UNREACHABLE then mkError AG_ENETUNREACH (text err)
                   else if w =? CONNECTION_TIMEDOUT then mkError AG_ETIMEDOUT (text err) else err
       | None => err
       end.

Inductive HttpEvent :=
| HHeaders (stream status : Z) (vpn_error : bool) (warning : option Z)
| HData (stream : Z) (data : list Z)
| HDataFinished (stream : Z)
| HStreamProcessed (stream error_code : Z)
| HDataSent (stream length : Z)
| HGoaway (error_code : Z)
| HOutput (failed : option VpnError).

Definition HTTP_AUTH_REQUIRED_MSG : string := "Authorization Required".

Definition h2_handle_response (stream status : Z) (vpn_error : bool) (warning : option Z) u : res Http2Upstream :=
  if status =? HTTP_AUTH_REQUIRED_STATUS
  then close_session_inner (Some (mkError VPN_EC_AUTH_REQUIRED (Some HTTP_AUTH_REQUIRED_MSG))) u
  else if bool_decide (udp_stream ans = Some stream) then Ok (h2_call (OnUdpMux "handle_response") u)
  else if bool_decide (icmp_stream ans = Some stream) then Ok (h2_call (OnIcmpMux "handle_response") u)
  else
    let of_conn :=
      match get_conn_by_stream_id stream u with
      | None => Ok (set_h2_to_reset (h2_to_reset u ++ [stream]) u)
      | Some (id, conn) =>
          if status =? H2_OK_STATUS then h2_notify (EvConnectionOpened id) u
          else Ok (put_conn id (set_conn_error
                 (Some (bad_http_response_to_connect_error status vpn_error warning)) conn) u)
      end in
    match h2_health u with
    | Some info =>
        if hc_stream info =? stream then
          Ok (if negb (status =? H2_OK_STATUS)
              then set_h2_health (Some (mkHealthCheckInfo (hc_stream info) (hc_timeout_task info)
                     (mkError VPN_EC_ERROR (Some "Bad response code"%string)) (hc_need_result info))) u
              else u)
        else of_conn
    | None => of_conn
    end.

Definition http_handler (e : HttpEvent) u : res Http2Upstream :=
  match e with
  | HHeaders stream status vpn_error warning => h2_handle_response stream status vpn_error warning u
  | HData stream data => if bool_decide (stream ∈ h2_streams u) then data_event stream data u else Ok u
  | HDataFinished stream => on_session (SendEof stream) u
  | HStreamProcessed stream error_code =>
      if bool_decide (stream ∈ h2_streams u) then close_stream stream error_code u else Ok u
  | HDataSent stream length =>
      if bool_decide (udp_stream ans = Some stream) then Ok u
      else match get_conn_by_stream_id stream u with
           | Some (id, _) => h2_notify (EvDataSent id length) u
           | None => Ok u
           end
  | HGoaway error_code =>
      close_session_inner
        (if negb (error_code =? NGHTTP2_NO_ERROR) then
           Some (if error_code =? HTTP_ERROR_AUTH_REQUIRED
                 then mkError VPN_EC_AUTH_REQUIRED (Some HTTP_AUTH_REQUIRED_MSG)
                 else mkError VPN_EC_ERROR (Some (strerror error_code)))
         else None) u
  | HOutput failed =>
      match failed with
      | Some e => close_session_inner (Some (mkError VPN_EC_ERROR (text e))) u
      | None => Ok u
      end
  end.

Fixpoint http_input (es : list HttpEvent) u : res Http2Upstream :=
  match es with
  | [] => Ok u
  | e :: es => u ← http_handler e u; http_input es u
  end.

(** What [tcp_socket_peek] gives: a chunk comes with the events the session
    raises for it, the session's result, and whether it can be drained. *)
Inductive NetItem := NetNoData | NetEof | NetChunk (events : list HttpEvent) (r : Z) (drained : bool).

Fixpoint reset_streams (streams : list Z) u : res Http2Upstream :=
  match streams with
  | [] => Ok u
  | s :: streams => u ← reset_stream s NGHTTP2_CANCEL u; reset_streams streams u
  end.

Definition READ_BUDGET : nat := 64.

(** One round of the loop of [TCP_SOCKET_EVENT_READABLE]; whether it goes on. *)
Definition read_chunk (events : list HttpEvent) (r : Z) (drained : bool) u : res (bool * Http2Upstream) :=
  if negb (h2_session u) then UB
  else
    u ← http_input events u;
    if r <=? 0 then
      u ← close_session_inner (Some (mkError VPN_EC_ERROR (Some (strerror r)))) (set_h2_to_reset [] u);
      Ok (false, u)
    else
      let u := reset_health_check u in
      u ← reset_streams (h2_to_reset u) u;
      let u := set_h2_to_reset [] u in
      if negb drained then
        u ← close_session_inner
              (Some (mkError VPN_EC_ERROR (Some "Could not drain data from socket buffer"%string))) u;
        Ok (false, u)
      else Ok (true, u).

(** The loop, over what the socket has while it may be read. *)
Fixpoint readable_loop (items : list NetItem) u : res Http2Upstream :=
  match items with
  | [] | NetNoData :: _ => Ok u
  | NetEof :: _ => close_session_inner None u
  | NetChunk events r drained :: items =>
      '(go_on, u) ← read_chunk events r drained u;
      if (go_on : bool) then readable_loop items u else Ok u
  end.

Fixpoint notify_sent (ids : list Z) u : res Http2Upstream :=
  match ids with
  | [] => Ok u
  | id :: ids => u ← h2_notify (EvDataSent id 0) u; notify_sent ids u
  end.

Inductive NetEvent :=
| NetConnected (alpn_h2 created settings_sent : bool)
| NetReadable (items : list NetItem)
| NetError (e : VpnError)
| NetSent
| NetWriteFlush (mux_window : Z)
| NetProtect.

(** [establish_http_session]: when the session is not created there are no
    settings to send, and the result is that of success. *)
Definition establish_http_session (created settings_sent : bool) u : res (bool * Http2Upstream) :=
  _ ← h2_assert (negb (h2_session u));
  Ok (negb created || settings_sent, if created then set_h2_streams [] (set_h2_session true u) else u).

Definition net_event (what : NetEvent) u : res Http2Upstream :=
  match what with
  | NetConnected alpn_h2 created settings_sent =>
      if negb alpn_h2 then close_session_inner (Some (mkError VPN_EC_ERROR (Some "Unexpected protocol"%string))) u
      else
        '(ok, u) ← establish_http_session created settings_sent u;
        if (ok : bool) then h2_notify EvSessionOpened u
        else close_session_inner (Some (mkError VPN_EC_ERROR (Some "Failed to initiate HTTP2 session"%string))) u
  | NetReadable items => readable_loop (take READ_BUDGET items) u
  | NetError e =>
      match h2_cert_error u with
      | Some not_yet_valid =>
          close_session_inner
            (Some (mkError (if (not_yet_valid : bool) then VPN_EC_CERTIFICATE_NOT_YET_VALID
                            else VPN_EC_CERTIFICATE_VERIFICATION_FAILED) (text e))) u
      | None => close_session_inner (Some (mkError VPN_EC_ERROR (text e))) u
      end
  | NetSent => Ok u
  | NetWriteFlush mux_window =>
      u ← notify_sent (conns_order (h2_conns u)) u;
      if bool_decide (is_Some (udp_stream ans)) && (0 <? mux_window)
      then Ok (h2_call (OnUdpMux "report_sent_bytes") u) else Ok u
  | NetProtect => h2_notify EvProtectSocket u
  end.

Definition net_handler (what : NetEvent) u : res Http2Upstream :=
  u ← net_event what (set_h2_in_handler (h2_in_handler u + 1) u);
  let u := set_h2_in_handler (h2_in_handler u - 1) u in
  if h2_closed u
  then close_session_inner (h2_pending_error u) (set_h2_pending_error None (set_h2_closed false u))
  else Ok u.

(** [verify_callback], with the result of the verification. *)
Definition verify_callback (ok not_yet_valid : bool) u : Http2Upstream :=
  set_h2_cert_error (if ok then None else Some not_yet_valid) u.

(** [open_session]: whether there is a connected socket to continue with and it can
    be continued, and whether a new socket and its TLS context are made and connect. *)
Definition h2_open_session (handed_off : option bool) (made ssl connects : bool) u : bool * Http2Upstream :=
  let u := set_h2_cert_error None u in
  let u := if bool_decide (is_Some handed_off) then h2_call (OnSocket "connect_continue") u else u in
  if bool_decide (handed_off = Some true) then (true, u)
  else
    let u := h2_call (OnSocket "create") u in
    if negb made then (false, u)
    else if negb ssl then (false, u)
    else
      let u := h2_call (OnSocket "connect") u in
      if connects then (true, u) else (false, h2_call (OnSocket "reset") u).

End Answers.

Definition http2_new (l : VpnEventLoop H2Task) (w : W) : Http2Upstream :=
  mkHttp2 false [] 0 false false None None ∅ ∅ 1 None [] l w [].

End Http2.
