(* ===== verification/Http2Props.v ===== *)
(** * The connections of the HTTP/2 upstream

    What a connection of the upstream ([Http2]) has received, given to its reader
    and been told, read off the trace; and what each operation on one connection
    does to it, while it leaves the others alone. *)
From S2P Require Import Prelude Fsm EventLoop LoopTasks VpnTypes DataBuffers DataBuffersProps Http2.

(** ** Reading the trace *)

Definition event_conn (e : H2Event) : option Z :=
  match e with
  | EvConnectionOpened id | EvConnectionClosed id | EvRead id _ | EvDataSent id _ => Some id
  | EvError id _ => if bool_decide (id = H2_NON_ID) then None else Some id
  | _ => None
  end.

(** The connection an entry of the trace is about. *)
Definition out_conn (o : H2Out) : option Z :=
  match o with
  | H2Raised e _ => event_conn e
  | H2Opened id _ | H2Got id _ | H2Result id _ | H2Close id _ => Some id
  | _ => None
  end.

Definition got_of (id : Z) (o : H2Out) : list Z :=
  match o with H2Got i data => if bool_decide (i = id) then data else [] | _ => [] end.
Definition taken_of (id : Z) (o : H2Out) : list Z :=
  match o with
  | H2Raised (EvRead i data) r => if bool_decide (i = id) then btake r data else []
  | _ => []
  end.

(** The bytes that arrived on a connection, and those its reader took. *)
Definition received (id : Z) (out : list H2Out) : list Z := concat (got_of id <$> out).
Definition delivered (id : Z) (out : list H2Out) : list Z := concat (taken_of id <$> out).

(** The reader refused data, or data could not be kept. *)
Definition fails (id : Z) (o : H2Out) : bool :=
  match o with
  | H2Raised (EvRead i _) r | H2Result i r => bool_decide (i = id) && (r <? 0)
  | _ => false
  end.
Definition broken (id : Z) (out : list H2Out) : Prop := Exists (λ o, fails id o = true) out.

Definition opens (id : Z) (o : H2Out) : bool :=
  match o with H2Opened i _ => bool_decide (i = id) | _ => false end.
Definition opened (id : Z) (out : list H2Out) : Prop := Exists (λ o, opens id o = true) out.

(** The events that end a connection. *)
Definition ends (id : Z) (o : H2Out) : bool :=
  match o with
  | H2Raised (EvConnectionClosed i) _ => bool_decide (i = id)
  | H2Raised (EvError i _) _ => bool_decide (i = id ∧ i ≠ H2_NON_ID)
  | _ => false
  end.
Definition terminals (id : Z) (out : list H2Out) : nat := length (filter (λ o, ends id o = true) out).

(** The upstream's user closed the connection, or the session. *)
Definition closes (id : Z) (o : H2Out) : bool :=
  match o with H2Close i _ => bool_decide (i = id) | _ => false end.
Definition close_called (id : Z) (out : list H2Out) : Prop := Exists (λ o, closes id o = true) out.

Definition total_got (out : list H2Out) : Z :=
  foldr (λ o n, match o with H2Got _ data => blen data + n | _ => n end) 0 out.

(** What arrived and was not taken was never more than [cap] bytes. *)
Definition within (cap : Z) (out : list H2Out) : Prop :=
  ∀ pre id, pre `prefix_of` out → blen (received id pre) - blen (delivered id pre) ≤ cap.

Lemma received_app id l k : received id (l ++ k) = received id l ++ received id k.
Proof. unfold received. by rewrite fmap_app, concat_app. Qed.

Lemma delivered_app id l k : delivered id (l ++ k) = delivered id l ++ delivered id k.
Proof. unfold delivered. by rewrite fmap_app, concat_app. Qed.

Lemma terminals_app id l k : terminals id (l ++ k) = (terminals id l + terminals id k)%nat.
Proof. unfold terminals. by rewrite filter_app, length_app. Qed.

Lemma broken_app id l k : broken id (l ++ k) ↔ broken id l ∨ broken id k.
Proof. apply Exists_app. Qed.

Lemma opened_app id l k : opened id (l ++ k) ↔ opened id l ∨ opened id k.
Proof. apply Exists_app. Qed.

Lemma close_called_app id l k : close_called id (l ++ k) ↔ close_called id l ∨ close_called id k.
Proof. apply Exists_app. Qed.

Lemma within_app cap l k : within cap (l ++ k) → within cap l.
Proof. intros H pre id Hp. apply H. by apply prefix_app_r. Qed.

Lemma within_now cap id l : within cap l → blen (received id l) - blen (delivered id l) ≤ cap.
Proof. intros H. by apply H. Qed.

Lemma total_got_app l k : total_got (l ++ k) = total_got l + total_got k.
Proof. induction l as [|o l IH]; [done|]. cbn. unfold total_got in *. destruct o; cbn; rewrite ?IH; lia. Qed.

Lemma received_le id l : blen (received id l) ≤ total_got l.
Proof.
  induction l as [|o l IH]; [done|]. change (received id (o :: l)) with (got_of id o ++ received id l).
  rewrite (total_got_app [o] l : total_got (o :: l) = _), blen_app.
  assert (blen (got_of id o) ≤ total_got [o]); [|lia].
  destruct o as [| |i data| | | | | | | | | | | |]; try done. cbn [got_of].
  change (total_got [H2Got i data]) with (blen data + 0). pose proof (blen_nonneg data).
  case_bool_decide; [lia|]. change (blen []) with 0. lia.
Qed.

(** An entry that has nothing to do with a connection. *)
Definition unrelated (id : Z) (o : H2Out) : Prop := out_conn o ≠ Some id.

Lemma unrelated_received id es : Forall (unrelated id) es → received id es = [].
Proof.
  induction 1 as [|o es Ho _ IH]; [done|]. change (received id (o :: es)) with (got_of id o ++ received id es).
  rewrite IH. destruct o; try done. cbn. rewrite bool_decide_false; [done|]. intros ->. by destruct Ho.
Qed.

Lemma unrelated_delivered id es : Forall (unrelated id) es → delivered id es = [].
Proof.
  induction 1 as [|o es Ho _ IH]; [done|]. change (delivered id (o :: es)) with (taken_of id o ++ delivered id es).
  rewrite IH. destruct o as [[]| | | | | | | | | | | | | |]; try done. cbn.
  rewrite bool_decide_false; [done|]. intros ->. by destruct Ho.
Qed.

Lemma unrelated_one id o :
  unrelated id o → fails id o = false ∧ opens id o = false ∧ ends id o = false ∧ closes id o = false.
Proof.
  unfold unrelated. destruct o as [e r| | | | | | | | | | | | | |]; cbn; try done.
  - destruct e; cbn; try done; intros H.
    + by rewrite bool_decide_false by congruence.
    + by rewrite bool_decide_false by congruence.
    + split_and!; try done. apply bool_decide_false. intros [-> Hne]. rewrite bool_decide_false in H by done. done.
  - intros H. by rewrite bool_decide_false by congruence.
  - intros H. by rewrite bool_decide_false by congruence.
  - intros H. by rewrite bool_decide_false by congruence.
Qed.

Lemma unrelated_quiet id es :
  Forall (unrelated id) es →
  (¬ broken id es) ∧ (¬ opened id es) ∧ (¬ close_called id es) ∧ terminals id es = 0%nat.
Proof.
  intros Hes. assert (∀ f : H2Out → bool, (∀ o, unrelated id o → f o = false) → ¬ Exists (λ o, f o = true) es) as H.
  { intros f Hf [o [Ho He]]%Exists_exists. rewrite Forall_forall in Hes. rewrite (Hf o) in He; [done|by apply Hes]. }
  split_and!; try (apply H; intros o Ho; by destruct (unrelated_one id o Ho) as (?&?&?&?)).
  unfold terminals. induction Hes as [|o es Ho Hes IH]; [done|]. rewrite filter_cons_False; [|by rewrite (proj1 (proj2 (proj2 (unrelated_one id o Ho))))].
  apply IH. intros f Hf. specialize (H f Hf). contradict H. by apply Exists_cons_tl.
Qed.

(** Projections of updated records. *)
Ltac h2simpl :=
  cbn [h2_session h2_streams h2_in_handler h2_closed h2_closing h2_cert_error h2_pending_error
    h2_conns h2_ids h2_next_stream h2_health h2_to_reset h2_loop h2_disk h2_out tc_stream
    tc_read_enabled tc_stream_closed tc_client_closed tc_unread tc_complete_read_task
    tc_pending_error tc_close_task set_h2_session set_h2_streams set_h2_in_handler set_h2_closed
    set_h2_closing set_h2_cert_error set_h2_pending_error set_h2_conns set_h2_ids set_h2_next_stream
    set_h2_health set_h2_to_reset set_h2_loop set_h2_disk set_h2_out put_conn h2_call
    set_read_enabled_flag set_stream_closed_flag set_client_closed_flag set_unread
    set_complete_read_task set_conn_error set_close_task] in *.

(** ** What the tunnel promises *)

Definition call_conn (c : H2Call) : Z :=
  match c with CallFlowControl id _ _ => id | CallCloseAsync id _ => id end.

(** The flag that lets the connection read, after some calls. *)
Definition flag_after (flag : bool) (calls : list H2Call) : bool :=
  foldl (λ flag c, match c with CallFlowControl _ size _ => 0 <? size | _ => flag end) flag calls.

(** While it handles an event of a connection the tunnel calls the upstream on
    that connection only.  It takes at most the data there is, and when it does
    not take all of it, it turns the reading off. *)
Record react_ok {B} (E : H2Env B) : Prop := {
  react_own out e c : c ∈ (react out e).1 → event_conn e = Some (call_conn c);
  react_read out id data : (react out (EvRead id data)).2 ≤ blen data;
  react_off out id data flag :
    0 ≤ (react out (EvRead id data)).2 < blen data → flag_after flag (react out (EvRead id data)).1 = false;
}.

(** What the upstream is used with: such a tunnel, buffers of one capacity that
    have nothing in common, and tables listed in some order. *)
Class H2World (B W : Type) `{!DataBuffer B W, !DataBufferLaws B W, E : !H2Env B} := {
  cap : Z;
  Hreact : react_ok E;
  new_capacity id : db_capacity (new_buffer id) = cap;
  new_apart i j : i ≠ j → db_apart (new_buffer i) (new_buffer j);
  conns_order_perm m : conns_order m ≡ₚ (map_to_list m).*1;
  streams_order_perm l : streams_order l ≡ₚ l;
}.

Section Runs.
Context {B W : Type} `{!DataBuffer B W, !DataBufferLaws B W, E : !H2Env B, !H2World B W}.

Notation U := (@Http2Upstream B W).
Notation Conn := (TcpConnection B).
Implicit Types (u : U) (conn : Conn) (b : B).

(** ** Operations on one connection *)

(** The buffer of a connection, also before it is made. *)
Definition buf id conn : B := default (new_buffer id) (tc_unread conn).
Definition own id u : B := match h2_conns u !! id with Some conn => buf id conn | None => new_buffer id end.

Definition clear_of b id u : Prop := db_apart b (own id u) ∧ db_apart b (new_buffer id).

Definition task_conn (t : H2Task) : option Z :=
  match t with TCompleteRead id | TCloseConnection id _ => Some id | _ => None end.

Definition rest u :=
  (h2_session u, h2_in_handler u, h2_closed u, h2_closing u, h2_cert_error u, h2_pending_error u,
   h2_next_stream u, h2_health u, h2_to_reset u).

(** Nothing has changed but the connection [id] and what belongs to it. *)
Record local id u u' : Prop := {
  lo_conns j : j ≠ id → h2_conns u' !! j = h2_conns u !! j;
  lo_out : ∃ es, h2_out u' = h2_out u ++ es ∧ ∀ j, j ≠ id → Forall (unrelated j) es;
  lo_buffers b : clear_of b id u → clear_of b id u' ∧
    (db_ok b (h2_disk u) → db_ok b (h2_disk u') ∧ db_content b (h2_disk u') = db_content b (h2_disk u));
  lo_ids s j : j ≠ id → (h2_ids u' !! s = Some j ↔ h2_ids u !! s = Some j);
  lo_keep s : h2_ids u' !! s = Some id → h2_ids u !! s = Some id;
  lo_streams : h2_streams u' `sublist_of` h2_streams u;
  lo_stream s : h2_ids u !! s ≠ Some id → s ∈ h2_streams u → s ∈ h2_streams u';
  lo_tasks i t : task_conn t ≠ Some id →
    (tasks (h2_loop u') !! i = Some t ↔ tasks (h2_loop u) !! i = Some t);
  lo_loop : loop_ok (h2_loop u) → loop_ok (h2_loop u');
  lo_rest : rest u' = rest u;
  lo_dom : is_Some (h2_conns u' !! id) → is_Some (h2_conns u !! id);
}.

Lemma local_refl id u : local id u u.
Proof. split; try done. exists []. by rewrite app_nil_r. Qed.

Lemma local_trans id u1 u2 u3 : local id u1 u2 → local id u2 u3 → local id u1 u3.
Proof.
  intros [A1 (es1 & A2 & A2') A3 A4 A0 A5 A6 A7 A8 A9 AD] [B1 (es2 & B2 & B2') B3 B4 B0 B5 B6 B7 B8 B9 BD]. split.
  - intros j Hj. by rewrite B1, A1.
  - exists (es1 ++ es2). split; [by rewrite B2, A2, app_assoc|]. intros j Hj. apply Forall_app. auto.
  - intros b Hb. destruct (A3 b Hb) as [Hb2 Ho]. destruct (B3 b Hb2) as [Hb3 Ho2]. split; [done|].
    intros Hok. destruct (Ho Hok) as [Hok2 E2]. destruct (Ho2 Hok2) as [Hok3 E3]. split; [done|congruence].
  - intros s j Hj. by rewrite B4, A4.
  - auto.
  - by transitivity (h2_streams u2).
  - intros s Hs Hin. apply B6; [|by apply A6]. intros E2. by apply Hs, A0.
  - intros i t Ht. by rewrite B7, A7.
  - auto.
  - congruence.
  - auto.
Qed.

(** An update of one connection that leaves its buffer alone. *)
Lemma local_put id u conn conn' out' l' :
  h2_conns u !! id = Some conn → buf id conn' = buf id conn →
  (∃ es, out' = h2_out u ++ es ∧ ∀ j, j ≠ id → Forall (unrelated j) es) →
  (∀ i t, task_conn t ≠ Some id → (tasks l' !! i = Some t ↔ tasks (h2_loop u) !! i = Some t)) →
  (loop_ok (h2_loop u) → loop_ok l') →
  local id u (set_h2_out out' (set_h2_loop l' (put_conn id conn' u))).
Proof.
  intros Hc Hb Ho Ht Hl. split; try done; cbn.
  - intros j Hj. by rewrite lookup_insert_ne.
  - intros b Hcl. split; [|done]. unfold clear_of, own in *. cbn. rewrite lookup_insert_eq, Hb. by rewrite Hc in Hcl.
Qed.

(** What holds of a connection between the steps of an operation. *)
Record struct id u conn : Prop := {
  st_conn : h2_conns u !! id = Some conn;
  st_ids s : h2_ids u !! s = Some id ↔ s = tc_stream conn;
  st_open : tc_stream_closed conn = false → tc_stream conn ∈ h2_streams u;
  st_ok : db_ok (buf id conn) (h2_disk u);
  st_new : tc_unread conn = None → db_content (new_buffer id) (h2_disk u) = [];
  st_cap : db_capacity (buf id conn) = cap;
  st_small : blen (db_content (buf id conn) (h2_disk u)) ≤ blen (received id (h2_out u));
  st_complete i : tc_complete_read_task conn = Some i ↔ tasks (h2_loop u) !! i = Some (TCompleteRead id);
  st_close i : tc_close_task conn = Some i → ∃ g, tasks (h2_loop u) !! i = Some (TCloseConnection id g);
  st_loop : loop_ok (h2_loop u);
  st_pending : is_Some (tc_complete_read_task conn) → is_Some (tc_unread conn);
}.

Definition content id u conn : list Z := db_content (buf id conn) (h2_disk u).

(** Only the flag that enables reading and the tasks may differ. *)
Definition same_conn conn conn' : Prop :=
  tc_stream conn' = tc_stream conn ∧ tc_stream_closed conn' = tc_stream_closed conn ∧
  tc_client_closed conn' = tc_client_closed conn ∧ tc_unread conn' = tc_unread conn ∧
  tc_pending_error conn' = tc_pending_error conn.

Record calm id u conn u' conn' : Prop := {
  ca_local : local id u u';
  ca_struct : struct id u' conn';
  ca_same : same_conn conn conn';
  ca_disk : h2_disk u' = h2_disk u;
  ca_streams : h2_streams u' = h2_streams u;
  ca_ids : h2_ids u' = h2_ids u;
  ca_out : ∃ es, h2_out u' = h2_out u ++ es ∧ Forall (λ o, out_conn o = None) es;
}.

Lemma calm_refl id u conn : struct id u conn → calm id u conn u conn.
Proof. intros H. split; try done; [apply local_refl|]. exists []. by rewrite app_nil_r. Qed.

Lemma calm_trans id u1 c1 u2 c2 u3 c3 : calm id u1 c1 u2 c2 → calm id u2 c2 u3 c3 → calm id u1 c1 u3 c3.
Proof.
  intros [A1 A2 (S1&S2&S3&S4&S5) A4 A5 A6 (es1 & A7 & A7')] [B1 B2 (T1&T2&T3&T4&T5) B4 B5 B6 (es2 & B7 & B7')].
  split; try congruence; [by eapply local_trans|split_and!; congruence|].
  exists (es1 ++ es2). split; [by rewrite B7, A7, app_assoc|by apply Forall_app].
Qed.

Lemma quiet_unrelated es : Forall (λ o, out_conn o = None) es → ∀ j, Forall (unrelated j) es.
Proof. intros H j. eapply Forall_impl; [exact H|]. intros o Ho. unfold unrelated. by rewrite Ho. Qed.

Lemma same_buf id conn conn' : same_conn conn conn' → buf id conn' = buf id conn.
Proof. intros (_ & _ & _ & H & _). unfold buf. by rewrite H. Qed.

Lemma calm_content id u conn u' conn' : calm id u conn u' conn' → content id u' conn' = content id u conn.
Proof. intros [_ _ Hs Hd _ _ _]. unfold content. by rewrite (same_buf _ _ _ Hs), Hd. Qed.

(** The entries of the trace that a calm step adds. *)
Lemma calm_trace id u conn u' conn' :
  calm id u conn u' conn' →
  received id (h2_out u') = received id (h2_out u) ∧ delivered id (h2_out u') = delivered id (h2_out u) ∧
  terminals id (h2_out u') = terminals id (h2_out u) ∧
  (broken id (h2_out u') ↔ broken id (h2_out u)) ∧ (opened id (h2_out u') ↔ opened id (h2_out u)) ∧
  (close_called id (h2_out u') ↔ close_called id (h2_out u)) ∧
  (within cap (h2_out u') → within cap (h2_out u)).
Proof.
  intros [_ _ _ _ _ _ (es & -> & Hes)]. apply (quiet_unrelated es) with (j := id) in Hes.
  destruct (unrelated_quiet id es Hes) as (Q1 & Q2 & Q3 & Q4).
  rewrite received_app, delivered_app, terminals_app, broken_app, opened_app, close_called_app.
  rewrite (unrelated_received id es Hes), (unrelated_delivered id es Hes), Q4, !app_nil_r, Nat.add_0_r.
  split_and!; try done; try tauto. apply within_app.
Qed.

(** *** Tasks *)

Lemma submit_task t fin u :
  loop_ok (h2_loop u) →
  ∃ i l', auto_submit (mkTask t fin) u = (Some i, set_h2_loop l' u) ∧ loop_ok l' ∧
    tasks l' = <[i := t]> (tasks (h2_loop u)) ∧ tasks (h2_loop u) !! i = None.
Proof.
  intros Hl. destruct (tasks_submit (h2_loop u) t fin Hl) as (l' & H1 & H2 & H3 & _).
  exists (next_task_id (h2_loop u)), l'. unfold auto_submit. change (get_loop u) with (h2_loop u). rewrite H1.
  unfold auto_task. pose proof (holds_next _ _ Hl). destruct (Z.ltb_spec (next_task_id (h2_loop u)) 0); [lia|].
  split_and!; try done. by apply tasks_next.
Qed.

Lemma schedule_task t fin defer u :
  loop_ok (h2_loop u) →
  ∃ i l', auto_schedule (mkTask t fin) defer u = Ok (Some i, set_h2_loop l' u) ∧ loop_ok l' ∧
    tasks l' = <[i := t]> (tasks (h2_loop u)) ∧ tasks (h2_loop u) !! i = None.
Proof.
  intros Hl. destruct (tasks_schedule (h2_loop u) t fin defer Hl) as (l' & H1 & H2 & H3 & _).
  exists (next_task_id (h2_loop u)), l'. unfold auto_schedule. change (get_loop u) with (h2_loop u). rewrite H1. mstep.
  unfold auto_task. pose proof (holds_next _ _ Hl). destruct (Z.ltb_spec (next_task_id (h2_loop u)) 0); [lia|].
  split_and!; try done. by apply tasks_next.
Qed.

Lemma reset_task i u :
  loop_ok (h2_loop u) →
  ∃ l', auto_reset i u = set_h2_loop l' u ∧ loop_ok l' ∧
    tasks l' = match i with Some i => delete i (tasks (h2_loop u)) | None => tasks (h2_loop u) end.
Proof.
  intros Hl. destruct i as [i|]; cbn.
  - destruct (tasks_cancel i _ Hl) as [H1 H2]. by exists (vpn_event_loop_cancel i (h2_loop u)).
  - exists (h2_loop u). split_and!; try done. by destruct u.
Qed.

Lemma has_unread_spec id u conn :
  struct id u conn → okP (has_unread conn u) (λ x, x = true ↔ content id u conn ≠ []).
Proof.
  intros Hs. pose proof (st_ok _ _ _ Hs) as Hok. unfold has_unread, content, buf in *.
  destruct (tc_unread conn) as [b|] eqn:Hb; cbn in *.
  - eapply okP_bind; [by apply db_size_law|]. intros n ->. apply okP_ret. rewrite Z.ltb_lt, <- blen_nil.
    pose proof (blen_nonneg (db_content b (h2_disk u))). lia.
  - apply okP_ret. split; [done|]. intros H. by destruct H; apply (st_new _ _ _ Hs).
Qed.

(** *** Calls of the tunnel *)

Definition has_session u conn : Prop := tc_stream_closed conn = false → h2_session u = true.

(** The flag and the output change. *)
Lemma calm_flag id u conn flag es :
  struct id u conn → Forall (λ o, out_conn o = None) es →
  calm id u conn (set_h2_out (h2_out u ++ es) (put_conn id (set_read_enabled_flag flag conn) u))
    (set_read_enabled_flag flag conn).
Proof.
  intros Hs Hes. pose proof Hs as [H1 H2 H3 H4 H5 H6 H7 H8 H9 H10 H11].
  assert (received id (h2_out u ++ es) = received id (h2_out u)) as Hr.
  { rewrite received_app, (unrelated_received id es), app_nil_r; [done|by apply quiet_unrelated]. }
  split; try done; [|split; h2simpl; try done|by exists es].
  - apply (local_put id u conn _ _ (h2_loop u)); try done. exists es. split; [done|]. intros. by apply quiet_unrelated.
  - by rewrite lookup_insert_eq.
  - by rewrite Hr.
Qed.

(** A task that completes the read is submitted. *)
Lemma calm_complete id u conn :
  struct id u conn → tc_complete_read_task conn = None → is_Some (tc_unread conn) →
  ∃ i l', auto_submit (mkTask (TCompleteRead id) true) u = (Some i, set_h2_loop l' u) ∧
    calm id u conn (put_conn id (set_complete_read_task (Some i) conn) (set_h2_loop l' u))
      (set_complete_read_task (Some i) conn).
Proof.
  intros Hs Hn Hun. pose proof Hs as [H1 H2 H3 H4 H5 H6 H7 H8 H9 H10 H11].
  destruct (submit_task (TCompleteRead id) true u H10) as (i & l' & R & L & T & F). exists i, l'. split; [done|].
  split; try done.
  - apply (local_put id u conn _ (h2_out u) l'); try done; [exists []; by rewrite app_nil_r|].
    intros j t Ht. rewrite T, lookup_insert_Some. split; [intros [[-> <-]|[_ ?]]; done|].
    intros Hj. right. split; [congruence|done].
  - split; h2simpl; try done.
    + by rewrite lookup_insert_eq.
    + intros j. rewrite T, lookup_insert_Some. split; [intros [= <-]; by left|].
      intros [[-> _]|[_ Hj]]; [done|]. apply H8 in Hj. congruence.
    + intros j Hj. destruct (H9 j Hj) as [g Hg]. exists g. rewrite T, lookup_insert_ne; [done|]. congruence.
  - exists []. by rewrite app_nil_r.
Qed.

Lemma flow_control_spec ans id size window u conn :
  struct id u conn → has_session u conn →
  okP (update_flow_control ans id size window u) (λ u', ∃ conn', calm id u conn u' conn' ∧
    tc_read_enabled conn' = (0 <? size) ∧ tc_close_task conn' = tc_close_task conn ∧
    (0 < size → content id u conn ≠ [] → is_Some (tc_complete_read_task conn'))).
Proof.
  intros Hs Hse. unfold update_flow_control. rewrite (st_conn _ _ _ Hs).
  set (c1 := set_read_enabled_flag (0 <? size) conn).
  set (es := if tc_stream_closed conn then [] else [SetRecvWindow (tc_stream conn) window]).
  assert (calm id u conn (set_h2_out (h2_out u ++ es) (put_conn id c1 u)) c1) as Hc.
  { apply calm_flag; [done|]. unfold es. destruct (tc_stream_closed conn); repeat constructor. }
  set (u1 := set_h2_out (h2_out u ++ es) (put_conn id c1 u)) in *.
  assert ((if tc_stream_closed c1 then Ok (put_conn id c1 u)
    else on_session (SetRecvWindow (tc_stream c1) window) (put_conn id c1 u)) = Ok u1) as ->.
  { unfold u1, es, on_session. cbn. destruct (tc_stream_closed conn) eqn:Hsc; [|by rewrite (Hse Hsc)].
    rewrite app_nil_r. by destruct u. }
  mstep. pose proof (ca_struct _ _ _ _ _ Hc) as Hs1. pose proof (has_unread_spec id u1 c1 Hs1) as Hu.
  rewrite (calm_content _ _ _ _ _ Hc) in Hu. change (tc_read_enabled c1) with (0 <? size).
  change (tc_complete_read_task c1) with (tc_complete_read_task conn).
  destruct ((0 <? size) && bool_decide (tc_complete_read_task conn = None)) eqn:Hcond; mstep.
  - apply andb_true_iff in Hcond as [Hsize Hnone%bool_decide_eq_true]. destruct Hu as (x & -> & Hx). mstep.
    destruct x.
    + assert (is_Some (tc_unread c1)) as Hun.
      { apply not_eq_None_Some. intros Hun. assert (content id u conn = []) as Hcn; [|by apply Hx].
        rewrite <- (calm_content _ _ _ _ _ Hc). unfold content, buf. rewrite Hun. by apply (st_new _ _ _ Hs1). }
      destruct (calm_complete id u1 c1 Hs1 Hnone Hun) as (i & l' & -> & Hc2). apply okP_ret.
      eexists. split; [by eapply calm_trans|]. split_and!; [done|done|]. intros _ _. by eexists.
    + apply okP_ret. exists c1. split_and!; try done. intros _ Hne. by apply Hx in Hne.
  - apply okP_ret. exists c1. split_and!; try done. intros Hsz _.
    apply andb_false_iff in Hcond as [Hcond|Hcond]; [apply Z.ltb_ge in Hcond; lia|].
    apply bool_decide_eq_false in Hcond. change (is_Some (tc_complete_read_task conn)). by apply not_eq_None_Some.
Qed.

Lemma close_async_spec id graceful u conn :
  struct id u conn →
  ∃ conn', calm id u conn (close_async id graceful conn u) conn' ∧
    tc_read_enabled conn' = tc_read_enabled conn ∧ tc_complete_read_task conn' = tc_complete_read_task conn.
Proof.
  intros Hs. pose proof Hs as [H1 H2 H3 H4 H5 H6 H7 H8 H9 H10 H11]. unfold close_async.
  destruct (submit_task (TCloseConnection id graceful) true u H10) as (i & l1 & -> & L1 & T1 & F1).
  destruct (reset_task (tc_close_task conn) (put_conn id (set_close_task (Some i) conn) (set_h2_loop l1 u)) L1)
    as (l2 & -> & L2 & T2). cbn [put_conn set_h2_loop set_h2_conns h2_loop] in T2.
  assert (∀ j t, task_conn t ≠ Some id → (tasks l2 !! j = Some t ↔ tasks (h2_loop u) !! j = Some t)) as HT.
  { intros j t Ht. rewrite T2, T1. destruct (tc_close_task conn) as [k|] eqn:Hk.
    - destruct (H9 k eq_refl) as [g Hg]. rewrite lookup_delete_Some, lookup_insert_Some. split.
      + intros [_ [[-> <-]|[_ ?]]]; done.
      + intros Hj. split; [intros ->; rewrite Hg in Hj; injection Hj as <-; by apply Ht|right].
        split; [congruence|done].
    - rewrite lookup_insert_Some. split; [intros [[-> <-]|[_ ?]]; done|]. intros Hj. right. split; [congruence|done]. }
  exists (set_close_task (Some i) conn). split; [|done].
  replace (set_h2_loop l2 _) with (set_h2_out (h2_out u) (set_h2_loop l2 (put_conn id (set_close_task (Some i) conn) u)))
    by (by destruct u).
  split; try done.
  - apply (local_put id u conn); try done. exists []. by rewrite app_nil_r.
  - split; h2simpl; try done.
    + by rewrite lookup_insert_eq.
    + intros j. rewrite H8, T2, T1. destruct (tc_close_task conn) as [k|] eqn:Hk.
      * destruct (H9 k eq_refl) as [g Hg]. rewrite lookup_delete_Some, lookup_insert_Some. split.
        -- intros Hj. split; [intros ->; congruence|right]. split; [congruence|done].
        -- intros [_ [[-> ?]|[_ ?]]]; done.
      * rewrite lookup_insert_Some. split; [intros Hj; right; split; [congruence|done]|intros [[-> ?]|[_ ?]]; done].
    + intros j [= <-]. exists graceful. rewrite T2, T1. destruct (tc_close_task conn) as [k|] eqn:Hk.
      * destruct (H9 k eq_refl) as [g Hg]. rewrite lookup_delete_ne by congruence. by rewrite lookup_insert_eq.
      * by rewrite lookup_insert_eq.
  - exists []. by rewrite app_nil_r.
Qed.

Lemma calm_session id u conn u' conn' : calm id u conn u' conn' → has_session u conn → has_session u' conn'.
Proof.
  intros [L _ (_ & S & _) _ _ _ _] Hse. unfold has_session in *. rewrite S.
  pose proof (lo_rest _ _ _ L) as Hr. unfold rest in Hr. injection Hr as -> _ _ _ _ _ _ _ _. done.
Qed.

Lemma run_calls_spec ans raise id calls u conn :
  struct id u conn → has_session u conn → Forall (λ c, call_conn c = id) calls → udp_has ans id = false →
  okP (run_calls ans raise calls u) (λ u', ∃ conn', calm id u conn u' conn' ∧
    tc_read_enabled conn' = flag_after (tc_read_enabled conn) calls ∧
    ((tc_read_enabled conn = true → content id u conn ≠ [] → is_Some (tc_complete_read_task conn)) →
     tc_read_enabled conn' = true → content id u conn ≠ [] → is_Some (tc_complete_read_task conn'))).
Proof.
  intros Hs Hse Hcalls Hudp. revert u conn Hs Hse.
  induction Hcalls as [|c calls Hc _ IH]; intros u conn Hs Hse; cbn [run_calls].
  { apply okP_ret. exists conn. split_and!; [by apply calm_refl|done|auto]. }
  assert (okP (run_call ans raise c u) (λ u', ∃ conn', calm id u conn u' conn' ∧
    tc_read_enabled conn' = flag_after (tc_read_enabled conn) [c] ∧
    ((tc_read_enabled conn = true → content id u conn ≠ [] → is_Some (tc_complete_read_task conn)) →
     tc_read_enabled conn' = true → content id u conn ≠ [] → is_Some (tc_complete_read_task conn')))) as Hone.
  { destruct c as [i size window|i graceful]; cbn in Hc; subst i; cbn [run_call].
    - eapply okP_mono; [by apply (flow_control_spec _ _ _ _ _ conn)|]. intros u' (conn' & Hca & Hf & _ & Ht).
      exists conn'. split_and!; [done|done|]. rewrite Hf, Z.ltb_lt. auto.
    - rewrite Hudp, (st_conn _ _ _ Hs). apply okP_ret.
      destruct (close_async_spec id graceful u conn Hs) as (conn' & Hca & Hf & Ht). exists conn'.
      split_and!; [done|done|]. by rewrite Hf, Ht. }
  eapply okP_bind; [exact Hone|]. intros u1 (c1 & Hca1 & Hf1 & Ht1). cbn beta.
  eapply okP_mono; [apply IH; [apply Hca1|by eapply calm_session]|]. intros u2 (c2 & Hca2 & Hf2 & Ht2).
  exists c2. split_and!; [by eapply calm_trans|by rewrite Hf2, Hf1|].
  rewrite (calm_content _ _ _ _ _ Hca1) in Ht2. auto.
Qed.

(** *** Events of a connection *)

(** An entry of the trace about the connection, or about none. *)
Lemma local_calls id u es :
  Forall (λ o, out_conn o = Some id ∨ out_conn o = None) es → local id u (set_h2_out (h2_out u ++ es) u).
Proof.
  intros Hes. split; try done. exists es. split; [done|]. intros j Hj. eapply Forall_impl; [exact Hes|].
  intros o [Ho|Ho]; unfold unrelated; rewrite Ho; congruence.
Qed.

Lemma struct_calls id u conn es : struct id u conn → struct id (set_h2_out (h2_out u ++ es) u) conn.
Proof.
  intros [H1 H2 H3 H4 H5 H6 H7 H8 H9 H10 H11]. split; try done. h2simpl.
  rewrite received_app, blen_app. pose proof (blen_nonneg (received id es)). lia.
Qed.

(** The calls that an event brings are about its connection. *)
Lemma react_calls out e id : event_conn e = Some id → Forall (λ c, call_conn c = id) (react out e).1.
Proof.
  intros He. apply Forall_forall. intros c Hc. pose proof (react_own _ Hreact out e c Hc) as Ho. congruence.
Qed.

Definition live id u conn : Prop :=
  tc_read_enabled conn = true → tc_client_closed conn = false → content id u conn ≠ [] →
  is_Some (tc_complete_read_task conn).

Lemma raise_spec ans id e u conn :
  struct id u conn → has_session u conn → event_conn e = Some id → udp_has ans id = false →
  okP (h2_raise ans e u) (λ '(r, u'), ∃ conn',
    r = (react (h2_out u) e).2 ∧ calm id (h2_call (H2Raised e r) u) conn u' conn' ∧
    tc_read_enabled conn' = flag_after (tc_read_enabled conn) (react (h2_out u) e).1 ∧
    (live id u conn → live id u' conn')).
Proof.
  intros Hs Hse He Hudp. unfold h2_raise. cbn [raise_in]. pose proof (react_calls (h2_out u) e id He) as Hcalls.
  destruct (react (h2_out u) e) as [calls r]; cbn [fst snd] in *.
  pose proof (struct_calls id u conn [H2Raised e r] Hs) as Hs1.
  eapply okP_bind; [by apply (run_calls_spec ans _ id calls (h2_call (H2Raised e r) u) conn)|].
  intros u' (conn' & Hca & Hf & Hl). apply okP_ret. exists conn'. split_and!; try done.
  unfold live. rewrite (calm_content _ _ _ _ _ Hca). destruct (ca_same _ _ _ _ _ Hca) as (_ & _ & -> & _).
  intros H ? ? ?. apply Hl; auto.
Qed.

Lemma notify_spec ans id e u conn :
  struct id u conn → has_session u conn → event_conn e = Some id → udp_has ans id = false →
  okP (h2_notify ans e u) (λ u', ∃ conn' r,
    calm id (h2_call (H2Raised e r) u) conn u' conn' ∧ (live id u conn → live id u' conn')).
Proof.
  intros Hs Hse He Hudp. unfold h2_notify. eapply okP_bind; [by apply (raise_spec ans id e u conn)|].
  intros [r u'] (conn' & _ & Hca & _ & Hl). apply okP_ret. by exists conn', r.
Qed.

(** *** What holds of a connection in the table *)

(** The bytes that arrived are those taken and the ones that are left. *)
Definition flow id (out : list H2Out) (left : list Z) : Prop :=
  within cap out → ¬ broken id out → delivered id out ++ left = received id out.

Record mid id u conn (left : list Z) : Prop := {
  mi_struct : struct id u conn;
  mi_session : has_session u conn;
  mi_flow : flow id (h2_out u) left;
  mi_opened : opened id (h2_out u);
  mi_alive : terminals id (h2_out u) = 0%nat;
  mi_client : tc_client_closed conn = true → close_called id (h2_out u);
  mi_id : id ≠ H2_NON_ID;
}.

Lemma mid_calm id u conn u' conn' left :
  mid id u conn left → calm id u conn u' conn' → mid id u' conn' left.
Proof.
  intros [H1 H2 H3 H4 H5 H6 H7] Hca. pose proof (calm_trace _ _ _ _ _ Hca) as (T1 & T2 & T3 & T4 & T5 & T6 & T7).
  split; [apply Hca|by eapply calm_session|..]; try done.
  - intros Hw Hb. rewrite T1, T2. apply H3; tauto.
  - by apply T5.
  - congruence.
  - destruct (ca_same _ _ _ _ _ Hca) as (_ & _ & -> & _). intros Hc. by apply T6, H6.
Qed.

(** An entry about the connection that is not the end of it. *)
Lemma mid_call id u conn left left' o :
  mid id u conn left → ends id o = false →
  (¬ broken id [o] → delivered id [o] ++ left' = left ++ received id [o]) →
  mid id (h2_call o u) conn left'.
Proof.
  intros [H1 H2 H3 H4 H5 H6 H7] Ho Hleft. split; try done; cbn [h2_call set_h2_out h2_out].
  - by apply (struct_calls id u conn [o]).
  - intros Hw Hb. rewrite broken_app in Hb. rewrite delivered_app, received_app, <- app_assoc.
    rewrite Hleft by tauto. rewrite app_assoc. f_equal. apply H3; [by eapply within_app|tauto].
  - apply opened_app. by left.
  - rewrite terminals_app, H5. unfold terminals. by rewrite filter_cons_False, filter_nil by (by rewrite Ho).
  - intros Hc. apply close_called_app. left. auto.
Qed.

(** An event of the connection other than the ones that carry data or end it. *)
Lemma notify_mid ans id e u conn left :
  mid id u conn left → event_conn e = Some id → udp_has ans id = false →
  (∀ r, ends id (H2Raised e r) = false ∧ fails id (H2Raised e r) = false ∧ taken_of id (H2Raised e r) = []) →
  okP (h2_notify ans e u) (λ u', ∃ conn', local id u u' ∧ mid id u' conn' left ∧ same_conn conn conn' ∧
    content id u' conn' = content id u conn ∧ (live id u conn → live id u' conn') ∧
    h2_streams u' = h2_streams u).
Proof.
  intros Hm He Hudp Hk.
  eapply okP_mono; [apply (notify_spec ans id e u conn); [apply Hm|apply Hm|done|done]|].
  intros u' (conn' & r & Hca & Hl).
  destruct (Hk r) as (K1 & K2 & K3).
  exists conn'. split_and!.
  - eapply local_trans; [|apply Hca]. apply (local_calls id u [H2Raised e r]). apply Forall_singleton. by left.
  - eapply mid_calm; [|exact Hca]. apply (mid_call id u conn left left); [done|done|]. intros _.
    unfold delivered, received. cbn [fmap list_fmap concat]. rewrite K3. cbn. by rewrite app_nil_r.
  - apply Hca.
  - by rewrite (calm_content _ _ _ _ _ Hca).
  - done.
  - by rewrite (ca_streams _ _ _ _ _ Hca).
Qed.

(** *** The end of a connection *)

Definition closed_event id (o : H2Out) : Prop := ∃ r, o = H2Raised (EvConnectionClosed id) r.

(** A connection closed with no error, and not by its user, has given all. *)
Definition settled id (out : list H2Out) : Prop :=
  within cap out → ¬ broken id out → ¬ close_called id out → Exists (closed_event id) out →
  delivered id out = received id out.

Record gone id u : Prop := {
  go_conn : h2_conns u !! id = None;
  go_ids s : h2_ids u !! s ≠ Some id;
  go_opened : opened id (h2_out u);
  go_once : terminals id (h2_out u) = 1%nat;
  go_settled : settled id (h2_out u);
}.

Lemma reset_own_task id i u :
  loop_ok (h2_loop u) → (∀ k, i = Some k → ∃ t, tasks (h2_loop u) !! k = Some t ∧ task_conn t = Some id) →
  ∃ l', auto_reset i u = set_h2_loop l' u ∧ loop_ok l' ∧ (∀ k, is_Some (tasks l' !! k) → i ≠ Some k) ∧
    (∀ k t, i ≠ Some k → tasks l' !! k = Some t ↔ tasks (h2_loop u) !! k = Some t) ∧
    (∀ k t, task_conn t ≠ Some id → tasks l' !! k = Some t ↔ tasks (h2_loop u) !! k = Some t).
Proof.
  intros Hl Hi. destruct (reset_task i u Hl) as (l' & -> & Hl' & Ht). exists l'. split_and!; [done|done|..].
  - intros k [t Hk] ->. by rewrite Ht, lookup_delete_eq in Hk.
  - intros k t Hne. rewrite Ht. destruct i as [j|]; [|done]. rewrite lookup_delete_ne; [done|congruence].
  - intros k t Hne. rewrite Ht. destruct i as [j|]; [|done].
    destruct (Hi j eq_refl) as (t0 & H0 & Hc). rewrite lookup_delete_Some. split; [tauto|]. intros Hk.
    split; [intros ->; congruence|done].
Qed.

Lemma clean_spec id u conn :
  struct id u conn →
  local id u (clean_tcp_connection_data id u) ∧ h2_conns (clean_tcp_connection_data id u) !! id = None ∧
  (∀ s, h2_ids (clean_tcp_connection_data id u) !! s ≠ Some id) ∧
  h2_out (clean_tcp_connection_data id u) = h2_out u ∧
  h2_streams (clean_tcp_connection_data id u) = h2_streams u.
Proof.
  intros [H1 H2 H3 H4 H5 H6 H7 H8 H9 H10 H11]. unfold clean_tcp_connection_data, destroy_connection. rewrite H1.
  set (u1 := set_h2_conns _ _).
  destruct (reset_own_task id (tc_close_task conn) u1 H10) as (l2 & -> & L2 & R2 & K2 & T2).
  { intros k Hk. destruct (H9 k Hk) as [g Hg]. by eexists. }
  destruct (reset_own_task id (tc_complete_read_task conn) (set_h2_loop l2 u1) L2) as (l3 & -> & L3 & R3 & K3 & T3).
  { intros k Hk. exists (TCompleteRead id). split; [|done]. apply K2; [|by apply H8].
    intros Hc. destruct (H9 k Hc) as [g Hg]. apply H8 in Hk. cbn in *. congruence. }
  set (w' := match tc_unread conn with Some b => db_destroy b (h2_disk u) | None => h2_disk u end).
  set (u2 := match tc_unread conn with Some _ => _ | None => _ end).
  assert (u2 = set_h2_disk w' (set_h2_loop l3 u1)) as ->.
  { unfold u2, w'. by destruct (tc_unread conn). }
  split_and!; try done; h2simpl.
  - split; try done; h2simpl.
    + intros j Hj. unfold u1. h2simpl. by rewrite lookup_delete_ne.
    + exists []. by rewrite app_nil_r.
    + intros b [Hb1 Hb2]. unfold clear_of, own in *. rewrite H1 in Hb1. unfold u1. h2simpl. rewrite lookup_delete_eq.
      split; [done|]. intros Hok. unfold w'. destruct (tc_unread conn) as [b0|] eqn:E0; [|done].
      unfold buf in *. rewrite E0 in *. cbn in *. eapply db_frame_law; [by apply db_destroy_law|done|done].
    + intros s j Hj. unfold u1. h2simpl. rewrite lookup_delete_Some. split; [tauto|]. intros Hs. split; [|done].
      intros <-. assert (h2_ids u !! tc_stream conn = Some id) by (by apply H2). congruence.
    + intros s. unfold u1. h2simpl. rewrite lookup_delete_Some. tauto.
    + intros i t Ht. rewrite T3 by done. cbn [h2_loop set_h2_loop]. by rewrite T2.
  - unfold u1. h2simpl. by rewrite lookup_delete_eq.
  - intros s Hs. unfold u1 in Hs. h2simpl. apply lookup_delete_Some in Hs as [Hne Hs]. apply H2 in Hs. congruence.
Qed.

Lemma closed_app id l k : Exists (closed_event id) (l ++ k) ↔ Exists (closed_event id) l ∨ Exists (closed_event id) k.
Proof. apply Exists_app. Qed.

Lemma alive_not_closed id out : terminals id out = 0%nat → ¬ Exists (closed_event id) out.
Proof.
  unfold terminals. intros H [o [Ho [r ->]]]%Exists_exists. apply length_zero_iff_nil in H.
  assert (H2Raised (EvConnectionClosed id) r ∈ filter (λ o, ends id o = true) out) as Hin.
  { apply list_elem_of_filter. split; [|done]. cbn. by apply bool_decide_true. }
  rewrite H in Hin. by apply elem_of_nil in Hin.
Qed.

Lemma quiet_not_closed id es : Forall (unrelated id) es → ¬ Exists (closed_event id) es.
Proof.
  intros Hes [o [Ho [r ->]]]%Exists_exists. rewrite Forall_forall in Hes. by apply (Hes _ Ho).
Qed.

(** The event that ends a connection, and the connection is gone. *)
Lemma finish_spec ans id e u conn left :
  mid id u conn left → event_conn e = Some id → udp_has ans id = false →
  (∀ r, ends id (H2Raised e r) = true ∧ fails id (H2Raised e r) = false ∧ taken_of id (H2Raised e r) = []) →
  (e = EvConnectionClosed id → left = [] ∨ close_called id (h2_out u)) →
  okP (u ← h2_notify ans e u; Ok (clean_tcp_connection_data id u)) (λ u', local id u u' ∧ gone id u' ∧
    h2_streams u' = h2_streams u).
Proof.
  intros Hm He Hudp Hk Hleft.
  eapply okP_bind; [apply (notify_spec ans id e u conn); [apply Hm|apply Hm|done|done]|].
  intros u' (conn' & r & Hca & _). apply okP_ret.
  destruct (Hk r) as (K1 & K2 & K3). destruct Hm as [H1 H2 H3 H4 H5 H6 H7].
  destruct (clean_spec id u' conn' (ca_struct _ _ _ _ _ Hca)) as (C1 & C2 & C3 & C4 & C5).
  pose proof (calm_trace _ _ _ _ _ Hca) as (T1 & T2 & T3 & T4 & T5 & T6 & T7). h2simpl.
  assert (received id [H2Raised e r] = []) as Hr by done.
  assert (delivered id [H2Raised e r] = []) as Hd.
  { unfold delivered. cbn [fmap list_fmap concat]. by rewrite K3. }
  split_and!.
  - eapply local_trans; [|exact C1]. eapply local_trans; [|apply Hca].
    apply (local_calls id u [H2Raised e r]). apply Forall_singleton. by left.
  - split; try done; rewrite C4.
    + apply T5, opened_app. by left.
    + rewrite T3, terminals_app, H5. unfold terminals. rewrite filter_cons_True by done. by rewrite filter_nil.
    + intros Hw Hb Hcc Hex. rewrite T4, broken_app in Hb. rewrite T6, close_called_app in Hcc. apply T7 in Hw.
      assert (e = EvConnectionClosed id) as ->.
      { destruct (ca_out _ _ _ _ _ Hca) as (es & E2 & Hes). h2simpl. rewrite E2 in Hex.
        apply closed_app in Hex as [Hex|Hex]; [|by destruct (quiet_not_closed id es); [apply quiet_unrelated|]].
        apply closed_app in Hex as [Hex|Hex]; [by destruct (alive_not_closed id (h2_out u))|].
        apply Exists_cons in Hex as [[r' Hr']|Hex]; [by injection Hr' as -> _|by inversion Hex]. }
      destruct (Hleft eq_refl) as [->|Hc]; [|tauto].
      rewrite T1, T2, delivered_app, received_app, Hr, Hd, !app_nil_r.
      rewrite <- H3; [by rewrite app_nil_r|by eapply within_app|tauto].
  - rewrite C5. apply (ca_streams _ _ _ _ _ Hca).
Qed.

(** *** Closing a stream or a connection *)

Definition fin id u conn : Prop :=
  tc_stream_closed conn = true →
  tc_client_closed conn = false ∧ content id u conn ≠ [] ∧ tc_stream conn ∉ h2_streams u.

(** A connection between operations: its data is in the buffer, there is a task
    when its reader wants the data, and it stays without a stream only for data. *)
Record kept id u conn : Prop := {
  ke_mid : mid id u conn (content id u conn);
  ke_live : live id u conn;
  ke_fin : fin id u conn;
}.

Definition after id u : Prop := (∃ conn, kept id u conn) ∨ gone id u.

(** The connection is gone, or in the table with the same answer to whether its
    user has closed it. *)
Definition after_as (closed : bool) id u : Prop :=
  gone id u ∨ ∃ conn, kept id u conn ∧ tc_client_closed conn = closed.

Lemma after_as_after closed id u : after_as closed id u → after id u.
Proof. intros [?|(conn & ? & _)]; [by right|left; by exists conn]. Qed.

Notation with_session := (set_h2_session true).

Lemma with_session_id u : h2_session u = true → with_session u = u.
Proof. by destruct u; cbn; intros ->. Qed.

(** The streams of others are not the connection's. *)
Record route ans id (health : option HealthCheckInfo) (stream : Z) : Prop := {
  ro_udp : udp_has ans id = false;
  ro_udp_stream : udp_stream ans ≠ Some stream;
  ro_icmp_stream : icmp_stream ans ≠ Some stream;
  ro_health info : health = Some info → hc_stream info ≠ stream;
}.

Lemma local_health id u u' : local id u u' → h2_health u' = h2_health u.
Proof. intros H. pose proof (lo_rest _ _ _ H) as Hr. unfold rest in Hr. by injection Hr. Qed.

Lemma local_session id u u' : local id u u' → h2_session u' = h2_session u.
Proof. intros H. pose proof (lo_rest _ _ _ H) as Hr. unfold rest in Hr. by injection Hr. Qed.

Lemma mid_left id u conn left left' :
  mid id u conn left → broken id (h2_out u) ∨ left' = left → mid id u conn left'.
Proof. intros [H1 H2 H3 H4 H5 H6 H7] [Hb| ->]; split; try done. by intros _ []. Qed.

(** A change of the flags that say what has been closed; the session may have gone
    when the stream is closed. *)
Lemma mid_put id u conn conn' left :
  mid id (with_session u) conn left → h2_session u = true ∨ tc_stream_closed conn' = true → tc_stream conn' = tc_stream conn → tc_unread conn' = tc_unread conn →
  tc_complete_read_task conn' = tc_complete_read_task conn → tc_close_task conn' = tc_close_task conn →
  (tc_stream_closed conn = true → tc_stream_closed conn' = true) →
  (tc_client_closed conn' = true → close_called id (h2_out u)) →
  local id u (put_conn id conn' u) ∧ mid id (put_conn id conn' u) conn' left ∧
  content id (put_conn id conn' u) conn' = content id u conn.
Proof.
  intros [[H1 H2 H3 H4 H5 H6 H7 H8 H9 H10 H11] M2 M3 M4 M5 M6 M7] E0 E1 E2 E3 E4 E5 E6.
  assert (buf id conn' = buf id conn) as Eb by (unfold buf; by rewrite E2).
  split; [|split].
  - replace (put_conn id conn' u) with (set_h2_out (h2_out u) (set_h2_loop (h2_loop u) (put_conn id conn' u))) by done.
    apply (local_put id u conn); try done. exists []. by rewrite app_nil_r.
  - split; try done.
    + split; h2simpl; rewrite ?E1, ?E2, ?E3, ?E4, ?Eb; try done; [by rewrite lookup_insert_eq|].
      intros Hc. apply H3. destruct (tc_stream_closed conn); [by rewrite E5 in Hc|done].
    + intros Hc. destruct E0 as [|E0]; [done|congruence].
  - unfold content. by rewrite Eb.
Qed.

Lemma local_filter id u u' stream :
  local id u u' → h2_streams u' = h2_streams u → h2_ids u !! stream = Some id →
  local id u (set_h2_streams (filter (λ s, s ≠ stream) (h2_streams u')) u').
Proof.
  intros [A1 A2 A3 A4 A0 A5 A6 A7 A8 A9 AD] Hst Hi. split; try done; h2simpl.
  - etransitivity; [apply sublist_filter|done].
  - intros s Hs Hin. apply list_elem_of_filter. rewrite Hst. split; [congruence|done].
Qed.

Lemma gone_streams id u x : gone id u → gone id (set_h2_streams x u).
Proof. by intros []. Qed.

(** The events that end a connection. *)
Lemma error_ends id e : id ≠ H2_NON_ID →
  event_conn (EvError id e) = Some id ∧
  ∀ r, ends id (H2Raised (EvError id e) r) = true ∧ fails id (H2Raised (EvError id e) r) = false ∧
    taken_of id (H2Raised (EvError id e) r) = [].
Proof.
  intros Hne. cbn. rewrite bool_decide_false by done. split; [done|]. intros _.
  by rewrite bool_decide_true.
Qed.

Lemma closed_ends id r :
  ends id (H2Raised (EvConnectionClosed id) r) = true ∧ fails id (H2Raised (EvConnectionClosed id) r) = false ∧
  taken_of id (H2Raised (EvConnectionClosed id) r) = [].
Proof. cbn. by rewrite bool_decide_true. Qed.

Lemma close_stream_spec ans id error_code u conn :
  mid id (with_session u) conn (content id u conn) → live id u conn → route ans id (h2_health u) (tc_stream conn) →
  okP (close_stream ans (tc_stream conn) error_code u) (λ u', local id u u' ∧
    (gone id u' ∨ ∃ conn', kept id u' conn' ∧ tc_stream_closed conn' = true ∧
      tc_client_closed conn' = tc_client_closed conn)).
Proof.
  intros Hm Hlive [R1 R2 R3 R4]. set (s := tc_stream conn) in *. pose proof (mi_struct _ _ _ _ Hm) as Hs.
  assert (h2_ids u !! s = Some id) as Hi by (by apply (st_ids _ _ _ Hs s)).
  set (c1 := set_stream_closed_flag conn).
  destruct (mid_put id u conn c1 _ Hm) as (L1 & M1 & C1); [by right|done..|apply Hm|].
  assert (okP (conn_stream_processed ans s error_code u) (λ u', local id u u' ∧ h2_streams u' = h2_streams u ∧
    (gone id u' ∨ u' = put_conn id c1 u ∧ tc_client_closed conn = false ∧ content id u conn ≠ []))) as Hproc.
  { assert (∀ e, event_conn e = Some id → (∀ r, ends id (H2Raised e r) = true ∧ fails id (H2Raised e r) = false ∧
      taken_of id (H2Raised e r) = []) → (e = EvConnectionClosed id → content id u conn = [] ∨ close_called id (h2_out u)) →
      okP (u ← h2_notify ans e (put_conn id c1 u); Ok (clean_tcp_connection_data id u)) (λ u', local id u u' ∧
        h2_streams u' = h2_streams u ∧
        (gone id u' ∨ u' = put_conn id c1 u ∧ tc_client_closed conn = false ∧ content id u conn ≠ []))) as Hfin.
    { intros e He Hk Hc. eapply okP_mono; [by apply (finish_spec ans id e (put_conn id c1 u) c1 (content id u conn))|].
      intros u' (F1 & F2 & F3). split_and!; [by eapply local_trans|by rewrite F3|by left]. }
    unfold conn_stream_processed, get_conn_by_stream_id. rewrite Hi. cbn [mbind option_bind].
    rewrite (st_conn _ _ _ Hs : h2_conns u !! id = Some conn). cbn [mbind option_bind]. fold c1.
    match goal with |- okP (match ?x with _ => _ end) _ => destruct x as [e|] end.
    - destruct (error_ends id e (mi_id _ _ _ _ Hm)). by apply Hfin.
    - change (tc_client_closed c1) with (tc_client_closed conn). destruct (tc_client_closed conn) eqn:Ecl; mstep.
      + apply Hfin; [done|apply closed_ends|]. intros _. right. by apply (mi_client _ _ _ _ Hm).
      + destruct (has_unread_spec id (put_conn id c1 u) c1 (mi_struct _ _ _ _ M1)) as (x & -> & Hx). mstep.
        rewrite C1 in Hx. destruct x.
        * apply okP_ret. split_and!; [done|done|]. right. split_and!; [done|done|by apply Hx].
        * apply Hfin; [done|apply closed_ends|]. intros _. left.
          destruct (decide (content id u conn = [])) as [|Hne]; [done|]. by apply Hx in Hne. }
  unfold close_stream, stream_processed. rewrite (bool_decide_false (udp_stream ans = Some s)) by done.
  rewrite (bool_decide_false (icmp_stream ans = Some s)) by done.
  replace (match h2_health u with Some _ => _ | None => _ end) with (conn_stream_processed ans s error_code u).
  2:{ destruct (h2_health u) as [info|]; [|done]. destruct (Z.eqb_spec (hc_stream info) s) as [E1|]; [|done].
      by destruct (R4 info eq_refl). }
  eapply okP_bind; [exact Hproc|]. cbn beta. intros u' (P1 & P2 & P3). apply okP_ret.
  split; [by apply local_filter|]. destruct P3 as [Hg|(-> & P4 & P5)]; [left; by apply gone_streams|].
  right. exists c1. split; [|done]. destruct M1 as [[H1 H2 H3 H4 H5 H6 H7 H8 H9 H10 H11] M2 M3 M4 M5 M6 M7].
  split; [split; try done; split; done|exact Hlive|]. intros _. split_and!; try done. h2simpl.
  intros Hin. apply list_elem_of_filter in Hin as [Hne _]. by apply Hne.
Qed.

(** A step that only adds entries about no connection. *)
Lemma mid_quiet id u conn left o :
  mid id u conn left → out_conn o = None → local id u (h2_call o u) ∧ mid id (h2_call o u) conn left.
Proof.
  intros Hm Ho. split; [apply (local_calls id u [o]), Forall_singleton; by right|].
  assert (unrelated id o) as Hu by (unfold unrelated; by rewrite Ho).
  apply (mid_call id u conn left left); [done|by apply (unrelated_one id o)|]. intros _.
  rewrite (unrelated_received id [o]), (unrelated_delivered id [o]), app_nil_r by (by apply Forall_singleton). done.
Qed.

(** An entry about the connection that changes nothing the properties speak of. *)
Lemma mid_own id u conn left o :
  mid id u conn left → out_conn o = Some id → ends id o = false → got_of id o = [] → taken_of id o = [] →
  local id u (h2_call o u) ∧ mid id (h2_call o u) conn left.
Proof.
  intros Hm Ho He Hg Ht. split; [apply (local_calls id u [o]), Forall_singleton; by left|].
  apply (mid_call id u conn left left); [done|done|]. intros _. unfold delivered, received. cbn [fmap list_fmap concat].
  by rewrite Hg, Ht, !app_nil_r.
Qed.

Lemma reset_stream_spec ans id error_code u conn :
  mid id u conn (content id u conn) → live id u conn → fin id u conn → route ans id (h2_health u) (tc_stream conn) →
  h2_session u = true →
  okP (reset_stream ans (tc_stream conn) error_code u)
    (λ u', local id u u' ∧ after_as (tc_client_closed conn) id u').
Proof.
  intros Hm Hl Hf Hr Hse. unfold reset_stream, on_session. rewrite Hse. mstep.
  set (o := ResetStream _ _). destruct (mid_quiet id u conn _ o Hm) as [L1 M1]; [done|].
  destruct (bool_decide (tc_stream conn ∈ h2_streams (h2_call o u)) && closes_at_once ans (tc_stream conn)).
  - eapply okP_mono; [apply (close_stream_spec ans id error_code (h2_call o u) conn); try done|].
    { by rewrite with_session_id. }
    intros u' [L2 A2]. split; [by eapply local_trans|]. destruct A2 as [?|(c' & ? & _ & ?)]; [by left|right; by exists c'].
  - apply okP_ret. split; [done|]. right. by exists conn.
Qed.

Lemma close_tcp_spec ans id graceful u conn :
  mid id u conn (content id u conn) → route ans id (h2_health u) (tc_stream conn) → h2_session u = true →
  okP (close_tcp_connection ans id graceful u) (λ u', local id u u' ∧ after_as true id u').
Proof.
  intros Hm Hr Hse. unfold close_tcp_connection. set (o := H2Close id graceful).
  destruct (mid_own id u conn _ o Hm) as [L1 M1]; [done..|].
  assert (close_called id (h2_out (h2_call o u))) as Hcc.
  { apply close_called_app. right. apply Exists_cons. left. cbn. by apply bool_decide_true. }
  set (u1 := h2_call o u) in *. rewrite (st_conn _ _ _ (mi_struct _ _ _ _ M1)).
  change (h2_session u1) with (h2_session u). rewrite Hse.
  destruct (tc_stream_closed conn) eqn:Hsc; mstep.
  - eapply okP_mono; [apply (finish_spec ans id (EvConnectionClosed id) u1 conn (content id u conn)); try done|].
    + apply Hr.
    + apply closed_ends.
    + intros _. by right.
    + intros u' (L2 & G2 & _). split; [by eapply local_trans|by left].
  - set (c2 := set_client_closed_flag conn). destruct (mid_put id u1 conn c2 (content id u conn)) as (L2 & M2 & C2); [by rewrite with_session_id|by left|done..|].
    eapply okP_mono; [apply (reset_stream_spec ans id _ (put_conn id c2 u1) c2)|].
    + by rewrite C2.
    + by intros _.
    + intros Hc. cbn in Hc. by rewrite Hsc in Hc.
    + done.
    + done.
    + intros u' [L3 A3]. split; [|done]. eapply local_trans; [exact L1|]. by eapply local_trans.
Qed.

(** *** Received data *)

Lemma handle_read_spec ans id data u conn left :
  mid id u conn (data ++ left) → route ans id (h2_health u) (tc_stream conn) → h2_session u = true →
  okP (handle_read ans id data u) (λ '(r, u'), local id u u' ∧
    (r < 0 ∧ broken id (h2_out u') ∧ after id u' ∨
     0 ≤ r ≤ blen data ∧ ∃ conn', mid id u' conn' (bdrop r data ++ left) ∧ same_conn conn conn' ∧
       received id (h2_out u') = received id (h2_out u) ∧ h2_disk u' = h2_disk u ∧ h2_streams u' = h2_streams u ∧
       (r < blen data → tc_read_enabled conn' = false))).
Proof.
  intros Hm Hr Hse. unfold handle_read.
  eapply okP_bind; [apply (raise_spec ans id (EvRead id data) u conn); [apply Hm|apply Hm|done|apply Hr]|].
  intros [r u1] (c1 & Er & Hca & Hf & _). cbn beta iota.
  pose proof (react_read _ Hreact (h2_out u) id data) as Hmax. rewrite <- Er in Hmax.
  pose proof (calm_trace _ _ _ _ _ Hca) as (T1 & T2 & T3 & T4 & T5 & T6 & T7).
  assert (local id u u1) as L1.
  { eapply local_trans; [|apply Hca]. apply (local_calls id u [H2Raised (EvRead id data) r]), Forall_singleton. by left. }
  assert (received id (h2_out u1) = received id (h2_out u)) as Hrec.
  { rewrite T1. cbn [h2_call set_h2_out h2_out]. rewrite received_app. by rewrite app_nil_r. }
  assert (fails id (H2Raised (EvRead id data) r) = (r <? 0)) as Hfail by (cbn; by rewrite bool_decide_true).
  assert (mid id u1 c1 (bdrop r data ++ left)) as M1.
  { eapply mid_calm; [|exact Hca]. apply (mid_call id u conn (data ++ left)); [done|done|]. intros Hb.
    unfold delivered, received. cbn [fmap list_fmap concat taken_of got_of]. rewrite bool_decide_true, !app_nil_r by done.
    by rewrite app_assoc, btake_bdrop. }
  destruct (Z.ltb_spec r 0) as [Hneg|Hpos].
  - assert (broken id (h2_out u1)) as Hb.
    { apply T4, broken_app. right. apply Exists_cons. left. rewrite Hfail. lia. }
    destruct (close_tcp_spec ans id false u1 c1) as (u2 & -> & L2 & A2).
    { eapply mid_left; [exact M1|by left]. }
    { rewrite (local_health _ _ _ L1). by destruct (ca_same _ _ _ _ _ Hca) as [-> _]. }
    { by rewrite (local_session _ _ _ L1). }
    mstep. apply okP_ret. split; [by eapply local_trans|].
    left. split_and!; [lia| |by eapply after_as_after]. destruct (lo_out _ _ _ L2) as (es & -> & _). apply broken_app. by left.
  - apply okP_ret. split; [done|]. right. split; [lia|]. exists c1.
    split_and!; [done|apply Hca|done|apply (ca_disk _ _ _ _ _ Hca)|apply (ca_streams _ _ _ _ _ Hca)|].
    intros Hlt. rewrite Hf. apply (react_off _ Hreact). rewrite <- Er. lia.
Qed.

(** The buffer of the connection is replaced by what it has become. *)
Lemma mid_buffer id u conn left b' w' :
  mid id u conn left → db_ok b' w' → db_frame (buf id conn) (h2_disk u) w' →
  db_capacity b' = db_capacity (buf id conn) → (∀ b0, db_apart b0 (buf id conn) → db_apart b0 b') →
  blen (db_content b' w') ≤ blen (received id (h2_out u)) →
  local id u (set_h2_disk w' (put_conn id (set_unread (Some b') conn) u)) ∧
  mid id (set_h2_disk w' (put_conn id (set_unread (Some b') conn) u)) (set_unread (Some b') conn) left.
Proof.
  intros [[H1 H2 H3 H4 H5 H6 H7 H8 H9 H10 H11] M2 M3 M4 M5 M6 M7] Hok Hfr Hcap Hap Hsm. split.
  - split; try done; h2simpl.
    + intros j Hj. by rewrite lookup_insert_ne.
    + exists []. by rewrite app_nil_r.
    + intros b [Hb1 Hb2]. unfold clear_of, own in *. h2simpl. rewrite lookup_insert_eq. rewrite H1 in Hb1.
      split; [split; [by apply Hap|done]|]. intros Hokb. by eapply db_frame_law.
  - split; try done. split; h2simpl; try done; [by rewrite lookup_insert_eq|by etransitivity].
Qed.

(** Two states of a connection that differ in the buffer, the flag and the tasks. *)
Definition alike conn conn' : Prop :=
  tc_stream conn' = tc_stream conn ∧ tc_stream_closed conn' = tc_stream_closed conn ∧
  tc_client_closed conn' = tc_client_closed conn.

Definition left_in id u conn u' conn' : Prop :=
  alike conn conn' ∧ is_Some (tc_unread conn') ∧ received id (h2_out u') = received id (h2_out u) ∧
  blen (content id u' conn') ≤ blen (content id u conn) ∧ h2_streams u' = h2_streams u.

Lemma left_in_trans id u1 c1 u2 c2 u3 c3 :
  left_in id u1 c1 u2 c2 → left_in id u2 c2 u3 c3 → left_in id u1 c1 u3 c3.
Proof.
  intros ((A1 & A2 & A3) & _ & A5 & A6 & A7) ((B1 & B2 & B3) & B4 & B5 & B6 & B7).
  unfold left_in, alike. split_and!; try congruence. lia.
Qed.

Lemma same_alike conn conn' : same_conn conn conn' → alike conn conn'.
Proof. by intros (? & ? & ? & _). Qed.

(** The front of the buffer is shown to the reader. *)
Lemma peek_step id u conn b pend :
  mid id u conn (content id u conn ++ pend) → tc_unread conn = Some b →
  okP (db_peek b (h2_disk u)) (λ '(e, chunk, b', w'), e = None ∧
    let u' := set_h2_disk w' (put_conn id (set_unread (Some b') conn) u) in
    let conn' := set_unread (Some b') conn in
    local id u u' ∧ mid id u' conn' (content id u conn ++ pend) ∧ left_in id u conn u' conn' ∧
    content id u' conn' = content id u conn ∧ chunk `prefix_of` content id u conn ∧
    (chunk = [] → content id u conn = []) ∧ blen chunk ≤ db_ready b').
Proof.
  intros Hm Hb. pose proof (mi_struct _ _ _ _ Hm) as Hs. pose proof (st_ok _ _ _ Hs) as Hok.
  pose proof (st_small _ _ _ Hs) as Hsm. assert (buf id conn = b) as Eb by (unfold buf; by rewrite Hb).
  unfold content in *. rewrite Eb in *.
  eapply okP_mono; [by apply db_peek_law|]. intros [[[e chunk] b'] w'] (-> & P1 & P2 & P3 & P4 & P5 & P6 & P7 & P8).
  split; [done|]. destruct (mid_buffer id u conn _ b' w' Hm) as [L1 M1]; rewrite ?Eb, ?P5; try done.
  split_and!; try done. unfold left_in, alike. split_and!; try done.
  unfold content, buf. h2simpl. cbn. rewrite P5, Hb. done.
Qed.

(** What the reader took leaves the buffer. *)
Lemma drain_step id u conn b n pend :
  mid id u conn (bdrop n (content id u conn) ++ pend) → tc_unread conn = Some b → 0 ≤ n ≤ db_ready b →
  okP (db_drain n b (h2_disk u)) (λ '(b', w'),
    let u' := set_h2_disk w' (put_conn id (set_unread (Some b') conn) u) in
    let conn' := set_unread (Some b') conn in
    local id u u' ∧ mid id u' conn' (content id u' conn' ++ pend) ∧ left_in id u conn u' conn' ∧
    content id u' conn' = bdrop n (content id u conn)).
Proof.
  intros Hm Hb Hn. pose proof (mi_struct _ _ _ _ Hm) as Hs. pose proof (st_ok _ _ _ Hs) as Hok.
  pose proof (st_small _ _ _ Hs) as Hsm. assert (buf id conn = b) as Eb by (unfold buf; by rewrite Hb).
  unfold content in *. rewrite Eb in *.
  eapply okP_mono; [by apply db_drain_law|]. intros [b' w'] (P1 & P2 & P3 & P4 & P5).
  assert (blen (db_content b' w') ≤ blen (db_content b (h2_disk u))) as Hle.
  { rewrite P5, blen_bdrop by lia. pose proof (blen_nonneg (db_content b (h2_disk u))). lia. }
  destruct (mid_buffer id u conn _ b' w' Hm) as [L1 M1]; rewrite ?Eb; try done; [lia|].
  unfold buf. h2simpl. cbn [from_option]. change (Datatypes.id b') with b'. rewrite P5 in *.
  split_and!; try done. unfold left_in, alike. split_and!; try done.
  unfold content, buf. h2simpl. cbn. rewrite P5, Hb. done.
Qed.

Lemma read_loop_spec ans id fuel u conn pend :
  mid id u conn (content id u conn ++ pend) → is_Some (tc_unread conn) →
  route ans id (h2_health u) (tc_stream conn) → h2_session u = true →
  (tc_read_enabled conn = true → blen (content id u conn) ≤ Z.of_nat fuel) →
  okP (read_out_pending_data ans fuel id u) (λ '(r, u'), local id u u' ∧
    (r < 0 ∧ broken id (h2_out u') ∧ after id u' ∨
     r = 0 ∧ ∃ conn', mid id u' conn' (content id u' conn' ++ pend) ∧ left_in id u conn u' conn' ∧
       (tc_read_enabled conn' = true → content id u' conn' = []))).
Proof.
  revert u conn. induction fuel as [|fuel IH]; intros u conn Hm [b Hb] Hr Hse Hfuel; cbn [read_out_pending_data];
    pose proof (mi_struct _ _ _ _ Hm) as Hs; rewrite (st_conn _ _ _ Hs), Hb;
    pose proof (st_ok _ _ _ Hs) as Hok; assert (buf id conn = b) as Eb by (unfold buf; by rewrite Hb);
    assert (left_in id u conn u conn) as Hrefl by (unfold left_in, alike; split_and!; try done; by eexists);
    assert (okP (if tc_read_enabled conn then db_size b (h2_disk u) else Ok 0)
      (λ n, n = if tc_read_enabled conn then blen (content id u conn) else 0)) as (n & -> & Hn)
      by (rewrite Eb in Hok; unfold content; rewrite Eb; destruct (tc_read_enabled conn);
          [by apply db_size_law|by apply okP_ret]); mstep;
    (destruct (Z.leb_spec n 0) as [Hz|Hz];
     [apply okP_ret; split; [apply local_refl|]; right; split; [done|]; exists conn; split_and!; try done;
      intros Hen; rewrite Hen in Hn; apply blen_nil; pose proof (blen_nonneg (content id u conn)); lia|]);
    destruct (tc_read_enabled conn) eqn:Hen; try lia; specialize (Hfuel eq_refl).
  eapply okP_bind; [by apply (peek_step id u conn b pend)|].
  intros [[[e chunk] b'] w'] (-> & L1 & M1 & I1 & C1 & [tail Ht] & P2 & P3). cbv zeta in *. cbn beta iota.
  set (c1 := set_unread (Some b') conn) in *. set (u1 := set_h2_disk w' _) in *.
  assert (0 < blen chunk) as Hck.
  { pose proof (blen_nonneg chunk). destruct (decide (chunk = [])) as [E0|E0]; [|rewrite <- blen_nil in E0; lia].
    specialize (P2 E0). apply blen_nil in P2. lia. }
  rewrite Ht, <- app_assoc in M1.
  eapply okP_bind; [by apply (handle_read_spec ans id chunk u1 c1 (tail ++ pend))|].
  intros [r u2] (L2 & [(Hneg & Hbr & Haf)|(Hpos & c2 & M2 & S2 & R2 & D2 & St2 & Hoff)]); cbn beta iota.
  { destruct (Z.ltb_spec r 0); [|lia]. apply okP_ret. split; [by eapply local_trans|by left]. }
  destruct (Z.ltb_spec r 0); [lia|]. pose proof (same_buf id _ _ S2) as Hbuf.
  assert (content id u2 c2 = content id u conn) as C2 by (rewrite <- C1; unfold content; by rewrite Hbuf, D2).
  assert (tc_unread c2 = Some b') as Hb2 by (by destruct S2 as (_ & _ & _ & -> & _)).
  assert (left_in id u conn u2 c2) as I2.
  { eapply left_in_trans; [exact I1|]. split_and!; [by apply same_alike|by eexists|done| |done]. rewrite C2, C1. done. }
  rewrite app_assoc, <- bdrop_app_le, <- Ht, <- C2 in M2 by lia.
  assert (route ans id (h2_health u2) (tc_stream c2)) as Hr2.
  { rewrite (local_health _ _ _ L2), (local_health _ _ _ L1). by destruct S2 as [-> _]. }
  assert (h2_session u2 = true) as Hse2 by (by rewrite (local_session _ _ _ L2), (local_session _ _ _ L1)).
  destruct (Z.ltb_spec 0 r).
  - rewrite (st_conn _ _ _ (mi_struct _ _ _ _ M2)), Hb2.
    destruct (drain_step id u2 c2 b' r pend M2 Hb2) as ([b3 w3] & -> & L3 & M3 & I3 & C3); [lia|]. mstep.
    eapply okP_mono; [apply (IH _ (set_unread (Some b3) c2)); try done|].
    + intros _. rewrite C3, blen_bdrop, C2 by lia. lia.
    + intros [r' u'] (L4 & D4). split; [eapply local_trans; [exact L1|]; eapply local_trans; [exact L2|];
        eapply local_trans; [exact L3|done]|]. destruct D4 as [?|(-> & c4 & M4 & I4 & Hc4)]; [by left|right].
      split; [done|]. exists c4. split_and!; try done. eapply left_in_trans; [exact I2|]. by eapply left_in_trans.
  - mstep. replace r with 0 in * by lia. rewrite bdrop_0 in M2.
    eapply okP_mono; [apply (IH u2 c2 M2 (ex_intro _ _ Hb2) Hr2 Hse2)|].
    + intros Hen2. rewrite Hoff in Hen2; [done|lia].
    + intros [r' u'] (L4 & D4). split; [eapply local_trans; [exact L1|]; by eapply local_trans|].
      destruct D4 as [?|(-> & c4 & M4 & I4 & Hc4)]; [by left|right].
      split; [done|]. exists c4. split_and!; try done. by eapply left_in_trans.
Qed.

Lemma read_out_spec ans id u conn pend :
  mid id u conn (content id u conn ++ pend) → is_Some (tc_unread conn) →
  route ans id (h2_health u) (tc_stream conn) → h2_session u = true →
  okP (read_out ans id u) (λ '(r, u'), local id u u' ∧
    (r < 0 ∧ broken id (h2_out u') ∧ after id u' ∨
     r = 0 ∧ ∃ conn', mid id u' conn' (content id u' conn' ++ pend) ∧ left_in id u conn u' conn' ∧
       (tc_read_enabled conn' = true → content id u' conn' = []))).
Proof.
  intros Hm [b Hb] Hr Hse. pose proof (mi_struct _ _ _ _ Hm) as Hs. pose proof (st_ok _ _ _ Hs) as Hok.
  assert (buf id conn = b) as Eb by (unfold buf; by rewrite Hb). rewrite Eb in Hok.
  unfold read_out, read_fuel. rewrite (st_conn _ _ _ Hs), Hb. destruct (db_size_law b (h2_disk u) Hok) as (n & -> & Hn).
  mstep. apply (read_loop_spec ans id _ u conn pend); try done. intros _. unfold content. rewrite Eb. lia.
Qed.

Lemma push_unread_spec id unread u conn :
  mid id u conn (content id u conn ++ unread) →
  blen (content id u conn) + blen unread ≤ blen (received id (h2_out u)) < 2 ^ 63 →
  okP (push_unread id unread u) (λ '(r, u'), local id u u' ∧ ∃ conn' left, mid id u' conn' left ∧ alike conn conn' ∧
    tc_read_enabled conn' = tc_read_enabled conn ∧ (0 ≤ r → left = content id u' conn')).
Proof.
  intros Hm Hsz. pose proof (mi_struct _ _ _ _ Hm) as Hs. pose proof (st_ok _ _ _ Hs) as Hok.
  unfold push_unread. rewrite (st_conn _ _ _ Hs). cbv zeta.
  change (match tc_unread conn with Some b => b | None => new_buffer id end) with (buf id conn).
  unfold content in *. set (b := buf id conn) in *.
  destruct (db_push_law unread b (h2_disk u) Hok) as ([[e b'] w'] & -> & P1 & P2 & P3 & P4 & k & K1 & K2 & K3); [lia|].
  mstep. apply okP_ret.
  assert (blen (db_content b' w') ≤ blen (received id (h2_out u))) as Hsm.
  { rewrite K2, blen_app, blen_btake by lia. lia. }
  destruct (mid_buffer id u conn _ b' w' Hm P1 P2 P3 P4 Hsm) as [L1 M1]. split; [done|].
  set (u' := set_h2_disk _ _) in *. set (c' := set_unread _ _) in *. destruct e as [e|].
  - exists c', (db_content b (h2_disk u) ++ unread). by split_and!.
  - exists c', (db_content b' w'). split_and!; try done. specialize (K3 eq_refl).
    pose proof (mi_flow _ _ _ _ M1) as Hfl. destruct M1 as [X1 X2 X3 X4 X5 X6 X7]. split; try done.
    intros Hw Hb. specialize (Hfl Hw Hb). pose proof (within_now cap id (h2_out u') Hw) as Hn.
    rewrite <- Hfl in Hn. rewrite !blen_app in Hn. pose proof (st_cap _ _ _ Hs : db_capacity b = cap) as Hcap. rewrite Hcap in K3.
    rewrite K2, btake_all by lia. done.
Qed.

(** Entries that are not about the end or the data of a connection that is gone. *)
Lemma gone_call id u o :
  gone id u → ends id o = false → got_of id o = [] → taken_of id o = [] → gone id (h2_call o u).
Proof.
  intros [G1 G2 G3 G4 G5] He Hg Ht. split; try done; cbn [h2_call set_h2_out h2_out].
  - apply opened_app. by left.
  - rewrite terminals_app, G4. unfold terminals. by rewrite filter_cons_False, filter_nil by (by rewrite He).
  - intros Hw Hb Hc Hx. rewrite broken_app in Hb. rewrite close_called_app in Hc.
    apply closed_app in Hx as [Hx|Hx].
    2:{ apply Exists_cons in Hx as [[r ->]|Hx]; [|by inversion Hx]. cbn in He. by rewrite bool_decide_true in He. }
    rewrite delivered_app, received_app. unfold delivered at 2, received at 2. cbn [fmap list_fmap concat].
    rewrite Hg, Ht, !app_nil_r. apply G5; [by eapply within_app|tauto|tauto|done].
Qed.

(** The stream of a connection stays what it was. *)
Lemma local_stream id u u' conn conn' :
  local id u u' → struct id u conn → struct id u' conn' → tc_stream conn' = tc_stream conn.
Proof. intros L H H'. by apply (st_ids _ _ _ H), (lo_keep _ _ _ L), (st_ids _ _ _ H'). Qed.

(** The result that goes back to the session. *)
Lemma after_result id r u :
  (after id u ∧ r < 0 ∨ ∃ conn left, mid id u conn left ∧ (0 ≤ r → left = content id u conn) ∧
    live id u conn ∧ fin id u conn) → ∀ v, local id v u →
  local id v (h2_call (H2Result id r) u) ∧ after id (h2_call (H2Result id r) u).
Proof.
  intros Hu v Hv. set (o := H2Result id r).
  split; [eapply local_trans; [exact Hv|]; apply (local_calls id u [o]), Forall_singleton; by left|].
  assert (∀ conn left, mid id u conn left → (0 ≤ r → left = content id u conn) → live id u conn → fin id u conn →
    after id (h2_call o u)) as Hk.
  { intros conn left Hm Hl H1 H2. left. exists conn. split; [|done|done].
    destruct (mid_own id u conn left o Hm) as [_ M1]; [done..|]. eapply mid_left; [exact M1|].
    destruct (Z.ltb_spec r 0) as [Hneg|]; [left|right; by rewrite Hl by lia].
    apply broken_app. right. apply Exists_cons. left. cbn. rewrite bool_decide_true by done. lia. }
  destruct Hu as [[[[conn [Hm Hl Hf]]|Hg] Hr]|(conn & left & Hm & Hl & H1 & H2)].
  - eapply Hk; [exact Hm|done|done|done].
  - right. by apply gone_call.
  - by eapply Hk.
Qed.

Lemma got_mid id data u conn :
  kept id u conn →
  local id u (h2_call (H2Got id data) u) ∧ mid id (h2_call (H2Got id data) u) conn (content id u conn ++ data) ∧
  blen (content id u conn) + blen data ≤ blen (received id (h2_out (h2_call (H2Got id data) u))).
Proof.
  intros [Hm _ _]. split_and!.
  - apply (local_calls id u [_]), Forall_singleton. by left.
  - apply (mid_call id u conn (content id u conn)); [done|done|]. intros _. cbn.
    by rewrite bool_decide_true, app_nil_r.
  - cbn [h2_call set_h2_out h2_out]. rewrite received_app, blen_app. cbn. rewrite bool_decide_true, app_nil_r by done.
    pose proof (st_small _ _ _ (mi_struct _ _ _ _ Hm)). unfold content. lia.
Qed.

(** What is kept is offered before what has arrived. *)
Lemma offer_kept ans id data u conn :
  mid id u conn (content id u conn ++ data) → route ans id (h2_health u) (tc_stream conn) → h2_session u = true →
  okP (if bool_decide (is_Some (tc_unread conn)) then read_out ans id u else Ok (0, u))
    (λ '(r, u'), local id u u' ∧ (r < 0 ∧ after id u' ∨ r = 0 ∧ ∃ conn',
      mid id u' conn' (content id u' conn' ++ data) ∧ alike conn conn' ∧
      received id (h2_out u') = received id (h2_out u) ∧ blen (content id u' conn') ≤ blen (content id u conn) ∧
      (tc_read_enabled conn' = true → content id u' conn' = []))).
Proof.
  intros Hm Hr Hse. case_bool_decide as Hun.
  - eapply okP_mono; [by apply (read_out_spec ans id u conn data)|].
    intros [r u1] (L1 & [(? & _ & ?)|(-> & c1 & M1 & (A1 & _ & A3 & A4 & _) & D1)]); (split; [done|]); [by left|right].
    split; [done|]. exists c1. split_and!; done.
  - apply okP_ret. split; [apply local_refl|]. right. split; [done|]. exists conn. split_and!; try done.
    intros _. apply eq_None_not_Some in Hun. unfold content, buf. rewrite Hun.
    by apply (st_new _ _ _ (mi_struct _ _ _ _ Hm)).
Qed.

(** What has arrived is offered to a reader with nothing kept. *)
Lemma offer_new ans id data u conn :
  mid id u conn (content id u conn ++ data) → (tc_read_enabled conn = true → content id u conn = []) →
  route ans id (h2_health u) (tc_stream conn) → h2_session u = true →
  okP (if tc_read_enabled conn then unread ← has_unread conn u; _ ← h2_assert (negb unread); handle_read ans id data u
       else Ok (0, u))
    (λ '(r, u'), local id u u' ∧ (r < 0 ∧ after id u' ∨ 0 ≤ r ≤ blen data ∧ ∃ conn',
      mid id u' conn' (content id u' conn' ++ bdrop r data) ∧ tc_stream_closed conn' = tc_stream_closed conn ∧
      received id (h2_out u') = received id (h2_out u) ∧ blen (content id u' conn') ≤ blen (content id u conn) ∧
      (r < blen data → tc_read_enabled conn' = false) ∧ (tc_read_enabled conn' = true → content id u' conn' = []))).
Proof.
  intros Hm He Hr Hse. destruct (tc_read_enabled conn) eqn:Hen.
  - specialize (He eq_refl). destruct (has_unread_spec id u conn (mi_struct _ _ _ _ Hm)) as (x & -> & Hx). mstep.
    destruct x; [by destruct (proj1 Hx eq_refl)|]. change (h2_assert (negb false)) with (Ok tt). mstep.
    rewrite He in Hm. cbn [app] in Hm. rewrite <- (app_nil_r data) in Hm.
    eapply okP_mono; [by apply (handle_read_spec ans id data u conn [])|].
    intros [r u2] (L2 & [(? & _ & ?)|(Hp & c2 & M2 & S2 & R2 & D2 & _ & Hoff)]); (split; [done|]); [by left|right].
    assert (content id u2 c2 = []) as E2 by (rewrite <- He; unfold content; by rewrite (same_buf id _ _ S2), D2).
    split; [done|]. exists c2. rewrite app_nil_r in M2. rewrite E2. cbn [app].
    destruct S2 as (_ & T2 & _). split_and!; try done; try congruence. apply blen_nonneg.
  - apply okP_ret. split; [apply local_refl|]. right. split; [pose proof (blen_nonneg data); lia|]. exists conn.
    rewrite bdrop_0. split_and!; done || congruence.
Qed.

Lemma conn_data_spec ans id data u conn :
  kept id u conn → tc_stream_closed conn = false → route ans id (h2_health u) (tc_stream conn) → h2_session u = true →
  total_got (h2_out u) + blen data < 2 ^ 63 →
  okP ('(r, u) ← conn_data ans id data u; Ok (h2_call (H2Result id r) u)) (λ u', local id u u' ∧ after id u').
Proof.
  intros Hke Hopen Hr Hse Hlt. destruct (got_mid id data u conn Hke) as (L0 & M0 & Hsz).
  unfold conn_data. set (u0 := h2_call (H2Got id data) u) in *.
  rewrite (st_conn _ _ _ (mi_struct _ _ _ _ M0)).
  assert (blen (received id (h2_out u0)) < 2 ^ 63) as Hmax.
  { eapply Z.le_lt_trans; [apply received_le|]. cbn [u0 h2_call set_h2_out h2_out]. rewrite total_got_app. cbn. lia. }
  change (content id u conn) with (content id u0 conn) in *.
  destruct (offer_kept ans id data u0 conn M0 Hr Hse) as
    ([r1 u1] & -> & L1 & [(Hneg & Haf)|(-> & c1 & M1 & (A1 & A1' & _) & R1 & S1 & E1)]); mstep.
  { destruct (Z.ltb_spec r1 0); [|lia]. mstep. apply okP_ret. apply after_result; [by left|by eapply local_trans]. }
  change (0 <? 0) with false. cbn iota. rewrite (st_conn _ _ _ (mi_struct _ _ _ _ M1)).
  destruct (offer_new ans id data u1 c1 M1 E1) as ([r2 u2] & -> & L2 & D2).
  { by rewrite (local_health _ _ _ L1), A1. }
  { by rewrite (local_session _ _ _ L1). }
  mstep. assert (local id u u2) as L3 by (eapply local_trans; [exact L0|]; by eapply local_trans).
  destruct D2 as [(Hneg & Haf)|(Hp & c2 & M2 & C2 & R2 & S2 & Hoff & E2)].
  { destruct (Z.leb_spec 0 r2); [lia|]. mstep. apply okP_ret. apply after_result; [by left|done]. }
  destruct (Z.leb_spec 0 r2); [|lia]. destruct (Z.ltb_spec r2 (blen data)) as [Hlt2|Hge].
  - destruct (push_unread_spec id (bdrop r2 data) u2 c2 M2) as ([r3 u3] & -> & L4 & c3 & left & M3 & A3 & F3 & K3).
    { rewrite blen_bdrop, R2, R1 by lia. lia. }
    mstep. apply okP_ret. apply after_result; [right|by eapply local_trans]. exists c3, left.
    split_and!; try done.
    + intros Hen. rewrite F3, Hoff in Hen; done.
    + intros Hcl. destruct A3 as (_ & A3 & _). congruence.
  - mstep. apply okP_ret. apply after_result; [right|done]. exists c2, (content id u2 c2 ++ bdrop r2 data).
    rewrite bdrop_all, app_nil_r in * by lia. split_and!; try done.
    + intros Hen _ Hne. by destruct Hne; apply E2.
    + intros Hcl. congruence.
Qed.

(** The task that delivers what is kept: the task is gone when it runs. *)
Lemma complete_read_spec ans id u conn :
  mid id u conn (content id u conn) → tc_complete_read_task conn = None → is_Some (tc_unread conn) →
  (tc_stream_closed conn = true → tc_client_closed conn = false ∧ tc_stream conn ∉ h2_streams u) →
  route ans id (h2_health u) (tc_stream conn) → h2_session u = true →
  okP ('(r, u) ← read_out ans id u;
       if r <? 0 then close_tcp_connection ans id false u
       else match h2_conns u !! id with
            | None => UB
            | Some conn =>
                match tc_unread conn with
                | None => UB
                | Some b =>
                    n ← db_size b (h2_disk u);
                    if (n =? 0) && tc_stream_closed conn then
                      u ← h2_notify ans (EvConnectionClosed id) u; Ok (clean_tcp_connection_data id u)
                    else Ok u
                end
            end) (λ u', local id u u' ∧ after id u').
Proof.
  intros Hm Hn Hun Hfin Hr Hse. rewrite <- (app_nil_r (content id u conn)) in Hm.
  destruct (read_out_spec ans id u conn [] Hm Hun Hr Hse) as
    ([r1 u1] & -> & L1 & [(Hneg & Hbr & Haf)|(-> & c1 & M1 & (A1 & [b Hb] & R1 & S1 & T1) & E1)]); mstep.
  - destruct (Z.ltb_spec r1 0); [|lia]. destruct Haf as [[c1 [M1 _ _]]|Hg].
    + destruct (close_tcp_spec ans id false u1 c1 M1) as (u2 & -> & L2 & A2).
      * rewrite (local_health _ _ _ L1), (local_stream id u u1 conn c1); [done|done|apply Hm|apply M1].
      * by rewrite (local_session _ _ _ L1).
      * exists u2. split_and!; [done|by eapply local_trans|by eapply after_as_after].
    + unfold close_tcp_connection, clean_tcp_connection_data. cbn [h2_call set_h2_out h2_conns].
      rewrite (go_conn _ _ Hg). apply okP_ret. split; [|right; by apply gone_call].
      eapply local_trans; [exact L1|]. apply (local_calls id u1 [_]), Forall_singleton. by left.
  - change (0 <? 0) with false. cbn iota. rewrite (st_conn _ _ _ (mi_struct _ _ _ _ M1)), Hb.
    rewrite app_nil_r in M1. destruct A1 as (A1 & A2 & A3).
    pose proof (st_ok _ _ _ (mi_struct _ _ _ _ M1)) as Hok. assert (buf id c1 = b) as Eb by (unfold buf; by rewrite Hb).
    rewrite Eb in Hok. destruct (db_size_law b (h2_disk u1) Hok) as (n & -> & Hn1). mstep.
    assert (n = 0 ↔ content id u1 c1 = []) as Hn0 by (unfold content; by rewrite Eb, Hn1, blen_nil).
    destruct (Z.eqb_spec n 0) as [Hz|Hz]; mstep; [destruct (tc_stream_closed c1) eqn:Hsc|].
    + eapply okP_mono; [apply (finish_spec ans id (EvConnectionClosed id) u1 c1 (content id u1 c1)); try done|].
      * apply Hr.
      * apply closed_ends.
      * intros _. left. by apply Hn0.
      * intros u' (L2 & G2 & _). split; [by eapply local_trans|by right].
    + apply okP_ret. split; [done|]. left. exists c1. split; [done|..].
      * intros _ _ Hne. by apply Hn0 in Hz.
      * intros Hcl. congruence.
    + apply okP_ret. split; [done|]. left. exists c1. split; [done|..].
      * intros Hen _ Hne. by apply E1 in Hen.
      * intros Hcl. rewrite A2 in Hcl. destruct (Hfin Hcl) as [F1 F2].
        split_and!; [congruence| |by rewrite T1, A1]. intros Hne. by apply Hn0 in Hne.
Qed.
End Runs.
