(* ===== verification/Http2Runs.v ===== *)
(** * The HTTP/2 upstream on every run

    The invariant of the upstream, kept by every operation: what holds of each
    connection ([Http2Props]), and that connections have nothing in common. *)
From S2P Require Import Prelude Fsm EventLoop LoopTasks VpnTypes DataBuffers DataBuffersProps Http2 Http2Props.

Section Runs.
Context {B W : Type} `{!DataBuffer B W, !DataBufferLaws B W, E : !H2Env B, !H2World B W}.

Notation U := (@Http2Upstream B W).
Notation Conn := (TcpConnection B).
Implicit Types (u : U) (conn : Conn) (b : B).

Notation with_session := (set_h2_session true).

(** ** The invariant *)

(** A connection that has not been opened. *)
Record virgin id u : Prop := {
  vi_conn : h2_conns u !! id = None;
  vi_ids s : h2_ids u !! s ≠ Some id;
  vi_opened : ¬ opened id (h2_out u);
  vi_quiet : received id (h2_out u) = [] ∧ delivered id (h2_out u) = [] ∧ terminals id (h2_out u) = 0%nat;
  vi_tasks i t : tasks (h2_loop u) !! i = Some t → task_conn t ≠ Some id;
  vi_ok : db_ok (new_buffer id) (h2_disk u);
  vi_empty : db_content (new_buffer id) (h2_disk u) = [];
}.

Definition conn_ok id u : Prop := after id u ∨ virgin id u.

Record health_ok u (info : HealthCheckInfo) : Prop := {
  ho_stream : h2_ids u !! hc_stream info = None;
  ho_range : hc_stream info = 2 ^ 32 - 1 ∨ hc_stream info < h2_next_stream u;
  ho_task i : hc_timeout_task info = Some i → ∃ t, tasks (h2_loop u) !! i = Some t ∧ task_conn t = None;
}.

Record inv u : Prop := {
  iv_conn id : conn_ok id u;
  iv_apart i j : i ≠ j → clear_of (own i u) j u ∧ clear_of (new_buffer i) j u;
  iv_next s id : h2_ids u !! s = Some id → s < h2_next_stream u;
  iv_session : h2_session u = false → h2_conns u = ∅;
  iv_health info : h2_health u = Some info → health_ok u info;
  iv_loop : loop_ok (h2_loop u);
  iv_range : 0 < h2_next_stream u < 2 ^ 32 - 1;
  iv_handler : 0 ≤ h2_in_handler u;
}.

(** The streams and the connections of the multiplexers are not the upstream's. *)
Record ok_ans (ans : H2Answers) u : Prop := {
  an_udp id : udp_has ans id = true → h2_conns u !! id = None;
  an_streams s : udp_stream ans = Some s ∨ icmp_stream ans = Some s → h2_ids u !! s = None;
  an_session : h2_session u = false → udp_stream ans = None ∧ icmp_stream ans = None;
}.

(** *** Connections in the table *)

Lemma inv_kept id u conn : inv u → h2_conns u !! id = Some conn → kept id u conn.
Proof.
  intros Hi Hc. destruct (iv_conn _ Hi id) as [[[c Hk]|Hg]|Hv].
  - pose proof (st_conn _ _ _ (mi_struct _ _ _ _ (ke_mid _ _ _ Hk))) as Hc'. rewrite Hc in Hc'. by injection Hc' as <-.
  - by rewrite (go_conn _ _ Hg) in Hc.
  - by rewrite (vi_conn _ _ Hv) in Hc.
Qed.

Lemma inv_ids s id u : inv u → h2_ids u !! s = Some id → ∃ conn, h2_conns u !! id = Some conn ∧ tc_stream conn = s.
Proof.
  intros Hi Hs. destruct (iv_conn _ Hi id) as [[[c Hk]|Hg]|Hv].
  - pose proof (mi_struct _ _ _ _ (ke_mid _ _ _ Hk)) as H. exists c. split; [apply H|]. symmetry. by apply (st_ids _ _ _ H).
  - by destruct (go_ids _ _ Hg s).
  - by destruct (vi_ids _ _ Hv s).
Qed.

Lemma kept_ids id u conn : kept id u conn → h2_ids u !! tc_stream conn = Some id.
Proof. intros [H _ _]. by apply (st_ids _ _ _ (mi_struct _ _ _ _ H)). Qed.

Lemma inv_open id u conn : inv u → h2_conns u !! id = Some conn → h2_session u = true.
Proof. intros Hi Hc. destruct (h2_session u) eqn:Hs; [done|]. by rewrite (iv_session _ Hi Hs), lookup_empty in Hc. Qed.

Lemma inv_route ans id u conn :
  inv u → ok_ans ans u → h2_conns u !! id = Some conn → route ans id (h2_health u) (tc_stream conn).
Proof.
  intros Hi Ha Hc. pose proof (kept_ids _ _ _ (inv_kept _ _ _ Hi Hc)) as Hids. split.
  - destruct (udp_has ans id) eqn:Hu; [|done]. by rewrite (an_udp _ _ Ha id Hu) in Hc.
  - intros Hu. by rewrite (an_streams _ _ Ha (tc_stream conn)) in Hids by (by left).
  - intros Hu. by rewrite (an_streams _ _ Ha (tc_stream conn)) in Hids by (by right).
  - intros info Hh E1. pose proof (ho_stream _ _ (iv_health _ Hi info Hh)) as Hn. congruence.
Qed.

(** *** Steps on one connection *)

Lemma trace_other j es out :
  Forall (unrelated j) es →
  received j (out ++ es) = received j out ∧ delivered j (out ++ es) = delivered j out ∧
  terminals j (out ++ es) = terminals j out ∧ (broken j (out ++ es) ↔ broken j out) ∧
  (opened j (out ++ es) ↔ opened j out) ∧ (close_called j (out ++ es) ↔ close_called j out) ∧
  (Exists (closed_event j) (out ++ es) ↔ Exists (closed_event j) out).
Proof.
  intros Hes. destruct (unrelated_quiet j es Hes) as (Q1 & Q2 & Q3 & Q4). pose proof (quiet_not_closed j es Hes).
  rewrite received_app, delivered_app, terminals_app, broken_app, opened_app, close_called_app, closed_app.
  rewrite (unrelated_received j es Hes), (unrelated_delivered j es Hes), Q4, !app_nil_r, Nat.add_0_r. tauto.
Qed.

(** What a step must leave alone for a connection it is not about. *)
Record spares j u u' : Prop := {
  sp_conn : h2_conns u' !! j = h2_conns u !! j;
  sp_out : ∃ es, h2_out u' = h2_out u ++ es ∧ Forall (unrelated j) es;
  sp_buffer b : b = own j u ∨ b = new_buffer j → db_ok b (h2_disk u) →
    db_ok b (h2_disk u') ∧ db_content b (h2_disk u') = db_content b (h2_disk u);
  sp_ids s : h2_ids u' !! s = Some j ↔ h2_ids u !! s = Some j;
  sp_streams s : h2_ids u !! s = Some j → s ∈ h2_streams u' ↔ s ∈ h2_streams u;
  sp_tasks i t : task_conn t = Some j → tasks (h2_loop u') !! i = Some t ↔ tasks (h2_loop u) !! i = Some t;
  sp_loop : loop_ok (h2_loop u');
  sp_session : h2_conns u !! j ≠ None → h2_session u = true → h2_session u' = true;
}.

Lemma spares_conn j u u' : spares j u u' → conn_ok j u → conn_ok j u'.
Proof.
  intros [S1 (es & S2 & S2') S3 S4 S5 S6 S7 S8] Hok.
  destruct (trace_other j es (h2_out u) S2') as (T1 & T2 & T3 & T4 & T5 & T6 & T7). rewrite <- S2 in *.
  assert (within cap (h2_out u') → within cap (h2_out u)) as Hw by (rewrite S2; apply within_app).
  destruct Hok as [[[conn [Hm Hl Hf]]|Hg]|Hv].
  - left; left. exists conn. destruct Hm as [[H1 H2 H3 H4 H5 H6 H7 H8 H9 H10 H11] M2 M3 M4 M5 M6 M7].
    assert (own j u = buf j conn) as Eo by (unfold own; by rewrite H1).
    destruct (S3 (buf j conn)) as [K1 K2]; [by left|done|].
    assert (content j u' conn = content j u conn) as Ec by done.
    assert (h2_ids u !! tc_stream conn = Some j) as Hids by (by apply H2).
    split; [split; [split|..]|..].
    + congruence.
    + intros s. by rewrite S4.
    + intros Hc. by apply S5, H3.
    + done.
    + intros Hu. replace (new_buffer j) with (buf j conn) by (unfold buf; by rewrite Hu).
      rewrite K2. unfold buf. rewrite Hu. by apply H5.
    + done.
    + by rewrite K2, T1.
    + intros i. by rewrite S6, H8.
    + intros i Hi. destruct (H9 i Hi) as [g Hg]. exists g. by apply S6.
    + done.
    + done.
    + intros Hc. apply S8; [congruence|by apply M2].
    + intros Hw' Hb'. rewrite T1, T2, Ec. apply M3; tauto.
    + tauto.
    + congruence.
    + tauto.
    + done.
    + unfold live. by rewrite Ec.
    + intros Hc. destruct (Hf Hc) as (F1 & F2 & F3). rewrite Ec. split_and!; try done. by rewrite S5.
  - left; right. destruct Hg as [G1 G2 G3 G4 G5]. split; [congruence| |tauto|congruence|].
    + intros s. rewrite S4. apply G2.
    + intros H1 H2 H3 H4. rewrite T1, T2. apply G5; tauto.
  - right. destruct Hv as [V1 V2 V3 (V4 & V5 & V6) V7 V8 V9]. destruct (S3 (new_buffer j)) as [K1 K2]; [by right|done|].
    split; try congruence; [|tauto|split_and!; congruence|].
    + intros s. rewrite S4. apply V2.
    + intros i t Ht E1. apply (V7 i t); [|done]. by apply S6.
Qed.

Lemma local_spares id j u u' : j ≠ id → inv u → local id u u' → spares j u u'.
Proof.
  intros Hj Hi [A1 (es & A2 & A2') A3 A4 A0 A5 A6 A7 A8 A9 AD]. destruct (iv_apart _ Hi j id Hj) as [C1 C2]. split.
  - by apply A1.
  - exists es. auto.
  - intros b [->| ->] Hok; by apply A3.
  - intros s. by apply A4.
  - intros s Hs. split; [intros Hin; by eapply elem_of_sublist|]. intros Hin. apply A6; [congruence|done].
  - intros i t Ht. apply A7. congruence.
  - apply A8, Hi.
  - unfold rest in A9. by injection A9 as -> _ _ _ _ _ _ _ _.
Qed.

Lemma apart_local id u u' :
  (∀ i j, i ≠ j → clear_of (own i u) j u ∧ clear_of (new_buffer i) j u) → local id u u' →
  ∀ i j, i ≠ j → clear_of (own i u') j u' ∧ clear_of (new_buffer i) j u'.
Proof.
  intros Hap [A1 _ A3 _ _ _ _ _ _ _ _].
  assert (∀ i, i ≠ id → own i u' = own i u) as Ho by (intros i Hi; unfold own; by rewrite A1).
  assert (∀ b j, clear_of b j u → j ≠ id → clear_of b j u') as Hc.
  { intros b j [H1 H2] Hj. split; [by rewrite Ho|done]. }
  intros i j Hij. destruct (decide (j = id)) as [->|Hj].
  - rewrite Ho by done. destruct (Hap i id Hij) as [C1 C2]. split; by apply A3.
  - destruct (decide (i = id)) as [->|Hi].
    + destruct (Hap j id Hj) as [C1 C2]. destruct (A3 _ C1) as [[D1 D2] _]. destruct (A3 _ C2) as [[D3 D4] _].
      split; [split; apply db_apart_sym; [by rewrite (Ho j)|done]|]. by apply Hc; [apply Hap|].
    + rewrite Ho by done. destruct (Hap i j Hij) as [C1 C2]. split; by apply Hc.
Qed.

Lemma inv_local id u u' : inv u → local id u u' → after id u' → inv u'.
Proof.
  intros Hi Hl Ha. pose proof Hl as [A1 A2 A3 A4 A0 A5 A6 A7 A8 A9 AD]. pose proof A9 as R. unfold rest in R.
  injection R as R1 R2 R3 R4 R5 R6 R7 R8 R9.
  assert (∀ s j, h2_ids u' !! s = Some j → h2_ids u !! s = Some j) as Hids.
  { intros s j. destruct (decide (j = id)) as [->|Hj]; [apply A0|by rewrite A4]. }
  split.
  - intros j. destruct (decide (j = id)) as [->|Hj]; [by left|]. eapply spares_conn; [by eapply local_spares|apply Hi].
  - apply (apart_local id u u'); [apply Hi|done].
  - intros s j Hs. rewrite R7. by apply (iv_next _ Hi s j), Hids.
  - intros Hse. rewrite R1 in Hse. pose proof (iv_session _ Hi Hse) as He. apply map_empty. intros j.
    destruct (decide (j = id)) as [->|Hj]; [|by rewrite A1, He, lookup_empty].
    apply eq_None_not_Some. intros Hs. apply AD in Hs. rewrite He, lookup_empty in Hs. by inversion Hs.
  - intros info Hh. rewrite R8 in Hh. destruct (iv_health _ Hi info Hh) as [K1 K2 K3]. split.
    + destruct (h2_ids u' !! hc_stream info) as [j|] eqn:Hs; [|done]. apply Hids in Hs. congruence.
    + by rewrite R7.
    + intros i Ht. destruct (K3 i Ht) as (t & T1 & T2). exists t. split; [|done]. apply A7; [congruence|done].
  - apply A8, Hi.
  - rewrite R7. apply Hi.
  - rewrite R2. apply Hi.
Qed.

Lemma ok_ans_local ans id u u' : ok_ans ans u → local id u u' → ok_ans ans u'.
Proof.
  intros [H1 H2 H3] Hl. pose proof (local_session _ _ _ Hl) as Hs. destruct Hl as [A1 _ _ A4 A0 _ _ _ _ _ AD]. split.
  - intros j Hj. specialize (H1 j Hj). destruct (decide (j = id)) as [->|Hne]; [|by rewrite A1].
    apply eq_None_not_Some. intros Hs'. apply AD in Hs'. rewrite H1 in Hs'. by inversion Hs'.
  - intros s Hss. specialize (H2 s Hss). destruct (h2_ids u' !! s) as [j|] eqn:Hj; [|done].
    destruct (decide (j = id)) as [->|Hne]; [apply A0 in Hj|apply A4 in Hj; [|done]]; congruence.
  - by rewrite Hs.
Qed.

(** *** Steps on no connection *)

Record quiet u u' : Prop := {
  qu_conns : h2_conns u' = h2_conns u;
  qu_ids : h2_ids u' = h2_ids u;
  qu_disk : h2_disk u' = h2_disk u;
  qu_out : ∃ es, h2_out u' = h2_out u ++ es ∧ Forall (λ o, out_conn o = None) es;
  qu_streams s : h2_ids u !! s ≠ None → s ∈ h2_streams u' ↔ s ∈ h2_streams u;
  qu_tasks i t : task_conn t ≠ None → tasks (h2_loop u') !! i = Some t ↔ tasks (h2_loop u) !! i = Some t;
  qu_loop : loop_ok (h2_loop u) → loop_ok (h2_loop u');
  qu_session : h2_session u' = h2_session u;
  qu_handler : h2_in_handler u' = h2_in_handler u;
  qu_next : h2_next_stream u' = h2_next_stream u;
}.

Lemma quiet_refl u : quiet u u.
Proof. split; try done. exists []. by rewrite app_nil_r. Qed.

Lemma quiet_trans u1 u2 u3 : quiet u1 u2 → quiet u2 u3 → quiet u1 u3.
Proof.
  intros [A1 A2 A3 (es1 & A4 & A4') A5 A6 A7 A8 A9 A0] [B1 B2 B3 (es2 & B4 & B4') B5 B6 B7 B8 B9 B0].
  split; try congruence; [exists (es1 ++ es2)|..].
  - split; [by rewrite B4, A4, app_assoc|by apply Forall_app].
  - intros s Hs. rewrite B5 by congruence. by apply A5.
  - intros i t Ht. by rewrite B6, A6.
  - auto.
Qed.

Lemma quiet_spares j u u' : quiet u u' → loop_ok (h2_loop u) → spares j u u'.
Proof.
  intros [A1 A2 A3 (es & A4 & A4') A5 A6 A7 A8 A9 A0] Hl. split; try congruence.
  - exists es. split; [done|]. by apply quiet_unrelated.
  - intros b _. by rewrite A3.
  - by rewrite A2.
  - intros s Hs. apply A5. congruence.
  - intros i t Ht. apply A6. congruence.
  - auto.
Qed.

Lemma inv_quiet u u' : inv u → quiet u u' → (∀ info, h2_health u' = Some info → health_ok u' info) → inv u'.
Proof.
  intros Hi Hq Hh. pose proof Hq as [A1 A2 A3 A4 A5 A6 A7 A8 A9 A0]. split; try done.
  - intros j. eapply spares_conn; [apply quiet_spares; [done|apply Hi]|apply Hi].
  - intros i j Hij. unfold clear_of, own. rewrite A1. by apply Hi.
  - intros s j. rewrite A2, A0. apply Hi.
  - rewrite A1, A8. apply Hi.
  - apply A7, Hi.
  - rewrite A0. apply Hi.
  - rewrite A9. apply Hi.
Qed.

Lemma ok_ans_quiet ans u u' : ok_ans ans u → quiet u u' → ok_ans ans u'.
Proof. intros [H1 H2 H3] [A1 A2 _ _ _ _ _ A8 _ _]. split; by rewrite ?A1, ?A2, ?A8. Qed.

Lemma health_keep u u' info :
  health_ok u info → h2_ids u' = h2_ids u → h2_next_stream u' = h2_next_stream u → h2_loop u' = h2_loop u →
  health_ok u' info.
Proof. intros [H1 H2 H3] E1 E2 E3. split; by rewrite ?E1, ?E2, ?E3. Qed.

(** A call on a collaborator. *)
Lemma quiet_calls u es : Forall (λ o, out_conn o = None) es → quiet u (set_h2_out (h2_out u ++ es) u).
Proof. intros Hes. split; try done. by exists es. Qed.

Lemma inv_call u o : inv u → out_conn o = None → inv (h2_call o u).
Proof.
  intros Hi Ho. apply (inv_quiet u); [done|by apply (quiet_calls u [o]), Forall_singleton|].
  intros info Hh. eapply health_keep; [by apply Hi|done..].
Qed.

Lemma ok_ans_call ans u o : ok_ans ans u → ok_ans ans (h2_call o u).
Proof. by intros []. Qed.

(** Events raised from inside an event only add to the trace. *)
Lemma flow_control_grows ans id size window u u' :
  update_flow_control ans id size window u = Ok u' → h2_out u `prefix_of` h2_out u'.
Proof.
  unfold update_flow_control. destruct (h2_conns u !! id) as [conn|].
  2:{ destruct (udp_has ans id); intros [= <-]; [by apply prefix_app_r|done]. }
  set (c := set_read_enabled_flag _ conn). set (v := put_conn id c u).
  set (m := if tc_stream_closed c then Ok v else on_session _ v).
  assert (∀ w, m = Ok w → h2_out u `prefix_of` h2_out w) as Hm.
  { intros w. unfold m, on_session. destruct (tc_stream_closed c), (h2_session v); intros [= <-]; try done; by apply prefix_app_r. }
  destruct m as [w| |]; try done. specialize (Hm w eq_refl). mstep.
  destruct (if _ && _ then has_unread c w else Ok false) as [[]| |]; mstep; try done; [|by intros [= <-]].
  unfold auto_submit. destruct (vpn_event_loop_submit _ _) as [t l]; intros [= <-]; exact Hm.
Qed.

Lemma raise_in_grows ans room e u r u' :
  raise_in ans room e u = Ok (r, u') → h2_out u ++ [H2Raised e r] `prefix_of` h2_out u'.
Proof.
  revert e u r u'. induction room as [|room IH]; intros e u r u'; [done|]. cbn [raise_in].
  destruct (react (h2_out u) e) as [calls x]. set (v := h2_call _ u).
  enough (∀ v v', run_calls ans (raise_in ans room) calls v = Ok v' → h2_out v `prefix_of` h2_out v') as Hc.
  { destruct (run_calls ans _ calls v) as [v'| |] eqn:E1; try done. mstep. intros [= <- <-]. by apply Hc in E1. }
  clear v. induction calls as [|c calls IHc]; intros v v'; cbn [run_calls]; [by intros [= <-]|].
  destruct (run_call ans (raise_in ans room) c v) as [w| |] eqn:E1; try done. mstep. intros Hrun.
  etransitivity; [|by apply IHc]. destruct c as [id size window|id graceful]; cbn [run_call] in E1.
  - by eapply flow_control_grows.
  - destruct (udp_has ans id); [injection E1 as <-; by apply prefix_app_r|].
    destruct (h2_conns v !! id) as [conn|]; [injection E1 as <-|].
    + unfold close_async, auto_reset, auto_submit. destruct (vpn_event_loop_submit _ _) as [? ?]. by destruct (tc_close_task conn).
    + destruct (raise_in ans room (EvConnectionClosed id) v) as [[y w']| |] eqn:E2; try done. injection E1 as <-.
      etransitivity; [|by eapply IH]. by apply prefix_app_r.
Qed.

Lemma close_unknown_ends ans id graceful async u u' :
  h2_conns u !! id = None → udp_has ans id = false → h2_close_connection ans id graceful async u = Ok u' →
  (terminals id (h2_out u) < terminals id (h2_out u'))%nat.
Proof.
  intros Hc Hu. unfold h2_close_connection, h2_notify, h2_raise. rewrite Hu, Hc.
  destruct (raise_in ans _ _ u) as [[r v]| |] eqn:E1; try done. mstep. intros [= <-].
  apply raise_in_grows in E1 as [es ->]. rewrite !terminals_app.
  assert (terminals id [H2Raised (EvConnectionClosed id) r] = 1%nat) as ->; [|lia].
  unfold terminals. cbn. by rewrite decide_True by (by apply bool_decide_true).
Qed.

(** What every step but the opening of a connection or a session keeps. *)
Record shrink u u' : Prop := {
  sh_session : h2_session u' = h2_session u;
  sh_handler : h2_in_handler u' = h2_in_handler u;
  sh_ids s j : h2_ids u' !! s = Some j → h2_ids u !! s = Some j;
  sh_conns id : is_Some (h2_conns u' !! id) → is_Some (h2_conns u !! id);
  sh_out : h2_out u `prefix_of` h2_out u';
}.

Lemma shrink_refl u : shrink u u.
Proof. by split. Qed.

Lemma shrink_trans u1 u2 u3 : shrink u1 u2 → shrink u2 u3 → shrink u1 u3.
Proof. intros [A1 A2 A3 A4 A5] [B1 B2 B3 B4 B5]. split; [congruence|congruence|auto|auto|by etransitivity]. Qed.

Lemma shrink_local id u u' : local id u u' → shrink u u'.
Proof.
  intros [A1 (es & A2 & _) _ A4 A0 _ _ _ _ A9 AD]. unfold rest in A9. injection A9 as R1 R2 _ _ _ _ _ _ _.
  split; [done|done| | |by exists es].
  - intros s j. destruct (decide (j = id)) as [->|Hj]; [apply A0|by rewrite A4].
  - intros j. destruct (decide (j = id)) as [->|Hj]; [apply AD|by rewrite A1].
Qed.

Lemma shrink_quiet u u' : quiet u u' → shrink u u'.
Proof.
  intros [A1 A2 _ (es & A4 & _) _ _ _ A8 A9 _]. split; [done|done|by rewrite A2|by rewrite A1|by exists es].
Qed.

Lemma ok_ans_shrink ans u u' : ok_ans ans u → shrink u u' → ok_ans ans u'.
Proof.
  intros [H1 H2 H3] [S1 S2 S3 S4 S5]. split.
  - intros id Hu. apply eq_None_not_Some. intros Hs. apply S4 in Hs. rewrite H1 in Hs by done. by inversion Hs.
  - intros s Hs. destruct (h2_ids u' !! s) as [j|] eqn:Hj; [|done]. apply S3 in Hj. by rewrite H2 in Hj.
  - by rewrite S1.
Qed.

(** ** Events *)

Lemma notify_none ans e u :
  event_conn e = None → ∃ r, h2_notify ans e u = Ok (h2_call (H2Raised e r) u).
Proof.
  intros He. unfold h2_notify, h2_raise. cbn [raise_in]. pose proof (react_own _ Hreact (h2_out u) e) as Ho.
  destruct (react (h2_out u) e) as [[|c calls] r]; [by exists r|].
  specialize (Ho c (list_elem_of_here _ _)). congruence.
Qed.

(** An event of the session. *)
Lemma inv_notify_none ans e u :
  inv u → event_conn e = None → okP (h2_notify ans e u) (λ u', inv u' ∧ quiet u u' ∧ h2_streams u' = h2_streams u).
Proof.
  intros Hi He. destruct (notify_none ans e u He) as [r ->]. apply okP_ret.
  split; [by apply inv_call|]. split; [|done]. by apply (quiet_calls u [_]), Forall_singleton.
Qed.

(** An event of a connection that goes on. *)
Lemma inv_notify ans id e u :
  inv u → ok_ans ans u → is_Some (h2_conns u !! id) → event_conn e = Some id →
  (∀ r, ends id (H2Raised e r) = false ∧ fails id (H2Raised e r) = false ∧ taken_of id (H2Raised e r) = []) →
  okP (h2_notify ans e u) (λ u', inv u' ∧ local id u u').
Proof.
  intros Hi Ha [conn Hc] He Hk. destruct (inv_kept _ _ _ Hi Hc) as [Hm Hl Hf].
  eapply okP_mono; [apply (notify_mid ans id e u conn (content id u conn)); try done; by eapply inv_route|].
  intros u' (conn' & L & M & S & C & V & T). split; [|done]. apply (inv_local id u); [done|done|].
  left. exists conn'. destruct S as (S1 & S2 & S3 & _). split; [by rewrite C|auto|].
  intros Hcl. rewrite S2 in Hcl. rewrite S3, C, T, S1. by apply Hf.
Qed.

(** *** Health checks *)

Lemma reset_health_spec u :
  loop_ok (h2_loop u) →
  (∀ info i t, h2_health u = Some info → hc_timeout_task info = Some i → tasks (h2_loop u) !! i = Some t →
    task_conn t = None) →
  quiet u (reset_health_check u) ∧ h2_health (reset_health_check u) = None ∧
  h2_streams (reset_health_check u) = h2_streams u.
Proof.
  intros Hl Ht. unfold reset_health_check. destruct (h2_health u) as [info|] eqn:Hh; [|by split; [apply quiet_refl|]].
  destruct (reset_task (hc_timeout_task info) (set_h2_health None u) Hl) as (l' & -> & L & T).
  split; [|done]. split; try done; cbn.
  - exists []. by rewrite app_nil_r.
  - intros i t Hc. rewrite T. destruct (hc_timeout_task info) as [k|] eqn:Hk; [|done].
    rewrite lookup_delete_Some. split; [by intros []|]. intros Hi. split; [|done]. intros <-.
    destruct Hc. by eapply Ht.
Qed.

Lemma inv_health_tasks u :
  inv u → ∀ info i t, h2_health u = Some info → hc_timeout_task info = Some i → tasks (h2_loop u) !! i = Some t →
  task_conn t = None.
Proof.
  intros Hi info i t Hh Ht Hi'. destruct (ho_task _ _ (iv_health _ Hi info Hh) i Ht) as (t' & E1 & E2). congruence.
Qed.

Lemma inv_reset_health u :
  inv u → inv (reset_health_check u) ∧ quiet u (reset_health_check u) ∧ h2_health (reset_health_check u) = None ∧
  h2_streams (reset_health_check u) = h2_streams u.
Proof.
  intros Hi. destruct (reset_health_spec u (iv_loop _ Hi) (inv_health_tasks u Hi)) as (Q & H & S).
  split; [|done]. apply (inv_quiet u); [done|done|]. intros info. by rewrite H.
Qed.

(** ** Streams *)

(** The connections that stay, with the same stream; whether their users have
    closed them does not change. *)
Definition keeps u u' : Prop :=
  ∀ id c', h2_conns u' !! id = Some c' → ∃ c, h2_conns u !! id = Some c ∧
    tc_client_closed c' = tc_client_closed c ∧ tc_stream c' = tc_stream c.

Lemma keeps_trans u1 u2 u3 : keeps u1 u2 → keeps u2 u3 → keeps u1 u3.
Proof.
  intros H1 H2 id c3 Hc. destruct (H2 id c3 Hc) as (c2 & Hc2 & E1 & E2). destruct (H1 id c2 Hc2) as (c1 & Hc1 & E3 & E4).
  exists c1. split_and!; congruence.
Qed.

Lemma keeps_conns u u' : h2_conns u' = h2_conns u → keeps u u'.
Proof. intros E1 id c'. rewrite E1. by exists c'. Qed.

(** The stream leaves the session's table. *)
Lemma quiet_filter u s : h2_ids u !! s = None → quiet u (set_h2_streams (filter (λ x, x ≠ s) (h2_streams u)) u).
Proof.
  intros Hs. split; try done; cbn; [exists []; by rewrite app_nil_r|].
  intros x Hx. rewrite list_elem_of_filter. split; [by intros []|]. intros Hin. split; [congruence|done].
Qed.

Lemma inv_filter u s :
  inv u → h2_ids u !! s = None → inv (set_h2_streams (filter (λ x, x ≠ s) (h2_streams u)) u).
Proof.
  intros Hi Hs. apply (inv_quiet u); [done|by apply quiet_filter|].
  intros info Hh. eapply health_keep; [by apply Hi|done..].
Qed.

(** *** While the session goes *)

Lemma local_with id u u' : local id u u' → local id (with_session u) (with_session u').
Proof.
  intros [A1 A2 A3 A4 A0 A5 A6 A7 A8 A9 AD]. split; try done. unfold rest in *. cbn.
  by injection A9 as _ -> -> -> -> -> -> -> ->.
Qed.

Lemma quiet_with u u' : quiet u u' → quiet (with_session u) (with_session u').
Proof. by intros [A1 A2 A3 A4 A5 A6 A7 A8 A9 A0]. Qed.

Lemma after_with id u : after id u → after id (with_session u).
Proof.
  intros [[conn [[[H1 H2 H3 H4 H5 H6 H7 H8 H9 H10 H11] M2 M3 M4 M5 M6 M7] Hl Hf]]|[G1 G2 G3 G4 G5]]; [left|right; by split].
  by exists conn.
Qed.

(** What an event of the session may do to the health check. *)
Definition health_step u u' : Prop :=
  h2_health u' = None ∨ h2_health u' = h2_health u ∧ h2_loop u' = h2_loop u.

Lemma inv_health_step u u' : inv (with_session u) → quiet u u' → health_step u u' → inv (with_session u').
Proof.
  intros Hi Hq Hh. apply (inv_quiet (with_session u)); [done|by apply quiet_with|]. intros info Hs. cbn in Hs.
  destruct Hh as [Hn|[H1 H2]]; [congruence|]. eapply health_keep; [apply Hi; cbn; by rewrite <- H1|..]; cbn; [|apply Hq|done].
  apply Hq.
Qed.

(** A stream that is not of a connection. *)
Lemma other_processed ans s error_code u :
  inv (with_session u) → h2_ids u !! s = None →
  okP (stream_processed ans s error_code u) (λ u', quiet u u' ∧ health_step u u').
Proof.
  intros Hi Hs. unfold stream_processed.
  assert (∀ o, out_conn o = None → quiet u (h2_call o u) ∧ health_step u (h2_call o u)) as Hcall.
  { intros o Ho. split; [by apply (quiet_calls u [o]), Forall_singleton|by right]. }
  case_bool_decide; [by apply okP_ret, Hcall|]. case_bool_decide; [by apply okP_ret, Hcall|].
  assert (okP (conn_stream_processed ans s error_code u) (λ u', quiet u u' ∧ health_step u u')) as Hc.
  { unfold conn_stream_processed, get_conn_by_stream_id. rewrite Hs. apply okP_ret. split; [apply quiet_refl|by right]. }
  destruct (h2_health u) as [info|] eqn:Hh; [|done]. destruct (Z.eqb_spec (hc_stream info) s) as [_|_]; [|done].
  destruct (reset_health_spec u (iv_loop _ Hi) (inv_health_tasks _ Hi)) as (Q & N & _).
  destruct (h2_closing u); [apply okP_ret; split; [done|by left]|]. cbv zeta.
  match goal with |- context [if negb ?c then _ else _] => destruct (negb c) end; [|apply okP_ret; split; [done|by left]].
  unfold report_health_check_error.
  match goal with |- okP (h2_notify ans ?e _) _ => assert (event_conn e = None) as He end.
  { destruct (hc_need_result info); [done|]. cbn. by rewrite bool_decide_true. }
  destruct (notify_none ans _ (reset_health_check u) He) as [r ->]. apply okP_ret.
  split; [|by left]. eapply quiet_trans; [exact Q|]. by apply (quiet_calls _ [_]), Forall_singleton.
Qed.

Lemma close_stream_any ans s error_code u :
  inv (with_session u) → ok_ans ans (with_session u) →
  okP (close_stream ans s error_code u) (λ u', inv (with_session u') ∧ shrink u u' ∧ keeps u u' ∧
    (∀ id c', h2_conns u' !! id = Some c' → tc_stream c' = s → tc_stream_closed c' = true)).
Proof.
  intros Hi Ha. destruct (h2_ids u !! s) as [id|] eqn:Hs.
  - destruct (inv_ids s id _ Hi Hs) as (conn & Hc & <-). destruct (inv_kept id _ conn Hi Hc) as [Hm Hl Hf].
    eapply okP_mono; [apply (close_stream_spec ans id error_code u conn); [done|done|by apply (inv_route ans id _ conn Hi)]|].
    intros u' [L D].
    assert (after id u') as A by (destruct D as [?|(c' & ? & _)]; [by right|left; by exists c']).
    assert (∀ c', h2_conns u' !! id = Some c' → kept id u' c' ∧ tc_stream_closed c' = true ∧
      tc_client_closed c' = tc_client_closed conn) as Hid.
    { intros c' Hc'. destruct D as [Hg|(c2 & K & D)]; [by rewrite (go_conn _ _ Hg) in Hc'|].
      pose proof (st_conn _ _ _ (mi_struct _ _ _ _ (ke_mid _ _ _ K))) as E2. rewrite Hc' in E2. by injection E2 as ->. }
    assert (keeps u u') as K.
    { intros j c' Hj. destruct (decide (j = id)) as [->|Hne]; [|rewrite (lo_conns _ _ _ L j Hne) in Hj; by exists c'].
      destruct (Hid c' Hj) as (K1 & _ & K2). exists conn. split_and!; try done.
      apply (st_ids _ _ _ (mi_struct _ _ _ _ Hm)), (lo_keep _ _ _ L), kept_ids, K1. }
    split_and!; [|by eapply shrink_local|done|].
    + apply (inv_local id (with_session u)); [done|by apply local_with|by apply after_with].
    + intros j c' Hj E1. destruct (decide (j = id)) as [->|Hne]; [by apply Hid|].
      destruct (K j c' Hj) as (c & Hc2 & _ & E2). destruct Hne.
      pose proof (kept_ids j _ c (inv_kept j _ c Hi Hc2)) as Hx. cbn in Hx. congruence.
  - unfold close_stream. eapply okP_bind; [by apply other_processed|]. cbn beta. intros u1 [Q H]. apply okP_ret.
    assert (inv (with_session u1)) as Hi1 by (by eapply inv_health_step).
    assert (h2_ids u1 !! s = None) as Hs1 by (by rewrite (qu_ids _ _ Q)).
    split_and!.
    + by apply (inv_filter (with_session u1) s).
    + eapply shrink_trans; [by apply shrink_quiet|]. by apply shrink_quiet, quiet_filter.
    + apply keeps_conns, Q.
    + intros id c' Hc' <-. cbn in Hc'. pose proof (kept_ids id _ c' (inv_kept id _ c' Hi1 Hc')) as Hx. cbn in Hx. congruence.
Qed.

Lemma reset_stream_any ans s error_code u :
  inv u → ok_ans ans u → h2_session u = true →
  okP (reset_stream ans s error_code u) (λ u', inv u' ∧ shrink u u' ∧ keeps u u').
Proof.
  intros Hi Ha Hse. unfold reset_stream, on_session. rewrite Hse. mstep. set (o := ResetStream s error_code).
  assert (quiet u (h2_call o u)) as Q by (by apply (quiet_calls u [o]), Forall_singleton).
  assert (inv (h2_call o u)) as Hi1 by (by apply inv_call).
  destruct (_ && _).
  - eapply okP_mono; [apply (close_stream_any ans s error_code (h2_call o u)); rewrite with_session_id by done; [done|by apply ok_ans_call]|].
    intros u' (I & S & K & _). assert (h2_session u' = true) as Hse' by (by rewrite (sh_session _ _ S)).
    rewrite with_session_id in I by done. split_and!; [done| |].
    + eapply shrink_trans; [by apply shrink_quiet|done].
    + eapply keeps_trans; [|exact K]. by apply keeps_conns.
  - apply okP_ret. split_and!; [done|by apply shrink_quiet|by apply keeps_conns].
Qed.

Lemma reset_streams_any ans l u :
  inv u → ok_ans ans u → h2_session u = true → okP (reset_streams ans l u) (λ u', inv u' ∧ shrink u u').
Proof.
  revert u. induction l as [|s l IH]; intros u Hi Ha Hse; cbn [reset_streams].
  - apply okP_ret. split; [done|apply shrink_refl].
  - eapply okP_bind; [by apply reset_stream_any|]. cbn beta. intros u1 (I & S & _).
    eapply okP_mono; [apply IH; [done|by eapply ok_ans_shrink|by rewrite (sh_session _ _ S)]|].
    intros u2 [I2 S2]. split; [done|by eapply shrink_trans].
Qed.

(** ** Closing the session *)

Lemma inv_with u : inv u → inv (with_session u).
Proof.
  intros [I1 I2 I3 I4 I5 I6 I7 I8]. split; try done.
  - intros id. destruct (I1 id) as [A|[V1 V2 V3 V4 V5 V6 V7]]; [left; by apply after_with|right; by split].
  - intros info Hh. by destruct (I5 info Hh).
Qed.

Definition all_closed u : Prop := ∀ id c, h2_conns u !! id = Some c → tc_client_closed c = true.

Lemma close_connections_spec ans l u :
  inv u → ok_ans ans u → NoDup l → (∀ id, id ∈ l → is_Some (h2_conns u !! id)) →
  (∀ id c, h2_conns u !! id = Some c → id ∉ l → tc_client_closed c = true) →
  okP (close_connections ans l u) (λ u', inv u' ∧ shrink u u' ∧ all_closed u').
Proof.
  revert u. induction l as [|id l IH]; intros u Hi Ha Hnd Hin Hcl; cbn [close_connections].
  { apply okP_ret. split_and!; [done|apply shrink_refl|]. intros i c Hc. apply (Hcl i c Hc). by apply not_elem_of_nil. }
  apply NoDup_cons in Hnd as [Hni Hnd]. destruct (Hin id (list_elem_of_here _ _)) as [conn Hc].
  unfold h2_close_connection. pose proof (inv_route ans id u conn Hi Ha Hc) as Hr. rewrite (ro_udp _ _ _ _ Hr), Hc. mstep.
  eapply okP_bind; [apply (close_tcp_spec ans id false u conn); [apply (inv_kept _ _ _ Hi Hc)|done|by eapply inv_open]|].
  cbn beta. intros u1 [L A].
  eapply okP_mono; [apply (IH u1)|].
  - apply (inv_local id u); [done|done|by eapply after_as_after].
  - by eapply ok_ans_local.
  - done.
  - intros i Hl. rewrite (lo_conns _ _ _ L) by congruence. apply Hin. by apply list_elem_of_further.
  - intros i c Hi1 Hl. destruct (decide (i = id)) as [->|Hne].
    + destruct A as [Hg|(c' & K & E1)]; [by rewrite (go_conn _ _ Hg) in Hi1|].
      pose proof (st_conn _ _ _ (mi_struct _ _ _ _ (ke_mid _ _ _ K))) as E2. congruence.
    + apply (Hcl i); [by rewrite <- (lo_conns _ _ _ L)|]. by apply not_elem_of_cons.
  - intros u' (I & S & C). split_and!; [done| |done]. eapply shrink_trans; [by eapply shrink_local|done].
Qed.

Lemma closed_streams u : inv u → all_closed u → ∀ id c, h2_conns u !! id = Some c → tc_stream c ∈ h2_streams u.
Proof.
  intros Hi Hcl id c Hc. destruct (inv_kept _ _ _ Hi Hc) as [Hm _ Hf]. apply (st_open _ _ _ (mi_struct _ _ _ _ Hm)).
  destruct (tc_stream_closed c) eqn:Hs; [|done]. destruct (Hf Hs) as [Hf1 _]. by rewrite (Hcl id c Hc) in Hf1.
Qed.

(** All connections go with their streams. *)
Lemma close_streams_spec ans l u :
  inv (with_session u) → ok_ans ans (with_session u) → all_closed u →
  (∀ id c, h2_conns u !! id = Some c → tc_stream c ∈ l) →
  okP (close_streams ans l u) (λ u', inv (with_session u') ∧ shrink u u' ∧ h2_conns u' = ∅).
Proof.
  revert u. induction l as [|s l IH]; intros u Hi Ha Hcl Hin; cbn [close_streams].
  { apply okP_ret. split_and!; [done|apply shrink_refl|]. apply map_empty. intros id.
    destruct (h2_conns u !! id) as [c|] eqn:Hc; [|done]. by destruct (not_elem_of_nil _ (Hin id c Hc)). }
  eapply okP_bind; [by apply close_stream_any|]. cbn beta. intros u1 (I & S & K & D).
  assert (all_closed u1) as Hcl1.
  { intros id c' Hc'. destruct (K id c' Hc') as (c & Hc & E1 & _). rewrite E1. by apply (Hcl id). }
  eapply okP_mono; [apply (IH u1)|].
  - done.
  - destruct S as [S1 S2 S3 S4 S5]. by apply (ok_ans_shrink ans (with_session u)).
  - done.
  - intros id c' Hc'. destruct (K id c' Hc') as (c & Hc & _ & E1). specialize (Hin id c Hc). rewrite <- E1 in Hin.
    apply elem_of_cons in Hin as [Hs|]; [|done]. specialize (D id c' Hc' Hs).
    destruct (inv_kept id _ c' I Hc') as [_ _ Hf]. destruct (Hf D) as [Hf1 _]. by rewrite (Hcl1 id c' Hc') in Hf1.
  - intros u' (I2 & S2 & E2). split_and!; [done| |done]. by eapply shrink_trans.
Qed.

(** An upstream with no connections and nothing under way. *)
Lemma inv_cleared u v :
  inv (with_session u) → h2_conns u = ∅ → h2_conns v = ∅ → h2_ids v = ∅ → h2_disk v = h2_disk u →
  (∃ es, h2_out v = h2_out u ++ es ∧ Forall (λ o, out_conn o = None) es) →
  (∀ i t, task_conn t ≠ None → tasks (h2_loop v) !! i = Some t ↔ tasks (h2_loop u) !! i = Some t) →
  loop_ok (h2_loop v) → h2_next_stream v = 1 → h2_health v = None → h2_in_handler v = h2_in_handler u → inv v.
Proof.
  intros Hi Hu Hv Hids Hd (es & Ho & Hes) Ht Hl Hn Hh Hha. split; try done.
  - intros j. apply (spares_conn j (with_session u)); [|apply Hi]. split; try done; cbn.
    + by rewrite Hv, Hu.
    + exists es. split; [done|]. by apply quiet_unrelated.
    + intros b _. by rewrite Hd.
    + intros s. rewrite Hids, lookup_empty. split; [done|]. intros Hs.
      destruct (inv_ids s j _ Hi Hs) as (c & Hc & _). cbn in Hc. by rewrite Hu, lookup_empty in Hc.
    + intros s Hs. destruct (inv_ids s j _ Hi Hs) as (c & Hc & _). cbn in Hc. by rewrite Hu, lookup_empty in Hc.
    + intros i t Htc. apply Ht. congruence.
    + by rewrite Hu, lookup_empty.
  - intros i j Hij. pose proof (iv_apart _ Hi i j Hij) as Hap. unfold clear_of, own in *. cbn in Hap.
    rewrite Hu in Hap. rewrite Hv. done.
  - intros s id. by rewrite Hids, lookup_empty.
  - intros info. by rewrite Hh.
  - rewrite Hn. lia.
  - rewrite Hha. apply (iv_handler _ Hi).
Qed.

Lemma clear_empty u : h2_conns u = ∅ → clear_connections u = set_h2_conns ∅ u.
Proof.
  intros He. unfold clear_connections. rewrite He.
  assert (conns_order ∅ = []) as ->; [|done].
  apply Permutation_nil_r. rewrite conns_order_perm, map_to_list_empty. done.
Qed.

Lemma reset_session_spec ans u :
  inv u → ok_ans ans u → all_closed u →
  okP (reset_session ans u) (λ u', inv (with_session u') ∧ h2_conns u' = ∅ ∧ h2_in_handler u' = h2_in_handler u ∧
    h2_session u' = false ∧ h2_out u `prefix_of` h2_out u').
Proof.
  intros Hi Ha Hcl. unfold reset_session. destruct (h2_session u) eqn:Hse; cbv zeta.
  - set (u1 := h2_call CloseHttpSession (set_h2_session false u)).
    assert (with_session u1 = h2_call CloseHttpSession u) as Eu by (destruct u; cbn in *; by subst).
    assert (inv (with_session u1)) as Hi1 by (rewrite Eu; by apply inv_call).
    eapply okP_mono; [apply (close_streams_spec ans _ u1); [done|rewrite Eu; by apply ok_ans_call|done|]|].
    + intros id c Hc. rewrite streams_order_perm. by apply (closed_streams u Hi Hcl id c).
    + intros u' (I & S & E1). split_and!; [done|done|by rewrite (sh_handler _ _ S)|by rewrite (sh_session _ _ S)|].
      etransitivity; [|apply S]. by apply prefix_app_r.
  - apply okP_ret. split_and!; [|by apply (iv_session _ Hi)|done|done|done].
    by apply inv_with.
Qed.

(** The stream of a multiplexer goes. *)
Lemma close_mux ans x u :
  inv u → ok_ans ans u → all_closed u → x = udp_stream ans ∨ x = icmp_stream ans →
  okP match x with Some s => reset_stream ans s NGHTTP2_CANCEL u | None => Ok u end
    (λ u', inv u' ∧ shrink u u' ∧ all_closed u' ∧ ok_ans ans u').
Proof.
  intros Hi Ha Hc Hx. destruct x as [s|]; [|apply okP_ret; split_and!; [done|apply shrink_refl|done|done]].
  eapply okP_mono; [apply reset_stream_any; [done|done|]|].
  - destruct (h2_session u) eqn:E1; [done|]. destruct (an_session _ _ Ha E1) as [E2 E3]. destruct Hx; congruence.
  - intros v' (I & S & K). split_and!; [done|done| |by eapply ok_ans_shrink].
    intros id c' Hc'. destruct (K id c' Hc') as (c & Hc1 & E1 & _). rewrite E1. by apply (Hc id).
Qed.

(** The end of [close_session]. *)
Definition forget u : U :=
  set_h2_closing false (reset_health_check (set_h2_next_stream 1
    (h2_call (OnIcmpMux "close") (h2_call (OnUdpMux "close")
      (set_h2_ids ∅ (set_h2_conns ∅ (h2_call (OnSocket "reset") u))))))).

Lemma forget_spec u :
  inv (with_session u) → h2_conns u = ∅ →
  inv (forget u) ∧ h2_conns (forget u) = ∅ ∧ h2_session (forget u) = h2_session u ∧
  h2_in_handler (forget u) = h2_in_handler u ∧ h2_out u `prefix_of` h2_out (forget u).
Proof.
  intros Hi Hc. unfold forget. set (v := set_h2_next_stream 1 _).
  destruct (reset_health_spec v (iv_loop _ Hi) (inv_health_tasks _ Hi)) as (Q & N & _).
  destruct Q as [Q1 Q2 Q3 (es & Q4 & Q4') Q5 Q6 Q7 Q8 Q9 Q0]. split_and!; cbn; try done.
  2:{ rewrite Q4. unfold v. cbn. rewrite <- !app_assoc. by apply prefix_app_r. }
  apply (inv_cleared u); cbn; try done.
  - eexists. rewrite Q4. unfold v. cbn. rewrite <- !app_assoc. split; [done|].
    rewrite !Forall_app, !Forall_singleton. done.
  - apply Q7, (iv_loop _ Hi).
Qed.

Lemma close_session_spec ans u :
  inv u → ok_ans ans u →
  okP (close_session ans u) (λ u', inv u' ∧ h2_conns u' = ∅ ∧ h2_session u' = false ∧
    h2_in_handler u' = h2_in_handler u ∧ h2_out u `prefix_of` h2_out u').
Proof.
  intros Hi Ha. unfold close_session. set (u0 := set_h2_closing true u).
  assert (inv u0) as Hi0.
  { apply (inv_quiet u); [done|split; try done; exists []; by rewrite app_nil_r|].
    intros info Hh. eapply health_keep; [by apply Hi|done..]. }
  assert (ok_ans ans u0) as Ha0 by (by destruct Ha). pose proof (conns_order_perm (h2_conns u0)) as Hp.
  eapply okP_bind; [apply (close_connections_spec ans _ u0 Hi0 Ha0)|].
  { rewrite Hp. apply NoDup_fst_map_to_list. }
  { intros id. rewrite Hp, list_elem_of_fmap. intros ([i c] & -> & Hc). apply elem_of_map_to_list in Hc. by eexists. }
  { intros id c Hc Hn. destruct Hn. rewrite Hp, list_elem_of_fmap. exists (id, c). split; [done|].
    by apply elem_of_map_to_list. }
  cbn beta. intros u1 (I1 & S1 & C1). pose proof (ok_ans_shrink _ _ _ Ha0 S1) as A1.
  eapply okP_bind; [apply (close_mux ans (udp_stream ans) u1); [done|done|done|by left]|].
  cbn beta. intros u2 (I2 & S2 & C2 & A2).
  eapply okP_bind; [apply (close_mux ans (icmp_stream ans) u2); [done|done|done|by right]|].
  cbn beta. intros u3 (I3 & S3 & C3 & A3).
  eapply okP_bind; [by apply (reset_session_spec ans u3)|].
  cbn beta. intros u4 (I4 & C4 & H4 & Se4 & O4). cbv zeta. rewrite clear_empty by done. apply okP_ret.
  destruct (forget_spec u4 I4 C4) as (F1 & F2 & F3 & F4 & F5).
  change (inv (forget u4) ∧ h2_conns (forget u4) = ∅ ∧ h2_session (forget u4) = false ∧
    h2_in_handler (forget u4) = h2_in_handler u ∧ h2_out u `prefix_of` h2_out (forget u4)).
  split_and!; [done|done|congruence| |].
  2:{ etransitivity; [apply (sh_out _ _ S1 : h2_out u `prefix_of` _)|]. etransitivity; [apply S2|].
      etransitivity; [apply S3|]. by etransitivity. }
  by rewrite F4, H4, (sh_handler _ _ S3), (sh_handler _ _ S2), (sh_handler _ _ S1).
Qed.


(** ** Events of the session *)

(** The data that comes is not astronomical. *)
Definition allowed_http (e : HttpEvent) u : Prop :=
  match e with
  | HData s data => s ∈ h2_streams u → total_got (h2_out u) + blen data < 2 ^ 63
  | _ => True
  end.

(** What is asserted of an event: data comes on streams that belong to a
    connection or to a multiplexer. *)
Definition expected_http (ans : H2Answers) (e : HttpEvent) u : Prop :=
  match e with
  | HData s data =>
      s ∈ h2_streams u → udp_stream ans = Some s ∨ icmp_stream ans = Some s ∨ is_Some (h2_ids u !! s)
  | _ => True
  end.

(** How an operation ends whose assertions are [asserted]: one may fail, where they are
    compiled in, if [asserted] does not hold; nothing else goes wrong. *)
Definition h2_runs {A} (asserted : Prop) (m : res A) (Q : A → Prop) : Prop :=
  match m with Ok a => Q a | Abort => h2_ndebug = false ∧ ¬ asserted | UB => False end.

Lemma h2_runs_ok {A} X (m : res A) (Q : A → Prop) : okP m Q → h2_runs X m Q.
Proof. by intros (a & -> & Ha). Qed.

Lemma h2_runs_mono {A} (X X' : Prop) (m : res A) (P Q : A → Prop) :
  h2_runs X m P → (X' → X) → (∀ a, m = Ok a → P a → Q a) → h2_runs X' m Q.
Proof. destruct m; cbn; [auto|tauto|done]. Qed.

Lemma h2_runs_bind {A C} (X X1 : Prop) (m : res A) (f : A → res C) (P : A → Prop) (Q : C → Prop) :
  h2_runs X1 m P → (X → X1) → (∀ a, m = Ok a → P a → h2_runs X (f a) Q) → h2_runs X (m ≫= f) Q.
Proof. destruct m; cbn; [auto|tauto|done]. Qed.

(** What the upstream is after an event: nothing new in its tables while it is in
    a handler of the socket, where the session is not closed at once. *)
Definition stays u u' : Prop :=
  inv u' ∧ h2_in_handler u' = h2_in_handler u ∧ (0 < h2_in_handler u → shrink u u').

Lemma stays_shrink u u' : inv u' → shrink u u' → stays u u'.
Proof. intros Hi Hs. split_and!; [done|apply Hs|done]. Qed.

Lemma inv_step_quiet u u' :
  inv u → quiet u u' → h2_health u' = h2_health u → h2_loop u' = h2_loop u → stays u u'.
Proof.
  intros Hi Hq H1 H2. apply stays_shrink; [|by apply shrink_quiet]. apply (inv_quiet u); [done|done|].
  intros info Hh. rewrite H1 in Hh. eapply health_keep; [by apply Hi|apply Hq|apply Hq|done].
Qed.

Lemma call_stays u o : inv u → out_conn o = None → stays u (h2_call o u).
Proof. intros Hi Ho. apply inv_step_quiet; try done. by apply (quiet_calls u [o]), Forall_singleton. Qed.

Lemma close_inner_spec ans error u :
  inv u → ok_ans ans u → okP (close_session_inner ans error u) (stays u).
Proof.
  intros Hi Ha. unfold close_session_inner. destruct (Z.ltb_spec 0 (h2_in_handler u)).
  - apply okP_ret. apply inv_step_quiet; try done. split; try done. exists []. by rewrite app_nil_r.
  - eapply okP_bind; [by apply close_session_spec|]. cbn beta. intros u1 (I & _ & _ & H1 & _).
    eapply okP_mono; [apply inv_notify_none; [done|]|].
    + destruct error; [|done]. cbn. by rewrite bool_decide_true.
    + intros u2 (I2 & Q & _). split_and!; [done|by rewrite (qu_handler _ _ Q)|lia].
Qed.

(** A response on the stream of a connection. *)
Lemma conn_error_spec id e u conn :
  inv u → h2_conns u !! id = Some conn → stays u (put_conn id (set_conn_error e conn) u).
Proof.
  intros Hi Hc. destruct (inv_kept _ _ _ Hi Hc) as [Hm Hl Hf]. pose proof (inv_open _ _ _ Hi Hc) as Hse.
  destruct (mid_put id u conn (set_conn_error e conn) (content id u conn)) as (L & M & C); try done.
  { by rewrite with_session_id. }
  { by left. }
  { apply Hm. }
  apply stays_shrink; [|by eapply shrink_local]. apply (inv_local id u); [done|done|]. left.
  exists (set_conn_error e conn). split; [by rewrite C|exact Hl|exact Hf].
Qed.

Lemma opened_goes_on id r :
  ends id (H2Raised (EvConnectionOpened id) r) = false ∧ fails id (H2Raised (EvConnectionOpened id) r) = false ∧
  taken_of id (H2Raised (EvConnectionOpened id) r) = [].
Proof. done. Qed.

Lemma sent_goes_on id n r :
  ends id (H2Raised (EvDataSent id n) r) = false ∧ fails id (H2Raised (EvDataSent id n) r) = false ∧
  taken_of id (H2Raised (EvDataSent id n) r) = [].
Proof. done. Qed.

Lemma response_spec ans stream status vpn_error warning u :
  inv u → ok_ans ans u → okP (h2_handle_response ans stream status vpn_error warning u) (stays u).
Proof.
  intros Hi Ha. unfold h2_handle_response. destruct (status =? HTTP_AUTH_REQUIRED_STATUS); [by apply close_inner_spec|].
  case_bool_decide; [by apply okP_ret, call_stays|]. case_bool_decide; [by apply okP_ret, call_stays|]. cbv zeta.
  set (of_conn := match get_conn_by_stream_id stream u with None => _ | Some _ => _ end).
  assert (okP of_conn (stays u)) as Hof.
  { unfold of_conn, get_conn_by_stream_id. destruct (h2_ids u !! stream) as [id|] eqn:Hs; cbn [mbind option_bind].
    - destruct (inv_ids stream id u Hi Hs) as (conn & Hc & _). rewrite Hc. cbn [mbind option_bind].
      destruct (status =? H2_OK_STATUS); [|by apply okP_ret, conn_error_spec].
      eapply okP_mono; [by apply (inv_notify ans id); [..|by eexists|done|apply opened_goes_on]|].
      intros u' [I L]. apply stays_shrink; [done|by eapply shrink_local].
    - apply okP_ret, inv_step_quiet; try done. split; try done. exists []. by rewrite app_nil_r. }
  destruct (h2_health u) as [info|] eqn:Hh; [|done]. destruct (hc_stream info =? stream); [|done]. apply okP_ret.
  destruct (negb _); [|by apply stays_shrink; [|apply shrink_refl]].
  apply stays_shrink; [|apply shrink_quiet; split; try done; exists []; by rewrite app_nil_r].
  apply (inv_quiet u); [done|split; try done; exists []; by rewrite app_nil_r|].
  intros i [= <-]. destruct (iv_health _ Hi info Hh) as [K1 K2 K3]. by split.
Qed.

Lemma data_spec ans stream data u :
  inv u → ok_ans ans u → stream ∈ h2_streams u → allowed_http (HData stream data) u →
  h2_runs (expected_http ans (HData stream data) u) (data_event ans stream data u) (stays u).
Proof.
  intros Hi Ha Hin Hsz. specialize (Hsz Hin). unfold data_event.
  case_bool_decide as H1; [by apply call_stays|]. case_bool_decide as H2; [by apply call_stays|].
  unfold get_conn_by_stream_id. destruct (h2_ids u !! stream) as [id|] eqn:Hs; cbn [mbind option_bind].
  - destruct (inv_ids stream id u Hi Hs) as (conn & Hc & <-). rewrite Hc. cbn [mbind option_bind].
    pose proof (inv_kept _ _ _ Hi Hc) as Hke.
    apply h2_runs_ok.
    eapply okP_mono; [apply (conn_data_spec ans id data u conn); [done| |by apply inv_route|by eapply inv_open|done]|].
    + destruct (tc_stream_closed conn) eqn:Hcl; [|done]. by destruct (ke_fin _ _ _ Hke Hcl) as (_ & _ & Hn).
    + intros u' [L A]. apply stays_shrink; [by apply (inv_local id u)|by eapply shrink_local].
  - unfold h2_assert. cbn [orb]. destruct h2_ndebug eqn:Hn; mstep.
    + apply stays_shrink; [done|apply shrink_refl].
    + split; [done|]. intros Hex. destruct (Hex Hin) as [?|[?|[x Hx]]]; [done..|]. by rewrite Hs in Hx.
Qed.

Lemma http_handler_spec ans e u :
  inv u → ok_ans ans u → h2_session u = true → allowed_http e u →
  h2_runs (expected_http ans e u) (http_handler ans e u) (stays u).
Proof.
  intros Hi Ha Hse Hal. destruct e as [s st ve wa|s data|s|s ec|s n|ec|failed]; cbn [http_handler];
    [| |apply h2_runs_ok..].
  - by apply h2_runs_ok, response_spec.
  - case_bool_decide; [by apply data_spec|]. apply h2_runs_ok, okP_ret, stays_shrink; [done|apply shrink_refl].
  - unfold on_session. rewrite Hse. by apply okP_ret, call_stays.
  - case_bool_decide; [|apply okP_ret, stays_shrink; [done|apply shrink_refl]].
    eapply okP_mono; [apply close_stream_any; by rewrite with_session_id|]. intros u' (I & S & _ & _).
    apply stays_shrink; [|done]. by rewrite with_session_id in I by (by rewrite (sh_session _ _ S)).
  - case_bool_decide; [apply okP_ret, stays_shrink; [done|apply shrink_refl]|].
    unfold get_conn_by_stream_id. destruct (h2_ids u !! s) as [id|] eqn:Hs; cbn [mbind option_bind].
    + destruct (inv_ids s id u Hi Hs) as (conn & Hc & _). rewrite Hc. cbn [mbind option_bind].
      eapply okP_mono; [by apply (inv_notify ans id); [..|by eexists|done|apply sent_goes_on]|].
      intros u' [I L]. apply stays_shrink; [done|by eapply shrink_local].
    + apply okP_ret, stays_shrink; [done|apply shrink_refl].
  - by apply close_inner_spec.
  - destruct failed; [by apply close_inner_spec|]. apply okP_ret, stays_shrink; [done|apply shrink_refl].
Qed.

(** ** Events of the socket *)

Fixpoint allowed_input (ans : H2Answers) (es : list HttpEvent) u : Prop :=
  match es with
  | [] => True
  | e :: es => allowed_http e u ∧ ∀ u', http_handler ans e u = Ok u' → allowed_input ans es u'
  end.

Fixpoint expected_input (ans : H2Answers) (es : list HttpEvent) u : Prop :=
  match es with
  | [] => True
  | e :: es => expected_http ans e u ∧ ∀ u', http_handler ans e u = Ok u' → expected_input ans es u'
  end.

Fixpoint allowed_items (ans : H2Answers) (items : list NetItem) u : Prop :=
  match items with
  | NetChunk events r drained :: items =>
      allowed_input ans events u ∧
      ∀ u', read_chunk ans events r drained u = Ok (true, u') → allowed_items ans items u'
  | _ => True
  end.

Fixpoint expected_items (ans : H2Answers) (items : list NetItem) u : Prop :=
  match items with
  | NetChunk events r drained :: items =>
      expected_input ans events u ∧
      ∀ u', read_chunk ans events r drained u = Ok (true, u') → expected_items ans items u'
  | _ => True
  end.

(** The socket has something to read while there is a session.  Where assertions
    are compiled out, it reports that it is connected when there is none. *)
Definition allowed_net (ans : H2Answers) (what : NetEvent) u : Prop :=
  match what with
  | NetConnected _ _ _ => h2_ndebug = true → h2_session u = false
  | NetReadable items => h2_session u = true ∧ allowed_items ans (take READ_BUDGET items) u
  | _ => True
  end.

Definition expected_net (ans : H2Answers) (what : NetEvent) u : Prop :=
  match what with
  | NetConnected _ _ _ => h2_session u = false
  | NetReadable items => expected_items ans (take READ_BUDGET items) u
  | _ => True
  end.

Lemma http_input_spec ans es u :
  inv u → ok_ans ans u → h2_session u = true → 0 < h2_in_handler u → allowed_input ans es u →
  h2_runs (expected_input ans es u) (http_input ans es u) (λ u', inv u' ∧ shrink u u').
Proof.
  revert u. induction es as [|e es IH]; intros u Hi Ha Hse Hh Hal; cbn [http_input].
  - split; [done|apply shrink_refl].
  - destruct Hal as [Hal1 Hal2]. eapply h2_runs_bind; [by apply http_handler_spec|by intros []|].
    intros u1 E1 (I1 & H1 & S1). specialize (S1 Hh).
    eapply h2_runs_mono; [apply (IH u1); [done|by eapply ok_ans_shrink|by rewrite (sh_session _ _ S1)|by rewrite H1|by apply Hal2]| |].
    + intros [_ Hx]. by apply Hx.
    + intros u2 _ [I2 S2]. split; [done|by eapply shrink_trans].
Qed.

Lemma to_reset_stays u l : inv u → stays u (set_h2_to_reset l u).
Proof. intros Hi. apply inv_step_quiet; try done. split; try done. exists []. by rewrite app_nil_r. Qed.

Lemma read_chunk_spec ans events r drained u :
  inv u → ok_ans ans u → h2_session u = true → 0 < h2_in_handler u → allowed_input ans events u →
  h2_runs (expected_input ans events u) (read_chunk ans events r drained u) (λ '(_, u'), inv u' ∧ shrink u u').
Proof.
  intros Hi Ha Hse Hh Hal. unfold read_chunk. rewrite Hse. cbn [negb].
  eapply h2_runs_bind; [by apply http_input_spec|done|]. cbn beta. intros u1 _ [I1 S1]. apply h2_runs_ok.
  pose proof (ok_ans_shrink _ _ _ Ha S1) as A1. assert (0 < h2_in_handler u1) as Hh1 by (by rewrite (sh_handler _ _ S1)).
  assert (∀ error v, inv v → shrink u v → okP (u ← close_session_inner ans error v; Ok (false, u))
    (λ '(_, u'), inv u' ∧ shrink u u')) as Hclose.
  { intros error v Iv Sv. eapply okP_bind; [apply close_inner_spec; [done|exact (ok_ans_shrink _ _ _ Ha Sv)]|].
    intros v' (I' & H' & S'). apply okP_ret. split; [done|]. eapply shrink_trans; [exact Sv|]. apply S'.
    by rewrite (sh_handler _ _ Sv). }
  assert (∀ l v, inv v → shrink u v → inv (set_h2_to_reset l v) ∧ shrink u (set_h2_to_reset l v)) as Hset.
  { intros l v Iv Sv. destruct (to_reset_stays v l Iv) as (I' & H' & S'). split; [done|].
    eapply shrink_trans; [exact Sv|]. apply S'. by rewrite (sh_handler _ _ Sv). }
  destruct (r <=? 0); [by apply Hclose; apply Hset|]. cbv zeta.
  destruct (inv_reset_health u1 I1) as (I2 & Q2 & _). pose proof (shrink_quiet _ _ Q2) as S2.
  assert (shrink u (reset_health_check u1)) as S02 by (by eapply shrink_trans).
  eapply okP_bind; [apply (reset_streams_any ans _ (reset_health_check u1)); [done|exact (ok_ans_shrink _ _ _ Ha S02)|]|].
  { by rewrite (sh_session _ _ S02). }
  cbn beta. intros u3 [I3 S3]. assert (shrink u u3) as S03 by (by eapply shrink_trans).
  destruct (Hset [] u3 I3 S03) as [I4 S04]. destruct drained; cbn [negb]; [|by apply Hclose]. by apply okP_ret.
Qed.

Lemma readable_spec ans items u :
  inv u → ok_ans ans u → h2_session u = true → 0 < h2_in_handler u → allowed_items ans items u →
  h2_runs (expected_items ans items u) (readable_loop ans items u) (λ u', inv u' ∧ shrink u u').
Proof.
  revert u. induction items as [|[| |events r drained] items IH]; intros u Hi Ha Hse Hh Hal; cbn [readable_loop].
  - split; [done|apply shrink_refl].
  - split; [done|apply shrink_refl].
  - apply h2_runs_ok. eapply okP_mono; [by apply close_inner_spec|]. intros u' (I & _ & S). auto.
  - destruct Hal as [Hal1 Hal2]. eapply h2_runs_bind; [by apply read_chunk_spec|by intros []|].
    intros [go_on u1] E1 [I1 S1]. destruct go_on; [|done].
    eapply h2_runs_mono; [apply (IH u1); [done|by eapply ok_ans_shrink|by rewrite (sh_session _ _ S1)|by rewrite (sh_handler _ _ S1)|by apply Hal2]| |].
    + intros [_ Hx]. by apply Hx.
    + intros u2 _ [I2 S2]. split; [done|by eapply shrink_trans].
Qed.

Lemma notify_sent_spec ans l u :
  inv u → ok_ans ans u → NoDup l → (∀ id, id ∈ l → is_Some (h2_conns u !! id)) →
  okP (notify_sent ans l u) (λ u', inv u' ∧ shrink u u').
Proof.
  revert u. induction l as [|id l IH]; intros u Hi Ha Hnd Hin; cbn [notify_sent].
  - apply okP_ret. split; [done|apply shrink_refl].
  - apply NoDup_cons in Hnd as [Hni Hnd].
    eapply okP_bind; [apply (inv_notify ans id); [done|done|apply Hin, list_elem_of_here|done|apply sent_goes_on]|].
    cbn beta. intros u1 [I1 L1].
    eapply okP_mono; [apply IH; [done|by eapply ok_ans_local|done|]|].
    + intros i Hl. rewrite (lo_conns _ _ _ L1) by congruence. apply Hin. by apply list_elem_of_further.
    + intros u2 [I2 S2]. split; [done|]. eapply shrink_trans; [by eapply shrink_local|done].
Qed.

(** A session begins with no streams. *)
Lemma establish_inv u :
  inv u → h2_session u = false → inv (set_h2_streams [] (set_h2_session true u)).
Proof.
  intros Hi Hse. pose proof (iv_session _ Hi Hse) as Hc.
  apply (inv_quiet (with_session u)); [by apply inv_with| |].
  - split; try done; cbn; [exists []; by rewrite app_nil_r|].
    intros s Hs. destruct (h2_ids u !! s) as [id|] eqn:Hi1; [|done].
    destruct (inv_ids s id u Hi Hi1) as (c & Hc1 & _). by rewrite Hc, lookup_empty in Hc1.
  - intros info Hh. eapply health_keep; [by apply Hi|done..].
Qed.

Lemma net_event_spec ans what u :
  inv u → ok_ans ans u → 0 < h2_in_handler u → allowed_net ans what u →
  h2_runs (expected_net ans what u) (net_event ans what u)
    (λ u', inv u' ∧ ok_ans ans u' ∧ h2_in_handler u' = h2_in_handler u).
Proof.
  intros Hi Ha Hh Hal.
  assert (∀ r, okP r (λ u', inv u' ∧ shrink u u') →
    okP r (λ u', inv u' ∧ ok_ans ans u' ∧ h2_in_handler u' = h2_in_handler u)) as Hshrink.
  { intros r Hr. eapply okP_mono; [exact Hr|]. intros u' [I S]. split_and!; [done|by eapply ok_ans_shrink|apply S]. }
  assert (∀ error, okP (close_session_inner ans error u) (λ u', inv u' ∧ shrink u u')) as Hclose.
  { intros error. eapply okP_mono; [by apply close_inner_spec|]. intros u' (I & _ & S). auto. }
  destruct what as [alpn created sent|items|e| |window|]; cbn [net_event]; [| |apply h2_runs_ok..].
  - destruct alpn; cbn [negb]; [|by apply h2_runs_ok, Hshrink, Hclose]. unfold establish_http_session, h2_assert.
    destruct (h2_session u) eqn:Hse.
    { cbn [negb orb]. destruct h2_ndebug eqn:Hn; [by rewrite (Hal Hn) in Hse|]. split; [done|]. cbn. by rewrite Hse. }
    apply h2_runs_ok. mstep. set (u1 := if created then _ else u).
    assert (inv u1 ∧ ok_ans ans u1 ∧ h2_in_handler u1 = h2_in_handler u) as (I1 & A1 & H1).
    { unfold u1. destruct created; [|done]. split_and!; [by apply establish_inv|by destruct Ha; split|done]. }
    destruct (negb created || sent).
    + eapply okP_mono; [by apply inv_notify_none|]. intros u' (I & Q & _).
      split_and!; [done|by eapply ok_ans_quiet|by rewrite (qu_handler _ _ Q)].
    + eapply okP_mono; [by apply close_inner_spec|]. intros u' (I & H2 & S). rewrite H1 in H2, S. specialize (S Hh).
      split_and!; [done|exact (ok_ans_shrink _ _ _ A1 S)|done].
  - destruct Hal. eapply h2_runs_mono; [by apply readable_spec|done|]. intros u' _ [I S].
    split_and!; [done|by eapply ok_ans_shrink|apply S].
  - apply Hshrink. destruct (h2_cert_error u); apply Hclose.
  - apply Hshrink, okP_ret. split; [done|apply shrink_refl].
  - pose proof (conns_order_perm (h2_conns u)) as Hp.
    eapply okP_bind; [apply (notify_sent_spec ans _ u Hi Ha)|].
    { rewrite Hp. apply NoDup_fst_map_to_list. }
    { intros id. rewrite Hp, list_elem_of_fmap. intros ([i c] & -> & Hc). apply elem_of_map_to_list in Hc. by eexists. }
    cbn beta. intros u1 [I1 S1]. pose proof (ok_ans_shrink _ _ _ Ha S1).
    destruct (_ && _); apply okP_ret; [|split_and!; [done|done|apply S1]].
    split_and!; [by apply inv_call|by apply ok_ans_call|apply S1].
  - apply Hshrink. eapply okP_mono; [by apply inv_notify_none|]. intros u' (I & Q & _). split; [done|by apply shrink_quiet].
Qed.

Lemma inv_handler n u : inv u → 0 ≤ n → inv (set_h2_in_handler n u).
Proof.
  intros [I1 I2 I3 I4 I5 I6 I7 I8] Hn. split; try done; [|by intros info Hh; destruct (I5 info Hh)].
  intros id. apply (spares_conn id u); [|done]. split; try done. exists []. by rewrite app_nil_r.
Qed.

Lemma net_handler_spec ans what u :
  inv u → ok_ans ans u → allowed_net ans what (set_h2_in_handler (h2_in_handler u + 1) u) →
  h2_runs (expected_net ans what (set_h2_in_handler (h2_in_handler u + 1) u)) (net_handler ans what u) inv.
Proof.
  intros Hi Ha Hal. unfold net_handler. pose proof (iv_handler _ Hi) as Hh. set (u0 := set_h2_in_handler _ u) in *.
  assert (inv u0) as Hi0 by (apply inv_handler; [done|lia]).
  eapply h2_runs_bind; [apply (net_event_spec ans what u0 Hi0); [by destruct Ha|cbn; lia|done]|done|].
  cbn beta. intros u1 _ (I1 & A1 & H1). apply h2_runs_ok. cbn in H1. set (u2 := set_h2_in_handler (h2_in_handler u1 - 1) u1).
  assert (inv u2) as I2 by (apply inv_handler; [done|lia]).
  destruct (h2_closed u2); [|by apply okP_ret].
  eapply okP_mono; [apply close_inner_spec|by intros u' (? & _)].
  - apply (inv_step_quiet u2); try done. split; try done. exists []. by rewrite app_nil_r.
  - by destruct A1.
Qed.

(** ** Opening a connection *)

Lemma inv_bump n u : inv u → h2_next_stream u ≤ n < 2 ^ 32 - 1 → inv (set_h2_next_stream n u).
Proof.
  intros Hi Hn. split; cbn; try apply Hi.
  - intros id. apply (spares_conn id u); [|apply Hi]. split; try done; [exists []; by rewrite app_nil_r|apply Hi].
  - intros s id Hs. pose proof (iv_next _ Hi s id Hs). lia.
  - intros info Hh. destruct (iv_health _ Hi info Hh) as [K1 K2 K3]. split; cbn; [done| |done]. lia.
  - pose proof (iv_range _ Hi). lia.
Qed.

(** A request on a new stream. *)
Lemma request_spec ans u :
  inv u → h2_next_stream u + 2 < 2 ^ 32 - 1 →
  let '(stream, u') := send_connect_request ans u in
  inv u' ∧ h2_conns u' = h2_conns u ∧ h2_ids u' = h2_ids u ∧ h2_in_handler u' = h2_in_handler u ∧
  h2_health u' = h2_health u ∧ h2_session u' = h2_session u ∧ h2_loop u' = h2_loop u ∧
  (∃ es, h2_out u' = h2_out u ++ es ∧ Forall (λ o, out_conn o = None) es) ∧
  (∀ s, stream = Some s → h2_session u = true ∧ s ∈ h2_streams u' ∧ s = h2_next_stream u ∧ h2_ids u !! s = None ∧
    s < h2_next_stream u' ∧ s < 2 ^ 32 - 1).
Proof.
  intros Hi Hn. unfold send_connect_request. pose proof (iv_range _ Hi) as Hr. destruct (h2_session u) eqn:Hse; cbn [negb].
  2:{ split_and!; try done. exists []. by rewrite app_nil_r. }
  rewrite (u64_id (h2_next_stream u + 2)) by lia.
  assert (u32 (h2_next_stream u) = h2_next_stream u) as -> by (unfold u32; rewrite Z.mod_small by lia; done).
  set (s := h2_next_stream u) in *.
  assert (h2_ids u !! s = None) as Hs.
  { destruct (h2_ids u !! s) as [id|] eqn:Hs; [|done]. pose proof (iv_next _ Hi s id Hs). lia. }
  split_and!; try done.
  - apply (inv_bump (s + 2) (set_h2_streams (h2_streams u ++ [s]) (h2_call (SendHeaders s) u))); [|cbn; lia].
    apply (inv_quiet u); [done| |intros info Hh; eapply health_keep; [by apply Hi|done..]].
    split; try done; cbn; [exists [SendHeaders s]; split; [done|by apply Forall_singleton]|].
    intros x Hx. rewrite elem_of_app, list_elem_of_singleton. split; [intros [?| ->]; [done|by rewrite Hs in Hx]|tauto].
  - exists [SendHeaders s]. split; [done|by apply Forall_singleton].
  - intros x Hx. destruct (headers_sent ans); [|done]. injection Hx as <-. split_and!; try done; cbn; [|lia|lia].
    apply elem_of_app. right. by apply list_elem_of_singleton.
Qed.

Lemma virgin_kept id s u :
  virgin id u → id ≠ H2_NON_ID → s ∈ h2_streams u → h2_session u = true → loop_ok (h2_loop u) →
  kept id (h2_call (H2Opened id s) (set_h2_ids (<[s := id]> (h2_ids u)) (put_conn id (new_connection s) u)))
    (new_connection s).
Proof.
  intros [V1 V2 V3 (V4 & V5 & V6) V7 V8 V9] Hid Hs Hse Hl.
  assert (content id (h2_call (H2Opened id s) (set_h2_ids (<[s := id]> (h2_ids u)) (put_conn id (new_connection s) u)))
    (new_connection s) = []) as Hc by done.
  split; [split; [split|..]|..]; h2simpl; try done.
  - by rewrite lookup_insert_eq.
  - intros x. rewrite lookup_insert_Some. split; [|by left]. intros [[? _]|[_ Hx]]; [done|by destruct (V2 x)].
  - apply new_capacity.
  - change (buf id (new_connection s)) with (new_buffer id). rewrite V9. apply blen_nonneg.
  - intros i. split; [done|]. intros Hi. by destruct (V7 i _ Hi).
  - by intros [].
  - by intros _.
  - intros _ _. by rewrite Hc, delivered_app, received_app, V4, V5.
  - apply opened_app. right. apply Exists_cons. left. cbn. by apply bool_decide_true.
  - by rewrite terminals_app, V6.
Qed.

Lemma open_inv id s u :
  inv u → virgin id u → id ≠ H2_NON_ID → h2_session u = true → s ∈ h2_streams u → h2_ids u !! s = None →
  s < h2_next_stream u → (∀ info, h2_health u = Some info → hc_stream info ≠ s) →
  inv (h2_call (H2Opened id s) (set_h2_ids (<[s := id]> (h2_ids u)) (put_conn id (new_connection s) u))).
Proof.
  intros Hi Hv Hid Hse Hs Hsi Hlt Hh. pose proof (vi_conn _ _ Hv) as Hc.
  assert (∀ j, own j (put_conn id (new_connection s) u) = own j u) as Ho.
  { intros j. unfold own. cbn. destruct (decide (j = id)) as [->|Hj]; [by rewrite lookup_insert_eq, Hc|by rewrite lookup_insert_ne]. }
  split; cbn; try apply Hi.
  - intros j. destruct (decide (j = id)) as [->|Hj]; [left; left; eexists; apply virgin_kept; [done..|apply Hi]|].
    apply (spares_conn j u); [|apply Hi]. split; try done; cbn; [| | |apply Hi].
    + by rewrite lookup_insert_ne.
    + eexists. split; [done|]. apply Forall_singleton. unfold unrelated. cbn. congruence.
    + intros x. rewrite lookup_insert_Some. split; [intros [[_ ?]|[_ ?]]; [done|done]|]. intros Hx. right. split; [congruence|done].
  - intros i j Hij. pose proof (iv_apart _ Hi i j Hij) as Hap. unfold clear_of in *.
    change (own i (h2_call _ _)) with (own i (put_conn id (new_connection s) u)).
    change (own j (h2_call _ _)) with (own j (put_conn id (new_connection s) u)). by rewrite !Ho.
  - intros x j. rewrite lookup_insert_Some. intros [[<- _]|[_ Hx]]; [done|]. by apply (iv_next _ Hi x j).
  - congruence.
  - intros info Hhe. destruct (iv_health _ Hi info Hhe) as [K1 K2 K3]. split; try done. cbn.
    rewrite lookup_insert_ne; [done|]. intros ->. by destruct (Hh info Hhe).
Qed.

Lemma open_connection_spec ans id udp u :
  inv u → (udp = false → ¬ opened id (h2_out u) ∧ id ≠ H2_NON_ID ∧ h2_next_stream u + 2 < 2 ^ 32 - 1) →
  inv (h2_open_connection ans id udp u).2.
Proof.
  intros Hi Hal. unfold h2_open_connection. destruct udp; [by apply inv_call|]. destruct (Hal eq_refl) as (Hno & Hid & Hn).
  pose proof (request_spec ans u Hi Hn) as Hr. destruct (send_connect_request ans u) as [o u1].
  destruct Hr as (I1 & C1 & D1 & _ & H1 & S1 & _ & (es & O1 & Oq) & K1). destruct o as [s|]; [|done].
  destruct (K1 s eq_refl) as (Hse & Hin & Es & Hsi & Hlt & Hmax).
  assert (virgin id u1) as Hv.
  { destruct (iv_conn _ I1 id) as [A|?]; [exfalso|done]. apply Hno.
    assert (opened id (h2_out u1)) as Hop by (destruct A as [[c [[] _ _]]|[]]; done).
    rewrite O1 in Hop. apply opened_app in Hop as [?|Hop]; [done|].
    by destruct (unrelated_quiet id es (quiet_unrelated es Oq id)) as (_ & Hn' & _). }
  rewrite (vi_conn _ _ Hv). cbn [snd]. apply open_inv; try done; [congruence|by rewrite D1|].
  intros info Hh. rewrite H1 in Hh. pose proof (ho_range _ _ (iv_health _ Hi info Hh)). lia.
Qed.

(** ** Health checks *)

Lemma set_health_inv u l' i t info :
  inv u → loop_ok l' → tasks l' = <[i := t]> (tasks (h2_loop u)) → tasks (h2_loop u) !! i = None → task_conn t = None →
  hc_timeout_task info = Some i → h2_ids u !! hc_stream info = None →
  hc_stream info = 2 ^ 32 - 1 ∨ hc_stream info < h2_next_stream u →
  inv (set_h2_health (Some info) (set_h2_loop l' u)).
Proof.
  intros Hi Hl Ht Hn Hc Hti Hids Hr. apply (inv_quiet u); [done| |].
  - split; try done; cbn; [exists []; by rewrite app_nil_r|]. intros k x Hx. rewrite Ht, lookup_insert_Some.
    split; [intros [[-> <-]|[_ ?]]; done|]. intros Hk. right. split; [congruence|done].
  - intros info' [= <-]. split; try done. intros k Hk. rewrite Hti in Hk. injection Hk as <-. exists t. cbn.
    by rewrite Ht, lookup_insert_eq.
Qed.

Lemma health_check_spec ans need timeout u :
  inv u → h2_next_stream u + 2 < 2 ^ 32 - 1 → okP (h2_do_health_check ans need timeout u) inv.
Proof.
  intros Hi Hn. unfold h2_do_health_check. destruct (inv_reset_health u Hi) as (I1 & Q1 & _ & _).
  set (u1 := reset_health_check u) in *. rewrite <- (qu_next _ _ Q1) in Hn.
  pose proof (request_spec ans u1 I1 Hn) as Hr. cbv zeta. destruct (send_connect_request ans u1) as [o u2].
  destruct Hr as (I2 & _ & D2 & _ & _ & _ & _ & _ & K2). pose proof (iv_loop _ I2) as L2. destruct o as [s|].
  - destruct (K2 s eq_refl) as (_ & _ & _ & Hsi & Hlt & _).
    destruct (schedule_task THealthCheckTimeout false timeout u2 L2) as (i & l' & -> & Hl & Ht & Hno). mstep.
    apply okP_ret. eapply set_health_inv; try done; cbn; [by rewrite D2|by right].
  - destruct (schedule_task THealthCheckFailed false 0 u2 L2) as (i & l' & -> & Hl & Ht & Hno). mstep.
    apply okP_ret. eapply set_health_inv; try done; cbn; [|by left].
    destruct (h2_ids u2 !! (2 ^ 32 - 1)) as [j|] eqn:Hj; [|done].
    pose proof (iv_next _ I2 _ j Hj). pose proof (iv_range _ I2). lia.
Qed.

(** ** Tasks *)

(** A task of a connection has been taken out of the loop: what that leaves. *)
Lemma taken_local id u i t l' :
  inv u → taken (i, t) (h2_loop u) l' → task_conn t = Some id → local id u (set_h2_loop l' u).
Proof.
  intros Hi Ht Hc. destruct (tasks_taken _ _ _ _ (iv_loop _ Hi) Ht) as (T1 & T2 & T3). split; try done; cbn.
  - exists []. by rewrite app_nil_r.
  - intros k x Hx. rewrite T3, lookup_delete_Some. split; [by intros []|]. intros Hk. split; [congruence|done].
Qed.

Lemma taken_gone id u i t l' :
  inv u → taken (i, t) (h2_loop u) l' → task_conn t = Some id → h2_conns u !! id = None → inv (set_h2_loop l' u).
Proof.
  intros Hi Ht Hc Hn. apply (inv_local id u); [done|by eapply taken_local|].
  destruct (tasks_taken _ _ _ _ (iv_loop _ Hi) Ht) as (T1 & T2 & T3).
  destruct (iv_conn _ Hi id) as [[[c Hk]|[G1 G2 G3 G4 G5]]|Hv]; [|by right|by destruct (vi_tasks _ _ Hv i t)].
  pose proof (st_conn _ _ _ (mi_struct _ _ _ _ (ke_mid _ _ _ Hk))). congruence.
Qed.

(** The connection no longer has the task. *)
Lemma taken_mid id u i t l' conn conn' :
  inv u → taken (i, t) (h2_loop u) l' → h2_conns u !! id = Some conn →
  (t = TCompleteRead id ∧ conn' = set_complete_read_task None conn ∨
   (∃ g, t = TCloseConnection id g) ∧ conn' = set_close_task None conn) →
  let u' := put_conn id conn' (set_h2_loop l' u) in
  local id u u' ∧ mid id u' conn' (content id u' conn') ∧ content id u' conn' = content id u conn ∧ alike conn conn'.
Proof.
  intros Hi Htk Hc Ht. destruct (tasks_taken _ _ _ _ (iv_loop _ Hi) Htk) as (T1 & T2 & T3).
  assert (task_conn t = Some id) as Htc by (destruct Ht as [[-> _]|[[g ->] _]]; done).
  destruct (inv_kept _ _ _ Hi Hc) as [[[H1 H2 H3 H4 H5 H6 H7 H8 H9 H10 H11] M2 M3 M4 M5 M6 M7] _ _].
  assert (buf id conn' = buf id conn) as Eb by (by destruct Ht as [[_ ->]|[_ ->]]).
  assert (alike conn conn') as Ha by (by destruct Ht as [[_ ->]|[_ ->]]).
  cbv zeta. split_and!; [|split; try done|unfold content; by rewrite Eb|done].
  - replace (put_conn id conn' (set_h2_loop l' u))
      with (set_h2_out (h2_out u) (set_h2_loop l' (put_conn id conn' u))) by done.
    apply (local_put id u conn); try done; [exists []; by rewrite app_nil_r|].
    intros k x Hx. rewrite T3, lookup_delete_Some. split; [by intros []|]. intros Hk. split; [congruence|done].
  - destruct Ha as (A1 & A2 & A3). assert (tc_unread conn' = tc_unread conn) as Eu by (by destruct Ht as [[_ ->]|[_ ->]]).
    split; h2simpl; rewrite ?A1, ?A2, ?Eb, ?Eu; try done; [by rewrite lookup_insert_eq|..].
    + intros k. rewrite T3, lookup_delete_Some. destruct Ht as [[-> ->]|[[g ->] ->]]; h2simpl.
      * split; [done|]. intros [Hne Hk]. apply H8 in Hk, T1. congruence.
      * rewrite H8. split; [|by intros []]. intros Hk. split; [congruence|done].
    + intros k Hk. destruct Ht as [[-> ->]|[[g ->] ->]]; h2simpl; [|done]. destruct (H9 k Hk) as [g Hg].
      exists g. rewrite T3, lookup_delete_ne; [done|congruence].
    + destruct Ht as [[-> ->]|[[g ->] ->]]; h2simpl; [by intros []|done].
  - by destruct Ht as [[_ ->]|[_ ->]].
  - intros Hw Hb. unfold content. rewrite Eb. by apply M3.
  - by destruct Ht as [[_ ->]|[_ ->]].
Qed.

Lemma health_failed_spec ans text u i t l' :
  inv u → taken (i, t) (h2_loop u) l' → task_conn t = None →
  okP (health_check_failed ans text (set_h2_loop l' u)) inv.
Proof.
  intros Hi Htk Hc. destruct (tasks_taken _ _ _ _ (iv_loop _ Hi) Htk) as (T1 & T2 & T3).
  set (u1 := set_h2_loop l' u). assert (quiet u u1) as Q1.
  { split; try done; cbn; [exists []; by rewrite app_nil_r|]. intros k x Hx. rewrite T3, lookup_delete_Some.
    split; [by intros []|]. intros Hk. split; [congruence|done]. }
  destruct (reset_health_spec u1 T2) as (Q2 & N2 & _).
  { intros info k x Hh Hk Hx. apply (inv_health_tasks u Hi info k x); [done|done|]. cbn in Hx. rewrite T3 in Hx.
    by apply lookup_delete_Some in Hx as []. }
  assert (inv (reset_health_check u1)) as I2.
  { apply (inv_quiet u); [done|by eapply quiet_trans|]. intros info. by rewrite N2. }
  unfold health_check_failed, report_health_check_error. cbv zeta.
  eapply okP_mono; [apply inv_notify_none; [done|]|by intros u' (? & _)].
  destruct (match h2_health u1 with Some _ => _ | None => _ end); [done|]. cbn. by rewrite bool_decide_true.
Qed.

Lemma run_task_spec ans i t u l' :
  inv u → ok_ans ans u → taken (i, t) (h2_loop u) l' → okP (run_h2_task ans i t (set_h2_loop l' u)) inv.
Proof.
  intros Hi Ha Htk. destruct t as [id|id g| |]; cbn [run_h2_task]; [..|by eapply health_failed_spec|by eapply health_failed_spec].
  - unfold complete_read. cbn [set_h2_loop h2_conns]. destruct (h2_conns u !! id) as [conn|] eqn:Hc.
    2:{ apply okP_ret. by eapply taken_gone. }
    destruct (taken_mid id u i _ l' conn (set_complete_read_task None conn) Hi Htk Hc) as (L & M & C & (A1 & A2 & A3)); [by left|].
    destruct (inv_kept _ _ _ Hi Hc) as [Hm _ Hf].
    destruct (tasks_taken _ _ _ _ (iv_loop _ Hi) Htk) as (T1 & _).
    eapply okP_mono; [apply (complete_read_spec ans id _ _ M)|].
    + done.
    + apply (st_pending _ _ _ (mi_struct _ _ _ _ Hm)). exists i. by apply (st_complete _ _ _ (mi_struct _ _ _ _ Hm)).
    + intros Hcl. destruct (Hf Hcl) as (F1 & _ & F3). done.
    + by apply (inv_route ans id u conn).
    + by eapply (inv_open id u).
    + intros u' [L2 A]. apply (inv_local id u); [done|by eapply local_trans|done].
  - cbn [set_h2_loop h2_conns]. destruct (h2_conns u !! id) as [conn|] eqn:Hc.
    2:{ apply okP_ret. by eapply taken_gone. }
    destruct (taken_mid id u i _ l' conn (set_close_task None conn) Hi Htk Hc) as (L & M & C & (A1 & A2 & A3)).
    { right. split; [by eexists|done]. }
    eapply okP_mono; [apply (close_tcp_spec ans id g _ _ M)|].
    + by apply (inv_route ans id u conn).
    + by eapply (inv_open id u).
    + intros u' [L2 A]. apply (inv_local id u); [done|by eapply local_trans|by eapply after_as_after].
Qed.

Lemma emit_inv e u : inv u → inv (set_h2_loop (emit e (h2_loop u)) u).
Proof.
  intros Hi. apply (inv_quiet u); [done| |intros info Hh; by destruct (iv_health _ Hi info Hh)].
  split; try done; cbn; [exists []; by rewrite app_nil_r|]. apply loop_ok_emit.
Qed.

Lemma run_info_spec ans info u l' :
  inv u → ok_ans ans u → taken (entry_of info) (h2_loop u) l' →
  okP (run_info (run_h2_task ans) info (set_loop l' u)) inv.
Proof.
  intros Hi Ha Htk. unfold run_info. eapply okP_bind.
  - apply (run_task_spec ans (ti_id info) (task_action (ti_task info)) u (emit (Running (ti_id info)) l')); [done|done|].
    by apply taken_emit.
  - intros u' Hu'. apply okP_ret. by apply emit_inv.
Qed.

(** ** Runs *)

Inductive H2Op :=
| OpOpenSession (handed_off : option bool) (made ssl connects : bool)
| OpCloseSession
| OpVerify (ok not_yet_valid : bool)
| OpNet (what : NetEvent)
| OpHttp (e : HttpEvent)
| OpOpen (id : Z) (udp : bool)
| OpClose (id : Z) (graceful async : bool)
| OpSend (id : Z) (data : list Z) (r : Z)
| OpConsume (id length : Z)
| OpFlow (id send_buffer_size send_window_size : Z)
| OpHealthCheck (need_result : bool) (timeout : Z)
| OpTask
| OpTimer (task : Z).

Definition run_h2_op (ans : H2Answers) (op : H2Op) u : res U :=
  match op with
  | OpOpenSession handed_off made ssl connects => Ok (h2_open_session handed_off made ssl connects u).2
  | OpCloseSession => close_session ans u
  | OpVerify ok not_yet_valid => Ok (verify_callback ok not_yet_valid u)
  | OpNet what => net_handler ans what u
  | OpHttp e => http_handler ans e u
  | OpOpen id udp => Ok (h2_open_connection ans id udp u).2
  | OpClose id graceful async => h2_close_connection ans id graceful async u
  | OpSend id data r => '(_, u) ← h2_send ans id data r u; Ok u
  | OpConsume id length => h2_consume ans id length u
  | OpFlow id size window => update_flow_control ans id size window u
  | OpHealthCheck need_result timeout => h2_do_health_check ans need_result timeout u
  | OpTask => run_front (run_h2_task ans) u
  | OpTimer task => run_deferred_task (run_h2_task ans) task u
  end.

(** What the tunnel, the socket and the session do: ids are new, the tunnel closes
    connections it has opened and has not been told the end of, and stream numbers do
    not run out. *)
Definition allowed (ans : H2Answers) (op : H2Op) u : Prop :=
  match op with
  | OpNet what => allowed_net ans what (set_h2_in_handler (h2_in_handler u + 1) u)
  | OpHttp e => h2_session u = true ∧ allowed_http e u
  | OpOpen id udp => udp = false → ¬ opened id (h2_out u) ∧ id ≠ H2_NON_ID ∧ h2_next_stream u + 2 < 2 ^ 32 - 1
  | OpClose id _ _ => udp_has ans id = false → opened id (h2_out u) ∧ terminals id (h2_out u) = 0%nat
  | OpHealthCheck _ _ => h2_next_stream u + 2 < 2 ^ 32 - 1
  | _ => True
  end.

(** What is asserted of an operation. *)
Definition expected (ans : H2Answers) (op : H2Op) u : Prop :=
  match op with
  | OpNet what => expected_net ans what (set_h2_in_handler (h2_in_handler u + 1) u)
  | OpHttp e => expected_http ans e u
  | _ => True
  end.

Lemma inv_known id u :
  inv u → opened id (h2_out u) → terminals id (h2_out u) = 0%nat → ∃ conn, h2_conns u !! id = Some conn.
Proof.
  intros Hi Ho Ht. destruct (iv_conn _ Hi id) as [[[c Hk]|Hg]|Hv].
  - exists c. apply (st_conn _ _ _ (mi_struct _ _ _ _ (ke_mid _ _ _ Hk))).
  - by rewrite (go_once _ _ Hg) in Ht.
  - by destruct (vi_opened _ _ Hv).
Qed.

Lemma calm_kept id u conn u' conn' :
  kept id u conn → calm id u conn u' conn' → live id u' conn' → kept id u' conn'.
Proof.
  intros [Hm _ Hf] Hca Hl. pose proof (calm_content _ _ _ _ _ Hca) as Hc.
  split; [rewrite Hc; by eapply mid_calm|done|]. destruct (ca_same _ _ _ _ _ Hca) as (S1 & S2 & S3 & _).
  intros Hcl. rewrite S2 in Hcl. rewrite S3, Hc, (ca_streams _ _ _ _ _ Hca), S1. by apply Hf.
Qed.

Lemma inv_calm id u conn u' conn' :
  inv u → h2_conns u !! id = Some conn → calm id u conn u' conn' → live id u' conn' → inv u'.
Proof.
  intros Hi Hc Hca Hl. apply (inv_local id u); [done|apply Hca|]. left. exists conn'.
  eapply calm_kept; [by apply inv_kept|done|done].
Qed.

Lemma flow_op_spec ans id size window u :
  inv u → ok_ans ans u → okP (update_flow_control ans id size window u) inv.
Proof.
  intros Hi Ha. destruct (h2_conns u !! id) as [conn|] eqn:Hc.
  - pose proof (ke_mid _ _ _ (inv_kept _ _ _ Hi Hc)) as Hm.
    eapply okP_mono; [by apply (flow_control_spec ans id size window u conn (mi_struct _ _ _ _ Hm)), Hm|].
    intros u' (conn' & Hca & Hf & _ & Ht). apply (inv_calm id u conn u' conn'); try done.
    intros Hen _. rewrite (calm_content _ _ _ _ _ Hca). apply Ht. rewrite Hf in Hen. by apply Z.ltb_lt in Hen.
  - unfold update_flow_control. rewrite Hc. destruct (udp_has ans id); apply okP_ret; [by apply inv_call|done].
Qed.

Lemma close_op_spec ans id graceful async u :
  inv u → ok_ans ans u → allowed ans (OpClose id graceful async) u →
  okP (h2_close_connection ans id graceful async u) inv.
Proof.
  intros Hi Ha Hal. unfold h2_close_connection. destruct (udp_has ans id) eqn:Hu; [by apply okP_ret, inv_call|].
  destruct (Hal Hu) as [Ho Ht]. destruct (inv_known id u Hi Ho Ht) as [conn Hc]. rewrite Hc.
  pose proof (inv_kept _ _ _ Hi Hc) as [Hm Hl Hf]. destruct async; cbn [negb].
  - apply okP_ret. destruct (close_async_spec id graceful u conn (mi_struct _ _ _ _ Hm)) as (conn' & Hca & Hf' & Ht').
    apply (inv_calm id u conn _ conn'); try done. unfold live. rewrite (calm_content _ _ _ _ _ Hca), Hf', Ht'.
    by destruct (ca_same _ _ _ _ _ Hca) as (_ & _ & -> & _).
  - eapply okP_mono; [apply (close_tcp_spec ans id graceful u conn Hm); [by apply inv_route|by eapply inv_open]|].
    intros u' [L A]. apply (inv_local id u); [done|done|by eapply after_as_after].
Qed.

Lemma open_session_inv handed_off made ssl connects u : inv u → inv (h2_open_session handed_off made ssl connects u).2.
Proof.
  intros Hi. unfold h2_open_session. set (u1 := set_h2_cert_error None u).
  assert (inv u1) as I1.
  { apply (inv_step_quiet u); try done. split; try done. exists []. by rewrite app_nil_r. }
  cbv zeta. set (u2 := if bool_decide (is_Some handed_off) then _ else u1).
  assert (inv u2) as I2 by (unfold u2; case_bool_decide; [by apply inv_call|done]).
  case_bool_decide; [done|]. destruct made, ssl, connects; cbn [negb snd]; by repeat apply inv_call.
Qed.

Lemma run_h2_op_inv ans op u :
  inv u → ok_ans ans u → allowed ans op u → h2_runs (expected ans op u) (run_h2_op ans op u) inv.
Proof.
  intros Hi Ha Hal. destruct op as [ho made ssl co| |ok nyv|what|e|id udp|id g a|id data r|id n|id size window|need timeout| |task];
    cbn [run_h2_op]; cbn [allowed] in Hal; [apply h2_runs_ok|apply h2_runs_ok|apply h2_runs_ok| | |apply h2_runs_ok..].
  - apply okP_ret. by apply open_session_inv.
  - eapply okP_mono; [by apply close_session_spec|]. by intros u' (? & _).
  - apply okP_ret. apply (inv_step_quiet u); try done. split; try done. exists []. by rewrite app_nil_r.
  - by apply net_handler_spec.
  - destruct Hal. eapply h2_runs_mono; [by apply http_handler_spec|done|]. by intros u' _ (? & _).
  - by apply okP_ret, open_connection_spec.
  - by apply close_op_spec.
  - unfold h2_send. destruct (h2_conns u !! id) as [conn|] eqn:Hc.
    + destruct (tc_stream_closed conn); cbn [negb]; mstep; [by apply okP_ret|].
      unfold on_session. rewrite (inv_open _ _ _ Hi Hc). mstep. by apply okP_ret, inv_call.
    + destruct (udp_has ans id); mstep; apply okP_ret; [by apply inv_call|done].
  - unfold h2_consume. destruct (udp_has ans id); [by apply okP_ret|].
    destruct (h2_conns u !! id) as [conn|] eqn:Hc; [|by apply okP_ret].
    destruct (tc_stream conn =? 0); [by apply okP_ret|]. unfold on_session. rewrite (inv_open _ _ _ Hi Hc).
    by apply okP_ret, inv_call.
  - by apply flow_op_spec.
  - by apply health_check_spec.
  - unfold run_front. change (get_loop u) with (h2_loop u).
    destruct (task_queue (h2_loop u)) as [|info q] eqn:Hq; [by apply okP_ret|].
    apply run_info_spec; [done|done|by apply taken_front].
  - unfold run_deferred_task. change (get_loop u) with (h2_loop u).
    destruct (extract_first _ (deferred_task_queue (h2_loop u))) as [[d ds]|] eqn:Hx; [|by apply okP_ret].
    apply run_info_spec; [done|done|by eapply taken_timer].
Qed.

(** The states of an upstream.  At first no buffer holds anything. *)
Inductive h2_reach : U → Prop :=
| h2_reach_new l w :
    holds l [] → (∀ id, db_ok (new_buffer id) w ∧ db_content (new_buffer id) w = []) → h2_reach (http2_new l w)
| h2_reach_op ans op u u' :
    h2_reach u → ok_ans ans u → allowed ans op u → run_h2_op ans op u = Ok u' → h2_reach u'.

Lemma h2_reach_inv u : h2_reach u → inv u.
Proof.
  induction 1 as [l w Hl Hw|ans op u u' _ IH Ha Hal Hrun].
  - assert (tasks l = ∅) as Ht by (by rewrite (holds_tasks l [] Hl)). split; try done.
    + intros id. right. destruct (Hw id) as [W1 W2]. split; try done; [by intros ?%Exists_nil|].
      intros i t. cbn. by rewrite Ht.
    + intros i j Hij. split; (split; cbn; by apply new_apart).
    + by apply (holds_loop_ok l []).
  - pose proof (run_h2_op_inv ans op u IH Ha Hal) as Hx. by rewrite Hrun in Hx.
Qed.


(** Claim C22. Every connection ends once: on every run in which the tunnel closes only
    connections it has opened and has not been told the end of (with what [http2_never_fails]
    relies on), a connection that has been opened is in the table and no event has ended it,
    or it is not in the table and exactly one event (closed, or an error) has told the tunnel
    so, and one that has not been opened has had no such event.  The condition is needed:
    from any of these states, closing a connection that is not in the table, one never opened
    or already ended, tells the tunnel once more that it is closed. *)
Theorem http2_ends_once u id :
  h2_reach u →
  ((¬ opened id (h2_out u) ∧ h2_conns u !! id = None ∧ terminals id (h2_out u) = 0%nat) ∨
   (opened id (h2_out u) ∧ is_Some (h2_conns u !! id) ∧ terminals id (h2_out u) = 0%nat) ∨
   (opened id (h2_out u) ∧ h2_conns u !! id = None ∧ terminals id (h2_out u) = 1%nat)) ∧
  (∀ ans graceful async u', h2_conns u !! id = None → udp_has ans id = false →
     h2_close_connection ans id graceful async u = Ok u' →
     (terminals id (h2_out u) < terminals id (h2_out u'))%nat).
Proof.
  intros Hr. split.
  - destruct (iv_conn _ (h2_reach_inv u Hr) id) as [[[c [[Hs _ _ Ho Ht _ _] _ _]]|[G1 _ G3 G4 _]]|[V1 _ V3 (_ & _ & V6) _ _ _]].
    + right; left. split_and!; try done. exists c. apply Hs.
    + by right; right.
    + by left.
  - intros ans graceful async u' Hc Hu Hrun. by eapply close_unknown_ends.
Qed.

(** Claim C21. The reader gets what arrived: as long as the reader has not refused data
    and the buffer has had room, the bytes the reader of a connection took followed by
    those the upstream keeps for it are the bytes that arrived on its stream; and when the
    connection was closed with no error, not by the tunnel, the reader took all of them. *)
Theorem http2_stream_integrity u id :
  h2_reach u → within cap (h2_out u) → ¬ broken id (h2_out u) →
  (∀ conn, h2_conns u !! id = Some conn →
     delivered id (h2_out u) ++ content id u conn = received id (h2_out u)) ∧
  (¬ close_called id (h2_out u) → Exists (closed_event id) (h2_out u) →
     delivered id (h2_out u) = received id (h2_out u)).
Proof.
  intros Hr Hw Hb. pose proof (h2_reach_inv u Hr) as Hi. split.
  - intros conn Hc. by apply (ke_mid _ _ _ (inv_kept _ _ _ Hi Hc)).
  - intros Hn Hx. destruct (iv_conn _ Hi id) as [[[c [[_ _ _ _ Ht _ _] _ _]]|Hg]|Hv].
    + by destruct (alive_not_closed id (h2_out u)).
    + by apply Hg.
    + destruct (vi_quiet _ _ Hv) as (-> & -> & _). done.
Qed.

(** Kept data is not forgotten: when the reader of a connection wants data, the
    tunnel has not closed the connection and the upstream keeps data for it, a task that
    delivers the data is in the loop; and a connection whose stream is gone stays only
    while there is such data. *)
Theorem http2_kept_data_has_task u id conn :
  h2_reach u → h2_conns u !! id = Some conn →
  (tc_read_enabled conn = true → tc_client_closed conn = false → content id u conn ≠ [] →
     ∃ i, tasks (h2_loop u) !! i = Some (TCompleteRead id)) ∧
  (tc_stream_closed conn = true → content id u conn ≠ []).
Proof.
  intros Hr Hc. destruct (inv_kept _ _ _ (h2_reach_inv u Hr) Hc) as [[Hs _ _ _ _ _ _] Hl Hf]. split.
  - intros H1 H2 H3. destruct (Hl H1 H2 H3) as [i Ht]. exists i. by apply (st_complete _ _ _ Hs).
  - intros Hcl. by destruct (Hf Hcl) as (_ & ? & _).
Qed.

(** Closing the session ends every connection: [close_session] returns, no
    connection or session is left, and each connection that had been opened has got
    exactly one event that ended it. *)
Theorem close_session_ends_all ans u :
  h2_reach u → ok_ans ans u →
  okP (close_session ans u) (λ u', h2_conns u' = ∅ ∧ h2_session u' = false ∧
    ∀ id, opened id (h2_out u) → terminals id (h2_out u') = 1%nat).
Proof.
  intros Hr Ha. eapply okP_mono; [apply close_session_spec; [by apply h2_reach_inv|done]|].
  intros u' (I & C & S & _ & [es O]). split_and!; [done|done|]. intros id Hop.
  destruct (iv_conn _ I id) as [[[c [[Hs _ _ _ _ _ _] _ _]]|Hg]|Hv].
  - pose proof (st_conn _ _ _ Hs) as Hc. by rewrite C, lookup_empty in Hc.
  - apply Hg.
  - destruct (vi_opened _ _ Hv). rewrite O. apply opened_app. by left.
Qed.

(** ** Errors *)

Lemma close_inner_in ans error u :
  0 < h2_in_handler u → close_session_inner ans error u = Ok (set_h2_pending_error error (set_h2_closed true u)).
Proof. intros Hh. unfold close_session_inner. destruct (Z.ltb_spec 0 (h2_in_handler u)); [done|lia]. Qed.

Lemma close_inner_out ans error u :
  inv u → ok_ans ans u → h2_in_handler u ≤ 0 →
  okP (close_session_inner ans error u) (λ u', ∃ out r,
    h2_out u' = out ++ [H2Raised (match error with Some e => EvError H2_NON_ID e | None => EvSessionClosed end) r]).
Proof.
  intros Hi Ha Hh. unfold close_session_inner. destruct (Z.ltb_spec 0 (h2_in_handler u)); [lia|].
  eapply okP_bind; [by apply close_session_spec|]. cbn beta. intros u1 _.
  assert (event_conn (match error with Some e => EvError H2_NON_ID e | None => EvSessionClosed end) = None) as He.
  { destruct error; [|done]. cbn. by rewrite bool_decide_true. }
  destruct (notify_none ans _ u1 He) as [r ->]. apply okP_ret. by exists (h2_out u1), r.
Qed.

(** The state after the endpoint has refused the credentials, in the handler. *)
Lemma refused_chunk ans s v w r u :
  0 < h2_in_handler u → h2_session u = true → h2_to_reset u = [] → 0 < r →
  ∃ u', read_chunk ans [HHeaders s HTTP_AUTH_REQUIRED_STATUS v w] r true u = Ok (true, u') ∧
    h2_closed u' = true ∧
    h2_pending_error u' = Some (mkError VPN_EC_AUTH_REQUIRED (Some HTTP_AUTH_REQUIRED_MSG)).
Proof.
  intros Hh Hse Hto Hr. unfold read_chunk. rewrite Hse. cbn [negb http_input http_handler]. unfold h2_handle_response.
  rewrite Z.eqb_refl, close_inner_in by done. mstep.
  destruct (Z.leb_spec r 0); [lia|]. set (u1 := set_h2_pending_error _ _).
  assert (h2_to_reset (reset_health_check u1) = [] ∧ h2_closed (reset_health_check u1) = true ∧
    h2_pending_error (reset_health_check u1) = h2_pending_error u1) as (E1 & E2 & E3).
  { unfold reset_health_check. destruct (h2_health u1) as [info|]; [|done]. unfold auto_reset.
    by destruct (hc_timeout_task info). }
  cbv zeta. rewrite E1. cbn [reset_streams]. mstep. eexists. split; [done|]. done.
Qed.

(** An authorization error can be lost: when the endpoint answers a request with
    407 and its end of the stream of the socket is seen in the same round of reading, the
    upstream tells that the session is closed with no error; had the end not been seen,
    it would have told that authorization is required. *)
Theorem auth_error_lost ans s v w r u :
  h2_reach u → ok_ans ans u → h2_session u = true → h2_in_handler u = 0 → h2_to_reset u = [] → 0 < r →
  okP (net_handler ans (NetReadable [NetChunk [HHeaders s HTTP_AUTH_REQUIRED_STATUS v w] r true; NetEof]) u)
    (λ u', ∃ out x, h2_out u' = out ++ [H2Raised EvSessionClosed x]) ∧
  okP (net_handler ans (NetReadable [NetChunk [HHeaders s HTTP_AUTH_REQUIRED_STATUS v w] r true]) u)
    (λ u', ∃ out x, h2_out u' = out ++
       [H2Raised (EvError H2_NON_ID (mkError VPN_EC_AUTH_REQUIRED (Some HTTP_AUTH_REQUIRED_MSG))) x]).
Proof.
  intros Hr Ha Hse Hh Hto Hpos. pose proof (h2_reach_inv u Hr) as Hi. unfold net_handler. rewrite Hh.
  set (u0 := set_h2_in_handler (0 + 1) u). assert (inv u0) as I0 by (by apply inv_handler).
  assert (ok_ans ans u0) as A0 by (by destruct Ha).
  destruct (refused_chunk ans s v w r u0) as (u1 & R1 & C1 & P1); [done..|].
  assert (inv u1 ∧ shrink u0 u1) as [I1 S1].
  { pose proof (read_chunk_spec ans [HHeaders s HTTP_AUTH_REQUIRED_STATUS v w] r true u0 I0 A0 Hse) as Hx.
    rewrite R1 in Hx. apply Hx; [done|]. split; [done|by intros]. }
  pose proof (ok_ans_shrink _ _ _ A0 S1) as A1.
  assert (h2_in_handler u1 = 1) as Hh1 by (by rewrite (sh_handler _ _ S1)).
  cbn [net_event READ_BUDGET take readable_loop]. rewrite R1. mstep. split.
  - rewrite close_inner_in by lia. mstep. h2simpl. apply (close_inner_out ans None).
    + rewrite Hh1. apply (inv_step_quiet (set_h2_in_handler 0 u1)); try done; [by apply inv_handler|].
      split; try done. exists []. by rewrite app_nil_r.
    + by destruct A1.
    + h2simpl. lia.
  - h2simpl. rewrite C1, P1. apply (close_inner_out ans (Some _)).
    + rewrite Hh1. apply (inv_step_quiet (set_h2_in_handler 0 u1)); try done; [by apply inv_handler|].
      split; try done. exists []. by rewrite app_nil_r.
    + by destruct A1.
    + h2simpl. lia.
Qed.

(** Whether the result of a health check is wanted is forgotten: the caller of
    [do_health_check] that does not need the result, and for which a failure is an error of
    the session, gets the result of the check when the request has been sent and its stream
    is closed with an error. *)
Theorem health_check_result_forced ans timeout error_code u :
  h2_reach u → ok_ans ans u → allowed ans (OpHealthCheck false timeout) u →
  h2_session u = true → headers_sent ans = true → h2_closing u = false → error_code ≠ NGHTTP2_NO_ERROR →
  udp_stream ans ≠ Some (h2_next_stream u) → icmp_stream ans ≠ Some (h2_next_stream u) →
  okP (u1 ← h2_do_health_check ans false timeout u; stream_processed ans (h2_next_stream u) error_code u1)
    (λ u', ∃ out x, h2_out u' =
       out ++ [H2Raised (EvHealthCheckError (mkError VPN_EC_ERROR (Some (strerror error_code)))) x]).
Proof.
  intros Hr Ha Hal Hse Hsent Hcl Hec Hu1 Hu2. cbn [allowed] in Hal. pose proof (h2_reach_inv u Hr) as Hi.
  unfold h2_do_health_check. destruct (inv_reset_health u Hi) as (I1 & Q1 & _ & _).
  assert (h2_closing (reset_health_check u) = false) as Hcl1.
  { unfold reset_health_check. destruct (h2_health u) as [info|]; [|done]. by destruct (hc_timeout_task info). }
  set (u1 := reset_health_check u) in *. pose proof (iv_range _ Hi) as Hrg.
  unfold send_connect_request. rewrite (qu_session _ _ Q1), Hse, Hsent, (qu_next _ _ Q1). cbn [negb].
  assert (u32 (h2_next_stream u) = h2_next_stream u) as -> by (unfold u32; rewrite Z.mod_small by lia; done).
  set (u2 := set_h2_streams _ _). destruct (schedule_task THealthCheckTimeout false timeout u2 (iv_loop _ I1)) as
    (i & l' & -> & _). mstep.
  unfold stream_processed. rewrite !bool_decide_false by done. h2simpl. rewrite Z.eqb_refl.
  change (h2_closing u2) with (h2_closing u1). rewrite Hcl1. cbn [hc_error no_error code hc_need_result].
  change (code no_error =? 0) with true. destruct (Z.eqb_spec error_code NGHTTP2_NO_ERROR); [done|]. cbn [negb andb code].
  change (VPN_EC_NOERROR =? 0) with true. cbn [andb code]. change (VPN_EC_ERROR =? 0) with false. cbn [negb].
  unfold report_health_check_error. set (u3 := reset_health_check _).
  destruct (notify_none ans (EvHealthCheckError (mkError VPN_EC_ERROR (Some (strerror error_code)))) u3) as [x ->]; [done|].
  apply okP_ret. by exists (h2_out u3), x.
Qed.

End Runs.

(** ** Examples *)

Lemma within_total c out : total_got out ≤ c → within c out.
Proof.
  intros Ht pre id [k ->]. rewrite total_got_app in Ht. pose proof (received_le id pre).
  assert (0 ≤ total_got k). { pose proof (received_le 0 k). pose proof (blen_nonneg (received 0 k)). lia. }
  pose proof (blen_nonneg (delivered id pre)). lia.
Qed.

Lemma none_of {A} (f : A → bool) (l : list A) : forallb (λ x, negb (f x)) l = true → ¬ Exists (λ x, f x = true) l.
Proof.
  intros Hf [x [Hx E1]]%Exists_exists. rewrite forallb_forall in Hf. apply list_elem_of_In in Hx.
  specialize (Hf x Hx). by rewrite E1 in Hf.
Qed.

(** A tunnel that takes two bytes at a time. *)
Definition two_bytes (out : list H2Out) (e : H2Event) : list H2Call * Z :=
  match e with
  | EvRead id data => ([CallFlowControl id 0 0], 2 `min` blen data)
  | EvConnectionOpened id => ([CallFlowControl id 100 100], 0)
  | _ => ([], 0)
  end.

#[local] Instance example_env : H2Env AnyBuffer := {
  h2_ndebug := false;
  strerror c := "error"%string;
  AG_ECONNREFUSED := 111;
  AG_ENETUNREACH := 101;
  AG_ETIMEDOUT := 110;
  new_buffer id := make_buffer None 0 0;
  conns_order m := (map_to_list m).*1;
  streams_order l := l;
  react := two_bytes;
  h2_nesting := 8;
}.

#[local] Instance example_buffer : DataBuffer AnyBuffer Disk := any_buffer false.
#[local] Instance example_laws : DataBufferLaws AnyBuffer Disk := any_buffer_laws false.

Lemma two_bytes_ok : react_ok example_env.
Proof.
  split.
  - intros out e c Hc. destruct e; cbn in Hc; apply list_elem_of_In in Hc; cbn in Hc; try tauto;
      destruct Hc as [<-|[]]; done.
  - intros out id data. cbn. lia.
  - done.
Qed.

#[local] Instance example_world : H2World AnyBuffer Disk := {
  cap := 2 ^ 63;
  Hreact := two_bytes_ok;
  new_capacity id := eq_refl;
  new_apart i j _ := I;
  conns_order_perm m := reflexivity _;
  streams_order_perm l := reflexivity _;
}.

Definition example_ans : H2Answers := mkH2Answers None None (λ _, false) true true (λ _, false) true.

(** Five bytes arrive on connection 7 before its stream is closed. *)
Definition example_ops : list H2Op :=
  [OpOpenSession None true true true; OpNet (NetConnected true true true); OpOpen 7 false;
   OpNet (NetReadable [NetChunk [HHeaders 1 200 false None; HData 1 [10; 20; 30; 40; 50]] 9 true]);
   OpFlow 7 100 100; OpTask; OpHttp (HStreamProcessed 1 0); OpFlow 7 100 100; OpTask].

Definition example_state (n : nat) : @Http2Upstream AnyBuffer Disk :=
  foldl (λ u op, match run_h2_op example_ans op u with Ok u' => u' | _ => u end)
    (http2_new (vpn_event_loop_create) (empty_disk 0)) (take n example_ops).

Lemma example_ans_ok (u : @Http2Upstream AnyBuffer Disk) : ok_ans example_ans u.
Proof. split; [done|by intros s [|]|done]. Qed.

Lemma example_step n op :
  h2_reach (example_state n) → allowed example_ans op (example_state n) →
  run_h2_op example_ans op (example_state n) = Ok (example_state (S n)) → h2_reach (example_state (S n)).
Proof. intros H1 H2 H3. eapply h2_reach_op; [exact H1|apply example_ans_ok|exact H2|exact H3]. Qed.

(** Evaluates the state an operation leads to. *)
Ltac run_to H := vm_compute in H; injection H as <-.

Lemma example_open : h2_reach (example_state 3).
Proof.
  assert (h2_reach (example_state 0)) as H.
  { apply h2_reach_new; [split; try done; constructor|]. intros id. by split_and!. }
  apply (example_step _ (OpOpenSession None true true true)) in H; [|done|by vm_compute].
  apply (example_step _ (OpNet (NetConnected true true true))) in H; [|done|by vm_compute].
  apply (example_step _ (OpOpen 7 false)) in H; [done| |by vm_compute].
  intros _. split_and!; [by apply none_of; vm_compute|done|done].
Qed.

(** What the socket brings. *)
Lemma example_data : h2_reach (example_state 4).
Proof.
  apply (example_step 3 (OpNet (NetReadable [NetChunk [HHeaders 1 200 false None; HData 1 [10; 20; 30; 40; 50]] 9 true])));
    [apply example_open| |by vm_compute].
  split; [done|]. split; [|by intros u' H]. split; [done|]. intros u' H. run_to H. split; [|by intros].
  intros _. by vm_compute.
Qed.

Lemma example_waiting : h2_reach (example_state 5).
Proof. apply (example_step 4 (OpFlow 7 100 100)); [apply example_data|done|by vm_compute]. Qed.

Lemma example_closed : h2_reach (example_state 9).
Proof.
  pose proof example_waiting as H. apply (example_step _ OpTask) in H; [|done|by vm_compute].
  apply (example_step _ (OpHttp (HStreamProcessed 1 0))) in H; [|done|by vm_compute].
  apply (example_step _ (OpFlow 7 100 100)) in H; [|done|by vm_compute].
  by apply (example_step _ OpTask) in H; [|done|by vm_compute].
Qed.


Lemma http2_ends_once_witness :
  opened 7 (h2_out (example_state 9)) ∧ h2_conns (example_state 9) !! 7 = None ∧
  terminals 7 (h2_out (example_state 9)) = 1%nat.
Proof.
  destruct (http2_ends_once (example_state 9) 7 example_closed) as [[(_ & _ & H)|[(_ & H & _)|H]] _]; [..|exact H].
  - exfalso. vm_compute in H. discriminate.
  - exfalso. destruct H as [c Hc]. vm_compute in Hc. discriminate.
Defined.

Lemma http2_stream_integrity_witness :
  delivered 7 (h2_out (example_state 9)) = [10; 20; 30; 40; 50] ∧
  delivered 7 (h2_out (example_state 9)) = received 7 (h2_out (example_state 9)).
Proof.
  split; [by vm_compute|].
  apply (http2_stream_integrity (example_state 9) 7 example_closed).
  - apply within_total. by vm_compute.
  - by apply none_of; vm_compute.
  - by apply none_of; vm_compute.
  - apply Exists_exists. exists (H2Raised (EvConnectionClosed 7) 0). split; [|by exists 0].
    apply list_elem_of_In. vm_compute. tauto.
Defined.

Lemma http2_kept_data_has_task_witness :
  ∃ i, tasks (h2_loop (example_state 5)) !! i = Some (TCompleteRead 7).
Proof.
  destruct (h2_conns (example_state 5) !! 7) as [conn|] eqn:Hc; [|by vm_compute in Hc].
  apply (http2_kept_data_has_task (example_state 5) 7 conn example_waiting Hc); vm_compute in Hc; injection Hc as <-; done.
Defined.

Lemma close_session_ends_all_witness :
  okP (close_session example_ans (example_state 5)) (λ u', h2_conns u' = ∅ ∧ h2_session u' = false ∧
    ∀ id, opened id (h2_out (example_state 5)) → terminals id (h2_out u') = 1%nat).
Proof. apply close_session_ends_all; [apply example_waiting|apply example_ans_ok]. Defined.

Lemma auth_error_lost_witness :
  okP (net_handler example_ans (NetReadable [NetChunk [HHeaders 1 407 false None] 9 true; NetEof]) (example_state 3))
    (λ u', ∃ out x, h2_out u' = out ++ [H2Raised EvSessionClosed x]).
Proof. apply (auth_error_lost example_ans 1 false None 9); [apply example_open|apply example_ans_ok|done..]. Defined.

Lemma health_check_result_forced_witness :
  okP (u1 ← h2_do_health_check example_ans false 5000 (example_state 3); stream_processed example_ans 3 2 u1)
    (λ u', ∃ out x, h2_out u' = out ++ [H2Raised (EvHealthCheckError (mkError VPN_EC_ERROR (Some (strerror 2)))) x]).
Proof.
  assert (h2_next_stream (example_state 3) = 3) as Hn by (by vm_compute). rewrite <- Hn.
  apply (health_check_result_forced example_ans 5000 2 (example_state 3)); [apply example_open|apply example_ans_ok|done..].
Defined.
