(* ===== verification/ConnStats.v ===== *)
(** * The connection statistics monitor

    [core/src/connection_statistics.cpp]: bytes moved by a connection since the
    last report, with a limit on how often they are reported.  Times are in
    microseconds, as the [timeval]s of the source; the cached time of the event
    loop is an argument.  The calls of the handler are a list. *)
From S2P Require Import Prelude.

(** [ConnectionStatistics]. *)
Record ConnectionStatistics := mkReport { rep_id : Z; rep_upload : Z; rep_download : Z }.

(** [ConnectionStatisticsMonitor::Statistics]. *)
Record Statistics := mkStatistics { st_upload : Z; st_download : Z; raise_not_before : Z }.

Record StatsMonitor := mkMonitor {
  m_stats : gmap Z Statistics;
  m_throttling_period : Z;
  m_threshold_bytes : Z;
}.

Definition DEFAULT_THROTTLING_PERIOD : Z := 100.
Definition DEFAULT_THRESHOLD_BYTES : Z := 100 * 1024.

Implicit Types m : StatsMonitor.

Definition monitor_new : StatsMonitor := mkMonitor ∅ DEFAULT_THROTTLING_PERIOD DEFAULT_THRESHOLD_BYTES.

Definition set_stats (x : gmap Z Statistics) m : StatsMonitor :=
  mkMonitor x (m_throttling_period m) (m_threshold_bytes m).

(** The end of the pause that starts at [now]: the period is in milliseconds. *)
Definition next_raise (now : Z) m : Z := now + 1000 * m_throttling_period m.

(** [emplace] keeps an entry that is there. *)
Definition register_conn (now id : Z) m : StatsMonitor :=
  let stats := default (mkStatistics 0 0 0) (m_stats m !! id) in
  set_stats (<[id := mkStatistics (st_upload stats) (st_download stats) (next_raise now m)]> (m_stats m)) m.

(** [raise_stats]: what is reported, and the entry with its counters reset. *)
Definition raise_stats (now id : Z) (stats : Statistics) m : ConnectionStatistics * Statistics :=
  (mkReport id (st_upload stats) (st_download stats), mkStatistics 0 0 (next_raise now m)).

Definition unregister_conn (now id : Z) (do_report : bool) m : list ConnectionStatistics * StatsMonitor :=
  let m' := set_stats (delete id (m_stats m)) m in
  match m_stats m !! id with
  | Some stats =>
      if do_report && (0 <? st_upload stats) && (0 <? st_download stats)
      then ([(raise_stats now id stats m).1], m') else ([], m')
  | None => ([], m')
  end.

Definition should_be_notified (now : Z) (stats : Statistics) m : bool :=
  if (st_upload stats <? m_threshold_bytes m) && (st_download stats <? m_threshold_bytes m) then false
  else raise_not_before stats <? now.

(** The common part of [update_download] and [update_upload]. *)
Definition update_stats (now id : Z) (f : Statistics → Statistics) m :
    list ConnectionStatistics * StatsMonitor :=
  match m_stats m !! id with
  | None => ([], m)
  | Some stats =>
      let stats := f stats in
      if should_be_notified now stats m
      then let '(report, stats) := raise_stats now id stats m in
           ([report], set_stats (<[id := stats]> (m_stats m)) m)
      else ([], set_stats (<[id := stats]> (m_stats m)) m)
  end.

Definition add_download (inc : Z) (stats : Statistics) : Statistics :=
  mkStatistics (st_upload stats) (u64 (st_download stats + inc)) (raise_not_before stats).
Definition add_upload (inc : Z) (stats : Statistics) : Statistics :=
  mkStatistics (u64 (st_upload stats + inc)) (st_download stats) (raise_not_before stats).

Definition update_download (now id inc : Z) m := update_stats now id (add_download inc) m.
Definition update_upload (now id inc : Z) m := update_stats now id (add_upload inc) m.

(** ** Sequences of calls *)

Inductive StatsCall :=
| CallRegister (id : Z)
| CallUnregister (id : Z) (do_report : bool)
| CallDownload (id inc : Z)
| CallUpload (id inc : Z).

(** A call with the time of the loop. *)
Definition run_stats_call (now : Z) (c : StatsCall) m : list ConnectionStatistics * StatsMonitor :=
  match c with
  | CallRegister id => ([], register_conn now id m)
  | CallUnregister id do_report => unregister_conn now id do_report m
  | CallDownload id inc => update_download now id inc m
  | CallUpload id inc => update_upload now id inc m
  end.

(** The reports of a sequence of calls, each with its time. *)
Fixpoint run_stats (cs : list (Z * StatsCall)) m : list (Z * ConnectionStatistics) * StatsMonitor :=
  match cs with
  | [] => ([], m)
  | (now, c) :: cs =>
      let '(out, m) := run_stats_call now c m in
      let '(rest, m) := run_stats cs m in
      (((λ r, (now, r)) <$> out) ++ rest, m)
  end.

(** Bytes a sequence of calls counts for a connection, and bytes it reports. *)
Definition counted (id : Z) (cs : list (Z * StatsCall)) : Z * Z :=
  foldr (λ c acc, match c.2 with
                  | CallUpload i inc => if i =? id then (inc + acc.1, acc.2) else acc
                  | CallDownload i inc => if i =? id then (acc.1, inc + acc.2) else acc
                  | _ => acc
                  end) (0, 0) cs.

Definition reported (id : Z) (rs : list (Z * ConnectionStatistics)) : Z * Z :=
  foldr (λ r acc, if rep_id r.2 =? id then (rep_upload r.2 + acc.1, rep_download r.2 + acc.2) else acc) (0, 0) rs.

(** A sequence that neither starts nor stops watching the connection; the
    increments are sizes. *)
Definition keeps_watching (id : Z) (cs : list (Z * StatsCall)) : Prop :=
  Forall (λ c, match c.2 with
               | CallRegister i | CallUnregister i _ => i ≠ id
               | CallUpload _ inc | CallDownload _ inc => 0 ≤ inc
               end) cs.

(** Reports of one connection are at least the period apart. *)
Fixpoint spaced (id period last : Z) (rs : list (Z * ConnectionStatistics)) : Prop :=
  match rs with
  | [] => True
  | (t, r) :: rs => if rep_id r =? id then last + period < t ∧ spaced id period t rs else spaced id period last rs
  end.

(** ** Conservation and spacing *)

Definition small (st : Statistics) (n : Z * Z) : Prop :=
  0 ≤ st_upload st ∧ 0 ≤ st_download st ∧ st_upload st + n.1 < 2 ^ 64 ∧ st_download st + n.2 < 2 ^ 64.

(** What a sequence with the counts [n] does to the entry of a connection. *)
Record balanced (id : Z) m st (n : Z * Z) (rs : list (Z * ConnectionStatistics)) st' : Prop := {
  bal_upload : (reported id rs).1 + st_upload st' = st_upload st + n.1;
  bal_download : (reported id rs).2 + st_download st' = st_download st + n.2;
  bal_spaced : spaced id (1000 * m_throttling_period m) (raise_not_before st - 1000 * m_throttling_period m) rs;
}.

Lemma counted_nonneg id cs : keeps_watching id cs → 0 ≤ (counted id cs).1 ∧ 0 ≤ (counted id cs).2.
Proof.
  induction 1 as [|[t c] cs Hc _ IH]; simpl in *; [lia|].
  destruct c; simpl in *; try lia; destruct (_ =? _); simpl; lia.
Qed.

Lemma update_stats_other now id i f m :
  i ≠ id → let '(out, m') := update_stats now i f m in
  m_stats m' !! id = m_stats m !! id ∧ Forall (λ r, rep_id r = i) out
  ∧ m_throttling_period m' = m_throttling_period m.
Proof.
  intros Hne. unfold update_stats. destruct (m_stats m !! i); [|by repeat constructor].
  destruct (should_be_notified _ _ _); simpl; rewrite lookup_insert_ne by done; by repeat constructor.
Qed.

(** A call on another connection. *)
Lemma other_call now id c m :
  match c with CallRegister i | CallUnregister i _ | CallDownload i _ | CallUpload i _ => i ≠ id end →
  let '(out, m') := run_stats_call now c m in
  m_stats m' !! id = m_stats m !! id ∧ Forall (λ r, rep_id r ≠ id) out
  ∧ m_throttling_period m' = m_throttling_period m.
Proof.
  destruct c as [i|i rep|i inc|i inc]; simpl; intros Hne.
  - by rewrite lookup_insert_ne.
  - unfold unregister_conn. destruct (m_stats m !! i) as [st|]; [destruct (_ && _)|]; simpl;
      rewrite lookup_delete_ne by done; by repeat constructor.
  - pose proof (update_stats_other now id i (add_download inc) m Hne) as H. unfold update_download.
    destruct (update_stats _ _ _ _). destruct H as (? & H & ?). split_and!; [done| |done].
    eapply Forall_impl; [exact H|]. by intros r ->.
  - pose proof (update_stats_other now id i (add_upload inc) m Hne) as H. unfold update_upload.
    destruct (update_stats _ _ _ _). destruct H as (? & H & ?). split_and!; [done| |done].
    eapply Forall_impl; [exact H|]. by intros r ->.
Qed.

(** A count for the connection itself: kept, or reported after the pause. *)
Lemma own_update now id f m st :
  m_stats m !! id = Some st →
  let '(out, m') := update_stats now id f m in
  m_throttling_period m' = m_throttling_period m
  ∧ (out = [] ∧ m_stats m' !! id = Some (f st)
     ∨ out = [mkReport id (st_upload (f st)) (st_download (f st))]
       ∧ raise_not_before (f st) < now ∧ m_stats m' !! id = Some (mkStatistics 0 0 (next_raise now m))).
Proof.
  intros Hst. unfold update_stats. rewrite Hst.
  destruct (should_be_notified _ _ _) eqn:Hn; simpl; rewrite lookup_insert_eq; (split; [done|]); [right|by left].
  unfold should_be_notified in Hn. case_match; [done|]. by apply Z.ltb_lt in Hn.
Qed.

(** One count in front of a balanced sequence. *)
Lemma balanced_update now id f up down cs m st :
  m_stats m !! id = Some st →
  f st = mkStatistics (st_upload st + up) (st_download st + down) (raise_not_before st) →
  small st (up + (counted id cs).1, down + (counted id cs).2) → 0 ≤ up → 0 ≤ down →
  (∀ m' st', m_stats m' !! id = Some st' → small st' (counted id cs) →
     let '(rs, m'') := run_stats cs m' in
     ∃ st'', m_stats m'' !! id = Some st'' ∧ balanced id m' st' (counted id cs) rs st'') →
  let '(out, m') := update_stats now id f m in
  let '(rs, m'') := run_stats cs m' in
  ∃ st'', m_stats m'' !! id = Some st''
  ∧ balanced id m st (up + (counted id cs).1, down + (counted id cs).2) (((λ r, (now, r)) <$> out) ++ rs) st''.
Proof.
  intros Hst Hf (? & ? & ? & ?) ?? IH. pose proof (own_update now id f m st Hst) as Hu. rewrite Hf in Hu. simpl in *.
  destruct (update_stats now id f m) as [out m']. destruct Hu as [Hp [[-> Hst']|(-> & Hnow & Hst')]];
    specialize (IH m' _ Hst'); unfold small in IH; simpl in IH;
    (destruct (run_stats cs m') as [rs m'']; destruct IH as (st'' & Hst'' & [U D S]); [lia|];
     rewrite Hp in S; exists st''; split; [done|]; split; simpl in *; rewrite ?Z.eqb_refl; simpl; try lia; try done).
  split; [lia|]. unfold next_raise in S. by replace now with (now + 1000 * m_throttling_period m - 1000 * m_throttling_period m) by lia.
Qed.

Lemma reported_other id now out rs :
  Forall (λ r, rep_id r ≠ id) out → reported id (((λ r, (now, r)) <$> out) ++ rs) = reported id rs
  ∧ ∀ period last, spaced id period last (((λ r, (now, r)) <$> out) ++ rs) ↔ spaced id period last rs.
Proof.
  induction 1 as [|r out Hr _ IH]; simpl; [done|]. by rewrite (proj2 (Z.eqb_neq _ _) Hr).
Qed.

(** Claim C35. While a connection is watched no byte is lost or reported twice, and its
    reports keep the pause. *)
Theorem stats_conserved cs id m st :
  m_stats m !! id = Some st → keeps_watching id cs → small st (counted id cs) →
  let '(rs, m') := run_stats cs m in
  ∃ st', m_stats m' !! id = Some st' ∧ balanced id m st (counted id cs) rs st'.
Proof.
  revert m st. induction cs as [|[now c] cs IH]; intros m st Hst Hc Hs; simpl.
  { exists st. split; [done|]. split; simpl; try lia; done. }
  apply Forall_cons in Hc as [Hc1 Hc]. simpl in Hc1.
  assert (∀ m' st', m_stats m' !! id = Some st' → small st' (counted id cs) →
     let '(rs, m'') := run_stats cs m' in
     ∃ st'', m_stats m'' !! id = Some st'' ∧ balanced id m' st' (counted id cs) rs st'') as IH'.
  { intros m' st' H1 H2. by apply IH. }
  pose proof (counted_nonneg id cs Hc) as Hpos.
  assert (match c with CallDownload i _ | CallUpload i _ => i = id | _ => False end
          ∨ match c with CallDownload i _ | CallUpload i _ => i ≠ id | _ => True end) as [Hid|Hid]
    by (destruct c; [by right|by right|lia|lia]).
  - destruct c as [| |i inc|i inc]; try done; simpl in Hs |- *; subst i; rewrite Z.eqb_refl in Hs |- *;
      destruct Hs as (? & ? & ? & ?); simpl in *.
    + pose proof (balanced_update now id (add_download inc) 0 inc cs m st Hst) as Hb. simpl in Hb.
      unfold update_download. destruct (update_stats _ _ _ m) as [out m']. destruct (run_stats cs m').
      apply Hb; try done. unfold add_download, u64. rewrite Z.mod_small by lia. f_equal; lia.
    + pose proof (balanced_update now id (add_upload inc) inc 0 cs m st Hst) as Hb. simpl in Hb.
      unfold update_upload. destruct (update_stats _ _ _ m) as [out m']. destruct (run_stats cs m').
      apply Hb; try done. unfold add_upload, u64. rewrite Z.mod_small by lia. f_equal; lia.
  - pose proof (other_call now id c m) as H. destruct (run_stats_call now c m) as [out m'] eqn:Hrun.
    destruct H as (Hsame & Hout & Hp); [by destruct c|].
    assert (counted id ((now, c) :: cs) = counted id cs) as Heq.
    { destruct c; simpl in *; try done; by rewrite (proj2 (Z.eqb_neq _ _)). }
    change (foldr _ _ _) with (counted id cs) in *.
    specialize (IH' m' st). rewrite Hsame in IH'. destruct (run_stats cs m') as [rs m''].
    destruct IH' as (st'' & ? & [U D S]); [done|by rewrite <- Heq|].
    exists st''. destruct (reported_other id now out rs Hout) as [R1 R2].
    split; [done|]. split; rewrite ?R1, ?R2; [| |by rewrite <- Hp];
    destruct c; simpl in Heq |- *; try rewrite Heq; done.
Qed.

Lemma stats_conserved_witness :
  let cs := [(500000, CallUpload 7 90000); (500000, CallDownload 9 1); (600000, CallUpload 7 40000)] in
  let m := register_conn 0 7 monitor_new in
  (reported 7 (run_stats cs m).1).1 = 130000.
Proof.
  intros cs m. pose proof (stats_conserved cs 7 m (mkStatistics 0 0 100000)) as H.
  destruct H as (st' & Hst & [U _ _]); [done | unfold keeps_watching, cs; rewrite !Forall_cons; simpl; by split_and!
    | unfold small; simpl; lia |].
  vm_compute in Hst. injection Hst as <-. rewrite Z.add_0_r in U. exact U.
Defined.

(** The rest of a connection that moved bytes one way only is not reported when
    the connection ends, although a report was asked for. *)
Theorem unregister_drops_one_way now id m st :
  m_stats m !! id = Some st → st_download st = 0 →
  unregister_conn now id true m = ([], set_stats (delete id (m_stats m)) m).
Proof. intros Hst Hd. unfold unregister_conn. rewrite Hst, Hd. by rewrite andb_false_r. Qed.
