(* ===== verification/Tunnel.v ===== *)
(** * The tunnel

    [core/src/tunnel.cpp]: the connections of the client, each with a listener on
    one side and an upstream on the other.  The tunnel answers the requests of the
    listeners, selects the upstream of a connection, passes data both ways, and
    moves a connection to another upstream when the first packets show that it was
    routed wrongly.

    Connections are objects on a heap, found through two tables by the identifier
    of either side; a dereference of a freed object is a fault.  Listeners,
    upstreams, the resolver, the domain name extractors and the event loop are
    collaborators: calls on them go to the trace, and [TunnelEnv] answers them
    given the trace.  A call may raise events before it returns ([raises]): the
    handlers of the tunnel then run inside the call.  What the environment is not
    supposed to do is [allowed] (a decidable condition on the state), and running
    into it is the outcome [EnvFault], which is no fault of the tunnel.

    Logging is left out; identifiers that the log lines of a call have are kept as
    arguments of its entry in the trace. *)
From S2P Require Import Prelude VpnTypes WireUtils IcmpMux IcmpManager DomainFilter ConnStats.
From Stdlib Require Import Ascii.

Definition NON_ID : Z := 2 ^ 64 - 1.
Definition IPPROTO_TCP : Z := 6.
Definition IPPROTO_UDP : Z := 17.
Definition PLAIN_DNS_PORT_NUMBER : Z := 53.

Inductive VpnConnectionState :=
| CONNS_WAITING_ACTION
| CONNS_WAITING_RESOLVE
| CONNS_WAITING_RESPONSE
| CONNS_WAITING_RESPONSE_MIGRATING
| CONNS_WAITING_ACCEPT
| CONNS_CONNECTED
| CONNS_CONNECTED_MIGRATING
| CONNS_REJECTED.

#[export] Instance VpnConnectionState_eq_dec : EqDecision VpnConnectionState.
Proof. solve_decision. Defined.

(** [VpnConnectionFlags], positions in a bit set. *)
Definition CONNF_FIRST_PACKET : Z := 0.
Definition CONNF_FORCIBLY_BYPASSED : Z := 1.
Definition CONNF_FORCIBLY_REDIRECTED : Z := 2.
Definition CONNF_LOOKINGUP_DOMAIN : Z := 3.
Definition CONNF_SESSION_CLOSED : Z := 4.
Definition CONNF_SUSPECT_EXCLUSION : Z := 5.
Definition CONNF_FAKE_CONNECTION : Z := 6.
Definition CONNF_PLAIN_DNS_CONNECTION : Z := 7.
Definition CONNF_MONITOR_STATS : Z := 8.
Definition CONNF_CONN_INFO_SENT : Z := 9.

Inductive ClientConnectResult := CCR_PASS | CCR_DROP | CCR_REJECT | CCR_UNREACH.

#[export] Instance ClientConnectResult_eq_dec : EqDecision ClientConnectResult.
Proof. solve_decision. Defined.

Inductive DomainExtractorStatus := DES_NOTFOUND | DES_FOUND | DES_PASS | DES_WANT_MORE.

Record DomainExtractorResult := mkExtracted { de_status : DomainExtractorStatus; de_domain : str }.

Inductive DomainExtractorPacketDirection := DEPD_OUTGOING | DEPD_INCOMING.

Inductive TunnelDomainLookupAction :=
| TDLA_DONE | TDLA_PASS | TDLA_DROP | TDLA_SHUTDOWN | TDLA_BLOCK | TDLA_WANT_MORE.

Inductive VpnFinalConnectionAction := VPN_FCA_BYPASS | VPN_FCA_TUNNEL | VPN_FCA_REJECT.

(** What [parse_quic_header] tells the tunnel. *)
Inductive QuicPacketType := QUIC_ZERO_RTT | QUIC_INITIAL | QUIC_OTHER.

(** The class of an upstream object. *)
Inductive UpstreamClass := EndpointUpstream | DirectUpstream | FakeUpstream | DnsUpstream.

#[export] Instance UpstreamClass_eq_dec : EqDecision UpstreamClass.
Proof. solve_decision. Defined.

(** [TunnelAddress]. *)
Inductive TunnelAddress (A : Type) := ToAddress (a : A) | ToName (name : str) (p : Z).
Arguments ToAddress {A}.
Arguments ToName {A}.

(** Events of listeners ([listener_handler]), upstreams ([upstream_handler]) and
    of the resolver ([on_destination_resolve_result]).  The first argument is the
    object that raises the event. *)
Inductive TunEvent (A : Type) :=
| ClientConnectRequest (l id proto : Z) (src : A) (dst : TunnelAddress A) (app : str) (dns_bypass : bool)
| ClientAccepted (l id : Z)
| ClientClosed (l id : Z)
| ClientRead (l id : Z) (data : list Z)
| ClientDataSent (l id length : Z)
| ClientOutput (l : Z)
| ClientIcmpRequest (l : Z) (request : IcmpEchoRequest A)
| ServerSessionOpened (u : Z)
| ServerSessionClosed (u : Z)
| ServerHealthCheckError (u : Z)
| ServerConnectionOpened (u id : Z)
| ServerConnectionClosed (u id : Z)
| ServerRead (u id : Z) (data : list Z)
| ServerDataSent (u id length : Z)
| ServerGetAvailable (u id : Z)
| ServerFailed (u id code : Z)
| ServerEchoReply (u : Z) (reply : IcmpEchoReply A)
| ResolveResult (rid : Z) (addresses : option (list A)).
Arguments ClientConnectRequest {A}.
Arguments ClientAccepted {A}.
Arguments ClientClosed {A}.
Arguments ClientRead {A}.
Arguments ClientDataSent {A}.
Arguments ClientOutput {A}.
Arguments ClientIcmpRequest {A}.
Arguments ServerSessionOpened {A}.
Arguments ServerSessionClosed {A}.
Arguments ServerHealthCheckError {A}.
Arguments ServerConnectionOpened {A}.
Arguments ServerConnectionClosed {A}.
Arguments ServerRead {A}.
Arguments ServerDataSent {A}.
Arguments ServerGetAvailable {A}.
Arguments ServerFailed {A}.
Arguments ServerEchoReply {A}.
Arguments ResolveResult {A}.

(** The trace: what the tunnel receives ([Got], [Asked]) and returns, the calls
    it makes ([l] is a listener, [u] an upstream) and the answers of the filter. *)
Inductive TunOut (A : Type) :=
| Got (e : TunEvent A)
| Returned (e : TunEvent A) (result : Z)
| Asked (id : Z) (action : option VpnConnectAction)
| Migrating (id : Z)
| LComplete (l id : Z) (result : ClientConnectResult)
| LClose (l id : Z) (graceful async : bool)
| LSend (l id : Z) (data : list Z)
| LConsume (l id length : Z)
| LFlowInfo (l id : Z)
| LTurnRead (l id : Z) (on : bool)
| LIcmpReply (l : Z) (reply : IcmpEchoReply A)
| UOpen (u cid : Z) (src : A) (dst : TunnelAddress A) (proto : Z) (app : str)
| UClose (u id : Z) (graceful async : bool)
| USend (u id cid : Z) (data : list Z)
| USent (cid : Z) (data : list Z)
| UConsume (u id length : Z)
| UAvailable (u id : Z)
| UFlow (u id : Z) (info : Z * Z)
| UHealthCheck (u : Z)
| UCancelHealthCheck (u : Z)
| UIcmp (u : Z) (request : IcmpEchoRequest A)
| FakeSession (u : Z) (open : bool)
| RResolve (name : str) (foreground : bool)
| RCancel (rid : Z)
| RStop
| RStopBackground
| RInit
| RDeinit
| FakeInit
| FakeDeinit
| DnsInit
| DnsResolverConn (id : Z)
| DnsUpdate
| DnsNetworkChange
| XProceed (p : Z) (dir : DomainExtractorPacketDirection) (proto : Z) (data : list Z)
| XReset (p : Z)
| CacheGet (src : A) (dst : TunnelAddress A)
| CacheInsert (src : A) (dst : TunnelAddress A) (result : DomainExtractorResult)
| FMatchTag (tag : SockAddrTag A) (status : DomainFilterMatchStatus)
| FMatchDomain (name : str) (status : DomainFilterMatchStatus)
| FMode (mode : VpnMode)
| GetTime
| VConnectRequest (id proto : Z) (src : A) (dst : TunnelAddress A) (app : str)
| VConnectionClosed (id : Z)
| VConnectionInfo (src : A) (dst : TunnelAddress A) (domain : option str) (proto : Z)
    (action : VpnFinalConnectionAction)
| VStats (r : ConnectionStatistics)
| VOutput.
Arguments Got {A}.
Arguments Returned {A}.
Arguments Asked {A}.
Arguments Migrating {A}.
Arguments LComplete {A}.
Arguments LClose {A}.
Arguments LSend {A}.
Arguments LConsume {A}.
Arguments LFlowInfo {A}.
Arguments LTurnRead {A}.
Arguments LIcmpReply {A}.
Arguments UOpen {A}.
Arguments UClose {A}.
Arguments USend {A}.
Arguments USent {A}.
Arguments UConsume {A}.
Arguments UAvailable {A}.
Arguments UFlow {A}.
Arguments UHealthCheck {A}.
Arguments UCancelHealthCheck {A}.
Arguments UIcmp {A}.
Arguments FakeSession {A}.
Arguments RResolve {A}.
Arguments RCancel {A}.
Arguments RStop {A}.
Arguments RStopBackground {A}.
Arguments RInit {A}.
Arguments RDeinit {A}.
Arguments FakeInit {A}.
Arguments FakeDeinit {A}.
Arguments DnsInit {A}.
Arguments DnsResolverConn {A}.
Arguments DnsUpdate {A}.
Arguments DnsNetworkChange {A}.
Arguments XProceed {A}.
Arguments XReset {A}.
Arguments CacheGet {A}.
Arguments CacheInsert {A}.
Arguments FMatchTag {A}.
Arguments FMatchDomain {A}.
Arguments FMode {A}.
Arguments GetTime {A}.
Arguments VConnectRequest {A}.
Arguments VConnectionClosed {A}.
Arguments VConnectionInfo {A}.
Arguments VStats {A}.
Arguments VOutput {A}.

(** Outcomes: [Fault] is the tunnel's (an invalid dereference, a failed assertion
    or an exception nobody catches), [EnvFault] the environment's. *)
Inductive TunRes (X : Type) := Done (x : X) | Fault | EnvFault.
Arguments Done {X}.
Arguments Fault {X}.
Arguments EnvFault {X}.

(** The domain filter as the tunnel uses it; the first argument of an operation
    on the caches is the time. *)
Class TunnelFilter (A F : Type) := {
  tf_mode : F → VpnMode;
  tf_match_tag : Z → F → SockAddrTag A → DomainFilterMatchResult;
  tf_match_domain : F → str → DomainFilterMatchStatus;
  tf_add_resolved_tag : Z → SockAddrTag A → str → F → F;
  tf_resolvable : F → list str;
}.

#[export] Instance domain_filter_ops {A R RS TC SC} `{!SocketAddressOps A, !NetTextOps A R, !CidrRangeSetOps R RS}
    `{!LruTimeoutCacheOps (SockAddrTag A) str TC, !LruTimeoutCacheOps A Z SC} :
    TunnelFilter A (DomainFilter A RS TC SC) := {
  tf_mode := get_mode;
  tf_match_tag := match_tag;
  tf_match_domain := match_domain;
  tf_add_resolved_tag := add_resolved_tag;
  tf_resolvable := get_resolvable_exclusions;
}.

(** The build, the configuration, functions of libraries and of the files the
    model does not have, and the answers of the collaborators. *)
Class TunnelEnv (A : Type) := {
  t_ndebug : bool;
  AG_ETIMEDOUT : Z;
  AG_ENETUNREACH : Z;
  AG_EHOSTUNREACH : Z;
  AG_ECONNREFUSED : Z;
  AG_ECONNRESET : Z;
  is_loopback : A → bool;
  ip_version : A → option bool;
  no_address : A;
  is_valid_ip : str → bool;
  make_address : str → Z → A;
  is_domain_scannable_port : Z → bool;
  tcp_early_ack : bool;
  preresolve : option Z;
  upstream_timeout : Z;
  has_hostname_cache : bool;
  parse_quic_header : list Z → option QuicPacketType;
  prepare_for_domain_lookup : list Z → option (list Z);
  class_of : Z → UpstreamClass;
  table_order : gmap Z Z → list Z;
  ip_available : list (TunOut A) → Z → bool → bool;
  may_send_icmp : list (TunOut A) → bool;
  is_resolver_connection : list (TunOut A) → Z → bool;
  clock : list (TunOut A) → Z;
  answer : list (TunOut A) → Z;
  answer_flow : list (TunOut A) → Z * Z;
  answer_extract : list (TunOut A) → DomainExtractorResult;
  answer_cache : list (TunOut A) → option DomainExtractorResult;
  answer_id : list (TunOut A) → option Z;
  answer_time : list (TunOut A) → option Z;
  answer_ok : list (TunOut A) → bool;
  raises : list (TunOut A) → list (TunEvent A);
}.

Section Tunnel.
Context {A F : Type} `{!SocketAddressOps A, !TunnelFilter A F, !TunnelEnv A}.

(** ** State *)

(** [VpnConnection]: [std::weak_ptr]s are identifiers of objects. *)
Record VpnConnection := mkConn {
  c_client_id : Z;
  c_server_id : Z;
  c_listener : option Z;
  c_upstream : option Z;
  c_state : VpnConnectionState;
  c_src : A;
  c_dst : TunnelAddress A;
  c_proto : Z;
  c_flags : Z;
  c_uid : Z;
  c_extracted : DomainExtractorResult;
  c_migrating_client_id : Z;
  c_app_name : str;
  c_complete_task : option Z;
  c_incoming : Z;
  c_outgoing : Z;
  c_buffered : list (list Z);
  c_send_task : option Z;
  c_lookup_attempts : Z;
  c_action : option VpnConnectAction;
}.

Implicit Types c : VpnConnection.

Definition set_c_client_id (x : Z) c : VpnConnection :=
  mkConn x (c_server_id c) (c_listener c) (c_upstream c) (c_state c) (c_src c) (c_dst c) (c_proto c)
    (c_flags c) (c_uid c) (c_extracted c) (c_migrating_client_id c) (c_app_name c) (c_complete_task c)
    (c_incoming c) (c_outgoing c) (c_buffered c) (c_send_task c) (c_lookup_attempts c) (c_action c).
Definition set_c_server_id (x : Z) c : VpnConnection :=
  mkConn (c_client_id c) x (c_listener c) (c_upstream c) (c_state c) (c_src c) (c_dst c) (c_proto c)
    (c_flags c) (c_uid c) (c_extracted c) (c_migrating_client_id c) (c_app_name c) (c_complete_task c)
    (c_incoming c) (c_outgoing c) (c_buffered c) (c_send_task c) (c_lookup_attempts c) (c_action c).
Definition set_c_listener (x : option Z) c : VpnConnection :=
  mkConn (c_client_id c) (c_server_id c) x (c_upstream c) (c_state c) (c_src c) (c_dst c) (c_proto c)
    (c_flags c) (c_uid c) (c_extracted c) (c_migrating_client_id c) (c_app_name c) (c_complete_task c)
    (c_incoming c) (c_outgoing c) (c_buffered c) (c_send_task c) (c_lookup_attempts c) (c_action c).
Definition set_c_upstream (x : option Z) c : VpnConnection :=
  mkConn (c_client_id c) (c_server_id c) (c_listener c) x (c_state c) (c_src c) (c_dst c) (c_proto c)
    (c_flags c) (c_uid c) (c_extracted c) (c_migrating_client_id c) (c_app_name c) (c_complete_task c)
    (c_incoming c) (c_outgoing c) (c_buffered c) (c_send_task c) (c_lookup_attempts c) (c_action c).
Definition set_c_state (x : VpnConnectionState) c : VpnConnection :=
  mkConn (c_client_id c) (c_server_id c) (c_listener c) (c_upstream c) x (c_src c) (c_dst c) (c_proto c)
    (c_flags c) (c_uid c) (c_extracted c) (c_migrating_client_id c) (c_app_name c) (c_complete_task c)
    (c_incoming c) (c_outgoing c) (c_buffered c) (c_send_task c) (c_lookup_attempts c) (c_action c).
Definition set_c_dst (x : TunnelAddress A) c : VpnConnection :=
  mkConn (c_client_id c) (c_server_id c) (c_listener c) (c_upstream c) (c_state c) (c_src c) x (c_proto c)
    (c_flags c) (c_uid c) (c_extracted c) (c_migrating_client_id c) (c_app_name c) (c_complete_task c)
    (c_incoming c) (c_outgoing c) (c_buffered c) (c_send_task c) (c_lookup_attempts c) (c_action c).
Definition set_c_flags (x : Z) c : VpnConnection :=
  mkConn (c_client_id c) (c_server_id c) (c_listener c) (c_upstream c) (c_state c) (c_src c) (c_dst c)
    (c_proto c) x (c_uid c) (c_extracted c) (c_migrating_client_id c) (c_app_name c) (c_complete_task c)
    (c_incoming c) (c_outgoing c) (c_buffered c) (c_send_task c) (c_lookup_attempts c) (c_action c).
Definition set_c_uid (x : Z) c : VpnConnection :=
  mkConn (c_client_id c) (c_server_id c) (c_listener c) (c_upstream c) (c_state c) (c_src c) (c_dst c)
    (c_proto c) (c_flags c) x (c_extracted c) (c_migrating_client_id c) (c_app_name c) (c_complete_task c)
    (c_incoming c) (c_outgoing c) (c_buffered c) (c_send_task c) (c_lookup_attempts c) (c_action c).
Definition set_c_extracted (x : DomainExtractorResult) c : VpnConnection :=
  mkConn (c_client_id c) (c_server_id c) (c_listener c) (c_upstream c) (c_state c) (c_src c) (c_dst c)
    (c_proto c) (c_flags c) (c_uid c) x (c_migrating_client_id c) (c_app_name c) (c_complete_task c)
    (c_incoming c) (c_outgoing c) (c_buffered c) (c_send_task c) (c_lookup_attempts c) (c_action c).
Definition set_c_migrating_client_id (x : Z) c : VpnConnection :=
  mkConn (c_client_id c) (c_server_id c) (c_listener c) (c_upstream c) (c_state c) (c_src c) (c_dst c)
    (c_proto c) (c_flags c) (c_uid c) (c_extracted c) x (c_app_name c) (c_complete_task c) (c_incoming c)
    (c_outgoing c) (c_buffered c) (c_send_task c) (c_lookup_attempts c) (c_action c).
Definition set_c_app_name (x : str) c : VpnConnection :=
  mkConn (c_client_id c) (c_server_id c) (c_listener c) (c_upstream c) (c_state c) (c_src c) (c_dst c)
    (c_proto c) (c_flags c) (c_uid c) (c_extracted c) (c_migrating_client_id c) x (c_complete_task c)
    (c_incoming c) (c_outgoing c) (c_buffered c) (c_send_task c) (c_lookup_attempts c) (c_action c).
Definition set_c_complete_task (x : option Z) c : VpnConnection :=
  mkConn (c_client_id c) (c_server_id c) (c_listener c) (c_upstream c) (c_state c) (c_src c) (c_dst c)
    (c_proto c) (c_flags c) (c_uid c) (c_extracted c) (c_migrating_client_id c) (c_app_name c) x
    (c_incoming c) (c_outgoing c) (c_buffered c) (c_send_task c) (c_lookup_attempts c) (c_action c).
Definition set_c_incoming (x : Z) c : VpnConnection :=
  mkConn (c_client_id c) (c_server_id c) (c_listener c) (c_upstream c) (c_state c) (c_src c) (c_dst c)
    (c_proto c) (c_flags c) (c_uid c) (c_extracted c) (c_migrating_client_id c) (c_app_name c)
    (c_complete_task c) x (c_outgoing c) (c_buffered c) (c_send_task c) (c_lookup_attempts c) (c_action c).
Definition set_c_outgoing (x : Z) c : VpnConnection :=
  mkConn (c_client_id c) (c_server_id c) (c_listener c) (c_upstream c) (c_state c) (c_src c) (c_dst c)
    (c_proto c) (c_flags c) (c_uid c) (c_extracted c) (c_migrating_client_id c) (c_app_name c)
    (c_complete_task c) (c_incoming c) x (c_buffered c) (c_send_task c) (c_lookup_attempts c) (c_action c).
Definition set_c_buffered (x : list (list Z)) c : VpnConnection :=
  mkConn (c_client_id c) (c_server_id c) (c_listener c) (c_upstream c) (c_state c) (c_src c) (c_dst c)
    (c_proto c) (c_flags c) (c_uid c) (c_extracted c) (c_migrating_client_id c) (c_app_name c)
    (c_complete_task c) (c_incoming c) (c_outgoing c) x (c_send_task c) (c_lookup_attempts c) (c_action c).
Definition set_c_send_task (x : option Z) c : VpnConnection :=
  mkConn (c_client_id c) (c_server_id c) (c_listener c) (c_upstream c) (c_state c) (c_src c) (c_dst c)
    (c_proto c) (c_flags c) (c_uid c) (c_extracted c) (c_migrating_client_id c) (c_app_name c)
    (c_complete_task c) (c_incoming c) (c_outgoing c) (c_buffered c) x (c_lookup_attempts c) (c_action c).
Definition set_c_lookup_attempts (x : Z) c : VpnConnection :=
  mkConn (c_client_id c) (c_server_id c) (c_listener c) (c_upstream c) (c_state c) (c_src c) (c_dst c)
    (c_proto c) (c_flags c) (c_uid c) (c_extracted c) (c_migrating_client_id c) (c_app_name c)
    (c_complete_task c) (c_incoming c) (c_outgoing c) (c_buffered c) (c_send_task c) x (c_action c).
Definition set_c_action (x : option VpnConnectAction) c : VpnConnection :=
  mkConn (c_client_id c) (c_server_id c) (c_listener c) (c_upstream c) (c_state c) (c_src c) (c_dst c)
    (c_proto c) (c_flags c) (c_uid c) (c_extracted c) (c_migrating_client_id c) (c_app_name c)
    (c_complete_task c) (c_incoming c) (c_outgoing c) (c_buffered c) (c_send_task c)
    (c_lookup_attempts c) x.

(** Tasks of the tunnel in the event loop, with their arguments. *)
Inductive TunTask :=
| TaskCompleteConnect (listener_conn_id err_code : Z)
| TaskSendBuffered (conn_client_id : Z)
| TaskRepeatExclusions.

(** [Tunnel], the fields of [VpnClient] it reads, the objects that are alive, the
    tasks in the loop and the trace.  [t_pins] are the connections a handler is
    going to use after the call it is in, [t_busy] the clients (and connections)
    whose data a handler is taking or sending: only [allowed] reads them. *)
Record Tunnel := mkTunnel {
  t_heap : gmap Z VpnConnection;
  t_next_ptr : Z;
  t_by_client : gmap Z Z;
  t_by_server : gmap Z Z;
  t_connected : bool;
  t_sleeping : bool;
  t_last_health_check : Z;
  t_resolver : option Z;
  t_waiters : gmap Z Z;
  t_repeat_task : option Z;
  t_fake : option Z;
  t_dns : option Z;
  t_stats : option StatsMonitor;
  t_icmp : IcmpManager A;
  t_endpoint : option Z;
  t_bypass : option Z;
  t_client_listener : option Z;
  t_dns_proxy : option Z;
  t_filter : F;
  t_exclusions_mode : VpnMode;
  t_alive : list Z;
  t_tasks : gmap Z TunTask;
  t_next_task : Z;
  t_pins : list Z;
  t_busy : list (Z * Z);
  t_out : list (TunOut A);
}.

Implicit Types s : Tunnel.

Definition set_t_heap (x : gmap Z VpnConnection) s : Tunnel :=
  mkTunnel x (t_next_ptr s) (t_by_client s) (t_by_server s) (t_connected s) (t_sleeping s)
    (t_last_health_check s) (t_resolver s) (t_waiters s) (t_repeat_task s) (t_fake s) (t_dns s) (t_stats s)
    (t_icmp s) (t_endpoint s) (t_bypass s) (t_client_listener s) (t_dns_proxy s) (t_filter s)
    (t_exclusions_mode s) (t_alive s) (t_tasks s) (t_next_task s) (t_pins s) (t_busy s) (t_out s).
Definition set_t_next_ptr (x : Z) s : Tunnel :=
  mkTunnel (t_heap s) x (t_by_client s) (t_by_server s) (t_connected s) (t_sleeping s)
    (t_last_health_check s) (t_resolver s) (t_waiters s) (t_repeat_task s) (t_fake s) (t_dns s) (t_stats s)
    (t_icmp s) (t_endpoint s) (t_bypass s) (t_client_listener s) (t_dns_proxy s) (t_filter s)
    (t_exclusions_mode s) (t_alive s) (t_tasks s) (t_next_task s) (t_pins s) (t_busy s) (t_out s).
Definition set_t_by_client (x : gmap Z Z) s : Tunnel :=
  mkTunnel (t_heap s) (t_next_ptr s) x (t_by_server s) (t_connected s) (t_sleeping s)
    (t_last_health_check s) (t_resolver s) (t_waiters s) (t_repeat_task s) (t_fake s) (t_dns s) (t_stats s)
    (t_icmp s) (t_endpoint s) (t_bypass s) (t_client_listener s) (t_dns_proxy s) (t_filter s)
    (t_exclusions_mode s) (t_alive s) (t_tasks s) (t_next_task s) (t_pins s) (t_busy s) (t_out s).
Definition set_t_by_server (x : gmap Z Z) s : Tunnel :=
  mkTunnel (t_heap s) (t_next_ptr s) (t_by_client s) x (t_connected s) (t_sleeping s)
    (t_last_health_check s) (t_resolver s) (t_waiters s) (t_repeat_task s) (t_fake s) (t_dns s) (t_stats s)
    (t_icmp s) (t_endpoint s) (t_bypass s) (t_client_listener s) (t_dns_proxy s) (t_filter s)
    (t_exclusions_mode s) (t_alive s) (t_tasks s) (t_next_task s) (t_pins s) (t_busy s) (t_out s).
Definition set_t_connected (x : bool) s : Tunnel :=
  mkTunnel (t_heap s) (t_next_ptr s) (t_by_client s) (t_by_server s) x (t_sleeping s)
    (t_last_health_check s) (t_resolver s) (t_waiters s) (t_repeat_task s) (t_fake s) (t_dns s) (t_stats s)
    (t_icmp s) (t_endpoint s) (t_bypass s) (t_client_listener s) (t_dns_proxy s) (t_filter s)
    (t_exclusions_mode s) (t_alive s) (t_tasks s) (t_next_task s) (t_pins s) (t_busy s) (t_out s).
Definition set_t_sleeping (x : bool) s : Tunnel :=
  mkTunnel (t_heap s) (t_next_ptr s) (t_by_client s) (t_by_server s) (t_connected s) x
    (t_last_health_check s) (t_resolver s) (t_waiters s) (t_repeat_task s) (t_fake s) (t_dns s) (t_stats s)
    (t_icmp s) (t_endpoint s) (t_bypass s) (t_client_listener s) (t_dns_proxy s) (t_filter s)
    (t_exclusions_mode s) (t_alive s) (t_tasks s) (t_next_task s) (t_pins s) (t_busy s) (t_out s).
Definition set_t_last_health_check (x : Z) s : Tunnel :=
  mkTunnel (t_heap s) (t_next_ptr s) (t_by_client s) (t_by_server s) (t_connected s) (t_sleeping s) x
    (t_resolver s) (t_waiters s) (t_repeat_task s) (t_fake s) (t_dns s) (t_stats s) (t_icmp s)
    (t_endpoint s) (t_bypass s) (t_client_listener s) (t_dns_proxy s) (t_filter s) (t_exclusions_mode s)
    (t_alive s) (t_tasks s) (t_next_task s) (t_pins s) (t_busy s) (t_out s).
Definition set_t_resolver (x : option Z) s : Tunnel :=
  mkTunnel (t_heap s) (t_next_ptr s) (t_by_client s) (t_by_server s) (t_connected s) (t_sleeping s)
    (t_last_health_check s) x (t_waiters s) (t_repeat_task s) (t_fake s) (t_dns s) (t_stats s) (t_icmp s)
    (t_endpoint s) (t_bypass s) (t_client_listener s) (t_dns_proxy s) (t_filter s) (t_exclusions_mode s)
    (t_alive s) (t_tasks s) (t_next_task s) (t_pins s) (t_busy s) (t_out s).
Definition set_t_waiters (x : gmap Z Z) s : Tunnel :=
  mkTunnel (t_heap s) (t_next_ptr s) (t_by_client s) (t_by_server s) (t_connected s) (t_sleeping s)
    (t_last_health_check s) (t_resolver s) x (t_repeat_task s) (t_fake s) (t_dns s) (t_stats s) (t_icmp s)
    (t_endpoint s) (t_bypass s) (t_client_listener s) (t_dns_proxy s) (t_filter s) (t_exclusions_mode s)
    (t_alive s) (t_tasks s) (t_next_task s) (t_pins s) (t_busy s) (t_out s).
Definition set_t_repeat_task (x : option Z) s : Tunnel :=
  mkTunnel (t_heap s) (t_next_ptr s) (t_by_client s) (t_by_server s) (t_connected s) (t_sleeping s)
    (t_last_health_check s) (t_resolver s) (t_waiters s) x (t_fake s) (t_dns s) (t_stats s) (t_icmp s)
    (t_endpoint s) (t_bypass s) (t_client_listener s) (t_dns_proxy s) (t_filter s) (t_exclusions_mode s)
    (t_alive s) (t_tasks s) (t_next_task s) (t_pins s) (t_busy s) (t_out s).
Definition set_t_fake (x : option Z) s : Tunnel :=
  mkTunnel (t_heap s) (t_next_ptr s) (t_by_client s) (t_by_server s) (t_connected s) (t_sleeping s)
    (t_last_health_check s) (t_resolver s) (t_waiters s) (t_repeat_task s) x (t_dns s) (t_stats s)
    (t_icmp s) (t_endpoint s) (t_bypass s) (t_client_listener s) (t_dns_proxy s) (t_filter s)
    (t_exclusions_mode s) (t_alive s) (t_tasks s) (t_next_task s) (t_pins s) (t_busy s) (t_out s).
Definition set_t_dns (x : option Z) s : Tunnel :=
  mkTunnel (t_heap s) (t_next_ptr s) (t_by_client s) (t_by_server s) (t_connected s) (t_sleeping s)
    (t_last_health_check s) (t_resolver s) (t_waiters s) (t_repeat_task s) (t_fake s) x (t_stats s)
    (t_icmp s) (t_endpoint s) (t_bypass s) (t_client_listener s) (t_dns_proxy s) (t_filter s)
    (t_exclusions_mode s) (t_alive s) (t_tasks s) (t_next_task s) (t_pins s) (t_busy s) (t_out s).
Definition set_t_stats (x : option StatsMonitor) s : Tunnel :=
  mkTunnel (t_heap s) (t_next_ptr s) (t_by_client s) (t_by_server s) (t_connected s) (t_sleeping s)
    (t_last_health_check s) (t_resolver s) (t_waiters s) (t_repeat_task s) (t_fake s) (t_dns s) x (t_icmp s)
    (t_endpoint s) (t_bypass s) (t_client_listener s) (t_dns_proxy s) (t_filter s) (t_exclusions_mode s)
    (t_alive s) (t_tasks s) (t_next_task s) (t_pins s) (t_busy s) (t_out s).
Definition set_t_icmp (x : IcmpManager A) s : Tunnel :=
  mkTunnel (t_heap s) (t_next_ptr s) (t_by_client s) (t_by_server s) (t_connected s) (t_sleeping s)
    (t_last_health_check s) (t_resolver s) (t_waiters s) (t_repeat_task s) (t_fake s) (t_dns s)
    (t_stats s) x (t_endpoint s) (t_bypass s) (t_client_listener s) (t_dns_proxy s) (t_filter s)
    (t_exclusions_mode s) (t_alive s) (t_tasks s) (t_next_task s) (t_pins s) (t_busy s) (t_out s).
Definition set_t_endpoint (x : option Z) s : Tunnel :=
  mkTunnel (t_heap s) (t_next_ptr s) (t_by_client s) (t_by_server s) (t_connected s) (t_sleeping s)
    (t_last_health_check s) (t_resolver s) (t_waiters s) (t_repeat_task s) (t_fake s) (t_dns s) (t_stats s)
    (t_icmp s) x (t_bypass s) (t_client_listener s) (t_dns_proxy s) (t_filter s) (t_exclusions_mode s)
    (t_alive s) (t_tasks s) (t_next_task s) (t_pins s) (t_busy s) (t_out s).
Definition set_t_bypass (x : option Z) s : Tunnel :=
  mkTunnel (t_heap s) (t_next_ptr s) (t_by_client s) (t_by_server s) (t_connected s) (t_sleeping s)
    (t_last_health_check s) (t_resolver s) (t_waiters s) (t_repeat_task s) (t_fake s) (t_dns s) (t_stats s)
    (t_icmp s) (t_endpoint s) x (t_client_listener s) (t_dns_proxy s) (t_filter s) (t_exclusions_mode s)
    (t_alive s) (t_tasks s) (t_next_task s) (t_pins s) (t_busy s) (t_out s).
Definition set_t_client_listener (x : option Z) s : Tunnel :=
  mkTunnel (t_heap s) (t_next_ptr s) (t_by_client s) (t_by_server s) (t_connected s) (t_sleeping s)
    (t_last_health_check s) (t_resolver s) (t_waiters s) (t_repeat_task s) (t_fake s) (t_dns s) (t_stats s)
    (t_icmp s) (t_endpoint s) (t_bypass s) x (t_dns_proxy s) (t_filter s) (t_exclusions_mode s) (t_alive s)
    (t_tasks s) (t_next_task s) (t_pins s) (t_busy s) (t_out s).
Definition set_t_dns_proxy (x : option Z) s : Tunnel :=
  mkTunnel (t_heap s) (t_next_ptr s) (t_by_client s) (t_by_server s) (t_connected s) (t_sleeping s)
    (t_last_health_check s) (t_resolver s) (t_waiters s) (t_repeat_task s) (t_fake s) (t_dns s) (t_stats s)
    (t_icmp s) (t_endpoint s) (t_bypass s) (t_client_listener s) x (t_filter s) (t_exclusions_mode s)
    (t_alive s) (t_tasks s) (t_next_task s) (t_pins s) (t_busy s) (t_out s).
Definition set_t_filter (x : F) s : Tunnel :=
  mkTunnel (t_heap s) (t_next_ptr s) (t_by_client s) (t_by_server s) (t_connected s) (t_sleeping s)
    (t_last_health_check s) (t_resolver s) (t_waiters s) (t_repeat_task s) (t_fake s) (t_dns s) (t_stats s)
    (t_icmp s) (t_endpoint s) (t_bypass s) (t_client_listener s) (t_dns_proxy s) x (t_exclusions_mode s)
    (t_alive s) (t_tasks s) (t_next_task s) (t_pins s) (t_busy s) (t_out s).
Definition set_t_exclusions_mode (x : VpnMode) s : Tunnel :=
  mkTunnel (t_heap s) (t_next_ptr s) (t_by_client s) (t_by_server s) (t_connected s) (t_sleeping s)
    (t_last_health_check s) (t_resolver s) (t_waiters s) (t_repeat_task s) (t_fake s) (t_dns s) (t_stats s)
    (t_icmp s) (t_endpoint s) (t_bypass s) (t_client_listener s) (t_dns_proxy s) (t_filter s) x (t_alive s)
    (t_tasks s) (t_next_task s) (t_pins s) (t_busy s) (t_out s).
Definition set_t_alive (x : list Z) s : Tunnel :=
  mkTunnel (t_heap s) (t_next_ptr s) (t_by_client s) (t_by_server s) (t_connected s) (t_sleeping s)
    (t_last_health_check s) (t_resolver s) (t_waiters s) (t_repeat_task s) (t_fake s) (t_dns s) (t_stats s)
    (t_icmp s) (t_endpoint s) (t_bypass s) (t_client_listener s) (t_dns_proxy s) (t_filter s)
    (t_exclusions_mode s) x (t_tasks s) (t_next_task s) (t_pins s) (t_busy s) (t_out s).
Definition set_t_tasks (x : gmap Z TunTask) s : Tunnel :=
  mkTunnel (t_heap s) (t_next_ptr s) (t_by_client s) (t_by_server s) (t_connected s) (t_sleeping s)
    (t_last_health_check s) (t_resolver s) (t_waiters s) (t_repeat_task s) (t_fake s) (t_dns s) (t_stats s)
    (t_icmp s) (t_endpoint s) (t_bypass s) (t_client_listener s) (t_dns_proxy s) (t_filter s)
    (t_exclusions_mode s) (t_alive s) x (t_next_task s) (t_pins s) (t_busy s) (t_out s).
Definition set_t_next_task (x : Z) s : Tunnel :=
  mkTunnel (t_heap s) (t_next_ptr s) (t_by_client s) (t_by_server s) (t_connected s) (t_sleeping s)
    (t_last_health_check s) (t_resolver s) (t_waiters s) (t_repeat_task s) (t_fake s) (t_dns s) (t_stats s)
    (t_icmp s) (t_endpoint s) (t_bypass s) (t_client_listener s) (t_dns_proxy s) (t_filter s)
    (t_exclusions_mode s) (t_alive s) (t_tasks s) x (t_pins s) (t_busy s) (t_out s).
Definition set_t_pins (x : list Z) s : Tunnel :=
  mkTunnel (t_heap s) (t_next_ptr s) (t_by_client s) (t_by_server s) (t_connected s) (t_sleeping s)
    (t_last_health_check s) (t_resolver s) (t_waiters s) (t_repeat_task s) (t_fake s) (t_dns s) (t_stats s)
    (t_icmp s) (t_endpoint s) (t_bypass s) (t_client_listener s) (t_dns_proxy s) (t_filter s)
    (t_exclusions_mode s) (t_alive s) (t_tasks s) (t_next_task s) x (t_busy s) (t_out s).
Definition set_t_busy (x : list (Z * Z)) s : Tunnel :=
  mkTunnel (t_heap s) (t_next_ptr s) (t_by_client s) (t_by_server s) (t_connected s) (t_sleeping s)
    (t_last_health_check s) (t_resolver s) (t_waiters s) (t_repeat_task s) (t_fake s) (t_dns s) (t_stats s)
    (t_icmp s) (t_endpoint s) (t_bypass s) (t_client_listener s) (t_dns_proxy s) (t_filter s)
    (t_exclusions_mode s) (t_alive s) (t_tasks s) (t_next_task s) (t_pins s) x (t_out s).
Definition set_t_out (x : list (TunOut A)) s : Tunnel :=
  mkTunnel (t_heap s) (t_next_ptr s) (t_by_client s) (t_by_server s) (t_connected s) (t_sleeping s)
    (t_last_health_check s) (t_resolver s) (t_waiters s) (t_repeat_task s) (t_fake s) (t_dns s) (t_stats s)
    (t_icmp s) (t_endpoint s) (t_bypass s) (t_client_listener s) (t_dns_proxy s) (t_filter s)
    (t_exclusions_mode s) (t_alive s) (t_tasks s) (t_next_task s) (t_pins s) (t_busy s) x.


(** ** The monad *)

Definition M (X : Type) : Type := Tunnel → TunRes (X * Tunnel).

#[global] Instance M_ret : MRet M := λ X x s, Done (x, s).
#[global] Instance M_bind : MBind M := λ X Y f m s,
  match m s with Done (x, s) => f x s | Fault => Fault | EnvFault => EnvFault end.

Definition fault {X} : M X := λ _, Fault.
Definition env_fault {X} : M X := λ _, EnvFault.
Definition gets {X} (f : Tunnel → X) : M X := λ s, Done (f s, s).
Definition modify (f : Tunnel → Tunnel) : M unit := λ s, Done (tt, f s).
Definition skip : M unit := mret tt.
Definition when (b : bool) (m : M unit) : M unit := if b then m else skip.
Definition tun_assert (b : bool) : M unit := if b || t_ndebug then skip else fault.

(** A call that raises no events, and one with an answer. *)
Definition emit (o : TunOut A) : M unit := modify (λ s, set_t_out (t_out s ++ [o]) s).
Definition ask {X} (o : TunOut A) (f : list (TunOut A) → X) : M X :=
  _ ← emit o; gets (λ s, f (t_out s)).

(** [conn->]. *)
Definition conn_at (p : Z) : M VpnConnection :=
  λ s, match t_heap s !! p with Some c => Done (c, s) | None => Fault end.
Definition upd (p : Z) (f : VpnConnection → VpnConnection) : M unit :=
  c ← conn_at p; modify (λ s, set_t_heap (<[p := f c]> (t_heap s)) s).
Definition alloc (c : VpnConnection) : M Z :=
  p ← gets t_next_ptr;
  _ ← modify (λ s, set_t_next_ptr (p + 1) (set_t_heap (<[p := c]> (t_heap s)) s));
  mret p.

Definition test (flag : Z) c : bool := Z.testbit (c_flags c) flag.
Definition set_flag (flag : Z) (on : bool) c : VpnConnection :=
  set_c_flags (if on then Z.setbit (c_flags c) flag else Z.clearbit (c_flags c) flag) c.

(** [std::weak_ptr::lock]. *)
Definition locked (w : option Z) s : option Z :=
  match w with Some x => if bool_decide (x ∈ t_alive s) then Some x else None | None => None end.
Definition lock (w : option Z) : M (option Z) := gets (locked w).

(** The event loop: [event_loop::submit], [AutoTaskId::reset]. *)
Definition submit (t : TunTask) : M Z :=
  id ← gets t_next_task;
  _ ← modify (λ s, set_t_next_task (id + 1) (set_t_tasks (<[id := t]> (t_tasks s)) s));
  mret id.
Definition cancel_task (id : option Z) : M unit :=
  match id with Some id => modify (λ s, set_t_tasks (delete id (t_tasks s)) s) | None => skip end.

(** Calls through [dns_resolver] and through [dns_handler]. *)
Definition on_resolver (o : TunOut A) : M unit :=
  r ← gets t_resolver; match r with Some _ => emit o | None => fault end.
Definition on_dns_handler (o : TunOut A) : M unit :=
  d ← gets t_dns; match d with Some _ => emit o | None => fault end.

(** Calls of [statistics_monitor]; [raise_statistics]. *)
Fixpoint raise_all (rs : list ConnectionStatistics) : M unit :=
  match rs with [] => skip | r :: rs => _ ← emit (VStats r); raise_all rs end.
Definition with_stats (f : Z → StatsMonitor → list ConnectionStatistics * StatsMonitor) : M unit :=
  m ← gets t_stats;
  match m with
  | None => fault
  | Some m =>
      now ← gets (λ s, default 0 (answer_time (t_out s)));
      let '(out, m) := f now m in
      _ ← modify (set_t_stats (Some m)); raise_all out
  end.

(** The domain filter. *)
Definition filter_mode : M VpnMode :=
  mode ← gets (λ s, tf_mode (t_filter s)); _ ← emit (FMode mode); mret mode.
Definition filter_match_tag (tag : SockAddrTag A) : M DomainFilterMatchResult :=
  r ← gets (λ s, tf_match_tag (clock (t_out s)) (t_filter s) tag);
  _ ← emit (FMatchTag tag (status r)); mret r.
Definition filter_match_domain (name : str) : M DomainFilterMatchStatus :=
  r ← gets (λ s, tf_match_domain (t_filter s) name); _ ← emit (FMatchDomain name r); mret r.
Definition filter_add_resolved_tag (tag : SockAddrTag A) (domain : str) : M unit :=
  modify (λ s, set_t_filter (tf_add_resolved_tag (clock (t_out s)) tag domain (t_filter s)) s).

(** ** Connections *)

Definition by_client_id (id : Z) : M (option Z) := gets (λ s, t_by_client s !! id).
Definition by_server_id (id : Z) : M (option Z) := gets (λ s, t_by_server s !! id).
Definition remove_by_client (id : Z) : M unit := modify (λ s, set_t_by_client (delete id (t_by_client s)) s).
Definition remove_by_server (id : Z) : M unit := modify (λ s, set_t_by_server (delete id (t_by_server s)) s).

Definition add_connection (p : Z) : M unit :=
  c ← conn_at p;
  _ ← tun_assert (negb (c_client_id c =? NON_ID) || negb (c_server_id c =? NON_ID));
  _ ← when (negb (c_client_id c =? NON_ID))
        (modify (λ s, set_t_by_client (<[c_client_id c := p]> (t_by_client s)) s));
  when (negb (c_server_id c =? NON_ID))
    (modify (λ s, set_t_by_server (<[c_server_id c := p]> (t_by_server s)) s)).

(** [VpnConnection::make]; the protocol has to be one of the two. *)
Definition conn_make (client_id : Z) (src : A) (dst : TunnelAddress A) (proto : Z) : VpnConnection :=
  set_flag CONNF_PLAIN_DNS_CONNECTION
    (match dst with ToAddress a => PLAIN_DNS_PORT_NUMBER =? port a | ToName _ _ => false end)
    (mkConn client_id NON_ID None None CONNS_WAITING_ACTION src dst proto 0 0 (mkExtracted DES_NOTFOUND [])
       NON_ID [] None 0 0 [] None 0 None).
Definition is_transport (proto : Z) : bool := (proto =? IPPROTO_TCP) || (proto =? IPPROTO_UDP).

(** [make_tag], [TunnelAddressPair::dstport]. *)
Definition make_tag c : SockAddrTag A :=
  mkTag (match c_dst c with ToAddress a => a | ToName _ _ => no_address end) (c_app_name c).
Definition dstport c : Z := match c_dst c with ToAddress a => port a | ToName _ p => p end.

Definition cancel_destination_resolve c : M unit :=
  ws ← gets t_waiters;
  match list_find (λ w, w.2 = c_client_id c) (map_to_list ws) with
  | Some (_, (rid, _)) =>
      _ ← on_resolver (RCancel rid); modify (λ s, set_t_waiters (delete rid (t_waiters s)) s)
  | None => skip
  end.

(** [delete conn]: the tasks it owns are cancelled. *)
Definition delete_conn (p : Z) : M unit :=
  c ← conn_at p;
  _ ← cancel_task (c_complete_task c);
  _ ← cancel_task (c_send_task c);
  modify (λ s, set_t_heap (delete p (t_heap s)) s).

(** [destroy_connection] of a connection that was found. *)
Definition destroy_at (p : Z) : M unit :=
  c ← conn_at p;
  _ ← when (bool_decide (c_state c = CONNS_WAITING_RESOLVE)) (cancel_destination_resolve c);
  _ ← remove_by_client (c_client_id c);
  _ ← remove_by_server (c_server_id c);
  _ ← when ((c_proto c =? IPPROTO_UDP) && has_hostname_cache)
        (emit (CacheInsert (c_src c) (c_dst c) (c_extracted c)));
  _ ← when (test CONNF_MONITOR_STATS c) (with_stats (λ now, unregister_conn now (c_client_id c) true));
  l ← lock (c_listener c);
  cl ← gets t_client_listener;
  _ ← when (bool_decide (is_Some l) && bool_decide (l = cl)) (emit (VConnectionClosed (c_client_id c)));
  delete_conn p.

Definition tun_destroy_connection (client_id server_id : Z) : M unit :=
  _ ← tun_assert (negb (client_id =? NON_ID) || negb (server_id =? NON_ID));
  p ← (if client_id =? NON_ID then mret None else by_client_id client_id);
  p ← match p with
      | None => if server_id =? NON_ID then mret None else by_server_id server_id
      | Some p => mret (Some p)
      end;
  match p with Some p => destroy_at p | None => skip end.

Definition server_error_to_connect_result (err : Z) : ClientConnectResult :=
  if err =? 0 then CCR_PASS
  else if err =? AG_ETIMEDOUT then CCR_DROP
  else if (err =? AG_ENETUNREACH) || (err =? AG_EHOSTUNREACH) then CCR_UNREACH
  else CCR_REJECT.

(** [upstream->open_connection]: the identifier is new, or [NON_ID]. *)
Definition upstream_open (u : Z) c (app : str) : M Z :=
  id ← ask (UOpen u (c_client_id c) (c_src c) (c_dst c) (c_proto c) app) answer;
  if id =? NON_ID then mret NON_ID
  else
    fresh ← gets (λ s, bool_decide (map_Forall (λ _ c, c_server_id c ≠ id) (t_heap s)));
    if (fresh : bool) then mret id else env_fault.

Definition tun_do_health_check (upstream : option Z) (force : bool) : M unit :=
  sleeping ← gets t_sleeping;
  endpoint ← gets t_endpoint;
  if (sleeping : bool) || negb (bool_decide (upstream = endpoint)) then skip
  else
    now ← ask GetTime answer_time;
    match now with
    | None => skip
    | Some now =>
        last ← gets t_last_health_check;
        if negb force && ((now / 1000 <? last / 1000) || (now / 1000 - last / 1000 <? upstream_timeout))
        then skip
        else match upstream with
             | None => fault
             | Some u => _ ← emit (UHealthCheck u); modify (set_t_last_health_check now)
             end
    end.

(** ** Actions and upstreams *)

Definition vpn_mode_to_action (mode : VpnMode) : VpnConnectAction :=
  match mode with VPN_MODE_GENERAL => VPN_CA_FORCE_REDIRECT | VPN_MODE_SELECTIVE => VPN_CA_FORCE_BYPASS end.

Definition invert_action (action : VpnConnectAction) : VpnConnectAction :=
  match action with
  | VPN_CA_DEFAULT => VPN_CA_DEFAULT
  | VPN_CA_REJECT => VPN_CA_REJECT
  | VPN_CA_FORCE_BYPASS => VPN_CA_FORCE_REDIRECT
  | VPN_CA_FORCE_REDIRECT => VPN_CA_FORCE_BYPASS
  end.

Definition get_final_action (mode : VpnMode) (action : VpnConnectAction) : VpnFinalConnectionAction :=
  match action, mode with
  | VPN_CA_DEFAULT, VPN_MODE_GENERAL => VPN_FCA_TUNNEL
  | VPN_CA_DEFAULT, VPN_MODE_SELECTIVE => VPN_FCA_BYPASS
  | VPN_CA_FORCE_BYPASS, _ => VPN_FCA_BYPASS
  | VPN_CA_FORCE_REDIRECT, _ => VPN_FCA_TUNNEL
  | VPN_CA_REJECT, _ => VPN_FCA_REJECT
  end.

(** The actions of the branches [DFMS_DEFAULT_OVERRIDE] and [DFMS_EXCLUSION]. *)
Definition default_action : M VpnConnectAction := mode ← filter_mode; mret (vpn_mode_to_action mode).
Definition excluded_action : M VpnConnectAction := a ← default_action; mret (invert_action a).

Definition report_connection_info (p : Z) (domain : option str) : M unit :=
  c ← conn_at p;
  if test CONNF_PLAIN_DNS_CONNECTION c || test CONNF_LOOKINGUP_DOMAIN c || test CONNF_CONN_INFO_SENT c
  then skip
  else if match c_dst c with ToAddress a => is_loopback a | ToName _ _ => false end then skip
  else
    _ ← upd p (set_flag CONNF_CONN_INFO_SENT true);
    let domain := match c_dst c with ToAddress _ => domain | ToName name _ => Some name end in
    mode ← filter_mode;
    emit (VConnectionInfo (c_src c) (c_dst c)
            (match domain with Some [] => None | d => d end) (c_proto c)
            (get_final_action mode (default VPN_CA_DEFAULT (c_action c)))).

(** [select_upstream] without a connection; the recursive calls end here. *)
Definition select_upstream_plain (action : VpnConnectAction) : M (option Z) :=
  action ← match action with VPN_CA_DEFAULT => default_action | a => mret a end;
  match action with
  | VPN_CA_FORCE_BYPASS => gets t_bypass
  | VPN_CA_FORCE_REDIRECT => gets t_endpoint
  | _ => _ ← tun_assert false; mret None
  end.

Definition select_upstream (action : VpnConnectAction) (p : Z) : M (option Z) :=
  match action with
  | VPN_CA_DEFAULT =>
      c ← conn_at p;
      l ← lock (c_listener c);
      dns ← gets t_dns;
      if bool_decide (l = dns) then select_upstream_plain VPN_CA_FORCE_REDIRECT
      else if test CONNF_PLAIN_DNS_CONNECTION c then mret dns
      else if test CONNF_LOOKINGUP_DOMAIN c && (test CONNF_SUSPECT_EXCLUSION c || tcp_early_ack)
              && match c_dst c with ToAddress a => is_domain_scannable_port (port a) | ToName _ _ => false end
      then gets t_fake
      else select_upstream_plain VPN_CA_DEFAULT
  | a => select_upstream_plain a
  end.

(** ** Looking for the name of the destination *)

Definition domain_lookup_process_udp (p : Z) (dir : DomainExtractorPacketDirection) (data : list Z) :
    M (TunnelDomainLookupAction + DomainExtractorResult) :=
  c ← conn_at p;
  let plain : M (TunnelDomainLookupAction + DomainExtractorResult) :=
    cached ← (if has_hostname_cache then ask (CacheGet (c_src c) (c_dst c)) answer_cache else mret None);
    mret match cached with Some r => inr r | None => inl TDLA_DONE end in
  match parse_quic_header data with
  | Some QUIC_ZERO_RTT => mret (inl TDLA_DROP)
  | Some QUIC_INITIAL =>
      match prepare_for_domain_lookup data with
      | None => mret (inl TDLA_DONE)
      | Some d => r ← ask (XProceed p dir (c_proto c) d) answer_extract; mret (inr r)
      end
  | _ => plain
  end.

(** The switch over the status of the extractor. *)
Definition apply_extracted (p : Z) (r : DomainExtractorResult) : M TunnelDomainLookupAction :=
  _ ← upd p (set_c_extracted r);
  match de_status r with
  | DES_NOTFOUND =>
      _ ← emit (XReset p);
      c ← conn_at p;
      if test CONNF_SUSPECT_EXCLUSION c then
        _ ← upd p (set_c_action (Some VPN_CA_FORCE_REDIRECT)); mret TDLA_SHUTDOWN
      else mret TDLA_DONE
  | DES_FOUND =>
      c ← conn_at p;
      _ ← filter_add_resolved_tag (make_tag c) (de_domain r);
      m ← filter_match_tag (make_tag c);
      action ← match status m with
               | DFMS_EXCLUSION =>
                   a ← excluded_action; _ ← upd p (set_c_action (Some a)); mret TDLA_SHUTDOWN
               | DFMS_DEFAULT_OVERRIDE =>
                   a ← default_action; _ ← upd p (set_c_action (Some a)); mret TDLA_SHUTDOWN
               | _ => mret TDLA_DONE
               end;
      _ ← emit (XReset p); mret action
  | DES_PASS => mret TDLA_PASS
  | DES_WANT_MORE => mret TDLA_WANT_MORE
  end.

Definition pass_through_domain_lookup (p : Z) (dir : DomainExtractorPacketDirection) (data : list Z) :
    M TunnelDomainLookupAction :=
  c ← conn_at p;
  r ← (if c_proto c =? IPPROTO_UDP then domain_lookup_process_udp p dir data
       else r ← ask (XProceed p dir (c_proto c) data) answer_extract; mret (inr r));
  match r with inl action => mret action | inr r => apply_extracted p r end.

Definition schedule_send_buffered_data (p : Z) : M unit :=
  c ← conn_at p;
  id ← submit (TaskSendBuffered (c_client_id c));
  _ ← cancel_task (c_send_task c);
  upd p (set_c_send_task (Some id)).

(** ** Handlers

    [rec] handles an event raised inside a call. *)
Section Handlers.
Variable rec : TunEvent A → M Z.

Fixpoint run_raised (es : list (TunEvent A)) : M unit :=
  match es with [] => skip | e :: es => _ ← rec e; run_raised es end.

(** A call that may raise events. *)
Definition call (o : TunOut A) : M unit := es ← ask o raises; run_raised es.

(** A call after which the connection is used; work during which the data of a
    client is taken or sent. *)
Definition pinned (p : Z) (m : M unit) : M unit :=
  pins ← gets t_pins;
  _ ← modify (set_t_pins (p :: pins));
  _ ← m;
  modify (set_t_pins pins).
Definition sending {X} (id : Z) (m : M X) : M X :=
  p ← by_client_id id;
  match p with
  | None => m
  | Some p =>
      pins ← gets t_pins;
      busy ← gets t_busy;
      _ ← modify (λ s, set_t_pins (p :: pins) (set_t_busy ((id, p) :: busy) s));
      x ← m;
      _ ← modify (λ s, set_t_pins pins (set_t_busy busy s));
      mret x
  end.

(** [upstream->send] of the data of a connection. *)
Definition upstream_send (u p : Z) (data : list Z) : M Z :=
  c ← conn_at p;
  _ ← call (USend u (c_server_id c) (c_client_id c) data);
  r ← gets (λ s, answer (t_out s));
  if Z.of_nat (length data) <? r then env_fault
  else _ ← emit (USent (c_client_id c) (take (Z.to_nat r) data)); mret r.

(** [listener->complete_connect_request] with an error, then the connection, if
    there still is one, is marked. *)
Definition reject_client (l id : Z) (result : ClientConnectResult) : M unit :=
  _ ← call (LComplete l id result);
  when (negb (bool_decide (result = CCR_PASS)))
    (p ← by_client_id id;
     match p with Some p => upd p (set_c_state CONNS_REJECTED) | None => skip end).

Definition complete_connect_request_task (listener_conn_id err_code : Z) : M unit :=
  p ← by_client_id listener_conn_id;
  match p with
  | None => tun_assert false
  | Some p =>
      _ ← upd p (set_c_complete_task None);
      c ← conn_at p;
      l ← lock (c_listener c);
      match l with
      | None => tun_destroy_connection listener_conn_id NON_ID
      | Some l =>
          match c_state c with
          | CONNS_WAITING_RESOLVE | CONNS_WAITING_RESPONSE | CONNS_WAITING_ACTION =>
              reject_client l (c_client_id c) (server_error_to_connect_result err_code)
          | _ => _ ← call (LClose l listener_conn_id false false); tun_assert false
          end
      end
  end.

Definition close_client_side_connection (p err_code : Z) (async : bool) : M unit :=
  c ← conn_at p;
  l ← lock (c_listener c);
  match l with
  | None => tun_destroy_connection (c_client_id c) (c_server_id c)
  | Some l =>
      match c_state c with
      | CONNS_WAITING_ACCEPT | CONNS_CONNECTED | CONNS_CONNECTED_MIGRATING | CONNS_REJECTED =>
          call (LClose l (c_client_id c) (err_code =? 0) async)
      | CONNS_WAITING_RESOLVE | CONNS_WAITING_RESPONSE | CONNS_WAITING_ACTION =>
          let err_code := if err_code =? 0 then AG_ECONNREFUSED else err_code in
          if negb async then reject_client l (c_client_id c) (server_error_to_connect_result err_code)
          else match c_complete_task c with
               | Some _ => skip
               | None =>
                   id ← submit (TaskCompleteConnect (c_client_id c) err_code);
                   upd p (set_c_complete_task (Some id))
               end
      | CONNS_WAITING_RESPONSE_MIGRATING => skip
      end
  end.

(** The identifiers of the connections of [by_client_id] that satisfy a
    condition, in the order of the table. *)
Fixpoint collect_ids (sel : VpnConnection → Tunnel → bool) (keys : list Z) : M (list Z) :=
  match keys with
  | [] => mret []
  | k :: keys =>
      p ← by_client_id k;
      match p with
      | None => collect_ids sel keys
      | Some p =>
          c ← conn_at p;
          b ← gets (sel c);
          ids ← collect_ids sel keys;
          mret (if (b : bool) then c_client_id c :: ids else ids)
      end
  end.
Definition select_ids (sel : VpnConnection → Tunnel → bool) : M (list Z) :=
  t ← gets t_by_client; collect_ids sel (table_order t).

Fixpoint close_ids (prepare : Z → M unit) (ids : list Z) : M unit :=
  match ids with
  | [] => skip
  | id :: ids =>
      p ← by_client_id id;
      _ ← match p with
          | Some p => _ ← prepare p; close_client_side_connection p (-1) false
          | None => skip
          end;
      close_ids prepare ids
  end.

Definition close_client_side (u : Z) : M unit :=
  ids ← select_ids (λ c s, bool_decide (locked (c_upstream c) s = Some u));
  close_ids (λ p, upd p (set_flag CONNF_SESSION_CLOSED true)) ids.

(** The loop over [conn->buffered_packets], at the packets [packets]; [None] is a
    failed send, the flag says that nothing was sent.  Erasing through an iterator
    of a list that was changed in between is a fault. *)
Fixpoint send_packets (u p id : Z) (packets : list (list Z)) : M (option bool) :=
  match packets with
  | [] => mret (Some false)
  | packet :: rest =>
      r ← upstream_send u p packet;
      c ← conn_at p;
      if negb (bool_decide (c_buffered c = packets)) then fault
      else if r =? Z.of_nat (length packet) then
        _ ← upd p (λ c, set_c_outgoing (u64 (c_outgoing c + r)) c);
        _ ← when (test CONNF_MONITOR_STATS c) (with_stats (λ now, update_upload now id r));
        _ ← upd p (set_c_buffered rest);
        send_packets u p id rest
      else if r <? 0 then mret None
      else if r =? 0 then mret (Some true)
      else _ ← upd p (set_c_buffered (drop (Z.to_nat r) packet :: rest)); mret (Some false)
  end.

Definition send_buffered_data (id : Z) : M bool :=
  p ← by_client_id id;
  match p with
  | None => mret false
  | Some p =>
      _ ← upd p (set_c_send_task None);
      c ← conn_at p;
      u ← lock (c_upstream c);
      l ← lock (c_listener c);
      match u, l with
      | Some u, Some l =>
          r ← send_packets u p id (c_buffered c);
          match r with
          | None => mret false
          | Some sent_zero_bytes =>
              c ← conn_at p;
              n ← ask (UAvailable u (c_server_id c)) answer;
              _ ← emit (LTurnRead l (c_client_id c) ((0 <? n) && negb sent_zero_bytes));
              info ← ask (LFlowInfo l id) answer_flow;
              _ ← emit (UFlow u (c_server_id c) info);
              mret true
          end
      | _, _ => mret false
      end
  end.

(** ** Moving a connection to another upstream *)

(** The connection on the new upstream. *)
Definition migrated_conn c (u server_id : Z) : VpnConnection :=
  let sw := conn_make NON_ID (c_src c) (c_dst c) (c_proto c) in
  let sw := set_c_server_id server_id sw in
  let sw := set_c_listener (c_listener c) sw in
  let sw := set_c_upstream (Some u) sw in
  let sw := set_c_state CONNS_WAITING_RESPONSE_MIGRATING sw in
  let sw := set_flag CONNF_LOOKINGUP_DOMAIN (test CONNF_LOOKINGUP_DOMAIN c) sw in
  let sw := set_c_migrating_client_id (c_client_id c) sw in
  let sw := set_c_app_name (c_app_name c) sw in
  set_c_extracted (c_extracted c) sw.

(** The end of [initiate_connection_migration]. *)
Definition finish_migration_start (p u processed : Z) : M Z :=
  _ ← upd p (set_c_state CONNS_CONNECTED_MIGRATING);
  c ← conn_at p;
  old ← lock (c_upstream c);
  _ ← match old with Some old => emit (UFlow old (c_server_id c) (0, 0)) | None => skip end;
  _ ← tun_do_health_check (Some u) false;
  mret processed.

Definition initiate_connection_migration (p : Z) (upstream : option Z) (packet : list Z) : M Z :=
  match upstream with
  | None => mret (-1)
  | Some u =>
      c ← conn_at p;
      _ ← emit (Migrating (c_client_id c));
      server_id ← upstream_open u c [];
      if server_id =? NON_ID then mret (-1)
      else if negb (is_transport (c_proto c)) then fault
      else
        sw ← alloc (migrated_conn c u server_id);
        _ ← add_connection sw;
        if c_proto c =? IPPROTO_UDP then
          _ ← upd p (λ c, set_c_buffered (c_buffered c ++ [packet]) c);
          finish_migration_start p u (Z.of_nat (length packet))
        else
          _ ← upd sw (set_c_buffered (c_buffered c));
          _ ← upd p (set_c_buffered []);
          l ← lock (c_listener c);
          match l with
          | Some l => _ ← emit (LTurnRead l (c_client_id c) false); finish_migration_start p u 0
          | None => mret (-1)
          end
  end.

(** [SERVER_EVENT_CONNECTION_OPENED] of the connection [p] that replaces [src]. *)
Definition finish_migration (p src u l : Z) : M unit :=
  c ← conn_at p;
  sc ← conn_at src;
  _ ← upd p (set_c_client_id (c_client_id sc));
  _ ← upd src (set_c_client_id (c_client_id c));
  _ ← upd p (set_c_state CONNS_CONNECTED);
  _ ← upd p (set_c_migrating_client_id NON_ID);
  _ ← add_connection p;
  _ ← when (c_proto c =? IPPROTO_UDP)
        (c ← conn_at p; sc ← conn_at src;
         _ ← upd p (set_c_buffered (c_buffered sc)); upd src (set_c_buffered (c_buffered c)));
  sc ← conn_at src;
  old ← lock (c_upstream sc);
  _ ← match old with
      | Some old => pinned p (call (UClose old (c_server_id sc) false false))
      | None => skip
      end;
  c ← conn_at p;
  if negb (bool_decide (c_buffered c = [])) then schedule_send_buffered_data p
  else
    _ ← emit (LTurnRead l (c_client_id c) true);
    info ← ask (LFlowInfo l (c_client_id c)) answer_flow;
    emit (UFlow u (c_server_id c) info).

(** ** Events of the upstreams *)

Definition on_server_opened (u id : Z) : M unit :=
  p ← by_server_id id;
  match p with
  | None => _ ← call (UClose u id false true); tun_assert false
  | Some p =>
      c ← conn_at p;
      cu ← lock (c_upstream c);
      l ← lock (c_listener c);
      if negb (bool_decide (cu = Some u)) then _ ← call (UClose u id false true); tun_assert false
      else match l with
      | None => _ ← call (UClose u id false true); tun_assert false
      | Some l =>
          match c_state c with
          | CONNS_WAITING_RESPONSE =>
              _ ← report_connection_info p (Some (de_domain (c_extracted c)));
              _ ← upd p (set_c_state CONNS_WAITING_ACCEPT);
              call (LComplete l (c_client_id c) CCR_PASS)
          | CONNS_WAITING_RESPONSE_MIGRATING =>
              src ← by_client_id (c_migrating_client_id c);
              match src with
              | None => call (UClose u id false true)
              | Some src => finish_migration p src u l
              end
          | CONNS_REJECTED => call (UClose u id false true)
          | _ => _ ← tun_assert false; call (UClose u id false true)
          end
      end
  end.

Definition on_server_closed (id : Z) : M unit :=
  p ← by_server_id id;
  match p with
  | None => tun_destroy_connection NON_ID id
  | Some p =>
      c ← conn_at p;
      client ← by_client_id (c_client_id c);
      l ← lock (c_listener c);
      match client, l with
      | Some _, Some l =>
          _ ← remove_by_server (c_server_id c);
          _ ← emit (LTurnRead l (c_client_id c) false);
          close_client_side_connection p 0 false
      | _, _ => tun_destroy_connection (c_client_id c) (c_server_id c)
      end
  end.

(** The second half of [SERVER_EVENT_READ]: the data goes to the listener. *)
Definition send_to_client (p u l : Z) (data : list Z) : M Z :=
  c ← conn_at p;
  _ ← pinned p (call (LSend l (c_client_id c) data));
  r ← gets (λ s, answer (t_out s));
  c ← conn_at p;
  if r =? 0 then _ ← emit (UFlow u (c_server_id c) (0, 0)); mret r
  else if 0 <? r then
    _ ← upd p (λ c, set_c_incoming (u64 (c_incoming c + r)) c);
    _ ← when (test CONNF_MONITOR_STATS c) (with_stats (λ now, update_download now (c_client_id c) r));
    info ← ask (LFlowInfo l (c_client_id c)) answer_flow;
    _ ← emit (UFlow u (c_server_id c) info);
    mret r
  else mret r.

Definition on_server_read (u id : Z) (data : list Z) : M Z :=
  p ← by_server_id id;
  match p with
  | None => _ ← tun_assert false; mret (-1)
  | Some p =>
      c ← conn_at p;
      cu ← lock (c_upstream c);
      l ← lock (c_listener c);
      if negb (bool_decide (cu = Some u)) then _ ← tun_assert false; mret (-1)
      else match l with
      | None => _ ← tun_assert false; mret (-1)
      | Some l =>
          if test CONNF_LOOKINGUP_DOMAIN c then
            action ← pass_through_domain_lookup p DEPD_INCOMING data;
            match action with
            | TDLA_DONE => _ ← upd p (set_flag CONNF_LOOKINGUP_DOMAIN false); send_to_client p u l data
            | TDLA_PASS | TDLA_WANT_MORE | TDLA_DROP => send_to_client p u l data
            | TDLA_SHUTDOWN => _ ← close_client_side_connection p 0 false; mret 0
            | TDLA_BLOCK =>
                _ ← emit (UFlow u id (0, 0)); _ ← close_client_side_connection p (-1) false; mret 0
            end
          else send_to_client p u l data
      end
  end.

(** The identifier that the two calls of [close_connection] pass is
    [Tunnel::id], the number of the tunnel: the event's is not in scope under that
    name.  The number is an argument. *)
Definition on_server_data_sent (tunnel_id u id length : Z) : M unit :=
  p ← by_server_id id;
  match p with
  | None => skip
  | Some p =>
      c ← conn_at p;
      cu ← lock (c_upstream c);
      l ← lock (c_listener c);
      if negb (bool_decide (cu = Some u)) then _ ← call (UClose u tunnel_id false true); tun_assert false
      else match l with
      | None => _ ← call (UClose u tunnel_id false true); tun_assert false
      | Some l =>
          match c_state c with
          | CONNS_CONNECTED =>
              _ ← emit (LConsume l (c_client_id c) length);
              n ← ask (UAvailable u (c_server_id c)) answer;
              _ ← emit (LTurnRead l (c_client_id c) (0 <? n));
              when (negb (bool_decide (c_buffered c = []))) (schedule_send_buffered_data p)
          | _ => skip
          end
      end
  end.

Definition on_server_get_available (id : Z) : M Z :=
  p ← by_server_id id;
  match p with
  | None => mret 0
  | Some p =>
      c ← conn_at p;
      l ← lock (c_listener c);
      match l with
      | Some l => info ← ask (LFlowInfo l (c_client_id c)) answer_flow; mret info.1
      | None => mret 0
      end
  end.

Definition on_server_error (u id code : Z) : M unit :=
  if id =? NON_ID then close_client_side u
  else
    p ← by_server_id id;
    match p with
    | None => tun_destroy_connection NON_ID id
    | Some p =>
        c ← conn_at p;
        match c_state c with
        | CONNS_WAITING_RESPONSE_MIGRATING =>
            src ← by_client_id (c_migrating_client_id c);
            _ ← match src with
                | None => skip
                | Some src =>
                    sc ← conn_at src;
                    pinned p (call (UClose u (c_server_id sc) false true))
                end;
            c ← conn_at p;
            cu ← lock (c_upstream c);
            match cu with Some cu => call (UClose cu (c_server_id c) false true) | None => skip end
        | _ =>
            client ← by_client_id (c_client_id c);
            match client with
            | Some _ =>
                _ ← remove_by_server (c_server_id c);
                close_client_side_connection p code false
            | None => tun_destroy_connection (c_client_id c) (c_server_id c)
            end
        end
    end.

(** Calls of the ICMP manager. *)
Definition of_res {X} (r : res X) : M X := match r with Ok x => mret x | Abort | UB => fault end.

Definition on_server_echo_reply (reply : IcmpEchoReply A) : M unit :=
  m ← gets t_icmp;
  '(st, reply, m) ← of_res (register_reply t_ndebug reply m);
  _ ← modify (set_t_icmp m);
  match st with
  | IM_MSGS_PASS =>
      cl ← gets t_client_listener;
      match cl with Some l => emit (LIcmpReply l reply) | None => fault end
  | IM_MSGS_DROP => skip
  end.

Definition on_session_opened (u : Z) : M unit :=
  e ← gets t_endpoint;
  when (bool_decide (e = Some u))
    (b ← gets t_connected; _ ← tun_assert (negb b); modify (set_t_connected true)).

(** ** Requests *)

(** The action for an address: what the filter says, [DFMS_DEFAULT] and suspicions
    aside.  [select_resolved_destination_address], [on_destination_resolve_result]
    and [CLIENT_EVENT_ICMP_ECHO_REQUEST] have this switch. *)
Definition action_for (tag : SockAddrTag A) : M VpnConnectAction :=
  m ← filter_match_tag tag;
  match status m with
  | DFMS_DEFAULT | DFMS_SUSPECT_EXCLUSION => mret VPN_CA_DEFAULT
  | DFMS_EXCLUSION => excluded_action
  | DFMS_DEFAULT_OVERRIDE => default_action
  end.

Fixpoint select_resolved_destination_address (p : Z) (addresses : list A) : M (option A) :=
  match addresses with
  | [] => mret None
  | address :: addresses =>
      c ← conn_at p;
      match c_dst c with
      | ToAddress _ => fault
      | ToName _ dst_port =>
          let address := set_port dst_port address in
          action ← (if negb (test CONNF_FORCIBLY_BYPASSED c) && negb (test CONNF_FORCIBLY_REDIRECTED c)
                    then action_for (mkTag address []) else mret VPN_CA_DEFAULT);
          u ← select_upstream_plain action;
          match u with
          | None => select_resolved_destination_address p addresses
          | Some u =>
              match ip_version address with
              | None => fault
              | Some v =>
                  ok ← gets (λ s, ip_available (t_out s) u v);
                  if (ok : bool) then mret (Some address)
                  else select_resolved_destination_address p addresses
              end
          end
      end
  end.

(** [conn->server_id] has been set: the connection waits for the upstream, or is
    closed. *)
Definition connection_opened (p : Z) (upstream : option Z) (async notify : bool) : M unit :=
  c ← conn_at p;
  if negb (c_server_id c =? NON_ID) then
    _ ← upd p (set_c_state CONNS_WAITING_RESPONSE);
    _ ← add_connection p;
    _ ← when (notify && test CONNF_PLAIN_DNS_CONNECTION c)
          (l ← lock (c_listener c); r ← gets t_resolver;
           when (bool_decide (l = r)) (on_dns_handler (DnsResolverConn (c_server_id c))));
    tun_do_health_check upstream false
  else close_client_side_connection p 0 async.

(** [conn->server_id = upstream->open_connection(...)] when there is one. *)
Definition open_on (p : Z) (upstream : option Z) : M unit :=
  match upstream with
  | Some u =>
      c ← conn_at p;
      id ← upstream_open u c (c_app_name c);
      upd p (set_c_server_id id)
  | None => skip
  end.

Definition erase_waiter (rid : Z) : M unit := modify (λ s, set_t_waiters (delete rid (t_waiters s)) s).

(** [on_destination_resolve_result] once an address has been selected. *)
Definition connect_to_resolved (p : Z) (address : A) : M unit :=
  c ← conn_at p;
  match c_dst c with
  | ToAddress _ => fault
  | ToName _ dst_port =>
      let address := set_port dst_port address in
      action ← (if test CONNF_FORCIBLY_BYPASSED c then mret VPN_CA_FORCE_BYPASS
                else if test CONNF_FORCIBLY_REDIRECTED c then mret VPN_CA_FORCE_REDIRECT
                else action_for (mkTag address []));
      u ← select_upstream_plain action;
      _ ← upd p (λ c, set_c_dst (ToAddress address) (set_c_upstream u (set_c_action (Some action) c)));
      _ ← open_on p u;
      connection_opened p u false false
  end.

Definition on_destination_resolve_result (rid : Z) (result : option (list A)) : M unit :=
  w ← gets (λ s, t_waiters s !! rid);
  match w with
  | None => on_resolver (RCancel rid)
  | Some conn_client_id =>
      p ← by_client_id conn_client_id;
      match p with
      | None => _ ← on_resolver (RCancel rid); erase_waiter rid
      | Some p =>
          c ← conn_at p;
          if negb (bool_decide (c_state c = CONNS_WAITING_RESOLVE)) then
            _ ← on_resolver (RCancel rid);
            _ ← erase_waiter rid;
            close_client_side_connection p AG_ECONNREFUSED false
          else match result with
          | None => _ ← erase_waiter rid; close_client_side_connection p 0 false
          | Some addresses =>
              _ ← on_resolver (RCancel rid);
              _ ← erase_waiter rid;
              address ← select_resolved_destination_address p addresses;
              match address with
              | None => close_client_side_connection p 0 false
              | Some address => connect_to_resolved p address
              end
          end
      end
  end.

Definition need_resolve_hostname (action : VpnConnectAction) (p : Z) : M bool :=
  c ← conn_at p;
  match c_dst c with
  | ToAddress _ => mret false
  | ToName name _ =>
      l ← lock (c_listener c);
      proxy ← gets t_dns_proxy;
      if bool_decide (l = proxy) then mret false
      else
        action ← match action with
                 | VPN_CA_DEFAULT =>
                     st ← filter_match_domain name;
                     match st with
                     | DFMS_DEFAULT | DFMS_DEFAULT_OVERRIDE => default_action
                     | DFMS_EXCLUSION | DFMS_SUSPECT_EXCLUSION => excluded_action
                     end
                 | a => mret a
                 end;
        match action with
        | VPN_CA_FORCE_BYPASS => mret true
        | VPN_CA_FORCE_REDIRECT => mret (bool_decide (is_Some proxy))
        | _ => _ ← tun_assert false; mret false
        end
  end.

(** [upstream != nullptr && !upstream->ip_version_availability.test(v)]. *)
Definition unavailable (upstream : option Z) (v : bool) s : bool :=
  match upstream with Some u => negb (ip_available (t_out s) u v) | None => false end.

Definition is_destination_reachable (p : Z) (upstream : option Z) : M bool :=
  c ← conn_at p;
  match c_dst c with
  | ToName _ _ => mret true
  | ToAddress a =>
      match ip_version a with
      | None => mret false
      | Some v =>
          suspect_unavailable ← gets (λ s, unavailable (t_endpoint s) v s || unavailable (t_bypass s) v s);
          if test CONNF_SUSPECT_EXCLUSION c && (suspect_unavailable : bool) then mret false
          else
            b ← gets (unavailable upstream v); mret (negb b)
      end
  end.

(** [complete_connect_request] after the upstream has been selected. *)
Definition open_selected (p : Z) (action : VpnConnectAction) (upstream : option Z) : M unit :=
  reachable ← is_destination_reachable p upstream;
  if negb (reachable : bool) then close_client_side_connection p AG_ENETUNREACH true
  else
    need ← need_resolve_hostname action p;
    c ← conn_at p;
    if (need : bool) then
      match c_dst c with
      | ToAddress _ => fault
      | ToName name _ =>
          _ ← on_resolver (RResolve name true);
          rid ← gets (λ s, answer_id (t_out s));
          match rid with
          | None => close_client_side_connection p AG_ECONNREFUSED true
          | Some rid =>
              _ ← modify (λ s, set_t_waiters
                    (match t_waiters s !! rid with
                     | Some _ => t_waiters s
                     | None => <[rid := c_client_id c]> (t_waiters s)
                     end) s);
              upd p (set_c_state CONNS_WAITING_RESOLVE)
          end
      end
    else
      _ ← upd p (set_c_upstream upstream);
      connected ← gets t_connected;
      endpoint ← gets t_endpoint;
      if negb connected && bool_decide (upstream = endpoint) then
        _ ← upd p (set_c_upstream None);
        close_client_side_connection p 0 true
      else
        fake ← gets t_fake;
        _ ← when (bool_decide (is_Some upstream))
              (upd p (set_flag CONNF_FAKE_CONNECTION (bool_decide (fake = upstream))));
        _ ← open_on p upstream;
        connection_opened p upstream true true.

Definition tun_complete_connect_request (id : Z) (action : option VpnConnectAction) : M unit :=
  _ ← emit (Asked id action);
  p ← by_client_id id;
  match p with
  | None => skip
  | Some p =>
      let go (action : VpnConnectAction) : M unit :=
        upstream ← select_upstream action p; open_selected p action upstream in
      match default VPN_CA_DEFAULT action with
      | VPN_CA_FORCE_BYPASS =>
          _ ← upd p (set_flag CONNF_FORCIBLY_BYPASSED true); go VPN_CA_FORCE_BYPASS
      | VPN_CA_FORCE_REDIRECT =>
          _ ← upd p (set_flag CONNF_FORCIBLY_REDIRECTED true); go VPN_CA_FORCE_REDIRECT
      | VPN_CA_DEFAULT =>
          _ ← upd p (λ c, set_flag CONNF_LOOKINGUP_DOMAIN
                (match c_dst c with ToAddress _ => true | ToName _ _ => false end
                 && negb (test CONNF_PLAIN_DNS_CONNECTION c)) c);
          go VPN_CA_DEFAULT
      | VPN_CA_REJECT => close_client_side_connection p AG_ECONNREFUSED true
      end
  end.

(** The name of the program without its path: [_WIN32]. *)
Definition basename (s : str) : str :=
  match list_find (λ ch, ch = ascii_of_N 92) (reverse s) with
  | Some (i, _) => reverse (take i (reverse s))
  | None => s
  end.

Definition finalize_connect_action (request : ConnectRequestResult) : M (option VpnConnectAction) :=
  p ← by_client_id (req_id request);
  match p with
  | None => mret None
  | Some p =>
      let appname := s2l (req_appname request) in
      _ ← when (negb (bool_decide (appname = []))) (upd p (set_c_app_name appname));
      _ ← upd p (λ c, set_c_uid (req_uid request) (set_c_app_name (basename (c_app_name c)) c));
      c ← conn_at p;
      _ ← (if match req_action request with Some VPN_CA_DEFAULT | None => false | _ => true end
              || test CONNF_PLAIN_DNS_CONNECTION c
           then upd p (set_c_action (req_action request))
           else match c_dst c with
           | ToAddress a =>
               m ← filter_match_tag (make_tag c);
               match status m with
               | DFMS_DEFAULT => upd p (set_c_action (req_action request))
               | DFMS_DEFAULT_OVERRIDE =>
                   a ← default_action; _ ← upd p (set_c_action (Some a)); report_connection_info p (domain m)
               | DFMS_EXCLUSION =>
                   a ← excluded_action; _ ← upd p (set_c_action (Some a)); report_connection_info p (domain m)
               | DFMS_SUSPECT_EXCLUSION =>
                   if is_domain_scannable_port (port a) then upd p (set_flag CONNF_SUSPECT_EXCLUSION true)
                   else upd p (set_c_action (Some VPN_CA_FORCE_REDIRECT))
               end
           | ToName name _ =>
               st ← filter_match_domain name;
               match st with
               | DFMS_SUSPECT_EXCLUSION =>
                   if t_ndebug then upd p (set_c_action (req_action request)) else tun_assert false
               | DFMS_DEFAULT => upd p (set_c_action (req_action request))
               | DFMS_DEFAULT_OVERRIDE =>
                   a ← default_action; _ ← upd p (set_c_action (Some a)); report_connection_info p (Some name)
               | DFMS_EXCLUSION =>
                   a ← excluded_action; _ ← upd p (set_c_action (Some a)); report_connection_info p (Some name)
               end
           end);
      c ← conn_at p;
      mret (c_action c)
  end.

(** ** Events of the listeners *)

Definition on_connect_request (l id proto : Z) (src : A) (dst : TunnelAddress A) (app : str) (dns_bypass : bool) :
    M unit :=
  if negb (is_transport proto) then fault
  else
    let dst' := match dst with
                | ToName name port => if is_valid_ip name then ToAddress (make_address name port) else dst
                | ToAddress _ => dst
                end in
    let conn := set_flag CONNF_FIRST_PACKET true
                  (set_c_app_name app (set_c_listener (Some l) (conn_make id src dst' proto))) in
    p ← alloc conn;
    _ ← add_connection p;
    resolver ← gets t_resolver;
    proxy ← gets t_dns_proxy;
    dns ← gets t_dns;
    if bool_decide (resolver = Some l) then tun_complete_connect_request id None
    else if bool_decide (proxy = Some l) then tun_complete_connect_request id (Some VPN_CA_FORCE_REDIRECT)
    else if bool_decide (dns = Some l) then
      tun_complete_connect_request id
        (Some (if dns_bypass then VPN_CA_FORCE_BYPASS else VPN_CA_FORCE_REDIRECT))
    else if negb (test CONNF_PLAIN_DNS_CONNECTION conn)
            && match dst with ToAddress a => is_loopback a | ToName _ _ => false end
    then tun_complete_connect_request id (Some VPN_CA_FORCE_BYPASS)
    else emit (VConnectRequest id proto src dst' app).

Definition on_client_accepted (l id : Z) : M unit :=
  p ← by_client_id id;
  match p with
  | None => tun_assert false
  | Some p =>
      c ← conn_at p;
      if negb (bool_decide (c_state c = CONNS_WAITING_ACCEPT)) then close_client_side_connection p (-1) true
      else
        _ ← upd p (set_c_state CONNS_CONNECTED);
        _ ← emit (LTurnRead l id true);
        u ← lock (c_upstream c);
        match u with
        | None => skip
        | Some u =>
            info ← ask (LFlowInfo l (c_client_id c)) answer_flow;
            _ ← emit (UFlow u (c_server_id c) info);
            cl ← gets t_client_listener;
            endpoint ← gets t_endpoint;
            when (bool_decide (cl = Some l) && bool_decide (endpoint = Some u))
              (_ ← upd p (set_flag CONNF_MONITOR_STATS true);
               with_stats (λ now m, ([], register_conn now id m)))
        end
  end.

Definition on_client_closed (id : Z) : M unit :=
  p ← by_client_id id;
  match p with
  | None => skip
  | Some p =>
      c ← conn_at p;
      server ← by_server_id (c_server_id c);
      u ← lock (c_upstream c);
      if test CONNF_SESSION_CLOSED c || bool_decide (server = None)
      then tun_destroy_connection id (c_server_id c)
      else match u with
      | None => tun_destroy_connection id (c_server_id c)
      | Some u =>
          _ ← when (bool_decide (c_state c = CONNS_CONNECTED)) (emit (UFlow u (c_server_id c) (0, 0)));
          _ ← remove_by_client id;
          call (UClose u (c_server_id c) true true)
      end
  end.

(** The end of [CLIENT_EVENT_READ]: the data goes to the upstream. *)
Definition send_to_server (p u l : Z) (data : list Z) : M Z :=
  c ← conn_at p;
  match c_state c with
  | CONNS_CONNECTED =>
      buffered ← (if bool_decide (c_buffered c = []) then mret (Some false)
                  else ok ← send_buffered_data (c_client_id c);
                       if (ok : bool) then c ← conn_at p; mret (Some (negb (bool_decide (c_buffered c = []))))
                       else mret None);
      match buffered with
      | None => mret (-1)
      | Some true => mret 0
      | Some false =>
          r ← upstream_send u p data;
          c ← conn_at p;
          if (0 <? r) || (r =? Z.of_nat (length data)) then
            _ ← upd p (λ c, set_c_outgoing (u64 (c_outgoing c + r)) c);
            _ ← when (test CONNF_MONITOR_STATS c) (with_stats (λ now, update_upload now (c_client_id c) r));
            n ← ask (UAvailable u (c_server_id c)) answer;
            _ ← emit (LTurnRead l (c_client_id c) (0 <? n));
            mret r
          else
            _ ← when (r =? 0) (emit (LTurnRead l (c_client_id c) false));
            mret r
      end
  | CONNS_CONNECTED_MIGRATING =>
      if c_proto c =? IPPROTO_UDP then
        _ ← upd p (λ c, set_c_buffered (c_buffered c ++ [data]) c); mret 0
      else _ ← tun_assert false; mret (-1)
  | _ => _ ← tun_assert false; mret (-1)
  end.

(** Migrating on behalf of a read: an error closes the client side. *)
Definition migrate_for_read (p l : Z) (upstream : option Z) (data : list Z) : M Z :=
  r ← initiate_connection_migration p upstream data;
  if r <? 0 then
    c ← conn_at p;
    _ ← emit (LTurnRead l (c_client_id c) false);
    _ ← close_client_side_connection p AG_ECONNRESET true;
    mret r
  else mret r.

(** [CLIENT_EVENT_READ] after the lookup. *)
Definition route_read (p u l : Z) (data : list Z) : M Z :=
  c ← conn_at p;
  if test CONNF_FAKE_CONNECTION c then
    _ ← upd p (λ c, set_flag CONNF_SUSPECT_EXCLUSION false (set_flag CONNF_FAKE_CONNECTION false c));
    up ← select_upstream VPN_CA_DEFAULT p;
    migrate_for_read p l up data
  else
    _ ← upd p (λ c, set_flag CONNF_FAKE_CONNECTION false (set_flag CONNF_FIRST_PACKET false c));
    send_to_server p u l data.

(** The branch [migrate_to_another_upstream]. *)
Definition reroute_read (p u l : Z) (data : list Z) : M Z :=
  c ← conn_at p;
  if negb (test CONNF_FIRST_PACKET c) then
    _ ← emit (LTurnRead l (c_client_id c) false);
    _ ← emit (UFlow u (c_server_id c) (0, 0));
    _ ← call (UClose u (c_server_id c) false true);
    mret 0
  else match c_action c with
  | None => fault
  | Some action =>
      up ← select_upstream action p;
      r ← migrate_for_read p l up data;
      if r <? 0 then mret r
      else _ ← upd p (set_flag CONNF_FAKE_CONNECTION false); mret r
  end.

Definition MAX_LOOKUP_ATTEMPTS : Z := 3.

Definition on_client_read (l id : Z) (data : list Z) : M Z :=
  sending id $
  p ← by_client_id id;
  match p with
  | None => _ ← tun_assert false; mret (-1)
  | Some p =>
      c ← conn_at p;
      u ← lock (c_upstream c);
      match u with
      | None => _ ← tun_assert false; mret (-1)
      | Some u =>
          _ ← tun_do_health_check (Some u) false;
          if negb (test CONNF_LOOKINGUP_DOMAIN c) then route_read p u l data
          else
            action ← pass_through_domain_lookup p DEPD_OUTGOING data;
            let report : M unit :=
              c ← conn_at p; report_connection_info p (Some (de_domain (c_extracted c))) in
            match action with
            | TDLA_DONE =>
                _ ← upd p (set_flag CONNF_LOOKINGUP_DOMAIN false); _ ← report; route_read p u l data
            | TDLA_PASS => _ ← report; route_read p u l data
            | TDLA_DROP => mret (Z.of_nat (length data))
            | TDLA_WANT_MORE =>
                c ← conn_at p;
                _ ← upd p (λ c, set_c_lookup_attempts (c_lookup_attempts c + 1) c);
                if c_lookup_attempts c <? MAX_LOOKUP_ATTEMPTS then
                  _ ← upd p (λ c, set_c_buffered (c_buffered c ++ [data]) c);
                  mret (Z.of_nat (length data))
                else _ ← report; route_read p u l data
            | TDLA_SHUTDOWN =>
                _ ← upd p (set_flag CONNF_LOOKINGUP_DOMAIN false); _ ← report; reroute_read p u l data
            | TDLA_BLOCK =>
                c ← conn_at p;
                _ ← emit (LTurnRead l (c_client_id c) false);
                _ ← close_client_side_connection p (-1) true;
                mret (-1)
            end
      end
  end.

Definition on_client_data_sent (l id length : Z) : M unit :=
  p ← by_client_id id;
  match p with
  | None => tun_assert false
  | Some p =>
      c ← conn_at p;
      u ← lock (c_upstream c);
      match u with
      | None => skip
      | Some u =>
          if c_server_id c =? NON_ID then skip
          else
            _ ← emit (UConsume u (c_server_id c) length);
            info ← ask (LFlowInfo l (c_client_id c)) answer_flow;
            _ ← emit (UFlow u (c_server_id c) info);
            tun_do_health_check (Some u) false
      end
  end.

Definition on_client_icmp_request (request : IcmpEchoRequest A) : M Z :=
  may ← gets (λ s, may_send_icmp (t_out s));
  if negb (may : bool) then mret (-1)
  else
    m ← gets t_icmp;
    now ← gets (λ s, clock (t_out s));
    '(st, m) ← of_res (register_request now request m);
    _ ← modify (set_t_icmp m);
    match st with
    | IM_MSGS_PASS =>
        action ← action_for (mkTag (rq_peer request) []);
        u ← select_upstream_plain action;
        match u with
        | None => mret 0
        | Some u =>
            _ ← emit (UIcmp u request);
            _ ← tun_do_health_check (Some u) false;
            mret 0
        end
    | IM_MSGS_DROP => mret (-1)
    end.

(** [listener_handler], [upstream_handler] and the handler of the resolver: the
    value is the result the event has for its sender, where it has one. *)
Definition handle (tunnel_id : Z) (e : TunEvent A) : M Z :=
  let done (m : M unit) : M Z := _ ← m; mret 0 in
  match e with
  | ClientConnectRequest l id proto src dst app dns_bypass =>
      done (on_connect_request l id proto src dst app dns_bypass)
  | ClientAccepted l id => done (on_client_accepted l id)
  | ClientClosed _ id => done (on_client_closed id)
  | ClientRead l id data => on_client_read l id data
  | ClientDataSent l id length => done (on_client_data_sent l id length)
  | ClientOutput _ => done (emit VOutput)
  | ClientIcmpRequest _ request => on_client_icmp_request request
  | ServerSessionOpened u => done (on_session_opened u)
  | ServerSessionClosed u => done (close_client_side u)
  | ServerHealthCheckError _ => mret 0
  | ServerConnectionOpened u id => done (on_server_opened u id)
  | ServerConnectionClosed _ id => done (on_server_closed id)
  | ServerRead u id data => on_server_read u id data
  | ServerDataSent u id length => done (on_server_data_sent tunnel_id u id length)
  | ServerGetAvailable _ id => on_server_get_available id
  | ServerFailed u id code => done (on_server_error u id code)
  | ServerEchoReply _ reply => done (on_server_echo_reply reply)
  | ResolveResult rid result => done (on_destination_resolve_result rid result)
  end.

(** ** Calls of the client *)

Definition reset_connections_uid (uid : Z) : M unit :=
  ids ← select_ids (λ c s,
    ((uid =? -1) || (c_uid c =? uid))
    && negb (bool_decide (locked (c_listener c) s = t_resolver s))
    && (negb (bool_decide (locked (c_listener c) s = t_dns s))
        || negb (is_resolver_connection (t_out s) (c_client_id c))));
  close_ids (λ _, skip) ids.

Definition reset_connections_listener (l : option Z) : M unit :=
  ids ← select_ids (λ c s, bool_decide (locked (c_listener c) s = l));
  close_ids (λ _, skip) ids.

Definition reset_connection (id : Z) : M unit :=
  p ← by_client_id id;
  match p with Some p => close_client_side_connection p (-1) false | None => skip end.

Definition on_before_endpoint_disconnect (u : option Z) : M unit :=
  endpoint ← gets t_endpoint;
  if negb (bool_decide (endpoint = u)) then skip
  else
    r ← gets t_resolver;
    _ ← match r with Some _ => call RStop | None => fault end;
    task ← gets t_repeat_task;
    _ ← cancel_task task;
    _ ← modify (set_t_repeat_task None);
    ids ← select_ids (λ _ _, true);
    _ ← close_ids (λ _, skip) ids;
    modify (set_t_connected false).

(** The loop of [on_after_endpoint_disconnect]. *)
Fixpoint mark_session_closed (u : option Z) (keys : list Z) : M unit :=
  match keys with
  | [] => skip
  | k :: keys =>
      p ← by_client_id k;
      _ ← match p with
          | None => skip
          | Some p =>
              c ← conn_at p;
              cu ← lock (c_upstream c);
              if bool_decide (cu = u) then
                _ ← upd p (set_flag CONNF_SESSION_CLOSED true);
                l ← lock (c_listener c);
                match l with Some l => emit (LTurnRead l (c_client_id c) false) | None => skip end
              else skip
          end;
      mark_session_closed u keys
  end.

Definition on_after_endpoint_disconnect (u : option Z) : M unit :=
  t ← gets t_by_client;
  _ ← mark_session_closed u (table_order t);
  endpoint ← gets t_endpoint;
  when (bool_decide (u = endpoint))
    (r ← gets t_resolver;
     _ ← match r with Some _ => emit RDeinit | None => skip end;
     fake ← gets t_fake;
     match fake with
     | Some fake => _ ← call (FakeSession fake false); emit (FakeSession fake true)
     | None => skip
     end).

Fixpoint resolve_names (names : list str) : M unit :=
  match names with [] => skip | name :: names => _ ← on_resolver (RResolve name false); resolve_names names end.

Definition on_exclusions_updated : M unit :=
  _ ← on_resolver RStopBackground;
  endpoint ← gets t_endpoint;
  names ← gets (λ s, tf_resolvable (t_filter s));
  _ ← match endpoint, preresolve with
      | Some _, Some max => resolve_names (take (Z.to_nat max) names)
      | _, _ => skip
      end;
  id ← submit TaskRepeatExclusions;
  task ← gets t_repeat_task;
  _ ← cancel_task task;
  modify (set_t_repeat_task (Some id)).

Definition should_complete_immediately (id : Z) : M bool :=
  p ← by_client_id id;
  match p with
  | None => mret false
  | Some p =>
      c ← conn_at p;
      mode ← gets t_exclusions_mode;
      mret (bool_decide (test CONNF_SUSPECT_EXCLUSION c
                         = match mode with VPN_MODE_GENERAL => true | VPN_MODE_SELECTIVE => false end)
            || (dstport c =? PLAIN_DNS_PORT_NUMBER))
  end.

Definition update_dns_handler_parameters : M bool :=
  _ ← on_dns_handler DnsUpdate; gets (λ s, answer_ok (t_out s)).

Definition tun_on_network_change : M unit :=
  d ← gets t_dns; match d with Some _ => emit DnsNetworkChange | None => skip end.

Definition tun_handle_sleep : M unit :=
  _ ← modify (set_t_sleeping true);
  e ← gets t_endpoint;
  match e with Some u => emit (UCancelHealthCheck u) | None => fault end.

Definition tun_handle_wake : M unit :=
  _ ← modify (set_t_sleeping false);
  e ← gets t_endpoint;
  tun_do_health_check e true.

(** [on_icmp_reply_ready]. *)
Definition on_icmp_reply_ready (reply : IcmpEchoReply A) : M unit :=
  cl ← gets t_client_listener;
  match cl with Some l => emit (LIcmpReply l reply) | None => fault end.

(** A task of the loop; it is no longer there when it runs. *)
Definition run_tun_task (t : TunTask) : M unit :=
  match t with
  | TaskCompleteConnect id err => complete_connect_request_task id err
  | TaskSendBuffered id => _ ← sending id (send_buffered_data id); skip
  | TaskRepeatExclusions => _ ← modify (set_t_repeat_task None); on_exclusions_updated
  end.

(** ** Start and end *)

(** The table is walked while connections are removed from it. *)
Fixpoint destroy_keys (table : Tunnel → gmap Z Z) (keys : list Z) : M unit :=
  match keys with
  | [] => skip
  | k :: keys =>
      p ← gets (λ s, table s !! k);
      _ ← match p with
          | Some p => c ← conn_at p; tun_destroy_connection (c_client_id c) (c_server_id c)
          | None => skip
          end;
      destroy_keys table keys
  end.
Definition clean_connection_table (table : Tunnel → gmap Z Z) : M unit :=
  t ← gets table; destroy_keys table (table_order t).

Definition tun_deinit : M unit :=
  _ ← modify (set_t_connected false);
  _ ← clean_connection_table t_by_client;
  _ ← clean_connection_table t_by_server;
  r ← gets t_resolver;
  _ ← match r with Some _ => _ ← emit RDeinit; modify (set_t_resolver None) | None => skip end;
  task ← gets t_repeat_task;
  _ ← cancel_task task;
  _ ← modify (set_t_repeat_task None);
  fake ← gets t_fake;
  _ ← match fake with Some _ => _ ← emit FakeDeinit; modify (set_t_fake None) | None => skip end;
  _ ← modify (λ s, set_t_icmp (manager_deinit (t_icmp s)) s);
  _ ← modify (set_t_dns None);
  modify (set_t_stats None).

(** [init]: the new objects get the identifiers given; creating the parameters
    of the DNS handler cannot fail. *)
Definition tun_init (resolver fake dns : Z) : M bool :=
  _ ← modify (λ s, set_t_icmp (manager_init None (t_icmp s)) s);
  _ ← modify (set_t_resolver (Some resolver));
  _ ← modify (λ s, set_t_alive (resolver :: t_alive s) s);
  ok ← ask RInit answer_ok;
  if negb (ok : bool) then _ ← tun_deinit; _ ← tun_assert false; mret false
  else
    _ ← modify (set_t_fake (Some fake));
    _ ← modify (λ s, set_t_alive (fake :: t_alive s) s);
    ok ← ask FakeInit answer_ok;
    if negb (ok : bool) then _ ← tun_deinit; _ ← tun_assert false; mret false
    else
      _ ← modify (set_t_dns (Some dns));
      _ ← modify (λ s, set_t_alive (dns :: t_alive s) s);
      ok ← ask DnsInit answer_ok;
      if negb (ok : bool) then _ ← tun_deinit; _ ← tun_assert false; mret false
      else _ ← modify (set_t_stats (Some monitor_new)); mret true.

End Handlers.

(** ** Runs *)

Definition ready s : bool :=
  bool_decide (is_Some (t_resolver s)) && bool_decide (is_Some (t_fake s))
  && bool_decide (is_Some (t_dns s)) && bool_decide (is_Some (t_stats s)).

(** The connection of a client, or of an upstream. *)
Definition client_conn (id : Z) s : option (Z * VpnConnection) :=
  p ← t_by_client s !! id; c ← t_heap s !! p; Some (p, c).
Definition server_conn (id : Z) s : option (Z * VpnConnection) :=
  p ← t_by_server s !! id; c ← t_heap s !! p; Some (p, c).

Definition if_conn (x : option (Z * VpnConnection)) (f : Z → VpnConnection → bool) : bool :=
  match x with Some (p, c) => f p c | None => true end.

Definition is_request_of (id : Z) (o : TunOut A) : bool :=
  match o with Got (ClientConnectRequest _ i _ _ _ _ _) => i =? id | _ => false end.

(** What an object may raise: a listener that is alive, on its own connections.
    Requests have new identifiers.  A connection that a handler is about to use is
    not destroyed: its upstream does not report it closed, and when its listener
    does, the upstream still has it.  While the data of a client is being sent,
    the client does not have more read and is not migrated.  Sessions end outside
    of such calls, and names are resolved to IP addresses. *)
Definition allowed s (e : TunEvent A) : bool :=
  let unpinned p (_ : VpnConnection) := negb (bool_decide (p ∈ t_pins s)) in
  let busy id := bool_decide (id ∈ (t_busy s).*1) in
  let own l id := bool_decide (l ∈ t_alive s)
                  && if_conn (client_conn id s) (λ _ c, bool_decide (c_listener c = Some l)) in
  ready s &&
  match e with
  | ClientConnectRequest l id proto _ _ _ _ =>
      bool_decide (l ∈ t_alive s) && negb (id =? NON_ID) && is_transport proto
      && bool_decide (map_Forall (λ _ c, c_client_id c ≠ id) (t_heap s))
      && negb (existsb (is_request_of id) (t_out s))
  | ClientAccepted l id | ClientDataSent l id _ => own l id
  | ClientClosed l id =>
      own l id
      && if_conn (client_conn id s) (λ p c,
           unpinned p c
           || negb (test CONNF_SESSION_CLOSED c) && bool_decide (is_Some (t_by_server s !! c_server_id c))
              && bool_decide (is_Some (locked (c_upstream c) s)))
  | ClientRead l id _ => own l id && negb (busy id)
  | ServerSessionClosed _ => bool_decide (t_pins s = [])
  | ServerConnectionOpened _ id =>
      if_conn (server_conn id s) (λ _ c,
        negb (bool_decide (c_state c = CONNS_WAITING_RESPONSE_MIGRATING) && busy (c_migrating_client_id c)))
  | ServerConnectionClosed _ id => if_conn (server_conn id s) unpinned
  | ServerFailed _ id _ =>
      if id =? NON_ID then bool_decide (t_pins s = []) else if_conn (server_conn id s) unpinned
  | ServerEchoReply _ _ => bool_decide (is_Some (t_client_listener s))
  | ResolveResult rid addresses =>
      match t_waiters s !! rid with
      | None => true
      | Some id => if_conn (client_conn id s) (λ p c,
          unpinned p c
          && forallb (λ a, bool_decide (is_Some (ip_version (set_port (dstport c) a)))) (default [] addresses))
      end
  | _ => true
  end.

Section Knot.
Variable tunnel_id : Z.

(** Events, with the ones raised inside them to a depth of [fuel]: a deeper one is
    left to the environment not to raise. *)
Fixpoint tun_event (fuel : nat) (e : TunEvent A) : M Z :=
  match fuel with
  | O => env_fault
  | S fuel =>
      ok ← gets (λ s, allowed s e);
      if (ok : bool) then
        _ ← emit (Got e);
        r ← handle (tun_event fuel) tunnel_id e;
        _ ← emit (Returned e r);
        mret r
      else env_fault
  end.

(** What the client and the event loop do with the tunnel, and changes of what
    the tunnel reads of the client. *)
Inductive TunOp :=
| OpEvent (e : TunEvent A)
| OpComplete (id : Z) (action : option VpnConnectAction)
| OpFinalize (request : ConnectRequestResult)
| OpResetUid (uid : Z)
| OpResetListener (l : option Z)
| OpResetConnection (id : Z)
| OpBeforeDisconnect (u : option Z)
| OpAfterDisconnect (u : option Z)
| OpExclusionsUpdated
| OpTask (id : Z)
| OpSleep
| OpWake
| OpNetworkChange
| OpUpdateDns
| OpIcmpReplyReady (reply : IcmpEchoReply A)
| OpInit (resolver fake dns : Z)
| OpDeinit
| OpClient (endpoint bypass listener proxy : option Z)
| OpDrop (x : Z)
| OpFilter (f : F) (mode : VpnMode).

Definition class_is (k : UpstreamClass) (u : option Z) : bool :=
  match u with Some u => bool_decide (class_of u = k) | None => true end.

Definition op_allowed s (op : TunOp) : bool :=
  match op with
  | OpEvent _ | OpFilter _ _ => true
  | OpComplete id _ =>
      ready s && if_conn (client_conn id s) (λ _ c, bool_decide (c_state c = CONNS_WAITING_ACTION))
  | OpSleep | OpWake => ready s && bool_decide (is_Some (t_endpoint s))
  | OpIcmpReplyReady _ => bool_decide (is_Some (t_client_listener s))
  | OpInit _ fake dns =>
      negb (ready s) && class_is FakeUpstream (Some fake) && class_is DnsUpstream (Some dns)
      && bool_decide (t_by_client s = ∅) && bool_decide (t_by_server s = ∅)
  | OpClient endpoint bypass _ _ => class_is EndpointUpstream endpoint && class_is DirectUpstream bypass
  | OpDrop x =>
      bool_decide (Some x ∉ [t_endpoint s; t_bypass s; t_client_listener s; t_dns_proxy s;
                             t_resolver s; t_fake s; t_dns s])
  | OpTask id => ready s && bool_decide (is_Some (t_tasks s !! id))
  | _ => ready s
  end.

Definition set_client (endpoint bypass listener proxy : option Z) s : Tunnel :=
  set_t_alive (omap id [endpoint; bypass; listener; proxy] ++ t_alive s)
    (set_t_endpoint endpoint (set_t_bypass bypass (set_t_client_listener listener (set_t_dns_proxy proxy s)))).

Definition run_op (fuel : nat) (op : TunOp) : M unit :=
  let rec := tun_event fuel in
  ok ← gets (λ s, op_allowed s op);
  if negb (ok : bool) then env_fault
  else match op with
  | OpEvent e => _ ← rec e; skip
  | OpComplete id action => tun_complete_connect_request rec id action
  | OpFinalize request => _ ← finalize_connect_action request; skip
  | OpResetUid uid => reset_connections_uid rec uid
  | OpResetListener l => reset_connections_listener rec l
  | OpResetConnection id => reset_connection rec id
  | OpBeforeDisconnect u => on_before_endpoint_disconnect rec u
  | OpAfterDisconnect u => on_after_endpoint_disconnect rec u
  | OpExclusionsUpdated => on_exclusions_updated
  | OpTask id =>
      t ← gets (λ s, t_tasks s !! id);
      _ ← modify (λ s, set_t_tasks (delete id (t_tasks s)) s);
      match t with Some t => run_tun_task rec t | None => skip end
  | OpSleep => tun_handle_sleep
  | OpWake => tun_handle_wake
  | OpNetworkChange => tun_on_network_change
  | OpUpdateDns => _ ← update_dns_handler_parameters; skip
  | OpIcmpReplyReady reply => on_icmp_reply_ready reply
  | OpInit resolver fake dns => _ ← tun_init resolver fake dns; skip
  | OpDeinit => tun_deinit
  | OpClient endpoint bypass listener proxy => modify (set_client endpoint bypass listener proxy)
  | OpDrop x => modify (λ s, set_t_alive (filter (λ y, y ≠ x) (t_alive s)) s)
  | OpFilter f mode => modify (λ s, set_t_exclusions_mode mode (set_t_filter f s))
  end.

Fixpoint run_ops (fuel : nat) (ops : list TunOp) : M unit :=
  match ops with [] => skip | op :: ops => _ ← run_op fuel op; run_ops fuel ops end.

End Knot.

(** [Tunnel::Tunnel]. *)
Definition tunnel_new (f : F) (mode : VpnMode) : Tunnel :=
  mkTunnel ∅ 0 ∅ ∅ false false 0 None ∅ None None None None manager_new None None None None f mode [] ∅ 0 [] [] [].

End Tunnel.
