(* ===== verification/TunnelInv.v ===== *)
(** * The tunnel: what it relies on and keeps

    The invariant of the tunnel, and that every handler keeps it whatever the
    collaborators answer and raise inside the calls. *)
From S2P Require Import Prelude VpnTypes WireUtils IcmpMux IcmpManager DomainFilter ConnStats Tunnel.

Section Facts.
Context {A F : Type} `{!SocketAddressOps A, !TunnelFilter A F, !TunnelEnv A}.

Notation tunnel := (@Tunnel A F).
Notation conn := (@VpnConnection A).
Notation trace := (list (TunOut A)).
Implicit Types (s : tunnel) (c : conn) (tr : trace) (p q id : Z).

(** ** Weakest preconditions: no fault of the tunnel *)

Definition wp {X} (m : M X) (Q : X → tunnel → Prop) s : Prop :=
  match m s with Done (x, s) => Q x s | Fault => False | EnvFault => True end.

Lemma wp_ret {X} (x : X) Q s : Q x s → wp (mret x) Q s.
Proof. done. Qed.

Lemma wp_bind {X Y} (m : M X) (f : X → M Y) Q s :
  wp m (λ x s, wp (f x) Q s) s → wp (m ≫= f) Q s.
Proof. unfold wp, mbind, M_bind. by destruct (m s) as [[x s']| |]. Qed.

Lemma wp_mono {X} (m : M X) (P Q : X → tunnel → Prop) s :
  wp m P s → (∀ x s', P x s' → Q x s') → wp m Q s.
Proof. unfold wp. destruct (m s) as [[x s']| |]; auto. Qed.

Lemma wp_gets {X} (f : tunnel → X) Q s : Q (f s) s → wp (gets f) Q s.
Proof. done. Qed.

Lemma wp_modify f Q s : Q tt (f s) → wp (modify f) Q s.
Proof. done. Qed.

Lemma wp_env_fault {X} (Q : X → tunnel → Prop) s : wp env_fault Q s.
Proof. done. Qed.

Lemma wp_conn_at p c Q s : t_heap s !! p = Some c → Q c s → wp (conn_at p) Q s.
Proof. unfold wp, conn_at. by intros ->. Qed.

#[local] Opaque wp.

(** ** What the trace says *)

(** The bytes of a client that the upstreams have accepted, and those the tunnel
    has accepted from its listener. *)
Definition sent_by id tr : list Z :=
  concat (omap (λ o, match o with USent i d => if i =? id then Some d else None | _ => None end) tr).
Definition taken_from id tr : list Z :=
  concat (omap (λ o, match o with
    | Returned (ClientRead _ i d) r => if i =? id then Some (take (Z.to_nat r) d) else None
    | _ => None end) tr).

Definition is_migrating id (o : TunOut A) : bool := match o with Migrating i => i =? id | _ => false end.
Definition migrated id tr : bool := existsb (is_migrating id) tr.
Definition requested id tr : bool := existsb (is_request_of id) tr.

(** Why a connection may be opened on the direct upstream. *)
Definition bypass_justified tr id (dst : TunnelAddress A) : Prop :=
  Asked id (Some VPN_CA_FORCE_BYPASS) ∈ tr
  ∨ (∃ a app, dst = ToAddress a ∧ FMatchTag (mkTag a app) DFMS_EXCLUSION ∈ tr)
  ∨ FMode VPN_MODE_SELECTIVE ∈ tr.

Definition opens_justified tr : Prop :=
  ∀ pre post u id src dst proto app, tr = pre ++ UOpen u id src dst proto app :: post →
    class_of u = DirectUpstream → bypass_justified pre id dst.

(** Entries that none of the above is about. *)
Definition neutral (o : TunOut A) : bool :=
  match o with
  | USent _ _ | UOpen _ _ _ _ _ _ | Returned (ClientRead _ _ _) _ => false
  | _ => true
  end.

Lemma sent_by_app id tr tr' : sent_by id (tr ++ tr') = sent_by id tr ++ sent_by id tr'.
Proof. unfold sent_by. by rewrite omap_app, concat_app. Qed.
Lemma taken_from_app id tr tr' : taken_from id (tr ++ tr') = taken_from id tr ++ taken_from id tr'.
Proof. unfold taken_from. by rewrite omap_app, concat_app. Qed.
Lemma migrated_app id tr tr' : migrated id (tr ++ tr') = migrated id tr || migrated id tr'.
Proof. apply existsb_app. Qed.
Lemma requested_app id tr tr' : requested id (tr ++ tr') = requested id tr || requested id tr'.
Proof. apply existsb_app. Qed.

Lemma neutral_streams id tr : Forall (λ o, neutral o = true) tr → sent_by id tr = [] ∧ taken_from id tr = [].
Proof.
  induction 1 as [|o tr Ho _ [IH1 IH2]]; [done|]. unfold sent_by, taken_from in *. simpl.
  destruct o; simpl; try done. by destruct e.
Qed.

Lemma bypass_justified_app tr tr' id dst : bypass_justified tr id dst → bypass_justified (tr ++ tr') id dst.
Proof.
  intros [H|[(a & app & -> & H)|H]]; [left|right; left; exists a, app; split; [done|]|right; right];
    apply elem_of_app; by left.
Qed.

Lemma opens_justified_snoc tr o :
  opens_justified tr →
  (∀ u id src dst proto app, o = UOpen u id src dst proto app → class_of u = DirectUpstream →
     bypass_justified tr id dst) →
  opens_justified (tr ++ [o]).
Proof.
  intros Htr Ho pre post u id src dst proto app Heq Hu.
  destruct post as [|y post _] using rev_ind.
  - apply app_inj_tail in Heq as [-> ->]. by eapply Ho.
  - rewrite app_comm_cons, app_assoc in Heq. apply app_inj_tail in Heq as [-> _]. by eapply Htr.
Qed.

Lemma opens_justified_neutral tr tr' :
  opens_justified tr → Forall (λ o, neutral o = true) tr' → opens_justified (tr ++ tr').
Proof.
  intros Htr Hn. revert tr Htr. induction Hn as [|o tr' Ho _ IH]; intros tr Htr; [by rewrite app_nil_r|].
  replace (tr ++ o :: tr') with ((tr ++ [o]) ++ tr') by (by rewrite <- app_assoc). apply IH, opens_justified_snoc; [done|]. by intros ?????? ->.
Qed.

(** ** The invariant *)

Definition waiting_open (st : VpnConnectionState) : bool :=
  bool_decide (st = CONNS_WAITING_ACTION) || bool_decide (st = CONNS_WAITING_RESOLVE).

(** A connection on its own. *)
Record conn_ok tr c : Prop := {
  ck_server : waiting_open (c_state c) = true → c_server_id c = NON_ID;
  ck_migrating : c_state c = CONNS_WAITING_RESPONSE_MIGRATING →
    c_client_id c = NON_ID ∧ migrated (c_migrating_client_id c) tr = true
    ∧ test CONNF_FORCIBLY_BYPASSED c = false;
  ck_lookup : test CONNF_LOOKINGUP_DOMAIN c = true → ∃ a, c_dst c = ToAddress a;
  ck_forced : test CONNF_FORCIBLY_BYPASSED c = true → c_client_id c ≠ NON_ID →
    Asked (c_client_id c) (Some VPN_CA_FORCE_BYPASS) ∈ tr;
  ck_proto : is_transport (c_proto c) = true;
  ck_requested : c_client_id c ≠ NON_ID → requested (c_client_id c) tr = true;
}.

(** A connection whose name is being resolved. *)
Definition wait_ok c : Prop :=
  c_state c ≠ CONNS_WAITING_ACTION
  ∧ (c_state c = CONNS_WAITING_RESOLVE → ∃ name port, c_dst c = ToName name port).

(** The stream of a client of TCP: what was taken, with [extra] on the way, is what
    was sent and what is kept. *)
Definition stream_ok id c tr (extra : list Z) : Prop :=
  c_proto c = IPPROTO_TCP → migrated id tr = false →
  taken_from id tr ++ extra = sent_by id tr ++ concat (c_buffered c).

(** [X]: clients whose stream is in between. *)
Record inv (X : list Z) s : Prop := {
  i_client id p : t_by_client s !! id = Some p →
    id ≠ NON_ID ∧ ∃ c, t_heap s !! p = Some c ∧ c_client_id c = id;
  i_server id p : t_by_server s !! id = Some p →
    id ≠ NON_ID ∧ ∃ c, t_heap s !! p = Some c ∧ c_server_id c = id;
  i_conn p c : t_heap s !! p = Some c → p < t_next_ptr s ∧ conn_ok (t_out s) c;
  i_uniq p q c d : t_heap s !! p = Some c → t_heap s !! q = Some d →
    c_client_id c = c_client_id d → c_client_id c ≠ NON_ID → p = q;
  i_uniq_server p q c d : t_heap s !! p = Some c → t_heap s !! q = Some d →
    c_server_id c = c_server_id d → c_server_id c ≠ NON_ID → p = q;
  i_pins p : p ∈ t_pins s → is_Some (t_heap s !! p);
  i_busy id p : (id, p) ∈ t_busy s → p ∈ t_pins s ∧ ∃ c, t_heap s !! p = Some c ∧ c_client_id c = id
    ∧ id ≠ NON_ID ∧ c_state c ≠ CONNS_WAITING_RESPONSE_MIGRATING;
  i_opens : opens_justified (t_out s);
  i_stream id p c : t_by_client s !! id = Some p → t_heap s !! p = Some c →
    id ∉ (t_busy s).*1 → id ∉ X → stream_ok id c (t_out s) [];
  i_fresh id : requested id (t_out s) = false → taken_from id (t_out s) = [] ∧ sent_by id (t_out s) = [];
  i_wait rid id : t_waiters s !! rid = Some id →
    id ≠ NON_ID ∧ requested id (t_out s) = true ∧ (∀ rid', t_waiters s !! rid' = Some id → rid' = rid)
    ∧ ∀ p c, t_heap s !! p = Some c → c_client_id c = id → wait_ok c;
  i_icmp : ready s = true → is_Some (request_timeout (t_icmp s));
  i_class : class_is EndpointUpstream (t_endpoint s) ∧ class_is DirectUpstream (t_bypass s)
    ∧ class_is FakeUpstream (t_fake s) ∧ class_is DnsUpstream (t_dns s);
}.

(** What a handler leaves as it is; in [s'] it works on the data of the clients [B]. *)
Record frame (B : list (Z * Z)) s s' : Prop := {
  f_pins : t_pins s' = B.*2 ++ t_pins s;
  f_busy : t_busy s' = B ++ t_busy s;
  f_alive : t_alive s' = t_alive s;
  f_fields : (t_resolver s', t_fake s', t_dns s', t_endpoint s', t_bypass s', t_client_listener s', t_dns_proxy s')
    = (t_resolver s, t_fake s, t_dns s, t_endpoint s, t_bypass s, t_client_listener s, t_dns_proxy s);
  f_ready : ready s' = ready s;
  f_trace : ∃ tr, t_out s' = t_out s ++ tr;
  f_next : t_next_ptr s ≤ t_next_ptr s';
  f_busy_conn id p c : (id, p) ∈ t_busy s → t_heap s !! p = Some c →
    ∃ c', t_heap s' !! p = Some c' ∧ c_buffered c' = c_buffered c ∧ c_proto c' = c_proto c
    ∧ taken_from id (t_out s') = taken_from id (t_out s) ∧ sent_by id (t_out s') = sent_by id (t_out s);
}.

(** Steps that change no connection and make only neutral entries. *)
Record quiet s s' : Prop := {
  q_heap : t_heap s' = t_heap s;
  q_next : t_next_ptr s' = t_next_ptr s;
  q_client : t_by_client s' = t_by_client s;
  q_server : t_by_server s' = t_by_server s;
  q_pins : t_pins s' = t_pins s;
  q_busy : t_busy s' = t_busy s;
  q_alive : t_alive s' = t_alive s;
  q_waiters : t_waiters s' ⊆ t_waiters s;
  q_fields : (t_resolver s', t_fake s', t_dns s', t_endpoint s', t_bypass s', t_client_listener s', t_dns_proxy s')
    = (t_resolver s, t_fake s, t_dns s, t_endpoint s, t_bypass s, t_client_listener s, t_dns_proxy s);
  q_ready : ready s' = ready s;
  q_icmp : is_Some (request_timeout (t_icmp s)) → is_Some (request_timeout (t_icmp s'));
  q_trace : ∃ tr, t_out s' = t_out s ++ tr ∧ Forall (λ o, neutral o = true) tr;
}.

#[global] Instance quiet_refl : Reflexive quiet.
Proof. intros s. split; try done. exists []. by rewrite app_nil_r. Qed.

#[global] Instance quiet_trans : Transitive quiet.
Proof.
  intros s1 s2 s3 [] []. split; try congruence; [by etrans|tauto|].
  destruct q_trace0 as (tr & E & ?), q_trace1 as (tr' & -> & ?).
  exists (tr ++ tr'). rewrite E, app_assoc. split; [done|]. by apply Forall_app.
Qed.

Lemma frame_refl s : frame [] s s.
Proof. split; try done. - exists []. by rewrite app_nil_r. - intros id p c _ Hc. by exists c. Qed.

Lemma frame_trans B s1 s2 s3 : frame B s1 s2 → frame [] s2 s3 → frame B s1 s3.
Proof.
  intros [P1 B1 A1 F1 R1 T1 N1 C1] [P2 B2 A2 F2 R2 T2 N2 C2]. simpl in *. split; try congruence; [|lia|].
  - destruct T1 as [tr E], T2 as [tr' ->]. exists (tr ++ tr'). by rewrite E, app_assoc.
  - intros id p c Hb Hc. destruct (C1 id p c Hb Hc) as (c' & Hc' & E1 & E2 & E3 & E4).
    assert ((id, p) ∈ t_busy s2) as Hb' by (rewrite B1; set_solver).
    destruct (C2 id p c' Hb' Hc') as (c'' & ? & ? & ? & ? & ?). exists c''. split_and!; congruence.
Qed.

Lemma quiet_frame s s' : quiet s s' → frame [] s s'.
Proof.
  intros []. destruct q_trace0 as (tr & Htr & Hn). split; try done; [by exists tr|lia|].
  intros id p c _ Hc. exists c. rewrite q_heap0, Htr, taken_from_app, sent_by_app.
  destruct (neutral_streams id tr Hn) as [-> ->]. by rewrite !app_nil_r.
Qed.

Lemma conn_ok_app tr tr' c : conn_ok tr c → conn_ok (tr ++ tr') c.
Proof.
  intros []. split; try done.
  - intros H. destruct (ck_migrating0 H) as (? & Hm & ?). by rewrite migrated_app, Hm.
  - intros. apply elem_of_app. left. auto.
  - intros. by rewrite requested_app, ck_requested0.
Qed.

Lemma stream_ok_neutral id c tr tr' x :
  Forall (λ o, neutral o = true) tr' → stream_ok id c tr x → stream_ok id c (tr ++ tr') x.
Proof.
  intros Hn H Ht Hm. rewrite migrated_app, orb_false_iff in Hm. destruct Hm. rewrite taken_from_app, sent_by_app.
  destruct (neutral_streams id tr' Hn) as [-> ->]. rewrite !app_nil_r. by apply H.
Qed.

Lemma quiet_inv X s s' : quiet s s' → inv X s → inv X s'.
Proof.
  intros [] []. destruct q_trace0 as (tr & Htr & Hn).
  assert (∀ id, sent_by id (t_out s') = sent_by id (t_out s) ∧ taken_from id (t_out s') = taken_from id (t_out s)) as Hst.
  { intros id. rewrite Htr, taken_from_app, sent_by_app. destruct (neutral_streams id tr Hn) as [-> ->].
    by rewrite !app_nil_r. }
  injection q_fields0 as E1 E2 E3 E4 E5 E6 E7.
  split; rewrite ?q_heap0, ?q_next0, ?q_client0, ?q_server0, ?q_pins0, ?q_busy0, ?q_ready0; try done.
  - intros p c Hc. destruct (i_conn0 p c Hc). split; [done|]. rewrite Htr. by apply conn_ok_app.
  - rewrite Htr. by apply opens_justified_neutral.
  - intros. rewrite Htr. eapply stream_ok_neutral; eauto.
  - intros id. rewrite (proj1 (Hst id)), (proj2 (Hst id)), Htr, requested_app, orb_false_iff. intros []. auto.
  - intros rid id Hw. destruct (i_wait0 rid id (lookup_weaken _ _ _ _ Hw q_waiters0)) as (? & Hrq & Hu & Hc).
    split_and!; [done|by rewrite Htr, requested_app, Hrq| |done]. intros rid' Hw'. apply Hu. by eapply lookup_weaken.
  - intros Hr. apply q_icmp0. auto.
  - by rewrite E2, E3, E4, E5.
Qed.

(** ** Quiet steps *)

Ltac quiet_set := split; try done; exists []; by rewrite app_nil_r.

Lemma quiet_emit o s : neutral o = true → quiet s (set_t_out (t_out s ++ [o]) s).
Proof. intros. split; try done. exists [o]. by repeat constructor. Qed.

Lemma wq_emit o s Q : neutral o = true → (∀ s', quiet s s' → o ∈ t_out s' → Q tt s') → wp (emit o) Q s.
Proof.
  intros Ho HQ. apply wp_modify, HQ; [by apply quiet_emit|]. apply elem_of_app. right. by apply list_elem_of_singleton.
Qed.

Lemma wq_ask {X} o (f : trace → X) s Q :
  neutral o = true → (∀ x s', quiet s s' → Q x s') → wp (ask o f) Q s.
Proof. intros Ho HQ. unfold ask. apply wp_bind, wq_emit; [done|]. intros s' Hs _. by apply wp_gets, HQ. Qed.

Lemma wq_submit t s Q : (∀ id s', quiet s s' → Q id s') → wp (submit t) Q s.
Proof.
  intros HQ. unfold submit. apply wp_bind, wp_gets, wp_bind, wp_modify, wp_ret, HQ. quiet_set.
Qed.

Lemma wq_cancel_task t s Q : (∀ s', quiet s s' → Q tt s') → wp (cancel_task t) Q s.
Proof. intros HQ. destruct t; simpl; [apply wp_modify, HQ; quiet_set|]. apply wp_ret, HQ. done. Qed.

Lemma ready_fields s : ready s = true →
  is_Some (t_resolver s) ∧ is_Some (t_fake s) ∧ is_Some (t_dns s) ∧ is_Some (t_stats s).
Proof. unfold ready. rewrite !andb_true_iff, !bool_decide_eq_true. tauto. Qed.

Lemma wq_on_resolver o s Q :
  ready s = true → neutral o = true → (∀ s', quiet s s' → Q tt s') → wp (on_resolver o) Q s.
Proof.
  intros Hr Ho HQ. unfold on_resolver. apply wp_bind, wp_gets.
  destruct (ready_fields s Hr) as ([r ->] & _). apply wq_emit; auto.
Qed.

Lemma wq_on_dns_handler o s Q :
  ready s = true → neutral o = true → (∀ s', quiet s s' → Q tt s') → wp (on_dns_handler o) Q s.
Proof.
  intros Hr Ho HQ. unfold on_dns_handler. apply wp_bind, wp_gets.
  destruct (ready_fields s Hr) as (_ & _ & [d ->] & _). apply wq_emit; auto.
Qed.

Lemma wq_raise_all rs s Q : (∀ s', quiet s s' → Q tt s') → wp (raise_all rs) Q s.
Proof.
  revert s. induction rs as [|r rs IH]; intros s HQ; simpl; [apply wp_ret, HQ; done|].
  apply wp_bind, wq_emit; [done|]. intros s1 H1 _. apply IH. intros s2 H2. apply HQ. by etrans.
Qed.

Lemma wq_with_stats f s Q : ready s = true → (∀ s', quiet s s' → Q tt s') → wp (with_stats f) Q s.
Proof.
  intros Hr HQ. unfold with_stats. apply wp_bind, wp_gets.
  destruct (ready_fields s Hr) as (_ & _ & _ & [m Hm]). rewrite Hm.
  apply wp_bind, wp_gets. destruct (f _ m) as [out m']. apply wp_bind, wp_modify, wq_raise_all.
  intros s' Hs. apply HQ. etrans; [|done]. split; try done; [|exists []; by rewrite app_nil_r].
  unfold ready. simpl. by rewrite Hm.
Qed.

Lemma wq_filter_mode s Q :
  (∀ mode s', quiet s s' → FMode mode ∈ t_out s' → Q mode s') → wp filter_mode Q s.
Proof. intros HQ. unfold filter_mode. apply wp_bind, wp_gets, wp_bind, wq_emit; [done|]. intros. by apply wp_ret, HQ. Qed.

Lemma wq_filter_match_tag tag s Q :
  (∀ r s', quiet s s' → FMatchTag tag (status r) ∈ t_out s' → Q r s') → wp (filter_match_tag tag) Q s.
Proof. intros HQ. unfold filter_match_tag. apply wp_bind, wp_gets, wp_bind, wq_emit; [done|]. intros. by apply wp_ret, HQ. Qed.

Lemma wq_filter_match_domain name s Q :
  (∀ r s', quiet s s' → Q r s') → wp (filter_match_domain name) Q s.
Proof. intros HQ. unfold filter_match_domain. apply wp_bind, wp_gets, wp_bind, wq_emit; [done|]. intros. by apply wp_ret, HQ. Qed.

(** The default action is to bypass in the selective mode only. *)
Lemma wq_default_action s Q :
  (∀ a s', quiet s s' → (a = VPN_CA_FORCE_BYPASS → FMode VPN_MODE_SELECTIVE ∈ t_out s') →
     a = VPN_CA_FORCE_BYPASS ∨ a = VPN_CA_FORCE_REDIRECT → Q a s') →
  wp default_action Q s.
Proof.
  intros HQ. unfold default_action. apply wp_bind, wq_filter_mode. intros mode s' Hq Hm.
  apply wp_ret, HQ; [done|by destruct mode|]. destruct mode; auto.
Qed.

Lemma wq_excluded_action s Q :
  (∀ a s', quiet s s' → a = VPN_CA_FORCE_BYPASS ∨ a = VPN_CA_FORCE_REDIRECT → Q a s') → wp excluded_action Q s.
Proof.
  intros HQ. unfold excluded_action. apply wp_bind, wq_default_action.
  intros act s' Hq _ Ha. apply wp_ret, HQ; [done|]. destruct Ha as [-> | ->]; simpl; auto.
Qed.

Lemma quiet_elem s s' o : quiet s s' → o ∈ t_out s → o ∈ t_out s'.
Proof. intros Hq Ho. destruct (q_trace _ _ Hq) as (tr & -> & _). apply elem_of_app. by left. Qed.

(** An upstream selected for an action is the direct one only for that action, or
    in the selective mode. *)
Definition direct_only tr (a : VpnConnectAction) (u : option Z) : Prop :=
  ∀ x, u = Some x → class_of x = DirectUpstream → a = VPN_CA_FORCE_BYPASS ∨ FMode VPN_MODE_SELECTIVE ∈ tr.

Section Release.
Hypothesis release : t_ndebug = true.

Lemma wq_assert b s (Q : unit → tunnel → Prop) : Q tt s → wp (tun_assert b) Q s.
Proof. intros HQ. unfold tun_assert. by rewrite release, orb_true_r. Qed.

Lemma class_is_elim k k' u x : class_is k u → u = Some x → class_of x = k' → k ≠ k' → False.
Proof. intros H -> Hx Hk. simpl in H. apply bool_decide_unpack in H. congruence. Qed.

Lemma wq_select_plain X a s Q :
  inv X s → (∀ u s', quiet s s' → direct_only (t_out s') a u → Q u s') → wp (select_upstream_plain a) Q s.
Proof.
  intros Hi HQ. unfold select_upstream_plain. apply wp_bind.
  assert (∀ b s', quiet s s' → (b = VPN_CA_FORCE_BYPASS → a = VPN_CA_FORCE_BYPASS ∨ FMode VPN_MODE_SELECTIVE ∈ t_out s') →
    wp match b with
       | VPN_CA_FORCE_BYPASS => gets t_bypass
       | VPN_CA_FORCE_REDIRECT => gets t_endpoint
       | _ => _ ← tun_assert false; mret None
       end Q s') as Hb.
  { intros b s' Hq Hb. destruct (i_class _ _ (quiet_inv X _ _ Hq Hi)) as (HE & HD & _).
    destruct b; [| | |]; [apply wp_bind, wq_assert, wp_ret, HQ; [done|by intros ? [=]]|..].
    - apply wp_gets, HQ; [done|]. intros x Hx Hc. auto.
    - apply wp_gets, HQ; [done|]. intros x Hx Hc. by destruct (class_is_elim _ _ _ x HE Hx Hc).
    - apply wp_bind, wq_assert, wp_ret, HQ; [done|by intros ? [=]]. }
  destruct a; [|apply wp_ret, (Hb VPN_CA_FORCE_BYPASS)|apply wp_ret, (Hb VPN_CA_FORCE_REDIRECT)
               |apply wp_ret, (Hb VPN_CA_REJECT)]; try done; try tauto.
  apply wq_default_action. intros b s' Hq H1 _. apply Hb; auto.
Qed.

Lemma wq_select X a p c s Q :
  inv X s → t_heap s !! p = Some c →
  (∀ u s', quiet s s' → direct_only (t_out s') a u → Q u s') → wp (select_upstream a p) Q s.
Proof.
  intros Hi Hp HQ. destruct (i_class _ _ Hi) as (_ & _ & HF & HD). unfold select_upstream.
  destruct a; try (by apply (wq_select_plain X)).
  apply wp_bind, (wp_conn_at _ c); [done|]. apply wp_bind, wp_gets, wp_bind, wp_gets.
  case_bool_decide.
  { apply (wq_select_plain X); [done|]. intros u s' Hq Hd. apply HQ; [done|]. intros x Hx Hc.
    destruct (Hd x Hx Hc); [done|by right]. }
  destruct (test CONNF_PLAIN_DNS_CONNECTION c).
  { apply wp_ret, HQ; [done|]. intros x Hx Hc. by destruct (class_is_elim _ _ _ x HD Hx Hc). }
  destruct (_ && _).
  { apply wp_gets, HQ; [done|]. intros x Hx Hc. by destruct (class_is_elim _ _ _ x HF Hx Hc). }
  by apply (wq_select_plain X).
Qed.

Lemma wq_do_health_check u force s Q :
  (∀ s', quiet s s' → Q tt s') → wp (tun_do_health_check (Some u) force) Q s.
Proof.
  intros HQ. unfold tun_do_health_check. apply wp_bind, wp_gets, wp_bind, wp_gets.
  destruct (_ || _); [apply wp_ret, HQ; done|]. apply wp_bind, wq_ask; [done|]. intros t s1 H1.
  destruct t; [|by apply wp_ret, HQ]. apply wp_bind, wp_gets. destruct (_ && _); [by apply wp_ret, HQ|].
  apply wp_bind, wq_emit; [done|]. intros s2 H2 _. apply wp_modify, HQ. etrans; [done|]. etrans; [done|]. quiet_set.
Qed.

Lemma wq_lookup_udp p c dir data s Q :
  t_heap s !! p = Some c →
  (∀ r s', quiet s s' → (∀ a, r = inl a → a = TDLA_DONE ∨ a = TDLA_DROP) → Q r s') →
  wp (domain_lookup_process_udp p dir data) Q s.
Proof.
  intros Hp HQ. unfold domain_lookup_process_udp. apply wp_bind, (wp_conn_at _ c); [done|].
  assert (∀ s', quiet s s' → wp (cached ← (if has_hostname_cache then ask (CacheGet (c_src c) (c_dst c)) answer_cache else mret None);
    mret match cached with Some r => inr r | None => inl TDLA_DONE end) Q s') as Hc.
  { intros s' Hq. apply wp_bind. destruct has_hostname_cache.
    - apply wq_ask; [done|]. intros r s'' Hq'. apply wp_ret, HQ; [by etrans|]. destruct r; naive_solver.
    - apply wp_ret, wp_ret, HQ; [done|]. naive_solver. }
  destruct (parse_quic_header data) as [[]|]; try (by apply Hc); [apply wp_ret, HQ; [done|naive_solver]|].
  destruct (prepare_for_domain_lookup data); [|apply wp_ret, HQ; [done|naive_solver]].
  apply wp_bind, wq_ask; [done|]. intros r s' Hq. by apply wp_ret, HQ.
Qed.

End Release.

(** ** Steps of a handler *)

(** [s] is reached from [s0], the state in which the handler started. *)
Record good (B : list (Z * Z)) (X : list Z) s0 s : Prop := {
  g_inv : inv X s;
  g_frame : frame B s0 s;
  g_ready : ready s = true;
}.

(** What steps without calls leave as it is. *)
Record same s s' : Prop := {
  sm_next : t_next_ptr s' = t_next_ptr s;
  sm_client : t_by_client s' = t_by_client s;
  sm_server : t_by_server s' = t_by_server s;
  sm_pins : t_pins s' = t_pins s;
  sm_busy : t_busy s' = t_busy s;
  sm_alive : t_alive s' = t_alive s;
  sm_fields : (t_resolver s', t_fake s', t_dns s', t_endpoint s', t_bypass s', t_client_listener s', t_dns_proxy s')
    = (t_resolver s, t_fake s, t_dns s, t_endpoint s, t_bypass s, t_client_listener s, t_dns_proxy s);
  sm_trace : ∃ tr, t_out s' = t_out s ++ tr;
}.

Lemma quiet_same s s' : quiet s s' → same s s'.
Proof. intros []. destruct q_trace0 as (tr & ? & _). split; try done. by exists tr. Qed.

Lemma same_locked s s' w : same s s' → locked w s' = locked w s.
Proof. intros Hs. unfold locked. by rewrite (sm_alive _ _ Hs). Qed.

Lemma good_quiet B X s0 s s' : good B X s0 s → quiet s s' → good B X s0 s'.
Proof.
  intros [Hi Hf Hr] Hq. split; [by eapply quiet_inv| |by rewrite (q_ready _ _ Hq)].
  eapply frame_trans; [done|]. by apply quiet_frame.
Qed.

(** Changing a connection without moving it. *)
Record stays c c' : Prop := {
  st_client : c_client_id c' = c_client_id c;
  st_server : c_server_id c' = c_server_id c;
  st_proto : c_proto c' = c_proto c;
  st_state : c_state c' = CONNS_WAITING_RESPONSE_MIGRATING → c_state c = CONNS_WAITING_RESPONSE_MIGRATING;
}.
Record keeps c c' : Prop := {
  k_client : c_client_id c' = c_client_id c;
  k_server : c_server_id c' = c_server_id c;
  k_proto : c_proto c' = c_proto c;
  k_state : c_state c' = CONNS_WAITING_RESPONSE_MIGRATING → c_state c = CONNS_WAITING_RESPONSE_MIGRATING;
  k_wait : wait_ok c → wait_ok c';
}.
Definition no_waiter s id : Prop := ∀ rid, t_waiters s !! rid ≠ Some id.

(** The buffer of a connection may change while nothing is said of its stream. *)
Definition exempt (X : list Z) s0 s p c : Prop :=
  (c_client_id c ∈ (t_busy s).*1 ∨ c_client_id c ∈ X ∨ c_proto c ≠ IPPROTO_TCP
   ∨ migrated (c_client_id c) (t_out s) = true ∨ c_client_id c = NON_ID) ∧ ∀ id, (id, p) ∉ t_busy s0.

Lemma good_touch B X s0 s p c c' :
  good B X s0 s → t_heap s !! p = Some c → stays c c' → (wait_ok c → wait_ok c') ∨ no_waiter s (c_client_id c) →
  conn_ok (t_out s) c' →
  c_buffered c' = c_buffered c ∨ exempt X s0 s p c →
  good B X s0 (set_t_heap (<[p := c']> (t_heap s)) s).
Proof.
  intros [[] Hf Hr] Hp [K1 K2 K3 K4] Hw Hok Hbuf. split; [| |done].
  - split; simpl; try done.
    + intros id q Hq. destruct (i_client0 id q Hq) as (? & d & Hd & ?). split; [done|].
      destruct (decide (q = p)) as [->|]; [|exists d; by rewrite lookup_insert_ne].
      exists c'. rewrite lookup_insert_eq. split; [done|]. congruence.
    + intros id q Hq. destruct (i_server0 id q Hq) as (? & d & Hd & ?). split; [done|].
      destruct (decide (q = p)) as [->|]; [|exists d; by rewrite lookup_insert_ne].
      exists c'. rewrite lookup_insert_eq. split; [done|]. congruence.
    + intros q d. destruct (decide (q = p)) as [->|]; [rewrite lookup_insert_eq|rewrite lookup_insert_ne by done; auto].
      intros [= <-]. split; [|done]. by eapply i_conn0.
    + intros q q' d d'. rewrite !lookup_insert_Some. intros [[<- <-]|[? ?]] [[<- <-]|[? ?]];
        rewrite ?K1; intros; [done|by eapply i_uniq0..].
    + intros q q' d d'. rewrite !lookup_insert_Some. intros [[<- <-]|[? ?]] [[<- <-]|[? ?]];
        rewrite ?K2; intros; [done|by eapply i_uniq_server0..].
    + intros q Hq. apply i_pins0 in Hq. destruct (decide (q = p)) as [->|]; [by rewrite lookup_insert_eq|by rewrite lookup_insert_ne].
    + intros id q Hq. destruct (i_busy0 id q Hq) as (? & d & Hd & ? & ? & ?). split; [done|].
      destruct (decide (q = p)) as [->|]; [|exists d; by rewrite lookup_insert_ne].
      exists c'. rewrite lookup_insert_eq. simplify_eq. split_and!; [done|done|done|]. auto.
    + intros id q d Hid. destruct (decide (q = p)) as [->|]; [rewrite lookup_insert_eq|rewrite lookup_insert_ne by done; eauto].
      intros [= <-] Hnb HnX. destruct (i_client0 id p Hid) as (Hidn & d & Hd & Hdid). simplify_eq.
      destruct Hbuf as [Hbuf|[[?|[?|[?|[?|?]]]] _]]; [|done|done|intros Ht; congruence|intros ??; congruence|done].
      intros Ht. unfold stream_ok in i_stream0. rewrite Hbuf. rewrite K3 in Ht. by eapply i_stream0.
    + intros rid id Hid. destruct (i_wait0 rid id Hid) as (? & ? & ? & Hc). split_and!; try done.
      intros q d. destruct (decide (q = p)) as [->|]; [rewrite lookup_insert_eq|rewrite lookup_insert_ne by done; eauto].
      intros [= <-] Hd. destruct Hw as [Hw|Hw]; [apply Hw; apply (Hc p); congruence|]. destruct (Hw rid). congruence.
  - destruct Hf. split; simpl; try done.
    intros id q d Hq Hd. destruct (f_busy_conn0 id q d Hq Hd) as (d' & Hd' & ? & ? & ? & ?).
    destruct (decide (q = p)) as [->|]; [rewrite lookup_insert_eq|by rewrite lookup_insert_ne; [exists d'|]].
    simplify_eq. exists c'. split_and!; try congruence. destruct Hbuf as [?|[_ Hx]]; [congruence|].
    by destruct (Hx id).
Qed.

(** The result of [upd]. *)
Record touched p c' s s' : Prop := {
  th_heap : t_heap s' = <[p := c']> (t_heap s);
  th_same : same s s';
  th_out : t_out s' = t_out s;
}.

Lemma wg_upd B X s0 s p c f Q :
  good B X s0 s → t_heap s !! p = Some c → keeps c (f c) →
  (conn_ok (t_out s) c → conn_ok (t_out s) (f c)) →
  c_buffered (f c) = c_buffered c ∨ exempt X s0 s p c →
  (∀ s', good B X s0 s' → touched p (f c) s s' → Q tt s') → wp (upd p f) Q s.
Proof.
  intros Hg Hp [K1 K2 K3 K4 Hw] Hok Hb HQ. unfold upd. apply wp_bind, (wp_conn_at _ c); [done|]. apply wp_modify, HQ.
  - eapply good_touch; [done|done|by split|by left| |done]. apply Hok. by apply (i_conn _ _ (g_inv _ _ _ _ Hg) p).
  - split; try done. split; try done. exists []. by rewrite app_nil_r.
Qed.

Lemma test_set_flag g f b c : 0 ≤ f → 0 ≤ g → test g (set_flag f b c) = if g =? f then b else test g c.
Proof.
  intros Hf Hg. unfold test, set_flag. simpl. destruct b.
  - rewrite Z.setbit_eqb by done. rewrite Z.eqb_sym. by destruct (g =? f).
  - rewrite Z.clearbit_eqb by done. rewrite Z.eqb_sym. destruct (g =? f); simpl; [by rewrite andb_false_r|by rewrite andb_true_r].
Qed.

(** Fields a connection's invariant does not mention. *)
Lemma conn_ok_same tr c c' :
  (c_state c', c_client_id c', c_server_id c', c_dst c', c_proto c', c_migrating_client_id c')
  = (c_state c, c_client_id c, c_server_id c, c_dst c, c_proto c, c_migrating_client_id c) →
  test CONNF_LOOKINGUP_DOMAIN c' = test CONNF_LOOKINGUP_DOMAIN c →
  test CONNF_FORCIBLY_BYPASSED c' = test CONNF_FORCIBLY_BYPASSED c →
  conn_ok tr c → conn_ok tr c'.
Proof. intros [= E1 E2 E3 E4 E5 E6] E7 E8 []. split; rewrite ?E1, ?E2, ?E3, ?E4, ?E5, ?E6, ?E7, ?E8; auto. Qed.

Definition settled (st : VpnConnectionState) : bool :=
  match st with
  | CONNS_WAITING_ACTION | CONNS_WAITING_RESOLVE | CONNS_WAITING_RESPONSE_MIGRATING => false
  | _ => true
  end.

Lemma conn_ok_settled tr c st : settled st = true → conn_ok tr c → conn_ok tr (set_c_state st c).
Proof. intros Hs []. split; simpl; try done; by destruct st. Qed.

End Facts.

(** After a quiet step or an update, what was known of the tables and of the
    collaborators holds of the new state. *)
Ltac move_same Hs :=
  match type of Hs with
  | same ?s ?s' =>
      repeat match goal with
        | H : context [t_by_client s] |- _ => rewrite <- (sm_client _ _ Hs) in H
        | H : context [t_by_server s] |- _ => rewrite <- (sm_server _ _ Hs) in H
        | H : context [t_pins s] |- _ => rewrite <- (sm_pins _ _ Hs) in H
        | H : context [t_busy s] |- _ => rewrite <- (sm_busy _ _ Hs) in H
        | H : context [locked ?w s] |- _ => rewrite <- (same_locked _ _ w Hs) in H
        | H : context [t_next_ptr s] |- _ => rewrite <- (sm_next _ _ Hs) in H
        end
  end.
Ltac move_quiet Hq :=
  match type of Hq with
  | quiet ?s ?s' =>
      let Hs := fresh in
      pose proof (quiet_same _ _ Hq) as Hs;
      repeat match goal with
        | H : context [t_heap s] |- _ => rewrite <- (q_heap _ _ Hq) in H
        | H : good _ _ _ s |- _ =>
            let H' := fresh in pose proof (good_quiet _ _ _ _ _ H Hq) as H'; clear H; rename H' into H
        | H : _ ∈ t_out s |- _ => apply (quiet_elem _ _ _ Hq) in H
        end;
      move_same Hs; clear Hs
  end.
