(* ===== verification/TunnelSafe.v ===== *)
(** * The tunnel never faults

    Every handler, run in a state that satisfies the invariant, with arbitrary
    answers and arbitrary permitted events inside its calls, returns without a
    fault in a state that satisfies it again.  The proof is by induction on the
    depth of the nesting: [rec] is the handler of the events raised inside. *)
From S2P Require Import Prelude VpnTypes WireUtils IcmpMux IcmpManager DomainFilter ConnStats Tunnel TunnelInv.

Section Safe.
Context {A F : Type} `{!SocketAddressOps A, !TunnelFilter A F, !TunnelEnv A}.
Hypothesis release : t_ndebug = true.

Notation tunnel := (@Tunnel A F).
Notation conn := (@VpnConnection A).
Notation trace := (list (TunOut A)).
Implicit Types (s : tunnel) (c : conn) (tr : trace) (p q id : Z).

#[local] Opaque wp.
#[local] Arguments test : simpl never.

(** ** Tables and objects *)

Lemma good_trans B X X' s0 s s' : good B X s0 s → good [] X' s s' → good B X' s0 s'.
Proof. intros [] []. split; [done|by eapply frame_trans|done]. Qed.

Lemma good_refl X s : inv X s → ready s = true → good [] X s s.
Proof. split; [done|apply frame_refl|done]. Qed.

Lemma good_remove_client B X s0 s id :
  good B X s0 s → good B X s0 (set_t_by_client (delete id (t_by_client s)) s).
Proof.
  intros [[] Hf Hr]. split; [|eapply frame_trans; [done|]|done].
  - split; simpl; try done.
    + intros i p. rewrite lookup_delete_Some. intros [_ ?]. auto.
    + intros i p c. rewrite lookup_delete_Some. intros [_ ?]. eauto.
  - split; simpl; try done; [by exists []; rewrite app_nil_r|]. intros i p c _ Hc. by exists c.
Qed.

Lemma good_remove_server B X s0 s id :
  good B X s0 s → good B X s0 (set_t_by_server (delete id (t_by_server s)) s).
Proof.
  intros [[] Hf Hr]. split; [|eapply frame_trans; [done|]|done].
  - split; simpl; try done. intros i p. rewrite lookup_delete_Some. intros [_ ?]. auto.
  - split; simpl; try done; [by exists []; rewrite app_nil_r|]. intros i p c _ Hc. by exists c.
Qed.

Lemma good_delete B X s0 s p :
  good B X s0 s → p ∉ t_pins s →
  (∀ id, t_by_client s !! id ≠ Some p) → (∀ id, t_by_server s !! id ≠ Some p) →
  good B X s0 (set_t_heap (delete p (t_heap s)) s).
Proof.
  intros [[] Hf Hr] Hp Hc Hs. split; [|eapply frame_trans; [done|]|done].
  - split; simpl; try done.
    + intros i q Hq. destruct (i_client i q Hq) as (? & c & ? & ?). split; [done|]. exists c.
      rewrite lookup_delete_ne; [done|]. intros <-. by destruct (Hc i).
    + intros i q Hq. destruct (i_server i q Hq) as (? & c & ? & ?). split; [done|]. exists c.
      rewrite lookup_delete_ne; [done|]. intros <-. by destruct (Hs i).
    + intros q c. rewrite lookup_delete_Some. intros [_ ?]. auto.
    + intros q q' c c'. rewrite !lookup_delete_Some. intros [_ ?] [_ ?]. eauto.
    + intros q q' c c'. rewrite !lookup_delete_Some. intros [_ ?] [_ ?]. eauto.
    + intros q Hq. rewrite lookup_delete_ne; [auto|]. by intros <-.
    + intros i q Hq. destruct (i_busy i q Hq) as (Hq' & c & ? & ?). split; [done|]. exists c.
      rewrite lookup_delete_ne; [done|]. by intros <-.
    + intros i q c Hq. rewrite lookup_delete_Some. intros [_ ?]. eauto.
    + intros rid i Hw. destruct (i_wait rid i Hw) as (? & ? & ? & Hwc). split_and!; try done.
      intros q c. rewrite lookup_delete_Some. intros [_ ?]. by apply Hwc with q.
  - split; simpl; try done; [by exists []; rewrite app_nil_r|].
    intros i q c Hq Hc'. exists c. destruct (i_busy i q Hq) as (Hq' & _).
    rewrite lookup_delete_ne; [done|]. by intros <-.
Qed.

(** Moves the hypotheses along a quiet step that was just introduced. *)
Ltac quietly := let s' := fresh "s" in let Hq := fresh "Hq" in intros s' Hq; move_quiet Hq; clear Hq.

(** Moves them along an update of the connection whose state is [Hp]. *)
Ltac touch Hg Hp :=
  let s' := fresh "s" in let Hg' := fresh in let Hp' := fresh in let Ht := fresh in let Hs := fresh in
  intros s' Hg' Ht;
  match type of Ht with
  | touched ?p ?c' ?s _ =>
      assert (t_heap s' !! p = Some c') as Hp' by (rewrite (th_heap _ _ _ _ Ht); apply lookup_insert_eq);
      clear Hg Hp; rename Hg' into Hg; rename Hp' into Hp;
      pose proof (th_same _ _ _ _ Ht) as Hs; move_same Hs;
      repeat match goal with H : context [t_out s] |- _ => rewrite <- (th_out _ _ _ _ Ht) in H end;
      clear Hs Ht
  end.

Lemma wg_cancel_destination_resolve B X s0 s c Q :
  good B X s0 s → (∀ s', quiet s s' → Q tt s') → wp (cancel_destination_resolve c) Q s.
Proof.
  intros Hg HQ. unfold cancel_destination_resolve. apply wp_bind, wp_gets.
  destruct (list_find _ _) as [[? [rid ?]]|]; [|by apply wp_ret, HQ].
  apply wp_bind, wq_on_resolver; [by apply (g_ready _ _ _ _ Hg)|done|]. intros s1 H1. apply wp_modify, HQ.
  etrans; [done|]. split; try done; [by apply delete_subseteq|]. exists []. by rewrite app_nil_r.
Qed.

Lemma wq_when b (m : M unit) s (Q : unit → tunnel → Prop) :
  (b = true → wp m Q s) → (b = false → Q tt s) → wp (when b m) Q s.
Proof. destruct b; simpl; auto. intros _ H. by apply wp_ret, H. Qed.

Lemma wq_when_quiet b (m : M unit) s (Q : unit → tunnel → Prop) :
  (∀ Q' : unit → tunnel → Prop, (∀ s', quiet s s' → Q' tt s') → wp m Q' s) →
  (∀ s', quiet s s' → Q tt s') → wp (when b m) Q s.
Proof. intros Hm HQ. destruct b; simpl; [by apply Hm|]. by apply wp_ret, HQ. Qed.

Lemma wg_destroy_at B X s0 s p c Q :
  good B X s0 s → t_heap s !! p = Some c → p ∉ t_pins s →
  (∀ s', good B X s0 s' → Q tt s') → wp (destroy_at p) Q s.
Proof.
  intros Hg Hp Hpin HQ. unfold destroy_at. apply wp_bind, (wp_conn_at _ c); [done|].
  apply wp_bind, wq_when_quiet. { intros. by eapply wg_cancel_destination_resolve. }
  quietly.
  apply wp_bind, wp_modify. pose proof (good_remove_client _ _ _ _ (c_client_id c) Hg) as Hg1.
  apply wp_bind, wp_modify. pose proof (good_remove_server _ _ _ _ (c_server_id c) Hg1) as Hg2.
  match type of Hg2 with good _ _ _ ?x => remember x as s2 eqn:Es2 end.
  assert (t_heap s2 !! p = Some c) as Hp2 by by subst s2.
  assert (p ∉ t_pins s2) as Hpin2 by by subst s2.
  assert (∀ id, t_by_client s2 !! id ≠ Some p) as Hc2.
  { subst s2. simpl. intros id. rewrite lookup_delete_Some. intros [Hne Hid].
    destruct (i_client _ _ (g_inv _ _ _ _ Hg) id p Hid) as (_ & d & ? & ?). simplify_eq. }
  assert (∀ id, t_by_server s2 !! id ≠ Some p) as Hs2.
  { subst s2. simpl. intros id. rewrite lookup_delete_Some. intros [Hne Hid].
    destruct (i_server _ _ (g_inv _ _ _ _ Hg) id p Hid) as (_ & d & ? & ?). simplify_eq. }
  clear Es2 Hg1 Hg Hp Hpin.
  apply wp_bind, wq_when_quiet. { intros. apply wq_emit; auto. }
  quietly. apply wp_bind, wq_when_quiet. { intros. apply wq_with_stats; [apply Hg2|done]. }
  quietly. apply wp_bind, wp_gets, wp_bind, wp_gets, wp_bind, wq_when_quiet. { intros. apply wq_emit; auto. }
  quietly.
  unfold delete_conn. apply wp_bind, (wp_conn_at _ c); [done|].
  apply wp_bind, wq_cancel_task. quietly. apply wp_bind, wq_cancel_task. quietly.
  apply wp_modify, HQ. by apply good_delete.
Qed.

Lemma wg_destroy B X s0 s cid sid Q :
  good B X s0 s →
  (∀ p, cid ≠ NON_ID → t_by_client s !! cid = Some p → p ∉ t_pins s) →
  (∀ p, sid ≠ NON_ID → (cid ≠ NON_ID → t_by_client s !! cid = None) → t_by_server s !! sid = Some p → p ∉ t_pins s) →
  (∀ s', good B X s0 s' → Q tt s') → wp (tun_destroy_connection cid sid) Q s.
Proof.
  intros Hg H1 H2 HQ. unfold tun_destroy_connection. apply wp_bind, (wq_assert release).
  assert (∀ p, t_by_client s !! cid = Some p ∨ t_by_server s !! sid = Some p → p ∉ t_pins s → wp (destroy_at p) Q s) as Hd.
  { intros p Hp Hpin.
    assert (is_Some (t_heap s !! p)) as [c Hc].
    { destruct Hp as [Hp|Hp]; [destruct (i_client _ _ (g_inv _ _ _ _ Hg) _ _ Hp) as (_ & c & ? & _)
                               |destruct (i_server _ _ (g_inv _ _ _ _ Hg) _ _ Hp) as (_ & c & ? & _)]; by exists c. }
    by eapply wg_destroy_at. }
  assert ((cid ≠ NON_ID → t_by_client s !! cid = None) →
    wp (p ← (if sid =? NON_ID then mret None else by_server_id sid);
        match p with Some p => destroy_at p | None => skip end) Q s) as Hs.
  { intros Hn. apply wp_bind. destruct (Z.eqb_spec sid NON_ID); [by apply wp_ret, wp_ret, HQ|].
    apply wp_gets. destruct (t_by_server s !! sid) as [p|] eqn:Hp; [|by apply wp_ret, HQ]. apply Hd; [by right|]. by apply H2. }
  apply wp_bind. destruct (Z.eqb_spec cid NON_ID) as [->|Hcid].
  { apply wp_ret, Hs. by intros ?. }
  apply wp_gets. destruct (t_by_client s !! cid) as [p|] eqn:Hp; [|by apply Hs].
  apply wp_bind, wp_ret, Hd; [by left|]. by apply H1.
Qed.

(** ** Calls *)

Section Rec.
Variable rec : TunEvent A → M (A := A) (F := F) Z.
Hypothesis Hrec : ∀ e s, inv [] s → ready s = true → wp (rec e) (λ _ s', good [] [] s s') s.

Lemma wg_run_raised es s Q :
  inv [] s → ready s = true → (∀ s', good [] [] s s' → Q tt s') → wp (run_raised rec es) Q s.
Proof.
  revert s. induction es as [|e es IH]; intros s Hi Hr HQ; simpl; [by apply wp_ret, HQ, good_refl|].
  apply wp_bind. eapply wp_mono; [by apply Hrec|]. intros ? s1 H1. simpl in H1.
  apply IH; [apply H1|apply H1|]. intros s2 H2. apply HQ. by eapply good_trans.
Qed.

Lemma wg_call B o s0 s Q :
  good B [] s0 s → neutral o = true → (∀ s', good B [] s0 s' → frame [] s s' → Q tt s') → wp (call rec o) Q s.
Proof.
  intros Hg Ho HQ. unfold call. apply wp_bind, wq_ask; [done|]. intros es s1 H1.
  pose proof (good_quiet _ _ _ _ _ Hg H1) as Hg1.
  apply wg_run_raised; [apply Hg1|apply Hg1|]. intros s2 H2. apply HQ; [by eapply good_trans|].
  eapply frame_trans; [by apply quiet_frame|]. apply H2.
Qed.

Lemma inv_pins X s pins :
  inv X s → (∀ p, p ∈ pins → is_Some (t_heap s !! p)) → (∀ id p, (id, p) ∈ t_busy s → p ∈ pins) →
  inv X (set_t_pins pins s).
Proof.
  intros [] Hp Hb. split; simpl; try done. intros id p Hid. destruct (i_busy id p Hid) as (_ & c & ?).
  split; [by eapply Hb|]. by exists c.
Qed.

Lemma wg_pinned B p o s0 s Q :
  good B [] s0 s → is_Some (t_heap s !! p) → neutral o = true →
  (∀ s', good B [] s0 s' → frame [] s s' → is_Some (t_heap s' !! p) → Q tt s') → wp (pinned p (call rec o)) Q s.
Proof.
  intros Hg Hp Ho HQ. unfold pinned. apply wp_bind, wp_gets, wp_bind, wp_modify, wp_bind.
  set (s1 := set_t_pins (p :: t_pins s) s).
  assert (inv [] s1) as Hi1.
  { apply inv_pins; [apply Hg| |]; set_unfold; intros; destruct_or?; subst; try done.
    - by apply (i_pins _ _ (g_inv _ _ _ _ Hg)).
    - right. by eapply (i_busy _ _ (g_inv _ _ _ _ Hg)). }
  apply (wg_call [] o s1); [apply good_refl; [done|apply Hg]|done|]. intros s2 H2 _. apply wp_modify.
  assert (frame [] s (set_t_pins (t_pins s) s2)) as Hfr.
  { destruct (g_frame _ _ _ _ H2). split; try done. }
  assert (inv [] (set_t_pins (t_pins s) s2)) as Hi2.
  { apply inv_pins; [apply H2| |].
    - intros q Hq. apply (i_pins _ _ (g_inv _ _ _ _ H2)). rewrite (f_pins _ _ _ (g_frame _ _ _ _ H2)). set_solver.
    - intros id q Hq. rewrite (f_busy _ _ _ (g_frame _ _ _ _ H2)) in Hq. by eapply (i_busy _ _ (g_inv _ _ _ _ Hg)). }
  apply HQ.
  - split; [done| |apply H2]. eapply frame_trans; [apply Hg|done].
  - done.
  - apply (i_pins _ _ (g_inv _ _ _ _ H2)). rewrite (f_pins _ _ _ (g_frame _ _ _ _ H2)). set_solver.
Qed.

Lemma wg_reject_client B l id r s0 s Q :
  good B [] s0 s → (∀ s', good B [] s0 s' → Q tt s') → wp (reject_client rec l id r) Q s.
Proof.
  intros Hg HQ. unfold reject_client. apply wp_bind, (wg_call B _ s0); [done|done|]. intros s1 Hg1 _.
  apply wq_when; [|auto]. intros _. apply wp_bind, wp_gets. destruct (t_by_client s1 !! id) as [p|] eqn:Hp; [|by apply wp_ret, HQ].
  destruct (i_client _ _ (g_inv _ _ _ _ Hg1) _ _ Hp) as (_ & c & Hc & _).
  eapply (wg_upd B [] s0); [done|done|by split| |by left|by auto]. by apply conn_ok_settled.
Qed.

Lemma wg_close B p c err async s0 s Q :
  good B [] s0 s → t_heap s !! p = Some c → (locked (c_listener c) s = None → p ∉ t_pins s) →
  (∀ s', good B [] s0 s' → Q tt s') → wp (close_client_side_connection rec p err async) Q s.
Proof.
  intros Hg Hp Hpin HQ. unfold close_client_side_connection. apply wp_bind, (wp_conn_at _ c); [done|].
  apply wp_bind, wp_gets. destruct (locked (c_listener c) s) as [l|] eqn:Hl.
  - assert (∀ err', wp (if negb async then reject_client rec l (c_client_id c) (server_error_to_connect_result err')
            else match c_complete_task c with
               | Some _ => skip
               | None => id ← submit (TaskCompleteConnect (c_client_id c) err'); upd p (set_c_complete_task (Some id))
               end) Q s) as Hr.
    { intros err'. destruct async; simpl; [|by eapply wg_reject_client].
      destruct (c_complete_task c); [by apply wp_ret, HQ|]. apply wp_bind, wq_submit. intros id. quietly.
      eapply (wg_upd B [] s0); [done|done|by split| |by left|by auto]. by apply conn_ok_same. }
    destruct (c_state c); try apply Hr; try (by apply wp_ret, HQ); by apply (wg_call B _ s0); auto.
  - specialize (Hpin eq_refl). apply (wg_destroy B [] s0); [done| | |done].
    + intros q Hne Hq. destruct (i_client _ _ (g_inv _ _ _ _ Hg) _ _ Hq) as (_ & d & Hd & Hid).
      rewrite (i_uniq _ _ (g_inv _ _ _ _ Hg) q p d c); congruence.
    + intros q Hne _ Hq. destruct (i_server _ _ (g_inv _ _ _ _ Hg) _ _ Hq) as (_ & d & Hd & Hid).
      rewrite (i_uniq_server _ _ (g_inv _ _ _ _ Hg) q p d c); congruence.
Qed.

(** ** Loops over the table *)

Lemma wq_select_ids X sel s Q : inv X s → (∀ ids, Q ids s) → wp (select_ids sel) Q s.
Proof.
  intros Hi HQ. unfold select_ids. apply wp_bind, wp_gets. revert Q HQ.
  induction (table_order (t_by_client s)) as [|k keys IH]; intros Q HQ; simpl; [by apply wp_ret|].
  apply wp_bind, wp_gets. destruct (t_by_client s !! k) as [p|] eqn:Hp; [|by apply IH].
  destruct (i_client _ _ Hi _ _ Hp) as (_ & c & Hc & _). apply wp_bind, (wp_conn_at _ c); [done|].
  apply wp_bind, wp_gets, wp_bind, IH. intros ids. by apply wp_ret.
Qed.

(** An update of fields the invariant does not mention. *)
Lemma wg_upd_minor B X s0 s p c f Q :
  good B X s0 s → t_heap s !! p = Some c →
  (c_state (f c), c_client_id (f c), c_server_id (f c), c_dst (f c), c_proto (f c), c_migrating_client_id (f c))
  = (c_state c, c_client_id c, c_server_id c, c_dst c, c_proto c, c_migrating_client_id c) →
  c_buffered (f c) = c_buffered c →
  test CONNF_LOOKINGUP_DOMAIN (f c) = test CONNF_LOOKINGUP_DOMAIN c →
  test CONNF_FORCIBLY_BYPASSED (f c) = test CONNF_FORCIBLY_BYPASSED c →
  (∀ s', good B X s0 s' → touched p (f c) s s' → Q tt s') → wp (upd p f) Q s.
Proof.
  intros Hg Hp E Eb E1 E2 HQ. eapply wg_upd; eauto; [|by apply conn_ok_same].
  assert (c_state (f c) = c_state c ∧ c_dst (f c) = c_dst c) as [Est Ed] by (split; congruence).
  split; try congruence. unfold wait_ok. by rewrite Est, Ed.
Qed.

Lemma wg_close_ids B prepare ids s0 s Q :
  good B [] s0 s → t_pins s = [] →
  (∀ p c s' (Q' : unit → tunnel → Prop), good B [] s0 s' → t_heap s' !! p = Some c →
     (∀ s'' c', good B [] s0 s'' → t_heap s'' !! p = Some c' → Q' tt s'') → wp (prepare p) Q' s') →
  (∀ s', good B [] s0 s' → Q tt s') → wp (close_ids rec prepare ids) Q s.
Proof.
  intros Hg Hpins Hprep HQ. assert (∀ s', good B [] s0 s' → t_pins s' = []) as Hpins'.
  { intros s' Hg'. by rewrite (f_pins _ _ _ (g_frame _ _ _ _ Hg')), <- (f_pins _ _ _ (g_frame _ _ _ _ Hg)). }
  revert s Hg Hpins. induction ids as [|id ids IH]; intros s Hg Hpins; simpl; [by apply wp_ret, HQ|].
  apply wp_bind, wp_gets, wp_bind. destruct (t_by_client s !! id) as [p|] eqn:Hp; [|by apply wp_ret, IH].
  destruct (i_client _ _ (g_inv _ _ _ _ Hg) _ _ Hp) as (_ & c & Hc & _). apply wp_bind, (Hprep _ c); [done|done|].
  intros s1 c1 Hg1 Hc1. eapply wg_close; [done|done| |].
  - intros _. rewrite (Hpins' s1 Hg1). set_solver.
  - intros s2 Hg2. apply IH; auto.
Qed.

Lemma wg_skip_prepare B s0 (p : Z) c s (Q' : unit → tunnel → Prop) :
  good B [] s0 s → t_heap s !! p = Some c →
  (∀ s'' c', good B [] s0 s'' → t_heap s'' !! p = Some c' → Q' tt s'') → wp skip Q' s.
Proof. intros Hg Hp HQ. apply wp_ret. by eapply HQ. Qed.

Lemma wg_close_client_side B u s0 s Q :
  good B [] s0 s → t_pins s = [] → (∀ s', good B [] s0 s' → Q tt s') → wp (close_client_side rec u) Q s.
Proof.
  intros Hg Hpins HQ. unfold close_client_side. apply wp_bind, (wq_select_ids []); [apply Hg|]. intros ids.
  eapply wg_close_ids; [done|done| |done]. intros p c s1 Q' Hg1 Hp HQ'.
  eapply wg_upd_minor; [done|done|done|done|by rewrite test_set_flag|by rewrite test_set_flag|].
  intros s2 Hg2 Ht. eapply HQ'; [done|]. rewrite (th_heap _ _ _ _ Ht). apply lookup_insert_eq.
Qed.

Lemma wg_complete_task id err s0 s Q :
  good [] [] s0 s → t_pins s = [] → (∀ s', good [] [] s0 s' → Q tt s') →
  wp (complete_connect_request_task rec id err) Q s.
Proof.
  intros Hg Hpins HQ. unfold complete_connect_request_task. apply wp_bind, wp_gets.
  destruct (t_by_client s !! id) as [p|] eqn:Hp; [|by apply (wq_assert release), HQ].
  destruct (i_client _ _ (g_inv _ _ _ _ Hg) _ _ Hp) as (_ & c & Hc & _).
  apply wp_bind. eapply wg_upd_minor; [done..|]. intros s1 Hg1 Ht.
  assert (t_pins s1 = []) as Hpins1 by by rewrite (sm_pins _ _ (th_same _ _ _ _ Ht)).
  apply wp_bind. eapply wp_conn_at; [rewrite (th_heap _ _ _ _ Ht); apply lookup_insert_eq|]. apply wp_bind, wp_gets.
  destruct (locked _ s1) as [l|].
  - simpl. assert (wp (_ ← call rec (LClose l id false false); tun_assert false) Q s1) as Hclose.
    { apply wp_bind, (wg_call [] _ s0); [done|done|]. intros. by apply (wq_assert release), HQ. }
    destruct (c_state c); try done; by eapply wg_reject_client.
  - apply (wg_destroy [] [] s0); [done| | |done]; rewrite Hpins1; intros; set_solver.
Qed.

(** ** Events of the upstreams *)

(** What reporting leaves of a connection. *)
Record alike c c' : Prop := {
  al_keeps : keeps c c';
  al_state : c_state c' = c_state c;
  al_dst : c_dst c' = c_dst c;
  al_listener : c_listener c' = c_listener c;
  al_upstream : c_upstream c' = c_upstream c;
  al_buffered : c_buffered c' = c_buffered c;
  al_action : c_action c' = c_action c;
  al_mig : c_migrating_client_id c' = c_migrating_client_id c;
}.

Lemma alike_refl c : alike c c.
Proof. by split. Qed.

Lemma wg_report B s0 s p c d Q :
  good B [] s0 s → t_heap s !! p = Some c →
  (∀ s' c', good B [] s0 s' → t_heap s' !! p = Some c' → alike c c' → same s s' → Q tt s') →
  wp (report_connection_info p d) Q s.
Proof.
  intros Hg Hp HQ. assert (same s s) as Hss by by apply quiet_same.
  unfold report_connection_info. apply wp_bind, (wp_conn_at _ c); [done|].
  destruct (_ || _); [apply wp_ret; eapply HQ; [done|done|apply alike_refl|done]|].
  destruct (match c_dst c with ToAddress a => is_loopback a | ToName _ _ => false end);
    [apply wp_ret; eapply HQ; [done|done|apply alike_refl|done]|].
  apply wp_bind. eapply wg_upd_minor; [done|done|done|done|by rewrite test_set_flag|by rewrite test_set_flag|].
  intros s1 Hg1 Ht. assert (t_heap s1 !! p = Some (set_flag CONNF_CONN_INFO_SENT true c)) as Hp1
    by (rewrite (th_heap _ _ _ _ Ht); apply lookup_insert_eq).
  apply wp_bind, wq_filter_mode. intros mode s2 Hq _. apply wq_emit; [done|]. intros s3 Hq' _.
  assert (quiet s1 s3) as Hq13 by by etrans. eapply HQ; [by eapply good_quiet|by rewrite (q_heap _ _ Hq13)|by split|].
  destruct (th_same _ _ _ _ Ht), (quiet_same _ _ Hq13). split; try congruence.
  destruct sm_trace as [tr E], sm_trace0 as [tr' ->]. exists (tr ++ tr'). by rewrite E, app_assoc.
Qed.

Lemma wg_on_server_closed id s0 s Q :
  good [] [] s0 s → (∀ p, t_by_server s !! id = Some p → p ∉ t_pins s) →
  (∀ s', good [] [] s0 s' → Q tt s') → wp (on_server_closed rec id) Q s.
Proof.
  intros Hg Hpin HQ. unfold on_server_closed. apply wp_bind, wp_gets.
  destruct (t_by_server s !! id) as [p|] eqn:Hid.
  2:{ apply (wg_destroy [] [] s0); [done|done| |done]. intros q _ _ Hq. congruence. }
  specialize (Hpin p eq_refl). destruct (i_server _ _ (g_inv _ _ _ _ Hg) _ _ Hid) as (_ & c & Hc & _).
  apply wp_bind, (wp_conn_at _ c); [done|]. apply wp_bind, wp_gets, wp_bind, wp_gets.
  assert (wp (tun_destroy_connection (c_client_id c) (c_server_id c)) Q s) as Hd.
  { apply (wg_destroy [] [] s0); [done| | |done].
    - intros q Hne Hq. destruct (i_client _ _ (g_inv _ _ _ _ Hg) _ _ Hq) as (_ & d & Hd & ?).
      rewrite (i_uniq _ _ (g_inv _ _ _ _ Hg) q p d c); congruence.
    - intros q Hne _ Hq. destruct (i_server _ _ (g_inv _ _ _ _ Hg) _ _ Hq) as (_ & d & Hd & ?).
      rewrite (i_uniq_server _ _ (g_inv _ _ _ _ Hg) q p d c); congruence. }
  destruct (t_by_client s !! c_client_id c) as [q|]; [|done]. destruct (locked (c_listener c) s) as [l|]; [|done].
  apply wp_bind, wp_modify, wp_bind. pose proof (good_remove_server _ _ _ _ (c_server_id c) Hg) as Hg1.
  match type of Hg1 with good _ _ _ ?x => remember x as s1 eqn:Es1 end.
  assert (t_heap s1 !! p = Some c) as Hc1 by by subst. assert (p ∉ t_pins s1) as Hp1 by by subst.
  clear Es1 Hg Hd. apply wq_emit; [done|]. intros s2 Hq _. move_quiet Hq. by eapply wg_close.
Qed.

Lemma wg_send_to_client p c u l data s0 s Q :
  good [] [] s0 s → t_heap s !! p = Some c →
  (∀ r s', good [] [] s0 s' → Q r s') → wp (send_to_client rec p u l data) Q s.
Proof.
  intros Hg Hp HQ. unfold send_to_client. apply wp_bind, (wp_conn_at _ c); [done|].
  apply wp_bind, (wg_pinned [] _ _ s0); [done|by exists c|done|]. intros s1 Hg1 _ [c1 Hc1].
  apply wp_bind, wp_gets, wp_bind, (wp_conn_at _ c1); [done|].
  destruct (_ =? 0). { apply wp_bind, wq_emit; [done|]. intros s2 Hq _. move_quiet Hq. by apply wp_ret, HQ. }
  destruct (0 <? _); [|by apply wp_ret, HQ].
  apply wp_bind. eapply wg_upd_minor; [done..|]. touch Hg1 Hc1.
  apply wp_bind, wq_when_quiet. { intros. apply wq_with_stats; [apply Hg1|done]. } quietly.
  apply wp_bind, wq_ask; [done|]. intros info. quietly. apply wp_bind, wq_emit; [done|]. intros s5 Hq _. move_quiet Hq.
  by apply wp_ret, HQ.
Qed.

(** What the lookup leaves of a connection, and why it may be sent elsewhere. *)
Record looked tr c c' (act : TunnelDomainLookupAction) : Prop := {
  lk_fields : (c_state c', c_client_id c', c_server_id c', c_dst c', c_proto c', c_migrating_client_id c')
    = (c_state c, c_client_id c, c_server_id c, c_dst c, c_proto c, c_migrating_client_id c);
  lk_ends : (c_listener c', c_upstream c', c_flags c', c_buffered c', c_lookup_attempts c')
    = (c_listener c, c_upstream c, c_flags c, c_buffered c, c_lookup_attempts c);
  lk_drop : c_proto c = IPPROTO_TCP → act ≠ TDLA_DROP;
  lk_shutdown : act = TDLA_SHUTDOWN → ∃ a, c_action c' = Some a ∧
    (a = VPN_CA_FORCE_BYPASS → ∀ id, bypass_justified tr id (c_dst c'));
}.

Lemma same_trans s1 s2 s3 : same s1 s2 → same s2 s3 → same s1 s3.
Proof.
  intros [] []. split; try congruence. destruct sm_trace as [tr E], sm_trace0 as [tr' ->].
  exists (tr ++ tr'). by rewrite E, app_assoc.
Qed.

Lemma wg_upd_action B s0 s s1 p c a Q :
  good B [] s0 s1 → t_heap s1 !! p = Some c → same s s1 →
  (∀ s', good B [] s0 s' → t_heap s' !! p = Some (set_c_action a c) → same s s' → t_out s' = t_out s1 → Q tt s') →
  wp (upd p (set_c_action a)) Q s1.
Proof.
  intros Hg Hp Hs HQ. eapply wg_upd_minor; [done..|]. intros s2 Hg2 Ht. apply HQ; [done| | |apply Ht].
  - rewrite (th_heap _ _ _ _ Ht). apply lookup_insert_eq.
  - eapply same_trans; [done|apply Ht].
Qed.

Lemma wg_apply_extracted B s0 s p c r Q :
  good B [] s0 s → t_heap s !! p = Some c → test CONNF_LOOKINGUP_DOMAIN c = true →
  (∀ act s' c', good B [] s0 s' → t_heap s' !! p = Some c' → same s s' → looked (t_out s') c c' act → Q act s') →
  wp (apply_extracted p r) Q s.
Proof.
  intros Hg Hp Hl HQ. unfold apply_extracted. apply wp_bind. eapply wg_upd_minor; [done..|]. intros s1 Hg1 Ht.
  set (c1 := set_c_extracted r c). pose proof (th_same _ _ _ _ Ht) as Hs1.
  assert (t_heap s1 !! p = Some c1) as Hc1 by (rewrite (th_heap _ _ _ _ Ht); apply lookup_insert_eq). clear Ht.
  destruct (de_status r).
  - apply wp_bind, wq_emit; [done|]. intros s2 Hq _. pose proof (quiet_same _ _ Hq) as Hs2. move_quiet Hq.
    pose proof (same_trans _ _ _ Hs1 Hs2) as Hs. apply wp_bind, (wp_conn_at _ c1); [done|].
    destruct (test CONNF_SUSPECT_EXCLUSION c1).
    + apply wp_bind. eapply (wg_upd_action _ _ s); [done..|]. intros s3 Hg3 Hc3 Hs3 _. apply wp_ret.
      eapply HQ; [done..|]. split; [done..|]. intros _. by exists VPN_CA_FORCE_REDIRECT.
    + apply wp_ret. eapply HQ; [done..|]. by split.
  - apply wp_bind, (wp_conn_at _ c1); [done|]. apply wp_bind, wp_modify.
    match goal with |- wp _ _ ?x => assert (quiet s1 x) as Hq by (split; try done; exists []; by rewrite app_nil_r);
      remember x as s2 eqn:E2; clear E2 end.
    pose proof (same_trans _ _ _ Hs1 (quiet_same _ _ Hq)) as Hs2. move_quiet Hq. clear Hq Hs1.
    apply wp_bind, wq_filter_match_tag. intros m s3 Hq Hm.
    pose proof (same_trans _ _ _ Hs2 (quiet_same _ _ Hq)) as Hs3. move_quiet Hq. clear Hq Hs2.
    assert (∀ act s4 c4, good B [] s0 s4 → t_heap s4 !! p = Some c4 → same s s4 → looked (t_out s4) c c4 act →
      wp (_ ← emit (XReset p); mret act) Q s4) as Hend.
    { intros act s4 c4 Hg4 Hc4 Hs4 [L1 L2 L3 L4]. apply wp_bind, wq_emit; [done|]. intros s5 Hq _.
      pose proof (same_trans _ _ _ Hs4 (quiet_same _ _ Hq)) as Hs5. pose proof (q_trace _ _ Hq) as (tr & Htr & _).
      move_quiet Hq. apply wp_ret. eapply HQ; [done..|]. split; try done. intros Ha.
      destruct (L4 Ha) as (a & ? & Hj). exists a. split; [done|]. intros Hb id. rewrite Htr.
      by apply bypass_justified_app, Hj. }
    destruct (ck_lookup _ _ (proj2 (i_conn _ _ (g_inv _ _ _ _ Hg1) _ _ Hc1)) Hl) as [a Ha].
    assert (make_tag c1 = mkTag a (c_app_name c1)) as Htag by (unfold make_tag; by rewrite Ha).
    destruct (status m) eqn:Hst; apply wp_bind.
    + apply wp_ret. eapply Hend; [done..|]. by split.
    + apply wp_bind, wq_excluded_action. intros act s4 Hq Hact.
      pose proof (same_trans _ _ _ Hs3 (quiet_same _ _ Hq)) as Hs4. move_quiet Hq. clear Hq.
      apply wp_bind. eapply (wg_upd_action _ _ s); [done..|]. intros s5 Hg5 Hc5 Hs5 Eo. apply wp_ret.
      eapply Hend; [done..|]. split; [done..|]. intros _. exists act. split; [done|]. intros _ id. right; left.
      exists a, (c_app_name c1). split; [done|]. by rewrite Eo, <- Htag.
    + apply wp_ret. eapply Hend; [done..|]. by split.
    + apply wp_bind, wq_default_action. intros act s4 Hq Hsel _.
      pose proof (same_trans _ _ _ Hs3 (quiet_same _ _ Hq)) as Hs4. move_quiet Hq. clear Hq.
      apply wp_bind. eapply (wg_upd_action _ _ s); [done..|]. intros s5 Hg5 Hc5 Hs5 Eo. apply wp_ret.
      eapply Hend; [done..|]. split; [done..|]. intros _. exists act. split; [done|]. intros Hb id. right; right.
      rewrite Eo. by apply Hsel.
  - apply wp_ret. eapply HQ; [done..|]. by split.
  - apply wp_ret. eapply HQ; [done..|]. by split.
Qed.

Lemma looked_refl tr c act : act ≠ TDLA_SHUTDOWN → (c_proto c = IPPROTO_TCP → act ≠ TDLA_DROP) → looked tr c c act.
Proof. by split. Qed.

Lemma wg_lookup B s0 s p c dir data Q :
  good B [] s0 s → t_heap s !! p = Some c → test CONNF_LOOKINGUP_DOMAIN c = true →
  (∀ act s' c', good B [] s0 s' → t_heap s' !! p = Some c' → same s s' → looked (t_out s') c c' act → Q act s') →
  wp (pass_through_domain_lookup p dir data) Q s.
Proof.
  intros Hg Hp Hl HQ. unfold pass_through_domain_lookup. apply wp_bind, (wp_conn_at _ c); [done|].
  assert (∀ s1 r, quiet s s1 → wp (apply_extracted p r) Q s1) as Hx.
  { intros s1 r Hq. pose proof (quiet_same _ _ Hq) as Hs1. move_quiet Hq. eapply wg_apply_extracted; [done..|].
    intros act s2 c2 ??? ?. eapply HQ; [done|done|by eapply same_trans|done]. }
  apply wp_bind. destruct (Z.eqb_spec (c_proto c) IPPROTO_UDP) as [Hu|Hu].
  - eapply wq_lookup_udp; [done|]. intros r s1 Hq Hr. destruct r as [act|r]; [|by apply Hx].
    pose proof (quiet_same _ _ Hq) as Hs1. move_quiet Hq. apply wp_ret. eapply HQ; [done..|].
    apply looked_refl; [by destruct (Hr act eq_refl) as [-> | ->]|by rewrite Hu].
  - apply wp_bind, wq_ask; [done|]. intros r s1 Hq. by apply wp_ret, Hx.
Qed.

(** The connection of an event of its upstream. *)
Lemma server_conn_of X s id p : inv X s → t_by_server s !! id = Some p → ∃ c, t_heap s !! p = Some c.
Proof. intros Hi Hp. destruct (i_server _ _ Hi _ _ Hp) as (_ & c & ? & _). by exists c. Qed.

Lemma looked_set tr c c' act b :
  looked tr c c' act → keeps c (set_flag CONNF_LOOKINGUP_DOMAIN b c').
Proof. intros [[= Est ? ? Ed ? ?] _ _ _]. split; simpl; try congruence. unfold wait_ok. simpl. by rewrite Est, Ed. Qed.

Lemma conn_ok_lookup_off tr c : conn_ok tr c → conn_ok tr (set_flag CONNF_LOOKINGUP_DOMAIN false c).
Proof.
  intros []. split; rewrite ?test_set_flag by done; simpl; auto; done.
Qed.

Lemma wg_on_server_read u id data s0 s Q :
  good [] [] s0 s → (∀ r s', good [] [] s0 s' → Q r s') → wp (on_server_read rec u id data) Q s.
Proof.
  intros Hg HQ. unfold on_server_read. apply wp_bind, wp_gets.
  assert (wp (_ ← tun_assert false; mret (-1)) Q s) as Herr by by apply wp_bind, (wq_assert release), wp_ret, HQ.
  destruct (t_by_server s !! id) as [p|] eqn:Hid; [|done].
  destruct (server_conn_of _ _ _ _ (g_inv _ _ _ _ Hg) Hid) as [c Hc].
  apply wp_bind, (wp_conn_at _ c); [done|]. apply wp_bind, wp_gets, wp_bind, wp_gets.
  destruct (negb _); [done|]. destruct (locked (c_listener c) s) as [l|] eqn:Hl; [|done]. clear Herr.
  destruct (test CONNF_LOOKINGUP_DOMAIN c) eqn:Htest; [|by eapply wg_send_to_client].
  apply wp_bind. eapply wg_lookup; [done..|]. intros act s1 c1 Hg1 Hc1 Hs1 Hlk.
  assert (locked (c_listener c1) s1 = Some l) as Hl1.
  { destruct Hlk as [_ [= -> _ _ _ _] _ _]. by rewrite (same_locked _ _ _ Hs1). }
  assert (∀ err (r : Z) s2, good [] [] s0 s2 → t_heap s2 !! p = Some c1 → locked (c_listener c1) s2 = Some l →
    wp (_ ← close_client_side_connection rec p err false; mret r) Q s2) as Hclose.
  { intros err r s2 Hg2 Hc2 Hl2. apply wp_bind. eapply wg_close; [done|done|congruence|]. intros. by apply wp_ret, HQ. }
  destruct act.
  - apply wp_bind. eapply (wg_upd [] []); [done|done|by split|by apply conn_ok_lookup_off|by left|].
    intros s2 Hg2 Ht. eapply wg_send_to_client; [done|rewrite (th_heap _ _ _ _ Ht); apply lookup_insert_eq|done].
  - by eapply wg_send_to_client.
  - by eapply wg_send_to_client.
  - by apply Hclose.
  - apply wp_bind, wq_emit; [done|]. intros s2 Hq _. move_quiet Hq. by apply Hclose.
  - by eapply wg_send_to_client.
Qed.

Lemma wg_schedule B s0 s p c Q :
  good B [] s0 s → t_heap s !! p = Some c → (∀ s', good B [] s0 s' → Q tt s') →
  wp (schedule_send_buffered_data p) Q s.
Proof.
  intros Hg Hp HQ. unfold schedule_send_buffered_data. apply wp_bind, (wp_conn_at _ c); [done|].
  apply wp_bind, wq_submit. intros id. quietly. apply wp_bind, wq_cancel_task. quietly.
  eapply wg_upd_minor; [done..|]. intros. by apply HQ.
Qed.

Lemma wg_on_server_data_sent tid u id n s0 s Q :
  good [] [] s0 s → (∀ s', good [] [] s0 s' → Q tt s') → wp (on_server_data_sent rec tid u id n) Q s.
Proof.
  intros Hg HQ. unfold on_server_data_sent. apply wp_bind, wp_gets.
  destruct (t_by_server s !! id) as [p|] eqn:Hid; [|by apply wp_ret, HQ].
  destruct (server_conn_of _ _ _ _ (g_inv _ _ _ _ Hg) Hid) as [c Hc].
  apply wp_bind, (wp_conn_at _ c); [done|]. apply wp_bind, wp_gets, wp_bind, wp_gets.
  assert (wp (_ ← call rec (UClose u tid false true); tun_assert false) Q s) as Herr.
  { apply wp_bind, (wg_call [] _ s0); [done|done|]. intros. by apply (wq_assert release), HQ. }
  destruct (negb _); [done|]. destruct (locked (c_listener c) s) as [l|]; [|done].
  destruct (c_state c); try (by apply wp_ret, HQ).
  apply wp_bind, wq_emit; [done|]. intros s1 Hq _. move_quiet Hq. clear Herr.
  apply wp_bind, wq_ask; [done|]. intros k. quietly. apply wp_bind, wq_emit; [done|]. intros s3 Hq' _. move_quiet Hq'.
  apply wq_when; [|auto]. intros _. by eapply wg_schedule.
Qed.

Lemma wg_on_server_get_available id s0 s Q :
  good [] [] s0 s → (∀ r s', good [] [] s0 s' → Q r s') → wp (on_server_get_available id) Q s.
Proof.
  intros Hg HQ. unfold on_server_get_available. apply wp_bind, wp_gets.
  destruct (t_by_server s !! id) as [p|] eqn:Hid; [|by apply wp_ret, HQ].
  destruct (server_conn_of _ _ _ _ (g_inv _ _ _ _ Hg) Hid) as [c Hc].
  apply wp_bind, (wp_conn_at _ c); [done|]. apply wp_bind, wp_gets.
  destruct (locked (c_listener c) s) as [l|]; [|by apply wp_ret, HQ].
  apply wp_bind, wq_ask; [done|]. intros info. quietly. by apply wp_ret, HQ.
Qed.

Lemma wg_on_server_error u id code s0 s Q :
  good [] [] s0 s → (id = NON_ID → t_pins s = []) → (∀ p, t_by_server s !! id = Some p → p ∉ t_pins s) →
  (∀ s', good [] [] s0 s' → Q tt s') → wp (on_server_error rec u id code) Q s.
Proof.
  intros Hg Hnon Hpin HQ. unfold on_server_error.
  destruct (Z.eqb_spec id NON_ID) as [Hid|Hid]; [by eapply wg_close_client_side; auto|].
  apply wp_bind, wp_gets. destruct (t_by_server s !! id) as [p|] eqn:Hp.
  2:{ apply (wg_destroy [] [] s0); [done|done| |done]. intros q _ _ Hq. congruence. }
  specialize (Hpin p eq_refl). destruct (server_conn_of _ _ _ _ (g_inv _ _ _ _ Hg) Hp) as [c Hc].
  apply wp_bind, (wp_conn_at _ c); [done|].
  assert (wp (client ← by_client_id (c_client_id c);
    match client with
    | Some _ => _ ← remove_by_server (c_server_id c); close_client_side_connection rec p code false
    | None => tun_destroy_connection (c_client_id c) (c_server_id c)
    end) Q s) as Hclose.
  { apply wp_bind, wp_gets. destruct (t_by_client s !! c_client_id c) as [q|] eqn:Hq.
    - apply wp_bind, wp_modify. eapply (wg_close []); [by apply good_remove_server|done|done|done].
    - apply (wg_destroy [] [] s0); [done|congruence| |done]. intros q Hne _ Hq'.
      destruct (i_server _ _ (g_inv _ _ _ _ Hg) _ _ Hq') as (_ & d & Hd & ?).
      rewrite (i_uniq_server _ _ (g_inv _ _ _ _ Hg) q p d c); congruence. }
  destruct (c_state c); try done. clear Hclose. apply wp_bind, wp_gets, wp_bind.
  assert (∀ s1, good [] [] s0 s1 → is_Some (t_heap s1 !! p) →
    wp (c ← conn_at p; cu ← lock (c_upstream c);
        match cu with Some cu => call rec (UClose cu (c_server_id c) false true) | None => skip end) Q s1) as Hend.
  { intros s1 Hg1 [c1 Hc1]. apply wp_bind, (wp_conn_at _ c1); [done|]. apply wp_bind, wp_gets.
    destruct (locked _ s1); [|by apply wp_ret, HQ]. apply (wg_call [] _ s0); auto. }
  destruct (t_by_client s !! c_migrating_client_id c) as [q|] eqn:Hq; [|by apply wp_ret, Hend].
  destruct (i_client _ _ (g_inv _ _ _ _ Hg) _ _ Hq) as (_ & d & Hd & _).
  apply wp_bind, (wp_conn_at _ d); [done|]. apply (wg_pinned [] _ _ s0); [done|by exists c|done|]. intros. by apply Hend.
Qed.

Lemma wg_on_server_echo reply s0 s Q :
  good [] [] s0 s → is_Some (t_client_listener s) → (∀ s', good [] [] s0 s' → Q tt s') →
  wp (on_server_echo_reply reply) Q s.
Proof.
  intros Hg [l Hl] HQ. unfold on_server_echo_reply. apply wp_bind, wp_gets.
  assert (∃ st reply' m, register_reply t_ndebug reply (t_icmp s) = Ok (st, reply', m)
    ∧ request_timeout m = request_timeout (t_icmp s)) as (st & reply' & m & Hr & Hm).
  { unfold register_reply. rewrite release. destruct (m_requests _ !! _) as [[info|]|]; simpl; [|by repeat eexists..].
    destruct (find_try info reply) as [[n|] reply']; simpl; [unfold icmp_assert; rewrite orb_true_r; simpl|]; by repeat eexists. }
  apply wp_bind. unfold of_res. rewrite Hr. apply wp_ret, wp_bind, wp_modify.
  match goal with |- wp _ _ ?x => assert (quiet s x) as Hq by (split; try done; [by simpl; rewrite Hm|]; exists []; by rewrite app_nil_r);
    assert (t_client_listener x = Some l) as Hl' by done; remember x as s2 eqn:E2; clear E2 end.
  move_quiet Hq. destruct st; [|by apply wp_ret, HQ]. apply wp_bind, wp_gets. rewrite Hl'.
  apply wq_emit; [done|]. intros s3 Hq' _. move_quiet Hq'. by apply HQ.
Qed.

Lemma wg_on_session_opened u s0 s Q :
  good [] [] s0 s → (∀ s', good [] [] s0 s' → Q tt s') → wp (on_session_opened u) Q s.
Proof.
  intros Hg HQ. unfold on_session_opened. apply wp_bind, wp_gets. apply wq_when; [|auto]. intros _.
  apply wp_bind, wp_gets, wp_bind, (wq_assert release), wp_modify, HQ. eapply good_quiet; [done|].
  split; try done. exists []. by rewrite app_nil_r.
Qed.

(** ** Migration *)

Lemma wp_upd_raw p c f s (Q : unit → tunnel → Prop) :
  t_heap s !! p = Some c → Q tt (set_t_heap (<[p := f c]> (t_heap s)) s) → wp (upd p f) Q s.
Proof. intros Hp HQ. unfold upd. apply wp_bind, (wp_conn_at _ c); [done|]. by apply wp_modify. Qed.

(** The connection [p] takes the client of [q] over. *)
Record takes_over p q c d s s' : Prop := {
  to_new : t_heap s' !! p = Some
    (set_c_migrating_client_id NON_ID (set_c_state CONNS_CONNECTED (set_c_client_id (c_client_id d) c)));
  to_old : t_heap s' !! q = Some (set_c_client_id (c_client_id c) d);
  to_other r : r ≠ p → r ≠ q → t_heap s' !! r = t_heap s !! r;
  to_client : t_by_client s' = <[c_client_id d := p]> (t_by_client s);
  to_server : t_by_server s' = t_by_server s
    ∨ c_server_id c ≠ NON_ID ∧ t_by_server s' = <[c_server_id c := p]> (t_by_server s);
  to_rest : (t_next_ptr s', t_pins s', t_busy s', t_alive s', t_out s', t_icmp s', t_stats s', t_waiters s')
    = (t_next_ptr s, t_pins s, t_busy s, t_alive s, t_out s, t_icmp s, t_stats s, t_waiters s);
  to_fields : (t_resolver s', t_fake s', t_dns s', t_endpoint s', t_bypass s', t_client_listener s', t_dns_proxy s')
    = (t_resolver s, t_fake s, t_dns s, t_endpoint s, t_bypass s, t_client_listener s, t_dns_proxy s);
}.

Lemma conn_ok_takes tr c d :
  conn_ok tr c → conn_ok tr d → c_state c = CONNS_WAITING_RESPONSE_MIGRATING →
  conn_ok tr (set_c_migrating_client_id NON_ID (set_c_state CONNS_CONNECTED (set_c_client_id (c_client_id d) c))).
Proof.
  intros [] [] Hst. destruct (ck_migrating Hst) as (_ & _ & Hf). split; simpl; try done.
  intros Ht. change (test CONNF_FORCIBLY_BYPASSED c = true) in Ht. congruence.
Qed.

Lemma conn_ok_leaves tr d : conn_ok tr d → c_state d ≠ CONNS_WAITING_RESPONSE_MIGRATING →
  conn_ok tr (set_c_client_id NON_ID d).
Proof. intros [] Hst. split; simpl; done. Qed.

Lemma good_takes_over p q c d s0 s s' :
  good [] [] s0 s → t_heap s !! p = Some c → t_heap s !! q = Some d →
  c_state c = CONNS_WAITING_RESPONSE_MIGRATING → c_client_id d = c_migrating_client_id c →
  t_by_client s !! c_client_id d = Some q → c_client_id d ∉ (t_busy s).*1 →
  takes_over p q c d s s' → good [] [] s0 s'.
Proof.
  intros [Hi Hf Hr] Hp Hq Hst Hmig Hcl Hnb [N1 N2 N3 N4 N5 N6 N7].
  injection N6 as E1 E2 E3 E4 E5 E6 E7 E8. injection N7 as G1 G2 G3 G4 G5 G6 G7.
  destruct (i_client _ _ Hi _ _ Hcl) as (Hne & d' & ? & _). simplify_eq.
  pose proof (proj2 (i_conn _ _ Hi _ _ Hp)) as Hcok. pose proof (proj2 (i_conn _ _ Hi _ _ Hq)) as Hdok.
  destruct (ck_migrating _ _ Hcok Hst) as (Hcn & Hcm & _).
  assert (p ≠ q) as Hpq by congruence.
  assert (c_state d ≠ CONNS_WAITING_RESPONSE_MIGRATING) as Hdst.
  { intros H. by destruct (ck_migrating _ _ Hdok H). }
  rewrite Hcn in N2.
  (* every other connection is as it was *)
  assert (∀ r x, t_heap s' !! r = Some x → r = p ∧ x = set_c_migrating_client_id NON_ID
      (set_c_state CONNS_CONNECTED (set_c_client_id (c_client_id d) c))
    ∨ r = q ∧ x = set_c_client_id NON_ID d ∨ r ≠ p ∧ r ≠ q ∧ t_heap s !! r = Some x) as Hcases.
  { intros r x Hx. destruct (decide (r = p)) as [->|]; [left; split; congruence|].
    destruct (decide (r = q)) as [->|]; [right; left; split; congruence|]. right; right. by rewrite <- N3. }
  assert (∀ id r, (id, r) ∈ t_busy s → r ≠ p ∧ r ≠ q) as Hbusy.
  { intros id r Hb. destruct (i_busy _ _ Hi _ _ Hb) as (_ & x & Hx & ? & ? & ?). split; intros ->; [congruence|].
    apply Hnb. apply list_elem_of_fmap. exists (id, q). simpl. split; [congruence|done]. }
  split.
  - split; rewrite ?E1, ?E2, ?E3, ?E5, ?E6.
    + rewrite N4. intros id r. rewrite lookup_insert_Some. intros [[<- <-]|[Hid Hx]].
      { split; [done|]. by eexists. }
      destruct (i_client _ _ Hi _ _ Hx) as (? & x & Hx' & ?). split; [done|]. exists x.
      rewrite N3; [done|intros ->; congruence|intros ->; congruence].
    + assert (∀ id r, t_by_server s !! id = Some r → id ≠ NON_ID ∧ ∃ x, t_heap s' !! r = Some x ∧ c_server_id x = id) as Hold.
      { intros id r Hx. destruct (i_server _ _ Hi _ _ Hx) as (? & x & Hx' & ?). split; [done|].
        destruct (decide (r = p)) as [->|]; [eexists; split; [done|]; simpl; congruence|].
        destruct (decide (r = q)) as [->|]; [eexists; split; [done|]; simpl; congruence|].
        exists x. by rewrite N3. }
      destruct N5 as [->|[Hsn ->]]; [done|]. intros id r. rewrite lookup_insert_Some. intros [[<- <-]|[? ?]]; [|by apply Hold].
      split; [done|]. by eexists.
    + intros r x Hx. destruct (Hcases r x Hx) as [[-> ->]|[[-> ->]|(_ & _ & Hx')]].
      * split; [by eapply i_conn|]. by apply conn_ok_takes.
      * split; [by eapply i_conn|]. by apply conn_ok_leaves.
      * by eapply i_conn.
    + intros r r' x x' Hx Hx' Heq Hxne.
      destruct (Hcases r x Hx) as [[-> ->]|[[-> ->]|(? & ? & Hy)]];
      destruct (Hcases r' x' Hx') as [[-> ->]|[[-> ->]|(? & ? & Hy')]]; simpl in *; try done; try congruence.
      * destruct (i_uniq _ _ Hi q r' d x'); done.
      * destruct (i_uniq _ _ Hi r q x d); done.
      * by eapply i_uniq.
    + intros r r' x x' Hx Hx' Heq Hxne.
      destruct (Hcases r x Hx) as [[-> ->]|[[-> ->]|(? & ? & Hy)]];
      destruct (Hcases r' x' Hx') as [[-> ->]|[[-> ->]|(? & ? & Hy')]]; simpl in *; try done; by eapply i_uniq_server.
    + intros r Hr'. destruct (i_pins _ _ Hi _ Hr') as [x Hx].
      destruct (decide (r = p)) as [->|]; [by eexists|]. destruct (decide (r = q)) as [->|]; [by eexists|].
      exists x. by rewrite N3.
    + intros id r Hb. destruct (i_busy _ _ Hi _ _ Hb) as (? & x & Hx & ?). split; [done|]. exists x.
      destruct (Hbusy id r Hb). by rewrite N3.
    + apply Hi.
    + rewrite N4. intros id r x. rewrite lookup_insert_Some. intros [[<- <-]|[Hid Hx]] Hx' Hidb HX.
      { intros _ Hm. congruence. }
      destruct (i_client _ _ Hi _ _ Hx) as (? & y & Hy & ?).
      rewrite N3 in Hx' by (intros ->; congruence). by eapply i_stream.
    + intros id. apply Hi.
    + rewrite E8. intros rid id Hw. destruct (i_wait _ _ Hi _ _ Hw) as (? & ? & ? & Hwc). split_and!; try done.
      intros r x Hx Hxid. destruct (Hcases r x Hx) as [[-> ->]|[[-> ->]|(_ & _ & Hx')]]; [by split|by simpl in Hxid|].
      by eapply Hwc.
    + unfold ready. rewrite G1, G2, G3, E7. apply Hi.
    + rewrite G2, G3, G4, G5. apply Hi.
  - destruct Hf. split; rewrite ?E1, ?E2, ?E3, ?E4, ?E5; try done.
    + congruence.
    + unfold ready in *. by rewrite G1, G2, G3, E7.
    + intros id r x Hb Hx. destruct (f_busy_conn id r x Hb Hx) as (x' & Hx' & ?). exists x'.
      simpl in f_busy. rewrite <- f_busy in Hb. destruct (Hbusy id r Hb). by rewrite N3.
  - unfold ready in *. by rewrite G1, G2, G3, E7.
Qed.

Lemma wg_add_connection p c s (Q : unit → tunnel → Prop) :
  t_heap s !! p = Some c →
  (∀ s', s' = set_t_by_server (if c_server_id c =? NON_ID then t_by_server s else <[c_server_id c := p]> (t_by_server s))
          (set_t_by_client (if c_client_id c =? NON_ID then t_by_client s else <[c_client_id c := p]> (t_by_client s)) s) →
    Q tt s') →
  wp (add_connection p) Q s.
Proof.
  intros Hp HQ. unfold add_connection. apply wp_bind, (wp_conn_at _ c); [done|].
  apply wp_bind, (wq_assert release), wp_bind.
  destruct (c_client_id c =? NON_ID); simpl; [apply wp_ret|apply wp_modify];
    destruct (c_server_id c =? NON_ID); simpl; [apply wp_ret|apply wp_modify|apply wp_ret|apply wp_modify];
    apply HQ; try done; by destruct s.
Qed.

Lemma wg_finish_migration p q c u l s0 s Q :
  good [] [] s0 s → t_heap s !! p = Some c → c_state c = CONNS_WAITING_RESPONSE_MIGRATING →
  t_by_client s !! c_migrating_client_id c = Some q → c_migrating_client_id c ∉ (t_busy s).*1 →
  (∀ s', good [] [] s0 s' → Q tt s') → wp (finish_migration rec p q u l) Q s.
Proof.
  intros Hg Hp Hst Hq Hnb HQ. pose proof (g_inv _ _ _ _ Hg) as Hi.
  destruct (i_client _ _ Hi _ _ Hq) as (Hne & d & Hd & Hmig).
  destruct (ck_migrating _ _ (proj2 (i_conn _ _ Hi _ _ Hp)) Hst) as (Hcn & Hcm & _).
  assert (p ≠ q) as Hpq by congruence.
  unfold finish_migration. apply wp_bind, (wp_conn_at _ c); [done|]. apply wp_bind, (wp_conn_at _ d); [done|].
  apply wp_bind, (wp_upd_raw _ c); [done|].
  apply wp_bind, (wp_upd_raw _ d); [simpl; by rewrite lookup_insert_ne|].
  apply wp_bind. eapply wp_upd_raw; [simpl; rewrite lookup_insert_ne, lookup_insert_eq by done; done|].
  apply wp_bind. eapply wp_upd_raw; [simpl; rewrite lookup_insert_eq by done; done|].
  apply wp_bind. eapply wg_add_connection; [simpl; rewrite lookup_insert_eq by done; done|].
  simpl. rewrite (proj2 (Z.eqb_neq (c_client_id d) _)) by congruence. intros s1 Hs1.
  assert (takes_over p q c d s s1) as Ht.
  { subst s1. split; simpl; try done.
    - by rewrite lookup_insert_eq.
    - by rewrite !lookup_insert_ne, lookup_insert_eq by done.
    - intros r ??. by rewrite !lookup_insert_ne by done.
    - destruct (Z.eqb_spec (c_server_id c) NON_ID); [by left|]. by right. }
  assert (∀ id, (id, p) ∉ t_busy s0 ∧ (id, q) ∉ t_busy s0) as Hnbusy.
  { pose proof (f_busy _ _ _ (g_frame _ _ _ _ Hg)) as Eb. simpl in Eb. rewrite <- Eb. intros id. split; intros Hb;
      destruct (i_busy _ _ Hi _ _ Hb) as (_ & x & Hx & ? & ? & ?); [congruence|].
    apply Hnb. apply list_elem_of_fmap. exists (id, q). simpl. split; [congruence|done]. }
  assert (migrated (c_client_id d) (t_out s1) = true) as Hm1 by (subst s1; simpl; by rewrite Hmig).
  assert (good [] [] s0 s1) as Hg1 by (apply (good_takes_over p q c d s0 s s1); rewrite ?Hmig; done).
  destruct Ht as [Hp1 Hq1 _ _ _ _ _]. clear Hs1 Hg.
  apply wp_bind. eapply wp_mono with (P := λ _ s', good [] [] s0 s' ∧ is_Some (t_heap s' !! p) ∧ is_Some (t_heap s' !! q)).
  { apply wq_when; [|intros; split_and!; [done|by eexists|by eexists]]. intros Hudp. apply Z.eqb_eq in Hudp.
    apply wp_bind. eapply wp_conn_at; [done|]. apply wp_bind. eapply wp_conn_at; [done|].
    apply wp_bind. eapply wg_upd; [done|done|by split|by apply conn_ok_same|right; split; [|apply Hnbusy]|].
    { right; right; left. simpl. by rewrite Hudp. }
    intros s2 Hg2 Ht2. assert (t_heap s2 !! q = Some (set_c_client_id (c_client_id c) d)) as Hq2
      by (rewrite (th_heap _ _ _ _ Ht2); by rewrite lookup_insert_ne).
    eapply wg_upd; [done|done|by split|by apply conn_ok_same|right; split; [|apply Hnbusy]|].
    { do 4 right. done. }
    intros s3 Hg3 Ht3. rewrite (th_heap _ _ _ _ Ht3), (th_heap _ _ _ _ Ht2), lookup_insert_eq, lookup_insert_ne, lookup_insert_eq by done.
    split_and!; [done|by eexists|by eexists]. }
  intros _ s2 (Hg2 & [c2 Hc2] & [d2 Hd2]). apply wp_bind, (wp_conn_at _ d2); [done|]. apply wp_bind, wp_gets.
  assert (∀ s3, good [] [] s0 s3 → is_Some (t_heap s3 !! p) →
    wp (c ← conn_at p;
        if negb (bool_decide (c_buffered c = [])) then schedule_send_buffered_data p
        else _ ← emit (LTurnRead l (c_client_id c) true);
             info ← ask (LFlowInfo l (c_client_id c)) answer_flow; emit (UFlow u (c_server_id c) info)) Q s3) as Hend.
  { intros s3 Hg3 [c3 Hc3]. apply wp_bind, (wp_conn_at _ c3); [done|]. destruct (negb _); [by eapply wg_schedule|].
    apply wp_bind, wq_emit; [done|]. intros s4 Hq4 _. move_quiet Hq4. apply wp_bind, wq_ask; [done|]. intros info. quietly.
    apply wq_emit; [done|]. intros s6 Hq6 _. move_quiet Hq6. by apply HQ. }
  apply wp_bind. destruct (locked _ s2) as [old|]; [|by apply wp_ret, Hend].
  apply (wg_pinned [] _ _ s0); [done|by eexists|done|]. intros. by apply Hend.
Qed.

Lemma wg_on_server_opened u id s0 s Q :
  good [] [] s0 s →
  (∀ p c, t_by_server s !! id = Some p → t_heap s !! p = Some c → c_state c = CONNS_WAITING_RESPONSE_MIGRATING →
     c_migrating_client_id c ∉ (t_busy s).*1) →
  (∀ s', good [] [] s0 s' → Q tt s') → wp (on_server_opened rec u id) Q s.
Proof.
  intros Hg Hmig HQ. unfold on_server_opened. apply wp_bind, wp_gets.
  assert (wp (call rec (UClose u id false true)) Q s) as Hc0 by (apply (wg_call [] _ s0); auto).
  assert (wp (_ ← call rec (UClose u id false true); tun_assert false) Q s) as Herr.
  { apply wp_bind, (wg_call [] _ s0); [done|done|]. intros. by apply (wq_assert release), HQ. }
  assert (wp (_ ← tun_assert false; call rec (UClose u id false true)) Q s) as Herr' by by apply wp_bind, (wq_assert release).
  destruct (t_by_server s !! id) as [p|] eqn:Hid; [|done].
  destruct (server_conn_of _ _ _ _ (g_inv _ _ _ _ Hg) Hid) as [c Hc].
  apply wp_bind, (wp_conn_at _ c); [done|]. apply wp_bind, wp_gets, wp_bind, wp_gets.
  destruct (negb _); [done|]. destruct (locked (c_listener c) s) as [l|]; [|done].
  destruct (c_state c) eqn:Hst; try done; clear Herr Herr' Hc0.
  - apply wp_bind. eapply wg_report; [done|done|]. intros s1 c1 Hg1 Hc1 Hal _.
    apply wp_bind. eapply wg_upd; [done|done|by split|by apply conn_ok_settled|by left|]. intros s2 Hg2 _.
    apply (wg_call [] _ s0); auto.
  - apply wp_bind, wp_gets. destruct (t_by_client s !! c_migrating_client_id c) as [q|] eqn:Hq.
    + eapply wg_finish_migration; eauto.
    + apply (wg_call [] _ s0); auto.
Qed.


(** ** Opening *)

(** Entries that move no data. *)
Definition streamless (o : TunOut A) : bool :=
  match o with USent _ _ | Returned (ClientRead _ _ _) _ => false | _ => true end.

Lemma streamless_streams id o : streamless o = true → sent_by id [o] = [] ∧ taken_from id [o] = [].
Proof. destruct o; try done. by destruct e. Qed.

Lemma good_emit B X s0 s o :
  good B X s0 s → streamless o = true →
  (∀ u id src dst proto app, o = UOpen u id src dst proto app → class_of u = DirectUpstream →
     bypass_justified (t_out s) id dst) →
  good B X s0 (set_t_out (t_out s ++ [o]) s).
Proof.
  intros [[] Hf Hr] Ho Hopen.
  assert (∀ id, sent_by id (t_out s ++ [o]) = sent_by id (t_out s) ∧ taken_from id (t_out s ++ [o]) = taken_from id (t_out s)) as Hst.
  { intros id. rewrite sent_by_app, taken_from_app. destruct (streamless_streams id o Ho) as [-> ->]. by rewrite !app_nil_r. }
  split; [|eapply frame_trans; [done|]|done].
  - split; simpl; try done.
    + intros p c Hc. destruct (i_conn p c Hc). split; [done|]. by apply conn_ok_app.
    + by apply opens_justified_snoc.
    + intros id p c ? ? ? ? Ht Hm. rewrite migrated_app, orb_false_iff in Hm. destruct Hm as [Hm _].
      destruct (Hst id) as [-> ->]. by eapply i_stream.
    + intros id Hid. rewrite requested_app, orb_false_iff in Hid. destruct Hid as [Hid _]. destruct (Hst id) as [-> ->]. by apply i_fresh.
    + intros rid id Hw. destruct (i_wait rid id Hw) as (? & Hrq & ?). by rewrite requested_app, Hrq.
  - split; simpl; try done; [by eexists|]. intros id p c _ Hc. exists c. by destruct (Hst id) as [-> ->].
Qed.

Lemma wg_upstream_open B X s0 s u c app Q :
  good B X s0 s → (class_of u = DirectUpstream → bypass_justified (t_out s) (c_client_id c) (c_dst c)) →
  (∀ id s', good B X s0 s' → t_heap s' = t_heap s → same s s' →
     id = NON_ID ∨ (∀ q d, t_heap s !! q = Some d → c_server_id d ≠ id) → Q id s') →
  wp (upstream_open u c app) Q s.
Proof.
  intros Hg Hj HQ. unfold upstream_open, ask, emit. apply wp_bind, wp_bind, wp_modify, wp_gets.
  match goal with |- wp _ _ ?x => assert (good B X s0 x) as Hg' end.
  { apply good_emit; [done|done|]. intros ?????? [= <- <- <- <- <- <-]. done. }
  assert (∀ o, same s (set_t_out (t_out s ++ [o]) s)) as Hs by (intros o; split; try done; by eexists).
  destruct (Z.eqb_spec (answer (t_out (set_t_out (t_out s ++ [UOpen u (c_client_id c) (c_src c) (c_dst c) (c_proto c) app]) s))) NON_ID) as [E|E].
  { apply wp_ret, HQ; auto. }
  apply wp_bind, wp_gets. case_bool_decide as Hfresh; [|apply wp_env_fault].
  apply wp_ret, HQ; auto.
Qed.

Lemma good_opened s0 s p c id s' :
  good [] [] s0 s → t_heap s !! p = Some c → c_server_id c = NON_ID →
  c_state c ≠ CONNS_WAITING_RESPONSE_MIGRATING →
  id ≠ NON_ID → (∀ q d, t_heap s !! q = Some d → c_server_id d ≠ id) →
  t_heap s' = <[p := set_c_state CONNS_WAITING_RESPONSE (set_c_server_id id c)]> (t_heap s) →
  t_by_client s' = t_by_client s → t_by_server s' = <[id := p]> (t_by_server s) →
  (t_next_ptr s', t_pins s', t_busy s', t_alive s', t_out s', t_icmp s', t_stats s', t_waiters s')
    = (t_next_ptr s, t_pins s, t_busy s, t_alive s, t_out s, t_icmp s, t_stats s, t_waiters s) →
  (t_resolver s', t_fake s', t_dns s', t_endpoint s', t_bypass s', t_client_listener s', t_dns_proxy s')
    = (t_resolver s, t_fake s, t_dns s, t_endpoint s, t_bypass s, t_client_listener s, t_dns_proxy s) →
  good [] [] s0 s'.
Proof.
  intros [Hi Hf Hr] Hp Hsn Hst Hid Hfresh Eh Ec Es [= E1 E2 E3 E4 E5 E6 E7 E8] [= G1 G2 G3 G4 G5 G6 G7].
  set (c' := set_c_state CONNS_WAITING_RESPONSE (set_c_server_id id c)) in *.
  assert (∀ r x, t_heap s' !! r = Some x → r = p ∧ x = c' ∨ r ≠ p ∧ t_heap s !! r = Some x) as Hcases.
  { intros r x. rewrite Eh, lookup_insert_Some. naive_solver. }
  assert (∀ r x, t_heap s !! r = Some x → ∃ x', t_heap s' !! r = Some x' ∧ c_client_id x' = c_client_id x
    ∧ c_buffered x' = c_buffered x ∧ c_proto x' = c_proto x ∧ (c_server_id x ≠ NON_ID → c_server_id x' = c_server_id x)
    ∧ (c_state x' = CONNS_WAITING_RESPONSE_MIGRATING → c_state x = CONNS_WAITING_RESPONSE_MIGRATING)) as Hup.
  { intros r x Hx. rewrite Eh. destruct (decide (r = p)) as [->|]; [rewrite lookup_insert_eq|rewrite lookup_insert_ne by done; by exists x].
    exists c'. simplify_eq. by split_and!. }
  split.
  - split; rewrite ?E1, ?E2, ?E3, ?E5, ?E6, ?Ec, ?Es.
    + intros i r Hx. destruct (i_client _ _ Hi _ _ Hx) as (? & x & Hx' & ?). split; [done|].
      destruct (Hup _ _ Hx') as (x' & ? & ? & _). exists x'. split; congruence.
    + intros i r. rewrite lookup_insert_Some. intros [[<- <-]|[? Hx]].
      { split; [done|]. exists c'. by rewrite Eh, lookup_insert_eq. }
      destruct (i_server _ _ Hi _ _ Hx) as (? & x & Hx' & ?). split; [done|].
      destruct (Hup _ _ Hx') as (x' & ? & ? & ? & ? & Hsx & _). exists x'. split; [done|]. rewrite Hsx; congruence.
    + intros r x Hx. destruct (Hcases r x Hx) as [[-> ->]|[_ Hx']]; [|by eapply i_conn].
      destruct (i_conn _ _ Hi _ _ Hp) as [? []]. split; [done|]. split; simpl; done.
    + intros r r' x x' Hx Hx' Heq. destruct (Hcases r x Hx) as [[-> ->]|[? Hy]];
      destruct (Hcases r' x' Hx') as [[-> ->]|[? Hy']]; intros; [done|by eapply (i_uniq _ _ Hi)..].
    + intros r r' x x' Hx Hx' Heq. destruct (Hcases r x Hx) as [[-> ->]|[? Hy]];
      destruct (Hcases r' x' Hx') as [[-> ->]|[? Hy']]; simpl in *; intros; try done.
      * by destruct (Hfresh _ _ Hy').
      * by destruct (Hfresh _ _ Hy).
      * by eapply (i_uniq_server _ _ Hi).
    + intros r Hr'. destruct (i_pins _ _ Hi _ Hr') as [x Hx]. destruct (Hup _ _ Hx) as (x' & ? & _). by exists x'.
    + intros i r Hb. destruct (i_busy _ _ Hi _ _ Hb) as (? & x & Hx & ? & ? & ?). split; [done|].
      destruct (Hup _ _ Hx) as (x' & ? & ? & ? & ? & ? & Hst'). exists x'. split_and!; [done|congruence|done|auto].
    + apply Hi.
    + intros i r x Hx Hx' ??. destruct (Hcases r x Hx') as [[-> ->]|[_ Hy]]; [|by eapply i_stream].
      intros ??. by eapply (i_stream _ _ Hi i p c).
    + intros i. apply Hi.
    + rewrite E8. intros rid i Hw. destruct (i_wait _ _ Hi _ _ Hw) as (? & ? & ? & Hwc). split_and!; try done.
      intros r x Hx Hxid. destruct (Hcases r x Hx) as [[-> ->]|[_ Hx']]; [by split|by eapply Hwc].
    + unfold ready. rewrite G1, G2, G3, E7. apply Hi.
    + rewrite G2, G3, G4, G5. apply Hi.
  - destruct Hf. split; rewrite ?E1, ?E2, ?E3, ?E4, ?E5; try done.
    + congruence.
    + unfold ready in *. by rewrite G1, G2, G3, E7.
    + intros i r x Hb Hx. destruct (f_busy_conn i r x Hb Hx) as (x' & Hx' & ? & ? & ? & ?).
      destruct (Hup _ _ Hx') as (x'' & ? & ? & ? & ? & _). exists x''. split_and!; congruence.
  - unfold ready in *. by rewrite G1, G2, G3, E7.
Qed.

Lemma wg_connection_opened p c upstream async notify s0 s Q :
  good [] [] s0 s → t_heap s !! p = Some c → c_server_id c = NON_ID → waiting_open (c_state c) = true →
  t_by_client s !! c_client_id c = Some p → p ∉ t_pins s →
  (∀ u, upstream = Some u → class_of u = DirectUpstream → bypass_justified (t_out s) (c_client_id c) (c_dst c)) →
  (∀ s', good [] [] s0 s' → Q tt s') →
  wp (_ ← open_on p upstream; connection_opened rec p upstream async notify) Q s.
Proof.
  intros Hg Hp Hsn Hst Hcl Hpin Hj HQ.
  assert (∀ s1, good [] [] s0 s1 → t_heap s1 !! p = Some c → p ∉ t_pins s1 →
    wp (connection_opened rec p upstream async notify) Q s1) as Hclose.
  { intros s1 Hg1 Hp1 Hpin1. unfold connection_opened. apply wp_bind, (wp_conn_at _ c); [done|].
    rewrite Hsn. simpl. eapply wg_close; [done|done|done|done]. }
  apply wp_bind. destruct upstream as [u|]; simpl; [|by apply wp_ret, Hclose].
  apply wp_bind, (wp_conn_at _ c); [done|]. apply wp_bind. eapply wg_upstream_open; [done|by apply (Hj u)|].
  intros id s1 Hg1 Eh Hs1 Hid. rewrite <- Eh in Hp. move_same Hs1.
  destruct (decide (id = NON_ID)) as [->|Hne].
  { eapply wg_upd_minor; [done|done|by simpl; rewrite Hsn|done|done|done|]. intros s2 Hg2 Ht.
    apply Hclose; [done| |by rewrite (sm_pins _ _ (th_same _ _ _ _ Ht))].
    rewrite (th_heap _ _ _ _ Ht), lookup_insert_eq. rewrite <- Hsn. by destruct c. }
  destruct Hid as [?|Hid]; [done|]. rewrite <- Eh in Hid.
  eapply wp_upd_raw; [done|]. unfold connection_opened.
  apply wp_bind. eapply wp_conn_at; [apply lookup_insert_eq|]. simpl. rewrite (proj2 (Z.eqb_neq _ _) Hne). simpl.
  apply wp_bind. eapply wp_upd_raw; [apply lookup_insert_eq|].
  apply wp_bind. eapply wg_add_connection; [apply lookup_insert_eq|]. simpl. intros s2 Hs2.
  destruct (i_client _ _ (g_inv _ _ _ _ Hg1) _ _ Hcl) as (Hcn & _).
  rewrite (proj2 (Z.eqb_neq _ _) Hcn), (proj2 (Z.eqb_neq _ _) Hne) in Hs2.
  assert (good [] [] s0 s2) as Hg2.
  { eapply (good_opened s0 s1 p c id); [done|done|done|by intros E; rewrite E in Hst|done|done|..]; subst s2; simpl; try done.
    - by rewrite insert_insert_eq.
    - by rewrite insert_id. }
  clear Hg1 Hs2. apply wp_bind, wq_when_quiet.
  { intros Q' HQ'. apply wp_bind, wp_gets, wp_bind, wp_gets, wq_when_quiet; [|done].
    intros. apply wq_on_dns_handler; [apply Hg2|done|done]. }
  quietly. apply wq_do_health_check. quietly. by apply HQ.
Qed.

(** ** Resolved names *)

Lemma wq_action_for a app s Q :
  (∀ act s', quiet s s' → (act = VPN_CA_FORCE_BYPASS → ∀ id, bypass_justified (t_out s') id (ToAddress a)) → Q act s') →
  wp (action_for (mkTag a app)) Q s.
Proof.
  intros HQ. unfold action_for. apply wp_bind, wq_filter_match_tag. intros r s1 Hq Hm.
  destruct (status r) eqn:Hst; [by apply wp_ret, HQ| |by apply wp_ret, HQ|].
  - apply wq_excluded_action. intros act s2 Hq' _. apply HQ; [by etrans|]. intros _ id. right; left.
    exists a, app. split; [done|]. by eapply quiet_elem.
  - apply wq_default_action. intros act s2 Hq' Hsel _. apply HQ; [by etrans|]. intros Hb id. right; right. auto.
Qed.

Lemma wq_select_resolved X p c name dst_port addresses s Q :
  inv X s → t_heap s !! p = Some c → c_dst c = ToName name dst_port →
  (∀ a, a ∈ addresses → is_Some (ip_version (set_port dst_port a))) →
  (∀ r s', quiet s s' → Q r s') → wp (select_resolved_destination_address p addresses) Q s.
Proof.
  intros Hi Hp Hd. revert s Hi Hp. induction addresses as [|a addresses IH]; intros s Hi Hp Hv HQ; simpl; [by apply wp_ret, HQ|].
  assert (∀ s1, quiet s s1 → wp (select_resolved_destination_address p addresses) Q s1) as Hnext.
  { intros s1 Hq. apply IH; [by eapply quiet_inv|by rewrite (q_heap _ _ Hq)|set_solver|]. intros. apply HQ. by etrans. }
  apply wp_bind, (wp_conn_at _ c); [done|]. rewrite Hd. apply wp_bind.
  eapply wp_mono with (P := λ _ s', quiet s s').
  { destruct (_ && _); [by apply wq_action_for|]. by apply wp_ret. }
  intros act s1 Hq. apply wp_bind, (wq_select_plain release X); [by eapply quiet_inv|].
  intros u s2 Hq2 _. assert (quiet s s2) as Hq02 by by etrans.
  destruct u as [u|]; [|by apply Hnext]. destruct (Hv a) as [v ->]; [set_solver|].
  apply wp_bind, wp_gets. destruct (ip_available _ _ _); [by apply wp_ret, HQ|by apply Hnext].
Qed.

Lemma no_waiter_quiet s s' id : quiet s s' → no_waiter s id → no_waiter s' id.
Proof. intros Hq Hn rid Hw. eapply Hn, lookup_weaken; [done|]. apply Hq. Qed.

Lemma wg_connect_to_resolved p c name dst_port address s0 s Q :
  good [] [] s0 s → t_heap s !! p = Some c → c_state c = CONNS_WAITING_RESOLVE → c_dst c = ToName name dst_port →
  t_by_client s !! c_client_id c = Some p → p ∉ t_pins s → no_waiter s (c_client_id c) →
  (∀ s', good [] [] s0 s' → Q tt s') → wp (connect_to_resolved rec p address) Q s.
Proof.
  intros Hg Hp Hst Hd Hcl Hpin Hnw HQ. unfold connect_to_resolved. apply wp_bind, (wp_conn_at _ c); [done|]. rewrite Hd.
  pose proof (proj2 (i_conn _ _ (g_inv _ _ _ _ Hg) _ _ Hp)) as Hok.
  destruct (i_client _ _ (g_inv _ _ _ _ Hg) _ _ Hcl) as (Hne & _).
  apply wp_bind. eapply wp_mono with (P := λ act s', quiet s s' ∧
    (act = VPN_CA_FORCE_BYPASS → bypass_justified (t_out s') (c_client_id c) (ToAddress (set_port dst_port address)))).
  { destruct (test CONNF_FORCIBLY_BYPASSED c) eqn:Hf; [apply wp_ret; split; [done|]; intros _; left; by apply (ck_forced _ _ Hok)|].
    destruct (test CONNF_FORCIBLY_REDIRECTED c); [by apply wp_ret|]. apply wq_action_for. auto. }
  intros act s1 [Hq Hj]. apply (no_waiter_quiet _ _ _ Hq) in Hnw. move_quiet Hq.
  apply wp_bind, (wq_select_plain release []); [apply Hg|]. intros u s2 Hq2 Hdir.
  assert (∀ x, u = Some x → class_of x = DirectUpstream →
    bypass_justified (t_out s2) (c_client_id c) (ToAddress (set_port dst_port address))) as Hju.
  { intros x Hx Hcx. destruct (Hdir x Hx Hcx) as [Ha|Ha]; [|by right; right].
    destruct (q_trace _ _ Hq2) as (tr & -> & _). by apply bypass_justified_app, Hj. }
  apply (no_waiter_quiet _ _ _ Hq2) in Hnw. move_quiet Hq2. clear Hq2 Hq.
  apply wp_bind, (wp_upd_raw _ c); [done|].
  eapply wg_connection_opened; [|simpl; apply lookup_insert_eq|..]; simpl; try done.
  - apply good_touch with c; [done|done|by split|by right| |by left].
    destruct Hok as [K1 K2 K3 K4 K5 K6]. pose proof (proj2 (i_conn _ _ (g_inv _ _ _ _ Hg) _ _ Hp)) as [].
    split; simpl; try done. intros _. by eexists.
  - apply Hok. by rewrite Hst.
  - by rewrite Hst.
Qed.

Lemma wg_on_resolve_result rid result s0 s Q :
  good [] [] s0 s →
  (∀ id p c, t_waiters s !! rid = Some id → t_by_client s !! id = Some p → t_heap s !! p = Some c →
     p ∉ t_pins s ∧ ∀ a, a ∈ default [] result → is_Some (ip_version (set_port (dstport c) a))) →
  (∀ s', good [] [] s0 s' → Q tt s') → wp (on_destination_resolve_result rec rid result) Q s.
Proof.
  intros Hg Hpre HQ. unfold on_destination_resolve_result. apply wp_bind, wp_gets.
  assert (∀ s1, quiet s1 (set_t_waiters (delete rid (t_waiters s1)) s1)) as Herase.
  { intros s1. split; try done; [by apply delete_subseteq|]. exists []. by rewrite app_nil_r. }
  destruct (t_waiters s !! rid) as [id|] eqn:Hw.
  2:{ apply wq_on_resolver; [apply Hg|done|]. quietly. by apply HQ. }
  apply wp_bind, wp_gets. destruct (t_by_client s !! id) as [p|] eqn:Hid.
  2:{ apply wp_bind, wq_on_resolver; [apply Hg|done|]. quietly. apply wp_modify, HQ. by eapply good_quiet. }
  destruct (i_client _ _ (g_inv _ _ _ _ Hg) _ _ Hid) as (Hne & c & Hc & Hcid).
  destruct (Hpre id p c eq_refl Hid Hc) as [Hpin Hv]. clear Hpre.
  destruct (i_wait _ _ (g_inv _ _ _ _ Hg) _ _ Hw) as (_ & _ & Hu & Hwc). destruct (Hwc p c Hc Hcid) as [_ Hname].
  apply wp_bind, (wp_conn_at _ c); [done|].
  assert (∀ err s1, good [] [] s0 s1 → t_heap s1 !! p = Some c → p ∉ t_pins s1 →
    wp (close_client_side_connection rec p err false) Q s1) as Hclose.
  { intros err s1 Hg1 Hc1 Hp1. by eapply wg_close. }
  assert (∀ s1, quiet s s1 → ∃ s2, s2 = set_t_waiters (delete rid (t_waiters s1)) s1 ∧ quiet s s2 ∧ no_waiter s2 id) as Hdel.
  { intros s1 Hq. eexists. split; [done|]. split; [by etrans|]. intros rid' Hw'. simpl in Hw'.
    apply lookup_delete_Some in Hw' as [Hne' Hw']. apply Hne'. symmetry. apply Hu. eapply lookup_weaken; [done|apply Hq]. }
  case_bool_decide as Hst; simpl.
  2:{ apply wp_bind, wq_on_resolver; [apply Hg|done|]. intros s1 Hq. apply wp_bind, wp_modify.
      destruct (Hdel s1 Hq) as (s2 & <- & Hq2 & _). clear Hq. move_quiet Hq2. by apply Hclose. }
  destruct (Hname Hst) as (name & dst_port & Hd).
  destruct result as [addresses|].
  2:{ apply wp_bind, wp_modify. destruct (Hdel s) as (s2 & <- & Hq2 & _); [done|]. move_quiet Hq2. by apply Hclose. }
  apply wp_bind, wq_on_resolver; [apply Hg|done|]. intros s1 Hq. apply wp_bind, wp_modify.
  destruct (Hdel s1 Hq) as (s2 & <- & Hq2 & Hnw). clear Hq Hdel Hu Hwc. move_quiet Hq2. clear Hq2.
  apply wp_bind. eapply (wq_select_resolved []); [apply Hg|done|done|unfold dstport in Hv; by rewrite Hd in Hv|].
  intros r s3 Hq3. apply (no_waiter_quiet _ _ _ Hq3) in Hnw. move_quiet Hq3.
  destruct r as [address|]; [|by apply Hclose].
  eapply wg_connect_to_resolved; rewrite ?Hcid; done.
Qed.

(** ** Requests *)

Lemma wq_need_resolve p c a s Q :
  t_heap s !! p = Some c → (∀ b s', quiet s s' → (b = true → ∃ name port, c_dst c = ToName name port) → Q b s') →
  wp (need_resolve_hostname a p) Q s.
Proof.
  intros Hp HQ. unfold need_resolve_hostname. apply wp_bind, (wp_conn_at _ c); [done|].
  destruct (c_dst c) as [|name port]; [by apply wp_ret, HQ|]. apply wp_bind, wp_gets, wp_bind, wp_gets.
  case_bool_decide; [apply wp_ret, HQ; [done|eauto]|]. apply wp_bind.
  eapply wp_mono with (P := λ _ s', quiet s s').
  { destruct a; try (by apply wp_ret). apply wp_bind, wq_filter_match_domain. intros r s1 Hq.
    destruct r; [apply wq_default_action|apply wq_excluded_action|apply wq_excluded_action|apply wq_default_action]; intros; by etrans. }
  intros act s1 Hq. destruct act; [apply wp_bind, (wq_assert release)|..|apply wp_bind, (wq_assert release)]; apply wp_ret, HQ; eauto.
Qed.

Lemma wq_reachable p c u s Q :
  t_heap s !! p = Some c → (∀ b, Q b s) → wp (is_destination_reachable p u) Q s.
Proof.
  intros Hp HQ. unfold is_destination_reachable. apply wp_bind, (wp_conn_at _ c); [done|].
  destruct (c_dst c) as [a|]; [|by apply wp_ret]. destruct (ip_version a); [|by apply wp_ret].
  apply wp_bind, wp_gets. destruct (_ && _); [by apply wp_ret|]. apply wp_bind, wp_gets. by apply wp_ret.
Qed.

Lemma good_wait s0 s p c rid :
  good [] [] s0 s → t_heap s !! p = Some c → c_state c = CONNS_WAITING_ACTION → c_client_id c ≠ NON_ID →
  (∃ name port, c_dst c = ToName name port) →
  good [] [] s0 (set_t_heap (<[p := set_c_state CONNS_WAITING_RESOLVE c]> (t_heap s))
    (set_t_waiters (match t_waiters s !! rid with
       | Some _ => t_waiters s | None => <[rid := c_client_id c]> (t_waiters s) end) s)).
Proof.
  intros Hg Hp Hst Hne Hd. pose proof (proj2 (i_conn _ _ (g_inv _ _ _ _ Hg) _ _ Hp)) as Hok.
  assert (no_waiter s (c_client_id c)) as Hnw.
  { intros rid' Hw. destruct (i_wait _ _ (g_inv _ _ _ _ Hg) _ _ Hw) as (_ & _ & _ & Hwc).
    by destruct (Hwc p c Hp eq_refl) as [Hst' _]. }
  set (c' := set_c_state CONNS_WAITING_RESOLVE c).
  assert (good [] [] s0 (set_t_heap (<[p := c']> (t_heap s)) s)) as Hg1.
  { apply good_touch with c; [done|done|by split|by right| |by left]. destruct Hok. split; simpl; try done. rewrite Hst in ck_server. auto. }
  destruct (t_waiters s !! rid) as [x|] eqn:Hx.
  { destruct s; simpl in *. done. }
  destruct Hg1 as [[] Hf Hr]. split; [|by destruct Hf; split|done]. split; simpl in *; try done.
  intros rid' id Hw. apply lookup_insert_Some in Hw as [[<- <-]|[Hne' Hw]].
  - split_and!; [done|by apply (ck_requested _ _ Hok)| |].
    + intros rid'. rewrite lookup_insert_Some. intros [[??]|[? Hw]]; [done|]. by destruct (Hnw rid').
    + intros q d Hq Hid. apply lookup_insert_Some in Hq as [[<- <-]|[Hnq Hq]]; [by split|].
      exfalso. apply Hnq. apply (i_uniq p q c' d); [apply lookup_insert_eq|by rewrite lookup_insert_ne|by rewrite Hid|done].
  - destruct (i_wait rid' id Hw) as (? & ? & Hu & ?). split_and!; [done..| |done].
    intros rid''. rewrite lookup_insert_Some. intros [[<- <-]|[? Hw']]; [by destruct (Hnw rid')|by apply Hu].
Qed.

Lemma wg_open_selected p c action upstream s0 s Q :
  good [] [] s0 s → t_heap s !! p = Some c → c_state c = CONNS_WAITING_ACTION →
  t_by_client s !! c_client_id c = Some p → p ∉ t_pins s →
  (∀ u, upstream = Some u → class_of u = DirectUpstream → bypass_justified (t_out s) (c_client_id c) (c_dst c)) →
  (∀ s', good [] [] s0 s' → Q tt s') → wp (open_selected rec p action upstream) Q s.
Proof.
  intros Hg Hp Hst Hcl Hpin Hj HQ. unfold open_selected.
  assert (∀ c' err s1, good [] [] s0 s1 → t_heap s1 !! p = Some c' → p ∉ t_pins s1 →
    wp (close_client_side_connection rec p err true) Q s1) as Hclose by (intros; by eapply wg_close).
  apply wp_bind. eapply wq_reachable; [done|]. intros [|]; simpl; [|by eapply Hclose].
  apply wp_bind. eapply wq_need_resolve; [done|]. intros need s1 Hq Hname.
  assert (∀ u, upstream = Some u → class_of u = DirectUpstream → bypass_justified (t_out s1) (c_client_id c) (c_dst c)) as Hj1.
  { intros u Hu Hcu. destruct (q_trace _ _ Hq) as (tr & -> & _). eapply bypass_justified_app, Hj; done. }
  clear Hj. move_quiet Hq. clear Hq. apply wp_bind, (wp_conn_at _ c); [done|].
  pose proof (proj2 (i_conn _ _ (g_inv _ _ _ _ Hg) _ _ Hp)) as Hok.
  destruct (i_client _ _ (g_inv _ _ _ _ Hg) _ _ Hcl) as (Hne & _).
  destruct need.
  { destruct (Hname eq_refl) as (name & port & Hd). rewrite Hd.
    apply wp_bind, wq_on_resolver; [apply Hg|done|]. quietly. apply wp_bind, wp_gets.
    destruct (answer_id _) as [rid|]; [|by eapply Hclose]. apply wp_bind, wp_modify, (wp_upd_raw _ c); [done|].
    apply HQ. refine (good_wait s0 _ p c rid Hg Hp Hst Hne _). eauto. }
  apply wp_bind. eapply wg_upd_minor; [done..|]. touch Hg Hp.
  apply wp_bind, wp_gets, wp_bind, wp_gets. destruct (_ && _).
  { apply wp_bind. eapply wg_upd_minor; [done..|]. touch Hg Hp. by eapply Hclose. }
  apply wp_bind, wp_gets, wp_bind.
  assert (∀ c' s1, good [] [] s0 s1 → t_heap s1 !! p = Some c' → p ∉ t_pins s1 → t_by_client s1 !! c_client_id c' = Some p →
    c_server_id c' = NON_ID → c_state c' = CONNS_WAITING_ACTION →
    (∀ u, upstream = Some u → class_of u = DirectUpstream → bypass_justified (t_out s1) (c_client_id c') (c_dst c')) →
    wp (_ ← open_on p upstream; connection_opened rec p upstream true true) Q s1) as Hopen.
  { intros c' s4 ????? Hs4 ?. eapply wg_connection_opened; try done. by rewrite Hs4. }
  assert (c_server_id c = NON_ID) as Hsn by (apply Hok; by rewrite Hst).
  apply wq_when; intros _.
  - eapply wg_upd_minor; [done|done|done|done|by rewrite test_set_flag|by rewrite test_set_flag|]. touch Hg Hp. by eapply Hopen.
  - by eapply Hopen.
Qed.

Lemma wg_complete id action s0 s Q :
  good [] [] s0 s →
  (∀ p c, t_by_client s !! id = Some p → t_heap s !! p = Some c → c_state c = CONNS_WAITING_ACTION ∧ p ∉ t_pins s) →
  (∀ s', good [] [] s0 s' → Q tt s') → wp (tun_complete_connect_request rec id action) Q s.
Proof.
  intros Hg Hpre HQ. unfold tun_complete_connect_request. apply wp_bind, wq_emit; [done|]. intros s1 Hq Hasked.
  rewrite <- (q_client _ _ Hq), <- (q_heap _ _ Hq), <- (q_pins _ _ Hq) in Hpre. move_quiet Hq. clear Hq.
  apply wp_bind, wp_gets. destruct (t_by_client s1 !! id) as [p|] eqn:Hid; [|by apply wp_ret, HQ].
  destruct (i_client _ _ (g_inv _ _ _ _ Hg) _ _ Hid) as (Hne & c & Hc & Hcid). destruct (Hpre p c eq_refl Hc) as [Hst Hpin].
  assert (∀ a c' s2, good [] [] s0 s2 → t_heap s2 !! p = Some c' → c_state c' = CONNS_WAITING_ACTION → c_client_id c' = id →
    t_by_client s2 !! id = Some p → p ∉ t_pins s2 → (a = VPN_CA_FORCE_BYPASS → Asked id (Some VPN_CA_FORCE_BYPASS) ∈ t_out s2) →
    wp (upstream ← select_upstream a p; open_selected rec p a upstream) Q s2) as Hgo.
  { intros a c' s2 Hg2 Hc2 Hst2 Hid2 Hcl2 Hpin2 Ha. apply wp_bind. eapply (wq_select release []); [apply Hg2|done|].
    intros u s3 Hq Hd. assert (a = VPN_CA_FORCE_BYPASS → Asked id (Some VPN_CA_FORCE_BYPASS) ∈ t_out s3) as Ha3
      by (intros; eapply quiet_elem; eauto). clear Ha. move_quiet Hq.
    eapply wg_open_selected; rewrite ?Hid2; try done. intros x Hx Hcx.
    destruct (Hd x Hx Hcx); [left; auto|by right; right]. }
  destruct action as [[]|]; simpl in *.
  2:{ apply wp_bind. eapply wg_upd; [done|done|by split| |by left|].
      { intros []. split; rewrite ?test_set_flag by done; simpl; try done; rewrite ?Hst; try done. by rewrite Hcid. }
      touch Hg Hc. by eapply Hgo. }
  2:{ apply wp_bind. eapply wg_upd_minor; [done|done|done|done|by rewrite test_set_flag|by rewrite test_set_flag|].
      touch Hg Hc. by eapply Hgo. }
  2:{ by eapply wg_close. }
  all: apply wp_bind; eapply wg_upd; [done|done|by split| |by left|].
  1,3: intros []; split; rewrite ?test_set_flag by done; simpl; try done; rewrite ?Hst; try done; destruct (c_dst c); try done; intros; by eexists.
  all: touch Hg Hc; by eapply Hgo.
Qed.

Lemma wg_finalize request s0 s Q :
  good [] [] s0 s → (∀ r s', good [] [] s0 s' → Q r s') → wp (finalize_connect_action request) Q s.
Proof.
  intros Hg HQ. unfold finalize_connect_action. apply wp_bind, wp_gets.
  destruct (t_by_client s !! req_id request) as [p|] eqn:Hid; [|by apply wp_ret, HQ].
  destruct (i_client _ _ (g_inv _ _ _ _ Hg) _ _ Hid) as (Hne & c & Hc & Hcid). apply wp_bind.
  assert (∀ s1 c1, good [] [] s0 s1 → t_heap s1 !! p = Some c1 → wp (c ← conn_at p; mret (c_action c)) Q s1) as Hend.
  { intros s1 c1 ??. apply wp_bind, (wp_conn_at _ c1); [done|]. by apply wp_ret, HQ. }
  assert (∀ f s1 c1 (Q' : unit → tunnel → Prop), good [] [] s0 s1 → t_heap s1 !! p = Some c1 →
    (c_state (f c1), c_client_id (f c1), c_server_id (f c1), c_dst (f c1), c_proto (f c1), c_migrating_client_id (f c1))
    = (c_state c1, c_client_id c1, c_server_id c1, c_dst c1, c_proto c1, c_migrating_client_id c1) →
    c_buffered (f c1) = c_buffered c1 →
    test CONNF_LOOKINGUP_DOMAIN (f c1) = test CONNF_LOOKINGUP_DOMAIN c1 →
    test CONNF_FORCIBLY_BYPASSED (f c1) = test CONNF_FORCIBLY_BYPASSED c1 →
    (∀ s2, good [] [] s0 s2 → t_heap s2 !! p = Some (f c1) → Q' tt s2) → wp (upd p f) Q' s1) as Hupd.
  { intros f s1 c1 Q' Hg1 Hc1 E1 E2 E3 E4 HQ'. eapply wg_upd_minor; [done..|]. touch Hg1 Hc1. by apply HQ'. }
  eapply wp_mono with (P := λ _ s', good [] [] s0 s' ∧ is_Some (t_heap s' !! p)).
  { apply wq_when; [|by eauto]. intros _. eapply Hupd; [done..|]. by eauto. }
  intros _ s1 (Hg1 & c1 & Hc1). apply wp_bind. eapply Hupd; [done..|]. intros sa Hga Hca.
  apply wp_bind. eapply wp_conn_at; [done|]. match type of Hca with _ = Some ?x => set (ca := x) in * end. clearbody ca. clear c1 Hg1 Hc1 s1.
  apply wp_bind.
  assert (∀ a s2, good [] [] s0 s2 → t_heap s2 !! p = Some ca →
    wp (upd p (set_c_action a)) (λ _ s', wp (c ← conn_at p; mret (c_action c)) Q s') s2) as Hact.
  { intros a s2 Hg2 Hc2. eapply Hupd; [done..|]. eauto. }
  assert (∀ a d s2, good [] [] s0 s2 → t_heap s2 !! p = Some ca →
    wp (_ ← upd p (set_c_action a); report_connection_info p d) (λ _ s', wp (c ← conn_at p; mret (c_action c)) Q s') s2) as Hrep.
  { intros a d s2 Hg2 Hc2. apply wp_bind. eapply Hupd; [done..|]. intros s3 Hg3 Hc3.
    eapply wg_report; [done|done|]. intros s4 c4 ????. by eapply Hend. }
  destruct (_ || _); [by apply Hact|].
  destruct (c_dst ca) as [a|name port].
  - apply wp_bind, wq_filter_match_tag. intros m s2 Hq _. move_quiet Hq. destruct (status m); [by apply Hact|..].
    + apply wp_bind, wq_excluded_action. intros act s3 Hq' _. move_quiet Hq'. by apply Hrep.
    + destruct (is_domain_scannable_port _); [|by apply Hact].
      eapply Hupd; [done|done|done|done|by rewrite test_set_flag|by rewrite test_set_flag|]. eauto.
    + apply wp_bind, wq_default_action. intros act s3 Hq' _ _. move_quiet Hq'. by apply Hrep.
  - apply wp_bind, wq_filter_match_domain. intros m s2 Hq. move_quiet Hq. destruct m; [by apply Hact|..].
    + apply wp_bind, wq_excluded_action. intros act s3 Hq' _. move_quiet Hq'. by apply Hrep.
    + rewrite release. by apply Hact.
    + apply wp_bind, wq_default_action. intros act s3 Hq' _ _. move_quiet Hq'. by apply Hrep.
Qed.

(** A new connection, of a client or of an upstream, with its entry in the table. *)
Record enters p c s s' : Prop := {
  en_ptr : p = t_next_ptr s;
  en_heap : t_heap s' = <[p := c]> (t_heap s);
  en_next : t_next_ptr s' = p + 1;
  en_client : c_client_id c = NON_ID ∧ t_by_client s' = t_by_client s
    ∨ c_client_id c ≠ NON_ID ∧ t_by_client s' = <[c_client_id c := p]> (t_by_client s)
      ∧ (∀ q d, t_heap s !! q = Some d → c_client_id d ≠ c_client_id c) ∧ no_waiter s (c_client_id c)
      ∧ stream_ok (c_client_id c) c (t_out s) [];
  en_server : c_server_id c = NON_ID ∧ t_by_server s' = t_by_server s
    ∨ c_server_id c ≠ NON_ID ∧ t_by_server s' = <[c_server_id c := p]> (t_by_server s)
      ∧ ∀ q d, t_heap s !! q = Some d → c_server_id d ≠ c_server_id c;
  en_rest : (t_pins s', t_busy s', t_alive s', t_out s', t_icmp s', t_stats s', t_waiters s')
    = (t_pins s, t_busy s, t_alive s, t_out s, t_icmp s, t_stats s, t_waiters s);
  en_fields : (t_resolver s', t_fake s', t_dns s', t_endpoint s', t_bypass s', t_client_listener s', t_dns_proxy s')
    = (t_resolver s, t_fake s, t_dns s, t_endpoint s, t_bypass s, t_client_listener s, t_dns_proxy s);
}.

Lemma fresh_ptr X s : inv X s → t_heap s !! t_next_ptr s = None.
Proof. intros Hi. apply eq_None_not_Some. intros [c Hc]. destruct (i_conn _ _ Hi _ _ Hc). lia. Qed.

Lemma good_enters B X s0 s p c s' : good B X s0 s → conn_ok (t_out s) c → enters p c s s' → good B X s0 s'.
Proof.
  intros [Hi Hf Hr] Hok [-> Eh En Hcl Hsv [= E2 E3 E4 E5 E6 E7 E8] [= G1 G2 G3 G4 G5 G6 G7]].
  pose proof (fresh_ptr _ _ Hi) as Hfr. set (p := t_next_ptr s) in *.
  assert (∀ r x, t_heap s !! r = Some x → r ≠ p ∧ t_heap s' !! r = Some x) as Hup.
  { intros r x Hx. assert (r ≠ p) by congruence. split; [done|]. by rewrite Eh, lookup_insert_ne. }
  assert (∀ r x, t_heap s' !! r = Some x → r = p ∧ x = c ∨ r ≠ p ∧ t_heap s !! r = Some x) as Hcases.
  { intros r x. rewrite Eh, lookup_insert_Some. naive_solver. }
  assert (t_heap s' !! p = Some c) as Hpc by by rewrite Eh, lookup_insert_eq.
  assert (ready s' = true) as Hr' by (unfold ready in *; by rewrite G1, G2, G3, E7).
  split; [| |done].
  - split; rewrite ?En, ?E2, ?E3, ?E5, ?E6, ?E8.
    + assert (∀ i r, t_by_client s !! i = Some r → i ≠ NON_ID ∧ ∃ x, t_heap s' !! r = Some x ∧ c_client_id x = i) as Hold.
      { intros i r Hx. destruct (i_client _ _ Hi _ _ Hx) as (? & x & Hx' & ?). split; [done|]. exists x. by destruct (Hup _ _ Hx'). }
      destruct Hcl as [[_ ->]|(Hn & -> & _)]; [done|]. intros i r. rewrite lookup_insert_Some. intros [[<- <-]|[? ?]]; [|by apply Hold].
      split; [done|]. by exists c.
    + assert (∀ i r, t_by_server s !! i = Some r → i ≠ NON_ID ∧ ∃ x, t_heap s' !! r = Some x ∧ c_server_id x = i) as Hold.
      { intros i r Hx. destruct (i_server _ _ Hi _ _ Hx) as (? & x & Hx' & ?). split; [done|]. exists x. by destruct (Hup _ _ Hx'). }
      destruct Hsv as [[_ ->]|(Hn & -> & _)]; [done|]. intros i r. rewrite lookup_insert_Some. intros [[<- <-]|[? ?]]; [|by apply Hold].
      split; [done|]. by exists c.
    + intros r x Hx. destruct (Hcases r x Hx) as [[-> ->]|[_ Hx']]; [split; [lia|done]|].
      destruct (i_conn _ _ Hi _ _ Hx'). split; [lia|done].
    + intros r r' x x' Hx Hx' Heq Hne. destruct (Hcases r x Hx) as [[-> ->]|[? Hy]];
      destruct (Hcases r' x' Hx') as [[-> ->]|[? Hy']]; [done|..|by eapply (i_uniq _ _ Hi)];
      destruct Hcl as [[? _]|(_ & _ & Hfc & _)]; try congruence; [by destruct (Hfc _ _ Hy')|by destruct (Hfc _ _ Hy)].
    + intros r r' x x' Hx Hx' Heq Hne. destruct (Hcases r x Hx) as [[-> ->]|[? Hy]];
      destruct (Hcases r' x' Hx') as [[-> ->]|[? Hy']]; [done|..|by eapply (i_uniq_server _ _ Hi)];
      destruct Hsv as [[? _]|(_ & _ & Hfc)]; try congruence; [by destruct (Hfc _ _ Hy')|by destruct (Hfc _ _ Hy)].
    + intros r Hr0. destruct (i_pins _ _ Hi _ Hr0) as [x Hx]. exists x. by destruct (Hup _ _ Hx).
    + intros i r Hb. destruct (i_busy _ _ Hi _ _ Hb) as (? & x & Hx & ?). split; [done|]. exists x. by destruct (Hup _ _ Hx).
    + apply Hi.
    + intros i r x Hx Hx' ??.
      assert (t_by_client s !! i = Some r → stream_ok i x (t_out s) []) as Hold.
      { intros Hy. destruct (i_client _ _ Hi _ _ Hy) as (_ & y & Hy' & _). destruct (Hup _ _ Hy').
        by eapply (i_stream _ _ Hi i r); [|congruence|..]. }
      destruct Hcl as [[_ E]|(Hn & E & _ & _ & Hs)]; rewrite E in Hx; [by apply Hold|].
      apply lookup_insert_Some in Hx as [[<- <-]|[? ?]]; [by simplify_eq|by apply Hold].
    + intros i. apply Hi.
    + intros rid i Hw. destruct (i_wait _ _ Hi _ _ Hw) as (? & ? & ? & Hwc). split_and!; try done.
      intros r x Hx Hxid. destruct (Hcases r x Hx) as [[-> ->]|[_ Hx']]; [|by eapply Hwc].
      destruct Hcl as [[? _]|(_ & _ & _ & Hnw & _)]; [congruence|]. destruct (Hnw rid). congruence.
    + intros _. by apply Hi.
    + rewrite G2, G3, G4, G5. apply Hi.
  - destruct Hf. split; rewrite ?E2, ?E3, ?E4, ?E5; try done; [congruence|congruence|lia|].
    intros i r x Hb Hx. destruct (f_busy_conn i r x Hb Hx) as (x' & Hx' & ?). exists x'. by destruct (Hup _ _ Hx').
Qed.

Lemma conn_make_flags id src (dst : TunnelAddress A) proto f :
  0 ≤ f → f ≠ CONNF_PLAIN_DNS_CONNECTION → test f (conn_make id src dst proto) = false.
Proof.
  intros Hf Hne. unfold conn_make. rewrite test_set_flag by done. rewrite (proj2 (Z.eqb_neq _ _) Hne).
  unfold test. simpl. by rewrite Z.testbit_0_l.
Qed.

Lemma wg_on_connect_request l id proto src dst app dns_bypass s0 s Q :
  good [] [] s0 s → id ≠ NON_ID → is_transport proto = true →
  (∀ q d, t_heap s !! q = Some d → c_client_id d ≠ id) → no_waiter s id → requested id (t_out s) = true →
  taken_from id (t_out s) = [] → sent_by id (t_out s) = [] →
  (∀ s', good [] [] s0 s' → Q tt s') → wp (on_connect_request rec l id proto src dst app dns_bypass) Q s.
Proof.
  intros Hg Hid Hproto Hfresh Hnw Hreq Htk Hsn HQ. unfold on_connect_request. rewrite Hproto. simpl.
  match goal with |- wp (_ ← alloc ?x; _) _ _ => set (c := x) end.
  apply wp_bind. unfold alloc. apply wp_bind, wp_gets, wp_bind, wp_modify, wp_ret, wp_bind.
  eapply wg_add_connection; [apply lookup_insert_eq|]. simpl. rewrite (proj2 (Z.eqb_neq _ _) Hid). simpl. intros s1 Hs1.
  assert (enters (t_next_ptr s) c s s1) as Hen.
  { subst s1. split; simpl; try done; [right|by left]. split_and!; try done. intros _ _. simpl. by rewrite Htk, Hsn. }
  assert (conn_ok (t_out s) c) as Hok.
  { assert (∀ f, 0 ≤ f → f ≠ CONNF_PLAIN_DNS_CONNECTION → f ≠ CONNF_FIRST_PACKET → test f c = false) as Hfl.
    { intros f ? ? Hne. unfold c. rewrite test_set_flag by done. rewrite (proj2 (Z.eqb_neq _ _) Hne).
      by apply (conn_make_flags id src _ proto f). }
    split; simpl; try done; rewrite ?Hfl by done; done. }
  pose proof (good_enters _ _ _ _ _ _ _ Hg Hok Hen) as Hg1.
  assert (∀ a, wp (tun_complete_connect_request rec id a) Q s1) as Hcomplete.
  { intros a. apply (wg_complete _ _ s0); [done| |done]. destruct Hen as [_ Eh _ _ _ Er _]. injection Er as Ep _ _ _ _ _ _.
    intros p d Hp Hd. subst s1. simpl in Hp. rewrite lookup_insert_eq in Hp. injection Hp as <-.
    rewrite Eh, lookup_insert_eq in Hd. injection Hd as <-. split; [done|]. simpl. intros Hin.
    destruct (i_pins _ _ (g_inv _ _ _ _ Hg) _ Hin) as [x Hx]. by rewrite (fresh_ptr _ _ (g_inv _ _ _ _ Hg)) in Hx. }
  clear Hs1 Hen. apply wp_bind, wp_gets, wp_bind, wp_gets, wp_bind, wp_gets.
  repeat (case_bool_decide; [apply Hcomplete|]). destruct (_ && _); [apply Hcomplete|].
  apply wq_emit; [done|]. intros s2 Hq _. move_quiet Hq. by apply HQ.
Qed.

(** ** Events of the listeners *)

Lemma client_conn_of X s id p :
  inv X s → t_by_client s !! id = Some p → ∃ c, t_heap s !! p = Some c ∧ c_client_id c = id ∧ id ≠ NON_ID.
Proof. intros Hi Hp. destruct (i_client _ _ Hi _ _ Hp) as (? & c & ? & ?). by exists c. Qed.

Lemma wg_on_client_accepted l id s0 s Q :
  good [] [] s0 s →
  (∀ p c, t_by_client s !! id = Some p → t_heap s !! p = Some c → is_Some (locked (c_listener c) s)) →
  (∀ s', good [] [] s0 s' → Q tt s') → wp (on_client_accepted rec l id) Q s.
Proof.
  intros Hg Hl HQ. unfold on_client_accepted. apply wp_bind, wp_gets.
  destruct (t_by_client s !! id) as [p|] eqn:Hid; [|by apply (wq_assert release), HQ].
  destruct (client_conn_of _ _ _ _ (g_inv _ _ _ _ Hg) Hid) as (c & Hc & Hcid & Hne).
  destruct (Hl p c eq_refl Hc) as [l' Hl']. apply wp_bind, (wp_conn_at _ c); [done|].
  case_bool_decide as Hst; simpl; [|by eapply wg_close; [done|done|congruence|]].
  apply wp_bind. eapply wg_upd; [done|done|by split|by apply conn_ok_settled|by left|]. touch Hg Hc.
  apply wp_bind, wq_emit; [done|]. intros s2 Hq _. move_quiet Hq. apply wp_bind, wp_gets.
  destruct (locked (c_upstream c) _); [|by apply wp_ret, HQ]. apply wp_bind, wq_ask; [done|]. intros info. quietly.
  apply wp_bind, wq_emit; [done|]. intros s4 Hq' _. move_quiet Hq'. apply wp_bind, wp_gets, wp_bind, wp_gets.
  apply wq_when; [|auto]. intros _. apply wp_bind.
  eapply wg_upd_minor; [done|done|done|done|by rewrite test_set_flag|by rewrite test_set_flag|]. touch Hg Hc.
  apply wq_with_stats; [apply Hg|]. quietly. by apply HQ.
Qed.

Lemma wg_on_client_closed id s0 s Q :
  good [] [] s0 s →
  (∀ p c, t_by_client s !! id = Some p → t_heap s !! p = Some c → p ∈ t_pins s →
     test CONNF_SESSION_CLOSED c = false ∧ is_Some (t_by_server s !! c_server_id c) ∧ is_Some (locked (c_upstream c) s)) →
  (∀ s', good [] [] s0 s' → Q tt s') → wp (on_client_closed rec id) Q s.
Proof.
  intros Hg Hpre HQ. unfold on_client_closed. apply wp_bind, wp_gets.
  destruct (t_by_client s !! id) as [p|] eqn:Hid; [|by apply wp_ret, HQ].
  destruct (client_conn_of _ _ _ _ (g_inv _ _ _ _ Hg) Hid) as (c & Hc & Hcid & Hne).
  apply wp_bind, (wp_conn_at _ c); [done|]. apply wp_bind, wp_gets, wp_bind, wp_gets.
  assert ((p ∉ t_pins s) → wp (tun_destroy_connection id (c_server_id c)) Q s) as Hd.
  { intros Hpin. apply (wg_destroy [] [] s0); [done| | |done].
    - intros q _ Hq. congruence.
    - intros q _ Hn Hq. specialize (Hn Hne). congruence. }
  destruct (test CONNF_SESSION_CLOSED c || bool_decide (t_by_server s !! c_server_id c = None)) eqn:Hgone.
  { apply Hd. intros Hin. destruct (Hpre p c eq_refl Hc Hin) as (Ht & [x Hx] & _).
    rewrite Ht, Hx in Hgone. by rewrite bool_decide_eq_false_2 in Hgone. }
  destruct (locked (c_upstream c) s) as [u|] eqn:Hu.
  2:{ apply Hd. intros Hin. destruct (Hpre p c eq_refl Hc Hin) as (_ & _ & [x Hx]). congruence. }
  clear Hd Hgone Hpre. apply wp_bind, wq_when_quiet. { intros. apply wq_emit; auto. }
  quietly. apply wp_bind, wp_modify, (wg_call [] _ s0); [by apply good_remove_client|done|]. auto.
Qed.

Lemma wg_on_client_data_sent l id n s0 s Q :
  good [] [] s0 s → (∀ s', good [] [] s0 s' → Q tt s') → wp (on_client_data_sent l id n) Q s.
Proof.
  intros Hg HQ. unfold on_client_data_sent. apply wp_bind, wp_gets.
  destruct (t_by_client s !! id) as [p|] eqn:Hid; [|by apply (wq_assert release), HQ].
  destruct (client_conn_of _ _ _ _ (g_inv _ _ _ _ Hg) Hid) as (c & Hc & Hcid & Hne).
  apply wp_bind, (wp_conn_at _ c); [done|]. apply wp_bind, wp_gets.
  destruct (locked _ s); [|by apply wp_ret, HQ]. destruct (_ =? _); [by apply wp_ret, HQ|].
  apply wp_bind, wq_emit; [done|]. intros s1 Hq _. move_quiet Hq. apply wp_bind, wq_ask; [done|]. intros info. quietly.
  apply wp_bind, wq_emit; [done|]. intros s3 Hq' _. move_quiet Hq'. apply wq_do_health_check. quietly. by apply HQ.
Qed.

Lemma wg_on_client_icmp request s0 s Q :
  good [] [] s0 s → (∀ r s', good [] [] s0 s' → Q r s') → wp (on_client_icmp_request request) Q s.
Proof.
  intros Hg HQ. unfold on_client_icmp_request. apply wp_bind, wp_gets. destruct (negb _); [by apply wp_ret, HQ|].
  apply wp_bind, wp_gets, wp_bind, wp_gets.
  destruct (i_icmp _ _ (g_inv _ _ _ _ Hg) (g_ready _ _ _ _ Hg)) as [t Ht].
  assert (∃ st m, register_request (clock (t_out s)) request (t_icmp s) = Ok (st, m) ∧ request_timeout m = Some t) as (st & m & Hr & Hm).
  { unfold register_request. simpl. destruct (existsb _ _); [by repeat eexists|]. rewrite Ht. simpl.
    destruct (m_timer _); by repeat eexists. }
  apply wp_bind. unfold of_res. rewrite Hr. apply wp_ret, wp_bind, wp_modify.
  match goal with |- wp _ _ ?x => assert (quiet s x) as Hq by (split; try done; exists []; by rewrite app_nil_r);
    remember x as s2 eqn:E2; clear E2 end.
  move_quiet Hq. clear Hq. destruct st; [|by apply wp_ret, HQ]. apply wp_bind, wq_action_for. intros act s3 Hq _. move_quiet Hq.
  apply wp_bind, (wq_select_plain release []); [apply Hg|]. intros u s4 Hq' _. move_quiet Hq'. destruct u as [u|]; [|by apply wp_ret, HQ].
  apply wp_bind, wq_emit; [done|]. intros s5 Hq5 _. move_quiet Hq5. apply wp_bind, wq_do_health_check. quietly. by apply wp_ret, HQ.
Qed.

(** ** Sending the data of a client *)

(** An entry that moves data of the client [id] only. *)
Lemma good_data B X X' s0 s o id :
  good B X s0 s → (∀ i, i ≠ id → sent_by i [o] = [] ∧ taken_from i [o] = []) →
  (∀ u i src dst proto app, o ≠ UOpen u i src dst proto app) → id ∉ (t_busy s0).*1 →
  requested id (t_out s) = true ∨ sent_by id [o] = [] ∧ taken_from id [o] = [] →
  (∀ i, i ∈ X → i ∈ X' ∨ i = id) →
  (∀ p c, t_by_client s !! id = Some p → t_heap s !! p = Some c → id ∉ (t_busy s).*1 → id ∉ X' →
     stream_ok id c (t_out s ++ [o]) []) →
  good B X' s0 (set_t_out (t_out s ++ [o]) s).
Proof.
  intros [[] Hf Hr] Ho Hopen Hb Hreq HX Hst.
  assert (∀ i, i ≠ id → sent_by i (t_out s ++ [o]) = sent_by i (t_out s) ∧ taken_from i (t_out s ++ [o]) = taken_from i (t_out s)) as Hsame.
  { intros i Hi. rewrite sent_by_app, taken_from_app. destruct (Ho i Hi) as [-> ->]. by rewrite !app_nil_r. }
  split; [| |done].
  - split; simpl; try done.
    + intros p c Hc. destruct (i_conn p c Hc). split; [done|]. by apply conn_ok_app.
    + apply opens_justified_snoc; [done|]. intros ?????? ->. by destruct (Hopen u id0 src dst proto app).
    + intros i p c Hi Hc Hnb HnX. destruct (decide (i = id)) as [->|Hne]; [by eapply Hst|].
      intros Ht Hm. rewrite migrated_app, orb_false_iff in Hm. destruct Hm as [Hm _].
      destruct (Hsame i Hne) as [-> ->]. eapply i_stream; try done. intros HiX. by destruct (HX i HiX).
    + intros i Hi. rewrite requested_app, orb_false_iff in Hi. destruct Hi as [Hi _].
      destruct (decide (i = id)) as [->|Hne]; [|destruct (Hsame i Hne) as [-> ->]; by apply i_fresh].
      destruct Hreq as [?|[E1 E2]]; [congruence|]. rewrite sent_by_app, taken_from_app, E1, E2, !app_nil_r. by apply i_fresh.
    + intros rid i Hw. destruct (i_wait rid i Hw) as (? & Hrq & ?). by rewrite requested_app, Hrq.
  - destruct Hf. split; simpl; try done.
    + destruct f_trace as [tr ->]. exists (tr ++ [o]). by rewrite app_assoc.
    + intros i p c Hi Hc. assert (i ≠ id) as Hne.
      { intros ->. apply Hb. apply list_elem_of_fmap. by exists (id, p). }
      destruct (Hsame i Hne) as [-> ->]. by apply f_busy_conn.
Qed.

(** The connection [p] of the client [id], whose data is worked on: [x] has been
    taken from the client and the trace does not tell yet, [y] is to be sent. *)
Record working id p s0 s c (x y : list Z) : Prop := {
  wk_good : good [(id, p)] [] s0 s;
  wk_busy : id ∉ (t_busy s0).*1;
  wk_conn : t_heap s !! p = Some c;
  wk_id : c_client_id c = id;
  wk_stream : c_proto c = IPPROTO_TCP → migrated id (t_out s) = false →
    taken_from id (t_out s) ++ x = sent_by id (t_out s) ++ y;
}.

Lemma working_busy id p s0 s c x y : working id p s0 s c x y → (id, p) ∈ t_busy s.
Proof. intros [[_ Hf _] _ _ _ _]. rewrite (f_busy _ _ _ Hf). set_solver. Qed.

Lemma working_facts id p s0 s c x y :
  working id p s0 s c x y → id ≠ NON_ID ∧ p ∈ t_pins s ∧ requested id (t_out s) = true ∧ ∀ i, (i, p) ∉ t_busy s0.
Proof.
  intros Hw. pose proof (working_busy _ _ _ _ _ _ _ Hw) as Hb. destruct Hw as [Hg Hnb Hc Hid _].
  destruct (i_busy _ _ (g_inv _ _ _ _ Hg) _ _ Hb) as (? & d & Hd & ? & ? & _). simplify_eq.
  split_and!; [done|done|by apply (i_conn _ _ (g_inv _ _ _ _ Hg) _ _ Hc)|].
  intros i Hi. assert ((i, p) ∈ t_busy s) as Hi' by (rewrite (f_busy _ _ _ (g_frame _ _ _ _ Hg)); set_solver).
  destruct (i_busy _ _ (g_inv _ _ _ _ Hg) _ _ Hi') as (_ & d & Hd' & Hdi & _).
  assert (d = c) as -> by congruence. apply Hnb. apply list_elem_of_fmap. exists (i, p). split; [simpl; congruence|done].
Qed.

(** Nested handlers leave the stream alone. *)
Lemma working_nested id p s0 s c x y s' :
  working id p s0 s c x y → good [] [] s s' →
  ∃ c', working id p s0 s' c' x y ∧ c_buffered c' = c_buffered c ∧ c_proto c' = c_proto c.
Proof.
  intros Hw Hg'. pose proof (working_busy _ _ _ _ _ _ _ Hw) as Hb. destruct Hw as [Hg Hnb Hc Hid Hst].
  destruct (f_busy_conn _ _ _ (g_frame _ _ _ _ Hg') _ _ _ Hb Hc) as (c' & Hc' & Eb & Ep & Et & Es).
  exists c'. split; [|done]. split; [by eapply good_trans|done|done| |].
  - assert ((id, p) ∈ t_busy s') as Hb' by (rewrite (f_busy _ _ _ (g_frame _ _ _ _ Hg')); set_solver).
    destruct (i_busy _ _ (g_inv _ _ _ _ Hg') _ _ Hb') as (_ & d & ? & ? & _). by simplify_eq.
  - intros Ht Hm. rewrite Ep in Ht. destruct (f_trace _ _ _ (g_frame _ _ _ _ Hg')) as [tr E].
    rewrite E, migrated_app, orb_false_iff in Hm. rewrite Et, Es. apply Hst; tauto.
Qed.

Lemma working_quiet id p s0 s c x y s' : working id p s0 s c x y → quiet s s' → working id p s0 s' c x y.
Proof.
  intros [Hg Hnb Hc Hid Hst] Hq. destruct (q_trace _ _ Hq) as (tr & E & Hn).
  split; [by eapply good_quiet|done|by rewrite (q_heap _ _ Hq)|done|].
  intros Ht Hm. rewrite E, migrated_app, orb_false_iff in Hm. destruct Hm as [Hm _].
  rewrite E, taken_from_app, sent_by_app. destruct (neutral_streams id tr Hn) as [-> ->]. rewrite !app_nil_r. auto.
Qed.

Lemma working_refl id p s0 s c x y : working id p s0 s c x y → good [] [] s s.
Proof. intros [Hg _ _ _ _]. apply good_refl; apply Hg. Qed.

(** An update of the connection at work, its buffer included. *)
Lemma wk_upd id p s0 s c x y f Q :
  working id p s0 s c x y → keeps c (f c) → (conn_ok (t_out s) c → conn_ok (t_out s) (f c)) →
  (∀ s', working id p s0 s' (f c) x y → same s s' → t_out s' = t_out s → Q tt s') → wp (upd p f) Q s.
Proof.
  intros Hw Hk Hok HQ. destruct (working_facts _ _ _ _ _ _ _ Hw) as (_ & _ & _ & Hnb).
  pose proof (working_busy _ _ _ _ _ _ _ Hw) as Hb. destruct Hw as [Hg Hnb' Hc Hid Hs].
  eapply wg_upd; [done|done|done|done| |].
  - right. split; [left|done]. rewrite Hid. apply list_elem_of_fmap. by exists (id, p).
  - intros s' Hg' Ht. apply HQ; [|apply Ht|apply Ht]. split; [done|done| | |].
    + rewrite (th_heap _ _ _ _ Ht). apply lookup_insert_eq.
    + rewrite <- Hid. apply Hk.
    + rewrite (th_out _ _ _ _ Ht), (k_proto _ _ Hk). auto.
Qed.

Lemma wk_upd_minor id p s0 s c x y f Q :
  working id p s0 s c x y →
  (c_state (f c), c_client_id (f c), c_server_id (f c), c_dst (f c), c_proto (f c), c_migrating_client_id (f c))
  = (c_state c, c_client_id c, c_server_id c, c_dst c, c_proto c, c_migrating_client_id c) →
  test CONNF_LOOKINGUP_DOMAIN (f c) = test CONNF_LOOKINGUP_DOMAIN c →
  test CONNF_FORCIBLY_BYPASSED (f c) = test CONNF_FORCIBLY_BYPASSED c →
  (∀ s', working id p s0 s' (f c) x y → same s s' → t_out s' = t_out s → Q tt s') → wp (upd p f) Q s.
Proof.
  intros Hw E E1 E2 HQ.
  assert (c_state (f c) = c_state c ∧ c_dst (f c) = c_dst c) as (Est & Ed) by (split_and!; congruence).
  eapply wk_upd; [done| |by apply conn_ok_same|done].
  split; try congruence. unfold wait_ok. by rewrite Est, Ed.
Qed.

Lemma wk_call id p s0 s c x y o Q :
  working id p s0 s c x y → neutral o = true →
  (∀ s' c', working id p s0 s' c' x y → c_buffered c' = c_buffered c → c_proto c' = c_proto c → Q tt s') →
  wp (call rec o) Q s.
Proof.
  intros Hw Ho HQ. apply (wg_call [] _ s); [by eapply working_refl|done|]. intros s' Hg' _.
  destruct (working_nested _ _ _ _ _ _ _ _ Hw Hg') as (c' & ? & ? & ?). by eapply HQ.
Qed.

Lemma wk_close id p s0 s c x y err async Q :
  working id p s0 s c x y → is_Some (locked (c_listener c) s) →
  (∀ s' c', working id p s0 s' c' x y → c_buffered c' = c_buffered c → Q tt s') →
  wp (close_client_side_connection rec p err async) Q s.
Proof.
  intros Hw [l Hl] HQ. eapply (wg_close [] p c _ _ s); [by eapply working_refl|apply Hw|congruence|]. intros s' Hg'.
  destruct (working_nested _ _ _ _ _ _ _ _ Hw Hg') as (c' & ? & ? & ?). by eapply HQ.
Qed.

(** Moves the connection at work along a quiet step that was just introduced. *)
Ltac wk_quietly Hw :=
  let s' := fresh "s" in let Hq := fresh "Hq" in intros s' Hq;
  let H := fresh in pose proof (working_quiet _ _ _ _ _ _ _ _ Hw Hq) as H; clear Hw; rename H into Hw;
  let Hs := fresh in pose proof (quiet_same _ _ Hq) as Hs; move_same Hs; clear Hs Hq.
Ltac wk_emit Hw :=
  apply wp_bind, wq_emit; [done|];
  let s' := fresh "s" in let Hq := fresh "Hq" in let Hx := fresh in
  intros s' Hq Hx; clear Hx; revert Hq; revert s'; wk_quietly Hw.

Lemma wk_upstream_send id p s0 s c x y u data Q :
  working id p s0 s c x y →
  (∀ r s' c', c_buffered c' = c_buffered c → c_proto c' = c_proto c → r ≤ Z.of_nat (length data) →
     (∀ x' y', (∀ t d, t ++ x = d ++ y → t ++ x' = d ++ take (Z.to_nat r) data ++ y') → working id p s0 s' c' x' y') →
     Q r s') →
  wp (upstream_send rec u p data) Q s.
Proof.
  intros Hw HQ. unfold upstream_send. apply wp_bind, (wp_conn_at _ c); [apply Hw|]. rewrite (wk_id _ _ _ _ _ _ _ Hw).
  apply wp_bind. eapply wk_call; [done|done|]. intros s1 c1 Hw1 Eb Ep. apply wp_bind, wp_gets.
  destruct (Z.ltb_spec (Z.of_nat (length data)) (answer (t_out s1))) as [|Hr]; [apply wp_env_fault|].
  set (r := answer (t_out s1)) in *. clearbody r.
  apply wp_bind, wp_modify, wp_ret, (HQ r _ c1); [done|done|done|]. intros x' y' Hxy.
  destruct (working_facts _ _ _ _ _ _ _ Hw1) as (_ & _ & Hreq & _).
  pose proof (working_busy _ _ _ _ _ _ _ Hw1) as Hb. destruct Hw1 as [Hg1 Hnb Hc1 Hid1 Hst].
  assert (∀ i, sent_by i [@USent A id (take (Z.to_nat r) data)] = if id =? i then take (Z.to_nat r) data else []) as Es.
  { intros i. unfold sent_by. simpl. destruct (id =? i); [|done]. simpl. by rewrite app_nil_r. }
  split; [|done|done|done|].
  - apply (good_data _ [] _ _ _ _ id); [done| |done|done|by left|set_solver|].
    + intros i Hi. rewrite Es. split; [|done]. by rewrite (proj2 (Z.eqb_neq id i)).
    + intros q d _ _ Hx. destruct Hx. apply list_elem_of_fmap. by exists (id, p).
  - simpl. intros Ht Hm. rewrite migrated_app, orb_false_iff in Hm. destruct Hm as [Hm _].
    rewrite taken_from_app, sent_by_app, Es, Z.eqb_refl. simpl. rewrite app_nil_r, <- app_assoc.
    apply Hxy, Hst; done.
Qed.

Lemma wk_send_packets id p s0 s c x u packets Q :
  working id p s0 s c x (concat packets) → c_buffered c = packets →
  (∀ r s' c', working id p s0 s' c' x (concat (c_buffered c')) → c_proto c' = c_proto c → Q r s') →
  wp (send_packets rec u p id packets) Q s.
Proof.
  revert s c. induction packets as [|packet rest IH]; intros s c Hw Hb HQ; simpl.
  { apply wp_ret. eapply HQ; [by rewrite Hb|done]. }
  apply wp_bind. eapply wk_upstream_send; [done|]. intros r s1 c1 Eb Ep Hr Hw1. rewrite Hb in Eb.
  assert (∀ t d, t ++ x = d ++ concat (packet :: rest) →
    t ++ x = d ++ take (Z.to_nat r) packet ++ (drop (Z.to_nat r) packet ++ concat rest)) as Heq.
  { intros t d ->. simpl. by rewrite (app_assoc (take _ _)), take_drop. }
  specialize (Hw1 _ _ Heq). clear Heq Hw.
  apply wp_bind, (wp_conn_at _ c1); [apply Hw1|]. rewrite bool_decide_eq_true_2 by done. simpl.
  destruct (Z.eqb_spec r (Z.of_nat (length packet))) as [Hfull|Hfull].
  - rewrite drop_ge in Hw1 by lia. simpl in Hw1.
    apply wp_bind. eapply wk_upd_minor; [done..|]. clear Hw1. intros s2 Hw2 _ _.
    apply wp_bind, wq_when_quiet. { intros. apply wq_with_stats; [apply Hw2|done]. } wk_quietly Hw2.
    apply wp_bind. eapply wk_upd_minor; [done..|]. clear Hw2. intros s4 Hw3 _ _.
    eapply IH; [done|done|]. intros. eapply HQ; [done|]. by rewrite <- Ep.
  - destruct (Z.ltb_spec r 0).
    { apply wp_ret. eapply HQ; [|done]. rewrite Eb. simpl. by rewrite Z2Nat.nonpos in Hw1 by lia. }
    destruct (Z.eqb_spec r 0) as [->|].
    { apply wp_ret. eapply HQ; [|done]. by rewrite Eb. }
    apply wp_bind. eapply wk_upd_minor; [done..|]. intros s2 Hw2 _ _. apply wp_ret. eapply HQ; [exact Hw2|]. by rewrite <- Ep.
Qed.

(** The table has no other connection of the client. *)
Lemma working_entry id p s0 s c x y q : working id p s0 s c x y → t_by_client s !! id = Some q → q = p.
Proof.
  intros [Hg _ Hc Hid _] Hq. destruct (client_conn_of _ _ _ _ (g_inv _ _ _ _ Hg) Hq) as (d & Hd & Hdid & Hne).
  apply (i_uniq _ _ (g_inv _ _ _ _ Hg) q p d c); congruence.
Qed.

Lemma wk_send_buffered id p s0 s c x Q :
  working id p s0 s c x (concat (c_buffered c)) →
  (∀ r s' c', working id p s0 s' c' x (concat (c_buffered c')) → c_proto c' = c_proto c → Q r s') →
  wp (send_buffered_data rec id) Q s.
Proof.
  intros Hw HQ. unfold send_buffered_data. apply wp_bind, wp_gets.
  destruct (t_by_client s !! id) as [q|] eqn:Hcl; [|by apply wp_ret, (HQ _ _ _ Hw)].
  assert (q = p) as -> by by eapply working_entry.
  apply wp_bind. eapply wk_upd_minor; [done..|]. clear Hw Hcl. intros s1 Hw _ _.
  apply wp_bind. eapply wp_conn_at; [apply Hw|]. apply wp_bind, wp_gets, wp_bind, wp_gets. simpl.
  destruct (locked (c_upstream c) s1) as [u|]; [|by apply wp_ret, (HQ _ _ _ Hw)].
  destruct (locked (c_listener c) s1) as [l|]; [|by apply wp_ret, (HQ _ _ _ Hw)].
  apply wp_bind. eapply wk_send_packets; [done|done|]. clear Hw. intros r s2 c2 Hw Ep.
  destruct r as [zero|]; [|by apply wp_ret, (HQ _ _ _ Hw)].
  apply wp_bind, (wp_conn_at _ c2); [apply Hw|]. apply wp_bind, wq_ask; [done|]. intros n. wk_quietly Hw.
  wk_emit Hw. apply wp_bind, wq_ask; [done|]. intros info. wk_quietly Hw. wk_emit Hw. apply wp_ret. by eapply HQ.
Qed.

Lemma working_weaken id p s0 s c x y x' y' :
  working id p s0 s c x y →
  (c_proto c = IPPROTO_TCP → migrated id (t_out s) = false → ∀ t d : list Z, t ++ x = d ++ y → t ++ x' = d ++ y') →
  working id p s0 s c x' y'.
Proof. intros [] H. split; try done. intros Ht Hm. apply H; auto. Qed.

Lemma wk_send_to_server id p s0 s c u l data Q :
  working id p s0 s c [] (concat (c_buffered c)) →
  (∀ r s' c', working id p s0 s' c' (take (Z.to_nat r) data) (concat (c_buffered c')) → Q r s') →
  wp (send_to_server rec p u l data) Q s.
Proof.
  intros Hw HQ. unfold send_to_server. apply wp_bind, (wp_conn_at _ c); [apply Hw|].
  assert (wp (_ ← tun_assert false; mret (-1)) Q s) as Herr.
  { apply wp_bind, (wq_assert release), wp_ret. eapply HQ. by simpl. }
  destruct (c_state c); try done.
  - apply wp_bind. rewrite (wk_id _ _ _ _ _ _ _ Hw).
    eapply wp_mono with (P := λ b s', ∃ c', working id p s0 s' c' [] (concat (c_buffered c'))
      ∧ (b = Some false → c_buffered c' = [])).
    { case_bool_decide as Hb; [apply wp_ret; by exists c|]. apply wp_bind. eapply wk_send_buffered; [done|].
      intros [|] s1 c1 Hw1 _; [|apply wp_ret; by exists c1]. apply wp_bind, (wp_conn_at _ c1); [apply Hw1|].
      apply wp_ret. exists c1. split; [done|]. case_bool_decide; naive_solver. }
    clear Hw Herr. intros b s1 (c1 & Hw & Hb). destruct b as [[|]|]; [by apply wp_ret, (HQ _ _ c1)| |by apply wp_ret, (HQ _ _ c1)].
    specialize (Hb eq_refl). apply wp_bind. eapply wk_upstream_send; [done|]. intros r s2 c2 Eb Ep Hr Hw2.
    assert (working id p s0 s2 c2 (take (Z.to_nat r) data) (concat (c_buffered c2))) as Hw3.
    { apply Hw2. intros t d. rewrite Eb, Hb. simpl. rewrite !app_nil_r. by intros ->. }
    clear Hw2 Hw. apply wp_bind, (wp_conn_at _ c2); [apply Hw3|]. destruct (_ || _).
    + apply wp_bind. eapply wk_upd_minor; [done..|]. clear Hw3. intros s3 Hw _ _.
      apply wp_bind, wq_when_quiet. { intros. apply wq_with_stats; [apply Hw|done]. } wk_quietly Hw.
      apply wp_bind, wq_ask; [done|]. intros n. wk_quietly Hw. wk_emit Hw. apply wp_ret, (HQ _ _ _ Hw).
    + apply wp_bind, wq_when_quiet. { intros. apply wq_emit; auto. } wk_quietly Hw3. apply wp_ret, (HQ _ _ _ Hw3).
  - destruct (Z.eqb_spec (c_proto c) IPPROTO_UDP) as [Hu|]; [|done].
    apply wp_bind. eapply wk_upd_minor; [done..|]. clear Hw. intros s1 Hw _ _. apply wp_ret. eapply HQ.
    eapply working_weaken; [done|]. simpl. by rewrite Hu.
Qed.

(** ** Moving a connection *)

Lemma working_locked id p s0 s c x y s' c' x' y' w :
  working id p s0 s c x y → working id p s0 s' c' x' y' → locked w s' = locked w s.
Proof.
  intros [[_ H1 _] _ _ _ _] [[_ H2 _] _ _ _ _]. unfold locked.
  by rewrite (f_alive _ _ _ H1), (f_alive _ _ _ H2).
Qed.

Lemma conn_ok_migrated tr c u sid :
  conn_ok tr c → migrated (c_client_id c) tr = true → sid ≠ NON_ID → conn_ok tr (migrated_conn c u sid).
Proof.
  intros [] Hm Hs.
  assert (∀ f, 0 ≤ f → f ≠ CONNF_PLAIN_DNS_CONNECTION → test f (migrated_conn c u sid)
    = if f =? CONNF_LOOKINGUP_DOMAIN then test CONNF_LOOKINGUP_DOMAIN c else false) as Hfl.
  { intros f H0 Hne. unfold migrated_conn.
    match goal with |- test f (set_c_extracted _ (set_c_app_name _ (set_c_migrating_client_id _ ?x))) = _ =>
      change (test f x = if f =? CONNF_LOOKINGUP_DOMAIN then test CONNF_LOOKINGUP_DOMAIN c else false) end.
    rewrite test_set_flag by done. destruct (f =? CONNF_LOOKINGUP_DOMAIN); [done|].
    by apply (conn_make_flags NON_ID (c_src c) (c_dst c) (c_proto c) f). }
  split; rewrite ?Hfl by done; simpl; try done.
Qed.

Lemma wk_finish_start id p s0 s c x y u n Q :
  working id p s0 s c x y →
  (∀ s', working id p s0 s' (set_c_state CONNS_CONNECTED_MIGRATING c) x y → (∃ tr, t_out s' = t_out s ++ tr) → Q n s') →
  wp (finish_migration_start p u n) Q s.
Proof.
  intros Hw HQ. unfold finish_migration_start. apply wp_bind. eapply wk_upd; [done|by split|by apply conn_ok_settled|].
  clear Hw. intros s1 Hw _ E1. rewrite <- E1 in HQ. apply wp_bind. eapply wp_conn_at; [apply Hw|]. apply wp_bind, wp_gets, wp_bind.
  assert (∀ s2, quiet s1 s2 → wp (_ ← tun_do_health_check (Some u) false; mret n) Q s2) as Hend.
  { intros s2 Hq. apply wp_bind, wq_do_health_check. intros s3 Hq'. assert (quiet s1 s3) as Hq3 by by etrans.
    apply wp_ret, HQ; [by eapply working_quiet|]. destruct (q_trace _ _ Hq3) as (tr & ? & _). by exists tr. }
  destruct (locked _ s1); [|by apply wp_ret, Hend]. apply wq_emit; auto.
Qed.

(** The new connection is known to the tunnel under the identifier of its upstream. *)
Lemma wk_enter {Y} id p s0 s c x y cm (k : Z → M Y) Q :
  working id p s0 s c x y → conn_ok (t_out s) cm → c_client_id cm = NON_ID → c_server_id cm ≠ NON_ID →
  (∀ q d, t_heap s !! q = Some d → c_server_id d ≠ c_server_id cm) →
  (∀ sw s', working id p s0 s' c x y → t_heap s' !! sw = Some cm → p ≠ sw → t_out s' = t_out s → wp (k sw) Q s') →
  wp (sw ← alloc cm; _ ← add_connection sw; k sw) Q s.
Proof.
  intros Hw Hok Hcn Hsn Hfresh HQ. destruct Hw as [Hg Hnb Hc Hid Hst].
  apply wp_bind. unfold alloc. apply wp_bind, wp_gets, wp_bind, wp_modify, wp_ret, wp_bind.
  eapply wg_add_connection; [apply lookup_insert_eq|]. simpl. rewrite Hcn, (proj2 (Z.eqb_neq _ _) Hsn). simpl. intros s3 Hs3.
  assert (enters (t_next_ptr s) cm s s3) as Hen.
  { subst s3. split; simpl; try done; [by left|by right]. }
  assert (p ≠ t_next_ptr s) as Hpsw.
  { intros E. pose proof (fresh_ptr _ _ (g_inv _ _ _ _ Hg)) as Hf. rewrite E in Hc. congruence. }
  assert (t_out s3 = t_out s) as E3 by (by subst s3). clear Hs3.
  apply HQ; [|by rewrite (en_heap _ _ _ _ Hen), lookup_insert_eq|done|done].
  split; [by eapply good_enters|done| |done|by rewrite E3].
  by rewrite (en_heap _ _ _ _ Hen), lookup_insert_ne by done.
Qed.

Lemma wk_migrate id p s0 s c upstream data Q :
  working id p s0 s c [] (concat (c_buffered c)) →
  (∀ u, upstream = Some u → class_of u = DirectUpstream → bypass_justified (t_out s) id (c_dst c)) →
  (∀ r s' c', working id p s0 s' c' (take (Z.to_nat r) data) (concat (c_buffered c')) →
     c_listener c' = c_listener c → Q r s') →
  wp (initiate_connection_migration p upstream data) Q s.
Proof.
  intros Hw Hj HQ. unfold initiate_connection_migration.
  destruct upstream as [u|]; [|apply wp_ret; by eapply HQ].
  apply wp_bind, (wp_conn_at _ c); [apply Hw|]. rewrite (wk_id _ _ _ _ _ _ _ Hw).
  apply wp_bind, wq_emit; [done|]. intros s1 Hq Hmig.
  assert (class_of u = DirectUpstream → bypass_justified (t_out s1) id (c_dst c)) as Hj1.
  { intros Hu. destruct (q_trace _ _ Hq) as (tr & -> & _). by eapply bypass_justified_app, Hj. }
  pose proof (working_quiet _ _ _ _ _ _ _ _ Hw Hq) as Hw1. clear Hw Hq Hj.
  assert (∀ tr, migrated id (t_out s1 ++ tr) = true) as Hm.
  { intros tr. rewrite migrated_app. apply orb_true_iff. left. apply existsb_exists. exists (Migrating id).
    split; [by apply list_elem_of_In|]. simpl. apply Z.eqb_refl. }
  (* from now on nothing is said of the stream *)
  assert (∀ s2 c2 x y r, working id p s0 s2 c2 x y → (∃ tr, t_out s2 = t_out s1 ++ tr) → c_listener c2 = c_listener c → Q r s2) as Hend.
  { intros s2 c2 x y r Hw2 [tr E] Hl. eapply HQ; [|done]. eapply working_weaken; [done|]. by rewrite E, Hm. }
  pose proof Hw1 as [Hg1 Hnb Hc1 Hid Hst].
  apply wp_bind. eapply wg_upstream_open; [done|by rewrite Hid|]. intros sid s2 Hg2 Eh Hs2 Hsid.
  assert (∃ tr, t_out s2 = t_out s1 ++ tr) as [tr2 E2] by apply Hs2.
  assert (working id p s0 s2 c [] (concat (c_buffered c))) as Hw2.
  { split; [done|done|by rewrite Eh|done|]. rewrite E2, Hm. done. }
  destruct (Z.eqb_spec sid NON_ID) as [->|Hne]; [apply wp_ret; by eapply Hend; eauto|].
  destruct Hsid as [?|Hsid]; [done|]. pose proof (proj2 (i_conn _ _ (g_inv _ _ _ _ Hg2) _ _ (wk_conn _ _ _ _ _ _ _ Hw2))) as Hok.
  rewrite (ck_proto _ _ Hok). simpl. assert (conn_ok (t_out s2) (migrated_conn c u sid)) as Hokm by (apply conn_ok_migrated; [done|by rewrite Hid, E2|done]).
  assert (c_client_id (migrated_conn c u sid) = NON_ID ∧ c_server_id (migrated_conn c u sid) = sid) as [Hcm Hsm] by done.
  revert Hokm Hcm Hsm. generalize (migrated_conn c u sid). intros cm Hokm Hcm Hsm.
  eapply (wk_enter id p s0); [done|done|done|congruence|by rewrite Eh, Hsm|]. intros sw s3 Hw3 Hsw3 Hpsw E3.
  pose proof (wk_good _ _ _ _ _ _ _ Hw3) as Hg3. clear Hokm Hw2 Hw1 Hg1 Hc1 Hs2 Eh.
  assert (∃ tr, t_out s3 = t_out s1 ++ tr) as [tr3 Etr] by (exists tr2; congruence). clear E3 E2.
  assert (∀ s4 c4 x y n, working id p s0 s4 c4 x y → t_out s4 = t_out s3 → c_listener c4 = c_listener c →
    wp (finish_migration_start p u n) Q s4) as Hfin.
  { intros s4 c4 x y n Hw4 E4 Hl. eapply wk_finish_start; [done|]. intros s5 Hw5 [tr5 E5].
    eapply Hend; [done| |done]. exists (tr3 ++ tr5). by rewrite E5, E4, Etr, app_assoc. }
  destruct (c_proto c =? IPPROTO_UDP).
  { apply wp_bind. eapply wk_upd_minor; [done..|]. intros s4 Hw4 _ E4. by eapply Hfin. }
  apply wp_bind. eapply (wg_upd [(id, p)]); [done|done|by split|by apply conn_ok_same| |].
  { right. split; [by do 4 right|]. intros i Hi. assert ((i, sw) ∈ t_busy s3) as Hi'
      by (rewrite (f_busy _ _ _ (g_frame _ _ _ _ Hg3)); set_solver).
    destruct (i_busy _ _ (g_inv _ _ _ _ Hg3) _ _ Hi') as (_ & d & ? & Hd & Hdn & _). congruence. }
  intros s4 Hg4 Ht4. assert (working id p s0 s4 c [] (concat (c_buffered c))) as Hw4.
  { split; [done|done| |done|]; [rewrite (th_heap _ _ _ _ Ht4), lookup_insert_ne by done; apply Hw3|].
    rewrite (th_out _ _ _ _ Ht4), Etr, Hm. done. }
  pose proof (th_out _ _ _ _ Ht4) as E4. clear Hw3 Hg4 Ht4.
  apply wp_bind. eapply wk_upd_minor; [done..|]. clear Hw4. intros s5 Hw5 _ E5. apply wp_bind, wp_gets.
  destruct (locked (c_listener c) s5) as [l|].
  2:{ apply wp_ret. eapply Hend; [done| |done]. exists tr3. congruence. }
  apply wp_bind, wq_emit; [done|]. intros s6 Hq6 _. pose proof (working_quiet _ _ _ _ _ _ _ _ Hw5 Hq6) as Hw6.
  eapply wk_finish_start; [done|]. intros s7 Hw7 [tr7 E7]. destruct (q_trace _ _ Hq6) as (tr6 & E6 & _).
  eapply Hend; [done| |done]. exists (tr3 ++ tr6 ++ tr7). by rewrite E7, E6, E5, E4, Etr, !app_assoc.
Qed.

Lemma wk_migrate_for_read id p s0 s c l upstream data Q :
  working id p s0 s c [] (concat (c_buffered c)) → is_Some (locked (c_listener c) s) →
  (∀ u, upstream = Some u → class_of u = DirectUpstream → bypass_justified (t_out s) id (c_dst c)) →
  (∀ r s' c', working id p s0 s' c' (take (Z.to_nat r) data) (concat (c_buffered c')) → Q r s') →
  wp (migrate_for_read rec p l upstream data) Q s.
Proof.
  intros Hw Hl Hj HQ. unfold migrate_for_read. apply wp_bind. eapply wk_migrate; [done|done|]. intros r s1 c1 Hw1 El.
  assert (is_Some (locked (c_listener c1) s1)) as Hl1 by by rewrite El, (working_locked _ _ _ _ _ _ _ _ _ _ _ _ Hw Hw1).
  destruct (_ <? _); [|by apply wp_ret, (HQ _ _ _ Hw1)]. apply wp_bind, (wp_conn_at _ c1); [apply Hw1|].
  wk_emit Hw1. apply wp_bind. eapply wk_close; [done|done|]. intros s3 c3 Hw3 Eb. apply wp_ret, (HQ _ _ c3). by rewrite Eb.
Qed.

Lemma wk_route_read id p s0 s c u l data Q :
  working id p s0 s c [] (concat (c_buffered c)) → is_Some (locked (c_listener c) s) →
  (∀ r s' c', working id p s0 s' c' (take (Z.to_nat r) data) (concat (c_buffered c')) → Q r s') →
  wp (route_read rec p u l data) Q s.
Proof.
  intros Hw Hl HQ. unfold route_read. apply wp_bind, (wp_conn_at _ c); [apply Hw|].
  destruct (test CONNF_FAKE_CONNECTION c); apply wp_bind;
    (eapply wk_upd_minor; [done|done|by rewrite !test_set_flag by done|by rewrite !test_set_flag by done|]);
    clear Hw; intros s1 Hw Hs1 _; move_same Hs1.
  - apply wp_bind. eapply (wq_select release []); [apply Hw|apply Hw|]. intros up s2 Hq Hd.
    pose proof (working_quiet _ _ _ _ _ _ _ _ Hw Hq) as Hw2. rewrite <- (same_locked _ _ _ (quiet_same _ _ Hq)) in Hl.
    eapply wk_migrate_for_read; [exact Hw2|exact Hl| |done]. intros x Hx Hcx. destruct (Hd x Hx Hcx); [done|by right; right].
  - eapply wk_send_to_server; [exact Hw|done].
Qed.

Lemma wk_reroute_read id p s0 s c u l data Q :
  working id p s0 s c [] (concat (c_buffered c)) → is_Some (locked (c_listener c) s) →
  (∃ a, c_action c = Some a ∧ (a = VPN_CA_FORCE_BYPASS → bypass_justified (t_out s) id (c_dst c))) →
  (∀ r s' c', working id p s0 s' c' (take (Z.to_nat r) data) (concat (c_buffered c')) → Q r s') →
  wp (reroute_read rec p u l data) Q s.
Proof.
  intros Hw Hl (a & Ha & Hj) HQ. unfold reroute_read. apply wp_bind, (wp_conn_at _ c); [apply Hw|].
  destruct (negb _).
  { wk_emit Hw. wk_emit Hw. apply wp_bind. eapply wk_call; [done|done|]. intros s3 c3 Hw3 Eb _.
    apply wp_ret, (HQ _ _ c3). by rewrite Eb. }
  rewrite Ha. apply wp_bind. eapply (wq_select release []); [apply Hw|apply Hw|]. intros up s1 Hq Hd.
  pose proof (working_quiet _ _ _ _ _ _ _ _ Hw Hq) as Hw1. rewrite <- (same_locked _ _ _ (quiet_same _ _ Hq)) in Hl.
  apply wp_bind. eapply wk_migrate_for_read; [done|done| |].
  { intros x Hx Hcx. destruct (Hd x Hx Hcx) as [->|]; [|by right; right].
    destruct (q_trace _ _ Hq) as (tr & -> & _). by apply bypass_justified_app, Hj. }
  intros r s2 c2 Hw2. destruct (_ <? _); [by apply wp_ret, (HQ _ _ _ Hw2)|]. apply wp_bind.
  eapply wk_upd_minor; [done|done|by rewrite test_set_flag|by rewrite test_set_flag|]. intros s3 Hw3 _ _.
  apply wp_ret, (HQ _ _ _ Hw3).
Qed.

(** What the lookup and the report do to the connection at work. *)
Lemma wk_report id p s0 s c x y d Q :
  working id p s0 s c x y →
  (∀ s' c', working id p s0 s' c' x y → alike c c' → same s s' → Q tt s') → wp (report_connection_info p d) Q s.
Proof.
  intros Hw HQ. eapply (wg_report [] s s); [by eapply working_refl|apply Hw|]. intros s1 c1 Hg1 Hc1 Hal Hs.
  destruct (working_nested _ _ _ _ _ _ _ _ Hw Hg1) as (c' & Hw1 & _ & _).
  assert (c' = c1) as -> by (pose proof (wk_conn _ _ _ _ _ _ _ Hw1); congruence). by eapply HQ.
Qed.

Lemma wk_lookup id p s0 s c x y dir data Q :
  working id p s0 s c x y → test CONNF_LOOKINGUP_DOMAIN c = true →
  (∀ act s' c', working id p s0 s' c' x y → same s s' → looked (t_out s') c c' act → Q act s') →
  wp (pass_through_domain_lookup p dir data) Q s.
Proof.
  intros Hw Ht HQ. eapply (wg_lookup [] s s); [by eapply working_refl|apply Hw|done|]. intros act s1 c1 Hg1 Hc1 Hs Hl.
  destruct (working_nested _ _ _ _ _ _ _ _ Hw Hg1) as (c' & Hw1 & _ & _).
  assert (c' = c1) as -> by (pose proof (wk_conn _ _ _ _ _ _ _ Hw1); congruence). by eapply HQ.
Qed.

Lemma wk_looked id p s0 s c u l data act Q :
  working id p s0 s c [] (concat (c_buffered c)) → is_Some (locked (c_listener c) s) →
  (c_proto c = IPPROTO_TCP → act ≠ TDLA_DROP) →
  (act = TDLA_SHUTDOWN → ∃ a, c_action c = Some a ∧ (a = VPN_CA_FORCE_BYPASS → bypass_justified (t_out s) id (c_dst c))) →
  (∀ r s' c', working id p s0 s' c' (take (Z.to_nat r) data) (concat (c_buffered c')) → Q r s') →
  wp (let report : M unit :=
        c ← conn_at p; report_connection_info p (Some (de_domain (c_extracted c))) in
      match act with
      | TDLA_DONE => _ ← upd p (set_flag CONNF_LOOKINGUP_DOMAIN false); _ ← report; route_read rec p u l data
      | TDLA_PASS => _ ← report; route_read rec p u l data
      | TDLA_DROP => mret (Z.of_nat (length data))
      | TDLA_WANT_MORE =>
          c ← conn_at p;
          _ ← upd p (λ c, set_c_lookup_attempts (c_lookup_attempts c + 1) c);
          if c_lookup_attempts c <? MAX_LOOKUP_ATTEMPTS then
            _ ← upd p (λ c, set_c_buffered (c_buffered c ++ [data]) c); mret (Z.of_nat (length data))
          else _ ← report; route_read rec p u l data
      | TDLA_SHUTDOWN => _ ← upd p (set_flag CONNF_LOOKINGUP_DOMAIN false); _ ← report; reroute_read rec p u l data
      | TDLA_BLOCK =>
          c ← conn_at p;
          _ ← emit (LTurnRead l (c_client_id c) false);
          _ ← close_client_side_connection rec p (-1) true;
          mret (-1)
      end) Q s.
Proof.
  intros Hw Hl Hdrop Hshut HQ. cbv zeta.
  assert (∀ (k : M Z) s1 c1, working id p s0 s1 c1 [] (concat (c_buffered c1)) →
    (∀ s2 c2, working id p s0 s2 c2 [] (concat (c_buffered c2)) → alike c1 c2 → same s1 s2 → wp k Q s2) →
    wp (_ ← (c ← conn_at p; report_connection_info p (Some (de_domain (c_extracted c)))); k) Q s1) as Hrep.
  { intros k s1 c1 Hw1 Hk. apply wp_bind, wp_bind, (wp_conn_at _ c1); [apply Hw1|]. eapply wk_report; [done|].
    intros s2 c2 Hw2 Hal Hs. eapply Hk; [by rewrite (al_buffered _ _ Hal)|done|done]. }
  assert (∀ s1 c1, working id p s0 s1 c1 [] (concat (c_buffered c1)) → c_listener c1 = c_listener c →
    wp (_ ← (c ← conn_at p; report_connection_info p (Some (de_domain (c_extracted c)))); route_read rec p u l data) Q s1) as Hroute.
  { intros s1 c1 Hw1 El. eapply Hrep; [done|]. intros s2 c2 Hw2 Hal Hs. eapply wk_route_read; [done| |done].
    by rewrite (al_listener _ _ Hal), El, (working_locked _ _ _ _ _ _ _ _ _ _ _ _ Hw Hw2). }
  destruct act.
  - apply wp_bind. eapply wk_upd; [done|by split|by apply conn_ok_lookup_off|]. intros s1 Hw1 _ _. eapply Hroute; [exact Hw1|done].
  - eapply Hroute; [exact Hw|done].
  - apply wp_ret, (HQ _ _ c). eapply working_weaken; [done|]. intros Ht. by destruct (Hdrop Ht).
  - destruct (Hshut eq_refl) as (a & Ha & Hj).
    apply wp_bind. eapply wk_upd; [done|by split|by apply conn_ok_lookup_off|]. intros s1 Hw1 _ Eo.
    eapply Hrep; [exact Hw1|]. intros s2 c2 Hw2 Hal Hs. eapply wk_reroute_read; [done| | |done].
    + by rewrite (al_listener _ _ Hal), (working_locked _ _ _ _ _ _ _ _ _ _ _ _ Hw Hw2).
    + exists a. rewrite (al_action _ _ Hal), (al_dst _ _ Hal). split; [done|]. intros Hb.
      destruct (sm_trace _ _ Hs) as [tr ->]. rewrite Eo. by apply bypass_justified_app, Hj.
  - apply wp_bind, (wp_conn_at _ c); [apply Hw|]. wk_emit Hw. apply wp_bind. eapply wk_close; [done|done|].
    intros s2 c2 Hw2 Eb. apply wp_ret, (HQ _ _ c2). by rewrite Eb.
  - apply wp_bind, (wp_conn_at _ c); [apply Hw|]. apply wp_bind. eapply wk_upd_minor; [done..|]. intros s1 Hw1 _ _.
    destruct (_ <? _); [|eapply Hroute; [exact Hw1|done]]. apply wp_bind. eapply wk_upd_minor; [done..|]. intros s2 Hw2 _ _.
    apply wp_ret. eapply HQ. eapply working_weaken; [done|]. intros _ _ t d. simpl.
    rewrite Nat2Z.id, firstn_all, concat_app. simpl. rewrite !app_nil_r, app_assoc. by intros ->.
Qed.

(** [sending]: the connection is pinned and the client busy meanwhile. *)
Lemma sending_start id p c s :
  inv [] s → ready s = true → id ∉ (t_busy s).*1 → t_by_client s !! id = Some p → t_heap s !! p = Some c →
  working id p s (set_t_pins (p :: t_pins s) (set_t_busy ((id, p) :: t_busy s) s)) c [] (concat (c_buffered c)).
Proof.
  intros Hi Hr Hnb Hcl Hc. destruct (client_conn_of _ _ _ _ Hi Hcl) as (d & Hd & Hid & Hne). simplify_eq.
  assert (c_state c ≠ CONNS_WAITING_RESPONSE_MIGRATING) as Hst.
  { intros Hst. by destruct (ck_migrating _ _ (proj2 (i_conn _ _ Hi _ _ Hc)) Hst). }
  pose proof (i_stream _ _ Hi _ _ _ Hcl Hc Hnb ltac:(set_solver)) as Hs.
  split; simpl; try done. split; [|split; simpl; try done|done].
  - destruct Hi. split; simpl; try done.
    + intros q. rewrite elem_of_cons. intros [->|?]; [by exists c|auto].
    + intros i q. rewrite elem_of_cons. intros [[= -> ->]|Hq]; [split; [set_solver|by exists c]|].
      destruct (i_busy _ _ Hq) as (? & ?). split; [set_solver|done].
    + intros i q d Hq Hd' Hnb'. rewrite not_elem_of_cons in Hnb'. destruct Hnb'. by eapply i_stream.
  - by exists []; rewrite app_nil_r.
  - intros i q d _ Hd. by exists d.
Qed.

Lemma sending_end id p c s s' x :
  inv [] s → working id p s s' c x (concat (c_buffered c)) →
  let s'' := set_t_pins (t_pins s) (set_t_busy (t_busy s) s') in
  good [] [id] s s'' ∧ requested id (t_out s'') = true
  ∧ ∀ q d, t_by_client s'' !! id = Some q → t_heap s'' !! q = Some d → stream_ok id d (t_out s'') x.
Proof.
  intros Hi Hw s''. destruct (working_facts _ _ _ _ _ _ _ Hw) as (Hne & _ & Hreq & _).
  assert (∀ q, t_by_client s' !! id = Some q → q = p) as Hent by (intros; by eapply working_entry).
  destruct Hw as [[Hi' Hf Hr] Hnb Hc Hid Hst]. pose proof (f_busy _ _ _ Hf) as Eb. pose proof (f_pins _ _ _ Hf) as Ep. simpl in *.
  split_and!; [split; [| |done]|done|].
  - destruct Hi'. split; simpl; try done.
    + intros q Hq. apply i_pins. rewrite Ep. set_solver.
    + intros i q Hq. destruct (i_busy i q) as (_ & d & ?); [rewrite Eb; set_solver|]. split; [by eapply (TunnelInv.i_busy _ _ Hi)|].
      by exists d.
    + intros i q d Hq Hd Hnb' Hx. eapply i_stream; try done; [|set_solver]. rewrite Eb. simpl. set_solver.
  - destruct Hf. by split.
  - intros q d Hq Hd. rewrite (Hent q Hq) in Hd. simpl in Hd. simplify_eq. done.
Qed.

Lemma wg_sending {Y} id (m : M Y) s Q :
  inv [] s → ready s = true → id ∉ (t_busy s).*1 →
  (t_by_client s !! id = None → wp m Q s) →
  (∀ p c s1, t_by_client s !! id = Some p → t_heap s !! p = Some c → t_by_client s1 = t_by_client s → t_alive s1 = t_alive s →
     working id p s s1 c [] (concat (c_buffered c)) →
     wp m (λ y s2, ∃ c2 x, working id p s s2 c2 x (concat (c_buffered c2)) ∧
       ∀ s3, good [] [id] s s3 → requested id (t_out s3) = true →
         (∀ q d, t_by_client s3 !! id = Some q → t_heap s3 !! q = Some d → stream_ok id d (t_out s3) x) → Q y s3) s1) →
  wp (sending id m) Q s.
Proof.
  intros Hi Hr Hnb Hnone Hsome. unfold sending. apply wp_bind, wp_gets.
  destruct (t_by_client s !! id) as [p|] eqn:Hcl; [|by apply Hnone].
  destruct (client_conn_of _ _ _ _ Hi Hcl) as (c & Hc & _).
  apply wp_bind, wp_gets, wp_bind, wp_gets, wp_bind, wp_modify, wp_bind.
  eapply wp_mono; [eapply Hsome; [done|done| | |by apply sending_start]; done|].
  intros y s2 (c2 & x & Hw & HQ). apply wp_bind, wp_modify, wp_ret.
  destruct (sending_end _ _ _ _ _ _ Hi Hw) as (? & ? & ?). by apply HQ.
Qed.

Lemma wg_on_client_read l id data s Q :
  inv [] s → ready s = true → id ∉ (t_busy s).*1 →
  (∀ p c, t_by_client s !! id = Some p → t_heap s !! p = Some c → is_Some (locked (c_listener c) s)) →
  (∀ r s', good [] [id] s s' → requested id (t_out s') = true ∨ take (Z.to_nat r) data = [] →
     (∀ q d, t_by_client s' !! id = Some q → t_heap s' !! q = Some d → stream_ok id d (t_out s') (take (Z.to_nat r) data)) → Q r s') →
  wp (on_client_read rec l id data) Q s.
Proof.
  intros Hi Hr Hnb Hl HQ. unfold on_client_read. apply wg_sending; [done|done|done| |].
  { intros Hn. apply wp_bind, wp_gets. rewrite Hn. apply wp_bind, (wq_assert release), wp_ret, HQ; [|by right|congruence].
    split; [|apply frame_refl|done]. destruct Hi. split; try done. intros. eapply i_stream; try done. set_solver. }
  intros p c s1 Hcl Hc Ecl Ea Hw. apply wp_bind, wp_gets. rewrite Ecl, Hcl.
  assert (∀ (m : M Z) s2, (∀ Q' : Z → tunnel → Prop,
      (∀ r s' c', working id p s s' c' (take (Z.to_nat r) data) (concat (c_buffered c')) → Q' r s') → wp m Q' s2) →
    wp m (λ y s3, ∃ c2 x, working id p s s3 c2 x (concat (c_buffered c2)) ∧
       ∀ s4, good [] [id] s s4 → requested id (t_out s4) = true →
         (∀ q d, t_by_client s4 !! id = Some q → t_heap s4 !! q = Some d → stream_ok id d (t_out s4) x) → Q y s4) s2) as Hstep.
  { intros m s2 Hm. apply Hm. intros r s' c' Hw'. exists c', (take (Z.to_nat r) data). split; [done|]. intros. apply HQ; auto. }
  apply wp_bind, (wp_conn_at _ c); [apply Hw|]. apply wp_bind, wp_gets.
  assert (is_Some (locked (c_listener c) s1)) as Hl1.
  { destruct (Hl p c Hcl Hc) as [x Hx]. exists x. unfold locked in *. by rewrite Ea. }
  destruct (locked (c_upstream c) s1) as [u|].
  2:{ apply Hstep. intros Q' HQ'. apply wp_bind, (wq_assert release), wp_ret, (HQ' _ _ c). by simpl. }
  apply wp_bind, wq_do_health_check. clear Ecl Ea. wk_quietly Hw.
  destruct (test CONNF_LOOKINGUP_DOMAIN c) eqn:Ht; simpl.
  2:{ apply Hstep. intros Q' HQ'. by eapply wk_route_read. }
  apply wp_bind. eapply wk_lookup; [done|done|]. intros act s3 c3 Hw3 Hs3 Hlk. apply Hstep. intros Q' HQ'.
  destruct Hlk as [[= E1 E2 E3 E4 E5 E6] [= F1 F2 F3 F4 F5] Hdrop Hshut].
  eapply wk_looked; [by rewrite F4|rewrite F1; by rewrite (same_locked _ _ _ Hs3)|by rewrite E5| |done].
  intros Ha. destruct (Hshut Ha) as (a & ? & Hj). exists a. auto.
Qed.

(** The result of a read tells what was taken. *)
Lemma good_returned l id data r s s' :
  good [] [id] s s' → id ∉ (t_busy s).*1 → requested id (t_out s') = true ∨ take (Z.to_nat r) data = [] →
  (∀ q d, t_by_client s' !! id = Some q → t_heap s' !! q = Some d → stream_ok id d (t_out s') (take (Z.to_nat r) data)) →
  good [] [] s (set_t_out (t_out s' ++ [Returned (ClientRead l id data) r]) s').
Proof.
  intros Hg Hnb Hreq Hst.
  assert (∀ i, taken_from i [@Returned A (ClientRead l id data) r] = if id =? i then take (Z.to_nat r) data else []) as Et.
  { intros i. unfold taken_from. simpl. destruct (id =? i); [|done]. simpl. by rewrite app_nil_r. }
  apply (good_data _ [id] _ _ _ _ id); [done| |done|done| |set_solver|].
  - intros i Hi. rewrite Et, (proj2 (Z.eqb_neq id i)) by done. done.
  - rewrite Et, Z.eqb_refl. destruct Hreq; auto.
  - intros q d Hq Hd _ _ Ht Hm. rewrite migrated_app, orb_false_iff in Hm. destruct Hm as [Hm _].
    rewrite taken_from_app, sent_by_app, Et, Z.eqb_refl, !app_nil_r. by apply (Hst q d).
Qed.

(** ** Events *)

Lemma if_conn_client f id s p c :
  if_conn (client_conn id s) f = true → t_by_client s !! id = Some p → t_heap s !! p = Some c → f p c = true.
Proof. unfold client_conn. intros H E1 E2. rewrite E1 in H. simpl in H. rewrite E2 in H. done. Qed.

Lemma if_conn_server f id s p c :
  if_conn (server_conn id s) f = true → t_by_server s !! id = Some p → t_heap s !! p = Some c → f p c = true.
Proof. unfold server_conn. intros H E1 E2. rewrite E1 in H. simpl in H. rewrite E2 in H. done. Qed.

(** The listener that raises an event of a connection is its listener. *)
Lemma own_listener l id s :
  bool_decide (l ∈ t_alive s) && if_conn (client_conn id s) (λ _ c, bool_decide (c_listener c = Some l)) = true →
  ∀ p c, t_by_client s !! id = Some p → t_heap s !! p = Some c → is_Some (locked (c_listener c) s).
Proof.
  intros [Ha Ho]%andb_true_iff p c Hp Hc. eapply if_conn_client in Ho; [|done..]. apply bool_decide_eq_true_1 in Ha, Ho.
  exists l. rewrite Ho. unfold locked. by rewrite bool_decide_eq_true_2.
Qed.

Lemma unpinned_of p s : negb (bool_decide (p ∈ t_pins s)) = true → p ∉ t_pins s.
Proof. rewrite negb_true_iff, bool_decide_eq_false. done. Qed.

(** Every event but a read: the handler keeps the invariant. *)
Lemma wg_handle tid e s :
  inv [] s → allowed s e = true → (∀ l id data, e ≠ ClientRead l id data) →
  ∀ s1, quiet s s1 → t_out s1 = t_out s ++ [Got e] →
  wp (handle rec tid e) (λ _ s', good [] [] s s') s1.
Proof.
  intros Hi Hal Hnr s1 Hq Eo. unfold allowed in Hal. apply andb_true_iff in Hal as [Hr Hal].
  pose proof (good_quiet _ _ _ _ _ (good_refl _ _ Hi Hr) Hq) as Hg.
  pose proof (q_pins _ _ Hq) as Ep. pose proof (q_heap _ _ Hq) as Eh. pose proof (q_client _ _ Hq) as Ec.
  pose proof (q_server _ _ Hq) as Es. pose proof (q_busy _ _ Hq) as Eb.
  assert (∀ w, locked w s1 = locked w s) as El by (intros; apply same_locked, quiet_same, Hq).
  assert (∀ m : M unit, wp m (λ _ s', good [] [] s s') s1 → wp (_ ← m; mret 0) (λ _ s', good [] [] s s') s1) as Hdone.
  { intros m Hm. apply wp_bind. eapply wp_mono; [done|]. intros ? s2 H2. by apply wp_ret. }
  destruct e; simpl handle; try (apply Hdone).
  - rewrite !andb_true_iff, !negb_true_iff in Hal. destruct Hal as [[[[Ha Hid] Hp] Hf] Hx].
    apply Z.eqb_neq in Hid. apply bool_decide_eq_true_1 in Hf. apply not_true_iff_false in Hx.
    assert (requested id (t_out s) = false) as Hreq by by apply not_true_iff_false.
    destruct (i_fresh _ _ Hi id Hreq) as [Htk Hsn].
    apply (wg_on_connect_request _ _ _ _ _ _ _ s); try done.
    + rewrite Eh. intros q d Hd. by apply (Hf q d).
    + intros rid Hw. destruct (i_wait _ _ Hi rid id) as (_ & Hrq & _); [eapply lookup_weaken; [done|apply Hq]|congruence].
    + rewrite Eo, requested_app. unfold requested at 2. simpl. by rewrite Z.eqb_refl, !orb_true_r.
    + by rewrite Eo, taken_from_app, Htk.
    + by rewrite Eo, sent_by_app, Hsn.
  - apply (wg_on_client_accepted _ _ s); [done| |done]. rewrite Ec, Eh. intros. rewrite El. by eapply own_listener.
  - apply andb_true_iff in Hal as [Hown Hal]. apply (wg_on_client_closed _ s); [done| |done].
    rewrite Ec, Eh, Es, Ep. intros p c Hp Hc Hin. rewrite El.
    eapply if_conn_client in Hal; [|done..]. apply orb_true_iff in Hal as [Hal|Hal]; [by apply unpinned_of in Hal|].
    rewrite !andb_true_iff, negb_true_iff, !bool_decide_eq_true in Hal. tauto.
  - by destruct (Hnr l id data).
  - by apply (wg_on_client_data_sent _ _ _ s).
  - apply wq_emit; [done|]. intros s2 Hq2 _. by eapply good_quiet.
  - by apply (wg_on_client_icmp _ s).
  - by apply (wg_on_session_opened _ s).
  - apply (wg_close_client_side [] _ s); [done| |done]. rewrite Ep. by apply bool_decide_eq_true_1 in Hal.
  - by apply wp_ret.
  - apply (wg_on_server_opened _ _ s); [done| |done]. rewrite Es, Eh, Eb. intros p c Hp Hc Hst Hin.
    eapply if_conn_server in Hal; [|done..]. rewrite negb_true_iff, andb_false_iff, !bool_decide_eq_false in Hal. tauto.
  - apply (wg_on_server_closed _ s); [done| |done]. rewrite Es, Ep. intros p Hp.
    destruct (server_conn_of _ _ _ _ Hi Hp) as [c Hc]. eapply if_conn_server in Hal; [|done..]. by apply unpinned_of.
  - by apply (wg_on_server_read _ _ _ s).
  - by apply (wg_on_server_data_sent _ _ _ _ s).
  - by apply (wg_on_server_get_available _ s).
  - apply (wg_on_server_error _ _ _ s); [done|rewrite Ep|rewrite Es, Ep|done].
    + intros ->. rewrite Z.eqb_refl in Hal. by apply bool_decide_eq_true_1 in Hal.
    + intros p Hp. destruct (i_server _ _ Hi _ _ Hp) as (Hne & c & Hc & _). rewrite (proj2 (Z.eqb_neq _ _) Hne) in Hal.
      eapply if_conn_server in Hal; [|done..]. by apply unpinned_of.
  - apply (wg_on_server_echo _ s); [done| |done]. apply bool_decide_eq_true_1 in Hal. pose proof (q_fields _ _ Hq) as [= ???????]. congruence.
  - apply (wg_on_resolve_result _ _ s); [done| |done]. rewrite Ec, Eh, Ep. intros id p c Hw Hp Hc.
    eapply lookup_weaken in Hw; [|apply Hq]. rewrite Hw in Hal. eapply if_conn_client in Hal; [|done..].
    apply andb_true_iff in Hal as [Hpin Hv]. split; [by apply unpinned_of|]. intros a Ha.
    rewrite forallb_forall in Hv. apply list_elem_of_In, Hv in Ha. by apply bool_decide_eq_true_1 in Ha.
Qed.

Lemma wg_event tid e s :
  inv [] s → allowed s e = true →
  wp (_ ← emit (Got e); r ← handle rec tid e; _ ← emit (Returned e r); mret r) (λ _ s', good [] [] s s') s.
Proof.
  intros Hi Hal. apply wp_bind, wp_modify.
  assert (quiet s (set_t_out (t_out s ++ [Got e]) s)) as Hq by by apply quiet_emit.
  assert ((∃ l id data, e = ClientRead l id data) ∨ ∀ l id data, e ≠ ClientRead l id data) as [(l & id & data & ->)|Hn]
    by (destruct e; solve [by right|left; by repeat eexists]).
  2:{ apply wp_bind. eapply wp_mono; [by eapply wg_handle|].
      intros r s2 Hg2. apply wp_bind, wq_emit; [|intros s3 Hq3 _; apply wp_ret; exact (good_quiet _ _ _ _ _ Hg2 Hq3)].
      destruct e; try done. by destruct (Hn l id data). }
  unfold allowed in Hal. apply andb_true_iff in Hal as [Hr Hal]. apply andb_true_iff in Hal as [Hown Hb].
  rewrite negb_true_iff, bool_decide_eq_false in Hb. apply wp_bind. simpl handle.
  apply wg_on_client_read; [by eapply quiet_inv|done|done|intros p c Hp Hc; by eapply (own_listener l id s)|].
  intros r s2 Hg2 Hreq Hst. apply wp_bind, wp_modify, wp_ret.
  eapply good_trans; [eapply good_quiet; [by apply good_refl|done]|]. by apply good_returned.
Qed.

End Rec.

(** Events, whatever is raised inside them. *)
Lemma wg_tun_event tid fuel e s :
  inv [] s → ready s = true → wp (tun_event tid fuel e) (λ _ s', good [] [] s s') s.
Proof.
  revert e s. induction fuel as [|fuel IH]; intros e s Hi Hr; simpl; [apply wp_env_fault|].
  apply wp_bind, wp_gets. destruct (allowed s e) eqn:Hal; [|apply wp_env_fault]. by apply wg_event.
Qed.

End Safe.
