(* ===== verification/TunnelRuns.v ===== *)
(** * Runs of the tunnel

    Sequences of the calls the client and the event loop make, with the events of
    listeners and upstreams between and inside them: the tunnel does not fault,
    connections bypass the VPN for a reason only, and no byte of a client is lost,
    duplicated or reordered on the way to the upstream. *)
From S2P Require Import Prelude VpnTypes WireUtils IcmpMux IcmpManager DomainFilter ConnStats Tunnel TunnelInv TunnelSafe.

Section Runs.
Context {A F : Type} `{!SocketAddressOps A, !TunnelFilter A F, !TunnelEnv A}.
Hypothesis release : t_ndebug = true.

Notation tunnel := (@Tunnel A F).
Notation trace := (list (TunOut A)).
Implicit Types (s : tunnel) (tr : trace) (p q id : Z).

#[local] Opaque wp.

(** Between the calls nothing is pinned and nobody is busy. *)
Record top s : Prop := {
  top_inv : inv [] s;
  top_pins : t_pins s = [];
  top_busy : t_busy s = [];
}.

Lemma good_top s s' : top s → good [] [] s s' → top s'.
Proof. intros [Hi Hp Hb] [Hi' Hf _]. split; [done|by rewrite (f_pins _ _ _ Hf)|by rewrite (f_busy _ _ _ Hf)]. Qed.

Lemma quiet_top s s' : top s → quiet s s' → top s'.
Proof. intros [Hi Hp Hb] Hq. split; [by eapply quiet_inv|by rewrite (q_pins _ _ Hq)|by rewrite (q_busy _ _ Hq)]. Qed.

Lemma top_new f mode : top (tunnel_new f mode).
Proof.
  split; [|done|done].
  split; simpl; try done; intros; rewrite ?lookup_empty in *; try done.
  - by apply elem_of_nil in H.
  - by apply elem_of_nil in H.
  - intros pre post u id src dst proto app Heq. by destruct pre.
Qed.

(** Changes of what the invariant does not mention. *)
Lemma top_fields s s' :
  top s →
  (t_heap s', t_next_ptr s', t_by_client s', t_by_server s', t_waiters s', t_pins s', t_busy s', t_out s')
  = (t_heap s, t_next_ptr s, t_by_client s, t_by_server s, t_waiters s, t_pins s, t_busy s, t_out s) →
  (ready s' = true → is_Some (request_timeout (t_icmp s'))) →
  class_is EndpointUpstream (t_endpoint s') ∧ class_is DirectUpstream (t_bypass s')
    ∧ class_is FakeUpstream (t_fake s') ∧ class_is DnsUpstream (t_dns s') →
  top s'.
Proof.
  intros [[] Hp Hb] [= E1 E2 E3 E4 E5 E6 E7 E8] Hic Hcl.
  split; [|congruence|congruence]. split; rewrite ?E1, ?E2, ?E3, ?E4, ?E5, ?E6, ?E7, ?E8; done.
Qed.

Ltac quiet_set := split; try done; exists []; by rewrite app_nil_r.

Lemma wq_resolve_names names s Q :
  ready s = true → (∀ s', quiet s s' → Q tt s') → wp (resolve_names names) Q s.
Proof.
  revert s. induction names as [|name names IH]; intros s Hr HQ; simpl; [by apply wp_ret, HQ|].
  apply wp_bind, wq_on_resolver; [done|done|]. intros s1 Hq. apply IH; [by rewrite (q_ready _ _ Hq)|].
  intros s2 Hq2. apply HQ. by etrans.
Qed.

Lemma wq_exclusions_updated s Q : ready s = true → (∀ s', quiet s s' → Q tt s') → wp on_exclusions_updated Q s.
Proof.
  intros Hr HQ. unfold on_exclusions_updated. apply wp_bind, wq_on_resolver; [done|done|]. intros s1 Hq1.
  apply wp_bind, wp_gets, wp_bind, wp_gets, wp_bind.
  assert (∀ s2, quiet s s2 → wp (id ← submit TaskRepeatExclusions; task ← gets t_repeat_task; _ ← cancel_task task;
    modify (set_t_repeat_task (Some id))) Q s2) as Hend.
  { intros s2 Hq2. apply wp_bind, wq_submit. intros id s3 Hq3. apply wp_bind, wp_gets, wp_bind, wq_cancel_task.
    intros s4 Hq4. apply wp_modify, HQ. etrans; [done|]. etrans; [done|]. etrans; [done|]. quiet_set. }
  destruct (t_endpoint s1); [destruct preresolve|]; [|by apply wp_ret, Hend..].
  apply wq_resolve_names; [by rewrite (q_ready _ _ Hq1)|]. intros s2 Hq2. apply Hend. by etrans.
Qed.

Section Rec.
Variables (tid : Z) (fuel : nat).
Notation rec := (tun_event tid fuel).
Let Hrec := wg_tun_event release tid fuel.

Lemma good_pins s s' : t_pins s = [] → good [] [] s s' → t_pins s' = [].
Proof. intros Hp Hg. by rewrite (f_pins _ _ _ (g_frame _ _ _ _ Hg)). Qed.

Lemma wg_close_selected sel s s1 Q :
  good [] [] s s1 → t_pins s1 = [] → (∀ s', good [] [] s s' → Q tt s') →
  wp (ids ← select_ids sel; close_ids rec (λ _, skip) ids) Q s1.
Proof.
  intros Hg Hp HQ. apply wp_bind, (wq_select_ids []); [apply Hg|]. intros ids.
  apply (wg_close_ids release rec Hrec [] _ _ s); [done|done| |done]. intros p c s2 Q' Hg2 Hc HQ'.
  by eapply (wg_skip_prepare [] s).
Qed.

Lemma wg_before_disconnect u s Q :
  inv [] s → ready s = true → t_pins s = [] → (∀ s', good [] [] s s' → Q tt s') →
  wp (on_before_endpoint_disconnect rec u) Q s.
Proof.
  intros Hi Hr Hp HQ. pose proof (good_refl _ _ Hi Hr) as Hg. unfold on_before_endpoint_disconnect.
  apply wp_bind, wp_gets. destruct (negb _); [by apply wp_ret, HQ|]. apply wp_bind, wp_gets.
  destruct (ready_fields s Hr) as ([r ->] & _). apply wp_bind, (wg_call rec Hrec [] _ s); [done|done|]. intros s1 Hg1 _.
  apply wp_bind, wp_gets, wp_bind, wq_cancel_task. intros s2 Hq2. apply wp_bind, wp_modify.
  assert (quiet s1 (set_t_repeat_task None s2)) as Hq3 by (etrans; [done|quiet_set]).
  pose proof (good_quiet _ _ _ _ _ Hg1 Hq3) as Hg3.
  apply wp_bind, (wq_select_ids []); [apply Hg3|]. intros ids. apply wp_bind.
  apply (wg_close_ids release rec Hrec [] _ _ s); [done|by eapply good_pins| |].
  { intros p c s4 Q' Hg4 Hc HQ'. by eapply (wg_skip_prepare [] s). }
  intros s4 Hg4. apply wp_modify, HQ. eapply good_quiet; [done|]. quiet_set.
Qed.

Lemma wg_mark_closed u keys s s1 Q :
  good [] [] s s1 → (∀ s', good [] [] s s' → Q tt s') → wp (mark_session_closed u keys) Q s1.
Proof.
  intros Hg HQ. revert s1 Hg. induction keys as [|k keys IH]; intros s1 Hg; simpl; [by apply wp_ret, HQ|].
  apply wp_bind, wp_gets, wp_bind. destruct (t_by_client s1 !! k) as [p|] eqn:Hp; [|by apply wp_ret, IH].
  destruct (i_client _ _ (g_inv _ _ _ _ Hg) _ _ Hp) as (_ & c & Hc & _).
  apply wp_bind, (wp_conn_at _ c); [done|]. apply wp_bind, wp_gets. case_bool_decide; [|by apply wp_ret, IH].
  apply wp_bind. eapply wg_upd_minor; [done|done|done|done|by rewrite test_set_flag|by rewrite test_set_flag|].
  intros s2 Hg2 _. apply wp_bind, wp_gets. destruct (locked (c_listener c) s2); [|by apply wp_ret, IH].
  apply wq_emit; [done|]. intros s3 Hq _. apply IH. by eapply good_quiet.
Qed.

Lemma wg_after_disconnect u s Q :
  inv [] s → ready s = true → (∀ s', good [] [] s s' → Q tt s') → wp (on_after_endpoint_disconnect rec u) Q s.
Proof.
  intros Hi Hr HQ. unfold on_after_endpoint_disconnect. apply wp_bind, wp_gets, wp_bind.
  eapply wg_mark_closed; [by apply good_refl|]. intros s1 Hg1. apply wp_bind, wp_gets. apply wq_when; [|auto]. intros _.
  apply wp_bind, wp_gets. destruct (ready_fields s1 (g_ready _ _ _ _ Hg1)) as ([r ->] & [fake Hf] & _).
  apply wp_bind, wq_emit; [done|]. intros s2 Hq2 _. pose proof (good_quiet _ _ _ _ _ Hg1 Hq2) as Hg2.
  apply wp_bind, wp_gets. destruct (t_fake s2) as [fk|]; [|by apply wp_ret, HQ].
  apply wp_bind, (wg_call rec Hrec [] _ s); [done|done|]. intros s3 Hg3 _.
  apply wq_emit; [done|]. intros s4 Hq4 _. apply HQ. by eapply good_quiet.
Qed.

Lemma wg_task t s Q :
  inv [] s → ready s = true → t_pins s = [] → t_busy s = [] → (∀ s', good [] [] s s' → Q tt s') → wp (run_tun_task rec t) Q s.
Proof.
  intros Hi Hr Hp Hb HQ. pose proof (good_refl _ _ Hi Hr) as Hg. destruct t as [id err|id|]; simpl.
  - by apply (wg_complete_task release rec Hrec _ _ s).
  - apply wp_bind, (wg_sending release rec Hrec); [done|done|rewrite Hb; by apply not_elem_of_nil| |].
    { intros Hn. unfold send_buffered_data. apply wp_bind, wp_gets. rewrite Hn. by apply wp_ret, wp_ret, HQ. }
    intros p c s1 Hcl Hc _ _ Hw. eapply (wk_send_buffered release rec Hrec); [done|]. intros r s2 c2 Hw2 _.
    exists c2, []. split; [done|]. intros s3 Hg3 _ Hst. apply wp_ret, HQ. destruct Hg3 as [[] Hf Hr3]. split; [|done|done].
    split; try done. intros i q d Hq Hd Hnb _. destruct (decide (i = id)) as [->|Hne]; [by eapply Hst|].
    eapply i_stream; try done. by apply not_elem_of_cons; split; [|apply not_elem_of_nil].
  - apply wp_bind, wp_modify, wq_exclusions_updated; [done|]. intros s1 Hq. apply HQ. eapply good_quiet; [done|].
    etrans; [|done]. quiet_set.
Qed.

(** ** Start and end *)

Lemma wg_destroy_keys (table : tunnel → gmap Z Z) keys s s1 Q :
  (∀ s k p, inv [] s → table s !! k = Some p → is_Some (t_heap s !! p)) →
  t_pins s = [] → good [] [] s s1 → (∀ s', good [] [] s s' → Q tt s') → wp (destroy_keys table keys) Q s1.
Proof.
  intros Ht Hp Hg HQ. revert s1 Hg. induction keys as [|k keys IH]; intros s1 Hg; simpl; [by apply wp_ret, HQ|].
  apply wp_bind, wp_gets, wp_bind. destruct (table s1 !! k) as [p|] eqn:Hk; [|by apply wp_ret, IH].
  destruct (Ht s1 k p (g_inv _ _ _ _ Hg) Hk) as [c Hc]. apply wp_bind, (wp_conn_at _ c); [done|].
  apply (wg_destroy release [] [] s); [done| | |done]; rewrite (good_pins _ _ Hp Hg); intros; by apply not_elem_of_nil.
Qed.

(** The end of [deinit], after the tables. *)
Lemma wp_deinit_rest s (Q : unit → tunnel → Prop) :
  top s → (∀ s', top s' → Q tt s') →
  wp (r ← gets t_resolver;
      _ ← match r with Some _ => _ ← emit RDeinit; modify (set_t_resolver None) | None => skip end;
      task ← gets t_repeat_task;
      _ ← cancel_task task;
      _ ← modify (set_t_repeat_task None);
      fake ← gets t_fake;
      _ ← match fake with Some _ => _ ← emit FakeDeinit; modify (set_t_fake None) | None => skip end;
      _ ← modify (λ s, set_t_icmp (manager_deinit (t_icmp s)) s);
      _ ← modify (set_t_dns None);
      modify (set_t_stats None)) Q s.
Proof.
  intros Ht HQ. apply wp_bind, wp_gets, wp_bind.
  eapply wp_mono with (P := λ _ s', top s' ∧ t_resolver s' = None).
  { destruct (t_resolver s) as [r|] eqn:Hr; [|by apply wp_ret]. apply wp_bind, wq_emit; [done|]. intros s1 Hq _.
    apply wp_modify. split; [|done]. eapply top_fields; [by eapply quiet_top|done|done|].
    apply (i_class _ _ (quiet_inv _ _ _ Hq (top_inv _ Ht))). }
  intros _ s1 [Ht1 Hr1]. apply wp_bind, wp_gets, wp_bind, wq_cancel_task. intros s2 Hq2.
  assert (t_resolver s2 = None) as Hr2 by (pose proof (q_fields _ _ Hq2) as [= ???????]; congruence).
  pose proof (quiet_top _ _ Ht1 Hq2) as Ht2. clear Ht1 Hr1 Hq2.
  apply wp_bind, wp_modify, wp_bind, wp_gets, wp_bind.
  assert (top (set_t_repeat_task None s2)) as Ht3 by (eapply quiet_top; [done|quiet_set]).
  destruct (i_class _ _ (top_inv _ Ht3)) as (C1 & C2 & C3 & C4).
  eapply wp_mono with (P := λ _ s', top s' ∧ t_resolver s' = None).
  { simpl. destruct (t_fake s2) as [fk|] eqn:Hf; [|by apply wp_ret]. apply wp_bind, wq_emit; [done|]. intros s4 Hq _.
    assert (t_resolver s4 = None) as Hr4 by (pose proof (q_fields _ _ Hq) as [= ???????]; simpl in *; congruence).
    apply wp_modify. split; [|done]. eapply top_fields; [by eapply quiet_top|done| |].
    - unfold ready. simpl. by rewrite Hr4.
    - destruct (i_class _ _ (top_inv _ (quiet_top _ _ Ht3 Hq))) as (? & ? & _ & ?). done. }
  intros _ s4 [Ht4 Hr4]. destruct (i_class _ _ (top_inv _ Ht4)) as (D1 & D2 & D3 & D4).
  apply wp_bind, wp_modify, wp_bind, wp_modify, wp_modify, HQ.
  eapply top_fields; [exact Ht4|done|unfold ready; simpl; by rewrite Hr4|done].
Qed.

Lemma wp_deinit s Q : top s → ready s = true → (∀ s', top s' → Q tt s') → wp tun_deinit Q s.
Proof.
  intros Ht Hr HQ. unfold tun_deinit. apply wp_bind, wp_modify.
  assert (quiet s (set_t_connected false s)) as Hq by quiet_set. pose proof (quiet_top _ _ Ht Hq) as Ht1.
  set (s1 := set_t_connected false s) in *. assert (ready s1 = true) as Hr1 by done. clearbody s1.
  pose proof (good_refl _ _ (top_inv _ Ht1) Hr1) as Hg. pose proof (top_pins _ Ht1) as Hp.
  apply wp_bind. unfold clean_connection_table. apply wp_bind, wp_gets.
  apply (wg_destroy_keys t_by_client _ s1); [|done|done|].
  { intros s2 k p Hi Hk. destruct (i_client _ _ Hi _ _ Hk) as (_ & c & ? & _). by exists c. }
  intros s2 Hg2. apply wp_bind, wp_bind, wp_gets. apply (wg_destroy_keys t_by_server _ s1); [|done|done|].
  { intros s3 k p Hi Hk. destruct (i_server _ _ Hi _ _ Hk) as (_ & c & ? & _). by exists c. }
  intros s3 Hg3. apply wp_deinit_rest; [by eapply good_top|done].
Qed.

(** [deinit] of a tunnel that has no connections. *)
Lemma wp_destroy_none (table : tunnel → gmap Z Z) keys s (Q : unit → tunnel → Prop) :
  table s = ∅ → Q tt s → wp (destroy_keys table keys) Q s.
Proof.
  intros Ht HQ. induction keys as [|k keys IH]; simpl; [by apply wp_ret|].
  apply wp_bind, wp_gets, wp_bind. rewrite Ht, lookup_empty. by apply wp_ret.
Qed.

Lemma wp_deinit_empty s (Q : unit → tunnel → Prop) :
  top s → t_by_client s = ∅ → t_by_server s = ∅ → (∀ s', top s' → Q tt s') → wp tun_deinit Q s.
Proof.
  intros Ht Hc Hs HQ. unfold tun_deinit. apply wp_bind, wp_modify.
  assert (quiet s (set_t_connected false s)) as Hq by quiet_set. pose proof (quiet_top _ _ Ht Hq) as Ht1.
  unfold clean_connection_table. apply wp_bind, wp_bind, wp_gets, wp_destroy_none; [done|].
  apply wp_bind, wp_bind, wp_gets, wp_destroy_none; [done|]. by apply wp_deinit_rest.
Qed.

(** While [init] works. *)
Record starting s : Prop := {
  sg_top : top s;
  sg_icmp : is_Some (request_timeout (t_icmp s));
  sg_client : t_by_client s = ∅;
  sg_server : t_by_server s = ∅;
}.

Lemma starting_quiet s s' : starting s → quiet s s' → starting s'.
Proof.
  intros [] Hq. split; [by eapply quiet_top|by apply (q_icmp _ _ Hq)|by rewrite (q_client _ _ Hq)|by rewrite (q_server _ _ Hq)].
Qed.

Lemma starting_fields s s' :
  starting s →
  (t_heap s', t_next_ptr s', t_by_client s', t_by_server s', t_waiters s', t_pins s', t_busy s', t_out s', t_icmp s')
  = (t_heap s, t_next_ptr s, t_by_client s, t_by_server s, t_waiters s, t_pins s, t_busy s, t_out s, t_icmp s) →
  (t_endpoint s', t_bypass s') = (t_endpoint s, t_bypass s) →
  class_is FakeUpstream (t_fake s') → class_is DnsUpstream (t_dns s') → starting s'.
Proof.
  intros [Ht Hi Hc Hs] [= E1 E2 E3 E4 E5 E6 E7 E8 E9] [= G1 G2] Hf Hd.
  destruct (i_class _ _ (top_inv _ Ht)) as (C1 & C2 & _ & _).
  split; [|by rewrite E9|congruence|congruence].
  eapply top_fields; [exact Ht|congruence|by rewrite E9|by rewrite G1, G2].
Qed.

Lemma starting_classes s : starting s → class_is FakeUpstream (t_fake s) ∧ class_is DnsUpstream (t_dns s).
Proof. intros [Ht _ _ _]. apply (i_class _ _ (top_inv _ Ht)). Qed.

(** One of the objects [init] makes. *)
Lemma wp_init_step s o (k : M bool) (Q : bool → tunnel → Prop) :
  starting s → neutral o = true → (∀ b s', top s' → Q b s') → (∀ s', starting s' → wp k Q s') →
  wp (ok ← ask o answer_ok; if negb (ok : bool) then _ ← tun_deinit; _ ← tun_assert false; mret false else k) Q s.
Proof.
  intros Hs Ho HQ Hk. apply wp_bind, wq_ask; [done|]. intros ok s1 Hq. pose proof (starting_quiet _ _ Hs Hq) as Hs1.
  destruct ok; simpl; [by apply Hk|]. destruct Hs1. apply wp_bind, wp_deinit_empty; [done|done|done|]. intros s2 Ht2.
  by apply wp_bind, (wq_assert release), wp_ret, HQ.
Qed.

Lemma wp_init resolver fake dns s (Q : bool → tunnel → Prop) :
  top s → t_by_client s = ∅ → t_by_server s = ∅ →
  class_is FakeUpstream (Some fake) → class_is DnsUpstream (Some dns) →
  (∀ b s', top s' → Q b s') → wp (tun_init resolver fake dns) Q s.
Proof.
  intros Ht Hc Hs Hf Hd HQ. unfold tun_init. apply wp_bind, wp_modify, wp_bind, wp_modify, wp_bind, wp_modify.
  destruct (i_class _ _ (top_inv _ Ht)) as (C1 & C2 & C3 & C4).
  apply wp_init_step; [|done|done|].
  { split; [|by eexists|done|done]. eapply top_fields; [exact Ht|done|intros _; by eexists|done]. }
  intros s1 Hs1. destruct (starting_classes _ Hs1). apply wp_bind, wp_modify, wp_bind, wp_modify, wp_init_step; [|done|done|].
  { by eapply starting_fields. }
  intros s2 Hs2. destruct (starting_classes _ Hs2). apply wp_bind, wp_modify, wp_bind, wp_modify, wp_init_step; [|done|done|].
  { by eapply starting_fields. }
  intros s3 Hs3. destruct (starting_classes _ Hs3). apply wp_bind, wp_modify, wp_ret, HQ.
  eapply sg_top, starting_fields; [exact Hs3|done..].
Qed.

(** ** Calls of the client *)

Lemma wp_run_op op s : top s → wp (run_op tid fuel op) (λ _ s', top s') s.
Proof.
  intros Ht. unfold run_op. apply wp_bind, wp_gets.
  destruct (op_allowed s op) eqn:Hal; simpl; [|apply wp_env_fault].
  pose proof (top_pins _ Ht) as Hp. pose proof (top_busy _ Ht) as Hb. pose proof (top_inv _ Ht) as Hi.
  assert (∀ s', good [] [] s s' → top s') as Hgt by (intros; by eapply good_top).
  assert (∀ s', quiet s s' → top s') as Hqt by (intros; by eapply quiet_top).
  assert (ready s = true → good [] [] s s) as Hg0 by by apply good_refl.
  destruct op; simpl in Hal.
  - apply wp_bind. destruct (ready s) eqn:Hr.
    + eapply wp_mono; [by apply (wg_tun_event release)|]. intros r s1 Hg1. apply wp_ret. by apply Hgt.
    + destruct fuel; simpl; [apply wp_env_fault|]. apply wp_bind, wp_gets. unfold allowed. rewrite Hr. simpl. apply wp_env_fault.
  - apply andb_true_iff in Hal as [Hr Hal]. apply (wg_complete release rec Hrec _ _ s); [auto| |done].
    intros p c Hcl Hc. eapply if_conn_client in Hal; [|done..]. apply bool_decide_eq_true_1 in Hal.
    split; [done|]. rewrite Hp. apply not_elem_of_nil.
  - apply wp_bind, (wg_finalize release _ s); [auto|]. intros r s1 Hg1. apply wp_ret. auto.
  - apply (wg_close_selected _ s); auto.
  - apply (wg_close_selected _ s); auto.
  - unfold reset_connection. apply wp_bind, wp_gets. destruct (t_by_client s !! id) as [p|] eqn:Hcl; [|by apply wp_ret].
    destruct (i_client _ _ Hi _ _ Hcl) as (_ & c & Hc & _).
    eapply (wg_close release rec Hrec [] p c _ _ s); [auto|done|rewrite Hp; intros _; apply not_elem_of_nil|done].
  - by apply wg_before_disconnect.
  - by apply wg_after_disconnect.
  - by apply wq_exclusions_updated.
  - apply andb_true_iff in Hal as [Hr _]. apply wp_bind, wp_gets, wp_bind, wp_modify.
    match goal with |- wp _ _ ?x => assert (quiet s x) as Hq by quiet_set; pose proof (quiet_top _ _ Ht Hq) as Ht1;
      assert (ready x = true) as Hr1 by done end.
    destruct (t_tasks s !! id) as [t|]; [|by apply wp_ret].
    apply wg_task; [apply Ht1|done|apply Ht1|apply Ht1|]. intros s1 Hg1. by eapply good_top.
  - apply andb_true_iff in Hal as [Hr Hu]. apply bool_decide_eq_true_1 in Hu as [u Hu]. unfold tun_handle_sleep.
    apply wp_bind, wp_modify, wp_bind, wp_gets. simpl. rewrite Hu. apply wq_emit; [done|]. intros s1 Hq _. apply Hqt.
    etrans; [|done]. quiet_set.
  - apply andb_true_iff in Hal as [Hr Hu]. apply bool_decide_eq_true_1 in Hu as [u Hu]. unfold tun_handle_wake.
    apply wp_bind, wp_modify, wp_bind, wp_gets. simpl. rewrite Hu. apply wq_do_health_check. intros s1 Hq. apply Hqt.
    etrans; [|done]. quiet_set.
  - unfold tun_on_network_change. apply wp_bind, wp_gets. destruct (t_dns s); [|by apply wp_ret]. apply wq_emit; auto.
  - apply wp_bind. unfold update_dns_handler_parameters. apply wp_bind, wq_on_dns_handler; [done|done|]. intros s1 Hq.
    apply wp_gets, wp_ret. auto.
  - apply bool_decide_eq_true_1 in Hal as [l Hl]. unfold on_icmp_reply_ready. apply wp_bind, wp_gets. rewrite Hl. apply wq_emit; auto.
  - rewrite !andb_true_iff, !bool_decide_eq_true in Hal. destruct Hal as [[[[_ Hf] Hd] Hc] Hs].
    apply wp_bind, wp_init; [done|done|done|by apply bool_decide_pack|by apply bool_decide_pack|]. intros b s1 Ht1. by apply wp_ret.
  - by apply wp_deinit.
  - apply andb_true_iff in Hal as [He Hbp]. apply wp_modify. destruct (i_class _ _ Hi) as (_ & _ & C3 & C4).
    eapply top_fields; [exact Ht|done|apply Hi|]. simpl. rewrite He, Hbp. done.
  - apply wp_modify. eapply top_fields; [exact Ht|done|apply Hi|apply Hi].
  - apply wp_modify, Hqt. quiet_set.
Qed.

Lemma wp_run_ops ops s : top s → wp (run_ops tid fuel ops) (λ _ s', top s') s.
Proof.
  revert s. induction ops as [|op ops IH]; intros s Ht; simpl; [by apply wp_ret|].
  apply wp_bind. eapply wp_mono; [by apply wp_run_op|]. intros ? s1 Ht1. by apply IH.
Qed.

End Rec.

#[local] Transparent wp.

(** A run that ends, from a new tunnel. *)
Lemma run_ops_top tid fuel ops f mode s :
  run_ops tid fuel ops (tunnel_new f mode) = Done (tt, s) → top s.
Proof.
  intros Hrun. pose proof (wp_run_ops tid fuel ops _ (top_new f mode)) as H.
  unfold wp in H. by rewrite Hrun in H.
Qed.

End Runs.

Section Theorems.
Context {A F : Type} `{!SocketAddressOps A, !TunnelFilter A F, !TunnelEnv A}.

(** Claim C6. In a release build no sequence of calls, with any events between and inside
    them that the collaborators are permitted to raise, makes the tunnel
    dereference a connection that was freed, call an object that is gone, erase
    through a stale iterator or throw: the run ends in a state, unless the
    environment did what it must not. *)
Theorem tunnel_never_faults tid fuel ops (f : F) mode :
  t_ndebug = true → run_ops tid fuel ops (tunnel_new f mode) ≠ Fault.
Proof.
  intros release E. pose proof (wp_run_ops release tid fuel ops _ (top_new f mode)) as H. unfold wp in H. by rewrite E in H.
Qed.

(** Claim C9. Whatever the run, both tables lead to live connections that carry the
    identifier, no identifier belongs to two connections, a connection that was
    not opened has no identifier of an upstream, and one that replaces another has
    no client. *)
Theorem tunnel_tables_consistent tid fuel ops (f : F) mode s :
  t_ndebug = true → run_ops tid fuel ops (tunnel_new f mode) = Done (tt, s) →
  (∀ id p, t_by_client s !! id = Some p → ∃ c, t_heap s !! p = Some c ∧ c_client_id c = id)
  ∧ (∀ id p, t_by_server s !! id = Some p → ∃ c, t_heap s !! p = Some c ∧ c_server_id c = id)
  ∧ (∀ p q c d, t_heap s !! p = Some c → t_heap s !! q = Some d → p ≠ q →
       (c_client_id c = c_client_id d → c_client_id c = NON_ID)
       ∧ (c_server_id c = c_server_id d → c_server_id c = NON_ID))
  ∧ ∀ p c, t_heap s !! p = Some c →
      (waiting_open (c_state c) = true → c_server_id c = NON_ID)
      ∧ (c_state c = CONNS_WAITING_RESPONSE_MIGRATING → c_client_id c = NON_ID).
Proof.
  intros release Hrun. destruct (run_ops_top release _ _ _ _ _ _ Hrun) as [[] _ _]. split_and!.
  - intros id p Hp. by destruct (i_client id p Hp).
  - intros id p Hp. by destruct (i_server id p Hp).
  - intros p q c d Hc Hd Hne. split; intros E; destruct (decide (c_client_id c = NON_ID)) as [?|Hn];
      destruct (decide (c_server_id c = NON_ID)) as [?|Hm]; try done; exfalso; apply Hne; eauto.
  - intros p c Hc. destruct (i_conn p c Hc) as [_ []]. split; [done|]. intros Hst. by destruct (ck_migrating Hst).
Qed.

(** Claim C7. A connection is opened on the direct upstream, past the VPN, only if the
    client asked to bypass for that connection, or the filter had answered that
    the destination address is an exclusion, or the filter was in the selective
    mode. *)
Theorem bypass_only_when_justified tid fuel ops (f : F) mode s pre post u id src dst proto app :
  t_ndebug = true → run_ops tid fuel ops (tunnel_new f mode) = Done (tt, s) →
  t_out s = pre ++ UOpen u id src dst proto app :: post → class_of u = DirectUpstream →
  Asked id (Some VPN_CA_FORCE_BYPASS) ∈ pre
  ∨ (∃ a name, dst = ToAddress a ∧ FMatchTag (mkTag a name) DFMS_EXCLUSION ∈ pre)
  ∨ FMode VPN_MODE_SELECTIVE ∈ pre.
Proof.
  intros release Hrun Ho Hu. destruct (run_ops_top release _ _ _ _ _ _ Hrun) as [[] _ _]. by eapply i_opens.
Qed.

(** Claim C8. The bytes taken from a client of TCP that has not been migrated are, in order,
    the bytes its upstream accepted followed by those the tunnel keeps: none is
    lost, sent twice or out of order. *)
Theorem tunnel_stream_integrity tid fuel ops (f : F) mode s id p c :
  t_ndebug = true → run_ops tid fuel ops (tunnel_new f mode) = Done (tt, s) →
  t_by_client s !! id = Some p → t_heap s !! p = Some c → c_proto c = IPPROTO_TCP → migrated id (t_out s) = false →
  taken_from id (t_out s) = sent_by id (t_out s) ++ concat (c_buffered c).
Proof.
  intros release Hrun Hcl Hc Ht Hm. destruct (run_ops_top release _ _ _ _ _ _ Hrun) as [[] _ Hb].
  rewrite <- (app_nil_r (taken_from _ _)). eapply i_stream; try done; [rewrite Hb; apply not_elem_of_nil|apply not_elem_of_nil].
Qed.

End Theorems.
