(* ===== verification/TunnelDemo.v ===== *)
(** * Runs of a concrete tunnel

    A tunnel with one listener, an endpoint and a direct upstream, the filter of
    the examples of the domain filter, and collaborators that answer at once:
    instances of the theorems, and runs that show what the code does when a
    migration fails, when the upstream reports between two fragments, when a
    request is completed twice. *)
From S2P Require Import Prelude VpnTypes WireUtils IcmpMux IcmpManager DomainFilter DomainFilterProps ConnStats Tunnel TunnelInv TunnelRuns.

#[local] Existing Instance plain_addr_eq_dec.
#[local] Existing Instance plain_text.
#[local] Existing Instance plain_ranges.
#[local] Existing Instance plain_cache.
#[local] Existing Instance tag_eq_dec.

Definition TheListener : Z := 1.
Definition TheEndpoint : Z := 10.
Definition TheDirect : Z := 11.
Definition TheResolver : Z := 20.
Definition TheFake : Z := 21.
Definition TheDns : Z := 22.

(** The upstreams that connections were opened on: the identifiers are 1001,
    1002, and so on.  Sends are complete, there is room for more. *)
Definition opened_on (tr : list (TunOut plain_addr)) : list Z :=
  omap (λ o, match o with UOpen u _ _ _ _ _ => Some u | _ => None end) tr.
Definition demo_answer (tr : list (TunOut plain_addr)) : Z :=
  match last tr with
  | Some (UOpen _ _ _ _ _ _) => 1000 + Z.of_nat (length (opened_on tr))
  | Some (USend _ _ _ data) | Some (LSend _ _ data) => Z.of_nat (length data)
  | Some (UAvailable _ _) => 65536
  | _ => 0
  end.

(** The name is in the data once there are four bytes of it. *)
Definition demo_extract (tr : list (TunOut plain_addr)) : DomainExtractorResult :=
  match last tr with
  | Some (XProceed _ _ _ data) =>
      if (length data <? 4)%nat then mkExtracted DES_WANT_MORE [] else mkExtracted DES_FOUND (s2l "www.example.com")
  | _ => mkExtracted DES_NOTFOUND []
  end.

(** Listeners accept and close inside the call; upstreams close a connection of
    theirs. *)
Definition demo_raises (tr : list (TunOut plain_addr)) : list (TunEvent plain_addr) :=
  match last tr with
  | Some (LComplete l id CCR_PASS) => [ClientAccepted l id]
  | Some (LComplete l id _) | Some (LClose l id _ _) => [ClientClosed l id]
  | Some (UClose u id _ _) =>
      if bool_decide (opened_on tr !! Z.to_nat (id - 1001) = Some u) then [ServerConnectionClosed u id] else []
  | _ => []
  end.

Definition demo_env (early_ack : bool) : TunnelEnv plain_addr := {|
  t_ndebug := true;
  AG_ETIMEDOUT := 110;
  AG_ENETUNREACH := 101;
  AG_EHOSTUNREACH := 113;
  AG_ECONNREFUSED := 111;
  AG_ECONNRESET := 104;
  is_loopback a := match pa_bytes a with 127 :: _ => true | _ => false end;
  ip_version a := if (length (pa_bytes a) =? 4)%nat then Some true else None;
  no_address := mkPlain [] 0;
  is_valid_ip s := false;
  make_address s p := mkPlain [] p;
  is_domain_scannable_port p := (p =? 80) || (p =? 443);
  tcp_early_ack := early_ack;
  preresolve := None;
  upstream_timeout := 30;
  has_hostname_cache := false;
  parse_quic_header _ := None;
  prepare_for_domain_lookup _ := None;
  class_of u := if u =? TheEndpoint then EndpointUpstream else if u =? TheDirect then DirectUpstream
                else if u =? TheFake then FakeUpstream else DnsUpstream;
  table_order m := (map_to_list m).*1;
  ip_available _ _ _ := true;
  may_send_icmp _ := true;
  is_resolver_connection _ _ := false;
  clock tr := Z.of_nat (length tr);
  answer := demo_answer;
  answer_flow _ := (65536, 65536);
  answer_extract := demo_extract;
  answer_cache _ := None;
  answer_id tr := Some (Z.of_nat (length tr));
  answer_time tr := Some (Z.of_nat (length tr));
  answer_ok _ := true;
  raises := demo_raises;
|}.

#[local] Notation PlainFilter := (DomainFilter plain_addr (list (list Z * Z))
  (list (SockAddrTag plain_addr * str)) (list (plain_addr * Z))).
#[local] Notation op := (@TunOp plain_addr PlainFilter).
#[local] Notation tunnel := (@Tunnel plain_addr PlainFilter).

Definition demo_tunnel : tunnel := tunnel_new example_filter VPN_MODE_GENERAL.
Definition web_src : plain_addr := mkPlain [10; 0; 0; 2] 50000.
Definition web_dst : plain_addr := mkPlain [93; 184; 216; 34] 443.

(** The state a run ends in. *)
Definition ends (r : TunRes (unit * tunnel)) : tunnel := match r with Done (_, s) => s | _ => demo_tunnel end.
Definition demo_run (early_ack : bool) (ops : list op) : TunRes (unit * tunnel) :=
  run_ops (TunnelEnv0 := demo_env early_ack) 7 4 ops demo_tunnel.

Definition start_ops : list op :=
  [OpClient (Some TheEndpoint) (Some TheDirect) (Some TheListener) None;
   OpInit TheResolver TheFake TheDns;
   OpEvent (ServerSessionOpened TheEndpoint)].

Definition request (id : Z) : op :=
  OpEvent (ClientConnectRequest TheListener id IPPROTO_TCP web_src (ToAddress web_dst) [] false).

(** A connection of which the tunnel keeps the first fragment, and the rest of the
    first packet: its name is one of the exclusions. *)
Definition fragment_ops (u : Z) : list op :=
  start_ops ++ [request 100; OpComplete 100 None; OpEvent (ServerConnectionOpened u 1001);
                OpEvent (ClientRead TheListener 100 [22; 3; 1])].
Definition reroute_ops (u : Z) : list op := fragment_ops u ++ [OpEvent (ClientRead TheListener 100 [0; 5; 1; 2])].

(** The bytes sent to an upstream. *)
Definition sent_to (u : Z) (tr : list (TunOut plain_addr)) : list Z :=
  concat (omap (λ o, match o with USend v _ _ data => if v =? u then Some data else None | _ => None end) tr).

(** ** Instances of the theorems *)

Definition rerouted : tunnel := ends (demo_run true (reroute_ops TheFake)).

Lemma tunnel_never_faults_witness :
  @t_ndebug _ (demo_env true) = true ∧ run_ops (TunnelEnv0 := demo_env true) 7 4 (reroute_ops TheFake) demo_tunnel ≠ Fault
  ∧ demo_run true (reroute_ops TheFake) = Done (tt, rerouted).
Proof.
  split; [reflexivity|]. split; [apply (tunnel_never_faults (TunnelEnv0 := demo_env true)); reflexivity|].
  vm_compute. reflexivity.
Defined.

(** The connection and the one that is to replace it. *)
Lemma tunnel_tables_consistent_witness :
  map_size (t_heap rerouted) = 2%nat
  ∧ (∀ id p, t_by_client rerouted !! id = Some p → ∃ c, t_heap rerouted !! p = Some c ∧ c_client_id c = id).
Proof.
  split; [vm_compute; reflexivity|].
  apply (tunnel_tables_consistent (TunnelEnv0 := demo_env true) 7 4 (reroute_ops TheFake) example_filter VPN_MODE_GENERAL rerouted);
    [reflexivity|vm_compute; reflexivity].
Defined.

(** The filter takes the address for an exclusion once the name is known. *)
Lemma bypass_only_when_justified_witness :
  t_out rerouted = take 29 (t_out rerouted) ++ UOpen TheDirect 100 web_src (ToAddress web_dst) IPPROTO_TCP [] :: drop 30 (t_out rerouted)
  ∧ (Asked 100 (Some VPN_CA_FORCE_BYPASS) ∈ take 29 (t_out rerouted)
     ∨ (∃ a name, ToAddress web_dst = ToAddress a ∧ FMatchTag (mkTag a name) DFMS_EXCLUSION ∈ take 29 (t_out rerouted))
     ∨ FMode VPN_MODE_SELECTIVE ∈ take 29 (t_out rerouted)).
Proof.
  assert (t_out rerouted = take 29 (t_out rerouted) ++ UOpen TheDirect 100 web_src (ToAddress web_dst) IPPROTO_TCP [] :: drop 30 (t_out rerouted)) as E
    by (vm_compute; reflexivity).
  split; [exact E|].
  apply (bypass_only_when_justified (TunnelEnv0 := demo_env true) 7 4 (reroute_ops TheFake) example_filter VPN_MODE_GENERAL rerouted
    (take 29 (t_out rerouted)) (drop 30 (t_out rerouted)) TheDirect 100 web_src (ToAddress web_dst) IPPROTO_TCP [] eq_refl); [vm_compute; reflexivity|exact E|reflexivity].
Defined.

(** A fragment is kept and the endpoint has accepted nothing yet. *)
Definition kept : tunnel := ends (demo_run true (fragment_ops TheFake)).

Lemma tunnel_stream_integrity_witness :
  taken_from 100 (t_out kept) = [22; 3; 1]
  ∧ ∃ c, t_heap kept !! 0 = Some c ∧ taken_from 100 (t_out kept) = sent_by 100 (t_out kept) ++ concat (c_buffered c).
Proof.
  split; [vm_compute; reflexivity|].
  destruct (t_heap kept !! 0) as [c|] eqn:E; [|vm_compute in E; discriminate]. exists c. split; [reflexivity|].
  apply (tunnel_stream_integrity (TunnelEnv0 := demo_env true) 7 4 (fragment_ops TheFake) example_filter VPN_MODE_GENERAL kept 100 0 c);
    [reflexivity|vm_compute; reflexivity|vm_compute; reflexivity|exact E| |vm_compute; reflexivity].
  vm_compute in E. injection E as <-. reflexivity.
Defined.

(** ** What goes wrong *)

(** What a run shows: the connections with their upstreams and buffers. *)
Definition observe {X} (f : tunnel → X) (r : TunRes (unit * tunnel)) : option X :=
  match r with Done (_, s) => Some (f s) | _ => None end.
Definition connections (s : tunnel) : list (Z * option Z * Z * VpnConnectionState * list (list Z)) :=
  (λ x, (x.1, c_upstream x.2, c_server_id x.2, c_state x.2, c_buffered x.2)) <$> map_to_list (t_heap s).

(** The calls that close a connection. *)
Definition upstream_closed (u id : Z) (tr : list (TunOut plain_addr)) : bool :=
  existsb (λ o, match o with UClose v i _ _ => (v =? u) && (i =? id) | _ => false end) tr.
Definition listener_closed (id : Z) (tr : list (TunOut plain_addr)) : bool :=
  existsb (λ o, match o with LClose _ i _ _ => i =? id | _ => false end) tr.
Definition reading (tr : list (TunOut plain_addr)) : option bool :=
  last (omap (λ o, match o with LTurnRead _ _ on => Some on | _ => None end) tr).

(** When the new upstream of a connection fails, the tunnel closes the old
    connection on the upstream that failed, which does not have it, and drops the
    new one: the client keeps a connection that is being migrated for ever, with
    reading turned off, and the old upstream is never told. *)
Theorem failed_migration_strands_client code :
  observe (λ s, (upstream_closed TheDirect 1001 (t_out s), upstream_closed TheFake 1001 (t_out s),
                 listener_closed 100 (t_out s), reading (t_out s), map_to_list (t_tasks s),
                 map_to_list (t_by_client s), connections s))
    (demo_run true (reroute_ops TheFake ++ [OpEvent (ServerFailed TheDirect 1002 code)]))
  = Some (true, false, false, Some false, [], [(100, 0)],
          [(0, Some TheFake, 1001, CONNS_CONNECTED_MIGRATING, [])]).
Proof. vm_compute. reflexivity. Qed.

(** The beginning of a stream waits in the tunnel, the endpoint reports that it
    has room for [n] bytes, and the rest of the first packet arrives. *)
Definition flushed_ops (n : Z) : list op :=
  fragment_ops TheEndpoint
  ++ [OpEvent (ServerDataSent TheEndpoint 1001 n); OpTask 0; OpEvent (ClientRead TheListener 100 [0; 5; 1; 2]);
      OpEvent (ServerConnectionOpened TheDirect 1002); OpEvent (ClientRead TheListener 100 [0; 5; 1; 2])].

(** Data that waits for the rest of the first packet is sent when the upstream
    reports that it has room; the connection is then migrated as if nothing had
    been sent: the new upstream gets the stream without its beginning. *)
Theorem migration_loses_sent_fragment n :
  observe (λ s, (taken_from 100 (t_out s), sent_to TheEndpoint (t_out s), sent_to TheDirect (t_out s),
                 map_to_list (t_by_client s), connections s))
    (demo_run false (flushed_ops n))
  = Some ([22; 3; 1; 0; 5; 1; 2], [22; 3; 1], [0; 5; 1; 2], [(100, 1)],
          [(1, Some TheDirect, 1002, CONNS_CONNECTED, [])]).
Proof. vm_compute. reflexivity. Qed.
