(* ===== verification/Effects.v ===== *)
(** * Stateful code that can fault

    The monad of components that work on a heap of objects and call back and
    forth with their environment: a run ends in a state, in a fault of the
    component, with its cause, or in a fault of the environment, which did what it
    must not.  [wp] is the weakest precondition with the rules the components'
    proofs go by. *)
From S2P Require Import Prelude.

Inductive Outcome (W X : Type) := Done (x : X) | Fault (why : W) | EnvFault.
Arguments Done {W X}.
Arguments Fault {W X}.
Arguments EnvFault {W X}.

Definition Eff (W S X : Type) : Type := S → Outcome W (X * S).

Section Monad.
Context {W S : Type}.

#[global] Instance Eff_ret : MRet (Eff W S) := λ X x s, Done (x, s).
#[global] Instance Eff_bind : MBind (Eff W S) := λ X Y f m s,
  match m s with Done (x, s) => f x s | Fault w => Fault w | EnvFault => EnvFault end.

Definition fault {X} (w : W) : Eff W S X := λ _, Fault w.
Definition env_fault {X} : Eff W S X := λ _, EnvFault.
Definition gets {X} (f : S → X) : Eff W S X := λ s, Done (f s, s).
Definition modify (f : S → S) : Eff W S unit := λ s, Done (tt, f s).
Definition skip : Eff W S unit := mret tt.
Definition when (b : bool) (m : Eff W S unit) : Eff W S unit := if b then m else skip.

Fixpoint for_each {X} (f : X → Eff W S unit) (xs : list X) : Eff W S unit :=
  match xs with [] => skip | x :: xs => _ ← f x; for_each f xs end.

(** ** Weakest preconditions: the faults in [E] are the accepted ones. *)

Definition wp (E : W → Prop) {X} (m : Eff W S X) (Q : X → S → Prop) (s : S) : Prop :=
  match m s with Done (x, s') => Q x s' | Fault w => E w | EnvFault => True end.

Context (E : W → Prop).

Lemma eff_wp_ret {X} (x : X) (Q : X → S → Prop) s : Q x s → wp E (mret x) Q s.
Proof. done. Qed.

Lemma eff_wp_bind {X Y} (m : Eff W S X) (f : X → Eff W S Y) (Q : Y → S → Prop) s :
  wp E m (λ x s, wp E (f x) Q s) s → wp E (m ≫= f) Q s.
Proof. unfold wp, mbind, Eff_bind. by destruct (m s) as [[x s']|w|]. Qed.

Lemma eff_wp_mono {X} (m : Eff W S X) (P Q : X → S → Prop) s :
  wp E m P s → (∀ x s', P x s' → Q x s') → wp E m Q s.
Proof. unfold wp. destruct (m s) as [[x s']|w|]; auto. Qed.

Lemma eff_wp_gets {X} (f : S → X) (Q : X → S → Prop) s : Q (f s) s → wp E (gets f) Q s.
Proof. done. Qed.

Lemma eff_wp_modify f (Q : unit → S → Prop) s : Q tt (f s) → wp E (modify f) Q s.
Proof. done. Qed.

Lemma eff_wp_env_fault {X} (Q : X → S → Prop) s : wp E env_fault Q s.
Proof. done. Qed.

Lemma wp_fault {X} w (Q : X → S → Prop) s : E w → wp E (fault w) Q s.
Proof. done. Qed.

Lemma wp_when (b : bool) m (Q : unit → S → Prop) s :
  (b = true → wp E m Q s) → (b = false → Q tt s) → wp E (when b m) Q s.
Proof. destruct b; intros H1 H2; [by apply H1|by apply H2]. Qed.

(** A program runs on after a part of it that ends. *)
Lemma eff_bind_done {X Y} (m : Eff W S X) (f : X → Eff W S Y) s x s' : m s = Done (x, s') → (m ≫= f) s = f x s'.
Proof. unfold mbind, Eff_bind. by intros ->. Qed.

(** A loop keeps an invariant that speaks of what is left to do. *)
Lemma wp_for_each {X} (f : X → Eff W S unit) (I : list X → S → Prop) xs s :
  I xs s →
  (∀ x xs s, I (x :: xs) s → wp E (f x) (λ _ s', I xs s') s) →
  wp E (for_each f xs) (λ _ s', I [] s') s.
Proof.
  intros H Hstep. revert s H. induction xs as [|x xs IH]; intros s H; [done|].
  simpl. apply eff_wp_bind. eapply eff_wp_mono; [by apply Hstep|]. intros ? s'. apply IH.
Qed.

End Monad.

Lemma wp_run {W S X} (E : W → Prop) (m : Eff W S X) Q s :
  wp E m Q s ↔ match m s with Done (x, s') => Q x s' | Fault w => E w | EnvFault => True end.
Proof. done. Qed.

Arguments wp {W S} E {X} m Q s : simpl never.
#[global] Opaque wp.

(** One step of a proof about a program. *)
Ltac wp_step :=
  lazymatch goal with
  | |- wp _ (_ ≫= _) _ _ => apply eff_wp_bind
  | |- wp _ (mret _) _ _ => apply eff_wp_ret
  | |- wp _ skip _ _ => apply eff_wp_ret
  | |- wp _ (gets _) _ _ => apply eff_wp_gets
  | |- wp _ (modify _) _ _ => apply eff_wp_modify
  | |- wp _ env_fault _ _ => apply eff_wp_env_fault
  | |- wp _ (when _ _) _ _ => apply wp_when
  | |- wp _ (if ?b then _ else _) _ _ => destruct b eqn:?
  | |- wp _ (let '(_, _) := ?p in _) _ _ => destruct p eqn:?
  end.
Ltac wp_steps := repeat (wp_step; try (intros ?)).
