(* ===== verification/TcpSocket.v ===== *)
(** * The reading side of a TCP socket

    The input of [net/src/tcp_socket.cpp]: the blocks that were decrypted while
    the TLS handshake ended ([ssl_pending]), the input buffer of the bufferevent,
    the end of the stream, the switch for reading and the task that goes on with
    what is buffered.  libevent's buffer is a list of bytes; how many of them are
    contiguous, which is what [evbuffer_peek] shows, is an argument. *)
From S2P Require Import Prelude.

Record TcpSocket := mkSocket {
  ts_ssl : bool;                      (** [ssl] is set: the handshake goes on *)
  ts_ssl_pending : list (list Z);
  ts_input : list Z;
  ts_eof : bool;                      (** [SF_GOT_EOF] *)
  ts_rst : bool;                      (** [SF_RST_SET] *)
  ts_reading : bool;                  (** [EV_READ] is enabled *)
  ts_task : bool;                     (** [complete_read_task_id] has a value *)
}.

Definition set_ts_ssl_pending (x : list (list Z)) (k : TcpSocket) : TcpSocket :=
  mkSocket (ts_ssl k) x (ts_input k) (ts_eof k) (ts_rst k) (ts_reading k) (ts_task k).
Definition set_ts_input (x : list Z) (k : TcpSocket) : TcpSocket :=
  mkSocket (ts_ssl k) (ts_ssl_pending k) x (ts_eof k) (ts_rst k) (ts_reading k) (ts_task k).
Definition set_ts_eof (x : bool) (k : TcpSocket) : TcpSocket :=
  mkSocket (ts_ssl k) (ts_ssl_pending k) (ts_input k) x (ts_rst k) (ts_reading k) (ts_task k).
Definition tcp_socket_set_rst (x : bool) (k : TcpSocket) : TcpSocket :=
  mkSocket (ts_ssl k) (ts_ssl_pending k) (ts_input k) (ts_eof k) x (ts_reading k) (ts_task k).
Definition set_ts_reading (x : bool) (k : TcpSocket) : TcpSocket :=
  mkSocket (ts_ssl k) (ts_ssl_pending k) (ts_input k) (ts_eof k) (ts_rst k) x (ts_task k).
Definition set_ts_task (x : bool) (k : TcpSocket) : TcpSocket :=
  mkSocket (ts_ssl k) (ts_ssl_pending k) (ts_input k) (ts_eof k) (ts_rst k) (ts_reading k) x.

(** A socket that wraps a connected descriptor: reading is off until the owner
    turns it on. *)
Definition tcp_socket_acquire_fd : TcpSocket := mkSocket false [] [] false false false false.

Definition tcp_socket_is_read_enabled (k : TcpSocket) : bool := ts_reading k.

Definition tcp_socket_set_read_enabled (flag : bool) (k : TcpSocket) : TcpSocket :=
  if Bool.eqb (ts_reading k) flag then k
  else if flag then
    let k := set_ts_reading true k in
    if negb (ts_task k)
       && (negb (bool_decide (ts_input k = [])) || ts_eof k || ts_ssl k || negb (bool_decide (ts_ssl_pending k = [])))
    then set_ts_task true k else k
  else set_ts_task false (set_ts_reading false k).

Inductive PeekResult := NoData | Chunk (data : list Z) | Eof.

(** The first [contiguous] bytes of the buffer lie together, at least one. *)
Definition tcp_socket_peek (contiguous : nat) (k : TcpSocket) : PeekResult :=
  match ts_ssl_pending k with
  | block :: _ => Chunk block
  | [] =>
      match ts_input k with
      | [] => if ts_eof k then Eof else NoData
      | _ => Chunk (take (S contiguous) (ts_input k))
      end
  end.

(** The loop over [ssl_pending]: what is left of it and the count that goes to the
    buffer. *)
Fixpoint drain_pending (n : nat) (blocks : list (list Z)) : list (list Z) * nat :=
  match n, blocks with
  | O, _ | _, [] => (blocks, n)
  | _, block :: rest =>
      if (length block <=? n)%nat then drain_pending (n - length block) rest else (drop n block :: rest, n)
  end.

(** [drained] tells whether [evbuffer_drain] succeeds. *)
Definition tcp_socket_drain (drained : bool) (n : nat) (k : TcpSocket) : bool * TcpSocket :=
  let '(blocks, n) := drain_pending n (ts_ssl_pending k) in
  let k := set_ts_ssl_pending blocks k in
  if (n =? 0)%nat then (true, k)
  else if drained then (true, set_ts_input (drop n (ts_input k)) k) else (false, k).

(** The callback for data, once there is no handshake to drive: whether the owner
    is told that the socket is readable. *)
Definition on_read (k : TcpSocket) : bool * TcpSocket :=
  let k := set_ts_task false k in (ts_reading k, k).

(** [BEV_EVENT_EOF]: libevent has turned reading off. *)
Definition on_eof (k : TcpSocket) : TcpSocket := set_ts_eof true (set_ts_reading false k).

(** ** What is left to read *)

Definition unread (k : TcpSocket) : list Z := concat (ts_ssl_pending k) ++ ts_input k.

(** A chunk is the beginning of what is left, and never empty unless a decrypted
    block is. *)
Lemma peek_unread n k data :
  tcp_socket_peek n k = Chunk data → ∃ rest, unread k = data ++ rest.
Proof.
  unfold tcp_socket_peek, unread. destruct (ts_ssl_pending k) as [|b bs]; simpl.
  - destruct (ts_input k) as [|x xs]; [by destruct (ts_eof k)|]. intros [= <-].
    exists (drop n xs). simpl. by rewrite take_drop.
  - intros [= ->]. exists (concat bs ++ ts_input k). by rewrite app_assoc.
Qed.

(** Without decrypted blocks draining takes just what it is told. *)
Lemma drain_unread drained n k :
  ts_ssl_pending k = [] →
  match tcp_socket_drain drained n k with
  | (true, k') => k' = set_ts_input (drop n (ts_input k)) k
  | (false, k') => k' = k ∧ drained = false ∧ n ≠ 0%nat
  end.
Proof.
  destruct k as [ssl p i e r g t]. simpl. intros ->. unfold tcp_socket_drain. by destruct n as [|n], drained.
Qed.

(** Claim C37. Draining part of the first decrypted block takes the same number of bytes a
    second time, from the input buffer: they never reach the reader. *)
Theorem partial_drain_loses_input n k block rest :
  ts_ssl_pending k = block :: rest → (0 < n < length block)%nat →
  ∃ k', tcp_socket_drain true n k = (true, k')
        ∧ unread k' = drop n block ++ concat rest ++ drop n (ts_input k)
        ∧ (ts_input k ≠ [] → unread k' ≠ drop n (unread k)).
Proof.
  intros Hp Hn. unfold tcp_socket_drain. rewrite Hp.
  assert (Hd : drain_pending n (block :: rest) = (drop n block :: rest, n)).
  { destruct n as [|n]; [lia|]. simpl. by rewrite (proj2 (Nat.leb_gt _ _)) by lia. }
  rewrite Hd, (proj2 (Nat.eqb_neq n 0)) by lia. eexists. split; [done|]. unfold unread. simpl.
  rewrite <- app_assoc. split; [done|]. intros Hi. rewrite Hp. simpl.
  rewrite <- app_assoc, drop_app_le by lia. intros H%app_inv_head%app_inv_head.
  apply (f_equal length) in H. rewrite length_drop in H. destruct (ts_input k); simpl in *; [done|lia].
Qed.

Lemma partial_drain_loses_input_witness :
  ∃ k', tcp_socket_drain true 1 (mkSocket false [[1; 2]] [3; 4] false false true false) = (true, k') ∧ unread k' = [2; 4].
Proof.
  destruct (partial_drain_loses_input 1 (mkSocket false [[1; 2]] [3; 4] false false true false) [1; 2] [])
    as (k' & H & Hu & _); [done|simpl; lia|]. by exists k'.
Defined.
