(* ===== verification/Socks5Wire.v ===== *)
(** * Messages of the SOCKS5 listener

    The constants, the parsers and the writers of [net/src/socks5_listener.cpp], on
    lists of bytes.  A parser gets the bytes of the socket from the message's
    first one on.  The theorems compare the parsers with the messages of RFC 1928
    and RFC 1929, with the listener's extension for names of applications. *)
From S2P Require Import Prelude WireUtils.

Definition SOCKS5_VER : Z := 0x05.
Definition USERNAME_PASSWORD_VER : Z := 0x01.

Definition S5AM_NO_AUTHENTICATION_REQUIRED : Z := 0x00.
Definition S5AM_USERNAME_PASSWORD : Z := 0x02.
Definition S5AM_NO_AUTHENTICATION_REQUIRED_APPNAME : Z := 0x80.
Definition S5AM_USERNAME_PASSWORD_APPNAME : Z := 0x82.
Definition S5AM_NO_ACCEPTABLE_METHODS : Z := 0xff.

Definition S5CMD_CONNECT : Z := 0x01.
Definition S5CMD_BIND : Z := 0x02.
Definition S5CMD_UDP_ASSOCIATE : Z := 0x03.

Definition S5AT_IPV4 : Z := 0x01.
Definition S5AT_DOMAINNAME : Z := 0x03.
Definition S5AT_IPV6 : Z := 0x04.
Definition S5AT_IPV4_APPNAME : Z := 0xf1.
Definition S5AT_DOMAINNAME_APPNAME : Z := 0xf3.
Definition S5AT_IPV6_APPNAME : Z := 0xf4.

Inductive Socks5ReplyStatus :=
  | S5RS_SUCCEEDED
  | S5RS_SOCKS_SERVER_FAILURE
  | S5RS_CONNECTION_NOT_ALLOWED_BY_RULESET
  | S5RS_NETWORK_UNREACHABLE
  | S5RS_HOST_UNREACHABLE
  | S5RS_CONNECTION_REFUSED
  | S5RS_TTL_EXPIRED
  | S5RS_COMMAND_NOT_SUPPORTED
  | S5RS_ADDRESS_TYPE_NOT_SUPPORTED.

(** The value of an enumerator, as it goes on the wire. *)
Definition status_code (s : Socks5ReplyStatus) : Z :=
  match s with
  | S5RS_SUCCEEDED => 0
  | S5RS_SOCKS_SERVER_FAILURE => 1
  | S5RS_CONNECTION_NOT_ALLOWED_BY_RULESET => 2
  | S5RS_NETWORK_UNREACHABLE => 3
  | S5RS_HOST_UNREACHABLE => 4
  | S5RS_CONNECTION_REFUSED => 5
  | S5RS_TTL_EXPIRED => 6
  | S5RS_COMMAND_NOT_SUPPORTED => 7
  | S5RS_ADDRESS_TYPE_NOT_SUPPORTED => 8
  end.

Inductive Socks5ConnectResult := S5LCR_SUCCESS | S5LCR_REJECT | S5LCR_TIMEOUT | S5LCR_UNREACHABLE.

Definition CONNECT_RESULT_TO_STATUS (r : Socks5ConnectResult) : Socks5ReplyStatus :=
  match r with
  | S5LCR_SUCCESS => S5RS_SUCCEEDED
  | S5LCR_REJECT => S5RS_CONNECTION_REFUSED
  | S5LCR_TIMEOUT => S5RS_TTL_EXPIRED
  | S5LCR_UNREACHABLE => S5RS_HOST_UNREACHABLE
  end.

(** [Socks5ConnectionAddress]: the union of the two kinds. *)
Inductive Socks5ConnectionAddress (A : Type) :=
  | S5Sockaddr (ip : A)
  | S5DomainName (name : list Z) (port : Z).
Arguments S5Sockaddr {A}.
Arguments S5DomainName {A}.

#[export] Instance s5addr_eq_dec {A} `{!EqDecision A} : EqDecision (Socks5ConnectionAddress A).
Proof. solve_decision. Defined.

#[export] Instance s5addr_countable {A} `{Countable A} : Countable (Socks5ConnectionAddress A).
Proof.
  refine (inj_countable'
    (λ d, match d with S5Sockaddr a => inl a | S5DomainName n p => inr (n, p) end)
    (λ x, match x with inl a => S5Sockaddr a | inr (n, p) => S5DomainName n p end) _).
  by intros [].
Defined.

(** ** Parsers *)

Definition has_app_name (type : Z) : bool :=
  (type =? S5AT_IPV4_APPNAME) || (type =? S5AT_DOMAINNAME_APPNAME) || (type =? S5AT_IPV6_APPNAME).

(** The number of bytes of the address field; negative if more data is needed.
    A length is read from the data as an unsigned byte. *)
Definition addr_length_from_request (type : Z) (data : list Z) : Z :=
  if type =? S5AT_IPV4 then 4
  else if type =? S5AT_DOMAINNAME then match data with [] => -1 | n :: _ => 1 + u8 n end
  else if type =? S5AT_IPV6 then 16
  else if type =? S5AT_IPV4_APPNAME then match data with [] => -1 | n :: _ => 1 + u8 n + 4 end
  else if type =? S5AT_DOMAINNAME_APPNAME then
    match data with
    | [] => -1
    | n :: _ => match data !! Z.to_nat (u8 n + 1) with None => -1 | Some m => 1 + u8 n + 1 + u8 m end
    end
  else if type =? S5AT_IPV6_APPNAME then match data with [] => -1 | n :: _ => 1 + u8 n + 16 end
  else 0.

(** [{data, n}] as a string; [None] reads past the end. *)
Definition bytes_at (n : Z) (data : list Z) : option (list Z) :=
  if (Z.to_nat n <=? length data)%nat then Some (take (Z.to_nat n) data) else None.

Definition app_name_from_request (type : Z) (data : list Z) : option (list Z) :=
  if has_app_name type then match data with [] => None | n :: data => bytes_at (u8 n) data end
  else Some [].

Section Parsers.
Context {A : Type} `{!SocketAddressOps A}.

Definition dst_addr_from_request (type : Z) (data : list Z) : option (Socks5ConnectionAddress A) :=
  '(type, data) ←
    (if has_app_name type
     then match data with [] => None | n :: rest => Some (Z.lxor type 0xf0, drop (Z.to_nat (u8 n)) rest) end
     else Some (type, data));
  if type =? S5AT_DOMAINNAME then
    match data with
    | [] => None
    | n :: rest =>
        name ← bytes_at (u8 n) rest;
        '(p, _) ← get_u16 (drop (Z.to_nat (u8 n)) rest);
        Some (S5DomainName name p)
    end
  else
    let addr_len := if type =? S5AT_IPV4 then 4 else 16 in
    bytes ← bytes_at addr_len data;
    '(p, _) ← get_u16 (drop (Z.to_nat addr_len) data);
    Some (S5Sockaddr (of_bytes bytes p)).

(** [Socks5UsernamePasswordRequest] and the number of bytes it takes. *)
Record UsernamePassword := mkUp { up_ver : Z; up_uname : list Z; up_passwd : list Z; up_size : nat }.

Definition read_username_password_request (data : list Z) : option UsernamePassword :=
  match data with
  | ver :: ulen :: data =>
      let ulen := u8 ulen in
      match data !! Z.to_nat ulen with
      | None => None
      | Some plen =>
          let plen := u8 plen in
          let uname := take (Z.to_nat ulen) data in
          let data := drop (S (Z.to_nat ulen)) data in
          if (length data <? Z.to_nat plen)%nat then None
          else Some (mkUp ver uname (take (Z.to_nat plen) data) (3 + Z.to_nat ulen + Z.to_nat plen))
      end
  | _ => None
  end.

(** The loop over the methods of [Socks5AuthRequest]. *)
Fixpoint choose_method (supported : Z) (methods : list Z) (chosen : Z) : Z :=
  match methods with
  | [] => chosen
  | method :: methods =>
      if method =? supported then choose_method supported methods method
      else if method =? supported + 0x80 then method
      else choose_method supported methods chosen
  end.

(** What the state [S5CONNS_IDLE] makes of its data. *)
Inductive AuthStep := AuthWait | AuthFailed | AuthChosen (method : Z) (to_drain : nat).

Definition parse_auth_request (supported : Z) (chunk : list Z) : AuthStep :=
  match chunk with
  | ver :: nmethods :: rest =>
      let nmethods := u8 nmethods in
      if negb (ver =? SOCKS5_VER) then AuthFailed
      else if (length rest <? Z.to_nat nmethods)%nat then AuthWait
      else
        let method := choose_method supported (take (Z.to_nat nmethods) rest) (-1) in
        if method <? 0 then AuthFailed else AuthChosen method (2 + Z.to_nat nmethods)
  | _ => AuthWait
  end.

(** What the state [S5CONNS_WAITING_REQUEST] makes of its data, up to the point
    where the request is known to be valid.  [set_tcp] says that the command had
    been recognized as CONNECT. *)
Inductive RequestStep :=
  | RequestWait (set_tcp : bool)
  | RequestInvalid (set_tcp : bool) (status : Socks5ReplyStatus) (atyp addr_len : Z) (dst_addr : list Z)
  | RequestValid (cmd atyp addr_len : Z) (dst_addr : list Z).

Definition known_atyp (atyp : Z) : bool :=
  (atyp =? S5AT_IPV4) || (atyp =? S5AT_DOMAINNAME) || (atyp =? S5AT_IPV6) || has_app_name atyp.

Definition parse_request (chunk : list Z) : RequestStep :=
  match chunk with
  | ver :: cmd :: rsv :: atyp :: dst_addr =>
      let addr_len := addr_length_from_request atyp dst_addr in
      let tcp := cmd =? S5CMD_CONNECT in
      if negb (ver =? SOCKS5_VER) then RequestInvalid false S5RS_SOCKS_SERVER_FAILURE atyp addr_len dst_addr
      else if negb (tcp || (cmd =? S5CMD_UDP_ASSOCIATE))
      then RequestInvalid false S5RS_COMMAND_NOT_SUPPORTED atyp addr_len dst_addr
      else if negb (rsv =? 0) then RequestInvalid tcp S5RS_SOCKS_SERVER_FAILURE atyp addr_len dst_addr
      else if negb (known_atyp atyp)
      then RequestInvalid tcp S5RS_ADDRESS_TYPE_NOT_SUPPORTED atyp addr_len dst_addr
      else if (addr_len <? 0) || (Z.of_nat (length dst_addr) <? addr_len + 2) then RequestWait tcp
      else RequestValid cmd atyp addr_len dst_addr
  | _ => RequestWait false
  end.

(** [process_udp_header] up to the look-up of the connection: the values it
    returns for data that is not a header, or the address, the name of the
    application and the size of the header. *)
Inductive UdpHeaderStep :=
  | UdpReturn (r : Z)
  | UdpHeader (dst : Socks5ConnectionAddress A) (app : list Z) (size : nat).

Definition parse_udp_header (data : list Z) : option UdpHeaderStep :=
  match data with
  | rsv1 :: rsv2 :: frag :: atyp :: dst_addr =>
      let addr_len := addr_length_from_request atyp dst_addr in
      if (addr_len <? 0) || (Z.of_nat (length dst_addr) <? addr_len + 2) then Some (UdpReturn 0)
      else if negb ((rsv1 =? 0) && (rsv2 =? 0)) then Some (UdpReturn (-1))
      else if negb (frag =? 0) then Some (UdpReturn (-1))
      else if negb ((atyp =? S5AT_IPV4) || (atyp =? S5AT_IPV6)) then Some (UdpReturn 0)
      else
        dst ← dst_addr_from_request atyp dst_addr;
        app ← app_name_from_request atyp dst_addr;
        Some (UdpHeader dst app (4 + Z.to_nat addr_len + 2))
  | _ => Some (UdpReturn 0)
  end.

(** ** Writers *)

Definition socks_atyp_by_addr (addr : Socks5ConnectionAddress A) : Z :=
  match addr with
  | S5Sockaddr a => if is_ipv4 a then S5AT_IPV4 else S5AT_IPV6
  | S5DomainName _ _ => S5AT_DOMAINNAME
  end.

Definition atyp_size (atyp : Z) (addr : Socks5ConnectionAddress A) : nat :=
  if atyp =? S5AT_IPV4 then IPV4_ADDR_SIZE
  else if atyp =? S5AT_IPV6 then IPV6_ADDR_SIZE
  else match addr with S5DomainName name _ => 1 + length name | S5Sockaddr _ => 0 end.

Definition addr_bytes (dst : Socks5ConnectionAddress A) : list Z :=
  match dst with S5Sockaddr a => addr a | S5DomainName name _ => u8 (Z.of_nat (length name)) :: name end.

(** The reply of [complete_tcp_connection]: the part of a zeroed buffer that is
    sent. *)
Definition tcp_reply (rep : Z) (dst : Socks5ConnectionAddress A) (local_port : Z) : list Z :=
  let atyp := socks_atyp_by_addr dst in
  resize (4 + atyp_size atyp dst + 2)%nat 0
    ([SOCKS5_VER; rep; 0; atyp] ++ addr_bytes dst ++ htons_bytes local_port).

(** The reply of [invalid_request]; [None] copies past the end of the request. *)
Definition invalid_reply (status : Socks5ReplyStatus) (atyp addr_len : Z) (dst_addr : list Z) (local_port : Z) :
    option (list Z) :=
  if addr_len <? 0 then None
  else
    bytes ← bytes_at addr_len dst_addr;
    Some ([SOCKS5_VER; status_code status; 0; atyp] ++ bytes ++ htons_bytes local_port).

(** The reply of [complete_udp_association] with the relay's address; without one
    the loopback address, and a port that is not written ([garbage]). *)
Definition loopback_bytes (atyp : Z) : list Z :=
  if atyp =? S5AT_IPV4 then [127; 0; 0; 1] else replicate 15 0 ++ [1].

Definition association_atyp (bound : option A) (dst : Socks5ConnectionAddress A) : Z :=
  match bound with
  | Some a => if is_ipv4 a then S5AT_IPV4 else S5AT_IPV6
  | None => socks_atyp_by_addr dst
  end.

Definition association_reply (has_event : bool) (bound : option A) (dst : Socks5ConnectionAddress A)
    (garbage : list Z) : list Z :=
  let atyp := association_atyp bound dst in
  let size := if atyp =? S5AT_IPV4 then IPV4_ADDR_SIZE else if atyp =? S5AT_IPV6 then IPV6_ADDR_SIZE else 0%nat in
  let header := [SOCKS5_VER; if has_event then 0 else 1; 0; atyp] in
  match bound with
  | Some a => resize (4 + size + 2)%nat 0 (header ++ addr a ++ htons_bytes (port a))
  | None => take (4 + size + 2)%nat (header ++ loopback_bytes atyp ++ garbage)
  end.

(** The datagram of [socks5_listener_send_data]. *)
Definition udp_datagram (dst : Socks5ConnectionAddress A) (data : list Z) : list Z :=
  match dst with
  | S5Sockaddr a =>
      let atyp := socks_atyp_by_addr dst in
      resize (4 + atyp_size atyp dst + 2 + length data)%nat 0
        ([0; 0; 0; atyp] ++ addr a ++ htons_bytes (port a) ++ data)
  | S5DomainName _ _ => [0; 0; 0; S5AT_DOMAINNAME] ++ htons_bytes 0 ++ data
  end.

End Parsers.
Arguments UdpHeaderStep : clear implicits.

(** ** The parsers stay inside their data *)

Lemma choose_method_range supported methods chosen :
  choose_method supported methods chosen = chosen
  ∨ choose_method supported methods chosen = supported ∨ choose_method supported methods chosen = supported + 0x80.
Proof.
  revert chosen. induction methods as [|m ms IH]; intros chosen; [by left|]. simpl.
  destruct (m =? supported) eqn:E1; [|destruct (m =? supported + 0x80) eqn:E2].
  - apply Z.eqb_eq in E1 as ->. destruct (IH supported) as [?|?]; auto.
  - apply Z.eqb_eq in E2 as ->. auto.
  - apply IH.
Qed.

Lemma parse_auth_chosen supported chunk method n :
  parse_auth_request supported chunk = AuthChosen method n →
  (n ≤ length chunk)%nat ∧ (method = supported ∨ method = supported + 0x80).
Proof.
  destruct chunk as [|ver [|nm rest]]; try done. unfold parse_auth_request.
  repeat case_match; try done. intros [= <- <-]. apply Nat.ltb_ge in H0. split; [simpl; lia|].
  destruct (choose_method_range supported (take (Z.to_nat (u8 nm)) rest) (-1)) as [E|E]; [lia|done].
Qed.

Lemma bytes_at_total n data : (Z.to_nat n ≤ length data)%nat → is_Some (bytes_at n data).
Proof. intros H. unfold bytes_at. rewrite (proj2 (Nat.leb_le _ _)) by done. by eexists. Qed.

Lemma ip_parsed_total {A} `{!SocketAddressOps A} (n : Z) data :
  (Z.to_nat n + 2 ≤ length data)%nat →
  is_Some (bytes ← bytes_at n data; '(p, _) ← get_u16 (drop (Z.to_nat n) data); Some (S5Sockaddr (A:=A) (of_bytes bytes p))).
Proof.
  intros H. destruct (bytes_at_total n data) as [bs ->]; [lia|]. simpl.
  destruct (get_u16_some (drop (Z.to_nat n) data)) as [v ->]; [rewrite length_drop; lia|]. by eexists.
Qed.

Lemma domain_parsed_total {A} (n : Z) data :
  (Z.to_nat n + 2 ≤ length data)%nat →
  is_Some (name ← bytes_at n data; '(p, _) ← get_u16 (drop (Z.to_nat n) data); Some (S5DomainName (A:=A) name p)).
Proof.
  intros H. destruct (bytes_at_total n data) as [bs ->]; [lia|]. simpl.
  destruct (get_u16_some (drop (Z.to_nat n) data)) as [v ->]; [rewrite length_drop; lia|]. by eexists.
Qed.

Lemma request_parsed_total {A} `{!SocketAddressOps A} type data :
  known_atyp type = true → 0 ≤ addr_length_from_request type data →
  addr_length_from_request type data + 2 ≤ Z.of_nat (length data) →
  is_Some (dst_addr_from_request (A:=A) type data) ∧ is_Some (app_name_from_request type data).
Proof.
  intros Hk H0 H. assert (Hc : type = S5AT_IPV4 ∨ type = S5AT_DOMAINNAME ∨ type = S5AT_IPV6 ∨ type = S5AT_IPV4_APPNAME
    ∨ type = S5AT_DOMAINNAME_APPNAME ∨ type = S5AT_IPV6_APPNAME).
  { unfold known_atyp, has_app_name in Hk. repeat rewrite orb_true_iff in Hk. rewrite !Z.eqb_eq in Hk. tauto. }
  clear Hk. unfold dst_addr_from_request, app_name_from_request, addr_length_from_request in *.
  destruct Hc as [->|[->|[->|[->|[->| ->]]]]]; simpl in *.
  - split; [apply ip_parsed_total; lia|by eexists].
  - destruct data as [|n rest]; [lia|]. pose proof (u8_range n). simpl in H. split; [apply domain_parsed_total; lia|by eexists].
  - split; [apply ip_parsed_total; lia|by eexists].
  - destruct data as [|n rest]; [lia|]. pose proof (u8_range n). simpl in H. simpl. split; [|apply bytes_at_total; lia].
    apply ip_parsed_total. rewrite length_drop. lia.
  - destruct data as [|n rest]; [lia|]. pose proof (u8_range n). simpl in H.
    replace (Z.to_nat (u8 n + 1)) with (S (Z.to_nat (u8 n))) in * by lia. simpl in *.
    destruct (rest !! Z.to_nat (u8 n)) as [m|] eqn:E; [|lia]. pose proof (u8_range m). split; [|apply bytes_at_total; lia].
    rewrite (drop_S _ _ _ E). apply domain_parsed_total. rewrite length_drop. lia.
  - destruct data as [|n rest]; [lia|]. pose proof (u8_range n). simpl in H. simpl. split; [|apply bytes_at_total; lia].
    apply ip_parsed_total. rewrite length_drop. lia.
Qed.

Definition is_command (cmd : Z) (chunk : list Z) : Prop := ∃ v l, chunk = v :: cmd :: l.

Lemma parse_request_facts chunk :
  match parse_request chunk with
  | RequestWait tcp | RequestInvalid tcp _ _ _ _ => tcp = true → is_command S5CMD_CONNECT chunk
  | RequestValid cmd atyp addr_len dst_addr =>
      is_command cmd chunk ∧ (cmd = S5CMD_CONNECT ∨ cmd = S5CMD_UDP_ASSOCIATE) ∧ known_atyp atyp = true
      ∧ addr_len = addr_length_from_request atyp dst_addr ∧ 0 ≤ addr_len ∧ addr_len + 2 ≤ Z.of_nat (length dst_addr)
      ∧ (4 + Z.to_nat addr_len + 2 ≤ length chunk)%nat
  end.
Proof.
  unfold parse_request. destruct chunk as [|v [|cmd [|rsv [|atyp dst]]]]; try done.
  assert (Hc : (cmd =? S5CMD_CONNECT) = true → is_command S5CMD_CONNECT (v :: cmd :: rsv :: atyp :: dst)).
  { intros ->%Z.eqb_eq. by eexists _, _. }
  destruct (negb (v =? SOCKS5_VER)); [done|].
  destruct (negb ((cmd =? S5CMD_CONNECT) || (cmd =? S5CMD_UDP_ASSOCIATE))) eqn:E1; [done|].
  destruct (negb (rsv =? 0)); [exact Hc|]. destruct (negb (known_atyp atyp)) eqn:E2; [exact Hc|].
  destruct ((_ <? 0) || _) eqn:E3; [exact Hc|].
  apply negb_false_iff in E1, E2. apply orb_false_iff in E3 as [Ha%Z.ltb_ge Hb%Z.ltb_ge].
  split_and!; [by eexists _, _| |done|done|lia|lia|simpl; lia].
  by apply orb_true_iff in E1 as [->%Z.eqb_eq| ->%Z.eqb_eq]; [left|right].
Qed.

Lemma udp_header_total {A} `{!SocketAddressOps A} data :
  ∃ step, parse_udp_header (A:=A) data = Some step
    ∧ ∀ dst app n, step = UdpHeader dst app n → ∃ a, dst = S5Sockaddr a.
Proof.
  unfold parse_udp_header. destruct data as [|r1 [|r2 [|fr [|atyp data]]]]; try by eexists.
  destruct (_ || _) eqn:E1; [by eexists|]. do 2 (case_match; [by eexists|]). case_match eqn:E2; [by eexists|].
  apply orb_false_iff in E1 as [Ha%Z.ltb_ge Hb%Z.ltb_ge]. apply negb_false_iff in E2.
  assert (Hk : known_atyp atyp = true).
  { apply orb_true_iff in E2 as [->%Z.eqb_eq| ->%Z.eqb_eq]; done. }
  destruct (request_parsed_total (A:=A) atyp data Hk Ha ltac:(lia)) as [[dst Hd] [app Happ]]. rewrite Hd, Happ. eexists. split; [done|].
  intros dst' app' n' [= <- <- <-]. unfold dst_addr_from_request in Hd.
  apply orb_true_iff in E2 as [->%Z.eqb_eq| ->%Z.eqb_eq]; simpl in Hd;
    apply bind_Some in Hd as (? & _ & ([? ?] & _ & [= <-])%bind_Some); by eexists.
Qed.

(** ** Messages of the RFCs *)

Lemma bytes_at_app n data rest : n = Z.of_nat (length data) → bytes_at n (data ++ rest) = Some data.
Proof.
  intros ->. unfold bytes_at. rewrite Nat2Z.id, length_app, take_app_length, (proj2 (Nat.leb_le _ _)) by lia. done.
Qed.

(** More data does not change a length that is known. *)
Lemma addr_length_stable type data more :
  0 ≤ addr_length_from_request type data →
  addr_length_from_request type (data ++ more) = addr_length_from_request type data.
Proof.
  unfold addr_length_from_request. repeat case_match; subst; simpl in *; try done; try lia; simplify_eq; try done.
  all: match goal with
       | H : (?x :: _) !! ?i = Some ?a, H' : (?x :: _ ++ _) !! ?i = _ |- _ =>
           apply (lookup_app_l_Some _ more) in H; simpl in H; congruence
       end.
Qed.

Lemma read_username_password_stable data more r :
  read_username_password_request data = Some r →
  read_username_password_request (data ++ more) = Some r ∧ (up_size r ≤ length data)%nat.
Proof.
  destruct data as [|ver [|ulen data]]; try done. simpl.
  destruct (data !! Z.to_nat (u8 ulen)) as [plen|] eqn:E; [|done].
  rewrite (lookup_app_l_Some _ more _ _ E). pose proof (lookup_lt_Some _ _ _ E) as Hl.
  case_match eqn:H1; [done|]. intros [= <-]. apply Nat.ltb_ge in H1. rewrite length_drop in H1.
  rewrite drop_app_le, length_app, length_drop, (proj2 (Nat.ltb_ge _ _)) by lia.
  rewrite !take_app_le by (rewrite ?length_drop; lia). split; [done|]. simpl. lia.
Qed.

Lemma length_htons v : length (htons_bytes v) = 2%nat.
Proof. done. Qed.

#[local] Opaque htons_bytes get_u16.

Section Rfc.
Context {A : Type} `{!SocketAddressOps A, !SocketAddressLaws A}.
Implicit Type dst : Socks5ConnectionAddress A.

Definition dst_wf dst : Prop :=
  match dst with
  | S5Sockaddr a => ∃ bs p, a = of_bytes bs p ∧ (length bs = IPV4_ADDR_SIZE ∨ length bs = IPV6_ADDR_SIZE)
                            ∧ 0 ≤ p < 2 ^ 16
  | S5DomainName name p => (length name < 256)%nat ∧ 0 ≤ p < 2 ^ 16
  end.

Definition dst_port dst : Z := match dst with S5Sockaddr a => port a | S5DomainName _ p => p end.

(** The address type and the address field, without and with an application. *)
Definition rfc_atyp (app : option (list Z)) dst : Z :=
  match app with None => socks_atyp_by_addr dst | Some _ => Z.lxor (socks_atyp_by_addr dst) 0xf0 end.
Definition rfc_address (app : option (list Z)) dst : list Z :=
  match app with None => [] | Some name => Z.of_nat (length name) :: name end
  ++ match dst with S5Sockaddr a => addr a | S5DomainName name _ => Z.of_nat (length name) :: name end.

Definition rfc_request (cmd : Z) (app : option (list Z)) dst : list Z :=
  [5; cmd; 0; rfc_atyp app dst] ++ rfc_address app dst ++ htons_bytes (dst_port dst).

Definition rfc_username_password (uname passwd : list Z) : list Z :=
  [1; Z.of_nat (length uname)] ++ uname ++ [Z.of_nat (length passwd)] ++ passwd.

Lemma atyp_cases dst : dst_wf dst →
  (∃ bs p, dst = S5Sockaddr (of_bytes bs p) ∧ addr (of_bytes bs p) = bs ∧ port (of_bytes bs p) = p ∧ 0 ≤ p < 2 ^ 16
     ∧ (length bs = 4%nat ∧ socks_atyp_by_addr dst = S5AT_IPV4 ∨ length bs = 16%nat ∧ socks_atyp_by_addr dst = S5AT_IPV6))
  ∨ (∃ name p, dst = S5DomainName name p ∧ 0 ≤ p < 2 ^ 16 ∧ socks_atyp_by_addr dst = S5AT_DOMAINNAME).
Proof.
  destruct dst as [a|name p]; simpl; [|intros [? ?]; right; eauto].
  intros (bs & p & -> & Hbs & Hp). left. exists bs, p.
  rewrite is_ipv4_size, addr_of_bytes, port_of_bytes by done. split_and!; try done; try lia.
  destruct Hbs as [H|H]; rewrite H; [left|right]; by split.
Qed.

Definition app_wf (app : option (list Z)) : Prop := (length (default [] app) < 256)%nat.

Lemma u8_length {X} (l : list X) : (length l < 256)%nat → u8 (Z.of_nat (length l)) = Z.of_nat (length l).
Proof. intros H. apply u8_id. lia. Qed.

Lemma rfc_address_parsed app dst tail :
  dst_wf dst → app_wf app →
  addr_length_from_request (rfc_atyp app dst) (rfc_address app dst ++ tail) = Z.of_nat (length (rfc_address app dst)).
Proof.
  intros Hwf Happ. unfold rfc_address, rfc_atyp, app_wf in *.
  destruct (atyp_cases dst Hwf) as [(bs & p & -> & Ha & _ & _ & [[Hl ->]|[Hl ->]])|(name & p & -> & _ & ->)];
    rewrite ?Ha; destruct app as [name'|]; simpl; rewrite ?length_app, ?Hl;
    unfold addr_length_from_request; simpl in *; rewrite ?u8_length by lia; try lia.
  replace (Z.to_nat (Z.of_nat (length name') + 1)) with (S (length name')) by lia. simpl.
  rewrite <- app_assoc. simpl. rewrite list_lookup_middle by done. destruct Hwf. rewrite u8_length by done. lia.
Qed.

Lemma rfc_dst_parsed app dst tail :
  dst_wf dst → app_wf app → dst_addr_from_request (rfc_atyp app dst) (rfc_address app dst ++ htons_bytes (dst_port dst) ++ tail) = Some dst.
Proof.
  intros Hwf Happ. unfold rfc_address, rfc_atyp, dst_addr_from_request, app_wf in *.
  destruct (atyp_cases dst Hwf) as [(bs & p & -> & Ha & Hp & Hr & [[Hl Et]|[Hl Et]])|(name & p & -> & Hr & Et)];
    rewrite ?Et, ?Ha; destruct app as [name'|]; simpl in *;
    rewrite ?u8_length by lia; rewrite ?Nat2Z.id, <- ?app_assoc, ?drop_app_length; simpl;
    rewrite ?u8_length by lia; rewrite bytes_at_app by lia; simpl;
    rewrite ?Nat2Z.id, ?drop_app_length' by lia; rewrite ?Hp, get_u16_back by lia; done.
Qed.

Lemma rfc_app_parsed app dst tail :
  dst_wf dst → app_wf app → app_name_from_request (rfc_atyp app dst) (rfc_address app dst ++ tail) = Some (default [] app).
Proof.
  intros Hwf Happ. unfold rfc_address, rfc_atyp, app_name_from_request, app_wf in *.
  destruct (atyp_cases dst Hwf) as [(bs & p & -> & _ & _ & _ & [[_ ->]|[_ ->]])|(name & p & -> & _ & ->)];
    destruct app as [name'|]; simpl in *; try done; by rewrite u8_length, <- app_assoc, bytes_at_app.
Qed.

(** Claim C15. Every request of RFC 1928 for CONNECT or UDP ASSOCIATE, with or without the
    name of an application, is read back whole, whatever follows it; as long as
    any byte of it is missing the listener waits. *)
Theorem request_roundtrip cmd app dst tail :
  cmd = S5CMD_CONNECT ∨ cmd = S5CMD_UDP_ASSOCIATE → dst_wf dst → app_wf app →
  let request := rfc_request cmd app dst in
  (∃ atyp addr_len dst_addr,
     parse_request (request ++ tail) = RequestValid cmd atyp addr_len dst_addr
     ∧ (4 + Z.to_nat addr_len + 2)%nat = length request
     ∧ dst_addr_from_request atyp dst_addr = Some dst
     ∧ app_name_from_request atyp dst_addr = Some (default [] app))
  ∧ ∀ n, (n < length request)%nat → ∃ tcp, parse_request (take n request) = RequestWait tcp.
Proof.
  intros Hcmd Hwf Happ request.
  pose proof (rfc_address_parsed app dst (htons_bytes (dst_port dst) ++ tail) Hwf Happ) as Hl.
  assert (Hk : known_atyp (rfc_atyp app dst) = true).
  { unfold rfc_atyp. destruct (atyp_cases dst Hwf) as [(? & ? & _ & _ & _ & _ & [[_ ->]|[_ ->]])|(? & ? & _ & _ & ->)];
      by destruct app. }
  assert (Hc : (cmd =? S5CMD_CONNECT) || (cmd =? S5CMD_UDP_ASSOCIATE) = true) by (by destruct Hcmd as [->| ->]).
  split.
  - exists (rfc_atyp app dst), (Z.of_nat (length (rfc_address app dst))),
      (rfc_address app dst ++ htons_bytes (dst_port dst) ++ tail).
    rewrite rfc_dst_parsed, rfc_app_parsed by done. split_and!; [|unfold request, rfc_request; simpl; rewrite length_app, length_htons, Nat2Z.id; lia|done..].
    unfold request, rfc_request. simpl. rewrite <- app_assoc, Hl, Hc, Hk. simpl.
    rewrite (proj2 (Z.ltb_ge _ _)), (proj2 (Z.ltb_ge _ _)); [done| |lia]. rewrite !length_app, length_htons. lia.
  - intros n Hn. destruct n as [|[|[|[|n]]]]; [by eexists..|].
    unfold request, rfc_request in *. simpl in *. rewrite length_app in Hn. rewrite length_htons in Hn.
    rewrite Hc, Hk. simpl. eexists.
    set (d := take n _). case_match eqn:E; [done|]. exfalso.
    apply orb_false_iff in E as [E1%Z.ltb_ge E2%Z.ltb_ge].
    pose proof (addr_length_stable _ _ (drop n (rfc_address app dst ++ htons_bytes (dst_port dst))) E1) as Hs.
    unfold d in *. rewrite take_drop, (rfc_address_parsed app dst (htons_bytes (dst_port dst)) Hwf Happ) in Hs.
    rewrite <- Hs, length_take in E2. lia.
Qed.

(** The user name and the password of RFC 1929 are read back, whatever follows;
    as long as any byte is missing the listener waits. *)
Theorem username_password_roundtrip uname passwd tail :
  (length uname < 256)%nat → (length passwd < 256)%nat →
  let request := rfc_username_password uname passwd in
  read_username_password_request (request ++ tail) = Some (mkUp 1 uname passwd (length request))
  ∧ ∀ n, (n < length request)%nat → read_username_password_request (take n request) = None.
Proof.
  intros Hul Hpl request.
  assert (Hr : read_username_password_request request = Some (mkUp 1 uname passwd (length request))).
  { unfold request, rfc_username_password, read_username_password_request. simpl. rewrite u8_length, Nat2Z.id, list_lookup_middle by done.
    rewrite take_app_length. change (uname ++ ?x :: passwd) with (uname ++ [x] ++ passwd).
    rewrite (app_assoc uname), drop_app_length' by (rewrite length_app; simpl; lia).
    rewrite u8_length, Nat2Z.id, Nat.ltb_irrefl, firstn_all by done. f_equal. f_equal. rewrite !length_app. simpl. lia. }
  split; [by apply read_username_password_stable|].
  intros n Hn. destruct (read_username_password_request (take n request)) as [r|] eqn:E; [|done].
  destruct (read_username_password_stable _ (drop n request) _ E) as [E' Hlen].
  rewrite take_drop, Hr in E'. assert (up_size r = length request) as Hs by (by inversion E').
  rewrite Hs, length_take in Hlen. lia.
Qed.

(** Claim C16. What the listener sends to a client of UDP is, read as a datagram of a client,
    the same address and the same payload. *)
Theorem udp_datagram_roundtrip a data :
  dst_wf (S5Sockaddr a) →
  ∃ n, parse_udp_header (udp_datagram (S5Sockaddr a) data) = Some (UdpHeader (S5Sockaddr a) [] n)
       ∧ drop n (udp_datagram (S5Sockaddr a) data) = data.
Proof.
  intros Hwf. exists (length (rfc_request 0 None (S5Sockaddr a))). assert (Happ : app_wf None) by (unfold app_wf; simpl; lia).
  assert (Hb : udp_datagram (S5Sockaddr a) data = [0; 0; 0; rfc_atyp None (S5Sockaddr a)] ++ rfc_address None (S5Sockaddr a) ++ htons_bytes (port a) ++ data).
  { unfold udp_datagram. rewrite resize_all_alt; [done|].
    destruct (atyp_cases _ Hwf) as [(bs & p & [= ->] & Ha & _ & _ & [[Hl ->]|[Hl ->]])|(name & p & ? & _ & _)]; [..|done];
      rewrite Ha, !length_app, Hl, length_htons; simpl; lia. }
  rewrite Hb. unfold rfc_request. split.
  - pose proof (rfc_address_parsed None (S5Sockaddr a) (htons_bytes (port a) ++ data) Hwf Happ) as Hl.
    pose proof (rfc_dst_parsed None (S5Sockaddr a) data Hwf Happ) as Hd.
    pose proof (rfc_app_parsed None (S5Sockaddr a) (htons_bytes (port a) ++ data) Hwf Happ) as Hn.
    assert (Hk : (rfc_atyp None (S5Sockaddr a) =? S5AT_IPV4) || (rfc_atyp None (S5Sockaddr a) =? S5AT_IPV6) = true)
      by (simpl; by destruct (is_ipv4 a)).
    change (dst_port (S5Sockaddr a)) with (port a) in *.
    set (t := rfc_atyp None (S5Sockaddr a)) in *. set (r := rfc_address None (S5Sockaddr a)) in *.
    unfold parse_udp_header. cbn [app]. rewrite Hl, Hd, Hn, Hk, !length_app, length_htons.
    rewrite (proj2 (Z.ltb_ge _ _)), (proj2 (Z.ltb_ge _ _)) by lia. simpl. do 2 f_equal.
    rewrite length_app, length_htons, Nat2Z.id. lia.
  - simpl. rewrite app_assoc, drop_app_length. done.
Qed.

End Rfc.

Lemma request_roundtrip_witness :
  ∃ tcp, parse_request (take 9 (rfc_request S5CMD_CONNECT (Some [99; 117]) (S5DomainName (A:=plain_addr) [97; 46; 98] 80)))
         = RequestWait tcp.
Proof.
  assert (Hwf : dst_wf (S5DomainName (A:=plain_addr) [97; 46; 98] 80)) by (split; simpl; lia).
  apply (proj2 (request_roundtrip S5CMD_CONNECT (Some [99; 117]) _ [] (or_introl eq_refl) Hwf ltac:(unfold app_wf; simpl; lia))). simpl. lia.
Defined.

Lemma username_password_roundtrip_witness :
  read_username_password_request (take 4 (rfc_username_password [1; 2] [3])) = None.
Proof. apply (proj2 (username_password_roundtrip [1; 2] [3] [] ltac:(simpl; lia) ltac:(simpl; lia))). simpl. lia. Defined.

Lemma udp_datagram_roundtrip_witness :
  ∃ n, drop n (udp_datagram (S5Sockaddr (mkPlain [10; 0; 0; 1] 53)) [7; 8]) = [7; 8].
Proof.
  destruct (udp_datagram_roundtrip (mkPlain [10; 0; 0; 1] 53) [7; 8]) as (n & _ & H); [|by exists n].
  exists [10; 0; 0; 1], 53. split; [done|]. split; [by left|lia].
Defined.
