(* ===== verification/Socks5.v ===== *)
(** * The SOCKS5 listener

    [net/src/socks5_listener.cpp]: the connections of SOCKS clients from the
    accepted socket to the tunnel, the relays of UDP associations, and the calls
    of the owner; at the end [core/src/socks_listener.cpp], which adapts it to the
    tunnel.  Connections and relays are objects of two heaps; the tables by id are
    keyed by the low 32 bits, as in the code.  Sockets are those of
    [TcpSocket.v], owned by their connection.

    The owner may call the listener from inside an event.  [S5Env] answers for it,
    for the system and for libevent; it is told everything that has happened (the
    trace).  The owner's part of the contract is in [call_allowed] and
    [answer_allowed]: a run in which it breaks it ends in a fault of the
    environment. *)
From S2P Require Import Prelude Effects WireUtils Socks5Wire TcpSocket.

Definition S5_TCP : Z := 6.
Definition S5_UDP : Z := 17.
Definition READ_BUDGET : nat := 64.
Definition UDP_MAX_DATAGRAM_SIZE : Z := 65535.
Definition DEFAULT_SEND_WINDOW_SIZE : Z := 8 * 1024 * 1024.

Inductive ConnectionState :=
  | S5CONNS_IDLE
  | S5CONNS_WAITING_USERNAME_PASSWORD
  | S5CONNS_WAITING_REQUEST
  | S5CONNS_WAITING_CONNECT_RESULT
  | S5CONNS_WAITING_ACCEPT
  | S5CONNS_ESTABLISHED
  | S5CONNS_FAILED.

#[export] Instance ConnectionState_eq_dec : EqDecision ConnectionState.
Proof. solve_decision. Defined.

(** [state >= S5CONNS_WAITING_CONNECT_RESULT]. *)
Definition past_request (st : ConnectionState) : bool :=
  match st with
  | S5CONNS_IDLE | S5CONNS_WAITING_USERNAME_PASSWORD | S5CONNS_WAITING_REQUEST => false
  | _ => true
  end.

(** [Socks5ListenerEvent] with its data. *)
Inductive Socks5ListenerEvent (A : Type) :=
  | EGenerateId
  | EConnectRequest (id proto : Z) (src : A) (dst : Socks5ConnectionAddress A) (app : list Z)
  | EAccepted (id : Z)
  | ERead (id : Z) (data : list Z)
  | EDataSent (id length : Z)
  | EClosed (id error : Z).
Arguments EGenerateId {A}.
Arguments EConnectRequest {A}.
Arguments EAccepted {A}.
Arguments ERead {A}.
Arguments EDataSent {A}.
Arguments EClosed {A}.

(** The functions of [net/include/net/socks5_listener.h] on one connection. *)
Inductive S5Call :=
  | CallComplete (id : Z) (result : Socks5ConnectResult)
  | CallSend (id : Z) (data : list Z)
  | CallTurnRead (id : Z) (on : bool)
  | CallFlow (id : Z)
  | CallClose (id : Z) (graceful : bool).

Inductive SysCall :=
  | SysSocket | SysNonblocking | SysCloseOnExec | SysReusable | SysDualStack | SysBind | SysEvent | SysEventAdd
  | SysListen | SysEnable | SysClose | SysSocketCreate | SysAcquire | SysSendto.

(** The trace.  [Got] is data libevent has read from the socket of a connection,
    [Datagram] a datagram that came to the relay of an association, named by the id
    of its connection. *)
Inductive S5Out (A : Type) :=
  | Raised (e : Socks5ListenerEvent A)
  | Answered (e : Socks5ListenerEvent A) (result : Z)
  | SockPeeked (id : Z) (data : list Z)
  | SockDrained (id : Z) (data : list Z)
  | SockWrite (id : Z) (data : list Z)
  | SockTimeoutOff (id : Z)
  | SockDestroyed (id : Z) (rst : bool)
  | SentTo (id : Z) (dst : A) (data : list Z)
  | Sys (c : SysCall)
  | Got (id : Z) (data : list Z)
  | Datagram (id : Z) (src : A).
Arguments Raised {A}.
Arguments Answered {A}.
Arguments SockPeeked {A}.
Arguments SockDrained {A}.
Arguments SockWrite {A}.
Arguments SockTimeoutOff {A}.
Arguments SockDestroyed {A}.
Arguments SentTo {A}.
Arguments Sys {A}.
Arguments Got {A}.
Arguments Datagram {A}.

(** What can go wrong inside the listener.
    - [RequestOverread]: the reply to an invalid request copies past its end.
    - [ReplyTypeAssertion]: the assertion on the address type of the reply to an
      association.
    - [UsedAfterEnd]: the code goes on with a connection that has ended inside the
      event, or the call, before.
    - [NoRelay]: an association that has no relay is terminated.
    - [RelayLeft]: the connection of an association is destroyed, and its relay
      left with a pointer to it.
    - [DanglingPointer], [AssertionFailed], [WildAccess]: any other use of an object
      that is gone, assertion that fails or access out of bounds. *)
Inductive S5Fault :=
  | DanglingPointer | AssertionFailed | WildAccess
  | RequestOverread | ReplyTypeAssertion | UsedAfterEnd | NoRelay | RelayLeft.

Class S5Env (A : Type) `{!SocketAddressOps A} := {
  s5_ndebug : bool;
  s5_username : list Z;
  s5_password : list Z;
  s5_no_address : A;
  s5_ipv6 : bool;
  local_port : list (S5Out A) → Z;
  remote_address : list (S5Out A) → A;
  bound_address : list (S5Out A) → option A;
  stack_bytes : list (S5Out A) → list Z;
  would_block : Z → bool;
  contiguous : list (S5Out A) → nat;
  drains : list (S5Out A) → bool;
  s5_answer : list (S5Out A) → Z;
  s5_errno : list (S5Out A) → Z;
  s5_calls : list (S5Out A) → list S5Call;
  id_buckets : gmap Z Z → list (Z * Z);
  addr_buckets : gmap (A * Socks5ConnectionAddress A) Z → list (A * Socks5ConnectionAddress A);
}.

Section Socks5.
Context {A : Type} `{!SocketAddressOps A, !S5Env A}.
Notation address := (Socks5ConnectionAddress A).
Notation event := (Socks5ListenerEvent A).

(** ** State *)

Record Connection := mkS5 {
  k_state : ConnectionState;
  k_id : Z;
  k_socket : option TcpSocket;
  k_src : A;
  k_dst : address;
  k_proto : Z;
  k_app_name : list Z;
  k_readable : bool;
  k_sent : Z;                       (** [sent_bytes_since_flush] *)
  k_pending : list (list Z);        (** [pending_udp_packets] *)
  k_relay : option Z;
}.

Definition set_k_state (x : ConnectionState) c : Connection :=
  mkS5 x (k_id c) (k_socket c) (k_src c) (k_dst c) (k_proto c) (k_app_name c) (k_readable c) (k_sent c) (k_pending c) (k_relay c).
Definition set_k_socket (x : option TcpSocket) c : Connection :=
  mkS5 (k_state c) (k_id c) x (k_src c) (k_dst c) (k_proto c) (k_app_name c) (k_readable c) (k_sent c) (k_pending c) (k_relay c).
Definition set_k_src (x : A) c : Connection :=
  mkS5 (k_state c) (k_id c) (k_socket c) x (k_dst c) (k_proto c) (k_app_name c) (k_readable c) (k_sent c) (k_pending c) (k_relay c).
Definition set_k_request (dst : address) (app : list Z) c : Connection :=
  mkS5 (k_state c) (k_id c) (k_socket c) (k_src c) dst (k_proto c) app (k_readable c) (k_sent c) (k_pending c) (k_relay c).
Definition set_k_proto (x : Z) c : Connection :=
  mkS5 (k_state c) (k_id c) (k_socket c) (k_src c) (k_dst c) x (k_app_name c) (k_readable c) (k_sent c) (k_pending c) (k_relay c).
Definition set_k_readable (x : bool) c : Connection :=
  mkS5 (k_state c) (k_id c) (k_socket c) (k_src c) (k_dst c) (k_proto c) (k_app_name c) x (k_sent c) (k_pending c) (k_relay c).
Definition set_k_sent (x : Z) c : Connection :=
  mkS5 (k_state c) (k_id c) (k_socket c) (k_src c) (k_dst c) (k_proto c) (k_app_name c) (k_readable c) x (k_pending c) (k_relay c).
Definition set_k_pending (x : list (list Z)) c : Connection :=
  mkS5 (k_state c) (k_id c) (k_socket c) (k_src c) (k_dst c) (k_proto c) (k_app_name c) (k_readable c) (k_sent c) x (k_relay c).

Record UdpRelay := mkRelay {
  r_event : bool;                               (** [udp_event] is set *)
  r_tcp_conn : option Z;
  r_table : option (gmap (A * address) Z);      (** [connections_by_addr] *)
}.

Record Socks5Listener := mkListener {
  l_conns : gmap Z Connection;      (** the heaps *)
  l_relays : gmap Z UdpRelay;
  l_next : Z;
  l_by_id : gmap Z Z;               (** [connections] *)
  l_relay_by_id : gmap Z Z;         (** [udp_relays] *)
  l_listening : option bool;        (** [evconn_listener], enabled or not *)
  l_port : Z;                       (** the port of [listen_address] *)
  l_task : bool;                    (** [async_task] has a value *)
  l_with_pending : list Z;          (** [conns_with_pending_udp] *)
  l_deferred : gmap Z (Z * bool);   (** [SocksListener::m_deferred_tasks] *)
  l_stopping : bool;                (** inside [clean_up_connections] *)
  l_out : list (S5Out A);
}.

Definition set_l_conns x s : Socks5Listener :=
  mkListener x (l_relays s) (l_next s) (l_by_id s) (l_relay_by_id s) (l_listening s) (l_port s) (l_task s)
    (l_with_pending s) (l_deferred s) (l_stopping s) (l_out s).
Definition set_l_relays x s : Socks5Listener :=
  mkListener (l_conns s) x (l_next s) (l_by_id s) (l_relay_by_id s) (l_listening s) (l_port s) (l_task s)
    (l_with_pending s) (l_deferred s) (l_stopping s) (l_out s).
Definition set_l_next x s : Socks5Listener :=
  mkListener (l_conns s) (l_relays s) x (l_by_id s) (l_relay_by_id s) (l_listening s) (l_port s) (l_task s)
    (l_with_pending s) (l_deferred s) (l_stopping s) (l_out s).
Definition set_l_by_id x s : Socks5Listener :=
  mkListener (l_conns s) (l_relays s) (l_next s) x (l_relay_by_id s) (l_listening s) (l_port s) (l_task s)
    (l_with_pending s) (l_deferred s) (l_stopping s) (l_out s).
Definition set_l_relay_by_id x s : Socks5Listener :=
  mkListener (l_conns s) (l_relays s) (l_next s) (l_by_id s) x (l_listening s) (l_port s) (l_task s)
    (l_with_pending s) (l_deferred s) (l_stopping s) (l_out s).
Definition set_l_listening x p s : Socks5Listener :=
  mkListener (l_conns s) (l_relays s) (l_next s) (l_by_id s) (l_relay_by_id s) x p (l_task s)
    (l_with_pending s) (l_deferred s) (l_stopping s) (l_out s).
Definition set_l_task x s : Socks5Listener :=
  mkListener (l_conns s) (l_relays s) (l_next s) (l_by_id s) (l_relay_by_id s) (l_listening s) (l_port s) x
    (l_with_pending s) (l_deferred s) (l_stopping s) (l_out s).
Definition set_l_with_pending x s : Socks5Listener :=
  mkListener (l_conns s) (l_relays s) (l_next s) (l_by_id s) (l_relay_by_id s) (l_listening s) (l_port s) (l_task s)
    x (l_deferred s) (l_stopping s) (l_out s).
Definition set_l_deferred x s : Socks5Listener :=
  mkListener (l_conns s) (l_relays s) (l_next s) (l_by_id s) (l_relay_by_id s) (l_listening s) (l_port s) (l_task s)
    (l_with_pending s) x (l_stopping s) (l_out s).
Definition set_l_stopping x s : Socks5Listener :=
  mkListener (l_conns s) (l_relays s) (l_next s) (l_by_id s) (l_relay_by_id s) (l_listening s) (l_port s) (l_task s)
    (l_with_pending s) (l_deferred s) x (l_out s).
Definition set_l_out x s : Socks5Listener :=
  mkListener (l_conns s) (l_relays s) (l_next s) (l_by_id s) (l_relay_by_id s) (l_listening s) (l_port s) (l_task s)
    (l_with_pending s) (l_deferred s) (l_stopping s) x.

(** ** Effects *)

Notation M := (Eff S5Fault Socks5Listener).

Definition s5_assert (b : bool) : M unit := if b || s5_ndebug then skip else fault AssertionFailed.
Definition emit (o : S5Out A) : M unit := modify (λ s, set_l_out (l_out s ++ [o]) s).
Definition ask {X} (o : S5Out A) (f : list (S5Out A) → X) : M X := _ ← emit o; gets (λ s, f (l_out s)).
Definition sys (c : SysCall) : M Z := ask (Sys c) s5_answer.

(** [conn->], [relay->]. *)
Definition conn_at (p : Z) : M Connection :=
  λ s, match l_conns s !! p with Some c => Done (c, s) | None => Fault DanglingPointer end.
Definition upd (p : Z) (f : Connection → Connection) : M unit :=
  c ← conn_at p; modify (λ s, set_l_conns (<[p := f c]> (l_conns s)) s).
Definition relay_at (r : Z) : M UdpRelay :=
  λ s, match l_relays s !! r with Some x => Done (x, s) | None => Fault DanglingPointer end.
Definition upd_relay (r : Z) (x : UdpRelay) : M unit :=
  _ ← relay_at r; modify (λ s, set_l_relays (<[r := x]> (l_relays s)) s).
Definition the {X} (x : option X) : M X := match x with Some x => mret x | None => fault DanglingPointer end.

Definition new_conn (c : Connection) : M Z :=
  p ← gets l_next;
  _ ← modify (λ s, set_l_next (p + 1) (set_l_conns (<[p := c]> (l_conns s)) s));
  mret p.
Definition new_relay (r : UdpRelay) : M Z :=
  p ← gets l_next;
  _ ← modify (λ s, set_l_next (p + 1) (set_l_relays (<[p := r]> (l_relays s)) s));
  mret p.

(** [kh_get], [kh_put] and [kh_del] of [connections]. *)
Definition find_connection (id : Z) : M (option Z) := gets (λ s, l_by_id s !! u32 id).
Definition put_connection (id p : Z) : M unit := modify (λ s, set_l_by_id (<[u32 id := p]> (l_by_id s)) s).
Definition del_connection (id : Z) : M unit := modify (λ s, set_l_by_id (delete (u32 id) (l_by_id s)) s).

(** ** Sockets *)

Definition socket_of (p : Z) : M TcpSocket := c ← conn_at p; the (k_socket c).
Definition upd_socket (p : Z) (f : TcpSocket → TcpSocket) : M unit :=
  k ← socket_of p; upd p (set_k_socket (Some (f k))).

Definition sock_write (p : Z) (data : list Z) : M Z :=
  c ← conn_at p; _ ← the (k_socket c); ask (SockWrite (k_id c) data) s5_answer.

Definition sock_peek (p : Z) : M PeekResult :=
  c ← conn_at p;
  k ← the (k_socket c);
  n ← gets (λ s, contiguous (l_out s));
  let r := tcp_socket_peek n k in
  _ ← match r with Chunk data => emit (SockPeeked (k_id c) data) | _ => skip end;
  mret r.

Definition sock_drain (p : Z) (n : nat) : M bool :=
  k ← socket_of p;
  ok ← gets (λ s, drains (l_out s));
  let '(r, k) := tcp_socket_drain ok n k in
  _ ← upd p (set_k_socket (Some k));
  mret r.

(** ** Destruction *)

Definition is_udp_association_tcp_connection (c : Connection) (s : Socks5Listener) : bool :=
  (k_proto c =? 0) && bool_decide (is_Some (l_relay_by_id s !! u32 (k_id c))).

Definition destroy_connection (p : Z) : M unit :=
  c ← conn_at p;
  _ ← del_connection (k_id c);
  _ ← when (k_proto c =? S5_UDP)
        (r ← the (k_relay c);
         relay ← relay_at r;
         match r_table relay with
         | None => skip
         | Some t =>
             upd_relay r (mkRelay (r_event relay) (r_tcp_conn relay) (Some (delete (k_src c, k_dst c) t)))
         end);
  _ ← match k_socket c with Some k => emit (SockDestroyed (k_id c) (ts_rst k)) | None => skip end;
  modify (λ s, set_l_conns (delete p (l_conns s)) s).

(** ** Events

    [rec] is a call of the owner from inside an event. *)
Section Handlers.
Variable rec : S5Call → M unit.

(** An id the owner has generated, up to the width of the tables' keys. *)
Definition generated (id : Z) (o : S5Out A) : bool :=
  match o with Answered EGenerateId x => u32 x =? u32 id | _ => false end.

(** The owner generates ids that differ in their low 32 bits, and takes no more
    data than it is shown. *)
Definition answer_allowed (tr : list (S5Out A)) (e : event) (r : Z) : bool :=
  match e with
  | EGenerateId => negb (existsb (generated r) tr)
  | ERead _ data => r <=? Z.of_nat (length data)
  | _ => true
  end.

(** [handler.func], and the owner's answer. *)
Definition raise (e : event) : M Z :=
  _ ← emit (Raised e);
  calls ← gets (λ s, s5_calls (l_out s));
  _ ← for_each rec calls;
  r ← gets (λ s, s5_answer (l_out s));
  allowed ← gets (λ s, answer_allowed (l_out s) e r);
  if (allowed : bool) then _ ← emit (Answered e r); mret r else env_fault.

(** The first use of a connection after an event or a call inside which it may
    have ended. *)
Definition goes_on (p : Z) : M unit :=
  left ← gets (λ s, bool_decide (is_Some (l_conns s !! p)));
  if (left : bool) then skip else fault UsedAfterEnd.

(** An event after which the code goes on with the connection. *)
Definition raise_about (p : Z) (e : event) : M Z :=
  r ← raise e; _ ← goes_on p; mret r.

Definition raise_closed (id error : Z) : M unit := _ ← raise (EClosed id error); skip.

Definition generate_id : M Z := raise EGenerateId.

Definition raise_connect_request (p : Z) : M unit :=
  c ← conn_at p;
  _ ← raise (EConnectRequest (k_id c) (k_proto c) (k_src c) (k_dst c) (k_app_name c));
  skip.

(** ** Completion *)

Definition complete_tcp_connection (p : Z) (result : Socks5ConnectResult) : M unit :=
  c ← conn_at p;
  lp ← gets (λ s, local_port (l_out s));
  error ← sock_write p (tcp_reply (status_code (CONNECT_RESULT_TO_STATUS result)) (k_dst c) lp);
  when (negb (error =? 0)) (_ ← raise_closed (k_id c) error; destroy_connection p).

Definition complete_udp_connection (p : Z) (result : Socks5ConnectResult) : M unit :=
  c ← conn_at p;
  match result with
  | S5LCR_SUCCESS =>
      _ ← raise_about p (EAccepted (k_id c));
      _ ← upd p (set_k_state S5CONNS_ESTABLISHED);
      modify (λ s, set_l_task true (set_l_with_pending (l_with_pending s ++ [k_id c]) s))
  | _ => _ ← raise_closed (k_id c) 0; destroy_connection p
  end.

Definition socks5_listener_complete_connect_request (id : Z) (result : Socks5ConnectResult) : M unit :=
  p ← find_connection id;
  match p with
  | None => skip
  | Some p =>
      c ← conn_at p;
      if bool_decide (k_state c = S5CONNS_FAILED) then skip
      else
        _ ← s5_assert (bool_decide (k_state c = S5CONNS_WAITING_CONNECT_RESULT));
        _ ← upd p (set_k_state (match result with S5LCR_SUCCESS => S5CONNS_WAITING_ACCEPT | _ => S5CONNS_FAILED end));
        if k_proto c =? S5_TCP then complete_tcp_connection p result else complete_udp_connection p result
  end.

(** The packets that came before the connection was accepted. *)
Fixpoint deliver_pending (p id : Z) (packets : list (list Z)) : M unit :=
  match packets with
  | [] => skip
  | packet :: packets =>
      r ← raise (ERead id packet);
      if r <? 0 then _ ← goes_on p; _ ← raise_closed id (-1); destroy_connection p
      else match packets with [] => skip | _ => _ ← goes_on p; deliver_pending p id packets end
  end.

Definition send_pending_udp_data : M unit :=
  _ ← modify (set_l_task false);
  ids ← gets l_with_pending;
  _ ← modify (set_l_with_pending []);
  for_each (λ id,
    p ← find_connection id;
    match p with
    | None => skip
    | Some p =>
        c ← conn_at p;
        _ ← upd p (set_k_pending []);
        deliver_pending p (k_id c) (k_pending c)
    end) ids.

(** ** Calls of the owner *)

Definition send_udp (p : Z) (data : list Z) : M Z :=
  c ← conn_at p;
  _ ← s5_assert (match k_dst c with S5Sockaddr _ => true | _ => false end);
  r ← the (k_relay c);
  relay ← relay_at r;
  if negb (r_event relay) then fault DanglingPointer
  else
    _ ← emit (SentTo (k_id c) (k_src c) (udp_datagram (k_dst c) data));
    sent ← sys SysSendto;
    err ← gets (λ s, s5_errno (l_out s));
    if (err =? 0) || would_block err then
      _ ← upd p (λ c, set_k_sent (u64 (k_sent c + Z.of_nat (length data))) c); mret 0
    else mret sent.

Definition socks5_listener_send_data (id : Z) (data : list Z) : M Z :=
  p ← find_connection id;
  match p with
  | None => mret (-1)
  | Some p =>
      c ← conn_at p;
      _ ← s5_assert (bool_decide (k_state c = S5CONNS_ESTABLISHED));
      if k_proto c =? S5_TCP then sock_write p data else send_udp p data
  end.

Definition socks5_listener_turn_read (id : Z) (on : bool) : M unit :=
  p ← find_connection id;
  match p with
  | None => skip
  | Some p =>
      c ← conn_at p;
      if k_proto c =? S5_TCP then upd_socket p (tcp_socket_set_read_enabled on) else upd p (set_k_readable on)
  end.

(** [None] is the socket's own information. *)
Definition socks5_listener_flow_ctrl_info (id : Z) : M (option (Z * Z)) :=
  p ← find_connection id;
  match p with
  | None => mret (Some (0, 0))
  | Some p =>
      c ← conn_at p;
      if k_proto c =? S5_TCP then _ ← the (k_socket c); mret None
      else mret (Some (UDP_MAX_DATAGRAM_SIZE, DEFAULT_SEND_WINDOW_SIZE))
  end.

Definition socks5_listener_close_connection (id : Z) (graceful : bool) : M unit :=
  p ← find_connection id;
  match p with
  | None => skip
  | Some p =>
      c ← conn_at p;
      _ ← when (negb graceful && (k_proto c =? S5_TCP)) (upd_socket p (tcp_socket_set_rst true));
      _ ← raise_closed (k_id c) 0;
      destroy_connection p
  end.

Definition api_call (call : S5Call) : M unit :=
  match call with
  | CallComplete id result => socks5_listener_complete_connect_request id result
  | CallSend id data => _ ← socks5_listener_send_data id data; skip
  | CallTurnRead id on => socks5_listener_turn_read id on
  | CallFlow id => _ ← socks5_listener_flow_ctrl_info id; skip
  | CallClose id graceful => socks5_listener_close_connection id graceful
  end.

(** ** UDP associations *)

Fixpoint all_zero (calls : list SysCall) : M bool :=
  match calls with [] => mret true | c :: calls => r ← sys c; if r =? 0 then all_zero calls else mret false end.

(** Whether the socket of a relay and its event could be made. *)
Definition create_udp_event : M bool :=
  fd ← sys SysSocket;
  if fd <? 0 then mret false
  else
    ok ← (r ← sys SysNonblocking;
          if negb (r =? 0) then mret false
          else
            _ ← sys SysCloseOnExec;
            all_zero (SysReusable :: (if s5_ipv6 then [SysDualStack] else []) ++ [SysBind; SysEvent; SysEventAdd]));
    _ ← when (negb ok) (_ ← sys SysClose; skip);
    mret ok.

(** The connections of a relay's table, in the order of the table. *)
Definition relay_keys (r : Z) : M (list (A * address)) :=
  relay ← relay_at r;
  match r_table relay with
  | None => mret []
  | Some t =>
      let keys := addr_buckets t in
      if bool_decide (list_to_set keys = dom t ∧ NoDup keys) then mret keys else env_fault
  end.
Definition relay_conn (r : Z) (key : A * address) : M (option Z) :=
  relay ← relay_at r;
  t ← the (r_table relay);
  mret (t !! key).

Definition terminate_udp_association (tcp_conn error : Z) : M unit :=
  c ← conn_at tcp_conn;
  _ ← (is_assoc ← gets (is_udp_association_tcp_connection c);
       if is_assoc || s5_ndebug then skip else fault NoRelay);
  r ← gets (λ s, l_relay_by_id s !! u32 (k_id c));
  match r with
  | None => fault NoRelay
  | Some r =>
      keys ← relay_keys r;
      _ ← for_each (λ key,
            q ← relay_conn r key;
            match q with
            | None => skip
            | Some q => d ← conn_at q; _ ← raise_closed (k_id d) error; destroy_connection q
            end) keys;
      relay ← relay_at r;
      _ ← when (r_event relay) (_ ← sys SysClose; skip);
      p ← the (r_tcp_conn relay);
      d ← conn_at p;
      _ ← modify (λ s, set_l_relay_by_id (delete (u32 (k_id d)) (l_relay_by_id s)) s);
      _ ← upd_relay r (mkRelay false None None);
      _ ← destroy_connection p;
      modify (λ s, set_l_relays (delete r (l_relays s)) s)
  end.

Definition complete_udp_association (p : Z) : M bool :=
  has_event ← create_udp_event;
  bound ← gets (λ s, if (has_event : bool) then bound_address (l_out s) else None);
  c ← conn_at p;
  _ ← (if negb (association_atyp bound (k_dst c) =? S5AT_DOMAINNAME) || s5_ndebug then skip else fault ReplyTypeAssertion);
  garbage ← gets (λ s, stack_bytes (l_out s));
  _ ← when has_event
        (present ← gets (λ s, bool_decide (is_Some (l_relay_by_id s !! u32 (k_id c))));
         _ ← s5_assert (negb present);
         r ← new_relay (mkRelay true (Some p) None);
         modify (λ s, set_l_relay_by_id (<[u32 (k_id c) := r]> (l_relay_by_id s)) s));
  error ← sock_write p (association_reply has_event bound (k_dst c) garbage);
  _ ← (if negb (error =? 0) then terminate_udp_association p error
       else when has_event
         (_ ← emit (SockTimeoutOff (k_id c)); upd_socket p (tcp_socket_set_read_enabled true)));
  mret ((error =? 0) && has_event).

(** [process_udp_header]: the connection of a datagram and the size of its
    header, if it has one. *)
Definition process_udp_header (r : Z) (data : list Z) (src : A) : M (option (Z * nat)) :=
  match parse_udp_header data with
  | None => fault WildAccess
  | Some (UdpReturn _) => mret None
  | Some (UdpHeader dst app size) =>
      relay ← relay_at r;
      let t := default ∅ (r_table relay) in
      _ ← upd_relay r (mkRelay (r_event relay) (r_tcp_conn relay) (Some t));
      match t !! (src, dst) with
      | Some q => mret (Some (q, size))
      | None =>
          id ← generate_id;
          q ← new_conn (mkS5 S5CONNS_IDLE id None src dst S5_UDP app false 0 [] (Some r));
          relay ← relay_at r;
          t ← the (r_table relay);
          _ ← upd_relay r (mkRelay (r_event relay) (r_tcp_conn relay) (Some (<[(src, dst) := q]> t)));
          _ ← (present ← find_connection id; s5_assert (bool_decide (present = None)));
          _ ← put_connection id q;
          mret (Some (q, size))
      end
  end.

Definition handle_udp_read (p : Z) (data : list Z) : M unit :=
  c ← conn_at p;
  match k_state c with
  | S5CONNS_IDLE =>
      _ ← upd p (λ c, set_k_state S5CONNS_WAITING_CONNECT_RESULT (set_k_pending (k_pending c ++ [data]) c));
      raise_connect_request p
  | S5CONNS_WAITING_CONNECT_RESULT => upd p (λ c, set_k_pending (k_pending c ++ [data]) c)
  | S5CONNS_ESTABLISHED => when (k_readable c) (_ ← raise (ERead (k_id c) data); skip)
  | S5CONNS_FAILED => skip
  | _ => _ ← s5_assert false; destroy_connection p
  end.

Inductive UdpEvent := UdpReadable (data : list Z) (src : A) | UdpReadError | UdpTimeout (error : Z) | UdpUnknown.

Definition udp_event_handler (id : Z) (what : UdpEvent) : M unit :=
  p ← find_connection id;
  r ← gets (λ s, l_relay_by_id s !! u32 id);
  match p, r with
  | Some tcp_conn, Some r =>
      match what with
      | UdpReadable data src =>
          c ← conn_at tcp_conn;
          _ ← emit (Datagram (k_id c) src);
          when (0 <? length data)%nat
            (x ← process_udp_header r data src;
             match x with
             | None => skip
             | Some (q, size) => handle_udp_read q (drop size data)
             end)
      | UdpTimeout error => terminate_udp_association tcp_conn error
      | UdpReadError | UdpUnknown => skip
      end
  | _, _ => s5_assert false
  end.

(** ** Events of the sockets *)

(** The label [close]. *)
Definition close_label (p error : Z) : M unit :=
  c ← conn_at p;
  if past_request (k_state c) then
    _ ← raise_closed (k_id c) error;
    q ← find_connection (k_id c);
    match q with Some q => destroy_connection q | None => skip end
  else destroy_connection p.

(** How the handling of a chunk ends: draining, or the label. *)
Inductive ReadStep := ToDrain (n : nat) | DoClose (error : Z).

(** A response of the handshake is written. *)
Definition respond (p : Z) (data : list Z) (to_drain : nat) : M ReadStep :=
  error ← sock_write p data;
  mret (if error =? 0 then ToDrain to_drain else DoClose error).

Definition supported_method : Z :=
  match s5_username with [] => S5AM_NO_AUTHENTICATION_REQUIRED | _ => S5AM_USERNAME_PASSWORD end.

Definition read_auth_request (p : Z) (chunk : list Z) : M ReadStep :=
  match parse_auth_request supported_method chunk with
  | AuthWait => mret (ToDrain 0)
  | AuthFailed =>
      _ ← upd p (set_k_state S5CONNS_FAILED);
      respond p [SOCKS5_VER; S5AM_NO_ACCEPTABLE_METHODS] (length chunk)
  | AuthChosen method n =>
      let with_password := (method =? S5AM_USERNAME_PASSWORD) || (method =? S5AM_USERNAME_PASSWORD_APPNAME) in
      _ ← upd p (set_k_state (if with_password then S5CONNS_WAITING_USERNAME_PASSWORD else S5CONNS_WAITING_REQUEST));
      respond p [SOCKS5_VER; method] n
  end.

Definition read_username_password (p : Z) (chunk : list Z) : M ReadStep :=
  match read_username_password_request chunk with
  | None => mret (ToDrain 0)
  | Some req =>
      if (up_ver req =? USERNAME_PASSWORD_VER)
         && bool_decide (s5_username = up_uname req) && bool_decide (s5_password = up_passwd req)
      then _ ← upd p (set_k_state S5CONNS_WAITING_REQUEST); respond p [USERNAME_PASSWORD_VER; 0] (up_size req)
      else _ ← upd p (set_k_state S5CONNS_FAILED); respond p [USERNAME_PASSWORD_VER; 1] (length chunk)
  end.

(** The connect request inside which the owner may have closed the connection,
    whose socket is drained next. *)
Definition request_connection (p : Z) : M unit :=
  _ ← upd p (set_k_state S5CONNS_WAITING_CONNECT_RESULT);
  _ ← (src ← gets (λ s, remote_address (l_out s)); upd p (set_k_src src));
  c ← conn_at p;
  _ ← raise_connect_request p;
  q ← find_connection (k_id c);
  _ ← when (bool_decide (is_Some q)) (upd_socket p (tcp_socket_set_read_enabled false));
  goes_on p.

Definition read_request (p : Z) (chunk : list Z) : M ReadStep :=
  match parse_request chunk with
  | RequestWait tcp => _ ← when tcp (upd p (set_k_proto S5_TCP)); mret (ToDrain 0)
  | RequestInvalid tcp status atyp addr_len dst_addr =>
      _ ← when tcp (upd p (set_k_proto S5_TCP));
      _ ← upd p (set_k_state S5CONNS_FAILED);
      lp ← gets (λ s, local_port (l_out s));
      match invalid_reply status atyp addr_len dst_addr lp with
      | None => fault RequestOverread
      | Some reply => respond p reply (length chunk)
      end
  | RequestValid cmd atyp addr_len dst_addr =>
      _ ← when (cmd =? S5CMD_CONNECT) (upd p (set_k_proto S5_TCP));
      match dst_addr_from_request atyp dst_addr, app_name_from_request atyp dst_addr with
      | Some dst, Some app =>
          _ ← upd p (set_k_request dst app);
          _ ← (if cmd =? S5CMD_CONNECT then request_connection p
               else
                 ok ← complete_udp_association p;
                 _ ← goes_on p;
                 upd p (set_k_state (if (ok : bool) then S5CONNS_ESTABLISHED else S5CONNS_FAILED)));
          mret (ToDrain (4 + Z.to_nat addr_len + 2))
      | _, _ => fault WildAccess
      end
  end.

(** The loop of [S5CONNS_ESTABLISHED]; [Some] leads to the label. *)
Fixpoint read_established (budget : nat) (p : Z) (chunk : list Z) : M (option Z) :=
  match budget with
  | O => mret None
  | S budget =>
      c ← conn_at p;
      k ← the (k_socket c);
      if negb (tcp_socket_is_read_enabled k) then mret None
      else
        r ← raise_about p (ERead (k_id c) chunk);
        if r <? 0 then mret (Some 0)
        else if r =? 0 then mret None
        else
          ok ← sock_drain p (Z.to_nat r);
          if negb ok then mret (Some 0)
          else
            next ← sock_peek p;
            match next with
            | NoData => mret None
            | Eof => mret (Some 0)
            | Chunk chunk => read_established budget p chunk
            end
  end.

Definition read_chunk (p : Z) (chunk : list Z) : M ReadStep :=
  c ← conn_at p;
  match k_state c with
  | S5CONNS_IDLE => read_auth_request p chunk
  | S5CONNS_WAITING_USERNAME_PASSWORD => read_username_password p chunk
  | S5CONNS_WAITING_REQUEST => read_request p chunk
  | S5CONNS_WAITING_ACCEPT | S5CONNS_WAITING_CONNECT_RESULT => mret (DoClose 0)
  | S5CONNS_ESTABLISHED =>
      r ← read_established READ_BUDGET p chunk;
      mret (match r with Some error => DoClose error | None => ToDrain 0 end)
  | S5CONNS_FAILED => mret (ToDrain (length chunk))
  end.

Definition finish_read (p : Z) (chunk : list Z) (step : ReadStep) : M unit :=
  match step with
  | DoClose error => close_label p error
  | ToDrain n =>
      ok ← sock_drain p n;
      if (ok : bool)
      then c ← conn_at p; when (0 <? n)%nat (emit (SockDrained (k_id c) (take n chunk)))
      else
        c ← conn_at p;
        is_assoc ← gets (is_udp_association_tcp_connection c);
        _ ← close_label p 0;
        when is_assoc (fault RelayLeft)
  end.

Definition on_readable (p : Z) : M unit :=
  data ← sock_peek p;
  c ← conn_at p;
  is_assoc ← gets (is_udp_association_tcp_connection c);
  match data with
  | NoData => skip
  | Eof => if (is_assoc : bool) then terminate_udp_association p (-1) else close_label p 0
  | Chunk chunk =>
      if (is_assoc : bool) then terminate_udp_association p (-1)
      else step ← read_chunk p chunk; finish_read p chunk step
  end.

(** The loop over the table of a relay when the association's socket is
    flushed. *)
Definition flush_udp (r : Z) : M unit :=
  keys ← relay_keys r;
  for_each (λ key,
    q ← relay_conn r key;
    match q with
    | None => skip
    | Some q =>
        d ← conn_at q;
        when (bool_decide (k_state d = S5CONNS_ESTABLISHED) && (0 <? k_sent d))
          (_ ← raise_about q (EDataSent (k_id d) (k_sent d)); upd q (set_k_sent 0))
    end) keys.

Definition on_write_flush (p : Z) : M unit :=
  c ← conn_at p;
  is_assoc ← gets (is_udp_association_tcp_connection c);
  if (is_assoc : bool) then
    match k_state c with
    | S5CONNS_ESTABLISHED =>
        r ← gets (λ s, l_relay_by_id s !! u32 (k_id c));
        match r with None => close_label p 0 | Some r => flush_udp r end
    | S5CONNS_FAILED => terminate_udp_association p (-1)
    | _ => skip
    end
  else when (k_proto c =? S5_TCP)
    match k_state c with
    | S5CONNS_WAITING_ACCEPT => _ ← raise_about p (EAccepted (k_id c)); upd p (set_k_state S5CONNS_ESTABLISHED)
    | S5CONNS_FAILED => close_label p 0
    | _ => skip
    end.

Inductive SockEvent := SockReadable | SockError (error : Z) | SockSent (bytes : Z) | SockFlushed.

Definition sock_handler (id : Z) (what : SockEvent) : M unit :=
  p ← find_connection id;
  match p with
  | None => skip
  | Some p =>
      c ← conn_at p;
      is_assoc ← gets (is_udp_association_tcp_connection c);
      match what with
      | SockReadable => on_readable p
      | SockError error => if (is_assoc : bool) then terminate_udp_association p error else close_label p error
      | SockSent bytes =>
          when (negb is_assoc && bool_decide (k_state c = S5CONNS_ESTABLISHED))
            (_ ← raise (EDataSent (k_id c) bytes); skip)
      | SockFlushed => on_write_flush p
      end
  end.

(** ** Accepting, starting and stopping *)

Definition idle_connection (id : Z) : Connection :=
  mkS5 S5CONNS_IDLE id None s5_no_address (S5Sockaddr s5_no_address) 0 [] false 0 [] None.

Definition on_accept : M unit :=
  id ← generate_id;
  p ← new_conn (idle_connection id);
  ok ← all_zero [SysSocketCreate; SysAcquire];
  if (ok : bool) then
    _ ← upd p (set_k_socket (Some tcp_socket_acquire_fd));
    _ ← put_connection id p;
    upd_socket p (tcp_socket_set_read_enabled true)
  else _ ← sys SysClose; destroy_connection p.

(** The tables in the order of their buckets. *)
Definition table_buckets (t : gmap Z Z) : M (list (Z * Z)) :=
  let l := id_buckets t in
  if bool_decide (list_to_set l.*2 = dom t ∧ NoDup l.*2 ∧ NoDup l.*1) then mret l else env_fault.

Definition clean_up_udp_relays : M unit :=
  l ← (t ← gets l_relay_by_id; table_buckets t);
  for_each (λ b,
    r ← gets (λ s, l_relay_by_id s !! b.2);
    r ← the r;
    relay ← relay_at r;
    p ← the (r_tcp_conn relay);
    terminate_udp_association p 0) l.

(** The owner is told the index of a connection's bucket, not its id. *)
Definition clean_up_connections : M unit :=
  _ ← modify (set_l_stopping true);
  l ← (t ← gets l_by_id; table_buckets t);
  _ ← for_each (λ b,
    p ← gets (λ s, l_by_id s !! b.2);
    p ← the p;
    _ ← destroy_connection p;
    raise_closed b.1 0) l;
  modify (set_l_stopping false).

Definition socks5_listener_stop : M unit :=
  _ ← (on ← gets l_listening;
       match on with
       | Some _ => modify (λ s, set_l_listening (Some false) (l_port s) s)
       | None => skip
       end);
  _ ← modify (set_l_task false);
  _ ← clean_up_udp_relays;
  clean_up_connections.

Definition socks5_listener_destroy : M unit :=
  relays ← gets l_relay_by_id;
  _ ← when (negb (bool_decide (relays = ∅))) (_ ← clean_up_udp_relays; s5_assert false);
  conns ← gets l_by_id;
  when (negb (bool_decide (conns = ∅))) (_ ← clean_up_connections; s5_assert false).

Inductive Socks5ListenerStartResult := SOCKS5L_START_SUCCESS | SOCKS5L_START_ADDR_IN_USE | SOCKS5L_START_FAILURE.

(** [EADDRINUSE] is told by the environment's error number 98. *)
Definition EADDRINUSE : Z := 98.

(** The port that was chosen, where none was given. *)
Definition note_port : M unit :=
  p ← gets l_port;
  when (p =? 0)
    (on ← gets l_listening;
     lp ← gets (λ s, local_port (l_out s));
     modify (set_l_listening on lp)).

Definition open_listen_socket : M Socks5ListenerStartResult :=
  fd ← sys SysSocket;
  if fd <? 0 then mret SOCKS5L_START_FAILURE
  else
    ok ← (r ← sys SysNonblocking;
          if negb (r =? 0) then mret false
          else _ ← sys SysCloseOnExec; all_zero (SysReusable :: if s5_ipv6 then [SysDualStack] else []));
    if negb ok then _ ← sys SysClose; mret SOCKS5L_START_FAILURE
    else
      r ← sys SysBind;
      err ← gets (λ s, s5_errno (l_out s));
      if negb (r =? 0) then
        _ ← sys SysClose;
        mret (if err =? EADDRINUSE then SOCKS5L_START_ADDR_IN_USE else SOCKS5L_START_FAILURE)
      else
        r ← sys SysListen;
        if negb (r =? 0) then _ ← sys SysClose; mret SOCKS5L_START_FAILURE
        else _ ← modify (λ s, set_l_listening (Some true) (l_port s) s); mret SOCKS5L_START_SUCCESS.

Definition socks5_listener_start : M Socks5ListenerStartResult :=
  on ← gets l_listening;
  r ← match on with
      | None => open_listen_socket
      | Some _ =>
          r ← sys SysEnable;
          if r =? 0 then _ ← modify (λ s, set_l_listening (Some true) (l_port s) s); mret SOCKS5L_START_SUCCESS
          else mret SOCKS5L_START_FAILURE
      end;
  _ ← match r with SOCKS5L_START_SUCCESS => note_port | _ => skip end;
  mret r.

End Handlers.

(** [socks5_listener_create]: whether the configuration is accepted. *)
Definition create_accepts (username password : list Z) (loopback : bool) : bool :=
  Bool.eqb (bool_decide (username = [])) (bool_decide (password = []))
  && (loopback || negb (bool_decide (username = []))).

Definition listener_new (port : Z) : Socks5Listener :=
  mkListener ∅ ∅ 0 ∅ ∅ None port false [] ∅ false [].

(** ** What the environment may do *)

Definition announced (id : Z) (tr : list (S5Out A)) : bool :=
  existsb (λ o, match o with Raised (EConnectRequest i _ _ _ _) => i =? id | _ => false end) tr.
Definition ended (id : Z) (tr : list (S5Out A)) : bool :=
  existsb (λ o, match o with Raised (EClosed i _) => i =? id | _ => false end) tr.

Definition call_id (call : S5Call) : Z :=
  match call with
  | CallComplete id _ | CallSend id _ | CallTurnRead id _ | CallFlow id | CallClose id _ => id
  end.

(** The owner calls for connections it was asked about and was not told to be
    closed, completes a request once, and sends on established connections; a
    connection that is gone may be named at any time.  It makes no call about the
    connections that are left when [clean_up_connections] reports the end of one. *)
Definition call_allowed (s : Socks5Listener) (call : S5Call) : bool :=
  match l_by_id s !! u32 (call_id call) with
  | None => true
  | Some p =>
      match l_conns s !! p with
      | None => true
      | Some c =>
          (k_id c =? call_id call) && announced (k_id c) (l_out s) && negb (ended (k_id c) (l_out s))
          && negb (l_stopping s)
          && match call with
             | CallComplete _ _ =>
                 bool_decide (k_state c = S5CONNS_WAITING_CONNECT_RESULT) || bool_decide (k_state c = S5CONNS_FAILED)
             | CallSend _ _ => bool_decide (k_state c = S5CONNS_ESTABLISHED)
             | _ => true
             end
      end
  end.

(** Calls, with the ones made from the events inside them to a depth of [fuel]:
    the depth is the environment's. *)
Fixpoint nested_call (fuel : nat) (call : S5Call) : M unit :=
  match fuel with
  | O => env_fault
  | S fuel =>
      ok ← gets (λ s, call_allowed s call);
      if (ok : bool) then api_call (nested_call fuel) call else env_fault
  end.

(** What reaches the listener from outside: libevent, the event loop, the owner.
    [OpArrive] is data that libevent reads; [OpCloseAsync] and [OpDeferred] are the
    asynchronous [SocksListener::close_connection] and its task. *)
Inductive S5Op :=
  | OpStart
  | OpAccept
  | OpArrive (id : Z) (data : list Z)
  | OpReadable (id : Z)
  | OpEof (id : Z)
  | OpSock (id : Z) (what : SockEvent)
  | OpUdp (id : Z) (what : UdpEvent)
  | OpCall (call : S5Call)
  | OpCloseAsync (task id : Z) (graceful : bool)
  | OpDeferred (task : Z)
  | OpPendingTask.

(** An operation on the socket of a connection, which exists. *)
Definition on_socket (id : Z) (f : Z → TcpSocket → M unit) : M unit :=
  p ← find_connection id;
  match p with
  | None => env_fault
  | Some p => c ← conn_at p; match k_socket c with Some k => f p k | None => env_fault end
  end.

Definition run_op (fuel : nat) (op : S5Op) : M unit :=
  let rec := nested_call fuel in
  match op with
  | OpStart => _ ← socks5_listener_start; skip
  | OpAccept => on_accept rec
  | OpArrive id data =>
      on_socket id (λ p k,
        if negb (ts_reading k) || ts_eof k then env_fault
        else c ← conn_at p;
             _ ← upd p (set_k_socket (Some (set_ts_input (ts_input k ++ data) k)));
             emit (Got (k_id c) data))
  | OpReadable id =>
      on_socket id (λ p k,
        let '(readable, k) := on_read k in
        _ ← upd p (set_k_socket (Some k));
        when readable (sock_handler rec id SockReadable))
  | OpEof id =>
      on_socket id (λ p k, _ ← upd p (set_k_socket (Some (on_eof k))); sock_handler rec id SockReadable)
  | OpSock id what =>
      match what with SockReadable => env_fault | _ => on_socket id (λ _ _, sock_handler rec id what) end
  | OpUdp id what =>
      r ← gets (λ s, l_relay_by_id s !! u32 id);
      match r with Some _ => udp_event_handler rec id what | None => env_fault end
  | OpCall call => rec call
  | OpCloseAsync task id graceful =>
      busy ← gets (λ s, bool_decide (is_Some (l_deferred s !! task)));
      ok ← gets (λ s, call_allowed s (CallClose id graceful));
      known ← gets (λ s, announced id (l_out s));
      if busy || negb ok || negb known then env_fault
      else modify (λ s, set_l_deferred (<[task := (id, graceful)]> (l_deferred s)) s)
  | OpDeferred task =>
      t ← gets (λ s, l_deferred s !! task);
      match t with
      | None => env_fault
      | Some (id, graceful) =>
          _ ← modify (λ s, set_l_deferred (delete task (l_deferred s)) s);
          socks5_listener_close_connection rec id graceful
      end
  | OpPendingTask =>
      t ← gets l_task;
      if (t : bool) then send_pending_udp_data rec else env_fault
  end.

Definition run_ops (fuel : nat) (ops : list S5Op) : M unit := for_each (run_op fuel) ops.

(** [SocksListener::deinit], and the whole life of a listener. *)
Definition deinit (fuel : nat) : M unit :=
  let rec := nested_call fuel in
  _ ← socks5_listener_stop rec;
  _ ← socks5_listener_destroy rec;
  modify (λ s, set_l_listening None (l_port s) (set_l_deferred ∅ s)).

Definition lifetime (fuel : nat) (ops : list S5Op) : M unit := _ ← run_ops fuel ops; deinit fuel.

End Socks5.
