(* ===== verification/Socks5Inv.v ===== *)
(** * The invariant of the SOCKS5 listener

    What the trace says of a connection, the well-formedness of the heaps and
    tables, and what the owner's calls from inside an event may change
    ([frame]). *)
From S2P Require Import Prelude Effects WireUtils Socks5Wire TcpSocket Socks5.

Lemma option_Forall2_impl {X Y} (R S : X → Y → Prop) x y :
  (∀ a b, R a b → S a b) → option_Forall2 R x y → option_Forall2 S x y.
Proof. intros H []; constructor; auto. Qed.

Section Inv.
Context {A : Type} `{!SocketAddressOps A, !S5Env A}.
Notation address := (Socks5ConnectionAddress A).
Notation listener := (Socks5Listener (A:=A)).
Notation conn := (Connection (A:=A)).
Implicit Types (s : listener) (c d : conn) (tr : list (S5Out A)) (p q r id : Z).

(** The faults the code has. *)
Definition known_fault (w : S5Fault) : Prop :=
  w = RequestOverread ∨ w = ReplyTypeAssertion ∨ w = UsedAfterEnd ∨ w = NoRelay ∨ w = RelayLeft.

(** ** The trace *)

Definition accepted id tr : bool :=
  existsb (λ o, match o with Raised (EAccepted i) => i =? id | _ => false end) tr.

(** The owner was asked about a connection of UDP. *)
Definition udp_announced id tr : bool :=
  existsb (λ o, match o with Raised (EConnectRequest i proto _ _ _) => (i =? id) && (proto =? S5_UDP) | _ => false end) tr.

(** The bytes that came from a client, the ones the listener read itself, the
    ones the owner took. *)
Definition got id tr : list Z :=
  concat (omap (λ o, match o with Got i d => if i =? id then Some d else None | _ => None end) tr).
Definition drained id tr : list Z :=
  concat (omap (λ o, match o with SockDrained i d => if i =? id then Some d else None | _ => None end) tr).
Definition taken id tr : list Z :=
  concat (omap (λ o, match o with
    | Answered (ERead i d) x => if i =? id then Some (take (Z.to_nat x) d) else None
    | _ => None end) tr).

(** The credentials were seen on the connection's socket. *)
Definition credentials (o : S5Out A) id : Prop :=
  ∃ chunk up, o = SockPeeked id chunk ∧ read_username_password_request chunk = Some up
    ∧ up_uname up = s5_username ∧ up_passwd up = s5_password.
Definition authed id tr : Prop := s5_username = [] ∨ Exists (λ o, credentials o id) tr.

Definition generated_ids tr : list Z :=
  omap (λ o, match o with Answered EGenerateId x => Some x | _ => None end) tr.

(** The association whose relay a datagram last came to. *)
Definition datagrams tr : list Z := omap (λ o, match o with Datagram id _ => Some id | _ => None end) tr.
Definition last_datagram tr : option Z := last (datagrams tr).

(** The client of a connection the owner is asked about: the connection itself, or
    for UDP the association whose datagram is being handled. *)
Definition client_of tr id proto tid : Prop :=
  if proto =? S5_UDP then last_datagram tr = Some tid else tid = id.

(** What has to be the case when an event is raised. *)
Definition event_ok tr (e : Socks5ListenerEvent A) : Prop :=
  match e with
  | EConnectRequest id proto _ _ _ =>
      announced id tr = false ∧ ended id tr = false
      ∧ ∃ tid, client_of tr id proto tid ∧ authed tid tr
  | EAccepted id => announced id tr = true ∧ ended id tr = false
  | ERead id _ | EDataSent id _ => accepted id tr = true ∧ ended id tr = false
  | EClosed id _ => ended id tr = false
  | EGenerateId => True
  end.

Definition events_ok tr : Prop := ∀ pre post e, tr = pre ++ Raised e :: post → event_ok pre e.

(** The connection an entry is about. *)
Definition mentions (o : S5Out A) : option Z :=
  match o with
  | Raised (EConnectRequest id _ _ _ _) | Raised (EAccepted id) | Raised (ERead id _) | Raised (EDataSent id _)
  | Raised (EClosed id _) | Answered (ERead id _) _ | Got id _ | SockDrained id _ => Some id
  | _ => None
  end.

Record trace_ok tr : Prop := {
  to_events : events_ok tr;
  to_unique : NoDup (u32 <$> generated_ids tr);
  to_known : Forall (λ o, ∀ id, mentions o = Some id → id ∈ generated_ids tr) tr;
}.

(** Entries that change nothing above but what is accepted and ended, and the
    events among them are all right. *)
Definition quiet (o : S5Out A) : bool :=
  match o with
  | Raised (EConnectRequest _ _ _ _ _) | Answered EGenerateId _ | Answered (ERead _ _) _
  | Got _ _ | SockDrained _ _ | Datagram _ _ => false
  | _ => true
  end.

Lemma announced_app id tr tr' : announced id (tr ++ tr') = announced id tr || announced id tr'.
Proof. apply existsb_app. Qed.
Lemma udp_announced_app id tr tr' : udp_announced id (tr ++ tr') = udp_announced id tr || udp_announced id tr'.
Proof. apply existsb_app. Qed.
Lemma udp_unannounced id tr : announced id tr = false → udp_announced id tr = false.
Proof.
  unfold announced, udp_announced. induction tr as [|o tr IH]; [done|]. simpl. intros [H1 H2]%orb_false_iff. rewrite IH by done.
  destruct o as [[]| | | | | | | | | |]; try done. by rewrite H1.
Qed.
Lemma ended_app id tr tr' : ended id (tr ++ tr') = ended id tr || ended id tr'.
Proof. apply existsb_app. Qed.
Lemma accepted_app id tr tr' : accepted id (tr ++ tr') = accepted id tr || accepted id tr'.
Proof. apply existsb_app. Qed.
Lemma got_app id tr tr' : got id (tr ++ tr') = got id tr ++ got id tr'.
Proof. unfold got. by rewrite omap_app, concat_app. Qed.
Lemma drained_app id tr tr' : drained id (tr ++ tr') = drained id tr ++ drained id tr'.
Proof. unfold drained. by rewrite omap_app, concat_app. Qed.
Lemma taken_app id tr tr' : taken id (tr ++ tr') = taken id tr ++ taken id tr'.
Proof. unfold taken. by rewrite omap_app, concat_app. Qed.
Lemma generated_ids_app tr tr' : generated_ids (tr ++ tr') = generated_ids tr ++ generated_ids tr'.
Proof. apply omap_app. Qed.
Lemma datagrams_app tr tr' : datagrams (tr ++ tr') = datagrams tr ++ datagrams tr'.
Proof. apply omap_app. Qed.
Lemma authed_app id tr tr' : authed id tr → authed id (tr ++ tr').
Proof. intros [H|H]; [by left|right]. apply Exists_app. by left. Qed.

Lemma quiet_facts id tr :
  Forall (λ o, quiet o = true) tr →
  announced id tr = false ∧ got id tr = [] ∧ drained id tr = [] ∧ taken id tr = [] ∧ generated_ids tr = [].
Proof.
  unfold announced, got, drained, taken, generated_ids.
  induction 1 as [|o tr Ho _ (IH1 & IH2 & IH3 & IH4 & IH5)]; [done|]. simpl.
  destruct o as [[]|[]| | | | | | | | |]; simpl in *; try done; by rewrite ?IH1.
Qed.

Lemma quiet_datagrams tr : Forall (λ o, quiet o = true) tr → datagrams tr = [].
Proof. unfold datagrams. induction 1 as [|o tr Ho _ IH]; [done|]. by destruct o. Qed.

Lemma events_ok_snoc tr o :
  events_ok tr → (∀ e, o = Raised e → event_ok tr e) → events_ok (tr ++ [o]).
Proof.
  intros Htr Ho pre post e Heq. destruct post as [|y post _] using rev_ind.
  - apply app_inj_tail in Heq as [-> ->]. by apply Ho.
  - rewrite app_comm_cons, app_assoc in Heq. apply app_inj_tail in Heq as [-> _]. by eapply Htr.
Qed.

Lemma trace_ok_snoc tr o :
  trace_ok tr → (∀ e, o = Raised e → event_ok tr e) →
  (∀ x, o = Answered EGenerateId x → existsb (generated x) tr = false) →
  (∀ id, mentions o = Some id → id ∈ generated_ids tr) →
  trace_ok (tr ++ [o]).
Proof.
  intros [He Hu Hk] H1 H2 H3. split.
  - by apply events_ok_snoc.
  - rewrite generated_ids_app, fmap_app, NoDup_app. split_and!; [done| |].
    + intros x Hx. destruct o as [|[] y| | | | | | | | |]; simpl; try apply not_elem_of_nil.
      rewrite list_elem_of_singleton. intros ->. apply list_elem_of_fmap in Hx as (y' & Heq & Hy').
      apply list_elem_of_omap in Hy' as (o & Ho & Hoy). specialize (H2 y eq_refl).
      assert (existsb (generated y) tr = true) as Hc; [|congruence]. apply existsb_exists.
      exists o. split; [by apply list_elem_of_In|]. destruct o as [|[]| | | | | | | | |]; simplify_eq/=. by apply Z.eqb_eq.
    + destruct o as [|[]| | | | | | | | |]; simpl; try apply NoDup_nil_2. apply NoDup_singleton.
  - apply Forall_app. split; [eapply Forall_impl; [done|]; intros o' Ho'|constructor; [|done]];
      intros id Hid; rewrite generated_ids_app, elem_of_app; left; [by apply Ho'|by apply H3].
Qed.

(** Nothing is known of a new id. *)
Lemma fresh_facts id tr :
  trace_ok tr → id ∉ generated_ids tr →
  announced id tr = false ∧ ended id tr = false ∧ got id tr = [] ∧ drained id tr = [] ∧ taken id tr = [].
Proof.
  intros [_ _ Hk] Hid. assert (Hn : Forall (λ o, mentions o ≠ Some id) tr).
  { eapply Forall_impl; [done|]. intros o Ho E. by apply Hid, Ho. }
  clear Hk Hid. unfold announced, ended, got, drained, taken.
  induction Hn as [|o tr Ho _ (IH1 & IH2 & IH3 & IH4 & IH5)]; [done|]. simpl. rewrite IH1, IH2.
  destruct o as [[]|[]| | | | | | | | |]; simpl in *; try done.
  all: match goal with H : Some ?x ≠ Some ?y |- _ => rewrite (proj2 (Z.eqb_neq x y)) by congruence end; done.
Qed.

Lemma trace_ok_quiet tr o :
  trace_ok tr → quiet o = true → (∀ e, o = Raised e → event_ok tr e) →
  (∀ id, mentions o = Some id → id ∈ generated_ids tr) → trace_ok (tr ++ [o]).
Proof. intros H Hq He Hm. apply trace_ok_snoc; [done..| |done]. by intros x ->. Qed.

(** ** The heaps and the tables *)

Definition udp_state (st : ConnectionState) : bool :=
  match st with S5CONNS_WAITING_USERNAME_PASSWORD | S5CONNS_WAITING_REQUEST => false | _ => true end.

Definition has_socket c : Prop := ∃ k, k_socket c = Some k ∧ ts_ssl_pending k = [].

(** A connection of UDP is in the table of its relay. *)
Definition in_relay s p c : Prop :=
  ∃ r rel t, k_relay c = Some r ∧ l_relays s !! r = Some rel ∧ r_table rel = Some t
    ∧ t !! (k_src c, k_dst c) = Some p.

Definition kind_ok s p c : Prop :=
  if k_proto c =? S5_UDP
  then k_socket c = None ∧ udp_state (k_state c) = true ∧ (∃ a, k_dst c = S5Sockaddr a) ∧ in_relay s p c
  else (k_proto c = 0 ∨ k_proto c = S5_TCP) ∧ has_socket c.

(** A relay belongs to an established connection without protocol. *)
Definition relay_ok s r (rel : UdpRelay (A:=A)) : Prop :=
  r_event rel = true
  ∧ (∃ p c, r_tcp_conn rel = Some p ∧ l_conns s !! p = Some c ∧ k_proto c = 0 ∧ k_state c = S5CONNS_ESTABLISHED
            ∧ l_relay_by_id s !! u32 (k_id c) = Some r)
  ∧ ∀ t key q, r_table rel = Some t → t !! key = Some q →
      ∃ d, l_conns s !! q = Some d ∧ k_proto d = S5_UDP ∧ k_relay d = Some r ∧ (k_src d, k_dst d) = key.

Record heap_ok s : Prop := {
  h_conn p c : l_conns s !! p = Some c → l_by_id s !! u32 (k_id c) = Some p ∧ kind_ok s p c;
  h_by_id k p : l_by_id s !! k = Some p → ∃ c, l_conns s !! p = Some c ∧ u32 (k_id c) = k;
  h_relay r rel : l_relays s !! r = Some rel → relay_ok s r rel;
  h_relay_by_id k r : l_relay_by_id s !! k = Some r →
    ∃ rel p c, l_relays s !! r = Some rel ∧ r_tcp_conn rel = Some p ∧ l_conns s !! p = Some c ∧ u32 (k_id c) = k;
  h_next p : is_Some (l_conns s !! p) ∨ is_Some (l_relays s !! p) → p < l_next s;
}.

(** What the trace and the state of a connection say of each other; [open] is
    false while its end is being reported. *)
Definition announced_state (st : ConnectionState) : bool :=
  match st with
  | S5CONNS_WAITING_CONNECT_RESULT | S5CONNS_WAITING_ACCEPT | S5CONNS_ESTABLISHED => true
  | _ => false
  end.
Definition authed_state (st : ConnectionState) : bool :=
  announced_state st || bool_decide (st = S5CONNS_WAITING_REQUEST).

Definition early (st : ConnectionState) : bool :=
  match st with S5CONNS_IDLE | S5CONNS_WAITING_USERNAME_PASSWORD => true | _ => false end.

Record told tr (open : bool) c : Prop := {
  tc_generated : k_id c ∈ generated_ids tr;
  tc_open : open = true → ended (k_id c) tr = false;
  tc_announced : k_proto c ≠ 0 → announced_state (k_state c) = true → announced (k_id c) tr = true;
  tc_unannounced : k_proto c = 0 ∨ past_request (k_state c) = false → announced (k_id c) tr = false;
  tc_accepted : k_proto c ≠ 0 → k_state c = S5CONNS_ESTABLISHED → accepted (k_id c) tr = true;
  tc_authed : k_proto c ≠ S5_UDP → authed_state (k_state c) = true → authed (k_id c) tr;
  tc_stream : open = true → ∀ k, k_socket c = Some k →
    got (k_id c) tr = drained (k_id c) tr ++ taken (k_id c) tr ++ ts_input k;
  tc_taken : k_socket c ≠ None → k_state c ≠ S5CONNS_ESTABLISHED → taken (k_id c) tr = [];
  tc_early : k_proto c = S5_TCP → early (k_state c) = false;
  tc_command : k_state c = S5CONNS_WAITING_REQUEST → k_proto c = S5_TCP → ∀ k, k_socket c = Some k →
    ∃ v l, ts_input k = v :: S5CMD_CONNECT :: l;
  tc_udp : announced (k_id c) tr = true → udp_announced (k_id c) tr = (k_proto c =? S5_UDP);
}.

(** The owner was asked about the connections of deferred tasks; packets wait for
    connections of UDP that were accepted. *)
Definition tasks_ok (deferred : gmap Z (Z * bool)) (pending : list Z) tr : Prop :=
  (∀ t id g, deferred !! t = Some (id, g) → announced id tr = true)
  ∧ ∀ id, id ∈ pending → accepted id tr = true ∧ udp_announced id tr = true.

Lemma tasks_ok_app deferred pending tr tr' : tasks_ok deferred pending tr → tasks_ok deferred pending (tr ++ tr').
Proof.
  intros [H1 H2]. split.
  - intros t id g H. rewrite announced_app. by rewrite (H1 t id g H).
  - intros id H. rewrite accepted_app, udp_announced_app. by destruct (H2 id H) as [-> ->].
Qed.

Record inv (cl : list Z) s : Prop := {
  i_heap : heap_ok s;
  i_told p c : l_conns s !! p = Some c → told (l_out s) (bool_decide (p ∉ cl)) c;
  i_trace : trace_ok (l_out s);
  i_closing p c : p ∈ cl → l_conns s !! p = Some c → ended (k_id c) (l_out s) = true;
  i_tasks : tasks_ok (l_deferred s) (l_with_pending s) (l_out s);
  i_assoc p c : l_conns s !! p = Some c → k_proto c = 0 → k_state c = S5CONNS_ESTABLISHED →
    is_Some (l_relay_by_id s !! u32 (k_id c));
}.

(** ** What calls from inside an event change *)

Definition sim_socket (k k' : TcpSocket) : Prop :=
  ts_input k' = ts_input k ∧ ts_ssl_pending k' = ts_ssl_pending k ∧ ts_eof k' = ts_eof k.

Record sim c c' : Prop := {
  sim_id : k_id c' = k_id c;
  sim_src : k_src c' = k_src c;
  sim_dst : k_dst c' = k_dst c;
  sim_proto : k_proto c' = k_proto c;
  sim_pending : k_pending c' = k_pending c;
  sim_relay : k_relay c' = k_relay c;
  sim_sockets : option_Forall2 sim_socket (k_socket c) (k_socket c');
  sim_state : k_state c' = k_state c
    ∨ k_state c = S5CONNS_WAITING_CONNECT_RESULT ∧ past_request (k_state c') = true
      ∧ (k_proto c = S5_UDP → k_state c' ≠ S5CONNS_WAITING_ACCEPT);
}.

Definition shrinks (t t' : gmap (A * address) Z) : Prop := t' ⊆ t.

Definition sim_relays (rel rel' : UdpRelay (A:=A)) : Prop :=
  r_event rel' = r_event rel ∧ r_tcp_conn rel' = r_tcp_conn rel
  ∧ option_Forall2 shrinks (r_table rel) (r_table rel').

(** [gone] are connections that may have been ended. *)
Record frame (gone : list Z) s s' : Prop := {
  f_conn p c' : l_conns s' !! p = Some c' → ∃ c, l_conns s !! p = Some c ∧ sim c c';
  f_keep p c : l_conns s !! p = Some c → p ∉ gone → announced (k_id c) (l_out s) = false ∨ ended (k_id c) (l_out s) = true →
    l_conns s' !! p = Some c;
  f_relay r : option_Forall2 sim_relays (l_relays s !! r) (l_relays s' !! r);
  f_relay_by_id : l_relay_by_id s' = l_relay_by_id s;
  f_next : l_next s' = l_next s;
  f_stopping : l_stopping s' = l_stopping s;
  f_deferred : l_deferred s' = l_deferred s;
  f_out : ∃ tr, l_out s' = l_out s ++ tr ∧ Forall (λ o, quiet o = true) tr;
}.

#[global] Instance sim_socket_refl : Reflexive sim_socket.
Proof. by intros k. Qed.
#[global] Instance sim_socket_trans : Transitive sim_socket.
Proof. intros k1 k2 k3 (? & ? & ?) (? & ? & ?). split_and!; congruence. Qed.
#[global] Instance sim_refl : Reflexive sim.
Proof. intros c. split; first [done|reflexivity|by left]. Qed.
#[global] Instance sim_trans : Transitive sim.
Proof.
  intros c1 c2 c3 [] []. split; try congruence; [by etrans|].
  destruct sim_state0 as [E|(E & Hp & Hw)]; [by rewrite <- E, <- sim_proto0|right]. split; [done|].
  destruct sim_state1 as [-> |(_ & ? & Hw')]; [done|]. split; [done|]. intros Hu. apply Hw'. congruence.
Qed.
#[global] Instance shrinks_refl : Reflexive shrinks.
Proof. intros t. apply map_subseteq_po. Qed.
#[global] Instance shrinks_trans : Transitive shrinks.
Proof. intros t1 t2 t3 H1 H2. unfold shrinks in *. by etrans. Qed.
#[global] Instance sim_relays_refl : Reflexive sim_relays.
Proof. intros rel. split_and!; done. Qed.
#[global] Instance sim_relays_trans : Transitive sim_relays.
Proof. intros r1 r2 r3 (? & ? & ?) (? & ? & ?). split_and!; try congruence. by etrans. Qed.

Lemma s5_frame_refl gone s : frame gone s s.
Proof. split; try done; [by eexists|]. exists []. by rewrite app_nil_r. Qed.

Lemma s5_frame_trans gone s1 s2 s3 : frame gone s1 s2 → frame gone s2 s3 → frame gone s1 s3.
Proof.
  intros [] []. destruct f_out0 as (t1 & Ho1 & Hq1), f_out1 as (t2 & Ho2 & Hq2).
  split; try congruence.
  - intros p c3 H3. destruct (f_conn1 _ _ H3) as (c2 & H2 & ?). destruct (f_conn0 _ _ H2) as (c1 & H1 & ?).
    exists c1. split; [done|]. by etrans.
  - intros p c Hc Hg Hx. specialize (f_keep0 p c Hc Hg Hx). apply f_keep1; [done..|]. rewrite Ho1.
    destruct (quiet_facts (k_id c) t1 Hq1) as [Ha _]. rewrite announced_app, ended_app, Ha.
    destruct Hx as [-> | ->]; [by left|by right].
  - intros r. etrans; [apply f_relay0|apply f_relay1].
  - exists (t1 ++ t2). rewrite Ho2, Ho1, app_assoc. split; [done|]. by apply Forall_app.
Qed.

Lemma frame_weaken gone gone' s s' : gone ⊆ gone' → frame gone s s' → frame gone' s s'.
Proof.
  intros Hg []. split; try done.
  intros p c Hc Hp. apply f_keep0; [done|]. set_solver.
Qed.

(** Entries about other connections. *)
Lemma other_facts id (o : S5Out A) :
  mentions o ≠ Some id →
  announced id [o] = false ∧ ended id [o] = false ∧ got id [o] = [] ∧ drained id [o] = [] ∧ taken id [o] = [].
Proof.
  intros Ho. unfold announced, ended, got, drained, taken. simpl.
  destruct o as [[]|[]| | | | | | | | |]; simpl in *; try done.
  all: rewrite (proj2 (Z.eqb_neq _ _)) by congruence; done.
Qed.

Lemma told_other tr o b c : mentions o ≠ Some (k_id c) → told tr b c → told (tr ++ [o]) b c.
Proof.
  intros Ho []. destruct (other_facts _ _ Ho) as (Ha & He & Hg & Hd & Ht).
  split; rewrite ?udp_announced_app, ?(udp_unannounced _ _ Ha), ?announced_app, ?ended_app, ?accepted_app, ?got_app, ?drained_app, ?taken_app,
    ?Ha, ?He, ?Hg, ?Hd, ?Ht, ?app_nil_r, ?orb_false_r; auto.
  - rewrite generated_ids_app. apply elem_of_app. by left.
  - intros H1 H2. by rewrite tc_accepted0.
  - intros H1 H2. by apply authed_app, tc_authed0.
Qed.

(** ** Changes of the state *)

Definition push (o : S5Out A) s : listener := set_l_out (l_out s ++ [o]) s.
Definition put p c s : listener := set_l_conns (<[p := c]> (l_conns s)) s.

Lemma heap_ok_same s s' :
  l_conns s' = l_conns s → l_by_id s' = l_by_id s → l_relays s' = l_relays s →
  l_relay_by_id s' = l_relay_by_id s → l_next s' = l_next s → heap_ok s → heap_ok s'.
Proof.
  destruct s, s'. simpl. intros -> -> -> -> -> []. by split.
Qed.

Lemma frame_push gone o s : quiet o = true → frame gone s (push o s).
Proof. intros Ho. split; try done; [by eexists|]. exists [o]. by repeat constructor. Qed.

Lemma told_quiet tr o b c :
  quiet o = true → (b = true → ended (k_id c) [o] = false) → told tr b c → told (tr ++ [o]) b c.
Proof.
  intros Hq He []. destruct (quiet_facts (k_id c) [o]) as (Ha & Hg & Hd & Ht & Hi); [by repeat constructor|].
  split; rewrite ?udp_announced_app, ?(udp_unannounced _ _ Ha), ?generated_ids_app, ?announced_app, ?ended_app, ?accepted_app,
    ?got_app, ?drained_app, ?taken_app, ?Ha, ?Hg, ?Hd, ?Ht, ?Hi, ?app_nil_r, ?orb_false_r; auto.
  - intros H. by rewrite tc_open0, He.
  - intros H1 H2. by rewrite tc_accepted0.
  - intros H1 H2. by apply authed_app, tc_authed0.
Qed.

Lemma told_open tr b b' c : told tr b c → (b' = true → b = true) → told tr b' c.
Proof. intros [] H. split; auto. Qed.

(** A change of the state, and of nothing the trace speaks of. *)
Lemma told_state tr b c st :
  told tr b c →
  (k_proto c ≠ 0 → announced_state st = true → announced (k_id c) tr = true) →
  (past_request st = false → announced (k_id c) tr = false) →
  (k_proto c ≠ 0 → st = S5CONNS_ESTABLISHED → accepted (k_id c) tr = true) →
  (k_proto c ≠ S5_UDP → authed_state st = true → authed (k_id c) tr) →
  (k_socket c ≠ None → st ≠ S5CONNS_ESTABLISHED → taken (k_id c) tr = []) →
  (k_proto c = S5_TCP → early st = false ∧ st ≠ S5CONNS_WAITING_REQUEST) →
  told tr b (set_k_state st c).
Proof.
  intros [] H1 H2 H3 H4 H5 H6. split; simpl; auto; [intros [H|H]; auto|naive_solver|]. intros E Ht. by destruct (H6 Ht).
Qed.

Definition same_input (k k' : TcpSocket) : Prop := ts_input k' = ts_input k.

Lemma told_same tr b c c' :
  told tr b c → k_id c' = k_id c → k_proto c' = k_proto c → k_state c' = k_state c →
  option_Forall2 same_input (k_socket c) (k_socket c') → told tr b c'.
Proof.
  intros [] Hi Hp Hs Hk. split; rewrite ?Hi, ?Hp, ?Hs; auto.
  - intros Hb k E. rewrite E in Hk. inversion Hk as [k0 k1 Hk' E1 E2|]; subst. rewrite Hk'. eauto.
  - intros Hn. apply tc_taken0. intros E. rewrite E in Hk. inversion Hk. congruence.
  - intros H1 H2 k E. rewrite E in Hk. inversion Hk as [k0 k1 Hk' E1 E2|]; subst. rewrite Hk'. eauto.
Qed.

(** Entries other than the end of a connection. *)
Definition harmless tr (o : S5Out A) : Prop :=
  quiet o = true ∧ (∀ e, o = Raised e → event_ok tr e ∧ (∀ id error, e ≠ EClosed id error))
  ∧ ∀ id, mentions o = Some id → id ∈ generated_ids tr.

Lemma inv_push cl o s : harmless (l_out s) o → inv cl s → inv cl (push o s).
Proof.
  intros (Hq & He & Hm) [Hh Ht Htr Hcl Hd Has]. split; [..|done].
  - by eapply heap_ok_same, Hh.
  - intros p c Hc. apply told_quiet; [done| |by apply Ht]. intros _. simpl. rewrite orb_false_r.
    destruct o as [[]| | | | | | | | | |]; try done. by destruct (proj2 (He _ eq_refl) id error).
  - apply trace_ok_quiet; try done. intros e ->. by apply He.
  - intros p c Hp Hc. simpl. by rewrite ended_app, (Hcl p c Hp Hc).
  - by apply tasks_ok_app.
Qed.

(** Two connections do not share an id. *)
Lemma same_id s p q c d :
  heap_ok s → l_conns s !! p = Some c → l_conns s !! q = Some d → k_id c = k_id d → p = q.
Proof.
  intros [] Hc Hd E. apply h_conn0 in Hc as [Hc _]. apply h_conn0 in Hd as [Hd _]. rewrite E in Hc. congruence.
Qed.

Lemma inv_ending cl s p c error :
  l_conns s !! p = Some c → p ∉ cl → inv cl s → inv (p :: cl) (push (Raised (EClosed (k_id c) error)) s).
Proof.
  intros Hc Hp [Hh Ht Htr Hcl Hd Has]. split; [..|done].
  - by eapply heap_ok_same, Hh.
  - intros q d Hq. simpl in Hq. apply told_quiet; [done| |].
    + rewrite bool_decide_eq_true, not_elem_of_cons. intros [Hne _]. simpl. rewrite orb_false_r. apply Z.eqb_neq.
      intros E. apply Hne. by eapply same_id.
    + eapply told_open; [by apply Ht|]. rewrite !bool_decide_eq_true, not_elem_of_cons. by intros [_ H].
  - apply trace_ok_quiet; [done..| |].
    + intros e [= <-]. simpl. apply (tc_open _ _ _ (Ht p c Hc)). by rewrite bool_decide_eq_true.
    + intros id [= <-]. apply (tc_generated _ _ _ (Ht p c Hc)).
  - intros q d Hq Hd'. simpl. rewrite ended_app. apply elem_of_cons in Hq as [->|Hq]; [|by rewrite (Hcl q d Hq Hd')].
    simpl in Hd'. simplify_eq. simpl. rewrite Z.eqb_refl. apply orb_true_r.
  - by apply tasks_ok_app.
Qed.

(** What may be put in the place of a connection. *)
Definition assoc_like c : Prop := k_proto c = 0 ∧ k_state c = S5CONNS_ESTABLISHED.

Definition shape c c' : Prop :=
  k_id c' = k_id c
  ∧ if k_proto c =? S5_UDP
    then k_proto c' = S5_UDP ∧ k_src c' = k_src c ∧ k_dst c' = k_dst c ∧ k_relay c' = k_relay c
         ∧ k_socket c' = None ∧ udp_state (k_state c') = true
    else (k_proto c' = 0 ∨ k_proto c' = S5_TCP) ∧ has_socket c'
         ∧ (k_proto c = 0 → k_state c = S5CONNS_ESTABLISHED → k_proto c' = 0 ∧ k_state c' = S5CONNS_ESTABLISHED).

Lemma heap_ok_put s p c c' : l_conns s !! p = Some c → shape c c' → heap_ok s → heap_ok (put p c' s).
Proof.
  intros Hc [Hid Hsh] [Hconn Hby Hrel Hrby Hnext].
  assert (Hnew : ∀ q d, l_conns s !! q = Some d → ∃ d', <[p:=c']> (l_conns s) !! q = Some d' ∧ k_id d' = k_id d
            ∧ (d' = d ∨ q = p ∧ d = c ∧ d' = c')).
  { intros q d Hq. destruct (decide (q = p)) as [->|Hne].
    - rewrite lookup_insert_eq. simplify_eq. exists c'. naive_solver.
    - rewrite lookup_insert_ne by done. exists d. naive_solver. }
  destruct (Hconn p c Hc) as [Hpb Hk]. split; simpl.
  - intros q d Hq. destruct (decide (q = p)) as [->|Hne].
    + rewrite lookup_insert_eq in Hq. simplify_eq. rewrite Hid. split; [done|]. unfold kind_ok in *.
      destruct (k_proto c =? S5_UDP); [|destruct Hsh as ([-> | ->] & ? & _); simpl; auto].
      destruct Hsh as (-> & Hs & Hd & Hr & -> & ->), Hk as (_ & _ & Ha & r & rel & t & Hx). simpl. rewrite Hd.
      split_and!; try done. exists r, rel, t. by rewrite Hr, Hs, Hd.
    + rewrite lookup_insert_ne in Hq by done. by apply Hconn.
  - intros k q Hq. destruct (Hby k q Hq) as (d & Hd & <-). destruct (Hnew q d Hd) as (d' & ? & <- & _). by exists d'.
  - intros r rel Hr. destruct (Hrel r rel Hr) as (He & (q & d & Htc & Hd & Hp0 & Hst & Hrb) & Ht). split; [done|]. split.
    + destruct (Hnew q d Hd) as (d' & ? & Hid' & [->|(-> & -> & ->)]); [exists q, d; by split_and!|].
      exists p, c'. rewrite Hid'. rewrite Hp0 in Hsh. simpl in Hsh. destruct Hsh as (_ & _ & Hsh). destruct (Hsh eq_refl Hst). by split_and!.
    + intros t key q' Htab Hq'. destruct (Ht t key q' Htab Hq') as (d' & Hd' & Hpr & Hre & Hkey).
      destruct (Hnew q' d' Hd') as (d'' & ? & _ & [->|(-> & -> & ->)]); [by eauto|].
      exists c'. rewrite Hpr in Hsh. simpl in Hsh. destruct Hsh as (? & -> & -> & -> & _). by split_and!.
  - intros k r Hr. destruct (Hrby k r Hr) as (rel & q & d & ? & ? & Hd & <-).
    destruct (Hnew q d Hd) as (d' & ? & <- & _). exists rel, q, d'. by split_and!.
  - intros q [Hq|Hq]; apply Hnext; [left|by right]. destruct (decide (q = p)) as [->|Hne]; [by eexists|].
    by rewrite lookup_insert_ne in Hq.
Qed.

(** [destroy_connection]. *)
Definition drop_key (key : A * address) (rel : UdpRelay (A:=A)) : UdpRelay :=
  mkRelay (r_event rel) (r_tcp_conn rel) (delete key <$> r_table rel).
Definition relays_without c (relays : gmap Z (UdpRelay (A:=A))) : gmap Z UdpRelay :=
  if k_proto c =? S5_UDP
  then match k_relay c with Some r => alter (drop_key (k_src c, k_dst c)) r relays | None => relays end
  else relays.
Definition destroyed p c s : listener :=
  mkListener (delete p (l_conns s)) (relays_without c (l_relays s)) (l_next s) (delete (u32 (k_id c)) (l_by_id s))
    (l_relay_by_id s) (l_listening s) (l_port s) (l_task s) (l_with_pending s) (l_deferred s) (l_stopping s)
    (l_out s ++ match k_socket c with Some k => [SockDestroyed (k_id c) (ts_rst k)] | None => [] end).

Lemma relays_without_lookup c relays r rel' :
  relays_without c relays !! r = Some rel' →
  ∃ rel, relays !! r = Some rel ∧ r_event rel' = r_event rel ∧ r_tcp_conn rel' = r_tcp_conn rel
    ∧ (∀ t', r_table rel' = Some t' → ∃ t, r_table rel = Some t ∧ t' ⊆ t
         ∧ (k_proto c = S5_UDP → k_relay c = Some r → t' !! (k_src c, k_dst c) = None)).
Proof.
  unfold relays_without. destruct (k_proto c =? S5_UDP) eqn:E; [|apply Z.eqb_neq in E; intros H; exists rel'; naive_solver].
  destruct (k_relay c) as [r'|] eqn:Er; [|intros H; exists rel'; naive_solver].
  rewrite lookup_alter_Some. intros [(-> & rel & H & ->)|[Hne H]]; [exists rel|exists rel'; naive_solver].
  split_and!; [done..|]. simpl. intros t'. destruct (r_table rel) as [t|]; simpl; [|done]. intros [= <-].
  exists t. split_and!; [done|apply delete_subseteq|]. intros _ _. by rewrite lookup_delete_eq.
Qed.

Lemma relays_without_keep c relays r rel :
  relays !! r = Some rel →
  ∃ rel', relays_without c relays !! r = Some rel' ∧ r_tcp_conn rel' = r_tcp_conn rel
    ∧ ∀ t, r_table rel = Some t → ∃ t', r_table rel' = Some t'
        ∧ ∀ key, (k_proto c = S5_UDP → k_relay c = Some r → key ≠ (k_src c, k_dst c)) → t' !! key = t !! key.
Proof.
  intros Hr. unfold relays_without. destruct (k_proto c =? S5_UDP) eqn:E; [|exists rel; naive_solver].
  destruct (k_relay c) as [r'|] eqn:Er; [|exists rel; naive_solver].
  destruct (decide (r' = r)) as [->|Hne].
  - rewrite lookup_alter_eq, Hr. simpl. eexists. split_and!; [done..|]. simpl. intros t ->. eexists. split; [done|].
    intros key Hkey. apply lookup_delete_ne. intros <-. apply Z.eqb_eq in E. by apply Hkey.
  - rewrite lookup_alter_ne by done. exists rel. naive_solver.
Qed.

Lemma heap_ok_destroyed s p c :
  l_conns s !! p = Some c → (k_proto c = 0 → l_relay_by_id s !! u32 (k_id c) = None) →
  heap_ok s → heap_ok (destroyed p c s).
Proof.
  intros Hc Hna Hh. destruct (Hh) as [Hconn Hby Hrel Hrby Hnext]. destruct (Hconn p c Hc) as [Hpb Hk].
  assert (Hother : ∀ q d, l_conns s !! q = Some d → q ≠ p → delete p (l_conns s) !! q = Some d).
  { intros q d Hq Hne. by rewrite lookup_delete_ne. }
  split; simpl.
  - intros q d [Hne Hq]%lookup_delete_Some. destruct (Hconn q d Hq) as [Hqb Hkq]. split.
    + rewrite lookup_delete_ne; [done|]. intros E. rewrite E in Hpb. congruence.
    + unfold kind_ok in *. destruct (k_proto d =? S5_UDP); [|done].
      destruct Hkq as (? & ? & ? & r & rel & t & Hr & Hrl & Htab & Hkey). split_and!; [done..|].
      destruct (relays_without_keep c _ _ _ Hrl) as (rel' & Hrl' & _ & Ht').
      destruct (Ht' t Htab) as (t' & Htab' & Hsame). exists r, rel', t'. split_and!; [done..|]. rewrite Hsame; [done|].
      intros Hudp Hrc Heq. rewrite Hudp in Hk. simpl in Hk. destruct Hk as (_ & _ & _ & r2 & rel2 & t2 & Hr2 & Hrl2 & Htab2 & Hkey2).
      rewrite <- Heq in Hkey2. congruence.
  - intros k q [Hne Hq]%lookup_delete_Some. destruct (Hby k q Hq) as (d & Hd & Hk'). exists d. split; [|done].
    apply Hother; [done|]. intros ->. simplify_eq.
  - intros r rel' Hr'. destruct (relays_without_lookup _ _ _ _ Hr') as (rel & Hr & He & Htc & Htab).
    destruct (Hrel r rel Hr) as (Hev & (q & d & Hq & Hd & Hp0 & Hst & Hrb) & Ht). split; [congruence|]. split.
    + exists q, d. rewrite Htc. split_and!; try done. apply Hother; [done|]. intros ->. simplify_eq. rewrite Hna in Hrb; done.
    + intros t' key q' Ht' Hq'. destruct (Htab t' Ht') as (t & Htt & Hsub & Hgone).
      destruct (Ht t key q' Htt) as (d' & Hd' & Hpr & Hre & Hkey); [by eapply lookup_weaken|].
      exists d'. split_and!; try done. apply Hother; [done|]. intros ->. simplify_eq. rewrite Hgone in Hq'; done.
  - intros k r Hr. destruct (Hrby k r Hr) as (rel & q & d & Hrl & Htc & Hd & Hk').
    destruct (relays_without_keep c _ _ _ Hrl) as (rel' & Hrl' & Htc' & _). exists rel', q, d. rewrite Htc'. split_and!; try done.
    apply Hother; [done|]. intros ->. simplify_eq. destruct (Hrel r rel Hrl) as (_ & (q' & d' & Hq' & Hd' & Hp0 & _) & _).
    simplify_eq. rewrite Hna in Hr; done.
  - intros q [Hq|[rel' Hq]]; apply Hnext; [left|right].
    + destruct Hq as [d [_ Hq]%lookup_delete_Some]. by eexists.
    + destruct (relays_without_lookup _ _ _ _ Hq) as (rel & Hr & _). by eexists.
Qed.

(** A new connection with a socket. *)
Definition with_conn id c s : listener :=
  set_l_next (l_next s + 1) (set_l_by_id (<[u32 id := l_next s]> (l_by_id s)) (put (l_next s) c s)).

Lemma fresh_pointer s : heap_ok s → l_conns s !! l_next s = None ∧ l_relays s !! l_next s = None.
Proof.
  intros []. split; apply eq_None_not_Some; intros H; [assert (l_next s < l_next s) by (apply h_next0; by left)
    |assert (l_next s < l_next s) by (apply h_next0; by right)]; lia.
Qed.

Lemma heap_ok_add id c s :
  heap_ok s → k_id c = id → l_by_id s !! u32 id = None →
  (k_proto c = 0 ∨ k_proto c = S5_TCP) → has_socket c →
  heap_ok (with_conn id c s).
Proof.
  intros Hh Hid Hb Hp Hs. destruct (fresh_pointer s Hh) as [Hf1 Hf2]. destruct (Hh) as [Hconn Hby Hrel Hrby Hnext]. split; simpl.
  - intros q d. destruct (decide (q = l_next s)) as [->|Hne].
    + rewrite lookup_insert_eq. intros [= <-]. rewrite Hid, lookup_insert_eq. split; [done|]. unfold kind_ok.
      destruct Hp as [-> | ->]; simpl; auto.
    + rewrite lookup_insert_ne by done. intros Hq. destruct (Hconn q d Hq) as [H1 H2]. split; [|done].
      rewrite lookup_insert_ne; [done|]. intros E. rewrite E in Hb. congruence.
  - intros k q. destruct (decide (k = u32 id)) as [->|Hne].
    + rewrite lookup_insert_eq. intros [= <-]. exists c. rewrite lookup_insert_eq. by rewrite Hid.
    + rewrite lookup_insert_ne by done. intros Hq. destruct (Hby k q Hq) as (d & Hd & ?). exists d. split; [|done].
      rewrite lookup_insert_ne; [done|]. intros <-. congruence.
  - intros r' rel Hr. destruct (Hrel r' rel Hr) as (He & (q & d & Htc & Hd & Hrest) & Ht). split; [done|]. split.
    + exists q, d. simpl. rewrite lookup_insert_ne; [by repeat (split; [done|])|]. intros <-. congruence.
    + intros t key q' Htab Hq'. destruct (Ht t key q' Htab Hq') as (d' & Hd' & ?). exists d'. split; [|done]. simpl.
      rewrite lookup_insert_ne; [done|]. intros <-. congruence.
  - intros k r' Hr. destruct (Hrby k r' Hr) as (rel & q & d & ? & ? & Hd & ?). exists rel, q, d. split_and!; try done.
    rewrite lookup_insert_ne; [done|]. intros <-. congruence.
  - intros q [Hq|Hq]; [|assert (q < l_next s) by (apply Hnext; by right); lia].
    destruct (decide (q = l_next s)) as [->|Hne]; [lia|]. rewrite lookup_insert_ne in Hq by done.
    assert (q < l_next s) by (apply Hnext; by left). lia.
Qed.

(** A relay for an established connection without protocol. *)
Definition with_relay p id s : listener :=
  set_l_next (l_next s + 1) (set_l_relay_by_id (<[u32 id := l_next s]> (l_relay_by_id s))
    (set_l_relays (<[l_next s := mkRelay true (Some p) None]> (l_relays s)) s)).

Lemma heap_ok_with_relay s p c :
  heap_ok s → l_conns s !! p = Some c → k_proto c = 0 → k_state c = S5CONNS_ESTABLISHED →
  l_relay_by_id s !! u32 (k_id c) = None → heap_ok (with_relay p (k_id c) s).
Proof.
  intros Hh Hc Hp Hst Hn. destruct (fresh_pointer s Hh) as [Hf1 Hf2]. destruct (Hh) as [Hconn Hby Hrel Hrby Hnext].
  split; simpl; try done.
  - intros q d Hq. destruct (Hconn q d Hq) as [H1 H2]. split; [done|]. unfold kind_ok in *. destruct (k_proto d =? S5_UDP); [|done].
    destruct H2 as (? & ? & ? & r' & rel & t & ? & Hr & ?). split_and!; try done. exists r', rel, t. simpl.
    rewrite lookup_insert_ne; [by repeat (split; [done|])|]. intros <-. congruence.
  - intros r' rel. destruct (decide (r' = l_next s)) as [->|Hne].
    + rewrite lookup_insert_eq. intros [= <-]. split; [done|]. split; [|done]. exists p, c. simpl. rewrite lookup_insert_eq. by split_and!.
    + rewrite lookup_insert_ne by done. intros Hr. destruct (Hrel r' rel Hr) as (He & (q & d & Htc & Hd & H0 & H1 & Hrb) & Ht).
      split; [done|]. split; [|done]. exists q, d. simpl. rewrite lookup_insert_ne; [by repeat (split; [done|])|]. intros E. rewrite <- E in Hrb. congruence.
  - intros k r'. destruct (decide (k = u32 (k_id c))) as [->|Hne].
    + rewrite lookup_insert_eq. intros [= <-]. eexists _, p, c. by rewrite lookup_insert_eq.
    + rewrite lookup_insert_ne by done. intros Hr. destruct (Hrby k r' Hr) as (rel & q & d & Hrl & ?). exists rel, q, d.
      rewrite lookup_insert_ne; [by repeat (split; [done|])|]. intros <-. congruence.
  - intros q [Hq|Hq]; [assert (q < l_next s) by (apply Hnext; by left); lia|].
    destruct (decide (q = l_next s)) as [->|Hne]; [lia|]. rewrite lookup_insert_ne in Hq by done.
    assert (q < l_next s) by (apply Hnext; by right). lia.
Qed.

(** The end of a relay without connections, and of its connection. *)
Definition without_relay r p c s : listener :=
  set_l_relays (delete r (l_relays s)) (set_l_relay_by_id (delete (u32 (k_id c)) (l_relay_by_id s))
    (set_l_by_id (delete (u32 (k_id c)) (l_by_id s)) (set_l_conns (delete p (l_conns s)) s))).

Lemma heap_ok_without_relay s r rel p c :
  heap_ok s → l_relays s !! r = Some rel → r_tcp_conn rel = Some p → l_conns s !! p = Some c →
  l_relay_by_id s !! u32 (k_id c) = Some r → (∀ t, r_table rel = Some t → t = ∅) → k_proto c = 0 →
  heap_ok (without_relay r p c s).
Proof.
  intros Hh Hr Htc Hc Hrb He Hp0. destruct (Hh) as [Hconn Hby Hrel Hrby Hnext]. destruct (Hconn p c Hc) as [Hpb _].
  split; simpl.
  - intros q d [Hne Hq]%lookup_delete_Some. destruct (Hconn q d Hq) as [H1 H2]. split.
    + rewrite lookup_delete_ne; [done|]. intros E. rewrite E in Hpb. congruence.
    + unfold kind_ok in *. destruct (k_proto d =? S5_UDP); [|done].
      destruct H2 as (? & ? & ? & r' & rel' & t & ? & Hr' & Ht & Hk). split_and!; try done. exists r', rel', t. simpl.
      rewrite lookup_delete_ne; [by repeat (split; [done|])|]. intros <-. simplify_eq. rewrite (He t Ht) in Hk. by apply lookup_empty_Some in Hk.
  - intros k q [Hne Hq]%lookup_delete_Some. destruct (Hby k q Hq) as (d & Hd & Hk). exists d. split; [|done].
    rewrite lookup_delete_ne; [done|]. intros <-. congruence.
  - intros r' rel' [Hne Hr']%lookup_delete_Some. destruct (Hrel r' rel' Hr') as (? & (q & d & Hq & Hd & H0 & H1 & Hrb') & Ht).
    split; [done|]. split.
    + assert (q ≠ p) by (intros ->; congruence).
      exists q, d. simpl. rewrite !lookup_delete_ne; try done. intros E. rewrite <- E in Hrb'. congruence.
    + intros t key q' Htab Hq'. destruct (Ht t key q' Htab Hq') as (d' & Hd' & Hu & ?). exists d'. split; [|done]. simpl.
      rewrite lookup_delete_ne; [done|]. intros <-. simplify_eq. by rewrite Hp0 in Hu.
  - intros k r' [Hne Hr']%lookup_delete_Some. destruct (Hrby k r' Hr') as (rel' & q & d & Hrl & Hq & Hd & Hk).
    exists rel', q, d. rewrite !lookup_delete_ne; [done| |]; intros <-; congruence.
  - intros q [[d [_ Hq]%lookup_delete_Some]|[d [_ Hq]%lookup_delete_Some]]; apply Hnext; eauto.
Qed.

(** The table of a relay is made, and gets a connection. *)
Definition set_table r (rel : UdpRelay (A:=A)) (t : gmap (A * address) Z) s : listener :=
  set_l_relays (<[r := mkRelay (r_event rel) (r_tcp_conn rel) (Some t)]> (l_relays s)) s.

Lemma heap_ok_table s r rel :
  heap_ok s → l_relays s !! r = Some rel → heap_ok (set_table r rel (default ∅ (r_table rel)) s).
Proof.
  intros Hh Hr. destruct (Hh) as [Hconn Hby Hrel Hrby Hnext]. split; simpl; try done.
  - intros q d Hq. destruct (Hconn q d Hq) as [H1 H2]. split; [done|]. unfold kind_ok in *. destruct (k_proto d =? S5_UDP); [|done].
    destruct H2 as (? & ? & ? & r' & rel' & t & ? & Hr' & Ht & Hk). split_and!; try done. destruct (decide (r' = r)) as [->|Hne].
    + simplify_eq. eexists r, _, t. simpl. rewrite lookup_insert_eq. split_and!; try done. simpl. by rewrite Ht.
    + exists r', rel', t. simpl. by rewrite lookup_insert_ne.
  - intros r' rel'. destruct (decide (r' = r)) as [->|Hne].
    + rewrite lookup_insert_eq. intros [= <-]. destruct (Hrel r rel Hr) as (? & ? & Ht). split_and!; try done. simpl.
      intros t key q [= <-]. destruct (r_table rel) as [t|]; simpl; [by eapply Ht|]. by intros ?%lookup_empty_Some.
    + rewrite lookup_insert_ne by done. apply Hrel.
  - intros k r' Hr'. destruct (Hrby k r' Hr') as (rel' & q & d & Hrl & Hx). destruct (decide (r' = r)) as [->|Hne].
    + simplify_eq. eexists _, q, d. by rewrite lookup_insert_eq.
    + exists rel', q, d. by rewrite lookup_insert_ne.
  - intros q [Hq|Hq]; apply Hnext; [by left|right]. destruct (decide (q = r)) as [->|Hne]; [by eexists|].
    by rewrite lookup_insert_ne in Hq.
Qed.

Lemma heap_ok_add_udp id c s r rel t a :
  heap_ok s → k_id c = id → l_by_id s !! u32 id = None → k_proto c = S5_UDP → k_socket c = None →
  udp_state (k_state c) = true → k_dst c = S5Sockaddr a → k_relay c = Some r →
  l_relays s !! r = Some rel → r_table rel = Some t → t !! (k_src c, k_dst c) = None →
  heap_ok (set_table r rel (<[(k_src c, k_dst c) := l_next s]> t) (with_conn id c s)).
Proof.
  intros Hh Hid Hb Hp Hs Hst Hd Hrc Hr Ht Hn. destruct (fresh_pointer s Hh) as [Hf1 Hf2]. destruct (Hh) as [Hconn Hby Hrel Hrby Hnext].
  split; simpl.
  - intros q d. destruct (decide (q = l_next s)) as [->|Hne].
    + rewrite lookup_insert_eq. intros [= <-]. rewrite Hid, lookup_insert_eq. split; [done|]. unfold kind_ok. rewrite Hp. simpl.
      split_and!; try done; [by eexists|]. eexists r, _, _. simpl. rewrite lookup_insert_eq. split_and!; [done..|]. simpl. apply lookup_insert_eq.
    + rewrite lookup_insert_ne by done. intros Hq. destruct (Hconn q d Hq) as [H1 H2]. split.
      * rewrite lookup_insert_ne; [done|]. intros E. rewrite E in Hb. congruence.
      * unfold kind_ok in *. destruct (k_proto d =? S5_UDP); [|done].
        destruct H2 as (? & ? & ? & r' & rel' & t' & ? & Hr' & Ht' & Hk). split_and!; try done. destruct (decide (r' = r)) as [->|Hne'].
        -- simplify_eq. eexists r, _, _. simpl. rewrite lookup_insert_eq. split_and!; [done..|]. simpl. rewrite lookup_insert_ne; [done|].
           intros E. rewrite E in Hn. congruence.
        -- exists r', rel', t'. simpl. by rewrite lookup_insert_ne.
  - intros k q. destruct (decide (k = u32 id)) as [->|Hne].
    + rewrite lookup_insert_eq. intros [= <-]. exists c. rewrite lookup_insert_eq. by rewrite Hid.
    + rewrite lookup_insert_ne by done. intros Hq. destruct (Hby k q Hq) as (d & Hd' & ?). exists d. split; [|done].
      rewrite lookup_insert_ne; [done|]. intros <-. congruence.
  - assert (Hold : ∀ r' rel' q, l_relays s !! r' = Some rel' → r_tcp_conn rel' = Some q → q ≠ l_next s).
    { intros r' rel' q Hr' Hq ->. destruct (Hrel r' rel' Hr') as (_ & (q' & d & Hq' & Hd' & _) & _). congruence. }
    intros r' rel' Hr'. destruct (decide (r' = r)) as [->|Hne].
    + rewrite lookup_insert_eq in Hr'. simplify_eq. destruct (Hrel r rel Hr) as (He & (q & d & Htc & Hd' & Hrest) & Htab). split; [done|]. split.
      * exists q, d. simpl. rewrite lookup_insert_ne; [by repeat (split; [done|])|]. intros <-. by eapply Hold.
      * simpl. intros t' key q' [= <-]. destruct (decide (key = (k_src c, k_dst c))) as [->|Hne].
        -- rewrite lookup_insert_eq. intros [= <-]. exists c. simpl. rewrite lookup_insert_eq. by split_and!.
        -- rewrite lookup_insert_ne by done. intros Hq'. destruct (Htab t key q' Ht Hq') as (d' & Hd'' & ?). exists d'. split; [|done]. simpl.
           rewrite lookup_insert_ne; [done|]. intros <-. congruence.
    + rewrite lookup_insert_ne in Hr' by done. destruct (Hrel r' rel' Hr') as (He & (q & d & Htc & Hd' & Hrest) & Htab). split; [done|]. split.
      * exists q, d. simpl. rewrite lookup_insert_ne; [by repeat (split; [done|])|]. intros <-. by eapply Hold.
      * intros t' key q' Ht' Hq'. destruct (Htab t' key q' Ht' Hq') as (d' & Hd'' & ?). exists d'. split; [|done]. simpl.
        rewrite lookup_insert_ne; [done|]. intros <-. congruence.
  - intros k r' Hr'. destruct (Hrby k r' Hr') as (rel' & q & d & Hrl & Hx & Hd' & Hk).
    assert (q ≠ l_next s) by (intros ->; congruence). destruct (decide (r' = r)) as [->|Hne].
    + simplify_eq. eexists _, q, d. rewrite lookup_insert_eq. split_and!; try done. by rewrite lookup_insert_ne.
    + exists rel', q, d. rewrite !lookup_insert_ne by done. by split_and!.
  - assert (Hlt : ∀ q, is_Some (l_conns s !! q) ∨ is_Some (l_relays s !! q) → q < l_next s + 1) by (intros q Hq; apply Hnext in Hq; lia).
    intros q [Hq|Hq].
    + destruct (decide (q = l_next s)) as [->|Hne]; [lia|]. rewrite lookup_insert_ne in Hq by done. apply Hlt. by left.
    + apply Hlt. right. destruct (decide (q = r)) as [->|Hne]; [by eexists|]. by rewrite lookup_insert_ne in Hq.
Qed.

(** An entry about a connection that changes. *)
Lemma inv_put_push cl s p c c' o :
  inv cl s → l_conns s !! p = Some c → shape c c' → (∀ id, mentions o = Some id → id = k_id c) →
  told (l_out s ++ [o]) (bool_decide (p ∉ cl)) c' → trace_ok (l_out s ++ [o]) → (assoc_like c' → assoc_like c) →
  inv cl (push o (put p c' s)).
Proof.
  intros [] Hc Hsh Ho Ht Htr Has. split; simpl; [|..|done| | |].
  - eapply heap_ok_same; [..|by eapply (heap_ok_put s p c c')]; done.
  - intros q d Hq. destruct (decide (q = p)) as [->|Hne].
    + rewrite lookup_insert_eq in Hq. by simplify_eq.
    + rewrite lookup_insert_ne in Hq by done. apply told_other; [|by apply i_told0]. intros E. apply Hne.
      eapply same_id; [done..|]. by apply Ho.
  - intros q d Hq Hd. rewrite ended_app. destruct (decide (q = p)) as [->|Hne].
    + rewrite lookup_insert_eq in Hd. simplify_eq. rewrite (proj1 Hsh). by rewrite (i_closing0 p c).
    + rewrite lookup_insert_ne in Hd by done. by rewrite (i_closing0 q d).
  - by apply tasks_ok_app.
  - intros q d Hq Hp Hst. destruct (decide (q = p)) as [->|Hne].
    + rewrite lookup_insert_eq in Hq. simplify_eq. rewrite (proj1 Hsh). destruct Has; [done|]. by eapply i_assoc0.
    + rewrite lookup_insert_ne in Hq by done. by eapply i_assoc0.
Qed.

(** The listener has read the beginning of a chunk itself. *)
Lemma told_drained tr b c k chunk rest n :
  told tr b c → k_socket c = Some k → ts_input k = chunk ++ rest → (n ≤ length chunk)%nat → taken (k_id c) tr = [] →
  (k_state c = S5CONNS_WAITING_REQUEST → k_proto c ≠ S5_TCP) →
  told (tr ++ [SockDrained (k_id c) (take n chunk)]) b (set_k_socket (Some (set_ts_input (drop n (ts_input k)) k)) c).
Proof.
  intros [] Hk Hin Hn Ht Hrq. split; simpl; rewrite ?udp_announced_app, ?generated_ids_app, ?announced_app, ?ended_app, ?accepted_app, ?got_app, ?drained_app,
    ?taken_app, ?app_nil_r, ?orb_false_r; auto.
  - intros H1 H2. by apply authed_app, tc_authed0.
  - intros Hb k' [= <-]. rewrite (tc_stream0 Hb k Hk), Ht, Hin. unfold got, drained, taken. simpl. rewrite Z.eqb_refl.
    simpl. rewrite !app_nil_r, <- app_assoc. f_equal.
    rewrite drop_app_le by done. by rewrite app_assoc, take_drop.
  - intros H1 H2. by destruct Hrq.
Qed.

End Inv.
