(* ===== verification/Socks5Safe.v ===== *)
(** * Every operation of the SOCKS5 listener keeps the invariant

    First the primitives, then the calls of the owner, at any depth of nesting,
    then the handlers.  Each lemma also shows that the operation does not fault,
    but for the faults of [known_fault]. *)
From S2P Require Import Prelude Effects WireUtils Socks5Wire TcpSocket Socks5 Socks5Inv.

Section Safe.
Context {A : Type} `{!SocketAddressOps A, !S5Env A}.
Notation address := (Socks5ConnectionAddress A).
Notation listener := (Socks5Listener (A:=A)).
Notation conn := (Connection (A:=A)).
Implicit Types (s : listener) (c d : conn) (tr : list (S5Out A)) (p q r id : Z).

Notation wps := (wp known_fault).

(** ** Primitives *)

Lemma wp_s5_conn_at p c s (Q : conn → listener → Prop) :
  l_conns s !! p = Some c → Q c s → wps (conn_at p) Q s.
Proof. intros Hc H. apply wp_run. unfold conn_at. by rewrite Hc. Qed.

Lemma wp_relay_at r rel s (Q : UdpRelay → listener → Prop) :
  l_relays s !! r = Some rel → Q rel s → wps (relay_at r) Q s.
Proof. intros Hc H. apply wp_run. unfold relay_at. by rewrite Hc. Qed.

Lemma wp_the {X} (x : X) s (Q : X → listener → Prop) : Q x s → wps (the (Some x)) Q s.
Proof. done. Qed.

Lemma wp_upd p c f s (Q : unit → listener → Prop) :
  l_conns s !! p = Some c → Q tt (put p (f c) s) → wps (upd p f) Q s.
Proof. intros Hc H. unfold upd. wp_step. eapply wp_s5_conn_at; [done|]. by wp_step. Qed.

Lemma wp_emit o s (Q : unit → listener → Prop) : Q tt (push o s) → wps (emit o) Q s.
Proof. intros H. unfold emit. by wp_step. Qed.

Lemma wp_ask {X} o (f : list (S5Out A) → X) s (Q : X → listener → Prop) :
  (∀ x, Q x (push o s)) → wps (ask o f) Q s.
Proof. intros H. unfold ask. wp_step. apply wp_emit. by wp_step. Qed.

Lemma wp_sys call s (Q : Z → listener → Prop) : (∀ x, Q x (push (Sys call) s)) → wps (sys call) Q s.
Proof. apply wp_ask. Qed.

Lemma wp_assert b s (Q : unit → listener → Prop) : b = true → Q tt s → wps (s5_assert b) Q s.
Proof. intros -> H. unfold s5_assert. simpl. by wp_step. Qed.

Lemma wp_sock_write p c k data s (Q : Z → listener → Prop) :
  l_conns s !! p = Some c → k_socket c = Some k →
  (∀ x, Q x (push (SockWrite (k_id c) data) s)) → wps (sock_write p data) Q s.
Proof.
  intros Hc Hk H. unfold sock_write. wp_step. eapply wp_s5_conn_at; [done|]. wp_step. rewrite Hk. apply wp_the. by apply wp_ask.
Qed.

Lemma wp_upd_socket p c k f s (Q : unit → listener → Prop) :
  l_conns s !! p = Some c → k_socket c = Some k → Q tt (put p (set_k_socket (Some (f k)) c) s) →
  wps (upd_socket p f) Q s.
Proof.
  intros Hc Hk H. unfold upd_socket, socket_of. do 2 wp_step. eapply wp_s5_conn_at; [done|]. rewrite Hk. apply wp_the. by eapply wp_upd.
Qed.

Lemma alter_at {X} (f : X → X) (m : gmap Z X) i x : m !! i = Some x → alter f i m = <[i := f x]> m.
Proof. intros H. rewrite <- (insert_id m i x) at 1 by done. by rewrite alter_insert_eq. Qed.

Lemma wp_destroy p c s (Q : unit → listener → Prop) :
  l_conns s !! p = Some c → heap_ok s → Q tt (destroyed p c s) → wps (destroy_connection p) Q s.
Proof.
  intros Hc Hh H. unfold destroy_connection, del_connection. wp_step. eapply wp_s5_conn_at; [done|]. do 2 wp_step. wp_step.
  destruct (h_conn s Hh p c Hc) as [_ Hk]. unfold kind_ok in Hk. unfold destroyed, relays_without in H.
  wp_step; intros E; rewrite E in Hk, H.
  - destruct Hk as (Hs & _ & _ & r & rel & t & Hr & Hrl & Ht & _). rewrite Hr, Hs in *.
    rewrite (alter_at _ _ _ rel) in H by done. unfold drop_key in H. rewrite Ht in H.
    wp_step. apply wp_the. wp_step. eapply wp_relay_at; [done|]. rewrite Ht. unfold upd_relay. wp_step.
    eapply wp_relay_at; [done|]. wp_steps. by rewrite app_nil_r in H.
  - destruct Hk as (_ & k & Hk & _). rewrite Hk in *. wp_step. apply wp_emit. by wp_step.
Qed.

(** ** The invariant under the primitives *)

Lemma inv_put cl s p c c' :
  l_conns s !! p = Some c → shape c c' → told (l_out s) (bool_decide (p ∉ cl)) c' → inv cl s →
  (assoc_like c' → assoc_like c) → inv cl (put p c' s).
Proof.
  intros Hc Hsh Ht [Hh Htold Htr Hcl Hd Has] Has'. split; [by eapply heap_ok_put|..]; try done; simpl.
  - intros q d Hq. destruct (decide (q = p)) as [->|Hne].
    + rewrite lookup_insert_eq in Hq. by simplify_eq.
    + rewrite lookup_insert_ne in Hq by done. by apply Htold.
  - intros q d Hq Hdq. destruct (decide (q = p)) as [->|Hne].
    + rewrite lookup_insert_eq in Hdq. simplify_eq. rewrite (proj1 Hsh). by eapply Hcl.
    + rewrite lookup_insert_ne in Hdq by done. by eapply Hcl.
  - intros q d Hq Hp Hst. destruct (decide (q = p)) as [->|Hne].
    + rewrite lookup_insert_eq in Hq. simplify_eq. rewrite (proj1 Hsh). destruct Has'; [done|]. by eapply Has.
    + rewrite lookup_insert_ne in Hq by done. by eapply Has.
Qed.

Lemma inv_destroyed_at cl s p c :
  l_conns s !! p = Some c → (k_proto c = 0 → l_relay_by_id s !! u32 (k_id c) = None) → heap_ok s →
  (∀ q d, q ≠ p → l_conns s !! q = Some d → told (l_out s) (bool_decide (q ∉ cl)) d) → trace_ok (l_out s) →
  (∀ q d, q ∈ cl → q ≠ p → l_conns s !! q = Some d → ended (k_id d) (l_out s) = true) →
  tasks_ok (l_deferred s) (l_with_pending s) (l_out s) →
  (∀ q d, l_conns s !! q = Some d → assoc_like d → is_Some (l_relay_by_id s !! u32 (k_id d))) →
  inv cl (destroyed p c s).
Proof.
  intros Hc Hna Hh Htold Htr Hcl Hd Has. split; [by apply heap_ok_destroyed|..]; simpl.
  - intros q d [Hne Hdq]%lookup_delete_Some. specialize (Htold q d (not_eq_sym Hne) Hdq).
    destruct (k_socket c); [|by rewrite app_nil_r]. by apply told_quiet.
  - destruct (k_socket c); [|by rewrite app_nil_r]. by apply trace_ok_quiet.
  - intros q d Hq [Hne Hdq]%lookup_delete_Some. by rewrite ended_app, (Hcl q d).
  - by apply tasks_ok_app.
  - intros q d [_ Hq]%lookup_delete_Some H1 H2. by eapply Has.
Qed.

Lemma inv_destroyed cl cl' s p c :
  l_conns s !! p = Some c → (k_proto c = 0 → l_relay_by_id s !! u32 (k_id c) = None) → cl ⊆ cl' ⊆ p :: cl →
  inv cl' s → inv cl (destroyed p c s).
Proof.
  intros Hc Hna [Hcl1 Hcl] []. apply inv_destroyed_at; try done.
  - intros q d Hne Hq. eapply told_open; [by apply i_told|]. rewrite !bool_decide_eq_true. set_solver.
  - intros q d Hq _ Hd. eapply i_closing; [|done]. set_solver.
  - intros q d Hq [? ?]. by eapply i_assoc.
Qed.

(** A connection that the owner may change or end. *)
Definition owned (gone : list Z) s p c : Prop :=
  p ∈ gone ∨ announced (k_id c) (l_out s) = true ∧ ended (k_id c) (l_out s) = false.

Lemma owned_push gone o s p c : ended (k_id c) [o] = false → owned gone s p c → owned gone (push o s) p c.
Proof.
  intros Ho [H|(H2 & H3)]; [by left|right]. simpl. by rewrite announced_app, ended_app, Ho, H2, H3.
Qed.

Lemma frame_put gone s s1 p c c' :
  frame gone s s1 → l_conns s !! p = Some c → sim c c' → owned gone s p c → frame gone s (put p c' s1).
Proof.
  intros Hf Hc Hs Hg. destruct (Hf). split; try done; simpl.
  - intros q d Hq. destruct (decide (q = p)) as [->|Hne].
    + rewrite lookup_insert_eq in Hq. simplify_eq. by exists c.
    + rewrite lookup_insert_ne in Hq by done. by apply f_conn.
  - intros q d Hq Hgq Hx. rewrite lookup_insert_ne; [by apply f_keep|]. intros <-. simplify_eq.
    destruct Hg as [?|(H1 & H2)]; [done|]. rewrite H1, H2 in Hx. by destruct Hx.
Qed.

Lemma relays_without_sim c (relays : gmap Z (UdpRelay (A:=A))) r :
  option_Forall2 sim_relays (relays !! r) (relays_without c relays !! r).
Proof.
  unfold relays_without. destruct (_ =? _); [|reflexivity]. destruct (k_relay c) as [r'|]; [|reflexivity].
  destruct (decide (r' = r)) as [->|Hne]; [|by rewrite lookup_alter_ne].
  rewrite lookup_alter_eq. destruct (relays !! r) as [rel|]; simpl; constructor. split_and!; [done..|]. simpl.
  destruct (r_table rel) as [t|]; simpl; constructor. apply delete_subseteq.
Qed.

Lemma frame_destroyed gone s s1 p c :
  frame gone s s1 → l_conns s1 !! p = Some c → owned gone s p c → frame gone s (destroyed p c s1).
Proof.
  intros Hf Hc Hg. destruct (Hf). destruct (f_conn _ _ Hc) as (c0 & Hc0 & Hs0). split; try done; simpl.
  - intros q d [_ Hq]%lookup_delete_Some. by apply f_conn.
  - intros q d Hq Hgq Hx. rewrite lookup_delete_ne; [by apply f_keep|]. intros <-. simplify_eq.
    rewrite <- (sim_id _ _ Hs0) in Hx. destruct Hg as [?|(H1 & H2)]; [done|]. rewrite H1, H2 in Hx. by destruct Hx.
  - intros r. etrans; [apply f_relay|apply relays_without_sim].
  - destruct f_out as (tr & -> & Hq). exists (tr ++ match k_socket c with Some k => [SockDestroyed (k_id c) (ts_rst k)] | None => [] end).
    rewrite app_assoc. split; [done|]. apply Forall_app. split; [done|]. destruct (k_socket c); by repeat constructor.
Qed.

(** ** Events *)

Section Handlers.
Variable rec : S5Call → Eff S5Fault listener unit.
Hypothesis rec_ok : ∀ call cl s, inv cl s → wps (rec call) (λ _ s', inv cl s' ∧ frame [] s s') s.

Lemma wp_raise e cl s (Q : Z → listener → Prop) :
  inv cl (push (Raised e) s) →
  (∀ x s', inv cl s' → frame [] (push (Raised e) s) s' → answer_allowed (l_out s') e x = true →
     Q x (push (Answered e x) s')) →
  wps (raise rec e) Q s.
Proof.
  intros Hi H. unfold raise. wp_step. apply wp_emit. do 3 wp_step.
  eapply eff_wp_mono; [apply (wp_for_each _ _ (λ _ s', inv cl s' ∧ frame [] (push (Raised e) s) s'))|].
  - split; [done|]. apply s5_frame_refl.
  - intros call _ s1 [H1 H2]. eapply eff_wp_mono; [by apply rec_ok|]. intros _ s2 [H3 H4]. split; [done|]. by eapply s5_frame_trans.
  - intros _ s1 [H1 H2]. do 4 wp_step. wp_step; [|apply eff_wp_env_fault]. wp_step. apply wp_emit. wp_step. by apply H.
Qed.

(** An event that changes nothing by itself. *)
Lemma wp_raise_plain e cl s (Q : Z → listener → Prop) :
  harmless (l_out s) (Raised e) → quiet (Answered e 0) = true → inv cl s →
  (∀ x s', inv cl s' → frame [] (push (Raised e) s) s' → frame [] s s' → Q x s') → wps (raise rec e) Q s.
Proof.
  intros Hh Hq Hi H. apply (wp_raise e cl); [by apply inv_push|]. intros x s' Hi' Hf _.
  assert (Hf' : frame [] (push (Raised e) s) (push (Answered e x) s')).
  { eapply s5_frame_trans; [done|]. apply frame_push. by destruct e. }
  apply H; [|done|].
  - apply inv_push; [|done]. split; [by destruct e|]. split; [done|]. by destruct e.
  - eapply s5_frame_trans; [|done]. by apply frame_push, Hh.
Qed.

Lemma wp_goes_on p s (Q : unit → listener → Prop) :
  (∀ c, l_conns s !! p = Some c → Q tt s) → wps (goes_on p) Q s.
Proof.
  intros H. unfold goes_on. do 2 wp_step. destruct (l_conns s !! p) as [c|] eqn:Hc; simpl; [wp_step; by eapply H|].
  apply wp_fault. unfold known_fault. auto.
Qed.

Lemma wp_raise_about p c e cl s (Q : Z → listener → Prop) :
  harmless (l_out s) (Raised e) → quiet (Answered e 0) = true → inv cl s → l_conns s !! p = Some c →
  (∀ x s' c', inv cl s' → frame [] (push (Raised e) s) s' → frame [] s s' → l_conns s' !! p = Some c' → sim c c' → Q x s') →
  wps (raise_about rec p e) Q s.
Proof.
  intros Hh Hq Hi Hc H. unfold raise_about. wp_step. apply (wp_raise_plain e cl); [done..|]. intros x s' Hi' Hf1 Hf.
  wp_step. apply wp_goes_on. intros c' Hc'. wp_step.
  destruct (f_conn _ _ _ Hf p c' Hc') as (c0 & Hc0 & Hs). simplify_eq. by eapply H.
Qed.

Lemma wp_raise_closed cl s p c error (Q : unit → listener → Prop) :
  inv cl s → l_conns s !! p = Some c → p ∉ cl →
  (∀ s', inv (p :: cl) s' → frame [] s s' → l_conns s' !! p = Some c → Q tt s') →
  wps (raise_closed rec (k_id c) error) Q s.
Proof.
  intros Hi Hc Hp H. unfold raise_closed. wp_step. apply (wp_raise _ (p :: cl)); [by apply inv_ending|].
  intros x s' Hi' Hf _. wp_step. apply H.
  - apply inv_push; [|done]. by split.
  - eapply s5_frame_trans; [by apply (frame_push [] (Raised (EClosed (k_id c) error)))|]. eapply s5_frame_trans; [done|]. by apply frame_push.
  - apply (f_keep _ _ _ Hf p c); [done|apply not_elem_of_nil|]. right. simpl. rewrite ended_app. simpl.
    rewrite Z.eqb_refl. apply orb_true_r.
Qed.

(** The end of a connection. *)
Lemma wp_end gone cl s p c error (Q : unit → listener → Prop) :
  inv cl s → l_conns s !! p = Some c → p ∉ cl → (k_proto c = 0 → l_relay_by_id s !! u32 (k_id c) = None) →
  owned gone s p c →
  (∀ s', inv cl s' → frame gone s s' → l_conns s' !! p = None →
     (∀ r, k_relay c = Some r → k_proto c = S5_UDP → ∀ rel t, l_relays s' !! r = Some rel → r_table rel = Some t →
        t !! (k_src c, k_dst c) = None) → Q tt s') →
  wps (raise_closed rec (k_id c) error ≫= λ _, destroy_connection p) Q s.
Proof.
  intros Hi Hc Hp Hna Hg H. wp_step. eapply wp_raise_closed; [done..|]. intros s1 Hi1 Hf1 Hc1.
  apply (wp_destroy p c); [done|apply Hi1|]. apply H.
  - eapply inv_destroyed; [done| | |done]; [|set_solver]. by rewrite (f_relay_by_id _ _ _ Hf1).
  - apply frame_destroyed; [|done..]. eapply frame_weaken; [|done]. set_solver.
  - simpl. apply lookup_delete_eq.
  - intros r Hr Hu rel t Hrel Ht. simpl in Hrel. destruct (relays_without_lookup _ _ _ _ Hrel) as (rel0 & _ & _ & _ & Ht0).
    destruct (Ht0 t Ht) as (t0 & _ & _ & Hx). by apply Hx.
Qed.

(** ** The calls *)

(** What [call_allowed] says of a connection that is there. *)
Lemma allowed_conn cl s p c :
  inv cl s → l_conns s !! p = Some c → announced (k_id c) (l_out s) = true → ended (k_id c) (l_out s) = false →
  p ∉ cl ∧ (k_proto c = S5_UDP ∨ k_proto c = S5_TCP ∧ has_socket c).
Proof.
  intros Hi Hc Ha He. destruct (Hi) as [Hh Ht _ Hcl _ _]. split.
  - intros Hp. by rewrite (Hcl p c Hp Hc) in He.
  - destruct (h_conn s Hh p c Hc) as [_ Hk]. unfold kind_ok in Hk. destruct (k_proto c =? S5_UDP) eqn:E; [left; lia|right].
    destruct Hk as [[H0|H0] Hs]; [|done]. rewrite (tc_unannounced _ _ _ (Ht p c Hc)) in Ha; [done|by left].
Qed.

Lemma shape_sim cl s p c c' :
  inv cl s → l_conns s !! p = Some c → sim c c' →
  (k_proto c = S5_UDP → udp_state (k_state c') = true) → (k_proto c = 0 → k_state c' = k_state c) → shape c c'.
Proof.
  intros Hi Hc [] Hu Hz. destruct (h_conn s (i_heap _ _ Hi) p c Hc) as [_ Hk]. split; [done|]. unfold kind_ok in Hk.
  destruct (k_proto c =? S5_UDP) eqn:E.
  - destruct Hk as (Hs & _). rewrite Hs in sim_sockets. apply Z.eqb_eq in E. inversion sim_sockets.
    split_and!; try done; [congruence|]. by apply Hu.
  - rewrite sim_proto. destruct Hk as (Hp & k & Hk & Hpk). rewrite Hk in sim_sockets.
    split_and!; [done| |intros H0 H1; split; [done|by rewrite Hz]].
    inversion sim_sockets as [k0 k1 (? & Hpd & ?) E1 E2|]; subst. exists k1. split; [done|]. congruence.
Qed.

(** A connection changes in what the trace does not speak of. *)
Lemma inv_put_same cl s p c c' :
  inv cl s → l_conns s !! p = Some c → sim c c' → k_state c' = k_state c → inv cl (put p c' s).
Proof.
  intros Hi Hc Hs Hst. eapply inv_put; [done| | |done|by unfold assoc_like; rewrite Hst, (sim_proto _ _ Hs)].
  - eapply shape_sim; [done..| |done]. intros Hu. rewrite Hst. destruct (h_conn s (i_heap _ _ Hi) p c Hc) as [_ Hk].
    unfold kind_ok in Hk. rewrite Hu in Hk. simpl in Hk. apply Hk.
  - destruct (Hs). eapply told_same; [by apply (i_told _ _ Hi p c)|done..|].
    eapply option_Forall2_impl; [|done]. by intros k k' [? _].
Qed.

(** What a frame keeps of the trace. *)
Lemma frame_trace gone s s' id :
  frame gone s s' →
  announced id (l_out s') = announced id (l_out s) ∧ generated_ids (l_out s') = generated_ids (l_out s)
  ∧ got id (l_out s') = got id (l_out s) ∧ drained id (l_out s') = drained id (l_out s)
  ∧ taken id (l_out s') = taken id (l_out s)
  ∧ (accepted id (l_out s) = true → accepted id (l_out s') = true) ∧ (authed id (l_out s) → authed id (l_out s')).
Proof.
  intros [_ _ _ _ _ _ _ (tr & -> & Hq)]. destruct (quiet_facts id tr Hq) as (Ha & Hg & Hd & Ht & Hi).
  rewrite announced_app, generated_ids_app, got_app, drained_app, taken_app, accepted_app, Ha, Hi, Hg, Hd, Ht, !app_nil_r, orb_false_r.
  split_and!; try done; [by intros ->|apply authed_app].
Qed.

(** Parts of the state the invariant does not speak of. *)
Definition same_parts s s' : Prop :=
  l_conns s' = l_conns s ∧ l_by_id s' = l_by_id s ∧ l_relays s' = l_relays s ∧ l_relay_by_id s' = l_relay_by_id s
  ∧ l_next s' = l_next s ∧ l_out s' = l_out s ∧ l_deferred s' = l_deferred s ∧ l_with_pending s' = l_with_pending s.

Lemma inv_same cl s s' : same_parts s s' → inv cl s → inv cl s'.
Proof.
  intros (H1 & H2 & H3 & H4 & H5 & H6 & H7 & H8) []. split; rewrite ?H6, ?H7, ?H8; try done.
  - by eapply heap_ok_same.
  - by rewrite H1.
  - by rewrite H1.
  - by rewrite H1, H4.
Qed.

(** Packets wait for a connection of UDP. *)
Lemma inv_with_pending cl s b id :
  inv cl s → accepted id (l_out s) = true → udp_announced id (l_out s) = true →
  inv cl (set_l_task b (set_l_with_pending (l_with_pending s ++ [id]) s)).
Proof.
  intros [] Ha Hu. split; try done; [by eapply heap_ok_same, i_heap|]. destruct i_tasks as [H1 H2]. split; [done|]. simpl.
  intros id' [?| ->%list_elem_of_singleton]%elem_of_app; auto.
Qed.

Lemma frame_with_pending gone s s' b ids :
  frame gone s s' → frame gone s (set_l_task b (set_l_with_pending ids s')).
Proof. by intros []. Qed.

Notation keeps cl s := (λ _ s', inv cl s' ∧ frame [] s s').

(** A request is answered. *)
Lemma wp_complete_state cl s p c st :
  inv cl s → l_conns s !! p = Some c → announced (k_id c) (l_out s) = true →
  k_proto c = S5_UDP ∨ k_proto c = S5_TCP ∧ has_socket c →
  k_state c = S5CONNS_WAITING_CONNECT_RESULT → st = S5CONNS_WAITING_ACCEPT ∨ st = S5CONNS_FAILED →
  inv cl (put p (set_k_state st c) s).
Proof.
  intros Hi Hc Ha Hk Hst Hst'. pose proof (i_told _ _ Hi p c Hc) as Ht.
  eapply inv_put; [done| | |done|intros [_ E]; simpl in E; by destruct Hst' as [-> | ->]].
  - split; [done|]. destruct Hk as [Hu|[E Hs]]; [|rewrite E; simpl; split_and!; [by right|done|by rewrite Hst]].
    rewrite Hu. simpl. split_and!; try done; [|by destruct Hst' as [-> | ->]].
    destruct (h_conn s (i_heap _ _ Hi) p c Hc) as [_ Hkind]. unfold kind_ok in Hkind. rewrite Hu in Hkind. apply Hkind.
  - apply told_state; try done; [by destruct Hst' as [-> | ->]..| | |by destruct Hst' as [-> | ->]].
    + intros Hu _. apply (tc_authed _ _ _ Ht); [done|]. by rewrite Hst.
    + intros Hs' _. apply (tc_taken _ _ _ Ht); [done|]. by rewrite Hst.
Qed.

(** What a call does to its own connection may be taken back. *)
Lemma frame_put_under gone s0 s1 p c0 c1 c2 :
  frame gone (put p c1 s0) s1 → l_conns s0 !! p = Some c0 → k_id c1 = k_id c0 → owned gone s0 p c0 → sim c0 c2 →
  frame gone s0 (put p c2 s1).
Proof.
  intros [] Hc0 Hid Ho Hs. simpl in *. split; try done; simpl.
  - intros q d. destruct (decide (q = p)) as [->|Hne].
    + rewrite lookup_insert_eq. intros [= <-]. by exists c0.
    + rewrite lookup_insert_ne by done. intros Hq. destruct (f_conn q d Hq) as (d0 & Hd0 & ?). exists d0.
      by rewrite lookup_insert_ne in Hd0.
  - intros q d Hq Hg Hx. destruct (decide (q = p)) as [->|Hne].
    + simplify_eq. destruct Ho as [?|(H1 & H2)]; [done|]. rewrite H1, H2 in Hx. by destruct Hx.
    + rewrite lookup_insert_ne by done. apply f_keep; [by rewrite lookup_insert_ne|done..].
Qed.

Lemma frame_under gone s0 s1 p c0 c1 :
  frame gone (put p c1 s0) s1 → l_conns s0 !! p = Some c0 → l_conns s1 !! p = None → owned gone s0 p c0 →
  frame gone s0 s1.
Proof.
  intros [] Hc0 Hn Ho. simpl in *. split; try done.
  - intros q d Hq. destruct (f_conn q d Hq) as (d0 & Hd0 & ?). exists d0. rewrite lookup_insert_ne in Hd0; [done|]. intros <-. congruence.
  - intros q d Hq Hg Hx. destruct (decide (q = p)) as [->|Hne].
    + simplify_eq. destruct Ho as [?|(H1 & H2)]; [done|]. rewrite H1, H2 in Hx. by destruct Hx.
    + apply f_keep; [by rewrite lookup_insert_ne|done..].
Qed.

Lemma wp_complete_tcp cl s p c result :
  inv cl s → l_conns s !! p = Some c → owned [] s p c → p ∉ cl → k_proto c = S5_TCP → has_socket c →
  wps (complete_tcp_connection rec p result) (keeps cl s) s.
Proof.
  intros Hi Hc Ho Hp Ht (k & Hk & _). unfold complete_tcp_connection. wp_step. eapply wp_s5_conn_at; [done|]. do 3 wp_step.
  eapply wp_sock_write; [done..|]. intros x. set (s1 := push _ s).
  assert (Hi1 : inv cl s1) by (by apply inv_push). assert (Hf1 : frame [] s s1) by (by apply frame_push).
  wp_step; intros Hx; [|by split]. apply (wp_end [] cl s1 p c); [done..|by rewrite Ht| |].
  - by apply owned_push.
  - intros s' Hi' Hf' _ _. split; [done|]. by eapply s5_frame_trans.
Qed.

Lemma wp_complete_udp cl s p c st result :
  inv cl s → l_conns s !! p = Some c → announced (k_id c) (l_out s) = true → owned [] s p c → p ∉ cl → k_proto c = S5_UDP →
  k_state c = S5CONNS_WAITING_CONNECT_RESULT →
  st = match result with S5LCR_SUCCESS => S5CONNS_WAITING_ACCEPT | _ => S5CONNS_FAILED end →
  wps (complete_udp_connection rec p result) (keeps cl s) (put p (set_k_state st c) s).
Proof.
  intros Hi0 Hc0 Ha0 Ho Hp Hu Hst0 Hst. set (c1 := set_k_state st c). set (s1 := put p c1 s).
  assert (Hi : inv cl s1) by (apply wp_complete_state; try done; [by left|]; subst st; destruct result; [by left|by right..]).
  assert (Hc : l_conns s1 !! p = Some c1) by apply lookup_insert_eq.
  unfold complete_udp_connection. wp_step. eapply wp_s5_conn_at; [done|].
  assert (Hend : wps (raise_closed rec (k_id c1) 0 ≫= λ _, destroy_connection p) (keeps cl s) s1).
  { eapply (wp_end [] cl s1 p c1); [done..|by simpl; rewrite Hu|done|]. intros s' Hi' Hf' Hn _. split; [done|]. by eapply frame_under. }
  destruct result; try done. clear Hend. destruct (Ho) as [Hx|(_ & He)]; [by apply elem_of_nil in Hx|].
  wp_step. apply (wp_raise_about p c1 _ cl); [|done..|].
  { split; [done|]. split; [intros e [= <-]; split; [by split|done]|]. intros id [= <-]. by apply (i_told _ _ Hi p c1 Hc). }
  intros x s2 c2 Hi2 Hf1 Hf Hc2 Hs2. wp_step. eapply wp_upd; [done|]. wp_step.
  destruct (frame_trace _ _ _ (k_id c) Hf) as (Ha2 & _).
  destruct (frame_trace _ _ _ (k_id c) Hf1) as (_ & _ & _ & _ & _ & Hac & _).
  assert (Hu2 : k_proto c2 = S5_UDP) by (by rewrite (sim_proto _ _ Hs2)).
  destruct (h_conn s2 (i_heap _ _ Hi2) p c2 Hc2) as [_ Hk]. unfold kind_ok in Hk. rewrite Hu2 in Hk. simpl in Hk.
  destruct Hk as (Hk & _). set (c3 := set_k_state S5CONNS_ESTABLISHED c2).
  assert (Hi3 : inv cl (put p c3 s2)).
  { eapply inv_put; [done| | |done|intros [E _]; simpl in E; by rewrite Hu2 in E].
    - split; [done|]. by rewrite Hu2.
    - pose proof (i_told _ _ Hi2 p c2 Hc2) as Ht. apply told_state; change (k_id c1) with (k_id c); rewrite ?(sim_id _ _ Hs2), ?Hu2; try done; [simpl; intros _ _; by rewrite Ha2|simpl].
      intros _ _. apply Hac. simpl. rewrite accepted_app. simpl. rewrite Z.eqb_refl. apply orb_true_r. }
  split.
  { apply (inv_with_pending cl (put p c3 s2)); [done| |].
    - simpl. apply Hac. simpl. rewrite accepted_app. simpl. rewrite Z.eqb_refl. apply orb_true_r.
    - simpl. destruct (f_out _ _ _ Hf) as (tr & -> & _). rewrite udp_announced_app. change (udp_announced (k_id c) (l_out s) || udp_announced (k_id c) tr = true).
      rewrite (tc_udp _ _ _ (i_told _ _ Hi0 p c Hc0) Ha0). by rewrite Hu. }
  apply frame_with_pending. eapply (frame_put_under [] s s2 p c c1 c3); try done.
  destruct Hs2. split; try done. by right.
Qed.

(** The connection of a call, if there is one. *)
Lemma call_conn cl s call :
  inv cl s → call_allowed s call = true →
  match l_by_id s !! u32 (call_id call) with
  | None => True
  | Some p =>
      ∃ c, l_conns s !! p = Some c ∧ owned [] s p c ∧ announced (k_id c) (l_out s) = true ∧ p ∉ cl
           ∧ (k_proto c = S5_UDP ∨ k_proto c = S5_TCP ∧ has_socket c)
           ∧ match call with
             | CallComplete _ _ => k_state c = S5CONNS_WAITING_CONNECT_RESULT ∨ k_state c = S5CONNS_FAILED
             | CallSend _ _ => k_state c = S5CONNS_ESTABLISHED
             | _ => True
             end
  end.
Proof.
  intros Hi Hal. unfold call_allowed in Hal. destruct (l_by_id s !! _) as [p|] eqn:Hp; [|done].
  destruct (h_by_id s (i_heap _ _ Hi) _ _ Hp) as (c & Hc & _). rewrite Hc in Hal.
  apply andb_true_iff in Hal as [[[[_ Ha]%andb_true_iff He%negb_true_iff]%andb_true_iff _]%andb_true_iff Hst].
  destruct (allowed_conn cl s p c) as [Hpcl Hk]; [done..|]. exists c. split_and!; try done; [by right|].
  destruct call; try done; [|by apply bool_decide_eq_true in Hst].
  apply orb_true_iff in Hst as [Hst%bool_decide_eq_true|Hst%bool_decide_eq_true]; auto.
Qed.

Lemma keeps_refl cl s : inv cl s → inv cl s ∧ frame [] s s.
Proof. intros. split; [done|apply s5_frame_refl]. Qed.

(** The connection of a call that is being made. *)
Ltac call_start Hi Hal p c Hc Ho Ha Hp Hk Hst :=
  unfold find_connection; do 2 wp_step;
  let H := fresh in
  pose proof (call_conn _ _ _ Hi Hal) as H; simpl in H;
  destruct (l_by_id _ !! u32 _) as [p|] eqn:?; [|by (wp_step; apply keeps_refl)];
  destruct H as (c & Hc & Ho & Ha & Hp & Hk & Hst); wp_step; eapply wp_s5_conn_at; [exact Hc|].

Lemma wp_CallComplete cl s id result :
  inv cl s → call_allowed s (CallComplete id result) = true →
  wps (socks5_listener_complete_connect_request rec id result) (keeps cl s) s.
Proof.
  intros Hi Hal. unfold socks5_listener_complete_connect_request. call_start Hi Hal p c Hc Ho Ha Hp Hk Hst.
  destruct Hst as [Hst|Hst]; rewrite Hst; simpl; [|by (wp_step; apply keeps_refl)].
  wp_step. apply wp_assert; [done|]. wp_step. eapply wp_upd; [done|]. set (c1 := set_k_state _ c).
  destruct Hk as [Hu|[Ht Hsk]].
  - rewrite Hu. simpl. by eapply wp_complete_udp.
  - rewrite Ht. simpl. assert (Hi1 : inv cl (put p c1 s)).
    { apply wp_complete_state; try done; [by right|]. destruct result; [by left|by right..]. }
    eapply eff_wp_mono; [eapply (wp_complete_tcp cl (put p c1 s) p c1); try done; apply lookup_insert_eq|].
    intros _ s' [Hi' Hf']. split; [done|]. eapply s5_frame_trans; [|done]. eapply frame_put; [apply s5_frame_refl|done..| |done].
    split; try done. right. rewrite Ht. split_and!; try done. by destruct result.
Qed.

Lemma wp_CallSend cl s id data :
  inv cl s → call_allowed s (CallSend id data) = true →
  wps (socks5_listener_send_data id data) (keeps cl s) s.
Proof.
  intros Hi Hal. unfold socks5_listener_send_data. call_start Hi Hal p c Hc Ho Ha Hp Hk Hst.
  wp_step. apply wp_assert; [by rewrite bool_decide_eq_true|]. destruct Hk as [Hu|[Ht (k & Hk & _)]].
  - rewrite Hu. simpl. unfold send_udp. wp_step. eapply wp_s5_conn_at; [done|].
    destruct (h_conn s (i_heap _ _ Hi) p c Hc) as [_ Hkind]. unfold kind_ok in Hkind. rewrite Hu in Hkind. simpl in Hkind.
    destruct Hkind as (_ & _ & (a & Hd) & r & rel & t & Hr & Hrl & _). rewrite Hd, Hr. wp_step. apply wp_assert; [done|].
    wp_step. apply wp_the. wp_step. eapply wp_relay_at; [done|].
    destruct (h_relay s (i_heap _ _ Hi) r rel Hrl) as (-> & _). simpl. wp_step. apply wp_emit. wp_step. apply wp_sys. intros x.
    do 2 wp_step. set (s1 := push _ (push _ s)).
    assert (Hi1 : inv cl s1) by (by do 2 (apply inv_push; [done|])).
    assert (Hf1 : frame [] s s1).
    { eapply s5_frame_trans; [|by apply frame_push]. by apply frame_push. }
    wp_step; [|by (wp_step; split)]. wp_step. eapply (wp_upd p c); [done|]. wp_step.
    assert (Hs : ∀ n, sim c (set_k_sent n c)) by (intros n; split; try done; by left).
    split; [by eapply inv_put_same|by eapply frame_put].
  - rewrite Ht. simpl. eapply wp_sock_write; [done..|]. intros x. split; [by apply inv_push|by apply frame_push].
Qed.

Lemma set_read_enabled_sim on k : sim_socket k (tcp_socket_set_read_enabled on k).
Proof. unfold tcp_socket_set_read_enabled. by repeat case_match. Qed.

Lemma sim_with_socket c k k' : k_socket c = Some k → sim_socket k k' → sim c (set_k_socket (Some k') c).
Proof. intros Hk Hs. split; try done; [|by left]. simpl. rewrite Hk. by constructor. Qed.

Lemma wp_CallTurnRead cl s id on :
  inv cl s → call_allowed s (CallTurnRead id on) = true →
  wps (socks5_listener_turn_read id on) (keeps cl s) s.
Proof.
  intros Hi Hal. unfold socks5_listener_turn_read. call_start Hi Hal p c Hc Ho Ha Hp Hk Hst.
  destruct Hk as [Hu|[Ht (k & Hk & _)]].
  - rewrite Hu. simpl. eapply (wp_upd p c); [done|]. assert (Hs : sim c (set_k_readable on c)) by (split; try done; by left).
    split; [by eapply inv_put_same|]. eapply frame_put; [apply s5_frame_refl|done..].
  - rewrite Ht. simpl. eapply wp_upd_socket; [done..|].
    assert (Hs := sim_with_socket c k _ Hk (set_read_enabled_sim on k)).
    split; [by eapply inv_put_same|]. eapply frame_put; [apply s5_frame_refl|done..].
Qed.

Lemma wp_CallFlow cl s id :
  inv cl s → call_allowed s (CallFlow id) = true → wps (socks5_listener_flow_ctrl_info id) (keeps cl s) s.
Proof.
  intros Hi Hal. unfold socks5_listener_flow_ctrl_info. call_start Hi Hal p c Hc Ho Ha Hp Hk Hst.
  destruct Hk as [Hu|[Ht (k & Hk & _)]].
  - rewrite Hu. simpl. wp_step. by apply keeps_refl.
  - rewrite Ht, Hk. simpl. wp_step. apply wp_the. wp_step. by apply keeps_refl.
Qed.

(** Closing a connection that the owner knows and was not told to be closed. *)
Lemma wp_close_known cl s p c graceful id :
  inv cl s → l_by_id s !! u32 id = Some p → l_conns s !! p = Some c → owned [] s p c → p ∉ cl →
  (k_proto c = S5_UDP ∨ k_proto c = S5_TCP ∧ has_socket c) →
  wps (socks5_listener_close_connection rec id graceful) (keeps cl s) s.
Proof.
  intros Hi Hb Hc Ho Hp Hk. unfold socks5_listener_close_connection, find_connection. do 2 wp_step. rewrite Hb.
  wp_step. eapply wp_s5_conn_at; [done|].
  assert (Hend : ∀ s1 c1, inv cl s1 → frame [] s s1 → l_conns s1 !! p = Some c1 → k_id c1 = k_id c → k_proto c1 = k_proto c →
            owned [] s1 p c1 → wps (raise_closed rec (k_id c) 0 ≫= λ _, destroy_connection p) (keeps cl s) s1).
  { intros s1 c1 Hi1 Hf1 Hc1 Hid Hpr Ho1. rewrite <- Hid. eapply wp_end; [done..| |done|].
    - intros E. rewrite Hpr in E. rewrite E in Hk. by destruct Hk as [?|[? _]].
    - intros s' Hi' Hf' _ _. split; [done|]. by eapply s5_frame_trans. }
  wp_step. wp_step; intros Hx.
  - destruct Hk as [Hu|[Ht (k & Hk & _)]]; [rewrite Hu, andb_false_r in Hx; done|].
    eapply wp_upd_socket; [done..|]. assert (Hs : sim c (set_k_socket (Some (tcp_socket_set_rst true k)) c)) by (eapply sim_with_socket; done).
    eapply Hend; [by eapply inv_put_same|eapply frame_put; [apply s5_frame_refl|done..]|apply lookup_insert_eq|done..].
  - eapply Hend; [done|apply s5_frame_refl|done..].
Qed.

Lemma wp_api_call call cl s :
  inv cl s → call_allowed s call = true → wps (api_call rec call) (keeps cl s) s.
Proof.
  intros Hi Hal. destruct call as [id result|id data|id on|id|id graceful]; unfold api_call.
  - by apply wp_CallComplete.
  - wp_step. eapply eff_wp_mono; [by apply wp_CallSend|]. intros ? s' Hs'. by wp_step.
  - by apply wp_CallTurnRead.
  - wp_step. eapply eff_wp_mono; [by apply wp_CallFlow|]. intros ? s' Hs'. by wp_step.
  - pose proof (call_conn _ _ _ Hi Hal) as H. simpl in H. destruct (l_by_id s !! u32 id) as [p|] eqn:Hp.
    + destruct H as (c & Hc & Ho & Ha & Hpc & Hk & _). by eapply wp_close_known.
    + unfold socks5_listener_close_connection, find_connection. do 2 wp_step. rewrite Hp. wp_step. by apply keeps_refl.
Qed.

End Handlers.

(** Calls at any depth. *)
Lemma wp_nested_call fuel call cl s :
  inv cl s → wps (nested_call fuel call) (λ _ s', inv cl s' ∧ frame [] s s') s.
Proof.
  revert call cl s. induction fuel as [|fuel IH]; intros call cl s Hi; simpl; [apply eff_wp_env_fault|].
  do 2 wp_step. destruct (call_allowed s call) eqn:Hal; [|apply eff_wp_env_fault]. by apply wp_api_call.
Qed.

End Safe.
