(* ===== verification/Socks5Read.v ===== *)
(** * Reading from the sockets of the SOCKS5 listener

    The handshake, the requests and the data of a connection keep the invariant,
    and so does the end of a connection and of an association. *)
From S2P Require Import Prelude Effects WireUtils Socks5Wire TcpSocket Socks5 Socks5Inv Socks5Safe.

Section Read.
Context {A : Type} `{!SocketAddressOps A, !S5Env A}.
Context (fuel : nat).
Notation address := (Socks5ConnectionAddress A).
Notation listener := (Socks5Listener (A:=A)).
Notation conn := (Connection (A:=A)).
Implicit Types (s : listener) (c d : conn) (tr : list (S5Out A)) (p q r id : Z).

Notation wps := (wp known_fault).
Notation rec := (nested_call fuel).

#[local] Notation rec_ok := (wp_nested_call fuel).

(** Between operations no connection of UDP is being accepted, and the listener
    is not being stopped. *)
Definition settled s : Prop :=
  ∀ p c, l_conns s !! p = Some c → k_proto c = S5_UDP → k_state c ≠ S5CONNS_WAITING_ACCEPT.
Definition calm s : Prop := l_stopping s = false ∧ settled s.
Definition top s : Prop := inv [] s ∧ calm s.
Notation at_top := (λ _ s', top s').

Lemma settled_sim s s' :
  settled s → (∀ q d', l_conns s' !! q = Some d' → ∃ d, l_conns s !! q = Some d ∧ sim d d') → settled s'.
Proof.
  intros Hs H q d' Hq Hu. destruct (H q d' Hq) as (d & Hd & []). destruct sim_state as [-> |(_ & _ & Hw)].
  - apply (Hs q d Hd). congruence.
  - apply Hw. congruence.
Qed.

Lemma calm_frame gone s s' : frame gone s s' → calm s → calm s'.
Proof. intros [] [Hst Hs]. split; [congruence|]. by eapply settled_sim. Qed.

Lemma calm_put p c s : calm s → k_proto c ≠ S5_UDP ∨ k_state c ≠ S5CONNS_WAITING_ACCEPT → calm (put p c s).
Proof.
  intros [Hst Hs] Hc. split; [done|]. intros q d. simpl. destruct (decide (q = p)) as [->|Hne].
  - rewrite lookup_insert_eq. intros [= <-] Hu. by destruct Hc.
  - rewrite lookup_insert_ne by done. apply Hs.
Qed.

Lemma calm_destroyed p c s : calm s → calm (destroyed p c s).
Proof. intros [Hst Hs]. split; [done|]. intros q d; simpl; intros [_ Hq]%lookup_delete_Some. by eapply Hs. Qed.

(** Not the connection of an association. *)
Definition plain s c : Prop := k_proto c = 0 → l_relay_by_id s !! u32 (k_id c) = None.

Lemma plain_assoc s c : is_udp_association_tcp_connection c s = false → plain s c.
Proof.
  unfold is_udp_association_tcp_connection. intros [H|H]%andb_false_iff E.
  - by rewrite E in H.
  - apply bool_decide_eq_false in H. by apply eq_None_not_Some.
Qed.

(** ** A connection whose stream is being changed *)

Record loose p s : Prop := {
  lo_heap : heap_ok s;
  lo_told q d : l_conns s !! q = Some d → told (l_out s) (bool_decide (q ∉ [p])) d;
  lo_trace : trace_ok (l_out s);
  lo_tasks : tasks_ok (l_deferred s) (l_with_pending s) (l_out s);
  lo_open c : l_conns s !! p = Some c → ended (k_id c) (l_out s) = false;
  lo_assoc q d : l_conns s !! q = Some d → assoc_like d → is_Some (l_relay_by_id s !! u32 (k_id d));
}.

Lemma inv_loose p s : inv [] s → loose p s.
Proof.
  intros []. split; try done.
  - intros q d Hq. eapply told_open; [by apply i_told|]. intros _. rewrite bool_decide_eq_true. apply not_elem_of_nil.
  - intros c Hc. apply (tc_open _ _ _ (i_told p c Hc)). rewrite bool_decide_eq_true. apply not_elem_of_nil.
  - intros q d Hq [? ?]. by eapply i_assoc.
Qed.

Lemma loose_ending p s c error :
  loose p s → l_conns s !! p = Some c → inv [p] (push (Raised (EClosed (k_id c) error)) s).
Proof.
  intros [] Hc. split.
  - by eapply heap_ok_same, lo_heap0.
  - intros q d Hq. simpl in Hq. apply told_quiet; [done| |by apply lo_told0].
    rewrite bool_decide_eq_true, list_elem_of_singleton. intros Hne. simpl. rewrite orb_false_r. apply Z.eqb_neq.
    intros E. apply Hne. by eapply same_id.
  - apply trace_ok_quiet; [done..| |].
    + intros e [= <-]. by apply lo_open0.
    + intros id [= <-]. apply (tc_generated _ _ _ (lo_told0 p c Hc)).
  - intros q d ->%list_elem_of_singleton Hd. simpl in Hd. simplify_eq. simpl. rewrite ended_app. simpl. rewrite Z.eqb_refl. apply orb_true_r.
  - by apply tasks_ok_app.
  - intros q d Hq H1 H2. by eapply lo_assoc0.
Qed.

Lemma loose_destroyed p s c : loose p s → l_conns s !! p = Some c → plain s c → inv [] (destroyed p c s).
Proof.
  intros [] Hc Hp. apply inv_destroyed_at; try done.
  - intros q d Hne Hq. eapply told_open; [by apply lo_told0|]. intros _. by rewrite bool_decide_eq_true, list_elem_of_singleton.
  - by intros q d ?%elem_of_nil.
Qed.

(** The label: the connection is destroyed, after the owner was told where it
    knows it. *)
Lemma wp_close_then p c error s (Q : unit → listener → Prop) :
  loose p s → l_conns s !! p = Some c →
  (∀ s1, inv [p] s1 → frame [] s s1 → l_conns s1 !! p = Some c → Q tt (destroyed p c s1)) → Q tt (destroyed p c s) →
  wps (close_label rec p error) Q s.
Proof.
  intros Hl Hc H1 H2. unfold close_label. wp_step. eapply wp_s5_conn_at; [done|]. destruct (past_request (k_state c)) eqn:E.
  - wp_step. unfold raise_closed. wp_step. apply (wp_raise rec rec_ok _ [p]); [by apply loose_ending|].
    intros x s1 Hi1 Hf1 _. wp_step. unfold find_connection. do 2 wp_step.
    assert (Hc1 : l_conns s1 !! p = Some c).
    { apply (f_keep _ _ _ Hf1 p c); [done|apply not_elem_of_nil|]. right. simpl. rewrite ended_app. simpl. rewrite Z.eqb_refl. apply orb_true_r. }
    set (s2 := push _ s1). assert (Hi2 : inv [p] s2) by (by apply inv_push).
    destruct (h_conn s2 (i_heap _ _ Hi2) p c Hc1) as [Hb _]. simpl in *. rewrite Hb.
    apply (wp_destroy p c); [done|apply Hi2|]. apply H1; [done| |done].
    eapply s5_frame_trans; [by apply (frame_push [] (Raised (EClosed (k_id c) error)))|]. eapply s5_frame_trans; [done|]. by apply frame_push.
  - apply (wp_destroy p c); [done|apply Hl|done].
Qed.

Lemma wp_close_label p c error s :
  loose p s → calm s → l_conns s !! p = Some c → plain s c → wps (close_label rec p error) at_top s.
Proof.
  intros Hl Hst Hc Hp. eapply wp_close_then; [done..| |].
  - intros s1 Hi1 Hf1 Hc1. split; [|by eapply calm_destroyed, calm_frame].
    apply (inv_destroyed [] [p]); [done| |set_solver|done]. by rewrite (f_relay_by_id _ _ _ Hf1).
  - split; [by apply loose_destroyed|by apply calm_destroyed].
Qed.

(** ** Reading *)

Lemma top_push o s : harmless (l_out s) o → top s → top (push o s).
Proof. intros Ho [Hi Hs]. split; [by apply inv_push|done]. Qed.

Lemma told_top s p c : top s → l_conns s !! p = Some c → told (l_out s) true c.
Proof. intros [Hi _] Hc. exact (i_told _ _ Hi p c Hc). Qed.

Lemma wp_peek p c k s (Q : PeekResult → listener → Prop) :
  l_conns s !! p = Some c → k_socket c = Some k → ts_ssl_pending k = [] →
  (∀ x, x = NoData ∨ x = Eof → Q x s) →
  (∀ data rest, ts_input k = data ++ rest → Q (Chunk data) (push (SockPeeked (k_id c) data) s)) →
  wps (sock_peek p) Q s.
Proof.
  intros Hc Hk Hp H1 H2. unfold sock_peek. wp_step. eapply wp_s5_conn_at; [done|]. wp_step. rewrite Hk. apply wp_the. do 3 wp_step.
  unfold tcp_socket_peek. rewrite Hp. destruct (ts_input k) as [|x xs] eqn:E.
  - destruct (ts_eof k); do 2 wp_step; apply H1; auto.
  - apply wp_emit. wp_step. eapply H2. by rewrite take_drop.
Qed.

Lemma wp_drain p c k n s (Q : bool → listener → Prop) :
  l_conns s !! p = Some c → k_socket c = Some k → ts_ssl_pending k = [] →
  Q true (put p (set_k_socket (Some (set_ts_input (drop n (ts_input k)) k)) c) s) →
  (n ≠ 0%nat → Q false (put p (set_k_socket (Some k) c) s)) →
  wps (sock_drain p n) Q s.
Proof.
  intros Hc Hk Hp H1 H2. unfold sock_drain, socket_of. do 2 wp_step. eapply wp_s5_conn_at; [done|]. rewrite Hk. apply wp_the. do 2 wp_step.
  pose proof (drain_unread (drains (l_out s)) n k Hp) as Hd. destruct (tcp_socket_drain _ n k) as [[] k'].
  - subst k'. wp_step. eapply wp_upd; [done|]. by wp_step.
  - destruct Hd as (-> & _ & Hn). wp_step. eapply wp_upd; [done|]. wp_step. auto.
Qed.

(** What the handling of a chunk leaves to do. *)
Definition step_ok p (chunk : list Z) (step : ReadStep) s : Prop :=
  match step with
  | DoClose _ => loose p s ∧ calm s ∧ ∃ c, l_conns s !! p = Some c ∧ plain s c
  | ToDrain n =>
      top s ∧ ∃ c k, l_conns s !! p = Some c ∧ k_socket c = Some k ∧ ts_ssl_pending k = [] ∧ k_proto c ≠ S5_UDP
        ∧ (n = 0%nat ∨ ∃ rest, ts_input k = chunk ++ rest ∧ (n ≤ length chunk)%nat ∧ taken (k_id c) (l_out s) = []
             ∧ (k_state c = S5CONNS_WAITING_REQUEST → k_proto c ≠ S5_TCP))
  end.

Lemma shape_socket c k : k_proto c = 0 ∨ k_proto c = S5_TCP → ts_ssl_pending k = [] → shape c (set_k_socket (Some k) c).
Proof.
  intros Hp Hk. split; [done|]. destruct (k_proto c =? S5_UDP) eqn:E; [|split_and!; try done; by exists k].
  apply Z.eqb_eq in E. rewrite E in Hp. by destruct Hp.
Qed.

Lemma conn_socket cl s p c :
  inv cl s → l_conns s !! p = Some c → k_proto c ≠ S5_UDP → (k_proto c = 0 ∨ k_proto c = S5_TCP) ∧ has_socket c.
Proof.
  intros Hi Hc Hp. destruct (h_conn s (i_heap _ _ Hi) p c Hc) as [_ Hk]. unfold kind_ok in Hk.
  by rewrite (proj2 (Z.eqb_neq _ _)) in Hk.
Qed.

Lemma sim_socket_same c k : k_socket c = Some k → sim c (set_k_socket (Some k) c).
Proof. intros Hk. by eapply sim_with_socket. Qed.

Lemma wp_finish_read p chunk step s : step_ok p chunk step s → wps (finish_read rec p chunk step) at_top s.
Proof.
  destruct step as [n|error]; simpl.
  2: { intros (Hl & Hs & c & Hc & Hp). by eapply wp_close_label. }
  intros (Ht & c & k & Hc & Hk & Hpd & Hudp & Hn). destruct (Ht) as [Hi Hst]. wp_step.
  pose proof (sim_socket_same c k Hk) as Hsim.
  eapply wp_drain; [done..| |].
  - wp_step. eapply wp_s5_conn_at; [apply lookup_insert_eq|]. destruct (decide (n = 0%nat)) as [->|Hne].
    + simpl. wp_step. split; [|by apply calm_put; [|left]]. eapply inv_put_same; [done..| |done]. by eapply sim_with_socket.
    + destruct Hn as [?|(rest & Hin & Hle & Htk & Hrq)]; [done|]. rewrite (proj2 (Nat.ltb_lt _ _)) by lia. simpl. apply wp_emit.
      split; [|by apply (calm_put p); [|left]]. eapply inv_put_push; [done..| | | | |done].
      * apply shape_socket; [by eapply conn_socket|done].
      * by intros id [= <-].
      * eapply told_drained; try done. by apply (i_told _ _ Hi p c).
      * apply trace_ok_snoc; [apply Hi|done..|]. intros id [= <-]. apply (i_told _ _ Hi p c Hc).
  - intros Hne. simpl. wp_step. eapply wp_s5_conn_at; [apply lookup_insert_eq|]. do 3 wp_step.
    assert (Hi' : inv [] (put p (set_k_socket (Some k) c) s)) by (by eapply inv_put_same).
    destruct (is_udp_association_tcp_connection _ _) eqn:E; simpl.
    + eapply wp_close_then; [by apply inv_loose|apply lookup_insert_eq| |]; [intros s1 _ _ _|]; (apply wp_fault; unfold known_fault; auto).
    + eapply eff_wp_mono; [eapply wp_close_label; [by apply inv_loose|by apply calm_put; [|left]|apply lookup_insert_eq|by apply plain_assoc]|].
      intros ? s' Hs'. by wp_step.
Qed.

(** A response, after which the chunk is drained in part or the connection is
    closed. *)
Lemma wp_respond p c k data n chunk rest s :
  top s → l_conns s !! p = Some c → k_socket c = Some k → ts_ssl_pending k = [] → k_proto c ≠ S5_UDP → plain s c →
  ts_input k = chunk ++ rest → (n ≤ length chunk)%nat → taken (k_id c) (l_out s) = [] →
  (k_state c = S5CONNS_WAITING_REQUEST → k_proto c ≠ S5_TCP) →
  wps (respond p data n) (λ step s', step_ok p chunk step s') s.
Proof.
  intros Ht Hc Hk Hpd Hu Hp Hin Hn Htk Hrq. unfold respond. wp_step. eapply wp_sock_write; [done..|]. intros x. wp_step.
  set (s1 := push _ s). assert (Ht1 : top s1) by (by apply top_push). destruct (x =? 0); simpl.
  - split; [done|]. exists c, k. split_and!; try done. right. exists rest. split_and!; try done. unfold s1. simpl. by rewrite taken_app, Htk.
  - split; [by apply inv_loose, Ht1|]. split; [apply Ht1|]. by exists c.
Qed.

(** A step of the handshake. *)
Lemma inv_handshake s p c st :
  top s → l_conns s !! p = Some c → k_proto c ≠ S5_UDP → k_state c ≠ S5CONNS_ESTABLISHED →
  announced_state st = false → (past_request st = false → past_request (k_state c) = false) →
  (authed_state st = true → authed (k_id c) (l_out s)) →
  (k_proto c = S5_TCP → early st = false ∧ st ≠ S5CONNS_WAITING_REQUEST) →
  top (put p (set_k_state st c) s).
Proof.
  intros Ht Hc Hu Hst Ha Hpr Hau Htcp. destruct (Ht) as [Hi Hs]. split; [|by apply calm_put; [|left]]. pose proof (told_top s p c Ht Hc) as Htc.
  eapply inv_put; [done| | |done|by intros [_ E]; simpl in E; subst].
  - split; [done|]. rewrite (proj2 (Z.eqb_neq _ _)) by done. destruct (conn_socket _ _ _ _ Hi Hc Hu). by split_and!.
  - apply told_state; [done|by rewrite Ha|intros E; apply (tc_unannounced _ _ _ Htc); right; auto|by intros _ ->|auto| |done].
    intros Hk _. by apply (tc_taken _ _ _ Htc).
Qed.

(** A chunk was shown by the socket of a connection. *)
Record reading p c k (chunk rest : list Z) s : Prop := {
  rd_top : top s;
  rd_conn : l_conns s !! p = Some c;
  rd_socket : k_socket c = Some k;
  rd_pending : ts_ssl_pending k = [];
  rd_proto : k_proto c ≠ S5_UDP;
  rd_plain : plain s c;
  rd_input : ts_input k = chunk ++ rest;
  rd_peeked : SockPeeked (k_id c) chunk ∈ l_out s;
}.

Lemma reading_taken p c k chunk rest s :
  reading p c k chunk rest s → k_state c ≠ S5CONNS_ESTABLISHED → taken (k_id c) (l_out s) = [].
Proof. intros [] Hst. apply (tc_taken _ _ _ (told_top s p c rd_top0 rd_conn0)); congruence. Qed.

Lemma reading_wait p c k chunk rest s : reading p c k chunk rest s → step_ok p chunk (ToDrain 0) s.
Proof. intros []. split; [done|]. exists c, k. split_and!; try done. by left. Qed.

(** The state changes and a response is sent. *)
Lemma wp_advance p c k chunk rest s st data n :
  reading p c k chunk rest s → k_state c ≠ S5CONNS_ESTABLISHED → announced_state st = false →
  (past_request st = false → past_request (k_state c) = false) → (authed_state st = true → authed (k_id c) (l_out s)) →
  (n ≤ length chunk)%nat → st = S5CONNS_FAILED ∨ early (k_state c) = true →
  wps (upd p (set_k_state st) ≫= λ _, respond p data n) (step_ok p chunk) s.
Proof.
  intros Hr Hst Ha Hp Hau Hn Hfe. pose proof (reading_taken _ _ _ _ _ _ Hr Hst) as Htk. destruct Hr.
  pose proof (tc_early _ _ _ (told_top s p c rd_top0 rd_conn0)) as He.
  assert (Htcp : k_proto c = S5_TCP → early st = false ∧ st ≠ S5CONNS_WAITING_REQUEST).
  { intros Et. destruct Hfe as [->|Hfe]; [done|]. by rewrite He in Hfe. }
  wp_step. eapply wp_upd; [done|].
  eapply (wp_respond p (set_k_state st c) k); try done; [by apply inv_handshake|apply lookup_insert_eq|].
  simpl. intros -> Et. by destruct (Htcp Et).
Qed.

Lemma wp_read_auth_request p c k chunk rest s :
  reading p c k chunk rest s → k_state c = S5CONNS_IDLE → wps (read_auth_request p chunk) (step_ok p chunk) s.
Proof.
  intros Hr Hst. unfold read_auth_request. destruct (parse_auth_request _ chunk) as [| |method n] eqn:E.
  - wp_step. by eapply reading_wait.
  - eapply wp_advance; try done; rewrite ?Hst; try done. by left.
  - destruct (parse_auth_chosen _ _ _ _ E) as [Hn Hm]. unfold supported_method in Hm.
    eapply wp_advance; try done; rewrite ?Hst; try done; [by destruct (_ || _)| |by right].
    intros Hau. left. destruct s5_username as [|x xs]; [done|]. by destruct Hm as [-> | ->].
Qed.

Lemma wp_read_username_password p c k chunk rest s :
  reading p c k chunk rest s → k_state c = S5CONNS_WAITING_USERNAME_PASSWORD →
  wps (read_username_password p chunk) (step_ok p chunk) s.
Proof.
  intros Hr Hst. unfold read_username_password. destruct (read_username_password_request chunk) as [req|] eqn:E.
  2: { wp_step. by eapply reading_wait. }
  destruct (_ && _) eqn:Eok; (eapply wp_advance; try done; rewrite ?Hst; try done; try (by right)).
  - intros _. apply andb_true_iff in Eok as [[_ Hu%bool_decide_eq_true]%andb_true_iff Hp%bool_decide_eq_true].
    right. apply Exists_exists. eexists. split; [apply (rd_peeked _ _ _ _ _ _ Hr)|]. by exists chunk, req.
  - apply (read_username_password_stable chunk [] req E).
Qed.

(** ** Requests *)

Lemma reading_set_tcp p c k chunk rest s :
  reading p c k chunk rest s → k_state c = S5CONNS_WAITING_REQUEST → is_command S5CMD_CONNECT chunk →
  reading p (set_k_proto S5_TCP c) k chunk rest (put p (set_k_proto S5_TCP c) s).
Proof.
  intros [] Hst (v & l & Hch). split; try done; [|apply lookup_insert_eq]. destruct (rd_top0) as [Hi Hs]. split; [|by apply calm_put; [|left]].
  eapply inv_put; [done| | |done|by intros [E _]].
  - split; [done|]. rewrite (proj2 (Z.eqb_neq _ _)) by done. split_and!; [by right|by exists k|]. by rewrite Hst.
  - destruct (told_top s p c rd_top0 rd_conn0). split; simpl; rewrite ?Hst in *; auto; try done.
    + intros _ _ k' Hk'. simplify_eq. rewrite rd_input0. simpl. eauto.
    + intros _. apply udp_unannounced, tc_unannounced. by right.
Qed.

Lemma put_put p c c' s : put p c' (put p c s) = put p c' s.
Proof. unfold put, set_l_conns. simpl. by rewrite insert_insert_eq. Qed.

(** The owner is asked about a connection. *)
Lemma inv_announce s p c c1 e src dst app :
  top s → l_conns s !! p = Some c → past_request (k_state c) = false → shape c c1 →
  k_state c1 = S5CONNS_WAITING_CONNECT_RESULT → k_proto c1 = S5_TCP ∨ k_proto c1 = S5_UDP →
  k_socket c1 = k_socket c → (k_proto c1 ≠ S5_UDP → k_proto c ≠ S5_UDP ∧ authed_state (k_state c) = true) →
  e = EConnectRequest (k_id c) (k_proto c1) src dst app →
  (∃ tid, client_of (l_out s) (k_id c) (k_proto c1) tid ∧ authed tid (l_out s)) →
  inv [] (push (Raised e) (put p c1 s)).
Proof.
  intros Ht Hc Hpr Hsh Hst1 Hp1 Hk1 Hau -> Hau'. destruct (Ht) as [Hi _].
  destruct (told_top s p c Ht Hc) as [Hg Ho Ha Hu Hac Hat Hs Htk Hea Hcm].
  assert (Hun : announced (k_id c) (l_out s) = false) by (apply Hu; by right).
  assert (Hp0 : k_proto c1 ≠ 0) by (destruct Hp1 as [-> | ->]; done).
  eapply inv_put_push; [done..| | | |by intros [E _]; simpl in E].
  - by intros id [= <-].
  - destruct Hsh as [Hid _]. split; rewrite ?Hid, ?generated_ids_app, ?announced_app, ?ended_app, ?accepted_app, ?got_app, ?drained_app, ?taken_app,
      ?Hst1, ?Hk1, ?app_nil_r, ?orb_false_r; simpl; auto; try done.
    + intros _ _. rewrite Z.eqb_refl, orb_true_r. done.
    + intros [?|?]; done.
    + intros Hne _. destruct (Hau Hne). by apply authed_app, Hat.
    + intros Hne _. apply Htk; [done|]. intros E. by rewrite E in Hpr.
    + intros _. rewrite udp_announced_app, (udp_unannounced _ _ Hun). simpl. by rewrite Z.eqb_refl, orb_false_r.
  - apply trace_ok_snoc; [apply Hi| |done|].
    + intros e [= <-]. simpl. split; [done|]. split; [by apply Ho|done].
    + intros id [= <-]. done.
Qed.

Lemma wp_request_connection p c k chunk rest s n :
  reading p c k chunk rest s → k_state c = S5CONNS_WAITING_REQUEST → k_proto c = S5_TCP → (n ≤ length chunk)%nat →
  wps (request_connection rec p) (λ _ s', step_ok p chunk (ToDrain n) s') s.
Proof.
  intros Hr Hst Htcp Hn. pose proof (reading_taken _ _ _ _ _ _ Hr ltac:(by rewrite Hst)) as Htk. destruct Hr.
  unfold request_connection. wp_step. eapply wp_upd; [done|]. do 3 wp_step. eapply wp_upd; [apply lookup_insert_eq|].
  rewrite put_put. set (c1 := set_k_src _ _). wp_step. eapply wp_s5_conn_at; [apply lookup_insert_eq|]. wp_step.
  unfold raise_connect_request. wp_step. eapply wp_s5_conn_at; [apply lookup_insert_eq|]. wp_step.
  destruct (conn_socket _ _ _ _ (proj1 rd_top0) rd_conn0 rd_proto0) as [_ Hsk].
  apply (wp_raise rec rec_ok _ []).
  { eapply inv_announce; try done; [by rewrite Hst| |by left|by rewrite Hst|].
    - split; [done|]. rewrite Htcp. simpl. split_and!; [by right|done|]. by rewrite Hst.
    - exists (k_id c). unfold client_of. simpl. rewrite Htcp. split; [done|]. apply (tc_authed _ _ _ (told_top s p c rd_top0 rd_conn0)); [done|]. by rewrite Hst. }
  intros x s1 Hi1 Hf1 _. wp_step. set (s2 := push _ s1). assert (Hi2 : inv [] s2) by (by apply inv_push).
  unfold find_connection. do 2 wp_step. destruct (l_by_id s2 !! u32 (k_id c1)) as [q|] eqn:Hq; simpl.
  2: { do 2 wp_step. apply wp_goes_on. intros c2 Hc2. destruct (h_conn s2 (i_heap _ _ Hi2) p c2 Hc2) as [Hb _].
       destruct (f_conn _ _ _ Hf1 p c2 Hc2) as (c1' & Hc1' & Hsim). simpl in Hc1'. rewrite lookup_insert_eq in Hc1'. injection Hc1' as <-.
       rewrite (sim_id _ _ Hsim) in Hb. congruence. }
  assert (q = p) as ->.
  { destruct (h_by_id s2 (i_heap _ _ Hi2) _ _ Hq) as (c2 & Hc2 & Hu). destruct (f_conn _ _ _ Hf1 q c2 Hc2) as (d & Hd & Hsim).
    simpl in Hd. destruct (decide (q = p)) as [|Hne]; [done|]. rewrite lookup_insert_ne in Hd by done.
    destruct (h_conn s (i_heap _ _ (proj1 rd_top0)) q d Hd) as [H1 _], (h_conn s (i_heap _ _ (proj1 rd_top0)) p c rd_conn0) as [H2 _].
    rewrite <- (sim_id _ _ Hsim), Hu in H1. simpl in H1. congruence. }
  destruct (h_by_id s2 (i_heap _ _ Hi2) _ _ Hq) as (c2 & Hc2 & _).
  destruct (f_conn _ _ _ Hf1 p c2 Hc2) as (c1' & Hc1' & Hsim). simpl in Hc1'. rewrite lookup_insert_eq in Hc1'. injection Hc1' as <-.
  assert (Hk2 : ∃ k2, k_socket c2 = Some k2 ∧ sim_socket k k2).
  { destruct Hsim. simpl in sim_sockets. rewrite rd_socket0 in sim_sockets. inversion sim_sockets; subst. by eexists. }
  destruct Hk2 as (k2 & Hk2 & Hin & Hpd & _). wp_step. eapply wp_upd_socket; [done..|]. apply wp_goes_on. intros _ _.
  pose proof (set_read_enabled_sim false k2) as (Hin' & Hpd' & _).
  split; [split|].
  - eapply inv_put_same; [done..| |done]. eapply sim_with_socket; [done|]. apply set_read_enabled_sim.
  - apply calm_put; [|left; simpl; by rewrite (sim_proto _ _ Hsim); simpl; rewrite Htcp].
    eapply (calm_frame [] _ s1); [exact Hf1|]. apply (calm_put p); [apply rd_top0|]. by left.
  - eexists _, _. split; [apply lookup_insert_eq|]. split; [done|]. split_and!; [congruence|simpl; rewrite (sim_proto _ _ Hsim); simpl; by rewrite Htcp|].
    right. exists rest. split_and!; [congruence|done| |simpl].
    + unfold s2. simpl. rewrite taken_app. simpl. rewrite (sim_id _ _ Hsim). simpl.
      destruct (frame_trace _ _ _ (k_id c) Hf1) as (_ & _ & _ & _ & Ht & _). rewrite Ht. simpl. by rewrite taken_app, Htk.
    + intros Es. destruct (sim_state _ _ Hsim) as [E|(_ & E & _)]; by rewrite Es in E.
Qed.

(** ** Associations *)

(** Calls of the system. *)
Definition pushed_sys s s' : Prop := ∃ l, s' = set_l_out (l_out s ++ (Sys <$> l)) s.

Lemma pushed_sys_refl s : pushed_sys s s.
Proof. exists []. rewrite app_nil_r. by destruct s. Qed.

Lemma pushed_sys_push s s' call : pushed_sys s s' → pushed_sys s (push (Sys call) s').
Proof. intros [l ->]. exists (l ++ [call]). unfold push. simpl. by rewrite fmap_app, app_assoc. Qed.

Lemma inv_pushed_sys cl s s' : pushed_sys s s' → inv cl s → inv cl s'.
Proof.
  intros [l ->]. revert s. induction l as [|call l IH]; intros s Hi; simpl; [rewrite app_nil_r; by destruct s|].
  specialize (IH (push (Sys call) s)). unfold push in IH. simpl in IH. rewrite <- app_assoc in IH. apply IH. by apply inv_push.
Qed.

Lemma wp_all_zero calls s (Q : bool → listener → Prop) :
  (∀ b s', pushed_sys s s' → Q b s') → wps (all_zero calls) Q s.
Proof.
  assert (H : ∀ s', pushed_sys s s' → (∀ b s', pushed_sys s s' → Q b s') → wps (all_zero calls) Q s').
  { induction calls as [|call calls IH]; intros s' Hs' H; simpl; wp_step; [by apply H|]. apply wp_sys. intros x.
    wp_step; [by apply IH; [apply pushed_sys_push|]|]. wp_step. by apply H, pushed_sys_push. }
  apply H, pushed_sys_refl.
Qed.

Lemma pushed_sys_trans s1 s2 s3 : pushed_sys s1 s2 → pushed_sys s2 s3 → pushed_sys s1 s3.
Proof. intros [l ->] [l' ->]. exists (l ++ l'). simpl. by rewrite fmap_app, app_assoc. Qed.

Lemma wp_create_udp_event s (Q : bool → listener → Prop) :
  (∀ b s', pushed_sys s s' → Q b s') → wps create_udp_event Q s.
Proof.
  intros H. unfold create_udp_event. wp_step. apply wp_sys. intros fd.
  assert (H1 := pushed_sys_push s s SysSocket (pushed_sys_refl s)). set (s1 := push _ s) in *. wp_step; [wp_step; by apply H|].
  assert (Hend : ∀ (ok : bool) s2, pushed_sys s s2 →
    wps (when (negb ok) (sys SysClose ≫= λ _, skip) ≫= λ _, mret ok) Q s2).
  { intros ok s2 H2. wp_step. wp_step; intros E; [|wp_step; by apply H]. wp_step. apply wp_sys. intros y. do 2 wp_step.
    by apply H, pushed_sys_push. }
  wp_step. wp_step. apply wp_sys. intros y. wp_step; [wp_step; by apply Hend, pushed_sys_push|]. wp_step. apply wp_sys. intros z.
  apply wp_all_zero. intros b s' Hs'. apply Hend. eapply pushed_sys_trans; [|done]. by do 2 apply pushed_sys_push.
Qed.

Lemma reading_sys p c k chunk rest s s' : pushed_sys s s' → reading p c k chunk rest s → reading p c k chunk rest s'.
Proof.
  intros Hs []. destruct (rd_top0) as [Hi Hst]. assert (Hi' := inv_pushed_sys _ _ _ Hs Hi). destruct Hs as [l ->].
  split; try done. simpl. apply elem_of_app. by left.
Qed.

Lemma reading_push o p c k chunk rest s :
  harmless (l_out s) o → reading p c k chunk rest s → reading p c k chunk rest (push o s).
Proof. intros Ho []. split; try done; [by apply top_push|]. simpl. apply elem_of_app. by left. Qed.

Lemma inv_with_relay s p c :
  heap_ok s → (∀ q d, l_conns s !! q = Some d → told (l_out s) true d) → trace_ok (l_out s) →
  tasks_ok (l_deferred s) (l_with_pending s) (l_out s) →
  (∀ q d, l_conns s !! q = Some d → q ≠ p → assoc_like d → is_Some (l_relay_by_id s !! u32 (k_id d))) →
  l_conns s !! p = Some c → k_proto c = 0 → k_state c = S5CONNS_ESTABLISHED →
  l_relay_by_id s !! u32 (k_id c) = None → inv [] (with_relay p (k_id c) s).
Proof.
  intros Hh Ht Htr Hd Has Hc Hp Hst Hn. split; try done; [by apply heap_ok_with_relay|by intros q d ?%elem_of_nil|].
  intros q d Hq H1 H2. simpl in *. destruct (decide (q = p)) as [->|Hne]; [simplify_eq; by rewrite lookup_insert_eq|].
  rewrite lookup_insert_ne; [by eapply Has|]. intros E. apply Hne.
  destruct (h_conn s Hh p c Hc) as [H3 _], (h_conn s Hh q d Hq) as [H4 _]. rewrite E in H3. congruence.
Qed.

(** The relay of an association that could not be answered. *)
Lemma wp_terminate_new p c k r error s :
  l_conns s !! p = Some c → k_proto c = 0 → k_socket c = Some k → l_relay_by_id s !! u32 (k_id c) = Some r →
  l_relays s !! r = Some (mkRelay true (Some p) None) →
  wps (terminate_udp_association rec p error) (λ _ s', l_conns s' !! p = None) s.
Proof.
  intros Hc Hp Hk Hr Hrel. unfold terminate_udp_association. wp_step. eapply wp_s5_conn_at; [done|]. do 3 wp_step.
  unfold is_udp_association_tcp_connection. rewrite Hp, Hr. simpl. do 3 wp_step. rewrite Hr. unfold relay_keys. do 2 wp_step.
  eapply wp_relay_at; [done|]. simpl. do 2 wp_step. simpl. do 2 wp_step. eapply wp_relay_at; [done|]. simpl. do 2 wp_step. apply wp_sys. intros x. do 2 wp_step.
  apply wp_the. wp_step. eapply wp_s5_conn_at; [done|]. do 3 wp_step. unfold upd_relay. wp_step. eapply wp_relay_at; [done|]. do 2 wp_step.
  unfold destroy_connection, del_connection. wp_step. eapply wp_s5_conn_at; [done|]. rewrite Hp, Hk. do 2 wp_step. wp_step. simpl. do 2 wp_step.
  apply wp_emit. do 2 wp_step. simpl. apply lookup_delete_eq.
Qed.

Lemma wp_terminate_none p c error s :
  l_conns s !! p = Some c → l_relay_by_id s !! u32 (k_id c) = None → wps (terminate_udp_association rec p error) (λ _ _, False) s.
Proof.
  intros Hc Hr. assert (Hf : known_fault NoRelay) by (unfold known_fault; auto).
  unfold terminate_udp_association. wp_step. eapply wp_s5_conn_at; [done|]. do 3 wp_step.
  wp_step; [|by apply wp_fault]. wp_step. do 2 wp_step. rewrite Hr. by apply wp_fault.
Qed.

Lemma wp_associate p c k chunk rest s n :
  reading p c k chunk rest s → k_state c = S5CONNS_WAITING_REQUEST → k_proto c = 0 → (n ≤ length chunk)%nat →
  wps (complete_udp_association rec p ≫= λ ok, goes_on p ≫= λ _, upd p (set_k_state (if (ok : bool) then S5CONNS_ESTABLISHED else S5CONNS_FAILED)))
    (λ _ s', step_ok p chunk (ToDrain n) s') s.
Proof.
  intros Hr Hst Hp0 Hn. unfold complete_udp_association. do 2 wp_step. apply wp_create_udp_event. intros has_event s1 Hs1.
  apply (reading_sys _ _ _ _ _ _ _ Hs1) in Hr. clear Hs1 s. pose proof (reading_taken _ _ _ _ _ _ Hr ltac:(by rewrite Hst)) as Htk.
  do 2 wp_step. wp_step. eapply wp_s5_conn_at; [apply Hr|]. wp_step. destruct (_ || s5_ndebug); [|apply wp_fault; unfold known_fault; auto]. do 4 wp_step.
  destruct (Hr). destruct has_event; simpl.
  - do 2 wp_step. rewrite rd_plain0 by done. wp_step. apply wp_assert; [done|]. unfold new_relay. repeat wp_step.
    eapply wp_sock_write; [done..|]. intros x. wp_step. destruct (x =? 0) eqn:Ex; simpl.
    2: { eapply eff_wp_mono; [eapply (wp_terminate_new p c k); [done..|simpl; apply lookup_insert_eq|simpl; apply lookup_insert_eq]|].
         intros ? s2 Hn2. wp_step. wp_step. apply wp_goes_on. intros c2 Hc2. congruence. }
    wp_step. apply wp_emit. eapply wp_upd_socket; [done..|]. do 2 wp_step. apply wp_goes_on. intros _ _. eapply wp_upd; [apply lookup_insert_eq|].
    set (o1 := SockWrite _ _). set (b := push (SockTimeoutOff (k_id c)) (push o1 s1)).
    set (c3 := set_k_state _ _). pose proof (set_read_enabled_sim true k) as (Hin & Hpd & _).
    assert (Hrb : reading p c k chunk rest b) by (by do 2 (apply reading_push; [done|])).
    assert (Hc3 : l_conns (put p c3 b) !! p = Some c3) by apply lookup_insert_eq.
    assert (Htb := rd_top _ _ _ _ _ _ Hrb). destruct (Htb) as [Hi _].
    assert (Hw : inv [] (with_relay p (k_id c3) (put p c3 b))).
    { apply (inv_with_relay (put p c3 b) p c3); try done; simpl.
      - eapply heap_ok_put; [done| |apply Hi]. split; [done|]. rewrite Hp0. simpl. split_and!; [by left| |by rewrite Hst].
        eexists. split; [done|]. by rewrite Hpd.
      - intros q d Hq. destruct (decide (q = p)) as [->|Hne].
        + rewrite lookup_insert_eq in Hq. simplify_eq. destruct (told_top b p c Htb rd_conn0).
          split; simpl; rewrite ?Hst, ?Hp0 in *; auto; try done. intros _ k' [= <-]. rewrite Hin. auto.
        + rewrite lookup_insert_ne in Hq by done. by apply (told_top b q d).
      - apply Hi.
      - apply Hi.
      - intros q d Hq Hne [? ?]. rewrite lookup_insert_ne in Hq by done. by apply (i_assoc _ _ Hi q d).
      - by apply rd_plain0. }
    split; [split; [|apply calm_put; [apply calm_put; [apply rd_top0|by left]|by left]]|].
    + eapply inv_same; [|exact Hw]. split_and!; try done. simpl. by rewrite insert_insert_eq.
    + eexists _, _. split; [apply lookup_insert_eq|]. split; [done|]. split_and!; [by rewrite Hpd|done|].
      right. exists rest. split_and!; [by rewrite Hin|done| |done]. simpl. by rewrite !taken_app, Htk.
  - wp_step. wp_step. eapply wp_sock_write; [done..|]. intros x. wp_step. destruct (x =? 0) eqn:Ex; simpl.
    2: { eapply eff_wp_mono; [eapply (wp_terminate_none p c); [done|by apply rd_plain0]|done]. }
    do 2 wp_step. wp_step. apply wp_goes_on. intros _ _. eapply wp_upd; [done|]. simpl. set (b := push _ s1). assert (Hb : top b) by (by apply top_push).
    split; [apply inv_handshake; try done; by rewrite ?Hst, ?Hp0|].
    eexists _, _. split; [apply lookup_insert_eq|]. split; [done|]. split_and!; try done.
    right. exists rest. split_and!; try done. simpl. by rewrite taken_app, Htk.
Qed.

(** ** Requests and data *)

Lemma reading_set_request p c k chunk rest s dst app :
  reading p c k chunk rest s → k_state c = S5CONNS_WAITING_REQUEST →
  reading p (set_k_request dst app c) k chunk rest (put p (set_k_request dst app c) s).
Proof.
  intros [] Hst. split; try done; [|apply lookup_insert_eq]. destruct (rd_top0) as [Hi Hs]. split; [|by apply calm_put; [|left]].
  destruct (conn_socket _ _ _ _ Hi rd_conn0 rd_proto0).
  eapply inv_put; [done| | |done|by intros [_ E]; simpl in E; congruence].
  - split; [done|]. rewrite (proj2 (Z.eqb_neq _ _)) by done. by split_and!.
  - eapply told_same; [by apply (i_told _ _ Hi p c)|done..|]. by simpl; rewrite rd_socket0; constructor.
Qed.

Lemma wp_set_tcp (b : bool) p c k chunk rest s (Q : unit → listener → Prop) :
  reading p c k chunk rest s → k_state c = S5CONNS_WAITING_REQUEST → (b = true → is_command S5CMD_CONNECT chunk) →
  (∀ c' s', reading p c' k chunk rest s' → k_state c' = S5CONNS_WAITING_REQUEST →
     k_proto c' = (if b then S5_TCP else k_proto c) → Q tt s') →
  wps (when b (upd p (set_k_proto S5_TCP))) Q s.
Proof.
  intros Hr Hst Hb H. wp_step; intros ->; [|by eapply H]. eapply wp_upd; [apply Hr|].
  eapply H; [apply reading_set_tcp; auto|done..].
Qed.

Lemma wp_read_request p c k chunk rest s :
  reading p c k chunk rest s → k_state c = S5CONNS_WAITING_REQUEST → wps (read_request rec p chunk) (step_ok p chunk) s.
Proof.
  intros Hr Hst. unfold read_request. pose proof (parse_request_facts chunk) as Hf.
  destruct (parse_request chunk) as [tcp|tcp status atyp addr_len dst_addr|cmd atyp addr_len dst_addr].
  - wp_step. eapply wp_set_tcp; [done..|]. intros c' s' Hr' _ _. wp_step. by eapply reading_wait.
  - wp_step. eapply wp_set_tcp; [done..|]. intros c' s' Hr' Hst' _. wp_step. eapply wp_upd; [apply Hr'|]. do 2 wp_step.
    destruct (invalid_reply _ _ _ _ _) as [reply|]; [|apply wp_fault; by left].
    pose proof (reading_taken _ _ _ _ _ _ Hr' ltac:(by rewrite Hst')) as Htk. destruct Hr'.
    eapply (wp_respond p (set_k_state S5CONNS_FAILED c') k); try done; [|apply lookup_insert_eq].
    apply inv_handshake; try done; by rewrite Hst'.
  - destruct Hf as (Hcmd & Hcs & Hk & -> & H0 & H2 & Hn). wp_step. eapply wp_set_tcp; [done..| |].
    { intros ->%Z.eqb_eq. done. }
    intros c' s' Hr' Hst' Hp'. destruct (request_parsed_total (A:=A) atyp dst_addr Hk H0 H2) as [[dst ->] [app ->]].
    wp_step. eapply wp_upd; [apply Hr'|]. apply (reading_set_request _ _ _ _ _ _ dst app) in Hr'; [|done].
    set (c1 := set_k_request dst app c') in *. wp_step. destruct (cmd =? S5CMD_CONNECT) eqn:Ec.
    + eapply eff_wp_mono; [by eapply wp_request_connection|]. intros ? s1 H1. by wp_step.
    + eapply eff_wp_mono; [eapply (wp_associate p c1); try done|intros ? s1 H1; by wp_step].
      change (k_proto c1) with (k_proto c'). rewrite Hp'. destruct Hr.
      destruct (conn_socket _ _ _ _ (proj1 rd_top0) rd_conn0 rd_proto0) as [[?|Ht] _]; [done|]. exfalso.
      destruct (tc_command _ _ _ (told_top s p c rd_top0 rd_conn0) Hst Ht k rd_socket0) as (v & l & E).
      destruct Hcmd as (v' & l' & ->). rewrite rd_input0 in E. simplify_eq/=.
Qed.

Lemma put_id p c s : l_conns s !! p = Some c → put p c s = s.
Proof. intros Hc. unfold put, set_l_conns. rewrite insert_id by done. by destruct s. Qed.

Lemma set_socket_id c k : k_socket c = Some k → set_k_socket (Some k) c = c.
Proof. destruct c. simpl. by intros ->. Qed.

(** The owner took part of a chunk. *)
Lemma told_took tr b c k c' k' chunk x :
  told tr b c → k_socket c = Some k → k_state c = S5CONNS_ESTABLISHED →
  k_id c' = k_id c → k_proto c' = k_proto c → k_state c' = k_state c → k_socket c' = Some k' →
  ts_input k = take (Z.to_nat x) chunk ++ ts_input k' →
  told (tr ++ [Answered (ERead (k_id c) chunk) x]) b c'.
Proof.
  intros [] Hk Hst Hi Hp Hs Hk' Hin. rewrite Hst in *.
  split; rewrite ?Hi, ?Hp, ?Hs, ?udp_announced_app, ?generated_ids_app, ?announced_app, ?ended_app, ?accepted_app, ?got_app, ?drained_app, ?taken_app,
    ?orb_false_r, ?app_nil_r; auto; try done.
  - intros H1 H2. by apply authed_app, tc_authed.
  - intros Hb k0 Hk0. assert (k0 = k') as -> by congruence. rewrite (tc_stream Hb k Hk), Hin. unfold got, drained, taken. simpl. rewrite Z.eqb_refl. simpl.
    by rewrite !app_nil_r, <- !app_assoc.
Qed.

Lemma inv_took s p c k c' k' chunk x :
  inv [] s → l_conns s !! p = Some c → k_socket c = Some k → k_state c = S5CONNS_ESTABLISHED → k_proto c = S5_TCP →
  c' = set_k_socket (Some k') c → ts_ssl_pending k' = [] → ts_input k = take (Z.to_nat x) chunk ++ ts_input k' →
  inv [] (put p c' (push (Answered (ERead (k_id c) chunk) x) s)).
Proof.
  intros Hi Hc Hk Hst Hp -> Hpd Hin. change (inv [] (push (Answered (ERead (k_id c) chunk) x) (put p (set_k_socket (Some k') c) s))).
  pose proof (i_told _ _ Hi p c Hc) as Ht. eapply inv_put_push; [done|done| | | | |done].
  - apply shape_socket; [by right|done].
  - by intros id [= <-].
  - by eapply told_took.
  - apply trace_ok_snoc; [apply Hi|done..|]. intros id [= <-]. apply Ht.
Qed.

Lemma loose_answered s p c chunk x :
  inv [] s → l_conns s !! p = Some c → k_state c = S5CONNS_ESTABLISHED →
  loose p (push (Answered (ERead (k_id c) chunk) x) s).
Proof.
  intros Hi Hc Hst. destruct (inv_loose p s Hi). split; simpl.
  - by eapply heap_ok_same, lo_heap0.
  - intros q d Hq. destruct (decide (q = p)) as [->|Hne].
    + simplify_eq. rewrite (bool_decide_eq_false_2 (p ∉ [p])) in * by set_solver.
      assert (Ht : told (l_out s) false c) by (specialize (lo_told0 p c Hc); by rewrite (bool_decide_eq_false_2 (p ∉ [p])) in lo_told0 by set_solver).
      destruct Ht. split; rewrite ?udp_announced_app, ?generated_ids_app, ?announced_app, ?ended_app, ?accepted_app, ?app_nil_r, ?orb_false_r; simpl; auto; try done.
      intros H1 H2. by apply authed_app, tc_authed.
    + apply told_other; [|by apply lo_told0]. simpl. intros [= E]. apply Hne. by eapply same_id.
  - apply trace_ok_snoc; [done..|]. intros id [= <-]. apply (lo_told0 p c Hc).
  - by apply tasks_ok_app.
  - intros c' Hc'. simplify_eq. rewrite ended_app. by rewrite (lo_open0 c).
  - done.
Qed.

(** An event about an established connection. *)
Lemma harmless_established s p c e :
  top s → l_conns s !! p = Some c → k_state c = S5CONNS_ESTABLISHED → k_proto c ≠ 0 →
  (∃ data, e = ERead (k_id c) data) ∨ (∃ n, e = EDataSent (k_id c) n) → harmless (l_out s) (Raised e).
Proof.
  intros Ht Hc Hst Hp He. destruct (told_top s p c Ht Hc) as [Hg Ho _ _ Hac _ _ _ _ _].
  destruct He as [[data ->]|[n ->]]; (split; [done|]; split; [|by intros id [= <-]]); intros e [= <-];
    (split; [|done]); simpl; auto.
Qed.

Lemma wp_read_established budget p c k chunk rest s :
  reading p c k chunk rest s → k_state c = S5CONNS_ESTABLISHED → k_proto c = S5_TCP →
  wps (read_established rec budget p chunk)
    (λ (e : option Z) s', step_ok p chunk (match e with Some error => DoClose error | None => ToDrain 0 end) s') s.
Proof.
  revert c k chunk rest s. induction budget as [|budget IH]; intros c k chunk rest s Hr Hst Htcp; simpl.
  { wp_step. by eapply reading_wait. }
  destruct (Hr). wp_step. eapply wp_s5_conn_at; [done|]. wp_step. rewrite rd_socket0. apply wp_the.
  wp_step; [wp_step; by eapply reading_wait|]. wp_step. unfold raise_about. wp_step.
  assert (Hp0 : k_proto c ≠ 0) by (by rewrite Htcp).
  apply (wp_raise rec rec_ok _ []); [apply inv_push; [eapply harmless_established; eauto|apply rd_top0]|].
  intros x s1 Hi1 Hf1 Hal. simpl in Hal. apply Z.leb_le in Hal. wp_step. apply wp_goes_on. intros c1 Hc1. simpl in Hc1. wp_step.
  destruct (f_conn _ _ _ Hf1 p c1 Hc1) as (c0 & Hc0 & Hsim). simpl in Hc0. simplify_eq. destruct (Hsim).
  rewrite rd_socket0 in sim_sockets. inversion sim_sockets as [k0 k1 (Hin1 & Hpd1 & _) E1 Hk1|]; subst k0. symmetry in Hk1.
  assert (Hst1 : k_state c1 = S5CONNS_ESTABLISHED) by (destruct sim_state as [E|[E _]]; congruence).
  assert (Htcp1 : k_proto c1 = S5_TCP) by congruence. rewrite <- sim_id. set (o := Answered (ERead (k_id c1) chunk) x).
  assert (Hs1 : calm (push o s1)) by (eapply (calm_frame [] _ s1); [exact Hf1|apply rd_top0]).
  assert (Hcl : step_ok p chunk (DoClose 0) (push o s1)).
  { split; [by apply loose_answered|]. split; [done|]. exists c1. split; [done|]. intros E. by rewrite Htcp1 in E. }
  wp_step; [by wp_step|]. wp_step.
  { wp_step. apply Z.eqb_eq in Heqb1 as ->. split; [split; [|done]|].
    - rewrite <- (put_id p c1 (push o s1)) by done. eapply (inv_took s1 p c1 k1 c1 k1); try done; [by rewrite set_socket_id|congruence].
    - exists c1, k1. split_and!; try done; [congruence|by rewrite Htcp1|by left]. }
  apply Z.ltb_ge in Heqb0. wp_step. eapply wp_drain; [done|done|congruence| |].
  - simpl. wp_step. set (k2 := set_ts_input _ k1). set (c2 := set_k_socket _ c1). set (s2 := put p c2 (push o s1)).
    assert (Hin2 : ts_input k1 = take (Z.to_nat x) chunk ++ ts_input k2).
    { simpl. rewrite Hin1, rd_input0, drop_app_le by lia. by rewrite app_assoc, take_drop. }
    assert (Ht2 : top s2).
    { split; [|apply calm_put; [done|left; simpl; by rewrite Htcp1]]. eapply inv_took; try done. simpl. congruence. }
    eapply (wp_peek p c2 k2); [apply lookup_insert_eq|done|simpl; congruence| |].
    + intros y [-> | ->]; wp_step.
      * split; [done|]. exists c2, k2. split_and!; try done; [apply lookup_insert_eq|simpl; congruence|simpl; by rewrite Htcp1|by left].
      * split; [apply inv_loose, Ht2|]. split; [apply Ht2|]. exists c2. split; [apply lookup_insert_eq|]. intros E. simpl in E. by rewrite Htcp1 in E.
    + intros data rest' Hd. eapply eff_wp_mono; [eapply (IH c2 k2 data rest')|].
      * split; try done; [by apply top_push|apply lookup_insert_eq|simpl; congruence|simpl; by rewrite Htcp1| |].
        -- intros E. simpl in E. by rewrite Htcp1 in E.
        -- simpl. apply elem_of_app. right. by apply list_elem_of_singleton.
      * done.
      * done.
      * intros [error|] s3 H3; [done|]. destruct H3 as (H3 & c3 & k3 & ? & ? & ? & ? & _). split; [done|].
        exists c3, k3. split_and!; try done. by left.
  - intros _. simpl. wp_step. rewrite (set_socket_id c1 k1) by done. by rewrite put_id.
Qed.

Lemma wp_read_chunk p c k chunk rest s :
  reading p c k chunk rest s → wps (read_chunk rec p chunk) (step_ok p chunk) s.
Proof.
  intros Hr. destruct (Hr). unfold read_chunk. wp_step. eapply wp_s5_conn_at; [done|].
  assert (Hcl : step_ok p chunk (DoClose 0) s).
  { split; [apply inv_loose, rd_top0|]. split; [apply rd_top0|]. by exists c. }
  destruct (k_state c) eqn:Hst.
  - by eapply wp_read_auth_request.
  - by eapply wp_read_username_password.
  - by eapply wp_read_request.
  - by wp_step.
  - by wp_step.
  - wp_step. destruct (conn_socket _ _ _ _ (proj1 rd_top0) rd_conn0 rd_proto0) as [[Hp|Hp] _].
    + destruct (i_assoc _ _ (proj1 rd_top0) p c) as [r Hrl]; [done..|]. by rewrite rd_plain0 in Hrl.
    + eapply eff_wp_mono; [by eapply wp_read_established|]. intros [error|] s' Hs'; by wp_step.
  - wp_step. split; [done|]. exists c, k. split_and!; try done. right. exists rest. split_and!; try done.
    + eapply reading_taken; [done|]. by rewrite Hst.
    + by rewrite Hst.
Qed.

(** ** The end of an association *)

Lemma inv_without_relay s r rel p c :
  inv [] s → l_relays s !! r = Some rel → r_tcp_conn rel = Some p → l_conns s !! p = Some c →
  l_relay_by_id s !! u32 (k_id c) = Some r → (∀ t, r_table rel = Some t → t = ∅) → k_proto c = 0 →
  inv [] (without_relay r p c s).
Proof.
  intros [] Hr Htc Hc Hrb He Hp. split; simpl.
  - by eapply heap_ok_without_relay.
  - intros q d [_ Hq]%lookup_delete_Some. exact (i_told q d Hq).
  - done.
  - by intros q d ?%elem_of_nil.
  - done.
  - intros q d [Hne Hq]%lookup_delete_Some H1 H2. rewrite lookup_delete_ne; [by eapply i_assoc|]. intros E. apply Hne.
    destruct (h_conn s i_heap p c Hc) as [H3 _], (h_conn s i_heap q d Hq) as [H4 _]. rewrite E in H3. congruence.
Qed.

(** The relay of an association while its connections end. *)
Record ending r p c (keys : list (A * address)) s0 s : Prop := {
  en_inv : inv [] s;
  en_stopping : l_stopping s = l_stopping s0;
  en_by_id : l_relay_by_id s = l_relay_by_id s0;
  en_conn : l_conns s !! p = Some c;
  en_sub : ∀ q d, l_conns s !! q = Some d → ∃ d0, l_conns s0 !! q = Some d0 ∧ sim d0 d;
  en_relay : ∃ rel, l_relays s !! r = Some rel ∧ r_tcp_conn rel = Some p ∧ (keys ≠ [] → is_Some (r_table rel))
    ∧ ∀ t key q, r_table rel = Some t → t !! key = Some q → key ∈ keys;
}.

Lemma wp_end_relay_conn r p c key keys s0 s error :
  ending r p c (key :: keys) s0 s → k_proto c = 0 →
  wps (q ← relay_conn r key;
       match q with
       | None => skip
       | Some q => d ← conn_at q; _ ← raise_closed rec (k_id d) error; destroy_connection q
       end) (λ _ s', ending r p c keys s0 s') s.
Proof.
  intros [Hi Hst Hrb Hc Hsub (rel & Hr & Htc & Hsome & Hkeys)] Hp0. destruct Hsome as [t Ht]; [done|].
  unfold relay_conn. wp_step. wp_step. eapply wp_relay_at; [done|]. wp_step. rewrite Ht. apply wp_the. wp_step.
  destruct (t !! key) as [q|] eqn:Hq.
  - destruct (h_relay s (i_heap _ _ Hi) r rel Hr) as (_ & _ & Htab). destruct (Htab t key q Ht Hq) as (d & Hd & Hu & Hrd & <-).
    assert (Hne : q ≠ p) by (intros ->; simplify_eq; by rewrite Hu in Hp0).
    wp_step. eapply wp_s5_conn_at; [done|].
    eapply (wp_end rec rec_ok [q] [] s q d); [done..|apply not_elem_of_nil|by rewrite Hu|left; by apply list_elem_of_singleton|].
    intros s' Hi' Hf' Hgone Hkey. split; [done|by rewrite (f_stopping _ _ _ Hf')|by rewrite (f_relay_by_id _ _ _ Hf')|..].
    + apply (f_keep _ _ _ Hf' p c); [done|by rewrite list_elem_of_singleton|]. left.
      apply (tc_unannounced _ _ _ (i_told _ _ Hi p c Hc)). by left.
    + intros q' d' Hq'. destruct (f_conn _ _ _ Hf' q' d' Hq') as (d0 & Hd0 & Hs0).
      destruct (Hsub q' d0 Hd0) as (d1 & Hd1 & Hs1). exists d1. split; [done|]. by etrans.
    + pose proof (f_relay _ _ _ Hf' r) as Hfr. rewrite Hr in Hfr. inversion Hfr as [x rel' (_ & Htc' & Htt) E1 E2|]; subst x.
      exists rel'. rewrite Ht in Htt. inversion Htt as [x t' Hsub' E3 E4|]; subst x. split_and!; [done|congruence|done|].
      intros t'' key' q' [= <-] Hk'. assert (Hk : t !! key' = Some q') by (by eapply lookup_weaken).
      specialize (Hkeys t key' q' Ht Hk). apply elem_of_cons in Hkeys as [->|?]; [|done].
      symmetry in E2, E4. by rewrite (Hkey r Hrd Hu rel' t' E2 E4) in Hk'.
  - wp_step. split; try done. exists rel. split_and!; try done. intros t' key' q' Ht' Hk'. simplify_eq.
    specialize (Hkeys t key' q' Ht Hk'). apply elem_of_cons in Hkeys as [->|?]; [congruence|done].
Qed.

Lemma wp_terminate p c r error s (Q : unit → listener → Prop) :
  inv [] s → l_conns s !! p = Some c → k_proto c = 0 → l_relay_by_id s !! u32 (k_id c) = Some r →
  (∀ s', inv [] s' → l_stopping s' = l_stopping s → l_relay_by_id s' = delete (u32 (k_id c)) (l_relay_by_id s) →
     (∀ q d, l_conns s' !! q = Some d → ∃ d0, l_conns s !! q = Some d0 ∧ sim d0 d) → Q tt s') →
  wps (terminate_udp_association rec p error) Q s.
Proof.
  intros Hi Hc Hp0 Hrb H. unfold terminate_udp_association. wp_step. eapply wp_s5_conn_at; [done|]. do 3 wp_step.
  unfold is_udp_association_tcp_connection at 1. rewrite Hp0, Hrb. simpl.
  do 3 wp_step. rewrite Hrb. destruct (h_relay_by_id s (i_heap _ _ Hi) _ _ Hrb) as (rel & p' & c' & Hr & Htc & Hc' & Hid).
  assert (p' = p) as ->.
  { destruct (h_conn s (i_heap _ _ Hi) p' c' Hc') as [H1 _], (h_conn s (i_heap _ _ Hi) p c Hc) as [H2 _]. rewrite Hid in H1. congruence. }
  simplify_eq.
  wp_step. unfold relay_keys. wp_step. eapply wp_relay_at; [done|].
  assert (Hloop : ∀ keys, ending r p c keys s s → wps (for_each (λ key,
            q ← relay_conn r key;
            match q with
            | None => skip
            | Some q => d ← conn_at q; _ ← raise_closed rec (k_id d) error; destroy_connection q
            end) keys) (λ _ s', ending r p c [] s s') s).
  { intros keys Hk. apply (wp_for_each known_fault _ (λ keys s', ending r p c keys s s')); [done|].
    intros key ks s1 H1. by apply wp_end_relay_conn. }
  assert (Hrest : ∀ keys, ending r p c keys s s → wps (_ ← for_each (λ key,
            q ← relay_conn r key;
            match q with
            | None => skip
            | Some q => d ← conn_at q; _ ← raise_closed rec (k_id d) error; destroy_connection q
            end) keys;
      relay ← relay_at r;
      _ ← when (r_event relay) (_ ← sys SysClose; skip);
      p ← the (r_tcp_conn relay);
      d ← conn_at p;
      _ ← modify (λ s, set_l_relay_by_id (delete (u32 (k_id d)) (l_relay_by_id s)) s);
      _ ← upd_relay r (mkRelay false None None);
      _ ← destroy_connection p;
      modify (λ s, set_l_relays (delete r (l_relays s)) s)) Q s).
  { intros keys Hk. wp_step. eapply eff_wp_mono; [by apply Hloop|]. intros _ s1 [Hi1 Hst1 Hrb1 Hc1 Hsub1 (rel1 & Hr1 & Htc1 & _ & Hk1)].
    wp_step. eapply wp_relay_at; [done|]. destruct (h_relay s1 (i_heap _ _ Hi1) r rel1 Hr1) as (-> & _). do 2 wp_step; [|done].
    intros _. wp_step. apply wp_sys. intros x. do 2 wp_step. rewrite Htc1. apply wp_the. wp_step. eapply wp_s5_conn_at; [done|]. do 3 wp_step.
    unfold upd_relay. wp_step. eapply wp_relay_at; [done|]. do 2 wp_step.
    destruct (conn_socket _ _ _ _ Hi1 Hc1) as [_ (k & Hk' & _)]; [by rewrite Hp0|].
    unfold destroy_connection, del_connection. wp_step. eapply wp_s5_conn_at; [done|]. rewrite Hp0, Hk'. do 2 wp_step. wp_step. simpl. do 2 wp_step.
    apply wp_emit. do 2 wp_step. apply H; simpl; [|done|by rewrite Hrb1|].
    - set (s2 := push (Sys SysClose) s1). assert (Hi2 : inv [] s2) by (by apply inv_push).
      assert (Hw : inv [] (push (SockDestroyed (k_id c) (ts_rst k)) (without_relay r p c s2))).
      { apply inv_push; [done|]. eapply (inv_without_relay s2 r rel1); try done; [simpl; by rewrite Hrb1|].
        intros t Ht. apply map_empty. intros key. destruct (t !! key) as [q|] eqn:E; [|done]. by destruct (not_elem_of_nil key (Hk1 t key q Ht E)). }
      eapply inv_same; [|exact Hw]. split_and!; try done. simpl. by rewrite delete_insert_eq.
    - intros q d [_ Hq]%lookup_delete_Some. by eapply Hsub1. }
  destruct (r_table rel) as [t|] eqn:Ht.
  - destruct (bool_decide _) eqn:E; [|apply eff_wp_env_fault]. apply bool_decide_eq_true in E as [Hdom _]. wp_step. apply Hrest.
    split; try done; [intros q d Hq; by exists d|]. exists rel. rewrite Ht. split_and!; try done.
    intros t' key q [= <-] Hk. apply elem_of_dom_2 in Hk. rewrite <- Hdom in Hk. by apply elem_of_list_to_set in Hk.
  - wp_step. apply Hrest. split; try done; [intros q d Hq; by exists d|]. exists rel. rewrite Ht. by split_and!.
Qed.

End Read.
