(* ===== verification/Socks5Runs.v ===== *)
(** * Runs of the SOCKS5 listener

    The handlers of sockets, relays and tasks, stopping, and every run from a new
    listener.  At the end the theorems about all runs. *)
From S2P Require Import Prelude Effects WireUtils Socks5Wire TcpSocket Socks5 Socks5Inv Socks5Safe Socks5Read.

Section Runs.
Context {A : Type} `{!SocketAddressOps A, !S5Env A}.
Context (fuel : nat).
Notation address := (Socks5ConnectionAddress A).
Notation listener := (Socks5Listener (A:=A)).
Notation conn := (Connection (A:=A)).
Implicit Types (s : listener) (c d : conn) (tr : list (S5Out A)) (p q r id : Z).

Notation wps := (wp known_fault).
Notation rec := (nested_call fuel).
Notation at_top := (λ _ s', top s').

#[local] Notation rec_ok := (wp_nested_call fuel).

(** ** Events of the sockets *)

Lemma assoc_relay s c :
  is_udp_association_tcp_connection c s = true → k_proto c = 0 ∧ ∃ r, l_relay_by_id s !! u32 (k_id c) = Some r.
Proof. intros [H1%Z.eqb_eq [r H2]%bool_decide_eq_true]%andb_true_iff. split; [done|]. by exists r. Qed.

Lemma wp_terminate_top p c error s :
  top s → l_conns s !! p = Some c → is_udp_association_tcp_connection c s = true →
  wps (terminate_udp_association rec p error) at_top s.
Proof.
  intros [Hi [Hst Hs]] Hc [Hp (r & Hr)]%assoc_relay. eapply wp_terminate; [done..|]. intros s' Hi' Hst' _ Hsub.
  split; [done|]. split; [congruence|]. by eapply settled_sim.
Qed.

Lemma wp_close_top p c error s :
  top s → l_conns s !! p = Some c → is_udp_association_tcp_connection c s = false → wps (close_label rec p error) at_top s.
Proof. intros [Hi Hs] Hc Ha. eapply wp_close_label; [by apply inv_loose|done..|by apply plain_assoc]. Qed.

(** The handler of an error: the association ends, or the connection. *)
Lemma wp_end_top p c error error' s :
  top s → l_conns s !! p = Some c →
  wps (if is_udp_association_tcp_connection c s then terminate_udp_association rec p error else close_label rec p error') at_top s.
Proof. intros Ht Hc. wp_step; [by eapply wp_terminate_top|by eapply wp_close_top]. Qed.

Lemma wp_on_readable p c k s :
  top s → l_conns s !! p = Some c → k_socket c = Some k → k_proto c ≠ S5_UDP → wps (on_readable rec p) at_top s.
Proof.
  intros Ht Hc Hk Hp. unfold on_readable. destruct (conn_socket _ _ _ _ (proj1 Ht) Hc Hp) as [_ (k' & Hk' & Hpd)]. simplify_eq.
  wp_step. eapply wp_peek; [done..| |].
  - intros x Hx. wp_step. eapply wp_s5_conn_at; [done|]. do 2 wp_step. destruct Hx as [-> | ->]; [by wp_step|by apply wp_end_top].
  - intros data rest Hin. set (s1 := push _ s). assert (Ht1 : top s1) by (by apply top_push).
    wp_step. eapply wp_s5_conn_at; [done|]. do 2 wp_step. wp_step; [by eapply wp_terminate_top|].
    wp_step. eapply eff_wp_mono; [eapply (wp_read_chunk fuel p c k data rest)|].
    + split; try done; [by apply plain_assoc|]. simpl. apply elem_of_app. right. by apply list_elem_of_singleton.
    + intros step s2 H2. by apply wp_finish_read.
Qed.

Lemma frame_relay gone s s' r rel :
  frame gone s s' → l_relays s !! r = Some rel →
  ∃ rel', l_relays s' !! r = Some rel' ∧ r_event rel' = r_event rel ∧ r_tcp_conn rel' = r_tcp_conn rel
    ∧ option_Forall2 shrinks (r_table rel) (r_table rel').
Proof.
  intros Hf Hr. pose proof (f_relay _ _ _ Hf r) as H. rewrite Hr in H. inversion H as [x rel' (H1 & H2 & H3) E1 E2|]; subst x. by exists rel'.
Qed.

(** The connections in the table of a relay. *)
Lemma relay_conn_at s r rel t key q :
  inv [] s → l_relays s !! r = Some rel → r_table rel = Some t → t !! key = Some q →
  ∃ d, l_conns s !! q = Some d ∧ k_proto d = S5_UDP.
Proof.
  intros Hi Hr Ht Hq. destruct (h_relay s (i_heap _ _ Hi) r rel Hr) as (_ & _ & Htab).
  destruct (Htab t key q Ht Hq) as (d & Hd & Hu & _). by exists d.
Qed.

Lemma wp_flush_udp r rel s :
  top s → l_relays s !! r = Some rel → wps (flush_udp rec r) at_top s.
Proof.
  intros Ht Hr. unfold flush_udp, relay_keys. do 2 wp_step. eapply wp_relay_at; [done|].
  destruct (r_table rel) as [t|] eqn:Htab; [|wp_step; simpl; by wp_step]. destruct (bool_decide _); [|apply eff_wp_env_fault]. wp_step.
  eapply eff_wp_mono; [apply (wp_for_each known_fault _ (λ _ s', top s' ∧ ∃ rel' t', l_relays s' !! r = Some rel' ∧ r_table rel' = Some t'));
    [split; [done|]; by exists rel, t|]|by intros _ s' [H _]].
  clear s rel t Ht Hr Htab. intros key _ s [Ht (rel & t & Hr & Htab)]. unfold relay_conn. do 2 wp_step. eapply wp_relay_at; [done|].
  wp_step. rewrite Htab. apply wp_the. wp_step.
  destruct (t !! key) as [q|] eqn:Hq; [|wp_step; split; [done|by exists rel, t]].
  destruct (relay_conn_at _ _ _ _ _ _ (proj1 Ht) Hr Htab Hq) as (d & Hd & Hu). wp_step. eapply wp_s5_conn_at; [done|].
  wp_step; [|intros _; split; [done|by exists rel, t]]. intros [Hst%bool_decide_eq_true _]%andb_true_iff. wp_step.
  assert (Hh : harmless (l_out s) (Raised (EDataSent (k_id d) (k_sent d)))).
  { eapply harmless_established; [done..|by rewrite Hu|right; by eexists]. }
  apply (wp_raise_about rec rec_ok q d _ []); [done..|apply Ht|done|]. intros x s1 d1 Hi1 _ Hf Hd1 Hsim. eapply wp_upd; [done|].
  assert (Hs1 : sim d1 (set_k_sent 0 d1)) by (split; try done; by left). split; [split|].
  - by eapply inv_put_same.
  - apply calm_put; [by eapply calm_frame, Ht|]. right. simpl. destruct (sim_state _ _ Hsim) as [E|[E _]]; rewrite E in *; congruence.
  - destruct (frame_relay _ _ _ _ _ Hf Hr) as (rel' & Hr' & _ & _ & Ht'). rewrite Htab in Ht'.
    inversion Ht' as [x1 t' _ E1 E2|]; subst x1. by exists rel', t'.
Qed.

(** A connection of TCP is accepted. *)
Lemma wp_accept_tcp p c s :
  top s → l_conns s !! p = Some c → k_proto c = S5_TCP → k_state c = S5CONNS_WAITING_ACCEPT →
  wps (raise_about rec p (EAccepted (k_id c)) ≫= λ _, upd p (set_k_state S5CONNS_ESTABLISHED)) at_top s.
Proof.
  intros Ht Hc Htcp Hst. destruct (Ht) as [Hi Hcalm]. pose proof (told_top s p c Ht Hc) as [Hg Ho Ha _ _ Hau _ _ _ _].
  assert (Hp0 : k_proto c ≠ 0) by (by rewrite Htcp). rewrite Hst in Ha, Hau.
  wp_step. apply (wp_raise_about rec rec_ok p c _ []); [|done..|].
  { split; [done|]. split; [intros e [= <-]; split; [by split; auto|done]|]. by intros id [= <-]. }
  intros x s1 c1 Hi1 Hf1 Hf Hc1 Hsim. eapply wp_upd; [done|].
  assert (Htcp1 : k_proto c1 = S5_TCP) by (by rewrite (sim_proto _ _ Hsim)).
  destruct (conn_socket _ _ _ _ Hi1 Hc1) as [_ Hsk]; [by rewrite Htcp1|].
  assert (Hst1 : k_state c1 = S5CONNS_WAITING_ACCEPT) by (destruct (sim_state _ _ Hsim) as [E|[E _]]; congruence).
  destruct (frame_trace _ _ _ (k_id c) Hf) as (Ha1 & _ & _ & _ & _ & _ & Hau1).
  destruct (frame_trace _ _ _ (k_id c) Hf1) as (_ & _ & _ & _ & _ & Hac & _).
  split; [|apply calm_put; [by eapply calm_frame, Hcalm|by right]].
  eapply inv_put; [done| | |done|by intros [E _]; simpl in E; rewrite Htcp1 in E].
  - split; [done|]. rewrite Htcp1. simpl. split_and!; [by right|done|by rewrite Hst1].
  - apply told_state; [apply (i_told _ _ Hi1 p c1 Hc1)|..]; rewrite ?(sim_id _ _ Hsim), ?Htcp1; try done.
    + intros _ _. rewrite Ha1. by apply Ha.
    + intros _ _. apply Hac. simpl. rewrite accepted_app. simpl. rewrite Z.eqb_refl. apply orb_true_r.
    + intros _ _. apply Hau1, Hau; [by rewrite Htcp|done].
Qed.

Lemma wp_on_write_flush p c s :
  top s → l_conns s !! p = Some c → wps (on_write_flush rec p) at_top s.
Proof.
  intros Ht Hc. unfold on_write_flush. wp_step. eapply wp_s5_conn_at; [done|]. do 2 wp_step.
  destruct (is_udp_association_tcp_connection c s) eqn:Ea.
  - destruct (assoc_relay _ _ Ea) as (Hp & r & Hr). destruct (k_state c) eqn:Hst; try by wp_step.
    + do 2 wp_step. rewrite Hr. destruct (h_relay_by_id s (i_heap _ _ (proj1 Ht)) _ _ Hr) as (rel & _ & _ & Hrl & _). by eapply wp_flush_udp.
    + by eapply wp_terminate_top.
  - wp_step; [|done]. intros Htcp%Z.eqb_eq. destruct (k_state c) eqn:Hst; try by wp_step.
    + by apply wp_accept_tcp.
    + by eapply wp_close_top.
Qed.

Lemma wp_sock_handler id p c k what s :
  top s → l_by_id s !! u32 id = Some p → l_conns s !! p = Some c → k_socket c = Some k → k_proto c ≠ S5_UDP →
  wps (sock_handler rec id what) at_top s.
Proof.
  intros Ht Hb Hc Hk Hp. unfold sock_handler, find_connection. do 2 wp_step. rewrite Hb. wp_step. eapply wp_s5_conn_at; [done|]. do 2 wp_step.
  destruct what as [|error|bytes|].
  - by eapply wp_on_readable.
  - by apply wp_end_top.
  - wp_step; [|done]. intros [Ha%negb_true_iff Hst%bool_decide_eq_true]%andb_true_iff. wp_step.
    apply (wp_raise_plain rec rec_ok _ []); [|done|apply Ht|].
    + eapply harmless_established; [done..| |right; by eexists]. intros E.
      destruct (i_assoc _ _ (proj1 Ht) p c Hc E Hst) as [r Hr]. by rewrite (plain_assoc s c Ha E) in Hr.
    + intros x s' Hi' _ Hf. wp_step. split; [done|]. by eapply calm_frame, Ht.
  - by eapply wp_on_write_flush.
Qed.

(** ** New connections *)

(** An id nothing is known of. *)
Record fresh id s : Prop := {
  fr_generated : id ∈ generated_ids (l_out s);
  fr_announced : announced id (l_out s) = false;
  fr_ended : ended id (l_out s) = false;
  fr_got : got id (l_out s) = [];
  fr_drained : drained id (l_out s) = [];
  fr_taken : taken id (l_out s) = [];
  fr_by_id : l_by_id s !! u32 id = None;
}.

(** Entries that name no connection and no id that is generated. *)
Lemma inv_answered cl s o :
  inv cl s → mentions o = None → (∀ e, o ≠ Raised e) →
  (∀ x, o = Answered EGenerateId x → existsb (generated x) (l_out s) = false) → inv cl (push o s).
Proof.
  intros [] Hm Hr Hg. split; [..|done]; simpl.
  - by eapply heap_ok_same, i_heap.
  - intros p c Hc. apply told_other; [by rewrite Hm|]. by apply i_told.
  - apply trace_ok_snoc; [done| |done|by rewrite Hm]. intros e He. by destruct (Hr e).
  - intros p c Hp Hc. by rewrite ended_app, (i_closing p c Hp Hc).
  - by apply tasks_ok_app.
Qed.

Lemma generated_in id x tr : x ∈ generated_ids tr → u32 x = u32 id → existsb (generated id) tr = true.
Proof.
  intros (o & Ho & Hx)%list_elem_of_omap E. apply existsb_exists. exists o. split; [by apply list_elem_of_In|].
  destruct o as [|[]| | | | | | | | |]; simplify_eq/=. by apply Z.eqb_eq.
Qed.

Lemma wp_generate_id s (Q : Z → listener → Prop) :
  top s →
  (∀ id s1, top (push (Answered EGenerateId id) s1) → frame [] s s1 → fresh id (push (Answered EGenerateId id) s1) →
     Q id (push (Answered EGenerateId id) s1)) →
  wps (generate_id rec) Q s.
Proof.
  intros [Hi Hs] H. unfold generate_id. apply (wp_raise rec rec_ok _ []).
  { apply inv_push; [|done]. split; [done|]. split; [|done]. intros e [= <-]. done. }
  intros id s1 Hi1 Hf1 E1%negb_true_iff.
  assert (Hf : frame [] s s1) by (eapply s5_frame_trans; [by apply (frame_push [] (Raised EGenerateId))|done]).
  assert (Hn : id ∉ generated_ids (l_out s1)).
  { intros Hin. by rewrite (generated_in id id (l_out s1)) in E1. }
  destruct (fresh_facts id (l_out s1) (i_trace _ _ Hi1) Hn) as (Ha & He & Hg & Hd & Htk).
  apply H; [split|done|split]; simpl; rewrite ?generated_ids_app, ?announced_app, ?ended_app, ?got_app, ?drained_app, ?taken_app, ?Ha, ?He, ?Hg, ?Hd, ?Htk; try done.
  - apply inv_answered; try done. by intros x [= <-].
  - exact (calm_frame _ _ _ Hf Hs).
  - apply elem_of_app. right. by apply list_elem_of_singleton.
  - destruct (l_by_id s1 !! u32 id) as [p|] eqn:Hp; [|done]. destruct (h_by_id s1 (i_heap _ _ Hi1) _ _ Hp) as (c & Hc & Hu).
    by rewrite (generated_in id (k_id c) (l_out s1) (tc_generated _ _ _ (i_told _ _ Hi1 p c Hc)) Hu) in E1.
Qed.

Lemma fresh_sys id s s' : pushed_sys s s' → fresh id s → fresh id s'.
Proof.
  intros [l ->] []. assert (Hq : Forall (λ o, quiet (A:=A) o = true) (Sys <$> l)) by (apply Forall_fmap, Forall_true; done).
  destruct (quiet_facts id _ Hq) as (Ha & Hg & Hd & Ht & Hi).
  assert (He : ended (A:=A) id (Sys <$> l) = false) by (clear; by induction l).
  split; simpl; rewrite ?generated_ids_app, ?announced_app, ?ended_app, ?got_app, ?drained_app, ?taken_app, ?Ha, ?Hg, ?Hd, ?Ht, ?Hi, ?He,
    ?app_nil_r, ?orb_false_r; done.
Qed.

Lemma calm_sys s s' : pushed_sys s s' → calm s → calm s'.
Proof. by intros [l ->]. Qed.

(** A connection nothing is known of. *)
Lemma told_fresh s c :
  fresh (k_id c) s → k_state c = S5CONNS_IDLE → k_proto c ≠ S5_TCP → (∀ k, k_socket c = Some k → ts_input k = []) →
  told (l_out s) true c.
Proof.
  intros [] Hst Hp Hk. split; rewrite ?Hst; try done.
  - intros _ k Hs. rewrite fr_got0, fr_drained0, fr_taken0. by rewrite (Hk k Hs).
  - by rewrite fr_announced0.
Qed.

Lemma inv_with_new s s' c :
  inv [] s → heap_ok s' → fresh (k_id c) s → k_state c = S5CONNS_IDLE → k_proto c ≠ S5_TCP →
  (∀ k, k_socket c = Some k → ts_input k = []) →
  l_conns s' = <[l_next s := c]> (l_conns s) → l_out s' = l_out s → l_deferred s' = l_deferred s → l_with_pending s' = l_with_pending s →
  l_relay_by_id s' = l_relay_by_id s →
  inv [] s'.
Proof.
  intros [] Hh Hfr Hst Hp Hk Hc Ho Hd Hw Hr. split; rewrite ?Ho, ?Hd, ?Hw, ?Hr, ?Hc; try done.
  - intros q d. destruct (decide (q = l_next s)) as [->|Hne].
    + rewrite lookup_insert_eq. intros [= <-]. by apply told_fresh.
    + rewrite lookup_insert_ne by done. apply i_told.
  - by intros q d ?%elem_of_nil.
  - intros q d. destruct (decide (q = l_next s)) as [->|Hne].
    + rewrite lookup_insert_eq. intros [= <-]. by rewrite Hst.
    + rewrite lookup_insert_ne by done. apply i_assoc.
Qed.

Lemma inv_next cl s : inv cl s → inv cl (set_l_next (l_next s + 1) s).
Proof.
  intros []. split; try done. destruct i_heap. split; try done. intros p Hp. simpl. specialize (h_next p Hp). lia.
Qed.

Lemma wp_on_accept s : top s → wps (on_accept rec) at_top s.
Proof.
  intros Ht. unfold on_accept. wp_step. apply wp_generate_id; [done|]. intros id s0 Ht1 _ Hfr. set (s1 := push _ s0) in *. clearbody s1.
  clear s s0 Ht. unfold new_conn. repeat wp_step. apply wp_all_zero. intros ok s2 Hs2. set (c := idle_connection id) in *.
  destruct Hs2 as [l Hs2]. simpl in Hs2. set (s3 := set_l_out (l_out s1 ++ (Sys <$> l)) s1).
  assert (Hp3 : pushed_sys s1 s3) by (by exists l). destruct (Ht1) as [Hi1 Hc1].
  assert (Hi3 := inv_pushed_sys _ _ _ Hp3 Hi1). assert (Hfr3 := fresh_sys _ _ _ Hp3 Hfr). assert (Hc3 := calm_sys _ _ Hp3 Hc1).
  assert (E2 : s2 = set_l_next (l_next s3 + 1) (put (l_next s3) c s3)) by (by rewrite Hs2).
  assert (En : l_next s1 = l_next s3) by done. rewrite En. clear Hs2 Hp3 En. clearbody s3. subst s2.
  destruct (fresh_pointer s3 (i_heap _ _ Hi3)) as [Hf1 Hf2]. destruct ok.
  - wp_step. eapply wp_upd; [apply lookup_insert_eq|]. unfold put_connection. do 2 wp_step. 
    eapply wp_upd_socket; [simpl; apply lookup_insert_eq|done|].
    set (c' := set_k_socket _ _). assert (Hw : inv [] (with_conn id c' s3)).
    { eapply (inv_with_new s3 _ c'); try done; [|by intros k [= <-]]. apply heap_ok_add; try done; [apply Hi3|apply Hfr3|by left|].
      by eexists. }
    split; [|split; [apply Hc3|]].
    + eapply inv_same; [|exact Hw]. split_and!; try done. simpl. by rewrite !insert_insert_eq.
    + intros q d. simpl. rewrite !insert_insert_eq. destruct (decide (q = l_next s3)) as [->|Hne].
      * rewrite lookup_insert_eq. by intros [= <-].
      * rewrite lookup_insert_ne by done. apply Hc3.
  - wp_step. apply wp_sys. intros x. unfold destroy_connection, del_connection. wp_step. eapply wp_s5_conn_at; [simpl; apply lookup_insert_eq|].
    do 4 wp_step; [done|]. intros _. simpl. do 3 wp_step. set (s4 := set_l_conns _ _).
    assert (E : l_conns s4 = l_conns s3) by (simpl; by rewrite delete_insert_id).
    assert (Eb : l_by_id s4 = l_by_id s3) by (simpl; apply delete_id, Hfr3).
    assert (Hi4 : inv [] (push (Sys SysClose) s3)) by (by apply inv_push).
    split; [|split; [apply Hc3|]].
    + eapply inv_same; [|apply (inv_next _ _ Hi4)]. by split_and!.
    + intros q d. rewrite E. apply Hc3.
Qed.

(** ** Datagrams *)

Lemma inv_table s r rel : inv [] s → l_relays s !! r = Some rel → inv [] (set_table r rel (default ∅ (r_table rel)) s).
Proof. intros [] Hr. split; try done. by apply heap_ok_table. Qed.

(** A datagram of an association of an authenticated client is being handled. *)
Definition from_client s : Prop := ∃ tid, last_datagram (l_out s) = Some tid ∧ authed tid (l_out s).

Lemma from_client_app s s' tr : from_client s → l_out s' = l_out s ++ tr → datagrams tr = [] → from_client s'.
Proof.
  intros (tid & H1 & H2) Ho Hd. exists tid. unfold last_datagram. rewrite Ho, datagrams_app, Hd, app_nil_r. split; [done|]. by apply authed_app.
Qed.

Definition has_udp (x : option (Z * nat)) s : Prop :=
  ∀ q n, x = Some (q, n) → ∃ d, l_conns s !! q = Some d ∧ k_proto d = S5_UDP.

Lemma wp_process_udp_header r rel data src s (Q : option (Z * nat) → listener → Prop) :
  top s → l_relays s !! r = Some rel → from_client s → (∀ x s', top s' → has_udp x s' → from_client s' → Q x s') →
  wps (process_udp_header rec r data src) Q s.
Proof.
  intros [Hi Hcalm] Hr Hcl H. unfold process_udp_header.
  destruct (udp_header_total (A:=A) data) as (step & -> & Hdst). destruct step as [e|dst app size]; [by wp_step; apply H|].
  destruct (Hdst dst app size eq_refl) as [a Ha]. wp_step. eapply wp_relay_at; [done|]. wp_step. unfold upd_relay. wp_step. eapply wp_relay_at; [done|].
  wp_step. set (t := default ∅ (r_table rel)). set (s1 := set_l_relays _ s). assert (Ht1 : top s1) by (split; [by apply inv_table|done]).
  assert (Hr1 : l_relays s1 !! r = Some (mkRelay (r_event rel) (r_tcp_conn rel) (Some t))) by apply lookup_insert_eq.
  assert (Hcl1 : from_client s1) by exact Hcl. clearbody s1. destruct (t !! (src, dst)) as [q|] eqn:Hq.
  { wp_step. apply H; [done| |done]. intros q' n [= <- _]. by eapply relay_conn_at; [apply Ht1|..]. }
  wp_step. apply wp_generate_id; [done|]. intros id s0 Ht2 Hf Hfr.
  destruct (frame_relay _ _ _ _ _ Hf Hr1) as (rel' & Hr' & He & Htc & Htab). simpl in *. inversion Htab as [x t' Hsub E1 E2|]. subst x.
  set (s2 := push _ s0) in *. assert (Hr2 : l_relays s2 !! r = Some rel') by done.
  assert (Hcl2 : from_client s2).
  { destruct (f_out _ _ _ Hf) as (tr & Ho & Hqt). eapply (from_client_app s1 s2 (tr ++ [_])); [done|simpl; by rewrite Ho, <- app_assoc|].
    rewrite datagrams_app, quiet_datagrams by done. done. }
  clearbody s2.
  clear s0 Hf Hr' s1 Ht1 Hr1 Hcl1 Htab. unfold new_conn. repeat wp_step. eapply wp_relay_at; [done|]. wp_step. rewrite <- E2. apply wp_the. wp_step.
  unfold upd_relay. wp_step. eapply wp_relay_at; [done|]. wp_step. unfold find_connection. do 3 wp_step.
  apply wp_assert. { simpl. by rewrite (fr_by_id _ _ Hfr). }
  unfold put_connection. do 2 wp_step. wp_step. destruct Ht2 as [Hi2 Hc2].
  set (c := mkS5 S5CONNS_IDLE id None src dst S5_UDP app false 0 [] (Some r)).
  apply H; [split; [|split; [apply Hc2|]]| |].
  - eapply (inv_with_new s2 _ c); try done. eapply heap_ok_same; [..|eapply (heap_ok_add_udp id c s2 r rel' t' a)]; try done.
    + apply Hi2.
    + apply Hfr.
    + destruct (t' !! _) as [q|] eqn:Hq'; [|done]. apply (lookup_weaken _ t) in Hq'; [|done]. simpl in Hq'. by rewrite Hq in Hq'.
  - intros q d. simpl. destruct (decide (q = l_next s2)) as [->|Hne].
    + rewrite lookup_insert_eq. by intros [= <-].
    + rewrite lookup_insert_ne by done. apply Hc2.
  - intros q n [= <- _]. exists c. simpl. by rewrite lookup_insert_eq.
  - exact Hcl2.
Qed.

(** The owner took what it was shown of a connection without socket. *)
Lemma inv_answered_read cl s id data x :
  inv cl s → id ∈ generated_ids (l_out s) → (∀ q d, l_conns s !! q = Some d → k_id d = id → k_socket d = None) →
  inv cl (push (Answered (ERead id data) x) s).
Proof.
  intros [] Hg Hs. split; [..|done]; simpl.
  - by eapply heap_ok_same, i_heap.
  - intros p c Hc. destruct (decide (k_id c = id)) as [Hid|Hne]; [|apply told_other; [by intros [= E]|by apply i_told]].
    specialize (Hs p c Hc Hid). destruct (i_told p c Hc). split; rewrite ?udp_announced_app, ?generated_ids_app, ?announced_app, ?ended_app,
      ?accepted_app, ?app_nil_r, ?orb_false_r; auto; try congruence. intros H1 H2. by apply authed_app, tc_authed.
  - apply trace_ok_snoc; [done..|]. by intros id' [= <-].
  - intros p c Hp Hc. by rewrite ended_app, (i_closing p c Hp Hc).
  - by apply tasks_ok_app.
Qed.

Lemma udp_socket s p c : inv [] s → l_conns s !! p = Some c → k_proto c = S5_UDP → k_socket c = None ∧ udp_state (k_state c) = true.
Proof.
  intros Hi Hc Hu. destruct (h_conn s (i_heap _ _ Hi) p c Hc) as [_ Hk]. unfold kind_ok in Hk. rewrite Hu in Hk. simpl in Hk. by destruct Hk as (? & ? & _).
Qed.

Definition grows s s' : Prop := ∃ tr, l_out s' = l_out s ++ tr.

Lemma grows_trans s1 s2 s3 : grows s1 s2 → grows s2 s3 → grows s1 s3.
Proof. intros [t1 H1] [t2 H2]. exists (t1 ++ t2). by rewrite H2, H1, app_assoc. Qed.

(** Data of a connection of UDP is shown to the owner. *)
Lemma wp_raise_read p c data s (Q : Z → listener → Prop) :
  top s → l_conns s !! p = Some c → k_proto c = S5_UDP → accepted (k_id c) (l_out s) = true →
  (∀ x s', top s' → (∀ c', l_conns s' !! p = Some c' → sim c c') → grows s s' → Q x s') →
  wps (raise rec (ERead (k_id c) data)) Q s.
Proof.
  intros Ht Hc Hu Hac H. destruct (Ht) as [Hi Hcalm]. pose proof (told_top s p c Ht Hc) as Htc.
  assert (Hh : harmless (l_out s) (Raised (ERead (k_id c) data))).
  { split; [done|]. split; [|intros id [= <-]; apply Htc]. intros e [= <-]. split; [|done]. split; [done|]. by apply Htc. }
  apply (wp_raise rec rec_ok _ []); [by apply inv_push|]. intros x s1 Hi1 Hf1 _.
  assert (Hf : frame [] s s1) by (eapply s5_frame_trans; [by apply (frame_push [] (Raised (ERead (k_id c) data)))|done]).
  destruct (frame_trace _ _ _ (k_id c) Hf) as (_ & Hg1 & _).
  assert (Hs1 : ∀ c', l_conns s1 !! p = Some c' → sim c c').
  { intros c' Hc'. destruct (f_conn _ _ _ Hf p c' Hc') as (c0 & Hc0 & ?). by simplify_eq. }
  apply H; [split|done|].
  - apply inv_answered_read; [done|rewrite Hg1; apply Htc|]. intros q d Hd Hid. destruct (f_conn _ _ _ Hf q d Hd) as (d0 & Hd0 & Hsim).
    assert (q = p) as -> by (eapply (same_id s); [apply Hi|done..|]; by rewrite <- (sim_id _ _ Hsim)). simplify_eq.
    destruct (udp_socket s p c Hi Hc Hu) as [Hk _]. pose proof (sim_sockets _ _ Hsim) as Hsk. rewrite Hk in Hsk. by inversion Hsk.
  - exact (calm_frame _ _ _ Hf Hcalm).
  - destruct (f_out _ _ _ Hf) as (tr & Ho & _). exists (tr ++ [Answered (ERead (k_id c) data) x]). simpl. by rewrite Ho, app_assoc.
Qed.

Lemma inv_put_pending cl s p c packets :
  inv cl s → l_conns s !! p = Some c → inv cl (put p (set_k_pending packets c) s).
Proof.
  intros Hi Hc. eapply inv_put; [done| | |done|done].
  - split; [done|]. destruct (h_conn s (i_heap _ _ Hi) p c Hc) as [_ Hk]. unfold kind_ok in Hk. destruct (k_proto c =? S5_UDP) eqn:E.
    + apply Z.eqb_eq in E. by destruct Hk as (? & ? & _).
    + by destruct Hk.
  - eapply told_same; [by apply (i_told _ _ Hi p c)|done..|]. simpl. destruct (k_socket c); by constructor.
Qed.

Lemma wp_handle_udp_read p c data s :
  top s → l_conns s !! p = Some c → k_proto c = S5_UDP → from_client s → wps (handle_udp_read rec p data) at_top s.
Proof.
  intros Ht Hc Hu (tid & Hld & Hau). destruct (Ht) as [Hi Hcalm]. destruct (udp_socket s p c Hi Hc Hu) as [Hk Hust].
  unfold handle_udp_read. wp_step. eapply wp_s5_conn_at; [done|]. destruct (k_state c) eqn:Hst; try done.
  - wp_step. eapply wp_upd; [done|]. unfold raise_connect_request. wp_step. eapply wp_s5_conn_at; [apply lookup_insert_eq|]. wp_step.
    set (c1 := set_k_state _ _). apply (wp_raise rec rec_ok _ []).
    { eapply inv_announce; try done; [by rewrite Hst| |by right|].
      - split; [done|]. rewrite Hu. by simpl.
      - exists tid. unfold client_of. simpl. by rewrite Hu. }
    intros x s1 Hi1 Hf1 _. wp_step. split; [by apply inv_push|]. refine (calm_frame _ _ _ Hf1 _). apply (calm_put p c1); [done|by right].
  - eapply wp_upd; [done|]. split; [by eapply inv_put_pending|]. apply calm_put; [done|right]. simpl. by rewrite Hst.
  - by destruct (proj2 Hcalm p c Hc Hu).
  - wp_step; [|done]. intros _. wp_step. eapply wp_raise_read; [done..| |].
    + apply (tc_accepted _ _ _ (told_top s p c Ht Hc)); [by rewrite Hu|done].
    + intros x s' Ht' _ _. by wp_step.
Qed.

(** ** Packets that waited *)

Lemma same_u32 tr x y : trace_ok tr → x ∈ generated_ids tr → y ∈ generated_ids tr → u32 x = u32 y → x = y.
Proof.
  intros [_ Hu _]. induction (generated_ids tr) as [|z l IH]; [by intros ?%elem_of_nil|]. simpl in Hu. apply NoDup_cons in Hu as [Hn Hu].
  intros [->|Hx]%elem_of_cons [->|Hy]%elem_of_cons E; [done|..|by apply IH]; destruct Hn; apply list_elem_of_fmap; eauto.
Qed.

Lemma mentioned_generated tr (f : S5Out A → bool) id :
  trace_ok tr → existsb f tr = true → (∀ o, f o = true → mentions o = Some id) → id ∈ generated_ids tr.
Proof.
  intros [_ _ Hk] (o & Ho & Hf)%existsb_exists H. rewrite Forall_forall in Hk. apply (Hk o); [by apply list_elem_of_In|by apply H].
Qed.

Lemma announced_generated tr id : trace_ok tr → announced id tr = true → id ∈ generated_ids tr.
Proof.
  intros Htr Ha. eapply mentioned_generated; [done..|]. intros o Ho. destruct o as [[]| | | | | | | | | |]; try done. simpl in *. f_equal. lia.
Qed.

(** A connection of UDP for which packets wait. *)
Lemma pending_conn s p c id :
  top s → l_by_id s !! u32 id = Some p → l_conns s !! p = Some c → udp_announced id (l_out s) = true →
  k_id c = id ∧ k_proto c = S5_UDP.
Proof.
  intros [Hi Hs] Hb Hc Hu. assert (Ha : announced id (l_out s) = true).
  { destruct (announced id (l_out s)) eqn:E; [done|]. by rewrite udp_unannounced in Hu. }
  destruct (h_by_id s (i_heap _ _ Hi) _ _ Hb) as (c' & Hc' & E). simplify_eq. pose proof (i_told _ _ Hi p c Hc) as Ht.
  assert (k_id c = id) as Hid by (eapply same_u32; [apply Hi|apply Ht|by apply announced_generated; [apply Hi|]|done]).
  split; [done|]. apply Z.eqb_eq. rewrite <- (tc_udp _ _ _ Ht); by rewrite Hid.
Qed.

Notation grown s := (λ _ s', top s' ∧ grows s s').

Lemma wp_deliver_pending packets p c s :
  top s → l_conns s !! p = Some c → k_proto c = S5_UDP → accepted (k_id c) (l_out s) = true →
  wps (deliver_pending rec p (k_id c) packets) (grown s) s.
Proof.
  revert c s. induction packets as [|packet packets IH]; intros c s Ht Hc Hu Hac; simpl.
  { wp_step. split; [done|]. exists []. by rewrite app_nil_r. }
  wp_step. eapply wp_raise_read; [done..|]. intros x s1 Ht1 Hs1 Hg1. wp_step.
  - wp_step. apply wp_goes_on. intros c1 Hc1. specialize (Hs1 c1 Hc1).
    rewrite <- (sim_id _ _ Hs1). assert (Hu1 : k_proto c1 = S5_UDP) by (by rewrite (sim_proto _ _ Hs1)).
    eapply (wp_end rec rec_ok [p] [] s1 p c1); [apply Ht1|done|apply not_elem_of_nil|by rewrite Hu1|left; by apply list_elem_of_singleton|].
    intros s2 Hi2 Hf2 _ _. split; [split; [done|by eapply calm_frame, Ht1]|]. eapply grows_trans; [done|].
    destruct (f_out _ _ _ Hf2) as (tr & ? & _). by exists tr.
  - destruct packets as [|packet' packets]; [by wp_step|]. wp_step. apply wp_goes_on. intros c1 Hc1. specialize (Hs1 c1 Hc1).
    rewrite <- (sim_id _ _ Hs1). assert (Hu1 : k_proto c1 = S5_UDP) by (by rewrite (sim_proto _ _ Hs1)).
    eapply eff_wp_mono; [eapply (IH c1)|]; [done..| |].
    + destruct Hg1 as [tr ->]. rewrite (sim_id _ _ Hs1), accepted_app. by rewrite Hac.
    + intros _ s2 [Ht2 Hg2]. split; [done|]. by eapply grows_trans.
Qed.

Lemma wp_send_pending s : top s → wps (send_pending_udp_data rec) at_top s.
Proof.
  intros Ht. unfold send_pending_udp_data. repeat wp_step.
  set (s0 := set_l_with_pending [] _). simpl. assert (Ht0 : top s0).
  { destruct Ht as [[] Hcalm]. split; [|done]. split; try done; [by eapply heap_ok_same, i_heap|]. split; [apply i_tasks|]. by intros id ?%elem_of_nil. }
  eapply eff_wp_mono; [apply (wp_for_each known_fault _ (λ ids s', top s' ∧ ∀ id, id ∈ ids → accepted id (l_out s') = true ∧ udp_announced id (l_out s') = true))|].
  - split; [done|]. apply (i_tasks _ _ (proj1 Ht)).
  - clear s Ht s0 Ht0. intros id ids s [Ht Hids]. unfold find_connection. do 2 wp_step. destruct (l_by_id s !! u32 id) as [p|] eqn:Hb.
    2: { wp_step. split; [done|]. intros id' Hid'. apply Hids. by apply elem_of_cons; right. }
    destruct (h_by_id s (i_heap _ _ (proj1 Ht)) _ _ Hb) as (c & Hc & _). wp_step. eapply wp_s5_conn_at; [done|].
    destruct (Hids id) as [Hac Hua]; [by apply elem_of_cons; left|]. destruct (pending_conn s p c id Ht Hb Hc Hua) as [<- Hu].
    wp_step. eapply wp_upd; [done|]. set (c1 := set_k_pending [] c). assert (Ht1 : top (put p c1 s)).
    { split; [apply inv_put_pending; [apply Ht|done]|]. apply calm_put; [apply Ht|]. right. apply (proj2 (proj2 Ht) p c Hc Hu). }
    change (k_id c) with (k_id c1). eapply eff_wp_mono; [apply wp_deliver_pending; [done|apply lookup_insert_eq|done..]|].
    intros _ s2 [Ht2 [tr Hg]]. split; [done|]. intros id' Hid'. rewrite Hg, accepted_app, udp_announced_app. simpl.
    destruct (Hids id') as [-> ->]; [by apply elem_of_cons; right|]. done.
  - by intros _ s' [? _].
Qed.

Lemma wp_udp_event_handler id r what s :
  top s → l_relay_by_id s !! u32 id = Some r → wps (udp_event_handler rec id what) at_top s.
Proof.
  intros Ht Hr. unfold udp_event_handler, find_connection. do 4 wp_step. rewrite Hr.
  destruct (h_relay_by_id s (i_heap _ _ (proj1 Ht)) _ _ Hr) as (rel & p & c & Hrel & Htc & Hc & Hid).
  destruct (h_conn s (i_heap _ _ (proj1 Ht)) p c Hc) as [Hb _]. rewrite Hid in Hb. rewrite Hb.
  destruct what as [data src| |error|]; try by wp_step.
  - wp_step. eapply wp_s5_conn_at; [done|]. wp_step. apply wp_emit. set (s1 := push _ s).
    assert (Ht1 : top s1) by (split; [by apply inv_answered; [apply Ht|..]|apply Ht]).
    assert (Hcl : from_client s1).
    { exists (k_id c). unfold last_datagram. simpl. rewrite datagrams_app. unfold datagrams at 2. simpl. rewrite last_snoc. split; [done|]. apply authed_app.
      destruct (h_relay s (i_heap _ _ (proj1 Ht)) r rel Hrel) as (_ & (p' & c' & Htc' & Hc' & Hp0 & Hest & _) & _). simplify_eq.
      apply (tc_authed _ _ _ (told_top s p c Ht Hc)); [by rewrite Hp0|by rewrite Hest]. }
    wp_step; [|done]. intros _. wp_step. eapply wp_process_udp_header; [done..|]. intros [[q n]|] s' Ht' Hx Hcl'; [|by wp_step].
    destruct (Hx q n eq_refl) as (d & Hd & Hu). by eapply wp_handle_udp_read.
  - eapply wp_terminate_top; [done..|]. unfold is_udp_association_tcp_connection. rewrite Hid, Hr.
    destruct (h_relay s (i_heap _ _ (proj1 Ht)) r rel Hrel) as (_ & (p' & c' & Htc' & Hc' & Hp0 & _) & _). simplify_eq. by rewrite Hp0.
Qed.

(** ** Stopping *)

Lemma wp_table_buckets t s (Q : list (Z * Z) → listener → Prop) :
  (∀ l, (∀ k, k ∈ l.*2 ↔ is_Some (t !! k)) → NoDup l.*2 → Q l s) → wps (table_buckets t) Q s.
Proof.
  intros H. unfold table_buckets. destruct (bool_decide _) eqn:E; [|apply eff_wp_env_fault]. apply bool_decide_eq_true in E as (Hd & Hn & _).
  wp_step. apply H; [|done]. intros k. rewrite <- elem_of_dom, <- Hd. by rewrite elem_of_list_to_set.
Qed.

Lemma wp_clean_up_udp_relays s (Q : unit → listener → Prop) :
  inv [] s → (∀ s', inv [] s' → l_relay_by_id s' = ∅ → Q tt s') →
  wps (clean_up_udp_relays rec) Q s.
Proof.
  intros Hi H. unfold clean_up_udp_relays. do 3 wp_step. apply wp_table_buckets. intros l Hl Hn.
  eapply eff_wp_mono; [apply (wp_for_each known_fault _ (λ bs s', inv [] s' ∧ NoDup bs.*2
                            ∧ ∀ k, k ∈ bs.*2 ↔ is_Some (l_relay_by_id s' !! k)))|].
  - by split_and!.
  - clear Hi Hl Hn. intros [b k] bs s1 (Hi & Hn & Hk). simpl in *. apply NoDup_cons in Hn as [Hnk Hn].
    destruct (proj1 (Hk k)) as [r Hr]; [by apply elem_of_cons; left|].
    destruct (h_relay_by_id s1 (i_heap _ _ Hi) _ _ Hr) as (rel & p & c & Hrel & Htc & Hc & Hid).
    do 2 wp_step. rewrite Hr. wp_step. apply wp_the. wp_step. eapply wp_relay_at; [done|]. wp_step. rewrite Htc. apply wp_the.
    destruct (h_relay s1 (i_heap _ _ Hi) r rel Hrel) as (_ & (p' & c' & Htc' & Hc' & Hp0 & _) & _). simplify_eq.
    eapply wp_terminate; [done..|]. intros s2 Hi2 _ Hr2 _. split_and!; [done..|]. intros k. rewrite Hr2.
    destruct (decide (k = u32 (k_id c))) as [->|Hne].
    + rewrite lookup_delete_eq. split; [done|]. by intros [? ?].
    + rewrite lookup_delete_ne by done. rewrite <- Hk. rewrite elem_of_cons. naive_solver.
  - intros [] s' (Hi' & _ & Hk). apply H; [done..|]. apply map_empty. intros k. apply eq_None_not_Some. intros Hx.
    apply Hk in Hx. by apply elem_of_nil in Hx.
Qed.

(** While the connections are cleaned up the calls of the owner find nothing. *)
Lemma wp_call_stopping call s :
  heap_ok s → l_stopping s = true → wps (rec call) (λ _ s', s' = s) s.
Proof.
  intros Hh Hst. destruct fuel as [|n]; simpl; [apply eff_wp_env_fault|]. do 2 wp_step. unfold call_allowed.
  destruct (l_by_id s !! u32 (call_id call)) as [p|] eqn:Hp.
  - destruct (h_by_id s Hh _ _ Hp) as (c & -> & _). rewrite Hst, andb_false_r. apply eff_wp_env_fault.
  - destruct call; unfold api_call, socks5_listener_complete_connect_request, socks5_listener_send_data, socks5_listener_turn_read,
      socks5_listener_flow_ctrl_info, socks5_listener_close_connection, find_connection; simpl in Hp.
    all: repeat (wp_step || rewrite Hp); done.
Qed.

Lemma wp_closed_stopping id error s (Q : unit → listener → Prop) :
  heap_ok s → l_stopping s = true →
  (∀ x, Q tt (push (Answered (EClosed id error) x) (push (Raised (EClosed id error)) s))) →
  wps (raise_closed rec id error) Q s.
Proof.
  intros Hh Hst H. unfold raise_closed, raise. do 2 wp_step. apply wp_emit. do 3 wp_step. set (s1 := push _ s) in *.
  assert (Hh1 : heap_ok s1) by (by eapply heap_ok_same, Hh).
  eapply eff_wp_mono; [apply (wp_for_each known_fault _ (λ _ s', s' = s1)); [done|]|].
  - intros call _ s2 ->. by apply wp_call_stopping.
  - intros _ s2 ->. do 4 wp_step. simpl. wp_step. apply wp_emit. do 2 wp_step. apply H.
Qed.

(** What is left after the listener was stopped. *)
Definition emptied s : Prop := l_conns s = ∅ ∧ l_by_id s = ∅ ∧ l_relays s = ∅ ∧ l_relay_by_id s = ∅.

Lemma emptied_heap s : heap_ok s → l_conns s = ∅ → l_relay_by_id s = ∅ → emptied s.
Proof.
  intros Hh Hc Hr. split_and!; [done| | |done]; apply map_empty; intros k.
  - destruct (l_by_id s !! k) as [p|] eqn:Hp; [|done]. destruct (h_by_id s Hh k p Hp) as (c & Hc' & _). by rewrite Hc in Hc'.
  - destruct (l_relays s !! k) as [rel|] eqn:Hk; [|done].
    destruct (h_relay s Hh k rel Hk) as (_ & (p & c & _ & Hp & _) & _). by rewrite Hc in Hp.
Qed.

(** The buckets that are left are those of the connections that are left. *)
Definition cleaning (bs : list (Z * Z)) s : Prop :=
  heap_ok s ∧ l_stopping s = true ∧ l_relay_by_id s = ∅ ∧ NoDup bs.*2
  ∧ ∀ k, k ∈ bs.*2 ↔ ∃ p c, l_conns s !! p = Some c ∧ u32 (k_id c) = k.

Lemma wp_clean_up_one b k bs s :
  cleaning ((b, k) :: bs) s →
  wps (p ← gets (λ s, l_by_id s !! k); p ← the p; _ ← destroy_connection p; raise_closed rec b 0) (λ _ s', cleaning bs s') s.
Proof.
  intros (Hh & Hst & Hr & Hn & Hk). simpl in *. apply NoDup_cons in Hn as [Hnk Hn].
  destruct (proj1 (Hk k)) as (p & c & Hc & Hid); [by apply elem_of_cons; left|].
  destruct (h_conn s Hh p c Hc) as [Hb _]. rewrite Hid in Hb. do 2 wp_step. rewrite Hb. wp_step. apply wp_the. wp_step.
  apply (wp_destroy p c); [done..|].
  assert (Hh1 : heap_ok (destroyed p c s)) by (apply heap_ok_destroyed; [done|by rewrite Hr|done]).
  apply wp_closed_stopping; [done..|]. intros x. split_and!; [by eapply heap_ok_same, Hh1|done..|].
  intros k'. simpl. split.
  - intros Hk'. destruct (proj1 (Hk k')) as (q & d & Hd & E); [by apply elem_of_cons; right|]. exists q, d.
    rewrite lookup_delete_ne; [done|]. intros <-. simplify_eq. by destruct Hnk.
  - intros (q & d & Hd & <-). apply lookup_delete_Some in Hd as [Hne Hd].
    assert (Hin : u32 (k_id d) ∈ k :: bs.*2) by (apply Hk; eauto). apply elem_of_cons in Hin as [E|?]; [|done].
    destruct (h_conn s Hh q d Hd) as [Hb' _]. rewrite E in Hb'. congruence.
Qed.

Lemma wp_clean_up_connections s (Q : unit → listener → Prop) :
  heap_ok s → l_relay_by_id s = ∅ → (∀ s', emptied s' → Q tt s') → wps (clean_up_connections rec) Q s.
Proof.
  intros Hh Hr H. unfold clean_up_connections. do 5 wp_step. apply wp_table_buckets. intros l Hl Hn. wp_step.
  eapply eff_wp_mono; [apply (wp_for_each known_fault _ cleaning)|].
  - split; [by eapply heap_ok_same, Hh|]. split_and!; try done. intros k. rewrite Hl. simpl. split.
    + intros [p Hp]. destruct (h_by_id s Hh k p Hp) as (c & ?). by exists p, c.
    + intros (p & c & Hc & <-). exists p. apply (h_conn s Hh p c Hc).
  - intros [b k] bs s1. apply wp_clean_up_one.
  - intros [] s' (Hh' & _ & Hr' & _ & Hk). wp_step. apply H.
    apply emptied_heap; [by eapply heap_ok_same, Hh'| |done]. simpl. apply map_empty. intros p.
    destruct (l_conns s' !! p) as [c|] eqn:Hc; [|done]. assert (u32 (k_id c) ∈ []) as ?%elem_of_nil; [|done]. apply Hk. eauto.
Qed.

Lemma wp_stop s (Q : unit → listener → Prop) :
  top s → (∀ s', emptied s' → Q tt s') → wps (socks5_listener_stop rec) Q s.
Proof.
  intros [Hi _] H. unfold socks5_listener_stop.
  assert (Hrest : ∀ s2, inv [] s2 → wps (_ ← modify (set_l_task false); _ ← clean_up_udp_relays rec; clean_up_connections rec) Q s2).
  { intros s2 Hi2. do 3 wp_step. apply wp_clean_up_udp_relays; [eapply inv_same; [|exact Hi2]; by split_and!|].
    intros s3 Hi3 Hr3. apply wp_clean_up_connections; [apply Hi3|done..]. }
  do 3 wp_step. destruct (l_listening s); wp_step; apply Hrest; [|done]. eapply inv_same; [|exact Hi]. by split_and!.
Qed.

Lemma wp_destroy_listener s : emptied s → wps (socks5_listener_destroy rec) (λ _ s', s' = s) s.
Proof.
  intros (_ & Hb & _ & Hr). unfold socks5_listener_destroy. do 3 wp_step. rewrite Hr, bool_decide_eq_true_2 by done. wp_step; [done|intros _].
  do 2 wp_step. rewrite Hb, bool_decide_eq_true_2 by done. by wp_step.
Qed.

(** The end of a listener. *)
Definition released s : Prop := emptied s ∧ l_listening s = None ∧ l_deferred s = ∅.

Lemma wp_s5_deinit s : top s → wps (deinit fuel) (λ _ s', released s') s.
Proof.
  intros Ht. unfold deinit. wp_step. apply wp_stop; [done|]. intros s1 He1. wp_step.
  eapply eff_wp_mono; [by apply wp_destroy_listener|]. intros _ s2 ->. wp_step. by split_and!.
Qed.

(** ** Starting *)

(** What starting may change. *)
Definition started s s' : Prop := ∃ l on port, s' = set_l_listening on port (set_l_out (l_out s ++ (Sys <$> l)) s).

Lemma started_refl s : started s s.
Proof. exists [], (l_listening s), (l_port s). rewrite app_nil_r. by destruct s. Qed.

Lemma started_sys s s' call : started s s' → started s (push (Sys call) s').
Proof. intros (l & on & port & ->). exists (l ++ [call]), on, port. unfold push. simpl. by rewrite fmap_app, app_assoc. Qed.

Lemma started_pushed s s1 s' : started s s1 → pushed_sys s1 s' → started s s'.
Proof. intros (l & on & port & ->) [l' ->]. exists (l ++ l'), on, port. simpl. by rewrite fmap_app, app_assoc. Qed.

Lemma started_set s s' on port : started s s' → started s (set_l_listening on port s').
Proof. intros (l & on' & port' & ->). by exists l, on, port. Qed.

Lemma top_started s s' : started s s' → top s → top s'.
Proof.
  intros (l & on & port & ->) [Hi Hs]. split; [|done]. eapply inv_same; [|apply (inv_pushed_sys [] s); [by exists l|done]]. by split_and!.
Qed.

Lemma wp_sys_started s0 call s (Q : Z → listener → Prop) :
  started s0 s → (∀ x s', started s0 s' → Q x s') → wps (sys call) Q s.
Proof. intros Hs H. apply wp_sys. intros x. by apply H, started_sys. Qed.

Lemma wp_open_listen_socket s0 s (Q : Socks5ListenerStartResult → listener → Prop) :
  started s0 s → (∀ x s', started s0 s' → Q x s') → wps open_listen_socket Q s.
Proof.
  intros Hs H. unfold open_listen_socket. wp_step. eapply wp_sys_started; [done|]. clear s Hs. intros fd s1 Hs1. wp_step; [wp_step; by apply H|].
  assert (Hend : ∀ res s, started s0 s → wps (_ ← sys SysClose; mret res) Q s).
  { intros res s Hs. wp_step. eapply wp_sys_started; [done|]. intros x s' Hs'. wp_step. by apply H. }
  assert (Hrest : ∀ (ok : bool) s, started s0 s → wps (
      if negb ok then _ ← sys SysClose; mret SOCKS5L_START_FAILURE
      else
        r ← sys SysBind;
        err ← gets (λ s, s5_errno (l_out s));
        if negb (r =? 0) then
          _ ← sys SysClose;
          mret (if err =? EADDRINUSE then SOCKS5L_START_ADDR_IN_USE else SOCKS5L_START_FAILURE)
        else
          r ← sys SysListen;
          if negb (r =? 0) then _ ← sys SysClose; mret SOCKS5L_START_FAILURE
          else _ ← modify (λ s, set_l_listening (Some true) (l_port s) s); mret SOCKS5L_START_SUCCESS) Q s).
  { intros ok s Hs. destruct ok; simpl; [|by apply Hend]. wp_step. eapply wp_sys_started; [done|]. intros x s2 Hs2. do 2 wp_step.
    wp_step; [by apply Hend|]. wp_step. eapply wp_sys_started; [done|]. intros y s3 Hs3. wp_step; [by apply Hend|]. do 3 wp_step.
    by apply H, started_set. }
  wp_step. wp_step. eapply wp_sys_started; [done|]. intros x s2 Hs2. wp_step; [wp_step; by apply Hrest|]. wp_step.
  eapply wp_sys_started; [done|]. intros y s3 Hs3. apply wp_all_zero. intros ok s4 Hs4. apply Hrest. by eapply started_pushed.
Qed.

Lemma wp_start s : top s → wps socks5_listener_start at_top s.
Proof.
  intros Ht. unfold socks5_listener_start. do 3 wp_step.
  assert (Hend : ∀ res s', started s s' → wps (_ ← match res with SOCKS5L_START_SUCCESS => note_port | _ => skip end; mret res) at_top s').
  { intros res s' Hs'. wp_step. destruct res; try (do 2 wp_step; by eapply top_started). unfold note_port. do 2 wp_step. wp_step; intros _.
    - do 5 wp_step. wp_step. eapply top_started; [|done]. by apply started_set.
    - wp_step. by eapply top_started. }
  destruct (l_listening s) as [on|].
  - wp_step. eapply wp_sys_started; [apply started_refl|]. intros x s1 Hs1. wp_step; [|wp_step; by apply (Hend SOCKS5L_START_FAILURE)].
    do 3 wp_step. by apply (Hend SOCKS5L_START_SUCCESS), started_set.
  - eapply wp_open_listen_socket; [apply started_refl|]. intros res s' Hs'. by apply Hend.
Qed.

(** ** Operations *)

Lemma wp_on_socket id f s :
  top s →
  (∀ p c k, l_by_id s !! u32 id = Some p → l_conns s !! p = Some c → k_socket c = Some k → k_proto c ≠ S5_UDP → ts_ssl_pending k = [] →
     wps (f p k) at_top s) →
  wps (on_socket id f) at_top s.
Proof.
  intros Ht H. unfold on_socket, find_connection. do 2 wp_step. destruct (l_by_id s !! u32 id) as [p|] eqn:Hb; [|apply eff_wp_env_fault].
  destruct (h_by_id s (i_heap _ _ (proj1 Ht)) _ _ Hb) as (c & Hc & _). wp_step. eapply wp_s5_conn_at; [done|].
  destruct (k_socket c) as [k|] eqn:Hk; [|apply eff_wp_env_fault].
  assert (Hu : k_proto c ≠ S5_UDP) by (intros E; by destruct (udp_socket s p c (proj1 Ht) Hc E) as [? _]; congruence).
  destruct (conn_socket _ _ _ _ (proj1 Ht) Hc Hu) as [_ (k' & Hk' & Hpd)]. simplify_eq. by eapply H.
Qed.

(** The socket of a connection changes, but not what is to be read from it. *)
Lemma top_put_socket s p c k k' :
  top s → l_conns s !! p = Some c → k_socket c = Some k → k_proto c ≠ S5_UDP → ts_input k' = ts_input k → ts_ssl_pending k' = [] →
  top (put p (set_k_socket (Some k') c) s).
Proof.
  intros [Hi Hs] Hc Hk Hu Hin Hpd. split; [|apply calm_put; [done|by left]].
  eapply inv_put; [done| | |done|done].
  - apply shape_socket; [by eapply conn_socket|done].
  - eapply told_same; [by apply (i_told _ _ Hi p c)|done..|]. simpl. rewrite Hk. by constructor.
Qed.

Lemma wp_arrive p c k data s :
  top s → l_conns s !! p = Some c → k_socket c = Some k → k_proto c ≠ S5_UDP → ts_ssl_pending k = [] →
  top (push (Got (k_id c) data) (put p (set_k_socket (Some (set_ts_input (ts_input k ++ data) k)) c) s)).
Proof.
  intros [Hi Hs] Hc Hk Hu Hpd. split; [|apply (calm_put p (set_k_socket _ c)); [done|by left]]. pose proof (i_told _ _ Hi p c Hc) as Ht.
  eapply inv_put_push; [done..| | | | |done].
  - apply shape_socket; [by eapply conn_socket|done].
  - by intros id [= <-].
  - destruct Ht. split; simpl; rewrite ?udp_announced_app, ?generated_ids_app, ?announced_app, ?ended_app, ?accepted_app, ?got_app, ?drained_app,
      ?taken_app, ?app_nil_r, ?orb_false_r; auto.
    + intros H1 H2. by apply authed_app, tc_authed.
    + intros Hb k' [= <-]. rewrite (tc_stream Hb k Hk). unfold got. simpl. rewrite Z.eqb_refl. simpl. by rewrite app_nil_r, <- !app_assoc.
    + intros H1 H2. apply tc_taken; [by rewrite Hk|done].
    + intros H1 H2 k' [= <-]. destruct (tc_command H1 H2 k Hk) as (v & l & E). exists v, (l ++ data). simpl. by rewrite E.
  - apply trace_ok_snoc; [apply Hi|done..|]. intros id [= <-]. apply Ht.
Qed.

Lemma wp_deferred task id graceful s :
  top s → l_deferred s !! task = Some (id, graceful) →
  wps (_ ← modify (λ s, set_l_deferred (delete task (l_deferred s)) s); socks5_listener_close_connection rec id graceful) at_top s.
Proof.
  intros Ht Hd. assert (Ha := proj1 (i_tasks _ _ (proj1 Ht)) task id graceful Hd). do 2 wp_step. set (s1 := set_l_deferred _ s).
  assert (Ht1 : top s1).
  { destruct Ht as [[] Hs]. split; [|done]. split; try done; [by eapply heap_ok_same, i_heap|]. split; [|apply i_tasks].
    simpl. intros t id' g [_ H]%lookup_delete_Some. by apply (proj1 i_tasks t id' g). }
  assert (Ha1 : announced id (l_out s1) = true) by done. clearbody s1. clear s Ht Hd Ha. destruct (Ht1) as [Hi Hs].
  destruct (l_by_id s1 !! u32 id) as [p|] eqn:Hb.
  - destruct (h_by_id s1 (i_heap _ _ Hi) _ _ Hb) as (c & Hc & E). pose proof (told_top s1 p c Ht1 Hc) as Htc.
    assert (k_id c = id) as <- by (eapply same_u32; [apply Hi|apply Htc|by apply announced_generated; [apply Hi|]|done]).
    assert (He : ended (k_id c) (l_out s1) = false) by (by apply Htc).
    eapply eff_wp_mono; [eapply (wp_close_known rec rec_ok [] s1 p c); try done; [by right|apply not_elem_of_nil|]|].
    + by eapply allowed_conn.
    + intros _ s' [Hi' Hf']. split; [done|]. by eapply calm_frame.
  - unfold socks5_listener_close_connection, find_connection. do 2 wp_step. rewrite Hb. by wp_step.
Qed.

Lemma wp_s5_run_op op s : top s → wps (run_op fuel op) at_top s.
Proof.
  intros Ht. destruct op as [| |id data|id|id|id what|id what|call|task id graceful|task|]; unfold run_op.
  - wp_step. eapply eff_wp_mono; [by apply wp_start|]. intros x s' Hs'. by wp_step.
  - by apply wp_on_accept.
  - apply wp_on_socket; [done|]. intros p c k _ Hc Hk Hu Hpd. wp_step; [apply eff_wp_env_fault|]. wp_step. eapply wp_s5_conn_at; [done|].
    wp_step. eapply wp_upd; [done|]. apply wp_emit. by apply wp_arrive.
  - apply wp_on_socket; [done|]. intros p c k Hb Hc Hk Hu Hpd. simpl. wp_step. eapply wp_upd; [done|].
    assert (Ht1 : top (put p (set_k_socket (Some (set_ts_task false k)) c) s)) by (by eapply top_put_socket). wp_step; [|done]. intros _.
    eapply wp_sock_handler; [done|done|apply lookup_insert_eq|done..].
  - apply wp_on_socket; [done|]. intros p c k Hb Hc Hk Hu Hpd. wp_step. eapply wp_upd; [done|].
    assert (Ht1 : top (put p (set_k_socket (Some (on_eof k)) c) s)) by (by eapply top_put_socket).
    eapply wp_sock_handler; [done|done|apply lookup_insert_eq|done..].
  - destruct what; try apply eff_wp_env_fault; (apply wp_on_socket; [done|]; intros p c k Hb Hc Hk Hu Hpd; by eapply wp_sock_handler).
  - do 2 wp_step. destruct (l_relay_by_id s !! u32 id) as [r|] eqn:Hr; [|apply eff_wp_env_fault]. by eapply wp_udp_event_handler.
  - eapply eff_wp_mono; [apply wp_nested_call, Ht|]. intros _ s' [Hi' Hf']. split; [done|]. by eapply calm_frame, Ht.
  - do 6 wp_step. wp_step; [apply eff_wp_env_fault|]. wp_step. apply orb_false_iff in Heqb as [_ Hk%negb_false_iff].
    destruct Ht as [[] Hs]. split; [|done]. split; try done; [by eapply heap_ok_same, i_heap|]. split; [|apply i_tasks]. simpl.
    intros t id' g [[<- [= <- <-]]|[_ H]]%lookup_insert_Some; [done|]. by apply (proj1 i_tasks t id' g).
  - do 2 wp_step. destruct (l_deferred s !! task) as [[id graceful]|] eqn:Hd; [|apply eff_wp_env_fault]. by apply wp_deferred.
  - do 2 wp_step. destruct (l_task s); [by apply wp_send_pending|apply eff_wp_env_fault].
Qed.

Lemma wp_s5_run_ops ops s : top s → wps (run_ops fuel ops) at_top s.
Proof.
  intros Ht. apply (wp_for_each known_fault _ (λ _ s', top s')); [done|]. intros op _ s' Ht'. by apply wp_s5_run_op.
Qed.

Lemma s5_top_new port : top (listener_new port).
Proof.
  split; [|by split]. split.
  - by split; try done; intros p [[? ?]|[? ?]].
  - done.
  - split; [|by apply NoDup_nil_2|done]. intros pre post e H. by destruct pre.
  - done.
  - split; [done|]. by intros id ?%elem_of_nil.
  - done.
Qed.

End Runs.

(** ** All runs of a listener *)

Section Theorems.
Context {A : Type} `{!SocketAddressOps A, !S5Env A}.
Notation listener := (Socks5Listener (A:=A)).

Lemma run_top fuel ops port s :
  run_ops fuel ops (listener_new port) = Done (tt, s) → top s.
Proof.
  intros Hr. pose proof (wp_s5_run_ops fuel ops _ (s5_top_new port)) as Hw. apply wp_run in Hw. by rewrite Hr in Hw.
Qed.


(** Claim C11. With a user name configured, the owner is asked about a connection only
    after its client has sent that user name and the password: for a connection of
    TCP on that connection itself, and for one of UDP on the TCP connection of the
    very association whose relay received the datagram that is being handled.  The
    owner's ids differ in their low 32 bits. *)
Theorem socks_requires_authentication fuel ops port s pre post id proto src dst app :
  s5_username ≠ [] → run_ops fuel ops (listener_new port) = Done (tt, s) →
  l_out s = pre ++ Raised (EConnectRequest id proto src dst app) :: post →
  ∃ tid chunk up,
    (if proto =? S5_UDP then last_datagram pre = Some tid else tid = id)
    ∧ SockPeeked tid chunk ∈ pre ∧ read_username_password_request chunk = Some up
    ∧ up_uname up = s5_username ∧ up_passwd up = s5_password.
Proof.
  intros Hu Hr Ho. destruct (run_top _ _ _ _ Hr) as [Hi _].
  destruct (to_events _ (i_trace _ _ Hi) _ _ _ Ho) as (_ & _ & tid & Htid & [?|Hau]); [done|].
  apply Exists_exists in Hau as (o & Hin & chunk & up & -> & Hup & Hn & Hp). by exists tid, chunk, up.
Qed.

(** What must have been the case when an event is raised. *)
Definition protocol_ok (tr : list (S5Out A)) (e : Socks5ListenerEvent A) : Prop :=
  match e with
  | EConnectRequest id _ _ _ _ => announced id tr = false ∧ ended id tr = false
  | EAccepted id => announced id tr = true ∧ ended id tr = false
  | ERead id _ | EDataSent id _ => accepted id tr = true ∧ ended id tr = false
  | EClosed id _ => ended id tr = false
  | EGenerateId => True
  end.


(** Claim C13. Every byte a client has sent is in one of three places, in order: it was
    read by the listener itself as part of the handshake, it was taken by the owner,
    or it is still in the socket. *)
Theorem socks_stream_integrity fuel ops port s p c k :
  run_ops fuel ops (listener_new port) = Done (tt, s) →
  l_conns s !! p = Some c → k_socket c = Some k →
  got (k_id c) (l_out s) = drained (k_id c) (l_out s) ++ taken (k_id c) (l_out s) ++ ts_input k.
Proof. intros Hr Hc Hs. apply (tc_stream _ _ _ (told_top s p c (run_top _ _ _ _ Hr) Hc)); done. Qed.


End Theorems.
