(* ===== verification/Socks5Demo.v ===== *)
(** * Concrete runs of the SOCKS5 listener

    Witnesses of the theorems about all runs, and runs that reach the faults and
    flaws the theorems leave. *)
From S2P Require Import Prelude Effects WireUtils Socks5Wire TcpSocket Socks5 Socks5Inv Socks5Safe Socks5Read Socks5Runs.

(** An environment: ids are the lengths of the trace, the owner takes all data,
    everything of the system but [failing] succeeds. *)
Definition demo_answer (failing : SysCall → bool) (writes : bool) (tr : list (S5Out plain_addr)) : Z :=
  match last tr with
  | Some (Raised EGenerateId) => Z.of_nat (length tr)
  | Some (Raised (ERead _ data)) => Z.of_nat (length data)
  | Some (Sys c) => if failing c then -1 else 0
  | Some (SockWrite _ _) => if writes then 0 else -1
  | _ => 0
  end.

(** What the owner does when it is asked about a connection. *)
Definition demo_calls (f : Z → list S5Call) (tr : list (S5Out plain_addr)) : list S5Call :=
  match last tr with Some (Raised (EConnectRequest id _ _ _ _)) => f id | _ => [] end.

Definition demo_env (user password : list Z) (failing : SysCall → bool) (writes : bool)
    (f : Z → list S5Call) : S5Env plain_addr := {|
  s5_ndebug := false;
  s5_username := user;
  s5_password := password;
  s5_no_address := mkPlain [] 0;
  s5_ipv6 := true;
  local_port := λ _, 1080;
  remote_address := λ _, mkPlain [127; 0; 0; 1] 50000;
  bound_address := λ _, Some (mkPlain [127; 0; 0; 1] 40000);
  stack_bytes := λ _, [];
  would_block := λ e, e =? 11;
  contiguous := λ _, 100%nat;
  drains := λ _, true;
  s5_answer := demo_answer failing writes;
  s5_errno := λ _, 0;
  s5_calls := demo_calls f;
  id_buckets := λ t, imap (λ i k, (Z.of_nat i, k.1)) (map_to_list t);
  addr_buckets := λ t, (map_to_list t).*1;
|}.

(** A client that sends [chunks] one by one. *)
Definition client (id : Z) (chunks : list (list Z)) : list (S5Op (A:=plain_addr)) :=
  chunks ≫= λ chunk, [OpArrive id chunk; OpReadable id].

Definition greeting : list Z := [5; 1; 0].
Definition auth_greeting : list Z := [5; 1; 2].
Definition credentials_bytes : list Z := [1; 1; 117; 1; 112].
Definition associate_bytes : list Z := [5; 3; 0; 1; 0; 0; 0; 0; 0; 0].
Definition connect_bytes : list Z := [5; 1; 0; 1; 192; 0; 2; 1; 0; 80].

(** The state in which a run ends. *)
Definition ends {W S : Type} (m : Eff W S unit) (s : S) : bool := match m s with Done _ => true | _ => false end.
Definition end_state {W S : Type} (m : Eff W S unit) (s : S) : S := match m s with Done (_, s) => s | _ => s end.
Lemma ends_done {W S : Type} (m : Eff W S unit) (s : S) : ends m s = true → m s = Done (tt, end_state m s).
Proof. unfold ends, end_state. by destruct (m s) as [[[] s']|w|]. Qed.

Module Plain.
#[local] Instance env : S5Env plain_addr := demo_env [117] [112] (λ _, false) true (λ id, [CallComplete id S5LCR_SUCCESS]).

Definition dgram : list Z := [0; 0; 0; 1; 192; 0; 2; 7; 0; 53; 1; 2; 3].

Definition ops : list S5Op :=
  OpStart :: OpAccept :: client 8 [auth_greeting; credentials_bytes; connect_bytes]
  ++ [OpSock 8 SockFlushed; OpCall (CallTurnRead 8 true)] ++ client 8 [[71; 69; 84]] ++ [OpArrive 8 [33]]
  ++ [OpAccept] ++ client 33 [auth_greeting; credentials_bytes; associate_bytes]
  ++ [OpUdp 33 (UdpReadable dgram (mkPlain [127; 0; 0; 1] 4000)); OpPendingTask].
Definition final : Socks5Listener := end_state (run_ops 3 ops) (listener_new 1080).

Lemma run_done : run_ops 3 ops (listener_new 1080) = Done (tt, final).
Proof. unfold final. refine (ends_done (run_ops 3 ops) (listener_new 1080) _). vm_compute. reflexivity. Qed.

Definition stopped : Socks5Listener := end_state (lifetime 3 ops) (listener_new 1080).

Lemma stop_done : lifetime 3 ops (listener_new 1080) = Done (tt, stopped).
Proof. unfold stopped. refine (ends_done (lifetime 3 ops) (listener_new 1080) _). vm_compute. reflexivity. Qed.

End Plain.

Section Witnesses.
#[local] Existing Instance Plain.env.


(** The request of the datagram's connection came after the credentials on the
    connection of its association. *)
Lemma socks_requires_authentication_witness :
  ∃ chunk up, SockPeeked 33 chunk ∈ take 60 (l_out Plain.final)
    ∧ read_username_password_request chunk = Some up ∧ up_uname up = [117] ∧ up_passwd up = [112].
Proof.
  destruct (socks_requires_authentication 3 Plain.ops 1080 Plain.final (take 60 (l_out Plain.final))
    (drop 61 (l_out Plain.final)) 59 17 (mkPlain [127; 0; 0; 1] 4000) (S5Sockaddr (mkPlain [192; 0; 2; 7] 53)) [])
    as (tid & chunk & up & Ht & Hin & Hup & Hn & Hp); [done|apply Plain.run_done|vm_compute; reflexivity|].
  vm_compute in Ht. injection Ht as <-. exists chunk, up. by split_and!.
Defined.


Lemma socks_stream_integrity_witness : ∃ k,
  got 8 (l_out Plain.final) = drained 8 (l_out Plain.final) ++ taken 8 (l_out Plain.final) ++ ts_input k
  ∧ taken 8 (l_out Plain.final) = [71; 69; 84] ∧ ts_input k = [33].
Proof.
  destruct (l_conns Plain.final !! 0) as [c|] eqn:Hc; [|vm_compute in Hc; discriminate].
  destruct (k_socket c) as [k|] eqn:Hk; [|vm_compute in Hc; simplify_eq; discriminate]. exists k.
  pose proof (socks_stream_integrity 3 Plain.ops 1080 Plain.final 0 c k Plain.run_done Hc Hk) as H.
  vm_compute in Hc. injection Hc as <-. injection Hk as <-. split; [exact H|]. split; vm_compute; reflexivity.
Defined.


End Witnesses.

(** ** The faults that are left *)

Definition fault_of {W S X : Type} (o : Outcome W (X * S)) : option W := match o with Fault w => Some w | _ => None end.

Definition outcome (env : S5Env plain_addr) (ops : list (S5Op (A:=plain_addr))) : option S5Fault :=
  fault_of (run_ops 3 ops (listener_new 1080)).

(** The environments: nothing fails; the sockets of relays cannot be made; the
    owner closes a connection inside the request about it. *)
Definition fine : S5Env plain_addr := demo_env [] [] (λ _, false) true (λ _, []).
Definition no_relays_env : S5Env plain_addr := demo_env [] [] (λ c, match c with SysEvent => true | _ => false end) true (λ _, []).
Definition closing_owner : S5Env plain_addr := demo_env [] [] (λ _, false) true (λ id, [CallClose id true]).

Lemma upd_done {A : Type} `{!SocketAddressOps A, !S5Env A} (s : Socks5Listener (A:=A)) p f c :
  l_conns s !! p = Some c → upd p f s = Done (tt, set_l_conns (<[p := f c]> (l_conns s)) s).
Proof. intros Hc. unfold upd. erewrite eff_bind_done; [done|]. unfold conn_at. by rewrite Hc. Qed.

(** Claim C36. Every request that is refused before its address has arrived makes the
    listener copy past the end of the request: with another version, a command that
    is not supported or a reserved byte that is set, the reply repeats the address
    whether or not all of it is there, and a domain name or an application's name
    without its length has the length -1. *)
Theorem malformed_request_overreads {A : Type} `{!SocketAddressOps A, !S5Env A} rec (s : Socks5Listener (A:=A)) p c ver cmd rsv atyp dst :
  l_conns s !! p = Some c → k_state c = S5CONNS_WAITING_REQUEST →
  ver ≠ SOCKS5_VER ∨ cmd ≠ S5CMD_CONNECT ∧ cmd ≠ S5CMD_UDP_ASSOCIATE ∨ rsv ≠ 0 →
  addr_length_from_request atyp dst < 0 ∨ Z.of_nat (length dst) < addr_length_from_request atyp dst →
  read_chunk rec p (ver :: cmd :: rsv :: atyp :: dst) s = Fault RequestOverread.
Proof.
  intros Hc Hst Hbad Hlen. set (chunk := ver :: cmd :: rsv :: atyp :: dst).
  assert (Hp : ∃ tcp status, parse_request chunk = RequestInvalid tcp status atyp (addr_length_from_request atyp dst) dst).
  { unfold parse_request, chunk. destruct (ver =? SOCKS5_VER) eqn:E1; simpl; [|by eauto].
    destruct (cmd =? S5CMD_CONNECT) eqn:E2, (cmd =? S5CMD_UDP_ASSOCIATE) eqn:E3, (rsv =? 0) eqn:E4; simpl; eauto; lia. }
  assert (Hr : ∀ status lp, invalid_reply status atyp (addr_length_from_request atyp dst) dst lp = None).
  { intros status lp. unfold invalid_reply. destruct (_ <? 0) eqn:E; [done|]. unfold bytes_at. by rewrite (proj2 (Nat.leb_gt _ _)) by lia. }
  destruct Hp as (tcp & status & Hp). unfold read_chunk. erewrite eff_bind_done; [|unfold conn_at; by rewrite Hc]. rewrite Hst.
  unfold read_request. rewrite Hp. destruct tcp; simpl.
  - erewrite eff_bind_done; [|by apply upd_done]. erewrite eff_bind_done; [|apply upd_done; simpl; apply lookup_insert_eq].
    erewrite eff_bind_done; [|done]. by rewrite Hr.
  - erewrite eff_bind_done; [|done]. erewrite eff_bind_done; [|by apply upd_done]. erewrite eff_bind_done; [|done]. by rewrite Hr.
Qed.

(** The state of a listener after the greeting of a client. *)
Definition greeted : Socks5Listener (A:=plain_addr) :=
  end_state (run_ops (S5Env0:=fine) 3 (OpStart :: OpAccept :: client 8 [greeting])) (listener_new 1080).

Lemma malformed_request_overreads_witness :
  read_chunk (S5Env0:=fine) (nested_call (S5Env0:=fine) 3) 0 [5; 2; 0; 3] greeted = Fault RequestOverread
  ∧ read_chunk (S5Env0:=fine) (nested_call (S5Env0:=fine) 3) 0 [5; 2; 0; 1; 127] greeted = Fault RequestOverread.
Proof.
  destruct (l_conns greeted !! 0) as [c|] eqn:Hc; [|vm_compute in Hc; discriminate].
  assert (Hst : k_state c = S5CONNS_WAITING_REQUEST) by (vm_compute in Hc; by injection Hc as <-).
  split; (apply (malformed_request_overreads (S5Env0:=fine) _ _ _ c); [done|done|right; left; done|]); [left|right]; vm_compute; reflexivity.
Defined.

(** The other faults are reached too: the assertion on the address type of the
    reply to an association fails when no relay can be made for a request that names
    a domain, and a connection that the owner closes inside its connect request is
    still used when the handler goes on. *)
Lemma failed_association_asserts :
  outcome no_relays_env (OpStart :: OpAccept :: client 8 [greeting; [5; 3; 0; 3; 1; 97; 0; 80]]) = Some ReplyTypeAssertion.
Proof. vm_compute. reflexivity. Qed.

Lemma close_inside_request_dangles :
  outcome closing_owner (OpStart :: OpAccept :: client 8 [greeting; connect_bytes]) = Some UsedAfterEnd.
Proof. vm_compute. reflexivity. Qed.

(** The owner is not told which connections end when the listener is stopped: an
    accepted connection of TCP is reported under the index of its bucket, and its
    own id is never reported as closed. *)
Lemma stop_reports_buckets :
  let tr := l_out Plain.stopped in
  accepted 8 tr = true ∧ ended 8 tr = false ∧ ended 0 tr = true ∧ l_conns Plain.stopped = ∅.
Proof. split_and!; vm_compute; reflexivity. Qed.
